(* ===== verification/_CoqProject ===== *)
-Q . S2P
Prelude.v
GoStrings.v
GoFloat.v
Sha256.v
TunnelContract.v
TunnelRuntime.v
TunnelValidate.v
TunnelValidateProofs.v
TunnelDecode.v
GatewayInErrors.v
GatewayInConfig.v
GatewayInNegotiation.v
Scheduler.v
LogicalRequest.v
GatewayInSession.v
GatewayInSessionProofs.v
GatewayInRegistry.v
GatewayInSelection.v
GatewayInRegistryProofs.v
GatewayInRouting.v
GatewayOutRegistry.v
GatewayOutSession.v
GatewayOutSessionProofs.v
GatewayOutSteps.v
GatewayOutTables.v
GatewayOutReach.v
GatewayOutSample.v
GatewayOutTunnel.v
GatewayOutConfig.v
GatewayOutClient.v
GoEncoding.v
Effects.v
FileDomain.v
FileEffects.v
FileRepository.v
FileService.v
FileSystem.v
FileHistory.v
FileRuns.v
GoUnicode.v
GoText.v
AuthToken.v
AuthDomain.v
AuthStore.v
AuthSession.v
AuthGuards.v
AuthHistory.v
AuthRuns.v
AuthSecurityStore.v
AuthSecurity.v
AuthSecurityTx.v
AuthSecurityBodies.v
AuthSecurityCommit.v
AuthSecurityOps.v
AuthSecurityRuns.v
UserDomain.v
RegistrationWire.v
RegistrationCodec.v
UserStore.v
UserService.v
UserBooks.v
UserHistory.v
UserGuards.v
UserRuns.v
RegistrationStore.v
RegistrationService.v
RegistrationGuards.v
RegistrationHistory.v
RegistrationRuns.v
RegistrationDelivery.v
RegistrationSamples.v
StaffStore.v
StaffService.v
StaffGuards.v
StaffRuns.v
TunnelFlow.v
