(* ===== verification/Prelude.v ===== *)
(** * MarketMesh: a verification development

    MarketMesh ([src/backend]) is a set of Go services.  The edge process
    gateway-in receives calls from the internet and forwards them over reverse
    tunnels that the internal process gateway-out keeps open to it; behind
    gateway-out are the services, among them one that stores files, one that
    keeps accounts and their sessions, and one that keeps the profiles of users.  This
    development models the tunnel, from the wire format to the two sessions at its
    ends, the files service, the accounts and sessions of the auth service, the user
    service, how a registration gets from auth to user, and the sign-in of staff, and
    proves what makes them correct.

    ** How the sources are modelled

    A Go function is a Rocq function of the same name.  [(T, error)] with a
    possible run-time panic is [result E T]; integers are [Z] with their width
    written out ([u32], [u64], [i64]); byte slices and strings are lists of bytes
    or [string]; maps are [gmap]; objects that are shared by pointer live in a
    heap.  The clock, random bytes, the choices of [select], the order of map
    iteration where it is observable, and the answers of other processes are
    inputs.  Code that is not in the repository is a parameter: the protobuf
    runtime ([ProtoRuntime], [WireLaws], [ProtoMarshal]), [net/url]
    ([UrlPackage]), the internal gRPC clients ([InternalRpc]), the tables of Unicode
    ([UnicodeTables]), the encoding of registration events ([EventCodec], [EventLaws]);
    each has a concrete instance on which the theorems are
    evaluated.  Concurrency is explicit: an
    operation is one critical section or one channel operation, and a property
    holds for all sequences of them.

    ** Shared files

    - [Prelude]: outcomes, machine integers, counting and summing over maps,
      tactics.
    - [GoStrings], [GoUnicode], [GoText], [GoEncoding], [GoFloat], [Sha256]: what the
      sources use of [strings], [unicode] and [utf8] (texts as sequences of code
      points, trimming), hex and base64, binary64 arithmetic, SHA-256 and HMAC
      (evaluated on test vectors).
    - [Effects]: functions that talk to a database or another process, as programs
      of calls; systems of such programs, interleaved call by call; the rule by
      which an invariant of guarded calls holds in every run.

    ** The tunnel contract ([src/backend/api/tunnel/v1], [src/api/proto/tunnel/v1])

    - [TunnelContract], [TunnelRuntime]: the messages, and the protobuf runtime.
    - [TunnelValidate], [TunnelValidateProofs]: [validate.go]; the validators
      accept exactly the frames that are well formed, and never panic.
    - [TunnelDecode]: [decode.go]; the scan of an encoded frame, and that decoded
      frames are well formed.

    ** gateway-in ([src/backend/services/gateway-in/internal/tunnel])

    - [GatewayInErrors], [GatewayInConfig], [GatewayInNegotiation]: errors,
      settings, peer authorization and the negotiation of a policy: accepted
      settings are well formed, exactly the allowed peers are admitted, the
      negotiated policy is the intersection of both.
    - [Scheduler]: the four bounded lanes of outbound frames: they refine bounded
      FIFO queues, no lane starves, no wake-up is lost.
    - [LogicalRequest]: one call: numbering, credit, body and response.  It reaches
      its session through the class [FrameSink] with the laws [FrameSinkLaws].
    - [GatewayInSession], [GatewayInSessionProofs]: one tunnel: its request table,
      tombstones, life cycle and loops; the instance of [FrameSink].  It reaches
      the registry through [InstanceLedger].
    - [GatewayInRegistry], [GatewayInSelection], [GatewayInRegistryProofs],
      [GatewayInRouting]: registration, reservations, weighted selection and the
      opening of calls: exact counters, one Open per call, no starvation of a data
      center, and handlers that refine the atomic steps.

    ** gateway-out ([src/backend/services/gateway-out/internal/tunnel])

    - [GatewayOutRegistry]: the allowed internal calls.
    - [GatewayOutSession]: the session as goroutines that execute one atomic
      operation at a time.  [GatewayOutSessionProofs], [GatewayOutSteps],
      [GatewayOutTables], [GatewayOutReach]: its invariant over all events;
      [GatewayOutTunnel]: what it gives: exact tables, flow control, only valid
      frames, one call with exactly the received body, exactly its response, no
      leaked request.  [GatewayOutSample]: a concrete session.
    - [GatewayOutConfig], [GatewayOutClient]: settings, TLS policy, codec, and the
      loop that reconnects.

    ** Both ends ([TunnelFlow])

    The two handshakes agree on one policy, and a response that gateway-out sends
    arrives at a request of gateway-in as the payload of the call.

    ** Files ([src/backend/services/files])

    - [FileDomain]: manifests, fingerprints and states ([file.go]).
    - [FileEffects]: the calls the service makes, and programs of such calls.
    - [FileRepository]: the SQL statements, constraints and triggers, and the
      repository that issues them ([repository.go], [000001_files.up.sql]).
    - [FileService]: [service.go] and [worker.go] as programs.
    - [FileSystem]: any number of requests and workers, interleaved call by call
      over one database; the other parties answer anything and a statement may
      fail before or after its commit.  Each program only makes guarded calls.
    - [FileHistory], [FileRuns]: the invariant of the system, and what it gives:
      consistent rows, quotas and audit trails, optimistic locking, only scanned
      files are published, and what each request promises.

    ** Accounts and sessions ([src/backend/services/auth])

    - [AuthToken], [AuthStore], [AuthSession]: session tokens and records
      ([domain/session]), the PostgreSQL and Redis stores, and the service, call by
      call.  [AuthGuards], [AuthHistory], [AuthRuns]: its invariant and what it gives:
      consistent rows, refresh tokens that work once, immediate revocation, only
      issued tokens are accepted, bounded assertions.
    - [AuthDomain]: credentials, addresses, accounts and challenges
      ([domain/credential], [domain/security]).
    - [AuthSecurityStore]: the store of account security ([postgressecurity]); a
      transaction is a program over the calls of a unit, run atomically.
    - [AuthSecurity]: [application/security], registration, sign-in, links, changes
      of credentials and the sessions of an account.
    - [AuthSecurityTx], [AuthSecurityBodies], [AuthSecurityCommit]: a calculus of
      weakest preconditions for transactions, what each transaction of the service
      does, and what is committed.  [AuthSecurityOps], [AuthSecurityRuns]: the
      operations, the invariant of all runs, and what it gives: consistent accounts,
      sessions that were earned, codes and links that work once, changes of
      credentials that sign out, limited guessing.

    ** Users ([src/backend/services/user])

    - [UserDomain]: profiles, addresses, settings and avatars ([domain]) and how they
      are normalized; what is normalized is stable, and an accepted book is well formed.
    - [RegistrationWire], [RegistrationCodec]: the event by which auth tells user of a
      new account ([registrationwire] and [registrationevent] of both services): its
      payloads are canonical.
    - [UserStore]: the stores of profiles, settings, addresses, avatars and
      registrations ([adapter/out/postgres*]) over the tables of the migrations.
    - [UserService]: the use cases, the worker that retires avatars and the handling of
      a registration message, call by call.
    - [UserBooks]: the address book as a finite map, which the transaction of [Mutate]
      refines.  [UserHistory]: the invariant of the database and how calls change it.
      [UserGuards]: the calls that a program makes and what it answers.  [UserRuns]:
      the invariant of all runs, and what it gives: consistent accounts that can be
      read back, no lost update, answers that are the caller's own, retired avatars
      that stay retired.

    ** Registration, from auth to user

    - [RegistrationStore]: the credentials and the outbox of auth, the stream of the
      broker and the database of user, with the statements of [adapter/out/postgres],
      [postgresoutbox] and [postgresbackfill].
    - [RegistrationService]: [application/register], [application/login], the publisher
      ([publishregistration], [jetstream]) and the reconciler ([backfillregistration])
      of auth, together with the programs of [UserService], over that state.
    - [RegistrationGuards], [RegistrationHistory]: the calls that the programs make and
      what they answer; the invariant of the databases and the stream.
      [RegistrationRuns]: the invariant of all runs, and what it gives: events are the
      events of registered accounts, published ones are in the stream, acknowledged
      ones have profiles, redelivery never conflicts, the reconciler leaves no gap, and
      a login is answered only the account of its identifier.
    - [RegistrationDelivery]: what happens where nothing fails: the publisher publishes
      everything that is due, and delivered messages create the profiles; the delays
      between attempts.  [RegistrationSamples]: a concrete run of both services.

    ** Staff ([src/backend/services/staff])

    - [StaffStore], [StaffService]: login attempts, sessions, members and invites, the
      sign-in at the provider and what the handlers answer, call by call.
    - [StaffGuards], [StaffRuns]: the calls of each request, the invariant of all runs,
      and what it gives: sign-in only through the provider, login attempts that work
      once, sessions that end for good, invites that admit one member.

    ** Bounds and fuel

    Loops are structural on their data wherever they can be.  The scan of a frame
    has one unit of fuel per byte and consumes at least one byte per field; it is
    proved to return.  Sending a body has one unit per byte of the payload, as each
    round sends at least one.  A wait on a channel with a buffer of one element is
    repeated at most three times before it blocks; blocking is an outcome of its
    own.  Trimming has one unit per byte.  The delay of the publisher doubles at most
    32 times: from a millisecond it exceeds a day, the largest maximum, after 27.  The
    programs of the services have no loops other than over finite lists and the size
    of a batch, so that every request returns; the one exception is a code that is
    drawn again while its digest repeats, at most [cf_draws] times.

    ** What is not modelled

    Telemetry, logging, process wiring and the HTTP, gRPC, S3, scanner and image
    adapters: they are I/O around the modelled parts.  The JSON text of manifests and
    the encryption of queued mail.  Passwords are hashed by a function that may answer
    anything, and random identifiers are drawn without repetition.  The delivery of
    mail, the polling loop of the publisher and its connection
    to the broker, the platform
    libraries (session assertions, workload identities, retry policy) and the call
    bridge of gateway-in.  Test kits, tools and generated code are left out. *)

From stdpp Require Export base tactics list gmap sets strings pretty sorting.
From Stdlib Require Export ZArith Lia.

(** Durations are in nanoseconds. *)
Definition Millisecond : Z := 1000000%Z.
Definition Second : Z := 1000000000%Z.

(** ** Go outcomes

    A Go function that returns [(T, error)] and can hit a run-time panic (index
    out of range, nil dereference) is a function into [result E T]. *)
Inductive result (E A : Type) : Type :=
| Ok (a : A)
| Err (e : E)
| Panic.

Arguments Ok {E A} a.
Arguments Err {E A} e.
Arguments Panic {E A}.

#[export] Instance result_eq_dec `{EqDecision E, EqDecision A} : EqDecision (result E A).
Proof. solve_decision. Defined.

#[export] Instance result_ret {E} : MRet (result E) := fun A a => Ok a.
#[export] Instance result_bind {E} : MBind (result E) :=
  fun A B f m => match m with Ok a => f a | Err e => Err e | Panic => Panic end.
#[export] Instance result_fmap {E} : FMap (result E) :=
  fun A B f m => match m with Ok a => Ok (f a) | Err e => Err e | Panic => Panic end.

Local Open Scope Z_scope.

(** [if cond { return err }] *)
Definition reject_if {E} (b : bool) (e : E) : result E unit :=
  if b then Err e else Ok tt.

(** [if err := f(); err != nil { return wrap(err) }] *)
Definition map_err {E F A} (f : E -> F) (m : result E A) : result F A :=
  match m with Ok a => Ok a | Err e => Err (f e) | Panic => Panic end.

Definition is_ok {E A} (m : result E A) : bool :=
  match m with Ok _ => true | _ => false end.

(** ** Bytes, lengths and machine integers *)

Abbreviation bytes := (list Z) (only parsing).

(** [len(x)] as a Go [int]. *)
Definition len {A} (l : list A) : Z := Z.of_nat (length l).

(** Wrap-around of unsigned machine integers. *)
Definition u64 (z : Z) : Z := z `mod` 2 ^ 64.
Definition u32 (z : Z) : Z := z `mod` 2 ^ 32.
Definition MaxUint64 : Z := 2 ^ 64 - 1.
(** Wrap-around of [int], [int64] and [time.Duration]. *)
Definition i64 (z : Z) : Z := (z + 2 ^ 63) `mod` 2 ^ 64 - 2 ^ 63.

Lemma u64_small z : (0 <= z < 2 ^ 64)%Z -> u64 z = z.
Proof. intros Hz. unfold u64. by apply Z.mod_small. Qed.

Lemma u32_small z : (0 <= z < 2 ^ 32)%Z -> u32 z = z.
Proof. intros Hz. unfold u32. by apply Z.mod_small. Qed.

(** The bytes of a string literal. *)
Definition bytes_of (s : string) : bytes :=
  (fun a => Z.of_N (Ascii.N_of_ascii a)) <$> String.list_ascii_of_string s.

(** [l[i]] *)
Definition index {E A} (l : list A) (i : Z) : result E A :=
  if (i <? 0) then Panic
  else match l !! Z.to_nat i with Some x => Ok x | None => Panic end.

(** [l[lo:hi]] *)
Definition slice {E A} (l : list A) (lo hi : Z) : result E (list A) :=
  if (0 <=? lo) && (lo <=? hi) && (hi <=? len l)
  then Ok (take (Z.to_nat (hi - lo)) (drop (Z.to_nat lo) l))
  else Panic.

(** [bytes.Equal] *)
Definition bytes_Equal (a b : bytes) : bool := bool_decide (a = b).

(** [a || b] where evaluating an operand can panic. *)
Definition or_else {E} (a b : result E bool) : result E bool :=
  x ← a; if x : bool then Ok true else b.

(** [switch value { case c1, c2, ...: return true; default: return false }] *)
Definition switch_in (value : Z) (cases : list Z) : bool := existsb (Z.eqb value) cases.

Lemma i64_small z : - 2 ^ 63 <= z < 2 ^ 63 -> i64 z = z.
Proof. intros Hz. unfold i64. rewrite Z.mod_small; lia. Qed.

Lemma u32_nonneg z : 0 <= u32 z.
Proof. apply Z.mod_pos_bound. done. Qed.

Lemma u32_le z : 0 <= z -> u32 z <= z.
Proof. intros Hz. apply Z.mod_le; [done|lia]. Qed.

Lemma seqZ_snoc m n : 0 <= n -> seqZ m (n + 1) = seqZ m n ++ [m + n].
Proof.
  intros Hn. rewrite seqZ_app by lia. f_equal.
Qed.

Lemma switch_in_true (v : Z) cs : switch_in v cs = true <-> v ∈ cs.
Proof.
  unfold switch_in. rewrite existsb_exists, list_elem_of_In.
  split; [intros (x & ? & ->%Z.eqb_eq); done | intros; exists v; split; [done|lia]].
Qed.

Lemma len_nonneg {A} (l : list A) : (0 <= len l)%Z.
Proof. unfold len. lia. Qed.

Lemma len_nil {A} : len (@nil A) = 0%Z.
Proof. done. Qed.

Lemma len_cons {A} (x : A) l : len (x :: l) = (1 + len l)%Z.
Proof. unfold len. simpl length. lia. Qed.

Lemma len_app {A} (l k : list A) : len (l ++ k) = (len l + len k)%Z.
Proof. unfold len. rewrite length_app. lia. Qed.

Lemma len_zero_nil {A} (l : list A) : len l = 0%Z <-> l = [].
Proof. destruct l; unfold len; simpl; split; (done || lia). Qed.

Lemma len_take {A} (n : nat) (l : list A) :
  len (take n l) = Z.min (Z.of_nat n) (len l).
Proof. unfold len. rewrite length_take. lia. Qed.

Lemma len_drop {A} (n : nat) (l : list A) :
  len (drop n l) = Z.max 0 (len l - Z.of_nat n).
Proof. unfold len. rewrite length_drop. lia. Qed.

Create Rewrite HintDb go_len.
#[export] Hint Rewrite @len_nil @len_cons @len_app @len_take @len_drop : go_len.

(** ** Replacing an element of a list without repetition *)

Section ring.
Context {A : Type}.
Implicit Types (l : list A).
Lemma insert_as_permutation l i old x :
  l !! i = Some old -> exists rest, l ≡ₚ old :: rest /\ <[i := x]> l ≡ₚ x :: rest.
Proof.
  intros Hi. exists (take i l ++ drop (S i) l). split.
  - rewrite <- (take_drop_middle l i old Hi) at 1. apply Permutation_sym, Permutation_middle.
  - rewrite insert_take_drop by (by eapply lookup_lt_Some). apply Permutation_sym, Permutation_middle.
Qed.
Lemma NoDup_insert_fresh l i old x : l !! i = Some old -> NoDup l -> x ∉ l -> NoDup (<[i := x]> l).
Proof.
  intros Hi Hnd Hx. destruct (insert_as_permutation l i old x Hi) as (rest & Hl & ->). rewrite Hl in Hnd, Hx.
  apply NoDup_cons in Hnd as [_ Hnd]. apply NoDup_cons. split; [|done]. intros Hin. apply Hx. by right.
Qed.
Lemma elem_of_insert_NoDup l i old x y :
  l !! i = Some old -> NoDup l -> y ∈ <[i := x]> l <-> y = x \/ (y <> old /\ y ∈ l).
Proof.
  intros Hi Hnd. destruct (insert_as_permutation l i old x Hi) as (rest & Hl & ->). rewrite Hl in Hnd. rewrite Hl, !elem_of_cons.
  apply NoDup_cons in Hnd as [Ho _]. split; [intros [?|?]|intros [?|(? & [?|?])]]; try tauto.
  right. split; [congruence|tauto].
Qed.
End ring.

(** ** Counting in finite maps *)

Section counting.
Context {K V : Type} `{Countable K} (P : K * V -> Prop) `{!forall x, Decision (P x)}.

Definition count_if (m : gmap K V) : Z := Z.of_nat (size (filter P m)).

Lemma count_if_nonneg m : (0 <= count_if m)%Z.
Proof. unfold count_if. lia. Qed.

Lemma count_if_empty : count_if ∅ = 0%Z.
Proof. unfold count_if. by rewrite map_filter_empty, map_size_empty. Qed.

Lemma count_if_insert m k v :
  m !! k = None -> count_if (<[k := v]> m) = (count_if m + if decide (P (k, v)) then 1 else 0)%Z.
Proof.
  intros Hk. unfold count_if. rewrite map_filter_insert. destruct (decide (P (k, v))).
  - rewrite map_size_insert_None; [lia|]. apply map_lookup_filter_None. by left.
  - rewrite map_filter_delete, delete_id; [lia|]. apply map_lookup_filter_None. by left.
Qed.

Lemma count_if_delete m k v :
  m !! k = Some v -> count_if (delete k m) = (count_if m - if decide (P (k, v)) then 1 else 0)%Z.
Proof.
  intros Hk. pose proof (count_if_insert (delete k m) k v (lookup_delete_eq m k)) as Hi.
  rewrite insert_delete_id in Hi by done. lia.
Qed.

Lemma count_if_update m k old v :
  m !! k = Some old ->
  count_if (<[k := v]> m) =
  (count_if m - (if decide (P (k, old)) then 1 else 0) + (if decide (P (k, v)) then 1 else 0))%Z.
Proof.
  intros Hk. rewrite <- (insert_delete_eq m k v), count_if_insert by apply lookup_delete_eq.
  by rewrite (count_if_delete m k old).
Qed.

Lemma count_if_pos m k v : m !! k = Some v -> P (k, v) -> (0 < count_if m)%Z.
Proof.
  intros Hk HP. pose proof (count_if_delete m k v Hk) as Hd. rewrite decide_True in Hd by done.
  pose proof (count_if_nonneg (delete k m)). lia.
Qed.
End counting.

Lemma count_if_ext {K V} `{Countable K} (P Q : K * V -> Prop) `{!forall x, Decision (P x)} `{!forall x, Decision (Q x)}
    (m : gmap K V) :
  (forall k v, m !! k = Some v -> P (k, v) <-> Q (k, v)) -> count_if P m = count_if Q m.
Proof. intros HPQ. unfold count_if. do 2 f_equal. by apply map_filter_ext. Qed.

(** The sum of [f] over the values of a map. *)
Section sums.
Context {K V : Type} `{Countable K} (f : V -> Z).

Definition sum_over (m : gmap K V) : Z := map_fold (fun _ v acc => (acc + f v)%Z) 0%Z m.

Lemma sum_over_empty : sum_over ∅ = 0%Z.
Proof. done. Qed.

Lemma sum_over_insert m k v : m !! k = None -> sum_over (<[k := v]> m) = (sum_over m + f v)%Z.
Proof. intros Hk. unfold sum_over. rewrite map_fold_insert_L; [done| |done]. intros. lia. Qed.

Lemma sum_over_update m k v w :
  m !! k = Some v -> sum_over (<[k := w]> m) = (sum_over m - f v + f w)%Z.
Proof.
  intros Hk. rewrite <- (insert_delete_id m k v Hk) at 2. rewrite <- (insert_delete_eq m k w).
  rewrite !sum_over_insert by apply lookup_delete_eq. lia.
Qed.

Lemma sum_over_ext (m m' : gmap K V) : f <$> m' = f <$> m -> sum_over m' = sum_over m.
Proof.
  assert (Hf : forall k : gmap K V, sum_over k = map_fold (fun _ v acc => (acc + v)%Z) 0%Z (f <$> k)).
  { intros k. unfold sum_over. by rewrite map_fold_fmap. }
  intros Heq. by rewrite !Hf, Heq.
Qed.

Lemma sum_over_nonneg (m : gmap K V) : (forall v, (0 <= f v)%Z) -> (0 <= sum_over m)%Z.
Proof.
  intros Hf. unfold sum_over. apply (map_fold_weak_ind (fun acc _ => (0 <= acc)%Z)); [done|].
  intros k v m' acc _ ?. specialize (Hf v). lia.
Qed.

Lemma sum_over_at (m : gmap K V) k v : (forall v, (0 <= f v)%Z) -> m !! k = Some v -> (f v <= sum_over m)%Z.
Proof.
  intros Hf Hk. rewrite <- (insert_delete_id m k v Hk), sum_over_insert by apply lookup_delete_eq.
  pose proof (sum_over_nonneg (delete k m) Hf). lia.
Qed.
End sums.

(** ** Inverting a run that returned normally *)

Section result_lemmas.
Context {E : Type}.

Lemma Ok_eq {A} (a b : A) : @Ok E A a = Ok b <-> a = b.
Proof. split; [by intros [= ->] | by intros ->]. Qed.

Lemma bind_Ok {A B} (m : result E A) (f : A -> result E B) b :
  m ≫= f = Ok b <-> exists a, m = Ok a /\ f a = Ok b.
Proof. destruct m; simpl; naive_solver. Qed.

Lemma bind_Panic {A B} (m : result E A) (f : A -> result E B) :
  m ≫= f = Panic <-> m = Panic \/ exists a, m = Ok a /\ f a = Panic.
Proof. destruct m; simpl; naive_solver. Qed.

Lemma reject_if_Ok (b : bool) (e : E) u : reject_if b e = Ok u <-> b = false.
Proof. destruct b, u; simpl; naive_solver. Qed.

Lemma reject_if_Panic (b : bool) (e : E) : reject_if b e <> Panic.
Proof. by destruct b. Qed.

Lemma seq_Ok {B} (m : result E unit) (k : result E B) b :
  (m ;; k) = Ok b <-> m = Ok tt /\ k = Ok b.
Proof. rewrite bind_Ok. split; [intros ([] & ? & ?); done | intros [? ?]; by exists tt]. Qed.

Lemma guard_Ok {B} (c : bool) (e : E) (k : result E B) b :
  (reject_if c e ;; k) = Ok b <-> c = false /\ k = Ok b.
Proof. destruct c; simpl; naive_solver. Qed.

Lemma map_err_Ok {F A} (f : E -> F) (m : result E A) a :
  map_err f m = Ok a <-> m = Ok a.
Proof. destruct m; simpl; naive_solver. Qed.

Lemma map_err_Panic {F A} (f : E -> F) (m : result E A) :
  map_err f m = Panic <-> m = Panic.
Proof. destruct m; simpl; naive_solver. Qed.

Lemma is_ok_true {A} (m : result E A) : is_ok m = true <-> exists a, m = Ok a.
Proof. destruct m; simpl; naive_solver. Qed.
End result_lemmas.

Lemma ex_Some_eq {A} (a : A) (P : A -> Prop) : (exists x, Some a = Some x /\ P x) <-> P a.
Proof. split; [by intros (? & [= <-] & ?) | eauto]. Qed.

Lemma and_iff_compat_l' (P Q R : Prop) : (P -> Q <-> R) -> P /\ Q <-> P /\ R.
Proof. tauto. Qed.

(** ** Booleans of the source as propositions *)

Lemma not_leb_gt (a b : Z) : (a <=? b)%Z = false <-> (b < a)%Z.
Proof. lia. Qed.

(** [go_bool] turns every boolean test of the hypotheses and the goal into the
    proposition it decides. *)
Ltac go_bool :=
  repeat match goal with
  | H : (_ && _)%bool = true |- _ => apply andb_true_iff in H; destruct H
  | H : (_ || _)%bool = false |- _ => apply orb_false_iff in H; destruct H
  | H : negb _ = true |- _ => apply negb_true_iff in H
  | H : negb _ = false |- _ => apply negb_false_iff in H
  | H : bool_decide _ = true |- _ => apply bool_decide_eq_true in H
  | H : bool_decide _ = false |- _ => apply bool_decide_eq_false in H
  | H : (_ =? _)%Z = true |- _ => apply Z.eqb_eq in H
  | H : (_ =? _)%Z = false |- _ => apply Z.eqb_neq in H
  | H : (_ <? _)%Z = true |- _ => apply Z.ltb_lt in H
  | H : (_ <? _)%Z = false |- _ => apply Z.ltb_ge in H
  | H : (_ <=? _)%Z = true |- _ => apply Z.leb_le in H
  | H : (_ <=? _)%Z = false |- _ => apply not_leb_gt in H
  end.

(** [go_inv H] decomposes a hypothesis [m = Ok a] about a sequence of guards and
    calls into one hypothesis per guard and per call. *)
Ltac go_inv H :=
  repeat match type of H with
  | (reject_if _ _ ;; _) = Ok _ =>
      let H1 := fresh "Hg" in apply guard_Ok in H; destruct H as [H1 H]
  | (_ ≫= _) = Ok _ =>
      let x := fresh "x" in let H1 := fresh "Hc" in
      apply bind_Ok in H; destruct H as (x & H1 & H)
  | reject_if _ _ = Ok _ => apply reject_if_Ok in H
  | map_err _ _ = Ok _ => apply map_err_Ok in H
  end.

(** ** Buffered channels

    Only the non-blocking operations ([select] with a [default] case) are
    functions; a blocking receive is a step that is enabled when the buffer is
    not empty. *)
Record chan (A : Type) := mkChan { chan_cap : Z; chan_buf : list A }.
Arguments mkChan {A}.
Arguments chan_cap {A}.
Arguments chan_buf {A}.

(** [select { case c <- x: ...; default: ... }] *)
Definition try_send {A} (c : chan A) (x : A) : option (chan A) :=
  if len (chan_buf c) <? chan_cap c then Some (mkChan (chan_cap c) (chan_buf c ++ [x])) else None.

(** [select { case x := <-c: ...; default: ... }] *)
Definition try_recv {A} (c : chan A) : option (A * chan A) :=
  match chan_buf c with
  | [] => None
  | x :: rest => Some (x, mkChan (chan_cap c) rest)
  end.
