(* ===== verification/GoStrings.v ===== *)
(** * Go strings

    What the sources use of the packages [strings] and [unicode]: a Go string is
    its list of bytes. *)

From S2P Require Import Prelude.
Local Open Scope Z_scope.

(** ** Space *)

(** The UTF-8 encodings of the code points for which [unicode.IsSpace] holds. *)
Definition spaces : list bytes :=
  [[9]; [10]; [11]; [12]; [13]; [32]; [194; 133]; [194; 160]; [225; 154; 128]] ++
  ((fun last => [226; 128; last]) <$> [128; 129; 130; 131; 132; 133; 134; 135; 136; 137; 138; 168; 169; 175]) ++
  [[226; 129; 159]; [227; 128; 128]].

Fixpoint strip_prefix (p l : bytes) : option bytes :=
  match p, l with
  | [], _ => Some l
  | a :: p, b :: l => if a =? b then strip_prefix p l else None
  | _ :: _, [] => None
  end.

(** The rest after the first of [pats] that is a prefix. *)
Fixpoint strip_any (pats : list bytes) (l : bytes) : option bytes :=
  match pats with
  | [] => None
  | p :: pats => match strip_prefix p l with Some rest => Some rest | None => strip_any pats l end
  end.

(** Removes patterns at the front as long as there are any; every pattern has a
    byte, so that the length is enough fuel. *)
Fixpoint trim_patterns (pats : list bytes) (fuel : nat) (l : bytes) : bytes :=
  match fuel with
  | O => l
  | S fuel => match strip_any pats l with Some rest => trim_patterns pats fuel rest | None => l end
  end.
Definition trim_left (pats : list bytes) (l : bytes) : bytes := trim_patterns pats (length l) l.

(** [strings.TrimSpace]: the last code point of a string is a space when the
    string ends with one of its encodings. *)
Definition TrimSpace (l : bytes) : bytes :=
  rev (trim_left (@rev Z <$> spaces) (rev (trim_left spaces l))).

(** [strings.TrimSpace] on strings of the model *)
Definition string_of (b : bytes) : string :=
  String.string_of_list_ascii ((fun z => Ascii.ascii_of_N (Z.to_N z)) <$> b).
Definition trim_string (s : string) : string := string_of (TrimSpace (bytes_of s)).

(** ** Searching and splitting, with a separator of one byte *)

(** [strings.Count] and [strings.Split] *)
Definition strings_Count (l : bytes) (sep : Z) : Z := len (filter (fun c => c = sep) l).
Fixpoint strings_Split (l : bytes) (sep : Z) : list bytes :=
  match l with
  | [] => [[]]
  | x :: rest =>
      if x =? sep then [] :: strings_Split rest sep
      else match strings_Split rest sep with
           | part :: parts => (x :: part) :: parts
           | [] => [[x]]
           end
  end.

(** The order of byte strings, [<] in Lua and PostgreSQL *)
Fixpoint bytes_before (a b : bytes) : bool :=
  match a, b with
  | [], _ :: _ => true
  | x :: a, y :: b => (x <? y) || ((x =? y) && bytes_before a b)
  | _, [] => false
  end.

(** ** Lemmas *)

Lemma strip_prefix_Some p l rest : strip_prefix p l = Some rest <-> l = p ++ rest.
Proof.
  revert l. induction p as [|a p IH]; intros l; simpl; [naive_solver|].
  destruct l as [|b l]; [naive_solver|]. destruct (Z.eqb_spec a b) as [->|Hab].
  - rewrite IH. naive_solver.
  - naive_solver.
Qed.

Lemma strip_any_Some pats l rest : strip_any pats l = Some rest -> exists p, p ∈ pats /\ l = p ++ rest.
Proof.
  induction pats as [|p pats IH]; simpl; [done|]. destruct (strip_prefix p l) as [r|] eqn:Hp.
  - intros [= <-]. apply strip_prefix_Some in Hp. exists p. set_solver.
  - intros (q & Hq & ->)%IH. exists q. set_solver.
Qed.

Section trim.
Context (pats : list bytes) (patterns : Forall (fun p => p <> []) pats).

(** Trimming is exhaustive. *)
Lemma trim_patterns_done fuel l :
  (length l <= fuel)%nat -> strip_any pats (trim_patterns pats fuel l) = None.
Proof using patterns.
  revert l. induction fuel as [|fuel IH]; intros l Hf; simpl.
  - destruct l; [|simpl in Hf; lia]. destruct (strip_any pats []) as [rest|] eqn:Hs; [|done].
    apply strip_any_Some in Hs as (p & Hp & He). rewrite Forall_forall in patterns. apply patterns in Hp. by destruct p.
  - destruct (strip_any pats l) as [rest|] eqn:Hs; [|done]. apply IH.
    apply strip_any_Some in Hs as (p & Hp & ->). rewrite Forall_forall in patterns. apply patterns in Hp.
    destruct p; [done|]. rewrite length_app in Hf. simpl in Hf. lia.
Qed.

Lemma trim_left_suffix l : exists removed, l = removed ++ trim_left pats l.
Proof.
  unfold trim_left. generalize (length l) as fuel. intros fuel. revert l.
  induction fuel as [|fuel IH]; intros l; simpl; [by exists []|].
  destruct (strip_any pats l) as [rest|] eqn:Hs; [|by exists []].
  apply strip_any_Some in Hs as (p & _ & ->). destruct (IH rest) as [r Hr]. exists (p ++ r).
  by rewrite <- app_assoc, <- Hr.
Qed.
End trim.

(** [TrimSpace] returns an infix of its argument. *)
Lemma TrimSpace_infix l : exists before after, l = before ++ TrimSpace l ++ after.
Proof.
  unfold TrimSpace. destruct (trim_left_suffix spaces l) as [before Hb].
  destruct (trim_left_suffix (@rev Z <$> spaces) (rev (trim_left spaces l))) as [after Ha].
  exists before, (rev after). rewrite <- rev_app_distr, <- Ha, rev_involutive. done.
Qed.

Lemma TrimSpace_length l : (length (TrimSpace l) <= length l)%nat.
Proof. destruct (TrimSpace_infix l) as (b & a & Hl). apply (f_equal length) in Hl. rewrite !length_app in Hl. lia. Qed.

(** A text of visible ASCII characters has no space to trim. *)
Definition visible (x : Z) : bool := (33 <=? x) && (x <=? 126).
Definition starts_invisible (p : bytes) : bool := match p with x :: _ => negb (visible x) | [] => false end.

Lemma strip_any_visible pats x l : forallb starts_invisible pats = true -> visible x = true -> strip_any pats (x :: l) = None.
Proof.
  intros Hp Hx. induction pats as [|p pats IH]; [done|]. cbn [forallb] in Hp. apply andb_true_iff in Hp as [Hp Hps]. cbn [strip_any].
  destruct p as [|y p]; [done|]. cbn [strip_prefix]. destruct (Z.eqb_spec y x) as [->|]; [cbn in Hp; by rewrite Hx in Hp|by apply IH].
Qed.

Lemma trim_left_visible pats l : forallb starts_invisible pats = true -> Forall (fun x => visible x = true) l -> trim_left pats l = l.
Proof. intros Hp Hl. destruct Hl as [|x l Hx Hl]; [done|]. unfold trim_left. cbn [length trim_patterns]. by rewrite strip_any_visible. Qed.

Lemma TrimSpace_visible l : Forall (fun x => visible x = true) l -> TrimSpace l = l.
Proof.
  intros Hl. unfold TrimSpace. rewrite (trim_left_visible spaces) by (done || by vm_compute).
  rewrite trim_left_visible; [by rewrite rev_involutive|by vm_compute|]. by apply Forall_rev.
Qed.
