(* ===== verification/GoFloat.v ===== *)
(** * Floating point durations

    [float64] arithmetic as the sources use it: a duration is converted to a
    binary64 number, multiplied by a factor, and truncated.  The numbers are those
    of [SpecFloat], with round to nearest even. *)

From Stdlib Require Import Floats.SpecFloat.
From S2P Require Import Prelude.
Local Open Scope Z_scope.

(** [float64] *)
Abbreviation float64 := spec_float.
Definition float_one : float64 := S754_finite false 4503599627370496 (-52).
Definition math_IsNaN (f : float64) : bool := match f with S754_nan => true | _ => false end.
(** [math.IsInf(f, 0)] *)
Definition math_IsInf (f : float64) : bool := match f with S754_infinity _ => true | _ => false end.

Definition float_mul (a b : float64) : float64 := SFmul 53 1024 a b.
(** [float64(d)] *)
Definition float_of_Duration (d : Z) : float64 := binary_normalize 53 1024 d 0 false.
(** The integer part of a finite number. *)
Definition float_trunc (s : bool) (m : positive) (e : Z) : Z :=
  cond_Zopp s (if 0 <=? e then Z.pos m * 2 ^ e else Z.pos m / 2 ^ (- e)).

(** [time.Duration(f)]: the result of a conversion that the integer type cannot
    represent is implementation-defined. *)
Definition Duration_of_float (unrepresentable : float64 -> Z) (f : float64) : Z :=
  match f with
  | S754_zero _ => 0
  | S754_finite s m e =>
      let v := float_trunc s m e in
      if (- 2 ^ 63 <=? v) && (v <? 2 ^ 63) then v else i64 (unrepresentable f)
  | _ => i64 (unrepresentable f)
  end.

(** ** Digits *)

Lemma digits2_pos_spec p : 2 ^ (Z.pos (digits2_pos p) - 1) <= Z.pos p < 2 ^ Z.pos (digits2_pos p).
Proof.
  induction p as [p IH|p IH|]; [| |done]; cbn [digits2_pos]; rewrite Pos2Z.inj_succ;
    replace (Z.succ (Z.pos (digits2_pos p)) - 1) with (Z.succ (Z.pos (digits2_pos p) - 1)) by lia;
    rewrite !Z.pow_succ_r by lia; lia.
Qed.

(** A number below [2 ^ k] has at most [k] digits. *)
Lemma digits2_pos_le p k : Z.pos p < 2 ^ k -> Z.pos (digits2_pos p) <= k.
Proof.
  intros Hp. pose proof (digits2_pos_spec p) as [Hd _].
  assert (2 ^ (Z.pos (digits2_pos p) - 1) < 2 ^ k) as Hlt by lia. apply Z.pow_lt_mono_r_iff in Hlt; lia || idtac.
  destruct (Z.lt_ge_cases k 0); [|lia]. rewrite Z.pow_neg_r in Hp by done. lia.
Qed.

Lemma iter_xO p n : Z.pos (Pos.iter xO p n) = Z.pos p * 2 ^ Z.pos n.
Proof.
  induction n as [|n IH] using Pos.peano_ind; [simpl; lia|].
  rewrite Pos.iter_succ, Pos2Z.inj_xO, IH, Pos2Z.inj_succ, Z.pow_succ_r by lia. lia.
Qed.

Lemma digits2_iter_xO p n : Z.pos (digits2_pos (Pos.iter xO p n)) = Z.pos (digits2_pos p) + Z.pos n.
Proof.
  induction n as [|n IH] using Pos.peano_ind; [simpl; lia|].
  rewrite Pos.iter_succ. cbn [digits2_pos]. rewrite !Pos2Z.inj_succ, IH. lia.
Qed.

(** ** Shifting out bits *)

Lemma iter_pos_nat {A} (f : A -> A) p : forall x, SpecFloat.iter_pos f p x = Nat.iter (Pos.to_nat p) f x.
Proof.
  induction p as [p IH|p IH|]; intros x; cbn [SpecFloat.iter_pos]; [| |done].
  - rewrite !IH, Pos2Nat.inj_xI, <- Nat.iter_add, <- Nat.iter_succ_r. f_equal. lia.
  - rewrite !IH, Pos2Nat.inj_xO, <- Nat.iter_add. f_equal. lia.
Qed.

Lemma shr_1_spec m r s : 0 <= m ->
  shr_1 {| shr_m := m; shr_r := r; shr_s := s |} = {| shr_m := m / 2; shr_r := Z.odd m; shr_s := r || s |}.
Proof. intros Hm. rewrite <- Z.div2_div. destruct m as [|[p|p|]|p]; try done. Qed.

(** [k] bits of [m] were shifted out. *)
Definition shifted (m k : Z) (mrs : shr_record) : Prop :=
  shr_m mrs = m / 2 ^ k /\ (m mod 2 ^ k = 0 -> loc_of_shr_record mrs = loc_Exact).

Lemma shifted_iter m n : 0 <= m -> shifted m (Z.of_nat n) (Nat.iter n shr_1 {| shr_m := m; shr_r := false; shr_s := false |}).
Proof.
  intros Hm. induction n as [|n [IHm IHe]]; [split; cbn; [by rewrite Z.div_1_r|done]|].
  rewrite Nat.iter_succ. destruct (Nat.iter n _ _) as [q r s]. cbn [shr_m] in IHm. subst q.
  assert (0 < 2 ^ Z.of_nat n) by (apply Z.pow_pos_nonneg; lia).
  rewrite shr_1_spec by (apply Z.div_pos; lia). unfold shifted. rewrite Nat2Z.inj_succ, Z.pow_succ_r by lia. split.
  - cbn [shr_m]. rewrite Z.div_div by lia. f_equal. lia.
  - intros Hz. apply Z.div_exact in Hz; [|lia]. set (q := m / (2 * 2 ^ Z.of_nat n)) in *.
    assert (m mod 2 ^ Z.of_nat n = 0) as Hz'.
    { rewrite Hz. replace (2 * 2 ^ Z.of_nat n * q) with ((2 * q) * 2 ^ Z.of_nat n) by lia. by apply Z.mod_mul; lia. }
    specialize (IHe Hz'). assert (Hodd : Z.odd (m / 2 ^ Z.of_nat n) = false).
    { rewrite Hz. replace (2 * 2 ^ Z.of_nat n * q) with ((2 * q) * 2 ^ Z.of_nat n) by lia. rewrite Z.div_mul by lia.
      by rewrite Z.odd_mul. }
    rewrite Hodd. destruct r, s; cbn in *; done.
Qed.

Lemma shr_fexp_spec m e : 0 <= m ->
  let n := 0 `max` (fexp 53 1024 (Zdigits2 m + e) - e) in
  exists mrs, shr_fexp 53 1024 m e loc_Exact = (mrs, e + n) /\ shifted m n mrs.
Proof.
  intros Hm n. unfold shr_fexp, shr. cbn [shr_record_of_loc]. destruct (fexp _ _ _ - e) as [|p|p] eqn:Hf.
  - eexists. split; [by rewrite (Z.add_0_r e : e + n = e)|]. apply (shifted_iter m 0 Hm).
  - eexists. split; [done|]. rewrite iter_pos_nat. change n with (Z.pos p). rewrite <- positive_nat_Z. by apply shifted_iter.
  - eexists. split; [by rewrite (Z.add_0_r e : e + n = e)|]. apply (shifted_iter m 0 Hm).
Qed.

(** ** Rounding below an integer *)

(** [m * 2 ^ e] is a number of at most [d]. *)
Definition at_most (d m e : Z) : Prop := 0 <= m /\ e <= 0 /\ m <= d * 2 ^ (- e).

Lemma fexp_value k : fexp 53 1024 k = (k - 53) `max` (-1074).
Proof. done. Qed.

Lemma digits_at_most d m e : 0 < d < 2 ^ 53 -> at_most d m e -> Zdigits2 m + e <= 53.
Proof.
  intros Hd (Hm & He & Hle). destruct m as [|p|p]; [cbn; lia| |lia]. cbn [Zdigits2].
  assert (Z.pos p < 2 ^ (53 - e)) as Hp%digits2_pos_le; [|lia].
  replace (53 - e) with (53 + - e) by lia. rewrite Z.pow_add_r by lia. nia.
Qed.

(** Shifting a number keeps it below the integer. *)
Lemma shift_at_most d m e mrs n :
  0 < d < 2 ^ 53 -> at_most d m e -> n = 0 `max` (fexp 53 1024 (Zdigits2 m + e) - e) -> shifted m n mrs ->
  at_most d (round_nearest_even (shr_m mrs) (loc_of_shr_record mrs)) (e + n) /\ at_most d (shr_m mrs) (e + n).
Proof.
  intros Hd Ham Hn [Hq Hex]. pose proof (digits_at_most _ _ _ Hd Ham) as Hdig. destruct Ham as (Hm & He & Hle).
  rewrite fexp_value in Hn. assert (0 <= n /\ e + n <= 0) as [Hn0 Hen] by lia.
  assert (Hpow : 2 ^ (- e) = 2 ^ (- (e + n)) * 2 ^ n) by (rewrite <- Z.pow_add_r by lia; f_equal; lia).
  assert (0 < 2 ^ n) by (apply Z.pow_pos_nonneg; lia). set (D := d * 2 ^ (- (e + n))) in *.
  assert (HD : m <= D * 2 ^ n) by (subst D; nia).
  assert (Hq0 : 0 <= shr_m mrs) by (rewrite Hq; apply Z.div_pos; lia).
  assert (HqD : shr_m mrs <= D) by (rewrite Hq; apply Z.div_le_upper_bound; lia).
  assert (Hr : 0 <= round_nearest_even (shr_m mrs) (loc_of_shr_record mrs) <= D).
  { destruct (Z.eq_dec (shr_m mrs) D) as [HeqD|Hne].
    - rewrite Hex; [cbn; lia|]. rewrite HeqD in Hq. pose proof (Z.mul_div_le m (2 ^ n)). rewrite <- Hq in *.
      replace m with (D * 2 ^ n) by lia. by apply Z.mod_mul; lia.
    - destruct (loc_of_shr_record mrs) as [|[]]; cbn; try destruct (Z.even _); lia. }
  unfold at_most, D in *. lia.
Qed.

Lemma trunc_at_most d m e : 0 < d -> at_most d (Z.pos m) e -> 0 <= float_trunc false m e <= d.
Proof.
  intros Hd (_ & He & Hle). unfold float_trunc. cbn [cond_Zopp].
  assert (0 < 2 ^ (- e)) by (apply Z.pow_pos_nonneg; lia). destruct (Z.leb_spec 0 e).
  - assert (e = 0) as -> by lia. cbn in *. lia.
  - split; [apply Z.div_pos; lia|]. apply Z.div_le_upper_bound; lia.
Qed.

(** A product of at most [d] is rounded to a number whose integer part is at most [d]. *)
Lemma round_at_most u d m e :
  0 < d < 2 ^ 53 -> at_most d m e ->
  0 <= Duration_of_float u (binary_round_aux 53 1024 false m e loc_Exact) <= d.
Proof.
  intros Hd Ham. unfold binary_round_aux.
  destruct (shr_fexp_spec m e ltac:(apply Ham)) as (mrs & -> & Hs).
  destruct (shift_at_most _ _ _ _ _ Hd Ham eq_refl Hs) as [Ham1 _].
  set (r := round_nearest_even _ _) in *. set (e1 := e + _) in *.
  destruct (shr_fexp_spec r e1 ltac:(apply Ham1)) as (mrs2 & -> & Hs2).
  destruct (shift_at_most _ _ _ _ _ Hd Ham1 eq_refl Hs2) as [_ Ham2].
  set (e2 := e1 + _) in *. destruct (shr_m mrs2) as [|m2|m2]; [cbn; lia| |by destruct Ham2 as [? _]].
  rewrite (proj2 (Z.leb_le e2 (1024 - 53))) by (destruct Ham2 as (_ & ? & _); lia).
  unfold Duration_of_float. pose proof (trunc_at_most _ _ _ (proj1 Hd) Ham2).
  rewrite (proj2 (Z.leb_le _ _)), (proj2 (Z.ltb_lt _ _)) by lia. cbn [andb]. lia.
Qed.

(** Integers below [2 ^ 53] are converted exactly. *)
Lemma float_of_Duration_exact d : 0 < d < 2 ^ 53 ->
  exists m e, float_of_Duration d = S754_finite false m e /\ e <= 0 /\ Z.pos m = d * 2 ^ (- e).
Proof.
  intros Hd. destruct d as [|p|p]; [lia| |lia]. unfold float_of_Duration, binary_normalize, binary_round.
  pose proof (digits2_pos_le p 53 ltac:(lia)) as Hk. set (k := Z.pos (digits2_pos p)) in *.
  assert (Hal : exists m, shl_align p 0 (fexp 53 1024 (k + 0)) = (m, k - 53) /\ Z.pos m = Z.pos p * 2 ^ (53 - k) /\
    Z.pos (digits2_pos m) = 53).
  { rewrite fexp_value. unfold shl_align. replace ((k + 0 - 53) `max` (-1074) - 0) with (k - 53) by lia.
    destruct (k - 53) as [|j|j] eqn:Hj; [|lia|].
    - exists p. replace (53 - k) with 0 by lia. split_and!; [f_equal; lia|lia|fold k; lia].
    - exists (Pos.iter xO p j). rewrite iter_xO, digits2_iter_xO. fold k. replace (53 - k) with (Z.pos j) by lia.
      split_and!; [f_equal; lia|done|lia]. }
  destruct Hal as (m & -> & Hm & Hdig). unfold binary_round_aux.
  assert (Hsh : shr_fexp 53 1024 (Z.pos m) (k - 53) loc_Exact = ({| shr_m := Z.pos m; shr_r := false; shr_s := false |}, k - 53)).
  { unfold shr_fexp. cbn [Zdigits2]. rewrite Hdig, fexp_value. unfold shr. by replace (_ - (k - 53)) with 0 by lia. }
  rewrite Hsh. cbn [shr_m loc_of_shr_record round_nearest_even]. rewrite Hsh. cbn [shr_m].
  rewrite (proj2 (Z.leb_le (k - 53) (1024 - 53))) by lia. exists m, (k - 53). split_and!; [done|lia|].
  rewrite Hm. f_equal. f_equal. lia.
Qed.

(** A factor between zero and one. *)
Definition ratio_ok (f : float64) : Prop :=
  match f with
  | S754_zero _ => True
  | S754_finite false m e => Z.pos m <= 2 ^ (- e) /\ e <= 0
  | _ => False
  end.

(** The checks of a ratio, for a binary64 number. *)
Lemma ratio_checked f :
  valid_binary 53 1024 f = true -> math_IsNaN f || math_IsInf f = false ->
  SFltb f (S754_zero false) = false -> SFltb float_one f = false -> ratio_ok f.
Proof.
  destruct f as [s|s| |s m e]; try done. intros Hv _ Hneg Hone. destruct s; [done|]. cbn in Hv.
  unfold bounded, canonical_mantissa in Hv. apply andb_true_iff in Hv as [Hv%Z.eqb_eq _]. rewrite fexp_value in Hv.
  pose proof (digits2_pos_spec m) as [_ Hm]. unfold float_one, SFltb, SFcompare in Hone. cbn [ratio_ok].
  destruct (Z.compare_spec (-52) e) as [He|He|He]; [| done |].
  - subst e. change (Pos.compare_cont Eq 4503599627370496 m) with (4503599627370496 ?= m)%positive in Hone.
    split; [|lia]. change (2 ^ (- -52)) with (Z.pos 4503599627370496). revert Hone. generalize 4503599627370496%positive as c.
    intros c. destruct (Pos.compare_spec c m); [lia|discriminate|lia].
  - split; [|lia]. assert (2 ^ Z.pos (digits2_pos m) <= 2 ^ (- e)); [|lia]. apply Z.pow_le_mono_r; lia.
Qed.

(** A duration below [2 ^ 53] times a ratio is at most the duration. *)
Lemma scaled_at_most u d ratio :
  0 < d < 2 ^ 53 -> ratio_ok ratio -> 0 <= Duration_of_float u (float_mul (float_of_Duration d) ratio) <= d.
Proof.
  intros Hd Hr. destruct (float_of_Duration_exact d Hd) as (m & e & -> & He & Hm).
  destruct ratio as [s|s| |[] m' e']; try done; [cbn; destruct s; cbn; lia|]. destruct Hr as [Hm' He'].
  unfold float_mul, SFmul. cbn [xorb]. apply round_at_most; [done|]. split_and!; [lia|lia|].
  replace (- (e + e')) with (- e + - e') by lia. rewrite Pos2Z.inj_mul, Z.pow_add_r by lia.
  assert (0 < 2 ^ (- e)) by (apply Z.pow_pos_nonneg; lia). nia.
Qed.
