(* ===== verification/Sha256.v ===== *)
(** * SHA-256

    [crypto/sha256] (FIPS 180-4) on byte lists, and the encodings of
    [encoding/binary] and [encoding/hex] that the services use with it. *)

From S2P Require Import Prelude.
Local Open Scope Z_scope.

(** ** Words of 32 bits *)

Definition w32 (x : Z) : Z := x `mod` 2 ^ 32.
Definition rotr (n x : Z) : Z := Z.lor (Z.shiftr x n) (w32 (Z.shiftl x (32 - n))).
Definition sha_ch (x y z : Z) : Z := Z.lxor (Z.land x y) (Z.land (Z.lxor x (2 ^ 32 - 1)) z).
Definition sha_maj (x y z : Z) : Z := Z.lxor (Z.lxor (Z.land x y) (Z.land x z)) (Z.land y z).
Definition big_sigma0 (x : Z) : Z := Z.lxor (Z.lxor (rotr 2 x) (rotr 13 x)) (rotr 22 x).
Definition big_sigma1 (x : Z) : Z := Z.lxor (Z.lxor (rotr 6 x) (rotr 11 x)) (rotr 25 x).
Definition small_sigma0 (x : Z) : Z := Z.lxor (Z.lxor (rotr 7 x) (rotr 18 x)) (Z.shiftr x 3).
Definition small_sigma1 (x : Z) : Z := Z.lxor (Z.lxor (rotr 17 x) (rotr 19 x)) (Z.shiftr x 10).

(** The constants are the first 32 bits of the fractional parts of the cube roots
    of the first 64 primes and of the square roots of the first 8. *)
Definition small_primes : list Z :=
  List.filter (fun p => forallb (fun d => negb (p `mod` d =? 0)) (seqZ 2 (p - 2))) (seqZ 2 310).

(** The largest number whose [k]-th power is at most [x], from [n] bits. *)
Fixpoint int_root (k : Z) (n : nat) (x acc : Z) : Z :=
  match n with
  | O => acc
  | S n => let next := acc + 2 ^ Z.of_nat n in int_root k n x (if next ^ k <=? x then next else acc)
  end.
Definition root_fraction (k p : Z) : Z := w32 (int_root k 40 (p * 2 ^ (32 * k)) 0).

Definition sha_k : list Z := Eval vm_compute in root_fraction 3 <$> small_primes.
Definition sha_init : list Z := Eval vm_compute in root_fraction 2 <$> take 8 small_primes.

(** ** Bytes *)

(** The [n] bytes of a number, most significant first. *)
Fixpoint be_bytes (n : nat) (x : Z) : bytes :=
  match n with
  | O => []
  | S n => be_bytes n (x / 256) ++ [x `mod` 256]
  end.
(** [binary.BigEndian.PutUint64] *)
Definition PutUint64 (x : Z) : bytes := be_bytes 8 x.

Fixpoint be_word (b : bytes) (acc : Z) : Z :=
  match b with [] => acc | x :: b => be_word b (acc * 256 + x) end.

Fixpoint chunks (fuel size : nat) (l : bytes) : list bytes :=
  match fuel, l with
  | S fuel, _ :: _ => take size l :: chunks fuel size (drop size l)
  | _, _ => []
  end.

Definition sha_pad (msg : bytes) : bytes :=
  let zeros := (55 - len msg) `mod` 64 in
  msg ++ [128] ++ replicate (Z.to_nat zeros) 0 ++ be_bytes 8 (8 * len msg).

(** ** The compression function *)

(** The schedule, latest word first. *)
Fixpoint sha_schedule (fuel : nat) (w : list Z) : list Z :=
  match fuel with
  | O => w
  | S fuel =>
      let at_ i := nth i w 0 in
      sha_schedule fuel
        (w32 (small_sigma1 (at_ 1%nat) + at_ 6%nat + small_sigma0 (at_ 14%nat) + at_ 15%nat) :: w)
  end.

Definition sha_round (h : list Z) (kw : Z * Z) : list Z :=
  match h with
  | [a; b; c; d; e; f; g; hh] =>
      let t1 := w32 (hh + big_sigma1 e + sha_ch e f g + kw.1 + kw.2) in
      let t2 := w32 (big_sigma0 a + sha_maj a b c) in
      [w32 (t1 + t2); a; b; c; w32 (d + t1); e; f; g]
  | _ => h
  end.

Definition sha_block (h : list Z) (block : bytes) : list Z :=
  let words := (fun b => be_word b 0) <$> chunks 16 4 block in
  let schedule := rev (sha_schedule 48 (rev words)) in
  zip_with (fun x y => w32 (x + y)) h (fold_left sha_round (zip sha_k schedule) h).

(** [sha256.Sum256]; a padded message of [n] bytes has at most [n] blocks. *)
Definition sha256_Sum (msg : bytes) : bytes :=
  let padded := sha_pad msg in
  concat (be_bytes 4 <$> fold_left sha_block (chunks (length padded) 64 padded) sha_init).

(** [hex.EncodeToString] *)
Definition hex_digit_of (n : Z) : Z := if n <? 10 then 48 + n else 87 + n.
Definition hex_EncodeToString (b : bytes) : bytes :=
  concat ((fun x => [hex_digit_of (x / 16); hex_digit_of (x `mod` 16)]) <$> b).

(** The test vectors of the standard. *)
Example sha256_abc :
  hex_EncodeToString (sha256_Sum (bytes_of "abc")) =
  bytes_of "ba7816bf8f01cfea414140de5dae2223b00361a396177a9cb410ff61f20015ad".
Proof. vm_compute. reflexivity. Qed.

Example sha256_two_blocks :
  hex_EncodeToString (sha256_Sum (bytes_of "abcdbcdecdefdefgefghfghighijhijkijkljklmklmnlmnomnopnopq")) =
  bytes_of "248d6a61d20638b8e5c026930c3e6039a33ce45964ff2167f6ecedd419db06c1".
Proof. vm_compute. reflexivity. Qed.

(** [hmac.New(sha256.New, key)] on a message *)
Definition hmac_key (key : bytes) : bytes :=
  let k := if 64 <? len key then sha256_Sum key else key in k ++ replicate (64 - length k) 0.
Definition hmac_sha256 (key msg : bytes) : bytes :=
  let k := hmac_key key in
  sha256_Sum ((Z.lxor 92 <$> k) ++ sha256_Sum ((Z.lxor 54 <$> k) ++ msg)).

Example hmac_vector : hex_EncodeToString (hmac_sha256 (bytes_of "key") (bytes_of "The quick brown fox jumps over the lazy dog")) =
  bytes_of "f7bc83f430538424b13298e6aa6fb143ef4d59a14946175997479dbc2d1a3cd8".
Proof. vm_compute. reflexivity. Qed.

(** ** Lemmas *)

Lemma length_be_bytes n : forall x, length (be_bytes n x) = n.
Proof. induction n as [|n IH]; intros x; simpl; [done|]. rewrite length_app, IH. simpl. lia. Qed.

(** A number below [256 ^ n] is determined by its bytes. *)
Lemma be_bytes_inj n : forall x y,
  0 <= x < 256 ^ Z.of_nat n -> 0 <= y < 256 ^ Z.of_nat n -> be_bytes n x = be_bytes n y -> x = y.
Proof.
  induction n as [|n IH]; intros x y Hx Hy He; [cbn in *; lia|].
  rewrite Nat2Z.inj_succ, Z.pow_succ_r in Hx, Hy by lia. cbn [be_bytes] in He.
  apply app_inj_tail in He as [He Hm]. apply IH in He; [|split; [apply Z.div_pos; lia|apply Z.div_lt_upper_bound; lia]..].
  rewrite (Z.div_mod x 256), (Z.div_mod y 256) by lia. congruence.
Qed.

Lemma length_sha_round h kw : length (sha_round h kw) = length h.
Proof. by destruct h as [|? [|? [|? [|? [|? [|? [|? [|? [|]]]]]]]]]. Qed.

Lemma length_sha_block h block : length (sha_block h block) = length h.
Proof.
  unfold sha_block. rewrite length_zip_with. assert (Hl : forall kws h0, length (fold_left sha_round kws h0) = length h0).
  { induction kws as [|kw kws IH]; intros h0; simpl; [done|]. by rewrite IH, length_sha_round. }
  rewrite Hl. lia.
Qed.

Lemma length_sha256_Sum msg : length (sha256_Sum msg) = 32%nat.
Proof.
  unfold sha256_Sum. assert (Hl : forall bs h, length (fold_left sha_block bs h) = length h).
  { induction bs as [|b bs IH]; intros h; simpl; [done|]. by rewrite IH, length_sha_block. }
  assert (Hc : forall l, length (concat (be_bytes 4 <$> l)) = (4 * length l)%nat).
  { induction l as [|x l IH]; [done|]. cbn [fmap list_fmap concat length]. rewrite length_app, length_be_bytes, IH. lia. }
  by rewrite Hc, Hl.
Qed.
