(* ===== verification/TunnelContract.v ===== *)
(** * The tunnel.v1 wire contract

    The protobuf messages and enums of [api/proto/tunnel/v1/tunnel.proto] as the
    generated Go package exposes them.  proto3 enums are open, so an enum field
    is a [Z] and the declared values are constants; a message field is an
    [option] ([nil] is [None]); every message keeps its unknown wire fields.
    The protobuf runtime (google.golang.org/protobuf) is not part of the
    repository: it is the class [ProtoRuntime], an argument of the definitions
    that call it. *)

From S2P Require Import Prelude.
Local Open Scope Z_scope.

(** ** Enums *)

Definition TRAFFIC_CLASS_UNSPECIFIED : Z := 0.
Definition TRAFFIC_CLASS_CONTROL_AUTH : Z := 1.
Definition TRAFFIC_CLASS_REGULAR : Z := 2.
Definition TRAFFIC_CLASS_REALTIME : Z := 3.

Definition CAPABILITY_UNSPECIFIED : Z := 0.
Definition CAPABILITY_DRAIN : Z := 1.
Definition CAPABILITY_SESSION_REVOCATION : Z := 2.
Definition CAPABILITY_REALTIME : Z := 3.

Definition ROUTE_ID_UNSPECIFIED : Z := 0.
Definition ROUTE_ID_AUTH_REGISTER_CREDENTIALS : Z := 1.
Definition ROUTE_ID_AUTH_LOGIN : Z := 2.
Definition ROUTE_ID_AUTH_REFRESH_SESSION : Z := 3.
Definition ROUTE_ID_AUTH_REVOKE_SESSION : Z := 4.
Definition ROUTE_ID_AUTH_SESSION_ASSERTION : Z := 5.
Definition ROUTE_ID_AUTH_LOGOUT_ALL : Z := 6.
Definition ROUTE_ID_AUTH_START_LOGIN_CODE_CHANGE : Z := 7.
Definition ROUTE_ID_AUTH_COMPLETE_LOGIN_CODE_CHANGE : Z := 8.
Definition ROUTE_ID_AUTH_CHANGE_PASSWORD : Z := 9.
Definition ROUTE_ID_AUTH_START_LOGIN : Z := 10.
Definition ROUTE_ID_AUTH_COMPLETE_LOGIN : Z := 11.
Definition ROUTE_ID_AUTH_RESEND_LOGIN_CODE : Z := 12.
Definition ROUTE_ID_AUTH_REQUEST_EMAIL_VERIFICATION : Z := 13.
Definition ROUTE_ID_AUTH_CONFIRM_EMAIL : Z := 14.
Definition ROUTE_ID_AUTH_REQUEST_PASSWORD_RESET : Z := 15.
Definition ROUTE_ID_AUTH_CONFIRM_PASSWORD_RESET : Z := 16.
Definition ROUTE_ID_AUTH_GET_CREDENTIALS : Z := 17.
Definition ROUTE_ID_AUTH_START_EMAIL_CHANGE : Z := 18.
Definition ROUTE_ID_AUTH_CONFIRM_EMAIL_CHANGE : Z := 19.
Definition ROUTE_ID_AUTH_CANCEL_EMAIL_CHANGE : Z := 20.
Definition ROUTE_ID_AUTH_LIST_SESSIONS : Z := 21.
Definition ROUTE_ID_AUTH_REVOKE_OWNED_SESSION : Z := 22.
Definition ROUTE_ID_AUTH_REQUEST_ACCOUNT_DELETION : Z := 23.
Definition ROUTE_ID_AUTH_CANCEL_ACCOUNT_DELETION : Z := 24.
Definition ROUTE_ID_USER_GET_ME : Z := 100.
Definition ROUTE_ID_USER_UPDATE_ME : Z := 101.
Definition ROUTE_ID_USER_BROWSER_GET_ME : Z := 102.
Definition ROUTE_ID_USER_BROWSER_UPDATE_ME : Z := 103.
Definition ROUTE_ID_USER_BROWSER_LIST_ADDRESSES : Z := 104.
Definition ROUTE_ID_USER_BROWSER_CREATE_ADDRESS : Z := 105.
Definition ROUTE_ID_USER_BROWSER_UPDATE_ADDRESS : Z := 106.
Definition ROUTE_ID_USER_BROWSER_DELETE_ADDRESS : Z := 107.
Definition ROUTE_ID_USER_BROWSER_SET_DEFAULT_ADDRESS : Z := 108.
Definition ROUTE_ID_USER_BROWSER_GET_SETTINGS : Z := 109.
Definition ROUTE_ID_USER_BROWSER_UPDATE_SETTINGS : Z := 110.
Definition ROUTE_ID_USER_BROWSER_GET_AVATAR : Z := 111.
Definition ROUTE_ID_USER_BROWSER_SET_AVATAR : Z := 112.
Definition ROUTE_ID_USER_BROWSER_CLEAR_AVATAR : Z := 113.
Definition ROUTE_ID_REALTIME_CHAT : Z := 200.
Definition ROUTE_ID_REALTIME_NOTIFICATIONS : Z := 201.
Definition ROUTE_ID_FILE_CREATE_UPLOAD : Z := 300.
Definition ROUTE_ID_FILE_COMPLETE_UPLOAD : Z := 301.
Definition ROUTE_ID_FILE_GET_STATUS : Z := 302.
Definition ROUTE_ID_FILE_CREATE_DOWNLOAD : Z := 303.
Definition ROUTE_ID_FILE_DELETE : Z := 304.

Definition METADATA_KEY_UNSPECIFIED : Z := 0.
Definition METADATA_KEY_CONTENT_TYPE : Z := 1.
Definition METADATA_KEY_TRACEPARENT : Z := 2.
Definition METADATA_KEY_TRACESTATE : Z := 3.
Definition METADATA_KEY_SESSION_ASSERTION : Z := 4.

Definition CANCEL_REASON_UNSPECIFIED : Z := 0.
Definition CANCEL_REASON_CALLER : Z := 1.
Definition CANCEL_REASON_DEADLINE : Z := 2.
Definition CANCEL_REASON_DRAIN : Z := 3.
Definition CANCEL_REASON_POLICY : Z := 4.

Definition RESULT_CODE_UNSPECIFIED : Z := 0.
Definition RESULT_CODE_OK : Z := 1.
Definition RESULT_CODE_INVALID_ARGUMENT : Z := 2.
Definition RESULT_CODE_UNAUTHENTICATED : Z := 3.
Definition RESULT_CODE_PERMISSION_DENIED : Z := 4.
Definition RESULT_CODE_NOT_FOUND : Z := 5.
Definition RESULT_CODE_CONFLICT : Z := 6.
Definition RESULT_CODE_RESOURCE_EXHAUSTED : Z := 7.
Definition RESULT_CODE_DEADLINE_EXCEEDED : Z := 8.
Definition RESULT_CODE_CANCELED : Z := 9.
Definition RESULT_CODE_UNAVAILABLE : Z := 10.
Definition RESULT_CODE_INTERNAL : Z := 11.

Definition DRAIN_REASON_UNSPECIFIED : Z := 0.
Definition DRAIN_REASON_MAINTENANCE : Z := 1.
Definition DRAIN_REASON_SHUTDOWN : Z := 2.
Definition DRAIN_REASON_OVERLOAD : Z := 3.

(** ** Messages *)

(** google.protobuf.Timestamp and google.protobuf.Duration. *)
Record Timestamp := mkTimestamp { ts_seconds : Z; ts_nanos : Z; ts_unknown : bytes }.
Record Duration := mkDuration { dur_seconds : Z; dur_nanos : Z; dur_unknown : bytes }.

Record FrameHeader := mkFrameHeader {
  fh_protocol_version : Z;
  fh_tunnel_id : bytes;
  fh_request_id : bytes;
  fh_sequence : Z;
  fh_traffic_class : Z;
  fh_unknown : bytes
}.

Record Limits := mkLimits {
  max_frame_bytes : Z;
  max_data_bytes : Z;
  max_message_bytes : Z;
  max_in_flight_requests : Z;
  max_metadata_entries : Z;
  max_metadata_value_bytes : Z;
  max_credit_bytes : Z;
  lim_unknown : bytes
}.

Record GatewayOutHello := mkGatewayOutHello {
  goh_instance_id : bytes;
  goh_supported_protocol_versions : list Z;
  goh_capabilities : list Z;
  goh_traffic_classes : list Z;
  goh_route_ids : list Z;
  goh_limits : option Limits;
  goh_unknown : bytes
}.

Record GatewayInHello := mkGatewayInHello {
  gih_selected_protocol_version : Z;
  gih_capabilities : list Z;
  gih_traffic_classes : list Z;
  gih_route_ids : list Z;
  gih_limits : option Limits;
  gih_instance_id : bytes;
  gih_unknown : bytes
}.

Record Metadata := mkMetadata { md_key : Z; md_value : bytes; md_unknown : bytes }.

Record Open := mkOpen {
  op_route_id : Z;
  op_deadline : option Timestamp;
  op_idempotency_key : bytes;
  op_metadata : list (option Metadata);
  op_unknown : bytes
}.

Record Data := mkData { data_payload : bytes; data_unknown : bytes }.
Record HalfClose := mkHalfClose { hc_unknown : bytes }.
Record Cancel := mkCancel { cancel_reason : Z; cancel_unknown : bytes }.
Record Result := mkResult {
  res_code : Z;
  res_retry_after : option Duration;
  res_metadata : list (option Metadata);
  res_unknown : bytes
}.
Record Credit := mkCredit { credit_bytes : Z; credit_unknown : bytes }.
Record Ping := mkPing { ping_nonce : Z; ping_unknown : bytes }.
Record Pong := mkPong { pong_nonce : Z; pong_unknown : bytes }.
Record Drain := mkDrain {
  drain_deadline : option Timestamp;
  drain_reason : Z;
  drain_unknown : bytes
}.
Record RevokeSession := mkRevokeSession { rs_session_id : bytes; rs_unknown : bytes }.

(** The payload oneof of a frame sent by gateway-out; the message inside the
    oneof wrapper may be [nil]. *)
Inductive ConnectRequest_payload :=
| Req_Hello (hello : option GatewayOutHello)
| Req_Data (data : option Data)
| Req_HalfClose (half_close : option HalfClose)
| Req_Cancel (cancel : option Cancel)
| Req_Result (result : option Result)
| Req_Credit (credit : option Credit)
| Req_Ping (ping : option Ping)
| Req_Pong (pong : option Pong)
| Req_Drain (drain : option Drain)
| Req_RevokeSession (revoke_session : option RevokeSession).

(** The payload oneof of a frame sent by gateway-in. *)
Inductive ConnectResponse_payload :=
| Resp_Hello (hello : option GatewayInHello)
| Resp_Open (open : option Open)
| Resp_Data (data : option Data)
| Resp_HalfClose (half_close : option HalfClose)
| Resp_Cancel (cancel : option Cancel)
| Resp_Credit (credit : option Credit)
| Resp_Ping (ping : option Ping)
| Resp_Pong (pong : option Pong)
| Resp_Drain (drain : option Drain).

Record ConnectRequest := mkConnectRequest {
  creq_header : option FrameHeader;
  creq_payload : option ConnectRequest_payload;
  creq_unknown : bytes
}.

Record ConnectResponse := mkConnectResponse {
  cresp_header : option FrameHeader;
  cresp_payload : option ConnectResponse_payload;
  cresp_unknown : bytes
}.

(** ** Nil-safe getters of the generated code *)

Definition GetProtocolVersion (h : option FrameHeader) : Z := default 0 (fh_protocol_version <$> h).
Definition GetTunnelId (h : option FrameHeader) : bytes := default [] (fh_tunnel_id <$> h).
Definition GetRequestId (h : option FrameHeader) : bytes := default [] (fh_request_id <$> h).
Definition GetSequence (h : option FrameHeader) : Z := default 0 (fh_sequence <$> h).
Definition GetTrafficClass (h : option FrameHeader) : Z :=
  default TRAFFIC_CLASS_UNSPECIFIED (fh_traffic_class <$> h).

Definition GetData_req (f : ConnectRequest) : option Data :=
  match creq_payload f with Some (Req_Data d) => d | _ => None end.
Definition GetCredit_req (f : ConnectRequest) : option Credit :=
  match creq_payload f with Some (Req_Credit c) => c | _ => None end.
Definition GetResult_req (f : ConnectRequest) : option Result :=
  match creq_payload f with Some (Req_Result r) => r | _ => None end.
Definition GetHello_resp (f : ConnectResponse) : option GatewayInHello :=
  match cresp_payload f with Some (Resp_Hello h) => h | _ => None end.
Definition GetOpen_resp (f : ConnectResponse) : option Open :=
  match cresp_payload f with Some (Resp_Open o) => o | _ => None end.
Definition GetData_resp (f : ConnectResponse) : option Data :=
  match cresp_payload f with Some (Resp_Data d) => d | _ => None end.
Definition GetCredit_resp (f : ConnectResponse) : option Credit :=
  match cresp_payload f with Some (Resp_Credit c) => c | _ => None end.

Definition GetPayload_data (d : option Data) : bytes := default [] (data_payload <$> d).
Definition GetBytes_credit (c : option Credit) : Z := default 0 (credit_bytes <$> c).

(** ** The protobuf runtime *)

(** What the sources call of [google.golang.org/protobuf]: times are
    nanoseconds since the Unix epoch, durations are nanoseconds. *)
Class ProtoRuntime := {
  (** [timestamp.CheckValid() == nil] *)
  timestamp_CheckValid : Timestamp -> bool;
  (** [timestamp.AsTime()] *)
  timestamp_AsTime : Timestamp -> Z;
  (** [timestamppb.New(t)] *)
  timestamppb_New : Z -> Timestamp;
  (** [duration.CheckValid() == nil] *)
  duration_CheckValid : Duration -> bool;
  (** [duration.AsDuration()] *)
  duration_AsDuration : Duration -> Z;
  (** [proto.Size] of a frame *)
  size_request : ConnectRequest -> Z;
  size_response : ConnectResponse -> Z;
  (** [protowire.ConsumeTag(b)]: field number, wire type, length or a negative
      error code *)
  consume_tag : bytes -> Z * Z * Z;
  (** [protowire.ConsumeFieldValue(num, typ, b)] *)
  consume_field_value : Z -> Z -> bytes -> Z;
  (** [proto.UnmarshalOptions{RecursionLimit: 32}.Unmarshal] *)
  unmarshal_request : bytes -> option ConnectRequest;
  unmarshal_response : bytes -> option ConnectResponse
}.

(** The documented bounds of the wire reader. *)
Class WireLaws `{ProtoRuntime} : Prop := {
  (** A tag is at least one byte long and lies within the input. *)
  consume_tag_bound b num typ n : consume_tag b = (num, typ, n) -> 0 <= n -> 1 <= n <= len b;
  (** A field value lies within the input. *)
  consume_field_value_bound num typ b : consume_field_value num typ b <= len b
}.
