(* ===== verification/TunnelRuntime.v ===== *)
(** * A concrete protobuf runtime

    An executable instance of [ProtoRuntime]: the well-known time types, the
    wire encoder and the wire reader of the tunnel messages.  The theorems of
    the other files hold for every runtime; this one evaluates them on concrete
    frames.  Its unmarshaller recognises the encodings of a given list of frames. *)

From S2P Require Import Prelude TunnelContract.
Local Open Scope Z_scope.

(** ** Encoding *)

Fixpoint enc_varint (fuel : nat) (v : Z) : bytes :=
  match fuel with
  | O => []
  | S fuel => if v <? 128 then [v] else Z.lor 128 (Z.land v 127) :: enc_varint fuel (Z.shiftr v 7)
  end.

Definition varint (v : Z) : bytes := enc_varint 10 (u64 v).
Definition enc_tag (num typ : Z) : bytes := varint (Z.lor (Z.shiftl num 3) typ).
(** Scalar fields without presence are omitted when they are zero. *)
Definition enc_uint (num v : Z) : bytes := if v =? 0 then [] else enc_tag num 0 ++ varint v.
Definition enc_msg (num : Z) (b : bytes) : bytes := enc_tag num 2 ++ varint (len b) ++ b.
Definition enc_bytes (num : Z) (b : bytes) : bytes := if len b =? 0 then [] else enc_msg num b.
Definition enc_packed (num : Z) (vs : list Z) : bytes := enc_bytes num (vs ≫= varint).
Definition enc_opt {A} (enc : A -> bytes) (num : Z) (m : option A) : bytes :=
  match m with Some a => enc_msg num (enc a) | None => [] end.
Definition enc_nil_msg {A} (enc : A -> bytes) (num : Z) (m : option A) : bytes :=
  enc_msg num (match m with Some a => enc a | None => [] end).

Definition enc_Timestamp (t : Timestamp) : bytes :=
  enc_uint 1 (ts_seconds t) ++ enc_uint 2 (ts_nanos t) ++ ts_unknown t.
Definition enc_Duration (d : Duration) : bytes :=
  enc_uint 1 (dur_seconds d) ++ enc_uint 2 (dur_nanos d) ++ dur_unknown d.
Definition enc_FrameHeader (h : FrameHeader) : bytes :=
  enc_uint 1 (fh_protocol_version h) ++ enc_bytes 2 (fh_tunnel_id h) ++ enc_bytes 3 (fh_request_id h) ++
  enc_uint 4 (fh_sequence h) ++ enc_uint 5 (fh_traffic_class h) ++ fh_unknown h.
Definition enc_Limits (l : Limits) : bytes :=
  enc_uint 1 (max_frame_bytes l) ++ enc_uint 2 (max_data_bytes l) ++ enc_uint 3 (max_message_bytes l) ++
  enc_uint 4 (max_in_flight_requests l) ++ enc_uint 5 (max_metadata_entries l) ++
  enc_uint 6 (max_metadata_value_bytes l) ++ enc_uint 7 (max_credit_bytes l) ++ lim_unknown l.
Definition enc_GatewayOutHello (h : GatewayOutHello) : bytes :=
  enc_bytes 1 (goh_instance_id h) ++ enc_packed 2 (goh_supported_protocol_versions h) ++
  enc_packed 3 (goh_capabilities h) ++ enc_packed 4 (goh_traffic_classes h) ++
  enc_packed 5 (goh_route_ids h) ++ enc_opt enc_Limits 6 (goh_limits h) ++ goh_unknown h.
Definition enc_GatewayInHello (h : GatewayInHello) : bytes :=
  enc_uint 1 (gih_selected_protocol_version h) ++ enc_packed 2 (gih_capabilities h) ++
  enc_packed 3 (gih_traffic_classes h) ++ enc_packed 4 (gih_route_ids h) ++
  enc_opt enc_Limits 5 (gih_limits h) ++ enc_bytes 6 (gih_instance_id h) ++ gih_unknown h.
Definition enc_Metadata (m : Metadata) : bytes :=
  enc_uint 1 (md_key m) ++ enc_bytes 2 (md_value m) ++ md_unknown m.
Definition enc_Open (o : Open) : bytes :=
  enc_uint 1 (op_route_id o) ++ enc_opt enc_Timestamp 2 (op_deadline o) ++
  enc_bytes 3 (op_idempotency_key o) ++ (op_metadata o ≫= enc_nil_msg enc_Metadata 4) ++ op_unknown o.
Definition enc_Data (d : Data) : bytes := enc_bytes 1 (data_payload d) ++ data_unknown d.
Definition enc_Cancel (c : Cancel) : bytes := enc_uint 1 (cancel_reason c) ++ cancel_unknown c.
Definition enc_Result (r : Result) : bytes :=
  enc_uint 1 (res_code r) ++ enc_opt enc_Duration 2 (res_retry_after r) ++
  (res_metadata r ≫= enc_nil_msg enc_Metadata 3) ++ res_unknown r.
Definition enc_Credit (c : Credit) : bytes := enc_uint 1 (credit_bytes c) ++ credit_unknown c.
Definition enc_Ping (p : Ping) : bytes := enc_uint 1 (ping_nonce p) ++ ping_unknown p.
Definition enc_Pong (p : Pong) : bytes := enc_uint 1 (pong_nonce p) ++ pong_unknown p.
Definition enc_Drain (d : Drain) : bytes :=
  enc_opt enc_Timestamp 1 (drain_deadline d) ++ enc_uint 2 (drain_reason d) ++ drain_unknown d.
Definition enc_RevokeSession (r : RevokeSession) : bytes := enc_bytes 1 (rs_session_id r) ++ rs_unknown r.

Definition enc_request (f : ConnectRequest) : bytes :=
  enc_opt enc_FrameHeader 1 (creq_header f) ++
  match creq_payload f with
  | None => []
  | Some (Req_Hello m) => enc_nil_msg enc_GatewayOutHello 10 m
  | Some (Req_Data m) => enc_nil_msg enc_Data 11 m
  | Some (Req_HalfClose m) => enc_nil_msg hc_unknown 12 m
  | Some (Req_Cancel m) => enc_nil_msg enc_Cancel 13 m
  | Some (Req_Result m) => enc_nil_msg enc_Result 14 m
  | Some (Req_Credit m) => enc_nil_msg enc_Credit 15 m
  | Some (Req_Ping m) => enc_nil_msg enc_Ping 16 m
  | Some (Req_Pong m) => enc_nil_msg enc_Pong 17 m
  | Some (Req_Drain m) => enc_nil_msg enc_Drain 18 m
  | Some (Req_RevokeSession m) => enc_nil_msg enc_RevokeSession 19 m
  end ++ creq_unknown f.

Definition enc_response (f : ConnectResponse) : bytes :=
  enc_opt enc_FrameHeader 1 (cresp_header f) ++
  match cresp_payload f with
  | None => []
  | Some (Resp_Hello m) => enc_nil_msg enc_GatewayInHello 10 m
  | Some (Resp_Open m) => enc_nil_msg enc_Open 11 m
  | Some (Resp_Data m) => enc_nil_msg enc_Data 12 m
  | Some (Resp_HalfClose m) => enc_nil_msg hc_unknown 13 m
  | Some (Resp_Cancel m) => enc_nil_msg enc_Cancel 14 m
  | Some (Resp_Credit m) => enc_nil_msg enc_Credit 15 m
  | Some (Resp_Ping m) => enc_nil_msg enc_Ping 16 m
  | Some (Resp_Pong m) => enc_nil_msg enc_Pong 17 m
  | Some (Resp_Drain m) => enc_nil_msg enc_Drain 18 m
  end ++ cresp_unknown f.

(** ** Reading *)

(** The value and length of a varint; the length is negative when the input
    ends early or the varint is longer than ten bytes. *)
Fixpoint dec_varint (fuel : nat) (b : bytes) : Z * Z :=
  match fuel, b with
  | S fuel, x :: b =>
      if x <? 128 then (x, 1) else
      let '(v, n) := dec_varint fuel b in
      if n <? 0 then (0, n) else (Z.lor (Z.land x 127) (Z.shiftl v 7), n + 1)
  | _, _ => (0, -1)
  end.

Definition read_tag (b : bytes) : Z * Z * Z :=
  let '(v, n) := dec_varint 10 b in
  if (n <? 0) || (Z.shiftr v 3 <? 1) then (0, 0, -1) else (Z.shiftr v 3, Z.land v 7, n).

(** Groups are not used by the tunnel messages. *)
Definition read_field_value (num typ : Z) (b : bytes) : Z :=
  let within n := if n <=? len b then n else -1 in
  if typ =? 0 then (dec_varint 10 b).2
  else if typ =? 1 then within 8
  else if typ =? 5 then within 4
  else if typ =? 2 then let '(v, n) := dec_varint 10 b in if n <? 0 then -1 else within (v + n)
  else -1.

Definition nanos_per_second : Z := 1000000000.

Definition reference_runtime (requests : list ConnectRequest) (responses : list ConnectResponse) :
    ProtoRuntime := {|
  timestamp_CheckValid t :=
    (-62135596800 <=? ts_seconds t) && (ts_seconds t <=? 253402300799) &&
    (0 <=? ts_nanos t) && (ts_nanos t <? nanos_per_second);
  timestamp_AsTime t := ts_seconds t * nanos_per_second + ts_nanos t;
  timestamppb_New t := mkTimestamp (t `div` nanos_per_second) (t `mod` nanos_per_second) [];
  duration_CheckValid d :=
    (-315576000000 <=? dur_seconds d) && (dur_seconds d <=? 315576000000) &&
    (- nanos_per_second <? dur_nanos d) && (dur_nanos d <? nanos_per_second) &&
    negb ((0 <? dur_seconds d) && (dur_nanos d <? 0)) &&
    negb ((dur_seconds d <? 0) && (0 <? dur_nanos d));
  duration_AsDuration d := dur_seconds d * nanos_per_second + dur_nanos d;
  size_request f := len (enc_request f);
  size_response f := len (enc_response f);
  consume_tag := read_tag;
  consume_field_value := read_field_value;
  unmarshal_request b := List.find (fun f => bytes_Equal (enc_request f) b) requests;
  unmarshal_response b := List.find (fun f => bytes_Equal (enc_response f) b) responses
|}.

Lemma dec_varint_bound fuel : forall b v n, dec_varint fuel b = (v, n) -> 0 <= n -> 1 <= n <= len b.
Proof.
  induction fuel as [|fuel IH]; intros [|x b] v n Hd Hn; simpl in Hd; simplify_eq; try lia.
  destruct (x <? 128); simplify_eq; autorewrite with go_len; [pose proof (len_nonneg b); lia|].
  destruct (dec_varint fuel b) as [v' n'] eqn:Hr. destruct (Z.ltb_spec n' 0); simplify_eq; [lia|].
  apply IH in Hr; lia.
Qed.

Lemma reference_wire_laws requests responses : @WireLaws (reference_runtime requests responses).
Proof.
  split; simpl.
  - intros b num typ n. unfold read_tag. destruct (dec_varint 10 b) as [v m] eqn:Hd.
    destruct ((m <? 0) || _) eqn:Ho; intros [= <- <- <-] Hn; [lia|].
    apply dec_varint_bound in Hd; lia.
  - intros num typ b. pose proof (len_nonneg b). unfold read_field_value.
    destruct (dec_varint 10 b) as [v n] eqn:Hd. simpl.
    repeat case_match; simplify_eq; try lia.
    destruct (Z.ltb_spec n 0) as [|Hn]; [lia|]. apply (dec_varint_bound _ _ _ _ Hd) in Hn. lia.
Qed.
