(* ===== verification/TunnelValidate.v ===== *)
(** * Structural validation of tunnel frames

    [backend/api/tunnel/v1/validate.go], and the recursive rejection of unknown
    fields of [decode.go]: the fail-closed check both gateways apply to every
    frame before it reaches a state machine. *)

From S2P Require Import Prelude TunnelContract.
Local Open Scope Z_scope.

(** ** Absolute limits of the protocol *)

Definition protocolVersion : Z := 1.
Definition MaxEncodedFrameBytes : Z := Z.shiftl 1 20.
Definition MaxDataBytes : Z := Z.shiftl 256 10.
Definition MaxMessageBytes : Z := Z.shiftl 8 20.
Definition MaxInFlightRequests : Z := 4096.
Definition MaxMetadataEntries : Z := 16.
Definition MaxMetadataValueBytes : Z := Z.shiftl 16 10.
Definition MaxCreditBytes : Z := Z.shiftl 1 20.
Definition RequestIDBytes : Z := 16.
Definition TunnelIDBytes : Z := 16.
Definition InstanceIDBytes : Z := 16.
Definition SessionIDBytes : Z := 16.
Definition MaxIdempotencyKeyBytes : Z := 128.
Definition MaxSupportedVersions : Z := 8.
Definition MaxCapabilities : Z := 3.
Definition MaxTrafficClasses : Z := 3.
Definition MaxAdvertisedRoutes : Z := 64.
Definition MaxContentTypeBytes : Z := 64.
Definition MaxTraceparentBytes : Z := 128.
Definition MaxTracestateBytes : Z := 512.
Definition MaxRetryAfter : Z := 5 * 60 * 1000000000.

Definition protobufContentType : bytes := bytes_of "application/protobuf".

(** ** Errors *)

(** The sentinel errors of the package; wrapped errors keep the text they add. *)
Inductive frame_error :=
| ErrEmptyFrame
| ErrFrameTooLarge
| ErrMalformedFrame
| ErrUnknownFrameType
| ErrUnknownField (path : string)
| ErrUnsupportedVersion (field : string)
| ErrInvalidFrame (field reason : string).

#[export] Instance frame_error_eq_dec : EqDecision frame_error.
Proof. solve_decision. Defined.

Definition invalidFrame (field reason : string) : frame_error := ErrInvalidFrame field reason.
Definition unsupportedVersion (field : string) : frame_error := ErrUnsupportedVersion field.

Abbreviation check := (result frame_error unit) (only parsing).

(** ** Reflection over unknown fields *)

(** The view [protoreflect] gives of a message: its unknown bytes and its
    populated fields of message kind, each a single message or a list of
    messages (the contract has no map field). *)
#[warnings="-non-recursive"]
Inductive reflected :=
| Reflected (unknown : bytes) (fields : list (string * reflected_value))
with reflected_value :=
| RMessage (m : reflected)
| RList (ms : list reflected).

Fixpoint rejectUnknownFields (message : reflected) (path : string) {struct message} : check :=
  match message with
  | Reflected unknown fields =>
      reject_if (negb (len unknown =? 0)) (ErrUnknownField path);;
      (fix range fs : check :=
         match fs with
         | [] => Ok tt
         | (name, value) :: rest =>
             let fieldPath := (path +:+ "." +:+ name)%string in
             (match value with
              | RMessage m => rejectUnknownFields m fieldPath
              | RList ms =>
                  (fix elements (index : nat) ms : check :=
                     match ms with
                     | [] => Ok tt
                     | m :: ms' =>
                         rejectUnknownFields m
                           (fieldPath +:+ "[" +:+ pretty index +:+ "]")%string;;
                         elements (S index) ms'
                     end) 0%nat ms
              end);;
             range rest
         end) fields
  end.

Definition reflect_leaf (unknown : bytes) : reflected := Reflected unknown [].

(** A [nil] message reflects as an empty one. *)
Definition reflect_opt {A} (f : A -> reflected) (m : option A) : reflected :=
  match m with Some x => f x | None => reflect_leaf [] end.

(** A singular message field is populated when it is not [nil]. *)
Definition reflect_field {A} (name : string) (f : A -> reflected) (m : option A) :
    list (string * reflected_value) :=
  match m with Some x => [(name, RMessage (f x))] | None => [] end.

Definition reflect_Metadata (m : Metadata) : reflected := reflect_leaf (md_unknown m).
Definition reflect_metadata_list (l : list (option Metadata)) : list (string * reflected_value) :=
  match l with [] => [] | _ => [("metadata"%string, RList (reflect_opt reflect_Metadata <$> l))] end.
Definition reflect_Timestamp (t : Timestamp) : reflected := reflect_leaf (ts_unknown t).
Definition reflect_Duration (d : Duration) : reflected := reflect_leaf (dur_unknown d).
Definition reflect_Limits (l : Limits) : reflected := reflect_leaf (lim_unknown l).
Definition reflect_Header (h : FrameHeader) : reflected := reflect_leaf (fh_unknown h).
Definition reflect_GatewayOutHello (h : GatewayOutHello) : reflected :=
  Reflected (goh_unknown h) (reflect_field "limits" reflect_Limits (goh_limits h)).
Definition reflect_GatewayInHello (h : GatewayInHello) : reflected :=
  Reflected (gih_unknown h) (reflect_field "limits" reflect_Limits (gih_limits h)).
Definition reflect_Open (o : Open) : reflected :=
  Reflected (op_unknown o)
    (reflect_field "deadline" reflect_Timestamp (op_deadline o) ++
     reflect_metadata_list (op_metadata o)).
Definition reflect_Result (r : Result) : reflected :=
  Reflected (res_unknown r)
    (reflect_field "retry_after" reflect_Duration (res_retry_after r) ++
     reflect_metadata_list (res_metadata r)).
Definition reflect_Drain (d : Drain) : reflected :=
  Reflected (drain_unknown d) (reflect_field "deadline" reflect_Timestamp (drain_deadline d)).

Definition reflect_request_payload (p : ConnectRequest_payload) : string * reflected_value :=
  match p with
  | Req_Hello m => ("hello"%string, RMessage (reflect_opt reflect_GatewayOutHello m))
  | Req_Data m => ("data"%string, RMessage (reflect_opt (reflect_leaf ∘ data_unknown) m))
  | Req_HalfClose m => ("half_close"%string, RMessage (reflect_opt (reflect_leaf ∘ hc_unknown) m))
  | Req_Cancel m => ("cancel"%string, RMessage (reflect_opt (reflect_leaf ∘ cancel_unknown) m))
  | Req_Result m => ("result"%string, RMessage (reflect_opt reflect_Result m))
  | Req_Credit m => ("credit"%string, RMessage (reflect_opt (reflect_leaf ∘ credit_unknown) m))
  | Req_Ping m => ("ping"%string, RMessage (reflect_opt (reflect_leaf ∘ ping_unknown) m))
  | Req_Pong m => ("pong"%string, RMessage (reflect_opt (reflect_leaf ∘ pong_unknown) m))
  | Req_Drain m => ("drain"%string, RMessage (reflect_opt reflect_Drain m))
  | Req_RevokeSession m =>
      ("revoke_session"%string, RMessage (reflect_opt (reflect_leaf ∘ rs_unknown) m))
  end.

Definition reflect_response_payload (p : ConnectResponse_payload) : string * reflected_value :=
  match p with
  | Resp_Hello m => ("hello"%string, RMessage (reflect_opt reflect_GatewayInHello m))
  | Resp_Open m => ("open"%string, RMessage (reflect_opt reflect_Open m))
  | Resp_Data m => ("data"%string, RMessage (reflect_opt (reflect_leaf ∘ data_unknown) m))
  | Resp_HalfClose m => ("half_close"%string, RMessage (reflect_opt (reflect_leaf ∘ hc_unknown) m))
  | Resp_Cancel m => ("cancel"%string, RMessage (reflect_opt (reflect_leaf ∘ cancel_unknown) m))
  | Resp_Credit m => ("credit"%string, RMessage (reflect_opt (reflect_leaf ∘ credit_unknown) m))
  | Resp_Ping m => ("ping"%string, RMessage (reflect_opt (reflect_leaf ∘ ping_unknown) m))
  | Resp_Pong m => ("pong"%string, RMessage (reflect_opt (reflect_leaf ∘ pong_unknown) m))
  | Resp_Drain m => ("drain"%string, RMessage (reflect_opt reflect_Drain m))
  end.

Definition reflect_ConnectRequest (f : ConnectRequest) : reflected :=
  Reflected (creq_unknown f)
    (reflect_field "header" reflect_Header (creq_header f) ++
     match creq_payload f with Some p => [reflect_request_payload p] | None => [] end).

Definition reflect_ConnectResponse (f : ConnectResponse) : reflected :=
  Reflected (cresp_unknown f)
    (reflect_field "header" reflect_Header (cresp_header f) ++
     match cresp_payload f with Some p => [reflect_response_payload p] | None => [] end).

(** ** The finite vocabularies *)

Definition knownTrafficClass (value : Z) : bool :=
  switch_in value
    [TRAFFIC_CLASS_UNSPECIFIED; TRAFFIC_CLASS_CONTROL_AUTH;
     TRAFFIC_CLASS_REGULAR; TRAFFIC_CLASS_REALTIME].

Definition knownCapability (value : Z) : bool :=
  switch_in value
    [CAPABILITY_UNSPECIFIED; CAPABILITY_DRAIN;
     CAPABILITY_SESSION_REVOCATION; CAPABILITY_REALTIME].

Definition knownRoute (value : Z) : bool :=
  switch_in value
    [ROUTE_ID_UNSPECIFIED;
     ROUTE_ID_AUTH_REGISTER_CREDENTIALS;
     ROUTE_ID_AUTH_LOGIN;
     ROUTE_ID_AUTH_REFRESH_SESSION;
     ROUTE_ID_AUTH_REVOKE_SESSION;
     ROUTE_ID_AUTH_SESSION_ASSERTION;
     ROUTE_ID_AUTH_LOGOUT_ALL;
     ROUTE_ID_AUTH_START_LOGIN_CODE_CHANGE;
     ROUTE_ID_AUTH_COMPLETE_LOGIN_CODE_CHANGE;
     ROUTE_ID_AUTH_CHANGE_PASSWORD;
     ROUTE_ID_AUTH_START_LOGIN;
     ROUTE_ID_AUTH_COMPLETE_LOGIN;
     ROUTE_ID_AUTH_RESEND_LOGIN_CODE;
     ROUTE_ID_AUTH_REQUEST_EMAIL_VERIFICATION;
     ROUTE_ID_AUTH_CONFIRM_EMAIL;
     ROUTE_ID_AUTH_REQUEST_PASSWORD_RESET;
     ROUTE_ID_AUTH_CONFIRM_PASSWORD_RESET;
     ROUTE_ID_AUTH_GET_CREDENTIALS;
     ROUTE_ID_AUTH_START_EMAIL_CHANGE;
     ROUTE_ID_AUTH_CONFIRM_EMAIL_CHANGE;
     ROUTE_ID_AUTH_CANCEL_EMAIL_CHANGE;
     ROUTE_ID_AUTH_LIST_SESSIONS;
     ROUTE_ID_AUTH_REVOKE_OWNED_SESSION;
     ROUTE_ID_AUTH_REQUEST_ACCOUNT_DELETION;
     ROUTE_ID_AUTH_CANCEL_ACCOUNT_DELETION;
     ROUTE_ID_USER_GET_ME;
     ROUTE_ID_USER_UPDATE_ME;
     ROUTE_ID_USER_BROWSER_GET_ME;
     ROUTE_ID_USER_BROWSER_UPDATE_ME;
     ROUTE_ID_USER_BROWSER_LIST_ADDRESSES;
     ROUTE_ID_USER_BROWSER_CREATE_ADDRESS;
     ROUTE_ID_USER_BROWSER_UPDATE_ADDRESS;
     ROUTE_ID_USER_BROWSER_DELETE_ADDRESS;
     ROUTE_ID_USER_BROWSER_SET_DEFAULT_ADDRESS;
     ROUTE_ID_USER_BROWSER_GET_SETTINGS;
     ROUTE_ID_USER_BROWSER_UPDATE_SETTINGS;
     ROUTE_ID_USER_BROWSER_GET_AVATAR;
     ROUTE_ID_USER_BROWSER_SET_AVATAR;
     ROUTE_ID_USER_BROWSER_CLEAR_AVATAR;
     ROUTE_ID_REALTIME_CHAT;
     ROUTE_ID_REALTIME_NOTIFICATIONS;
     ROUTE_ID_FILE_CREATE_UPLOAD;
     ROUTE_ID_FILE_COMPLETE_UPLOAD;
     ROUTE_ID_FILE_GET_STATUS;
     ROUTE_ID_FILE_CREATE_DOWNLOAD;
     ROUTE_ID_FILE_DELETE].

Definition knownMetadataKey (value : Z) : bool :=
  switch_in value
    [METADATA_KEY_UNSPECIFIED; METADATA_KEY_CONTENT_TYPE; METADATA_KEY_TRACEPARENT;
     METADATA_KEY_TRACESTATE; METADATA_KEY_SESSION_ASSERTION].

Definition knownCancelReason (value : Z) : bool :=
  switch_in value
    [CANCEL_REASON_UNSPECIFIED; CANCEL_REASON_CALLER; CANCEL_REASON_DEADLINE;
     CANCEL_REASON_DRAIN; CANCEL_REASON_POLICY].

Definition knownResultCode (value : Z) : bool :=
  switch_in value
    [RESULT_CODE_UNSPECIFIED; RESULT_CODE_OK; RESULT_CODE_INVALID_ARGUMENT;
     RESULT_CODE_UNAUTHENTICATED; RESULT_CODE_PERMISSION_DENIED; RESULT_CODE_NOT_FOUND;
     RESULT_CODE_CONFLICT; RESULT_CODE_RESOURCE_EXHAUSTED; RESULT_CODE_DEADLINE_EXCEEDED;
     RESULT_CODE_CANCELED; RESULT_CODE_UNAVAILABLE; RESULT_CODE_INTERNAL].

Definition knownDrainReason (value : Z) : bool :=
  switch_in value
    [DRAIN_REASON_UNSPECIFIED; DRAIN_REASON_MAINTENANCE;
     DRAIN_REASON_SHUTDOWN; DRAIN_REASON_OVERLOAD].

Definition routeTrafficClass (route : Z) : Z :=
  if switch_in route
    [ROUTE_ID_AUTH_REGISTER_CREDENTIALS;
     ROUTE_ID_AUTH_LOGIN;
     ROUTE_ID_AUTH_REFRESH_SESSION;
     ROUTE_ID_AUTH_REVOKE_SESSION;
     ROUTE_ID_AUTH_SESSION_ASSERTION;
     ROUTE_ID_AUTH_LOGOUT_ALL;
     ROUTE_ID_AUTH_START_LOGIN_CODE_CHANGE;
     ROUTE_ID_AUTH_COMPLETE_LOGIN_CODE_CHANGE;
     ROUTE_ID_AUTH_CHANGE_PASSWORD;
     ROUTE_ID_AUTH_START_LOGIN;
     ROUTE_ID_AUTH_COMPLETE_LOGIN;
     ROUTE_ID_AUTH_RESEND_LOGIN_CODE;
     ROUTE_ID_AUTH_REQUEST_EMAIL_VERIFICATION;
     ROUTE_ID_AUTH_CONFIRM_EMAIL;
     ROUTE_ID_AUTH_REQUEST_PASSWORD_RESET;
     ROUTE_ID_AUTH_CONFIRM_PASSWORD_RESET;
     ROUTE_ID_AUTH_GET_CREDENTIALS;
     ROUTE_ID_AUTH_START_EMAIL_CHANGE;
     ROUTE_ID_AUTH_CONFIRM_EMAIL_CHANGE;
     ROUTE_ID_AUTH_CANCEL_EMAIL_CHANGE;
     ROUTE_ID_AUTH_LIST_SESSIONS;
     ROUTE_ID_AUTH_REVOKE_OWNED_SESSION;
     ROUTE_ID_AUTH_REQUEST_ACCOUNT_DELETION;
     ROUTE_ID_AUTH_CANCEL_ACCOUNT_DELETION]
  then TRAFFIC_CLASS_CONTROL_AUTH
  else if switch_in route
    [ROUTE_ID_USER_GET_ME;
     ROUTE_ID_USER_UPDATE_ME;
     ROUTE_ID_USER_BROWSER_GET_ME;
     ROUTE_ID_USER_BROWSER_UPDATE_ME;
     ROUTE_ID_USER_BROWSER_LIST_ADDRESSES;
     ROUTE_ID_USER_BROWSER_CREATE_ADDRESS;
     ROUTE_ID_USER_BROWSER_UPDATE_ADDRESS;
     ROUTE_ID_USER_BROWSER_DELETE_ADDRESS;
     ROUTE_ID_USER_BROWSER_SET_DEFAULT_ADDRESS;
     ROUTE_ID_USER_BROWSER_GET_SETTINGS;
     ROUTE_ID_USER_BROWSER_UPDATE_SETTINGS;
     ROUTE_ID_USER_BROWSER_GET_AVATAR;
     ROUTE_ID_USER_BROWSER_SET_AVATAR;
     ROUTE_ID_USER_BROWSER_CLEAR_AVATAR;
     ROUTE_ID_FILE_CREATE_UPLOAD;
     ROUTE_ID_FILE_COMPLETE_UPLOAD;
     ROUTE_ID_FILE_GET_STATUS;
     ROUTE_ID_FILE_CREATE_DOWNLOAD;
     ROUTE_ID_FILE_DELETE]
  then TRAFFIC_CLASS_REGULAR
  else if switch_in route [ROUTE_ID_REALTIME_CHAT; ROUTE_ID_REALTIME_NOTIFICATIONS]
  then TRAFFIC_CLASS_REALTIME
  else TRAFFIC_CLASS_UNSPECIFIED.

(** ** Trace context metadata *)

Definition ch (s : string) : Z := default 0 (head (bytes_of s)).

Definition lowerAlphaNumeric (value : Z) : bool :=
  let isLowerLetter := (ch "a" <=? value) && (value <=? ch "z") in
  let isNumber := (ch "0" <=? value) && (value <=? ch "9") in
  isLowerLetter || isNumber.

Fixpoint lowerHex (value : bytes) : bool :=
  match value with
  | [] => true
  | character :: rest =>
      let isNumber := (ch "0" <=? character) && (character <=? ch "9") in
      let isLowerLetter := (ch "a" <=? character) && (character <=? ch "f") in
      if negb isNumber && negb isLowerLetter then false else lowerHex rest
  end.

Fixpoint allZero (value : bytes) : bool :=
  match value with
  | [] => true
  | character :: rest => if negb (character =? ch "0") then false else allZero rest
  end.

Definition validTraceparent (value : bytes) : result frame_error bool :=
  r ← or_else (Ok (negb (len value =? 55)))
        (version ← slice value 0 2; Ok (negb (bytes_Equal version (bytes_of "00"))));
  if r : bool then Ok false else
  r ← or_else (c ← index value 2; Ok (negb (c =? ch "-")))
        (or_else (c ← index value 35; Ok (negb (c =? ch "-")))
                 (c ← index value 52; Ok (negb (c =? ch "-"))));
  if r : bool then Ok false else
  traceID ← slice value 3 35;
  if negb (lowerHex traceID) || allZero traceID then Ok false else
  spanID ← slice value 36 52;
  if negb (lowerHex spanID) || allZero spanID then Ok false else
  flags ← slice value 53 55;
  Ok (lowerHex flags).

(** [bytes.Split(value, []byte{sep})] *)
Fixpoint bytes_Split (sep : Z) (value : bytes) : list bytes :=
  match value with
  | [] => [[]]
  | c :: rest =>
      let parts := bytes_Split sep rest in
      if c =? sep then [] :: parts
      else match parts with p :: ps => (c :: p) :: ps | [] => [[c]] end
  end.

(** [bytes.TrimLeft(value, cutset)] and [bytes.Trim(value, cutset)] for a cutset
    of one byte. *)
Fixpoint bytes_TrimLeft (c : Z) (value : bytes) : bytes :=
  match value with
  | x :: rest => if x =? c then bytes_TrimLeft c rest else value
  | [] => []
  end.
Definition bytes_Trim (c : Z) (value : bytes) : bytes :=
  reverse (bytes_TrimLeft c (reverse (bytes_TrimLeft c value))).

(** [bytes.Cut(value, []byte{sep})] *)
Fixpoint bytes_Cut (sep : Z) (value : bytes) : bytes * bytes * bool :=
  match value with
  | [] => ([], [], false)
  | c :: rest =>
      if c =? sep then ([], rest, true)
      else let '(before, after, found) := bytes_Cut sep rest in (c :: before, after, found)
  end.

Fixpoint validTracestateKey_loop (atCount : Z) (value : bytes) : bool :=
  match value with
  | [] => true
  | character :: rest =>
      let isAllowed := lowerAlphaNumeric character || (character =? ch "_") ||
        (character =? ch "-") || (character =? ch "*") || (character =? ch "/") in
      let '(atCount, isAllowed) :=
        if character =? ch "@" then (atCount + 1, true) else (atCount, isAllowed) in
      if negb isAllowed || (1 <? atCount) then false
      else validTracestateKey_loop atCount rest
  end.

Definition validTracestateKey (value : bytes) : result frame_error bool :=
  r ← or_else (Ok ((len value =? 0) || (256 <? len value)))
        (c ← index value 0; Ok (negb (lowerAlphaNumeric c)));
  if r : bool then Ok false else
  if negb (validTracestateKey_loop 0 value) then Ok false else
  first ← index value 0;
  if negb (negb (first =? ch "@")) then Ok false else
  last ← index value (len value - 1);
  Ok (negb (last =? ch "@")).

Fixpoint validTracestateValue_loop (value : bytes) : bool :=
  match value with
  | [] => true
  | character :: rest =>
      if (character <? 0x20) || (0x7e <? character) || (character =? ch ",") ||
         (character =? ch "=")
      then false
      else validTracestateValue_loop rest
  end.

Definition validTracestateValue (value : bytes) : result frame_error bool :=
  r ← or_else (Ok ((len value =? 0) || (256 <? len value)))
        (c ← index value (len value - 1); Ok (c =? ch " "));
  if r : bool then Ok false else Ok (validTracestateValue_loop value).

Fixpoint printable (value : bytes) : bool :=
  match value with
  | [] => true
  | character :: rest =>
      if (character <? 0x20) || (0x7e <? character) then false else printable rest
  end.

Fixpoint validTracestate_members (seen : gset bytes) (members : list bytes) :
    result frame_error bool :=
  match members with
  | [] => Ok true
  | member :: rest =>
      let member := bytes_Trim (ch " ") member in
      let '(key, memberValue, found) := bytes_Cut (ch "=") member in
      r ← or_else (Ok (negb found))
            (or_else (negb <$> validTracestateKey key) (negb <$> validTracestateValue memberValue));
      if r : bool then Ok false
      else if bool_decide (key ∈ seen) then Ok false
      else validTracestate_members ({[key]} ∪ seen) rest
  end.

Definition validTracestate (value : bytes) : result frame_error bool :=
  r ← or_else (c ← index value 0; Ok (c =? ch ","))
        (c ← index value (len value - 1); Ok (c =? ch ","));
  if r : bool then Ok false else
  if negb (printable value) then Ok false else
  let members := bytes_Split (ch ",") value in
  if 32 <? len members then Ok false else
  validTracestate_members ∅ members.

(** ** Metadata *)

Definition validateMetadataValue (key : Z) (value : bytes) (allowSessionAssertion : bool) : check :=
  reject_if ((len value =? 0) || (MaxMetadataValueBytes <? len value))
    (invalidFrame "metadata.value" "is empty or exceeds v1 limit");;
  if key =? METADATA_KEY_CONTENT_TYPE then
    reject_if ((MaxContentTypeBytes <? len value) || negb (bytes_Equal value protobufContentType))
      (invalidFrame "metadata.value" "has unsupported content type")
  else if key =? METADATA_KEY_TRACEPARENT then
    r ← or_else (Ok (MaxTraceparentBytes <? len value)) (negb <$> validTraceparent value);
    reject_if r (invalidFrame "metadata.value" "has invalid traceparent format")
  else if key =? METADATA_KEY_TRACESTATE then
    r ← or_else (Ok (MaxTracestateBytes <? len value)) (negb <$> validTracestate value);
    reject_if r (invalidFrame "metadata.value" "has invalid tracestate format")
  else if key =? METADATA_KEY_SESSION_ASSERTION then
    reject_if (negb allowSessionAssertion) (invalidFrame "metadata.key" "is forbidden in Result")
  else Err (invalidFrame "metadata.key" "is unknown").

Fixpoint validateMetadata_loop (path : string) (seen : gset Z)
    (entries : list (option Metadata)) (allowSessionAssertion : bool) : check :=
  match entries with
  | [] => Ok tt
  | None :: _ => Err (invalidFrame path "contains a nil entry")
  | Some entry :: rest =>
      let key := md_key entry in
      reject_if (negb (knownMetadataKey key) || (key =? METADATA_KEY_UNSPECIFIED))
        (invalidFrame path "contains an unknown key");;
      reject_if (bool_decide (key ∈ seen)) (invalidFrame path "contains a duplicate key");;
      validateMetadataValue key (md_value entry) allowSessionAssertion;;
      validateMetadata_loop path ({[key]} ∪ seen) rest allowSessionAssertion
  end.

Definition validateMetadata (path : string) (entries : list (option Metadata))
    (allowSessionAssertion : bool) : check :=
  reject_if (MaxMetadataEntries <? len entries) (invalidFrame path "has too many entries");;
  validateMetadata_loop path ∅ entries allowSessionAssertion.

(** ** Headers *)

Definition validateHelloHeader (header : option FrameHeader) : check :=
  reject_if (bool_decide (header = None)) (invalidFrame "header" "is required");;
  reject_if (negb (GetProtocolVersion header =? 0)) (unsupportedVersion "header.protocol_version");;
  reject_if (negb (len (GetRequestId header) =? 0))
    (invalidFrame "header.request_id" "must be empty for Hello");;
  reject_if (negb (GetSequence header =? 0))
    (invalidFrame "header.sequence" "must be zero for Hello");;
  reject_if (negb (GetTrafficClass header =? TRAFFIC_CLASS_UNSPECIFIED))
    (invalidFrame "header.traffic_class" "must be unspecified for Hello").

Definition validateGatewayOutHelloHeader (header : option FrameHeader) : check :=
  validateHelloHeader header;;
  reject_if (negb (len (GetTunnelId header) =? 0))
    (invalidFrame "header.tunnel_id" "must be empty in gateway-out Hello").

Definition validateGatewayInHelloHeader (header : option FrameHeader) : check :=
  validateHelloHeader header;;
  reject_if (negb (len (GetTunnelId header) =? TunnelIDBytes))
    (invalidFrame "header.tunnel_id" "must be 16 bytes in gateway-in Hello").

Definition validateRequestHeader (header : option FrameHeader) : check :=
  reject_if (bool_decide (header = None)) (invalidFrame "header" "is required");;
  reject_if (negb (GetProtocolVersion header =? protocolVersion))
    (unsupportedVersion "header.protocol_version");;
  reject_if (negb (len (GetTunnelId header) =? TunnelIDBytes))
    (invalidFrame "header.tunnel_id" "must be 16 bytes");;
  reject_if (negb (len (GetRequestId header) =? RequestIDBytes))
    (invalidFrame "header.request_id" "must be 16 bytes");;
  reject_if (GetSequence header =? 0) (invalidFrame "header.sequence" "must be positive");;
  reject_if (negb (knownTrafficClass (GetTrafficClass header)) ||
             (GetTrafficClass header =? TRAFFIC_CLASS_UNSPECIFIED))
    (invalidFrame "header.traffic_class" "is unknown or unspecified").

Definition validateTunnelHeader (header : option FrameHeader) : check :=
  reject_if (bool_decide (header = None)) (invalidFrame "header" "is required");;
  reject_if (negb (GetProtocolVersion header =? protocolVersion))
    (unsupportedVersion "header.protocol_version");;
  reject_if (negb (len (GetTunnelId header) =? TunnelIDBytes))
    (invalidFrame "header.tunnel_id" "must be 16 bytes");;
  reject_if (negb (len (GetRequestId header) =? 0))
    (invalidFrame "header.request_id" "must be empty for tunnel control");;
  reject_if (negb (GetSequence header =? 0))
    (invalidFrame "header.sequence" "must be zero for tunnel control");;
  reject_if (negb (GetTrafficClass header =? TRAFFIC_CLASS_UNSPECIFIED))
    (invalidFrame "header.traffic_class" "must be unspecified for tunnel control").

Definition validateSessionControlHeader (header : option FrameHeader) : check :=
  reject_if (bool_decide (header = None)) (invalidFrame "header" "is required");;
  reject_if (negb (GetProtocolVersion header =? protocolVersion))
    (unsupportedVersion "header.protocol_version");;
  reject_if (negb (len (GetTunnelId header) =? TunnelIDBytes))
    (invalidFrame "header.tunnel_id" "must be 16 bytes");;
  reject_if (negb (len (GetRequestId header) =? 0))
    (invalidFrame "header.request_id" "must be empty for session control");;
  reject_if (negb (GetSequence header =? 0))
    (invalidFrame "header.sequence" "must be zero for session control");;
  reject_if (negb (GetTrafficClass header =? TRAFFIC_CLASS_CONTROL_AUTH))
    (invalidFrame "header.traffic_class" "must be control/auth").

(** ** Hello *)

Fixpoint validateSupportedVersions_loop (seen : gset Z) (foundVersion : bool) (versions : list Z) :
    result frame_error bool :=
  match versions with
  | [] => Ok foundVersion
  | version :: rest =>
      reject_if (bool_decide (version ∈ seen))
        (invalidFrame "hello.supported_protocol_versions" "contains a duplicate");;
      validateSupportedVersions_loop ({[version]} ∪ seen)
        (if version =? protocolVersion then true else foundVersion) rest
  end.

Definition validateSupportedVersions (versions : list Z) : check :=
  reject_if ((len versions =? 0) || (MaxSupportedVersions <? len versions))
    (invalidFrame "hello.supported_protocol_versions" "has invalid length");;
  foundVersion ← validateSupportedVersions_loop ∅ false versions;
  reject_if (negb foundVersion) (unsupportedVersion "hello.supported_protocol_versions").

(** The loop [validateCapabilities], [validateTrafficClasses] and
    [validateRoutes] share, over their own vocabulary. *)
Fixpoint validate_values (field : string) (known : Z -> bool) (unspecified : Z)
    (seen : gset Z) (values : list Z) : check :=
  match values with
  | [] => Ok tt
  | value :: rest =>
      reject_if (negb (known value) || (value =? unspecified))
        (invalidFrame field "contains an unknown value");;
      reject_if (bool_decide (value ∈ seen)) (invalidFrame field "contains a duplicate");;
      validate_values field known unspecified ({[value]} ∪ seen) rest
  end.

Definition validateCapabilities (capabilities : list Z) : check :=
  reject_if (MaxCapabilities <? len capabilities)
    (invalidFrame "hello.capabilities" "has invalid length");;
  validate_values "hello.capabilities" knownCapability CAPABILITY_UNSPECIFIED ∅ capabilities.

Definition validateTrafficClasses (classes : list Z) : check :=
  reject_if ((len classes =? 0) || (MaxTrafficClasses <? len classes))
    (invalidFrame "hello.traffic_classes" "has invalid length");;
  validate_values "hello.traffic_classes" knownTrafficClass TRAFFIC_CLASS_UNSPECIFIED ∅ classes.

Definition validateRoutes (routes : list Z) : check :=
  reject_if ((len routes =? 0) || (MaxAdvertisedRoutes <? len routes))
    (invalidFrame "hello.route_ids" "has invalid length");;
  validate_values "hello.route_ids" knownRoute ROUTE_ID_UNSPECIFIED ∅ routes.

Definition validateLimits (limits : option Limits) : check :=
  match limits with
  | None => Err (invalidFrame "hello.limits" "is required")
  | Some l =>
      reject_if ((max_frame_bytes l =? 0) || (MaxEncodedFrameBytes <? max_frame_bytes l))
        (invalidFrame "hello.limits.max_frame_bytes" "is outside v1 bounds");;
      reject_if ((max_data_bytes l =? 0) || (MaxDataBytes <? max_data_bytes l))
        (invalidFrame "hello.limits.max_data_bytes" "is outside v1 bounds");;
      reject_if (max_frame_bytes l <=? max_data_bytes l)
        (invalidFrame "hello.limits.max_frame_bytes" "must exceed max_data_bytes");;
      reject_if ((max_message_bytes l <? max_data_bytes l) || (MaxMessageBytes <? max_message_bytes l))
        (invalidFrame "hello.limits.max_message_bytes" "is outside v1 bounds");;
      reject_if ((max_in_flight_requests l =? 0) || (MaxInFlightRequests <? max_in_flight_requests l))
        (invalidFrame "hello.limits.max_in_flight_requests" "is outside v1 bounds");;
      reject_if ((max_metadata_entries l =? 0) || (MaxMetadataEntries <? max_metadata_entries l))
        (invalidFrame "hello.limits.max_metadata_entries" "is outside v1 bounds");;
      reject_if ((max_metadata_value_bytes l =? 0) ||
                 (MaxMetadataValueBytes <? max_metadata_value_bytes l))
        (invalidFrame "hello.limits.max_metadata_value_bytes" "is outside v1 bounds");;
      reject_if ((max_credit_bytes l =? 0) || (MaxCreditBytes <? max_credit_bytes l))
        (invalidFrame "hello.limits.max_credit_bytes" "is outside v1 bounds")
  end.

Definition validateGatewayOutHello (hello : option GatewayOutHello) : check :=
  match hello with
  | None => Err (invalidFrame "hello" "is required")
  | Some h =>
      reject_if (negb (len (goh_instance_id h) =? InstanceIDBytes))
        (invalidFrame "hello.instance_id" "must be 16 bytes");;
      validateSupportedVersions (goh_supported_protocol_versions h);;
      validateCapabilities (goh_capabilities h);;
      validateTrafficClasses (goh_traffic_classes h);;
      validateRoutes (goh_route_ids h);;
      validateLimits (goh_limits h)
  end.

Definition validateGatewayInHello (hello : option GatewayInHello) : check :=
  match hello with
  | None => Err (invalidFrame "hello" "is required")
  | Some h =>
      reject_if (negb (len (gih_instance_id h) =? InstanceIDBytes))
        (invalidFrame "hello.instance_id" "must be 16 bytes");;
      reject_if (negb (gih_selected_protocol_version h =? protocolVersion))
        (unsupportedVersion "hello.selected_protocol_version");;
      validateCapabilities (gih_capabilities h);;
      validateTrafficClasses (gih_traffic_classes h);;
      validateRoutes (gih_route_ids h);;
      validateLimits (gih_limits h)
  end.

(** ** Payloads *)

Section payloads.
Context `{ProtoRuntime}.

Definition validateTimestamp (field : string) (timestamp : option Timestamp) : check :=
  match timestamp with
  | Some t =>
      reject_if (negb (timestamp_CheckValid t))
        (invalidFrame field "is required and must be a valid UTC timestamp")
  | None => Err (invalidFrame field "is required and must be a valid UTC timestamp")
  end.

Definition validateDuration (field : string) (duration : Duration) : check :=
  reject_if (negb (duration_CheckValid duration)) (invalidFrame field "must be valid");;
  let value := duration_AsDuration duration in
  reject_if ((value <=? 0) || (MaxRetryAfter <? value)) (invalidFrame field "is outside v1 bounds").

Definition validateOpen (class : Z) (open : option Open) : check :=
  match open with
  | None => Err (invalidFrame "open" "is required")
  | Some o =>
      reject_if (negb (knownRoute (op_route_id o)) || (op_route_id o =? ROUTE_ID_UNSPECIFIED))
        (invalidFrame "open.route_id" "is unknown or unspecified");;
      reject_if (negb (class =? routeTrafficClass (op_route_id o)))
        (invalidFrame "header.traffic_class" "does not match route policy");;
      validateTimestamp "open.deadline" (op_deadline o);;
      reject_if (MaxIdempotencyKeyBytes <? len (op_idempotency_key o))
        (invalidFrame "open.idempotency_key" "exceeds v1 limit");;
      validateMetadata "open.metadata" (op_metadata o) true
  end.

Definition validateData (data : option Data) : check :=
  match data with
  | None => Err (invalidFrame "data" "is required")
  | Some d =>
      reject_if ((len (data_payload d) =? 0) || (MaxDataBytes <? len (data_payload d)))
        (invalidFrame "data.payload" "is empty or exceeds v1 limit")
  end.

Definition validateHalfClose (halfClose : option HalfClose) : check :=
  match halfClose with
  | None => Err (invalidFrame "half_close" "is required")
  | Some _ => Ok tt
  end.

Definition validateCancel (cancel : option Cancel) : check :=
  match cancel with
  | None => Err (invalidFrame "cancel" "is required")
  | Some c =>
      reject_if (negb (knownCancelReason (cancel_reason c)) ||
                 (cancel_reason c =? CANCEL_REASON_UNSPECIFIED))
        (invalidFrame "cancel.reason" "is unknown or unspecified")
  end.

Definition validateResult (result : option Result) : check :=
  match result with
  | None => Err (invalidFrame "result" "is required")
  | Some r =>
      reject_if (negb (knownResultCode (res_code r)) || (res_code r =? RESULT_CODE_UNSPECIFIED))
        (invalidFrame "result.code" "is unknown or unspecified");;
      reject_if ((res_code r =? RESULT_CODE_OK) && bool_decide (is_Some (res_retry_after r)))
        (invalidFrame "result.retry_after" "must be absent for success");;
      match res_retry_after r with
      | Some d => validateDuration "result.retry_after" d
      | None => Ok tt
      end;;
      validateMetadata "result.metadata" (res_metadata r) false
  end.

Definition validateCredit (credit : option Credit) : check :=
  match credit with
  | None => Err (invalidFrame "credit" "is required")
  | Some c =>
      reject_if ((credit_bytes c =? 0) || (MaxCreditBytes <? credit_bytes c))
        (invalidFrame "credit.bytes" "is outside v1 bounds")
  end.

Definition validatePing (ping : option Ping) : check :=
  match ping with
  | None => Err (invalidFrame "ping.nonce" "must be positive")
  | Some p => reject_if (ping_nonce p =? 0) (invalidFrame "ping.nonce" "must be positive")
  end.

Definition validatePong (pong : option Pong) : check :=
  match pong with
  | None => Err (invalidFrame "pong.nonce" "must be positive")
  | Some p => reject_if (pong_nonce p =? 0) (invalidFrame "pong.nonce" "must be positive")
  end.

Definition validateDrain (drain : option Drain) : check :=
  match drain with
  | None => Err (invalidFrame "drain" "is required")
  | Some d =>
      validateTimestamp "drain.deadline" (drain_deadline d);;
      reject_if (negb (knownDrainReason (drain_reason d)) ||
                 (drain_reason d =? DRAIN_REASON_UNSPECIFIED))
        (invalidFrame "drain.reason" "is unknown or unspecified")
  end.

Definition validateRevokeSession (revoke : option RevokeSession) : check :=
  match revoke with
  | None => Err (invalidFrame "revoke_session.session_id" "must be 16 bytes")
  | Some r =>
      reject_if (negb (len (rs_session_id r) =? SessionIDBytes))
        (invalidFrame "revoke_session.session_id" "must be 16 bytes")
  end.

(** ** Frames *)

Definition ValidateGatewayOutFrame (frame : option ConnectRequest) : check :=
  match frame with
  | None => Err (invalidFrame "frame" "is required")
  | Some f =>
      rejectUnknownFields (reflect_ConnectRequest f) "frame";;
      let header := creq_header f in
      match creq_payload f with
      | Some (Req_Hello hello) => validateGatewayOutHelloHeader header;; validateGatewayOutHello hello
      | Some (Req_Data data) => validateRequestHeader header;; validateData data
      | Some (Req_HalfClose hc) => validateRequestHeader header;; validateHalfClose hc
      | Some (Req_Cancel cancel) => validateRequestHeader header;; validateCancel cancel
      | Some (Req_Result result) => validateRequestHeader header;; validateResult result
      | Some (Req_Credit credit) => validateRequestHeader header;; validateCredit credit
      | Some (Req_Ping ping) => validateTunnelHeader header;; validatePing ping
      | Some (Req_Pong pong) => validateTunnelHeader header;; validatePong pong
      | Some (Req_Drain drain) => validateTunnelHeader header;; validateDrain drain
      | Some (Req_RevokeSession revoke) =>
          validateSessionControlHeader header;; validateRevokeSession revoke
      | None => Err ErrUnknownFrameType
      end
  end.

Definition ValidateGatewayInFrame (frame : option ConnectResponse) : check :=
  match frame with
  | None => Err (invalidFrame "frame" "is required")
  | Some f =>
      rejectUnknownFields (reflect_ConnectResponse f) "frame";;
      let header := cresp_header f in
      match cresp_payload f with
      | Some (Resp_Hello hello) => validateGatewayInHelloHeader header;; validateGatewayInHello hello
      | Some (Resp_Open open) =>
          validateRequestHeader header;; validateOpen (GetTrafficClass header) open
      | Some (Resp_Data data) => validateRequestHeader header;; validateData data
      | Some (Resp_HalfClose hc) => validateRequestHeader header;; validateHalfClose hc
      | Some (Resp_Cancel cancel) => validateRequestHeader header;; validateCancel cancel
      | Some (Resp_Credit credit) => validateRequestHeader header;; validateCredit credit
      | Some (Resp_Ping ping) => validateTunnelHeader header;; validatePing ping
      | Some (Resp_Pong pong) => validateTunnelHeader header;; validatePong pong
      | Some (Resp_Drain drain) => validateTunnelHeader header;; validateDrain drain
      | None => Err ErrUnknownFrameType
      end
  end.

End payloads.
