(* ===== verification/TunnelValidateProofs.v ===== *)
(** * What the frame validators accept

    A declarative description of the v1 frames, written from the protocol
    document, and the proofs that [ValidateGatewayOutFrame] and
    [ValidateGatewayInFrame] accept exactly the frames it describes, without
    ever panicking. *)

From S2P Require Import Prelude TunnelContract TunnelValidate.
Local Open Scope Z_scope.

(** ** Specification *)

(** *** Identifiers and vocabularies *)

Definition declared_class (c : Z) : Prop := 1 <= c <= 3.
Definition declared_capability (c : Z) : Prop := 1 <= c <= 3.
Definition declared_metadata_key (k : Z) : Prop := 1 <= k <= 4.
Definition control_route (r : Z) : Prop := 1 <= r <= 24.
Definition regular_route (r : Z) : Prop := 100 <= r <= 113 \/ 300 <= r <= 304.
Definition realtime_route (r : Z) : Prop := 200 <= r <= 201.
Definition declared_route (r : Z) : Prop := control_route r \/ regular_route r \/ realtime_route r.

(** The class the protocol document assigns to a route. *)
Definition class_of_route (r c : Z) : Prop :=
  (control_route r /\ c = 1) \/ (regular_route r /\ c = 2) \/ (realtime_route r /\ c = 3).

(** A list of declared values without repetition. *)
Definition vocabulary_list (declared : Z -> Prop) (l : list Z) : Prop :=
  NoDup l /\ Forall declared l.

(** *** Headers *)

Definition hello_header_wf (tunnel_id_bytes : Z) (h : FrameHeader) : Prop :=
  fh_protocol_version h = 0 /\ fh_request_id h = [] /\ fh_sequence h = 0 /\
  fh_traffic_class h = 0 /\ len (fh_tunnel_id h) = tunnel_id_bytes.

Definition request_header_wf (h : FrameHeader) : Prop :=
  fh_protocol_version h = 1 /\ len (fh_tunnel_id h) = 16 /\ len (fh_request_id h) = 16 /\
  fh_sequence h <> 0 /\ declared_class (fh_traffic_class h).

Definition control_header_wf (class : Z) (h : FrameHeader) : Prop :=
  fh_protocol_version h = 1 /\ len (fh_tunnel_id h) = 16 /\ fh_request_id h = [] /\
  fh_sequence h = 0 /\ fh_traffic_class h = class.

(** *** Hello *)

Definition limits_wf (l : Limits) : Prop :=
  max_frame_bytes l <= 2 ^ 20 /\ max_data_bytes l <> 0 /\ max_data_bytes l <= 2 ^ 18 /\
  max_frame_bytes l <> 0 /\ max_data_bytes l < max_frame_bytes l /\
  max_data_bytes l <= max_message_bytes l <= 2 ^ 23 /\
  max_in_flight_requests l <> 0 /\ max_in_flight_requests l <= 4096 /\
  max_metadata_entries l <> 0 /\ max_metadata_entries l <= 16 /\
  max_metadata_value_bytes l <> 0 /\ max_metadata_value_bytes l <= 2 ^ 14 /\
  max_credit_bytes l <> 0 /\ max_credit_bytes l <= 2 ^ 20.

Definition policy_wf (caps classes routes : list Z) (limits : option Limits) : Prop :=
  vocabulary_list declared_capability caps /\
  classes <> [] /\ vocabulary_list declared_class classes /\
  routes <> [] /\ len routes <= 64 /\ vocabulary_list declared_route routes /\
  exists l, limits = Some l /\ limits_wf l.

Definition out_hello_wf (h : GatewayOutHello) : Prop :=
  len (goh_instance_id h) = 16 /\
  (NoDup (goh_supported_protocol_versions h) /\ 1 ∈ goh_supported_protocol_versions h /\
   len (goh_supported_protocol_versions h) <= 8) /\
  policy_wf (goh_capabilities h) (goh_traffic_classes h) (goh_route_ids h) (goh_limits h).

Definition in_hello_wf (h : GatewayInHello) : Prop :=
  len (gih_instance_id h) = 16 /\ gih_selected_protocol_version h = 1 /\
  policy_wf (gih_capabilities h) (gih_traffic_classes h) (gih_route_ids h) (gih_limits h).

(** *** Metadata *)

Definition hex_digit (c : Z) : Prop := 48 <= c <= 57 \/ 97 <= c <= 102.

(** W3C traceparent, version 00. *)
Definition traceparent_wf (value : bytes) : Prop :=
  exists trace_id span_id flags,
    value = bytes_of "00-" ++ trace_id ++ bytes_of "-" ++ span_id ++ bytes_of "-" ++ flags /\
    len trace_id = 32 /\ Forall hex_digit trace_id /\ trace_id <> replicate 32 48 /\
    len span_id = 16 /\ Forall hex_digit span_id /\ span_id <> replicate 16 48 /\
    len flags = 2 /\ Forall hex_digit flags.

Definition key_char (c : Z) : Prop :=
  97 <= c <= 122 \/ 48 <= c <= 57 \/ c = 95 \/ c = 45 \/ c = 42 \/ c = 47.

(** A tracestate key: one or two non-empty segments of key characters joined by
    an at sign, starting with a letter or a digit. *)
Definition tracestate_key_wf (k : bytes) : Prop :=
  len k <= 256 /\
  (exists c rest, k = c :: rest /\ (97 <= c <= 122 \/ 48 <= c <= 57)) /\
  (Forall key_char k \/
   exists tenant system, k = tenant ++ [64] ++ system /\ system <> [] /\
     Forall key_char tenant /\ Forall key_char system).

Definition tracestate_value_wf (v : bytes) : Prop :=
  v <> [] /\ len v <= 256 /\ last v <> Some 32 /\
  Forall (fun c => 32 <= c <= 126 /\ c <> 44 /\ c <> 61) v.

Fixpoint join (sep : Z) (parts : list bytes) : bytes :=
  match parts with
  | [] => []
  | [p] => p
  | p :: rest => p ++ sep :: join sep rest
  end.

(** A member of the list: optional spaces, [key=value], optional spaces. *)
Definition member_wf (part : bytes) (kv : bytes * bytes) : Prop :=
  (exists n m, part = replicate n 32 ++ kv.1 ++ [61] ++ kv.2 ++ replicate m 32) /\
  tracestate_key_wf kv.1 /\ tracestate_value_wf kv.2.

Definition tracestate_wf (value : bytes) : Prop :=
  Forall (fun c => 32 <= c <= 126) value /\
  exists parts kvs, value = join 44 parts /\ parts <> [] /\ len parts <= 32 /\
    Forall2 member_wf parts kvs /\ NoDup kvs.*1.

Definition metadata_value_wf (allow_assertion : bool) (key : Z) (value : bytes) : Prop :=
  value <> [] /\ len value <= 2 ^ 14 /\
  (key = 1 /\ value = bytes_of "application/protobuf" \/
   key = 2 /\ traceparent_wf value \/
   key = 3 /\ len value <= 512 /\ tracestate_wf value \/
   key = 4 /\ allow_assertion = true).

Definition metadata_wf (allow_assertion : bool) (entries : list (option Metadata)) : Prop :=
  len entries <= 16 /\
  exists ms, entries = Some <$> ms /\ NoDup (md_key <$> ms) /\
    Forall (fun m => metadata_value_wf allow_assertion (md_key m) (md_value m)) ms.

(** *** Payloads *)

Section spec.
Context `{ProtoRuntime}.

Definition deadline_wf (t : option Timestamp) : Prop :=
  exists x, t = Some x /\ timestamp_CheckValid x = true.

Definition open_wf (class : Z) (o : Open) : Prop :=
  class_of_route (op_route_id o) class /\ deadline_wf (op_deadline o) /\
  len (op_idempotency_key o) <= 128 /\ metadata_wf true (op_metadata o).

Definition data_wf (d : Data) : Prop := data_payload d <> [] /\ len (data_payload d) <= 2 ^ 18.
Definition cancel_wf (c : Cancel) : Prop := 1 <= cancel_reason c <= 4.
Definition credit_wf (c : Credit) : Prop := credit_bytes c <> 0 /\ credit_bytes c <= 2 ^ 20.
Definition drain_wf (d : Drain) : Prop := deadline_wf (drain_deadline d) /\ 1 <= drain_reason d <= 3.

(** A Result carries a code, a backoff hint of at most five minutes only with a
    failure, and metadata without a session assertion. *)
Definition result_wf (r : Result) : Prop :=
  1 <= res_code r <= 11 /\
  (forall d, res_retry_after r = Some d ->
     res_code r <> 1 /\ duration_CheckValid d = true /\
     0 < duration_AsDuration d <= 300000000000) /\
  metadata_wf false (res_metadata r).

(** *** Unknown fields: every message of a frame, with what it carries *)

Definition metadata_unknowns (l : list (option Metadata)) : list bytes :=
  (fun m => default [] (md_unknown <$> m)) <$> l.
Definition opt_unknowns {A} (f : A -> list bytes) (m : option A) : list bytes :=
  match m with Some x => f x | None => [] end.

Definition request_unknowns (f : ConnectRequest) : list bytes :=
  creq_unknown f :: opt_unknowns (fun h => [fh_unknown h]) (creq_header f) ++
  match creq_payload f with
  | Some (Req_Hello m) => opt_unknowns (fun h => goh_unknown h ::
      opt_unknowns (fun l => [lim_unknown l]) (goh_limits h)) m
  | Some (Req_Data m) => opt_unknowns (fun x => [data_unknown x]) m
  | Some (Req_HalfClose m) => opt_unknowns (fun x => [hc_unknown x]) m
  | Some (Req_Cancel m) => opt_unknowns (fun x => [cancel_unknown x]) m
  | Some (Req_Result m) => opt_unknowns (fun r => res_unknown r ::
      opt_unknowns (fun d => [dur_unknown d]) (res_retry_after r) ++
      metadata_unknowns (res_metadata r)) m
  | Some (Req_Credit m) => opt_unknowns (fun x => [credit_unknown x]) m
  | Some (Req_Ping m) => opt_unknowns (fun x => [ping_unknown x]) m
  | Some (Req_Pong m) => opt_unknowns (fun x => [pong_unknown x]) m
  | Some (Req_Drain m) => opt_unknowns (fun d => drain_unknown d ::
      opt_unknowns (fun t => [ts_unknown t]) (drain_deadline d)) m
  | Some (Req_RevokeSession m) => opt_unknowns (fun x => [rs_unknown x]) m
  | None => []
  end.

Definition response_unknowns (f : ConnectResponse) : list bytes :=
  cresp_unknown f :: opt_unknowns (fun h => [fh_unknown h]) (cresp_header f) ++
  match cresp_payload f with
  | Some (Resp_Hello m) => opt_unknowns (fun h => gih_unknown h ::
      opt_unknowns (fun l => [lim_unknown l]) (gih_limits h)) m
  | Some (Resp_Open m) => opt_unknowns (fun o => op_unknown o ::
      opt_unknowns (fun t => [ts_unknown t]) (op_deadline o) ++
      metadata_unknowns (op_metadata o)) m
  | Some (Resp_Data m) => opt_unknowns (fun x => [data_unknown x]) m
  | Some (Resp_HalfClose m) => opt_unknowns (fun x => [hc_unknown x]) m
  | Some (Resp_Cancel m) => opt_unknowns (fun x => [cancel_unknown x]) m
  | Some (Resp_Credit m) => opt_unknowns (fun x => [credit_unknown x]) m
  | Some (Resp_Ping m) => opt_unknowns (fun x => [ping_unknown x]) m
  | Some (Resp_Pong m) => opt_unknowns (fun x => [pong_unknown x]) m
  | Some (Resp_Drain m) => opt_unknowns (fun d => drain_unknown d ::
      opt_unknowns (fun t => [ts_unknown t]) (drain_deadline d)) m
  | None => []
  end.

(** *** The frames of each direction *)

Inductive out_payload_wf (h : FrameHeader) : ConnectRequest_payload -> Prop :=
| out_hello_ok m : hello_header_wf 0 h -> out_hello_wf m -> out_payload_wf h (Req_Hello (Some m))
| out_data_ok m : request_header_wf h -> data_wf m -> out_payload_wf h (Req_Data (Some m))
| out_half_close_ok m : request_header_wf h -> out_payload_wf h (Req_HalfClose (Some m))
| out_cancel_ok m : request_header_wf h -> cancel_wf m -> out_payload_wf h (Req_Cancel (Some m))
| out_result_ok m : request_header_wf h -> result_wf m -> out_payload_wf h (Req_Result (Some m))
| out_credit_ok m : request_header_wf h -> credit_wf m -> out_payload_wf h (Req_Credit (Some m))
| out_ping_ok m : control_header_wf 0 h -> ping_nonce m <> 0 -> out_payload_wf h (Req_Ping (Some m))
| out_pong_ok m : control_header_wf 0 h -> pong_nonce m <> 0 -> out_payload_wf h (Req_Pong (Some m))
| out_drain_ok m : control_header_wf 0 h -> drain_wf m -> out_payload_wf h (Req_Drain (Some m))
| out_revoke_ok m : control_header_wf 1 h -> len (rs_session_id m) = 16 ->
    out_payload_wf h (Req_RevokeSession (Some m)).

Inductive in_payload_wf (h : FrameHeader) : ConnectResponse_payload -> Prop :=
| in_hello_ok m : hello_header_wf 16 h -> in_hello_wf m -> in_payload_wf h (Resp_Hello (Some m))
| in_open_ok m : request_header_wf h -> open_wf (fh_traffic_class h) m ->
    in_payload_wf h (Resp_Open (Some m))
| in_data_ok m : request_header_wf h -> data_wf m -> in_payload_wf h (Resp_Data (Some m))
| in_half_close_ok m : request_header_wf h -> in_payload_wf h (Resp_HalfClose (Some m))
| in_cancel_ok m : request_header_wf h -> cancel_wf m -> in_payload_wf h (Resp_Cancel (Some m))
| in_credit_ok m : request_header_wf h -> credit_wf m -> in_payload_wf h (Resp_Credit (Some m))
| in_ping_ok m : control_header_wf 0 h -> ping_nonce m <> 0 -> in_payload_wf h (Resp_Ping (Some m))
| in_pong_ok m : control_header_wf 0 h -> pong_nonce m <> 0 -> in_payload_wf h (Resp_Pong (Some m))
| in_drain_ok m : control_header_wf 0 h -> drain_wf m -> in_payload_wf h (Resp_Drain (Some m)).

Definition gateway_out_frame_wf (f : ConnectRequest) : Prop :=
  Forall (fun u => u = []) (request_unknowns f) /\
  exists h p, creq_header f = Some h /\ creq_payload f = Some p /\ out_payload_wf h p.

Definition gateway_in_frame_wf (f : ConnectResponse) : Prop :=
  Forall (fun u => u = []) (response_unknowns f) /\
  exists h p, cresp_header f = Some h /\ cresp_payload f = Some p /\ in_payload_wf h p.

End spec.

(** ** Unknown fields *)

Definition value_unknowns (unknowns_of : reflected -> list bytes) (v : reflected_value) : list bytes :=
  match v with RMessage m => unknowns_of m | RList ms => ms ≫= unknowns_of end.

Fixpoint unknowns_of (m : reflected) : list bytes :=
  match m with
  | Reflected u fs => u :: (fs ≫= fun nv => value_unknowns unknowns_of nv.2)
  end.

Definition value_forall (P : reflected -> Prop) (v : reflected_value) : Prop :=
  match v with RMessage m => P m | RList ms => Forall P ms end.

Lemma reflected_nested_ind (P : reflected -> Prop)
  (step : forall u fs, Forall (fun nv => value_forall P nv.2) fs -> P (Reflected u fs)) :
  forall m, P m.
Proof.
  fix IH 1. intros [u fs]. apply step.
  revert fs. fix IHfs 1. intros [|[name [m|ms]] rest]; [constructor | |].
  - constructor; [apply IH | apply IHfs].
  - constructor; [|apply IHfs]. simpl.
    revert ms. fix IHms 1. intros [|m ms]; constructor; [apply IH | apply IHms].
Qed.

Abbreviation no_unknown := (Forall (fun u : bytes => u = [])).

Lemma rejectUnknownFields_Ok m : forall path,
  rejectUnknownFields m path = Ok tt <-> no_unknown (unknowns_of m).
Proof.
  induction m as [u fs IH] using reflected_nested_ind. intros path. simpl.
  rewrite guard_Ok, negb_false_iff, Z.eqb_eq, len_zero_nil, Forall_cons.
  apply and_iff_compat_l. induction IH as [|[name v] rest Hv _ IHrest]; simpl; [naive_solver|].
  rewrite seq_Ok, Forall_app. apply Morphisms_Prop.and_iff_morphism; [|done].
  destruct v as [m|ms]; simpl in *; [done|].
  generalize 0%nat. induction Hv as [|m ms Hm _ IHms]; intros i; simpl; [naive_solver|].
  by rewrite seq_Ok, Forall_app, Hm, IHms.
Qed.

Lemma rejectUnknownFields_no_panic m : forall path, rejectUnknownFields m path <> Panic.
Proof.
  induction m as [u fs IH] using reflected_nested_ind. intros path. simpl.
  rewrite bind_Panic. intros [?%reject_if_Panic|(? & _ & Hp)]; [done|].
  induction IH as [|[name v] rest Hv _ IHrest]; simpl in Hp; [done|].
  apply bind_Panic in Hp as [Hp|(? & _ & Hp)]; [|by apply IHrest].
  destruct v as [m|ms]; simpl in *; [by apply Hv in Hp|].
  revert Hp. generalize 0%nat. induction Hv as [|m ms Hm _ IHms]; intros i Hp; simpl in Hp; [done|].
  apply bind_Panic in Hp as [Hp|(? & _ & Hp)]; [by apply Hm in Hp | by apply IHms in Hp].
Qed.

Lemma unknowns_of_metadata l :
  (reflect_metadata_list l ≫= fun nv => value_unknowns unknowns_of nv.2) = metadata_unknowns l.
Proof.
  unfold reflect_metadata_list, metadata_unknowns. destruct l as [|m l]; [done|].
  csimpl. rewrite app_nil_r. destruct m; csimpl; f_equal; induction l as [|[] ? IH]; csimpl; congruence.
Qed.

Lemma unknowns_of_field {A} name (f : A -> reflected) m :
  (reflect_field name f m ≫= fun nv => value_unknowns unknowns_of nv.2) =
  opt_unknowns (fun x => unknowns_of (f x)) m.
Proof. destruct m; csimpl; [by rewrite app_nil_r | done]. Qed.

(** Normalises both flattenings of a frame and compares them. *)
Ltac solve_unknowns :=
  csimpl;
  rewrite ?bind_app, ?unknowns_of_field, ?unknowns_of_metadata, ?app_nil_r;
  unfold opt_unknowns; repeat case_match; csimpl;
  rewrite ?Forall_cons, ?Forall_app, ?Forall_cons, ?Forall_nil; tauto.

Lemma unknowns_of_request f :
  no_unknown (unknowns_of (reflect_ConnectRequest f)) <-> no_unknown (request_unknowns f).
Proof.
  destruct f as [[h|] [p|] u]; unfold request_unknowns;
    [destruct p as [[]|[]|[]|[]|[]|[]|[]|[]|[]|[]] | |destruct p as [[]|[]|[]|[]|[]|[]|[]|[]|[]|[]] |];
    solve_unknowns.
Qed.

Lemma unknowns_of_response f :
  no_unknown (unknowns_of (reflect_ConnectResponse f)) <-> no_unknown (response_unknowns f).
Proof.
  destruct f as [[h|] [p|] u]; unfold response_unknowns;
    [destruct p as [[]|[]|[]|[]|[]|[]|[]|[]|[]] | |destruct p as [[]|[]|[]|[]|[]|[]|[]|[]|[]] |];
    solve_unknowns.
Qed.

(** ** Vocabularies *)

Lemma switch_in_false v cs : switch_in v cs = false <-> v ∉ cs.
Proof. rewrite <- switch_in_true. by destruct (switch_in v cs). Qed.

Lemma elem_of_cons_Z (x y : Z) l : x ∈ y :: l <-> x = y \/ x ∈ l.
Proof. apply elem_of_cons. Qed.

Create Rewrite HintDb vocabulary.
#[export] Hint Rewrite switch_in_true switch_in_false elem_of_cons_Z : vocabulary.

(** Decides a statement about membership in a literal list of numbers. *)
Ltac vocab :=
  autorewrite with vocabulary; rewrite ?elem_of_nil; cbv -[Z.lt Z.le iff]; lia.

Lemma knownTrafficClass_spec v :
  negb (knownTrafficClass v) || (v =? TRAFFIC_CLASS_UNSPECIFIED) = false <-> declared_class v.
Proof.
  rewrite orb_false_iff, negb_false_iff, Z.eqb_neq. unfold knownTrafficClass, declared_class. vocab.
Qed.

Lemma knownCapability_spec v :
  negb (knownCapability v) || (v =? CAPABILITY_UNSPECIFIED) = false <-> declared_capability v.
Proof.
  rewrite orb_false_iff, negb_false_iff, Z.eqb_neq.
  unfold knownCapability, declared_capability. vocab.
Qed.

Lemma knownMetadataKey_spec v :
  negb (knownMetadataKey v) || (v =? METADATA_KEY_UNSPECIFIED) = false <-> declared_metadata_key v.
Proof.
  rewrite orb_false_iff, negb_false_iff, Z.eqb_neq.
  unfold knownMetadataKey, declared_metadata_key. vocab.
Qed.

Lemma knownCancelReason_spec v :
  negb (knownCancelReason v) || (v =? CANCEL_REASON_UNSPECIFIED) = false <-> 1 <= v <= 4.
Proof. rewrite orb_false_iff, negb_false_iff, Z.eqb_neq. unfold knownCancelReason. vocab. Qed.

Lemma knownResultCode_spec v :
  negb (knownResultCode v) || (v =? RESULT_CODE_UNSPECIFIED) = false <-> 1 <= v <= 11.
Proof. rewrite orb_false_iff, negb_false_iff, Z.eqb_neq. unfold knownResultCode. vocab. Qed.

Lemma knownDrainReason_spec v :
  negb (knownDrainReason v) || (v =? DRAIN_REASON_UNSPECIFIED) = false <-> 1 <= v <= 3.
Proof. rewrite orb_false_iff, negb_false_iff, Z.eqb_neq. unfold knownDrainReason. vocab. Qed.

Lemma knownRoute_spec v :
  negb (knownRoute v) || (v =? ROUTE_ID_UNSPECIFIED) = false <-> declared_route v.
Proof.
  rewrite orb_false_iff, negb_false_iff, Z.eqb_neq.
  unfold knownRoute, declared_route, control_route, regular_route, realtime_route. vocab.
Qed.

Lemma control_switch r : switch_in r
    [ROUTE_ID_AUTH_REGISTER_CREDENTIALS; ROUTE_ID_AUTH_LOGIN; ROUTE_ID_AUTH_REFRESH_SESSION;
     ROUTE_ID_AUTH_REVOKE_SESSION; ROUTE_ID_AUTH_SESSION_ASSERTION; ROUTE_ID_AUTH_LOGOUT_ALL;
     ROUTE_ID_AUTH_START_LOGIN_CODE_CHANGE; ROUTE_ID_AUTH_COMPLETE_LOGIN_CODE_CHANGE;
     ROUTE_ID_AUTH_CHANGE_PASSWORD; ROUTE_ID_AUTH_START_LOGIN; ROUTE_ID_AUTH_COMPLETE_LOGIN;
     ROUTE_ID_AUTH_RESEND_LOGIN_CODE; ROUTE_ID_AUTH_REQUEST_EMAIL_VERIFICATION;
     ROUTE_ID_AUTH_CONFIRM_EMAIL; ROUTE_ID_AUTH_REQUEST_PASSWORD_RESET;
     ROUTE_ID_AUTH_CONFIRM_PASSWORD_RESET; ROUTE_ID_AUTH_GET_CREDENTIALS;
     ROUTE_ID_AUTH_START_EMAIL_CHANGE; ROUTE_ID_AUTH_CONFIRM_EMAIL_CHANGE;
     ROUTE_ID_AUTH_CANCEL_EMAIL_CHANGE; ROUTE_ID_AUTH_LIST_SESSIONS;
     ROUTE_ID_AUTH_REVOKE_OWNED_SESSION; ROUTE_ID_AUTH_REQUEST_ACCOUNT_DELETION;
     ROUTE_ID_AUTH_CANCEL_ACCOUNT_DELETION] = true <-> control_route r.
Proof. unfold control_route. vocab. Qed.

Lemma regular_switch r : switch_in r
    [ROUTE_ID_USER_GET_ME; ROUTE_ID_USER_UPDATE_ME; ROUTE_ID_USER_BROWSER_GET_ME;
     ROUTE_ID_USER_BROWSER_UPDATE_ME; ROUTE_ID_USER_BROWSER_LIST_ADDRESSES;
     ROUTE_ID_USER_BROWSER_CREATE_ADDRESS; ROUTE_ID_USER_BROWSER_UPDATE_ADDRESS;
     ROUTE_ID_USER_BROWSER_DELETE_ADDRESS; ROUTE_ID_USER_BROWSER_SET_DEFAULT_ADDRESS;
     ROUTE_ID_USER_BROWSER_GET_SETTINGS; ROUTE_ID_USER_BROWSER_UPDATE_SETTINGS;
     ROUTE_ID_USER_BROWSER_GET_AVATAR; ROUTE_ID_USER_BROWSER_SET_AVATAR;
     ROUTE_ID_USER_BROWSER_CLEAR_AVATAR; ROUTE_ID_FILE_CREATE_UPLOAD;
     ROUTE_ID_FILE_COMPLETE_UPLOAD; ROUTE_ID_FILE_GET_STATUS; ROUTE_ID_FILE_CREATE_DOWNLOAD;
     ROUTE_ID_FILE_DELETE] = true <-> regular_route r.
Proof. unfold regular_route. vocab. Qed.

Lemma realtime_switch r :
  switch_in r [ROUTE_ID_REALTIME_CHAT; ROUTE_ID_REALTIME_NOTIFICATIONS] = true <-> realtime_route r.
Proof. unfold realtime_route. vocab. Qed.

Lemma routeTrafficClass_spec r c :
  class_of_route r c <-> routeTrafficClass r = c /\ c <> TRAFFIC_CLASS_UNSPECIFIED.
Proof.
  unfold routeTrafficClass, class_of_route.
  repeat match goal with |- context [switch_in r ?l] =>
    let E := fresh "E" in destruct (switch_in r l) eqn:E;
    [first [apply control_switch in E | apply regular_switch in E | apply realtime_switch in E]
    |apply not_true_iff_false in E;
     first [rewrite control_switch in E | rewrite regular_switch in E | rewrite realtime_switch in E]]
  end; unfold control_route, regular_route, realtime_route, TRAFFIC_CLASS_CONTROL_AUTH,
    TRAFFIC_CLASS_REGULAR, TRAFFIC_CLASS_REALTIME, TRAFFIC_CLASS_UNSPECIFIED in *; lia.
Qed.

Lemma routeTrafficClass_declared r :
  routeTrafficClass r <> TRAFFIC_CLASS_UNSPECIFIED <-> declared_route r.
Proof.
  split.
  - intros Hc. assert (class_of_route r (routeTrafficClass r)) as Hr
      by (by apply routeTrafficClass_spec).
    unfold class_of_route, declared_route in *. tauto.
  - intros Hr. assert (exists c, class_of_route r c) as [c Hc]
      by (unfold class_of_route, declared_route in *; destruct Hr as [?|[?|?]]; eauto 6).
    apply routeTrafficClass_spec in Hc as [-> ?]. done.
Qed.

(** ** Lists without repetition *)

Lemma validate_values_Ok field known unspecified declared values :
  (forall v, negb (known v) || (v =? unspecified) = false <-> declared v) ->
  forall seen, validate_values field known unspecified seen values = Ok tt <->
    vocabulary_list declared values /\ (forall v, v ∈ values -> v ∉ seen).
Proof.
  intros Hknown. unfold vocabulary_list. induction values as [|v values IH]; intros seen; simpl.
  { split; [intros; repeat split; try constructor; intros ? ?%elem_of_nil; done | done]. }
  rewrite !guard_Ok, Hknown, IH, bool_decide_eq_false, NoDup_cons, Forall_cons.
  set_solver.
Qed.

Lemma validate_values_no_panic field known unspecified values :
  forall seen, validate_values field known unspecified seen values <> Panic.
Proof.
  induction values as [|v values IH]; intros seen; simpl; [done|].
  unfold reject_if. repeat case_match; simpl; (done || apply IH).
Qed.

Lemma vocabulary_empty_seen declared values :
  vocabulary_list declared values /\ (forall v : Z, v ∈ values -> v ∉ (∅ : gset Z)) <->
  vocabulary_list declared values.
Proof. set_solver. Qed.

(** A repetition-free list over three values has at most three elements. *)
Lemma vocabulary_length_3 (l : list Z) :
  vocabulary_list (fun c => 1 <= c <= 3) l -> len l <= 3.
Proof.
  intros [Hnd Hall]. unfold len.
  assert (l ⊆+ [1; 2; 3]) as Hsub.
  { apply NoDup_submseteq; [done|]. intros x Hx.
    rewrite Forall_forall in Hall. specialize (Hall x Hx).
    rewrite !elem_of_cons. lia. }
  apply submseteq_length in Hsub. simpl in Hsub. lia.
Qed.

Lemma validateCapabilities_Ok l :
  validateCapabilities l = Ok tt <-> vocabulary_list declared_capability l.
Proof.
  unfold validateCapabilities. rewrite guard_Ok, Z.ltb_ge.
  rewrite (validate_values_Ok _ _ _ _ _ knownCapability_spec), vocabulary_empty_seen.
  split; [tauto|]. intros Hl. split; [|done]. apply vocabulary_length_3 in Hl. exact Hl.
Qed.

Lemma validateTrafficClasses_Ok l :
  validateTrafficClasses l = Ok tt <-> l <> [] /\ vocabulary_list declared_class l.
Proof.
  unfold validateTrafficClasses. rewrite guard_Ok, orb_false_iff, Z.ltb_ge, Z.eqb_neq, len_zero_nil.
  rewrite (validate_values_Ok _ _ _ _ _ knownTrafficClass_spec), vocabulary_empty_seen.
  split; [tauto|]. intros [? Hl]. pose proof (vocabulary_length_3 _ Hl). done.
Qed.

Lemma validateRoutes_Ok l :
  validateRoutes l = Ok tt <-> l <> [] /\ len l <= 64 /\ vocabulary_list declared_route l.
Proof.
  unfold validateRoutes. rewrite guard_Ok, orb_false_iff, Z.ltb_ge, Z.eqb_neq, len_zero_nil.
  rewrite (validate_values_Ok _ _ _ _ _ knownRoute_spec), vocabulary_empty_seen.
  unfold MaxAdvertisedRoutes. tauto.
Qed.

Lemma validateSupportedVersions_loop_Ok versions : forall seen found b,
  validateSupportedVersions_loop seen found versions = Ok b <->
  NoDup versions /\ (forall v, v ∈ versions -> v ∉ seen) /\
  b = found || bool_decide (1 ∈ versions).
Proof.
  induction versions as [|v versions IH]; intros seen found b; simpl.
  { split.
    - intros [= <-]. repeat split; [constructor|set_solver|]. by destruct found.
    - intros (_ & _ & ->). by destruct found. }
  rewrite guard_Ok, bool_decide_eq_false, IH, NoDup_cons.
  assert (Hb : (if v =? protocolVersion then true else found) || bool_decide (1 ∈ versions) =
               found || bool_decide (1 ∈ v :: versions)).
  { unfold protocolVersion. destruct (Z.eqb_spec v 1) as [->|Hne].
    - rewrite orb_true_l. symmetry. apply orb_true_iff. right.
      apply bool_decide_eq_true_2. set_solver.
    - f_equal. apply bool_decide_ext. set_solver. }
  rewrite Hb. set_solver.
Qed.

Lemma validateSupportedVersions_Ok versions :
  validateSupportedVersions versions = Ok tt <->
  NoDup versions /\ 1 ∈ versions /\ len versions <= 8.
Proof.
  unfold validateSupportedVersions, MaxSupportedVersions.
  rewrite guard_Ok, orb_false_iff, Z.ltb_ge, Z.eqb_neq, len_zero_nil, bind_Ok.
  setoid_rewrite validateSupportedVersions_loop_Ok. setoid_rewrite reject_if_Ok.
  split.
  - intros ([? ?] & b & (? & ? & ->) & Hb). rewrite orb_false_l in Hb. go_bool. done.
  - intros (? & Hin & ?). split; [split; [intros ->; by apply not_elem_of_nil in Hin | done]|].
    exists true. rewrite bool_decide_eq_true_2 by done. split_and!; [done|set_solver|done|done].
Qed.

(** ** Headers and Hello *)

(** [guards] turns a chain of guards into the conjunction of their conditions. *)
Ltac guards :=
  rewrite ?guard_Ok, ?seq_Ok, ?reject_if_Ok, ?negb_false_iff, ?orb_false_iff, ?Z.eqb_eq, ?Z.eqb_neq,
    ?Z.ltb_ge, ?not_leb_gt, ?bool_decide_eq_false, ?len_zero_nil.

Lemma validateHelloHeader_Ok h :
  validateHelloHeader h = Ok tt <->
  exists x, h = Some x /\ fh_protocol_version x = 0 /\ fh_request_id x = [] /\ fh_sequence x = 0 /\
    fh_traffic_class x = 0.
Proof.
  unfold validateHelloHeader. guards. unfold TRAFFIC_CLASS_UNSPECIFIED.
  destruct h as [x|]; simpl; naive_solver.
Qed.

Lemma validateGatewayOutHelloHeader_Ok h :
  validateGatewayOutHelloHeader h = Ok tt <-> exists x, h = Some x /\ hello_header_wf 0 x.
Proof.
  unfold validateGatewayOutHelloHeader, hello_header_wf. guards. rewrite validateHelloHeader_Ok.
  destruct h as [x|]; simpl; setoid_rewrite len_zero_nil; naive_solver.
Qed.

Lemma validateGatewayInHelloHeader_Ok h :
  validateGatewayInHelloHeader h = Ok tt <-> exists x, h = Some x /\ hello_header_wf 16 x.
Proof.
  unfold validateGatewayInHelloHeader, hello_header_wf, TunnelIDBytes. guards.
  rewrite validateHelloHeader_Ok. destruct h as [x|]; simpl; naive_solver.
Qed.

Lemma validateRequestHeader_Ok h :
  validateRequestHeader h = Ok tt <-> exists x, h = Some x /\ request_header_wf x.
Proof.
  unfold validateRequestHeader, request_header_wf, TunnelIDBytes, RequestIDBytes, protocolVersion.
  rewrite !guard_Ok, reject_if_Ok, knownTrafficClass_spec. guards.
  destruct h as [x|]; simpl; naive_solver.
Qed.

Lemma validateTunnelHeader_Ok h :
  validateTunnelHeader h = Ok tt <-> exists x, h = Some x /\ control_header_wf 0 x.
Proof.
  unfold validateTunnelHeader, control_header_wf, TunnelIDBytes, protocolVersion,
    TRAFFIC_CLASS_UNSPECIFIED. guards.
  destruct h as [x|]; simpl; naive_solver.
Qed.

Lemma validateSessionControlHeader_Ok h :
  validateSessionControlHeader h = Ok tt <-> exists x, h = Some x /\ control_header_wf 1 x.
Proof.
  unfold validateSessionControlHeader, control_header_wf, TunnelIDBytes, protocolVersion,
    TRAFFIC_CLASS_CONTROL_AUTH. guards.
  destruct h as [x|]; simpl; naive_solver.
Qed.

Lemma validateLimits_Ok limits :
  validateLimits limits = Ok tt <-> exists l, limits = Some l /\ limits_wf l.
Proof.
  destruct limits as [l|]; simpl; [|naive_solver]. unfold limits_wf. guards.
  change MaxEncodedFrameBytes with (2 ^ 20). change MaxDataBytes with (2 ^ 18).
  change MaxMessageBytes with (2 ^ 23). change MaxCreditBytes with (2 ^ 20).
  change MaxMetadataValueBytes with (2 ^ 14). unfold MaxInFlightRequests, MaxMetadataEntries.
  split; [intros Hall; exists l; split; [done|]; lia | intros (? & [= <-] & ?); lia].
Qed.

Lemma validateGatewayOutHello_Ok hello :
  validateGatewayOutHello hello = Ok tt <-> exists m, hello = Some m /\ out_hello_wf m.
Proof.
  destruct hello as [m|]; simpl; [|naive_solver]. unfold out_hello_wf, policy_wf, InstanceIDBytes.
  rewrite guard_Ok, !seq_Ok, validateSupportedVersions_Ok, validateCapabilities_Ok,
    validateTrafficClasses_Ok, validateRoutes_Ok, validateLimits_Ok. guards. naive_solver.
Qed.

Lemma validateGatewayInHello_Ok hello :
  validateGatewayInHello hello = Ok tt <-> exists m, hello = Some m /\ in_hello_wf m.
Proof.
  destruct hello as [m|]; simpl; [|naive_solver].
  unfold in_hello_wf, policy_wf, InstanceIDBytes, protocolVersion.
  rewrite !guard_Ok, !seq_Ok, validateCapabilities_Ok,
    validateTrafficClasses_Ok, validateRoutes_Ok, validateLimits_Ok. guards. naive_solver.
Qed.

(** ** Trace context *)

Lemma lowerHex_Forall v : lowerHex v = true <-> Forall hex_digit v.
Proof.
  induction v as [|c v IH]; simpl; [by rewrite Forall_nil|]. rewrite Forall_cons, <- IH.
  change (ch "0") with 48. change (ch "9") with 57. change (ch "a") with 97. change (ch "f") with 102.
  unfold hex_digit. destruct (negb _ && negb _) eqn:E.
  - split; [done | intros [? _]; lia].
  - split; [intros; split; [lia|done] | tauto].
Qed.

Lemma allZero_replicate v : allZero v = true <-> v = replicate (length v) 48.
Proof.
  induction v as [|c v IH]; simpl; [done|]. change (ch "0") with 48.
  destruct (Z.eqb_spec c 48) as [->|]; simpl.
  - rewrite IH. split; [congruence | by intros [= ?]].
  - split; [done | by intros [= ? ?]].
Qed.

Section panicking_access.
Context {E A : Type}.

Lemma index_Ok (l : list A) i x : 0 <= i -> @index E A l i = Ok x <-> l !! Z.to_nat i = Some x.
Proof. intros. unfold index. case_match; [lia|]. destruct (l !! Z.to_nat i); naive_solver. Qed.

Lemma index_in_range (l : list A) i :
  0 <= i < len l -> exists x, @index E A l i = Ok x /\ l !! Z.to_nat i = Some x.
Proof.
  intros [? Hi]. destruct (lookup_lt_is_Some_2 l (Z.to_nat i)) as [x Hx]; [unfold len in Hi; lia|].
  exists x. by rewrite index_Ok.
Qed.

Lemma slice_in_range (l : list A) lo hi :
  0 <= lo <= hi -> hi <= len l ->
  @slice E A l lo hi = Ok (take (Z.to_nat (hi - lo)) (drop (Z.to_nat lo) l)).
Proof. intros. unfold slice. case_match; [done|lia]. Qed.
End panicking_access.

(** A list of 55 bytes, cut where a traceparent has its separators. *)
Lemma split_55 (v : bytes) :
  len v = 55 -> exists version d1 trace d2 span d3 flags,
    v = version ++ [d1] ++ trace ++ [d2] ++ span ++ [d3] ++ flags /\
    len version = 2 /\ len trace = 32 /\ len span = 16 /\ len flags = 2.
Proof.
  intros Hlen.
  assert (Hcut : forall (w : bytes) n, Z.of_nat n < len w -> exists a x b,
            w = a ++ [x] ++ b /\ len a = Z.of_nat n).
  { intros w n Hn. unfold len in *. destruct (lookup_lt_is_Some_2 w n) as [x Hx]; [lia|].
    exists (take n w), x, (drop (S n) w). rewrite length_take. split; [|lia].
    simpl. by rewrite take_drop_middle. }
  destruct (Hcut v 2%nat) as (version & d1 & r1 & -> & ?); [lia|].
  autorewrite with go_len in Hlen.
  destruct (Hcut r1 32%nat) as (trace & d2 & r2 & -> & ?); [lia|]. autorewrite with go_len in Hlen.
  destruct (Hcut r2 16%nat) as (span & d3 & flags & -> & ?); [lia|]. autorewrite with go_len in Hlen.
  exists version, d1, trace, d2, span, d3, flags. split_and!; try done. lia.
Qed.

Lemma slice_middle {E A} (v a b c : list A) lo hi :
  v = a ++ b ++ c -> len a = lo -> len b = hi - lo -> @slice E A v lo hi = Ok b.
Proof.
  intros -> Ha Hb. pose proof (len_nonneg b). pose proof (len_nonneg a). pose proof (len_nonneg c).
  rewrite slice_in_range by (autorewrite with go_len; lia). f_equal.
  rewrite drop_app_length' by (unfold len in *; lia).
  by rewrite take_app_length' by (unfold len in *; lia).
Qed.

Lemma index_middle {E A} (v a b : list A) x i :
  v = a ++ [x] ++ b -> len a = i -> @index E A v i = Ok x.
Proof.
  intros -> Ha. pose proof (len_nonneg a). apply index_Ok; [lia|].
  rewrite lookup_app_r by (unfold len in *; lia).
  replace (Z.to_nat i - length a)%nat with 0%nat by (unfold len in *; lia). done.
Qed.

Lemma app_inj_len {A} (a b c d : list A) :
  len a = len b -> a ++ c = b ++ d -> a = b /\ c = d.
Proof. intros ?. apply app_inj_1. unfold len in *. lia. Qed.

(** The form of a 55-byte traceparent, on its seven parts. *)
Lemma traceparent_wf_parts version d1 trace d2 span d3 flags :
  len version = 2 -> len trace = 32 -> len span = 16 -> len flags = 2 ->
  traceparent_wf (version ++ [d1] ++ trace ++ [d2] ++ span ++ [d3] ++ flags) <->
  version = bytes_of "00" /\ d1 = 45 /\ d2 = 45 /\ d3 = 45 /\
  (Forall hex_digit trace /\ trace <> replicate 32 48) /\
  (Forall hex_digit span /\ span <> replicate 16 48) /\ Forall hex_digit flags.
Proof.
  intros Hv Ht Hs Hf. split.
  - intros (trace' & span' & flags' & Heq & Ht' & ? & ? & Hs' & ? & ? & Hf' & ?).
    change (bytes_of "00-") with (bytes_of "00" ++ [45]) in Heq.
    change (bytes_of "-") with [45] in Heq. rewrite <- !app_assoc in Heq.
    apply app_inj_len in Heq as [-> [= -> Heq]]; [|by rewrite Hv].
    apply app_inj_len in Heq as [-> [= -> Heq]]; [|lia].
    apply app_inj_len in Heq as [-> [= -> Heq]]; [|lia]. naive_solver.
  - intros (-> & -> & -> & -> & [] & [] & ?). exists trace, span, flags. split_and!; try done.
Qed.

(** Side conditions of [slice_middle] and [index_middle] on a split list. *)
Ltac parts Heq := rewrite ?Heq, <- ?app_assoc, ?app_nil_r; autorewrite with go_len; (done || lia).

Lemma validTraceparent_total v :
  exists b, validTraceparent v = Ok b /\ (b = true <-> traceparent_wf v).
Proof.
  unfold validTraceparent. destruct (Z.eqb_spec (len v) 55) as [Hlen|Hlen]; simpl; cycle 1.
  { exists false. split; [done|]. split; [done|].
    intros (trace & span & flags & -> & ? & _ & _ & ? & _ & _ & ? & _). exfalso. apply Hlen.
    autorewrite with go_len. change (len (bytes_of "00-")) with 3.
    change (len (bytes_of "-")) with 1. lia. }
  destruct (split_55 v Hlen) as (version & d1 & trace & d2 & span & d3 & flags & Heq & Hv & Ht & Hs & Hf).
  pose proof (traceparent_wf_parts version d1 trace d2 span d3 flags Hv Ht Hs Hf) as Hwf.
  rewrite <- Heq in Hwf.
  rewrite (slice_middle v [] version ([d1] ++ trace ++ [d2] ++ span ++ [d3] ++ flags) 0 2) by parts Heq.
  rewrite (index_middle v version (trace ++ [d2] ++ span ++ [d3] ++ flags) d1 2) by parts Heq.
  rewrite (index_middle v (version ++ [d1] ++ trace) (span ++ [d3] ++ flags) d2 35) by parts Heq.
  rewrite (index_middle v (version ++ [d1] ++ trace ++ [d2] ++ span) flags d3 52) by parts Heq.
  rewrite (slice_middle v (version ++ [d1]) trace ([d2] ++ span ++ [d3] ++ flags) 3 35) by parts Heq.
  rewrite (slice_middle v (version ++ [d1] ++ trace ++ [d2]) span ([d3] ++ flags) 36 52) by parts Heq.
  rewrite (slice_middle v (version ++ [d1] ++ trace ++ [d2] ++ span ++ [d3]) flags [] 53 55) by parts Heq.
  simpl. change (ch "-") with 45. rewrite <- !lowerHex_Forall in Hwf.
  assert (Hz1 : trace = replicate 32 48 <-> allZero trace = true).
  { rewrite allZero_replicate. by replace (length trace) with 32%nat by (unfold len in Ht; lia). }
  assert (Hz2 : span = replicate 16 48 <-> allZero span = true).
  { rewrite allZero_replicate. by replace (length span) with 16%nat by (unfold len in Hs; lia). }
  rewrite Hz1, Hz2 in Hwf. clear -Hwf. unfold bytes_Equal.
  case_bool_decide; simpl; [|by exists false; rewrite Hwf; intuition congruence].
  destruct (Z.eqb_spec d1 45); simpl; [|by exists false; rewrite Hwf; intuition congruence].
  destruct (Z.eqb_spec d2 45); simpl; [|by exists false; rewrite Hwf; intuition congruence].
  destruct (Z.eqb_spec d3 45); simpl; [|by exists false; rewrite Hwf; intuition congruence].
  destruct (lowerHex trace), (allZero trace), (lowerHex span), (allZero span); simpl;
    eexists; (split; [done|]); rewrite Hwf; intuition congruence.
Qed.

Lemma key_char_bool c :
  lowerAlphaNumeric c || (c =? ch "_") || (c =? ch "-") || (c =? ch "*") || (c =? ch "/") = true
  <-> key_char c.
Proof.
  unfold lowerAlphaNumeric, key_char. change (ch "a") with 97. change (ch "z") with 122.
  change (ch "0") with 48. change (ch "9") with 57. change (ch "_") with 95. change (ch "-") with 45.
  change (ch "*") with 42. change (ch "/") with 47. lia.
Qed.

Lemma lowerAlphaNumeric_spec c :
  lowerAlphaNumeric c = true <-> 97 <= c <= 122 \/ 48 <= c <= 57.
Proof.
  unfold lowerAlphaNumeric. change (ch "a") with 97. change (ch "z") with 122.
  change (ch "0") with 48. change (ch "9") with 57. lia.
Qed.

Lemma tracestate_key_loop_1 k : validTracestateKey_loop 1 k = true <-> Forall key_char k.
Proof.
  induction k as [|c k IH]; simpl; [by rewrite Forall_nil|].
  rewrite Forall_cons, <- IH. change (ch "@") with 64.
  destruct (Z.eqb_spec c 64) as [->|]; [simpl; split; [done|]; unfold key_char; lia|].
  pose proof (key_char_bool c) as Hkc.
  destruct (lowerAlphaNumeric c || _ || _ || _ || _); simpl; intuition congruence.
Qed.

Lemma tracestate_key_loop_0 k :
  validTracestateKey_loop 0 k = true <->
  Forall key_char k \/
  exists tenant system, k = tenant ++ [64] ++ system /\ Forall key_char tenant /\ Forall key_char system.
Proof.
  induction k as [|c k IH]; [simpl; split; [by left; constructor | done]|].
  cbn [validTracestateKey_loop]. change (ch "@") with 64.
  destruct (Z.eqb_spec c 64) as [->|Hc].
  - change (0 + 1) with 1. change (negb true || (1 <? 1)) with false. cbv iota.
    rewrite tracestate_key_loop_1. split; [intros; right; by exists [], k|].
    intros [Hk|(t & s & Heq & Ht & Hs)].
    + apply Forall_cons in Hk as [Hk _]. unfold key_char in Hk. lia.
    + destruct t as [|c t]; simpl in Heq; simplify_eq; [done|].
      apply Forall_cons in Ht as [Ht _]. unfold key_char in Ht. lia.
  - pose proof (key_char_bool c) as Hkc.
    destruct (lowerAlphaNumeric c || _ || _ || _ || _); simpl.
    + rewrite IH. apply proj1 in Hkc. specialize (Hkc eq_refl). split.
      * intros [?|(t & s & -> & ? & ?)]; [by left; constructor|].
        right. exists (c :: t), s. split_and!; [done|by constructor|done].
      * intros [Hk|(t & s & Heq & Ht & Hs)]; [left; by inversion Hk|].
        destruct t as [|c' t]; simpl in Heq; simplify_eq. inversion Ht; subst. right. by exists t, s.
    + split; [done|]. assert (~ key_char c) by (intros ?%Hkc; done).
      intros [Hk|(t & s & Heq & Ht & Hs)]; [by inversion Hk|].
      destruct t as [|c' t]; simpl in Heq; simplify_eq. by inversion Ht.
Qed.

Lemma index_last {E A} (l : list A) x : @index E A (l ++ [x]) (len (l ++ [x]) - 1) = Ok x.
Proof. apply (index_middle _ l []); [done|]. autorewrite with go_len. lia. Qed.

Lemma key_wf_last k c :
  (Forall key_char (k ++ [c]) \/
   exists tenant system, k ++ [c] = tenant ++ [64] ++ system /\
     Forall key_char tenant /\ Forall key_char system) ->
  c <> 64 <->
  (Forall key_char (k ++ [c]) \/
   exists tenant system, k ++ [c] = tenant ++ [64] ++ system /\ system <> [] /\
     Forall key_char tenant /\ Forall key_char system).
Proof.
  intros Hk. split.
  - intros Hc. destruct Hk as [?|(t & s & Heq & ? & ?)]; [by left|]. right. exists t, s.
    split_and!; try done. intros ->. apply app_inj_tail in Heq as [_ [= ->]]. done.
  - intros [Hf|(t & s & Heq & Hs & _ & Hf)] ->.
    + apply Forall_app in Hf as [_ Hf%Forall_cons]. destruct Hf as [Hf _]. unfold key_char in Hf. lia.
    + destruct s as [|c s _] using rev_ind; [done|].
      rewrite !app_assoc in Heq. apply app_inj_tail in Heq as [_ <-].
      apply Forall_app in Hf as [_ Hf%Forall_cons]. destruct Hf as [Hf _]. unfold key_char in Hf. lia.
Qed.

Lemma validTracestateKey_total k :
  exists b, validTracestateKey k = Ok b /\ (b = true <-> tracestate_key_wf k).
Proof.
  unfold validTracestateKey, tracestate_key_wf.
  destruct k as [|c k]; [simpl; exists false; split; [done|]; split; [done|]; naive_solver|].
  assert (Hi : @index frame_error Z (c :: k) 0 = Ok c) by (apply (index_middle _ [] k); done).
  rewrite Hi. replace (len (c :: k) =? 0) with false
    by (symmetry; rewrite Z.eqb_neq; autorewrite with go_len; pose proof (len_nonneg k); lia).
  rewrite orb_false_l. destruct (Z.ltb_spec 256 (len (c :: k))) as [Hl|Hl];
    [simpl; exists false; split; [done|]; split; [done|]; intros [? _]; lia|].
  cbn [or_else mbind result_bind].
  pose proof (lowerAlphaNumeric_spec c) as Hc. destruct (lowerAlphaNumeric c);
    cbn [negb]; [|exists false; split; [done|]; split; [done|]; intros (_ & (? & ? & [= <- <-] & Hx) & _);
    apply Hc in Hx; done].
  apply proj1 in Hc. specialize (Hc eq_refl).
  pose proof (tracestate_key_loop_0 (c :: k)) as Hloop.
  destruct (validTracestateKey_loop 0 (c :: k)); cbn [negb];
    [|exists false; split; [done|]; split; [done|]; intros (_ & _ & Hk);
      enough (false = true) by done; apply Hloop; destruct Hk as [?|(t & s & ? & _ & ? & ?)]; [by left|];
      right; by exists t, s].
  apply proj1 in Hloop. specialize (Hloop eq_refl).
  change (ch "@") with 64. replace (c =? 64) with false by lia. cbn [negb].
  destruct (exists_last (l := c :: k)) as (front & l & Heq); [done|]. rewrite Heq in *.
  rewrite index_last. cbn [mbind result_bind]. eexists. split; [done|].
  rewrite negb_true_iff, Z.eqb_neq, (key_wf_last front l Hloop).
  split; [intros; split_and!; try done; rewrite <- Heq; eauto | tauto].
Qed.

Lemma tracestate_value_loop v :
  validTracestateValue_loop v = true <-> Forall (fun c => 32 <= c <= 126 /\ c <> 44 /\ c <> 61) v.
Proof.
  induction v as [|c v IH]; simpl; [by rewrite Forall_nil|]. rewrite Forall_cons, <- IH.
  change (ch ",") with 44. change (ch "=") with 61.
  destruct (_ || _) eqn:E; (split; [|intros []; lia || done]); [done|]. intros. split; [lia|done].
Qed.

Lemma validTracestateValue_total v :
  exists b, validTracestateValue v = Ok b /\ (b = true <-> tracestate_value_wf v).
Proof.
  unfold validTracestateValue, tracestate_value_wf.
  destruct v as [|l front _] using rev_ind; [exists false; naive_solver|].
  rewrite index_last, last_snoc. pose proof (len_nonneg front). change (ch " ") with 32.
  replace (len (front ++ [l]) =? 0) with false
    by (symmetry; rewrite Z.eqb_neq; autorewrite with go_len; lia).
  rewrite orb_false_l. destruct (Z.ltb_spec 256 (len (front ++ [l]))) as [Hl|Hl]; simpl;
    [exists false; split; [done|]; split; [done|]; intros (_ & ? & _); lia|].
  destruct (Z.eqb_spec l 32) as [->|Hne]; simpl; [exists false; naive_solver|].
  eexists. split; [done|]. rewrite tracestate_value_loop.
  split; [intros; split_and!; try done; [by destruct front | congruence] | tauto].
Qed.

(** *** bytes.Split, bytes.Trim and bytes.Cut *)

Lemma bytes_Split_nonempty sep v : bytes_Split sep v <> [].
Proof. destruct v as [|c v]; simpl; [done|]. repeat case_match; done. Qed.

Lemma join_cons sep p parts : parts <> [] -> join sep (p :: parts) = p ++ sep :: join sep parts.
Proof. by destruct parts. Qed.

Lemma join_Split sep v : join sep (bytes_Split sep v) = v.
Proof.
  induction v as [|c v IH]; simpl; [done|].
  pose proof (bytes_Split_nonempty sep v) as Hne. destruct (Z.eqb_spec c sep) as [->|].
  - rewrite join_cons by done. simpl. by rewrite IH.
  - destruct (bytes_Split sep v) as [|p [|q ps]]; [done| |]; simpl in *; by rewrite IH.
Qed.

Lemma bytes_Split_app sep p v :
  sep ∉ p -> bytes_Split sep (p ++ sep :: v) = p :: bytes_Split sep v.
Proof.
  induction p as [|c p IH]; intros Hp; simpl; [by rewrite Z.eqb_refl|].
  rewrite not_elem_of_cons in Hp. destruct Hp as [Hc Hp]. rewrite IH by done.
  by destruct (Z.eqb_spec c sep) as [->|].
Qed.

Lemma bytes_Split_single sep p : sep ∉ p -> bytes_Split sep p = [p].
Proof.
  induction p as [|c p IH]; intros Hp; simpl; [done|].
  rewrite not_elem_of_cons in Hp. destruct Hp as [Hc Hp]. rewrite IH by done.
  by destruct (Z.eqb_spec c sep) as [->|].
Qed.

Lemma Split_join sep parts :
  parts <> [] -> Forall (fun p => sep ∉ p) parts -> bytes_Split sep (join sep parts) = parts.
Proof.
  intros Hne Hall. induction Hall as [|p parts Hp Hall IH]; [done|].
  destruct parts as [|q parts]; [by apply bytes_Split_single|].
  rewrite join_cons, bytes_Split_app by done. by rewrite IH.
Qed.

Lemma bytes_TrimLeft_replicate c n v :
  head v <> Some c -> bytes_TrimLeft c (replicate n c ++ v) = v.
Proof.
  intros Hv. induction n as [|n IH]; simpl; [|by rewrite Z.eqb_refl].
  destruct v as [|x v]; simpl; [done|]. destruct (Z.eqb_spec x c) as [->|]; done.
Qed.

Lemma bytes_TrimLeft_spec c v :
  exists n, v = replicate n c ++ bytes_TrimLeft c v /\ head (bytes_TrimLeft c v) <> Some c.
Proof.
  induction v as [|x v (n & IH & Hh)]; [by exists 0%nat|]. simpl.
  destruct (Z.eqb_spec x c) as [->|]; [exists (S n); simpl; split; [congruence|done]|].
  exists 0%nat. split; [done|]. simpl. congruence.
Qed.

Lemma bytes_Trim_replicate c n m v :
  head v <> Some c -> last v <> Some c -> v <> [] ->
  bytes_Trim c (replicate n c ++ v ++ replicate m c) = v.
Proof.
  intros Hh Hl Hne. unfold bytes_Trim. rewrite bytes_TrimLeft_replicate by (by destruct v).
  rewrite reverse_app, reverse_replicate, bytes_TrimLeft_replicate, reverse_involutive; [done|].
  by rewrite head_reverse.
Qed.

Lemma bytes_Trim_spec c v : exists n m, v = replicate n c ++ bytes_Trim c v ++ replicate m c.
Proof.
  unfold bytes_Trim. destruct (bytes_TrimLeft_spec c v) as (n & Hv & _).
  destruct (bytes_TrimLeft_spec c (reverse (bytes_TrimLeft c v))) as (m & Hr & _).
  exists n, m. rewrite Hv at 1. f_equal. apply (inj reverse).
  rewrite reverse_app, reverse_involutive, reverse_replicate. done.
Qed.

Lemma bytes_Cut_app sep k v : sep ∉ k -> bytes_Cut sep (k ++ [sep] ++ v) = (k, v, true).
Proof.
  induction k as [|c k IH]; intros Hk; simpl; [by rewrite Z.eqb_refl|].
  rewrite not_elem_of_cons in Hk. destruct Hk as [Hc Hk]. simpl in IH. rewrite IH by done.
  by destruct (Z.eqb_spec c sep) as [->|].
Qed.

Lemma bytes_Cut_found sep m : forall k v, bytes_Cut sep m = (k, v, true) -> m = k ++ [sep] ++ v.
Proof.
  induction m as [|c m IH]; intros k v; simpl; [done|].
  destruct (Z.eqb_spec c sep) as [->|]; [by intros [= <- <-]|].
  destruct (bytes_Cut sep m) as [[k' v'] f]. intros [= <- <- ->]. simpl. f_equal. by apply IH.
Qed.

(** *** The list of members *)

Lemma key_wf_chars k c : tracestate_key_wf k -> c ∈ k -> key_char c \/ c = 64.
Proof.
  intros (_ & _ & [Hk|(t & s & -> & _ & Ht & Hs)]) Hc.
  - left. rewrite Forall_forall in Hk. by apply Hk.
  - rewrite Forall_forall in Ht, Hs. rewrite !elem_of_app, list_elem_of_singleton in Hc. naive_solver.
Qed.

Lemma member_parse part kv :
  member_wf part kv -> bytes_Cut 61 (bytes_Trim 32 part) = (kv.1, kv.2, true).
Proof.
  intros ((n & m & ->) & Hk & Hv). destruct kv as [k v]; simpl in *.
  assert (H61 : 61 ∉ k).
  { intros Hin. apply (key_wf_chars _ _ Hk) in Hin. unfold key_char in Hin. lia. }
  pose proof Hk as (_ & (c & rest & Hkeq & Hc) & _). pose proof Hv as (Hvne & _ & Hlast & _).
  replace (replicate n 32 ++ k ++ 61 :: v ++ replicate m 32)
    with (replicate n 32 ++ (k ++ [61] ++ v) ++ replicate m 32) by (by rewrite <- !app_assoc).
  rewrite bytes_Trim_replicate.
  - by apply bytes_Cut_app.
  - rewrite Hkeq. simpl. intros [= ->]. lia.
  - rewrite !last_app. by destruct (last v) eqn:El; [|apply last_None in El].
  - by rewrite Hkeq.
Qed.

Lemma member_chars part kv c : member_wf part kv -> c ∈ part -> c <> 44.
Proof.
  intros ((n & m & ->) & Hk & (_ & _ & _ & Hv)) Hin ->. rewrite Forall_forall in Hv.
  rewrite !elem_of_app, list_elem_of_singleton in Hin.
  destruct Hin as [[]%elem_of_replicate|[Hin|[?|[Hin|[]%elem_of_replicate]]]]; try done.
  - apply (key_wf_chars _ _ Hk) in Hin. unfold key_char in Hin. lia.
  - apply Hv in Hin. lia.
Qed.

Lemma member_nonempty part kv : member_wf part kv -> part <> [].
Proof.
  intros ((n & m & ->) & (_ & (c & rest & -> & _) & _) & _) Heq.
  by apply app_nil in Heq as [_ Heq].
Qed.

Lemma validTracestate_members_total members : forall seen, exists b,
  validTracestate_members seen members = Ok b /\
  (b = true <-> exists kvs, Forall2 member_wf members kvs /\ NoDup kvs.*1 /\
     forall k, k ∈ kvs.*1 -> k ∉ seen).
Proof.
  induction members as [|part members IH]; intros seen; cbn [validTracestate_members].
  { exists true. split; [done|]. split; [|done]. intros _. exists []. split_and!; try constructor.
    intros k Hk. by apply not_elem_of_nil in Hk. }
  change (ch " ") with 32. change (ch "=") with 61.
  destruct (bytes_Cut 61 (bytes_Trim 32 part)) as [[k v] found] eqn:Hcut.
  assert (Hneg : forall kvs, Forall2 member_wf (part :: members) kvs -> exists kvs',
      kvs = (k, v) :: kvs' /\ found = true /\ member_wf part (k, v) /\ Forall2 member_wf members kvs').
  { intros kvs Hf. inversion Hf as [|? [k' v'] ? kvs' Hm Hf']; subst.
    pose proof (member_parse _ _ Hm) as Hp. rewrite Hcut in Hp. simpl in Hp. simplify_eq. eauto. }
  destruct found; simpl; [|exists false; split; [done|]; split; [done|];
    intros (kvs & Hf & _); by apply Hneg in Hf as (? & _ & ? & _)].
  destruct (validTracestateKey_total k) as (bk & -> & Hbk). simpl.
  destruct bk; simpl; [|exists false; split; [done|]; split; [done|]; intros (kvs & Hf & _);
    apply Hneg in Hf as (? & _ & _ & (_ & Hk & _) & _); by apply Hbk in Hk].
  destruct (validTracestateValue_total v) as (bv & -> & Hbv). simpl.
  destruct bv; simpl; [|exists false; split; [done|]; split; [done|]; intros (kvs & Hf & _);
    apply Hneg in Hf as (? & _ & _ & (_ & _ & Hv) & _); by apply Hbv in Hv].
  case_bool_decide as Hseen.
  { exists false. split; [done|]. split; [done|]. intros (kvs & Hf & _ & Hfresh).
    apply Hneg in Hf as (kvs' & -> & _). exfalso. apply (Hfresh k); [simpl; constructor|done]. }
  destruct (IH ({[k]} ∪ seen)) as (b & -> & Hb). exists b. split; [done|]. rewrite Hb. split.
  - intros (kvs & Hf & Hnd & Hfresh). exists ((k, v) :: kvs). split_and!.
    + constructor; [|done]. split_and!; [|by apply Hbk|by apply Hbv].
      destruct (bytes_Trim_spec 32 part) as (n & m & Hpart). exists n, m. rewrite Hpart at 1.
      apply bytes_Cut_found in Hcut. rewrite Hcut. simpl. by rewrite <- !app_assoc.
    + simpl. constructor; [|done]. intros Hin%Hfresh. set_solver.
    + simpl. set_solver.
  - intros (kvs & Hf & Hnd & Hfresh). apply Hneg in Hf as (kvs' & -> & _ & _ & Hf).
    exists kvs'. simpl in *. apply NoDup_cons in Hnd as [? ?]. split_and!; try done.
    intros k' Hk'. apply not_elem_of_union. split; [set_solver|]. apply Hfresh. by constructor.
Qed.

Lemma printable_Forall v : printable v = true <-> Forall (fun c => 32 <= c <= 126) v.
Proof.
  induction v as [|c v IH]; simpl; [by rewrite Forall_nil|]. rewrite Forall_cons, <- IH.
  destruct (_ || _) eqn:E; (split; [|intros []; lia || done]); [done|]. intros. split; [lia|done].
Qed.

(** The first and the last byte of a list of non-empty, comma-free members. *)
Lemma join_ends parts kvs :
  Forall2 member_wf parts kvs -> parts <> [] ->
  exists x y, head (join 44 parts) = Some x /\ last (join 44 parts) = Some y /\ x <> 44 /\ y <> 44.
Proof.
  intros Hf. induction Hf as [|part kv parts kvs Hm Hf IH]; intros Hne; [done|].
  pose proof (member_nonempty _ _ Hm) as Hpne. destruct part as [|x part']; [done|].
  assert (Hx : x <> 44) by (apply (member_chars _ _ x Hm); constructor).
  destruct parts as [|q parts].
  - destruct (exists_last (l := x :: part')) as (front & y & Heq); [done|].
    exists x, y. cbn [join]. rewrite Heq, last_snoc, <- Heq. split_and!; try done.
    apply (member_chars _ _ y Hm). rewrite Heq. set_solver.
  - destruct IH as (x' & y & Hh & Hl & _ & Hy); [done|]. exists x, y.
    rewrite join_cons by done. split_and!; try done.
    rewrite last_app, last_cons. by rewrite Hl.
Qed.

Lemma validTracestate_total v :
  v <> [] -> exists b, validTracestate v = Ok b /\ (b = true <-> tracestate_wf v).
Proof.
  intros Hne. unfold validTracestate, tracestate_wf. change (ch ",") with 44.
  destruct (exists_last Hne) as (front & y & Hlast). destruct v as [|x rest]; [done|].
  rewrite (index_middle (x :: rest) [] rest x 0) by done. rewrite Hlast, index_last, <- Hlast.
  assert (Hends : forall parts kvs, x :: rest = join 44 parts -> parts <> [] ->
            Forall2 member_wf parts kvs -> x <> 44 /\ y <> 44).
  { intros parts kvs Hj Hp Hf. destruct (join_ends _ _ Hf Hp) as (x' & y' & Hh & Hl & ? & ?).
    rewrite <- Hj in Hh, Hl. simpl in Hh. rewrite Hlast, last_snoc in Hl. by simplify_eq. }
  cbn [or_else mbind result_bind].
  destruct (Z.eqb_spec x 44) as [->|Hx]; cbn [mbind result_bind];
    [exists false; split; [done|]; split; [done|];
     intros (_ & parts & kvs & Hj & Hp & _ & Hf & _); by destruct (Hends parts kvs Hj Hp Hf)|].
  destruct (Z.eqb_spec y 44) as [->|Hy]; cbn [mbind result_bind];
    [exists false; split; [done|]; split; [done|];
     intros (_ & parts & kvs & Hj & Hp & _ & Hf & _); by destruct (Hends parts kvs Hj Hp Hf)|].
  pose proof (printable_Forall (x :: rest)) as Hpr. destruct (printable (x :: rest)); cbn [negb];
    [|exists false; split; [done|]; split; [done|]; intros [Hall _]; by apply Hpr in Hall].
  apply proj1 in Hpr. specialize (Hpr eq_refl).
  assert (Hsplit : forall parts kvs, x :: rest = join 44 parts -> parts <> [] ->
            Forall2 member_wf parts kvs -> bytes_Split 44 (x :: rest) = parts).
  { intros parts kvs Hj Hp Hf. rewrite Hj. apply Split_join; [done|]. clear -Hf.
    induction Hf as [|part kv parts kvs Hm Hf IH]; constructor; [|done].
    intros Hin. by apply (member_chars _ _ _ Hm) in Hin. }
  destruct (Z.ltb_spec 32 (len (bytes_Split 44 (x :: rest)))) as [Hlen|Hlen].
  { exists false. split; [done|]. split; [done|].
    intros (_ & parts & kvs & Hj & Hp & Hl & Hf & _).
    rewrite (Hsplit parts kvs Hj Hp Hf) in Hlen. lia. }
  destruct (validTracestate_members_total (bytes_Split 44 (x :: rest)) ∅) as (b & -> & Hb).
  exists b. split; [done|]. rewrite Hb. split.
  - intros (kvs & Hf & Hnd & _). split; [done|]. exists (bytes_Split 44 (x :: rest)), kvs.
    split_and!; try done; [by rewrite join_Split | apply bytes_Split_nonempty].
  - intros (_ & parts & kvs & Hj & Hp & Hl & Hf & Hnd).
    rewrite (Hsplit parts kvs Hj Hp Hf). exists kvs. set_solver.
Qed.

(** ** Metadata *)

Lemma validateMetadataValue_no_panic key value allow : validateMetadataValue key value allow <> Panic.
Proof.
  unfold validateMetadataValue, reject_if.
  destruct (Z.eqb_spec (len value) 0) as [|Hne]; [done|]. rewrite len_zero_nil in Hne.
  destruct (validTraceparent_total value) as (b1 & -> & _).
  destruct (validTracestate_total value Hne) as (b2 & -> & _).
  destruct b1, b2; unfold or_else; simpl; repeat case_match; simpl in *; simplify_eq; done.
Qed.

Lemma traceparent_len v : traceparent_wf v -> len v = 55.
Proof.
  intros (t & s & f & -> & ? & _ & _ & ? & _ & _ & ? & _). autorewrite with go_len.
  change (len (bytes_of "00-")) with 3. change (len (bytes_of "-")) with 1. lia.
Qed.

Lemma validateMetadataValue_Ok key value allow :
  validateMetadataValue key value allow = Ok tt <-> metadata_value_wf allow key value.
Proof.
  unfold validateMetadataValue, metadata_value_wf. rewrite guard_Ok, orb_false_iff, Z.eqb_neq, Z.ltb_ge.
  rewrite len_zero_nil. change MaxMetadataValueBytes with (2 ^ 14).
  unfold METADATA_KEY_CONTENT_TYPE, METADATA_KEY_TRACEPARENT, METADATA_KEY_TRACESTATE,
    METADATA_KEY_SESSION_ASSERTION, MaxContentTypeBytes, MaxTraceparentBytes, MaxTracestateBytes.
  rewrite Logic.and_assoc. do 2 (apply and_iff_compat_l'; intros ?).
  destruct (Z.eqb_spec key 1) as [->|H1].
  { rewrite reject_if_Ok, orb_false_iff, Z.ltb_ge, negb_false_iff. unfold bytes_Equal.
    rewrite bool_decide_eq_true. split; [intuition|]. intros [[_ ->]|[?|[?|?]]]; [done|lia..]. }
  destruct (Z.eqb_spec key 2) as [->|H2].
  { destruct (validTraceparent_total value) as (b & -> & Hb).
    destruct (Z.ltb_spec 128 (len value)) as [Hl|Hl]; simpl.
    - split; [done|]. intros [?|[[_ Ht%traceparent_len]|[?|?]]]; lia.
    - rewrite reject_if_Ok, negb_false_iff, Hb. intuition lia. }
  destruct (Z.eqb_spec key 3) as [->|H3].
  { destruct (validTracestate_total value) as (b & -> & Hb); [done|].
    destruct (Z.ltb_spec 512 (len value)) as [Hl|Hl]; simpl; [split; [done|]; intuition lia|].
    rewrite reject_if_Ok, negb_false_iff, Hb. intuition lia. }
  destruct (Z.eqb_spec key 4) as [->|H4]; [|split; [done|]; intuition lia].
  rewrite reject_if_Ok, negb_false_iff. intuition lia.
Qed.

Lemma metadata_value_key allow key value :
  metadata_value_wf allow key value ->
  negb (knownMetadataKey key) || (key =? METADATA_KEY_UNSPECIFIED) = false.
Proof.
  intros (_ & _ & Hk). apply knownMetadataKey_spec. unfold declared_metadata_key.
  destruct Hk as [[-> _]|[[-> _]|[[-> _]|[-> _]]]]; lia.
Qed.

Lemma validateMetadata_loop_Ok path allow entries : forall seen,
  validateMetadata_loop path seen entries allow = Ok tt <->
  exists ms, entries = Some <$> ms /\ NoDup (md_key <$> ms) /\
    Forall (fun m => metadata_value_wf allow (md_key m) (md_value m)) ms /\
    forall k, k ∈ md_key <$> ms -> k ∉ seen.
Proof.
  induction entries as [|[m|] entries IH]; intros seen; cbn [validateMetadata_loop].
  - split; [|done]. intros _. exists []. split_and!; try constructor.
    intros k Hk. by apply not_elem_of_nil in Hk.
  - rewrite !guard_Ok, seq_Ok, validateMetadataValue_Ok, bool_decide_eq_false, IH. split.
    + intros (_ & Hseen & Hv & ms & -> & Hnd & Hall & Hfresh). exists (m :: ms).
      split_and!; csimpl; [done| |by constructor|].
      * constructor; [|done]. intros Hin%Hfresh. set_solver.
      * intros k. rewrite elem_of_cons. set_solver.
    + intros (ms & Heq & Hnd & Hall & Hfresh). destruct ms as [|m' ms]; csimpl in *; [done|].
      injection Heq as <- ->. apply NoDup_cons in Hnd as [Hni Hnd]. apply Forall_cons in Hall as [Hv Hall].
      split_and!; [by eapply metadata_value_key|set_solver|done|]. exists ms. set_solver.
  - split; [done|]. intros (ms & Heq & _). by destruct ms.
Qed.

Lemma validateMetadata_Ok path entries allow :
  validateMetadata path entries allow = Ok tt <-> metadata_wf allow entries.
Proof.
  unfold validateMetadata, metadata_wf, MaxMetadataEntries.
  rewrite guard_Ok, Z.ltb_ge, validateMetadata_loop_Ok.
  apply and_iff_compat_l. split; intros (ms & ? & ? & ?); exists ms; set_solver.
Qed.

Create HintDb no_panic.

(** Discharges goals saying that a chain of guards and calls does not panic. *)
Ltac no_panic :=
  repeat match goal with
  | |- (reject_if _ _) <> Panic => apply reject_if_Panic
  | |- (_ ≫= _) <> Panic =>
      rewrite bind_Panic; intros [?|(?xx & _ & ?)]; revert select (_ = Panic);
      change (?x = Panic -> False) with (x <> Panic)
  | |- _ => done
  end.

Lemma validateMetadata_no_panic path entries allow : validateMetadata path entries allow <> Panic.
Proof.
  unfold validateMetadata. no_panic. generalize (∅ : gset Z).
  induction entries as [|[m|] entries IH]; intros seen; cbn [validateMetadata_loop]; no_panic.
  apply validateMetadataValue_no_panic.
Qed.

(** ** Payloads and frames *)

Section frames.
Context `{ProtoRuntime}.

Lemma validateTimestamp_Ok field t : validateTimestamp field t = Ok tt <-> deadline_wf t.
Proof.
  unfold deadline_wf. destruct t as [t|]; simpl; [|naive_solver].
  rewrite reject_if_Ok, negb_false_iff. naive_solver.
Qed.

Lemma validateTimestamp_no_panic field t : validateTimestamp field t <> Panic.
Proof. destruct t; simpl; no_panic. Qed.

Lemma validateOpen_Ok class open :
  validateOpen class open = Ok tt <-> exists o, open = Some o /\ open_wf class o.
Proof.
  destruct open as [o|]; simpl; [|naive_solver].
  rewrite !guard_Ok, knownRoute_spec, !seq_Ok, validateTimestamp_Ok, validateMetadata_Ok, reject_if_Ok,
    negb_false_iff, Z.eqb_eq, Z.ltb_ge, <- routeTrafficClass_declared.
  unfold open_wf, MaxIdempotencyKeyBytes. setoid_rewrite routeTrafficClass_spec. naive_solver.
Qed.

Lemma validateData_Ok data :
  validateData data = Ok tt <-> exists d, data = Some d /\ data_wf d.
Proof.
  destruct data as [d|]; simpl; [|naive_solver]. unfold data_wf. guards.
  change MaxDataBytes with (2 ^ 18). naive_solver.
Qed.

Lemma validateHalfClose_Ok hc : validateHalfClose hc = Ok tt <-> exists x, hc = Some x.
Proof. destruct hc; simpl; naive_solver. Qed.

Lemma validateCancel_Ok cancel :
  validateCancel cancel = Ok tt <-> exists c, cancel = Some c /\ cancel_wf c.
Proof.
  destruct cancel as [c|]; simpl; [|naive_solver]. unfold cancel_wf.
  rewrite reject_if_Ok, knownCancelReason_spec. naive_solver.
Qed.

Lemma validateResult_Ok result :
  validateResult result = Ok tt <-> exists r, result = Some r /\ result_wf r.
Proof.
  destruct result as [r|]; simpl; [|naive_solver]. rewrite ex_Some_eq. unfold result_wf.
  rewrite !guard_Ok, knownResultCode_spec, seq_Ok, validateMetadata_Ok. unfold RESULT_CODE_OK.
  apply and_iff_compat_l. rewrite <- Logic.and_assoc. apply and_iff_compat_r.
  destruct (res_retry_after r) as [d|]; [|by rewrite bool_decide_eq_false_2, andb_false_r].
  rewrite bool_decide_eq_true_2, andb_true_r by eauto. unfold validateDuration.
  rewrite guard_Ok, reject_if_Ok, negb_false_iff, Z.eqb_neq, orb_false_iff, Z.ltb_ge, not_leb_gt.
  change MaxRetryAfter with 300000000000. split; [intros ? ? [= <-] | intros Hd; apply Hd]; done.
Qed.

Lemma validateCredit_Ok credit :
  validateCredit credit = Ok tt <-> exists c, credit = Some c /\ credit_wf c.
Proof.
  destruct credit as [c|]; simpl; [|naive_solver]. unfold credit_wf. guards.
  change MaxCreditBytes with (2 ^ 20). naive_solver.
Qed.

Lemma validatePing_Ok ping : validatePing ping = Ok tt <-> exists p, ping = Some p /\ ping_nonce p <> 0.
Proof. destruct ping; simpl; [guards|]; naive_solver. Qed.

Lemma validatePong_Ok pong : validatePong pong = Ok tt <-> exists p, pong = Some p /\ pong_nonce p <> 0.
Proof. destruct pong; simpl; [guards|]; naive_solver. Qed.

Lemma validateDrain_Ok drain : validateDrain drain = Ok tt <-> exists d, drain = Some d /\ drain_wf d.
Proof.
  destruct drain as [d|]; simpl; [|naive_solver]. unfold drain_wf.
  rewrite seq_Ok, reject_if_Ok, knownDrainReason_spec, validateTimestamp_Ok. naive_solver.
Qed.

Lemma validateRevokeSession_Ok revoke :
  validateRevokeSession revoke = Ok tt <-> exists r, revoke = Some r /\ len (rs_session_id r) = 16.
Proof. destruct revoke; simpl; [guards; unfold SessionIDBytes|]; naive_solver. Qed.

Lemma out_frame_Ok f :
  ValidateGatewayOutFrame (Some f) = Ok tt <-> gateway_out_frame_wf f.
Proof.
  unfold gateway_out_frame_wf, ValidateGatewayOutFrame. cbv zeta. rewrite seq_Ok, rejectUnknownFields_Ok, unknowns_of_request.
  apply and_iff_compat_l. destruct (creq_payload f) as [p|]; [|naive_solver].
  destruct p; rewrite seq_Ok, ?validateGatewayOutHelloHeader_Ok, ?validateRequestHeader_Ok,
    ?validateTunnelHeader_Ok, ?validateSessionControlHeader_Ok, ?validateGatewayOutHello_Ok,
    ?validateData_Ok, ?validateHalfClose_Ok, ?validateCancel_Ok, ?validateResult_Ok, ?validateCredit_Ok,
    ?validatePing_Ok, ?validatePong_Ok, ?validateDrain_Ok, ?validateRevokeSession_Ok;
    (split; [intros [(h & -> & ?) (m & -> & ?)] || intros [(h & -> & ?) (m & ->)];
             exists h; eexists; split_and!; [done|done|by constructor]
            |intros (h & p & -> & [= <-] & Hp); inversion Hp; subst; split; eauto]).
Qed.

Lemma hello_frame_wf f h : gateway_out_frame_wf f -> creq_payload f = Some (Req_Hello (Some h)) -> out_hello_wf h.
Proof. intros (_ & hd & p & _ & Hp & Hf) Hpay. simplify_eq. by inversion Hf. Qed.

Lemma in_frame_Ok f :
  ValidateGatewayInFrame (Some f) = Ok tt <-> gateway_in_frame_wf f.
Proof.
  unfold gateway_in_frame_wf, ValidateGatewayInFrame. cbv zeta. rewrite seq_Ok, rejectUnknownFields_Ok, unknowns_of_response.
  apply and_iff_compat_l. destruct (cresp_payload f) as [p|]; [|naive_solver].
  destruct p; rewrite seq_Ok, ?validateGatewayInHelloHeader_Ok, ?validateRequestHeader_Ok,
    ?validateTunnelHeader_Ok, ?validateGatewayInHello_Ok, ?validateOpen_Ok,
    ?validateData_Ok, ?validateHalfClose_Ok, ?validateCancel_Ok, ?validateCredit_Ok,
    ?validatePing_Ok, ?validatePong_Ok, ?validateDrain_Ok;
    (split; [intros [(h & -> & ?) (m & -> & ?)] || intros [(h & -> & ?) (m & ->)];
             exists h; eexists; split_and!; [done|done|by constructor]
            |intros (h & p & -> & [= <-] & Hp); inversion Hp; subst; split; eauto]).
Qed.

Lemma validateCapabilities_no_panic l : validateCapabilities l <> Panic.
Proof. unfold validateCapabilities. no_panic. apply validate_values_no_panic. Qed.

Lemma validateTrafficClasses_no_panic l : validateTrafficClasses l <> Panic.
Proof. unfold validateTrafficClasses. no_panic. apply validate_values_no_panic. Qed.

Lemma validateRoutes_no_panic l : validateRoutes l <> Panic.
Proof. unfold validateRoutes. no_panic. apply validate_values_no_panic. Qed.

Lemma validateLimits_no_panic l : validateLimits l <> Panic.
Proof. destruct l; simpl; no_panic. Qed.

Lemma validateSupportedVersions_no_panic versions : validateSupportedVersions versions <> Panic.
Proof.
  unfold validateSupportedVersions. no_panic. generalize (∅ : gset Z), false.
  induction versions as [|v versions IH]; intros seen found; cbn [validateSupportedVersions_loop];
    no_panic.
Qed.

#[local] Hint Resolve validateCapabilities_no_panic validateTrafficClasses_no_panic
  validateRoutes_no_panic validateLimits_no_panic validateSupportedVersions_no_panic
  validateTimestamp_no_panic validateMetadata_no_panic : no_panic.

Lemma headers_no_panic h :
  validateGatewayOutHelloHeader h <> Panic /\ validateGatewayInHelloHeader h <> Panic /\
  validateRequestHeader h <> Panic /\ validateTunnelHeader h <> Panic /\
  validateSessionControlHeader h <> Panic.
Proof.
  unfold validateGatewayOutHelloHeader, validateGatewayInHelloHeader, validateHelloHeader,
    validateRequestHeader, validateTunnelHeader, validateSessionControlHeader.
  split_and!; no_panic.
Qed.

Lemma out_frame_no_panic f : ValidateGatewayOutFrame (Some f) <> Panic.
Proof.
  unfold ValidateGatewayOutFrame. cbv zeta. no_panic; [apply rejectUnknownFields_no_panic|].
  pose proof (headers_no_panic (creq_header f)) as (? & ? & ? & ? & ?).
  destruct (creq_payload f) as [[m|m|m|m|m|m|m|m|m|m]|]; no_panic; destruct m; simpl; no_panic;
    auto with no_panic. unfold validateDuration. case_match; no_panic.
Qed.

Lemma in_frame_no_panic f : ValidateGatewayInFrame (Some f) <> Panic.
Proof.
  unfold ValidateGatewayInFrame. cbv zeta. no_panic; [apply rejectUnknownFields_no_panic|].
  pose proof (headers_no_panic (cresp_header f)) as (? & ? & ? & ? & ?).
  destruct (cresp_payload f) as [[m|m|m|m|m|m|m|m|m]|]; no_panic; destruct m; simpl; no_panic;
    auto with no_panic.
Qed.

(** A frame from gateway-out is accepted exactly when it is one of the ten
    frames the v1 protocol allows in that direction: the header matches the
    level of the frame (Hello, request, tunnel control, session control), the
    payload is within the absolute limits and the declared vocabularies without
    repetition, metadata obeys the allowlist and the W3C grammars, and no
    message of the frame carries an unknown field. *)
Theorem gateway_out_frame_accepted_iff_wf (frame : option ConnectRequest) :
  ValidateGatewayOutFrame frame = Ok tt <-> exists f, frame = Some f /\ gateway_out_frame_wf f.
Proof. destruct frame as [f|]; [rewrite out_frame_Ok|simpl]; naive_solver. Qed.

(** A frame from gateway-in is accepted exactly when it is one of the nine
    frames the v1 protocol allows in that direction; in particular an accepted
    Open names a declared route whose traffic class is the class of the header,
    and no frame can carry Result or RevokeSession. *)
Theorem gateway_in_frame_accepted_iff_wf (frame : option ConnectResponse) :
  ValidateGatewayInFrame frame = Ok tt <-> exists f, frame = Some f /\ gateway_in_frame_wf f.
Proof. destruct frame as [f|]; [rewrite in_frame_Ok|simpl]; naive_solver. Qed.

(** No frame, however malformed, makes either validator panic: every index
    and slice of the trace-context parsers is in range on every path. *)
Theorem frame_validation_never_panics (out : option ConnectRequest) (inb : option ConnectResponse) :
  ValidateGatewayOutFrame out <> Panic /\ ValidateGatewayInFrame inb <> Panic.
Proof.
  split; [destruct out; [apply out_frame_no_panic|done] | destruct inb; [apply in_frame_no_panic|done]].
Qed.

(** C1. Both validators decide the protocol: a frame of either direction is accepted
    exactly when it is a frame that the v1 protocol allows there (header of the right
    level, payload within the absolute limits and the declared vocabularies, an Open
    with a declared route of the class of its header, metadata of the allowlist, no
    unknown field), and no frame, however malformed, makes them panic. *)
Theorem validators_decide_the_protocol (out : option ConnectRequest) (inb : option ConnectResponse) :
  (ValidateGatewayOutFrame out = Ok tt <-> exists f, out = Some f /\ gateway_out_frame_wf f) /\
  (ValidateGatewayInFrame inb = Ok tt <-> exists f, inb = Some f /\ gateway_in_frame_wf f) /\
  ValidateGatewayOutFrame out <> Panic /\ ValidateGatewayInFrame inb <> Panic.
Proof. split; [apply gateway_out_frame_accepted_iff_wf|]. split; [apply gateway_in_frame_accepted_iff_wf|apply frame_validation_never_panics]. Qed.

End frames.
