(* ===== verification/TunnelDecode.v ===== *)
(** * Strict decoding of tunnel frames

    [backend/api/tunnel/v1/decode.go]: the scan of the top-level wire fields
    before unmarshalling, and the two decoders.  The scan loop runs on fuel; the
    protobuf wire reader is the class [ProtoRuntime], and its documented bounds
    are the class [WireLaws] of [TunnelContract]. *)

From S2P Require Import Prelude TunnelContract TunnelRuntime TunnelValidate TunnelValidateProofs.
Local Open Scope Z_scope.

Definition outLastPayloadField : Z := 19.
Definition inLastPayloadField : Z := 18.
Definition firstPayloadField : Z := 10.
(** [protowire.BytesType] *)
Definition BytesType : Z := 2.

Section decode.
Context `{ProtoRuntime}.

(** The loop of [validateEncodedFrame]; [None] means that the fuel ran out. *)
Fixpoint scan_fields (fuel : nat) (remaining : bytes) (lastPayloadField headerCount payloadCount : Z) :
    option (result frame_error (Z * Z)) :=
  match fuel with
  | O => None
  | S fuel =>
      if len remaining =? 0 then Some (Ok (headerCount, payloadCount)) else
      let '(number, wireType, tagLength) := consume_tag remaining in
      if tagLength <? 0 then Some (Err ErrMalformedFrame) else
      match slice remaining tagLength (len remaining) with
      | Ok remaining =>
          let fieldLength := consume_field_value number wireType remaining in
          if fieldLength <? 0 then Some (Err ErrMalformedFrame) else
          match (if number =? 1 then Ok (headerCount + 1, payloadCount)
                 else if (firstPayloadField <=? number) && (number <=? lastPayloadField)
                 then Ok (headerCount, payloadCount + 1)
                 else Err ErrUnknownFrameType) with
          | Ok (headerCount, payloadCount) =>
              if negb (wireType =? BytesType) then Some (Err ErrMalformedFrame) else
              match slice remaining fieldLength (len remaining) with
              | Ok remaining => scan_fields fuel remaining lastPayloadField headerCount payloadCount
              | Err e => Some (Err e)
              | Panic => Some Panic
              end
          | Err e => Some (Err e)
          | Panic => Some Panic
          end
      | Err e => Some (Err e)
      | Panic => Some Panic
      end
  end.

(** One iteration consumes at least one byte, so [length data] iterations and
    the final test are enough. *)
Definition validateEncodedFrame (data : bytes) (lastPayloadField : Z) : option check :=
  if len data =? 0 then Some (Err ErrEmptyFrame) else
  if MaxEncodedFrameBytes <? len data then Some (Err ErrFrameTooLarge) else
  r ← scan_fields (S (length data)) data lastPayloadField 0 0;
  Some ('(headerCount, payloadCount) ← r;
        reject_if (negb (headerCount =? 1) || negb (payloadCount =? 1)) ErrUnknownFrameType).

Definition unmarshalFrame {A} (unmarshal : bytes -> option A) (data : bytes) : result frame_error A :=
  match unmarshal data with Some frame => Ok frame | None => Err ErrMalformedFrame end.

Definition DecodeGatewayOutFrame (data : bytes) : option (result frame_error ConnectRequest) :=
  c ← validateEncodedFrame data outLastPayloadField;
  Some (c;;
        frame ← unmarshalFrame unmarshal_request data;
        ValidateGatewayOutFrame (Some frame);;
        Ok frame).

Definition DecodeGatewayInFrame (data : bytes) : option (result frame_error ConnectResponse) :=
  c ← validateEncodedFrame data inLastPayloadField;
  Some (c;;
        frame ← unmarshalFrame unmarshal_response data;
        ValidateGatewayInFrame (Some frame);;
        Ok frame).

(** The sequence of top-level fields of an encoded message. *)
Inductive wire_fields : bytes -> list (Z * Z) -> Prop :=
| wire_nil : wire_fields [] []
| wire_cons b num typ n m fs :
    b <> [] -> consume_tag b = (num, typ, n) -> 0 <= n ->
    consume_field_value num typ (drop (Z.to_nat n) b) = m -> 0 <= m ->
    wire_fields (drop (Z.to_nat m) (drop (Z.to_nat n) b)) fs ->
    wire_fields b ((num, typ) :: fs).

(** One header and one payload field, both length-delimited, in either order. *)
Definition one_header_one_payload (lastPayloadField : Z) (fs : list (Z * Z)) : Prop :=
  exists p, 10 <= p <= lastPayloadField /\
    (fs = [(1, BytesType); (p, BytesType)] \/ fs = [(p, BytesType); (1, BytesType)]).

Definition count_headers (fs : list (Z * Z)) : Z := len (filter (fun f => f.1 = 1) fs).
Definition count_payloads (fs : list (Z * Z)) : Z := len (filter (fun f => f.1 <> 1) fs).

Definition field_ok (lastPayloadField : Z) (f : Z * Z) : Prop :=
  (f.1 = 1 \/ 10 <= f.1 <= lastPayloadField) /\ f.2 = BytesType.

Lemma slice_suffix {E} (b : bytes) n :
  0 <= n <= len b -> @slice E Z b n (len b) = Ok (drop (Z.to_nat n) b).
Proof.
  intros Hn. rewrite slice_in_range by lia. f_equal. apply take_ge.
  rewrite length_drop. unfold len in *. lia.
Qed.

Lemma count_headers_cons num typ fs :
  count_headers ((num, typ) :: fs) = (if num =? 1 then 1 else 0) + count_headers fs.
Proof.
  unfold count_headers. rewrite filter_cons. simpl.
  case_decide; autorewrite with go_len; destruct (Z.eqb_spec num 1); lia.
Qed.

Lemma count_payloads_cons num typ fs :
  count_payloads ((num, typ) :: fs) = (if num =? 1 then 0 else 1) + count_payloads fs.
Proof.
  unfold count_payloads. rewrite filter_cons. simpl.
  case_decide; autorewrite with go_len; destruct (Z.eqb_spec num 1); lia.
Qed.

Lemma counts_nonneg fs : 0 <= count_headers fs /\ 0 <= count_payloads fs.
Proof. split; apply len_nonneg. Qed.

(** The first field of a non-empty encoding is the one its tag announces. *)
Lemma wire_fields_inv b fs num typ n :
  b <> [] -> consume_tag b = (num, typ, n) -> wire_fields b fs ->
  0 <= n /\ 0 <= consume_field_value num typ (drop (Z.to_nat n) b) /\
  exists fs', fs = (num, typ) :: fs' /\ wire_fields
    (drop (Z.to_nat (consume_field_value num typ (drop (Z.to_nat n) b))) (drop (Z.to_nat n) b)) fs'.
Proof. intros Hb Htag Hw. inversion Hw; subst; [done|]. rewrite Htag in *. simplify_eq. eauto. Qed.

(** What a run of the scan must establish. *)
Definition scan_post (b : bytes) (last h p : Z) (o : option (result frame_error (Z * Z))) : Prop :=
  exists r, o = Some r /\ r <> Panic /\
    forall h' p', r = Ok (h', p') <->
      exists fs, wire_fields b fs /\ Forall (field_ok last) fs /\
        h' = h + count_headers fs /\ p' = p + count_payloads fs.

Lemma scan_post_err b last h p e :
  (forall fs, wire_fields b fs -> ~ Forall (field_ok last) fs) -> scan_post b last h p (Some (Err e)).
Proof.
  intros He. eexists. split_and!; [done|done|]. intros h' p'. split; [done|].
  intros (fs & Hw & Hf & _). by apply He in Hw.
Qed.

Lemma scan_post_nil last h p : scan_post [] last h p (Some (Ok (h, p))).
Proof.
  eexists. split_and!; [done|done|]. intros h' p'. split.
  - intros [= <- <-]. exists []. split_and!; [constructor..| |];
      unfold count_headers, count_payloads; simpl; autorewrite with go_len; lia.
  - intros (fs & Hw & _ & -> & ->). inversion Hw; [|done]. subst.
    unfold count_headers, count_payloads. simpl. autorewrite with go_len. repeat f_equal; lia.
Qed.

Lemma scan_post_cons b last h p num n o :
  let b' := drop (Z.to_nat n) b in
  let m := consume_field_value num BytesType b' in
  b <> [] -> consume_tag b = (num, BytesType, n) -> 0 <= n -> 0 <= m ->
  num = 1 \/ 10 <= num <= last ->
  scan_post (drop (Z.to_nat m) b') last (if num =? 1 then h + 1 else h)
    (if num =? 1 then p else p + 1) o ->
  scan_post b last h p o.
Proof.
  intros b' m Hb Htag Hn Hm Hnum (r & -> & Hr & Hspec). exists r. split_and!; [done|done|].
  intros h' p'. rewrite Hspec. split.
  - intros (fs & Hw & Hf & -> & ->). exists ((num, BytesType) :: fs).
    rewrite count_headers_cons, count_payloads_cons.
    split_and!; [by econstructor|by constructor|destruct (num =? 1); lia..].
  - intros (fs & Hw & Hf & -> & ->).
    apply (wire_fields_inv _ _ _ _ _ Hb Htag) in Hw as (_ & _ & fs' & -> & Hw).
    apply Forall_cons in Hf as [_ Hf]. exists fs'. rewrite count_headers_cons, count_payloads_cons.
    split_and!; [done|done|destruct (num =? 1); lia..].
Qed.

Context `{!WireLaws}.

Lemma scan_fields_spec fuel : forall b last h p,
  (length b < fuel)%nat -> scan_post b last h p (scan_fields fuel b last h p).
Proof.
  induction fuel as [|fuel IH]; intros b last h p Hfuel; [lia|]. cbn [scan_fields].
  destruct (Z.eqb_spec (len b) 0) as [Hb|Hb]; [apply len_zero_nil in Hb as ->; apply scan_post_nil|].
  rewrite len_zero_nil in Hb. destruct (consume_tag b) as [[num typ] n] eqn:Htag.
  pose proof (fun fs => wire_fields_inv b fs num typ n Hb Htag) as Hinv.
  destruct (Z.ltb_spec n 0) as [Hn|Hn]; [apply scan_post_err; intros fs (? & _)%Hinv; lia|].
  pose proof (consume_tag_bound _ _ _ _ Htag Hn) as Hnb. rewrite slice_suffix by lia.
  set (b' := drop (Z.to_nat n) b) in *.
  destruct (Z.ltb_spec (consume_field_value num typ b') 0) as [Hm|Hm];
    [apply scan_post_err; intros fs (_ & ? & _)%Hinv; lia|].
  pose proof (consume_field_value_bound num typ b') as Hmb.
  assert (Hlen : (length (drop (Z.to_nat (consume_field_value num typ b')) b') < fuel)%nat).
  { unfold b'. rewrite !length_drop. unfold len in *. lia. }
  unfold firstPayloadField. destruct (Z.eqb_spec num 1) as [Hn1|Hn1];
    [|destruct ((10 <=? num) && (num <=? last)) eqn:Hp].
  3: { apply scan_post_err. intros fs (_ & _ & fs' & -> & _)%Hinv [[? _] _]%Forall_cons. simpl in *. lia. }
  all: destruct (Z.eqb_spec typ BytesType) as [->|Htyp]; simpl;
    [|apply scan_post_err; intros fs (_ & _ & fs' & -> & _)%Hinv [[_ ?] _]%Forall_cons; done].
  all: rewrite slice_suffix by lia; eapply scan_post_cons; [done|done|done|done|lia|].
  - rewrite (proj2 (Z.eqb_eq num 1) Hn1). by apply IH.
  - rewrite (proj2 (Z.eqb_neq num 1) Hn1). by apply IH.
Qed.

Lemma one_of_each last fs :
  Forall (field_ok last) fs /\ count_headers fs = 1 /\ count_payloads fs = 1 <->
  one_header_one_payload last fs.
Proof.
  split.
  - intros (Hf & Hh & Hp).
    destruct fs as [|[n1 t1] [|[n2 t2] [|[n3 t3] fs]]];
      rewrite ?count_headers_cons, ?count_payloads_cons in *; try (pose proof (counts_nonneg fs));
      repeat match type of Hf with
      | Forall _ (_ :: _) => apply Forall_cons in Hf as [[? ?] Hf]
      end; simpl in *; subst; change (count_headers []) with 0 in *; change (count_payloads []) with 0 in *;
      repeat match goal with |- context [?x =? 1] => destruct (Z.eqb_spec x 1)
      | H : context [?x =? 1] |- _ => destruct (Z.eqb_spec x 1) end; subst; try lia.
    + exists n2. split; [lia|by left].
    + exists n1. split; [lia|by right].
  - intros (p & Hp & [->| ->]); rewrite !count_headers_cons, !count_payloads_cons;
      change (count_headers []) with 0; change (count_payloads []) with 0;
      replace (p =? 1) with false by lia; simpl;
      (split_and!; [repeat constructor; simpl; lia|done|done]).
Qed.

Lemma validateEncodedFrame_Ok data last :
  exists r, validateEncodedFrame data last = Some r /\ r <> Panic /\
    (r = Ok tt <-> 0 < len data <= 2 ^ 20 /\
       exists fs, wire_fields data fs /\ one_header_one_payload last fs).
Proof.
  unfold validateEncodedFrame. pose proof (len_nonneg data).
  destruct (Z.eqb_spec (len data) 0) as [Hz|Hz]; [eexists; split_and!; [done|done|split; [done|lia]]|].
  change MaxEncodedFrameBytes with (2 ^ 20).
  destruct (Z.ltb_spec (2 ^ 20) (len data)) as [Hl|Hl];
    [eexists; split_and!; [done|done|split; [done|lia]]|].
  destruct (scan_fields_spec (S (length data)) data last 0 0) as (r & -> & Hr & Hspec); [lia|].
  csimpl. eexists. split; [done|]. split.
  { destruct r as [[h p]|e|]; simpl; [apply reject_if_Panic|done|done]. }
  rewrite bind_Ok. setoid_rewrite <- one_of_each. split.
  - intros ([h p] & -> & Hg%reject_if_Ok). go_bool. subst. split; [lia|].
    destruct (proj1 (Hspec 1 1) eq_refl) as (fs & Hw & Hf & ? & ?). exists fs. split_and!; (done || lia).
  - intros (_ & fs & Hw & Hf & Hh & Hp). exists (1, 1). split; [|done].
    apply Hspec. exists fs. by rewrite Hh, Hp.
Qed.

(** A decoder that scans, unmarshals and validates. *)
Lemma decode_spec {A} (unm : bytes -> option A) (valid : A -> check) (wf : A -> Prop) data last :
  (forall f, valid f = Ok tt <-> wf f) -> (forall f, valid f <> Panic) ->
  exists r, (c ← validateEncodedFrame data last;
             Some (c;; frame ← unmarshalFrame unm data; valid frame;; Ok frame)) = Some r /\
    r <> Panic /\
    forall f, r = Ok f <-> unm data = Some f /\ wf f /\
      0 < len data <= 2 ^ 20 /\ exists fs, wire_fields data fs /\ one_header_one_payload last fs.
Proof.
  intros Hok Hnp. destruct (validateEncodedFrame_Ok data last) as (c & -> & Hc & Hspec).
  csimpl. eexists. split; [done|]. unfold unmarshalFrame. split.
  - destruct c, (unm data) as [f|]; simpl; try done.
    rewrite bind_Panic. intros [Hp|(? & _ & [=])]. by apply Hnp in Hp.
  - intros f. rewrite bind_Ok. setoid_rewrite bind_Ok. setoid_rewrite seq_Ok. split.
    + intros ([] & Hscan%Hspec & f' & Hu & Hv%Hok & [= ->]).
      destruct (unm data); simplify_eq. naive_solver.
    + intros (Hu & Hv%Hok & Hrest). exists tt. split; [by apply Hspec|].
      exists f. by rewrite Hu.
Qed.

(** The scan of an encoded frame always terminates with an answer, never
    panics, and succeeds exactly when the frame is non-empty, at most 1 MiB and
    consists of two length-delimited top-level fields: the header and one
    payload of the direction, in either order.  A second header, a second oneof
    payload and every other top-level tag are refused before unmarshalling. *)
Theorem encoded_frame_accepted_iff_one_header_one_payload (data : bytes) (lastPayloadField : Z) :
  exists r, validateEncodedFrame data lastPayloadField = Some r /\ r <> Panic /\
    (r = Ok tt <-> 0 < len data <= 2 ^ 20 /\
       exists fs, wire_fields data fs /\ one_header_one_payload lastPayloadField fs).
Proof. apply validateEncodedFrame_Ok. Qed.

(** C2. Decoding always terminates without a panic, and a decoded frame is the
    protobuf reading of the bytes, is well formed for its direction, and was
    encoded with exactly one header and one payload in at most 1 MiB. *)
Theorem decoded_frames_are_wf (data : bytes) :
  (exists r, DecodeGatewayOutFrame data = Some r /\ r <> Panic /\
     forall f, r = Ok f <-> unmarshal_request data = Some f /\ gateway_out_frame_wf f /\
       0 < len data <= 2 ^ 20 /\ exists fs, wire_fields data fs /\ one_header_one_payload 19 fs) /\
  (exists r, DecodeGatewayInFrame data = Some r /\ r <> Panic /\
     forall f, r = Ok f <-> unmarshal_response data = Some f /\ gateway_in_frame_wf f /\
       0 < len data <= 2 ^ 20 /\ exists fs, wire_fields data fs /\ one_header_one_payload 18 fs).
Proof.
  split.
  - apply (decode_spec unmarshal_request (fun f => ValidateGatewayOutFrame (Some f)));
      [apply out_frame_Ok | apply out_frame_no_panic].
  - apply (decode_spec unmarshal_response (fun f => ValidateGatewayInFrame (Some f)));
      [apply in_frame_Ok | apply in_frame_no_panic].
Qed.
End decode.

(** ** A concrete frame *)

Definition sample_tunnel_header : FrameHeader :=
  mkFrameHeader 1 (replicate 16 7) [] 0 TRAFFIC_CLASS_UNSPECIFIED [].
Definition sample_ping_request : ConnectRequest :=
  mkConnectRequest (Some sample_tunnel_header) (Some (Req_Ping (Some (mkPing 300 [])))) [].
Definition sample_ping_response : ConnectResponse :=
  mkConnectResponse (Some sample_tunnel_header) (Some (Resp_Ping (Some (mkPing 300 [])))) [].
Definition sample_runtime : ProtoRuntime :=
  reference_runtime [sample_ping_request] [sample_ping_response].

Lemma encoded_frame_accepted_iff_one_header_one_payload_witness :
  @validateEncodedFrame sample_runtime (enc_request sample_ping_request) 19 = Some (Ok tt) /\
  exists fs, @wire_fields sample_runtime (enc_request sample_ping_request) fs /\
    one_header_one_payload 19 fs.
Proof.
  assert (Hrun : @validateEncodedFrame sample_runtime (enc_request sample_ping_request) 19 = Some (Ok tt))
    by (vm_compute; reflexivity).
  split; [exact Hrun|].
  destruct (@encoded_frame_accepted_iff_one_header_one_payload sample_runtime
    (reference_wire_laws _ _) (enc_request sample_ping_request) 19) as (r & Hr & _ & Hiff).
  rewrite Hrun in Hr. injection Hr as <-. apply Hiff. reflexivity.
Defined.

Lemma decoded_frames_are_wf_witness :
  @DecodeGatewayOutFrame sample_runtime (enc_request sample_ping_request) = Some (Ok sample_ping_request) /\
  @gateway_out_frame_wf sample_runtime sample_ping_request /\
  @DecodeGatewayInFrame sample_runtime (enc_response sample_ping_response) = Some (Ok sample_ping_response) /\
  @gateway_in_frame_wf sample_runtime sample_ping_response.
Proof.
  assert (Ho : @DecodeGatewayOutFrame sample_runtime (enc_request sample_ping_request) =
    Some (Ok sample_ping_request)) by (vm_compute; reflexivity).
  assert (Hi : @DecodeGatewayInFrame sample_runtime (enc_response sample_ping_response) =
    Some (Ok sample_ping_response)) by (vm_compute; reflexivity).
  destruct (@decoded_frames_are_wf sample_runtime (reference_wire_laws _ _)
    (enc_request sample_ping_request)) as [(ro & Hro & _ & Hio) _].
  destruct (@decoded_frames_are_wf sample_runtime (reference_wire_laws _ _)
    (enc_response sample_ping_response)) as [_ (ri & Hri & _ & Hii)].
  rewrite Ho in Hro. rewrite Hi in Hri. injection Hro as <-. injection Hri as <-.
  split; [exact Ho|]. split; [apply Hio; reflexivity|]. split; [exact Hi|]. apply Hii; reflexivity.
Defined.
