(* ===== verification/GatewayInErrors.v ===== *)
(** * gateway-in errors

    [services/gateway-in/internal/tunnel/errors.go], the error values of the
    context package that the tunnel compares with, and [errorResultLabel] of
    [registry.go].  An [error] that may be nil is an [option error]. *)

From S2P Require Import Prelude TunnelContract TunnelValidate.
Local Open Scope Z_scope.

Inductive error :=
| ErrNoTunnel
| ErrTunnelClosed
| ErrQueueFull
| ErrDraining
| ErrRouteNotAllowed
| ErrProtocolViolation
| ErrPeerUnauthorized
| ResultError (code : Z)
| Canceled
| DeadlineExceeded
(** [errors.New(text)] *)
| errors_New (text : string)
(** an error of the protocol package *)
| FrameError (e : frame_error)
(** [fmt.Errorf("text: %w", err)] *)
| Errorf (text : string) (e : error)
(** [errors.Join(a, b)] *)
| Joined (a b : error).

#[export] Instance error_eq_dec : EqDecision error.
Proof. solve_decision. Defined.

(** [errors.Join(a, b)] where [a] may be nil. *)
Definition errors_Join (a : option error) (b : error) : error :=
  match a with Some a => Joined a b | None => b end.

Fixpoint errors_Is (err target : error) : bool :=
  bool_decide (err = target) ||
  match err with
  | Errorf _ e => errors_Is e target
  | Joined a b => errors_Is a target || errors_Is b target
  | _ => false
  end.

(** [errors.As(err, &resultErr)] with [resultErr *ResultError] *)
Fixpoint errors_As_result (err : error) : option Z :=
  match err with
  | ResultError code => Some code
  | Errorf _ e => errors_As_result e
  | Joined a b =>
      match errors_As_result a with Some code => Some code | None => errors_As_result b end
  | _ => None
  end.

(** The code of a possibly nil [*ResultError]. *)
Definition Code (e : option Z) : Z :=
  match e with None => RESULT_CODE_INTERNAL | Some code => code end.

Definition newResultError (code : Z) : error := ResultError code.

Definition resultLabel (code : Z) : string :=
  if code =? RESULT_CODE_OK then "ok"
  else if code =? RESULT_CODE_INVALID_ARGUMENT then "invalid_argument"
  else if code =? RESULT_CODE_UNAUTHENTICATED then "unauthenticated"
  else if code =? RESULT_CODE_PERMISSION_DENIED then "permission_denied"
  else if code =? RESULT_CODE_NOT_FOUND then "not_found"
  else if code =? RESULT_CODE_CONFLICT then "conflict"
  else if code =? RESULT_CODE_RESOURCE_EXHAUSTED then "resource_exhausted"
  else if code =? RESULT_CODE_DEADLINE_EXCEEDED then "deadline_exceeded"
  else if code =? RESULT_CODE_CANCELED then "canceled"
  else if code =? RESULT_CODE_UNAVAILABLE then "unavailable"
  else "internal".

Definition errorResultLabel (err : error) : string :=
  match errors_As_result err with
  | Some code => resultLabel (Code (Some code))
  | None =>
      if errors_Is err Canceled then "canceled"
      else if errors_Is err DeadlineExceeded then "deadline_exceeded"
      else if errors_Is err ErrQueueFull then "resource_exhausted"
      else if errors_Is err ErrNoTunnel || errors_Is err ErrTunnelClosed || errors_Is err ErrDraining
      then "unavailable"
      else "internal"
  end.

Lemma errors_Is_join a b target :
  target <> Joined a b -> errors_Is (Joined a b) target = errors_Is a target || errors_Is b target.
Proof.
  intros Hne. cbn [errors_Is]. by rewrite bool_decide_eq_false_2 by congruence.
Qed.

Lemma errors_Is_refl err : errors_Is err err = true.
Proof. destruct err; cbn [errors_Is]; by rewrite bool_decide_eq_true_2. Qed.
