(* ===== verification/GatewayInConfig.v ===== *)
(** * gateway-in configuration

    [services/gateway-in/internal/tunnel/config.go] and [peer.go]: the static
    policy of a tunnel server and its validation.  Telemetry handles are not part
    of the model, [time.Now] is an argument of the operations that read it, and
    the random instance identifier is an input. *)

From S2P Require Import Prelude TunnelContract TunnelValidate TunnelValidateProofs GatewayInErrors.
Local Open Scope Z_scope.

(** ** Constants *)

Definition Minute : Z := 60 * Second.

Definition defaultDataCenter : string := "local".
Definition defaultFailbackWarmup : Z := 30 * Second.
Definition maxFailbackWarmup : Z := 10 * Minute.
Definition maxStaleAfter : Z := 5 * Minute.
Definition maxPeerIdentities : Z := 256.
Definition maxDataCenters : Z := 16.

(** ** Configuration data *)

Record QueueLimits := mkQueueLimits {
  TunnelControl : Z;
  ControlAuth : Z;
  Regular : Z;
  Realtime : Z
}.

Record RoutePolicy := mkRoutePolicy {
  TrafficClass : Z;
  MaxRequestBytes : Z;
  MaxResponseBytes : Z;
  MaxDeadline : Z;
  MaxInFlight : Z
}.

Record PeerPolicy := mkPeerPolicy {
  AllowedURIs : list string;
  DataCenterByURI : gmap string string
}.

Record Config := mkConfig {
  cfg_InstanceID : bytes;
  cfg_Peer : PeerPolicy;
  cfg_Limits : option Limits;
  cfg_Routes : gmap Z RoutePolicy;
  cfg_Capabilities : list Z;
  cfg_Queues : QueueLimits;
  cfg_MaxTunnels : Z;
  cfg_MaxTunnelsPerInstance : Z;
  cfg_MaxInFlightPerInstance : Z;
  cfg_InitialResponseCredit : Z;
  cfg_HandshakeTimeout : Z;
  cfg_PingInterval : Z;
  cfg_PongTimeout : Z;
  cfg_FailbackWarmup : Z;
  (** whether the logger is present *)
  cfg_Logger : bool
}.

Record peerAuthorizer := mkPeerAuthorizer { dataCenterByURI : gmap string string }.

Record settings := mkSettings {
  set_instanceID : bytes;
  set_peer : peerAuthorizer;
  set_limits : Limits;
  set_routes : gmap Z RoutePolicy;
  set_capabilities : gset Z;
  set_queues : QueueLimits;
  set_maxTunnels : Z;
  set_maxTunnelsPerInstance : Z;
  set_maxInFlightPerInstance : Z;
  set_initialResponseCredit : Z;
  set_handshakeTimeout : Z;
  set_pingInterval : Z;
  set_pongTimeout : Z;
  set_failbackWarmup : Z;
  set_staleAfter : Z
}.

(** ** Labels and route classes *)

Definition routeTrafficClass (route : Z) : Z :=
  if switch_in route [
      ROUTE_ID_AUTH_REGISTER_CREDENTIALS; ROUTE_ID_AUTH_LOGIN; ROUTE_ID_AUTH_REFRESH_SESSION;
      ROUTE_ID_AUTH_REVOKE_SESSION; ROUTE_ID_AUTH_SESSION_ASSERTION; ROUTE_ID_AUTH_LOGOUT_ALL;
      ROUTE_ID_AUTH_START_LOGIN_CODE_CHANGE; ROUTE_ID_AUTH_COMPLETE_LOGIN_CODE_CHANGE;
      ROUTE_ID_AUTH_CHANGE_PASSWORD; ROUTE_ID_AUTH_START_LOGIN; ROUTE_ID_AUTH_COMPLETE_LOGIN;
      ROUTE_ID_AUTH_RESEND_LOGIN_CODE; ROUTE_ID_AUTH_REQUEST_EMAIL_VERIFICATION;
      ROUTE_ID_AUTH_CONFIRM_EMAIL; ROUTE_ID_AUTH_REQUEST_PASSWORD_RESET;
      ROUTE_ID_AUTH_CONFIRM_PASSWORD_RESET; ROUTE_ID_AUTH_GET_CREDENTIALS;
      ROUTE_ID_AUTH_START_EMAIL_CHANGE; ROUTE_ID_AUTH_CONFIRM_EMAIL_CHANGE;
      ROUTE_ID_AUTH_CANCEL_EMAIL_CHANGE; ROUTE_ID_AUTH_LIST_SESSIONS;
      ROUTE_ID_AUTH_REVOKE_OWNED_SESSION; ROUTE_ID_AUTH_REQUEST_ACCOUNT_DELETION;
      ROUTE_ID_AUTH_CANCEL_ACCOUNT_DELETION]
  then TRAFFIC_CLASS_CONTROL_AUTH
  else if switch_in route [
      ROUTE_ID_USER_GET_ME; ROUTE_ID_USER_UPDATE_ME; ROUTE_ID_USER_BROWSER_GET_ME;
      ROUTE_ID_USER_BROWSER_UPDATE_ME; ROUTE_ID_USER_BROWSER_LIST_ADDRESSES;
      ROUTE_ID_USER_BROWSER_CREATE_ADDRESS; ROUTE_ID_USER_BROWSER_UPDATE_ADDRESS;
      ROUTE_ID_USER_BROWSER_DELETE_ADDRESS; ROUTE_ID_USER_BROWSER_SET_DEFAULT_ADDRESS;
      ROUTE_ID_USER_BROWSER_GET_SETTINGS; ROUTE_ID_USER_BROWSER_UPDATE_SETTINGS;
      ROUTE_ID_USER_BROWSER_GET_AVATAR; ROUTE_ID_USER_BROWSER_SET_AVATAR;
      ROUTE_ID_USER_BROWSER_CLEAR_AVATAR; ROUTE_ID_FILE_CREATE_UPLOAD;
      ROUTE_ID_FILE_COMPLETE_UPLOAD; ROUTE_ID_FILE_GET_STATUS; ROUTE_ID_FILE_CREATE_DOWNLOAD;
      ROUTE_ID_FILE_DELETE]
  then TRAFFIC_CLASS_REGULAR
  else if switch_in route [
      ROUTE_ID_REALTIME_CHAT; ROUTE_ID_REALTIME_NOTIFICATIONS]
  then TRAFFIC_CLASS_REALTIME
  else TRAFFIC_CLASS_UNSPECIFIED.

Definition routeLabel (route : Z) : string :=
  if route =? ROUTE_ID_AUTH_REGISTER_CREDENTIALS then "auth_register_credentials"
  else if route =? ROUTE_ID_AUTH_LOGIN then "auth_login"
  else if route =? ROUTE_ID_AUTH_REFRESH_SESSION then "auth_refresh_session"
  else if route =? ROUTE_ID_AUTH_REVOKE_SESSION then "auth_revoke_session"
  else if route =? ROUTE_ID_AUTH_SESSION_ASSERTION then "auth_session_assertion"
  else if route =? ROUTE_ID_AUTH_LOGOUT_ALL then "auth_logout_all"
  else if route =? ROUTE_ID_AUTH_START_LOGIN_CODE_CHANGE then "auth_start_login_code_change"
  else if route =? ROUTE_ID_AUTH_COMPLETE_LOGIN_CODE_CHANGE then "auth_complete_login_code_change"
  else if route =? ROUTE_ID_AUTH_CHANGE_PASSWORD then "auth_change_password"
  else if route =? ROUTE_ID_AUTH_START_LOGIN then "auth_start_login"
  else if route =? ROUTE_ID_AUTH_COMPLETE_LOGIN then "auth_complete_login"
  else if route =? ROUTE_ID_AUTH_RESEND_LOGIN_CODE then "auth_resend_login_code"
  else if route =? ROUTE_ID_AUTH_REQUEST_EMAIL_VERIFICATION then "auth_request_email_verification"
  else if route =? ROUTE_ID_AUTH_CONFIRM_EMAIL then "auth_confirm_email"
  else if route =? ROUTE_ID_AUTH_REQUEST_PASSWORD_RESET then "auth_request_password_reset"
  else if route =? ROUTE_ID_AUTH_CONFIRM_PASSWORD_RESET then "auth_confirm_password_reset"
  else if route =? ROUTE_ID_AUTH_GET_CREDENTIALS then "auth_get_credentials"
  else if route =? ROUTE_ID_AUTH_START_EMAIL_CHANGE then "auth_start_email_change"
  else if route =? ROUTE_ID_AUTH_CONFIRM_EMAIL_CHANGE then "auth_confirm_email_change"
  else if route =? ROUTE_ID_AUTH_CANCEL_EMAIL_CHANGE then "auth_cancel_email_change"
  else if route =? ROUTE_ID_AUTH_LIST_SESSIONS then "auth_list_sessions"
  else if route =? ROUTE_ID_AUTH_REVOKE_OWNED_SESSION then "auth_revoke_owned_session"
  else if route =? ROUTE_ID_AUTH_REQUEST_ACCOUNT_DELETION then "auth_request_account_deletion"
  else if route =? ROUTE_ID_AUTH_CANCEL_ACCOUNT_DELETION then "auth_cancel_account_deletion"
  else if route =? ROUTE_ID_USER_GET_ME then "user_get_me"
  else if route =? ROUTE_ID_USER_UPDATE_ME then "user_update_me"
  else if route =? ROUTE_ID_USER_BROWSER_GET_ME then "user_browser_get_me"
  else if route =? ROUTE_ID_USER_BROWSER_UPDATE_ME then "user_browser_update_me"
  else if route =? ROUTE_ID_USER_BROWSER_LIST_ADDRESSES then "user_browser_list_addresses"
  else if route =? ROUTE_ID_USER_BROWSER_CREATE_ADDRESS then "user_browser_create_address"
  else if route =? ROUTE_ID_USER_BROWSER_UPDATE_ADDRESS then "user_browser_update_address"
  else if route =? ROUTE_ID_USER_BROWSER_DELETE_ADDRESS then "user_browser_delete_address"
  else if route =? ROUTE_ID_USER_BROWSER_SET_DEFAULT_ADDRESS then "user_browser_set_default_address"
  else if route =? ROUTE_ID_USER_BROWSER_GET_SETTINGS then "user_browser_get_settings"
  else if route =? ROUTE_ID_USER_BROWSER_UPDATE_SETTINGS then "user_browser_update_settings"
  else if route =? ROUTE_ID_USER_BROWSER_GET_AVATAR then "user_browser_get_avatar"
  else if route =? ROUTE_ID_USER_BROWSER_SET_AVATAR then "user_browser_set_avatar"
  else if route =? ROUTE_ID_USER_BROWSER_CLEAR_AVATAR then "user_browser_clear_avatar"
  else if route =? ROUTE_ID_FILE_CREATE_UPLOAD then "file_create_upload"
  else if route =? ROUTE_ID_FILE_COMPLETE_UPLOAD then "file_complete_upload"
  else if route =? ROUTE_ID_FILE_GET_STATUS then "file_get_status"
  else if route =? ROUTE_ID_FILE_CREATE_DOWNLOAD then "file_create_download"
  else if route =? ROUTE_ID_FILE_DELETE then "file_delete"
  else if route =? ROUTE_ID_REALTIME_CHAT then "realtime_chat"
  else if route =? ROUTE_ID_REALTIME_NOTIFICATIONS then "realtime_notifications"
  else "unknown".

Definition classLabel (class : Z) : string :=
  if class =? TRAFFIC_CLASS_CONTROL_AUTH then "control_auth"
  else if class =? TRAFFIC_CLASS_REGULAR then "regular"
  else if class =? TRAFFIC_CLASS_REALTIME then "realtime"
  else "tunnel_control".

(** ** Peer policy *)

(** What the sources use of [net/url]. *)
Record URL := mkURL {
  url_Scheme : string;
  url_Host : string;
  url_User : option string;
  url_RawQuery : string;
  url_Fragment : string
}.
Definition IsAbs (u : URL) : bool := negb (bool_decide (url_Scheme u = EmptyString)).

(** A certificate of the TLS state. *)
Record Certificate := mkCertificate {
  cert_Raw : bytes;
  cert_URIs : list (option URL);
  cert_ExtKeyUsage : list Z;
  cert_NotBefore : Z;
  cert_NotAfter : Z
}.
(** [x509.ExtKeyUsageClientAuth] *)
Definition ExtKeyUsageClientAuth : Z := 2.

Record TLSState := mkTLSState {
  VerifiedChains : list (list (option Certificate));
  PeerCertificates : list (option Certificate)
}.

(** [peer.FromContext(ctx)] followed by the type assertion on [AuthInfo]. *)
Inductive transport_peer :=
| NoPeer
| NoAuthInfo
| OtherAuthInfo
| PeerTLSInfo (state : TLSState).

(** The code point tests run byte by byte: every byte of a multi-byte code point
    is outside the accepted ranges, as the code point itself is. *)
Definition validDataCenter_loop : list Ascii.ascii -> bool :=
  forallb (fun a =>
    let character := Z.of_N (Ascii.N_of_ascii a) in
    let isLower := (97 <=? character) && (character <=? 122) in
    let isDigit := (48 <=? character) && (character <=? 57) in
    negb (negb isLower && negb isDigit && negb (character =? 45))).

Definition validDataCenter (value : string) : result error bool :=
  let chars := bytes_of value in
  r ← or_else (or_else (Ok ((len chars =? 0) || (32 <? len chars)))
        (c ← index chars 0; Ok (c =? 45)))
        (c ← index chars (len chars - 1); Ok (c =? 45));
  if r : bool then Ok false else Ok (validDataCenter_loop (String.list_ascii_of_string value)).

Definition certificateAllowsClientAuth (c : Certificate) : bool :=
  existsb (Z.eqb ExtKeyUsageClientAuth) (cert_ExtKeyUsage c).

(** [url.Parse] and [URL.String] of the standard library. *)
Class UrlPackage := {
  url_Parse : string -> option URL;
  url_String : URL -> string
}.

Section peer.
Context `{UrlPackage}.

Fixpoint newPeerAuthorizer_loop (policy : PeerPolicy) (uris : list string)
    (byURI : gmap string string) (centers : gset string) :
    result error (gmap string string * gset string) :=
  match uris with
  | [] => Ok (byURI, centers)
  | identity :: uris =>
      reject_if (match url_Parse identity with
                 | None => true
                 | Some parsed =>
                     negb (IsAbs parsed) || bool_decide (url_Host parsed = EmptyString) ||
                     bool_decide (is_Some (url_User parsed)) ||
                     negb (bool_decide (url_RawQuery parsed = EmptyString)) ||
                     negb (bool_decide (url_Fragment parsed = EmptyString))
                 end)
        (errors_New "tunnel: peer uri allowlist contains an invalid identity");;
      reject_if (bool_decide (is_Some (byURI !! identity)))
        (errors_New "tunnel: peer uri allowlist contains a duplicate");;
      dataCenter ←
        (if (0 <? Z.of_nat (size (DataCenterByURI policy)))
         then match DataCenterByURI policy !! identity with
              | None => Err (errors_New "tunnel: peer uri is missing a data center")
              | Some mapped => Ok mapped
              end
         else Ok defaultDataCenter);
      valid ← validDataCenter dataCenter;
      reject_if (negb valid) (errors_New "tunnel: peer data center is invalid");;
      newPeerAuthorizer_loop policy uris (<[identity := dataCenter]> byURI) ({[dataCenter]} ∪ centers)
  end.

Definition newPeerAuthorizer (policy : PeerPolicy) : result error peerAuthorizer :=
  reject_if ((len (AllowedURIs policy) =? 0) || (maxPeerIdentities <? len (AllowedURIs policy)))
    (errors_New "tunnel: peer uri allowlist is outside bounds");;
  '(byURI, centers) ← newPeerAuthorizer_loop policy (AllowedURIs policy) ∅ ∅;
  reject_if ((0 <? Z.of_nat (size (DataCenterByURI policy))) &&
             negb (bool_decide (size (DataCenterByURI policy) = size byURI)))
    (errors_New "tunnel: peer data center map contains an unknown uri");;
  reject_if (maxDataCenters <? Z.of_nat (size centers))
    (errors_New "tunnel: peer data center count is outside bounds");;
  Ok (mkPeerAuthorizer byURI).

Definition authorize (a : peerAuthorizer) (peer : transport_peer) (now : Z) : result error string :=
  match peer with
  | NoPeer | NoAuthInfo | OtherAuthInfo => Err ErrPeerUnauthorized
  | PeerTLSInfo state =>
      r ← or_else (or_else (Ok (len (VerifiedChains state) =? 0))
            (chain ← index (VerifiedChains state) 0; Ok (len chain =? 0)))
            (Ok (len (PeerCertificates state) =? 0));
      reject_if r ErrPeerUnauthorized;;
      leaf ← index (PeerCertificates state) 0;
      match leaf with
      | None => Err ErrPeerUnauthorized
      | Some leaf =>
          reject_if (negb (len (cert_URIs leaf) =? 1)) ErrPeerUnauthorized;;
          uri ← index (cert_URIs leaf) 0;
          match uri with
          | None => Err ErrPeerUnauthorized
          | Some uri =>
              chain ← index (VerifiedChains state) 0;
              verifiedLeaf ← index chain 0;
              reject_if (match verifiedLeaf with
                         | None => true
                         | Some verifiedLeaf => negb (bytes_Equal (cert_Raw leaf) (cert_Raw verifiedLeaf))
                         end) ErrPeerUnauthorized;;
              reject_if (negb (certificateAllowsClientAuth leaf)) ErrPeerUnauthorized;;
              reject_if ((now <? cert_NotBefore leaf) || (cert_NotAfter leaf <? now))
                ErrPeerUnauthorized;;
              match dataCenterByURI a !! url_String uri with
              | None => Err ErrPeerUnauthorized
              | Some dataCenter => Ok dataCenter
              end
          end
      end
  end.
End peer.

(** ** Validation of the configuration *)

Definition validateQueueLimits (limits : QueueLimits) : result error unit :=
  let values := [TunnelControl limits; ControlAuth limits; Regular limits; Realtime limits] in
  reject_if (existsb (fun value => (value <? 2) || (MaxInFlightRequests <? value)) values)
    (errors_New "tunnel: queue depth is outside bounds").

Fixpoint validateCapabilities_loop (seen : gset Z) (values : list Z) : result error (gset Z) :=
  match values with
  | [] => Ok seen
  | capability :: values =>
      (if switch_in capability [CAPABILITY_DRAIN; CAPABILITY_REALTIME] then Ok tt
       else if capability =? CAPABILITY_SESSION_REVOCATION
       then Err (errors_New "tunnel: session revocation is not configured")
       else Err (errors_New "tunnel: capability is unknown or unspecified"));;
      reject_if (bool_decide (capability ∈ seen)) (errors_New "tunnel: capability is duplicated");;
      validateCapabilities_loop ({[capability]} ∪ seen) values
  end.

Definition validateCapabilities (values : list Z) : result error (gset Z) :=
  validateCapabilities_loop ∅ values.

(** [fmt.Errorf("tunnel: route %d ...", route)] *)
Definition route_error (route : Z) (text : string) : error :=
  errors_New ("tunnel: route " +:+ pretty route +:+ " " +:+ text).

(** The checks of one route, in the body of the loop of [validateRoutePolicies]. *)
Definition validateRoutePolicy (limits : Limits) (capabilities : gset Z) (route : Z)
    (policy : RoutePolicy) : result error unit :=
  let expectedClass := routeTrafficClass route in
  reject_if (expectedClass =? TRAFFIC_CLASS_UNSPECIFIED) (route_error route "is unknown");;
  reject_if (negb (TrafficClass policy =? expectedClass))
    (route_error route "has invalid traffic class");;
  reject_if ((MaxRequestBytes policy <=? 0) || (max_message_bytes limits <? MaxRequestBytes policy))
    (route_error route "request limit is outside bounds");;
  reject_if ((MaxResponseBytes policy <=? 0) || (max_message_bytes limits <? MaxResponseBytes policy))
    (route_error route "response limit is outside bounds");;
  reject_if (MaxDeadline policy <=? 0) (route_error route "deadline is outside bounds");;
  reject_if ((MaxInFlight policy <=? 0) || (max_in_flight_requests limits <? MaxInFlight policy))
    (route_error route "in-flight limit is outside bounds");;
  reject_if ((expectedClass =? TRAFFIC_CLASS_REALTIME) &&
             negb (bool_decide (CAPABILITY_REALTIME ∈ capabilities)))
    (route_error route "requires realtime capability").

(** Go iterates over a map in an unspecified order; the order decides only which
    of several errors is returned. *)
Fixpoint validateRoutePolicies_loop (limits : Limits) (capabilities : gset Z)
    (values : list (Z * RoutePolicy)) (result : gmap Z RoutePolicy) :
    Prelude.result error (gmap Z RoutePolicy) :=
  match values with
  | [] => Ok result
  | (route, policy) :: values =>
      validateRoutePolicy limits capabilities route policy;;
      validateRoutePolicies_loop limits capabilities values (<[route := policy]> result)
  end.

Definition validateRoutePolicies (values : gmap Z RoutePolicy) (limits : Limits)
    (capabilities : gset Z) : result error (gmap Z RoutePolicy) :=
  reject_if ((Z.of_nat (size values) =? 0) || (MaxAdvertisedRoutes <? Z.of_nat (size values)))
    (errors_New "tunnel: route policy count is outside bounds");;
  validateRoutePolicies_loop limits capabilities (map_to_list values) ∅.

(** [slices.Sort] *)
Definition slices_Sort (l : list Z) : list Z := merge_sort Z.le l.

(** [cloneLimits] of a message, through its nil-safe getters. *)
Definition cloneLimits (limits : option Limits) : Limits :=
  match limits with
  | Some l => mkLimits (max_frame_bytes l) (max_data_bytes l) (max_message_bytes l)
      (max_in_flight_requests l) (max_metadata_entries l) (max_metadata_value_bytes l)
      (max_credit_bytes l) []
  | None => mkLimits 0 0 0 0 0 0 0 []
  end.

(** The traffic classes of a route table. *)
Definition route_classes (routes : gmap Z RoutePolicy) : gset Z :=
  list_to_set (TrafficClass <$> (map_to_list routes).*2).

Section config.
Context `{ProtoRuntime, UrlPackage}.

Definition validateLocalHello (limits : Limits) (routes : gmap Z RoutePolicy)
    (capabilities : gset Z) : result error unit :=
  let routeIDs := slices_Sort (elements (dom routes)) in
  let trafficClasses := slices_Sort (elements (route_classes routes)) in
  let capabilityValues := slices_Sort (elements capabilities) in
  let frame := mkConnectResponse
    (Some (mkFrameHeader 0 (replicate (Z.to_nat TunnelIDBytes) 0) [] 0 TRAFFIC_CLASS_UNSPECIFIED []))
    (Some (Resp_Hello (Some (mkGatewayInHello protocolVersion capabilityValues trafficClasses routeIDs
      (Some (cloneLimits (Some limits))) (replicate (Z.to_nat InstanceIDBytes) 0) [])))) [] in
  map_err (fun e => Errorf "tunnel: local protocol policy is invalid" (FrameError e))
    (ValidateGatewayInFrame (Some frame)).

(** [random] is what [rand.Read] delivers: 16 bytes, or nothing on failure. *)
Definition newSettings (config : Config) (random : option bytes) : result error settings :=
  reject_if (negb (cfg_Logger config)) (errors_New "tunnel: logger must not be nil");;
  match cfg_Limits config with
  | None => Err (errors_New "tunnel: limits must not be nil")
  | Some configLimits =>
      reject_if ((cfg_MaxTunnels config <=? 0) || (MaxInFlightRequests <? cfg_MaxTunnels config))
        (errors_New "tunnel: max tunnels is outside bounds");;
      reject_if ((cfg_MaxTunnelsPerInstance config <=? 0) ||
                 (cfg_MaxTunnels config <? cfg_MaxTunnelsPerInstance config))
        (errors_New "tunnel: max tunnels per instance is outside bounds");;
      reject_if ((cfg_MaxInFlightPerInstance config <=? 0) ||
                 (MaxInFlightRequests <? cfg_MaxInFlightPerInstance config))
        (errors_New "tunnel: max in-flight per instance is outside bounds");;
      reject_if ((cfg_InitialResponseCredit config =? 0) ||
                 (max_credit_bytes configLimits <? cfg_InitialResponseCredit config))
        (errors_New "tunnel: initial response credit is outside bounds");;
      reject_if ((cfg_HandshakeTimeout config <=? 0) || (30 * Second <? cfg_HandshakeTimeout config))
        (errors_New "tunnel: handshake timeout is outside bounds");;
      reject_if ((cfg_PingInterval config <=? 0) || (cfg_PongTimeout config <=? 0) ||
                 (cfg_PingInterval config <=? cfg_PongTimeout config))
        (errors_New "tunnel: ping and pong intervals are invalid");;
      let staleAfter := i64 (cfg_PingInterval config + cfg_PongTimeout config) in
      reject_if ((staleAfter <=? cfg_PingInterval config) || (maxStaleAfter <? staleAfter))
        (errors_New "tunnel: stale timeout is outside bounds");;
      let failbackWarmup :=
        if cfg_FailbackWarmup config =? 0 then defaultFailbackWarmup else cfg_FailbackWarmup config in
      reject_if ((failbackWarmup <? 0) || (maxFailbackWarmup <? failbackWarmup))
        (errors_New "tunnel: failback warmup is outside bounds");;
      validateQueueLimits (cfg_Queues config);;
      peer ← newPeerAuthorizer (cfg_Peer config);
      let limits := cloneLimits (Some configLimits) in
      capabilities ← validateCapabilities (cfg_Capabilities config);
      routes ← validateRoutePolicies (cfg_Routes config) limits capabilities;
      validateLocalHello limits routes capabilities;;
      instanceID ←
        (if bytes_Equal (cfg_InstanceID config) (replicate (Z.to_nat InstanceIDBytes) 0)
         then match random with
              | Some id => Ok id
              | None => Err (errors_New "tunnel: generating instance id")
              end
         else Ok (cfg_InstanceID config));
      Ok (mkSettings instanceID peer limits routes capabilities (cfg_Queues config)
            (cfg_MaxTunnels config) (cfg_MaxTunnelsPerInstance config)
            (cfg_MaxInFlightPerInstance config) (cfg_InitialResponseCredit config)
            (cfg_HandshakeTimeout config) (cfg_PingInterval config) (cfg_PongTimeout config)
            failbackWarmup staleAfter)
  end.
End config.

(** ** What a validated configuration guarantees *)

Definition route_policy_wf (limits : Limits) (capabilities : gset Z) (route : Z) (p : RoutePolicy) : Prop :=
  class_of_route route (TrafficClass p) /\
  0 < MaxRequestBytes p <= max_message_bytes limits /\
  0 < MaxResponseBytes p <= max_message_bytes limits /\
  0 < MaxDeadline p /\
  0 < MaxInFlight p <= max_in_flight_requests limits /\
  (realtime_route route -> CAPABILITY_REALTIME ∈ capabilities).

Definition queue_limits_wf (q : QueueLimits) : Prop :=
  2 <= TunnelControl q <= 4096 /\ 2 <= ControlAuth q <= 4096 /\
  2 <= Regular q <= 4096 /\ 2 <= Realtime q <= 4096.

(** A data center label: 1 to 32 lower-case letters, digits and inner dashes. *)
Definition data_center_char (c : Z) : Prop := 97 <= c <= 122 \/ 48 <= c <= 57 \/ c = 45.
Definition data_center_wf (dc : string) : Prop :=
  let b := bytes_of dc in
  1 <= len b <= 32 /\ Forall data_center_char b /\ head b <> Some 45 /\ last b <> Some 45.

Definition authorizer_wf (a : peerAuthorizer) : Prop :=
  (0 < size (dataCenterByURI a) <= 256)%nat /\
  map_Forall (fun _ dc => data_center_wf dc) (dataCenterByURI a) /\
  (size (map_img (SA := gset string) (dataCenterByURI a)) <= 16)%nat.

Record settings_wf (s : settings) : Prop := {
  wf_instanceID : len (set_instanceID s) = 16;
  wf_peer : authorizer_wf (set_peer s);
  wf_limits : limits_wf (set_limits s);
  wf_limits_unknown : lim_unknown (set_limits s) = [];
  wf_routes_count : (0 < size (set_routes s) <= 64)%nat;
  wf_routes : map_Forall (route_policy_wf (set_limits s) (set_capabilities s)) (set_routes s);
  wf_capabilities : set_capabilities s ⊆ {[CAPABILITY_DRAIN; CAPABILITY_REALTIME]};
  wf_queues : queue_limits_wf (set_queues s);
  wf_tunnels : 0 < set_maxTunnelsPerInstance s <= set_maxTunnels s /\ set_maxTunnels s <= 4096;
  wf_inflight : 0 < set_maxInFlightPerInstance s <= 4096;
  wf_credit : 0 < set_initialResponseCredit s <= max_credit_bytes (set_limits s);
  wf_handshake : 0 < set_handshakeTimeout s <= 30 * Second;
  wf_ping : 0 < set_pongTimeout s < set_pingInterval s;
  wf_stale : set_staleAfter s = set_pingInterval s + set_pongTimeout s /\ set_staleAfter s <= 5 * Minute;
  wf_warmup : 0 < set_failbackWarmup s <= 10 * Minute
}.

(** The machine types of the configuration. *)
Definition config_typed (c : Config) (random : option bytes) : Prop :=
  len (cfg_InstanceID c) = 16 /\ 0 <= cfg_InitialResponseCredit c < 2 ^ 32 /\
  cfg_PingInterval c < 2 ^ 63 /\ cfg_PongTimeout c < 2 ^ 63 /\
  match random with Some id => len id = 16 | None => True end.

(** A sum of two positive machine integers that wraps is negative. *)
Lemma i64_add_grows a b : 0 < a < 2 ^ 63 -> 0 < b < 2 ^ 63 -> a < i64 (a + b) -> i64 (a + b) = a + b.
Proof.
  intros Ha Hb Hgt. destruct (Z.lt_ge_cases (a + b) (2 ^ 63)) as [Hs|Hs]; [by apply i64_small; lia|].
  assert (i64 (a + b) = a + b - 2 ^ 64) as Heq; [|lia].
  unfold i64. replace (a + b + 2 ^ 63) with ((a + b - 2 ^ 63) + 1 * 2 ^ 64) by lia.
  rewrite Z.mod_add, Z.mod_small; lia.
Qed.

Lemma gateway_in_route_class r : routeTrafficClass r = TunnelValidate.routeTrafficClass r.
Proof. reflexivity. Qed.

Lemma data_center_loop_spec l :
  validDataCenter_loop l = true <->
  Forall data_center_char ((fun a => Z.of_N (Ascii.N_of_ascii a)) <$> l).
Proof.
  unfold validDataCenter_loop. rewrite forallb_forall, Forall_fmap, Forall_forall.
  setoid_rewrite list_elem_of_In. apply forall_proper. intros a. unfold compose, data_center_char.
  apply forall_proper. intros _. lia.
Qed.

Lemma last_index {A} (l : list A) : l <> [] -> l !! Z.to_nat (len l - 1) = last l.
Proof.
  intros Hl. rewrite last_lookup. f_equal. unfold len. destruct l; [done|]. simpl length. lia.
Qed.

Lemma validDataCenter_spec dc :
  exists b, validDataCenter dc = Ok b /\ (b = true <-> data_center_wf dc).
Proof.
  unfold validDataCenter, data_center_wf. cbv zeta.
  pose proof (data_center_loop_spec (String.list_ascii_of_string dc)) as Hloop.
  change ((fun a => Z.of_N (Ascii.N_of_ascii a)) <$> String.list_ascii_of_string dc) with (bytes_of dc) in Hloop.
  remember (validDataCenter_loop (String.list_ascii_of_string dc)) as ok eqn:Hok. clear Hok.
  remember (bytes_of dc) as b eqn:Hb. clear Hb dc.
  destruct b as [|x b]; [exists false; simpl; split; [done|]; split; [done|]; rewrite len_nil; lia|].
  pose proof (len_nonneg b). assert (Hl : len (x :: b) = 1 + len b) by apply len_cons.
  destruct (32 <? len (x :: b)) eqn:H32.
  { exists false. replace (len (x :: b) =? 0) with false by lia. simpl. split; [done|]. split; [done|]. lia. }
  replace (len (x :: b) =? 0) with false by lia.
  pose proof (last_index (x :: b) ltac:(done)) as Hlast. destruct (last (x :: b)) as [y|] eqn:Hy; [|by apply last_None in Hy].
  assert (Hi : @index error Z (x :: b) (len (x :: b) - 1) = Ok y).
  { apply index_Ok; [lia|done]. }
  change (@index error Z (x :: b) 0) with (@Ok error Z x). cbn [or_else mbind result_bind orb].
  destruct (Z.eqb_spec x 45) as [->|Hx]; cbn [or_else mbind result_bind];
    [exists false; split; [done|]; split; [done|]; intros (_ & _ & Hh & _); done|].
  rewrite Hi. cbn [or_else mbind result_bind]. destruct (Z.eqb_spec y 45) as [->|Hy45]; [exists false|exists ok].
  - split; [done|]. split; [done|]. intros (_ & _ & _ & Hh). done.
  - split; [done|]. rewrite Hloop. split; [intros Hf; split_and!; [lia|lia|done|simpl; congruence|congruence]|tauto].
Qed.

Lemma authorizer_loop_spec `{UrlPackage} policy uris : forall byURI centers m c,
  newPeerAuthorizer_loop policy uris byURI centers = Ok (m, c) ->
  map_Forall (fun _ dc => data_center_wf dc) byURI -> centers = map_img byURI ->
  map_Forall (fun _ dc => data_center_wf dc) m /\ c = map_img (SA := gset string) m /\
  size m = (size byURI + length uris)%nat.
Proof.
  induction uris as [|u uris IH]; intros byURI centers m c Hrun Hwf ->; cbn [newPeerAuthorizer_loop] in Hrun.
  { simplify_eq. split_and!; [done|done|simpl; lia]. }
  go_inv Hrun. go_bool. subst x0.
  destruct (validDataCenter_spec x) as (b & Hb & Hspec). rewrite Hb in Hc0.
  apply Ok_eq, Hspec in Hc0. assert (byURI !! u = None) as Hu by (by apply eq_None_not_Some).
  apply IH in Hrun as (? & -> & ->).
  - split_and!; [done|done|]. rewrite map_size_insert_None by done. simpl. lia.
  - by apply map_Forall_insert_2.
  - by rewrite map_img_insert_notin_L.
Qed.

Lemma newPeerAuthorizer_wf `{UrlPackage} policy a : newPeerAuthorizer policy = Ok a -> authorizer_wf a.
Proof.
  unfold newPeerAuthorizer. intros Hrun. go_inv Hrun. destruct x as [m c]. cbv beta iota in Hrun.
  go_inv Hrun. simplify_eq. apply authorizer_loop_spec in Hc as (? & -> & Hsize); [|done|by rewrite map_img_empty_L].
  rewrite map_size_empty in Hsize. unfold maxPeerIdentities, maxDataCenters, len in *. go_bool.
  unfold authorizer_wf. simpl. split_and!; [lia|lia|done|lia].
Qed.

Lemma validateCapabilities_wf values : forall seen caps,
  validateCapabilities_loop seen values = Ok caps ->
  seen ⊆ {[CAPABILITY_DRAIN; CAPABILITY_REALTIME]} ->
  caps ⊆ {[CAPABILITY_DRAIN; CAPABILITY_REALTIME]}.
Proof.
  induction values as [|v values IH]; intros seen caps Hrun Hseen; cbn [validateCapabilities_loop] in Hrun.
  { by simplify_eq. }
  destruct (switch_in v _) eqn:Hv.
  - go_inv Hrun. apply IH in Hrun; [done|]. apply switch_in_true in Hv. set_solver.
  - by destruct (v =? CAPABILITY_SESSION_REVOCATION).
Qed.

Lemma realtime_class r c : class_of_route r c -> (c = TRAFFIC_CLASS_REALTIME <-> realtime_route r).
Proof.
  unfold class_of_route, control_route, regular_route, realtime_route, TRAFFIC_CLASS_REALTIME. lia.
Qed.

Lemma validateRoutePolicy_wf limits caps route p :
  validateRoutePolicy limits caps route p = Ok tt <-> route_policy_wf limits caps route p.
Proof.
  unfold validateRoutePolicy, route_policy_wf. cbv zeta. rewrite !guard_Ok, reject_if_Ok.
  rewrite gateway_in_route_class, <- Logic.and_assoc.
  assert (((TunnelValidate.routeTrafficClass route =? TRAFFIC_CLASS_UNSPECIFIED) = false /\
    negb (TrafficClass p =? TunnelValidate.routeTrafficClass route) = false) <->
    class_of_route route (TrafficClass p)) as ->.
  { rewrite routeTrafficClass_spec, Z.eqb_neq, negb_false_iff, Z.eqb_eq.
    unfold TRAFFIC_CLASS_UNSPECIFIED. intuition congruence. }
  apply and_iff_compat_l'. intros Hc. rewrite <- (realtime_class _ _ Hc).
  apply routeTrafficClass_spec in Hc as [-> _].
  destruct (Z.eqb_spec (TrafficClass p) TRAFFIC_CLASS_REALTIME) as [Hr|Hr]; simpl;
    [rewrite negb_false_iff, bool_decide_eq_true|]; intuition lia.
Qed.

Lemma validateRoutePolicies_loop_wf limits caps values : forall acc r,
  validateRoutePolicies_loop limits caps values acc = Ok r ->
  map_Forall (route_policy_wf limits caps) acc ->
  NoDup values.*1 -> (forall k, k ∈ values.*1 -> acc !! k = None) ->
  map_Forall (route_policy_wf limits caps) r /\ size r = (size acc + length values)%nat.
Proof.
  induction values as [|[k p] values IH]; intros acc r Hrun Hacc Hnd Hfresh; simpl in *; [simplify_eq; split; [done|lia]|].
  apply NoDup_cons in Hnd as [Hk Hnd]. go_inv Hrun. destruct x. apply validateRoutePolicy_wf in Hc.
  apply IH in Hrun as [? ->].
  - split; [done|]. rewrite map_size_insert_None by (apply Hfresh; set_solver). lia.
  - by apply map_Forall_insert_2.
  - done.
  - intros k' Hk'. rewrite lookup_insert_ne by set_solver. apply Hfresh. set_solver.
Qed.

Lemma validateRoutePolicies_wf values limits caps r :
  validateRoutePolicies values limits caps = Ok r ->
  (0 < size r <= 64)%nat /\ map_Forall (route_policy_wf limits caps) r.
Proof.
  unfold validateRoutePolicies. intros Hrun. go_inv Hrun.
  apply validateRoutePolicies_loop_wf in Hrun as [? Hsize];
    [|done|apply NoDup_fst_map_to_list|intros; apply lookup_empty].
  rewrite map_size_empty, length_map_to_list in Hsize. unfold MaxAdvertisedRoutes in *. go_bool.
  split; [lia|done].
Qed.

Lemma index_0_cons {E A} (x : A) l : @index E A (x :: l) 0 = Ok x.
Proof. done. Qed.

Lemma index_0_Ok {E A} (l : list A) x : @index E A l 0 = Ok x -> exists l', l = x :: l'.
Proof. destruct l; [done|]. rewrite index_0_cons. intros [= ->]. eauto. Qed.

Section config_proofs.
Context `{ProtoRuntime, UrlPackage}.

Lemma validateLocalHello_wf limits routes caps :
  validateLocalHello limits routes caps = Ok tt -> limits_wf (cloneLimits (Some limits)).
Proof.
  unfold validateLocalHello. intros Hrun%map_err_Ok%in_frame_Ok.
  destruct Hrun as (_ & h & p & Hh & [= <-] & Hp). inversion Hp as [m Hhdr Hm | | | | | | | |]; subst.
  destruct Hm as (_ & _ & _ & _ & _ & _ & _ & _ & l & [= <-] & Hl). done.
Qed.

Lemma newSettings_wf config random s :
  config_typed config random -> newSettings config random = Ok s -> settings_wf s.
Proof.
  intros (Hid & Hcredit & Hping & Hpong & Hrandom) Hrun. unfold newSettings in Hrun.
  apply guard_Ok in Hrun as [_ Hrun]. destruct (cfg_Limits config) as [cl|]; [|done]. cbv zeta in Hrun.
  go_inv Hrun. destruct x, x3. simplify_eq. go_bool.
  apply newPeerAuthorizer_wf in Hc0. apply validateCapabilities_wf in Hc1; [|set_solver].
  apply validateRoutePolicies_wf in Hc2 as [Hcount Hroutes].
  apply validateLocalHello_wf in Hc3. unfold validateQueueLimits in Hc. go_inv Hc.
  cbn [existsb] in Hc. go_bool. unfold MaxInFlightRequests, maxStaleAfter, maxFailbackWarmup in *.
  assert (Hstale : i64 (cfg_PingInterval config + cfg_PongTimeout config) =
    cfg_PingInterval config + cfg_PongTimeout config) by (apply i64_add_grows; lia).
  split; simpl; try done; try lia.
  - destruct (bytes_Equal _ _); [destruct random|]; by simplify_eq.
  - destruct (Z.eqb_spec (cfg_FailbackWarmup config) 0); [unfold defaultFailbackWarmup, Minute, Second; lia|lia].
Qed.

(** The peers the authorizer admits. *)
Definition peer_admitted (a : peerAuthorizer) (peer : transport_peer) (now : Z) (dc : string) : Prop :=
  exists leaf uri verified certs chain chains,
    peer = PeerTLSInfo (mkTLSState ((Some verified :: chain) :: chains) (Some leaf :: certs)) /\
    cert_Raw leaf = cert_Raw verified /\ cert_URIs leaf = [Some uri] /\
    ExtKeyUsageClientAuth ∈ cert_ExtKeyUsage leaf /\
    cert_NotBefore leaf <= now <= cert_NotAfter leaf /\
    dataCenterByURI a !! url_String uri = Some dc.

Lemma client_auth_spec c : certificateAllowsClientAuth c = true <-> ExtKeyUsageClientAuth ∈ cert_ExtKeyUsage c.
Proof. apply switch_in_true. Qed.

Lemma singleton_len {A} (l : list A) : len l = 1 -> exists x, l = [x].
Proof. unfold len. destruct l as [|x [|y l]]; simpl; [lia|eauto|lia]. Qed.

Lemma authorize_sound a peer now dc : authorize a peer now = Ok dc -> peer_admitted a peer now dc.
Proof.
  destruct peer as [| | |[chains certs]]; [done..|]. unfold authorize. cbn [VerifiedChains PeerCertificates].
  intros Hrun. apply bind_Ok in Hrun as (b & _ & Hrun). apply guard_Ok in Hrun as [_ Hrun].
  apply bind_Ok in Hrun as (leaf & [certs' ->]%index_0_Ok & Hrun). destruct leaf as [leaf|]; [|done].
  apply guard_Ok in Hrun as [Hlen Hrun]. apply bind_Ok in Hrun as (uri & [uris Hu]%index_0_Ok & Hrun).
  destruct uri as [uri|]; [|done]. rewrite Hu, len_cons in Hlen.
  apply bind_Ok in Hrun as (chain & [chains' ->]%index_0_Ok & Hrun).
  apply bind_Ok in Hrun as (v & [chain' ->]%index_0_Ok & Hrun).
  apply guard_Ok in Hrun as [Hv Hrun]. destruct v as [v|]; [|done].
  apply guard_Ok in Hrun as [Hca Hrun]. apply guard_Ok in Hrun as [Ht Hrun].
  unfold bytes_Equal in Hv. go_bool. pose proof (len_nonneg uris).
  assert (uris = []) as -> by (apply len_zero_nil; lia).
  destruct (dataCenterByURI a !! url_String uri) eqn:Hd; simplify_eq.
  exists leaf, uri, v, certs', chain', chains'. split_and!; try done. by apply client_auth_spec.
Qed.

Lemma authorize_complete a peer now dc : peer_admitted a peer now dc -> authorize a peer now = Ok dc.
Proof.
  intros (leaf & uri & v & certs & chain & chains & -> & Hraw & Hu & Hca & Ht & Hd).
  unfold authorize. cbn [VerifiedChains PeerCertificates]. rewrite !index_0_cons.
  change (len ((Some v :: chain) :: chains) =? 0) with false. change (len (Some leaf :: certs) =? 0) with false.
  cbn [or_else mbind result_bind]. change (len (Some v :: chain) =? 0) with false.
  cbn [or_else mbind result_bind reject_if]. rewrite Hu. change (negb (len [Some uri] =? 1)) with false.
  rewrite index_0_cons. cbn [mbind result_bind reject_if]. rewrite index_0_cons.
  cbn [mbind result_bind]. unfold bytes_Equal. rewrite bool_decide_eq_true_2 by done.
  apply client_auth_spec in Hca. rewrite Hca. cbn [negb mbind result_bind reject_if].
  replace ((now <? cert_NotBefore leaf) || (cert_NotAfter leaf <? now)) with false by lia.
  cbn [mbind result_bind reject_if]. by rewrite Hd.
Qed.

Lemma authorize_no_panic a peer now : authorize a peer now <> Panic.
Proof.
  destruct peer as [| | |[chains certs]]; [done..|]. unfold authorize. cbn [VerifiedChains PeerCertificates].
  destruct chains as [|[|v chain] chains]; [done..|]. destruct certs as [|leaf certs]; [done|].
  rewrite !index_0_cons. change (len ((v :: chain) :: chains) =? 0) with false.
  change (len (leaf :: certs) =? 0) with false. cbn [or_else mbind result_bind].
  change (len (v :: chain) =? 0) with false. cbn [or_else mbind result_bind reject_if].
  destruct leaf as [leaf|]; [|done].
  destruct (Z.eqb_spec (len (cert_URIs leaf)) 1) as [Hl|]; [|done].
  apply singleton_len in Hl as [[u|] ->]; [|done]. cbn [negb reject_if mbind result_bind].
  rewrite !index_0_cons. cbn [mbind result_bind]. no_panic. by case_match.
Qed.
End config_proofs.
