(* ===== verification/GatewayInNegotiation.v ===== *)
(** * Handshake negotiation of gateway-in

    [negotiate], [negotiation.hello] and [minimumLimits] of
    [services/gateway-in/internal/tunnel/server.go]: the intersection of the
    local policy with the policy a gateway-out instance advertises. *)

From S2P Require Import Prelude TunnelContract TunnelRuntime TunnelValidate TunnelValidateProofs.
From S2P Require Import GatewayInErrors GatewayInConfig.
Local Open Scope Z_scope.

Record negotiation := mkNegotiation {
  neg_limits : Limits;
  neg_routes : gset Z;
  neg_classes : gset Z;
  neg_capabilities : gset Z
}.

(** Nil-safe getters of [Limits]. *)
Definition limits_of (l : option Limits) : Limits := default (mkLimits 0 0 0 0 0 0 0 []) l.

Definition minimumLimits (local peer : option Limits) : Limits :=
  let local := limits_of local in
  let peer := limits_of peer in
  mkLimits (max_frame_bytes local `min` max_frame_bytes peer)
    (max_data_bytes local `min` max_data_bytes peer)
    (max_message_bytes local `min` max_message_bytes peer)
    (max_in_flight_requests local `min` max_in_flight_requests peer)
    (max_metadata_entries local `min` max_metadata_entries peer)
    (max_metadata_value_bytes local `min` max_metadata_value_bytes peer)
    (max_credit_bytes local `min` max_credit_bytes peer) [].

Definition negotiatedCapability (capabilities : gset Z) (capability : Z) : bool :=
  bool_decide (capability ∈ capabilities).

(** The loop over [settings.routes]; it accumulates routes and classes. *)
Fixpoint negotiate_routes (peerRoutes peerClasses capabilities : gset Z)
    (policies : list (Z * RoutePolicy)) (routes classes : gset Z) : gset Z * gset Z :=
  match policies with
  | [] => (routes, classes)
  | (route, policy) :: policies =>
      let continue := negotiate_routes peerRoutes peerClasses capabilities policies in
      if negb (bool_decide (route ∈ peerRoutes)) then continue routes classes
      else if negb (bool_decide (TrafficClass policy ∈ peerClasses)) then continue routes classes
      else if (TrafficClass policy =? TRAFFIC_CLASS_REALTIME) &&
              negb (negotiatedCapability capabilities CAPABILITY_REALTIME)
      then continue routes classes
      else continue ({[route]} ∪ routes) ({[TrafficClass policy]} ∪ classes)
  end.

Definition negotiate (s : settings) (hello : GatewayOutHello) : result error negotiation :=
  let peerCapabilities : gset Z := list_to_set (goh_capabilities hello) in
  let capabilities := set_capabilities s ∩ peerCapabilities in
  let peerClasses : gset Z := list_to_set (goh_traffic_classes hello) in
  let peerRoutes : gset Z := list_to_set (goh_route_ids hello) in
  let '(routes, classes) :=
    negotiate_routes peerRoutes peerClasses capabilities (map_to_list (set_routes s)) ∅ ∅ in
  reject_if ((Z.of_nat (size routes) =? 0) || (Z.of_nat (size classes) =? 0)) ErrRouteNotAllowed;;
  Ok (mkNegotiation (minimumLimits (Some (set_limits s)) (goh_limits hello)) routes classes capabilities).

Definition hello (n : negotiation) (tunnelID instanceID : bytes) : ConnectResponse :=
  let routes := slices_Sort (elements (neg_routes n)) in
  let classes := slices_Sort (elements (neg_classes n)) in
  let capabilities := slices_Sort (elements (neg_capabilities n)) in
  mkConnectResponse
    (Some (mkFrameHeader 0 tunnelID [] 0 TRAFFIC_CLASS_UNSPECIFIED []))
    (Some (Resp_Hello (Some (mkGatewayInHello protocolVersion capabilities classes routes
      (Some (cloneLimits (Some (neg_limits n)))) instanceID [])))) [].

(** ** What is negotiated *)

(** A route both sides serve. *)
Definition route_admitted (s : settings) (peer : GatewayOutHello) (route class : Z) : Prop :=
  (exists p, set_routes s !! route = Some p /\ TrafficClass p = class) /\
  route ∈ goh_route_ids peer /\ class ∈ goh_traffic_classes peer /\
  (class = TRAFFIC_CLASS_REALTIME ->
   CAPABILITY_REALTIME ∈ set_capabilities s /\ CAPABILITY_REALTIME ∈ goh_capabilities peer).

Definition limits_le (a b : Limits) : Prop :=
  max_frame_bytes a <= max_frame_bytes b /\ max_data_bytes a <= max_data_bytes b /\
  max_message_bytes a <= max_message_bytes b /\
  max_in_flight_requests a <= max_in_flight_requests b /\
  max_metadata_entries a <= max_metadata_entries b /\
  max_metadata_value_bytes a <= max_metadata_value_bytes b /\
  max_credit_bytes a <= max_credit_bytes b.

(** The routes the loop keeps. *)
Definition keeps (peerRoutes peerClasses capabilities : gset Z) (rp : Z * RoutePolicy) : Prop :=
  rp.1 ∈ peerRoutes /\ TrafficClass rp.2 ∈ peerClasses /\
  (TrafficClass rp.2 = TRAFFIC_CLASS_REALTIME -> CAPABILITY_REALTIME ∈ capabilities).

#[export] Instance keeps_dec pr pc caps rp : Decision (keeps pr pc caps rp).
Proof. unfold keeps. solve_decision. Defined.

Lemma negotiate_routes_filter pr pc caps policies : forall routes classes,
  let kept := filter (keeps pr pc caps) policies in
  negotiate_routes pr pc caps policies routes classes =
  (list_to_set kept.*1 ∪ routes, list_to_set (TrafficClass <$> kept.*2) ∪ classes).
Proof.
  induction policies as [|[r p] policies IH]; intros routes classes kept; subst kept; cbn [negotiate_routes].
  { f_equal; set_solver. }
  rewrite filter_cons. destruct (decide (keeps pr pc caps (r, p))) as [Hk|Hk]; unfold keeps in Hk; simpl in Hk.
  - destruct Hk as (? & ? & Hc). unfold negotiatedCapability. rewrite !(bool_decide_eq_true_2 (_ ∈ _)) by done.
    replace ((TrafficClass p =? TRAFFIC_CLASS_REALTIME) && negb (bool_decide (CAPABILITY_REALTIME ∈ caps)))
      with false.
    + simpl. rewrite IH. f_equal; simpl; set_solver +.
    + destruct (Z.eqb_spec (TrafficClass p) TRAFFIC_CLASS_REALTIME); [|done].
      by rewrite bool_decide_eq_true_2 by auto.
  - rewrite <- IH. unfold negotiatedCapability. repeat case_bool_decide; simpl; try done.
    + destruct (Z.eqb_spec (TrafficClass p) TRAFFIC_CLASS_REALTIME); simpl; tauto.
    + destruct (Z.eqb_spec (TrafficClass p) TRAFFIC_CLASS_REALTIME); simpl; tauto.
Qed.

Section negotiation_proofs.
Context (s : settings) (peer : GatewayOutHello).

Let caps : gset Z := set_capabilities s ∩ list_to_set (goh_capabilities peer).
Let kept : list (Z * RoutePolicy) :=
  filter (keeps (list_to_set (goh_route_ids peer)) (list_to_set (goh_traffic_classes peer)) caps)
    (map_to_list (set_routes s)).

Lemma kept_admitted r p :
  (r, p) ∈ kept <-> set_routes s !! r = Some p /\ route_admitted s peer r (TrafficClass p).
Proof.
  unfold kept, route_admitted. rewrite list_elem_of_filter, elem_of_map_to_list. unfold keeps, caps. simpl.
  rewrite elem_of_intersection, !elem_of_list_to_set. split; [intuition eauto|tauto].
Qed.

Lemma negotiate_unfold :
  negotiate s peer =
  if bool_decide (kept = []) then Err ErrRouteNotAllowed else
  Ok (mkNegotiation (minimumLimits (Some (set_limits s)) (goh_limits peer))
        (list_to_set kept.*1) (list_to_set (TrafficClass <$> kept.*2)) caps).
Proof.
  unfold negotiate. rewrite negotiate_routes_filter. fold caps. fold kept.
  rewrite !(right_id_L ∅ (∪)). case_bool_decide as Hk; [by rewrite Hk|].
  destruct kept as [|[r p] k]; [done|]. simpl fmap. simpl list_to_set.
  assert (forall (x : Z) (X : gset Z), (Z.of_nat (size ({[x]} ∪ X)) =? 0) = false) as Hs.
  { intros x X. apply Z.eqb_neq. intros Hz. assert (size ({[x]} ∪ X) = 0)%nat as Hz' by lia.
    apply size_empty_iff in Hz'. set_solver. }
  by rewrite !Hs.
Qed.

Lemma negotiate_cases :
  (negotiate s peer = Err ErrRouteNotAllowed /\ forall r c, ~ route_admitted s peer r c) \/
  exists n, negotiate s peer = Ok n /\
    neg_routes n <> ∅ /\
    (forall r, r ∈ neg_routes n <-> exists c, route_admitted s peer r c) /\
    (forall c, c ∈ neg_classes n <-> exists r, route_admitted s peer r c) /\
    (forall c, c ∈ neg_capabilities n <-> c ∈ set_capabilities s /\ c ∈ goh_capabilities peer) /\
    neg_limits n = minimumLimits (Some (set_limits s)) (goh_limits peer).
Proof.
  rewrite negotiate_unfold. case_bool_decide as Hk; [left|right].
  - split; [done|]. intros r c [(p & Hp & <-) Ha].
    assert ((r, p) ∈ kept) as Hin by (apply kept_admitted; unfold route_admitted; eauto).
    rewrite Hk in Hin. set_solver.
  - eexists. split; [done|]. simpl. split_and!; [|intros r|intros c|intros c|done].
    + destruct kept as [|[r p] k]; [done|]. simpl. set_solver.
    + rewrite elem_of_list_to_set, list_elem_of_fmap. split.
      * intros ([r' p] & -> & [_ Ha]%kept_admitted). eauto.
      * intros [c Ha]. pose proof Ha as [(p & Hp & <-) _]. exists (r, p). split; [done|]. by apply kept_admitted.
    + rewrite elem_of_list_to_set, list_elem_of_fmap. setoid_rewrite list_elem_of_fmap. split.
      * intros (p & -> & [r p'] & -> & [_ Ha]%kept_admitted). eauto.
      * intros [r Ha]. pose proof Ha as [(p & Hp & <-) _]. exists p. split; [done|]. exists (r, p).
        split; [done|]. by apply kept_admitted.
    + unfold caps. by rewrite elem_of_intersection, elem_of_list_to_set.
Qed.
End negotiation_proofs.

(** ** The negotiated Hello *)

Lemma min_le (a b c : Z) : a <= c -> a `min` b <= c.
Proof. lia. Qed.
Lemma min_ne (a b c : Z) : a <> c -> b <> c -> a `min` b <> c.
Proof. lia. Qed.
Lemma min_lt (a b c d : Z) : a < c -> b < d -> a `min` b < c `min` d.
Proof. lia. Qed.
Lemma min_mono (a b c d : Z) : a <= c -> b <= d -> a `min` b <= c `min` d.
Proof. lia. Qed.

Lemma minimum_limits_wf a b : limits_wf a -> limits_wf b -> limits_wf (minimumLimits (Some a) (Some b)).
Proof.
  intros (?&?&?&?&?&[? ?]&?&?&?&?&?&?&?&?) (?&?&?&?&?&[? ?]&?&?&?&?&?&?&?&?).
  unfold limits_wf, minimumLimits, limits_of. cbn [default from_option id max_frame_bytes max_data_bytes
    max_message_bytes max_in_flight_requests max_metadata_entries max_metadata_value_bytes max_credit_bytes].
  split_and!; eauto using min_le, min_ne, min_lt, min_mono.
Qed.

Lemma minimum_limits_le a b :
  limits_le (minimumLimits (Some a) (Some b)) a /\ limits_le (minimumLimits (Some a) (Some b)) b.
Proof. unfold limits_le, minimumLimits, limits_of. simpl. repeat split; lia. Qed.

Lemma cloneLimits_wf l : limits_wf l -> limits_wf (cloneLimits (Some l)).
Proof. done. Qed.

Lemma sorted_elements_spec (X : gset Z) :
  NoDup (slices_Sort (elements X)) /\ (forall x, x ∈ slices_Sort (elements X) <-> x ∈ X) /\
  len (slices_Sort (elements X)) = Z.of_nat (size X).
Proof.
  unfold slices_Sort. pose proof (merge_sort_Permutation Z.le (elements X)) as Hp.
  split_and!; [rewrite Hp; apply NoDup_elements|intros x; rewrite Hp; apply elem_of_elements|].
  unfold len. by rewrite Hp.
Qed.

Lemma vocabulary_sorted declared (X : gset Z) :
  (forall x, x ∈ X -> declared x) -> vocabulary_list declared (slices_Sort (elements X)).
Proof.
  intros HX. destruct (sorted_elements_spec X) as (Hnd & Hin & _). split; [done|].
  apply Forall_forall. intros x Hx%Hin. auto.
Qed.

Lemma sorted_nonempty (X : gset Z) : X <> ∅ -> slices_Sort (elements X) <> [].
Proof.
  intros HX Hs. destruct (sorted_elements_spec X) as (_ & Hin & _).
  apply HX. apply set_eq. intros x. rewrite <- Hin, Hs. set_solver.
Qed.

Lemma settings_route_class s r c peer : settings_wf s -> route_admitted s peer r c -> class_of_route r c.
Proof. intros Hs [(p & Hp & <-) _]. by apply (wf_routes _ Hs) in Hp as [? _]. Qed.

Lemma class_of_route_declared r c : class_of_route r c -> declared_route r /\ declared_class c.
Proof.
  unfold class_of_route, declared_route, declared_class. intros [[? ->]|[[? ->]|[? ->]]]; (split; [tauto|lia]).
Qed.

Lemma negotiated_policy_wf s peer n :
  settings_wf s -> out_hello_wf peer -> negotiate s peer = Ok n ->
  policy_wf (slices_Sort (elements (neg_capabilities n))) (slices_Sort (elements (neg_classes n)))
    (slices_Sort (elements (neg_routes n))) (Some (cloneLimits (Some (neg_limits n)))).
Proof.
  intros Hs (_ & _ & [Hcd Hcf] & _ & _ & _ & Hlen & [Hrd _] & pl & Hpl & Hlim) Hn.
  destruct (negotiate_cases s peer) as [[He _]|(n' & He & Hne & Hr & Hc & Hcap & Hl)]; [congruence|].
  assert (n' = n) as -> by congruence. unfold policy_wf. split_and!.
  - apply vocabulary_sorted. intros c [_ Hin]%Hcap. by eapply Forall_forall in Hcf.
  - apply sorted_nonempty. intros Hempty. apply Hne, set_eq. intros r. rewrite Hr.
    split; [|set_solver]. intros [c Ha]. assert (c ∈ neg_classes n) by (apply Hc; eauto). set_solver.
  - apply vocabulary_sorted. intros c [r Ha]%Hc. by eapply class_of_route_declared, settings_route_class.
  - by apply sorted_nonempty.
  - destruct (sorted_elements_spec (neg_routes n)) as (_ & _ & ->).
    assert (neg_routes n ⊆ list_to_set (goh_route_ids peer)) as Hsub%subseteq_size.
    { intros r [c (_ & Hin & _)]%Hr. by apply elem_of_list_to_set. }
    rewrite size_list_to_set in Hsub by done. unfold len in Hlen. lia.
  - apply vocabulary_sorted. intros r [c Ha]%Hr. by eapply class_of_route_declared, settings_route_class.
  - eexists. split; [done|]. rewrite Hl, Hpl. apply cloneLimits_wf, minimum_limits_wf; [apply Hs|done].
Qed.

Lemma negotiated_hello_wf `{ProtoRuntime} s peer n tunnelID :
  settings_wf s -> out_hello_wf peer -> negotiate s peer = Ok n -> len tunnelID = 16 ->
  gateway_in_frame_wf (hello n tunnelID (set_instanceID s)).
Proof.
  intros Hs Hp Hn Ht. split; [repeat constructor|].
  eexists _, _. split_and!; [done|done|]. constructor; [done|].
  split_and!; [apply Hs|done|by eapply negotiated_policy_wf].
Qed.

(** ** A concrete policy *)

Definition sample_limits : Limits := mkLimits 65536 16384 1048576 64 16 4096 65536 [].
Definition sample_policies : gmap Z RoutePolicy :=
  <[ROUTE_ID_AUTH_LOGIN := mkRoutePolicy TRAFFIC_CLASS_CONTROL_AUTH 4096 8192 (5 * Second) 8]>
  (<[ROUTE_ID_USER_GET_ME := mkRoutePolicy TRAFFIC_CLASS_REGULAR 4096 65536 (5 * Second) 8]> ∅).
Definition sample_config : Config :=
  mkConfig (replicate 16 1) (mkPeerPolicy ["spiffe://mesh/gateway-out"] ∅) (Some sample_limits)
    sample_policies [CAPABILITY_DRAIN] (mkQueueLimits 4 4 4 4) 4 2 16 32768 (5 * Second)
    (20 * Second) (10 * Second) 0 true.

(** A stand-in for [net/url] that knows one identity. *)
Definition sample_url : UrlPackage := {|
  url_Parse := fun text => Some (mkURL "spiffe" text None EmptyString EmptyString);
  url_String := url_Host
|}.

Definition sample_peer_hello : GatewayOutHello :=
  mkGatewayOutHello (replicate 16 2) [1] [CAPABILITY_DRAIN; CAPABILITY_REALTIME]
    [TRAFFIC_CLASS_CONTROL_AUTH; TRAFFIC_CLASS_REALTIME]
    [ROUTE_ID_AUTH_LOGIN; ROUTE_ID_USER_GET_ME; ROUTE_ID_REALTIME_CHAT]
    (Some (mkLimits 32768 8192 524288 32 8 2048 65536 [])) [].

Definition sample_settings : settings :=
  mkSettings (replicate 16 1) (mkPeerAuthorizer (<["spiffe://mesh/gateway-out" := "local"]> ∅))
    sample_limits sample_policies {[CAPABILITY_DRAIN]} (mkQueueLimits 4 4 4 4) 4 2 16 32768
    (5 * Second) (20 * Second) (10 * Second) (30 * Second) (30 * Second).

Lemma sample_settings_run `{ProtoRuntime} :
  @newSettings _ sample_url sample_config None = Ok sample_settings.
Proof. vm_compute. reflexivity. Qed.

Lemma sample_settings_wf `{ProtoRuntime} : settings_wf sample_settings.
Proof.
  eapply (@newSettings_wf _ sample_url sample_config None); [|apply sample_settings_run].
  unfold config_typed. vm_compute. intuition congruence.
Qed.

Lemma sample_peer_hello_wf : out_hello_wf sample_peer_hello.
Proof.
  unfold out_hello_wf, policy_wf, limits_wf, vocabulary_list, sample_peer_hello. simpl.
  split_and!; try done; try (apply (bool_decide_unpack _); vm_compute; exact I); try lia.
  all: try (repeat constructor; unfold declared_capability, declared_class, declared_route, control_route,
    regular_route, realtime_route, CAPABILITY_DRAIN, CAPABILITY_REALTIME, TRAFFIC_CLASS_CONTROL_AUTH,
    TRAFFIC_CLASS_REALTIME, ROUTE_ID_AUTH_LOGIN, ROUTE_ID_USER_GET_ME, ROUTE_ID_REALTIME_CHAT; lia).
  eexists. split; [done|]. simpl. lia.
Qed.

(** ** Properties *)

(** C40. A tunnel server is only ever built with a consistent policy: a
    configuration that [newSettings] accepts has limits within the protocol
    bounds, between 1 and 64 routes each with its declared class and limits
    inside the message and concurrency limits, realtime routes only with the
    realtime capability, no session-revocation capability, lanes of depth 2 to
    4096, an allowlist of valid data centers, and a stale timeout that is the
    exact sum of the ping interval and the pong timeout (no wrap-around). *)
Theorem validated_settings_are_wf `{ProtoRuntime, UrlPackage} (config : Config) (random : option bytes)
    (s : settings) :
  config_typed config random -> newSettings config random = Ok s -> settings_wf s.
Proof. apply newSettings_wf. Qed.

Lemma validated_settings_are_wf_witness : settings_wf sample_settings.
Proof.
  apply (@validated_settings_are_wf (reference_runtime [] []) sample_url sample_config None).
  - unfold config_typed. split; [reflexivity|]. vm_compute. intuition congruence.
  - vm_compute. reflexivity.
Defined.

(** Peer authorization never panics and admits a transport peer exactly when
    its TLS state has a verified chain, the presented leaf is the verified leaf,
    the leaf has a single URI name, allows client authentication and is within
    its validity period, and the URI is in the allowlist, whose data center is
    returned. *)
Theorem peer_authorization_exact `{UrlPackage} (a : peerAuthorizer) (peer : transport_peer) (now : Z) :
  authorize a peer now <> Panic /\
  forall dc, authorize a peer now = Ok dc <-> peer_admitted a peer now dc.
Proof.
  split; [apply authorize_no_panic|]. intros dc. split; [apply authorize_sound|apply authorize_complete].
Qed.

(** Negotiation is the intersection of both policies: it fails with
    ErrRouteNotAllowed when no route is admitted by both sides, and otherwise
    yields exactly the admitted routes, exactly their traffic classes, the
    common capabilities and the pointwise minimum of the limits. *)
Theorem negotiation_is_the_intersection (s : settings) (peer : GatewayOutHello) :
  (negotiate s peer = Err ErrRouteNotAllowed /\ forall r c, ~ route_admitted s peer r c) \/
  exists n, negotiate s peer = Ok n /\
    neg_routes n <> ∅ /\
    (forall r, r ∈ neg_routes n <-> exists c, route_admitted s peer r c) /\
    (forall c, c ∈ neg_classes n <-> exists r, route_admitted s peer r c) /\
    (forall c, c ∈ neg_capabilities n <-> c ∈ set_capabilities s /\ c ∈ goh_capabilities peer) /\
    neg_limits n = minimumLimits (Some (set_limits s)) (goh_limits peer).
Proof. apply negotiate_cases. Qed.

(** The Hello gateway-in answers with is always a valid frame: for validated
    settings and a valid peer Hello, the negotiated Hello passes
    [ValidateGatewayInFrame], and its limits exceed neither side's limits. *)
Theorem negotiated_hello_is_accepted `{ProtoRuntime} (s : settings) (peer : GatewayOutHello)
    (n : negotiation) (peerLimits : Limits) (tunnelID : bytes) :
  settings_wf s -> out_hello_wf peer -> goh_limits peer = Some peerLimits ->
  negotiate s peer = Ok n -> len tunnelID = 16 ->
  ValidateGatewayInFrame (Some (hello n tunnelID (set_instanceID s))) = Ok tt /\
  limits_le (neg_limits n) (set_limits s) /\ limits_le (neg_limits n) peerLimits.
Proof.
  intros Hs Hp Hl Hn Ht. split; [apply in_frame_Ok; by eapply negotiated_hello_wf|].
  destruct (negotiate_cases s peer) as [[He _]|(n' & He & _ & _ & _ & _ & Hlim)]; [congruence|].
  assert (n' = n) as -> by congruence. rewrite Hlim, Hl. apply minimum_limits_le.
Qed.

Definition sample_negotiation : negotiation :=
  mkNegotiation (mkLimits 32768 8192 524288 32 8 2048 65536 []) {[ROUTE_ID_AUTH_LOGIN]}
    {[TRAFFIC_CLASS_CONTROL_AUTH]} {[CAPABILITY_DRAIN]}.

Lemma negotiated_hello_is_accepted_witness :
  negotiate sample_settings sample_peer_hello = Ok sample_negotiation /\
  @ValidateGatewayInFrame (reference_runtime [] [])
    (Some (hello sample_negotiation (replicate 16 9) (replicate 16 1))) = Ok tt.
Proof.
  assert (Hn : negotiate sample_settings sample_peer_hello = Ok sample_negotiation)
    by (vm_compute; reflexivity).
  split; [exact Hn|].
  refine (proj1 (@negotiated_hello_is_accepted (reference_runtime [] []) sample_settings
    sample_peer_hello sample_negotiation _ (replicate 16 9) _ sample_peer_hello_wf eq_refl Hn _)).
  - apply (@sample_settings_wf (reference_runtime [] [])).
  - reflexivity.
Defined.
