(* ===== verification/Scheduler.v ===== *)
(** * The outbound scheduler of gateway-in

    [services/gateway-in/internal/tunnel/scheduler.go]: four bounded lanes, one
    per traffic class and one for tunnel control, drained in round-robin order
    by the session's write loop.  The queue-depth gauge of the telemetry is kept
    in [queued]; the context is represented by its error at the time of the call. *)

From S2P Require Import Prelude TunnelContract GatewayInErrors GatewayInConfig.
Local Open Scope Z_scope.

Definition schedulerLanes : nat := 4.

Record outboundQueue := mkOutboundQueue {
  lanes : list (chan ConnectResponse);
  wake : chan unit;
  next : nat;
  queued : gmap string Z
}.

Definition newOutboundQueue (limits : QueueLimits) : outboundQueue :=
  mkOutboundQueue
    [mkChan (TunnelControl limits) []; mkChan (ControlAuth limits) [];
     mkChan (Regular limits) []; mkChan (Realtime limits) []]
    (mkChan 1 []) 0 ∅.

Definition queueLane (class : Z) : nat * bool :=
  if class =? TRAFFIC_CLASS_UNSPECIFIED then (0%nat, true)
  else if class =? TRAFFIC_CLASS_CONTROL_AUTH then (1%nat, true)
  else if class =? TRAFFIC_CLASS_REGULAR then (2%nat, true)
  else if class =? TRAFFIC_CLASS_REALTIME then (3%nat, true)
  else (0%nat, false).

(** [instrumentation.queueDelta] *)
Definition queueDelta (q : outboundQueue) (class delta : Z) : outboundQueue :=
  mkOutboundQueue (lanes q) (wake q) (next q)
    (<[classLabel class := default 0 (queued q !! classLabel class) + delta]> (queued q)).

Definition lane_of (q : outboundQueue) (lane : nat) : chan ConnectResponse :=
  default (mkChan 0 []) (lanes q !! lane).

Definition set_lane (q : outboundQueue) (lane : nat) (c : chan ConnectResponse) : outboundQueue :=
  mkOutboundQueue (<[lane := c]> (lanes q)) (wake q) (next q) (queued q).

Definition frame_class (frame : ConnectResponse) : Z := GetTrafficClass (cresp_header frame).

(** [case q.lanes[lane] <- frame: q.instrumentation.queueDelta(ctx, class, 1)] *)
Definition enqueue_push (q : outboundQueue) (lane : nat) (frame : ConnectResponse) : option outboundQueue :=
  c ← try_send (lane_of q lane) frame;
  Some (queueDelta (set_lane q lane c) (frame_class frame) 1).

(** [select { case q.wake <- struct{}{}: default: }] *)
Definition enqueue_signal (q : outboundQueue) : outboundQueue :=
  mkOutboundQueue (lanes q) (default (wake q) (try_send (wake q) tt)) (next q) (queued q).

Definition enqueue (q : outboundQueue) (ctxErr : option error) (frame : ConnectResponse) :
    outboundQueue * result error unit :=
  match ctxErr with
  | Some err => (q, Err err)
  | None =>
      let '(lane, valid) := queueLane (frame_class frame) in
      if negb valid then (q, Err ErrProtocolViolation) else
      match enqueue_push q lane frame with
      | Some q => (enqueue_signal q, Ok tt)
      | None => (q, Err ErrQueueFull)
      end
  end.

(** The body of the inner loop of [dequeue] for one offset. *)
Definition dequeue_lane (q : outboundQueue) (offset : nat) : option (ConnectResponse * outboundQueue) :=
  let lane := ((next q + offset) mod schedulerLanes)%nat in
  '(frame, c) ← try_recv (lane_of q lane);
  let q := set_lane q lane c in
  let q := mkOutboundQueue (lanes q) (wake q) ((lane + 1) mod schedulerLanes)%nat (queued q) in
  Some (frame, queueDelta q (frame_class frame) (-1)).

Fixpoint dequeue_offsets (q : outboundQueue) (offsets : list nat) : option (ConnectResponse * outboundQueue) :=
  match offsets with
  | [] => None
  | offset :: offsets =>
      match dequeue_lane q offset with
      | Some r => Some r
      | None => dequeue_offsets q offsets
      end
  end.

(** One pass over the lanes. *)
Definition dequeue_pass (q : outboundQueue) : option (ConnectResponse * outboundQueue) :=
  dequeue_offsets q (seq 0 schedulerLanes).

Inductive dequeue_outcome :=
| Dequeued (frame : ConnectResponse) (q : outboundQueue)
| DequeueError (err : error) (q : outboundQueue)
(** the reader sleeps in the final [select] *)
| Sleeping (q : outboundQueue).

(** [dequeue] up to its first return or sleep.  When the context is done and a
    wake token is present, [select] may take either case ([preferDone]).  A second
    pass finds no further token, so two iterations are enough. *)
Fixpoint dequeue_loop (fuel : nat) (preferDone : bool) (ctxErr : option error) (q : outboundQueue) :
    dequeue_outcome :=
  match fuel with
  | O => Sleeping q
  | S fuel =>
      match dequeue_pass q with
      | Some (frame, q) => Dequeued frame q
      | None =>
          match ctxErr, try_recv (wake q) with
          | Some err, None => DequeueError err q
          | Some err, Some (_, w) =>
              if preferDone then DequeueError err q
              else dequeue_loop fuel preferDone ctxErr (mkOutboundQueue (lanes q) w (next q) (queued q))
          | None, Some (_, w) =>
              dequeue_loop fuel preferDone ctxErr (mkOutboundQueue (lanes q) w (next q) (queued q))
          | None, None => Sleeping q
          end
      end
  end.

Definition dequeue (preferDone : bool) (ctxErr : option error) (q : outboundQueue) : dequeue_outcome :=
  dequeue_loop 3 preferDone ctxErr q.

(** [discard] empties one lane after the other; a lane of [n] frames takes [n]
    receives. *)
Fixpoint discard_lane (fuel : nat) (q : outboundQueue) (lane : nat) : outboundQueue :=
  match fuel with
  | O => q
  | S fuel =>
      match try_recv (lane_of q lane) with
      | Some (frame, c) => discard_lane fuel (queueDelta (set_lane q lane c) (frame_class frame) (-1)) lane
      | None => q
      end
  end.

Definition discard (q : outboundQueue) : outboundQueue :=
  foldl (fun q lane => discard_lane (S (length (chan_buf (lane_of q lane)))) q lane) q
    (seq 0 schedulerLanes).

(** ** The queue invariant *)

Definition lane_frames (q : outboundQueue) (lane : nat) : list ConnectResponse := chan_buf (lane_of q lane).
Definition lane_cap (q : outboundQueue) (lane : nat) : Z := chan_cap (lane_of q lane).

(** The gauge value of a lane: lane [i] carries traffic class [i]. *)
Definition lane_gauge (q : outboundQueue) (lane : nat) : Z :=
  default 0 (queued q !! classLabel (Z.of_nat lane)).

Record queue_inv (q : outboundQueue) : Prop := {
  inv_lanes : length (lanes q) = 4%nat;
  inv_next : (next q < 4)%nat;
  inv_wake : chan_cap (wake q) = 1 /\ len (chan_buf (wake q)) <= 1;
  inv_class : forall lane frame, frame ∈ lane_frames q lane -> frame_class frame = Z.of_nat lane;
  inv_bound : forall lane, (lane < 4)%nat -> len (lane_frames q lane) <= lane_cap q lane;
  inv_gauge : forall lane, (lane < 4)%nat -> lane_gauge q lane = len (lane_frames q lane)
}.

Lemma queueLane_spec class lane : queueLane class = (lane, true) <-> class = Z.of_nat lane /\ (lane < 4)%nat.
Proof.
  unfold queueLane, TRAFFIC_CLASS_UNSPECIFIED, TRAFFIC_CLASS_CONTROL_AUTH, TRAFFIC_CLASS_REGULAR, TRAFFIC_CLASS_REALTIME.
  repeat match goal with |- context [class =? ?k] => destruct (Z.eqb_spec class k) end; (split; [intros Hp; simplify_eq; lia|intros [? ?]]);
    first [exfalso; lia | apply pair_eq; split; [lia|done]].
Qed.

Lemma queueLane_invalid class lane : queueLane class = (lane, false) -> ~ 0 <= class <= 3.
Proof.
  unfold queueLane, TRAFFIC_CLASS_UNSPECIFIED, TRAFFIC_CLASS_CONTROL_AUTH, TRAFFIC_CLASS_REGULAR, TRAFFIC_CLASS_REALTIME.
  repeat match goal with |- context [class =? ?k] => destruct (Z.eqb_spec class k) end; intros; simplify_eq; lia.
Qed.

Lemma classLabel_lane_inj i j : (i < 4)%nat -> (j < 4)%nat ->
  classLabel (Z.of_nat i) = classLabel (Z.of_nat j) -> i = j.
Proof.
  intros Hi Hj.
  destruct i as [|[|[|[|i]]]]; [| | | |lia]; (destruct j as [|[|[|[|j]]]]; [| | | |lia]); simpl; done.
Qed.

Section lanes.
Context (q : outboundQueue).

Lemma lane_of_set_eq lane c : (lane < length (lanes q))%nat -> lane_of (set_lane q lane c) lane = c.
Proof. intros Hl. unfold lane_of. simpl. by rewrite list_lookup_insert_eq. Qed.

Lemma lane_of_set_ne lane lane' c : lane <> lane' -> lane_of (set_lane q lane c) lane' = lane_of q lane'.
Proof. intros Hl. unfold lane_of. simpl. by rewrite list_lookup_insert_ne. Qed.

(** Replacing the buffer of one lane keeps the invariant when the frames have
    the class of the lane, the capacity is respected and the gauge follows. *)
Lemma queue_inv_update lane buf delta n :
  queue_inv q -> (lane < 4)%nat -> (n < 4)%nat ->
  (forall f, f ∈ buf -> frame_class f = Z.of_nat lane) ->
  len buf <= lane_cap q lane -> len buf = len (lane_frames q lane) + delta ->
  let q' := queueDelta (mkOutboundQueue (<[lane := mkChan (lane_cap q lane) buf]> (lanes q)) (wake q) n (queued q))
              (Z.of_nat lane) delta in
  queue_inv q' /\ lane_frames q' lane = buf /\
  (forall j, j <> lane -> lane_frames q' j = lane_frames q j) /\
  (forall j, lane_cap q' j = lane_cap q j).
Proof.
  intros Hq Hlane Hn Hclass Hcap Hlen q'.
  assert (Heq : lane_of q' lane = mkChan (lane_cap q lane) buf).
  { apply lane_of_set_eq. by rewrite (inv_lanes _ Hq). }
  assert (Hne : forall j, j <> lane -> lane_of q' j = lane_of q j) by (intros; apply lane_of_set_ne; congruence).
  assert (Hgauge : forall j, (j < 4)%nat -> lane_gauge q' j =
    lane_gauge q j + (if decide (j = lane) then delta else 0)).
  { intros j Hj. unfold lane_gauge, q'. simpl. destruct (decide (j = lane)) as [->|Hjl].
    - by rewrite lookup_insert_eq.
    - rewrite lookup_insert_ne; [lia|]. intros ?%classLabel_lane_inj; (lia || congruence). }
  unfold lane_frames, lane_cap in *.
  split_and!; [|by rewrite Heq|intros j Hj; by rewrite Hne|intros j; destruct (decide (j = lane)) as [->|];
    [by rewrite Heq|by rewrite Hne]].
  split; simpl; [rewrite length_insert; apply Hq|done|apply Hq|intros j f|intros j Hj|intros j Hj];
    unfold lane_frames, lane_cap in *.
  - destruct (decide (j = lane)) as [->|Hj]; [rewrite Heq; apply Hclass|rewrite Hne by done; apply Hq].
  - destruct (decide (j = lane)) as [->|Hj']; [by rewrite Heq|rewrite Hne by done; by apply Hq].
  - rewrite Hgauge by done. pose proof (inv_gauge _ Hq j Hj) as Hg. unfold lane_frames in Hg.
    destruct (decide (j = lane)) as [->|Hj']; [rewrite Heq; simpl; lia|rewrite Hne by done; lia].
Qed.
End lanes.

(** ** Enqueue *)

Lemma enqueue_push_spec q lane f :
  queue_inv q -> (lane < 4)%nat -> frame_class f = Z.of_nat lane ->
  match enqueue_push q lane f with
  | None => lane_cap q lane <= len (lane_frames q lane)
  | Some q' => len (lane_frames q lane) < lane_cap q lane /\
      queue_inv q' /\ next q' = next q /\ wake q' = wake q /\
      lane_frames q' lane = lane_frames q lane ++ [f] /\
      (forall j, j <> lane -> lane_frames q' j = lane_frames q j) /\
      (forall j, lane_cap q' j = lane_cap q j)
  end.
Proof.
  intros Hq Hlane Hf. unfold enqueue_push, try_send. change (chan_buf (lane_of q lane)) with (lane_frames q lane).
  change (chan_cap (lane_of q lane)) with (lane_cap q lane).
  destruct (Z.ltb_spec (len (lane_frames q lane)) (lane_cap q lane)) as [Hroom|Hfull]; [|done].
  simpl. rewrite Hf. pose proof (inv_next _ Hq).
  destruct (queue_inv_update q lane (lane_frames q lane ++ [f]) 1 (next q)) as (Hinv & Heq & Hne & Hcap);
    [done|done|done| |rewrite len_app, len_cons, len_nil; lia..|].
  { intros g [Hg|Hg]%elem_of_app; [by apply (inv_class _ Hq)|]. by apply list_elem_of_singleton in Hg as ->. }
  done.
Qed.

Lemma enqueue_signal_spec q :
  queue_inv q -> queue_inv (enqueue_signal q) /\ chan_buf (wake (enqueue_signal q)) <> [] /\
  lanes (enqueue_signal q) = lanes q /\ next (enqueue_signal q) = next q.
Proof.
  intros Hq. pose proof (inv_wake _ Hq) as [Hcap Hlen].
  unfold enqueue_signal, try_send. rewrite Hcap. pose proof (len_nonneg (chan_buf (wake q))).
  split_and!; [|simpl|done|done].
  - destruct Hq. split; try done. simpl. destruct (Z.ltb_spec (len (chan_buf (wake q))) 1); [|done].
    simpl. rewrite len_app, len_cons, len_nil. lia.
  - destruct (Z.ltb_spec (len (chan_buf (wake q))) 1); simpl; [by destruct (chan_buf (wake q))|].
    intros Hnil. rewrite Hnil, len_nil in *. lia.
Qed.

(** The whole of [enqueue]: on success one frame is appended to the lane of its
    class and a wake token is present; on an error the queue is unchanged. *)
Definition enqueue_post (q : outboundQueue) (ctxErr : option error) (f : ConnectResponse)
    (r : outboundQueue * result error unit) : Prop :=
  queue_inv r.1 /\
  ((r.2 = Ok tt /\ ctxErr = None /\ exists lane, (lane < 4)%nat /\ frame_class f = Z.of_nat lane /\
      len (lane_frames q lane) < lane_cap q lane /\
      lane_frames r.1 lane = lane_frames q lane ++ [f] /\
      (forall j, j <> lane -> lane_frames r.1 j = lane_frames q j) /\
      (forall j, lane_cap r.1 j = lane_cap q j) /\
      next r.1 = next q /\ chan_buf (wake r.1) <> []) \/
   (r.1 = q /\ exists e, r.2 = Err e /\
      (ctxErr = Some e \/
       (ctxErr = None /\ e = ErrProtocolViolation /\ ~ 0 <= frame_class f <= 3) \/
       (ctxErr = None /\ e = ErrQueueFull /\ exists lane, (lane < 4)%nat /\ frame_class f = Z.of_nat lane /\
          lane_cap q lane <= len (lane_frames q lane))))).

Lemma enqueue_spec q ctxErr f : queue_inv q -> enqueue_post q ctxErr f (enqueue q ctxErr f).
Proof.
  intros Hq. unfold enqueue. destruct ctxErr as [err|]; [split; [done|right; eauto]|].
  destruct (queueLane (frame_class f)) as [lane valid] eqn:Hl. destruct valid; simpl.
  2: { split; [done|]. right. split; [done|]. eexists. split; [done|]. right. left.
       split_and!; [done|done|]. by eapply queueLane_invalid. }
  apply queueLane_spec in Hl as [Hc Hlane]. pose proof (enqueue_push_spec q lane f Hq Hlane Hc) as Hp.
  destruct (enqueue_push q lane f) as [q'|].
  - destruct Hp as (Hroom & Hq' & Hn & Hw & Heq & Hne & Hcap).
    destruct (enqueue_signal_spec q' Hq') as (Hs & Hwake & Hlanes & Hnext). split; [done|]. left.
    split; [done|]. split; [done|]. exists lane.
    unfold lane_frames, lane_cap, lane_of in *. simpl fst. rewrite Hlanes, Hnext. by split_and!.
  - split; [done|]. right. split; [done|]. eexists. split; [done|]. right. right. eauto 10.
Qed.

(** ** Dequeue *)

Definition lane_at (q : outboundQueue) (offset : nat) : nat := ((next q + offset) mod 4)%nat.

Lemma lane_at_lt q offset : (lane_at q offset < 4)%nat.
Proof. unfold lane_at. apply Nat.mod_upper_bound. lia. Qed.

Lemma dequeue_lane_spec q offset :
  queue_inv q ->
  match dequeue_lane q offset with
  | None => lane_frames q (lane_at q offset) = []
  | Some (f, q') => queue_inv q' /\ lane_frames q (lane_at q offset) = f :: lane_frames q' (lane_at q offset) /\
      (forall j, j <> lane_at q offset -> lane_frames q' j = lane_frames q j) /\
      (forall j, lane_cap q' j = lane_cap q j) /\
      next q' = ((lane_at q offset + 1) mod 4)%nat /\ wake q' = wake q
  end.
Proof.
  intros Hq. unfold dequeue_lane, try_recv. unfold schedulerLanes. fold (lane_at q offset).
  set (lane := lane_at q offset). pose proof (lane_at_lt q offset) as Hlane. fold lane in Hlane.
  change (chan_buf (lane_of q lane)) with (lane_frames q lane).
  change (chan_cap (lane_of q lane)) with (lane_cap q lane).
  destruct (lane_frames q lane) as [|f rest] eqn:Hbuf; [done|]. simpl.
  assert (Hin : forall g, g ∈ f :: rest -> frame_class g = Z.of_nat lane).
  { intros g Hg. apply (inv_class _ Hq). by rewrite Hbuf. }
  rewrite (Hin f) by set_solver. pose proof (inv_bound _ Hq lane Hlane) as Hb. rewrite Hbuf, len_cons in Hb.
  destruct (queue_inv_update q lane rest (-1) ((lane + 1) mod 4)%nat) as (Hinv & Heq & Hne & Hcap);
    [done|done|apply Nat.mod_upper_bound; lia|set_solver|lia|rewrite Hbuf, len_cons; lia|].
  split_and!; try done. by f_equal.
Qed.

Lemma dequeue_offsets_spec q offsets :
  queue_inv q ->
  match dequeue_offsets q offsets with
  | None => Forall (fun o => lane_frames q (lane_at q o) = []) offsets
  | Some (f, q') => exists before o after, offsets = before ++ o :: after /\
      Forall (fun o => lane_frames q (lane_at q o) = []) before /\ dequeue_lane q o = Some (f, q')
  end.
Proof.
  intros Hq. induction offsets as [|o offsets IH]; simpl; [done|].
  pose proof (dequeue_lane_spec q o Hq) as Hl. destruct (dequeue_lane q o) as [[f q']|] eqn:Hd.
  - exists [], o, offsets. by split_and!.
  - destruct (dequeue_offsets q offsets) as [[f q']|]; [|by constructor].
    destruct IH as (before & o' & after & -> & Hb & Hd'). exists (o :: before), o', after.
    split_and!; [done|by constructor|done].
Qed.

(** How many lanes the reader looks at before [lane]. *)
Definition distance (q : outboundQueue) (lane : nat) : nat := ((lane + 4 - next q) mod 4)%nat.

(** A lane number is one of four. *)
Ltac lane_cases n := destruct n as [|[|[|[|n]]]]; [| | | |lia].

Lemma distance_lt q lane : (distance q lane < 4)%nat.
Proof. unfold distance. apply Nat.mod_upper_bound. lia. Qed.

Lemma lane_at_distance q lane : (next q < 4)%nat -> (lane < 4)%nat -> lane_at q (distance q lane) = lane.
Proof.
  unfold lane_at, distance. generalize (next q). intros n Hn Hl. by lane_cases n; lane_cases lane.
Qed.

(** Serving the lane at [o] moves every lane behind it forward. *)
Lemma distance_decreases q q' o lane :
  (next q < 4)%nat -> (lane < 4)%nat -> (o < distance q lane)%nat ->
  next q' = ((lane_at q o + 1) mod 4)%nat -> (distance q' lane < distance q lane)%nat.
Proof.
  pose proof (distance_lt q lane) as Hd. unfold distance, lane_at in *. intros Hn Hl Ho ->. revert Hd Ho.
  generalize dependent (next q). intros n Hn Hd Ho. assert (o < 4)%nat as Ho4 by lia.
  lane_cases n; lane_cases lane; lane_cases o; simpl in *; lia.
Qed.

(** A dequeue serves the head of the first non-empty lane in round-robin order. *)
Lemma dequeue_pass_spec q :
  queue_inv q ->
  match dequeue_pass q with
  | None => forall lane, (lane < 4)%nat -> lane_frames q lane = []
  | Some (f, q') => queue_inv q' /\ wake q' = wake q /\ (forall j, lane_cap q' j = lane_cap q j) /\
      exists lane, (lane < 4)%nat /\ lane_frames q lane = f :: lane_frames q' lane /\
        (forall j, j <> lane -> lane_frames q' j = lane_frames q j) /\
        (forall j, (j < 4)%nat -> j <> lane -> lane_frames q j <> [] -> (distance q' j < distance q j)%nat)
  end.
Proof.
  intros Hq. pose proof (inv_next _ Hq) as Hn.
  pose proof (dequeue_offsets_spec q (seq 0 4) Hq) as Hd. unfold dequeue_pass, schedulerLanes.
  destruct (dequeue_offsets q (seq 0 4)) as [[f q']|].
  - destruct Hd as (before & o & after & Hseq & Hempty & Hdeq).
    assert (Ho : length before = o /\ (o < 4)%nat).
    { assert (seq 0 4 !! length before = Some o) as Hlook by (by rewrite Hseq, list_lookup_middle).
      apply lookup_seq in Hlook. lia. }
    assert (Hbefore : before = seq 0 o).
    { apply (f_equal (take (length before))) in Hseq. rewrite take_app_length in Hseq.
      rewrite <- Hseq, take_seq. f_equal. lia. }
    pose proof (dequeue_lane_spec q o Hq) as Hl. rewrite Hdeq in Hl.
    destruct Hl as (Hq' & Hhead & Hne & Hcap & Hnext & Hw). split_and!; [done..|].
    exists (lane_at q o). split_and!; [apply lane_at_lt|done|done|]. intros j Hj Hjo Hjne.
    apply (distance_decreases q q' o); [done|done| |done].
    destruct (Nat.lt_ge_cases o (distance q j)) as [|Hge]; [done|]. exfalso.
    destruct (decide (distance q j = o)) as [<-|Hd]; [by rewrite lane_at_distance in Hjo|].
    apply Hjne. rewrite <- (lane_at_distance q j) by done. eapply Forall_forall in Hempty; [done|].
    rewrite Hbefore. apply elem_of_seq. lia.
  - intros lane Hlane. rewrite <- (lane_at_distance q lane) by done.
    eapply Forall_forall in Hd; [done|]. apply elem_of_seq. pose proof (distance_lt q lane). lia.
Qed.

Definition drop_wake (q : outboundQueue) : outboundQueue :=
  mkOutboundQueue (lanes q) (mkChan (chan_cap (wake q)) []) (next q) (queued q).

Lemma drop_wake_inv q : queue_inv q -> queue_inv (drop_wake q).
Proof. intros []. split; try done. simpl. rewrite len_nil. lia. Qed.

Lemma dequeue_pass_empty q :
  queue_inv q -> (forall lane, (lane < 4)%nat -> lane_frames q lane = []) -> dequeue_pass q = None.
Proof.
  intros Hq He. pose proof (dequeue_pass_spec q Hq) as Hp. destruct (dequeue_pass q) as [[f q']|]; [|done].
  destruct Hp as (_ & _ & _ & lane & Hl & Hf & _). by rewrite He in Hf.
Qed.

(** With a live context [dequeue] either returns the result of one pass over the
    lanes or sleeps without a wake token. *)
Lemma dequeue_live q preferDone :
  queue_inv q ->
  dequeue preferDone None q =
  match dequeue_pass q with Some (f, q') => Dequeued f q' | None => Sleeping (drop_wake q) end.
Proof.
  intros Hq. unfold dequeue. cbn [dequeue_loop]. pose proof (dequeue_pass_spec q Hq) as Hp.
  destruct (dequeue_pass q) as [[f q']|] eqn:Hpass; [done|].
  pose proof (inv_wake _ Hq) as [Hcap Hlen]. unfold try_recv at 1.
  destruct (chan_buf (wake q)) as [|[] [|? w]] eqn:Hw.
  - f_equal. unfold drop_wake. rewrite <- Hw. by destruct q as [? [] ? ?].
  - change (mkOutboundQueue (lanes q) _ (next q) (queued q)) with (drop_wake q).
    rewrite (dequeue_pass_empty (drop_wake q)) by (done || by apply drop_wake_inv). done.
  - rewrite !len_cons in Hlen. pose proof (len_nonneg w). lia.
Qed.

(** ** Sequences of operations *)

Inductive queue_event := Enqueue (ctxErr : option error) (frame : ConnectResponse) | Dequeue.

(** The queue after an operation, with the frame it accepted or delivered. *)
Definition queue_step (q : outboundQueue) (e : queue_event) :
    outboundQueue * list ConnectResponse * list ConnectResponse :=
  match e with
  | Enqueue ctxErr frame =>
      let '(q, r) := enqueue q ctxErr frame in (q, if is_ok r then [frame] else [], [])
  | Dequeue =>
      match dequeue true None q with
      | Dequeued frame q => (q, [], [frame])
      | DequeueError _ q | Sleeping q => (q, [], [])
      end
  end.

Fixpoint run_queue (q : outboundQueue) (events : list queue_event) :
    outboundQueue * list ConnectResponse * list ConnectResponse :=
  match events with
  | [] => (q, [], [])
  | e :: events =>
      let '(q, accepted, delivered) := queue_step q e in
      let '(q, accepted', delivered') := run_queue q events in
      (q, accepted ++ accepted', delivered ++ delivered')
  end.

Definition of_lane (lane : nat) (l : list ConnectResponse) : list ConnectResponse :=
  filter (fun f => frame_class f = Z.of_nat lane) l.

Lemma of_lane_single lane f :
  of_lane lane [f] = if decide (frame_class f = Z.of_nat lane) then [f] else [].
Proof. done. Qed.

Lemma queue_step_spec q e q' accepted delivered :
  queue_inv q -> queue_step q e = (q', accepted, delivered) ->
  queue_inv q' /\ (forall j, lane_cap q' j = lane_cap q j) /\
  forall lane, (lane < 4)%nat ->
    of_lane lane delivered ++ lane_frames q' lane = lane_frames q lane ++ of_lane lane accepted.
Proof.
  intros Hq Hstep. destruct e as [ctxErr f|]; simpl in Hstep.
  - pose proof (enqueue_spec q ctxErr f Hq) as (Hq' & Hr).
    destruct (enqueue q ctxErr f) as [q1 r]. simplify_eq. simpl in *. split; [done|].
    destruct Hr as [(-> & _ & l & Hl & Hc & _ & Heq & Hne & Hcap & _)|(-> & err & -> & _)]; simpl.
    + split; [done|]. intros lane Hlane. rewrite of_lane_single. destruct (decide _) as [He|He].
      * assert (l = lane) as -> by lia. by rewrite Heq.
      * rewrite app_nil_r. apply Hne. congruence.
    + split; [done|]. intros. by rewrite app_nil_r.
  - rewrite dequeue_live in Hstep by done. pose proof (dequeue_pass_spec q Hq) as Hp.
    destruct (dequeue_pass q) as [[f q1]|]; simplify_eq.
    + destruct Hp as (Hq' & _ & Hcap & l & Hl & Hhead & Hne & _). split; [done|]. split; [done|].
      intros lane Hlane. rewrite of_lane_single. simpl. rewrite app_nil_r.
      assert (frame_class f = Z.of_nat l) as Hf by (apply (inv_class _ Hq); rewrite Hhead; set_solver).
      destruct (decide (frame_class f = Z.of_nat lane)) as [He|He]; simpl.
      * by assert (l = lane) as -> by lia.
      * apply Hne. congruence.
    + split; [by apply drop_wake_inv|]. split; [done|]. intros. by rewrite app_nil_r.
Qed.

Lemma run_queue_spec events : forall q q' accepted delivered,
  queue_inv q -> run_queue q events = (q', accepted, delivered) ->
  queue_inv q' /\ (forall j, lane_cap q' j = lane_cap q j) /\
  forall lane, (lane < 4)%nat ->
    of_lane lane delivered ++ lane_frames q' lane = lane_frames q lane ++ of_lane lane accepted.
Proof.
  induction events as [|e events IH]; intros q q' accepted delivered Hq Hrun; simpl in Hrun.
  { simplify_eq. split; [done|]. split; [done|]. intros. by rewrite app_nil_r. }
  destruct (queue_step q e) as [[q1 a1] d1] eqn:Hs. destruct (run_queue q1 events) as [[q2 a2] d2] eqn:Hr.
  simplify_eq. apply queue_step_spec in Hs as (Hq1 & Hc1 & H1); [|done].
  apply IH in Hr as (Hq2 & Hc2 & H2); [|done]. split; [done|]. split; [intros; by rewrite Hc2|].
  intros lane Hl. unfold of_lane in *. rewrite !filter_app, <- !(assoc_L (++)), H2, !(assoc_L (++)), H1 by done. done.
Qed.

(** ** Bounded waiting *)

#[export] Instance queue_event_is_dequeue (e : queue_event) : Decision (e = Dequeue).
Proof. destruct e; [right; done|left; done]. Defined.

Definition dequeues (events : list queue_event) : nat :=
  length (filter (fun e => e = Dequeue) events).

(** The frame at the head of a lane is delivered, or moves closer to the reader. *)
Lemma queue_step_waiting q e q' accepted delivered lane f rest :
  queue_inv q -> (lane < 4)%nat -> lane_frames q lane = f :: rest ->
  queue_step q e = (q', accepted, delivered) ->
  match e with
  | Enqueue _ _ => delivered = [] /\ distance q' lane = distance q lane /\
      exists rest', lane_frames q' lane = f :: rest'
  | Dequeue => (exists g, delivered = [g]) /\
      (delivered = [f] \/
       (distance q' lane < distance q lane)%nat /\ lane_frames q' lane = f :: rest)
  end.
Proof.
  intros Hq Hl Hhead Hstep. destruct e as [ctxErr g|]; simpl in Hstep.
  - pose proof (enqueue_spec q ctxErr g Hq) as (Hq' & Hr).
    destruct (enqueue q ctxErr g) as [q1 r]. simplify_eq. simpl in *. split; [done|].
    destruct Hr as [(-> & _ & l & Hl' & Hc & _ & Heq & Hne & Hcap & Hnext & _)|(-> & _)]; [|by eauto].
    split; [unfold distance; by rewrite Hnext|].
    destruct (decide (l = lane)) as [->|Hd]; [rewrite Heq, Hhead; by eauto|rewrite Hne by done; by eauto].
  - rewrite dequeue_live in Hstep by done. pose proof (dequeue_pass_spec q Hq) as Hp.
    destruct (dequeue_pass q) as [[g q1]|]; simplify_eq; [|by rewrite Hp in Hhead].
    split; [by eauto|]. destruct Hp as (_ & _ & _ & l & Hl' & Hg & Hne & Hdist).
    destruct (decide (l = lane)) as [->|Hd]; [left; congruence|right].
    split; [apply Hdist; [done|done|by rewrite Hhead]|]. by rewrite Hne.
Qed.

Lemma head_waits_at_most events : forall q q' accepted delivered lane f rest n,
  queue_inv q -> (lane < 4)%nat -> lane_frames q lane = f :: rest ->
  (distance q lane < n)%nat -> (n <= dequeues events)%nat ->
  run_queue q events = (q', accepted, delivered) -> f ∈ take n delivered.
Proof.
  induction events as [|e events IH]; intros q q' acc del lane f rest n Hq Hl Hhead Hdist Hn Hrun; simpl in Hrun.
  { unfold dequeues in Hn. simpl in Hn. lia. }
  destruct (queue_step q e) as [[q1 a1] d1] eqn:Hs. destruct (run_queue q1 events) as [[q2 a2] d2] eqn:Hr.
  simplify_eq. pose proof (queue_step_spec _ _ _ _ _ Hq Hs) as (Hq1 & _).
  pose proof (queue_step_waiting _ _ _ _ _ _ _ _ Hq Hl Hhead Hs) as Hw.
  unfold dequeues in Hn. rewrite filter_cons in Hn. destruct e as [ctxErr g|].
  - destruct Hw as (-> & Hd & rest' & Hhead'). simpl. rewrite decide_False in Hn by done.
    eapply (IH q1); (done || by rewrite Hd).
  - rewrite decide_True in Hn by done. simpl in Hn. destruct n as [|n]; [lia|].
    destruct Hw as ([g ->] & [[= ->]|[Hd Hhead']]); simpl; [set_solver|].
    apply list_elem_of_further. eapply (IH q1); (done || unfold dequeues; lia).
Qed.

(** ** Wake-ups

    The reader's scan and the writers' two-step enqueue interleave.  [writers]
    counts the writers between the push and the wake-up signal. *)

Inductive reader_pc :=
| Idle
| Scanning (offset : nat)
| Blocked.

Record scheduler_state := mkSchedulerState { sc_queue : outboundQueue; sc_writers : nat; sc_reader : reader_pc }.

Inductive scheduler_step : scheduler_state -> scheduler_state -> Prop :=
| step_push q w r lane f q' :
    queueLane (frame_class f) = (lane, true) -> enqueue_push q lane f = Some q' ->
    scheduler_step (mkSchedulerState q w r) (mkSchedulerState q' (S w) r)
| step_signal q w r :
    scheduler_step (mkSchedulerState q (S w) r) (mkSchedulerState (enqueue_signal q) w r)
| step_start q w :
    scheduler_step (mkSchedulerState q w Idle) (mkSchedulerState q w (Scanning 0))
| step_receive q w offset f q' :
    (offset < schedulerLanes)%nat -> dequeue_lane q offset = Some (f, q') ->
    scheduler_step (mkSchedulerState q w (Scanning offset)) (mkSchedulerState q' w Idle)
| step_skip q w offset :
    (offset < schedulerLanes)%nat -> dequeue_lane q offset = None ->
    scheduler_step (mkSchedulerState q w (Scanning offset)) (mkSchedulerState q w (Scanning (S offset)))
| step_block q w :
    scheduler_step (mkSchedulerState q w (Scanning schedulerLanes)) (mkSchedulerState q w Blocked)
| step_wake q w token buf :
    try_recv (wake q) = Some (token, buf) ->
    scheduler_step (mkSchedulerState q w Blocked)
      (mkSchedulerState (mkOutboundQueue (lanes q) buf (next q) (queued q)) w (Scanning 0))
| step_done q w :
    scheduler_step (mkSchedulerState q w Blocked) (mkSchedulerState q w Idle).

Definition scanned_empty (q : outboundQueue) (r : reader_pc) : Prop :=
  match r with
  | Idle => True
  | Scanning offset => forall o, (o < offset)%nat -> lane_frames q (lane_at q o) = []
  | Blocked => forall o, (o < 4)%nat -> lane_frames q (lane_at q o) = []
  end.

Definition scheduler_inv (s : scheduler_state) : Prop :=
  queue_inv (sc_queue s) /\
  (scanned_empty (sc_queue s) (sc_reader s) \/ chan_buf (wake (sc_queue s)) <> [] \/ sc_writers s <> 0%nat).

Lemma scheduler_step_inv s s' : scheduler_inv s -> scheduler_step s s' -> scheduler_inv s'.
Proof.
  intros [Hq Hinv] Hstep. unfold scheduler_inv in *.
  destruct Hstep as [q w r lane f q' Hlane Hpush|q w r|q w|q w o f q' Ho Hd|q w o Ho Hd|q w|q w [] buf Hw|q w]; simpl in *.
  - apply queueLane_spec in Hlane as [Hc Hl]. pose proof (enqueue_push_spec q lane f Hq Hl Hc) as Hp.
    rewrite Hpush in Hp. destruct Hp as (_ & Hq' & _). split; [done|]. right. right. done.
  - destruct (enqueue_signal_spec q Hq) as (Hs & Hwake & _). split; [done|]. right. by left.
  - split; [done|]. left. intros o Ho. lia.
  - pose proof (dequeue_lane_spec q o Hq) as Hl. rewrite Hd in Hl. destruct Hl as (Hq' & _). split; [done|]. by left.
  - pose proof (dequeue_lane_spec q o Hq) as Hl. rewrite Hd in Hl. split; [done|].
    destruct Hinv as [Hs|Hrest]; [left|by right]. intros o' Ho'.
    destruct (decide (o' = o)) as [->|]; [done|]. apply Hs. lia.
  - split; [done|]. destruct Hinv as [Hs|Hrest]; [by left|by right].
  - split; [|left; intros o Ho; lia]. unfold try_recv in Hw.
    destruct (chan_buf (wake q)) as [|[] rest] eqn:Hb; [done|]. injection Hw as <-.
    destruct Hq. split; try done. simpl. rewrite Hb, len_cons in *. lia.
  - split; [done|]. by left.
Qed.

Lemma newOutboundQueue_inv limits : queue_limits_wf limits -> queue_inv (newOutboundQueue limits).
Proof.
  intros Hl. unfold queue_limits_wf in Hl. split; simpl; try done; try lia.
  - intros [|[|[|[|lane]]]] frame; unfold lane_frames, lane_of; simpl; try set_solver.
  - intros lane Hlane. unfold lane_frames, lane_cap, lane_of, len. lane_cases lane; simpl; lia.
  - intros lane Hlane. unfold lane_gauge, lane_frames, lane_of. simpl. rewrite lookup_empty.
    by lane_cases lane.
Qed.

(** ** Discarding *)

Lemma discard_lane_spec fuel : forall q lane,
  queue_inv q -> (lane < 4)%nat -> (length (lane_frames q lane) < fuel)%nat ->
  queue_inv (discard_lane fuel q lane) /\ lane_frames (discard_lane fuel q lane) lane = [] /\
  (forall j, j <> lane -> lane_frames (discard_lane fuel q lane) j = lane_frames q j).
Proof.
  induction fuel as [|fuel IH]; intros q lane Hq Hl Hfuel; [lia|]. cbn [discard_lane]. unfold try_recv.
  change (chan_buf (lane_of q lane)) with (lane_frames q lane).
  change (chan_cap (lane_of q lane)) with (lane_cap q lane).
  destruct (lane_frames q lane) as [|f rest] eqn:Hbuf; [done|].
  assert (Hin : forall g, g ∈ f :: rest -> frame_class g = Z.of_nat lane).
  { intros g Hg. apply (inv_class _ Hq). by rewrite Hbuf. }
  rewrite (Hin f) by set_solver. pose proof (inv_bound _ Hq lane Hl) as Hb. rewrite Hbuf, len_cons in Hb.
  destruct (queue_inv_update q lane rest (-1) (next q)) as (Hinv & Heq & Hne & _);
    [done|done|apply Hq|set_solver|lia|rewrite Hbuf, len_cons; lia|].
  set (q1 := queueDelta _ _ _) in *. simpl in Hfuel.
  destruct (IH q1 lane Hinv Hl) as (Hd & He & Hn); [rewrite Heq; lia|].
  split; [done|]. split; [done|]. intros j Hj. rewrite Hn by done. by apply Hne.
Qed.

Lemma discard_spec q :
  queue_inv q -> queue_inv (discard q) /\ forall lane, (lane < 4)%nat -> lane_frames (discard q) lane = [].
Proof.
  intros Hq. unfold discard, schedulerLanes. cbn [seq foldl].
  repeat match goal with |- context [discard_lane (S (length (chan_buf (lane_of ?x ?l)))) ?x ?l] =>
    is_var x;
    destruct (discard_lane_spec (S (length (chan_buf (lane_of x l)))) x l) as (? & ? & ?);
      [done|lia|unfold lane_frames; lia|];
    let y := fresh "q" in remember (discard_lane (S (length (chan_buf (lane_of x l)))) x l) as y
  end.
  split; [done|]. intros lane Hl. lane_cases lane;
    repeat match goal with H : forall j, j <> _ -> lane_frames ?x j = _ |- lane_frames ?x _ = [] =>
      first [done | rewrite H by lia] end; done.
Qed.

(** ** Properties *)

(** C6. Per traffic class the scheduler is a bounded FIFO queue: after any
    sequence of enqueues and dequeues, the frames delivered for a class followed
    by the frames still queued are exactly the frames accepted for that class, in
    order, so nothing is lost, duplicated or reordered within a class; a lane
    never exceeds its configured depth, and the queue-depth gauge of the class
    equals the number of queued frames. *)
Theorem lanes_are_bounded_fifos (limits : QueueLimits) (events : list queue_event) q accepted delivered :
  queue_limits_wf limits ->
  run_queue (newOutboundQueue limits) events = (q, accepted, delivered) ->
  forall lane, (lane < 4)%nat ->
    of_lane lane delivered ++ lane_frames q lane = of_lane lane accepted /\
    len (lane_frames q lane) <= lane_cap (newOutboundQueue limits) lane /\
    lane_gauge q lane = len (lane_frames q lane).
Proof.
  intros Hl Hrun lane Hlane. pose proof (newOutboundQueue_inv limits Hl) as Hi.
  apply run_queue_spec in Hrun as (Hq & Hcap & Hfifo); [|done].
  split_and!; [|rewrite <- Hcap; by apply Hq|by apply Hq].
  rewrite Hfifo by done. unfold lane_frames, lane_of. by lane_cases lane.
Qed.

(** Traffic classes are isolated: an enqueue either appends the frame to the
    lane of its class and leaves a wake token, or leaves the queue unchanged with
    the context's error, a protocol violation for an undeclared class, or
    ErrQueueFull, and the last only when the lane of its own class is full. *)
Theorem enqueue_touches_only_its_lane (q : outboundQueue) (ctxErr : option error) (f : ConnectResponse) :
  queue_inv q -> enqueue_post q ctxErr f (enqueue q ctxErr f).
Proof. apply enqueue_spec. Qed.

(** No class starves another: the frame at the head of a lane is delivered
    by one of the next four dequeues, whatever is enqueued in between. *)
Theorem head_of_lane_served_within_four_dequeues (q : outboundQueue) (events : list queue_event)
    q' accepted delivered (lane : nat) f rest :
  queue_inv q -> (lane < 4)%nat -> lane_frames q lane = f :: rest ->
  (4 <= dequeues events)%nat -> run_queue q events = (q', accepted, delivered) ->
  f ∈ take 4 delivered.
Proof.
  intros Hq Hl Hhead Hn Hrun. eapply head_waits_at_most; [done|done|done|apply distance_lt|done|done].
Qed.

(** No wake-up is lost: in every interleaving of the writers' two-step
    enqueue with the reader's lane-by-lane scan, whenever the reader sleeps, no
    wake token is pending and no writer is about to signal, every lane is empty. *)
Theorem sleeping_reader_has_no_work (limits : QueueLimits) (s : scheduler_state) :
  queue_limits_wf limits ->
  rtc scheduler_step (mkSchedulerState (newOutboundQueue limits) 0 Idle) s ->
  sc_reader s = Blocked -> chan_buf (wake (sc_queue s)) = [] -> sc_writers s = 0%nat ->
  forall lane, (lane < 4)%nat -> lane_frames (sc_queue s) lane = [].
Proof.
  intros Hl Hsteps Hr Hw Hn lane Hlane.
  assert (scheduler_inv s) as [Hq Hinv].
  { revert Hsteps. apply rtc_ind_r; [split; [by apply newOutboundQueue_inv|by left]|].
    intros; by eapply scheduler_step_inv. }
  destruct Hinv as [Hs|[?|?]]; [|done|done]. rewrite Hr in Hs.
  rewrite <- (lane_at_distance (sc_queue s) lane); [|apply Hq|done]. apply Hs, distance_lt.
Qed.

(** C7. Closing a session drops every queued frame and returns every queue-depth
    gauge to zero. *)
Theorem discard_empties_every_lane (q : outboundQueue) :
  queue_inv q ->
  forall lane, (lane < 4)%nat -> lane_frames (discard q) lane = [] /\ lane_gauge (discard q) lane = 0.
Proof.
  intros Hq lane Hl. destruct (discard_spec q Hq) as [Hd He]. rewrite (inv_gauge _ Hd) by done.
  by rewrite He.
Qed.

(** ** Concrete runs *)

Definition sample_depths : QueueLimits := mkQueueLimits 2 2 2 2.
Definition sample_frame (class sequence : Z) : ConnectResponse :=
  mkConnectResponse (Some (mkFrameHeader 1 (replicate 16 9) (replicate 16 3) sequence class []))
    (Some (Resp_HalfClose (Some (mkHalfClose [])))) [].
(** Three regular frames (the third does not fit) and one realtime frame. *)
Definition sample_events : list queue_event :=
  [Enqueue None (sample_frame 2 1); Enqueue None (sample_frame 2 2); Enqueue None (sample_frame 2 3);
   Enqueue None (sample_frame 3 1); Dequeue; Dequeue].
Definition sample_queue : outboundQueue :=
  (run_queue (newOutboundQueue sample_depths)
    [Enqueue None (sample_frame 2 1); Enqueue None (sample_frame 2 2); Enqueue None (sample_frame 3 1)]).1.1.

Lemma sample_depths_wf : queue_limits_wf sample_depths.
Proof. unfold queue_limits_wf. simpl. lia. Qed.

Lemma sample_queue_inv : queue_inv sample_queue.
Proof.
  unfold sample_queue. destruct (run_queue _ _) as [[q a] d] eqn:Hr.
  by apply run_queue_spec in Hr as [? _]; [|apply newOutboundQueue_inv, sample_depths_wf].
Qed.

Lemma lanes_are_bounded_fifos_witness :
  let '(q, accepted, delivered) := run_queue (newOutboundQueue sample_depths) sample_events in
  accepted = [sample_frame 2 1; sample_frame 2 2; sample_frame 3 1] /\
  delivered = [sample_frame 2 1; sample_frame 3 1] /\
  of_lane 2 delivered ++ lane_frames q 2 = of_lane 2 accepted.
Proof.
  destruct (run_queue (newOutboundQueue sample_depths) sample_events) as [[q a] d] eqn:Hr.
  pose proof (lanes_are_bounded_fifos sample_depths sample_events q a d sample_depths_wf Hr 2%nat
    ltac:(lia)) as [Hfifo _].
  vm_compute in Hr. injection Hr as <- <- <-. split; [reflexivity|]. split; [reflexivity|]. exact Hfifo.
Defined.

Lemma enqueue_touches_only_its_lane_witness :
  enqueue_post sample_queue None (sample_frame 2 3) (enqueue sample_queue None (sample_frame 2 3)) /\
  (enqueue sample_queue None (sample_frame 2 3)).2 = Err ErrQueueFull /\
  (enqueue sample_queue None (sample_frame 3 2)).2 = Ok tt.
Proof.
  split; [apply enqueue_touches_only_its_lane; exact sample_queue_inv|].
  split; vm_compute; reflexivity.
Defined.

Lemma head_of_lane_served_within_four_dequeues_witness :
  sample_frame 3 1 ∈ take 4 (run_queue sample_queue [Dequeue; Dequeue; Dequeue; Dequeue]).2.
Proof.
  destruct (run_queue sample_queue [Dequeue; Dequeue; Dequeue; Dequeue]) as [[q a] d] eqn:Hr.
  apply (head_of_lane_served_within_four_dequeues sample_queue [Dequeue; Dequeue; Dequeue; Dequeue]
    q a d 3 (sample_frame 3 1) []).
  - exact sample_queue_inv.
  - lia.
  - vm_compute. reflexivity.
  - vm_compute. lia.
  - exact Hr.
Defined.

(** The reader scans an empty queue and goes to sleep. *)
Definition sample_asleep : scheduler_state :=
  mkSchedulerState (newOutboundQueue sample_depths) 0 Blocked.

Lemma sleeping_reader_has_no_work_witness :
  rtc scheduler_step (mkSchedulerState (newOutboundQueue sample_depths) 0 Idle) sample_asleep /\
  lane_frames (sc_queue sample_asleep) 1 = [].
Proof.
  assert (Hrun : rtc scheduler_step (mkSchedulerState (newOutboundQueue sample_depths) 0 Idle) sample_asleep).
  { eapply rtc_l; [apply step_start|].
    do 4 (eapply rtc_l; [apply step_skip; [unfold schedulerLanes; lia|vm_compute; reflexivity]|]).
    eapply rtc_l; [apply step_block|]. apply rtc_refl. }
  split; [exact Hrun|].
  apply (sleeping_reader_has_no_work sample_depths sample_asleep sample_depths_wf Hrun eq_refl eq_refl eq_refl).
  lia.
Defined.

Lemma discard_empties_every_lane_witness :
  lane_frames sample_queue 2 <> [] /\ lane_frames (discard sample_queue) 2 = [] /\
  lane_gauge (discard sample_queue) 2 = 0.
Proof.
  split; [vm_compute; discriminate|].
  apply (discard_empties_every_lane sample_queue sample_queue_inv 2). lia.
Defined.
