(* ===== verification/LogicalRequest.v ===== *)
(** * Logical requests of gateway-in

    [services/gateway-in/internal/tunnel/request.go]: one unary call multiplexed
    over a tunnel.  A request reaches its session only through the operations of
    the class [FrameSink]; [GatewayInSession] provides the instance.  A context
    is represented by the error it reports at the time of the call, a closed
    [done] channel by [isCompleted], and an operation that releases the mutex in
    the middle is the composition of its critical sections. *)

From S2P Require Import Prelude TunnelContract TunnelRuntime TunnelValidate TunnelValidateProofs.
From S2P Require Import GatewayInErrors GatewayInConfig.
Local Open Scope Z_scope.

Record Call := mkCall {
  call_Route : Z;
  call_Payload : bytes;
  call_IdempotencyKey : bytes;
  call_Metadata : list (option Metadata)
}.

Record Response := mkResponse {
  resp_Payload : bytes;
  resp_Metadata : list (option Metadata)
}.

Record logicalRequest := mkLogicalRequest {
  req_id : bytes;
  req_route : Z;
  req_policy : RoutePolicy;
  req_deadline : Z;
  creditReady : chan unit;
  outboundSequence : Z;
  inboundSequence : Z;
  sendCredit : Z;
  receiveCredit : Z;
  responsePayload : bytes;
  isResponseClosed : bool;
  isCompleted : bool;
  acceptResponseTail : bool;
  tailTerminal : bool;
  tailResponseSize : Z;
  response : Response;
  req_err : option error
}.

(** What a request needs of its session. *)
Class FrameSink (S : Type) := {
  sink_id : S -> bytes;
  sink_limits : S -> Limits;
  sink_initialResponseCredit : S -> Z;
  (** [session.ctx.Err()] *)
  sink_ctxErr : S -> option error;
  enqueueFrame : S -> option error -> ConnectResponse -> S * result error unit
}.

(** Field updates. *)
Definition set_outboundSequence (r : logicalRequest) (v : Z) : logicalRequest :=
  mkLogicalRequest (req_id r) (req_route r) (req_policy r) (req_deadline r) (creditReady r) v
    (inboundSequence r) (sendCredit r) (receiveCredit r) (responsePayload r) (isResponseClosed r)
    (isCompleted r) (acceptResponseTail r) (tailTerminal r) (tailResponseSize r) (response r) (req_err r).
Definition set_inboundSequence (r : logicalRequest) (v : Z) : logicalRequest :=
  mkLogicalRequest (req_id r) (req_route r) (req_policy r) (req_deadline r) (creditReady r)
    (outboundSequence r) v (sendCredit r) (receiveCredit r) (responsePayload r) (isResponseClosed r)
    (isCompleted r) (acceptResponseTail r) (tailTerminal r) (tailResponseSize r) (response r) (req_err r).
Definition set_sendCredit (r : logicalRequest) (v : Z) : logicalRequest :=
  mkLogicalRequest (req_id r) (req_route r) (req_policy r) (req_deadline r) (creditReady r)
    (outboundSequence r) (inboundSequence r) v (receiveCredit r) (responsePayload r) (isResponseClosed r)
    (isCompleted r) (acceptResponseTail r) (tailTerminal r) (tailResponseSize r) (response r) (req_err r).
Definition set_receiveCredit (r : logicalRequest) (v : Z) : logicalRequest :=
  mkLogicalRequest (req_id r) (req_route r) (req_policy r) (req_deadline r) (creditReady r)
    (outboundSequence r) (inboundSequence r) (sendCredit r) v (responsePayload r) (isResponseClosed r)
    (isCompleted r) (acceptResponseTail r) (tailTerminal r) (tailResponseSize r) (response r) (req_err r).
Definition set_responsePayload (r : logicalRequest) (v : bytes) : logicalRequest :=
  mkLogicalRequest (req_id r) (req_route r) (req_policy r) (req_deadline r) (creditReady r)
    (outboundSequence r) (inboundSequence r) (sendCredit r) (receiveCredit r) v (isResponseClosed r)
    (isCompleted r) (acceptResponseTail r) (tailTerminal r) (tailResponseSize r) (response r) (req_err r).
Definition set_isResponseClosed (r : logicalRequest) (v : bool) : logicalRequest :=
  mkLogicalRequest (req_id r) (req_route r) (req_policy r) (req_deadline r) (creditReady r)
    (outboundSequence r) (inboundSequence r) (sendCredit r) (receiveCredit r) (responsePayload r) v
    (isCompleted r) (acceptResponseTail r) (tailTerminal r) (tailResponseSize r) (response r) (req_err r).
Definition set_tail (r : logicalRequest) (accept terminal : bool) (size : Z) : logicalRequest :=
  mkLogicalRequest (req_id r) (req_route r) (req_policy r) (req_deadline r) (creditReady r)
    (outboundSequence r) (inboundSequence r) (sendCredit r) (receiveCredit r) (responsePayload r)
    (isResponseClosed r) (isCompleted r) accept terminal size (response r) (req_err r).
Definition set_creditReady (r : logicalRequest) (v : chan unit) : logicalRequest :=
  mkLogicalRequest (req_id r) (req_route r) (req_policy r) (req_deadline r) v
    (outboundSequence r) (inboundSequence r) (sendCredit r) (receiveCredit r) (responsePayload r)
    (isResponseClosed r) (isCompleted r) (acceptResponseTail r) (tailTerminal r) (tailResponseSize r)
    (response r) (req_err r).
Definition set_outcome (r : logicalRequest) (completed : bool) (resp : Response) (err : option error) :
    logicalRequest :=
  mkLogicalRequest (req_id r) (req_route r) (req_policy r) (req_deadline r) (creditReady r)
    (outboundSequence r) (inboundSequence r) (sendCredit r) (receiveCredit r) (responsePayload r)
    (isResponseClosed r) completed (acceptResponseTail r) (tailTerminal r) (tailResponseSize r) resp err.

Definition empty_Response : Response := mkResponse [] [].

Definition newLogicalRequest (id : bytes) (route : Z) (policy : RoutePolicy) (deadline : Z) : logicalRequest :=
  mkLogicalRequest id route policy deadline (mkChan 1 []) 0 0 0 0 [] false false false false 0
    empty_Response None.

(** The unknown fields of a metadata entry are not copied. *)
Definition cloneMetadata (values : list (option Metadata)) : list (option Metadata) :=
  (fun value => m ← value; Some (mkMetadata (md_key m) (md_value m) [])) <$> values.

Definition completeLocked (r : logicalRequest) (resp : Response) (err : option error) : logicalRequest * bool :=
  if isCompleted r then (r, false) else
  (set_outcome r true (mkResponse (resp_Payload resp) (cloneMetadata (resp_Metadata resp))) err, true).

Definition complete (r : logicalRequest) (resp : Response) (err : option error) : logicalRequest * bool :=
  completeLocked r resp err.

Definition completeLocalAbort (r : logicalRequest) (err : option error) : logicalRequest * bool :=
  if isCompleted r then (r, false) else
  completeLocked (set_tail r true (tailTerminal r) (len (responsePayload r))) empty_Response err.

Definition compactForTombstone (r : logicalRequest) : logicalRequest :=
  set_outcome (set_responsePayload r []) (isCompleted r) empty_Response (req_err r).

Definition outcome (r : logicalRequest) : Response * option error :=
  (mkResponse (resp_Payload (response r)) (cloneMetadata (resp_Metadata (response r))), req_err r).

Definition completedError (r : logicalRequest) : error :=
  match req_err r with Some err => err | None => ErrTunnelClosed end.

Section operations.
Context `{ProtoRuntime} {S : Type} `{FrameSink S}.

(** The [any] payload is one of the response oneof wrappers. *)
Definition enqueuePayloadLocked (r : logicalRequest) (s : S) (ctxErr : option error)
    (payload : ConnectResponse_payload) : logicalRequest * S * result error unit :=
  if isCompleted r then
    (r, s, Err (match req_err r with Some err => err | None => ErrTunnelClosed end))
  else if outboundSequence r =? MaxUint64 then (r, s, Err ErrProtocolViolation) else
  let r := set_outboundSequence r (u64 (outboundSequence r + 1)) in
  let frame payload := mkConnectResponse
    (Some (mkFrameHeader protocolVersion (sink_id s) (req_id r) (outboundSequence r)
             (TrafficClass (req_policy r)) []))
    (Some payload) [] in
  match payload with
  | Resp_Open _ | Resp_Data _ | Resp_HalfClose _ | Resp_Cancel _ | Resp_Credit _ =>
      let '(s, result) := enqueueFrame s ctxErr (frame payload) in (r, s, result)
  | _ => (r, s, Err ErrProtocolViolation)
  end.

Definition enqueuePayload (r : logicalRequest) (s : S) (ctxErr : option error)
    (payload : ConnectResponse_payload) : logicalRequest * S * result error unit :=
  enqueuePayloadLocked r s ctxErr payload.

Definition enqueueOpen (r : logicalRequest) (s : S) (ctxErr : option error) (call : Call) :
    logicalRequest * S * result error unit :=
  let open := mkOpen (call_Route call) (Some (timestamppb_New (req_deadline r)))
    (call_IdempotencyKey call) (cloneMetadata (call_Metadata call)) [] in
  enqueuePayload r s ctxErr (Resp_Open (Some open)).

Definition sendInitialResponseCredit (r : logicalRequest) (s : S) (ctxErr : option error) :
    logicalRequest * S * result error unit :=
  let credit := sink_initialResponseCredit s `min` MaxResponseBytes (req_policy r) `min`
    max_credit_bytes (sink_limits s) in
  let r := set_receiveCredit r credit in
  let '(r, s, err) := enqueuePayloadLocked r s ctxErr (Resp_Credit (Some (mkCredit (u32 credit) []))) in
  match err with
  | Ok _ => (r, s, err)
  | _ => (set_receiveCredit r 0, s, err)
  end.

Inductive credit_outcome :=
| Took (chunkBytes : Z)
| TakeFailed (err : error)
(** waits for the context, for completion or for credit *)
| TakeWaits.

(** [takeSendCredit] up to its first return or wait; when the context is done and
    a credit token is present [select] may take either case ([preferDone]).  The
    token is consumed at most once, so two iterations are enough. *)
Fixpoint takeSendCredit_loop (fuel : nat) (preferDone : bool) (r : logicalRequest) (limits : Limits)
    (ctxErr : option error) (remaining : Z) : logicalRequest * credit_outcome :=
  match fuel with
  | O => (r, TakeWaits)
  | Datatypes.S fuel =>
      if isCompleted r then
        (r, TakeFailed (match req_err r with Some err => err | None => ErrTunnelClosed end))
      else if 0 <? sendCredit r then
        let chunkBytes := remaining `min` sendCredit r `min` max_data_bytes limits `min`
          MaxRequestBytes (req_policy r) in
        (set_sendCredit r (sendCredit r - chunkBytes), Took chunkBytes)
      else
        match ctxErr, try_recv (creditReady r) with
        | Some err, None => (r, TakeFailed err)
        | Some err, Some (_, c) =>
            if preferDone then (r, TakeFailed err)
            else takeSendCredit_loop fuel preferDone (set_creditReady r c) limits ctxErr remaining
        | None, Some (_, c) =>
            takeSendCredit_loop fuel preferDone (set_creditReady r c) limits ctxErr remaining
        | None, None => (r, TakeWaits)
        end
  end.

Definition takeSendCredit (preferDone : bool) (r : logicalRequest) (limits : Limits)
    (ctxErr : option error) (remaining : Z) : logicalRequest * credit_outcome :=
  takeSendCredit_loop 3 preferDone r limits ctxErr remaining.

Inductive body_outcome :=
| BodySent
| BodyFailed (err : error)
(** waits for credit with this part of the payload left *)
| BodyWaits (remaining : bytes)
| BodyPanic
| BodyOutOfFuel.

(** [sendBody] up to its return or its first wait. *)
Fixpoint sendBody_loop (fuel : nat) (preferDone : bool) (r : logicalRequest) (s : S)
    (ctxErr : option error) (remaining : bytes) : logicalRequest * S * body_outcome :=
  match fuel with
  | O => (r, s, BodyOutOfFuel)
  | Datatypes.S fuel =>
      if len remaining =? 0 then
        let '(r, s, err) := enqueuePayload r s ctxErr (Resp_HalfClose (Some (mkHalfClose []))) in
        match err with
        | Ok _ => (r, s, BodySent)
        | Err err => (r, s, BodyFailed err)
        | Panic => (r, s, BodyPanic)
        end
      else
        let '(r, taken) := takeSendCredit preferDone r (sink_limits s) ctxErr (len remaining) in
        match taken with
        | TakeFailed err => (r, s, BodyFailed err)
        | TakeWaits => (r, s, BodyWaits remaining)
        | Took chunkBytes =>
            match @slice error Z remaining 0 chunkBytes with
            | Ok chunk =>
                let '(r, s, err) := enqueuePayload r s ctxErr (Resp_Data (Some (mkData chunk []))) in
                match err with
                | Ok _ =>
                    match @slice error Z remaining chunkBytes (len remaining) with
                    | Ok remaining => sendBody_loop fuel preferDone r s ctxErr remaining
                    | _ => (r, s, BodyPanic)
                    end
                | Err err => (r, s, BodyFailed err)
                | Panic => (r, s, BodyPanic)
                end
            | _ => (r, s, BodyPanic)
            end
        end
  end.

(** Every iteration sends at least one byte. *)
Definition sendBody (preferDone : bool) (r : logicalRequest) (s : S) (ctxErr : option error)
    (payload : bytes) : logicalRequest * S * body_outcome :=
  sendBody_loop (Datatypes.S (length payload)) preferDone r s ctxErr payload.

(** [afterEnqueue] is a hook of the tests; callers of the package pass nil. *)
Definition cancelWithBarrier (r : logicalRequest) (s : S) (err : error) : logicalRequest * S :=
  if isCompleted r then (r, s) else
  let reason := if errors_Is err DeadlineExceeded then CANCEL_REASON_DEADLINE else CANCEL_REASON_CALLER in
  let '(r, s, _) := enqueuePayloadLocked r s (sink_ctxErr s) (Resp_Cancel (Some (mkCancel reason []))) in
  let r := set_tail r true (tailTerminal r) (len (responsePayload r)) in
  ((completeLocked r empty_Response (Some err)).1, s).

Definition cancel (r : logicalRequest) (s : S) (err : error) : logicalRequest * S :=
  cancelWithBarrier r s err.

(** [wait], when it does not block: [None] means that the request is neither
    completed nor its context done.  When both are ready [select] may take either
    case. *)
Definition wait (preferDone : bool) (r : logicalRequest) (s : S) (ctxErr : option error) :
    option (logicalRequest * S * (Response * option error)) :=
  match isCompleted r, ctxErr with
  | true, None => Some (r, s, outcome r)
  | true, Some err =>
      if preferDone then let '(r, s) := cancel r s err in Some (r, s, outcome r)
      else Some (r, s, outcome r)
  | false, Some err => let '(r, s) := cancel r s err in Some (r, s, outcome r)
  | false, None => None
  end.

Definition grantReceiveCredit (r : logicalRequest) (s : S) (bytes : Z) : logicalRequest * S * result error unit :=
  if isCompleted r then (r, s, Ok tt) else
  let r := set_receiveCredit r (receiveCredit r + bytes) in
  let '(r, s, err) := enqueuePayloadLocked r s (sink_ctxErr s)
    (Resp_Credit (Some (mkCredit (u32 bytes) []))) in
  match err with
  | Ok _ => (r, s, err)
  | _ => (set_receiveCredit r (receiveCredit r - bytes), s, err)
  end.

Definition handleCompletedInboundLocked (r : logicalRequest) (frame : ConnectRequest) :
    logicalRequest * result error unit :=
  if negb (acceptResponseTail r) || tailTerminal r ||
     negb (GetSequence (creq_header frame) =? u64 (inboundSequence r + 1))
  then (r, Err ErrProtocolViolation) else
  let r := set_inboundSequence r (u64 (inboundSequence r + 1)) in
  match creq_payload frame with
  | Some (Req_Credit c) =>
      if isResponseClosed r then (r, Err ErrProtocolViolation) else
      let credit := GetBytes_credit c in
      let maximumOutstanding := MaxRequestBytes (req_policy r) in
      if (maximumOutstanding <? sendCredit r) || (maximumOutstanding - sendCredit r <? credit)
      then (r, Err ErrProtocolViolation)
      else (set_sendCredit r (sendCredit r + credit), Ok tt)
  | Some (Req_Data d) =>
      if isResponseClosed r then (r, Err ErrProtocolViolation) else
      let dataBytes := len (GetPayload_data d) in
      if (receiveCredit r <? dataBytes) ||
         (MaxResponseBytes (req_policy r) <? tailResponseSize r + dataBytes)
      then (r, Err ErrProtocolViolation)
      else
        let r := set_receiveCredit r (receiveCredit r - dataBytes) in
        (set_tail r (acceptResponseTail r) (tailTerminal r) (tailResponseSize r + dataBytes), Ok tt)
  | Some (Req_HalfClose _) =>
      if isResponseClosed r then (r, Err ErrProtocolViolation)
      else (set_isResponseClosed r true, Ok tt)
  | Some (Req_Result _) =>
      if negb (isResponseClosed r) then (r, Err ErrProtocolViolation)
      else (set_tail r (acceptResponseTail r) true (tailResponseSize r), Ok tt)
  | _ => (r, Err ErrProtocolViolation)
  end.

(** The first critical section of [handleInbound] ends with a return or with a
    grant that the second one performs. *)
Inductive inbound_outcome :=
| Returned (result : result error unit)
| GrantNext (bytes : Z).

Definition GetCode_result (r : option Result) : Z := default RESULT_CODE_UNSPECIFIED (res_code <$> r).
Definition GetMetadata_result (r : option Result) : list (option Metadata) := default [] (res_metadata <$> r).
Definition GetReason_cancel (c : option Cancel) : Z := default CANCEL_REASON_UNSPECIFIED (cancel_reason <$> c).

Definition handleInbound_locked (r : logicalRequest) (frame : ConnectRequest) :
    logicalRequest * inbound_outcome :=
  if isCompleted r then
    let '(r, err) := handleCompletedInboundLocked r frame in (r, Returned err)
  else if negb (GetSequence (creq_header frame) =? u64 (inboundSequence r + 1))
  then (r, Returned (Err ErrProtocolViolation)) else
  let r := set_inboundSequence r (u64 (inboundSequence r + 1)) in
  match creq_payload frame with
  | Some (Req_Credit c) =>
      let credit := GetBytes_credit c in
      let maximumOutstanding := MaxRequestBytes (req_policy r) in
      if (maximumOutstanding <? sendCredit r) || (maximumOutstanding - sendCredit r <? credit)
      then (r, Returned (Err ErrProtocolViolation))
      else
        let r := set_sendCredit r (sendCredit r + credit) in
        (set_creditReady r (default (creditReady r) (try_send (creditReady r) tt)), Returned (Ok tt))
  | Some (Req_Data d) =>
      if isResponseClosed r then (r, Returned (Err ErrProtocolViolation)) else
      let dataBytes := len (GetPayload_data d) in
      if (receiveCredit r <? dataBytes) ||
         (MaxResponseBytes (req_policy r) <? len (responsePayload r) + dataBytes)
      then (r, Returned (Err ErrProtocolViolation))
      else
        let r := set_receiveCredit r (receiveCredit r - dataBytes) in
        let r := set_responsePayload r (responsePayload r ++ GetPayload_data d) in
        let remainingCapacity := MaxResponseBytes (req_policy r) - len (responsePayload r) in
        let grant := dataBytes `min` (remainingCapacity - receiveCredit r) in
        (r, if grant =? 0 then Returned (Ok tt) else GrantNext grant)
  | Some (Req_HalfClose _) =>
      if isResponseClosed r then (r, Returned (Err ErrProtocolViolation))
      else (set_isResponseClosed r true, Returned (Ok tt))
  | Some (Req_Result result) =>
      if negb (isResponseClosed r) then (r, Returned (Err ErrProtocolViolation)) else
      let resp := mkResponse (responsePayload r) (cloneMetadata (GetMetadata_result result)) in
      let err := if negb (GetCode_result result =? RESULT_CODE_OK)
                 then Some (newResultError (GetCode_result result)) else None in
      ((completeLocked r resp err).1, Returned (Ok tt))
  | Some (Req_Cancel c) =>
      let err := if GetReason_cancel c =? CANCEL_REASON_DEADLINE then DeadlineExceeded else Canceled in
      ((completeLocked r empty_Response (Some err)).1, Returned (Ok tt))
  | _ => (r, Returned (Err ErrProtocolViolation))
  end.

Definition handleInbound (r : logicalRequest) (s : S) (frame : ConnectRequest) :
    logicalRequest * S * result error unit :=
  let '(r, next) := handleInbound_locked r frame in
  match next with
  | Returned result => (r, s, result)
  | GrantNext grant => grantReceiveCredit r s grant
  end.
End operations.

(** ** The contract of the session side *)

Class FrameSinkLaws (S : Type) `{FrameSink S} : Prop := {
  (** Enqueueing changes neither the identity nor the negotiated limits. *)
  enqueueFrame_static s ctxErr f :
    sink_id (enqueueFrame s ctxErr f).1 = sink_id s /\
    sink_limits (enqueueFrame s ctxErr f).1 = sink_limits s /\
    sink_initialResponseCredit (enqueueFrame s ctxErr f).1 = sink_initialResponseCredit s;
  (** A refused frame leaves no trace. *)
  enqueueFrame_refused s ctxErr f e :
    (enqueueFrame s ctxErr f).2 = Err e -> (enqueueFrame s ctxErr f).1 = s;
  enqueueFrame_no_panic s ctxErr f : (enqueueFrame s ctxErr f).2 <> Panic
}.

(** A sink that also records the frames it accepts. *)
Definition enqueueFrame_logged {S} `{FrameSink S} (sl : S * list ConnectResponse) (ctxErr : option error)
    (f : ConnectResponse) : S * list ConnectResponse * result error unit :=
  let '(s, r) := enqueueFrame sl.1 ctxErr f in
  (s, match r with Ok _ => sl.2 ++ [f] | _ => sl.2 end, r).

#[export] Instance logged_sink {S} `{FrameSink S} : FrameSink (S * list ConnectResponse) := {
  sink_id sl := sink_id sl.1;
  sink_limits sl := sink_limits sl.1;
  sink_initialResponseCredit sl := sink_initialResponseCredit sl.1;
  sink_ctxErr sl := sink_ctxErr sl.1;
  enqueueFrame := enqueueFrame_logged
}.

Definition frame_sequence (f : ConnectResponse) : Z := GetSequence (cresp_header f).

Section logged.
Context {S : Type} `{FrameSink S, !FrameSinkLaws S}.

(** The frame of a payload. *)
Definition request_frame (r : logicalRequest) (tunnel : bytes) (sequence : Z)
    (payload : ConnectResponse_payload) : ConnectResponse :=
  mkConnectResponse
    (Some (mkFrameHeader protocolVersion tunnel (req_id r) sequence (TrafficClass (req_policy r)) []))
    (Some payload) [].

(** Everything [enqueuePayloadLocked] can do: refuse without consuming a sequence
    number, consume one and be refused by the session, or emit the next frame. *)
Inductive emits (r : logicalRequest) (s : S) (log : list ConnectResponse) (payload : ConnectResponse_payload) :
    logicalRequest * (S * list ConnectResponse) * result error unit -> Prop :=
| emits_refused e :
    (isCompleted r = true /\ e = completedError r) \/
    (isCompleted r = false /\ outboundSequence r = MaxUint64 /\ e = ErrProtocolViolation) ->
    emits r s log payload (r, (s, log), Err e)
| emits_lost e :
    isCompleted r = false -> outboundSequence r <> MaxUint64 ->
    emits r s log payload (set_outboundSequence r (u64 (outboundSequence r + 1)), (s, log), Err e)
| emits_accepted s' :
    isCompleted r = false -> outboundSequence r <> MaxUint64 ->
    sink_id s' = sink_id s -> sink_limits s' = sink_limits s ->
    sink_initialResponseCredit s' = sink_initialResponseCredit s ->
    emits r s log payload
      (set_outboundSequence r (u64 (outboundSequence r + 1)),
       (s', log ++ [request_frame r (sink_id s) (u64 (outboundSequence r + 1)) payload]), Ok tt).

Lemma enqueuePayloadLocked_emits r s log ctxErr payload :
  emits r s log payload (enqueuePayloadLocked r (s, log) ctxErr payload).
Proof.
  unfold enqueuePayloadLocked. destruct (isCompleted r) eqn:Hc.
  { apply emits_refused. left. split; [done|]. unfold completedError. by destruct (req_err r). }
  destruct (Z.eqb_spec (outboundSequence r) MaxUint64) as [Hm|Hm]; [by apply emits_refused; right|].
  assert (Hsend : forall payload, let '(s', result) := enqueueFrame (s, log) ctxErr
      (request_frame r (sink_id s) (u64 (outboundSequence r + 1)) payload) in
    emits r s log payload (set_outboundSequence r (u64 (outboundSequence r + 1)), s', result)).
  { intros p. set (f := request_frame _ _ _ p). simpl. unfold enqueueFrame_logged. simpl.
    pose proof (enqueueFrame_static s ctxErr f) as (Hid & Hlim & Hinit).
    pose proof (enqueueFrame_refused s ctxErr f) as Href.
    pose proof (enqueueFrame_no_panic s ctxErr f) as Hnp.
    destruct (enqueueFrame s ctxErr f) as [s' [[]|e|]]; simpl in *; [by apply emits_accepted| |done].
    rewrite (Href e) by done. by apply emits_lost. }
  cbv zeta. specialize (Hsend payload). unfold request_frame in Hsend.
  change (sink_id (s, log)) with (sink_id s).
  destruct payload; try by apply emits_lost.
  all: cbn [req_id req_policy outboundSequence set_outboundSequence] in *; by destruct (enqueueFrame (s, log) ctxErr _).
Qed.

(** ** The request as a state machine

    The goroutine that runs [Invoke] and the read loop of the session interleave
    at the granularity of the critical sections of the request's mutex. *)

(** The credit of a frame is an unsigned machine integer. *)
Definition credit_typed (frame : ConnectRequest) : Prop := 0 <= GetBytes_credit (GetCredit_req frame).

(** Where the caller is: before Open, between Open and the initial credit, after. *)
Inductive invoke_phase := Fresh | Opened | Sending.

Record request_state := mkRequestState {
  rs_req : logicalRequest;
  rs_sink : S * list ConnectResponse;
  rs_phase : invoke_phase;
  (** the grant the read loop still has to perform *)
  rs_grant : option Z
}.

Inductive request_step : request_state -> request_state -> Prop :=
| rs_open `{ProtoRuntime} r sl g ctxErr call r' sl' :
    enqueueOpen r sl ctxErr call = (r', sl', Ok tt) ->
    request_step (mkRequestState r sl Fresh g) (mkRequestState r' sl' Opened g)
| rs_open_refused `{ProtoRuntime} r sl g ctxErr call r' sl' e :
    enqueueOpen r sl ctxErr call = (r', sl', Err e) ->
    request_step (mkRequestState r sl Fresh g)
      (mkRequestState (complete r' empty_Response (Some e)).1 sl' Fresh g)
| rs_initial r sl g ctxErr r' sl' res :
    sendInitialResponseCredit r sl ctxErr = (r', sl', res) ->
    request_step (mkRequestState r sl Opened g) (mkRequestState r' sl' Sending g)
| rs_take r sl ph g preferDone ctxErr remaining r' out :
    0 < remaining -> takeSendCredit preferDone r (sink_limits sl) ctxErr remaining = (r', out) ->
    request_step (mkRequestState r sl ph g) (mkRequestState r' sl ph g)
| rs_body r sl ph g ctxErr payload r' sl' res :
    match payload with Resp_Data _ | Resp_HalfClose _ => True | _ => False end ->
    enqueuePayload r sl ctxErr payload = (r', sl', res) ->
    request_step (mkRequestState r sl ph g) (mkRequestState r' sl' ph g)
| rs_inbound r sl ph frame r' res :
    credit_typed frame -> handleInbound_locked r frame = (r', Returned res) ->
    request_step (mkRequestState r sl ph None) (mkRequestState r' sl ph None)
| rs_inbound_grant r sl ph frame r' n :
    credit_typed frame -> handleInbound_locked r frame = (r', GrantNext n) ->
    request_step (mkRequestState r sl ph None) (mkRequestState r' sl ph (Some n))
| rs_grant_credit r sl ph n r' sl' res :
    grantReceiveCredit r sl n = (r', sl', res) ->
    request_step (mkRequestState r sl ph (Some n)) (mkRequestState r' sl' ph None)
| rs_cancel r sl ph g err r' sl' :
    cancel r sl err = (r', sl') ->
    request_step (mkRequestState r sl ph g) (mkRequestState r' sl' ph g)
| rs_complete r sl ph g resp err :
    request_step (mkRequestState r sl ph g) (mkRequestState (complete r resp err).1 sl ph g)
| rs_abort r sl ph g err :
    request_step (mkRequestState r sl ph g) (mkRequestState (completeLocalAbort r err).1 sl ph g)
| rs_compact r sl ph g :
    isCompleted r = true ->
    request_step (mkRequestState r sl ph g) (mkRequestState (compactForTombstone r) sl ph g)
(** the write loop, another request or the end of the session changes the session *)
| rs_session r s s' log ph g :
    sink_id s' = sink_id s -> sink_limits s' = sink_limits s ->
    sink_initialResponseCredit s' = sink_initialResponseCredit s ->
    request_step (mkRequestState r (s, log) ph g) (mkRequestState r (s', log) ph g).

Definition grant_of (g : option Z) : Z := default 0 g.

(** ** Credit *)

(** The window of response bytes the peer may have outstanding. *)
Record credit_inv (st : request_state) : Prop := {
  ci_send : 0 <= sendCredit (rs_req st) <= MaxRequestBytes (req_policy (rs_req st));
  ci_receive : 0 <= receiveCredit (rs_req st);
  ci_grant : 0 <= grant_of (rs_grant st);
  ci_live : isCompleted (rs_req st) = false ->
    receiveCredit (rs_req st) + grant_of (rs_grant st) + len (responsePayload (rs_req st)) <=
      MaxResponseBytes (req_policy (rs_req st));
  ci_tail : isCompleted (rs_req st) = true -> acceptResponseTail (rs_req st) = true ->
    receiveCredit (rs_req st) + tailResponseSize (rs_req st) <= MaxResponseBytes (req_policy (rs_req st));
  ci_notail : isCompleted (rs_req st) = false -> acceptResponseTail (rs_req st) = false;
  ci_early : rs_phase st <> Sending -> receiveCredit (rs_req st) = 0 /\ rs_grant st = None /\
    (isCompleted (rs_req st) = false -> responsePayload (rs_req st) = []);
  ci_positive : 0 < MaxRequestBytes (req_policy (rs_req st)) /\ 0 < MaxResponseBytes (req_policy (rs_req st)) /\
    0 < max_data_bytes (sink_limits (rs_sink st)) /\ 0 < max_credit_bytes (sink_limits (rs_sink st)) /\
    0 < sink_initialResponseCredit (rs_sink st)
}.

(** ** The effect of each operation on the request *)

Lemma set_outboundSequence_id r : set_outboundSequence r (outboundSequence r) = r.
Proof. by destruct r. Qed.

(** Emitting a frame changes only the outbound sequence number. *)
Lemma emits_effect r s log p r' sl' res :
  emits r s log p (r', sl', res) ->
  (exists v, r' = set_outboundSequence r v) /\ sink_limits sl' = sink_limits (s, log) /\
  sink_initialResponseCredit sl' = sink_initialResponseCredit (s, log).
Proof.
  intros He. inversion He; subst; (split; [|done]); eauto. exists (outboundSequence r'). by rewrite set_outboundSequence_id.
Qed.

Lemma enqueue_effect r (sl sl' : S * list ConnectResponse) c p r' res :
  enqueuePayloadLocked r sl c p = (r', sl', res) ->
  (exists v, r' = set_outboundSequence r v) /\ sink_limits sl' = sink_limits sl /\
  sink_initialResponseCredit sl' = sink_initialResponseCredit sl.
Proof.
  destruct sl as [s log]. intros Heq. pose proof (enqueuePayloadLocked_emits r s log c p) as He.
  rewrite Heq in He. by apply emits_effect in He.
Qed.

Lemma take_effect fuel preferDone limits ctxErr remaining : forall r r' out,
  takeSendCredit_loop fuel preferDone r limits ctxErr remaining = (r', out) ->
  exists n c, r' = set_creditReady (set_sendCredit r (sendCredit r - n)) c /\
    ((out = Took n /\ isCompleted r = false /\ 0 < sendCredit r /\
      n = remaining `min` sendCredit r `min` max_data_bytes limits `min` MaxRequestBytes (req_policy r)) \/
     (n = 0 /\ forall m, out <> Took m)).
Proof.
  assert (Hsame : forall r, r = set_creditReady (set_sendCredit r (sendCredit r - 0)) (creditReady r)).
  { intros []. unfold set_creditReady, set_sendCredit. simpl. f_equal; lia. }
  induction fuel as [|fuel IH]; intros r r' out Hrun; simpl in Hrun.
  { simplify_eq. exists 0, (creditReady r'). split; [apply Hsame|by right]. }
  destruct (isCompleted r) eqn:Hc; [simplify_eq; exists 0, (creditReady r'); split; [apply Hsame|by right]|].
  destruct (Z.ltb_spec 0 (sendCredit r)).
  { simplify_eq. eexists _, (creditReady r). split; [|left; by split_and!]. by destruct r. }
  destruct ctxErr as [err|], (try_recv (creditReady r)) as [[? c]|]; try destruct preferDone;
    try (simplify_eq; exists 0, (creditReady r'); split; [apply Hsame|by right]);
    (apply IH in Hrun as (n & c' & -> & Hout); exists n, c'; simpl in Hout; rewrite Hc in Hout; split; [by destruct r|exact Hout]).
Qed.

Lemma completeLocked_effect r resp err :
  (completeLocked r resp err).1 = r /\ isCompleted r = true \/
  isCompleted r = false /\ exists resp', (completeLocked r resp err).1 = set_outcome r true resp' err.
Proof. unfold completeLocked. destruct (isCompleted r) eqn:Hc; [by left|]. right. simpl. eauto. Qed.

(** One critical section of [handleInbound]: what it may do to the credit. *)
Inductive inbound_effect (r : logicalRequest) : logicalRequest -> inbound_outcome -> Prop :=
| ie_same q res : inbound_effect r (set_inboundSequence r q) (Returned res)
| ie_credit q n c res :
    0 <= n <= MaxRequestBytes (req_policy r) - sendCredit r ->
    inbound_effect r (set_creditReady (set_sendCredit (set_inboundSequence r q) (sendCredit r + n)) c) (Returned res)
| ie_data q d out :
    isCompleted r = false -> isResponseClosed r = false ->
    len d <= receiveCredit r -> len (responsePayload r) + len d <= MaxResponseBytes (req_policy r) ->
    let capacity := MaxResponseBytes (req_policy r) - (len (responsePayload r) + len d) in
    let grant := len d `min` (capacity - (receiveCredit r - len d)) in
    out = (if grant =? 0 then Returned (Ok tt) else GrantNext grant) ->
    inbound_effect r
      (set_responsePayload (set_receiveCredit (set_inboundSequence r q) (receiveCredit r - len d))
         (responsePayload r ++ d)) out
| ie_tail_data q (d : bytes) res :
    isCompleted r = true -> len d <= receiveCredit r ->
    tailResponseSize r + len d <= MaxResponseBytes (req_policy r) ->
    inbound_effect r
      (set_tail (set_receiveCredit (set_inboundSequence r q) (receiveCredit r - len d))
         (acceptResponseTail r) (tailTerminal r) (tailResponseSize r + len d)) (Returned res)
| ie_close q res : inbound_effect r (set_isResponseClosed (set_inboundSequence r q) true) (Returned res)
| ie_terminal q res :
    isCompleted r = true ->
    inbound_effect r (set_tail (set_inboundSequence r q) (acceptResponseTail r) true (tailResponseSize r)) (Returned res)
| ie_complete q resp err res :
    isCompleted r = false ->
    inbound_effect r (set_outcome (set_inboundSequence r q) true resp err) (Returned res).

Lemma set_inboundSequence_id r : set_inboundSequence r (inboundSequence r) = r.
Proof. by destruct r. Qed.

Lemma completed_inbound_effect r frame r' res :
  credit_typed frame -> isCompleted r = true -> handleCompletedInboundLocked r frame = (r', res) ->
  inbound_effect r r' (Returned res).
Proof.
  intros Hty Hc. unfold handleCompletedInboundLocked, credit_typed, GetCredit_req in *.
  destruct (_ || _); [intros; simplify_eq; rewrite <- (set_inboundSequence_id r') at 2; apply ie_same|].
  set (q := u64 (inboundSequence r + 1)).
  destruct (creq_payload frame) as [[]|]; simpl;
    repeat match goal with |- context [if ?b then _ else _] => destruct b eqn:? end; intros; simplify_eq; try apply ie_same.
  - apply ie_tail_data; [done|lia|lia].
  - apply ie_close.
  - by apply ie_terminal.
  - pose proof (ie_credit r q (GetBytes_credit credit) (creditReady r) (Ok tt)) as Hie.
    unfold set_creditReady in Hie. simpl in Hie. apply Hie. lia.
Qed.

Lemma inbound_locked_effect r frame r' out :
  credit_typed frame -> handleInbound_locked r frame = (r', out) -> inbound_effect r r' out.
Proof.
  intros Hty. unfold handleInbound_locked. destruct (isCompleted r) eqn:Hc.
  { destruct (handleCompletedInboundLocked r frame) as [r1 res] eqn:Hh. intros; simplify_eq.
    by eapply completed_inbound_effect. }
  unfold credit_typed, GetCredit_req in Hty.
  destruct (negb _); [intros; simplify_eq; rewrite <- (set_inboundSequence_id r') at 2; apply ie_same|].
  set (q := u64 (inboundSequence r + 1)). unfold completeLocked.
  destruct (creq_payload frame) as [[]|]; simpl; rewrite ?Hc;
    repeat match goal with |- context [if ?b then (_, Returned (Err _)) else _] => destruct b eqn:? end;
    intros; simplify_eq; try apply ie_same.
  - apply ie_data; [done|done|lia|lia|]. rewrite len_app. done.
  - apply ie_close.
  - by apply ie_complete.
  - by apply ie_complete.
  - apply ie_credit. lia.
Qed.

(** A sink that only differs in what it has accepted. *)
Lemma credit_inv_sink r sl sl' ph g v :
  sink_limits sl' = sink_limits sl -> sink_initialResponseCredit sl' = sink_initialResponseCredit sl ->
  credit_inv (mkRequestState r sl ph g) -> credit_inv (mkRequestState (set_outboundSequence r v) sl' ph g).
Proof. intros Hl Hi []. split; simpl in *; rewrite ?Hl, ?Hi; done. Qed.

Lemma credit_inv_complete r sl ph g resp err :
  credit_inv (mkRequestState r sl ph g) -> credit_inv (mkRequestState (completeLocked r resp err).1 sl ph g).
Proof.
  intros Hinv. destruct (completeLocked_effect r resp err) as [[-> _]|[Hc [resp' ->]]]; [done|].
  destruct Hinv. split; simpl in *; try done; [|intros Hph; by destruct (ci_early0 Hph) as (? & ? & _)].
  intros _ Ht. rewrite ci_notail0 in Ht by done. done.
Qed.

(** Giving up locally keeps accepting the tail of the response. *)
Lemma credit_inv_tail r sl ph g resp err :
  isCompleted r = false -> credit_inv (mkRequestState r sl ph g) ->
  credit_inv (mkRequestState
    (completeLocked (set_tail r true (tailTerminal r) (len (responsePayload r))) resp err).1 sl ph g).
Proof.
  intros Hc []. unfold completeLocked. simpl. rewrite Hc. simpl in *.
  split; simpl; try done; [|intros Hph; by destruct (ci_early0 Hph) as (? & ? & _)].
  intros _ _. specialize (ci_live0 Hc). lia.
Qed.

Lemma credit_inv_take r sl ph g fuel pd c remaining r' out :
  0 < remaining -> takeSendCredit_loop fuel pd r (sink_limits sl) c remaining = (r', out) ->
  credit_inv (mkRequestState r sl ph g) -> credit_inv (mkRequestState r' sl ph g).
Proof.
  intros Hr Heq Hinv. apply take_effect in Heq as (n & cr & -> & Hout). destruct Hinv.
  split; simpl in *; try done. destruct Hout as [(_ & _ & Hs & Hn)|[-> _]]; lia.
Qed.

Lemma credit_inv_inbound r sl ph r' out :
  inbound_effect r r' out -> credit_inv (mkRequestState r sl ph None) ->
  credit_inv (mkRequestState r' sl ph (match out with GrantNext n => Some n | _ => None end)).
Proof.
  intros He []. simpl in *. destruct He as [q res|q n c res Hn|q d out Hc Hrc Hd Hm cap grant ->
    |q d res Hc Hd Hm|q res|q res Hc|q resp err res Hc].
  - split; simpl; auto.
  - split; simpl; auto; lia.
  - pose proof (len_nonneg d). specialize (ci_live0 Hc). simpl in ci_live0.
    assert (0 <= grant) by (unfold grant, cap; lia).
    assert (Hg : grant_of (match (if grant =? 0 then Returned (Ok tt) else GrantNext grant) with
      GrantNext n => Some n | _ => None end) = grant) by (destruct (Z.eqb_spec grant 0); simpl; lia).
    split; simpl; rewrite ?Hg, ?len_app; auto; try lia; [congruence|].
    intros Hph. destruct (ci_early0 Hph) as (Hz & _ & Hp). specialize (Hp Hc).
    assert (d = []) as -> by (apply len_zero_nil; lia). rewrite Hp. rewrite len_nil in *.
    replace (grant =? 0) with true by (unfold grant, cap; rewrite Hp, !len_nil; lia). split_and!; (done || lia).
  - pose proof (len_nonneg d). split; simpl; auto; try lia.
    + congruence.
    + intros _ Ht. specialize (ci_tail0 Hc Ht). lia.
    + intros Hph. destruct (ci_early0 Hph) as (Hz & _ & Hp). split_and!; [lia|done|congruence].
  - split; simpl; auto.
  - split; simpl; auto.
  - split; simpl; auto; [intros; rewrite ci_notail0 in *; done|].
    intros Hph. destruct (ci_early0 Hph) as (Hz & _ & Hp). done.
Qed.

Lemma credit_inv_initial r sl g c r' sl' res :
  sendInitialResponseCredit r sl c = (r', sl', res) ->
  credit_inv (mkRequestState r sl Opened g) -> credit_inv (mkRequestState r' sl' Sending g).
Proof.
  intros Heq []. simpl in *. destruct ci_early0 as (Hz & -> & Hp); [done|]. unfold sendInitialResponseCredit in Heq.
  set (credit := _ `min` _ `min` _) in Heq.
  assert (Hcr : 0 <= credit <= MaxResponseBytes (req_policy r)) by (unfold credit; simpl; lia).
  destruct (enqueuePayloadLocked (set_receiveCredit r credit) sl c _) as [[r1 sl1] res1] eqn:He.
  pose proof (enqueuePayloadLocked_emits (set_receiveCredit r credit) sl.1 sl.2 c
    (Resp_Credit (Some (mkCredit (u32 credit) [])))) as Hem.
  destruct sl as [s log]. simpl in Hem. rewrite He in Hem.
  apply enqueue_effect in He as ([v ->] & Hl & Hi); simpl in Hl, Hi.
  assert (Hzero : credit_inv (mkRequestState (set_receiveCredit
    (set_outboundSequence (set_receiveCredit r credit) v) 0) sl1 Sending None)).
  { split; simpl; rewrite ?Hl, ?Hi; auto; try lia; try done.
    - intros Hc. specialize (ci_live0 Hc). simpl in ci_live0. lia.
    - intros Hc Ht. specialize (ci_tail0 Hc Ht). lia. }
  destruct res1 as [[]|e|]; simplify_eq; [|exact Hzero|exact Hzero].
  assert (Hc : isCompleted r = false) by (inversion Hem; subst; done).
  split; simpl; rewrite ?Hl, ?Hi; auto; try lia; try done.
  - intros Hlive. pose proof (Hp Hlive) as Hnil. rewrite Hnil. change (len (@nil Z)) with 0. lia.
  - congruence.
Qed.

Lemma credit_inv_grant r sl ph n r' sl' res :
  grantReceiveCredit r sl n = (r', sl', res) ->
  credit_inv (mkRequestState r sl ph (Some n)) -> credit_inv (mkRequestState r' sl' ph None).
Proof.
  intros Heq []. simpl in *. unfold grantReceiveCredit in Heq. destruct (isCompleted r) eqn:Hc.
  { simplify_eq. split; simpl; auto; try done; try congruence. intros Hph. by destruct (ci_early0 Hph) as (_ & [=] & _). }
  destruct (enqueuePayloadLocked _ sl _ _) as [[r1 sl1] res1] eqn:He.
  apply enqueue_effect in He as ([v ->] & Hl & Hi); simpl in Hl, Hi. specialize (ci_live0 eq_refl).
  destruct res1 as [[]|e|]; simplify_eq; (split; simpl; rewrite ?Hl, ?Hi; auto; try lia; try done; try congruence;
    intros Hph; by destruct (ci_early0 Hph) as (_ & [=] & _)).
Qed.

Lemma credit_inv_step st st' : credit_inv st -> request_step st st' -> credit_inv st'.
Proof.
  intros Hinv Hstep. destruct Hstep as
    [P r sl g c call r' sl' Heq|P r sl g c call r' sl' e Heq|r sl g c r' sl' res Heq|r sl ph g pd c rem r' out Hrem Heq
    |r sl ph g c p r' sl' res Hp Heq|r sl ph f r' res Hty Heq|r sl ph f r' n Hty Heq|r sl ph n r' sl' res Heq
    |r sl ph g err r' sl' Heq|r sl ph g resp err|r sl ph g err|r sl ph g Hc|r s s' log ph g Hid Hl Hi].
  - apply enqueue_effect in Heq as ([v ->] & Hl & Hi). apply (credit_inv_sink _ _ _ _ _ v Hl Hi) in Hinv.
    destruct Hinv. split; simpl in *; auto.
  - apply enqueue_effect in Heq as ([v ->] & Hl & Hi). by apply credit_inv_complete, (credit_inv_sink _ sl).
  - by eapply credit_inv_initial.
  - by eapply credit_inv_take.
  - apply enqueue_effect in Heq as ([v ->] & Hl & Hi). by apply (credit_inv_sink _ sl).
  - apply inbound_locked_effect in Heq; [|done]. by apply (credit_inv_inbound _ sl ph) in Heq.
  - apply inbound_locked_effect in Heq; [|done]. by apply (credit_inv_inbound _ sl ph) in Heq.
  - by eapply credit_inv_grant.
  - unfold cancel, cancelWithBarrier in Heq. destruct (isCompleted r) eqn:Hc; [by simplify_eq|].
    destruct (enqueuePayloadLocked r sl _ _) as [[r1 sl1] res1] eqn:He. simplify_eq.
    apply enqueue_effect in He as ([v ->] & Hl & Hi). apply credit_inv_tail; [done|]. by apply (credit_inv_sink _ sl).
  - by apply credit_inv_complete.
  - unfold completeLocalAbort. destruct (isCompleted r) eqn:Hc; [done|]. by apply credit_inv_tail.
  - destruct Hinv. split; simpl in *; auto; [congruence|]. intros Hph. destruct (ci_early0 Hph) as (? & ? & _). done.
  - destruct Hinv. split; simpl in *; rewrite ?Hl, ?Hi; auto.
Qed.

(** ** Frames on the wire *)

(** What a step adds to the log: nothing, or the frame of the next sequence
    number of a request that is still open. *)
Inductive log_effect (r r' : logicalRequest) : S * list ConnectResponse -> S * list ConnectResponse -> Prop :=
| le_none s s' log : outboundSequence r' = outboundSequence r -> log_effect r r' (s, log) (s', log)
| le_lost sl :
    isCompleted r = false -> outboundSequence r <> MaxUint64 ->
    outboundSequence r' = u64 (outboundSequence r + 1) -> log_effect r r' sl sl
| le_frame s s' log p :
    isCompleted r = false -> outboundSequence r <> MaxUint64 ->
    outboundSequence r' = u64 (outboundSequence r + 1) -> sink_id s' = sink_id s ->
    log_effect r r' (s, log)
      (s', log ++ [request_frame r (sink_id s) (u64 (outboundSequence r + 1)) p]).

Lemma enqueue_log r (sl sl' : S * list ConnectResponse) c p r' res :
  enqueuePayloadLocked r sl c p = (r', sl', res) -> log_effect r r' sl sl'.
Proof.
  destruct sl as [s log]. intros Heq. pose proof (enqueuePayloadLocked_emits r s log c p) as He.
  rewrite Heq in He. inversion He; subst; [by apply le_none|by apply le_lost|by apply le_frame].
Qed.

(** The log only depends on the identity, the class and the progress of a request. *)
Lemma log_effect_fields r r1 r' r1' sl sl' :
  isCompleted r1 = isCompleted r -> outboundSequence r1 = outboundSequence r ->
  req_id r1 = req_id r -> req_policy r1 = req_policy r -> outboundSequence r1' = outboundSequence r' ->
  log_effect r1 r1' sl sl' -> log_effect r r' sl sl'.
Proof.
  intros Hc Ho Hid Hpol Ho' He. destruct He as [s s' log|sl|s s' log p]; rewrite ?Hc, ?Ho, ?Ho' in *.
  - by apply le_none.
  - by apply le_lost.
  - replace (request_frame r1 (sink_id s) (u64 (outboundSequence r + 1)) p)
      with (request_frame r (sink_id s) (u64 (outboundSequence r + 1)) p)
      by (unfold request_frame; by rewrite Hid, Hpol).
    by apply le_frame.
Qed.

Lemma inbound_effect_keeps r r' out :
  inbound_effect r r' out ->
  outboundSequence r' = outboundSequence r /\ req_id r' = req_id r /\ req_policy r' = req_policy r /\
  (isCompleted r = true -> isCompleted r' = true /\ req_err r' = req_err r /\ response r' = response r).
Proof. intros []; simpl; split_and!; try done; intros; congruence. Qed.

Lemma completeLocked_keeps r resp err :
  let r' := (completeLocked r resp err).1 in
  outboundSequence r' = outboundSequence r /\ req_id r' = req_id r /\ req_policy r' = req_policy r /\
  isCompleted r' = true /\ (isCompleted r = true -> r' = r).
Proof. unfold completeLocked. destruct (isCompleted r) eqn:Hc; simpl; by split_and!. Qed.

Definition same_request (r r' : logicalRequest) : Prop := req_id r' = req_id r /\ req_policy r' = req_policy r.

Lemma log_effect_refl r r' sl : outboundSequence r' = outboundSequence r -> log_effect r r' sl sl.
Proof. destruct sl. apply le_none. Qed.

Lemma request_step_log st st' :
  request_step st st' ->
  log_effect (rs_req st) (rs_req st') (rs_sink st) (rs_sink st') /\ same_request (rs_req st) (rs_req st').
Proof.
  unfold same_request. intros Hstep. destruct Hstep as
    [P r sl g c call r' sl' Heq|P r sl g c call r' sl' e Heq|r sl g c r' sl' res Heq|r sl ph g pd c rem r' out Hrem Heq
    |r sl ph g c p r' sl' res Hp Heq|r sl ph f r' res Hty Heq|r sl ph f r' n Hty Heq|r sl ph n r' sl' res Heq
    |r sl ph g err r' sl' Heq|r sl ph g resp err|r sl ph g err|r sl ph g Hc|r s s' log ph g Hid Hl Hi]; simpl.
  - pose proof (enqueue_effect _ _ _ _ _ _ _ Heq) as ([v ->] & _). by apply enqueue_log in Heq.
  - pose proof (enqueue_effect _ _ _ _ _ _ _ Heq) as ([v ->] & _). apply enqueue_log in Heq.
    destruct (completeLocked_keeps (set_outboundSequence r v) empty_Response (Some e)) as (Ho & Hid & Hpol & _).
    split; [by eapply log_effect_fields; [..|exact Heq]|done].
  - unfold sendInitialResponseCredit in Heq. destruct (enqueuePayloadLocked _ _ _ _) as [[r1 sl1] res1] eqn:He.
    pose proof (enqueue_effect _ _ _ _ _ _ _ He) as ([v ->] & _). apply enqueue_log in He.
    destruct res1; simplify_eq; (split; [by eapply log_effect_fields; [..|exact He]|done]).
  - apply take_effect in Heq as (n & cr & -> & _). split; [by apply log_effect_refl|done].
  - pose proof (enqueue_effect _ _ _ _ _ _ _ Heq) as ([v ->] & _). by apply enqueue_log in Heq.
  - apply inbound_locked_effect in Heq as (Ho & Hid & Hpol & _)%inbound_effect_keeps; [|done].
    split; [by apply log_effect_refl|done].
  - apply inbound_locked_effect in Heq as (Ho & Hid & Hpol & _)%inbound_effect_keeps; [|done].
    split; [by apply log_effect_refl|done].
  - unfold grantReceiveCredit in Heq. destruct (isCompleted r) eqn:Hc; [simplify_eq; split; [by apply log_effect_refl|done]|].
    destruct (enqueuePayloadLocked _ _ _ _) as [[r1 sl1] res1] eqn:He.
    pose proof (enqueue_effect _ _ _ _ _ _ _ He) as ([v ->] & _). apply enqueue_log in He.
    destruct res1; simplify_eq; (split; [by eapply log_effect_fields; [..|exact He]|done]).
  - unfold cancel, cancelWithBarrier in Heq. destruct (isCompleted r) eqn:Hc; [simplify_eq; split; [by apply log_effect_refl|done]|].
    destruct (enqueuePayloadLocked r sl _ _) as [[r1 sl1] res1] eqn:He. simplify_eq.
    pose proof (enqueue_effect _ _ _ _ _ _ _ He) as ([v ->] & _). apply enqueue_log in He.
    match goal with |- context [completeLocked ?x ?y ?z] =>
      destruct (completeLocked_keeps x y z) as (Ho & Hid & Hpol & _) end.
    split; [by eapply log_effect_fields; [..|exact He]|done].
  - destruct (completeLocked_keeps r resp err) as (Ho & Hid & Hpol & _). split; [by apply log_effect_refl|done].
  - unfold completeLocalAbort. destruct (isCompleted r); [split; [by apply log_effect_refl|done]|].
    match goal with |- context [completeLocked ?x ?y ?z] =>
      destruct (completeLocked_keeps x y z) as (Ho & Hid & Hpol & _) end.
    split; [by apply log_effect_refl|done].
  - split; [by apply log_effect_refl|done].
  - split; [by apply le_none|done].
Qed.

(** The header every frame of a request carries. *)
Definition frame_of_request (r : logicalRequest) (f : ConnectResponse) : Prop :=
  GetRequestId (cresp_header f) = req_id r /\ GetTrafficClass (cresp_header f) = TrafficClass (req_policy r) /\
  GetProtocolVersion (cresp_header f) = protocolVersion.

Record seq_inv (r : logicalRequest) (log : list ConnectResponse) : Prop := {
  si_range : 0 <= outboundSequence r <= MaxUint64;
  si_header : Forall (frame_of_request r) log;
  si_sorted : StronglySorted Z.lt (frame_sequence <$> log);
  si_below : Forall (fun f => 0 < frame_sequence f <= outboundSequence r) log;
  si_count : len log <= outboundSequence r;
  si_exact : len log = outboundSequence r -> frame_sequence <$> log = seqZ 1 (len log)
}.

Lemma u64_succ n : 0 <= n <= MaxUint64 -> n <> MaxUint64 -> u64 (n + 1) = n + 1.
Proof. intros Hn Hm. unfold u64, MaxUint64 in *. rewrite Z.mod_small; lia. Qed.

Lemma frame_of_same r r' f : same_request r r' -> frame_of_request r f -> frame_of_request r' f.
Proof. intros [Hid Hpol]. unfold frame_of_request. by rewrite Hid, Hpol. Qed.

Lemma sorted_snoc (l : list Z) x :
  StronglySorted Z.lt l -> Forall (fun y => y < x) l -> StronglySorted Z.lt (l ++ [x]).
Proof.
  intros Hs. induction Hs as [|y l Hs IH Hy]; intros Hf; simpl; [repeat constructor|].
  apply Forall_cons in Hf as [Hyx Hf]. constructor; [by apply IH|]. apply Forall_app. split; [done|].
  by constructor.
Qed.

Lemma seq_inv_step r r' sl sl' :
  log_effect r r' sl sl' -> same_request r r' -> seq_inv r sl.2 -> seq_inv r' sl'.2.
Proof.
  intros He Hsame [Hrange Hhdr Hsort Hbelow Hcount Hexact].
  assert (Hhdr' : Forall (frame_of_request r') sl.2) by (eapply Forall_impl; [exact Hhdr|]; intros f Hf; by apply (frame_of_same r)).
  destruct He as [s s' log Ho|sl Hc Hm Ho|s s' log p Hc Hm Ho Hid]; simpl in *.
  - split; rewrite ?Ho; done.
  - rewrite u64_succ in Ho by done. split; rewrite ?Ho; try done; try (unfold MaxUint64 in *; lia).
    eapply Forall_impl; [exact Hbelow|]. simpl. lia.
  - rewrite u64_succ in * by done. set (f := request_frame _ _ _ p).
    assert (Hf : frame_sequence f = outboundSequence r + 1) by done.
    split; rewrite ?Ho.
    + unfold MaxUint64 in *. lia.
    + apply Forall_app. split; [done|]. constructor; [|done]. by apply (frame_of_same r).
    + rewrite fmap_app. simpl. rewrite Hf. apply sorted_snoc; [done|]. apply Forall_fmap.
      eapply Forall_impl; [exact Hbelow|]. simpl. lia.
    + apply Forall_app. split; [eapply Forall_impl; [exact Hbelow|]; simpl; lia|].
      constructor; [rewrite Hf; lia|done].
    + rewrite len_app, len_cons, len_nil. lia.
    + rewrite fmap_app, len_app, len_cons, len_nil. intros Hn. simpl. rewrite Hf.
      pose proof (len_nonneg log). rewrite Z.add_0_r, seqZ_snoc by lia. rewrite Hexact by lia.
      do 2 f_equal. lia.
Qed.

(** ** Completion is final *)

Lemma request_step_final st st' :
  request_step st st' -> isCompleted (rs_req st) = true ->
  isCompleted (rs_req st') = true /\ req_err (rs_req st') = req_err (rs_req st) /\ (rs_sink st').2 = (rs_sink st).2 /\
  (response (rs_req st') = response (rs_req st) \/ response (rs_req st') = empty_Response).
Proof.
  intros Hstep. destruct Hstep as
    [P r sl g c call r' sl' Heq|P r sl g c call r' sl' e Heq|r sl g c r' sl' res Heq|r sl ph g pd c rem r' out Hrem Heq
    |r sl ph g c p r' sl' res Hp Heq|r sl ph f r' res Hty Heq|r sl ph f r' n Hty Heq|r sl ph n r' sl' res Heq
    |r sl ph g err r' sl' Heq|r sl ph g resp err|r sl ph g err|r sl ph g Hcomp|r s s' log ph g Hid Hl Hi]; simpl; intros Hc.
  - unfold enqueueOpen, enqueuePayload, enqueuePayloadLocked in Heq. rewrite Hc in Heq. by simplify_eq.
  - unfold enqueueOpen, enqueuePayload, enqueuePayloadLocked in Heq. rewrite Hc in Heq. simplify_eq.
    unfold complete, completeLocked. rewrite Hc. simpl. auto.
  - unfold sendInitialResponseCredit, enqueuePayloadLocked in Heq. simpl in Heq. rewrite Hc in Heq. simplify_eq. simpl. auto.
  - apply take_effect in Heq as (n & cr & -> & _). simpl. auto.
  - unfold enqueuePayload, enqueuePayloadLocked in Heq. rewrite Hc in Heq. simplify_eq. auto.
  - apply inbound_locked_effect in Heq as (_ & _ & _ & Hk)%inbound_effect_keeps; [|done]. destruct (Hk Hc) as (? & ? & ?). auto.
  - apply inbound_locked_effect in Heq as (_ & _ & _ & Hk)%inbound_effect_keeps; [|done]. destruct (Hk Hc) as (? & ? & ?). auto.
  - unfold grantReceiveCredit in Heq. rewrite Hc in Heq. simplify_eq. auto.
  - unfold cancel, cancelWithBarrier in Heq. rewrite Hc in Heq. simplify_eq. auto.
  - unfold complete, completeLocked. rewrite Hc. simpl. auto.
  - unfold completeLocalAbort. rewrite Hc. simpl. auto.
  - auto.
  - auto.
Qed.

Definition fresh_request (st : request_state) : Prop :=
  exists id route policy deadline s,
    st = mkRequestState (newLogicalRequest id route policy deadline) (s, []) Fresh None /\
    0 < MaxRequestBytes policy /\ 0 < MaxResponseBytes policy /\ 0 < max_data_bytes (sink_limits s) /\
    0 < max_credit_bytes (sink_limits s) /\ 0 < sink_initialResponseCredit s.

Lemma fresh_credit_inv st : fresh_request st -> credit_inv st.
Proof.
  intros (id & route & policy & deadline & s & -> & ? & ? & ? & ? & ?).
  split; simpl; try done; try lia. intros _. unfold len. simpl. lia.
Qed.

Lemma fresh_seq_inv st : fresh_request st -> seq_inv (rs_req st) (rs_sink st).2.
Proof.
  intros (id & route & policy & deadline & s & -> & _). split; simpl; try done; try (unfold MaxUint64; lia).
  constructor.
Qed.

(** ** The request body *)

(** Data frames with consecutive sequence numbers after [sequence]. *)
Fixpoint data_frames (r : logicalRequest) (tunnel : bytes) (sequence : Z) (chunks : list bytes) :
    list ConnectResponse :=
  match chunks with
  | [] => []
  | c :: chunks =>
      request_frame r tunnel (sequence + 1) (Resp_Data (Some (mkData c []))) ::
      data_frames r tunnel (sequence + 1) chunks
  end.

Definition half_close_frame (r : logicalRequest) (tunnel : bytes) (sequence : Z) : ConnectResponse :=
  request_frame r tunnel sequence (Resp_HalfClose (Some (mkHalfClose []))).

(** What one run of [sendBody] does: it sends a prefix of the payload in chunks
    within the credit and the Data limit, and then it has sent everything and the
    half-close, or waits for credit with exactly the rest, or failed. *)
Definition body_post (r : logicalRequest) (s : S) (log : list ConnectResponse) (payload : bytes)
    (run : logicalRequest * (S * list ConnectResponse) * body_outcome) : Prop :=
  let '(r', (s', log'), out) := run in
  exists chunks rest,
    payload = concat chunks ++ rest /\
    Forall (fun c => 0 < len c <= max_data_bytes (sink_limits s)) chunks /\
    len (concat chunks) <= sendCredit r /\
    match out with
    | BodySent => rest = [] /\ sendCredit r' = sendCredit r - len payload /\
        log' = log ++ data_frames r (sink_id s) (outboundSequence r) chunks ++
          [half_close_frame r (sink_id s) (outboundSequence r + len chunks + 1)]
    | BodyWaits remaining => remaining = rest /\ rest <> [] /\ sendCredit r' = 0 /\
        log' = log ++ data_frames r (sink_id s) (outboundSequence r) chunks
    | BodyFailed _ => log' = log ++ data_frames r (sink_id s) (outboundSequence r) chunks
    | BodyPanic | BodyOutOfFuel => False
    end.

Lemma enqueue_outcome r s log c p r' sl' res :
  0 <= outboundSequence r <= MaxUint64 ->
  enqueuePayload r (s, log) c p = (r', sl', res) ->
  match res with
  | Ok _ => r' = set_outboundSequence r (outboundSequence r + 1) /\ 0 <= outboundSequence r + 1 <= MaxUint64 /\
      exists s', sl' = (s', log ++ [request_frame r (sink_id s) (outboundSequence r + 1) p]) /\
        sink_id s' = sink_id s /\ sink_limits s' = sink_limits s
  | Err _ => sl' = (s, log)
  | Panic => False
  end.
Proof.
  intros Hr Heq. pose proof (enqueuePayloadLocked_emits r s log c p) as He.
  unfold enqueuePayload in Heq. rewrite Heq in He. inversion He as [|e|s1 Hc Hm]; subst; [done|done|].
  rewrite u64_succ by done. split; [done|]. split; [unfold MaxUint64 in *; lia|]. eauto.
Qed.

Lemma take_waits fuel pd limits remaining : forall r r',
  takeSendCredit_loop fuel pd r limits None remaining = (r', TakeWaits) ->
  (length (chan_buf (creditReady r)) < fuel)%nat -> 0 <= sendCredit r -> sendCredit r' = 0.
Proof.
  induction fuel as [|fuel IH]; intros r r' Heq Hf Hs; [lia|]. simpl in Heq.
  destruct (isCompleted r); [done|]. destruct (Z.ltb_spec 0 (sendCredit r)); [done|].
  unfold try_recv in Heq. destruct (chan_buf (creditReady r)) as [|[] rest]; [simplify_eq; lia|].
  apply IH in Heq; [done|simpl in *; lia|done].
Qed.

Lemma take_waits_ctx fuel pd limits e remaining : forall r r',
  takeSendCredit_loop fuel pd r limits (Some e) remaining = (r', TakeWaits) ->
  (length (chan_buf (creditReady r)) < fuel)%nat -> False.
Proof.
  induction fuel as [|fuel IH]; intros r r' Heq Hf; [lia|]. simpl in Heq.
  destruct (isCompleted r); [done|]. destruct (0 <? sendCredit r); [done|].
  unfold try_recv in Heq. destruct (chan_buf (creditReady r)) as [|[] rest]; [done|].
  destruct pd; [done|]. apply IH in Heq; [done|simpl in *; lia].
Qed.

Definition body_ready (r : logicalRequest) (s : S) : Prop :=
  0 <= sendCredit r /\ 0 < MaxRequestBytes (req_policy r) /\ 0 < max_data_bytes (sink_limits s) /\
  0 <= outboundSequence r <= MaxUint64 /\ (length (chan_buf (creditReady r)) <= 1)%nat.

Lemma take_token fuel pd limits ctxErr remaining : forall r r' out,
  takeSendCredit_loop fuel pd r limits ctxErr remaining = (r', out) ->
  (length (chan_buf (creditReady r')) <= length (chan_buf (creditReady r)))%nat.
Proof.
  induction fuel as [|fuel IH]; intros r r' out Heq; simpl in Heq; [by simplify_eq|].
  destruct (isCompleted r); [by simplify_eq|]. destruct (0 <? sendCredit r); [by simplify_eq|].
  unfold try_recv in Heq. destruct (chan_buf (creditReady r)) as [|[] rest] eqn:Hb.
  - destruct ctxErr; simplify_eq; by rewrite Hb.
  - destruct ctxErr; [destruct pd|]; simplify_eq; [by rewrite Hb|..]; apply IH in Heq; simpl in *; lia.
Qed.

Lemma data_frames_same r r' tunnel chunks : forall sequence,
  req_id r' = req_id r -> req_policy r' = req_policy r ->
  data_frames r' tunnel sequence chunks = data_frames r tunnel sequence chunks.
Proof.
  induction chunks as [|c chunks IH]; intros sequence Hid Hpol; simpl; [done|].
  unfold request_frame. by rewrite Hid, Hpol, IH.
Qed.

Lemma body_post_cons r s log r2 s2 chunk rest run :
  req_id r2 = req_id r -> req_policy r2 = req_policy r -> sink_id s2 = sink_id s ->
  sink_limits s2 = sink_limits s -> outboundSequence r2 = outboundSequence r + 1 ->
  sendCredit r2 = sendCredit r - len chunk -> 0 < len chunk <= max_data_bytes (sink_limits s) ->
  body_post r2 s2 (log ++ [request_frame r (sink_id s) (outboundSequence r + 1) (Resp_Data (Some (mkData chunk [])))])
    rest run ->
  body_post r s log (chunk ++ rest) run.
Proof.
  intros Hid Hpol Hsid Hlim Hseq Hcredit Hlen. destruct run as [[r' [s' log']] out].
  intros (chunks & rest' & -> & Hf & Hsum & Hout). exists (chunk :: chunks), rest'. simpl.
  rewrite len_app, (assoc_L (++)). split; [done|]. rewrite Hlim in Hf. split; [by constructor|].
  split; [lia|]. pose proof (data_frames_same r r2 (sink_id s) chunks (outboundSequence r + 1) Hid Hpol) as Hdf.
  rewrite Hsid, Hseq in Hout. rewrite Hdf in Hout.
  destruct out; try done.
  - destruct Hout as (-> & Hc & ->). split; [done|]. rewrite !app_nil_r, len_app in *.
    split; [lia|]. rewrite len_cons, <- (assoc_L (++)). simpl. unfold half_close_frame, request_frame.
    rewrite Hid, Hpol. by replace (outboundSequence r + 1 + len chunks + 1) with (outboundSequence r + (1 + len chunks) + 1) by lia.
  - by rewrite Hout, <- (assoc_L (++)).
  - destruct Hout as (-> & ? & ? & ->). by rewrite <- (assoc_L (++)).
Qed.

Lemma sendBody_loop_spec fuel pd c : forall r s log remaining,
  (length remaining < fuel)%nat -> body_ready r s ->
  body_post r s log remaining (sendBody_loop fuel pd r (s, log) c remaining).
Proof.
  induction fuel as [|fuel IH]; intros r s log remaining Hfuel (Hs & Hm & Hd & Hseq & Hb); [lia|].
  cbn [sendBody_loop]. destruct (Z.eqb_spec (len remaining) 0) as [Hz|Hz].
  - apply len_zero_nil in Hz as ->.
    destruct (enqueuePayload r (s, log) c _) as [[r1 sl1] res] eqn:He.
    apply enqueue_outcome in He; [|done]. destruct res as [[]|e|]; [|subst sl1|done].
    + destruct He as (-> & _ & s1 & -> & _). exists [], []. simpl.
      split_and!; [done|done|done|done|change (len (@nil Z)) with 0; lia|].
      unfold half_close_frame. by replace (outboundSequence r + len (@nil bytes) + 1) with (outboundSequence r + 1) by (unfold len; simpl; lia).
    + exists [], []. simpl. rewrite app_nil_r. by split_and!.
  - destruct (takeSendCredit pd r _ c (len remaining)) as [r1 taken] eqn:Ht. unfold takeSendCredit in Ht.
    pose proof (take_token _ _ _ _ _ _ _ _ Ht) as Htok. pose proof (len_nonneg remaining) as Hnn.
    assert (Hstop : forall out, (forall m, taken <> Took m) ->
      match out with BodyFailed _ => True | BodyWaits rem => rem = remaining /\ sendCredit r1 = 0 | _ => False end ->
      body_post r s log remaining (r1, (s, log), out)).
    { intros out _ Ho. exists [], remaining. simpl. rewrite app_nil_r.
      split_and!; [done|done|done|]. destruct out; try done. destruct Ho as [-> ?]. split_and!; try done.
      intros ->. by rewrite len_nil in Hz. }
    destruct taken as [n|e|]; [|by apply Hstop|].
    2: { apply Hstop; [done|]. split; [done|]. destruct c as [e|].
         - exfalso. eapply take_waits_ctx; [exact Ht|lia].
         - eapply take_waits; [exact Ht|lia|done]. }
    apply take_effect in Ht as (n' & cr & -> & [(Hn' & Hc & Hpos & Hn)|[_ Hno]]); [|by destruct (Hno n)].
    injection Hn' as <-. simpl in Hn. rewrite slice_in_range by lia.
    change (sink_limits (s, log)) with (sink_limits s) in *. simpl in Htok.
    destruct (enqueuePayload _ (s, log) c _) as [[r2 sl2] res] eqn:He.
    apply enqueue_outcome in He; [|done].
    destruct res as [[]|e|]; [|subst sl2; exists [], remaining; simpl; rewrite app_nil_r; by split_and!|done].
    destruct He as (-> & Hseq' & s2 & -> & Hid2 & Hlim2). rewrite slice_in_range by lia.
    set (chunk := take (Z.to_nat (n - 0)) (drop (Z.to_nat 0) remaining)) in *.
    assert (Hchunk : len chunk = n) by (unfold chunk; rewrite len_take, len_drop; lia).
    rewrite take_ge by (rewrite length_drop; unfold len in *; lia).
    assert (Hrem : remaining = chunk ++ drop (Z.to_nat n) remaining).
    { unfold chunk. rewrite Z.sub_0_r, drop_0, take_drop. done. }
    rewrite Hrem at 1.
    eapply (body_post_cons r s log
      (set_outboundSequence (set_creditReady (set_sendCredit r (sendCredit r - n)) cr) (outboundSequence r + 1)) s2);
      [done|done|done|done|done|simpl; lia|lia|].
    apply IH; [rewrite length_drop; unfold len in *; lia|].
    unfold body_ready. simpl in *. rewrite Hlim2. split_and!; try done; lia.
Qed.

(** ** The response *)

(** The read loop handles a list of frames of one request, all successfully. *)
Fixpoint inbound_run (r : logicalRequest) (s : S) (frames : list ConnectRequest) : option (logicalRequest * S) :=
  match frames with
  | [] => Some (r, s)
  | f :: frames =>
      match handleInbound r s f with
      | (r, s, Ok _) => inbound_run r s frames
      | _ => None
      end
  end.

Definition data_of (f : ConnectRequest) : bytes := GetPayload_data (GetData_req f).

(** One successfully handled frame of an open request. *)
Lemma handleInbound_Ok r s f r' s' :
  isCompleted r = false -> handleInbound r s f = (r', s', Ok tt) ->
  (isCompleted r' = false /\ responsePayload r' = responsePayload r ++ data_of f) \/
  (isCompleted r' = true /\ acceptResponseTail r' = acceptResponseTail r /\
   ((exists res, creq_payload f = Some (Req_Result res) /\
       response r' = mkResponse (responsePayload r) (cloneMetadata (cloneMetadata (GetMetadata_result res))) /\
       req_err r' = if GetCode_result res =? RESULT_CODE_OK then None else Some (ResultError (GetCode_result res))) \/
    (exists c, creq_payload f = Some (Req_Cancel c) /\ req_err r' <> None))).
Proof.
  intros Hc. unfold handleInbound, handleInbound_locked, data_of, GetData_req, completeLocked. rewrite Hc.
  destruct (negb _); [done|].
  destruct (creq_payload f) as [[]|]; simpl; rewrite ?Hc;
    repeat match goal with |- context [if ?b then (_, Returned (Err _)) else _] => destruct b eqn:? end;
    try (intros; by simplify_eq); try (intros; simplify_eq; left; simpl; by rewrite app_nil_r).
  - set (grant := _ `min` _). destruct (grant =? 0); [intros; simplify_eq; by left|].
    unfold grantReceiveCredit, enqueuePayloadLocked. simpl. rewrite Hc.
    destruct (outboundSequence r =? MaxUint64); [intros; by simplify_eq|].
    match goal with |- context [enqueueFrame ?a ?b ?c] => destruct (enqueueFrame a b c) as [s1 [[]|e|]] end;
      intros; simplify_eq; by left.
  - intros; simplify_eq. right. split; [done|]. split; [done|]. right. simpl. eauto.
  - intros; simplify_eq. right. simpl. split; [done|]. split; [done|]. left. eexists. split; [done|].
    split; [done|]. unfold newResultError. by destruct (_ =? _).
Qed.

Lemma inbound_run_completed frames r s r' s' :
  isCompleted r = true -> acceptResponseTail r = false -> inbound_run r s frames = Some (r', s') ->
  frames = [] /\ r' = r.
Proof.
  intros Hc Ht. destruct frames as [|f frames]; simpl; [intros; by simplify_eq|].
  unfold handleInbound, handleInbound_locked, handleCompletedInboundLocked. by rewrite Hc, Ht.
Qed.

Lemma handleInbound_keeps_tail r s f r' s' :
  isCompleted r = false -> handleInbound r s f = (r', s', Ok tt) -> isCompleted r' = false ->
  acceptResponseTail r' = acceptResponseTail r.
Proof.
  intros Hc. unfold handleInbound, handleInbound_locked, completeLocked. rewrite Hc.
  destruct (negb _); [done|].
  destruct (creq_payload f) as [[]|]; simpl; rewrite ?Hc;
    repeat match goal with |- context [if ?b then (_, Returned (Err _)) else _] => destruct b eqn:? end;
    try (intros; by simplify_eq).
  set (grant := _ `min` _). destruct (grant =? 0); [intros; by simplify_eq|].
  unfold grantReceiveCredit, enqueuePayloadLocked. simpl. rewrite Hc.
  destruct (outboundSequence r =? MaxUint64); [intros; by simplify_eq|].
  match goal with |- context [enqueueFrame ?a ?b ?c] => destruct (enqueueFrame a b c) as [s1 [[]|e|]] end;
    intros; by simplify_eq.
Qed.

Lemma inbound_run_response frames : forall r s r' s',
  isCompleted r = false -> acceptResponseTail r = false ->
  inbound_run r s frames = Some (r', s') -> isCompleted r' = true -> req_err r' = None ->
  exists pre last res, frames = pre ++ [last] /\ creq_payload last = Some (Req_Result res) /\
    GetCode_result res = RESULT_CODE_OK /\
    resp_Payload (response r') = responsePayload r ++ concat (data_of <$> pre).
Proof.
  induction frames as [|f frames IH]; intros r s r' s' Hc Ht Hrun Hc' He'; simpl in Hrun; [simplify_eq; congruence|].
  destruct (handleInbound r s f) as [[r1 s1] [[]|e|]] eqn:Hh; [|done|done].
  pose proof (handleInbound_Ok _ _ _ _ _ Hc Hh) as [[Hc1 Hp1]|(Hc1 & Ht1 & Hend)].
  - pose proof (handleInbound_keeps_tail _ _ _ _ _ Hc Hh Hc1) as Ht1. rewrite Ht in Ht1.
    destruct (IH _ _ _ _ Hc1 Ht1 Hrun Hc' He') as (pre & l & res & -> & Hl & Hcode & Hresp).
    exists (f :: pre), l, res. split_and!; [done|done|done|]. simpl. rewrite Hresp, Hp1. by rewrite (assoc_L (++)).
  - rewrite Ht in Ht1. apply inbound_run_completed in Hrun as [-> ->]; [|done|done].
    destruct Hend as [(res & Hl & Hresp & Herr)|(c & _ & Herr)]; [|done].
    exists [], f, res. split_and!; [done|done| |by rewrite Hresp, app_nil_r].
    rewrite He' in Herr. by destruct (Z.eqb_spec (GetCode_result res) RESULT_CODE_OK).
Qed.

(** ** Properties *)

(** Flow control is safe in every interleaving of the caller with the read
    loop: the credit for the request never exceeds the route's request limit, the
    bytes received so far plus all credit granted or about to be granted never
    exceed the response limit of the route, and after a local abort the tail that
    is still accepted stays within the same limit. *)
Theorem request_credit_is_bounded (st st' : request_state) :
  fresh_request st -> rtc request_step st st' -> credit_inv st'.
Proof.
  intros Hf. revert st'. apply rtc_ind_r; [by apply fresh_credit_inv|].
  intros; by eapply credit_inv_step.
Qed.


(** Completion happens once: after a request is completed, no operation of
    the caller or of the read loop changes its error, replaces its response by
    another one (compaction for a tombstone only drops it), or emits a frame. *)
Theorem completion_is_final (st st' : request_state) :
  isCompleted (rs_req st) = true -> rtc request_step st st' ->
  isCompleted (rs_req st') = true /\ req_err (rs_req st') = req_err (rs_req st) /\ (rs_sink st').2 = (rs_sink st).2 /\
  (response (rs_req st') = response (rs_req st) \/ response (rs_req st') = empty_Response).
Proof.
  intros Hc. revert st'. apply rtc_ind_r; [auto|]. intros st1 st2 _ Hstep (Hc1 & He1 & Hs1 & Hr1).
  destruct (request_step_final _ _ Hstep Hc1) as (? & He & Hs & Hr).
  split_and!; [done|congruence|congruence|]. destruct Hr as [->| ->]; auto.
Qed.

(** The request body is sent faithfully and within the peer's credit: every
    run of [sendBody] terminates; the Data frames it emits have consecutive
    sequence numbers, are non-empty, respect the negotiated Data limit and the
    credit available, and together are a prefix of the payload; when the run ends
    with success the prefix is the whole payload, followed by one half-close, and
    when it waits for credit all credit is used and exactly the rest remains. *)
Theorem body_is_sent_within_credit (r : logicalRequest) (s : S) (log : list ConnectResponse)
    (preferDone : bool) (ctxErr : option error) (payload : bytes) :
  body_ready r s -> body_post r s log payload (sendBody preferDone r (s, log) ctxErr payload).
Proof. intros Hr. apply sendBody_loop_spec; [lia|done]. Qed.

(** A successful response is exactly what the peer sent: if the frames of a
    request are handled without an error and the request ends without one, the
    last frame is a Result with code OK and the response payload is the
    concatenation of the Data payloads in order. *)
Theorem response_is_the_concatenation (r : logicalRequest) (s : S) (frames : list ConnectRequest) r' s' :
  isCompleted r = false -> acceptResponseTail r = false ->
  inbound_run r s frames = Some (r', s') -> isCompleted r' = true -> req_err r' = None ->
  exists pre last res, frames = pre ++ [last] /\ creq_payload last = Some (Req_Result res) /\
    GetCode_result res = RESULT_CODE_OK /\
    resp_Payload (response r') = responsePayload r ++ concat (data_of <$> pre).
Proof. apply inbound_run_response. Qed.
End logged.

(** ** Concrete runs *)

(** A session with a number of free places in its queue. *)
Definition slots := nat.
Definition sample_tunnel : bytes := replicate 16 9.

#[local] Instance slots_sink : FrameSink slots := {
  sink_id _ := sample_tunnel;
  sink_limits _ := mkLimits 32768 8 524288 32 8 2048 64 [];
  sink_initialResponseCredit _ := 16;
  sink_ctxErr _ := None;
  enqueueFrame n ctxErr f :=
    match ctxErr, n with
    | Some e, _ => (n, Err e)
    | None, O => (O, Err ErrQueueFull)
    | None, Datatypes.S n => (n, Ok tt)
    end
}.

#[local] Instance slots_laws : FrameSinkLaws slots.
Proof.
  split; [done| |]; intros n [e'|] f; simpl; destruct n; simpl; try done; intros; by simplify_eq.
Qed.

Definition sample_request : logicalRequest :=
  newLogicalRequest (replicate 16 3) ROUTE_ID_AUTH_LOGIN
    (mkRoutePolicy TRAFFIC_CLASS_CONTROL_AUTH 100 100 (5 * Second) 8) 1000.
Definition sample_start (free : slots) : request_state :=
  mkRequestState sample_request (free, []) Fresh None.

Lemma sample_fresh free : fresh_request (sample_start free).
Proof. eexists _, _, _, _, _. split; [reflexivity|]. simpl. lia. Qed.

Definition sample_inbound (sequence : Z) (p : ConnectRequest_payload) : ConnectRequest :=
  mkConnectRequest (Some (mkFrameHeader 1 sample_tunnel (replicate 16 3) sequence 1 [])) (Some p) [].
Definition sample_data (sequence : Z) (b : bytes) : ConnectRequest :=
  sample_inbound sequence (Req_Data (Some (mkData b []))).
Definition sample_call : Call := mkCall ROUTE_ID_AUTH_LOGIN [1; 2; 3] [] [].

(** Open, initial credit and one Data frame of the peer, with the grant pending. *)
Definition sample_pending : request_state :=
  let '(r, sl, _) := @enqueueOpen (reference_runtime [] []) _ _ sample_request (5%nat, []) None sample_call in
  let '(r, sl, _) := sendInitialResponseCredit r sl None in
  let '(r, out) := handleInbound_locked r (sample_data 1 (replicate 10 7)) in
  mkRequestState r sl Sending (match out with GrantNext n => Some n | _ => None end).

Lemma sample_pending_reached : rtc request_step (sample_start 5%nat) sample_pending.
Proof.
  unfold sample_start, sample_pending.
  destruct (@enqueueOpen (reference_runtime [] []) _ _ sample_request (5%nat, []) None sample_call)
    as [[r1 sl1] res1] eqn:H1.
  assert (res1 = Ok tt) as -> by (vm_compute in H1; by simplify_eq).
  eapply rtc_l; [by eapply (@rs_open _ _ (reference_runtime [] []))|].
  destruct (sendInitialResponseCredit r1 sl1 None) as [[r2 sl2] res2] eqn:H2.
  eapply rtc_l; [by eapply rs_initial|].
  destruct (handleInbound_locked r2 (sample_data 1 (replicate 10 7))) as [r3 out] eqn:H3.
  apply rtc_once. destruct out as [res|n]; [eapply rs_inbound|eapply rs_inbound_grant];
    try exact H3; vm_compute; discriminate.
Qed.

(** Three kinds of step as functions of the state. *)
Definition with_slots (st : request_state (S := slots)) (free : slots) : request_state :=
  mkRequestState (rs_req st) (free, (rs_sink st).2) (rs_phase st) (rs_grant st).
Definition after_grant (st : request_state (S := slots)) : request_state :=
  let '(r, sl, _) := grantReceiveCredit (rs_req st) (rs_sink st) (grant_of (rs_grant st)) in
  mkRequestState r sl (rs_phase st) None.
Definition after_cancel (st : request_state (S := slots)) (err : error) : request_state :=
  let '(r, sl) := cancel (rs_req st) (rs_sink st) err in mkRequestState r sl (rs_phase st) (rs_grant st).

Lemma with_slots_step st free : request_step st (with_slots st free).
Proof. destruct st as [r [s log] ph g]. by apply rs_session. Qed.

Lemma after_grant_step st n : rs_grant st = Some n -> request_step st (after_grant st).
Proof.
  destruct st as [r sl ph g]. simpl. intros ->. unfold after_grant. simpl.
  destruct (grantReceiveCredit r sl n) as [[r' sl'] res] eqn:Hg. by eapply rs_grant_credit.
Qed.

Lemma after_cancel_step st err : request_step st (after_cancel st err).
Proof.
  destruct st as [r sl ph g]. unfold after_cancel. simpl.
  destruct (cancel r sl err) as [r' sl'] eqn:Hc. by eapply rs_cancel.
Qed.

Definition sample_gap : request_state :=
  after_cancel (with_slots (after_grant (with_slots sample_pending 0%nat)) 1%nat) DeadlineExceeded.

(** A refused grant consumes a sequence number.  If the caller's deadline passes
    before the read loop aborts the request, the Cancel frame is accepted with the
    following number: the peer sees 1, 2, 4. *)
Theorem refused_grant_then_cancel_skips_a_sequence_number :
  rtc request_step (sample_start 5%nat) sample_gap /\
  frame_sequence <$> (rs_sink sample_gap).2 = [1; 2; 4].
Proof.
  split; [|vm_compute; reflexivity].
  etrans; [apply sample_pending_reached|]. unfold sample_gap.
  eapply rtc_l; [apply (with_slots_step _ 0%nat)|].
  eapply rtc_l; [apply (after_grant_step _ 10); vm_compute; reflexivity|].
  eapply rtc_l; [apply (with_slots_step _ 1%nat)|]. apply rtc_once, after_cancel_step.
Qed.

Lemma request_credit_is_bounded_witness :
  credit_inv sample_pending /\ receiveCredit (rs_req sample_pending) = 6 /\ rs_grant sample_pending = Some 10.
Proof.
  split; [|split; vm_compute; reflexivity].
  apply (request_credit_is_bounded (sample_start 5%nat)); [apply sample_fresh|apply sample_pending_reached].
Defined.


Lemma completion_is_final_witness :
  let done := mkRequestState (complete sample_request empty_Response (Some ErrDraining)).1 (5%nat, []) Sending None in
  let late := mkRequestState (complete (rs_req done) empty_Response (Some ErrTunnelClosed)).1 (5%nat, []) Sending None in
  req_err (rs_req late) = req_err (rs_req done).
Proof.
  intros done late.
  refine (proj1 (proj2 (completion_is_final done late _ _))); [reflexivity|].
  apply rtc_once. apply (rs_complete _ _ _ _ empty_Response (Some ErrTunnelClosed)).
Defined.

(** Twelve bytes of credit for twenty bytes of payload, in chunks of at most eight. *)
Lemma body_is_sent_within_credit_witness :
  let r := set_sendCredit sample_request 12 in
  body_post r (5%nat : slots) [] (replicate 20 1) (sendBody true r ((5%nat : slots), []) None (replicate 20 1)) /\
  (sendBody true r ((5%nat : slots), []) None (replicate 20 1)).2 = BodyWaits (replicate 8 1).
Proof.
  intros r. split; [|vm_compute; reflexivity].
  apply body_is_sent_within_credit. unfold body_ready. vm_compute. intuition (try congruence; try lia).
Defined.

Definition sample_stream : list ConnectRequest :=
  [sample_data 1 [1; 2]; sample_data 2 [3]; sample_inbound 3 (Req_HalfClose (Some (mkHalfClose [])));
   sample_inbound 4 (Req_Result (Some (mkResult RESULT_CODE_OK None [] [])))].

Lemma response_is_the_concatenation_witness :
  exists r' s', inbound_run (set_receiveCredit sample_request 16) (5%nat : slots) sample_stream = Some (r', s') /\
    exists pre last res, sample_stream = pre ++ [last] /\ creq_payload last = Some (Req_Result res) /\
      GetCode_result res = RESULT_CODE_OK /\ resp_Payload (response r') = [] ++ concat (data_of <$> pre).
Proof.
  destruct (inbound_run (set_receiveCredit sample_request 16) (5%nat : slots) sample_stream) as [[r' s']|] eqn:Hr;
    [|vm_compute in Hr; discriminate].
  exists r', s'. split; [reflexivity|].
  apply (response_is_the_concatenation (set_receiveCredit sample_request 16) (5%nat : slots) sample_stream r' s');
    [reflexivity|reflexivity|exact Hr|..]; vm_compute in Hr; injection Hr as <- _; reflexivity.
Defined.
