(* ===== verification/GatewayInSession.v ===== *)
(** * Sessions of gateway-in

    [services/gateway-in/internal/tunnel/session.go]: one authenticated reverse
    tunnel.  The fields of the Go struct are grouped by concern; requests are
    objects of a heap, as both maps of the session and the goroutine of the caller
    point to them.  The clock, the random source and the stream are inputs of the
    operations.  A session reaches its registry only through [InstanceLedger]. *)

From S2P Require Import Prelude TunnelContract TunnelValidate TunnelValidateProofs GatewayInErrors.
From S2P Require Import GatewayInConfig GatewayInNegotiation Scheduler LogicalRequest.
Local Open Scope Z_scope.

(** A gRPC status error. *)
Inductive status_code := CodeInvalidArgument | CodeUnavailable | CodeInternal | CodeResourceExhausted
  | CodePermissionDenied | CodeDeadlineExceeded | CodeCanceled.
Record status := mkStatus { st_code : status_code; st_message : string }.

Record sessionFailure := mkSessionFailure {
  requestErr : error;
  rpcErr : option status;
  reason : string
}.

(** The fields that never change. *)
Record sessionParams := mkSessionParams {
  sp_settings : settings;
  sp_id : bytes;
  sp_instanceID : bytes;
  sp_dataCenter : string;
  sp_limits : Limits;
  sp_routes : gset Z;
  sp_classes : gset Z;
  sp_capabilities : gset Z
}.

Definition request_ptr := positive.

Record request_table := mkTable {
  requests : gmap (list Z) request_ptr;
  routeActive : gmap Z Z;
  tombstones : gmap (list Z) request_ptr;
  tombstoneOrder : list (list Z);
  tombstonePosition : Z;
  (** the allocated requests *)
  heap : gmap request_ptr logicalRequest
}.

Record lifecycle := mkLifecycle {
  ctxErr : option error;
  failOnce : bool;
  drainOnce : bool;
  terminal : option sessionFailure;
  isReady : bool;
  isDraining : bool;
  isClosed : bool;
  failureReason : string;
  (** the time at which the drain timer fires *)
  drainTimer : option Z;
  localDrain : bool;
  drainSent : chan unit;
  (** the [done] channel is closed *)
  doneOnce : bool
}.

Record keepalive := mkKeepalive {
  lastActivity : Z;
  pendingPing : Z;
  pongReceived : chan unit
}.

Record session := mkSession {
  ses_params : sessionParams;
  outbound : outboundQueue;
  life : lifecycle;
  alive : keepalive;
  table : request_table
}.

Definition set_outbound (s : session) (q : outboundQueue) : session :=
  mkSession (ses_params s) q (life s) (alive s) (table s).
Definition set_life (s : session) (l : lifecycle) : session :=
  mkSession (ses_params s) (outbound s) l (alive s) (table s).
Definition set_alive (s : session) (a : keepalive) : session :=
  mkSession (ses_params s) (outbound s) (life s) a (table s).
Definition set_table (s : session) (t : request_table) : session :=
  mkSession (ses_params s) (outbound s) (life s) (alive s) t.
Definition set_heap (t : request_table) (h : gmap request_ptr logicalRequest) : request_table :=
  mkTable (requests t) (routeActive t) (tombstones t) (tombstoneOrder t) (tombstonePosition t) h.
(** Writes through a request pointer. *)
Definition store_request (s : session) (p : request_ptr) (r : logicalRequest) : session :=
  set_table s (set_heap (table s) (<[p := r]> (heap (table s)))).

(** What a session needs of its registry: giving a reservation of an instance back. *)
Class InstanceLedger (R : Type) := { releaseInstance : R -> bytes -> R }.

Definition newSession (params : sessionParams) : session :=
  mkSession params (newOutboundQueue (set_queues (sp_settings params)))
    (mkLifecycle None false false None false false false EmptyString None false (mkChan 1 []) false)
    (mkKeepalive 0 0 (mkChan 1 []))
    (mkTable ∅ ∅ ∅ [] 0 ∅).

(** ** The end of a session *)

(** [request.complete(Response{}, err)] for every request of the map. *)
Definition complete_requests (h : gmap request_ptr logicalRequest) (ps : list request_ptr) (err : error) :
    gmap request_ptr logicalRequest :=
  foldl (fun h p => alter (fun r => (complete r empty_Response (Some err)).1) p h) h ps.

(** [s.cancel()] *)
Definition cancel_ctx (l : lifecycle) : option error :=
  match ctxErr l with Some e => Some e | None => Some Canceled end.

Definition fail (s : session) (failure : sessionFailure) : session :=
  let l := life s in
  if failOnce l then s else
  let t := table s in
  let s := set_table s (set_heap t (complete_requests (heap t) (map_to_list (requests t)).*2 (requestErr failure))) in
  set_life s (mkLifecycle (cancel_ctx l)
    true (drainOnce l) (Some failure) false (isDraining l) true (reason failure) None (localDrain l) (drainSent l) (doneOnce l)).

Definition unavailable (why : string) : sessionFailure :=
  mkSessionFailure ErrTunnelClosed (Some (mkStatus CodeUnavailable "tunnel unavailable")) why.
Definition protocol_violation : sessionFailure :=
  mkSessionFailure ErrTunnelClosed (Some (mkStatus CodeInvalidArgument "tunnel protocol violation"))
    "protocol_violation".

(** [run] up to the start of its goroutines, and after it received the terminal
    failure; the registration is the registry's part of [run]. *)
Definition run_begin (s : session) (now : Z) : session :=
  let l := life s in
  let s := set_life s (mkLifecycle (ctxErr l) (failOnce l) (drainOnce l) (terminal l) true (isDraining l)
    (isClosed l) (failureReason l) (drainTimer l) (localDrain l) (drainSent l) (doneOnce l)) in
  set_alive s (mkKeepalive now (pendingPing (alive s)) (pongReceived (alive s))).

Definition run_end (s : session) : session :=
  let l := life s in
  let s := set_outbound s (discard (outbound s)) in
  set_life s (mkLifecycle (cancel_ctx l) (failOnce l) (drainOnce l) (terminal l) (isReady l) (isDraining l)
    (isClosed l) (failureReason l) (drainTimer l) (localDrain l) (drainSent l) true).

(** [abortBeforeRun] without the registry's part. *)
Definition abortBeforeRun (s : session) : session :=
  let l := life s in
  set_life s (mkLifecycle (cancel_ctx l) (failOnce l) (drainOnce l) (terminal l) (isReady l) (isDraining l)
    (isClosed l) (failureReason l) (drainTimer l) (localDrain l) (drainSent l) true).

(** ** Routing state *)

Definition accepts (s : session) (now route : Z) : session * bool :=
  let l := life s in
  if negb (isReady l) || isDraining l || isClosed l then (s, false) else
  let supported := bool_decide (route ∈ sp_routes (ses_params s)) in
  let isStale := set_staleAfter (sp_settings (ses_params s)) <=? now - lastActivity (alive s) in
  if isStale then
    let s := set_life s (mkLifecycle (ctxErr l) (failOnce l) (drainOnce l) (terminal l) false (isDraining l)
      (isClosed l) (failureReason l) (drainTimer l) (localDrain l) (drainSent l) (doneOnce l)) in
    (fail s (unavailable "stale"), false)
  else (s, supported).

Definition isReadyForRoute (s : session) (now route : Z) : bool :=
  let l := life s in
  if negb (isReady l) || isDraining l || isClosed l then false else
  bool_decide (route ∈ sp_routes (ses_params s)) &&
  (now - lastActivity (alive s) <? set_staleAfter (sp_settings (ses_params s))).

(** ** Starting a request *)

Definition effective_policy (limits : Limits) (policy : RoutePolicy) : RoutePolicy :=
  mkRoutePolicy (TrafficClass policy)
    (MaxRequestBytes policy `min` max_message_bytes limits)
    (MaxResponseBytes policy `min` max_message_bytes limits)
    (MaxDeadline policy)
    (MaxInFlight policy `min` max_in_flight_requests limits).

Definition route_count (t : request_table) (route : Z) : Z := default 0 (routeActive t !! route).

(** The critical section of one attempt of [startRequest]: a refusal, a collision
    of the identifier, or a new request. *)
Inductive start_attempt :=
| StartRefused (err : error)
| StartCollision
| Started (s : session) (p : request_ptr).

Definition startRequest_attempt (s : session) (requestID : bytes) (route : Z) (policy : RoutePolicy)
    (deadline : Z) : start_attempt :=
  let l := life s in
  let t := table s in
  if negb (isReady l) || isDraining l || isClosed l then StartRefused ErrDraining else
  if negb (bool_decide (route ∈ sp_routes (ses_params s))) then StartRefused ErrRouteNotAllowed else
  if (max_in_flight_requests (sp_limits (ses_params s)) <=? Z.of_nat (size (requests t))) ||
     (MaxInFlight policy <=? route_count t route)
  then StartRefused ErrQueueFull else
  if bool_decide (is_Some (requests t !! requestID)) then StartCollision else
  if bool_decide (is_Some (tombstones t !! requestID)) then StartCollision else
  let p := fresh (dom (heap t)) in
  let request := newLogicalRequest requestID route policy deadline in
  Started (set_table s (mkTable (<[requestID := p]> (requests t))
    (<[route := route_count t route + 1]> (routeActive t)) (tombstones t) (tombstoneOrder t)
    (tombstonePosition t) (<[p := request]> (heap t)))) p.

(** [for range 4]: [ids] are the results of [randomOpaqueID]. *)
Fixpoint startRequest_loop (attempts : nat) (s : session) (ids : nat -> option bytes) (route : Z)
    (policy : RoutePolicy) (deadline : Z) : session * result error request_ptr :=
  match attempts with
  | O => (s, Err (errors_New "tunnel: request id collision"))
  | S attempts =>
      match ids attempts with
      | None => (s, Err (errors_New "tunnel: generate opaque id"))
      | Some requestID =>
          match startRequest_attempt s requestID route policy deadline with
          | StartRefused err => (s, Err err)
          | StartCollision => startRequest_loop attempts s ids route policy deadline
          | Started s p => (s, Ok p)
          end
      end
  end.

Definition startRequest (s : session) (ids : nat -> option bytes) (route : Z) (policy : RoutePolicy)
    (deadline requestBytes : Z) : session * result error request_ptr :=
  let effectivePolicy := effective_policy (sp_limits (ses_params s)) policy in
  if MaxRequestBytes effectivePolicy <? requestBytes
  then (s, Err (newResultError RESULT_CODE_RESOURCE_EXHAUSTED))
  else startRequest_loop 4 s ids route effectivePolicy deadline.

(** ** Ending a request *)

Definition addTombstoneLocked (t : request_table) (capacity : Z) (requestID : bytes) (p : request_ptr) :
    result error request_table :=
  if len (tombstoneOrder t) <? capacity then
    Ok (mkTable (requests t) (routeActive t) (<[requestID := p]> (tombstones t))
      (tombstoneOrder t ++ [requestID]) (tombstonePosition t) (heap t))
  else
    oldest ← index (tombstoneOrder t) (tombstonePosition t);
    (if capacity =? 0 then Panic else
     Ok (mkTable (requests t) (routeActive t)
      (<[requestID := p]> (delete oldest (tombstones t)))
      (<[Z.to_nat (tombstonePosition t) := requestID]> (tombstoneOrder t))
      ((tombstonePosition t + 1) `mod` capacity) (heap t))).

(** The goroutine of [finishLocalDrainAfterSend] is started once; its wait is the
    step [drain_sent] below. *)
Definition finishLocalDrainAfterSend (s : session) : session :=
  let l := life s in
  set_life s (mkLifecycle (ctxErr l) (failOnce l) true (terminal l) (isReady l) (isDraining l) (isClosed l)
    (failureReason l) (drainTimer l) (localDrain l) (drainSent l) (doneOnce l)).

Definition drained : sessionFailure := mkSessionFailure ErrDraining None "drained".

Section ledger.
Context {R : Type} `{InstanceLedger R}.

Definition decrement_route (m : gmap Z Z) (route : Z) : gmap Z Z :=
  let n := default 0 (m !! route) - 1 in
  if n =? 0 then delete route m else <[route := n]> m.

Definition removeRequest (s : session) (reg : R) (p : request_ptr) (addTombstone : bool) :
    result error (session * R) :=
  let t := table s in
  match heap t !! p with
  | None => Panic
  | Some request =>
      if negb (bool_decide (requests t !! req_id request = Some p)) then Ok (s, reg) else
      let t := mkTable (delete (req_id request) (requests t)) (decrement_route (routeActive t) (req_route request))
        (tombstones t) (tombstoneOrder t) (tombstonePosition t) (heap t) in
      t ← (if addTombstone
           then addTombstoneLocked t (max_in_flight_requests (sp_limits (ses_params s))) (req_id request) p
           else Ok t);
      let shouldFinishDrain := isDraining (life s) && (Z.of_nat (size (requests t)) =? 0) in
      let isLocalDrain := localDrain (life s) in
      let s := set_table s t in
      let s := if addTombstone then store_request s p (compactForTombstone request) else s in
      let reg := releaseInstance reg (sp_instanceID (ses_params s)) in
      let s := if shouldFinishDrain then
                 if isLocalDrain then finishLocalDrainAfterSend s else fail s drained
               else s in
      Ok (s, reg)
  end.

Definition finishRequest (s : session) (reg : R) (p : request_ptr) : result error (session * R) :=
  removeRequest s reg p true.
Definition rollbackRequestBeforeOpen (s : session) (reg : R) (p : request_ptr) : result error (session * R) :=
  removeRequest s reg p false.
End ledger.

(** ** Sending *)

Section frames.
Context `{ProtoRuntime}.

Definition session_enqueueFrame (s : session) (ctx : option error) (frame : ConnectResponse) :
    session * result error unit :=
  let limits := sp_limits (ses_params s) in
  if isClosed (life s) then (s, Err ErrTunnelClosed) else
  match ValidateGatewayInFrame (Some frame) with
  | Panic => (s, Panic)
  | Err e => (s, Err (Joined ErrProtocolViolation (FrameError e)))
  | Ok _ =>
      if negb (bytes_Equal (GetTunnelId (cresp_header frame)) (sp_id (ses_params s)))
      then (s, Err ErrProtocolViolation)
      else if max_frame_bytes limits <? size_response frame then (s, Err ErrQueueFull)
      else if match GetData_resp frame with
              | Some d => max_data_bytes limits <? len (data_payload d)
              | None => false
              end then (s, Err ErrQueueFull)
      else if match GetCredit_resp frame with
              | Some c => max_credit_bytes limits <? credit_bytes c
              | None => false
              end then (s, Err ErrProtocolViolation)
      else let '(q, r) := enqueue (outbound s) ctx frame in (set_outbound s q, r)
  end.

#[export] Instance session_sink : FrameSink session := {
  sink_id s := sp_id (ses_params s);
  sink_limits s := sp_limits (ses_params s);
  sink_initialResponseCredit s := set_initialResponseCredit (sp_settings (ses_params s));
  sink_ctxErr s := ctxErr (life s);
  enqueueFrame := session_enqueueFrame
}.

(** The [any] payload is one of the response oneof wrappers. *)
Definition enqueueControl (s : session) (ctx : option error) (payload : ConnectResponse_payload) :
    session * result error unit :=
  let frame := mkConnectResponse
    (Some (mkFrameHeader protocolVersion (sp_id (ses_params s)) [] 0 TRAFFIC_CLASS_UNSPECIFIED []))
    (Some payload) [] in
  match payload with
  | Resp_Ping _ | Resp_Pong _ | Resp_Drain _ => session_enqueueFrame s ctx frame
  | _ => (s, Err ErrProtocolViolation)
  end.

(** ** Draining *)

Definition markDraining (s : session) (now deadline : Z) (local : bool) : session * result error bool :=
  let l := life s in
  let remaining := deadline - now in
  if remaining <=? 0 then (s, Err DeadlineExceeded) else
  if isClosed l then (s, Err ErrTunnelClosed) else
  let l := mkLifecycle (ctxErr l) (failOnce l) (drainOnce l) (terminal l) (isReady l) true (isClosed l)
    (failureReason l) (Some (now + remaining)) (localDrain l || local) (drainSent l) (doneOnce l) in
  (set_life s l, Ok (Z.of_nat (size (requests (table s))) =? 0)).

Definition initiateDrain (s : session) (now deadline drainReason : Z) : session * result error unit :=
  if negb (bool_decide (CAPABILITY_DRAIN ∈ sp_capabilities (ses_params s))) then
    (fail s (mkSessionFailure ErrDraining None "drain_unsupported"), Ok tt)
  else
    match markDraining s now deadline true with
    | (s, Err err) => (s, Err err)
    | (s, Panic) => (s, Panic)
    | (s, Ok shouldFinish) =>
        let '(s, r) := enqueueControl s (ctxErr (life s))
          (Resp_Drain (Some (mkDrain (Some (timestamppb_New deadline)) drainReason []))) in
        match r with
        | Err err => (fail s (mkSessionFailure ErrDraining None "drain_enqueue_failed"), Err err)
        | Panic => (s, Panic)
        | Ok _ => (if shouldFinish : bool then finishLocalDrainAfterSend s else s, Ok tt)
        end
    end.

(** ** Receiving *)

Definition validateInbound (s : session) (frame : ConnectRequest) : result error unit :=
  let limits := sp_limits (ses_params s) in
  map_err FrameError (ValidateGatewayOutFrame (Some frame));;
  reject_if (match creq_payload frame with Some (Req_Hello _) => true | _ => false end) ErrProtocolViolation;;
  reject_if (max_frame_bytes limits <? size_request frame) ErrProtocolViolation;;
  reject_if (negb (bytes_Equal (GetTunnelId (creq_header frame)) (sp_id (ses_params s)))) ErrProtocolViolation;;
  reject_if (match GetData_req frame with
             | Some d => max_data_bytes limits <? len (data_payload d) | None => false end) ErrProtocolViolation;;
  reject_if (match GetCredit_req frame with
             | Some c => max_credit_bytes limits <? credit_bytes c | None => false end) ErrProtocolViolation;;
  match GetResult_req frame with
  | Some res =>
      reject_if (max_metadata_entries limits <? len (res_metadata res)) ErrProtocolViolation;;
      reject_if (existsb (fun m => match m with
                                   | None => true
                                   | Some m => max_metadata_value_bytes limits <? len (md_value m)
                                   end) (res_metadata res)) ErrProtocolViolation
  | None => Ok tt
  end.

(** [copy(requestID[:], source)] into a zeroed array of 16 bytes *)
Definition copy16 (source : bytes) : bytes := take 16 (source ++ replicate 16 0).

Definition GetNonce_ping (p : option Ping) : Z := default 0 (ping_nonce <$> p).
Definition GetNonce_pong (p : option Pong) : Z := default 0 (pong_nonce <$> p).
Definition drain_AsTime (d : option Drain) : Z :=
  default 0 (timestamp_AsTime <$> (d ≫= drain_deadline)).

(** The part of [handleInbound] after the switch: the frames of a request. *)
Definition handleRequestFrame (s : session) (frame : ConnectRequest) : session * result error unit :=
  let requestID := copy16 (GetRequestId (creq_header frame)) in
  let t := table s in
  let request := match requests t !! requestID with
                 | Some p => Some p
                 | None => tombstones t !! requestID
                 end in
  match request with
  | None => (s, Err ErrProtocolViolation)
  | Some p =>
      match heap t !! p with
      | None => (s, Panic)
      | Some r =>
          if negb (GetTrafficClass (creq_header frame) =? TrafficClass (req_policy r))
          then (s, Err ErrProtocolViolation) else
          let '(r, s, err) := handleInbound r s frame in
          let r := match err with
                   | Err e => if errors_Is e ErrQueueFull then (completeLocalAbort r (Some ErrQueueFull)).1 else r
                   | _ => r
                   end in
          (store_request s p r, err)
      end
  end.

Definition session_handleInbound (s : session) (now : Z) (frame : ConnectRequest) : session * result error unit :=
  match creq_payload frame with
  | Some (Req_Ping ping) =>
      enqueueControl s (ctxErr (life s)) (Resp_Pong (Some (mkPong (GetNonce_ping ping) [])))
  | Some (Req_Pong pong) =>
      let a := alive s in
      if (pendingPing a =? 0) || negb (pendingPing a =? GetNonce_pong pong)
      then (s, Err ErrProtocolViolation)
      else (set_alive s (mkKeepalive (lastActivity a) 0 (default (pongReceived a) (try_send (pongReceived a) tt))),
            Ok tt)
  | Some (Req_Drain drain) =>
      if negb (bool_decide (CAPABILITY_DRAIN ∈ sp_capabilities (ses_params s)))
      then (s, Err ErrProtocolViolation) else
      match markDraining s now (drain_AsTime drain) false with
      | (s, Err err) => (s, Err err)
      | (s, Panic) => (s, Panic)
      | (s, Ok shouldFinish) => (if shouldFinish : bool then fail s drained else s, Ok tt)
      end
  | Some (Req_RevokeSession _) => (s, Err ErrProtocolViolation)
  | _ => handleRequestFrame s frame
  end.

(** One iteration of [readLoop] after a successful receive; the boolean tells
    whether the loop goes on. *)
Definition readLoop_frame (s : session) (now : Z) (frame : ConnectRequest) : session * bool :=
  match validateInbound s frame with
  | Err _ | Panic => (fail s protocol_violation, false)
  | Ok _ =>
      let a := alive s in
      let s := set_alive s (mkKeepalive now (pendingPing a) (pongReceived a)) in
      let '(s, r) := session_handleInbound s now frame in
      match r with
      | Ok _ => (s, true)
      | Err e => if errors_Is e ErrQueueFull then (s, true) else (fail s protocol_violation, false)
      | Panic => (s, false)
      end
  end.

(** Why a receive failed. *)
Inductive receive_error := ReceiveEOF | ReceiveCanceled | ReceiveStreamDone | ReceiveOther.

Definition handleReadError (s : session) (e : receive_error) : session :=
  match e with
  | ReceiveEOF | ReceiveCanceled | ReceiveStreamDone =>
      fail s (mkSessionFailure ErrTunnelClosed None "peer_closed")
  | ReceiveOther => fail s (unavailable "receive_failed")
  end.

(** One iteration of [writeLoop]: the frame handed to the stream, if any. *)
Definition writeLoop_step (s : session) (preferDone sendOk : bool) : session * option ConnectResponse :=
  match dequeue preferDone (ctxErr (life s)) (outbound s) with
  | DequeueError _ q | Sleeping q => (set_outbound s q, None)
  | Dequeued frame q =>
      let s := set_outbound s q in
      if negb sendOk then (fail s (unavailable "send_failed"), None) else
      let l := life s in
      let s := match cresp_payload frame with
               | Some (Resp_Drain (Some _)) =>
                   set_life s (mkLifecycle (ctxErr l) (failOnce l) (drainOnce l) (terminal l) (isReady l)
                     (isDraining l) (isClosed l) (failureReason l) (drainTimer l) (localDrain l)
                     (default (drainSent l) (try_send (drainSent l) tt)) (doneOnce l))
               | _ => s
               end in
      (s, Some frame)
  end.

(** [randomNonce]: the first eight bytes of an opaque identifier. *)
Definition randomNonce (id : option bytes) : result error Z :=
  match id with
  | None => Err (errors_New "tunnel: generate opaque id")
  | Some value =>
      let nonce := foldl (fun nonce part => Z.lor (u64 (Z.shiftl nonce 8)) part) 0 (take 8 value) in
      Ok (if nonce =? 0 then 1 else nonce)
  end.

(** [keepaliveLoop] when its timer fires; a received pong only resets the timer. *)
Definition keepalive_tick (s : session) (id : option bytes) : session :=
  let a := alive s in
  if negb (pendingPing a =? 0) then fail s (unavailable "pong_timeout") else
  match randomNonce id with
  | Ok nonce =>
      let s := set_alive s (mkKeepalive (lastActivity a) nonce (pongReceived a)) in
      let '(s, r) := enqueueControl s (ctxErr (life s)) (Resp_Ping (Some (mkPing nonce []))) in
      match r with
      | Ok _ => s
      | _ => fail s (mkSessionFailure ErrTunnelClosed
               (Some (mkStatus CodeResourceExhausted "tunnel control saturated")) "control_queue_full")
      end
  | _ => fail s (mkSessionFailure ErrTunnelClosed (Some (mkStatus CodeInternal "internal error")) "random_failed")
  end.

(** The drain timer fires, and the goroutine of [finishLocalDrainAfterSend] sees
    that the Drain frame was sent. *)
Definition drain_deadline_passed (s : session) : session :=
  fail s (mkSessionFailure ErrDraining None "drain_deadline").
Definition drain_sent (s : session) : option session :=
  if negb (drainOnce (life s)) then None else
  '(_, c) ← try_recv (drainSent (life s));
  let l := life s in
  Some (fail (set_life s (mkLifecycle (ctxErr l) (failOnce l) (drainOnce l) (terminal l) (isReady l)
    (isDraining l) (isClosed l) (failureReason l) (drainTimer l) (localDrain l) c (doneOnce l))) drained).
End frames.
