(* ===== verification/GatewayInSessionProofs.v ===== *)
(** * Invariants of gateway-in sessions

    The well-formedness of a session, its preservation by every operation of
    [GatewayInSession], and the session as the [FrameSink] of its requests. *)

From S2P Require Import Prelude TunnelContract TunnelRuntime TunnelValidate TunnelValidateProofs.
From S2P Require Import GatewayInErrors GatewayInConfig GatewayInNegotiation Scheduler LogicalRequest.
From S2P Require Import GatewayInSession.
Local Open Scope Z_scope.

(** ** The outbound queue of a session *)

Section queue.
Context `{ProtoRuntime}.

(** A frame the session may send: valid, addressed with the tunnel identifier,
    and within the negotiated limits. *)
Definition sendable (params : sessionParams) (f : ConnectResponse) : Prop :=
  gateway_in_frame_wf f /\ GetTunnelId (cresp_header f) = sp_id params /\
  size_response f <= max_frame_bytes (sp_limits params) /\
  (forall d, GetData_resp f = Some d -> len (data_payload d) <= max_data_bytes (sp_limits params)) /\
  (forall c, GetCredit_resp f = Some c -> credit_bytes c <= max_credit_bytes (sp_limits params)).

Definition outbound_inv (s : session) : Prop :=
  queue_inv (outbound s) /\
  forall lane f, f ∈ lane_frames (outbound s) lane -> sendable (ses_params s) f.

(** A session that differs from another in its queue only. *)
Definition queue_step_of (s s' : session) : Prop :=
  ses_params s' = ses_params s /\ life s' = life s /\ alive s' = alive s /\ table s' = table s /\
  (outbound_inv s -> outbound_inv s').

Lemma queue_step_refl s : queue_step_of s s.
Proof. by split_and!. Qed.

Lemma queue_step_trans s1 s2 s3 : queue_step_of s1 s2 -> queue_step_of s2 s3 -> queue_step_of s1 s3.
Proof.
  intros (? & ? & ? & ? & ?) (? & ? & ? & ? & ?). split_and!; [congruence..|auto].
Qed.

Lemma enqueueFrame_cases s ctx f :
  (exists e, session_enqueueFrame s ctx f = (s, Err e)) \/
  (isClosed (life s) = false /\ sendable (ses_params s) f /\
   exists q r, enqueue (outbound s) ctx f = (q, r) /\ session_enqueueFrame s ctx f = (set_outbound s q, r)).
Proof.
  unfold session_enqueueFrame. destruct (isClosed (life s)) eqn:Hc; [left; eauto|].
  destruct (ValidateGatewayInFrame (Some f)) as [[]|e|] eqn:Hv; [|left; eauto|by apply in_frame_no_panic in Hv].
  apply in_frame_Ok in Hv. destruct (bytes_Equal _ _) eqn:Hid; simpl; [|left; eauto].
  unfold bytes_Equal in Hid. go_bool.
  destruct (Z.ltb_spec (max_frame_bytes (sp_limits (ses_params s))) (size_response f)) as [|Hsz]; [left; eauto|].
  destruct (GetData_resp f) as [d|] eqn:Hd;
    [destruct (Z.ltb_spec (max_data_bytes (sp_limits (ses_params s))) (len (data_payload d))); [left; eauto|]|];
  (destruct (GetCredit_resp f) as [c|] eqn:Hcr;
    [destruct (Z.ltb_spec (max_credit_bytes (sp_limits (ses_params s))) (credit_bytes c)); [left; eauto|]|]);
  destruct (enqueue (outbound s) ctx f) as [q r] eqn:Hq; right;
  (split; [done|]; split; [|by exists q, r]);
  unfold sendable; rewrite Hd, Hcr; split_and!; try done; intros; simplify_eq; done.
Qed.

Lemma enqueueFrame_step s ctx f : queue_step_of s (session_enqueueFrame s ctx f).1.
Proof.
  destruct (enqueueFrame_cases s ctx f) as [[e ->]|(_ & Hf & q & r & Hq & ->)]; [apply queue_step_refl|].
  split_and!; try done. intros [Hinv Hall]. pose proof (enqueue_spec _ ctx f Hinv) as [Hq' Hcases].
  rewrite Hq in Hq', Hcases. simpl in *. split; [done|]. intros lane g Hg.
  destruct Hcases as [(_ & _ & l & Hl & _ & _ & Heq & Hne & _)|[-> _]]; [|by eapply Hall].
  destruct (decide (lane = l)) as [->|Hd]; simpl in Hg; [|rewrite Hne in Hg by done; by eapply Hall].
  rewrite Heq in Hg. apply elem_of_app in Hg as [Hg|Hg]; [by eapply Hall|].
  by apply list_elem_of_singleton in Hg as ->.
Qed.

#[export] Instance session_sink_laws : FrameSinkLaws session.
Proof.
  split.
  - intros s ctx f. destruct (enqueueFrame_step s ctx f) as (Hp & _). simpl. by rewrite Hp.
  - intros s ctx f e. simpl. destruct (enqueueFrame_cases s ctx f) as [[e' ->]|(_ & _ & q & r & Hq & ->)]; [done|].
    simpl. intros ->. unfold enqueue in Hq. destruct ctx; [by simplify_eq; destruct s|].
    destruct (queueLane (frame_class f)) as [lane valid]. destruct valid; simpl in Hq; [|simplify_eq; by destruct s].
    destruct (enqueue_push (outbound s) lane f); simplify_eq. by destruct s.
  - intros s ctx f. simpl. destruct (enqueueFrame_cases s ctx f) as [[e' ->]|(_ & _ & q & r & Hq & ->)]; [done|].
    simpl. intros ->. unfold enqueue in Hq. destruct ctx; [done|].
    destruct (queueLane (frame_class f)) as [lane valid]. destruct valid; simpl in Hq; [|done].
    by destruct (enqueue_push (outbound s) lane f).
Qed.

Lemma enqueueControl_step s ctx p : queue_step_of s (enqueueControl s ctx p).1.
Proof. unfold enqueueControl. destruct p; try apply queue_step_refl; apply enqueueFrame_step. Qed.
End queue.

(** ** What the request code does to its session *)

Definition request_kept (r r' : logicalRequest) : Prop :=
  req_id r' = req_id r /\ req_route r' = req_route r /\ req_policy r' = req_policy r /\
  (isCompleted r = true -> isCompleted r' = true).

Lemma request_kept_refl r : request_kept r r.
Proof. by split_and!. Qed.

Lemma request_kept_trans r1 r2 r3 : request_kept r1 r2 -> request_kept r2 r3 -> request_kept r1 r3.
Proof. intros (? & ? & ? & ?) (? & ? & ? & ?). split_and!; [congruence..|auto]. Qed.

Lemma completeLocked_kept r resp err :
  request_kept r (completeLocked r resp err).1 /\ isCompleted (completeLocked r resp err).1 = true.
Proof. unfold completeLocked. destruct (isCompleted r) eqn:Hc; by split_and!. Qed.

Lemma completeLocalAbort_kept r err :
  request_kept r (completeLocalAbort r err).1 /\ isCompleted (completeLocalAbort r err).1 = true.
Proof.
  unfold completeLocalAbort. destruct (isCompleted r) eqn:Hc; [by split_and!|].
  unfold completeLocked. simpl. rewrite Hc. by split_and!.
Qed.

Section request_code.
Context `{ProtoRuntime}.

(** The operations the goroutine of the caller runs on its request. *)
Inductive request_code (r : logicalRequest) (s : session) : logicalRequest -> session -> Prop :=
| rc_open ctx call r' s' res : enqueueOpen r s ctx call = (r', s', res) -> request_code r s r' s'
| rc_initial ctx r' s' res : sendInitialResponseCredit r s ctx = (r', s', res) -> request_code r s r' s'
| rc_body preferDone ctx payload r' s' res :
    sendBody preferDone r s ctx payload = (r', s', res) -> request_code r s r' s'
| rc_cancel err r' s' : cancel r s err = (r', s') -> request_code r s r' s'
| rc_complete resp err : request_code r s (complete r resp err).1 s
| rc_abort err : request_code r s (completeLocalAbort r err).1 s.

Lemma payload_code r s ctx p r' s' res :
  enqueuePayloadLocked r s ctx p = (r', s', res) -> queue_step_of s s' /\ request_kept r r'.
Proof.
  unfold enqueuePayloadLocked. destruct (isCompleted r) eqn:Hc; [intros; simplify_eq; split; [apply queue_step_refl|apply request_kept_refl]|].
  destruct (_ =? MaxUint64); [intros; simplify_eq; split; [apply queue_step_refl|apply request_kept_refl]|].
  assert (Hk : forall v, request_kept r (set_outboundSequence r v)) by (intros; by split_and!).
  destruct p; cbv beta zeta iota; try (intros; simplify_eq; split; [apply queue_step_refl|apply Hk]);
    match goal with |- context [enqueueFrame s ctx ?f] =>
      pose proof (enqueueFrame_step s ctx f) as Hs;
      change (enqueueFrame s ctx f) with (session_enqueueFrame s ctx f);
      destruct (session_enqueueFrame s ctx f) as [s1 res1] end;
    intros; simplify_eq; by split.
Qed.

Lemma take_code fuel pd limits ctx n r r' out :
  takeSendCredit_loop fuel pd r limits ctx n = (r', out) -> request_kept r r'.
Proof. intros (m & c & -> & _)%take_effect. by split_and!. Qed.

Lemma body_code fuel pd ctx : forall r s payload r' s' res,
  sendBody_loop fuel pd r s ctx payload = (r', s', res) -> queue_step_of s s' /\ request_kept r r'.
Proof.
  induction fuel as [|fuel IH]; intros r s payload r' s' res; cbn [sendBody_loop].
  { intros; simplify_eq. split; [apply queue_step_refl|apply request_kept_refl]. }
  destruct (len payload =? 0).
  - destruct (enqueuePayload r s ctx _) as [[r1 s1] res1] eqn:He. apply payload_code in He.
    destruct res1; intros; by simplify_eq.
  - destruct (takeSendCredit pd r _ ctx _) as [r1 taken] eqn:Ht. apply take_code in Ht.
    destruct taken; [|intros; simplify_eq; split; [apply queue_step_refl|done]..].
    destruct (slice payload 0 _) as [chunk|e|]; [|intros; simplify_eq; split; [apply queue_step_refl|done]..].
    destruct (enqueuePayload r1 s ctx _) as [[r2 s2] res2] eqn:He. apply payload_code in He as [Hs Hk].
    pose proof (request_kept_trans _ _ _ Ht Hk) as Hk2.
    destruct res2; [|intros; by simplify_eq..].
    destruct (slice payload _ _) as [rest|e|]; [|intros; by simplify_eq..].
    intros [Hs' Hk']%IH. split; [by eapply queue_step_trans|by eapply request_kept_trans].
Qed.

Lemma request_code_step r s r' s' : request_code r s r' s' -> queue_step_of s s' /\ request_kept r r'.
Proof.
  intros [ctx call r1 s1 res He|ctx r1 s1 res He|pd ctx payload r1 s1 res He|err r1 s1 He|resp err|err].
  - by apply payload_code in He.
  - unfold sendInitialResponseCredit in He. destruct (enqueuePayloadLocked _ _ _ _) as [[r2 s2] res2] eqn:Hp.
    apply payload_code in Hp as [? Hk]. destruct res2; simplify_eq; split; done.
  - by apply body_code in He.
  - unfold cancel, cancelWithBarrier in He.
    destruct (isCompleted r) eqn:Hc; [simplify_eq; split; [apply queue_step_refl|apply request_kept_refl]|].
    destruct (enqueuePayloadLocked _ _ _ _) as [[r2 s2] res2] eqn:Hp. simplify_eq.
    apply payload_code in Hp as [? Hk]. split; [done|]. eapply request_kept_trans; [exact Hk|].
    eapply request_kept_trans; [|apply completeLocked_kept]. by split_and!.
  - split; [apply queue_step_refl|apply completeLocked_kept].
  - split; [apply queue_step_refl|apply completeLocalAbort_kept].
Qed.

Lemma inbound_kept r r' out : inbound_effect r r' out -> request_kept r r'.
Proof. intros []; by split_and!. Qed.

Lemma grant_code r s n r' s' res : grantReceiveCredit r s n = (r', s', res) -> queue_step_of s s' /\ request_kept r r'.
Proof.
  unfold grantReceiveCredit. destruct (isCompleted r) eqn:Hc;
    [intros; simplify_eq; split; [apply queue_step_refl|apply request_kept_refl]|].
  destruct (enqueuePayloadLocked _ _ _ _) as [[r1 s1] res1] eqn:He. apply payload_code in He as [? Hk].
  destruct res1; intros; simplify_eq; split; done.
Qed.

Lemma handleInbound_code r s f r' s' res :
  credit_typed f -> handleInbound r s f = (r', s', res) -> queue_step_of s s' /\ request_kept r r'.
Proof.
  intros Hty. unfold handleInbound. destruct (handleInbound_locked r f) as [r1 out] eqn:Hl.
  apply inbound_locked_effect in Hl as Hk%inbound_kept; [|done].
  destruct out; [intros; simplify_eq; split; [apply queue_step_refl|done]|].
  intros [? Hk2]%grant_code. split; [done|]. by eapply request_kept_trans.
Qed.
End request_code.

(** ** The request table *)

(** The active requests of a route. *)
Definition on_route (h : gmap request_ptr logicalRequest) (route : Z) (kp : list Z * request_ptr) : Prop :=
  req_route <$> h !! kp.2 = Some route.

#[export] Instance on_route_dec h route kp : Decision (on_route h route kp).
Proof. unfold on_route. solve_decision. Defined.

Definition route_load (t : request_table) (route : Z) : Z :=
  Z.of_nat (size (filter (on_route (heap t) route) (requests t))).

Lemma route_load_nonneg t route : 0 <= route_load t route.
Proof. unfold route_load. lia. Qed.

Record table_inv (capacity : Z) (t : request_table) : Prop := {
  ti_requests : forall id p, requests t !! id = Some p -> exists r, heap t !! p = Some r /\ req_id r = id;
  ti_tombstones : forall id p, tombstones t !! id = Some p -> exists r, heap t !! p = Some r /\ req_id r = id;
  ti_disjoint : forall id, is_Some (requests t !! id) -> tombstones t !! id = None;
  ti_count : forall route, routeActive t !! route =
    if route_load t route =? 0 then None else Some (route_load t route);
  ti_bound : Z.of_nat (size (requests t)) <= capacity;
  ti_order : NoDup (tombstoneOrder t);
  ti_order_dom : forall id, id ∈ tombstoneOrder t <-> is_Some (tombstones t !! id);
  ti_order_len : len (tombstoneOrder t) <= capacity;
  ti_position : 0 <= tombstonePosition t < capacity
}.

Lemma route_count_load capacity t route : table_inv capacity t -> route_count t route = route_load t route.
Proof.
  intros Ht. unfold route_count. rewrite (ti_count _ _ Ht).
  destruct (Z.eqb_spec (route_load t route) 0); simpl; lia.
Qed.

(** A heap in which every request keeps its identifier and route. *)
Definition heap_kept (h h' : gmap request_ptr logicalRequest) : Prop :=
  forall p r, h !! p = Some r -> exists r', h' !! p = Some r' /\ req_id r' = req_id r /\ req_route r' = req_route r.

Lemma route_load_heap t h' route :
  (forall id p, requests t !! id = Some p -> is_Some (heap t !! p)) -> heap_kept (heap t) h' ->
  route_load (set_heap t h') route = route_load t route.
Proof.
  intros Hr Hk. unfold route_load. simpl. do 2 f_equal. apply map_filter_ext.
  intros id p Hp. unfold on_route. simpl. destruct (Hr _ _ Hp) as [r Hh].
  destruct (Hk _ _ Hh) as (r' & Hh' & _ & Hroute). rewrite Hh, Hh'. simpl. by rewrite Hroute.
Qed.

Lemma table_inv_heap capacity t h' :
  table_inv capacity t -> heap_kept (heap t) h' -> table_inv capacity (set_heap t h').
Proof.
  intros Ht Hk. pose proof Ht as []. split; simpl; try done.
  - intros id p Hp. destruct (ti_requests0 _ _ Hp) as (r & Hr & Hid).
    destruct (Hk _ _ Hr) as (r' & ? & ? & _). exists r'. split; [done|congruence].
  - intros id p Hp. destruct (ti_tombstones0 _ _ Hp) as (r & Hr & Hid).
    destruct (Hk _ _ Hr) as (r' & ? & ? & _). exists r'. split; [done|congruence].
  - intros route. rewrite route_load_heap; [apply ti_count0| |done].
    intros id p Hp. destruct (ti_requests0 _ _ Hp) as (r & Hr & _). eauto.
Qed.

Lemma heap_kept_insert h p r r' :
  h !! p = Some r -> req_id r' = req_id r -> req_route r' = req_route r -> heap_kept h (<[p := r']> h).
Proof.
  intros Hp Hid Hroute p' x Hx. destruct (decide (p' = p)) as [->|Hne].
  - rewrite lookup_insert_eq. simplify_eq. eauto.
  - rewrite lookup_insert_ne by done. eauto.
Qed.

Lemma complete_requests_lookup ps err : forall h p,
  complete_requests h ps err !! p =
  if decide (p ∈ ps) then (fun r => (complete r empty_Response (Some err)).1) <$> h !! p else h !! p.
Proof.
  induction ps as [|q ps IH]; intros h p; simpl; [done|].
  unfold complete_requests in *. simpl. rewrite IH. destruct (decide (p = q)) as [->|Hne].
  - rewrite lookup_alter_eq, (decide_True (P := q ∈ q :: ps)) by set_solver.
    destruct (decide (q ∈ ps)); [|done]. destruct (h !! q) as [r|]; simpl; [|done]. f_equal.
    unfold complete at 1. destruct (completeLocked_keeps (complete r empty_Response (Some err)).1 empty_Response (Some err))
      as (_ & _ & _ & _ & Hk). apply Hk. apply completeLocked_kept.
  - rewrite lookup_alter_ne by done. destruct (decide (p ∈ ps)) as [Hin|Hin].
    + by rewrite decide_True by set_solver.
    + by rewrite decide_False by set_solver.
Qed.

Lemma complete_requests_kept h ps err : heap_kept h (complete_requests h ps err).
Proof.
  intros p r Hr. rewrite complete_requests_lookup, Hr. destruct (decide (p ∈ ps)); simpl; [|eauto].
  destruct (completeLocked_kept r empty_Response (Some err)) as [(? & ? & _) _]. eauto.
Qed.

Lemma route_load_insert capacity t id p r route' :
  table_inv capacity t -> requests t !! id = None -> p ∉ dom (heap t) ->
  Z.of_nat (size (filter (on_route (<[p := r]> (heap t)) route') (<[id := p]> (requests t)))) =
  route_load t route' + (if decide (req_route r = route') then 1 else 0).
Proof.
  intros Ht Hid Hp.
  assert (Hext : filter (on_route (<[p := r]> (heap t)) route') (requests t) =
                 filter (on_route (heap t) route') (requests t)).
  { apply map_filter_ext. intros i q Hq. unfold on_route. simpl.
    destruct (ti_requests _ _ Ht _ _ Hq) as (x & Hx & _). rewrite lookup_insert_ne; [done|].
    intros ->. apply Hp, elem_of_dom. eauto. }
  assert (Hon : on_route (<[p := r]> (heap t)) route' (id, p) <-> req_route r = route').
  { unfold on_route. simpl. rewrite lookup_insert_eq. simpl. split; congruence. }
  rewrite map_filter_insert. unfold route_load.
  destruct (decide (req_route r = route')) as [Heq|Hne].
  - rewrite decide_True by (by apply Hon). rewrite map_size_insert_None; [rewrite Hext; lia|].
    apply map_lookup_filter_None. by left.
  - rewrite decide_False by (by rewrite Hon). rewrite map_filter_delete, delete_id; [rewrite Hext; lia|].
    apply map_lookup_filter_None. by left.
Qed.

Lemma start_table_inv capacity t id p r :
  table_inv capacity t -> requests t !! id = None -> tombstones t !! id = None -> p ∉ dom (heap t) ->
  req_id r = id -> Z.of_nat (size (requests t)) < capacity ->
  table_inv capacity (mkTable (<[id := p]> (requests t))
    (<[req_route r := route_count t (req_route r) + 1]> (routeActive t)) (tombstones t) (tombstoneOrder t)
    (tombstonePosition t) (<[p := r]> (heap t))).
Proof.
  intros Ht Hid Htomb Hp Hr Hsize. pose proof Ht as [].
  assert (Hfresh : forall q x, heap t !! q = Some x -> (<[p := r]> (heap t)) !! q = Some x).
  { intros q x Hq. rewrite lookup_insert_ne; [done|]. intros ->. apply Hp, elem_of_dom. eauto. }
  split; simpl; try done.
  - intros i q Hq. apply lookup_insert_Some in Hq as [[<- <-]|[Hne Hq]].
    + exists r. by rewrite lookup_insert_eq.
    + destruct (ti_requests0 _ _ Hq) as (x & Hx & ?). eauto.
  - intros i q Hq. destruct (ti_tombstones0 _ _ Hq) as (x & Hx & ?). eauto.
  - intros i Hi. destruct (decide (i = id)) as [->|Hne]; [done|]. rewrite lookup_insert_ne in Hi by done. auto.
  - intros route'. unfold route_load at 1 2. simpl. rewrite (route_load_insert capacity) by done.
    rewrite (route_count_load capacity) by done.
    destruct (decide (req_route r = route')) as [->|Hne].
    + rewrite lookup_insert_eq. replace (route_load t route' + 1 =? 0) with false; [done|].
      symmetry. apply Z.eqb_neq. pose proof (route_load_nonneg t route'). lia.
    + rewrite lookup_insert_ne by done. rewrite Z.add_0_r. apply ti_count0.
  - rewrite map_size_insert_None by done. lia.
Qed.

Lemma decrement_route_spec m route route' :
  (forall r, m !! r <> Some 0) ->
  decrement_route m route !! route' =
  if decide (route = route') then
    (let n := default 0 (m !! route) - 1 in if n =? 0 then None else Some n)
  else m !! route'.
Proof.
  intros _. unfold decrement_route. cbv zeta. destruct (decide (route = route')) as [->|Hne].
  - destruct (_ - 1 =? 0); [by rewrite lookup_delete_eq|by rewrite lookup_insert_eq].
  - destruct (_ - 1 =? 0); [by rewrite lookup_delete_ne|by rewrite lookup_insert_ne].
Qed.

Lemma route_load_delete capacity t id p r route' :
  table_inv capacity t -> requests t !! id = Some p -> heap t !! p = Some r ->
  Z.of_nat (size (filter (on_route (heap t) route') (delete id (requests t)))) =
  route_load t route' - (if decide (req_route r = route') then 1 else 0).
Proof.
  intros Ht Hid Hp. rewrite map_filter_delete. unfold route_load.
  destruct (decide (req_route r = route')) as [<-|Hne].
  - assert (Hin : filter (on_route (heap t) (req_route r)) (requests t) !! id = Some p).
    { apply map_lookup_filter_Some. split; [done|]. unfold on_route. simpl. by rewrite Hp. }
    rewrite map_size_delete_Some by eauto.
    assert (size (filter (on_route (heap t) (req_route r)) (requests t)) <> 0%nat); [|lia].
    intros Hz. apply map_size_empty_inv in Hz. rewrite Hz in Hin. by rewrite lookup_empty in Hin.
  - rewrite delete_id; [lia|]. apply map_lookup_filter_None. right. intros q Hq. simplify_eq.
    unfold on_route. simpl. rewrite Hp. simpl. congruence.
Qed.

Lemma remove_table_inv capacity t id p r :
  table_inv capacity t -> requests t !! id = Some p -> heap t !! p = Some r ->
  table_inv capacity (mkTable (delete id (requests t)) (decrement_route (routeActive t) (req_route r))
    (tombstones t) (tombstoneOrder t) (tombstonePosition t) (heap t)).
Proof.
  intros Ht Hid Hp. pose proof Ht as []. split; simpl; try done.
  - intros i q [_ Hq]%lookup_delete_Some. eauto.
  - intros i [q [_ Hq]%lookup_delete_Some]. eauto.
  - intros route'. unfold route_load at 1 2. simpl.
    rewrite (route_load_delete capacity t id p r) by done. rewrite decrement_route_spec.
    + destruct (decide (req_route r = route')) as [->|Hne]; [|rewrite Z.sub_0_r; apply ti_count0].
      fold (route_count t route'). by rewrite (route_count_load capacity) by done.
    + intros x. rewrite ti_count0. destruct (Z.eqb_spec (route_load t x) 0); congruence.
  - rewrite map_size_delete_Some by eauto. lia.
Qed.

(** The ring of tombstones: the newest identifier replaces the oldest one. *)
Lemma tombstone_table_inv capacity t id p r :
  table_inv capacity t -> requests t !! id = None -> tombstones t !! id = None ->
  heap t !! p = Some r -> req_id r = id ->
  exists t', addTombstoneLocked t capacity id p = Ok t' /\ table_inv capacity t' /\
    requests t' = requests t /\ heap t' = heap t /\ tombstones t' !! id = Some p.
Proof.
  intros Ht Hid Htomb Hp Hr. pose proof Ht as [].
  assert (Hnot : id ∉ tombstoneOrder t) by (rewrite ti_order_dom0, Htomb; by intros [? [=]]).
  unfold addTombstoneLocked. destruct (Z.ltb_spec (len (tombstoneOrder t)) capacity) as [Hlt|Hge].
  - eexists. split; [done|]. simpl. split_and!; [|done|done|by rewrite lookup_insert_eq].
    split; simpl; try done.
    + intros i q [[<- <-]|[_ Hq]]%lookup_insert_Some; eauto.
    + intros i Hi. rewrite lookup_insert_ne; [auto|]. intros ->. rewrite Hid in Hi. by destruct Hi.
    + apply NoDup_app. split_and!; [done| |apply NoDup_singleton]. set_solver.
    + intros i. rewrite elem_of_app, list_elem_of_singleton, ti_order_dom0, lookup_insert_is_Some. 
      destruct (decide (id = i)); naive_solver.
    + rewrite len_app, len_cons, len_nil. lia.
  - pose proof (index_in_range (E := error) (tombstoneOrder t) (tombstonePosition t)) as Hix.
    destruct Hix as [oldest [Hold Hlook]]; [lia|]. rewrite Hold. simpl.
    destruct (Z.eqb_spec capacity 0) as [|Hc]; [lia|]. eexists. split; [done|]. simpl.
    assert (Hpos : (Z.to_nat (tombstonePosition t) < length (tombstoneOrder t))%nat) by (unfold len in *; lia).
    split_and!; [|done|done|by rewrite lookup_insert_eq]. split; simpl; try done.
    + intros i q [[<- <-]|[_ [_ Hq]%lookup_delete_Some]]%lookup_insert_Some; eauto.
    + intros i Hi. rewrite lookup_insert_ne; [|intros ->; rewrite Hid in Hi; by destruct Hi].
      apply lookup_delete_None. right. auto.
    + by eapply NoDup_insert_fresh.
    + intros i. rewrite (elem_of_insert_NoDup _ _ oldest) by done.
      rewrite lookup_insert_is_Some, lookup_delete_is_Some, <- ti_order_dom0. destruct (decide (id = i)); naive_solver.
    + rewrite <- ti_order_len0. unfold len. by rewrite length_insert.
    + apply Z.mod_pos_bound. lia.
Qed.

(** ** The session invariant *)

Section session.
Context `{ProtoRuntime}.

Definition session_capacity (s : session) : Z := max_in_flight_requests (sp_limits (ses_params s)).

Record session_inv (s : session) : Prop := {
  sv_outbound : outbound_inv s;
  sv_table : table_inv (session_capacity s) (table s);
  sv_once : failOnce (life s) = isClosed (life s);
  sv_closed : isClosed (life s) = true ->
    ctxErr (life s) <> None /\
    (exists f, terminal (life s) = Some f /\ failureReason (life s) = reason f) /\
    (forall id p r, requests (table s) !! id = Some p -> heap (table s) !! p = Some r -> isCompleted r = true);
  sv_open : isClosed (life s) = false -> terminal (life s) = None
}.

Lemma session_inv_queue s s' : queue_step_of s s' -> session_inv s -> session_inv s'.
Proof.
  intros (Hp & Hl & Ha & Ht & Ho) [].
  split; unfold session_capacity in *; rewrite ?Hp, ?Hl, ?Ht; auto.
Qed.

Lemma session_inv_alive s a : session_inv s -> session_inv (set_alive s a).
Proof. intros []. split; done. Qed.

Lemma session_inv_store s p r r' :
  session_inv s -> heap (table s) !! p = Some r -> request_kept r r' -> session_inv (store_request s p r').
Proof.
  intros [] Hp (Hid & Hroute & Hpol & Hc). split; simpl; try done.
  - apply table_inv_heap; [done|]. by eapply heap_kept_insert.
  - intros Hclosed. destruct (sv_closed0 Hclosed) as (? & ? & Hall). split_and!; try done.
    intros id q x Hq Hx. apply lookup_insert_Some in Hx as [[<- <-]|[_ Hx]]; eauto.
Qed.

Lemma fail_spec s failure :
  session_inv s ->
  session_inv (fail s failure) /\ isClosed (life (fail s failure)) = true /\
  ses_params (fail s failure) = ses_params s /\ requests (table (fail s failure)) = requests (table s) /\
  tombstones (table (fail s failure)) = tombstones (table s).
Proof.
  intros Hinv. pose proof Hinv as []. unfold fail. rewrite sv_once0. destruct (isClosed (life s)) eqn:Hc; [done|].
  split_and!; try done. split; simpl; try done.
  - apply table_inv_heap; [done|]. apply complete_requests_kept.
  - intros _. split_and!; [unfold cancel_ctx; by destruct (ctxErr (life s))|by exists failure|].
    intros id p r Hp Hr. rewrite complete_requests_lookup, decide_True in Hr.
    + apply fmap_Some in Hr as (r0 & _ & ->). apply completeLocked_kept.
    + apply list_elem_of_fmap. exists (id, p). split; [done|]. by apply elem_of_map_to_list.
Qed.

Lemma accepts_inv s now route : session_inv s -> session_inv (accepts s now route).1.
Proof.
  intros Hinv. unfold accepts.
  destruct (negb (isReady (life s)) || isDraining (life s) || isClosed (life s)) eqn:Hg; [done|].
  destruct (_ <=? _); [|done]. apply fail_spec. pose proof Hinv as []. split; simpl; try done.
Qed.

Lemma start_attempt_inv s id route policy deadline s' p :
  session_inv s -> startRequest_attempt s id route policy deadline = Started s' p ->
  session_inv s' /\ isClosed (life s) = false /\ isDraining (life s) = false /\
  route ∈ sp_routes (ses_params s) /\ ses_params s' = ses_params s /\ life s' = life s /\ alive s' = alive s /\
  outbound s' = outbound s /\ requests (table s') = <[id := p]> (requests (table s)) /\
  requests (table s) !! id = None /\
  heap (table s') !! p = Some (newLogicalRequest id route policy deadline) /\
  route_load (table s) route < MaxInFlight policy.
Proof.
  intros Hinv. pose proof Hinv as []. unfold startRequest_attempt. cbv zeta.
  destruct (negb (isReady (life s)) || isDraining (life s) || isClosed (life s)) eqn:Hg; [done|].
  destruct (bool_decide (route ∈ _)) eqn:Hr; cbn [negb]; [|done].
  match goal with |- context [if ?b then StartRefused ErrQueueFull else _] => destruct b eqn:Hb; [done|] end.
  destruct (bool_decide (is_Some (requests (table s) !! id))) eqn:Hq; [done|].
  destruct (bool_decide (is_Some (tombstones (table s) !! id))) eqn:Ht; [done|].
  intros [= <- <-]. set (p' := fresh (dom (heap (table s)))). go_bool.
  assert (Hfresh : p' ∉ dom (heap (table s))) by apply is_fresh.
  apply eq_None_not_Some in Hq, Ht. rewrite (route_count_load (session_capacity s)) in * by done. simpl.
  split_and!; try done; [|by rewrite lookup_insert_eq].
  split; simpl; try done; [|congruence].
  pose proof (start_table_inv (session_capacity s) (table s) id p' (newLogicalRequest id route policy deadline)) as Hst.
  rewrite (route_count_load (session_capacity s)) in Hst by done. by apply Hst.
Qed.

Lemma startRequest_loop_inv ids route policy deadline n : forall s s' res,
  session_inv s -> startRequest_loop n s ids route policy deadline = (s', res) ->
  session_inv s' /\ ses_params s' = ses_params s /\ life s' = life s.
Proof.
  induction n as [|n IH]; intros s s' res Hinv; simpl; [intros; by simplify_eq|].
  destruct (ids n) as [id|]; [|intros; by simplify_eq].
  destruct (startRequest_attempt s id route policy deadline) as [e| |s1 p] eqn:Ha; [intros; by simplify_eq|by apply IH|].
  apply start_attempt_inv in Ha as (? & _ & _ & _ & ? & ? & _); [|done]. intros; by simplify_eq.
Qed.

Section ledger.
Context {R : Type} `{InstanceLedger R}.

(** The pointer of an active request; the only pointers the caller holds. *)
Definition allocated (s : session) (p : request_ptr) : Prop := is_Some (heap (table s) !! p).

Lemma session_inv_drain_flag s : session_inv s -> session_inv (finishLocalDrainAfterSend s).
Proof. intros []. split; done. Qed.

(** A removal either finds that the request is gone or unlinks it, keeps a
    tombstone when asked to, and returns exactly one reservation. *)
Lemma removeRequest_spec s (reg : R) p r addTombstone :
  session_inv s -> heap (table s) !! p = Some r ->
  exists s' reg', removeRequest s reg p addTombstone = Ok (s', reg') /\ session_inv s' /\
    ses_params s' = ses_params s /\
    ((requests (table s) !! req_id r <> Some p /\ s' = s /\ reg' = reg) \/
     (requests (table s) !! req_id r = Some p /\
      requests (table s') = delete (req_id r) (requests (table s)) /\
      reg' = releaseInstance reg (sp_instanceID (ses_params s)) /\
      (addTombstone = true -> tombstones (table s') !! req_id r = Some p))).
Proof.
  intros Hinv Hp. pose proof Hinv as []. unfold removeRequest. rewrite Hp. cbv zeta.
  destruct (bool_decide (requests (table s) !! req_id r = Some p)) eqn:Hq; go_bool; cbn [negb];
    [|eexists _, _; split_and!; [done|done|done|by left]].
  pose proof (remove_table_inv _ _ _ _ _ sv_table0 Hq Hp) as Hrem.
  set (t1 := mkTable _ _ _ _ _ _) in *.
  assert (Ht2 : exists t2, (if addTombstone then
      addTombstoneLocked t1 (max_in_flight_requests (sp_limits (ses_params s))) (req_id r) p else Ok t1) = Ok t2 /\
    table_inv (session_capacity s) t2 /\ requests t2 = requests t1 /\ heap t2 = heap t1 /\
    (addTombstone = true -> tombstones t2 !! req_id r = Some p)).
  { destruct addTombstone; [|by exists t1].
    destruct (tombstone_table_inv (session_capacity s) t1 (req_id r) p r) as (t2 & ? & ? & ? & ? & ?);
      [done|apply lookup_delete_eq|apply (ti_disjoint _ _ sv_table0); eauto|done|done|]. by exists t2. }
  destruct Ht2 as (t2 & -> & Ht2 & Hreq & Hheap & Htomb). cbn [mbind result_bind].
  set (s2 := if addTombstone then store_request (set_table s t2) p (compactForTombstone r) else set_table s t2).
  assert (Hs2 : session_inv s2 /\ ses_params s2 = ses_params s /\ requests (table s2) = requests t2 /\
    tombstones (table s2) = tombstones t2).
  { assert (Hs1 : session_inv (set_table s t2)).
    { split; simpl; try done. intros Hc. destruct (sv_closed0 Hc) as (? & ? & Hall). split_and!; try done.
      rewrite Hreq, Hheap. simpl. intros id q x [_ Hx]%lookup_delete_Some. eauto. }
    unfold s2. destruct addTombstone; [|done]. split_and!; try done. eapply session_inv_store; [done|simpl; by rewrite Hheap|].
    by split_and!. }
  destruct Hs2 as (Hs2 & Hpar & Hrq & Htb).
  match goal with |- context [Ok (?x, _)] => set (s3 := x) end.
  assert (Hs3 : session_inv s3 /\ ses_params s3 = ses_params s2 /\ requests (table s3) = requests (table s2) /\
    tombstones (table s3) = tombstones (table s2)).
  { unfold s3. destruct (isDraining (life s) && _); [|done]. destruct (localDrain (life s)).
    - split_and!; try done. by apply session_inv_drain_flag.
    - destruct (fail_spec s2 drained Hs2) as (? & _ & ? & ? & ?). done. }
  destruct Hs3 as (Hs3 & Hp3 & Hr3 & Ht3). eexists _, _. split; [done|]. split; [done|].
  split; [congruence|]. right. rewrite Hr3, Hrq, Hreq, Hpar, Ht3, Htb. by split_and!.
Qed.

Lemma markDraining_inv s now deadline local :
  session_inv s -> session_inv (markDraining s now deadline local).1.
Proof.
  intros Hinv. pose proof Hinv as []. unfold markDraining. destruct (_ <=? 0); [done|].
  destruct (isClosed (life s)) eqn:Hc; [done|]. split; simpl; try done; congruence.
Qed.

(** A request frame changes the queue and one request. *)
Lemma handleRequestFrame_cases s f :
  credit_typed f ->
  (exists e, handleRequestFrame s f = (s, e)) \/
  exists s1 p r r1 e, handleRequestFrame s f = (store_request s1 p r1, e) /\ queue_step_of s s1 /\
    heap (table s) !! p = Some r /\ request_kept r r1.
Proof.
  intros Hty. unfold handleRequestFrame. cbv zeta.
  match goal with |- context [match ?o with Some p => _ | None => (s, Err _) end] => destruct o as [p|]; [|left; eauto] end.
  destruct (heap (table s) !! p) as [r|] eqn:Hp; [|left; eauto]. destruct (negb _); [left; eauto|].
  destruct (handleInbound r s f) as [[r1 s1] err] eqn:Hh. apply handleInbound_code in Hh as [Hs Hk]; [|done].
  right. exists s1, p, r. eexists _, err. split; [done|]. split; [done|]. split; [done|].
  destruct err as [|e|]; [done| |done]. destruct (errors_Is e ErrQueueFull); [|done].
  eapply request_kept_trans; [exact Hk|apply completeLocalAbort_kept].
Qed.

Lemma session_handleInbound_inv s now f :
  credit_typed f -> session_inv s -> session_inv (session_handleInbound s now f).1.
Proof.
  intros Hty Hinv. unfold session_handleInbound.
  assert (Hreq : session_inv (handleRequestFrame s f).1).
  { destruct (handleRequestFrame_cases s f Hty) as [[e ->]|(s1 & p & r & r1 & e & -> & Hs & Hp & Hk)]; [done|].
    apply (session_inv_store _ _ r); [by eapply session_inv_queue| |done].
    destruct Hs as (_ & _ & _ & -> & _). done. }
  destruct (creq_payload f) as [[]|]; try exact Hreq; [| | |done].
  - eapply session_inv_queue; [apply enqueueControl_step|done].
  - destruct (_ || _); [done|]. by apply session_inv_alive.
  - destruct (negb _); [done|]. pose proof (markDraining_inv s now (drain_AsTime drain) false Hinv) as Hm.
    destruct (markDraining s now _ false) as [s1 [[]|e|]]; [by apply fail_spec|done..].
Qed.

Lemma readLoop_inv s now f : credit_typed f -> session_inv s -> session_inv (readLoop_frame s now f).1.
Proof.
  intros Hty Hinv. unfold readLoop_frame. destruct (validateInbound s f); [|by apply fail_spec..].
  set (s1 := set_alive s _). pose proof (session_inv_alive s (mkKeepalive now (pendingPing (alive s)) (pongReceived (alive s))) Hinv) as H1.
  pose proof (session_handleInbound_inv s1 now f Hty H1) as H2.
  destruct (session_handleInbound s1 now f) as [s2 r]. simpl in H2.
  destruct r as [|e|]; [done| |done]. destruct (errors_Is e ErrQueueFull); [done|]. by apply fail_spec.
Qed.

(** The frames of a queue after a dequeue are among those before it. *)
Definition frames_within (q q' : outboundQueue) : Prop :=
  forall lane f, f ∈ lane_frames q' lane -> f ∈ lane_frames q lane.

Definition dequeue_queue (o : dequeue_outcome) : outboundQueue :=
  match o with Dequeued _ q | DequeueError _ q | Sleeping q => q end.

Lemma queue_inv_token q c :
  queue_inv q -> chan_cap c = 1 -> len (chan_buf c) <= 1 ->
  queue_inv (mkOutboundQueue (lanes q) c (next q) (queued q)).
Proof. intros [] Hc Hl. split; done. Qed.

Lemma dequeue_loop_within fuel pd ctx : forall q,
  queue_inv q ->
  let o := dequeue_loop fuel pd ctx q in
  queue_inv (dequeue_queue o) /\ frames_within q (dequeue_queue o) /\
  match o with Dequeued f _ => exists lane, f ∈ lane_frames q lane | _ => True end.
Proof.
  assert (Hrefl : forall q, frames_within q q) by (by intros ? ? ?).
  induction fuel as [|fuel IH]; intros q Hq; simpl; [done|].
  pose proof (dequeue_pass_spec q Hq) as Hp. destruct (dequeue_pass q) as [[f q']|].
  - destruct Hp as (Hq' & _ & _ & lane & Hl & Hhead & Hne & _). simpl. split; [done|]. split.
    + intros j g Hg. destruct (decide (j = lane)) as [->|Hd]; [rewrite Hhead; by right|].
      by rewrite Hne in Hg.
    + exists lane. rewrite Hhead. by left.
  - pose proof (inv_wake _ Hq) as [Hcap Hlen]. unfold try_recv.
    destruct (chan_buf (wake q)) as [|[] rest] eqn:Hw; [destruct ctx; by split_and!|].
    rewrite len_cons in Hlen. pose proof (len_nonneg rest).
    assert (Hq' : queue_inv (mkOutboundQueue (lanes q) (mkChan (chan_cap (wake q)) rest) (next q) (queued q)))
      by (apply queue_inv_token; simpl; (done || lia)).
    destruct ctx; [destruct pd; [by split_and!|]|]; apply (IH _ Hq').
Qed.

Lemma set_outbound_inv s q :
  session_inv s -> queue_inv q -> frames_within (outbound s) q -> session_inv (set_outbound s q).
Proof.
  intros [] Hq Hw. split; simpl; try done. split; [done|]. intros lane f Hf. simpl.
  eapply sv_outbound0. by apply Hw.
Qed.

Lemma set_life_drainSent s c :
  session_inv s -> session_inv (set_life s (mkLifecycle (ctxErr (life s)) (failOnce (life s)) (drainOnce (life s))
    (terminal (life s)) (isReady (life s)) (isDraining (life s)) (isClosed (life s)) (failureReason (life s))
    (drainTimer (life s)) (localDrain (life s)) c (doneOnce (life s)))).
Proof. intros []. split; done. Qed.

(** A written frame was queued, hence sendable. *)
Lemma writeLoop_spec s pd sendOk :
  session_inv s ->
  session_inv (writeLoop_step s pd sendOk).1 /\
  match (writeLoop_step s pd sendOk).2 with Some f => sendable (ses_params s) f | None => True end.
Proof.
  intros Hinv. pose proof (sv_outbound _ Hinv) as [Hq Hall]. unfold writeLoop_step.
  destruct (dequeue_loop_within 3 pd (ctxErr (life s)) (outbound s) Hq) as (Hq' & Hw & Hf). fold (dequeue pd (ctxErr (life s)) (outbound s)) in *.
  destruct (dequeue pd (ctxErr (life s)) (outbound s)) as [f q|e q|q]; simpl in *;
    [|split; [by apply set_outbound_inv|done]..].
  pose proof (set_outbound_inv _ _ Hinv Hq' Hw) as Hs. destruct sendOk; simpl; [|split; [by apply fail_spec|done]].
  destruct Hf as [lane Hf]. split; [|by eapply Hall].
  destruct (cresp_payload f) as [[| | | | | | | |[d|]]|]; try done. by apply (set_life_drainSent (set_outbound s q)).
Qed.

Lemma keepalive_inv s id : session_inv s -> session_inv (keepalive_tick s id).
Proof.
  intros Hinv. unfold keepalive_tick. destruct (negb _); [by apply fail_spec|].
  destruct (randomNonce id) as [nonce|e|]; [|by apply fail_spec..].
  match goal with |- context [enqueueControl ?x ?c ?p] =>
    pose proof (session_inv_queue _ _ (enqueueControl_step x c p) (session_inv_alive _ _ Hinv)) as Hq;
    destruct (enqueueControl x c p) as [s1 r] end.
  simpl in Hq. destruct r; [done|by apply fail_spec..].
Qed.

Lemma initiateDrain_inv s now deadline why : session_inv s -> session_inv (initiateDrain s now deadline why).1.
Proof.
  intros Hinv. unfold initiateDrain. destruct (negb _); [by apply fail_spec|].
  pose proof (markDraining_inv s now deadline true Hinv) as Hm.
  destruct (markDraining s now deadline true) as [s1 [b|e|]]; simpl in Hm; [|done..].
  match goal with |- context [enqueueControl ?x ?c ?p] =>
    pose proof (session_inv_queue _ _ (enqueueControl_step x c p) Hm) as Hq;
    destruct (enqueueControl x c p) as [s2 r] end.
  simpl in Hq. destruct r; [|by apply fail_spec|done]. destruct b; [by apply session_inv_drain_flag|done].
Qed.

Lemma drain_sent_inv s s' : session_inv s -> drain_sent s = Some s' -> session_inv s'.
Proof.
  intros Hinv. unfold drain_sent. destruct (negb _); [done|]. destruct (try_recv _) as [[u c]|]; simpl; [|done].
  intros [= <-]. apply fail_spec. by apply set_life_drainSent.
Qed.

Lemma run_end_inv s : session_inv s -> session_inv (run_end s).
Proof.
  intros Hinv. pose proof (sv_outbound _ Hinv) as [Hq Hall]. destruct (discard_spec (outbound s) Hq) as [Hd He].
  assert (Hs : session_inv (set_outbound s (discard (outbound s)))).
  { apply set_outbound_inv; [done|done|]. intros lane f Hf. destruct (Nat.lt_ge_cases lane 4) as [Hl|Hl].
    - rewrite He in Hf by done. set_solver.
    - unfold lane_frames, lane_of in Hf. rewrite lookup_ge_None_2 in Hf by (rewrite (inv_lanes _ Hd); lia). set_solver. }
  destruct Hs. split; try done. simpl in *. intros Hc. destruct (sv_closed0 Hc) as (? & ? & ?).
  split_and!; try done. unfold cancel_ctx. by destruct (ctxErr (life s)).
Qed.

(** ** All operations of a session *)

Inductive session_step : session * R -> session * R -> Prop :=
| ss_accepts s reg now route : session_step (s, reg) ((accepts s now route).1, reg)
| ss_run s reg now : session_step (s, reg) (run_begin s now, reg)
| ss_run_end s reg : session_step (s, reg) (run_end s, reg)
| ss_start s reg ids route policy deadline requestBytes s' res :
    startRequest s ids route policy deadline requestBytes = (s', res) -> session_step (s, reg) (s', reg)
| ss_request s reg p r r' s' :
    heap (table s) !! p = Some r -> request_code r s r' s' ->
    session_step (s, reg) (store_request s' p r', reg)
| ss_remove s reg p addTombstone s' reg' :
    removeRequest s reg p addTombstone = Ok (s', reg') -> session_step (s, reg) (s', reg')
| ss_receive s reg now f : credit_typed f -> session_step (s, reg) ((readLoop_frame s now f).1, reg)
| ss_receive_error s reg e : session_step (s, reg) (handleReadError s e, reg)
| ss_write s reg preferDone sendOk : session_step (s, reg) ((writeLoop_step s preferDone sendOk).1, reg)
| ss_keepalive s reg id : session_step (s, reg) (keepalive_tick s id, reg)
| ss_drain s reg now deadline why : session_step (s, reg) ((initiateDrain s now deadline why).1, reg)
| ss_drain_deadline s reg : session_step (s, reg) (drain_deadline_passed s, reg)
| ss_drain_sent s reg s' : drain_sent s = Some s' -> session_step (s, reg) (s', reg).

Lemma session_step_inv s reg s' reg' :
  session_inv s -> session_step (s, reg) (s', reg') -> session_inv s'.
Proof.
  intros Hinv Hstep. inversion Hstep; subst; clear Hstep.
  - by apply accepts_inv.
  - destruct Hinv. split; done.
  - by apply run_end_inv.
  - unfold startRequest in *. destruct (_ <? requestBytes); [by simplify_eq|].
    by eapply startRequest_loop_inv.
  - match goal with H : request_code _ _ _ _ |- _ => apply request_code_step in H as [Hs Hk] end.
    apply (session_inv_store _ _ r); [by eapply session_inv_queue| |done].
    destruct Hs as (_ & _ & _ & -> & _). done.
  - match goal with H : removeRequest _ _ _ _ = _ |- _ => rename H into Hrem end.
    destruct (heap (table s) !! p) as [r|] eqn:Hp; [|unfold removeRequest in Hrem; by rewrite Hp in Hrem].
    destruct (removeRequest_spec s reg p r addTombstone Hinv Hp) as (s1 & reg1 & Heq & Hs1 & _).
    rewrite Heq in Hrem. by simplify_eq.
  - by apply readLoop_inv.
  - destruct e; by apply fail_spec.
  - by apply writeLoop_spec.
  - by apply keepalive_inv.
  - by apply initiateDrain_inv.
  - by apply fail_spec.
  - by eapply drain_sent_inv.
Qed.
End ledger.
End session.

(** ** The first failure wins *)

Section closing.
Context `{ProtoRuntime} {R : Type} `{InstanceLedger R}.

Lemma fail_closed s failure : failOnce (life s) = true -> fail s failure = s.
Proof. intros Hf. unfold fail. by rewrite Hf. Qed.

Lemma control_life s ctx p : life (enqueueControl s ctx p).1 = life s.
Proof. by destruct (enqueueControl_step s ctx p) as (_ & ? & _). Qed.

Lemma closed_handleInbound s now f :
  credit_typed f -> session_inv s -> isClosed (life s) = true ->
  life (session_handleInbound s now f).1 = life s.
Proof.
  intros Hty Hinv Hc. unfold session_handleInbound.
  assert (Hreq : life (handleRequestFrame s f).1 = life s).
  { destruct (handleRequestFrame_cases s f Hty) as [[e ->]|(s1 & p & r & r1 & e & -> & Hs & _)]; [done|].
    by destruct Hs as (_ & ? & _). }
  unfold markDraining. rewrite Hc.
  destruct (creq_payload f) as [[]|]; try exact Hreq; try apply control_life; try done;
    repeat match goal with |- context [if ?b then _ else _] => destruct b end; done.
Qed.

Lemma closed_step s reg s' reg' :
  session_inv s -> isClosed (life s) = true -> session_step (s, reg) (s', reg') ->
  terminal (life s') = terminal (life s) /\ isClosed (life s') = true.
Proof.
  intros Hinv Hc Hstep. pose proof (sv_once _ Hinv) as Hf. rewrite Hc in Hf.
  inversion Hstep; subst; clear Hstep.
  - unfold accepts. by rewrite Hc, orb_true_r.
  - done.
  - done.
  - unfold startRequest in *. destruct (_ <? requestBytes); [by simplify_eq|].
    match goal with Hl : startRequest_loop _ _ _ _ _ _ = _ |- _ =>
      apply startRequest_loop_inv in Hl as (_ & _ & ->) end; done.
  - match goal with Hr : request_code _ _ _ _ |- _ => apply request_code_step in Hr as [(_ & Hl & _) _] end.
    simpl. by rewrite Hl.
  - match goal with Hq : removeRequest _ _ _ _ = _ |- _ => rename Hq into Hrem end.
    unfold removeRequest in Hrem. destruct (heap (table s) !! p) as [r|]; [|done]. cbv zeta in Hrem.
    destruct (negb _); [by simplify_eq|]. apply bind_Ok in Hrem as (t & _ & Hrem).
    injection Hrem as <- _. destruct (isDraining (life s) && _), addTombstone; try done;
      destruct (localDrain (life s)); try done; rewrite fail_closed; done.
  - unfold readLoop_frame. destruct (validateInbound s f); [|rewrite fail_closed; done..].
    match goal with |- context [session_handleInbound ?x ?n ?g] =>
      pose proof (closed_handleInbound x n g ltac:(done) (session_inv_alive _ _ Hinv) Hc) as Hl;
      destruct (session_handleInbound x n g) as [s2 r] end.
    simpl in Hl. destruct r as [|e|]; simpl; rewrite ?Hl; try done.
    destruct (errors_Is e ErrQueueFull); simpl; rewrite ?fail_closed, ?Hl by (by rewrite Hl); done.
  - destruct e; simpl; by rewrite fail_closed.
  - unfold writeLoop_step. destruct (dequeue _ _ _) as [f q|e q|q]; try done.
    destruct sendOk; simpl; [|by rewrite fail_closed].
    destruct (cresp_payload f) as [[| | | | | | | |[d|]]|]; done.
  - unfold keepalive_tick. destruct (negb _); [by rewrite fail_closed|].
    destruct (randomNonce id) as [nonce|e|]; [|by rewrite fail_closed..].
    match goal with |- context [enqueueControl ?x ?c ?p] =>
      pose proof (control_life x c p) as Hl; destruct (enqueueControl x c p) as [s1 r] end.
    simpl in Hl. destruct r; rewrite ?fail_closed, ?Hl by (by rewrite Hl); done.
  - unfold initiateDrain. destruct (negb _); [by rewrite fail_closed|].
    unfold markDraining. rewrite Hc. by destruct (_ <=? 0).
  - unfold drain_deadline_passed. by rewrite fail_closed.
  - match goal with Hd : drain_sent _ = _ |- _ => unfold drain_sent in Hd; rename Hd into Hds end.
    destruct (negb _); [done|]. destruct (try_recv _) as [[u c]|]; simpl in Hds; [|done].
    injection Hds as <-. by rewrite fail_closed.
Qed.
End closing.

(** ** Late frames of an aborted request *)

(** The frames the peer may still send for a request the caller gave up: in
    order, within the credit and the response limit that were in force. *)
Definition tail_frame (r : logicalRequest) (f : ConnectRequest) : Prop :=
  GetSequence (creq_header f) = u64 (inboundSequence r + 1) /\
  match creq_payload f with
  | Some (Req_Data d) => isResponseClosed r = false /\ len (GetPayload_data d) <= receiveCredit r /\
      tailResponseSize r + len (GetPayload_data d) <= MaxResponseBytes (req_policy r)
  | Some (Req_Credit c) => isResponseClosed r = false /\
      GetBytes_credit c <= MaxRequestBytes (req_policy r) - sendCredit r /\
      sendCredit r <= MaxRequestBytes (req_policy r)
  | Some (Req_HalfClose _) => isResponseClosed r = false
  | Some (Req_Result _) => isResponseClosed r = true
  | _ => False
  end.

Lemma tail_absorbed `{ProtoRuntime} r (s : session) f :
  isCompleted r = true -> acceptResponseTail r = true -> tailTerminal r = false -> tail_frame r f ->
  exists r', handleInbound r s f = (r', s, Ok tt) /\ request_kept r r' /\
    acceptResponseTail r' = true /\ inboundSequence r' = u64 (inboundSequence r + 1).
Proof.
  intros Hc Ha Ht [Hseq Hp]. unfold handleInbound, handleInbound_locked, handleCompletedInboundLocked.
  rewrite Hc, Ha, Ht, Hseq, Z.eqb_refl. simpl.
  destruct (creq_payload f) as [[]|]; try done; simpl.
  - destruct Hp as (Hrc & Hd & Hm). rewrite Hrc.
    replace (_ || _) with false by lia. eexists. by split_and!.
  - rewrite Hp. eexists. by split_and!.
  - rewrite Hp. eexists. by split_and!.
  - destruct Hp as (Hrc & Hd & Hm). rewrite Hrc.
    replace (_ || _) with false by lia. eexists. by split_and!.
Qed.

Lemma copy16_id b : len b = 16 -> copy16 b = b.
Proof.
  unfold copy16, len. intros Hl. rewrite take_app_le by lia. apply take_ge. lia.
Qed.

(** ** Properties *)

Section properties.
Context `{ProtoRuntime} {R : Type} `{InstanceLedger R}.

Lemma newSession_inv params :
  queue_limits_wf (set_queues (sp_settings params)) -> 0 < max_in_flight_requests (sp_limits params) ->
  session_inv (newSession params).
Proof.
  intros Hq Hm. assert (Hinit : queue_inv (newOutboundQueue (set_queues (sp_settings params))))
    by (by apply newOutboundQueue_inv).
  split; simpl; try done.
  - split; [done|]. intros [|[|[|[|lane]]]] f; unfold lane_frames, lane_of; simpl; set_solver.
  - unfold session_capacity. split; simpl; try done.
    + rewrite map_size_empty. lia.
    + constructor.
    + intros id. rewrite lookup_empty. split; [set_solver|by intros [? [=]]].
    + unfold len. simpl. lia.
Qed.

(** C8. Every session a tunnel can reach is consistent: active requests and
    tombstones are disjoint and point to requests with their own identifier, the
    per-route counters equal the number of active requests of the route, at most
    the negotiated number of requests is active, the tombstone ring is a bounded
    list of distinct identifiers that matches its index, a closed session has one
    recorded reason and a cancelled context, and all its requests are completed. *)
Theorem reachable_sessions_are_consistent (params : sessionParams) (reg : R) s' reg' :
  queue_limits_wf (set_queues (sp_settings params)) -> 0 < max_in_flight_requests (sp_limits params) ->
  rtc session_step (newSession params, reg) (s', reg') -> session_inv s'.
Proof.
  intros Hq Hm Hsteps. change s' with (s', reg').1. revert Hsteps. generalize (s', reg').
  apply rtc_ind_r; [by apply newSession_inv|]. intros [s1 r1] [s2 r2] _ Hstep Hinv. by eapply session_step_inv.
Qed.


(** The first failure of a session is final: once closed, no later operation,
    error or timeout reopens it or replaces the recorded failure. *)
Theorem first_failure_is_final s (reg : R) s' reg' :
  session_inv s -> isClosed (life s) = true -> rtc session_step (s, reg) (s', reg') ->
  isClosed (life s') = true /\ terminal (life s') = terminal (life s).
Proof.
  intros Hinv Hc Hsteps.
  enough (session_inv s' /\ isClosed (life s') = true /\ terminal (life s') = terminal (life s)) by tauto.
  change s' with (s', reg').1. revert Hsteps. generalize (s', reg').
  apply rtc_ind_r; [done|]. intros [s1 r1] [s2 r2] _ Hstep (Hi & Hc1 & Ht1).
  destruct (closed_step _ _ _ _ Hi Hc1 Hstep) as [Ht2 Hc2]. simpl in *.
  split_and!; [by eapply session_step_inv|done|congruence].
Qed.

(** Closing a session releases its callers: every request that was still open
    is completed with the error of the failure, requests that were already
    completed keep their outcome, and afterwards no request can be started and no
    frame can be queued. *)
Theorem failure_completes_every_request s failure :
  session_inv s -> isClosed (life s) = false ->
  let s' := fail s failure in
  (forall id p r, requests (table s) !! id = Some p -> heap (table s) !! p = Some r ->
     exists r', heap (table s') !! p = Some r' /\ isCompleted r' = true /\
       (isCompleted r = false -> req_err r' = Some (requestErr failure)) /\
       (isCompleted r = true -> r' = r)) /\
  (forall id route policy deadline, startRequest_attempt s' id route policy deadline = StartRefused ErrDraining) /\
  (forall ctx f, enqueueFrame s' ctx f = (s', Err ErrTunnelClosed)).
Proof.
  intros Hinv Hc s'. pose proof (sv_once _ Hinv) as Hf. rewrite Hc in Hf. unfold s', fail. rewrite Hf.
  split_and!; [|done|done]. intros id p r Hp Hr. simpl. rewrite complete_requests_lookup, Hr.
  rewrite decide_True by (apply list_elem_of_fmap; exists (id, p); split; [done|by apply elem_of_map_to_list]).
  eexists. split; [done|]. split; [apply completeLocked_kept|]. unfold complete, completeLocked.
  destruct (isCompleted r); by split_and!.
Qed.

(** Giving up a call does not disturb the tunnel: after a request was aborted
    locally and became a tombstone, the frames of the response that are still
    under way are accepted in order, change nothing but the tombstone's own
    counters, and neither queue a frame nor close the session. *)
Theorem late_tail_is_absorbed s p r f now :
  session_inv s -> requests (table s) !! req_id r = None -> tombstones (table s) !! req_id r = Some p ->
  heap (table s) !! p = Some r -> isCompleted r = true -> acceptResponseTail r = true -> tailTerminal r = false ->
  len (req_id r) = 16 -> GetRequestId (creq_header f) = req_id r ->
  GetTrafficClass (creq_header f) = TrafficClass (req_policy r) -> tail_frame r f ->
  exists r', session_handleInbound s now f = (store_request s p r', Ok tt) /\ request_kept r r' /\
    acceptResponseTail r' = true.
Proof.
  intros Hinv Hreq Htomb Hp Hc Ha Ht Hlen Hid Hclass Htail.
  destruct (tail_absorbed r s f Hc Ha Ht Htail) as (r' & Hh & Hk & Ha' & _). exists r'.
  assert (Hrf : handleRequestFrame s f = (store_request s p r', Ok tt)).
  { unfold handleRequestFrame. rewrite Hid, copy16_id, Hreq, Htomb by done. cbv zeta. rewrite Hp, Hclass, Z.eqb_refl.
    cbn [negb]. by rewrite Hh. }
  split; [|done]. unfold session_handleInbound. destruct Htail as [_ Hpay].
  by destruct (creq_payload f) as [[]|].
Qed.
End properties.

(** ** Concrete sessions *)

#[local] Instance unit_ledger : InstanceLedger unit := { releaseInstance _ _ := tt }.
#[local] Instance plain_runtime : ProtoRuntime := reference_runtime [] [].

Definition sample_params : sessionParams :=
  mkSessionParams sample_settings (replicate 16 9) (replicate 16 2) "local"
    (neg_limits sample_negotiation) (neg_routes sample_negotiation) (neg_classes sample_negotiation)
    (neg_capabilities sample_negotiation).
Definition sample_ready : session := run_begin (newSession sample_params) 0.
Definition sample_policy : RoutePolicy := mkRoutePolicy TRAFFIC_CLASS_CONTROL_AUTH 4096 8192 (5 * Second) 8.
(** A session with one request, its pointer and the request. *)
Definition sample_active : session :=
  (startRequest sample_ready (fun _ => Some (replicate 16 3)) ROUTE_ID_AUTH_LOGIN sample_policy 1000 3).1.
Definition sample_ptr : request_ptr := fresh (∅ : gset positive).
Definition sample_pinged : session := (enqueueControl sample_active None (Resp_Ping (Some (mkPing 5 [])))).1.
Definition sample_aborted : session :=
  match heap (table sample_active) !! sample_ptr with
  | Some r =>
      let r := (completeLocalAbort (set_receiveCredit r 100) (Some Canceled)).1 in
      match finishRequest (store_request sample_active sample_ptr r) tt sample_ptr with
      | Ok (s, _) => s
      | _ => sample_active
      end
  | None => sample_active
  end.

Lemma sample_params_wf :
  queue_limits_wf (set_queues (sp_settings sample_params)) /\ 0 < max_in_flight_requests (sp_limits sample_params).
Proof. unfold queue_limits_wf. simpl. lia. Qed.

Lemma sample_active_reached : rtc session_step (newSession sample_params, tt) (sample_active, tt).
Proof.
  eapply rtc_l; [apply (ss_run _ _ 0)|]. apply rtc_once.
  by eapply (ss_start _ _ (fun _ => Some (replicate 16 3)) ROUTE_ID_AUTH_LOGIN sample_policy 1000 3),
    surjective_pairing.
Qed.

Lemma sample_active_inv : session_inv sample_active.
Proof.
  pose proof sample_params_wf as [Hq Hm]. pose proof (newSession_inv _ Hq Hm) as H0.
  assert (H1 : session_inv sample_ready).
  { apply (session_step_inv (newSession sample_params) tt _ tt); [done|apply ss_run]. }
  eapply (session_step_inv sample_ready tt _ tt); [done|].
  by eapply (ss_start _ _ (fun _ => Some (replicate 16 3)) ROUTE_ID_AUTH_LOGIN sample_policy 1000 3),
    surjective_pairing.
Qed.

Lemma reachable_sessions_are_consistent_witness :
  session_inv sample_active /\ size (requests (table sample_active)) = 1%nat.
Proof.
  split; [|vm_compute; reflexivity].
  apply (reachable_sessions_are_consistent sample_params tt sample_active tt);
    [apply sample_params_wf|apply sample_params_wf|apply sample_active_reached].
Defined.

(** The control frame of a keep-alive tick is sent. *)
Definition sample_ticked : session := keepalive_tick sample_ready (Some (replicate 16 5)).


Lemma first_failure_is_final_witness :
  let s := fail sample_active (unavailable "pong_timeout") in
  terminal (life (handleReadError s ReceiveEOF)) = Some (unavailable "pong_timeout").
Proof.
  intros s.
  refine (eq_trans (proj2 (first_failure_is_final s tt (handleReadError s ReceiveEOF) tt _ _ _)) _).
  - apply fail_spec. apply sample_active_inv.
  - vm_compute. reflexivity.
  - apply rtc_once. apply ss_receive_error.
  - vm_compute. reflexivity.
Defined.

Lemma failure_completes_every_request_witness :
  exists r', heap (table (fail sample_active drained)) !! sample_ptr = Some r' /\ req_err r' = Some ErrDraining.
Proof.
  destruct (proj1 (failure_completes_every_request sample_active drained sample_active_inv
    ltac:(vm_compute; reflexivity)) (replicate 16 3) sample_ptr
    (newLogicalRequest (replicate 16 3) ROUTE_ID_AUTH_LOGIN
       (effective_policy (neg_limits sample_negotiation) sample_policy) 1000)) as (r' & Hr' & _ & He & _).
  - vm_compute. reflexivity.
  - vm_compute. reflexivity.
  - exists r'. split; [exact Hr'|]. apply He. reflexivity.
Defined.

Lemma sample_aborted_inv : session_inv sample_aborted.
Proof.
  unfold sample_aborted. destruct (heap (table sample_active) !! sample_ptr) as [r|] eqn:Hr; [|apply sample_active_inv].
  cbv zeta. set (r1 := (completeLocalAbort _ _).1).
  assert (H1 : session_inv (store_request sample_active sample_ptr r1)).
  { eapply session_inv_store; [apply sample_active_inv|exact Hr|].
    eapply request_kept_trans; [|apply completeLocalAbort_kept]. by split_and!. }
  destruct (removeRequest_spec (store_request sample_active sample_ptr r1) tt sample_ptr r1 true H1)
    as (s' & reg' & Heq & Hs' & _); [simpl; by rewrite lookup_insert_eq|].
  unfold finishRequest. rewrite Heq. exact Hs'.
Qed.

Lemma late_tail_is_absorbed_witness :
  exists r r', heap (table sample_aborted) !! sample_ptr = Some r /\
    session_handleInbound sample_aborted 0
      (mkConnectRequest (Some (mkFrameHeader 1 (replicate 16 9) (replicate 16 3) 1 1 []))
         (Some (Req_Data (Some (mkData [1; 2; 3] [])))) []) =
      (store_request sample_aborted sample_ptr r', Ok tt).
Proof.
  destruct (heap (table sample_aborted) !! sample_ptr) as [r|] eqn:Hr; [|vm_compute in Hr; discriminate].
  pose proof Hr as Hr'. vm_compute in Hr'. injection Hr' as Hr'.
  destruct (late_tail_is_absorbed sample_aborted sample_ptr r
    (mkConnectRequest (Some (mkFrameHeader 1 (replicate 16 9) (replicate 16 3) 1 1 []))
       (Some (Req_Data (Some (mkData [1; 2; 3] [])))) []) 0 sample_aborted_inv) as (r1 & Hrun & _);
    try exact Hr; try (rewrite <- Hr'; vm_compute; reflexivity).
  - rewrite <- Hr'. vm_compute. intuition congruence.
  - exists r, r1. split; [reflexivity|exact Hrun].
Defined.
