(* ===== verification/GatewayInRegistry.v ===== *)
(** * The tunnel registry and server of gateway-in

    [services/gateway-in/internal/tunnel/registry.go], [snapshot.go] and the
    handshake of [server.go].  A registry points to sessions; the sessions live in
    a heap, as a session outlives its registration.  The clock and the random
    source are inputs; the telemetry calls are left out. *)

From S2P Require Import Prelude TunnelContract TunnelValidate TunnelValidateProofs GatewayInErrors.
From S2P Require Import GatewayInConfig GatewayInNegotiation Scheduler LogicalRequest GatewayInSession.
Local Open Scope Z_scope.

Definition session_ptr := positive.

Record selectionState := mkSelectionState {
  readySince : Z;
  currentWeight : Z;
  nextSession : Z;
  sel_isReady : bool
}.

(** The zero value. *)
Definition zero_selectionState : selectionState := mkSelectionState 0 0 0 false.

(** [selectionKey]: a route and a data center. *)
Abbreviation selectionKey := (Z * string)%type (only parsing).

Record requestSelection := mkRequestSelection {
  rsel_route : Z;
  rsel_policy : RoutePolicy;
  rsel_deadline : Z;
  rsel_requestBytes : Z
}.

Inductive reservationResult := reservationAccepted | reservationDraining | reservationSaturated.

Record Registry := mkRegistry {
  reg_settings : settings;
  sessions : gmap (list Z) session_ptr;
  instanceTunnels : gmap (list Z) Z;
  instanceActive : gmap (list Z) Z;
  selection : gmap (Z * string) selectionState;
  handshakes : Z;
  reg_isDraining : bool
}.

Record gateway := mkGateway {
  registry : Registry;
  pool : gmap session_ptr session
}.

Definition newRegistry (s : settings) : Registry := mkRegistry s ∅ ∅ ∅ ∅ 0 false.

Definition set_handshakes (r : Registry) (n : Z) : Registry :=
  mkRegistry (reg_settings r) (sessions r) (instanceTunnels r) (instanceActive r) (selection r) n (reg_isDraining r).
Definition set_instanceActive (r : Registry) (m : gmap (list Z) Z) : Registry :=
  mkRegistry (reg_settings r) (sessions r) (instanceTunnels r) m (selection r) (handshakes r) (reg_isDraining r).
Definition set_selection (r : Registry) (m : gmap (Z * string) selectionState) : Registry :=
  mkRegistry (reg_settings r) (sessions r) (instanceTunnels r) (instanceActive r) m (handshakes r) (reg_isDraining r).

Definition lookup_count (m : gmap (list Z) Z) (k : bytes) : Z := default 0 (m !! k).

(** [RoutePolicy] of the registry *)
Definition Registry_RoutePolicy (r : Registry) (route : Z) : option RoutePolicy := set_routes (reg_settings r) !! route.

(** ** Handshakes and reservations *)

Definition beginHandshake (r : Registry) : Registry * bool :=
  if reg_isDraining r || (set_maxTunnels (reg_settings r) <=? Z.of_nat (size (sessions r)) + handshakes r)
  then (r, false) else (set_handshakes r (handshakes r + 1), true).

Definition releaseHandshake (r : Registry) : Registry :=
  if 0 <? handshakes r then set_handshakes r (handshakes r - 1) else r.

Definition registerFromHandshake (r : Registry) (p : session_ptr) (params : sessionParams) :
    Registry * result error unit :=
  if handshakes r =? 0 then (r, Err ErrProtocolViolation) else
  let r := set_handshakes r (handshakes r - 1) in
  if reg_isDraining r then (r, Err ErrDraining) else
  if set_maxTunnels (reg_settings r) <=? Z.of_nat (size (sessions r)) + handshakes r then (r, Err ErrQueueFull) else
  if set_maxTunnelsPerInstance (reg_settings r) <=? lookup_count (instanceTunnels r) (sp_instanceID params)
  then (r, Err ErrQueueFull) else
  if bool_decide (is_Some (sessions r !! sp_id params)) then (r, Err ErrProtocolViolation) else
  (mkRegistry (reg_settings r) (<[sp_id params := p]> (sessions r))
     (<[sp_instanceID params := lookup_count (instanceTunnels r) (sp_instanceID params) + 1]> (instanceTunnels r))
     (instanceActive r) (selection r) (handshakes r) (reg_isDraining r), Ok tt).

Definition reserveInstance (r : Registry) (instanceID : bytes) : Registry * reservationResult :=
  if reg_isDraining r then (r, reservationDraining) else
  if set_maxInFlightPerInstance (reg_settings r) <=? lookup_count (instanceActive r) instanceID
  then (r, reservationSaturated)
  else (set_instanceActive r (<[instanceID := lookup_count (instanceActive r) instanceID + 1]> (instanceActive r)),
        reservationAccepted).

Definition registry_releaseInstance (r : Registry) (instanceID : bytes) : Registry :=
  let active := instanceActive r in
  let active := if 0 <? lookup_count active instanceID
                then <[instanceID := lookup_count active instanceID - 1]> active else active in
  let active := if (lookup_count active instanceID =? 0) && (lookup_count (instanceTunnels r) instanceID =? 0)
                then delete instanceID active else active in
  set_instanceActive r active.

#[export] Instance registry_ledger : InstanceLedger Registry := { releaseInstance := registry_releaseInstance }.

(** ** Readiness of data centers *)

(** The registered sessions, with their objects. *)
Definition registered (g : gateway) : list (session_ptr * session) :=
  omap (fun p => s ← pool g !! p; Some (p, s)) (map_to_list (sessions (registry g))).*2.

Definition data_center_ready (g : gateway) (now route : Z) (dataCenter : string) (except : option session_ptr) : bool :=
  existsb (fun '(p, s) =>
    negb (bool_decide (Some p = except)) && bool_decide (sp_dataCenter (ses_params s) = dataCenter) &&
    isReadyForRoute s now route) (registered g).

Definition resetDataCenterIfUnavailableLocked (g : gateway) (now : Z) (dataCenter : string) : Registry :=
  let r := registry g in
  set_selection r (map_imap (fun (key : Z * string) state =>
    Some (if negb (bool_decide (key.2 = dataCenter)) then state
          else if data_center_ready g now key.1 dataCenter None then state
          else mkSelectionState (readySince state) 0 (nextSession state) false)) (selection r)).

Definition unregister (g : gateway) (now : Z) (p : session_ptr) : gateway :=
  match pool g !! p with
  | None => g
  | Some s =>
      let r := registry g in
      let id := sp_id (ses_params s) in
      let instanceID := sp_instanceID (ses_params s) in
      if negb (bool_decide (sessions r !! id = Some p)) then g else
      let tunnels := <[instanceID := lookup_count (instanceTunnels r) instanceID - 1]> (instanceTunnels r) in
      let tunnels := if lookup_count tunnels instanceID =? 0 then delete instanceID tunnels else tunnels in
      let active := if lookup_count (instanceActive r) instanceID =? 0
                    then delete instanceID (instanceActive r) else instanceActive r in
      let r := mkRegistry (reg_settings r) (delete id (sessions r)) tunnels active (selection r) (handshakes r)
                 (reg_isDraining r) in
      mkGateway (resetDataCenterIfUnavailableLocked (mkGateway r (pool g)) now (sp_dataCenter (ses_params s))) (pool g)
  end.

Definition markSessionReady (g : gateway) (now : Z) (p : session_ptr) : gateway :=
  match pool g !! p with
  | None => g
  | Some s =>
      let dataCenter := sp_dataCenter (ses_params s) in
      let mark (sel : gmap (Z * string) selectionState) (route : Z) :=
        let key := (route, dataCenter) in
        let state := default zero_selectionState (sel !! key) in
        let hadReadyPeer := data_center_ready g now route dataCenter (Some p) in
        let state := if negb (sel_isReady state) || negb hadReadyPeer
                     then mkSelectionState now 0 (nextSession state) (sel_isReady state) else state in
        <[key := mkSelectionState (readySince state) (currentWeight state) (nextSession state) true]> sel in
      mkGateway (set_selection (registry g)
        (foldl mark (selection (registry g)) (elements (sp_routes (ses_params s))))) (pool g)
  end.

(** ** Selection *)

(** [bytes.Compare] *)
Fixpoint bytes_Compare (a b : bytes) : Z :=
  match a, b with
  | [], [] => 0
  | [], _ => -1
  | _, [] => 1
  | x :: a, y :: b => if x <? y then -1 else if y <? x then 1 else bytes_Compare a b
  end.

Definition session_le (a b : session_ptr * session) : Prop :=
  bytes_Compare (sp_id (ses_params a.2)) (sp_id (ses_params b.2)) <= 0.

#[export] Instance session_le_dec a b : Decision (session_le a b).
Proof. unfold session_le. apply _. Defined.

Definition failbackWeight (elapsed warmup : Z) : Z :=
  let minimumWeight := 100 in
  let fullWeight := 1000 in
  if (warmup <=? 0) || (warmup <=? elapsed) then fullWeight
  else if elapsed <=? 0 then minimumWeight
  else minimumWeight + Z.quot (elapsed * (fullWeight - minimumWeight)) warmup.

(** The loop of [eligibleSessionsByDataCenterLocked]; a stale session is closed on
    the way. *)
Fixpoint eligible_loop (p : gmap session_ptr session) (now route : Z) (ps : list session_ptr)
    (by_center : gmap string (list (session_ptr * session))) :
    gmap session_ptr session * gmap string (list (session_ptr * session)) :=
  match ps with
  | [] => (p, by_center)
  | x :: ps =>
      match p !! x with
      | None => eligible_loop p now route ps by_center
      | Some s =>
          let '(s, accepted) := accepts s now route in
          let p := <[x := s]> p in
          if accepted then
            let dc := sp_dataCenter (ses_params s) in
            eligible_loop p now route ps (<[dc := default [] (by_center !! dc) ++ [(x, s)]]> by_center)
          else eligible_loop p now route ps by_center
      end
  end.

Definition eligibleSessionsByDataCenterLocked (g : gateway) (now route : Z) :
    gateway * gmap string (list (session_ptr * session)) :=
  let '(p, by_center) := eligible_loop (pool g) now route (map_to_list (sessions (registry g))).*2 ∅ in
  (mkGateway (registry g) p, by_center).

Definition resetUnavailableDataCentersLocked (r : Registry) (route : Z)
    (by_center : gmap string (list (session_ptr * session))) : Registry :=
  set_selection r (map_imap (fun (key : Z * string) state =>
    Some (if negb (key.1 =? route) then state
          else if bool_decide (is_Some (by_center !! key.2)) then state
          else mkSelectionState (readySince state) 0 (nextSession state) false)) (selection r)).

(** The data centers in order, each with its sessions sorted by identifier. *)
Definition sortedDataCenters (by_center : gmap string (list (session_ptr * session))) :
    gmap string (list (session_ptr * session)) * list string :=
  (merge_sort session_le <$> by_center, merge_sort String.le (elements (dom by_center))).

(** The loop of [selectDataCenterLocked]: the weights, their sum and the best
    data center so far. *)
Fixpoint select_loop (warmup now route : Z) (first : bool) (dcs : list string)
    (sel : gmap (Z * string) selectionState) (totalWeight : Z) (selected : string) (selectedWeight : Z) :
    gmap (Z * string) selectionState * Z * string :=
  match dcs with
  | [] => (sel, totalWeight, selected)
  | dc :: dcs =>
      let state := default zero_selectionState (sel !! (route, dc)) in
      let state := if negb (sel_isReady state) then mkSelectionState now 0 (nextSession state) true else state in
      let weight := failbackWeight (now - readySince state) warmup in
      let state := mkSelectionState (readySince state) (currentWeight state + weight) (nextSession state)
                     (sel_isReady state) in
      let sel := <[(route, dc) := state]> sel in
      let totalWeight := totalWeight + weight in
      if first || (selectedWeight <? currentWeight state)
      then select_loop warmup now route false dcs sel totalWeight dc (currentWeight state)
      else select_loop warmup now route false dcs sel totalWeight selected selectedWeight
  end.

Definition selectDataCenterLocked (r : Registry) (route : Z) (dataCenters : list string) (now : Z) :
    result error (Registry * string) :=
  first ← index dataCenters 0;
  let '(sel, totalWeight, selected) :=
    select_loop (set_failbackWarmup (reg_settings r)) now route true dataCenters (selection r) 0 first 0 in
  match sel !! (route, selected) with
  | None => Panic
  | Some state =>
      let weight := currentWeight state - totalWeight in
      let weight := if len dataCenters =? 1 then 0 else weight in
      Ok (set_selection r (<[(route, selected) :=
            mkSelectionState (readySince state) weight (nextSession state) (sel_isReady state)]> sel), selected)
  end.

(** The comparison of [orderDataCentersLocked]: -1, 0 or 1. *)
Definition compare_data_centers (sel : gmap (Z * string) selectionState) (route : Z) (selected left right : string) : Z :=
  if bool_decide (left = right) then 0
  else if bool_decide (left = selected) then -1
  else if bool_decide (right = selected) then 1
  else
    let leftWeight := default 0 (currentWeight <$> sel !! (route, left)) in
    let rightWeight := default 0 (currentWeight <$> sel !! (route, right)) in
    if rightWeight <? leftWeight then -1
    else if leftWeight <? rightWeight then 1
    else if String.ltb left right then -1
    else if String.ltb right left then 1
    else 0.

Definition data_center_le sel route selected (left right : string) : Prop :=
  compare_data_centers sel route selected left right <= 0.

#[export] Instance data_center_le_dec sel route selected left right :
  Decision (data_center_le sel route selected left right).
Proof. unfold data_center_le. apply _. Defined.

(** [slices.SortStableFunc] *)
Definition orderDataCentersLocked (r : Registry) (route : Z) (dataCenters : list string) (selected : string) :
    list string :=
  merge_sort (data_center_le (selection r) route selected) dataCenters.

Fixpoint orderSessionsLocked (r : Registry) (route : Z)
    (by_center : gmap string (list (session_ptr * session))) (dataCenters : list string) :
    result error (list (session_ptr * session)) :=
  match dataCenters with
  | [] => Ok []
  | dc :: dataCenters =>
      match selection r !! (route, dc) with
      | None => Panic
      | Some state =>
          let ss := default [] (by_center !! dc) in
          if len ss =? 0 then Panic else
          let start := Z.rem (nextSession state) (len ss) in
          mine ← foldr (fun offset rest =>
            x ← index ss (Z.rem (start + Z.of_nat offset) (len ss)); xs ← rest; Ok (x :: xs))
            (Ok []) (seq 0 (length ss));
          others ← orderSessionsLocked r route by_center dataCenters;
          Ok (mine ++ others)
      end
  end.

Definition selectionOrder (g : gateway) (now route : Z) :
    gateway * result error (list (session_ptr * session) * bool) :=
  if reg_isDraining (registry g) then (g, Ok ([], true)) else
  let '(g, by_center) := eligibleSessionsByDataCenterLocked g now route in
  let r := resetUnavailableDataCentersLocked (registry g) route by_center in
  let g := mkGateway r (pool g) in
  if Z.of_nat (size by_center) =? 0 then (g, Ok ([], false)) else
  let '(by_center, dataCenters) := sortedDataCenters by_center in
  match selectDataCenterLocked r route dataCenters now with
  | Ok (r, selected) =>
      let dataCenters := orderDataCentersLocked r route dataCenters selected in
      (mkGateway r (pool g), ordered ← orderSessionsLocked r route by_center dataCenters; Ok (ordered, false))
  | Err e => (g, Err e)
  | Panic => (g, Panic)
  end.

(** [for index, activeSession := range sessions] of [commitSessionSelection] *)
Fixpoint position_of (p : session_ptr) (ps : list session_ptr) (i : Z) : option Z :=
  match ps with
  | [] => None
  | x :: ps => if bool_decide (x = p) then Some i else position_of p ps (i + 1)
  end.

Definition commitSessionSelection (g : gateway) (now route : Z) (p : session_ptr) : gateway :=
  match pool g !! p with
  | None => g
  | Some s =>
      let dataCenter := sp_dataCenter (ses_params s) in
      match selection (registry g) !! (route, dataCenter) with
      | None => g
      | Some state =>
          let ready := filter (fun ps => sp_dataCenter (ses_params ps.2) = dataCenter /\
            isReadyForRoute ps.2 now route = true) (registered g) in
          match position_of p (merge_sort session_le ready).*1 0 with
          | None => g
          | Some i =>
              mkGateway (set_selection (registry g) (<[(route, dataCenter) :=
                mkSelectionState (readySince state) (currentWeight state) (i + 1) (sel_isReady state)]>
                (selection (registry g)))) (pool g)
          end
      end
  end.

(** ** Opening a request *)

(** The context of a call, the clock and the random source as the loop meets them
    when it tries a session: [ctx.Err()] inside [enqueueOpen] and after it, and the
    identifiers drawn. *)
Record attempt_env := mkAttemptEnv {
  env_ctx : option error;
  env_ctx_after : option error;
  env_ids : nat -> option bytes
}.

Section calls.
Context `{ProtoRuntime}.

(** What one iteration of [selectAndOpenRequest] does next. *)
Inductive attempt_outcome :=
| AttemptNext (selectionErr : option error)
| AttemptReturn (res : result error (session_ptr * request_ptr)).

Definition open_attempt (g : gateway) (now : Z) (env : attempt_env) (call : Call) (sel : requestSelection)
    (selectionErr : option error) (p : session_ptr) : gateway * attempt_outcome :=
  match pool g !! p with
  | None => (g, AttemptReturn Panic)
  | Some s =>
      let instanceID := sp_instanceID (ses_params s) in
      match reserveInstance (registry g) instanceID with
      | (_, reservationDraining) => (g, AttemptReturn (Err ErrDraining))
      | (_, reservationSaturated) => (g, AttemptNext (Some (errors_Join selectionErr ErrQueueFull)))
      | (r, reservationAccepted) =>
          match startRequest s (env_ids env) (rsel_route sel) (rsel_policy sel) (rsel_deadline sel)
                  (rsel_requestBytes sel) with
          | (s, Err err) =>
              (mkGateway (registry_releaseInstance r instanceID) (<[p := s]> (pool g)),
               AttemptNext (Some (errors_Join selectionErr err)))
          | (s, Panic) => (mkGateway r (<[p := s]> (pool g)), AttemptReturn Panic)
          | (s, Ok q) =>
              match heap (table s) !! q with
              | None => (g, AttemptReturn Panic)
              | Some request =>
                  match enqueueOpen request s (env_ctx env) call with
                  | (request, s, Ok _) =>
                      let s := store_request s q request in
                      let g := mkGateway r (<[p := s]> (pool g)) in
                      (commitSessionSelection g now (rsel_route sel) p, AttemptReturn (Ok (p, q)))
                  | (request, s, Err err) =>
                      let s := store_request s q (complete request empty_Response (Some err)).1 in
                      match rollbackRequestBeforeOpen s r q with
                      | Ok (s, r) =>
                          let selectionErr := errors_Join selectionErr err in
                          (mkGateway r (<[p := s]> (pool g)),
                           match env_ctx_after env with
                           | Some _ => AttemptReturn (Err selectionErr)
                           | None => AttemptNext (Some selectionErr)
                           end)
                      | _ => (mkGateway r (<[p := s]> (pool g)), AttemptReturn Panic)
                      end
                  | (request, s, Panic) => (mkGateway r (<[p := s]> (pool g)), AttemptReturn Panic)
                  end
              end
          end
      end
  end.

Fixpoint open_loop (g : gateway) (now : Z) (env : session_ptr -> attempt_env) (call : Call)
    (sel : requestSelection) (selectionErr : option error) (ordered : list session_ptr) :
    gateway * result error (session_ptr * request_ptr) :=
  match ordered with
  | [] => (g, Err (match selectionErr with Some err => err | None => ErrNoTunnel end))
  | p :: ordered =>
      match open_attempt g now (env p) call sel selectionErr p with
      | (g, AttemptNext selectionErr) => open_loop g now env call sel selectionErr ordered
      | (g, AttemptReturn res) => (g, res)
      end
  end.

Definition selectAndOpenRequest (g : gateway) (now : Z) (env : session_ptr -> attempt_env) (call : Call)
    (sel : requestSelection) : gateway * result error (session_ptr * request_ptr) :=
  match selectionOrder g now (rsel_route sel) with
  | (g, Panic) => (g, Panic)
  | (g, Err e) => (g, Err e)
  | (g, Ok (ordered, draining)) =>
      if draining : bool then (g, Err ErrDraining)
      else open_loop g now env call sel None ordered.*1
  end.

(** ** Calls *)

(** The context of the caller: its deadline and the error it reports. *)
Record call_context := mkCallContext { ctx_Deadline : option Z; ctx_Err : option error }.

Definition contextWithRouteDeadline (ctx : call_context) (now maximum : Z) : result error Z :=
  let deadline := now + maximum in
  let deadline := match ctx_Deadline ctx with
                  | Some callerDeadline => if callerDeadline <? deadline then callerDeadline else deadline
                  | None => deadline
                  end in
  match ctx_Err ctx with
  | Some err => Err err
  | None => if negb (now <? deadline) then Err DeadlineExceeded else Ok deadline
  end.

Definition validateCall (call : Call) (policy : RoutePolicy) (deadline : Z) : result error unit :=
  let frame := mkConnectResponse
    (Some (mkFrameHeader protocolVersion (replicate 16 0) (replicate 16 0) 1 (TrafficClass policy) []))
    (Some (Resp_Open (Some (mkOpen (call_Route call) (Some (timestamppb_New deadline))
      (call_IdempotencyKey call) (cloneMetadata (call_Metadata call)) [])))) [] in
  map_err (fun e => Errorf "tunnel: invalid logical call" (FrameError e)) (ValidateGatewayInFrame (Some frame)).

(** A valid span context, as its [String] methods show it; [None] is an invalid
    one. *)
Record SpanContext := mkSpanContext {
  TraceID : bytes;
  SpanID : bytes;
  TraceFlags : Z;
  TraceState : bytes
}.

(** [fmt.Sprintf("%02x", b)] for a byte *)
Definition hex_digit (n : Z) : Z := if n <? 10 then 48 + n else 87 + n.
Definition sprintf_02x (b : Z) : bytes := [hex_digit (b / 16); hex_digit (b `mod` 16)].

Definition metadataWithTrace (span : option SpanContext) (values : list (option Metadata)) :
    list (option Metadata) :=
  let kept := omap (fun value => match value with
    | None => Some None
    | Some m =>
        if switch_in (md_key m) [METADATA_KEY_CONTENT_TYPE; METADATA_KEY_TRACEPARENT; METADATA_KEY_TRACESTATE]
        then None else Some (Some (mkMetadata (md_key m) (md_value m) []))
    end) values in
  let result := kept ++ [Some (mkMetadata METADATA_KEY_CONTENT_TYPE (bytes_of "application/protobuf") [])] in
  match span with
  | None => result
  | Some sc =>
      let traceparent := bytes_of "00-" ++ TraceID sc ++ bytes_of "-" ++ SpanID sc ++ bytes_of "-" ++
        sprintf_02x (TraceFlags sc) in
      let result := result ++ [Some (mkMetadata METADATA_KEY_TRACEPARENT traceparent [])] in
      if len (TraceState sc) =? 0 then result
      else result ++ [Some (mkMetadata METADATA_KEY_TRACESTATE (TraceState sc) [])]
  end.

Fixpoint route_ready_loop (p : gmap session_ptr session) (now route : Z) (ps : list session_ptr) :
    gmap session_ptr session * bool :=
  match ps with
  | [] => (p, false)
  | x :: ps =>
      match p !! x with
      | None => route_ready_loop p now route ps
      | Some s =>
          let '(s, accepted) := accepts s now route in
          if accepted then (<[x := s]> p, true) else route_ready_loop (<[x := s]> p) now route ps
      end
  end.

Definition IsRouteReady (g : gateway) (now route : Z) : gateway * bool :=
  let r := registry g in
  if negb (bool_decide (is_Some (set_routes (reg_settings r) !! route))) then (g, false) else
  if reg_isDraining r then (g, false) else
  let '(p, ready) := route_ready_loop (pool g) now route (map_to_list (sessions r)).*2 in
  (mkGateway r p, ready).

(** [Invoke] up to the Open frame: the call as sent, and the request. *)
Definition Invoke_open (g : gateway) (now : Z) (ctx : call_context) (span : option SpanContext)
    (env : session_ptr -> attempt_env) (call : Call) :
    gateway * result error (session_ptr * request_ptr) :=
  match set_routes (reg_settings (registry g)) !! call_Route call with
  | None => (g, Err ErrRouteNotAllowed)
  | Some policy =>
      if MaxRequestBytes policy <? len (call_Payload call)
      then (g, Err (newResultError RESULT_CODE_RESOURCE_EXHAUSTED)) else
      match contextWithRouteDeadline ctx now (MaxDeadline policy) with
      | Err err => (g, Err err)
      | Panic => (g, Panic)
      | Ok deadline =>
          let call := mkCall (call_Route call) (call_Payload call) (call_IdempotencyKey call)
                        (metadataWithTrace span (call_Metadata call)) in
          match validateCall call policy deadline with
          | Err err => (g, Err err)
          | Panic => (g, Panic)
          | Ok _ => selectAndOpenRequest g now env call
                      (mkRequestSelection (call_Route call) policy deadline (len (call_Payload call)))
          end
      end
  end.

(** [Invoke] from the queued Open to the end of the body, or to the point where it
    waits for credit with a part of the body left; the failures complete the
    request. *)
Inductive invoke_outcome :=
| InvokeFailed (err : error)
| InvokeBlocked (remaining : bytes)
| InvokeSent
| InvokePanic.

Definition Invoke_body (preferDone : bool) (r : logicalRequest) (s : session) (ctx ctxAfter : option error)
    (payload : bytes) : logicalRequest * session * invoke_outcome :=
  match sendBody preferDone r s ctx payload with
  | (r, s, BodySent) => (r, s, InvokeSent)
  | (r, s, BodyWaits remaining) => (r, s, InvokeBlocked remaining)
  | (r, s, BodyFailed err) =>
      match ctxAfter with
      | Some contextErr => let '(r, s) := cancel r s contextErr in (r, s, InvokeFailed err)
      | None => ((completeLocalAbort r (Some err)).1, s, InvokeFailed err)
      end
  | (r, s, _) => (r, s, InvokePanic)
  end.

Definition Invoke_send (preferDone : bool) (r : logicalRequest) (s : session) (ctx ctxAfter : option error)
    (payload : bytes) : logicalRequest * session * invoke_outcome :=
  match sendInitialResponseCredit r s ctx with
  | (r, s, Err err) => ((completeLocalAbort r (Some err)).1, s, InvokeFailed err)
  | (r, s, Panic) => (r, s, InvokePanic)
  | (r, s, Ok _) => Invoke_body preferDone r s ctx ctxAfter payload
  end.

(** The deferred [finishRequest] of [Invoke]. *)
Definition Invoke_finish (g : gateway) (p : session_ptr) (q : request_ptr) : result error gateway :=
  match pool g !! p with
  | None => Panic
  | Some s => '(s, r) ← finishRequest s (registry g) q; Ok (mkGateway r (<[p := s]> (pool g)))
  end.

(** ** Draining the registry *)

(** The loop of [Drain] over the registered sessions. *)
Fixpoint drain_loop (p : gmap session_ptr session) (now deadline why : Z) (resultErr : option error)
    (ps : list session_ptr) : gmap session_ptr session * option error :=
  match ps with
  | [] => (p, resultErr)
  | x :: ps =>
      match p !! x with
      | None => drain_loop p now deadline why resultErr ps
      | Some s =>
          let '(s, r) := initiateDrain s now deadline why in
          let resultErr := match r with
                           | Err err => if errors_Is err ErrTunnelClosed then resultErr
                                        else Some (errors_Join resultErr err)
                           | _ => resultErr
                           end in
          drain_loop (<[x := s]> p) now deadline why resultErr ps
      end
  end.

(** [Drain] up to its wait for the sessions. *)
Definition Drain_begin (g : gateway) (now deadline why : Z) : gateway * option error :=
  if negb (now <? deadline) then (g, Some DeadlineExceeded) else
  if why =? DRAIN_REASON_UNSPECIFIED then (g, Some (errors_New "tunnel: drain reason must be specified")) else
  let r := registry g in
  let r := mkRegistry (reg_settings r) (sessions r) (instanceTunnels r) (instanceActive r) (selection r)
             (handshakes r) true in
  let '(p, resultErr) := drain_loop (pool g) now deadline why None (map_to_list (sessions r)).*2 in
  (mkGateway r p, resultErr).

(** ** The tunnel server *)

(** What [receiveHandshake] can meet. *)
Inductive handshake_event :=
| HandshakeFrame (frame : ConnectRequest)
| HandshakeBroken
| HandshakeTimeout
| HandshakeCanceled.

Definition receiveHandshake (e : handshake_event) : ConnectRequest + status :=
  match e with
  | HandshakeFrame frame => inl frame
  | HandshakeBroken => inr (mkStatus CodeInvalidArgument "invalid tunnel handshake")
  | HandshakeTimeout => inr (mkStatus CodeDeadlineExceeded "tunnel handshake timeout")
  | HandshakeCanceled => inr (mkStatus CodeCanceled "tunnel handshake canceled")
  end.

(** [run] before the loops are started, and after the terminal failure. *)
Definition run_start (g : gateway) (now : Z) (p : session_ptr) : gateway :=
  match pool g !! p with
  | None => g
  | Some s => markSessionReady (mkGateway (registry g) (<[p := run_begin s now]> (pool g))) now p
  end.

Definition run_finish (g : gateway) (now : Z) (p : session_ptr) : gateway :=
  let g := unregister g now p in
  mkGateway (registry g) (alter run_end p (pool g)).

Definition abort_session (g : gateway) (now : Z) (p : session_ptr) : gateway :=
  let g := unregister g now p in
  mkGateway (registry g) (alter abortBeforeRun p (pool g)).

(** [Connect] up to the loops of the session: a refusal, or the hello that was
    sent and the running session.  The deferred [releaseHandshake] runs on every
    refusal before the registration. *)
Inductive connect_outcome :=
| ConnectRefused (s : status)
| ConnectRunning (p : session_ptr) (reply : ConnectResponse).

Definition Connect_negotiated (g : gateway) (now : Z) (dataCenter : string) (peer : GatewayOutHello)
    (n : negotiation) (tunnelID : option bytes) (sendOk : bool) : gateway * connect_outcome :=
  let r := registry g in
  match tunnelID with
  | None => (mkGateway (releaseHandshake r) (pool g), ConnectRefused (mkStatus CodeInternal "internal error"))
  | Some tunnelID =>
      let params := mkSessionParams (reg_settings r) tunnelID (copy16 (goh_instance_id peer)) dataCenter
        (neg_limits n) (neg_routes n) (neg_classes n) (neg_capabilities n) in
      let p := fresh (dom (pool g)) in
      let '(r, err) := registerFromHandshake r p params in
      let g := mkGateway r (<[p := newSession params]> (pool g)) in
      match err with
      | Ok _ =>
          if negb sendOk
          then (abort_session g now p, ConnectRefused (mkStatus CodeUnavailable "tunnel unavailable"))
          else (run_start g now p, ConnectRunning p (hello n tunnelID (set_instanceID (reg_settings r))))
      | _ => (g, ConnectRefused (mkStatus CodeResourceExhausted "tunnel capacity exhausted"))
      end
  end.

Definition Connect `{UrlPackage} (g : gateway) (now : Z) (peer : transport_peer) (e : handshake_event)
    (tunnelID : option bytes) (sendOk : bool) : gateway * connect_outcome :=
  let st := reg_settings (registry g) in
  match authorize (set_peer st) peer now with
  | Ok dataCenter =>
      let '(r, started) := beginHandshake (registry g) in
      let g := mkGateway r (pool g) in
      if negb started
      then (g, ConnectRefused (mkStatus CodeResourceExhausted "tunnel capacity exhausted")) else
      let refuse code message :=
        (mkGateway (releaseHandshake r) (pool g), ConnectRefused (mkStatus code message)) in
      match receiveHandshake e with
      | inr s => refuse (st_code s) (st_message s)
      | inl firstFrame =>
          if max_frame_bytes (set_limits st) <? size_request firstFrame
          then refuse CodeResourceExhausted "tunnel handshake is too large" else
          match ValidateGatewayOutFrame (Some firstFrame) with
          | Ok _ =>
              match creq_payload firstFrame with
              | Some (Req_Hello (Some peerHello)) =>
                  match negotiate st peerHello with
                  | Ok n => Connect_negotiated g now dataCenter peerHello n tunnelID sendOk
                  | _ => refuse CodePermissionDenied "tunnel policy denied"
                  end
              | _ => refuse CodeInvalidArgument "invalid tunnel handshake"
              end
          | _ => refuse CodeInvalidArgument "invalid tunnel handshake"
          end
      end
  | _ => (g, ConnectRefused (mkStatus CodePermissionDenied "peer is not authorized"))
  end.
End calls.

(** ** Routing snapshots *)

Inductive TunnelState := TunnelStateUnknown | TunnelStateHandshaking | TunnelStateReady | TunnelStateDraining
  | TunnelStateStale | TunnelStateClosed.

Record TunnelSnapshot := mkTunnelSnapshot {
  snap_TunnelID : bytes;
  snap_InstanceID : bytes;
  snap_DataCenter : string;
  snap_State : TunnelState;
  snap_ActiveRequests : Z
}.

Record RoutingSnapshot := mkRoutingSnapshot {
  snap_Route : Z;
  snap_RouteAllowed : bool;
  snap_RegistryDraining : bool;
  snap_Tunnels : list TunnelSnapshot
}.

Definition routingSnapshot (s : session) (now route : Z) : option TunnelSnapshot :=
  if negb (bool_decide (route ∈ sp_routes (ses_params s))) then None else
  let l := life s in
  let state :=
    if bool_decide (failureReason l = "stale"%string) then TunnelStateStale
    else if isClosed l then TunnelStateClosed
    else if isDraining l then TunnelStateDraining
    else if negb (isReady l) then TunnelStateHandshaking
    else if set_staleAfter (sp_settings (ses_params s)) <=? now - lastActivity (alive s) then TunnelStateStale
    else TunnelStateReady in
  Some (mkTunnelSnapshot (sp_id (ses_params s)) (sp_instanceID (ses_params s)) (sp_dataCenter (ses_params s))
    state (route_count (table s) route)).

Definition compareTunnelSnapshots (left right : TunnelSnapshot) : Z :=
  if String.ltb (snap_DataCenter left) (snap_DataCenter right) then -1
  else if String.ltb (snap_DataCenter right) (snap_DataCenter left) then 1
  else
    let comparison := bytes_Compare (snap_InstanceID left) (snap_InstanceID right) in
    if negb (comparison =? 0) then comparison
    else bytes_Compare (snap_TunnelID left) (snap_TunnelID right).

Definition snapshot_le (a b : TunnelSnapshot) : Prop := compareTunnelSnapshots a b <= 0.

#[export] Instance snapshot_le_dec a b : Decision (snapshot_le a b).
Proof. unfold snapshot_le. apply _. Defined.

Definition Registry_RoutingSnapshot (g : gateway) (now route : Z) : RoutingSnapshot :=
  let r := registry g in
  if negb (bool_decide (is_Some (set_routes (reg_settings r) !! route))) then mkRoutingSnapshot route false false []
  else mkRoutingSnapshot route true (reg_isDraining r)
    (merge_sort snapshot_le (omap (fun '(_, s) => routingSnapshot s now route) (registered g))).
