(* ===== verification/GatewayInSelection.v ===== *)
(** * Selection of data centers and sessions

    The weighted selection of [registry.go]: the weight of a data center after a
    failback, the smooth weighted round robin over the data centers of a route and
    the order in which the sessions of a route are tried. *)

From S2P Require Import Prelude TunnelContract TunnelRuntime TunnelValidate TunnelValidateProofs.
From S2P Require Import GatewayInErrors GatewayInConfig GatewayInNegotiation Scheduler LogicalRequest.
From S2P Require Import GatewayInSession GatewayInRegistry.
Local Open Scope Z_scope.

(** ** The weight of a data center *)

Lemma failbackWeight_bounds elapsed warmup : 100 <= failbackWeight elapsed warmup <= 1000.
Proof.
  unfold failbackWeight. cbv zeta. destruct (_ || _) eqn:Hw; [lia|]. go_bool.
  destruct (Z.leb_spec elapsed 0); [lia|]. change (1000 - 100) with 900.
  rewrite Z.quot_div_nonneg by lia.
  pose proof (Z.div_pos (elapsed * 900) warmup ltac:(lia) ltac:(lia)).
  pose proof (Z.div_le_upper_bound (elapsed * 900) warmup 900 ltac:(lia) ltac:(nia)). lia.
Qed.

Lemma failbackWeight_mono a b warmup : a <= b -> failbackWeight a warmup <= failbackWeight b warmup.
Proof.
  intros Hab. pose proof (failbackWeight_bounds a warmup) as Ha. pose proof (failbackWeight_bounds b warmup) as Hb.
  unfold failbackWeight in *. cbv zeta in *. change (1000 - 100) with 900 in *.
  destruct (Z.leb_spec warmup 0), (Z.leb_spec warmup a), (Z.leb_spec warmup b); cbn [orb] in *; try lia.
  destruct (Z.leb_spec a 0), (Z.leb_spec b 0); try lia.
  rewrite !Z.quot_div_nonneg in * by lia.
  pose proof (Z.div_le_mono (a * 900) (b * 900) warmup ltac:(lia) ltac:(lia)). lia.
Qed.

(** ** One round of the weighted selection *)

Section round.
Context (warmup now route : Z).

(** The state of a data center when the round reads it. *)
Definition entry (st : option selectionState) : selectionState :=
  let state := default zero_selectionState st in
  if negb (sel_isReady state) then mkSelectionState now 0 (nextSession state) true else state.

Definition entry_weight (st : option selectionState) : Z := failbackWeight (now - readySince (entry st)) warmup.

Definition bump (st : option selectionState) : selectionState :=
  let state := entry st in
  mkSelectionState (readySince state) (currentWeight state + entry_weight st) (nextSession state) (sel_isReady state).

Lemma entry_ready st : sel_isReady (entry st) = true.
Proof. unfold entry. cbv zeta. by destruct (sel_isReady (default zero_selectionState st)) eqn:He; simpl. Qed.

Lemma entry_of_ready st : sel_isReady st = true -> entry (Some st) = st.
Proof. unfold entry. simpl. by intros ->. Qed.

Definition weight_at (sel : gmap (Z * string) selectionState) (dc : string) : Z :=
  default 0 (currentWeight <$> sel !! (route, dc)).

Definition sum_weights (f : string -> Z) (dcs : list string) : Z := foldr (fun dc acc => f dc + acc) 0 dcs.

Lemma sum_weights_ext f g dcs : (forall dc, dc ∈ dcs -> f dc = g dc) -> sum_weights f dcs = sum_weights g dcs.
Proof. induction dcs as [|dc dcs IH]; intros Hfg; simpl; [done|]. rewrite Hfg, IH by set_solver. done. Qed.

Lemma sum_weights_add f g dcs : sum_weights (fun dc => f dc + g dc) dcs = sum_weights f dcs + sum_weights g dcs.
Proof. induction dcs as [|dc dcs IH]; simpl; lia. Qed.

Lemma sum_weights_at (dc0 : string) v dcs :
  NoDup dcs -> dc0 ∈ dcs -> sum_weights (fun dc => if decide (dc = dc0) then v else 0) dcs = v.
Proof.
  induction dcs as [|dc dcs IH]; intros Hnd Hin; [set_solver|]. apply NoDup_cons in Hnd as [Hout Hnd]. simpl.
  destruct (decide (dc = dc0)) as [->|Hne].
  - rewrite (sum_weights_ext _ (fun _ => 0)).
    + enough (forall l : list string, sum_weights (fun _ => 0) l = 0) as -> by lia. induction l; simpl; lia.
    + intros dc Hdc. rewrite decide_False; [done|]. intros ->. done.
  - rewrite IH; [lia|done|set_solver].
Qed.

Lemma sum_weights_bounds f lo hi dcs :
  (forall dc, dc ∈ dcs -> lo <= f dc <= hi) -> lo * len dcs <= sum_weights f dcs <= hi * len dcs.
Proof.
  induction dcs as [|dc dcs IH]; intros Hf; simpl; [unfold len; simpl; lia|]. rewrite len_cons.
  pose proof (Hf dc ltac:(set_solver)). pose proof (IH ltac:(set_solver)). lia.
Qed.

(** The state after the loop of [selectDataCenterLocked]. *)
Definition loop_post (first : bool) (dcs : list string) (sel : gmap (Z * string) selectionState) (total : Z)
    (selected : string) (best : Z) (sel' : gmap (Z * string) selectionState) (total' : Z) (selected' : string) : Prop :=
  (forall key, sel' !! key = if decide (key.1 = route /\ key.2 ∈ dcs) then Some (bump (sel !! key)) else sel !! key) /\
  total' = total + sum_weights (fun dc => entry_weight (sel !! (route, dc))) dcs /\
  (selected' ∈ dcs \/ (first = false \/ dcs = []) /\ selected' = selected) /\
  (forall dc, dc ∈ dcs -> weight_at sel' dc <= weight_at sel' selected') /\
  (first = false -> best <= weight_at sel' selected').

Lemma select_loop_spec dcs : forall first sel total selected best sel' total' selected',
  NoDup dcs -> (first = false -> selected ∉ dcs /\ weight_at sel selected = best) ->
  select_loop warmup now route first dcs sel total selected best = (sel', total', selected') ->
  loop_post first dcs sel total selected best sel' total' selected'.
Proof.
  induction dcs as [|dc dcs IH]; intros first sel total selected best sel' total' selected' Hnd Hf.
  { simpl. intros [= <- <- <-]. split_and!; [|simpl; lia|by right; split; [right|]|set_solver|].
    - intros key. rewrite decide_False; [done|]. set_solver.
    - intros Hfirst. destruct (Hf Hfirst) as [_ ->]. lia. }
  apply NoDup_cons in Hnd as [Hout Hnd]. cbn [select_loop]. cbv zeta.
  fold (entry (sel !! (route, dc))). fold (entry_weight (sel !! (route, dc))). fold (bump (sel !! (route, dc))).
  set (st := sel !! (route, dc)). set (sel1 := <[(route, dc) := bump st]> sel).
  assert (Hdc1 : weight_at sel1 dc = currentWeight (bump st)) by (unfold weight_at, sel1; by rewrite lookup_insert_eq).
  assert (Hother : forall x, x <> dc -> sel1 !! (route, x) = sel !! (route, x))
    by (intros x Hx; unfold sel1; rewrite lookup_insert_ne; [done|congruence]).
  set (take := first || (best <? currentWeight (bump st))).
  intros Hrun. assert (Hgo : loop_post false dcs sel1 (total + entry_weight st) (if take then dc else selected)
    (if take then currentWeight (bump st) else best) sel' total' selected').
  { apply IH; [done| |by destruct take]. intros _. destruct take eqn:Ht; [done|].
    unfold take in Ht. go_bool. destruct (Hf ltac:(done)) as [Hsel Hw]. split; [set_solver|].
    unfold weight_at in *. rewrite Hother; [done|]. set_solver. }
  clear Hrun IH. destruct Hgo as (Hmap & Htot & Hwho & Hmax & Hbest). specialize (Hbest eq_refl).
  assert (Hsame : weight_at sel' dc = currentWeight (bump st)).
  { unfold weight_at. rewrite Hmap, decide_False by (simpl; tauto). unfold sel1. by rewrite lookup_insert_eq. }
  assert (Hge : currentWeight (bump st) <= weight_at sel' selected' /\ (first = false -> best <= weight_at sel' selected')).
  { destruct take eqn:Ht; unfold take in Ht; cbv iota in Hbest.
    - split; [done|]. intros ->. cbn [orb] in Ht. go_bool. lia.
    - go_bool. split; [lia|done]. }
  split_and!.
  - intros key. rewrite Hmap. destruct key as [rt x]. simpl. destruct (decide (rt = route /\ x ∈ dcs)) as [[-> Hx]|Hno].
    + rewrite Hother by set_solver. by rewrite decide_True by set_solver.
    + destruct (decide (rt = route /\ x = dc)) as [[-> ->]|Hne].
      * rewrite decide_True by set_solver. unfold sel1. by rewrite lookup_insert_eq.
      * rewrite decide_False by set_solver. unfold sel1. rewrite lookup_insert_ne; [done|]. intros [= -> ->]. tauto.
  - rewrite Htot. simpl. fold st. rewrite (sum_weights_ext _ (fun x => entry_weight (sel !! (route, x)))); [lia|].
    intros x Hx. rewrite Hother; [done|]. set_solver.
  - destruct Hwho as [?|[_ ->]]; [left; set_solver|]. destruct take eqn:Ht; [left; set_solver|].
    right. unfold take in Ht. go_bool. tauto.
  - intros x [->|Hx]%elem_of_cons; [rewrite Hsame; apply Hge|by apply Hmax].
  - apply Hge.
Qed.
End round.

(** ** The selected data center *)

Section selection.
Context (route : Z).

(** The weight a data center carries into a round. *)
Definition carried (r : Registry) (dc : string) : Z := currentWeight (entry 0 (selection r !! (route, dc))).

Lemma carried_entry r now dc : currentWeight (entry now (selection r !! (route, dc))) = carried r dc.
Proof. unfold carried, entry. cbv zeta. by destruct (negb _). Qed.

(** The weight it gains in the round. *)
Definition gained (r : Registry) (now : Z) (dc : string) : Z :=
  entry_weight (set_failbackWarmup (reg_settings r)) now (selection r !! (route, dc)).

Lemma gained_bounds r now dc : 100 <= gained r now dc <= 1000.
Proof. apply failbackWeight_bounds. Qed.

Definition round_post (r : Registry) (dcs : list string) (now : Z) (r' : Registry) (selected : string) : Prop :=
  selected ∈ dcs /\
  (forall dc, dc ∈ dcs -> carried r dc + gained r now dc <= carried r selected + gained r now selected) /\
  (forall dc, dc ∈ dcs -> carried r' dc = if len dcs =? 1 then 0 else
     carried r dc + gained r now dc - if decide (dc = selected) then sum_weights (gained r now) dcs else 0) /\
  (forall key, nextSession <$> selection r' !! key = nextSession <$> selection r !! key \/
     (nextSession <$> selection r' !! key = Some 0 /\ selection r !! key = None)) /\
  (forall dc, dc ∈ dcs -> is_Some (selection r' !! (route, dc))) /\
  exists sel, r' = set_selection r sel.

Lemma bump_next warmup now st : nextSession (bump warmup now st) = default 0 (nextSession <$> st).
Proof. unfold bump, entry. cbv zeta. destruct st as [[? ? ? []]|]; done. Qed.

Lemma fmap_next_bump warmup now (st : option selectionState) v :
  nextSession v = nextSession (bump warmup now st) ->
  nextSession <$> Some v = nextSession <$> st \/ (nextSession <$> Some v = Some 0 /\ st = None).
Proof. rewrite bump_next. destruct st as [st|]; simpl; intros ->; [by left|by right]. Qed.

Lemma select_round r dcs now :
  dcs <> [] -> NoDup dcs ->
  exists r' selected, selectDataCenterLocked r route dcs now = Ok (r', selected) /\ round_post r dcs now r' selected.
Proof.
  intros Hne Hnd. unfold selectDataCenterLocked. destruct dcs as [|dc0 rest]; [done|]. rewrite index_0_cons.
  cbn [mbind result_bind]. set (dcs := dc0 :: rest) in *.
  set (wu := set_failbackWarmup (reg_settings r)).
  destruct (select_loop wu now route true dcs (selection r) 0 dc0 0) as [[sel total] selected] eqn:Hloop.
  apply select_loop_spec in Hloop as (Hmap & Htot & Hwho & Hmax & _); [|done|done].
  destruct Hwho as [Hin|[[?|?] _]]; [|done..]. change (total = 0 + sum_weights (gained r now) dcs) in Htot.
  assert (Hsel : forall dc, dc ∈ dcs -> sel !! (route, dc) = Some (bump wu now (selection r !! (route, dc))))
    by (intros dc Hdc; by rewrite Hmap, decide_True).
  assert (Hval : forall dc, dc ∈ dcs -> weight_at route sel dc = carried r dc + gained r now dc).
  { intros dc Hdc. unfold weight_at. rewrite Hsel by done. simpl. by rewrite carried_entry. }
  rewrite Hsel by done. eexists _, selected. split; [done|].
  set (st := bump wu now (selection r !! (route, selected))). set (v := mkSelectionState _ _ _ _).
  assert (Hnew : forall dc, dc ∈ dcs -> dc <> selected ->
    selection (set_selection r (<[(route, selected) := v]> sel)) !! (route, dc) = Some (bump wu now (selection r !! (route, dc)))).
  { intros dc Hdc Hne'. simpl. rewrite lookup_insert_ne by congruence. by apply Hsel. }
  assert (Hready : forall x, entry 0 (Some (bump wu now x)) = bump wu now x).
  { intros x. apply entry_of_ready, entry_ready. }
  split_and!; [done| | | | |by eexists].
  - intros dc Hdc. rewrite <- !Hval by done. by apply Hmax.
  - intros dc Hdc. unfold carried at 1. destruct (decide (dc = selected)) as [->|Hd].
    + cbn [selection set_selection]. rewrite lookup_insert_eq, entry_of_ready by apply entry_ready.
      unfold v, st, bump. cbn [currentWeight]. rewrite carried_entry, Htot. destruct (len dcs =? 1); [done|].
      change (entry_weight wu now (selection r !! (route, selected))) with (gained r now selected). lia.
    + rewrite Hnew, Hready by done. unfold bump. cbn [currentWeight]. rewrite carried_entry.
      change (entry_weight wu now (selection r !! (route, dc))) with (gained r now dc).
      destruct (Z.eqb_spec (len dcs) 1) as [Hone|]; [|lia]. exfalso. apply Hd.
      unfold dcs in *. rewrite len_cons in Hone. destruct rest; [set_solver|]. rewrite len_cons in Hone.
      pose proof (len_nonneg rest). lia.
  - intros key. destruct (decide (key = (route, selected))) as [->|Hk]; simpl.
    + rewrite lookup_insert_eq. apply (fmap_next_bump wu now). done.
    + rewrite lookup_insert_ne by done. rewrite Hmap. destruct (decide _); [by apply (fmap_next_bump wu now)|by left].
  - intros dc Hdc. destruct (decide (dc = selected)) as [->|Hd]; simpl; [rewrite lookup_insert_eq; by eexists|].
    simpl in Hnew. rewrite Hnew by done. by eexists.
Qed.

(** *** No data center starves *)

(** The weights are balanced: they sum to zero and none is below the weight of a
    full round. *)
Definition balanced (r : Registry) (dcs : list string) : Prop :=
  sum_weights (carried r) dcs = 0 /\ forall dc, dc ∈ dcs -> - (1000 * len dcs) < carried r dc.

Lemma sum_weights_upper f lo (dc : string) dcs :
  NoDup dcs -> dc ∈ dcs -> (forall x, x ∈ dcs -> lo <= f x) -> f dc + lo * (len dcs - 1) <= sum_weights f dcs.
Proof.
  induction dcs as [|x dcs IH]; intros Hnd Hin Hf; [set_solver|]. apply NoDup_cons in Hnd as [Hx Hnd].
  simpl. rewrite len_cons. apply elem_of_cons in Hin as [->|Hin].
  - assert (Hge : forall l, (forall y, y ∈ l -> lo <= f y) -> lo * len l <= sum_weights f l).
    { clear. induction l as [|y l IHl]; intros Hl; simpl; [unfold len; simpl; lia|]. rewrite len_cons.
      pose proof (Hl y ltac:(set_solver)). pose proof (IHl ltac:(set_solver)). lia. }
    pose proof (Hge dcs ltac:(set_solver)). lia.
  - pose proof (IH Hnd Hin ltac:(set_solver)). pose proof (Hf x ltac:(set_solver)). lia.
Qed.

Lemma round_balanced r dcs now r' selected :
  NoDup dcs -> balanced r dcs -> round_post r dcs now r' selected -> balanced r' dcs.
Proof.
  intros Hnd [Hsum Hlow] (Hin & Hmax & Hval & _).
  pose proof (sum_weights_bounds (gained r now) 100 1000 dcs (fun dc _ => gained_bounds r now dc)) as HW.
  assert (Hlen : 1 <= len dcs) by (destruct dcs; [set_solver|rewrite len_cons; pose proof (len_nonneg dcs); lia]).
  destruct (Z.eqb_spec (len dcs) 1) as [Hone|Hone].
  { split; [|intros dc Hdc; rewrite Hval by done; lia]. rewrite (sum_weights_ext _ (fun _ => 0)) by done.
    clear. induction dcs; simpl; lia. }
  split.
  - rewrite (sum_weights_ext _ (fun dc => (carried r dc + gained r now dc) +
      if decide (dc = selected) then - sum_weights (gained r now) dcs else 0)).
    + rewrite sum_weights_add, sum_weights_at, sum_weights_add by done. lia.
    + intros dc Hdc. rewrite Hval by done. destruct (decide _); lia.
  - intros dc Hdc. rewrite Hval by done. pose proof (gained_bounds r now dc). pose proof (Hlow dc Hdc).
    destruct (decide (dc = selected)) as [->|]; [|lia].
    enough (0 < carried r selected + gained r now selected) by lia.
    destruct (Z.lt_ge_cases 0 (carried r selected + gained r now selected)) as [|Hneg]; [done|exfalso].
    assert (Hall : sum_weights (fun dc => carried r dc + gained r now dc) dcs <= 0 * len dcs).
    { assert (Hle : forall dc, dc ∈ dcs -> carried r dc + gained r now dc <= 0) by (intros x Hx; specialize (Hmax x Hx); lia).
      clear -Hle. induction dcs as [|x l IHl]; simpl; [done|]. pose proof (Hle x ltac:(set_solver)).
      pose proof (IHl ltac:(set_solver)). lia. }
    rewrite sum_weights_add, Hsum in Hall. lia.
Qed.

(** Consecutive rounds at the given times. *)
Fixpoint select_rounds (r : Registry) (dcs : list string) (nows : list Z) : result error (Registry * list string) :=
  match nows with
  | [] => Ok (r, [])
  | now :: nows =>
      '(r, selected) ← selectDataCenterLocked r route dcs now;
      '(r, others) ← select_rounds r dcs nows;
      Ok (r, selected :: others)
  end.

Lemma select_rounds_spec dcs nows : forall r,
  dcs <> [] -> NoDup dcs -> balanced r dcs ->
  exists r' chosen, select_rounds r dcs nows = Ok (r', chosen) /\ balanced r' dcs /\ len chosen = len nows /\
    forall dc, dc ∈ dcs -> dc ∉ chosen -> 1 < len dcs -> carried r dc + 100 * len nows <= carried r' dc.
Proof.
  induction nows as [|now nows IH]; intros r Hne Hnd Hb; simpl.
  { eexists _, _. split; [done|]. split_and!; try done. intros dc _ _ _. change (len []) with 0. lia. }
  destruct (select_round r dcs now Hne Hnd) as (r1 & sel & -> & Hpost). cbn [mbind result_bind].
  pose proof (round_balanced _ _ _ _ _ Hnd Hb Hpost) as Hb1.
  destruct (IH r1 Hne Hnd Hb1) as (r2 & chosen & -> & Hb2 & Hlen & Hgrow). cbn [mbind result_bind].
  eexists _, _. split; [done|]. split; [done|]. rewrite !len_cons. split; [lia|].
  intros dc Hdc Hnot Hmany. destruct Hpost as (_ & _ & Hval & _). specialize (Hval dc Hdc).
  rewrite (proj2 (Z.eqb_neq _ _)) in Hval by lia. rewrite decide_False in Hval by set_solver.
  specialize (Hgrow dc Hdc ltac:(set_solver) Hmany). pose proof (gained_bounds r now dc). lia.
Qed.
End selection.

(** ** The order of the sessions *)

Lemma collect_Ok {A} (f : nat -> result error A) (l : list A) : forall k0,
  (forall k x, l !! k = Some x -> f (k0 + k)%nat = Ok x) ->
  foldr (fun o rest => x ← f o; xs ← rest; Ok (x :: xs)) (Ok []) (seq k0 (length l)) = Ok l.
Proof.
  induction l as [|x l IH]; intros k0 Hf; simpl; [done|].
  rewrite <- (Nat.add_0_r k0) at 1. rewrite (Hf 0%nat x) by done. cbn [mbind result_bind].
  rewrite IH; [done|]. intros k y Hk. rewrite Nat.add_succ_comm. by apply Hf.
Qed.

Lemma index_lookup {E A} (l : list A) i x : 0 <= i -> l !! Z.to_nat i = Some x -> @index E A l i = Ok x.
Proof. intros Hi Hl. unfold index. replace (i <? 0) with false by lia. by rewrite Hl. Qed.

Lemma rotation_order {A} (ss : list A) (n : Z) :
  ss <> [] -> 0 <= n ->
  foldr (fun offset rest =>
    x ← index ss (Z.rem (Z.rem n (len ss) + Z.of_nat offset) (len ss)); xs ← rest; Ok (x :: xs))
    (Ok []) (seq 0 (length ss)) = @Ok error _ (rotate (Z.to_nat n) ss).
Proof.
  intros Hne Hn. assert (Hlen : 0 < len ss) by (destruct ss; [done|rewrite len_cons; pose proof (len_nonneg ss); lia]).
  rewrite <- (length_rotate ss (Z.to_nat n)).
  apply (collect_Ok (fun o => index ss (Z.rem (Z.rem n (len ss) + Z.of_nat o) (len ss)))).
  intros k x Hk. rewrite lookup_rotate_r_Some in Hk. destruct Hk as [Hk _]. unfold rotate_nat_add in Hk. simpl.
  rewrite !Z.rem_mod_nonneg; try lia; [|rewrite Z.rem_mod_nonneg; [|lia..]; pose proof (Z.mod_pos_bound n (len ss) Hlen); lia].
  rewrite Zplus_mod_idemp_l. apply index_lookup; [by apply Z.mod_pos_bound|].
  rewrite Z2Nat.id in Hk by lia. exact Hk.
Qed.

Lemma rotate_Permutation {A} n (l : list A) : rotate n l ≡ₚ l.
Proof. unfold rotate. rewrite Permutation_app_comm. by rewrite take_drop. Qed.

Section order.
Context (route : Z).

Abbreviation center_map := (gmap string (list (session_ptr * session))) (only parsing).

Definition next_of (r : Registry) (dc : string) : Z := default 0 (nextSession <$> selection r !! (route, dc)).

Definition center_order (r : Registry) (by_center : center_map) (dc : string) : list (session_ptr * session) :=
  rotate (Z.to_nat (next_of r dc)) (default [] (by_center !! dc)).

(** The stored positions are never negative. *)
Definition next_nonneg (r : Registry) : Prop := forall key st, selection r !! key = Some st -> 0 <= nextSession st.

Lemma orderSessions_spec r (by_center : center_map) dcs :
  next_nonneg r ->
  (forall dc, dc ∈ dcs -> is_Some (selection r !! (route, dc)) /\ default [] (by_center !! dc) <> []) ->
  orderSessionsLocked r route by_center dcs = Ok (concat (center_order r by_center <$> dcs)).
Proof.
  intros Hnext. induction dcs as [|dc dcs IH]; intros Hdcs; simpl; [done|].
  destruct (Hdcs dc ltac:(set_solver)) as [[st Hst] Hne]. rewrite Hst.
  pose proof (Hnext _ _ Hst) as Hn. set (ss := default [] (by_center !! dc)) in *.
  destruct (Z.eqb_spec (len ss) 0) as [Hz|_]; [by apply len_zero_nil in Hz|].
  rewrite rotation_order by done. cbn [mbind result_bind].
  rewrite IH by set_solver. simpl. unfold center_order, next_of. by rewrite Hst.
Qed.

(** *** The data centers in the order of their weights, the selected one first *)

Lemma data_center_le_total sel rt selected : Total (data_center_le sel rt selected).
Proof.
  intros a b. unfold data_center_le, compare_data_centers. cbv zeta.
  destruct (bool_decide_reflect (a = b)) as [->|Hab]; [left; lia|].
  rewrite (bool_decide_eq_false_2 (b = a)) by done.
  destruct (bool_decide_reflect (a = selected)) as [->|Ha]; [left; lia|].
  destruct (bool_decide_reflect (b = selected)) as [->|Hb]; [right; lia|].
  set (wa := default 0 _). set (wb := default 0 _).
  destruct (Z.ltb_spec wb wa), (Z.ltb_spec wa wb); try lia.
  destruct (String.ltb a b); [left; lia|]. destruct (String.ltb b a); [right; lia|left; lia].
Qed.

Lemma selected_first sel rt selected l :
  NoDup l -> selected ∈ l -> Sorted (data_center_le sel rt selected) l -> head l = Some selected.
Proof.
  induction l as [|x l IH]; intros Hnd Hin Hs; [set_solver|]. apply NoDup_cons in Hnd as [Hx Hnd].
  apply elem_of_cons in Hin as [->|Hin]; [done|]. inversion Hs as [|? ? Hs' Hhd]; subst.
  specialize (IH Hnd Hin Hs'). destruct l as [|y l]; [done|]. simpl in IH. injection IH as ->.
  inversion Hhd as [|? ? Hle]; subst. exfalso. unfold data_center_le, compare_data_centers in Hle.
  rewrite (bool_decide_eq_false_2 (x = selected)) in Hle by set_solver.
  rewrite (bool_decide_eq_true_2 (selected = selected)) in Hle by done. lia.
Qed.

Lemma orderDataCenters_spec r dcs selected :
  NoDup dcs -> selected ∈ dcs ->
  orderDataCentersLocked r route dcs selected ≡ₚ dcs /\
  head (orderDataCentersLocked r route dcs selected) = Some selected.
Proof.
  intros Hnd Hin. unfold orderDataCentersLocked.
  pose proof (merge_sort_Permutation (data_center_le (selection r) route selected) dcs) as Hp. split; [done|].
  apply (selected_first (selection r) route); [by rewrite Hp|by rewrite Hp|].
  apply Sorted_merge_sort, data_center_le_total.
Qed.

(** *** Eligible sessions, grouped *)

Lemma accepts_ready s now rt :
  (isReadyForRoute s now rt = true /\ accepts s now rt = (s, true)) \/
  (isReadyForRoute s now rt = false /\ (accepts s now rt).2 = false).
Proof.
  unfold isReadyForRoute, accepts. cbv zeta. destruct (_ || _); [by right|].
  set (age := now - lastActivity (alive s)). set (limit := set_staleAfter _).
  destruct (Z.leb_spec limit age), (Z.ltb_spec age limit); try lia; simpl; [right; split; [apply andb_false_r|done]|].
  destruct (bool_decide _); [by left|by right].
Qed.

Definition ready_at (p : gmap session_ptr session) (now : Z) (x : session_ptr) : option (session_ptr * session) :=
  s ← p !! x; if isReadyForRoute s now route then Some (x, s) else None.

Definition in_center (dc : string) (xs : session_ptr * session) : Prop := sp_dataCenter (ses_params xs.2) = dc.

#[local] Instance in_center_dec dc xs : Decision (in_center dc xs).
Proof. unfold in_center. solve_decision. Defined.

Lemma ready_at_insert p now x s (ps : list session_ptr) :
  x ∉ ps -> omap (ready_at (<[x := s]> p) now) ps = omap (ready_at p now) ps.
Proof.
  induction ps as [|y ps IH]; intros Hx; csimpl; [done|]. rewrite IH by set_solver. unfold ready_at at 1 3.
  by rewrite lookup_insert_ne by set_solver.
Qed.

Lemma eligible_loop_groups now (ps : list session_ptr) : forall p (m : center_map) dc,
  NoDup ps ->
  let l := filter (in_center dc) (omap (ready_at p now) ps) in
  (eligible_loop p now route ps m).2 !! dc =
  match l with [] => m !! dc | _ => Some (default [] (m !! dc) ++ l) end.
Proof.
  induction ps as [|x ps IH]; intros p m dc Hnd l; [done|]. apply NoDup_cons in Hnd as [Hx Hnd].
  unfold l. csimpl.
  change (ready_at p now x) with (s ← p !! x; if isReadyForRoute s now route then Some (x, s) else None).
  destruct (p !! x) as [s|] eqn:Hp; simpl; [|by apply IH].
  destruct (accepts_ready s now route) as [[-> ->]|[-> Hacc]]; cycle 1.
  { destruct (accepts s now route) as [s' b]. simpl in Hacc. subst b.
    rewrite IH by done. by rewrite ready_at_insert. }
  rewrite IH by done. rewrite ready_at_insert by done. rewrite filter_cons.
  set (rest := filter (in_center dc) (omap (ready_at p now) ps)).
  destruct (decide (in_center dc (x, s))) as [Hc|Hne]; unfold in_center in *; simpl in *.
  - rewrite Hc, lookup_insert_eq. simpl. destruct rest; [done|]. by rewrite <- app_assoc.
  - by rewrite lookup_insert_ne.
Qed.

Lemma groups_Permutation (l : list (session_ptr * session)) : forall dcs,
  NoDup dcs -> (forall xs, xs ∈ l -> sp_dataCenter (ses_params xs.2) ∈ dcs) ->
  concat ((fun dc => filter (in_center dc) l) <$> dcs) ≡ₚ l.
Proof.
  intros dcs. revert l. induction dcs as [|dc dcs IH]; intros l Hnd Hall; simpl.
  { destruct l as [|xs l]; [done|]. exfalso. specialize (Hall xs ltac:(set_solver)). set_solver. }
  apply NoDup_cons in Hnd as [Hdc Hnd]. transitivity (filter (in_center dc) l ++ filter (fun xs => ~ in_center dc xs) l); [|apply filter_app_complement].
  apply Permutation_app_head. rewrite <- (IH (filter (fun xs => ~ in_center dc xs) l)); [|done|].
  - match goal with |- ?a ≡ₚ ?b => enough (a = b) as Heq by (by rewrite Heq) end. f_equal. apply list_fmap_ext. intros i dc' Hi. rewrite list_filter_filter.
    apply list_filter_iff. intros xs. unfold in_center. split; [|tauto]. intros ->. split; [done|].
    intros <-. apply Hdc. by eapply list_elem_of_lookup_2.
  - intros xs [Hne Hxs]%list_elem_of_filter. specialize (Hall xs Hxs). unfold in_center in Hne. set_solver.
Qed.

(** The sessions a call on the route may use. *)
Definition eligible (g : gateway) (now : Z) : list (session_ptr * session) :=
  omap (ready_at (pool g) now) (map_to_list (sessions (registry g))).*2.

Lemma reset_lookup r (by_center : center_map) key :
  selection (resetUnavailableDataCentersLocked r route by_center) !! key =
  (fun st => if negb (key.1 =? route) then st else if bool_decide (is_Some (by_center !! key.2)) then st
             else mkSelectionState (readySince st) 0 (nextSession st) false) <$> selection r !! key.
Proof. simpl. rewrite map_lookup_imap. by destruct (selection r !! key). Qed.

Lemma reset_next r (by_center : center_map) : next_nonneg r -> next_nonneg (resetUnavailableDataCentersLocked r route by_center).
Proof.
  intros Hn key st. rewrite reset_lookup. intros (st0 & Hst & ->)%fmap_Some. specialize (Hn _ _ Hst).
  destruct (negb _); [done|]. by destruct (bool_decide _).
Qed.

Lemma round_next r dcs now r' selected : round_post route r dcs now r' selected -> next_nonneg r -> next_nonneg r'.
Proof.
  intros (_ & _ & _ & Hnext & _) Hn key st Hst. destruct (Hnext key) as [Heq|[Heq _]]; rewrite Hst in Heq; simpl in Heq.
  - destruct (selection r !! key) as [st0|] eqn:H0; [|done]. injection Heq as ->. by eapply Hn.
  - injection Heq as ->. done.
Qed.

Lemma perm_concat {A B} (f h : A -> list B) l : (forall x, x ∈ l -> f x ≡ₚ h x) -> concat (f <$> l) ≡ₚ concat (h <$> l).
Proof.
  induction l as [|x l IH]; intros Hf; simpl; [done|]. rewrite (Hf x) by set_solver.
  rewrite IH; [done|]. intros. apply Hf. set_solver.
Qed.

Definition order_post (g g' : gateway) (now : Z) (ordered : list (session_ptr * session)) : Prop :=
  ordered ≡ₚ eligible g now /\ next_nonneg (registry g') /\
  forall xs rest, ordered = xs :: rest ->
    forall ys, ys ∈ ordered ->
      carried route (registry g) (sp_dataCenter (ses_params ys.2)) + gained route (registry g) now (sp_dataCenter (ses_params ys.2)) <=
      carried route (registry g) (sp_dataCenter (ses_params xs.2)) + gained route (registry g) now (sp_dataCenter (ses_params xs.2)).

Lemma eligible_centers g now p (m : center_map) :
  NoDup (map_to_list (sessions (registry g))).*2 ->
  eligible_loop (pool g) now route (map_to_list (sessions (registry g))).*2 ∅ = (p, m) ->
  forall dc, m !! dc = match filter (in_center dc) (eligible g now) with [] => None | l => Some l end.
Proof.
  intros Hnd Hl dc. pose proof (eligible_loop_groups now _ (pool g) ∅ dc Hnd) as Hg. rewrite Hl in Hg. simpl in Hg.
  rewrite Hg. unfold eligible. by destruct (filter (in_center dc) _).
Qed.

Lemma center_members r (m : center_map) E dc :
  (forall dc, m !! dc = match filter (in_center dc) E with [] => None | l => Some l end) ->
  center_order r (merge_sort session_le <$> m) dc ≡ₚ filter (in_center dc) E.
Proof.
  intros Hm. unfold center_order. rewrite rotate_Permutation, lookup_fmap, Hm.
  destruct (filter (in_center dc) E); [done|]. cbn [fmap option_fmap option_map default from_option id].
  apply merge_sort_Permutation.
Qed.

(** [m] groups [E] by data center. *)
Definition groups (m : center_map) (E : list (session_ptr * session)) : Prop :=
  forall dc, m !! dc = match filter (in_center dc) E with [] => None | l => Some l end.

Lemma groups_listed m E :
  groups m E ->
  let dcs := merge_sort String.le (elements (dom m)) in
  NoDup dcs /\ (forall dc, dc ∈ dcs <-> is_Some (m !! dc)) /\
  (forall dc, dc ∈ dcs <-> filter (in_center dc) E <> []) /\ (dcs = [] -> E = []).
Proof.
  intros Hm dcs.
  assert (Hdom : forall dc, dc ∈ dcs <-> is_Some (m !! dc))
    by (intros dc; unfold dcs; by rewrite merge_sort_Permutation, elem_of_elements, elem_of_dom).
  assert (Hdcs : forall dc, dc ∈ dcs <-> filter (in_center dc) E <> []).
  { intros dc. rewrite Hdom, Hm.
    destruct (filter (in_center dc) E); [split; [by intros []|done]|split; [done|by eexists]]. }
  split_and!; [unfold dcs; rewrite merge_sort_Permutation; apply NoDup_elements|done|done|].
  intros Hnil. destruct E as [|xs E]; [done|]. exfalso.
  assert (Hin : sp_dataCenter (ses_params xs.2) ∈ dcs) by (apply Hdcs; by rewrite filter_cons_True).
  rewrite Hnil in Hin. set_solver.
Qed.

Lemma group_of m E xs :
  groups m E -> xs ∈ E -> sp_dataCenter (ses_params xs.2) ∈ merge_sort String.le (elements (dom m)).
Proof.
  intros Hm Hxs. destruct (groups_listed m E Hm) as (_ & _ & Hdcs & _). apply Hdcs. intros Hnil.
  assert (Hf : xs ∈ filter (in_center (sp_dataCenter (ses_params xs.2))) E) by (by apply list_elem_of_filter).
  rewrite Hnil in Hf. set_solver.
Qed.

Lemma sorted_group_nonempty (m : center_map) dc : (forall l, m !! dc = Some l -> l <> []) -> is_Some (m !! dc) ->
  default [] ((merge_sort session_le <$> m) !! dc) <> [].
Proof.
  intros Hne [l Hl]. rewrite lookup_fmap, Hl. cbn [fmap option_fmap option_map default from_option id]. intros Hs.
  pose proof (merge_sort_Permutation session_le l) as Hp. rewrite Hs in Hp. apply Permutation_nil in Hp. by eapply Hne.
Qed.

(** The sessions of the ordered data centers are the eligible ones, those of the
    selected data center first. *)
Lemma ordered_groups r m E od selected :
  groups m E -> od ≡ₚ merge_sort String.le (elements (dom m)) -> head od = Some selected ->
  let ordered := concat (center_order r (merge_sort session_le <$> m) <$> od) in
  ordered ≡ₚ E /\ forall xs rest, ordered = xs :: rest -> sp_dataCenter (ses_params xs.2) = selected.
Proof.
  intros Hm Hperm Hhead ordered. destruct (groups_listed m E Hm) as (Hnd & _ & Hdcs & _). split.
  - unfold ordered. rewrite (perm_concat _ (fun dc => filter (in_center dc) E)) by (intros; by apply center_members).
    rewrite Hperm. apply groups_Permutation; [done|]. intros xs Hxs. by eapply group_of.
  - intros xs rest Heq. unfold ordered in Heq. destruct od as [|d od]; [done|]. simpl in Hhead. injection Hhead as ->.
    simpl in Heq. assert (Hx : xs ∈ center_order r (merge_sort session_le <$> m) selected).
    { destruct (center_order r _ selected) as [|y l] eqn:Hc; [|injection Heq as -> _; set_solver].
      exfalso. assert (Hin : selected ∈ selected :: od) by set_solver. rewrite Hperm, Hdcs in Hin.
      pose proof (center_members r m E selected Hm) as Hp. rewrite Hc in Hp. by apply Permutation_nil in Hp. }
    rewrite (center_members r m E) in Hx by done. by apply list_elem_of_filter in Hx as [? _].
Qed.

Lemma reset_kept r m dc :
  is_Some (m !! dc) -> selection (resetUnavailableDataCentersLocked r route m) !! (route, dc) = selection r !! (route, dc).
Proof.
  intros Hs. rewrite reset_lookup. simpl. rewrite Z.eqb_refl. simpl. rewrite bool_decide_eq_true_2 by done.
  by destruct (selection r !! (route, dc)).
Qed.

Lemma selectionOrder_spec g now :
  NoDup (map_to_list (sessions (registry g))).*2 -> next_nonneg (registry g) -> reg_isDraining (registry g) = false ->
  exists g' ordered, selectionOrder g now route = (g', Ok (ordered, false)) /\ order_post g g' now ordered.
Proof.
  intros Hnd Hnext Hdr. unfold selectionOrder, eligibleSessionsByDataCenterLocked. rewrite Hdr.
  destruct (eligible_loop _ _ _ _ ∅) as [p m] eqn:Hl. pose proof (eligible_centers _ _ _ _ Hnd Hl) as Hm.
  destruct (groups_listed _ _ Hm) as (HndD & Hdom & Hdcs & Hnil). cbv zeta. cbn [registry pool].
  pose proof (reset_next (registry g) m Hnext) as Hn1. set (r1 := resetUnavailableDataCentersLocked _ _ _) in *.
  destruct (Z.eqb_spec (Z.of_nat (size m)) 0) as [Hz|Hnz].
  { eexists _, []. split; [done|]. split_and!; [|done|done]. rewrite Hnil; [done|].
    assert (m = ∅) as -> by (apply map_size_empty_inv; lia). done. }
  unfold sortedDataCenters. cbv beta iota. set (dcs := merge_sort String.le (elements (dom m))) in *.
  assert (HneD : dcs <> []).
  { intros Hd. apply Hnz. assert (m = ∅) as ->; [|done]. apply map_eq. intros dc. rewrite lookup_empty.
    apply eq_None_not_Some. rewrite <- Hdom, Hd. set_solver. }
  destruct (select_round route r1 dcs now HneD HndD) as (r2 & selected & -> & Hround).
  pose proof (round_next _ _ _ _ _ Hround Hn1) as Hn2. pose proof Hround as (Hin & Hmax & _ & _ & Hsome & _).
  destruct (orderDataCenters_spec r2 dcs selected HndD Hin) as [Hperm Hhead].
  destruct (ordered_groups r2 m _ _ _ Hm Hperm Hhead) as [HpermE Hfirst].
  rewrite orderSessions_spec; [|done|].
  2: { intros dc Hdc. rewrite Hperm in Hdc. split; [by apply Hsome|]. apply sorted_group_nonempty; [|by apply Hdom].
       intros l Hml. apply Hdcs in Hdc. rewrite Hm in Hml. by destruct (filter (in_center dc) _); simplify_eq. }
  cbn [mbind result_bind]. eexists _, _. split; [done|]. split_and!; [done|done|].
  intros xs rest Heq ys Hys. rewrite HpermE in Hys. rewrite (Hfirst _ _ Heq).
  specialize (Hmax _ (group_of _ _ _ Hm Hys)). unfold carried, gained, r1 in *.
  rewrite !reset_kept in Hmax by (apply Hdom; [by eapply group_of || done]). exact Hmax.
Qed.
End order.
