(* ===== verification/GatewayInRegistryProofs.v ===== *)
(** * Invariants of the gateway-in registry

    The counters of the registry against the sessions they count, for every
    interleaving of the critical sections of [registry.go], [server.go] and
    [session.go]; the selection of data centers and sessions; one Open per call. *)

From S2P Require Import Prelude TunnelContract TunnelRuntime TunnelValidate TunnelValidateProofs.
From S2P Require Import GatewayInErrors GatewayInConfig GatewayInNegotiation Scheduler LogicalRequest.
From S2P Require Import GatewayInSession GatewayInSessionProofs GatewayInRegistry GatewayInSelection.
Local Open Scope Z_scope.

(** ** What an operation of a session does to its request map *)

Section effects.
Context `{ProtoRuntime}.

Definition same_requests (s s' : session) : Prop :=
  ses_params s' = ses_params s /\ requests (table s') = requests (table s).

Lemma same_requests_refl s : same_requests s s.
Proof. done. Qed.

Lemma same_requests_trans s1 s2 s3 : same_requests s1 s2 -> same_requests s2 s3 -> same_requests s1 s3.
Proof. intros [] []. split; congruence. Qed.

Lemma same_requests_queue s s' : queue_step_of s s' -> same_requests s s'.
Proof. intros (? & ? & ? & Ht & _). split; [done|by rewrite Ht]. Qed.

Lemma same_requests_store s p r : same_requests s (store_request s p r).
Proof. done. Qed.

Lemma same_requests_fail s f : same_requests s (fail s f).
Proof. unfold fail. by destruct (failOnce (life s)). Qed.

Lemma same_requests_accepts s now route : same_requests s (accepts s now route).1.
Proof.
  unfold accepts. destruct (_ || _); [done|]. destruct (_ <=? _); [|done].
  eapply same_requests_trans; [|apply same_requests_fail]. done.
Qed.

Lemma same_requests_marked s now deadline local s' r :
  markDraining s now deadline local = (s', r) -> same_requests s s'.
Proof.
  unfold markDraining. destruct (_ <=? 0); [intros; by simplify_eq|].
  destruct (isClosed (life s)); intros; by simplify_eq.
Qed.

Lemma same_requests_drain s now deadline why : same_requests s (initiateDrain s now deadline why).1.
Proof.
  unfold initiateDrain. destruct (negb _); [apply same_requests_fail|].
  destruct (markDraining s now deadline true) as [s1 [b|e|]] eqn:Hm; apply same_requests_marked in Hm; [|done..].
  match goal with |- context [enqueueControl ?x ?c ?p] =>
    pose proof (same_requests_queue _ _ (enqueueControl_step x c p)) as Hq; destruct (enqueueControl x c p) as [s2 r] end.
  pose proof (same_requests_trans _ _ _ Hm Hq) as H2.
  destruct r; [by destruct b|eapply same_requests_trans; [exact H2|apply same_requests_fail]|done].
Qed.

Lemma same_requests_inbound s now f :
  credit_typed f -> same_requests s (session_handleInbound s now f).1.
Proof.
  intros Hty. unfold session_handleInbound.
  assert (Hreq : same_requests s (handleRequestFrame s f).1).
  { destruct (handleRequestFrame_cases s f Hty) as [[e ->]|(s1 & p & r & r1 & e & -> & Hs & _)]; [done|].
    apply same_requests_queue in Hs. exact Hs. }
  destruct (creq_payload f) as [[]|]; try exact Hreq; try done.
  - apply same_requests_queue, enqueueControl_step.
  - by destruct (_ || _).
  - destruct (negb _); [done|].
    destruct (markDraining s now _ false) as [s1 [[]|e|]] eqn:Hm; apply same_requests_marked in Hm; try done.
    eapply same_requests_trans; [exact Hm|apply same_requests_fail].
Qed.

Lemma same_requests_read s now f : credit_typed f -> same_requests s (readLoop_frame s now f).1.
Proof.
  intros Hty. unfold readLoop_frame. destruct (validateInbound s f); [|apply same_requests_fail..].
  set (s1 := set_alive s _). pose proof (same_requests_inbound s1 now f Hty) as H2.
  destruct (session_handleInbound s1 now f) as [s2 r]. simpl in H2.
  assert (H3 : same_requests s s2) by (eapply same_requests_trans; [|exact H2]; done).
  destruct r as [|e|]; [done| |done]. destruct (errors_Is e ErrQueueFull); [done|].
  eapply same_requests_trans; [exact H3|apply same_requests_fail].
Qed.

Lemma same_requests_write s pd ok : same_requests s (writeLoop_step s pd ok).1.
Proof.
  unfold writeLoop_step. destruct (dequeue pd (ctxErr (life s)) (outbound s)) as [f q|e q|q]; [|done..].
  destruct ok; cbn [negb]; [by destruct (cresp_payload f) as [[| | | | | | | |[d|]]|]|].
  eapply same_requests_trans; [|apply same_requests_fail]. done.
Qed.

Lemma same_requests_keepalive s id : same_requests s (keepalive_tick s id).
Proof.
  unfold keepalive_tick. destruct (negb _); [apply same_requests_fail|].
  destruct (randomNonce id) as [nonce|e|]; [|apply same_requests_fail..].
  match goal with |- context [enqueueControl ?x ?c ?p] =>
    pose proof (same_requests_queue _ _ (enqueueControl_step x c p)) as Hq; destruct (enqueueControl x c p) as [s1 r] end.
  assert (H1 : same_requests s s1) by (eapply same_requests_trans; [|exact Hq]; done).
  destruct r; [done|eapply same_requests_trans; [exact H1|apply same_requests_fail]..].
Qed.

Lemma same_requests_drain_sent s s' : drain_sent s = Some s' -> same_requests s s'.
Proof.
  unfold drain_sent. destruct (negb _); [done|]. destruct (try_recv _) as [[u c]|]; simpl; [|done].
  intros [= <-]. eapply same_requests_trans; [|apply same_requests_fail]. done.
Qed.

(** A start either refuses and changes nothing, or adds one request. *)
Lemma startRequest_loop_effect ids route policy deadline n : forall s s' res,
  session_inv s -> startRequest_loop n s ids route policy deadline = (s', res) ->
  (s' = s /\ exists e, res = Err e) \/
  (exists id p, res = Ok p /\ session_inv s' /\ ses_params s' = ses_params s /\ life s' = life s /\
     alive s' = alive s /\ outbound s' = outbound s /\ isClosed (life s) = false /\
     requests (table s) !! id = None /\ requests (table s') = <[id := p]> (requests (table s)) /\
     heap (table s') !! p = Some (newLogicalRequest id route policy deadline)).
Proof.
  induction n as [|n IH]; intros s s' res Hinv; simpl; [intros [= <- <-]; left; eauto|].
  destruct (ids n) as [id|]; [|intros [= <- <-]; left; eauto].
  destruct (startRequest_attempt s id route policy deadline) as [e| |s1 p] eqn:Ha;
    [intros [= <- <-]; left; eauto|by apply IH|].
  apply start_attempt_inv in Ha as (? & ? & _ & _ & ? & ? & ? & ? & ? & ? & ? & _); [|done].
  intros [= <- <-]. right. exists id, p. by split_and!.
Qed.

Lemma startRequest_effect s ids route policy deadline n s' res :
  session_inv s -> startRequest s ids route policy deadline n = (s', res) ->
  (s' = s /\ exists e, res = Err e) \/
  (exists id p policy', res = Ok p /\ session_inv s' /\ ses_params s' = ses_params s /\ life s' = life s /\
     alive s' = alive s /\ outbound s' = outbound s /\ isClosed (life s) = false /\
     requests (table s) !! id = None /\ requests (table s') = <[id := p]> (requests (table s)) /\
     heap (table s') !! p = Some (newLogicalRequest id route policy' deadline)).
Proof.
  intros Hinv. unfold startRequest. destruct (_ <? n); [intros [= <- <-]; left; eauto|].
  intros [?|(id & p & ?)]%startRequest_loop_effect; [by left|right; eauto|done].
Qed.

Context {R : Type} `{InstanceLedger R}.

Inductive table_effect (s : session) (reg : R) (s' : session) (reg' : R) : Prop :=
| effect_none : same_requests s s' -> reg' = reg -> table_effect s reg s' reg'
| effect_start id p : ses_params s' = ses_params s -> requests (table s) !! id = None ->
    requests (table s') = <[id := p]> (requests (table s)) -> reg' = reg -> table_effect s reg s' reg'
| effect_remove id p : ses_params s' = ses_params s -> requests (table s) !! id = Some p ->
    requests (table s') = delete id (requests (table s)) ->
    reg' = releaseInstance reg (sp_instanceID (ses_params s)) -> table_effect s reg s' reg'.

Lemma session_step_effect s reg s' reg' :
  session_inv s -> session_step (s, reg) (s', reg') -> table_effect s reg s' reg'.
Proof.
  intros Hinv Hstep. inversion Hstep; subst; clear Hstep.
  - apply effect_none; [apply same_requests_accepts|done].
  - by apply effect_none.
  - by apply effect_none.
  - match goal with H : startRequest _ _ _ _ _ _ = _ |- _ => apply startRequest_effect in H; [|done] end.
    destruct_or!; destruct_and?; subst; [by apply effect_none|].
    match goal with H : exists _, _ |- _ => destruct H as (id & p & ? & _ & _ & ? & _ & _ & _ & _ & ? & ? & _) end.
    by eapply effect_start.
  - match goal with H : request_code _ _ _ _ |- _ => apply request_code_step in H as [Hs _] end.
    apply effect_none; [|done]. apply same_requests_queue in Hs. exact Hs.
  - match goal with H : removeRequest _ _ _ _ = _ |- _ => rename H into Hrem end.
    destruct (heap (table s) !! p) as [r|] eqn:Hp; [|unfold removeRequest in Hrem; by rewrite Hp in Hrem].
    destruct (removeRequest_spec s reg p r addTombstone Hinv Hp) as (s1 & reg1 & Heq & _ & Hpar & Hcase).
    rewrite Heq in Hrem. simplify_eq. destruct Hcase as [(_ & -> & ->)|(? & ? & ? & _)]; [by apply effect_none|].
    by eapply effect_remove.
  - apply effect_none; [by apply same_requests_read|done].
  - apply effect_none; [|done]. destruct e; apply same_requests_fail.
  - apply effect_none; [apply same_requests_write|done].
  - apply effect_none; [apply same_requests_keepalive|done].
  - apply effect_none; [apply same_requests_drain|done].
  - apply effect_none; [apply same_requests_fail|done].
  - apply effect_none; [by apply same_requests_drain_sent|done].
Qed.
End effects.

(** ** The registry and its sessions *)

Definition pool_instance (p : gmap session_ptr session) (x : session_ptr) : option bytes :=
  (fun s => sp_instanceID (ses_params s)) <$> p !! x.

Definition of_instance (p : gmap session_ptr session) (i : bytes) (kp : list Z * session_ptr) : Prop :=
  pool_instance p kp.2 = Some i.

#[export] Instance of_instance_dec p i kp : Decision (of_instance p i kp).
Proof. unfold of_instance. solve_decision. Defined.

(** The registered tunnels of an instance. *)
Definition tunnel_count (g : gateway) (i : bytes) : Z := count_if (of_instance (pool g) i) (sessions (registry g)).

(** The active requests of an instance, over all its sessions. *)
Definition session_share (i : bytes) (s : session) : Z :=
  if bool_decide (sp_instanceID (ses_params s) = i) then Z.of_nat (size (requests (table s))) else 0.
Definition instance_load (p : gmap session_ptr session) (i : bytes) : Z := sum_over (session_share i) p.

(** The reservation a goroutine holds between [reserveInstance] and the start of
    its request; [selectionMu] admits one such goroutine. *)
Definition held (pending : option bytes) (i : bytes) : Z := if bool_decide (pending = Some i) then 1 else 0.

Section invariant.
Context `{ProtoRuntime}.

Record registry_inv (g : gateway) (pending : option bytes) : Prop := {
  rg_settings : settings_wf (reg_settings (registry g));
  rg_handshakes : 0 <= handshakes (registry g);
  rg_tunnels : Z.of_nat (size (sessions (registry g))) + handshakes (registry g) <=
    set_maxTunnels (reg_settings (registry g));
  rg_pool : forall id p, sessions (registry g) !! id = Some p ->
    exists s, pool g !! p = Some s /\ sp_id (ses_params s) = id;
  rg_sessions : forall p s, pool g !! p = Some s -> session_inv s;
  rg_instance : forall i, instanceTunnels (registry g) !! i =
    if tunnel_count g i =? 0 then None else Some (tunnel_count g i);
  rg_instance_bound : forall i, tunnel_count g i <= set_maxTunnelsPerInstance (reg_settings (registry g));
  rg_active : forall i, lookup_count (instanceActive (registry g)) i = instance_load (pool g) i + held pending i;
  rg_active_bound : forall i,
    lookup_count (instanceActive (registry g)) i <= set_maxInFlightPerInstance (reg_settings (registry g));
  rg_active_live : forall i, instanceActive (registry g) !! i = Some 0 -> is_Some (instanceTunnels (registry g) !! i);
  rg_next : next_nonneg (registry g)
}.

(** The critical sections of the registry, the server and the sessions. *)
Inductive gateway_step : gateway * option bytes -> gateway * option bytes -> Prop :=
| gs_begin g pd : gateway_step (g, pd) (mkGateway (beginHandshake (registry g)).1 (pool g), pd)
| gs_release g pd : gateway_step (g, pd) (mkGateway (releaseHandshake (registry g)) (pool g), pd)
| gs_register g pd p params :
    pool g !! p = None -> sp_settings params = reg_settings (registry g) ->
    0 < max_in_flight_requests (sp_limits params) ->
    gateway_step (g, pd)
      (mkGateway (registerFromHandshake (registry g) p params).1 (<[p := newSession params]> (pool g)), pd)
| gs_ready g pd now p : gateway_step (g, pd) (markSessionReady g now p, pd)
| gs_unregister g pd now p : gateway_step (g, pd) (unregister g now p, pd)
| gs_abort g pd p s : pool g !! p = Some s ->
    gateway_step (g, pd) (mkGateway (registry g) (<[p := abortBeforeRun s]> (pool g)), pd)
(** an operation of a session other than the start of a request *)
| gs_session g pd p s s' r' :
    pool g !! p = Some s -> session_step (s, registry g) (s', r') ->
    requests (table s') ⊆ requests (table s) ->
    gateway_step (g, pd) (mkGateway r' (<[p := s']> (pool g)), pd)
| gs_order g pd now route : gateway_step (g, pd) ((selectionOrder g now route).1, pd)
| gs_commit g pd now route p : gateway_step (g, pd) (commitSessionSelection g now route p, pd)
| gs_reserve g i r' :
    reserveInstance (registry g) i = (r', reservationAccepted) ->
    gateway_step (g, None) (mkGateway r' (pool g), Some i)
| gs_start g p s ids route policy deadline n s' q :
    pool g !! p = Some s -> startRequest s ids route policy deadline n = (s', Ok q) ->
    gateway_step (g, Some (sp_instanceID (ses_params s))) (mkGateway (registry g) (<[p := s']> (pool g)), None)
| gs_start_failed g i :
    gateway_step (g, Some i) (mkGateway (registry_releaseInstance (registry g) i) (pool g), None)
| gs_draining g pd :
    gateway_step (g, pd) (mkGateway (mkRegistry (reg_settings (registry g)) (sessions (registry g))
      (instanceTunnels (registry g)) (instanceActive (registry g)) (selection (registry g))
      (handshakes (registry g)) true) (pool g), pd).

(** *** Changes of the pool that keep every request map *)

Definition pool_kept (p p' : gmap session_ptr session) : Prop :=
  forall x, match p !! x, p' !! x with
            | Some s, Some s' => same_requests s s' /\ (session_inv s -> session_inv s')
            | None, None => True
            | _, _ => False
            end.

Lemma pool_kept_refl p : pool_kept p p.
Proof. intros x. by destruct (p !! x). Qed.

Lemma pool_kept_trans p1 p2 p3 : pool_kept p1 p2 -> pool_kept p2 p3 -> pool_kept p1 p3.
Proof.
  intros H1 H2 x. specialize (H1 x). specialize (H2 x).
  destruct (p1 !! x), (p2 !! x), (p3 !! x); try done. destruct H1, H2.
  split; [by eapply same_requests_trans|auto].
Qed.

Lemma pool_kept_insert p x s s' :
  p !! x = Some s -> same_requests s s' -> (session_inv s -> session_inv s') -> pool_kept p (<[x := s']> p).
Proof.
  intros Hx Hs Hi y. destruct (decide (y = x)) as [->|Hne].
  - by rewrite Hx, lookup_insert_eq.
  - rewrite lookup_insert_ne by done. by destruct (p !! y).
Qed.

(** A pool in which every session keeps its parameters. *)
Definition pool_params (p p' : gmap session_ptr session) : Prop :=
  forall x, match p !! x, p' !! x with
            | Some s, Some s' => ses_params s' = ses_params s /\ (session_inv s -> session_inv s')
            | None, None => True
            | _, _ => False
            end.

Lemma pool_kept_params p p' : pool_kept p p' -> pool_params p p'.
Proof. intros Hk x. specialize (Hk x). destruct (p !! x), (p' !! x); try done. by destruct Hk as [[] ?]. Qed.

Lemma pool_params_insert p x s s' :
  p !! x = Some s -> ses_params s' = ses_params s -> (session_inv s -> session_inv s') -> pool_params p (<[x := s']> p).
Proof.
  intros Hx Hs Hi y. destruct (decide (y = x)) as [->|Hne].
  - by rewrite Hx, lookup_insert_eq.
  - rewrite lookup_insert_ne by done. by destruct (p !! y).
Qed.

Lemma pool_kept_load p p' i : pool_kept p p' -> instance_load p' i = instance_load p i.
Proof.
  intros Hk. unfold instance_load. apply sum_over_ext. apply map_eq. intros x. rewrite !lookup_fmap.
  specialize (Hk x). destruct (p !! x), (p' !! x); try done. destruct Hk as [[Hp Hr] _]. simpl.
  unfold session_share. by rewrite Hp, Hr.
Qed.

(** The reservations move with the request maps. *)
Lemma inv_counts g pd m p' pd' :
  registry_inv g pd -> pool_params (pool g) p' ->
  (forall i, lookup_count m i = instance_load p' i + held pd' i) ->
  (forall i, lookup_count m i <= set_maxInFlightPerInstance (reg_settings (registry g))) ->
  (forall i, m !! i = Some 0 -> is_Some (instanceTunnels (registry g) !! i)) ->
  registry_inv (mkGateway (set_instanceActive (registry g) m) p') pd'.
Proof.
  intros [] Hk Hm Hmax Hlive.
  assert (Hc : forall i, tunnel_count (mkGateway (set_instanceActive (registry g) m) p') i = tunnel_count g i).
  { intros i. apply count_if_ext. intros k x _. unfold of_instance, pool_instance. simpl. specialize (Hk x).
    destruct (pool g !! x), (p' !! x); try done. destruct Hk as [Hp _]. simpl. by rewrite Hp. }
  split; try done; cbn [registry pool set_instanceActive instanceTunnels sessions reg_settings].
  - intros id x Hx. destruct (rg_pool0 _ _ Hx) as (s & Hs & Hid). specialize (Hk x). rewrite Hs in Hk.
    destruct (p' !! x) as [s'|]; [|done]. destruct Hk as [Hp _]. exists s'. by rewrite Hp.
  - intros x s' Hs'. specialize (Hk x). rewrite Hs' in Hk. destruct (pool g !! x) eqn:Hx; [|done].
    apply Hk. by eapply rg_sessions0.
  - intros i. rewrite Hc. apply rg_instance0.
  - intros i. rewrite Hc. apply rg_instance_bound0.
Qed.

Lemma set_instanceActive_id r : set_instanceActive r (instanceActive r) = r.
Proof. by destruct r. Qed.

Lemma inv_kept g pd p' : registry_inv g pd -> pool_kept (pool g) p' -> registry_inv (mkGateway (registry g) p') pd.
Proof.
  intros Hinv Hk. rewrite <- (set_instanceActive_id (registry g)).
  apply (inv_counts g pd); [done|by apply pool_kept_params| |apply Hinv..].
  intros i. rewrite (pool_kept_load (pool g)) by done. apply Hinv.
Qed.

(** *** Selection only touches the selection map and closes stale sessions *)

Definition selection_change (g g' : gateway) : Prop :=
  exists sel p', g' = mkGateway (set_selection (registry g) sel) p' /\ pool_kept (pool g) p' /\
    (next_nonneg (registry g) -> next_nonneg (registry g')).

Lemma set_selection_id r : set_selection r (selection r) = r.
Proof. by destruct r. Qed.

Lemma selection_change_refl g : selection_change g g.
Proof.
  exists (selection (registry g)), (pool g). split; [|split; [apply pool_kept_refl|done]].
  rewrite set_selection_id. by destruct g.
Qed.

Lemma inv_selection g g' pd : registry_inv g pd -> selection_change g g' -> registry_inv g' pd.
Proof.
  intros Hinv (sel & p' & -> & Hk & Hn). pose proof (inv_kept _ _ _ Hinv Hk) as []. split; try done.
  by apply Hn.
Qed.

Lemma eligible_loop_kept now route ps : forall p m, pool_kept p (eligible_loop p now route ps m).1.
Proof.
  induction ps as [|x ps IH]; intros p m; simpl; [apply pool_kept_refl|].
  destruct (p !! x) as [s|] eqn:Hx; [|apply IH].
  pose proof (same_requests_accepts s now route) as Hs. pose proof (accepts_inv s now route) as Hi.
  destruct (accepts s now route) as [s' b]. simpl in *.
  assert (Hk : pool_kept p (<[x := s']> p)) by (by eapply pool_kept_insert).
  destruct b; (eapply pool_kept_trans; [exact Hk|apply IH]).
Qed.

Lemma pointers_distinct g pd : registry_inv g pd -> NoDup (map_to_list (sessions (registry g))).*2.
Proof.
  intros Hinv. apply NoDup_fmap_2_strong; [|apply NoDup_map_to_list].
  intros [id1 p1] [id2 p2] H1%elem_of_map_to_list H2%elem_of_map_to_list Heq. simpl in Heq. subst p2.
  destruct (rg_pool _ _ Hinv _ _ H1) as (s1 & Hs1 & <-). destruct (rg_pool _ _ Hinv _ _ H2) as (s2 & Hs2 & <-).
  by simplify_eq.
Qed.

Lemma selectionOrder_next g pd now route :
  registry_inv g pd -> next_nonneg (registry (selectionOrder g now route).1).
Proof.
  intros Hinv. destruct (reg_isDraining (registry g)) eqn:Hd; [unfold selectionOrder; rewrite Hd; apply Hinv|].
  destruct (selectionOrder_spec route g now) as (g' & ordered & -> & _ & Hn & _);
    [by eapply pointers_distinct|apply Hinv|done|done].
Qed.

Lemma selectionOrder_change g pd now route :
  registry_inv g pd -> selection_change g (selectionOrder g now route).1.
Proof.
  intros Hinv. pose proof (selectionOrder_next g pd now route Hinv) as Hnext. revert Hnext.
  unfold selectionOrder. destruct (reg_isDraining (registry g)); [intros; apply selection_change_refl|].
  unfold eligibleSessionsByDataCenterLocked.
  pose proof (eligible_loop_kept now route (map_to_list (sessions (registry g))).*2 (pool g) ∅) as Hk.
  destruct (eligible_loop _ _ _ _ _) as [p m]. simpl in Hk. cbn [registry pool].
  assert (Hsel : forall sel, next_nonneg (set_selection (registry g) sel) ->
    selection_change g (mkGateway (set_selection (registry g) sel) p)) by (intros sel ?; by exists sel, p).
  destruct (_ =? 0); [apply Hsel|]. unfold sortedDataCenters, selectDataCenterLocked.
  destruct (index _ 0) as [dc|e|]; cbn [mbind result_bind]; [|apply Hsel..].
  destruct (select_loop _ _ _ _ _ _ _ _) as [[sel total] selected]. destruct (sel !! _); apply Hsel.
Qed.

Lemma markSessionReady_change g now p : selection_change g (markSessionReady g now p).
Proof.
  unfold markSessionReady. destruct (pool g !! p) as [s|]; [|apply selection_change_refl].
  eexists _, (pool g). split; [done|split; [apply pool_kept_refl|]]. unfold next_nonneg. cbn [registry set_selection selection].
  generalize (elements (sp_routes (ses_params s))) as routes. intros routes. generalize (selection (registry g)) as sel.
  induction routes as [|route routes IH]; intros sel Hn; simpl; [done|]. apply IH.
  intros key st [[<- <-]|[_ Hst]]%lookup_insert_Some; [|eauto].
  set (state := default zero_selectionState _). assert (Hs : 0 <= nextSession state).
  { unfold state. destruct (sel !! _) eqn:Hl; [by eapply Hn|done]. }
  by destruct (_ || _).
Qed.

Lemma position_of_nonneg p ps : forall i j, 0 <= i -> position_of p ps i = Some j -> 0 <= j.
Proof.
  induction ps as [|x ps IH]; intros i j Hi; simpl; [done|]. destruct (bool_decide _); [by intros [= <-]|].
  apply IH. lia.
Qed.

Lemma commit_change g now route p : selection_change g (commitSessionSelection g now route p).
Proof.
  unfold commitSessionSelection. destruct (pool g !! p); [|apply selection_change_refl].
  destruct (selection _ !! _) as [state|]; [|apply selection_change_refl].
  destruct (position_of _ _ _) as [i|] eqn:Hi; [|apply selection_change_refl].
  apply position_of_nonneg in Hi; [|done]. eexists _, (pool g). split; [done|split; [apply pool_kept_refl|]].
  intros Hn key st. cbn [registry selection set_selection].
  intros [[<- <-]|[_ Hst]]%lookup_insert_Some; [simpl; lia|by eapply Hn].
Qed.

(** *** Registration *)

Lemma new_session_share i params : session_share i (newSession params) = 0.
Proof. unfold session_share. simpl. rewrite map_size_empty. by destruct (bool_decide _). Qed.

Lemma of_instance_insert p x s i kp :
  p !! x = None -> is_Some (p !! kp.2) -> of_instance (<[x := s]> p) i kp <-> of_instance p i kp.
Proof.
  intros Hx [s' Hkp]. unfold of_instance, pool_instance. rewrite lookup_insert_ne; [done|].
  intros ->. by rewrite Hx in Hkp.
Qed.

(** A session that is allocated and not yet registered. *)
Lemma inv_allocate g pd p params :
  registry_inv g pd -> pool g !! p = None -> queue_limits_wf (set_queues (sp_settings params)) ->
  0 < max_in_flight_requests (sp_limits params) ->
  registry_inv (mkGateway (registry g) (<[p := newSession params]> (pool g))) pd.
Proof.
  intros [] Hp Hq Hm.
  assert (Hc : forall i, tunnel_count (mkGateway (registry g) (<[p := newSession params]> (pool g))) i = tunnel_count g i).
  { intros i. apply count_if_ext. intros k x Hx. simpl. apply of_instance_insert; [done|]. simpl.
    destruct (rg_pool0 _ _ Hx) as (s & Hs & _). eauto. }
  split; simpl; try done.
  - intros id x Hx. destruct (rg_pool0 _ _ Hx) as (s & Hs & Hid). exists s. split; [|done].
    rewrite lookup_insert_ne; [done|]. intros ->. by rewrite Hp in Hs.
  - intros x s Hx. apply lookup_insert_Some in Hx as [[<- <-]|[_ Hx]]; [by apply newSession_inv|eauto].
  - intros i. rewrite Hc. apply rg_instance0.
  - intros i. rewrite Hc. apply rg_instance_bound0.
  - intros i. unfold instance_load. rewrite sum_over_insert, new_session_share, Z.add_0_r by done. apply rg_active0.
Qed.

Lemma inv_handshakes g pd n :
  registry_inv g pd -> 0 <= n -> Z.of_nat (size (sessions (registry g))) + n <= set_maxTunnels (reg_settings (registry g)) ->
  registry_inv (mkGateway (set_handshakes (registry g) n) (pool g)) pd.
Proof. intros [] ? ?. by split. Qed.

Lemma lookup_instance g pd i :
  registry_inv g pd -> lookup_count (instanceTunnels (registry g)) i = tunnel_count g i.
Proof.
  intros Hi. unfold lookup_count. rewrite (rg_instance _ _ Hi).
  destruct (Z.eqb_spec (tunnel_count g i) 0); simpl; lia.
Qed.

Lemma tunnel_count_nonneg g i : 0 <= tunnel_count g i.
Proof. apply count_if_nonneg. Qed.

Lemma inv_link g pd p s :
  registry_inv g pd -> pool g !! p = Some s -> sessions (registry g) !! sp_id (ses_params s) = None ->
  Z.of_nat (size (sessions (registry g))) + handshakes (registry g) < set_maxTunnels (reg_settings (registry g)) ->
  tunnel_count g (sp_instanceID (ses_params s)) < set_maxTunnelsPerInstance (reg_settings (registry g)) ->
  registry_inv (mkGateway (mkRegistry (reg_settings (registry g)) (<[sp_id (ses_params s) := p]> (sessions (registry g)))
    (<[sp_instanceID (ses_params s) := tunnel_count g (sp_instanceID (ses_params s)) + 1]> (instanceTunnels (registry g)))
    (instanceActive (registry g)) (selection (registry g)) (handshakes (registry g)) (reg_isDraining (registry g)))
    (pool g)) pd.
Proof.
  intros Hinv Hp Hid Hmax Hper. pose proof Hinv as []. set (i0 := sp_instanceID (ses_params s)) in *.
  match goal with |- registry_inv ?x _ => set (g' := x) end.
  assert (Hc : forall i, tunnel_count g' i = tunnel_count g i + if decide (i0 = i) then 1 else 0).
  { intros i. unfold tunnel_count, g'. simpl. rewrite count_if_insert by done.
    assert (Hof : of_instance (pool g) i (sp_id (ses_params s), p) <-> i0 = i).
    { unfold of_instance, pool_instance. simpl. rewrite Hp. simpl. split; [intros [= Heq]; exact Heq|by intros <-]. }
    destruct (decide (i0 = i)); [by rewrite decide_True by tauto|by rewrite decide_False by tauto]. }
  pose proof (tunnel_count_nonneg g i0) as Hnn.
  split; try done; subst g'; simpl in *.
  - rewrite map_size_insert_None by done. lia.
  - intros id x Hx. apply lookup_insert_Some in Hx as [[<- <-]|[_ Hx]]; eauto.
  - intros i. rewrite Hc. destruct (decide (i0 = i)) as [<-|Hne].
    + rewrite lookup_insert_eq. destruct (Z.eqb_spec (tunnel_count g i0 + 1) 0); [lia|done].
    + rewrite lookup_insert_ne, Z.add_0_r by done. apply rg_instance0.
  - intros i. rewrite Hc. destruct (decide (i0 = i)) as [<-|Hne]; [lia|]. rewrite Z.add_0_r. apply rg_instance_bound0.
  - intros i Hi. apply lookup_insert_is_Some'. right. by apply rg_active_live0.
Qed.

Lemma inv_register g pd p params :
  registry_inv g pd -> pool g !! p = None -> sp_settings params = reg_settings (registry g) ->
  0 < max_in_flight_requests (sp_limits params) ->
  registry_inv (mkGateway (registerFromHandshake (registry g) p params).1 (<[p := newSession params]> (pool g))) pd.
Proof.
  intros Hinv Hp Hset Hm.
  assert (Ha : registry_inv (mkGateway (registry g) (<[p := newSession params]> (pool g))) pd).
  { apply inv_allocate; try done. rewrite Hset. apply (wf_queues _ (rg_settings _ _ Hinv)). }
  pose proof (rg_handshakes _ _ Hinv) as Hh. pose proof (rg_tunnels _ _ Hinv) as Ht.
  unfold registerFromHandshake. destruct (Z.eqb_spec (handshakes (registry g)) 0) as [|Hne]; [done|]. cbv zeta.
  set (n := handshakes (registry g) - 1) in *.
  assert (Hb : registry_inv (mkGateway (set_handshakes (registry g) n) (<[p := newSession params]> (pool g))) pd).
  { apply (inv_handshakes _ _ _ Ha); simpl; lia. }
  set (r := set_handshakes (registry g) n) in *. destruct (reg_isDraining r) eqn:Hdr; [done|].
  destruct (Z.leb_spec (set_maxTunnels (reg_settings r)) (Z.of_nat (size (sessions r)) + handshakes r)) as [|Hlt]; [done|].
  destruct (Z.leb_spec (set_maxTunnelsPerInstance (reg_settings r))
    (lookup_count (instanceTunnels r) (sp_instanceID params))) as [|Hper]; [done|].
  destruct (bool_decide (is_Some (sessions r !! sp_id params))) eqn:Hdup; [done|]. go_bool.
  apply eq_None_not_Some in Hdup. pose proof (lookup_instance _ _ (sp_instanceID params) Hb) as Hl.
  cbn [registry] in Hl. rewrite Hl in *.
  pose proof (inv_link _ _ p (newSession params) Hb (lookup_insert_eq _ _ _) Hdup Hlt Hper) as Hk.
  cbn [registry] in Hk. rewrite Hdr in Hk. exact Hk.
Qed.

(** The two deletions of [unregister]. *)
Lemma drop_count_lookup (m : gmap (list Z) Z) i0 i :
  let m' := <[i0 := lookup_count m i0 - 1]> m in
  (if lookup_count m' i0 =? 0 then delete i0 m' else m') !! i =
  if decide (i0 = i) then (let n := lookup_count m i0 - 1 in if n =? 0 then None else Some n) else m !! i.
Proof.
  cbv zeta. unfold lookup_count at 1. rewrite lookup_insert_eq. simpl.
  destruct (decide (i0 = i)) as [<-|Hne]; destruct (lookup_count m i0 - 1 =? 0);
    rewrite ?lookup_delete_eq, ?lookup_insert_eq, ?lookup_delete_ne, ?lookup_insert_ne by done; done.
Qed.

Lemma drop_zero_count (m : gmap (list Z) Z) i0 i :
  lookup_count (if lookup_count m i0 =? 0 then delete i0 m else m) i = lookup_count m i.
Proof.
  destruct (Z.eqb_spec (lookup_count m i0) 0) as [Hz|]; [|done]. unfold lookup_count in *.
  destruct (decide (i0 = i)) as [<-|Hne]; [by rewrite lookup_delete_eq, Hz|by rewrite lookup_delete_ne].
Qed.

Lemma drop_zero_live (m : gmap (list Z) Z) i0 i :
  (if lookup_count m i0 =? 0 then delete i0 m else m) !! i = Some 0 -> i0 <> i /\ m !! i = Some 0.
Proof.
  unfold lookup_count. destruct (Z.eqb_spec (default 0 (m !! i0)) 0) as [Hz|Hz].
  - by intros [? ?]%lookup_delete_Some.
  - intros Hi. split; [|done]. intros <-. by rewrite Hi in Hz.
Qed.

Lemma inv_unlink g pd p s :
  let r := registry g in let i0 := sp_instanceID (ses_params s) in
  registry_inv g pd -> pool g !! p = Some s -> sessions r !! sp_id (ses_params s) = Some p ->
  registry_inv (mkGateway (mkRegistry (reg_settings r) (delete (sp_id (ses_params s)) (sessions r))
    (let m := <[i0 := lookup_count (instanceTunnels r) i0 - 1]> (instanceTunnels r) in
     if lookup_count m i0 =? 0 then delete i0 m else m)
    (if lookup_count (instanceActive r) i0 =? 0 then delete i0 (instanceActive r) else instanceActive r)
    (selection r) (handshakes r) (reg_isDraining r)) (pool g)) pd.
Proof.
  intros r i0 Hinv Hp Hreg. pose proof Hinv as [].
  match goal with |- registry_inv ?x _ => set (g' := x) end.
  assert (Hc : forall i, tunnel_count g' i = tunnel_count g i - if decide (i0 = i) then 1 else 0).
  { intros i. unfold tunnel_count, g'. simpl. rewrite (count_if_delete _ _ _ p) by done. f_equal.
    assert (Hof : of_instance (pool g) i (sp_id (ses_params s), p) <-> i0 = i).
    { unfold of_instance, pool_instance. simpl. rewrite Hp. simpl. split; [intros [= Heq]; exact Heq|by intros <-]. }
    destruct (decide (i0 = i)); [by rewrite decide_True by tauto|by rewrite decide_False by tauto]. }
  assert (Hlook : forall i, instanceTunnels (registry g') !! i =
    if tunnel_count g' i =? 0 then None else Some (tunnel_count g' i)).
  { intros i. rewrite Hc. unfold g'. cbn [registry instanceTunnels]. rewrite drop_count_lookup.
    destruct (decide (i0 = i)) as [<-|Hne]; [|rewrite Z.sub_0_r; apply rg_instance0].
    unfold r. by rewrite (lookup_instance _ pd). }
  split; try done; try exact Hlook; unfold g'; cbn [registry pool sessions handshakes instanceActive reg_settings].
  - rewrite map_size_delete_Some by eauto. fold r in rg_tunnels0. lia.
  - intros k x [_ Hx]%lookup_delete_Some. eauto.
  - intros i. fold g'. rewrite Hc. specialize (rg_instance_bound0 i). fold r in rg_instance_bound0.
    destruct (decide (i0 = i)); lia.
  - intros i. rewrite drop_zero_count. apply rg_active0.
  - intros i. rewrite drop_zero_count. apply rg_active_bound0.
  - intros i [Hne Hi]%drop_zero_live. specialize (Hlook i). unfold g' in Hlook at 1. cbn [registry] in Hlook.
    rewrite Hlook, Hc, decide_False, Z.sub_0_r, <- rg_instance0 by done. by apply rg_active_live0.
Qed.

Lemma inv_unregister g pd now p : registry_inv g pd -> registry_inv (unregister g now p) pd.
Proof.
  intros Hinv. unfold unregister. destruct (pool g !! p) as [s|] eqn:Hp; [|done]. cbv zeta.
  destruct (bool_decide (sessions (registry g) !! _ = Some p)) eqn:Hreg; [|done].
  apply bool_decide_eq_true in Hreg. cbn [negb]. pose proof (inv_unlink g pd p s Hinv Hp Hreg) as Hu.
  eapply (inv_selection _ _ _ Hu). eexists _, (pool g). split; [done|split; [apply pool_kept_refl|]].
  intros Hn key st. simpl. rewrite map_lookup_imap. intros (st0 & Hst & [= <-])%bind_Some. specialize (Hn _ _ Hst).
  destruct (negb _); [done|]. by destruct (data_center_ready _ _ _ _ _).
Qed.

(** *** Reservations *)

Lemma count_insert_eq (m : gmap (list Z) Z) i v : lookup_count (<[i := v]> m) i = v.
Proof. unfold lookup_count. by rewrite lookup_insert_eq. Qed.

Lemma count_insert_ne (m : gmap (list Z) Z) i j v : i <> j -> lookup_count (<[i := v]> m) j = lookup_count m j.
Proof. intros. unfold lookup_count. by rewrite lookup_insert_ne. Qed.

Lemma count_delete_eq (m : gmap (list Z) Z) i : lookup_count (delete i m) i = 0.
Proof. unfold lookup_count. by rewrite lookup_delete_eq. Qed.

Lemma count_delete_ne (m : gmap (list Z) Z) i j : i <> j -> lookup_count (delete i m) j = lookup_count m j.
Proof. intros. unfold lookup_count. by rewrite lookup_delete_ne. Qed.

Lemma release_unfold r i :
  0 < lookup_count (instanceActive r) i ->
  instanceActive (registry_releaseInstance r i) =
  let n := lookup_count (instanceActive r) i - 1 in
  if (n =? 0) && (lookup_count (instanceTunnels r) i =? 0)
  then delete i (<[i := n]> (instanceActive r)) else <[i := n]> (instanceActive r).
Proof.
  intros Hpos. unfold registry_releaseInstance. cbn [instanceActive set_instanceActive].
  replace (0 <? lookup_count (instanceActive r) i) with true by lia. by rewrite count_insert_eq.
Qed.

Lemma release_count r i j :
  0 < lookup_count (instanceActive r) i ->
  lookup_count (instanceActive (registry_releaseInstance r i)) j =
  lookup_count (instanceActive r) j - if decide (i = j) then 1 else 0.
Proof.
  intros Hpos. rewrite release_unfold by done. cbv zeta.
  destruct (decide (i = j)) as [<-|Hne];
    destruct (Z.eqb_spec (lookup_count (instanceActive r) i - 1) 0), (lookup_count (instanceTunnels r) i =? 0);
    cbn [andb]; rewrite ?count_delete_eq, ?count_insert_eq, ?count_delete_ne, ?count_insert_ne by done; lia.
Qed.

Lemma release_live r i j :
  0 < lookup_count (instanceActive r) i ->
  (forall k, instanceActive r !! k = Some 0 -> is_Some (instanceTunnels r !! k)) ->
  instanceActive (registry_releaseInstance r i) !! j = Some 0 -> is_Some (instanceTunnels r !! j).
Proof.
  intros Hpos Hlive. rewrite release_unfold by done. cbv zeta.
  destruct (Z.eqb_spec (lookup_count (instanceTunnels r) i) 0) as [Ht|Ht].
  - rewrite andb_true_r. destruct (Z.eqb_spec (lookup_count (instanceActive r) i - 1) 0) as [Hz|Hz].
    + intros [Hne Hj]%lookup_delete_Some. rewrite lookup_insert_ne in Hj by done. auto.
    + intros [[<- Hj]|[Hne Hj]]%lookup_insert_Some; [lia|auto].
  - rewrite andb_false_r. intros [[<- Hj]|[Hne Hj]]%lookup_insert_Some; [|auto].
    unfold lookup_count in Ht. destruct (instanceTunnels r !! i); [by eexists|done].
Qed.

Lemma session_share_other i s : sp_instanceID (ses_params s) <> i -> session_share i s = 0.
Proof. intros Hne. unfold session_share. by rewrite bool_decide_eq_false_2. Qed.

Lemma session_share_own s : session_share (sp_instanceID (ses_params s)) s = Z.of_nat (size (requests (table s))).
Proof. unfold session_share. by rewrite bool_decide_eq_true_2. Qed.

Lemma instance_load_nonneg p i : 0 <= instance_load p i.
Proof. apply sum_over_nonneg. intros s. unfold session_share. destruct (bool_decide _); lia. Qed.

Lemma instance_load_at p x s : p !! x = Some s -> session_share (sp_instanceID (ses_params s)) s <= instance_load p (sp_instanceID (ses_params s)).
Proof.
  intros Hx. unfold instance_load. apply (sum_over_at _ _ x); [|done].
  intros s'. unfold session_share. destruct (bool_decide _); lia.
Qed.

Lemma held_self i : held (Some i) i = 1.
Proof. unfold held. by rewrite bool_decide_eq_true_2. Qed.

Lemma held_none i : held None i = 0.
Proof. done. Qed.

Lemma held_nonneg pd i : 0 <= held pd i.
Proof. unfold held. destruct (bool_decide _); lia. Qed.

Lemma held_some i j : held (Some i) j = if decide (i = j) then 1 else 0.
Proof.
  unfold held. destruct (decide (i = j)) as [->|Hne]; [by rewrite bool_decide_eq_true_2|].
  rewrite bool_decide_eq_false_2; [done|]. by intros [= ->].
Qed.

Lemma release_is_set r i : registry_releaseInstance r i = set_instanceActive r (instanceActive (registry_releaseInstance r i)).
Proof. done. Qed.

(** A reservation is returned: of the pending goroutine, or of a request that left
    its session. *)
Lemma inv_release g pd i p' pd' :
  registry_inv g pd -> pool_params (pool g) p' -> 0 < lookup_count (instanceActive (registry g)) i ->
  (forall j, instance_load p' j + held pd' j = instance_load (pool g) j + held pd j - if decide (i = j) then 1 else 0) ->
  registry_inv (mkGateway (registry_releaseInstance (registry g) i) p') pd'.
Proof.
  intros Hinv Hk Hpos Hsum. rewrite release_is_set. apply (inv_counts g pd); [done|done|..].
  - intros j. rewrite release_count by done. rewrite Hsum, (rg_active _ _ Hinv). lia.
  - intros j. rewrite release_count by done. pose proof (rg_active_bound _ _ Hinv j).
    destruct (decide (i = j)); lia.
  - intros j. apply release_live; [done|apply Hinv].
Qed.

Lemma share_insert s s' id q i :
  ses_params s' = ses_params s -> requests (table s) !! id = None ->
  requests (table s') = <[id := q]> (requests (table s)) ->
  session_share i s' = session_share i s + if decide (sp_instanceID (ses_params s) = i) then 1 else 0.
Proof.
  intros Hp Hid Hr. unfold session_share. rewrite Hp, Hr, map_size_insert_None by done.
  destruct (decide (sp_instanceID (ses_params s) = i)) as [Heq|Hne];
    [rewrite bool_decide_eq_true_2 by done; lia|by rewrite bool_decide_eq_false_2].
Qed.

Lemma share_delete s s' id q i :
  ses_params s' = ses_params s -> requests (table s) !! id = Some q ->
  requests (table s') = delete id (requests (table s)) ->
  session_share i s' = session_share i s - if decide (sp_instanceID (ses_params s) = i) then 1 else 0.
Proof.
  intros Hp Hid Hr. pose proof (map_size_ne_0_lookup_2 (requests (table s)) id ltac:(eauto)) as Hsz.
  unfold session_share. rewrite Hp, Hr, map_size_delete_Some by eauto.
  destruct (decide (sp_instanceID (ses_params s) = i)) as [Heq|Hne];
    [rewrite bool_decide_eq_true_2 by done; lia|by rewrite bool_decide_eq_false_2].
Qed.

Lemma inv_remove g pd p s s' id q :
  registry_inv g pd -> pool g !! p = Some s -> session_inv s' -> ses_params s' = ses_params s ->
  requests (table s) !! id = Some q -> requests (table s') = delete id (requests (table s)) ->
  registry_inv (mkGateway (registry_releaseInstance (registry g) (sp_instanceID (ses_params s))) (<[p := s']> (pool g))) pd.
Proof.
  intros Hinv Hp Hs' Hpar Hid Hr. apply (inv_release g pd); [done|by eapply pool_params_insert| |].
  - rewrite (rg_active _ _ Hinv). pose proof (instance_load_at (pool g) p s Hp) as Hl.
    rewrite session_share_own in Hl. pose proof (held_nonneg pd (sp_instanceID (ses_params s))).
    pose proof (map_size_ne_0_lookup_2 (requests (table s)) id ltac:(eauto)). lia.
  - intros j. unfold instance_load. rewrite (sum_over_update _ _ p s) by done.
    rewrite (share_delete s s' id q j) by done. lia.
Qed.

Lemma inv_reserve g i r' :
  registry_inv g None -> reserveInstance (registry g) i = (r', reservationAccepted) ->
  registry_inv (mkGateway r' (pool g)) (Some i).
Proof.
  intros Hinv. unfold reserveInstance. destruct (reg_isDraining (registry g)); [done|].
  destruct (Z.leb_spec (set_maxInFlightPerInstance (reg_settings (registry g)))
    (lookup_count (instanceActive (registry g)) i)) as [|Hlt]; [done|]. intros [= <-].
  pose proof (instance_load_nonneg (pool g) i) as Hnn. pose proof (rg_active _ _ Hinv i) as Ha.
  rewrite held_none in Ha. apply (inv_counts g None); [done|apply pool_kept_params, pool_kept_refl|..].
  - intros j. rewrite held_some. destruct (decide (i = j)) as [<-|Hne].
    + rewrite count_insert_eq, Ha. lia.
    + rewrite count_insert_ne by done. apply Hinv.
  - intros j. destruct (decide (i = j)) as [<-|Hne]; [rewrite count_insert_eq; lia|].
    rewrite count_insert_ne by done. apply Hinv.
  - intros j Hj. apply lookup_insert_Some in Hj as [[<- Hj]|[_ Hj]]; [lia|by apply Hinv].
Qed.

Lemma inv_start g p s s' id q :
  registry_inv g (Some (sp_instanceID (ses_params s))) -> pool g !! p = Some s -> session_inv s' ->
  ses_params s' = ses_params s -> requests (table s) !! id = None ->
  requests (table s') = <[id := q]> (requests (table s)) ->
  registry_inv (mkGateway (registry g) (<[p := s']> (pool g))) None.
Proof.
  intros Hinv Hp Hs' Hpar Hid Hr. rewrite <- (set_instanceActive_id (registry g)).
  eapply (inv_counts g); [done|by eapply pool_params_insert| |apply Hinv..].
  intros j. unfold instance_load. rewrite (sum_over_update _ _ p s), (share_insert s s' id q j) by done.
  rewrite (rg_active _ _ Hinv), held_some, held_none. unfold instance_load. lia.
Qed.

Lemma inv_start_failed g i :
  registry_inv g (Some i) -> registry_inv (mkGateway (registry_releaseInstance (registry g) i) (pool g)) None.
Proof.
  intros Hinv. apply (inv_release g (Some i)); [done|apply pool_kept_params, pool_kept_refl| |].
  - rewrite (rg_active _ _ Hinv), held_self. pose proof (instance_load_nonneg (pool g) i). lia.
  - intros j. rewrite held_some, held_none. lia.
Qed.

Lemma gateway_step_inv g pd g' pd' : registry_inv g pd -> gateway_step (g, pd) (g', pd') -> registry_inv g' pd'.
Proof.
  intros Hinv Hstep. pose proof (rg_handshakes _ _ Hinv) as Hh. pose proof (rg_tunnels _ _ Hinv) as Ht.
  inversion Hstep; subst; clear Hstep.
  - unfold beginHandshake. destruct (_ || _) eqn:Hg; [by destruct g|]. go_bool. apply inv_handshakes; (done || lia).
  - unfold releaseHandshake. destruct (Z.ltb_spec 0 (handshakes (registry g))); [|by destruct g].
    apply inv_handshakes; (done || lia).
  - by apply inv_register.
  - eapply inv_selection; [done|apply markSessionReady_change].
  - by apply inv_unregister.
  - eapply inv_kept; [done|]. eapply pool_kept_insert; [done|done|]. intros [? ? ? Hcl ?]. split; try done. simpl.
    intros Hc. destruct (Hcl Hc) as (? & ? & ?). split_and!; try done. unfold cancel_ctx. by destruct (ctxErr (life s)).
  - assert (Hs : session_inv s) by (by eapply (rg_sessions _ _ Hinv)).
    match goal with H : session_step _ _ |- _ => pose proof (session_step_inv _ _ _ _ Hs H) as Hs';
      apply session_step_effect in H as [Hsame ->|id q ? Hid Hr ->|id q Hpar Hid Hr ->]; try done end.
    + eapply inv_kept; [done|]. by eapply pool_kept_insert.
    + exfalso. assert (Hx : requests (table s') !! id = Some q) by (by rewrite Hr, lookup_insert_eq).
      eapply (lookup_weaken _ _ id) in Hx; [|done]. by rewrite Hid in Hx.
    + by eapply inv_remove.
  - eapply inv_selection; [done|by eapply selectionOrder_change].
  - eapply inv_selection; [done|apply commit_change].
  - by eapply inv_reserve.
  - match goal with H : startRequest _ _ _ _ _ _ = _ |- _ => apply startRequest_effect in H as
      [(_ & e & [=])|(id & q' & ? & ? & ? & ? & _ & _ & _ & _ & ? & ? & _)]; [|by eapply (rg_sessions _ _ Hinv)] end.
    by eapply inv_start.
  - by apply inv_start_failed.
  - destruct Hinv. by split.
Qed.

(** An empty registry. *)
Lemma new_registry_inv s : settings_wf s -> registry_inv (mkGateway (newRegistry s) ∅) None.
Proof.
  intros Hs. pose proof (wf_tunnels _ Hs). pose proof (wf_inflight _ Hs).
  assert (Hc : forall i, tunnel_count (mkGateway (newRegistry s) ∅) i = 0) by (intros; apply count_if_empty).
  split; try done.
  - simpl. rewrite map_size_empty. lia.
  - intros i. rewrite Hc. simpl. lia.
  - intros i. change (0 <= set_maxInFlightPerInstance s). lia.
Qed.
End invariant.

(** ** Opening a request *)

Section opening.
Context `{ProtoRuntime}.

Definition open_frame (tunnelID requestID : bytes) (class deadline : Z) (call : Call) : ConnectResponse :=
  mkConnectResponse (Some (mkFrameHeader protocolVersion tunnelID requestID 1 class []))
    (Some (Resp_Open (Some (mkOpen (call_Route call) (Some (timestamppb_New deadline)) (call_IdempotencyKey call)
      (cloneMetadata (call_Metadata call)) [])))) [].

(** [q'] is [q] with [f] at the end of one lane. *)
Definition queue_extended (q q' : outboundQueue) (f : ConnectResponse) : Prop :=
  exists lane, frame_class f = Z.of_nat lane /\ lane_frames q' lane = lane_frames q lane ++ [f] /\
    forall j, j <> lane -> lane_frames q' j = lane_frames q j.

Lemma enqueueOpen_fresh s ctx call id route policy deadline r' s' res :
  session_inv s ->
  enqueueOpen (newLogicalRequest id route policy deadline) s ctx call = (r', s', res) ->
  r' = set_outboundSequence (newLogicalRequest id route policy deadline) 1 /\
  ((exists e, res = Err e /\ s' = s) \/
   (res = Ok tt /\ exists q, s' = set_outbound s q /\
      queue_extended (outbound s) q (open_frame (sp_id (ses_params s)) id (TrafficClass policy) deadline call))).
Proof.
  intros Hinv. pose proof (sv_outbound _ Hinv) as [Hq _]. unfold enqueueOpen, enqueuePayload, enqueuePayloadLocked.
  cbn [isCompleted newLogicalRequest outboundSequence]. change (0 =? MaxUint64) with false. cbv iota zeta.
  change (u64 (0 + 1)) with 1.
  match goal with |- context [enqueueFrame s ctx ?f] => change (enqueueFrame s ctx f) with (session_enqueueFrame s ctx f);
    change f with (open_frame (sp_id (ses_params s)) id (TrafficClass policy) deadline call); set (fr := open_frame _ _ _ _ _) end.
  destruct (enqueueFrame_cases s ctx fr) as [[e ->]|(_ & _ & q & r & He & ->)]; [intros [= <- <- <-]; split; eauto|].
  intros [= <- <- <-]. split; [done|]. destruct (enqueue_spec (outbound s) ctx fr Hq) as [_ Hcase].
  rewrite He in Hcase. simpl in Hcase. destruct Hcase as [(-> & _ & lane & _ & Hc & _ & Hl & Hne & _)|(-> & e & -> & _)].
  - right. split; [done|]. exists q. split; [done|]. by exists lane.
  - left. exists e. split; [done|]. by destruct s.
Qed.

(** One step of a session, seen from the gateway. *)
Lemma lift_step r (pl : gmap session_ptr session) pd p s s' r' :
  session_step (s, r) (s', r') -> requests (table s') ⊆ requests (table s) ->
  gateway_step (mkGateway r (<[p := s]> pl), pd) (mkGateway r' (<[p := s']> pl), pd).
Proof.
  intros Hstep Hsub. rewrite <- (insert_insert_eq pl p s' s).
  refine (gs_session (mkGateway r (<[p := s]> pl)) pd p s s' r' _ _ _); [apply lookup_insert_eq|done|done].
Qed.

Lemma removed_subset s (reg : Registry) p a s' reg' :
  session_inv s -> removeRequest s reg p a = Ok (s', reg') -> requests (table s') ⊆ requests (table s) /\
  session_inv s' /\ ses_params s' = ses_params s /\ outbound s' = outbound s.
Proof.
  intros Hinv Hrem. assert (Hout : outbound s' = outbound s).
  { unfold removeRequest in Hrem. destruct (heap (table s) !! p); [|done].
    destruct (negb _); [by simplify_eq|]. cbv zeta in Hrem. destruct (if a then _ else _) as [t|e|]; [|done..].
    cbn [mbind result_bind] in Hrem. destruct a, (isDraining (life s) && _); simplify_eq; try done;
      destruct (localDrain (life s)); try done; unfold fail; by destruct (failOnce _). }
  destruct (heap (table s) !! p) as [r|] eqn:Hp; [|unfold removeRequest in Hrem; by rewrite Hp in Hrem].
  destruct (removeRequest_spec s reg p r a Hinv Hp) as (s1 & reg1 & Heq & Hs1 & Hpar & Hcase).
  rewrite Heq in Hrem. simplify_eq. split_and!; try done.
  destruct Hcase as [(_ & -> & _)|(_ & -> & _)]; [done|apply delete_subseteq].
Qed.

(** A reservation and a started request. *)
Lemma reserve_start_steps g p s ids route policy deadline n r s1 q :
  registry_inv g None -> pool g !! p = Some s ->
  reserveInstance (registry g) (sp_instanceID (ses_params s)) = (r, reservationAccepted) ->
  startRequest s ids route policy deadline n = (s1, Ok q) ->
  rtc gateway_step (g, None) (mkGateway r (<[p := s1]> (pool g)), None).
Proof.
  intros Hinv Hp Hres Hstart. eapply rtc_l; [by apply (gs_reserve _ _ _ Hres)|].
  apply rtc_once. by eapply (gs_start (mkGateway r (pool g)) p s).
Qed.

Lemma store_store s q r1 r2 : store_request (store_request s q r1) q r2 = store_request s q r2.
Proof. unfold store_request, set_table, set_heap. simpl. by rewrite insert_insert_eq. Qed.

(** The pool with the queues of the sessions unchanged. *)
Definition same_queues (g g' : gateway) : Prop :=
  forall x, outbound <$> pool g' !! x = outbound <$> pool g !! x.

Lemma same_queues_insert g r p s s' :
  pool g !! p = Some s -> outbound s' = outbound s -> same_queues g (mkGateway r (<[p := s']> (pool g))).
Proof.
  intros Hp Ho x. simpl. destruct (decide (x = p)) as [->|Hne].
  - rewrite lookup_insert_eq, Hp. simpl. by rewrite Ho.
  - by rewrite lookup_insert_ne.
Qed.

Lemma same_queues_trans g1 g2 g3 : same_queues g1 g2 -> same_queues g2 g3 -> same_queues g1 g3.
Proof. intros H1 H2 x. by rewrite H2. Qed.

Lemma commit_pool g now route p : pool (commitSessionSelection g now route p) = pool g.
Proof.
  unfold commitSessionSelection. destruct (pool g !! p); [|done]. destruct (selection _ !! _); [|done].
  by destruct (position_of _ _ _).
Qed.

(** Exactly one session got exactly one frame: the Open of the new request. *)
Definition one_open (g g' : gateway) (call : Call) (sel : requestSelection) (p : session_ptr) (q : request_ptr) : Prop :=
  exists oq s' r, outbound <$> pool g !! p = Some oq /\ pool g' !! p = Some s' /\
    requests (table s') !! req_id r = Some q /\ heap (table s') !! q = Some r /\
    isCompleted r = false /\ outboundSequence r = 1 /\
    req_route r = rsel_route sel /\ req_deadline r = rsel_deadline sel /\
    queue_extended oq (outbound s')
      (open_frame (sp_id (ses_params s')) (req_id r) (TrafficClass (req_policy r)) (rsel_deadline sel) call) /\
    forall x, x <> p -> outbound <$> pool g' !! x = outbound <$> pool g !! x.

Lemma one_open_after g1 g2 g3 call sel p q : same_queues g1 g2 -> one_open g2 g3 call sel p q -> one_open g1 g3 call sel p q.
Proof.
  intros Hs (oq & s' & r & Ho & H1 & H2 & H3 & H4 & H5 & H6 & H7 & H8 & Hrest). exists oq, s', r.
  rewrite <- (Hs p). split_and!; try done. intros x Hx. by rewrite Hrest, (Hs x).
Qed.

Definition attempt_post (g g' : gateway) (call : Call) (sel : requestSelection) (p : session_ptr)
    (out : attempt_outcome) : Prop :=
  rtc gateway_step (g, None) (g', None) /\
  match out with
  | AttemptReturn Panic => False
  | AttemptReturn (Ok (x, q)) => x = p /\ one_open g g' call sel p q
  | AttemptNext err => err <> None /\ same_queues g g' /\ dom (pool g') = dom (pool g)
  | AttemptReturn (Err _) => same_queues g g'
  end.

(** The Open of a started request was refused: the request is unlinked again and
    its reservation returned. *)
Lemma open_refused g r p s1 q id route policy deadline ctx call e :
  session_inv s1 -> requests (table s1) !! id = Some q ->
  heap (table s1) !! q = Some (newLogicalRequest id route policy deadline) ->
  enqueueOpen (newLogicalRequest id route policy deadline) s1 ctx call =
    (set_outboundSequence (newLogicalRequest id route policy deadline) 1, s1, Err e) ->
  exists s3 r3, rollbackRequestBeforeOpen (store_request s1 q
      (complete (set_outboundSequence (newLogicalRequest id route policy deadline) 1) empty_Response (Some e)).1) r q = Ok (s3, r3) /\
    outbound s3 = outbound s1 /\
    rtc gateway_step (mkGateway r (<[p := s1]> (pool g)), None) (mkGateway r3 (<[p := s3]> (pool g)), None).
Proof.
  intros Hs1 Hid Hh Hopen. set (r0 := newLogicalRequest id route policy deadline) in *.
  set (r1 := set_outboundSequence r0 1) in *. set (r2 := (complete r1 empty_Response (Some e)).1).
  assert (Hstep1 : session_step (s1, r) (store_request s1 q r1, r)) by (eapply ss_request; [done|by eapply rc_open]).
  assert (Hstep2 : session_step (store_request s1 q r1, r) (store_request s1 q r2, r)).
  { rewrite <- (store_store s1 q r1 r2). eapply ss_request; [apply lookup_insert_eq|apply rc_complete]. }
  pose proof (session_step_inv _ _ _ _ Hs1 Hstep1) as Hi1. pose proof (session_step_inv _ _ _ _ Hi1 Hstep2) as Hi2.
  destruct (removeRequest_spec (store_request s1 q r2) r q r2 false Hi2 (lookup_insert_eq _ _ _))
    as (s3 & r3 & Hrem & _). exists s3, r3. destruct (removed_subset _ _ _ _ _ _ Hi2 Hrem) as (Hsub & _ & _ & Hout).
  split_and!; [done|by rewrite Hout|].
  eapply rtc_l; [by apply (lift_step r (pool g) None p s1)|]. eapply rtc_l; [by apply (lift_step _ _ _ _ _ _ _ Hstep2)|].
  apply rtc_once. apply lift_step; [by eapply ss_remove|done].
Qed.

Lemma open_attempt_spec g now env call sel err p s g' out :
  registry_inv g None -> pool g !! p = Some s ->
  open_attempt g now env call sel err p = (g', out) -> attempt_post g g' call sel p out.
Proof.
  intros Hinv Hp. unfold open_attempt. rewrite Hp. pose proof (rg_sessions _ _ Hinv _ _ Hp) as Hs.
  assert (Hjoin : forall e, Some (errors_Join err e) <> None) by done.
  destruct (reserveInstance (registry g) (sp_instanceID (ses_params s))) as [r res] eqn:Hres. destruct res.
  2: { intros [= <- <-]. by split. }
  2: { intros [= <- <-]. by split_and!. }
  destruct (startRequest s _ _ _ _ _) as [s1 rs] eqn:Hst.
  pose proof (startRequest_effect _ _ _ _ _ _ _ _ Hs Hst) as
    [(-> & e & ->)|(id & q & pol & -> & Hs1 & Hpar & Hlife & _ & Hout & _ & Hid & Hr & Hh)].
  - intros [= <- <-]. rewrite (insert_id _ _ _ Hp). split; [|done]. eapply rtc_l; [by apply (gs_reserve _ _ _ Hres)|].
    apply rtc_once. apply (gs_start_failed (mkGateway r (pool g))).
  - rewrite Hh. pose proof (reserve_start_steps _ _ _ _ _ _ _ _ _ _ _ Hinv Hp Hres Hst) as Hsteps.
    destruct (enqueueOpen _ s1 _ call) as [[r1 s2] ro] eqn:Hopen.
    pose proof (enqueueOpen_fresh _ _ _ _ _ _ _ _ _ _ Hs1 Hopen) as (-> & [(e & -> & ->)|(-> & oq & -> & Hext)]).
    + assert (Hlink : requests (table s1) !! id = Some q) by (by rewrite Hr, lookup_insert_eq).
      destruct (open_refused g r p _ _ _ _ _ _ _ _ _ Hs1 Hlink Hh Hopen) as (s3 & r3 & -> & Ho & Hroll).
      destruct (env_ctx_after env); intros [= <- <-]; (split; [by etrans|]); split_and?;
        try (eapply same_queues_insert; [done|congruence]); try done.
      simpl. rewrite dom_insert_L. apply elem_of_dom_2 in Hp. set_solver.
    + intros [= <- <-]. split; [|split; [done|]].
      * etrans; [exact Hsteps|]. eapply rtc_l; [apply (lift_step r (pool g) None p s1)|apply rtc_once, gs_commit].
        -- eapply ss_request; [done|by eapply rc_open].
        -- done.
      * unfold one_open. rewrite commit_pool. simpl. rewrite Hp. eexists (outbound s), _, _. split; [done|].
        rewrite lookup_insert_eq. split; [done|]. simpl. rewrite lookup_insert_eq, Hr. simpl.
        split_and!; try done; [by rewrite lookup_insert_eq|by rewrite <- Hout|].
        intros x Hne. by rewrite lookup_insert_ne.
Qed.

Lemma steps_inv g pd g' pd' : registry_inv g pd -> rtc gateway_step (g, pd) (g', pd') -> registry_inv g' pd'.
Proof.
  intros Hinv Hsteps. change g' with (g', pd').1. change pd' with (g', pd').2 at 2. revert Hsteps.
  generalize (g', pd'). apply rtc_ind_r; [done|]. intros [g1 pd1] [g2 pd2] _ Hstep Hi. by eapply gateway_step_inv.
Qed.

Definition open_post (g g' : gateway) (call : Call) (sel : requestSelection)
    (res : result error (session_ptr * request_ptr)) : Prop :=
  rtc gateway_step (g, None) (g', None) /\
  match res with
  | Ok (p, q) => one_open g g' call sel p q
  | Err _ => same_queues g g'
  | Panic => False
  end.

Lemma open_post_after g1 g2 g3 call sel res :
  rtc gateway_step (g1, None) (g2, None) -> same_queues g1 g2 -> open_post g2 g3 call sel res -> open_post g1 g3 call sel res.
Proof.
  intros Hs Hq [Hs' Hres]. split; [by etrans|]. destruct res as [[p q]|e|]; [by eapply one_open_after|by eapply same_queues_trans|done].
Qed.

Lemma open_loop_spec now env call sel ps : forall g err g' res,
  registry_inv g None -> (forall p, p ∈ ps -> is_Some (pool g !! p)) ->
  open_loop g now env call sel err ps = (g', res) -> open_post g g' call sel res.
Proof.
  induction ps as [|p ps IH]; intros g err g' res Hinv Hps; simpl; [by intros [= <- <-]|].
  destruct (Hps p ltac:(set_solver)) as [s Hp].
  destruct (open_attempt g now (env p) call sel err p) as [g1 out] eqn:Ha.
  pose proof (open_attempt_spec _ _ _ _ _ _ _ _ _ _ Hinv Hp Ha) as [Hsteps Hout].
  destruct out as [err'|[[x q]|e|]].
  - destruct Hout as (_ & Hq & Hdom). intros Hrun. eapply open_post_after; [done|done|]. eapply IH; [by eapply steps_inv| |done].
    intros y Hy. apply elem_of_dom. rewrite Hdom. apply elem_of_dom, Hps. set_solver.
  - intros [= <- <-]. destruct Hout as [-> Hone]. by split.
  - intros [= <- <-]. by split.
  - done.
Qed.

Lemma eligible_loop_queues now route ps : forall p m x,
  outbound <$> (eligible_loop p now route ps m).1 !! x = outbound <$> p !! x.
Proof.
  assert (Hacc : forall s, outbound (accepts s now route).1 = outbound s).
  { intros s. unfold accepts. destruct (_ || _); [done|]. destruct (_ <=? _); [|done].
    unfold fail. by destruct (failOnce _). }
  induction ps as [|y ps IH]; intros p m x; simpl; [done|]. destruct (p !! y) as [s|] eqn:Hy; [|apply IH].
  specialize (Hacc s). destruct (accepts s now route) as [s' b]. simpl in Hacc.
  assert (Hstep : outbound <$> <[y := s']> p !! x = outbound <$> p !! x).
  { destruct (decide (x = y)) as [->|Hne]; [rewrite lookup_insert_eq, Hy; simpl; by rewrite Hacc|by rewrite lookup_insert_ne]. }
  destruct b; rewrite IH; apply Hstep.
Qed.

Lemma selectionOrder_queues g now route : same_queues g (selectionOrder g now route).1.
Proof.
  unfold selectionOrder, eligibleSessionsByDataCenterLocked. destruct (reg_isDraining (registry g)); [done|].
  pose proof (eligible_loop_queues now route (map_to_list (sessions (registry g))).*2 (pool g) ∅) as Hk.
  destruct (eligible_loop _ _ _ _ _) as [p m]. simpl in Hk. cbn [registry pool]. destruct (_ =? 0); [exact Hk|].
  destruct (sortedDataCenters m) as [m' dcs]. destruct (selectDataCenterLocked _ _ _ _) as [[r sel]|e|]; exact Hk.
Qed.

Lemma eligible_pointer route g now xs : xs ∈ eligible route g now -> is_Some (pool g !! xs.1).
Proof.
  unfold eligible. rewrite list_elem_of_omap. intros (x & _ & Hx). unfold ready_at in Hx.
  destruct (pool g !! x) as [s|] eqn:Hp; simpl in Hx; [|done]. destruct (isReadyForRoute _ _ _); [|done].
  injection Hx as <-. simpl. eauto.
Qed.

Lemma selectAndOpenRequest_spec g now env call sel g' res :
  registry_inv g None -> selectAndOpenRequest g now env call sel = (g', res) -> open_post g g' call sel res.
Proof.
  intros Hinv. unfold selectAndOpenRequest.
  pose proof (selectionOrder_queues g now (rsel_route sel)) as Hq.
  assert (Hstep : rtc gateway_step (g, None) ((selectionOrder g now (rsel_route sel)).1, None)) by apply rtc_once, gs_order.
  destruct (selectionOrder_change g None now (rsel_route sel) Hinv) as (sl & p' & Hg1 & Hkept & _).
  destruct (reg_isDraining (registry g)) eqn:Hd.
  { unfold selectionOrder in *. rewrite Hd in *. intros [= <- <-]. by split. }
  destruct (selectionOrder_spec (rsel_route sel) g now) as (g1 & ordered & Heq & Hperm & _);
    [by eapply pointers_distinct|apply Hinv|done|]. rewrite Heq in *. simpl in *. intros Hrun.
  eapply open_post_after; [done|done|]. eapply open_loop_spec; [by eapply steps_inv| |done].
  intros p (xs & -> & Hxs)%list_elem_of_fmap. rewrite Hperm in Hxs. apply eligible_pointer in Hxs as [s Hs].
  subst g1. simpl. specialize (Hkept xs.1). rewrite Hs in Hkept. destruct (p' !! xs.1); [by eexists|done].
Qed.
End opening.

(** ** Connecting *)

Section connecting.
Context `{ProtoRuntime, UrlPackage}.

(** [uint32] fields of decoded limits are not negative. *)
Definition limits_typed (l : Limits) : Prop := 0 <= max_in_flight_requests l.

Definition event_typed (e : handshake_event) : Prop :=
  forall f h l, e = HandshakeFrame f -> creq_payload f = Some (Req_Hello (Some h)) -> goh_limits h = Some l -> limits_typed l.

Lemma negotiated_in_flight st f h n e :
  settings_wf st -> limits_typed (set_limits st) -> e = HandshakeFrame f -> event_typed e ->
  ValidateGatewayOutFrame (Some f) = Ok tt -> creq_payload f = Some (Req_Hello (Some h)) ->
  negotiate st h = Ok n -> 0 < max_in_flight_requests (neg_limits n).
Proof.
  intros Hst Hty -> Hev Hv Hpay Hn. apply out_frame_Ok in Hv. pose proof (hello_frame_wf _ _ Hv Hpay) as Hh.
  destruct Hh as (_ & _ & Hpol). destruct Hpol as (_ & _ & _ & _ & _ & _ & l & Hl & Hlwf).
  destruct (negotiate_cases st h) as [[He _]|(n' & He & _ & _ & _ & _ & Hlim)]; [congruence|].
  assert (n' = n) as -> by congruence. rewrite Hlim, Hl. pose proof (Hev _ _ _ eq_refl Hpay Hl) as Hpty.
  unfold limits_typed in *. pose proof (wf_limits _ Hst) as Hw. unfold limits_wf in Hw, Hlwf. destruct_and!.
  unfold minimumLimits, limits_of. cbn [max_in_flight_requests default from_option id]. lia.
Qed.

Lemma alter_insert_some {A} (f : A -> A) (m : gmap session_ptr A) p x : m !! p = Some x -> alter f p m = <[p := f x]> m.
Proof. intros Hp. apply map_eq. intros q. destruct (decide (q = p)) as [->|Hne].
  - rewrite lookup_alter_eq, lookup_insert_eq, Hp. done.
  - by rewrite lookup_alter_ne, lookup_insert_ne.
Qed.

Lemma unregister_pool g now p : pool (unregister g now p) = pool g.
Proof. unfold unregister. destruct (pool g !! p); [|done]. by destruct (negb _). Qed.

Lemma abort_steps g pd now p : rtc gateway_step (g, pd) (abort_session g now p, pd).
Proof.
  unfold abort_session. cbv zeta. eapply rtc_l; [apply (gs_unregister g pd now p)|]. rewrite unregister_pool.
  destruct (pool g !! p) as [s|] eqn:Hp.
  - rewrite (alter_insert_some _ _ _ s) by done. apply rtc_once.
    rewrite <- (unregister_pool g now p). apply gs_abort. by rewrite unregister_pool.
  - assert (alter abortBeforeRun p (pool g) = pool g) as ->.
    { apply map_eq. intros q. destruct (decide (q = p)) as [->|Hne]; [by rewrite lookup_alter_eq, Hp|by rewrite lookup_alter_ne]. }
    rewrite <- (unregister_pool g now p). by destruct (unregister g now p).
Qed.

Lemma run_start_steps g pd now p : rtc gateway_step (g, pd) (run_start g now p, pd).
Proof.
  unfold run_start. destruct (pool g !! p) as [s|] eqn:Hp; [|done].
  eapply rtc_l; [|apply rtc_once, gs_ready]. eapply gs_session; [done|apply ss_run|done].
Qed.

Lemma connect_negotiated_steps g pd now dc h n tunnelID sendOk :
  0 < max_in_flight_requests (neg_limits n) ->
  rtc gateway_step (g, pd) ((Connect_negotiated g now dc h n tunnelID sendOk).1, pd).
Proof.
  intros Hn. unfold Connect_negotiated. destruct tunnelID as [id|]; [|apply rtc_once, gs_release]. cbv zeta.
  set (params := mkSessionParams _ _ _ _ _ _ _ _). set (p := fresh (dom (pool g))).
  assert (Hp : pool g !! p = None) by (apply not_elem_of_dom, is_fresh).
  pose proof (gs_register g pd p params Hp eq_refl Hn) as Hreg.
  destruct (registerFromHandshake (registry g) p params) as [r err]. simpl in Hreg.
  destruct err; [|by apply rtc_once..]. eapply rtc_l; [exact Hreg|].
  destruct sendOk; [apply run_start_steps|apply abort_steps].
Qed.

Lemma connect_steps g pd now peer e tunnelID sendOk :
  registry_inv g pd -> limits_typed (set_limits (reg_settings (registry g))) -> event_typed e ->
  rtc gateway_step (g, pd) ((Connect g now peer e tunnelID sendOk).1, pd).
Proof.
  intros Hinv Hty Hev. unfold Connect. destruct (authorize _ peer now) as [dc|err|]; [|done..].
  pose proof (gs_begin g pd) as Hb. destruct (beginHandshake (registry g)) as [r started] eqn:Hbegin. simpl in Hb.
  assert (Hset : reg_settings r = reg_settings (registry g))
    by (unfold beginHandshake in Hbegin; destruct (_ || _); by simplify_eq).
  assert (Href : rtc gateway_step (g, pd) (mkGateway (releaseHandshake r) (pool g), pd))
    by (eapply rtc_l; [exact Hb|apply rtc_once, (gs_release (mkGateway r (pool g)))]).
  destruct started; cbn [negb]; [|by apply rtc_once]. cbv zeta.
  destruct (receiveHandshake e) as [f|st] eqn:He; [|exact Href].
  assert (Hf : e = HandshakeFrame f) by (destruct e; by simplify_eq/=).
  destruct (_ <? _); [exact Href|]. destruct (ValidateGatewayOutFrame (Some f)) as [[]|err|] eqn:Hv; [|exact Href..].
  destruct (creq_payload f) as [[[h|]| | | | | | | | |]|] eqn:Hpay; try exact Href.
  destruct (negotiate _ h) as [n|err|] eqn:Hn; [|exact Href..]. eapply rtc_l; [exact Hb|].
  apply connect_negotiated_steps. eapply negotiated_in_flight; try done. apply (rg_settings _ _ Hinv).
Qed.

(** What [Connect] leaves behind: the handshake slot is free again, and the
    session is registered exactly when it runs. *)
Definition connect_post (g g' : gateway) (out : connect_outcome) : Prop :=
  handshakes (registry g') = handshakes (registry g) /\
  match out with
  | ConnectRefused _ => sessions (registry g') = sessions (registry g) /\
                        instanceTunnels (registry g') = instanceTunnels (registry g)
  | ConnectRunning p reply =>
      pool g !! p = None /\
      (exists s, pool g' !! p = Some s /\ isReady (life s) = true /\ requests (table s) = ∅ /\
        sessions (registry g) !! sp_id (ses_params s) = None /\
        sessions (registry g') = <[sp_id (ses_params s) := p]> (sessions (registry g)) /\
        GetTunnelId (cresp_header reply) = sp_id (ses_params s))
  end.

Lemma unregister_undoes r pl now p s :
  pl !! p = Some s -> sessions r !! sp_id (ses_params s) = None ->
  (forall i, instanceTunnels r !! i <> Some 0) ->
  let i0 := sp_instanceID (ses_params s) in
  let g := mkGateway (mkRegistry (reg_settings r) (<[sp_id (ses_params s) := p]> (sessions r))
    (<[i0 := lookup_count (instanceTunnels r) i0 + 1]> (instanceTunnels r)) (instanceActive r) (selection r)
    (handshakes r) (reg_isDraining r)) pl in
  sessions (registry (unregister g now p)) = sessions r /\
  instanceTunnels (registry (unregister g now p)) = instanceTunnels r /\
  handshakes (registry (unregister g now p)) = handshakes r.
Proof.
  intros Hp Hid Hnz i0 g. unfold unregister, g. cbn [pool]. rewrite Hp. cbv zeta. cbn [registry sessions].
  rewrite lookup_insert_eq, bool_decide_eq_true_2 by done. cbn [negb].
  cbn [resetDataCenterIfUnavailableLocked registry set_selection sessions instanceTunnels handshakes].
  rewrite delete_insert_id by done. split_and!; [done| |done]. apply map_eq. intros i.
  rewrite drop_count_lookup. fold i0. rewrite count_insert_eq.
  destruct (decide (i0 = i)) as [<-|Hne]; [|by rewrite lookup_insert_ne].
  unfold lookup_count. specialize (Hnz i0). destruct (instanceTunnels r !! i0) as [n|]; simpl.
  - replace (n + 1 - 1) with n by lia. destruct (Z.eqb_spec n 0); congruence.
  - done.
Qed.

Lemma register_cases r p params :
  0 < handshakes r ->
  (exists e, registerFromHandshake r p params = (set_handshakes r (handshakes r - 1), Err e)) \/
  (sessions r !! sp_id params = None /\
   registerFromHandshake r p params =
   (mkRegistry (reg_settings r) (<[sp_id params := p]> (sessions r))
     (<[sp_instanceID params := lookup_count (instanceTunnels r) (sp_instanceID params) + 1]> (instanceTunnels r))
     (instanceActive r) (selection r) (handshakes r - 1) (reg_isDraining r), Ok tt)).
Proof.
  intros Hpos. unfold registerFromHandshake. replace (handshakes r =? 0) with false by lia. cbv zeta.
  cbn [set_handshakes reg_isDraining reg_settings sessions instanceTunnels handshakes instanceActive selection].
  destruct (reg_isDraining r); [left; eauto|]. destruct (_ <=? _); [left; eauto|]. destruct (_ <=? _); [left; eauto|].
  destruct (bool_decide (is_Some (sessions r !! sp_id params))) eqn:Hd; [left; eauto|]. go_bool.
  right. split; [by apply eq_None_not_Some|done].
Qed.

Lemma tunnels_nonzero g pd i : registry_inv g pd -> instanceTunnels (registry g) !! i <> Some 0.
Proof. intros Hinv. rewrite (rg_instance _ _ Hinv). destruct (Z.eqb_spec (tunnel_count g i) 0); congruence. Qed.

Lemma run_start_spec g now p s :
  pool g !! p = Some s ->
  sessions (registry (run_start g now p)) = sessions (registry g) /\
  handshakes (registry (run_start g now p)) = handshakes (registry g) /\
  pool (run_start g now p) !! p = Some (run_begin s now).
Proof.
  intros Hp. unfold run_start, markSessionReady. rewrite Hp. cbn [pool]. rewrite lookup_insert_eq.
  split_and!; [done|done|apply lookup_insert_eq].
Qed.

Lemma connect_negotiated_post g pd now dc h n tunnelID sendOk g' out :
  registry_inv g pd ->
  Connect_negotiated (mkGateway (set_handshakes (registry g) (handshakes (registry g) + 1)) (pool g))
    now dc h n tunnelID sendOk = (g', out) -> connect_post g g' out.
Proof.
  intros Hinv. pose proof (rg_handshakes _ _ Hinv) as Hh. unfold Connect_negotiated. cbn [registry pool].
  destruct tunnelID as [id|].
  2: { intros [= <- <-]. unfold releaseHandshake. cbn [handshakes set_handshakes].
       replace (0 <? handshakes (registry g) + 1) with true by lia. split; [simpl; lia|done]. }
  set (params := mkSessionParams _ _ _ _ _ _ _ _). set (p := fresh (dom (pool g))).
  assert (Hp : pool g !! p = None) by (apply not_elem_of_dom, is_fresh). cbv zeta.
  set (r := set_handshakes (registry g) (handshakes (registry g) + 1)).
  assert (Hsub : handshakes r - 1 = handshakes (registry g)) by (simpl; lia).
  destruct (register_cases r p params) as [[e ->]|[Hid ->]]; [simpl; lia| |]; rewrite ?Hsub.
  { intros [= <- <-]. split; [simpl; lia|done]. }
  set (pl := <[p := newSession params]> (pool g)).
  assert (Hpl : pl !! p = Some (newSession params)) by apply lookup_insert_eq.
  set (g1 := mkGateway _ pl). destruct sendOk; cbn [negb]; intros [= <- <-].
  - destruct (run_start_spec g1 now p _ Hpl) as (Hs & Hn & Hps). split; [by rewrite Hn|]. split; [done|].
    exists (run_begin (newSession params) now). by rewrite Hps, Hs.
  - destruct (unregister_undoes (registry g) pl now p (newSession params) Hpl Hid) as (Hs & Ht & Hn).
    { intros i. by eapply tunnels_nonzero. }
    by split.
Qed.

Lemma connect_spec g pd now peer e tunnelID sendOk g' out :
  registry_inv g pd -> Connect g now peer e tunnelID sendOk = (g', out) -> connect_post g g' out.
Proof.
  intros Hinv. pose proof (rg_handshakes _ _ Hinv) as Hh. unfold Connect.
  destruct (authorize _ peer now) as [dc|err|]; [|by intros [= <- <-]..].
  unfold beginHandshake. destruct (_ || _); [by intros [= <- <-]|]. cbv zeta. cbn [negb registry pool].
  assert (Href : forall st, connect_post g (mkGateway (releaseHandshake
    (set_handshakes (registry g) (handshakes (registry g) + 1))) (pool g)) (ConnectRefused st)).
  { intros st. unfold releaseHandshake. cbn [handshakes set_handshakes].
    replace (0 <? handshakes (registry g) + 1) with true by lia. split; [simpl; lia|done]. }
  destruct (receiveHandshake e) as [f|st]; [|by intros [= <- <-]].
  destruct (_ <? _); [by intros [= <- <-]|]. destruct (ValidateGatewayOutFrame (Some f)); [|by intros [= <- <-]..].
  destruct (creq_payload f) as [[[h|]| | | | | | | | |]|]; try (by intros [= <- <-]).
  destruct (negotiate _ h) as [n|err|]; [|by intros [= <- <-]..]. by eapply connect_negotiated_post.
Qed.
End connecting.
