(* ===== verification/GatewayInRouting.v ===== *)
(** * Properties of the gateway-in registry and server

    The theorems about registration, selection and opening of requests, and a
    concrete gateway on which they are evaluated. *)

From S2P Require Import Prelude TunnelContract TunnelRuntime TunnelValidate TunnelValidateProofs.
From S2P Require Import GatewayInErrors GatewayInConfig GatewayInNegotiation Scheduler LogicalRequest.
From S2P Require Import GatewayInSession GatewayInSessionProofs GatewayInRegistry GatewayInSelection.
From S2P Require Import GatewayInRegistryProofs.
Local Open Scope Z_scope.

(** ** A concrete gateway *)

Definition plain : ProtoRuntime := reference_runtime [] [].

Definition sample_certificate : Certificate :=
  mkCertificate [7] [Some (mkURL "spiffe" "spiffe://mesh/gateway-out" None EmptyString EmptyString)]
    [ExtKeyUsageClientAuth] 0 (10 * Minute).
Definition sample_transport : transport_peer :=
  PeerTLSInfo (mkTLSState [[Some sample_certificate]] [Some sample_certificate]).
Definition sample_hello_frame : ConnectRequest :=
  mkConnectRequest (Some (mkFrameHeader 0 [] [] 0 TRAFFIC_CLASS_UNSPECIFIED []))
    (Some (Req_Hello (Some sample_peer_hello))) [].
Definition empty_gateway : gateway := mkGateway (newRegistry sample_settings) ∅.

(** One tunnel is connected; then a login call is opened on it. *)
Definition sample_connect (sendOk : bool) : gateway * connect_outcome :=
  @Connect plain sample_url empty_gateway Second sample_transport (HandshakeFrame sample_hello_frame)
    (Some (replicate 16 9)) sendOk.
Definition sample_gateway : gateway := (sample_connect true).1.
Definition sample_env : session_ptr -> attempt_env :=
  fun _ => mkAttemptEnv None None (fun _ => Some (replicate 16 3)).
Definition sample_selection : requestSelection :=
  mkRequestSelection ROUTE_ID_AUTH_LOGIN (mkRoutePolicy TRAFFIC_CLASS_CONTROL_AUTH 4096 8192 (5 * Second) 8) (3 * Second) 3.
Definition sample_login : Call :=
  mkCall ROUTE_ID_AUTH_LOGIN [1; 2; 3] []
    [Some (mkMetadata METADATA_KEY_CONTENT_TYPE (bytes_of "application/protobuf") [])].
Definition sample_open : gateway * result error (session_ptr * request_ptr) :=
  @selectAndOpenRequest plain sample_gateway (2 * Second) sample_env sample_login sample_selection.

Lemma sample_limits_typed : limits_typed (set_limits sample_settings).
Proof. unfold limits_typed. simpl. lia. Qed.

Lemma sample_event_typed : event_typed (HandshakeFrame sample_hello_frame).
Proof. intros f h l [= <-] [= <-] [= <-]. unfold limits_typed. simpl. lia. Qed.

Lemma empty_gateway_inv : @registry_inv plain empty_gateway None.
Proof. apply new_registry_inv, (@sample_settings_wf plain). Qed.

Lemma sample_gateway_steps : rtc (@gateway_step plain) (empty_gateway, None) (sample_gateway, None).
Proof. apply connect_steps; [apply empty_gateway_inv|apply sample_limits_typed|apply sample_event_typed]. Qed.

Lemma sample_gateway_inv : @registry_inv plain sample_gateway None.
Proof. eapply (@steps_inv plain); [apply empty_gateway_inv|apply sample_gateway_steps]. Qed.

Example sample_gateway_runs :
  match sample_connect true with
  | (g, ConnectRunning p _) => size (sessions (registry g)) = 1%nat /\ handshakes (registry g) = 0
  | _ => False
  end.
Proof. vm_compute. done. Qed.

Example sample_call_opens : match sample_open with (_, Ok _) => True | _ => False end.
Proof. vm_compute. exact I. Qed.

(** ** Properties *)

Section properties.
Context `{ProtoRuntime}.

(** C3. The registry never loses count: in every state that any interleaving of
    handshakes, registrations, calls, session events and disconnections can reach,
    registered tunnels and pending handshakes together stay within the tunnel
    limit, the per-instance tunnel counters equal the number of registered tunnels
    of the instance and stay within their limit, and the per-instance call counters
    equal the number of active requests of the instance over all its sessions (plus
    the one reservation in progress) and stay within their limit.  So no failed
    start, refused Open or closed tunnel leaks a reservation. *)
Theorem registry_counters_are_exact (s : settings) g pending :
  settings_wf s -> rtc gateway_step (mkGateway (newRegistry s) ∅, None) (g, pending) -> registry_inv g pending.
Proof. intros Hs Hsteps. by eapply steps_inv; [apply new_registry_inv|]. Qed.

(** The handlers are made of those atomic steps: connecting a tunnel, with all
    its refusals, and selecting a session and opening a request on it, with all its
    fallbacks and rollbacks, run a sequence of critical sections and leave no
    reservation behind. *)
Theorem handlers_refine_the_steps `{UrlPackage} g now peer e tunnelID sendOk env call sel :
  registry_inv g None -> limits_typed (set_limits (reg_settings (registry g))) -> event_typed e ->
  rtc gateway_step (g, None) ((Connect g now peer e tunnelID sendOk).1, None) /\
  rtc gateway_step (g, None) ((selectAndOpenRequest g now env call sel).1, None).
Proof.
  intros Hinv Hl He. split; [by apply connect_steps|].
  destruct (selectAndOpenRequest g now env call sel) as [g' res] eqn:Hrun.
  by apply selectAndOpenRequest_spec in Hrun as [? _].
Qed.

(** C4. A call is never sent twice: selecting a session and opening a request does
    not panic, when it fails no tunnel has got a frame, and when it succeeds exactly
    one tunnel got exactly one frame, the Open of the returned request with sequence
    number 1, whatever sessions were tried before it. *)
Theorem call_opens_once_or_not_at_all g now env call sel g' res :
  registry_inv g None -> selectAndOpenRequest g now env call sel = (g', res) ->
  match res with
  | Ok (p, q) => one_open g g' call sel p q
  | Err _ => same_queues g g'
  | Panic => False
  end.
Proof. intros Hinv Hrun. by apply selectAndOpenRequest_spec in Hrun as [_ ?]. Qed.

(** The order of attempts covers every usable tunnel: unless the registry is
    draining, [selectionOrder] returns each registered session that is ready for the
    route exactly once and no other session, and it starts with a session of a data
    center whose current weight is maximal. *)
Theorem selection_order_is_complete route g pending now :
  registry_inv g pending -> reg_isDraining (registry g) = false ->
  exists g' ordered, selectionOrder g now route = (g', Ok (ordered, false)) /\
    ordered ≡ₚ eligible route g now /\
    forall xs rest, ordered = xs :: rest -> forall ys, ys ∈ ordered ->
      carried route (registry g) (sp_dataCenter (ses_params ys.2)) +
        gained route (registry g) now (sp_dataCenter (ses_params ys.2)) <=
      carried route (registry g) (sp_dataCenter (ses_params xs.2)) +
        gained route (registry g) now (sp_dataCenter (ses_params xs.2)).
Proof.
  intros Hinv Hd. destruct (selectionOrder_spec route g now) as (g' & ordered & Heq & Hp & _ & Hbest);
    [by eapply pointers_distinct|apply Hinv|done|]. by exists g', ordered.
Qed.

(** Connecting never leaks capacity: whatever happens during the handshake
    (refused peer, timeout, broken or invalid Hello, policy mismatch, full registry,
    failed reply), the handshake slot is free again afterwards; a refused tunnel
    leaves the registered tunnels as they were, and an accepted one is a new ready
    session registered under the identifier that the reply announces. *)
Theorem connect_releases_its_slot `{UrlPackage} g pending now peer e tunnelID sendOk g' out :
  registry_inv g pending -> Connect g now peer e tunnelID sendOk = (g', out) -> connect_post g g' out.
Proof. apply connect_spec. Qed.
End properties.


(** ** The theorems at the concrete gateway *)

Lemma registry_counters_are_exact_witness : @registry_inv plain sample_gateway None.
Proof.
  apply (@registry_counters_are_exact plain sample_settings); [apply (@sample_settings_wf plain)|apply sample_gateway_steps].
Defined.

Lemma handlers_refine_the_steps_witness :
  rtc (@gateway_step plain) (empty_gateway, None) (sample_gateway, None) /\
  rtc (@gateway_step plain) (empty_gateway, None)
    ((@selectAndOpenRequest plain empty_gateway Second sample_env sample_login sample_selection).1, None).
Proof.
  apply (@handlers_refine_the_steps plain sample_url empty_gateway Second sample_transport
    (HandshakeFrame sample_hello_frame) (Some (replicate 16 9)) true sample_env sample_login sample_selection).
  - apply empty_gateway_inv.
  - apply sample_limits_typed.
  - apply sample_event_typed.
Defined.

Lemma call_opens_once_or_not_at_all_witness :
  exists p q, sample_open.2 = Ok (p, q) /\ one_open (H := plain) sample_gateway sample_open.1 sample_login sample_selection p q.
Proof.
  destruct sample_open.2 as [[p q]|e|] eqn:Hres; [|vm_compute in Hres; discriminate Hres..].
  exists p, q. split; [done|].
  pose proof (@call_opens_once_or_not_at_all plain sample_gateway (2 * Second) sample_env sample_login sample_selection
    sample_open.1 sample_open.2 sample_gateway_inv (surjective_pairing _)) as Hone.
  rewrite Hres in Hone. exact Hone.
Defined.

Lemma selection_order_is_complete_witness :
  exists g' ordered, selectionOrder sample_gateway (2 * Second) ROUTE_ID_AUTH_LOGIN = (g', Ok (ordered, false)) /\
    ordered ≡ₚ eligible ROUTE_ID_AUTH_LOGIN sample_gateway (2 * Second).
Proof.
  destruct (@selection_order_is_complete plain ROUTE_ID_AUTH_LOGIN sample_gateway None (2 * Second))
    as (g' & ordered & Heq & Hp & _).
  - apply sample_gateway_inv.
  - vm_compute. reflexivity.
  - exists g', ordered. split; [exact Heq|exact Hp].
Defined.

Lemma connect_releases_its_slot_witness :
  connect_post empty_gateway (sample_connect false).1 (sample_connect false).2.
Proof.
  apply (@connect_releases_its_slot plain sample_url empty_gateway None Second sample_transport
    (HandshakeFrame sample_hello_frame) (Some (replicate 16 9)) false).
  - apply empty_gateway_inv.
  - apply surjective_pairing.
Defined.

