(* ===== verification/GatewayOutRegistry.v ===== *)
(** * Configuration and route registry of gateway-out

    [services/gateway-out/internal/tunnel/registry.go] and the limits of
    [config.go]: the static allowlist of internal RPCs, their invocation and the
    translation of their status codes.  The internal gRPC clients and the protobuf
    messages of the RPCs are parameters. *)

From S2P Require Import Prelude GoStrings TunnelContract TunnelRuntime TunnelValidate TunnelValidateProofs.
Local Open Scope Z_scope.

(** ** Errors *)

Inductive error :=
| errSessionClosed
| errProtocol
| errKeepaliveTimeout
| errHandshake
| ErrQueueFull
| Canceled
| DeadlineExceeded
(** [errors.New(text)] and [fmt.Errorf(text, ...)] *)
| errors_New (text : string).

#[export] Instance error_eq_dec : EqDecision error.
Proof. solve_decision. Defined.

(** ** Limits *)

Record ClassLimits := mkClassLimits {
  cl_MaxInFlight : Z;
  cl_SendQueueDepth : Z;
  cl_ReceiveWindowBytes : Z
}.

Record ReceiveLimits := mkReceiveLimits {
  rl_MaxFrameBytes : Z;
  rl_MaxDataBytes : Z;
  rl_MaxMessageBytes : Z;
  rl_MaxInFlightRequests : Z;
  rl_MaxMetadataEntries : Z;
  rl_MaxMetadataValueBytes : Z;
  rl_MaxCreditBytes : Z
}.

(** [ReceiveLimits.proto] *)
Definition proto (l : ReceiveLimits) : Limits :=
  mkLimits (rl_MaxFrameBytes l) (rl_MaxDataBytes l) (rl_MaxMessageBytes l) (rl_MaxInFlightRequests l)
    (rl_MaxMetadataEntries l) (rl_MaxMetadataValueBytes l) (rl_MaxCreditBytes l) [].

Definition validateOfferedLimits `{ProtoRuntime} (limits : ReceiveLimits) : result error unit :=
  let hello := mkConnectRequest (Some (mkFrameHeader 0 [] [] 0 0 []))
    (Some (Req_Hello (Some (mkGatewayOutHello (replicate 16 1) [protocolVersion] []
      [TRAFFIC_CLASS_CONTROL_AUTH] [ROUTE_ID_AUTH_LOGIN] (Some (proto limits)) [])))) [] in
  map_err (fun _ => errors_New "gateway-out tunnel receive limits are invalid") (ValidateGatewayOutFrame (Some hello)).

Definition required_classes : list Z :=
  [TRAFFIC_CLASS_CONTROL_AUTH; TRAFFIC_CLASS_REGULAR; TRAFFIC_CLASS_REALTIME].

(** The loop over [required]. *)
Fixpoint validateClassLimits_loop (limits : gmap Z ClassLimits) (classes : list Z) : result error unit :=
  match classes with
  | [] => Ok tt
  | class :: classes =>
      match limits !! class with
      | None => Err (errors_New "gateway-out tunnel limits for class are required")
      | Some value =>
          reject_if ((cl_MaxInFlight value =? 0) || (MaxInFlightRequests <? cl_MaxInFlight value))
            (errors_New "gateway-out tunnel max in-flight for class is invalid");;
          reject_if ((cl_SendQueueDepth value <=? 0) || (MaxInFlightRequests <? cl_SendQueueDepth value))
            (errors_New "gateway-out tunnel queue depth for class is invalid");;
          reject_if ((cl_ReceiveWindowBytes value =? 0) || (MaxCreditBytes <? cl_ReceiveWindowBytes value))
            (errors_New "gateway-out tunnel receive window for class is invalid");;
          validateClassLimits_loop limits classes
      end
  end.

Definition validateClassLimits (limits : gmap Z ClassLimits) : result error unit :=
  validateClassLimits_loop limits required_classes;;
  reject_if (negb (Z.of_nat (size limits) =? len required_classes))
    (errors_New "gateway-out tunnel class limits contain an unknown class").

(** What a session reads of the settings. *)
Record settings := mkSettings {
  set_instanceID : bytes;
  set_drainTimeout : Z;
  set_limits : ReceiveLimits;
  set_classLimits : gmap Z ClassLimits
}.

(** [settings.classLimits[class]]: the zero value when the class is missing. *)
Definition class_limits (s : settings) (class : Z) : ClassLimits :=
  default (mkClassLimits 0 0 0) (set_classLimits s !! class).

(** ** Internal RPCs *)

(** [google.golang.org/grpc/codes] *)
Inductive code := CodeOK | CodeCanceled | CodeUnknown | CodeInvalidArgument | CodeDeadlineExceeded | CodeNotFound
  | CodeAlreadyExists | CodePermissionDenied | CodeResourceExhausted | CodeFailedPrecondition | CodeAborted
  | CodeOutOfRange | CodeUnimplemented | CodeInternal | CodeUnavailable | CodeDataLoss | CodeUnauthenticated.

(** What [safeResultCode] observes of an error: [errors.Is] with the two context
    errors, and [status.Code]. *)
Record rpc_error := mkRpcError { is_Canceled : bool; is_DeadlineExceeded : bool; status_Code : code }.

(** The context of a call as [metadataContext] builds it: what the propagator
    extracts the trace from, and the outgoing gRPC metadata. *)
Record callContext := mkCallContext { cc_carrier : gmap string bytes; cc_outgoing : gmap string bytes }.

(** The messages and clients of the internal services. *)
Class InternalRpc := {
  rpc_message : Type;
  rpc_client : Type;
  (** what the network and the called service do during one call *)
  rpc_world : Type;
  (** [proto.UnmarshalOptions{DiscardUnknown: false}.Unmarshal] into a new message *)
  proto_Unmarshal : rpc_message -> bytes -> option rpc_message;
  (** [proto.MarshalOptions{Deterministic: true}.Marshal] *)
  proto_Marshal : rpc_message -> option bytes;
  (** [client.Invoke(ctx, method, request, response)] *)
  client_Invoke : rpc_world -> callContext -> rpc_client -> string -> rpc_message -> rpc_message -> rpc_message + rpc_error
}.

Section rpc.
Context `{InternalRpc}.

Record ClassClients := mkClassClients {
  ControlAuth : option rpc_client;
  Regular : option rpc_client;
  Realtime : option rpc_client
}.

(** A factory may be nil, and may return a nil message. *)
Record RouteSpec := mkRouteSpec {
  rt_ID : Z;
  rt_TrafficClass : Z;
  rt_Method : string;
  rt_NewRequest : option (option rpc_message);
  rt_NewResponse : option (option rpc_message);
  rt_MaxRequestBytes : Z;
  rt_MaxResponseBytes : Z;
  rt_MaxDeadline : Z;
  rt_Mutating : bool;
  rt_RequireIdempotencyKey : bool
}.

Record route := mkRoute { rt_spec : RouteSpec; rt_client : rpc_client }.

Record Registry := mkRegistry {
  routes : gmap Z route;
  ordered : list Z;
  classes : list Z
}.

Definition clientForClass (clients : ClassClients) (class : Z) : option rpc_client :=
  if class =? TRAFFIC_CLASS_CONTROL_AUTH then ControlAuth clients
  else if class =? TRAFFIC_CLASS_REGULAR then Regular clients
  else if class =? TRAFFIC_CLASS_REALTIME then Realtime clients
  else None.

Definition routeTrafficClass (routeID : Z) : Z :=
  if switch_in routeID [
      ROUTE_ID_AUTH_REGISTER_CREDENTIALS; ROUTE_ID_AUTH_LOGIN; ROUTE_ID_AUTH_REFRESH_SESSION;
      ROUTE_ID_AUTH_REVOKE_SESSION; ROUTE_ID_AUTH_SESSION_ASSERTION; ROUTE_ID_AUTH_LOGOUT_ALL;
      ROUTE_ID_AUTH_START_LOGIN_CODE_CHANGE; ROUTE_ID_AUTH_COMPLETE_LOGIN_CODE_CHANGE;
      ROUTE_ID_AUTH_CHANGE_PASSWORD; ROUTE_ID_AUTH_START_LOGIN; ROUTE_ID_AUTH_COMPLETE_LOGIN;
      ROUTE_ID_AUTH_RESEND_LOGIN_CODE; ROUTE_ID_AUTH_REQUEST_EMAIL_VERIFICATION;
      ROUTE_ID_AUTH_CONFIRM_EMAIL; ROUTE_ID_AUTH_REQUEST_PASSWORD_RESET;
      ROUTE_ID_AUTH_CONFIRM_PASSWORD_RESET; ROUTE_ID_AUTH_GET_CREDENTIALS;
      ROUTE_ID_AUTH_START_EMAIL_CHANGE; ROUTE_ID_AUTH_CONFIRM_EMAIL_CHANGE;
      ROUTE_ID_AUTH_CANCEL_EMAIL_CHANGE; ROUTE_ID_AUTH_LIST_SESSIONS;
      ROUTE_ID_AUTH_REVOKE_OWNED_SESSION; ROUTE_ID_AUTH_REQUEST_ACCOUNT_DELETION;
      ROUTE_ID_AUTH_CANCEL_ACCOUNT_DELETION]
  then TRAFFIC_CLASS_CONTROL_AUTH
  else if switch_in routeID [
      ROUTE_ID_USER_GET_ME; ROUTE_ID_USER_UPDATE_ME; ROUTE_ID_USER_BROWSER_GET_ME;
      ROUTE_ID_USER_BROWSER_UPDATE_ME; ROUTE_ID_USER_BROWSER_LIST_ADDRESSES;
      ROUTE_ID_USER_BROWSER_CREATE_ADDRESS; ROUTE_ID_USER_BROWSER_UPDATE_ADDRESS;
      ROUTE_ID_USER_BROWSER_DELETE_ADDRESS; ROUTE_ID_USER_BROWSER_SET_DEFAULT_ADDRESS;
      ROUTE_ID_USER_BROWSER_GET_SETTINGS; ROUTE_ID_USER_BROWSER_UPDATE_SETTINGS;
      ROUTE_ID_USER_BROWSER_GET_AVATAR; ROUTE_ID_USER_BROWSER_SET_AVATAR;
      ROUTE_ID_USER_BROWSER_CLEAR_AVATAR; ROUTE_ID_FILE_CREATE_UPLOAD;
      ROUTE_ID_FILE_COMPLETE_UPLOAD; ROUTE_ID_FILE_GET_STATUS; ROUTE_ID_FILE_CREATE_DOWNLOAD;
      ROUTE_ID_FILE_DELETE]
  then TRAFFIC_CLASS_REGULAR
  else if switch_in routeID [
      ROUTE_ID_REALTIME_CHAT; ROUTE_ID_REALTIME_NOTIFICATIONS]
  then TRAFFIC_CLASS_REALTIME
  else TRAFFIC_CLASS_UNSPECIFIED.

Definition slash : Z := 47.

Definition validFullMethod (method : string) : result error bool :=
  let method := TrimSpace (bytes_of method) in
  if negb (bool_decide (head method = Some slash)) || negb (strings_Count method slash =? 2) then Ok false else
  rest ← slice method 1 (len method);
  let parts := strings_Split rest slash in
  r ← (if negb (len parts =? 2) then Ok false else
       a ← index parts 0;
       if len a =? 0 then Ok false else
       b ← index parts 1; Ok (negb (len b =? 0)));
  Ok r.

(** [nilInterface] of an interface that holds a pointer. *)
Definition nilInterface {A} (value : option A) : bool := negb (bool_decide (is_Some value)).

Definition spec_error (text : string) : error := errors_New text.

Definition validateRouteSpec (spec : RouteSpec) : result error unit :=
  let expected := routeTrafficClass (rt_ID spec) in
  reject_if (expected =? TRAFFIC_CLASS_UNSPECIFIED) (spec_error "gateway-out tunnel route is unknown");;
  reject_if (negb (rt_TrafficClass spec =? expected)) (spec_error "gateway-out tunnel route has an invalid traffic class");;
  reject_if (rt_TrafficClass spec =? TRAFFIC_CLASS_REALTIME)
    (spec_error "gateway-out tunnel route requires a dedicated streaming adapter");;
  valid ← validFullMethod (rt_Method spec);
  reject_if (negb valid) (spec_error "gateway-out tunnel route has an invalid internal method");;
  reject_if (negb (bool_decide (is_Some (rt_NewRequest spec))) || negb (bool_decide (is_Some (rt_NewResponse spec))))
    (spec_error "gateway-out tunnel route requires protobuf factories");;
  reject_if (nilInterface (mjoin (rt_NewRequest spec)) || nilInterface (mjoin (rt_NewResponse spec)))
    (spec_error "gateway-out tunnel route factory returned nil");;
  reject_if ((rt_MaxRequestBytes spec =? 0) || (MaxMessageBytes <? rt_MaxRequestBytes spec))
    (spec_error "gateway-out tunnel route request limit is invalid");;
  reject_if ((rt_MaxResponseBytes spec =? 0) || (MaxMessageBytes <? rt_MaxResponseBytes spec))
    (spec_error "gateway-out tunnel route response limit is invalid");;
  reject_if (rt_MaxDeadline spec <=? 0) (spec_error "gateway-out tunnel route deadline must be positive");;
  reject_if (rt_RequireIdempotencyKey spec && negb (rt_Mutating spec))
    (spec_error "gateway-out tunnel route cannot require idempotency for a read").

Fixpoint NewRegistry_loop (clients : ClassClients) (specs : list RouteSpec) (reg : Registry) : result error Registry :=
  match specs with
  | [] => Ok reg
  | spec :: specs =>
      validateRouteSpec spec;;
      reject_if (bool_decide (is_Some (routes reg !! rt_ID spec))) (spec_error "gateway-out tunnel route is duplicated");;
      match clientForClass clients (rt_TrafficClass spec) with
      | None => Err (spec_error "gateway-out tunnel client for class is required")
      | Some client =>
          NewRegistry_loop clients specs
            (mkRegistry (<[rt_ID spec := mkRoute spec client]> (routes reg)) (ordered reg ++ [rt_ID spec])
               (if bool_decide (rt_TrafficClass spec ∈ classes reg) then classes reg
                else classes reg ++ [rt_TrafficClass spec]))
      end
  end.

Definition NewRegistry (clients : ClassClients) (specs : list RouteSpec) : result error Registry :=
  reject_if ((len specs =? 0) || (MaxAdvertisedRoutes <? len specs))
    (spec_error "gateway-out tunnel registry must contain a bounded route set");;
  reg ← NewRegistry_loop clients specs (mkRegistry ∅ [] []);
  Ok (mkRegistry (routes reg) (merge_sort Z.le (ordered reg)) (merge_sort Z.le (classes reg))).

Definition lookup (reg : Registry) (id : Z) : option route := routes reg !! id.
Definition advertisedRoutes (reg : Registry) : list Z := ordered reg.
Definition advertisedClasses (reg : Registry) : list Z := classes reg.
Definition hasClass (reg : Registry) (class : Z) : bool := bool_decide (class ∈ classes reg).

Definition safeResultCode (err : rpc_error) : code :=
  if is_Canceled err then CodeCanceled
  else if is_DeadlineExceeded err then CodeDeadlineExceeded
  else match status_Code err with
       | CodeCanceled | CodeInvalidArgument | CodeDeadlineExceeded | CodeNotFound | CodeAlreadyExists
       | CodePermissionDenied | CodeResourceExhausted | CodeAborted | CodeUnavailable | CodeUnauthenticated =>
           status_Code err
       | _ => CodeInternal
       end.

Definition resultCode (c : code) : Z :=
  match c with
  | CodeOK => RESULT_CODE_OK
  | CodeInvalidArgument => RESULT_CODE_INVALID_ARGUMENT
  | CodeUnauthenticated => RESULT_CODE_UNAUTHENTICATED
  | CodePermissionDenied => RESULT_CODE_PERMISSION_DENIED
  | CodeNotFound => RESULT_CODE_NOT_FOUND
  | CodeAlreadyExists | CodeAborted => RESULT_CODE_CONFLICT
  | CodeResourceExhausted => RESULT_CODE_RESOURCE_EXHAUSTED
  | CodeDeadlineExceeded => RESULT_CODE_DEADLINE_EXCEEDED
  | CodeCanceled => RESULT_CODE_CANCELED
  | CodeUnavailable => RESULT_CODE_UNAVAILABLE
  | _ => RESULT_CODE_INTERNAL
  end.

(** [route.invoke]; a nil factory cannot pass [validateRouteSpec]. *)
Definition invoke (world : rpc_world) (ctx : callContext) (r : route) (requestBytes : bytes) : bytes * code :=
  let spec := rt_spec r in
  if rt_MaxRequestBytes spec <? len requestBytes then ([], CodeResourceExhausted) else
  match mjoin (rt_NewRequest spec) with
  | None => ([], CodeInternal)
  | Some request =>
      match proto_Unmarshal request requestBytes with
      | None => ([], CodeInvalidArgument)
      | Some request =>
          match mjoin (rt_NewResponse spec) with
          | None => ([], CodeInternal)
          | Some response =>
              match client_Invoke world ctx (rt_client r) (rt_Method spec) request response with
              | inr err => ([], safeResultCode err)
              | inl response =>
                  match proto_Marshal response with
                  | None => ([], CodeInternal)
                  | Some responseBytes =>
                      if rt_MaxResponseBytes spec <? len responseBytes then ([], CodeResourceExhausted)
                      else (responseBytes, CodeOK)
                  end
              end
          end
      end
  end.

Lemma resultCode_known c : 1 <= resultCode c <= 11.
Proof. destruct c; done. Qed.

Lemma invoke_bounded world ctx r payload response c :
  0 <= rt_MaxResponseBytes (rt_spec r) -> invoke world ctx r payload = (response, c) ->
  len response <= rt_MaxResponseBytes (rt_spec r).
Proof.
  intros Hm. unfold invoke. repeat case_match; intros [= <- <-]; try (rewrite len_nil; lia).
  by apply Z.ltb_ge.
Qed.

(** ** Well-formed registries *)

Definition spec_wf (spec : RouteSpec) : Prop :=
  class_of_route (rt_ID spec) (rt_TrafficClass spec) /\ rt_TrafficClass spec <> TRAFFIC_CLASS_REALTIME /\
  0 < rt_MaxRequestBytes spec <= MaxMessageBytes /\ 0 < rt_MaxResponseBytes spec <= MaxMessageBytes /\
  0 < rt_MaxDeadline spec /\
  (rt_RequireIdempotencyKey spec = true -> rt_Mutating spec = true).

(** The byte limits of a route are unsigned. *)
Definition spec_machine (spec : RouteSpec) : Prop := 0 <= rt_MaxRequestBytes spec /\ 0 <= rt_MaxResponseBytes spec.

Lemma gateway_out_route_class r : routeTrafficClass r = TunnelValidate.routeTrafficClass r.
Proof. done. Qed.

Lemma validateRouteSpec_wf spec : spec_machine spec -> validateRouteSpec spec = Ok tt -> spec_wf spec.
Proof.
  intros [? ?]. unfold validateRouteSpec. cbv zeta. intros Hv. go_inv Hv. go_bool. unfold spec_wf. rewrite routeTrafficClass_spec.
  rewrite gateway_out_route_class in *. split_and!; try done; try congruence; try lia.
  intros Hr. by destruct (rt_RequireIdempotencyKey spec), (rt_Mutating spec).
Qed.

Record registry_wf (reg : Registry) : Prop := {
  reg_keys : forall id r, routes reg !! id = Some r -> rt_ID (rt_spec r) = id /\ spec_wf (rt_spec r);
  reg_ordered : NoDup (ordered reg) /\ forall id, id ∈ ordered reg <-> is_Some (routes reg !! id);
  reg_classes : NoDup (classes reg) /\
    forall c, c ∈ classes reg <-> exists id r, routes reg !! id = Some r /\ rt_TrafficClass (rt_spec r) = c
}.

Lemma registry_add reg spec client :
  registry_wf reg -> spec_wf spec -> routes reg !! rt_ID spec = None ->
  registry_wf (mkRegistry (<[rt_ID spec := mkRoute spec client]> (routes reg)) (ordered reg ++ [rt_ID spec])
     (if bool_decide (rt_TrafficClass spec ∈ classes reg) then classes reg else classes reg ++ [rt_TrafficClass spec])).
Proof.
  intros [Hk [Hnd Ho] [Hcn Hc]] Hs Hnone. split; simpl.
  - intros id r [[<- <-]|[_ Hr]]%lookup_insert_Some; [done|by apply Hk].
  - split.
    + apply NoDup_app. split_and!; [done| |apply NoDup_singleton]. intros x Hx ->%list_elem_of_singleton.
      apply Ho in Hx. rewrite Hnone in Hx. by destruct Hx.
    + intros id. rewrite elem_of_app, list_elem_of_singleton, Ho, lookup_insert_is_Some.
      destruct (decide (rt_ID spec = id)); naive_solver.
  - assert (Hcl : forall c, (exists id r, <[rt_ID spec := mkRoute spec client]> (routes reg) !! id = Some r /\
      rt_TrafficClass (rt_spec r) = c) <-> c = rt_TrafficClass spec \/ c ∈ classes reg).
    { intros c. rewrite Hc. split.
      - intros (id & r & [[<- <-]|[_ Hr]]%lookup_insert_Some & <-); [by left|right; eauto].
      - intros [->|(id & r & Hr & <-)].
        + exists (rt_ID spec), (mkRoute spec client). by rewrite lookup_insert_eq.
        + exists id, r. split; [|done]. rewrite lookup_insert_ne; [done|]. intros <-. by rewrite Hnone in Hr. }
    case_bool_decide as Hin.
    + split; [done|]. intros c. rewrite Hcl. split; [by right|]. intros [->|?]; done.
    + split; [|intros c; rewrite Hcl, elem_of_app, list_elem_of_singleton; tauto].
      apply NoDup_app. split_and!; [done| |apply NoDup_singleton]. by intros x Hx ->%list_elem_of_singleton.
Qed.

Lemma NewRegistry_loop_wf clients specs : forall reg reg',
  Forall spec_machine specs -> registry_wf reg -> NewRegistry_loop clients specs reg = Ok reg' -> registry_wf reg'.
Proof.
  induction specs as [|spec specs IH]; intros reg reg' Hm Hreg; simpl; [by intros [= <-]|].
  apply Forall_cons in Hm as [Hm Hms].
  rewrite bind_Ok. intros ([] & Hv & Hrest). rewrite guard_Ok in Hrest. destruct Hrest as [Hdup Hrest]. go_bool.
  destruct (clientForClass clients _) as [client|]; [|done]. eapply IH; [done| |exact Hrest].
  apply registry_add; [done|by apply validateRouteSpec_wf|]. by apply eq_None_not_Some.
Qed.

Lemma NewRegistry_wf clients specs reg :
  Forall spec_machine specs -> NewRegistry clients specs = Ok reg -> registry_wf reg.
Proof.
  intros Hm. unfold NewRegistry. rewrite guard_Ok, bind_Ok. intros (_ & reg0 & Hloop & [= <-]).
  apply NewRegistry_loop_wf in Hloop as [Hk [Hnd Ho] [Hcn Hc]]; [|done|].
  - split; simpl; [done| |]; (split; [by rewrite merge_sort_Permutation|]); intros x; by rewrite merge_sort_Permutation.
  - split; simpl; [done| |]; (split; [constructor|]); intros x; split; try by intros ?%elem_of_nil.
    + rewrite lookup_empty. by intros [].
    + intros (id & r & Hr & _). by rewrite lookup_empty in Hr.
Qed.
End rpc.
