(* ===== verification/GatewayOutSession.v ===== *)
(** * Sessions of gateway-out

    [services/gateway-out/internal/tunnel/session.go]: the client end of one
    reverse tunnel.  A goroutine is the list of the operations it has still to
    execute, and an operation is one critical section or one channel operation of
    the Go function it is named after; [step_op] executes it.  Requests are objects
    of a heap, as the maps of the session and the goroutines point to them.  The
    clock, the choices of [select], the RPCs and the stream are inputs.  The fields
    of [history] and [wire] record the past; no operation reads them. *)

From S2P Require Import Prelude TunnelContract TunnelValidate TunnelValidateProofs GatewayOutRegistry.
Local Open Scope Z_scope.

Section session.
Context `{ProtoRuntime} `{InternalRpc}.

(** ** State *)

Record queuedFrame := mkQueuedFrame {
  qf_frame : ConnectRequest;
  qf_following : list ConnectRequest;
  (** [sent] is not nil *)
  qf_sent : bool
}.

Record terminalRequest := mkTerminalRequest {
  tr_class : Z;
  tr_incomingSequence : Z;
  tr_sendCredit : Z;
  tr_maximumCredit : Z;
  tr_canceled : bool
}.

(** The fields of a request guarded by its mutex. *)
Record flow := mkFlow {
  incomingSequence : Z;
  outgoingSequence : Z;
  receiveCredit : Z;
  sendCredit : Z;
  requestBytes : bytes;
  halfClosed : bool;
  peerCanceled : bool
}.

(** What happened to a request so far: the frames accepted by a queue, the
    arguments of the call of [completeRequest] that won, the send credit the peer
    granted, the body it sent and the bodies passed to the internal RPC. *)
Record history := mkHistory {
  emitted : list ConnectRequest;
  outcome : option (bytes * Z);
  granted : Z;
  received : bytes;
  calls : list bytes
}.

Record requestState := mkRequestState {
  rs_requestID : bytes;
  rs_route : route;
  rs_call : callContext;
  (** the error of the request's own context, apart from the session's *)
  rs_ctxErr : option error;
  (** [done] is closed *)
  rs_done : bool;
  rs_terminal : bool;
  rs_flow : flow;
  creditChanged : chan unit;
  rs_history : history
}.

Definition request_ptr := positive.

(** The fields that do not change after the handshake. *)
Record sessionParams := mkSessionParams {
  sp_settings : settings;
  sp_registry : Registry;
  sp_tunnelID : bytes;
  sp_serverInstanceID : bytes;
  sp_limits : Limits;
  sp_routes : gset Z;
  sp_classes : gset Z
}.

Record queues := mkQueues {
  controlQueue : chan queuedFrame;
  regularQueue : chan queuedFrame;
  realtimeQueue : chan queuedFrame
}.

Record request_table := mkTable {
  requests : gmap (list Z) request_ptr;
  terminal : gmap (list Z) terminalRequest;
  terminalOrder : list (list Z);
  terminalNext : Z;
  activeByClass : gmap Z Z;
  heap : gmap request_ptr requestState
}.

Inductive loop := SendLoop | ReceiveLoop | KeepaliveLoop.

(** One pending operation of a goroutine. *)
Inductive op :=
(* receive loop *)
| Reserve (header : option FrameHeader) (request : requestState)
| RejectOpen (header : option FrameHeader) (code : Z)
| AddTerminal (key : bytes) (t : terminalRequest)
| OpenCredit (p : request_ptr)
| OpenQueue (p : request_ptr) (frame : ConnectRequest)
| DataLocked (p : request_ptr) (payload : bytes)
| HalfCloseLocked (p : request_ptr)
| TerminalCredit (header : option FrameHeader) (increment : Z)
| TerminalCancel (header : option FrameHeader)
| CancelContext (p : request_ptr)
| EnqueuePong (nonce : Z)
| LoopReturn (l : loop) (err : error)
(* send loop *)
| SendNext
| SendSelect
| SendFrames (frames : list ConnectRequest) (sent : bool)
(* keepalive loop *)
| PingTick (nonce : Z)
| SendPing (nonce : Z)
| WaitPong (nonce : Z)
(* requests *)
| Watch (p : request_ptr)
| Execute (p : request_ptr) (payload : bytes)
| Complete (p : request_ptr) (response : bytes) (code : Z)
| Respond (p : request_ptr) (response : bytes) (code : Z)
| AwaitCredit (p : request_ptr) (response : bytes) (code : Z)
| SendChunk (p : request_ptr) (chunk response : bytes) (code : Z)
| QueueChunk (p : request_ptr) (frame : ConnectRequest) (response : bytes) (code : Z)
| Finish (p : request_ptr) (code : Z)
| Close (p : request_ptr)
| Release (p : request_ptr)
| Abort (p : request_ptr)
(* drain and end of the session *)
| DrainBegin (deadline : option Z) (peer : bool)
| DrainQueue (deadline reason : Z)
| DrainAwait
| DrainWait
| DrainSelect
| AbortAll
| CancelSession.

Record lifecycle := mkLifecycle {
  ctxErr : option error;
  draining : bool;
  drainSent : bool;
  (** the error [run] received first *)
  loopErr : option error;
  receiving : bool;
  pongs : chan Z;
  activeChanged : chan unit;
  (** the [sent] channel of the Drain frame *)
  drainAck : chan bool
}.

Record session := mkSession {
  ses_params : sessionParams;
  ses_queues : queues;
  life : lifecycle;
  table : request_table;
  threads : list (list op);
  (** the frames handed to the stream *)
  wire : list ConnectRequest
}.

(** ** Updates *)

Definition set_queues (s : session) (q : queues) : session :=
  mkSession (ses_params s) q (life s) (table s) (threads s) (wire s).
Definition set_life (s : session) (l : lifecycle) : session :=
  mkSession (ses_params s) (ses_queues s) l (table s) (threads s) (wire s).
Definition set_table (s : session) (t : request_table) : session :=
  mkSession (ses_params s) (ses_queues s) (life s) t (threads s) (wire s).
Definition set_threads (s : session) (ts : list (list op)) : session :=
  mkSession (ses_params s) (ses_queues s) (life s) (table s) ts (wire s).
Definition set_wire (s : session) (w : list ConnectRequest) : session :=
  mkSession (ses_params s) (ses_queues s) (life s) (table s) (threads s) w.
Definition set_heap (t : request_table) (h : gmap request_ptr requestState) : request_table :=
  mkTable (requests t) (terminal t) (terminalOrder t) (terminalNext t) (activeByClass t) h.
(** Writes through a request pointer. *)
Definition store (s : session) (p : request_ptr) (r : requestState) : session :=
  set_table s (set_heap (table s) (<[p := r]> (heap (table s)))).

Definition set_ctxErr (l : lifecycle) (e : option error) : lifecycle :=
  mkLifecycle e (draining l) (drainSent l) (loopErr l) (receiving l) (pongs l) (activeChanged l) (drainAck l).
Definition set_draining (l : lifecycle) : lifecycle :=
  mkLifecycle (ctxErr l) true (drainSent l) (loopErr l) (receiving l) (pongs l) (activeChanged l) (drainAck l).
Definition set_pongs (l : lifecycle) (c : chan Z) : lifecycle :=
  mkLifecycle (ctxErr l) (draining l) (drainSent l) (loopErr l) (receiving l) c (activeChanged l) (drainAck l).
Definition set_activeChanged (l : lifecycle) (c : chan unit) : lifecycle :=
  mkLifecycle (ctxErr l) (draining l) (drainSent l) (loopErr l) (receiving l) (pongs l) c (drainAck l).
Definition set_drainSent (l : lifecycle) : lifecycle :=
  mkLifecycle (ctxErr l) (draining l) true (loopErr l) (receiving l) (pongs l) (activeChanged l) (drainAck l).
Definition set_drainAck (l : lifecycle) (c : chan bool) : lifecycle :=
  mkLifecycle (ctxErr l) (draining l) (drainSent l) (loopErr l) (receiving l) (pongs l) (activeChanged l) c.

Definition set_flow (r : requestState) (f : flow) : requestState :=
  mkRequestState (rs_requestID r) (rs_route r) (rs_call r) (rs_ctxErr r) (rs_done r) (rs_terminal r) f
    (creditChanged r) (rs_history r).
Definition set_history (r : requestState) (h : history) : requestState :=
  mkRequestState (rs_requestID r) (rs_route r) (rs_call r) (rs_ctxErr r) (rs_done r) (rs_terminal r) (rs_flow r)
    (creditChanged r) h.
Definition set_creditChanged (r : requestState) (c : chan unit) : requestState :=
  mkRequestState (rs_requestID r) (rs_route r) (rs_call r) (rs_ctxErr r) (rs_done r) (rs_terminal r) (rs_flow r)
    c (rs_history r).
Definition set_rs_ctxErr (r : requestState) (e : option error) : requestState :=
  mkRequestState (rs_requestID r) (rs_route r) (rs_call r) e (rs_done r) (rs_terminal r) (rs_flow r)
    (creditChanged r) (rs_history r).
Definition set_terminal (r : requestState) : requestState :=
  mkRequestState (rs_requestID r) (rs_route r) (rs_call r) (rs_ctxErr r) (rs_done r) true (rs_flow r)
    (creditChanged r) (rs_history r).
Definition set_done (r : requestState) : requestState :=
  mkRequestState (rs_requestID r) (rs_route r) (rs_call r) (rs_ctxErr r) true (rs_terminal r) (rs_flow r)
    (creditChanged r) (rs_history r).

Definition set_incoming (f : flow) (n : Z) : flow :=
  mkFlow n (outgoingSequence f) (receiveCredit f) (sendCredit f) (requestBytes f) (halfClosed f) (peerCanceled f).
Definition set_outgoing (f : flow) (n : Z) : flow :=
  mkFlow (incomingSequence f) n (receiveCredit f) (sendCredit f) (requestBytes f) (halfClosed f) (peerCanceled f).
Definition set_receiveCredit (f : flow) (n : Z) : flow :=
  mkFlow (incomingSequence f) (outgoingSequence f) n (sendCredit f) (requestBytes f) (halfClosed f) (peerCanceled f).
Definition set_sendCredit (f : flow) (n : Z) : flow :=
  mkFlow (incomingSequence f) (outgoingSequence f) (receiveCredit f) n (requestBytes f) (halfClosed f) (peerCanceled f).
Definition set_requestBytes (f : flow) (b : bytes) : flow :=
  mkFlow (incomingSequence f) (outgoingSequence f) (receiveCredit f) (sendCredit f) b (halfClosed f) (peerCanceled f).
Definition set_halfClosed (f : flow) : flow :=
  mkFlow (incomingSequence f) (outgoingSequence f) (receiveCredit f) (sendCredit f) (requestBytes f) true (peerCanceled f).
Definition set_peerCanceled (f : flow) : flow :=
  mkFlow (incomingSequence f) (outgoingSequence f) (receiveCredit f) (sendCredit f) (requestBytes f) (halfClosed f) true.

Definition log_frames (r : requestState) (fs : list ConnectRequest) : requestState :=
  let h := rs_history r in set_history r (mkHistory (emitted h ++ fs) (outcome h) (granted h) (received h) (calls h)).
Definition log_outcome (r : requestState) (o : bytes * Z) : requestState :=
  let h := rs_history r in set_history r (mkHistory (emitted h) (Some o) (granted h) (received h) (calls h)).
Definition log_granted (r : requestState) (n : Z) : requestState :=
  let h := rs_history r in set_history r (mkHistory (emitted h) (outcome h) (granted h + n) (received h) (calls h)).
Definition log_received (r : requestState) (b : bytes) : requestState :=
  let h := rs_history r in set_history r (mkHistory (emitted h) (outcome h) (granted h) (received h ++ b) (calls h)).
Definition log_call (r : requestState) (b : bytes) : requestState :=
  let h := rs_history r in set_history r (mkHistory (emitted h) (outcome h) (granted h) (received h) (calls h ++ [b])).

(** [copy(key[:], requestID)] into a zeroed array *)
Definition requestKey (requestID : bytes) : bytes := take 16 (requestID ++ replicate 16 0).
Definition rs_key (r : requestState) : bytes := requestKey (rs_requestID r).
Definition rs_class (r : requestState) : Z := rt_TrafficClass (rt_spec (rs_route r)).

(** [notify] *)
Definition notify (c : chan unit) : chan unit := default c (try_send c tt).

(** [request.ctx.Err()]: a request's context is derived from the session's. *)
Definition request_ctxErr (s : session) (r : requestState) : option error :=
  match rs_ctxErr r with Some e => Some e | None => ctxErr (life s) end.
(** [request.cancel()], or the deadline of the context. *)
Definition end_request_ctx (s : session) (r : requestState) (e : error) : requestState :=
  match request_ctxErr s r with Some _ => r | None => set_rs_ctxErr r (Some e) end.
(** [session.cancel()] *)
Definition cancel (s : session) : session :=
  match ctxErr (life s) with Some _ => s | None => set_life s (set_ctxErr (life s) (Some Canceled)) end.

(** ** Limits of the negotiated policy *)

Definition within_limits (size : Z) (data : option Data) (credit : option Credit)
    (entries : list (option Metadata)) (limits : Limits) : bool :=
  if max_frame_bytes limits <? size then false else
  if match data with Some d => max_data_bytes limits <? len (data_payload d) | None => false end then false else
  if match credit with Some c => max_credit_bytes limits <? credit_bytes c | None => false end then false else
  if max_metadata_entries limits <? len entries then false else
  forallb (fun entry => negb (max_metadata_value_bytes limits <? len (default [] (md_value <$> entry)))) entries.

(** [withinNegotiatedLimits], for the frames of either direction *)
Definition withinNegotiatedLimits_request (frame : ConnectRequest) (limits : Limits) : bool :=
  within_limits (size_request frame) (GetData_req frame) (GetCredit_req frame)
    (match GetResult_req frame with Some r => res_metadata r | None => [] end) limits.
Definition withinNegotiatedLimits_response (frame : ConnectResponse) (limits : Limits) : bool :=
  within_limits (size_response frame) (GetData_resp frame) (GetCredit_resp frame)
    (match GetOpen_resp frame with Some o => op_metadata o | None => [] end) limits.

Definition limitsDoNotExceed (selected : option Limits) (offered : ReceiveLimits) : bool :=
  match selected with
  | None => false
  | Some l =>
      (max_frame_bytes l <=? rl_MaxFrameBytes offered) &&
      (max_data_bytes l <=? rl_MaxDataBytes offered) &&
      (max_message_bytes l <=? rl_MaxMessageBytes offered) &&
      (max_in_flight_requests l <=? rl_MaxInFlightRequests offered) &&
      (max_metadata_entries l <=? rl_MaxMetadataEntries offered) &&
      (max_metadata_value_bytes l <=? rl_MaxMetadataValueBytes offered) &&
      (max_credit_bytes l <=? rl_MaxCreditBytes offered)
  end.

(** ** Handshake *)

Definition offered_capabilities (reg : Registry) : list Z :=
  [CAPABILITY_DRAIN] ++ (if hasClass reg TRAFFIC_CLASS_REALTIME then [CAPABILITY_REALTIME] else []).

(** The Hello that [handshake] sends. *)
Definition handshake_hello (settings : settings) (reg : Registry) : ConnectRequest :=
  mkConnectRequest (Some (mkFrameHeader 0 [] [] 0 0 []))
    (Some (Req_Hello (Some (mkGatewayOutHello (set_instanceID settings) [protocolVersion]
       (offered_capabilities reg) (advertisedClasses reg) (advertisedRoutes reg)
       (Some (proto (set_limits settings))) [])))) [].

Fixpoint acceptHello_classes (reg : Registry) (values : list Z) (classes : gset Z) : result error (gset Z) :=
  match values with
  | [] => Ok classes
  | class :: values =>
      reject_if (negb (hasClass reg class)) errProtocol;;
      acceptHello_classes reg values ({[class]} ∪ classes)
  end.

Fixpoint acceptHello_routes (reg : Registry) (classes : gset Z) (values : list Z) (routes : gset Z) :
    result error (gset Z) :=
  match values with
  | [] => Ok routes
  | id :: values =>
      match lookup reg id with
      | None => Err errProtocol
      | Some route =>
          reject_if (negb (bool_decide (rt_TrafficClass (rt_spec route) ∈ classes))) errProtocol;;
          acceptHello_routes reg classes values ({[id]} ∪ routes)
      end
  end.

(** [copy(session.serverInstanceID[:], id)] *)
Definition copy_instanceID (id : bytes) : bytes := take 16 (id ++ replicate 16 0).

(** The fields of the session that [acceptHello] sets. *)
Definition acceptHello (settings : settings) (reg : Registry) (frame : ConnectResponse)
    (offeredCapabilities : list Z) : result error sessionParams :=
  map_err (fun _ => errProtocol) (ValidateGatewayInFrame (Some frame));;
  match GetHello_resp frame with
  | None => Err errProtocol
  | Some hello =>
      reject_if (negb (bool_decide (CAPABILITY_DRAIN ∈ gih_capabilities hello))) errProtocol;;
      reject_if (negb (forallb (fun c => bool_decide (c ∈ offeredCapabilities)) (gih_capabilities hello))) errProtocol;;
      reject_if ((len (gih_traffic_classes hello) =? 0) || (len (gih_route_ids hello) =? 0)) errProtocol;;
      classes ← acceptHello_classes reg (gih_traffic_classes hello) ∅;
      routes ← acceptHello_routes reg classes (gih_route_ids hello) ∅;
      reject_if (negb (limitsDoNotExceed (gih_limits hello) (set_limits settings))) errProtocol;;
      match gih_limits hello with
      | None => Err errProtocol
      | Some limits =>
          Ok (mkSessionParams settings reg (GetTunnelId (cresp_header frame))
                (copy_instanceID (gih_instance_id hello)) limits routes classes)
      end
  end.

Definition queue_depth (s : settings) (class : Z) : Z := cl_SendQueueDepth (class_limits s class).

(** The session [newSession] returns after the handshake, with the three
    goroutines that [run] starts: the receive loop waits for its first frame. *)
Definition newSession (params : sessionParams) : session :=
  let settings := sp_settings params in
  mkSession params
    (mkQueues (mkChan (queue_depth settings TRAFFIC_CLASS_CONTROL_AUTH) [])
       (mkChan (queue_depth settings TRAFFIC_CLASS_REGULAR) [])
       (mkChan (queue_depth settings TRAFFIC_CLASS_REALTIME) []))
    (mkLifecycle None false false None true (mkChan 1 []) (mkChan 1 []) (mkChan 1 []))
    (mkTable ∅ ∅ [] 0 ∅ ∅)
    [[]; [SendNext]; [PingTick 0]] [].

(** The position of the receive loop in [threads]. *)
Definition receive_thread : nat := 0.

(** ** Sending *)

Definition queue (s : session) (class : Z) : chan queuedFrame :=
  if class =? TRAFFIC_CLASS_REGULAR then regularQueue (ses_queues s)
  else if class =? TRAFFIC_CLASS_REALTIME then realtimeQueue (ses_queues s)
  else controlQueue (ses_queues s).

Definition set_queue (s : session) (class : Z) (c : chan queuedFrame) : session :=
  let q := ses_queues s in
  set_queues s
    (if class =? TRAFFIC_CLASS_REGULAR then mkQueues (controlQueue q) c (realtimeQueue q)
     else if class =? TRAFFIC_CLASS_REALTIME then mkQueues (controlQueue q) (regularQueue q) c
     else mkQueues c (regularQueue q) (realtimeQueue q)).

(** [select] over the ready cases: [choice] stands for the runtime's random choice. *)
Definition select_ready {A} (choice : nat) (ready : list A) : option A :=
  ready !! (choice `mod` length ready)%nat.

Fixpoint check_frames (limits : Limits) (frames : list ConnectRequest) : result error unit :=
  match frames with
  | [] => Ok tt
  | frame :: frames =>
      map_err (fun _ => errProtocol) (ValidateGatewayOutFrame (Some frame));;
      reject_if (negb (withinNegotiatedLimits_request frame limits)) errProtocol;;
      check_frames limits frames
  end.

Definition queued_frames (q : queuedFrame) : list ConnectRequest := qf_frame q :: qf_following q.

Definition enqueue (choice : nat) (s : session) (ctx : option error) (class : Z) (queued : queuedFrame) :
    session * result error unit :=
  match check_frames (sp_limits (ses_params s)) (queued_frames queued) with
  | Err e => (s, Err e)
  | Panic => (s, Panic)
  | Ok _ =>
      let ready :=
        match try_send (queue s class) queued with Some c => [(set_queue s class c, Ok tt)] | None => [] end ++
        match ctx with Some e => [(s, Err e)] | None => [] end ++
        match ctxErr (life s) with Some _ => [(s, Err errSessionClosed)] | None => [] end in
      default (s, Err ErrQueueFull) (select_ready choice ready)
  end.

(** [setGatewayOutPayload] has no case for a Hello. *)
Definition setGatewayOutPayload (payload : ConnectRequest_payload) : option ConnectRequest_payload :=
  match payload with
  | Req_Hello _ => None
  | _ => Some payload
  end.

Definition requestFrame (s : session) (r : requestState) (sequence : Z) (payload : ConnectRequest_payload) :
    ConnectRequest :=
  mkConnectRequest (Some (mkFrameHeader protocolVersion (sp_tunnelID (ses_params s)) (rs_requestID r) sequence
    (rs_class r) [])) (setGatewayOutPayload payload) [].

Definition tunnelFrame (s : session) (payload : ConnectRequest_payload) : ConnectRequest :=
  mkConnectRequest (Some (mkFrameHeader protocolVersion (sp_tunnelID (ses_params s)) [] 0
    TRAFFIC_CLASS_UNSPECIFIED [])) (setGatewayOutPayload payload) [].

Definition enqueueTunnelFrame (choice : nat) (s : session) (payload : ConnectRequest_payload) :
    session * result error unit :=
  enqueue choice s (ctxErr (life s)) TRAFFIC_CLASS_CONTROL_AUTH (mkQueuedFrame (tunnelFrame s payload) [] false).

(** The critical section of [enqueueRequestFrame]; its call of [enqueue] follows
    as an operation of its own. *)
Definition enqueueRequestFrame_locked (s : session) (r : requestState) (payload : ConnectRequest_payload) :
    requestState * ConnectRequest :=
  let sequence := u64 (outgoingSequence (rs_flow r) + 1) in
  (set_flow r (set_outgoing (rs_flow r) sequence), requestFrame s r sequence payload).

(** [session.enqueue] of one frame of the request at [p]. *)
Definition enqueue_request (choice : nat) (s : session) (ctx : option error) (p : request_ptr) (r : requestState)
    (frames : list ConnectRequest) : session * result error unit :=
  match frames with
  | [] => (s, Ok tt)
  | frame :: following =>
      let '(s, res) := enqueue choice s ctx (rs_class r) (mkQueuedFrame frame following false) in
      match res with
      | Ok _ => (store s p (log_frames r frames), Ok tt)
      | _ => (s, res)
      end
  end.

Fixpoint number_frames (s : session) (r : requestState) (payloads : list ConnectRequest_payload) :
    requestState * list ConnectRequest :=
  match payloads with
  | [] => (r, [])
  | payload :: payloads =>
      let '(r, frame) := enqueueRequestFrame_locked s r payload in
      let '(r, frames) := number_frames s r payloads in
      (r, frame :: frames)
  end.

Definition enqueueRequestFrames (choice : nat) (s : session) (p : request_ptr) (r : requestState)
    (payloads : list ConnectRequest_payload) : session * result error unit :=
  let '(r, frames) := number_frames s r payloads in
  enqueue_request choice (store s p r) (ctxErr (life s)) p r frames.

(** ** The tables of requests *)

Definition active_count (t : request_table) (class : Z) : Z := default 0 (activeByClass t !! class).

(** [reserve]; the new pointer. *)
Definition reserve (s : session) (request : requestState) : option (session * request_ptr) :=
  let t := table s in
  let key := rs_key request in
  let class := rs_class request in
  if draining (life s) then None else
  if bool_decide (is_Some (requests t !! key)) then None else
  if bool_decide (is_Some (terminal t !! key)) then None else
  if max_in_flight_requests (sp_limits (ses_params s)) <=? u32 (Z.of_nat (size (requests t))) then None else
  if cl_MaxInFlight (class_limits (sp_settings (ses_params s)) class) <=? active_count t class then None else
  let p := fresh (dom (heap t)) in
  let s := set_table s (mkTable (<[key := p]> (requests t)) (terminal t) (terminalOrder t) (terminalNext t)
    (<[class := u32 (active_count t class + 1)]> (activeByClass t)) (<[p := request]> (heap t))) in
  Some (set_life s (set_activeChanged (life s) (notify (activeChanged (life s)))), p).

Definition addTerminalLocked (limits : Limits) (t : request_table) (key : bytes) (tr : terminalRequest) :
    result error request_table :=
  let capacity := max_in_flight_requests limits in
  if bool_decide (is_Some (terminal t !! key)) then
    Ok (mkTable (requests t) (<[key := tr]> (terminal t)) (terminalOrder t) (terminalNext t) (activeByClass t) (heap t))
  else if len (terminalOrder t) <? capacity then
    Ok (mkTable (requests t) (<[key := tr]> (terminal t)) (terminalOrder t ++ [key]) (terminalNext t)
      (activeByClass t) (heap t))
  else
    oldest ← index (terminalOrder t) (terminalNext t);
    (if capacity =? 0 then Panic else
     Ok (mkTable (requests t) (<[key := tr]> (delete oldest (terminal t)))
       (<[Z.to_nat (terminalNext t) := key]> (terminalOrder t)) ((terminalNext t + 1) `mod` capacity)
       (activeByClass t) (heap t))).

Definition response_maximum (limits : Limits) (r : requestState) : Z :=
  rt_MaxResponseBytes (rt_spec (rs_route r)) `min` max_message_bytes limits.
Definition request_maximum (limits : Limits) (r : requestState) : Z :=
  rt_MaxRequestBytes (rt_spec (rs_route r)) `min` max_message_bytes limits.

Definition release (s : session) (p : request_ptr) (r : requestState) : result error session :=
  let t := table s in
  let limits := sp_limits (ses_params s) in
  s ← (if negb (bool_decide (requests t !! rs_key r = Some p)) then Ok s else
       t ← addTerminalLocked limits t (rs_key r)
         (mkTerminalRequest (rs_class r) (incomingSequence (rs_flow r)) (sendCredit (rs_flow r))
            (response_maximum limits r) (peerCanceled (rs_flow r)));
       Ok (set_table s (mkTable (delete (rs_key r) (requests t)) (terminal t) (terminalOrder t) (terminalNext t)
         (<[rs_class r := u32 (active_count t (rs_class r) - 1)]> (activeByClass t)) (heap t))));
  Ok (set_life s (set_activeChanged (life s) (notify (activeChanged (life s))))).

(** ** Receiving *)

Definition internalSessionAssertionMetadata : string := "marketmesh-session-assertion-bin".
Definition InternalIdempotencyKeyMetadata : string := "marketmesh-idempotency-key-bin".

Definition metadataContext_entry (ctx : callContext) (entry : option Metadata) : callContext :=
  let value := default [] (md_value <$> entry) in
  let key := default 0 (md_key <$> entry) in
  if key =? METADATA_KEY_TRACEPARENT then
    mkCallContext (<["traceparent" := value]> (cc_carrier ctx)) (<["traceparent" := value]> (cc_outgoing ctx))
  else if key =? METADATA_KEY_TRACESTATE then
    mkCallContext (<["tracestate" := value]> (cc_carrier ctx)) (<["tracestate" := value]> (cc_outgoing ctx))
  else if key =? METADATA_KEY_SESSION_ASSERTION then
    mkCallContext (cc_carrier ctx) (<[internalSessionAssertionMetadata := value]> (cc_outgoing ctx))
  else ctx.

(** [metadataContext]; the context it extends carries no other metadata. *)
Definition metadataContext (entries : list (option Metadata)) (idempotencyKey : bytes) (isMutating : bool) :
    callContext :=
  let ctx := foldl metadataContext_entry (mkCallContext ∅ ∅) entries in
  if isMutating && (0 <? len idempotencyKey)
  then mkCallContext (cc_carrier ctx) (<[InternalIdempotencyKeyMetadata := idempotencyKey]> (cc_outgoing ctx))
  else ctx.

(** The request that [handleOpen] builds. *)
Definition new_request (header : option FrameHeader) (r : route) (open : Open) : requestState :=
  mkRequestState (GetRequestId header) r
    (metadataContext (op_metadata open) (op_idempotency_key open) (rt_Mutating (rt_spec r)))
    None false false (mkFlow (GetSequence header) 0 0 0 [] false false) (mkChan 1 [])
    (mkHistory [] None 0 [] []).

(** [handleOpen] up to its call of [reserve]. *)
Definition handleOpen (s : session) (now : Z) (header : option FrameHeader) (open : Open) : list op :=
  let params := ses_params s in
  if negb (GetSequence header =? 1) then [LoopReturn ReceiveLoop errProtocol] else
  if draining (life s) then [RejectOpen header RESULT_CODE_UNAVAILABLE] else
  match lookup (sp_registry params) (op_route_id open) with
  | None => [RejectOpen header RESULT_CODE_PERMISSION_DENIED]
  | Some route =>
      let spec := rt_spec route in
      if negb (bool_decide (rt_ID spec ∈ sp_routes params)) then [RejectOpen header RESULT_CODE_PERMISSION_DENIED] else
      if negb (bool_decide (rt_TrafficClass spec ∈ sp_classes params)) ||
         negb (GetTrafficClass header =? rt_TrafficClass spec)
      then [LoopReturn ReceiveLoop errProtocol] else
      let deadline := default 0 (timestamp_AsTime <$> op_deadline open) in
      if deadline <=? now then [RejectOpen header RESULT_CODE_DEADLINE_EXCEEDED] else
      if now + rt_MaxDeadline spec <? deadline then [RejectOpen header RESULT_CODE_INVALID_ARGUMENT] else
      if rt_RequireIdempotencyKey spec && (len (op_idempotency_key open) =? 0)
      then [RejectOpen header RESULT_CODE_INVALID_ARGUMENT] else
      [Reserve header (new_request header route open)]
  end.

(** The first credit of a request. *)
Definition initial_grant (s : session) (r : requestState) : Z :=
  let limits := sp_limits (ses_params s) in
  rt_MaxRequestBytes (rt_spec (rs_route r)) `min` max_message_bytes limits `min` max_credit_bytes limits
    `min` cl_ReceiveWindowBytes (class_limits (sp_settings (ses_params s)) (rs_class r)).

(** The live request of a frame, when the frame has its class and the next
    sequence number. *)
Definition frame_request (s : session) (header : option FrameHeader) : option (request_ptr * requestState) :=
  p ← requests (table s) !! requestKey (GetRequestId header);
  r ← heap (table s) !! p;
  if (GetTrafficClass header =? rs_class r) && (GetSequence header =? u64 (incomingSequence (rs_flow r) + 1))
  then Some (p, r) else None.

Definition requestForFrame (s : session) (header : option FrameHeader) : session * result error request_ptr :=
  match frame_request s header with
  | None => (s, Err errProtocol)
  | Some (p, r) => (store s p (set_flow r (set_incoming (rs_flow r) (GetSequence header))), Ok p)
  end.

Definition updateRequestForFrame (s : session) (header : option FrameHeader)
    (update : requestState -> result error requestState) : session * result error request_ptr :=
  match frame_request s header with
  | None => (s, Err errProtocol)
  | Some (p, r) =>
      match update r with
      | Ok r => (store s p (set_flow r (set_incoming (rs_flow r) (GetSequence header))), Ok p)
      | Err e => (s, Err e)
      | Panic => (s, Panic)
      end
  end.

Definition cancel_update (r : requestState) : result error requestState :=
  reject_if (peerCanceled (rs_flow r)) errProtocol;;
  Ok (set_flow r (set_peerCanceled (rs_flow r))).

Definition credit_update (limits : Limits) (increment : Z) (r : requestState) : result error requestState :=
  let maximum := response_maximum limits r in
  reject_if ((maximum <? increment) || (u64 (maximum - increment) <? sendCredit (rs_flow r))) errProtocol;;
  let r := set_flow r (set_sendCredit (rs_flow r) (u64 (sendCredit (rs_flow r) + increment))) in
  Ok (log_granted (set_creditChanged r (notify (creditChanged r))) increment).

Definition handleData (s : session) (header : option FrameHeader) (payload : bytes) : session * list op :=
  match requestForFrame s header with
  | (s, Ok p) => (s, [DataLocked p payload])
  | (s, Err e) => (s, [LoopReturn ReceiveLoop e])
  | (s, Panic) => (s, [])
  end.

Definition handleHalfClose (s : session) (header : option FrameHeader) : session * list op :=
  match requestForFrame s header with
  | (s, Ok p) => (s, [HalfCloseLocked p])
  | (s, Err e) => (s, [LoopReturn ReceiveLoop e])
  | (s, Panic) => (s, [])
  end.

Definition handleCancel (s : session) (header : option FrameHeader) : session * list op :=
  match updateRequestForFrame s header cancel_update with
  | (s, Ok p) => (s, [CancelContext p; Complete p [] RESULT_CODE_CANCELED])
  | (s, _) => (s, [TerminalCancel header])
  end.

Definition handleCredit (s : session) (header : option FrameHeader) (increment : Z) : session * list op :=
  match updateRequestForFrame s header (credit_update (sp_limits (ses_params s)) increment) with
  | (s, Ok _) => (s, [])
  | (s, _) => (s, [TerminalCredit header increment])
  end.

(** [handleTerminalFrame], for a Credit or a Cancel; [None] when it did not handle
    the frame. *)
Definition handleTerminalFrame (t : request_table) (header : option FrameHeader) (credit : option Z) :
    option (result error request_table) :=
  let key := requestKey (GetRequestId header) in
  match terminal t !! key with
  | None => None
  | Some tr => Some (
      reject_if (negb (GetTrafficClass header =? tr_class tr) ||
                 negb (GetSequence header =? u64 (tr_incomingSequence tr + 1)) || tr_canceled tr) errProtocol;;
      tr ← match credit with
           | Some increment =>
               reject_if ((tr_maximumCredit tr <? increment) ||
                          (u64 (tr_maximumCredit tr - increment) <? tr_sendCredit tr)) errProtocol;;
               Ok (mkTerminalRequest (tr_class tr) (GetSequence header) (u64 (tr_sendCredit tr + increment))
                     (tr_maximumCredit tr) (tr_canceled tr))
           | None =>
               Ok (mkTerminalRequest (tr_class tr) (GetSequence header) (tr_sendCredit tr) (tr_maximumCredit tr) true)
           end;
      Ok (mkTable (requests t) (<[key := tr]> (terminal t)) (terminalOrder t) (terminalNext t) (activeByClass t)
            (heap t)))
  end.

(** [publishPong] *)
Definition publishPong (c : chan Z) (nonce : Z) : chan Z :=
  match try_send c nonce with
  | Some c => c
  | None =>
      let c := match try_recv c with Some (_, c) => c | None => c end in
      default c (try_send c nonce)
  end.

(** [handlePeerDrain]: the goroutine it starts, if any. *)
Definition handlePeerDrain (s : session) (drain : Drain) : session * list (list op) :=
  if draining (life s) then (s, []) else
  (set_life s (set_draining (life s)),
   [[DrainBegin (timestamp_AsTime <$> drain_deadline drain) true; CancelSession]]).

(** [handleFrame]: its first critical section, the operations the receive loop
    has still to execute and the goroutines it starts. *)
Definition handleFrame (s : session) (now : Z) (frame : ConnectResponse) : session * list op * list (list op) :=
  let header := cresp_header frame in
  let protocol_error := (s, [LoopReturn ReceiveLoop errProtocol], []) in
  match ValidateGatewayInFrame (Some frame) with
  | Ok _ =>
      if negb (withinNegotiatedLimits_response frame (sp_limits (ses_params s))) then protocol_error else
      if negb (bytes_Equal (GetTunnelId header) (sp_tunnelID (ses_params s))) then protocol_error else
      match cresp_payload frame with
      | Some (Resp_Open (Some open)) => (s, handleOpen s now header open, [])
      | Some (Resp_Data data) => (handleData s header (GetPayload_data data), [])
      | Some (Resp_HalfClose _) => (handleHalfClose s header, [])
      | Some (Resp_Cancel _) => (handleCancel s header, [])
      | Some (Resp_Credit credit) => (handleCredit s header (GetBytes_credit credit), [])
      | Some (Resp_Ping ping) =>
          (s, [EnqueuePong (default 0 (ping_nonce <$> ping))], [])
      | Some (Resp_Pong pong) =>
          (set_life s (set_pongs (life s) (publishPong (pongs (life s)) (default 0 (pong_nonce <$> pong)))), [], [])
      | Some (Resp_Drain (Some drain)) => let '(s, started) := handlePeerDrain s drain in (s, [], started)
      | _ => protocol_error
      end
  | _ => protocol_error
  end.

(** ** Executing an operation *)

Record input := mkInput {
  (** the choice of [select] *)
  in_choice : nat;
  in_now : Z;
  in_world : rpc_world;
  (** the error of the context of a drain *)
  in_ctx : option error;
  (** [stream.Send] succeeds *)
  in_sendOk : bool;
  (** the timer or ticker of the goroutine has fired *)
  in_timer : bool
}.

Inductive step_result :=
(** the operation waits *)
| Blocked
(** a run-time panic *)
| Crash
(** the operations that replace the executed one, and the started goroutines *)
| Next (s : session) (ops : list op) (started : list (list op)).

Definition with_request (s : session) (p : request_ptr) (k : requestState -> step_result) : step_result :=
  match heap (table s) !! p with Some r => k r | None => Crash end.

(** Runs [ok] or [failed] after a call that returned an error or nil. *)
Definition on_result (m : session * result error unit) (ok : session -> step_result)
    (failed : session -> error -> step_result) : step_result :=
  match m with
  | (s, Ok _) => ok s
  | (s, Err e) => failed s e
  | (s, Panic) => Crash
  end.

Definition select_step (choice : nat) (ready : list step_result) : step_result :=
  default Blocked (select_ready choice ready).

Definition receive_failed (s : session) (e : error) : step_result := Next s [LoopReturn ReceiveLoop e] [].

(** [rejectOpen], its call of [enqueue] *)
Definition rejectOpen (i : input) (s : session) (header : option FrameHeader) (code : Z) : step_result :=
  let frame sequence payload :=
    mkConnectRequest (Some (mkFrameHeader protocolVersion (sp_tunnelID (ses_params s)) (GetRequestId header)
      sequence (GetTrafficClass header) [])) (Some payload) [] in
  let halfClose := frame 1 (Req_HalfClose (Some (mkHalfClose []))) in
  let result := frame 2 (Req_Result (Some (mkResult code None [] []))) in
  on_result (enqueue (in_choice i) s (ctxErr (life s)) (GetTrafficClass header) (mkQueuedFrame halfClose [result] false))
    (fun s => Next s [AddTerminal (requestKey (GetRequestId header))
       (mkTerminalRequest (GetTrafficClass header) (GetSequence header) 0
          (max_message_bytes (sp_limits (ses_params s))) false)] [])
    receive_failed.

(** [handleOpen] after [reserve] *)
Definition open_credit (s : session) (p : request_ptr) (r : requestState) : step_result :=
  let grant := initial_grant s r in
  let r := set_flow r (set_receiveCredit (rs_flow r) grant) in
  let '(r, frame) := enqueueRequestFrame_locked s r (Req_Credit (Some (mkCredit (u32 grant) []))) in
  Next (store s p r) [OpenQueue p frame] [].

(** [handleData] after [requestForFrame] *)
Definition handleData_locked (i : input) (s : session) (p : request_ptr) (r : requestState) (payload : bytes) :
    step_result :=
  let f := rs_flow r in
  let limits := sp_limits (ses_params s) in
  if halfClosed f || rs_terminal r then receive_failed s errProtocol else
  let size := len payload in
  if receiveCredit f <? size then receive_failed s errProtocol else
  let maximum := request_maximum limits r in
  if maximum <? u64 (len (requestBytes f) + size) then receive_failed s errProtocol else
  let body := requestBytes f ++ payload in
  let credit := u64 (receiveCredit f - size) in
  let remaining := u64 (u64 (maximum - len body) - credit) in
  let window := cl_ReceiveWindowBytes (class_limits (sp_settings (ses_params s)) (rs_class r)) in
  let grant := remaining `min` u64 (window - credit) `min` max_credit_bytes limits in
  let r := log_received (set_flow r (set_requestBytes (set_receiveCredit f credit) body)) payload in
  if grant =? 0 then Next (store s p r) [] [] else
  let r := set_flow r (set_receiveCredit (rs_flow r) (u64 (credit + grant))) in
  let '(r, frame) := enqueueRequestFrame_locked s r (Req_Credit (Some (mkCredit (u32 grant) []))) in
  on_result (enqueue_request (in_choice i) (store s p r) (request_ctxErr s r) p r [frame])
    (fun s => Next s [] []) receive_failed.

(** [handleHalfClose] after [requestForFrame] *)
Definition handleHalfClose_locked (s : session) (p : request_ptr) (r : requestState) : step_result :=
  let f := rs_flow r in
  if halfClosed f || rs_terminal r then receive_failed s errProtocol else
  Next (store s p (set_flow r (set_requestBytes (set_halfClosed f) []))) [] [[Execute p (requestBytes f)]].

(** [completeRequest] up to the choice of its response *)
Definition completeRequest (s : session) (p : request_ptr) (r : requestState) (response : bytes) (code : Z) :
    step_result :=
  if rs_terminal r then Next s [] [] else
  let s := store s p (log_outcome (set_terminal r) (response, code)) in
  if (code =? RESULT_CODE_OK) && (0 <? len response) then Next s [Respond p response code] []
  else Next s [Finish p code] [].

(** The code after [sendResponse] failed. *)
Definition failed_code (s : session) (r : requestState) : Z :=
  match ctxErr (life s) with
  | Some _ => RESULT_CODE_UNAVAILABLE
  | None =>
      if bool_decide (request_ctxErr s r = Some DeadlineExceeded) then RESULT_CODE_DEADLINE_EXCEEDED
      else RESULT_CODE_CANCELED
  end.

(** One iteration of [sendResponse]: the size of the chunk and the first critical
    section of [consumeSendCredit]. *)
Definition sendResponse (s : session) (p : request_ptr) (r : requestState) (response : bytes) (code : Z) :
    step_result :=
  if len response =? 0 then Next s [Finish p code] [] else
  let chunkSize := len response `min` max_data_bytes (sp_limits (ses_params s)) in
  if chunkSize <=? sendCredit (rs_flow r) then
    Next (store s p (set_flow r (set_sendCredit (rs_flow r) (u64 (sendCredit (rs_flow r) - chunkSize)))))
      [SendChunk p (take (Z.to_nat chunkSize) response) (drop (Z.to_nat chunkSize) response) code] []
  else Next s [AwaitCredit p response code] [].

(** The [select] of [consumeSendCredit] *)
Definition await_credit (i : input) (s : session) (p : request_ptr) (r : requestState) (response : bytes) (code : Z) :
    step_result :=
  select_step (in_choice i)
    (match try_recv (creditChanged r) with
     | Some (_, c) => [Next (store s p (set_creditChanged r c)) [Respond p response code] []]
     | None => []
     end ++
     match request_ctxErr s r with
     | Some _ => [Next s [Finish p (failed_code s r)] []]
     | None => []
     end).

(** The end of [completeRequest]: its last frames *)
Definition finish (i : input) (s : session) (p : request_ptr) (r : requestState) (code : Z) : step_result :=
  on_result (enqueueRequestFrames (in_choice i) s p r
      [Req_HalfClose (Some (mkHalfClose [])); Req_Result (Some (mkResult code None [] []))])
    (fun s => Next s [Close p; Release p] [])
    (fun s _ => Next s [CancelSession; Close p; Release p] []).

(** The body is dropped, the context is canceled and [done] is closed. *)
Definition close_request (s : session) (p : request_ptr) (r : requestState) : step_result :=
  if rs_done r then Crash else
  Next (store s p (set_done (end_request_ctx s (set_flow r (set_requestBytes (rs_flow r) [])) Canceled))) [] [].

(** [abortRequest] up to the end of its compare-and-swap *)
Definition abortRequest (s : session) (p : request_ptr) (r : requestState) : step_result :=
  if rs_terminal r then Next s [] [] else Next (store s p (set_terminal r)) [Close p; Release p] [].

Definition watchRequest (i : input) (s : session) (p : request_ptr) (r : requestState) : step_result :=
  select_step (in_choice i)
    ((if rs_done r then [Next s [] []] else []) ++
     match request_ctxErr s r with
     | Some e =>
         [Next s [Complete p [] (if bool_decide (e = DeadlineExceeded) then RESULT_CODE_DEADLINE_EXCEEDED
                                 else RESULT_CODE_CANCELED)] []]
     | None => []
     end).

(** *** The send loop *)

(** [case queued := <-queue] *)
Definition receive_from (s : session) (class : Z) : list step_result :=
  match try_recv (queue s class) with
  | Some (queued, c) => [Next (set_queue s class c) [SendFrames (queued_frames queued) (qf_sent queued)] []]
  | None => []
  end.

(** [nextOutbound]: the first [select] serves the control queue. *)
Definition nextOutbound (s : session) : step_result :=
  match receive_from s TRAFFIC_CLASS_CONTROL_AUTH with
  | taken :: _ => taken
  | [] => Next s [SendSelect] []
  end.

(** The second [select] of [nextOutbound] *)
Definition nextOutbound_select (i : input) (s : session) : step_result :=
  select_step (in_choice i)
    (receive_from s TRAFFIC_CLASS_CONTROL_AUTH ++ receive_from s TRAFFIC_CLASS_REGULAR ++
     receive_from s TRAFFIC_CLASS_REALTIME ++
     match ctxErr (life s) with Some _ => [Next s [LoopReturn SendLoop errSessionClosed] []] | None => [] end).

(** [queued.sent <- err] *)
Definition acknowledge (s : session) (sent ok : bool) : session :=
  if sent then set_life s (set_drainAck (life s) (default (drainAck (life s)) (try_send (drainAck (life s)) ok)))
  else s.

(** The frames of one queue entry *)
Definition sendLoop_frames (i : input) (s : session) (frames : list ConnectRequest) (sent : bool) : step_result :=
  match frames with
  | [] => Next (acknowledge s sent true) [SendNext] []
  | frame :: frames =>
      if in_sendOk i then Next (set_wire s (wire s ++ [frame])) [SendFrames frames sent] []
      else Next (acknowledge s sent false) [LoopReturn SendLoop errSessionClosed] []
  end.

(** *** The keepalive loop *)

Definition keepaliveLoop (i : input) (s : session) (nonce : Z) : step_result :=
  select_step (in_choice i)
    (match ctxErr (life s) with Some _ => [Next s [LoopReturn KeepaliveLoop errSessionClosed] []] | None => [] end ++
     if in_timer i then [Next s [SendPing (u64 (nonce + 1))] []] else []).

Definition send_ping (i : input) (s : session) (nonce : Z) : step_result :=
  on_result (enqueueTunnelFrame (in_choice i) s (Req_Ping (Some (mkPing nonce []))))
    (fun s => Next s [WaitPong nonce] []) (fun s e => Next s [LoopReturn KeepaliveLoop e] []).

Definition waitPong (i : input) (s : session) (nonce : Z) : step_result :=
  select_step (in_choice i)
    (match try_recv (pongs (life s)) with
     | Some (received, c) =>
         [Next (set_life s (set_pongs (life s) c)) [if received =? nonce then PingTick nonce else WaitPong nonce] []]
     | None => []
     end ++
     (if in_timer i then [Next s [LoopReturn KeepaliveLoop errKeepaliveTimeout] []] else []) ++
     match ctxErr (life s) with Some _ => [Next s [LoopReturn KeepaliveLoop errSessionClosed] []] | None => [] end).

(** *** Draining and the end of the session *)

(** [drain] up to its Drain frame *)
Definition drain_begin (i : input) (s : session) (deadline : option Z) (peer : bool) : step_result :=
  let s := set_life s (set_draining (life s)) in
  if drainSent (life s) then Next s [DrainWait] [] else
  let s := set_life s (set_drainSent (life s)) in
  let deadline := default (in_now i + set_drainTimeout (sp_settings (ses_params s))) deadline in
  let reason := if peer then DRAIN_REASON_MAINTENANCE else DRAIN_REASON_SHUTDOWN in
  Next s [DrainQueue deadline reason] [].

Definition drain_queue (i : input) (s : session) (deadline reason : Z) : step_result :=
  let frame := tunnelFrame s (Req_Drain (Some (mkDrain (Some (timestamppb_New deadline)) reason []))) in
  on_result (enqueue (in_choice i) s (in_ctx i) TRAFFIC_CLASS_CONTROL_AUTH (mkQueuedFrame frame [] true))
    (fun s => Next s [DrainAwait] []) (fun s _ => Next s [] []).

Definition drain_await (i : input) (s : session) : step_result :=
  select_step (in_choice i)
    (match try_recv (drainAck (life s)) with
     | Some (ok, c) => [Next (set_life s (set_drainAck (life s) c)) (if ok : bool then [DrainWait] else []) []]
     | None => []
     end ++
     match in_ctx i with Some _ => [Next s [] []] | None => [] end ++
     match ctxErr (life s) with Some _ => [Next s [] []] | None => [] end).

Definition drain_wait (s : session) : step_result :=
  if Z.of_nat (size (requests (table s))) =? 0 then Next s [] [] else Next s [DrainSelect] [].

Definition drain_select (i : input) (s : session) : step_result :=
  select_step (in_choice i)
    (match try_recv (activeChanged (life s)) with
     | Some (_, c) => [Next (set_life s (set_activeChanged (life s) c)) [DrainWait] []]
     | None => []
     end ++
     match in_ctx i with Some _ => [Next s [AbortAll] []] | None => [] end ++
     match ctxErr (life s) with Some _ => [Next s [] []] | None => [] end).

(** [abortAll]: the requests of the map, one after the other. *)
Definition abortAll (s : session) : list op := Abort <$> (map_to_list (requests (table s))).*2.

(** A loop returns: [run] takes the first error, cancels the session and aborts
    its requests. *)
Definition loop_return (s : session) (l : loop) (err : error) : step_result :=
  let lf := life s in
  let receiving := match l with ReceiveLoop => false | _ => receiving lf end in
  let set e := set_life s (mkLifecycle (ctxErr lf) (draining lf) (drainSent lf) e receiving (pongs lf)
    (activeChanged lf) (drainAck lf)) in
  match loopErr lf with
  | Some e => Next (set (Some e)) [] []
  | None => Next (set (Some err)) [] [[CancelSession; AbortAll]]
  end.

(** *** One operation *)

Definition step_op (i : input) (s : session) (o : op) : step_result :=
  match o with
  | Reserve header request =>
      match reserve s request with
      | Some (s, p) => Next s [OpenCredit p] []
      | None => Next s [RejectOpen header RESULT_CODE_RESOURCE_EXHAUSTED] []
      end
  | RejectOpen header code => rejectOpen i s header code
  | AddTerminal key tr =>
      match addTerminalLocked (sp_limits (ses_params s)) (table s) key tr with
      | Ok t => Next (set_table s t) [] []
      | _ => Crash
      end
  | OpenCredit p => with_request s p (open_credit s p)
  | OpenQueue p frame => with_request s p (fun r =>
      on_result (enqueue_request (in_choice i) s (ctxErr (life s)) p r [frame])
        (fun s => Next s [] [[Watch p]]) (fun s _ => Next s [Abort p] []))
  | DataLocked p payload => with_request s p (fun r => handleData_locked i s p r payload)
  | HalfCloseLocked p => with_request s p (handleHalfClose_locked s p)
  | TerminalCredit header increment =>
      match handleTerminalFrame (table s) header (Some increment) with
      | None => receive_failed s errProtocol
      | Some (Ok t) => Next (set_table s t) [] []
      | Some (Err e) => receive_failed s e
      | Some Panic => Crash
      end
  | TerminalCancel header =>
      match handleTerminalFrame (table s) header None with
      | None => receive_failed s errProtocol
      | Some (Ok t) => Next (set_table s t) [] []
      | Some (Err e) => receive_failed s e
      | Some Panic => Crash
      end
  | CancelContext p => with_request s p (fun r => Next (store s p (end_request_ctx s r Canceled)) [] [])
  | EnqueuePong nonce =>
      on_result (enqueueTunnelFrame (in_choice i) s (Req_Pong (Some (mkPong nonce []))))
        (fun s => Next s [] []) receive_failed
  | LoopReturn l err => loop_return s l err
  | SendNext => nextOutbound s
  | SendSelect => nextOutbound_select i s
  | SendFrames frames sent => sendLoop_frames i s frames sent
  | PingTick nonce => keepaliveLoop i s nonce
  | SendPing nonce => send_ping i s nonce
  | WaitPong nonce => waitPong i s nonce
  | Watch p => with_request s p (watchRequest i s p)
  | Execute p payload => with_request s p (fun r =>
      let '(response, code) := invoke (in_world i) (rs_call r) (rs_route r) payload in
      Next (store s p (log_call r payload)) [Complete p response (resultCode code)] [])
  | Complete p response code => with_request s p (fun r => completeRequest s p r response code)
  | Respond p response code => with_request s p (fun r => sendResponse s p r response code)
  | AwaitCredit p response code => with_request s p (fun r => await_credit i s p r response code)
  | SendChunk p chunk response code => with_request s p (fun r =>
      let '(r, frame) := enqueueRequestFrame_locked s r (Req_Data (Some (mkData chunk []))) in
      Next (store s p r) [QueueChunk p frame response code] [])
  | QueueChunk p frame response code => with_request s p (fun r =>
      on_result (enqueue_request (in_choice i) s (ctxErr (life s)) p r [frame])
        (fun s => Next s [Respond p response code] []) (fun s _ => Next s [Finish p (failed_code s r)] []))
  | Finish p code => with_request s p (fun r => finish i s p r code)
  | Close p => with_request s p (close_request s p)
  | Release p => with_request s p (fun r =>
      match release s p r with Ok s => Next s [] [] | _ => Crash end)
  | Abort p => with_request s p (abortRequest s p)
  | DrainBegin deadline peer => drain_begin i s deadline peer
  | DrainQueue deadline reason => drain_queue i s deadline reason
  | DrainAwait => drain_await i s
  | DrainWait => drain_wait s
  | DrainSelect => drain_select i s
  | AbortAll => Next s (abortAll s) []
  | CancelSession => Next (cancel s) [] []
  end.

(** ** The session and its environment *)

Inductive event :=
(** the stream delivers a frame, or fails *)
| Receive (frame : ConnectResponse) (now : Z)
| ReceiveError
(** a goroutine executes its next operation *)
| Run (thread : nat) (i : input)
(** the deadline of a request passes *)
| RequestDeadline (p : request_ptr)
(** the client stops, or drains, the session *)
| ParentCancel
| LocalDrain (deadline : Z).

Definition resume (s : session) (thread : nat) (ops : list op) (started : list (list op)) : session :=
  set_threads s (<[thread := ops]> (threads s) ++ started).

Definition receive_ready (s : session) : bool :=
  receiving (life s) && match threads s !! receive_thread with Some [] => true | _ => false end.

Inductive next := Waits | Panics | Continues (s : session).

Definition exec (s : session) (e : event) : next :=
  match e with
  | Receive frame now =>
      if negb (receive_ready s) then Waits else
      let '(s, ops, started) := handleFrame s now frame in Continues (resume s receive_thread ops started)
  | ReceiveError =>
      if negb (receive_ready s) then Waits else
      Continues (resume s receive_thread [LoopReturn ReceiveLoop errSessionClosed] [])
  | Run thread i =>
      match threads s !! thread with
      | Some (o :: rest) =>
          match step_op i s o with
          | Blocked => Waits
          | Crash => Panics
          | Next s ops started => Continues (resume s thread (ops ++ rest) started)
          end
      | _ => Waits
      end
  | RequestDeadline p =>
      match heap (table s) !! p with
      | Some r => Continues (store s p (end_request_ctx s r DeadlineExceeded))
      | None => Waits
      end
  | ParentCancel => Continues (cancel s)
  | LocalDrain deadline => Continues (set_threads s (threads s ++ [[DrainBegin (Some deadline) false; CancelSession]]))
  end.
End session.
