(* ===== verification/GatewayOutSessionProofs.v ===== *)
(** * Invariants of gateway-out sessions

    What holds of a session and of the pending operations of its goroutines in
    every interleaving, and its preservation by every operation of
    [GatewayOutSession]. *)

From S2P Require Import Prelude TunnelContract TunnelValidate TunnelValidateProofs GatewayOutRegistry GatewayOutSession.
Local Open Scope Z_scope.

Create HintDb tunnel_out.

(** ** Pending operations *)

Section ops.
Context `{ProtoRuntime} `{InternalRpc}.

(** The request an operation works on. *)
Definition op_ptr (o : op) : option request_ptr :=
  match o with
  | OpenCredit p | OpenQueue p _ | DataLocked p _ | HalfCloseLocked p | CancelContext p | Watch p
  | Execute p _ | Complete p _ _ | Respond p _ _ | AwaitCredit p _ _ | SendChunk p _ _ _ | QueueChunk p _ _ _
  | Finish p _ | Close p | Release p | Abort p => Some p
  | _ => None
  end.

(** The operations after which [done] is closed, after which the request is
    released, before its first Credit is queued, that send its response, that call
    the RPC, and that may queue frames or call the RPC. *)
Definition closer (o : op) : bool :=
  match o with
  | Respond _ _ _ | AwaitCredit _ _ _ | SendChunk _ _ _ _ | QueueChunk _ _ _ _ | Finish _ _ | Close _ => true
  | _ => false
  end.
Definition releaser (o : op) : bool :=
  match o with
  | Respond _ _ _ | AwaitCredit _ _ _ | SendChunk _ _ _ _ | QueueChunk _ _ _ _ | Finish _ _ | Release _ => true
  | _ => false
  end.
Definition opener (o : op) : bool := match o with OpenCredit _ | OpenQueue _ _ => true | _ => false end.
Definition executing (o : op) : bool := match o with Execute _ _ => true | _ => false end.
Definition busy (o : op) : bool :=
  match o with
  | DataLocked _ _ | HalfCloseLocked _ | Watch _ | Execute _ _ | Complete _ _ _ | Respond _ _ _ | AwaitCredit _ _ _
  | SendChunk _ _ _ _ | QueueChunk _ _ _ _ | Finish _ _ => true
  | _ => false
  end.
(** The operations that end in the completion of a live request. *)
Definition guardian (o : op) : bool :=
  match o with OpenCredit _ | OpenQueue _ _ | Watch _ | Complete _ _ _ | Abort _ => true | _ => false end.

Definition weigh (k : op -> bool) (p : request_ptr) (o : op) : Z :=
  if k o && bool_decide (op_ptr o = Some p) then 1 else 0.

(** The number of pending operations of a kind on a request. *)
Fixpoint pending (k : op -> bool) (p : request_ptr) (ops : list op) : Z :=
  match ops with
  | [] => 0
  | o :: ops => weigh k p o + pending k p ops
  end.

Lemma weigh_bound k p o : 0 <= weigh k p o <= 1.
Proof. unfold weigh. case_match; lia. Qed.

Lemma pending_nonneg k p ops : 0 <= pending k p ops.
Proof. induction ops as [|o ops IH]; simpl; [done|]. pose proof (weigh_bound k p o). lia. Qed.

Lemma pending_app k p a b : pending k p (a ++ b) = pending k p a + pending k p b.
Proof. induction a as [|o a IH]; simpl; [done|]. rewrite IH. lia. Qed.

Lemma pending_perm k p a b : a ≡ₚ b -> pending k p a = pending k p b.
Proof. induction 1; simpl; lia. Qed.

Lemma weigh_other k p o : op_ptr o <> Some p -> weigh k p o = 0.
Proof. intros Ho. unfold weigh. rewrite bool_decide_false by done. by rewrite andb_false_r. Qed.

Lemma weigh_at k p o : op_ptr o = Some p -> weigh k p o = Z.b2z (k o).
Proof. intros Ho. unfold weigh. rewrite bool_decide_true by done. rewrite andb_true_r. by destruct (k o). Qed.

Lemma pending_other k p ops : Forall (fun o => op_ptr o <> Some p) ops -> pending k p ops = 0.
Proof. induction 1 as [|o ops Ho _ IH]; simpl; [done|]. by rewrite weigh_other, IH. Qed.

Lemma pending_zero k p ops o : pending k p ops = 0 -> o ∈ ops -> op_ptr o = Some p -> k o = false.
Proof.
  intros Hz Ho Hp. induction Ho as [o ops|o o' ops _ IH]; simpl in Hz.
  - rewrite (weigh_at k p o Hp) in Hz. pose proof (pending_nonneg k p ops). destruct (k o); simpl in Hz; [lia|done].
  - pose proof (weigh_bound k p o'). pose proof (pending_nonneg k p ops). apply IH; [lia|done].
Qed.

Lemma pending_pos k p ops : 0 < pending k p ops -> exists o, o ∈ ops /\ op_ptr o = Some p /\ k o = true.
Proof.
  induction ops as [|o ops IH]; simpl; [lia|]. intros Hp. destruct (weigh k p o =? 0) eqn:Hw.
  - destruct IH as (o' & Ho & ? & ?); [lia|]. exists o'. split_and!; [by right|done|done].
  - unfold weigh in Hw. destruct (k o) eqn:Hk; [|done]. simpl in Hw. case_bool_decide; [|done].
    exists o. split_and!; [by left|done|done].
Qed.

Lemma pending_false k p ops : Forall (fun o => k o = false) ops -> pending k p ops = 0.
Proof. induction 1 as [|o ops Ho _ IH]; simpl; [done|]. unfold weigh. by rewrite Ho, IH. Qed.
End ops.

(** ** Well-formed parameters *)

Section invariant.
Context `{ProtoRuntime} `{InternalRpc}.

Record params_wf (params : sessionParams) : Prop := {
  pw_limits : limits_wf (sp_limits params);
  pw_positive : 0 < max_data_bytes (sp_limits params) /\ 0 < max_in_flight_requests (sp_limits params) /\
    0 < max_credit_bytes (sp_limits params);
  pw_registry : registry_wf (sp_registry params);
  pw_classes : forall c, c = TRAFFIC_CLASS_CONTROL_AUTH \/ c = TRAFFIC_CLASS_REGULAR ->
    0 < cl_ReceiveWindowBytes (class_limits (sp_settings params) c) <= MaxCreditBytes /\
    cl_MaxInFlight (class_limits (sp_settings params) c) <= MaxInFlightRequests
}.

(** A frame a session may send: valid and within the negotiated limits. *)
Definition sendable (params : sessionParams) (f : ConnectRequest) : Prop :=
  gateway_out_frame_wf f /\ withinNegotiatedLimits_request f (sp_limits params) = true.

(** [requestFrame], which reads only the parameters of the session *)
Definition request_frame (params : sessionParams) (r : requestState) (sequence : Z) (payload : ConnectRequest_payload) :
    ConnectRequest :=
  mkConnectRequest (Some (mkFrameHeader protocolVersion (sp_tunnelID params) (rs_requestID r) sequence (rs_class r) []))
    (setGatewayOutPayload payload) [].

(** ** One request *)

Definition frame_seq (f : ConnectRequest) : Z := GetSequence (creq_header f).
Definition frame_data (f : ConnectRequest) : bytes := GetPayload_data (GetData_req f).
Definition sent_data (fs : list ConnectRequest) : bytes := concat (frame_data <$> fs).
Definition frame_credit (f : ConnectRequest) : Z := GetBytes_credit (GetCredit_req f).
(** The credit that a list of frames grants. *)
Definition sent_credit (fs : list ConnectRequest) : Z := foldr Z.add 0 (frame_credit <$> fs).
Definition is_credit (f : ConnectRequest) : Prop :=
  match creq_payload f with Some (Req_Credit _) => True | _ => False end.
Definition is_flow (f : ConnectRequest) : Prop :=
  match creq_payload f with Some (Req_Credit _) | Some (Req_Data _) => True | _ => False end.

(** HalfClose and Result, the last frames of a request. *)
Definition final_frames (code : Z) (fs : list ConnectRequest) : Prop :=
  creq_payload <$> fs = [Some (Req_HalfClose (Some (mkHalfClose []))); Some (Req_Result (Some (mkResult code None [] [])))].

Definition response_bytes (r : requestState) : Z :=
  match outcome (rs_history r) with Some (response, _) => len response | None => 0 end.
(** The credit granted to the peer for the body. *)
Definition body_credit (r : requestState) : Z := len (received (rs_history r)) + receiveCredit (rs_flow r).

Record req_ok (params : sessionParams) (r : requestState) : Prop := {
  rq_route : routes (sp_registry params) !! rt_ID (rt_spec (rs_route r)) = Some (rs_route r);
  rq_receive : 0 <= receiveCredit (rs_flow r) <= cl_ReceiveWindowBytes (class_limits (sp_settings params) (rs_class r)) /\
    body_credit r <= request_maximum (sp_limits params) r;
  rq_body : rs_terminal r = false -> halfClosed (rs_flow r) = false -> requestBytes (rs_flow r) = received (rs_history r);
  rq_calls : calls (rs_history r) = [] \/ (calls (rs_history r) = [received (rs_history r)] /\ halfClosed (rs_flow r) = true);
  rq_send : 0 <= sendCredit (rs_flow r) <= response_maximum (sp_limits params) r /\
    len (sent_data (emitted (rs_history r))) + sendCredit (rs_flow r) <= granted (rs_history r);
  rq_sequence : sublist (frame_seq <$> emitted (rs_history r)) (seqZ 1 (outgoingSequence (rs_flow r))) /\
    0 <= outgoingSequence (rs_flow r) <= body_credit r + response_bytes r + 2 /\ response_bytes r <= MaxMessageBytes;
  rq_sendable : Forall (sendable params) (emitted (rs_history r));
  rq_live : rs_terminal r = false -> Forall is_credit (emitted (rs_history r)) /\ outcome (rs_history r) = None /\
    outgoingSequence (rs_flow r) <= body_credit r;
  rq_shape : exists body tail, emitted (rs_history r) = body ++ tail /\ Forall is_flow body /\
    (tail = [] \/ exists code, final_frames code tail /\
       (code = RESULT_CODE_OK -> outcome (rs_history r) = Some (sent_data body, RESULT_CODE_OK)));
  rq_chan : chan_cap (creditChanged r) = 1;
  rq_credit : Forall (fun f => 0 <= frame_credit f) (emitted (rs_history r)) /\
    sent_credit (emitted (rs_history r)) <= body_credit r
}.

(** The response is on its way: [rest] has still to be sent. *)
Definition responding (params : sessionParams) (r : requestState) (rest : bytes) (code : Z) : Prop :=
  halfClosed (rs_flow r) = true /\ code = RESULT_CODE_OK /\ Forall is_flow (emitted (rs_history r)) /\
  outcome (rs_history r) = Some (sent_data (emitted (rs_history r)) ++ rest, RESULT_CODE_OK) /\
  outgoingSequence (rs_flow r) <= body_credit r + len (sent_data (emitted (rs_history r))).

Definition chunk_size (params : sessionParams) (rest : bytes) : Z := len rest `min` max_data_bytes (sp_limits params).

(** A numbered chunk that is not yet in a queue. *)
Definition chunk_frame (params : sessionParams) (r : requestState) (chunk : bytes) : ConnectRequest :=
  request_frame params r (outgoingSequence (rs_flow r)) (Req_Data (Some (mkData chunk []))).

(** What a pending operation on a request relies on. *)
Definition op_req (params : sessionParams) (r : requestState) (o : op) : Prop :=
  match o with
  | OpenCredit _ =>
      emitted (rs_history r) = [] /\ outgoingSequence (rs_flow r) = 0 /\ received (rs_history r) = [] /\
      halfClosed (rs_flow r) = false /\ receiveCredit (rs_flow r) = 0
  | OpenQueue _ frame =>
      emitted (rs_history r) = [] /\ outgoingSequence (rs_flow r) = 1 /\ halfClosed (rs_flow r) = false /\
      frame = request_frame params r 1 (Req_Credit (Some (mkCredit (u32 (receiveCredit (rs_flow r))) [])))
  | Execute _ payload =>
      halfClosed (rs_flow r) = true /\ payload = received (rs_history r) /\ calls (rs_history r) = []
  | Complete _ response code =>
      1 <= code <= 11 /\ (response <> [] -> halfClosed (rs_flow r) = true) /\ len response <= MaxMessageBytes
  | Respond _ rest code => responding params r rest code
  | AwaitCredit _ rest code =>
      responding params r rest code /\
      (chunk_size params rest <= sendCredit (rs_flow r) -> chan_buf (creditChanged r) <> [])
  | SendChunk _ chunk rest code =>
      responding params r (chunk ++ rest) code /\ chunk <> [] /\
      len (sent_data (emitted (rs_history r))) + len chunk + sendCredit (rs_flow r) <= granted (rs_history r)
  | QueueChunk _ frame rest code =>
      exists chunk, chunk <> [] /\ frame = chunk_frame params r chunk /\
      halfClosed (rs_flow r) = true /\ code = RESULT_CODE_OK /\ Forall is_flow (emitted (rs_history r)) /\
      outcome (rs_history r) = Some (sent_data (emitted (rs_history r)) ++ chunk ++ rest, RESULT_CODE_OK) /\
      outgoingSequence (rs_flow r) <= body_credit r + len (sent_data (emitted (rs_history r))) + len chunk /\
      0 < outgoingSequence (rs_flow r) /\
      sublist (frame_seq <$> emitted (rs_history r)) (seqZ 1 (outgoingSequence (rs_flow r) - 1)) /\
      len (sent_data (emitted (rs_history r))) + len chunk + sendCredit (rs_flow r) <= granted (rs_history r)
  | Finish _ code =>
      1 <= code <= 11 /\ Forall is_flow (emitted (rs_history r)) /\
      (code = RESULT_CODE_OK -> outcome (rs_history r) = Some (sent_data (emitted (rs_history r)), RESULT_CODE_OK)) /\
      outgoingSequence (rs_flow r) <= body_credit r + response_bytes r
  | _ => True
  end.

(** What a pending operation on no request relies on. *)
Definition op_static (params : sessionParams) (o : op) : Prop :=
  match o with
  | Reserve header request => exists r, routes (sp_registry params) !! rt_ID (rt_spec r) = Some r /\
      exists open, request = new_request header r open
  | SendFrames frames _ => Forall (sendable params) frames
  | TerminalCredit _ increment => 0 <= increment
  | AddTerminal _ tr => 0 <= tr_sendCredit tr <= tr_maximumCredit tr /\ tr_maximumCredit tr <= MaxMessageBytes
  | _ => True
  end.

Definition op_ok (s : session) (o : op) : Prop :=
  match op_ptr o with
  | Some p => exists r, heap (table s) !! p = Some r /\ op_req (ses_params s) r o
  | None => op_static (ses_params s) o
  end.

(** The pending operations of a request against its flags; [registered] tells
    whether the session's map still holds it. *)
Record phase_ok (p : request_ptr) (r : requestState) (registered : bool) (ops : list op) : Prop := {
  ph_close : pending closer p ops = Z.b2z (rs_terminal r && negb (rs_done r));
  ph_done : rs_done r = true -> rs_terminal r = true;
  ph_release : pending releaser p ops = Z.b2z (rs_terminal r && registered);
  ph_registered : rs_terminal r = false -> registered = true;
  ph_open : pending opener p ops = 0 \/ pending opener p ops = 1 /\ pending busy p ops = 0;
  ph_execute : pending executing p ops <= 1;
  ph_guarded : rs_terminal r = false -> 0 < pending guardian p ops
}.

Definition registered (s : session) (p : request_ptr) (r : requestState) : bool :=
  bool_decide (requests (table s) !! rs_key r = Some p).

(** ** The tables *)

Definition in_class (t : request_table) (c : Z) (kp : list Z * request_ptr) : Prop :=
  rs_class <$> heap t !! kp.2 = Some c.
#[global] Instance in_class_dec t c kp : Decision (in_class t c kp).
Proof. unfold in_class. apply _. Defined.

(** The live requests of a class. *)
Definition class_load (t : request_table) (c : Z) : Z := count_if (in_class t c) (requests t).

Record table_ok (params : sessionParams) (t : request_table) : Prop := {
  tb_requests : forall k p, requests t !! k = Some p -> exists r, heap t !! p = Some r /\ rs_key r = k;
  tb_size : Z.of_nat (size (requests t)) <= max_in_flight_requests (sp_limits params);
  tb_active : forall c, active_count t c = class_load t c;
  tb_bound : forall c, 0 < class_load t c -> class_load t c <= cl_MaxInFlight (class_limits (sp_settings params) c);
  tb_ring : NoDup (terminalOrder t) /\ (forall k, k ∈ terminalOrder t <-> is_Some (terminal t !! k)) /\
    len (terminalOrder t) <= max_in_flight_requests (sp_limits params) /\
    0 <= terminalNext t < max_in_flight_requests (sp_limits params);
  tb_terminal : forall k tr, terminal t !! k = Some tr ->
    0 <= tr_sendCredit tr <= tr_maximumCredit tr /\ tr_maximumCredit tr <= MaxMessageBytes
}.

(** ** The session *)

Definition queue_ok (params : sessionParams) (c : chan queuedFrame) (class : Z) : Prop :=
  chan_cap c = queue_depth (sp_settings params) class /\ len (chan_buf c) <= 0 `max` chan_cap c /\
  Forall (fun q => Forall (sendable params) (queued_frames q)) (chan_buf c).

Record inv (s : session) (ops : list op) : Prop := {
  i_params : params_wf (ses_params s);
  i_queues : forall c, queue_ok (ses_params s) (queue s c)
    (if c =? TRAFFIC_CLASS_REGULAR then c else if c =? TRAFFIC_CLASS_REALTIME then c else TRAFFIC_CLASS_CONTROL_AUTH);
  i_wire : Forall (sendable (ses_params s)) (wire s);
  i_table : table_ok (ses_params s) (table s);
  i_requests : forall p r, heap (table s) !! p = Some r ->
    req_ok (ses_params s) r /\ phase_ok p r (registered s p r) ops;
  i_ops : Forall (op_ok s) ops
}.

(** ** Generic preservation *)

Lemma inv_perm s ops ops' : ops ≡ₚ ops' -> inv s ops -> inv s ops'.
Proof.
  intros Hp [? ? ? ? Hr Ho]. constructor; [done..| |by rewrite <- Hp].
  intros p r Hh. destruct (Hr p r Hh) as [Hq [Ha Hb Hc Hd He Hf Hg]]. split; [done|].
  constructor; rewrite <- ?(pending_perm _ p _ _ Hp); done.
Qed.

Lemma requestFrame_params s r n payload : requestFrame s r n payload = request_frame (ses_params s) r n payload.
Proof. done. Qed.

(** What two states of the session agree on: everything but queues, lifecycle and
    goroutines. *)
Definition same_tables (s s' : session) : Prop :=
  ses_params s' = ses_params s /\ table s' = table s.

(** Queues and stream carry sendable frames only. *)
Definition output_ok (s : session) : Prop :=
  (forall c, queue_ok (ses_params s) (queue s c)
     (if c =? TRAFFIC_CLASS_REGULAR then c else if c =? TRAFFIC_CLASS_REALTIME then c else TRAFFIC_CLASS_CONTROL_AUTH)) /\
  Forall (sendable (ses_params s)) (wire s).

Lemma inv_output s ops : inv s ops -> output_ok s.
Proof. by intros [? ? ? ? ? ?]. Qed.

(** An operation that touches no request, and leaves operations on none. *)
Lemma inv_static s s' o new others :
  inv s (o :: others) -> same_tables s s' -> output_ok s' ->
  (op_ptr o = None) -> Forall (fun o' => op_ptr o' = None /\ op_static (ses_params s) o') new ->
  inv s' (new ++ others).
Proof.
  intros [Hpw _ _ Ht Hr Ho] [Hps Htab] [Hq Hw] Hptr Hnew. apply Forall_cons in Ho as [_ Ho].
  assert (Hpend : forall k p, pending k p (new ++ others) = pending k p (o :: others)).
  { intros k p. rewrite pending_app. simpl. rewrite (weigh_other k p o) by (by rewrite Hptr).
    rewrite pending_other; [done|]. eapply Forall_impl; [exact Hnew|]. intros o' [-> _]. done. }
  rewrite Hps in Hq, Hw. constructor; rewrite ?Hps, ?Htab; try done.
  - intros p r Hh. destruct (Hr p r Hh) as [Hrq [Ha Hb Hc Hd He Hf Hg]]. split; [done|].
    unfold registered in *. rewrite Htab. constructor; rewrite ?Hpend; done.
  - apply Forall_app. split.
    + eapply Forall_impl; [exact Hnew|]. intros o' [Hn Hs]. unfold op_ok. rewrite Hn, Hps. done.
    + eapply Forall_impl; [exact Ho|]. intros o'. unfold op_ok. by rewrite Hps, Htab.
Qed.

Lemma class_load_store t p r r' c :
  heap t !! p = Some r -> rs_class r' = rs_class r ->
  class_load (set_heap t (<[p := r']> (heap t))) c = class_load t c.
Proof.
  intros Hh Hc. apply count_if_ext. intros k q _. unfold in_class. simpl.
  destruct (decide (q = p)) as [->|Hne].
  - rewrite lookup_insert_eq, Hh. simpl. by rewrite Hc.
  - by rewrite lookup_insert_ne.
Qed.

Lemma table_ok_store params t p r r' :
  table_ok params t -> heap t !! p = Some r -> rs_requestID r' = rs_requestID r -> rs_route r' = rs_route r ->
  table_ok params (set_heap t (<[p := r']> (heap t))).
Proof.
  intros [Hr Hs Ha Hb Hring Ht] Hh Hid Hrt. assert (Hc : rs_class r' = rs_class r) by (unfold rs_class; by rewrite Hrt).
  constructor; simpl; try done.
  - intros k q Hq. destruct (Hr k q Hq) as (x & Hx & Hk). destruct (decide (q = p)) as [->|Hne].
    + exists r'. rewrite lookup_insert_eq. split; [done|]. simplify_eq. unfold rs_key. by rewrite Hid.
    + exists x. by rewrite lookup_insert_ne.
  - intros c. unfold active_count. simpl. rewrite (class_load_store t p r r' c Hh Hc). apply Ha.
  - intros c. rewrite (class_load_store t p r r' c Hh Hc). apply Hb.
Qed.

(** An operation on the request at [p] that replaces [r] by [r']. *)
Lemma inv_store s s' o p r r' new others :
  inv s (o :: others) -> heap (table s) !! p = Some r -> op_ptr o = Some p ->
  ses_params s' = ses_params s -> table s' = set_heap (table s) (<[p := r']> (heap (table s))) -> output_ok s' ->
  rs_requestID r' = rs_requestID r -> rs_route r' = rs_route r ->
  req_ok (ses_params s) r' ->
  (forall o', o' ∈ others -> op_ptr o' = Some p -> op_req (ses_params s) r o' -> op_req (ses_params s) r' o') ->
  Forall (fun o' => op_ptr o' = Some p /\ op_req (ses_params s) r' o' \/
                    op_ptr o' = None /\ op_static (ses_params s) o') new ->
  (phase_ok p r (registered s p r) (o :: others) -> phase_ok p r' (registered s p r) (new ++ others)) ->
  inv s' (new ++ others).
Proof.
  intros [Hpw _ _ Ht Hr Ho] Hh Hptr Hps Htab [Hq Hw] Hid Hrt Hreq Hkeep Hnew Hph. apply Forall_cons in Ho as [_ Ho].
  assert (Hkey : rs_key r' = rs_key r) by (unfold rs_key; by rewrite Hid).
  assert (Hpend : forall k q, q <> p -> pending k q (new ++ others) = pending k q (o :: others)).
  { intros k q Hne. rewrite pending_app. simpl. rewrite (weigh_other k q o) by (rewrite Hptr; congruence).
    rewrite pending_other; [done|]. eapply Forall_impl; [exact Hnew|]. intros o' [[-> _]|[-> _]]; congruence. }
  rewrite Hps in Hq, Hw. constructor; rewrite ?Hps; try done; try (rewrite Htab; by eapply table_ok_store).
  - intros q x. rewrite Htab. simpl. unfold registered. rewrite Htab. simpl. intros [[<- <-]|[Hne Hx]]%lookup_insert_Some.
    + split; [done|]. rewrite Hkey. apply Hph. apply (Hr p r Hh).
    + destruct (Hr q x Hx) as [Hrq [Ha Hb Hc Hd He Hf Hg]]. split; [done|].
      constructor; rewrite ?Hpend by done; done.
  - apply Forall_app. split.
    + eapply Forall_impl; [exact Hnew|]. intros o' [[Hn Hs]|[Hn Hs]]; unfold op_ok; rewrite Hn, Hps; [|done].
      exists r'. rewrite Htab. simpl. by rewrite lookup_insert_eq.
    + apply Forall_forall. intros o' Ho'. rewrite Forall_forall in Ho. specialize (Ho o' Ho').
      unfold op_ok in *. rewrite Hps, Htab. simpl. destruct (op_ptr o') as [q|] eqn:Hq'; [|done].
      destruct Ho as (x & Hx & Hox). destruct (decide (q = p)) as [->|Hne].
      * exists r'. rewrite lookup_insert_eq. split; [done|]. simplify_eq. by apply Hkeep.
      * exists x. by rewrite lookup_insert_ne.
Qed.

(** ** Queues *)

(** [s'] differs from [s] in its queues only. *)
Definition queued_only (s s' : session) : Prop :=
  ses_params s' = ses_params s /\ table s' = table s /\ life s' = life s /\ threads s' = threads s.

Lemma check_frames_Ok params frames :
  check_frames (sp_limits params) frames = Ok tt -> Forall (sendable params) frames.
Proof.
  induction frames as [|f frames IH]; simpl; [by constructor|]. rewrite seq_Ok, guard_Ok, map_err_Ok.
  intros (Hv%out_frame_Ok & Hl & Hrest). go_bool. constructor; [by split|by apply IH].
Qed.

Lemma check_frames_no_panic limits frames : check_frames limits frames <> Panic.
Proof.
  induction frames as [|f frames IH]; cbn [check_frames]; [done|]. rewrite bind_Panic, map_err_Panic.
  intros [Hp|(? & _ & Hp)]; [by apply out_frame_no_panic in Hp|]. rewrite bind_Panic in Hp.
  destruct Hp as [Hp|(? & _ & Hp)]; [by apply reject_if_Panic in Hp|done].
Qed.

Lemma select_ready_elem {A} choice (ready : list A) x : select_ready choice ready = Some x -> x ∈ ready.
Proof. unfold select_ready. apply list_elem_of_lookup_2. Qed.

Lemma queue_set_queue s class c c' :
  queue (set_queue s class c) c' =
    if bool_decide ((class =? TRAFFIC_CLASS_REGULAR) = (c' =? TRAFFIC_CLASS_REGULAR) /\
                    (class =? TRAFFIC_CLASS_REALTIME) = (c' =? TRAFFIC_CLASS_REALTIME)) then c else queue s c'.
Proof.
  unfold queue, set_queue, TRAFFIC_CLASS_REGULAR, TRAFFIC_CLASS_REALTIME.
  destruct (Z.eqb_spec class 2), (Z.eqb_spec c' 2), (Z.eqb_spec class 3), (Z.eqb_spec c' 3); try lia;
    case_bool_decide as Hd; try done; destruct Hd; try done; naive_solver.
Qed.

Lemma output_set_queue s class c :
  output_ok s -> chan_cap c = chan_cap (queue s class) -> len (chan_buf c) <= 0 `max` chan_cap c ->
  Forall (fun q => Forall (sendable (ses_params s)) (queued_frames q)) (chan_buf c) ->
  output_ok (set_queue s class c).
Proof.
  intros [Hq Hw] Hcap Hlen Hall. split; [|done]. intros c'. cbn [set_queue ses_params set_queues].
  rewrite queue_set_queue. case_bool_decide as Hd; [|apply Hq].
  destruct (Hq class) as (Hc & _). split_and!; try done. rewrite Hcap, Hc. revert Hd. clear.
  unfold TRAFFIC_CLASS_REGULAR, TRAFFIC_CLASS_REALTIME.
  destruct (Z.eqb_spec c' 2), (Z.eqb_spec class 2), (Z.eqb_spec c' 3), (Z.eqb_spec class 3); intros [? ?]; subst; done.
Qed.

Lemma enqueue_cases choice s ctx class q s' res :
  output_ok s -> enqueue choice s ctx class q = (s', res) ->
  queued_only s s' /\ output_ok s' /\
  (res = Ok tt /\ Forall (sendable (ses_params s)) (queued_frames q) \/ s' = s /\ exists e, res = Err e).
Proof.
  intros Hout. unfold enqueue.
  assert (Hrefused : forall e, queued_only s s /\ output_ok s /\
    (Err e = Ok tt /\ Forall (sendable (ses_params s)) (queued_frames q) \/ s = s /\ exists e', @Err error unit e = Err e')).
  { intros e. split_and!; [by split_and!|done|right; eauto]. }
  destruct (check_frames _ _) as [[]|e|] eqn:Hchk; [|by intros [= <- <-]|by apply check_frames_no_panic in Hchk].
  apply check_frames_Ok in Hchk. cbv zeta.
  match goal with |- context [select_ready choice ?l] => set (ready := l) end.
  destruct (select_ready choice ready) as [x|] eqn:Hsel; simpl; [|by intros [= <- <-]].
  apply select_ready_elem in Hsel. intros ->. unfold ready in Hsel. rewrite !elem_of_app in Hsel.
  destruct Hsel as [Hsel|[Hsel|Hsel]].
  - destruct (try_send (queue s class) q) as [c|] eqn:Hs; [|by apply elem_of_nil in Hsel].
    apply list_elem_of_singleton in Hsel as [= -> ->]. split; [done|].
    unfold try_send in Hs. destruct (Z.ltb_spec (len (chan_buf (queue s class))) (chan_cap (queue s class))) as [Hlt|]; [|done].
    injection Hs as <-. split; [|by left]. apply output_set_queue; simpl; [done..| |].
    + rewrite len_app, len_cons, len_nil. lia.
    + apply Forall_app. split; [|by constructor]. destruct Hout as [Hq _]. apply (Hq class).
  - destruct ctx as [e|]; [|by apply elem_of_nil in Hsel]. by apply list_elem_of_singleton in Hsel as [= -> ->].
  - destruct (ctxErr (life s)); [|by apply elem_of_nil in Hsel]. by apply list_elem_of_singleton in Hsel as [= -> ->].
Qed.

Lemma enqueue_request_cases choice s ctx p r f fs s' res :
  output_ok s -> enqueue_request choice s ctx p r (f :: fs) = (s', res) ->
  (exists s1, queued_only s s1 /\ output_ok s1 /\ s' = store s1 p (log_frames r (f :: fs)) /\ res = Ok tt /\
     Forall (sendable (ses_params s)) (f :: fs)) \/ s' = s /\ exists e, res = Err e.
Proof.
  intros Hout. unfold enqueue_request. destruct (enqueue _ _ _ _ _) as [s1 res1] eqn:He.
  apply (enqueue_cases _ _ _ _ _ _ _ Hout) in He as (Hq & Ho & [[-> Hall]|[-> [e ->]]]);
    [|intros [= <- <-]; eauto].
  intros [= <- <-]. left. by exists s1.
Qed.

Lemma output_store s p r : output_ok s -> output_ok (store s p r).
Proof. done. Qed.
Lemma output_life s l : output_ok s -> output_ok (set_life s l).
Proof. done. Qed.
End invariant.
#[export] Hint Resolve output_store output_life inv_output : tunnel_out.
