(* ===== verification/GatewayOutSteps.v ===== *)
(** * Preservation of the invariant of gateway-out sessions

    Every operation of [GatewayOutSession] preserves the invariant of
    [GatewayOutSessionProofs], and no operation panics. *)

From S2P Require Import Prelude TunnelContract TunnelValidate TunnelValidateProofs GatewayOutRegistry GatewayOutSession.
From S2P Require Import GatewayOutSessionProofs.
Local Open Scope Z_scope.

(** [phase] proves a [phase_ok] from the [phase_ok] before the operation: both
    sides count pending operations of known kinds. *)
Ltac weigh_all p :=
  repeat rewrite pending_app in *; cbn [pending app concat] in *;
  repeat match goal with
  | |- context [weigh ?k p ?o] =>
      first [rewrite (weigh_at k p o) by reflexivity | rewrite (weigh_other k p o) by discriminate]
  | H : context [weigh ?k p ?o] |- _ => rewrite (weigh_at k p o) in H by reflexivity
  end;
  cbn [closer releaser opener executing busy guardian Z.b2z] in *.

Ltac pending_nonnegs p others :=
  pose proof (pending_nonneg closer p others); pose proof (pending_nonneg releaser p others);
  pose proof (pending_nonneg opener p others); pose proof (pending_nonneg executing p others);
  pose proof (pending_nonneg busy p others); pose proof (pending_nonneg guardian p others).

Ltac phase :=
  repeat match goal with x := _ : requestState |- _ => subst x end;
  match goal with
  | |- phase_ok ?p ?r ?reg (_ :: ?others) -> phase_ok ?p _ _ _ =>
      let Ha := fresh "Ha" in let Hb := fresh "Hb" in let Hc := fresh "Hc" in let Hd := fresh "Hd" in
      let He := fresh "He" in let Hf := fresh "Hf" in let Hg := fresh "Hg" in
      intros [Ha Hb Hc Hd He Hf Hg]; pending_nonnegs p others;
      constructor; weigh_all p;
      cbn [set_flow set_rs_ctxErr set_terminal set_done set_history set_creditChanged log_frames log_outcome log_granted
           log_received log_call rs_terminal rs_done] in *;
      intros;
      destruct (rs_terminal r) eqn:?; try discriminate; destruct (rs_done r) eqn:?; destruct reg eqn:?;
      cbn [andb negb Z.b2z] in *;
      repeat match goal with
      | Hi : true = true -> _ |- _ => specialize (Hi eq_refl)
      | Hi : false = false -> _ |- _ => specialize (Hi eq_refl)
      end; try discriminate; try reflexivity; try lia
  end.

Section steps.
Context `{ProtoRuntime} `{InternalRpc}.

(** The outcome of an operation keeps the invariant. *)
Definition preserves (others : list op) (res : step_result) : Prop :=
  match res with
  | Blocked => True
  | Crash => False
  | Next s ops started => inv s ((ops ++ concat started) ++ others)
  end.

Lemma req_ok_same params r r' :
  rs_requestID r' = rs_requestID r -> rs_route r' = rs_route r -> rs_terminal r' = rs_terminal r -> rs_flow r' = rs_flow r ->
  creditChanged r' = creditChanged r -> rs_history r' = rs_history r -> req_ok params r -> req_ok params r'.
Proof.
  intros Hid Hrt Ht Hf Hc Hh [? ? ? ? ? ? ? ? ? ?].
  constructor; unfold rs_class, body_credit, request_maximum, response_maximum, response_bytes, rs_class in *;
    rewrite ?Hid, ?Hrt, ?Ht, ?Hf, ?Hc, ?Hh; done.
Qed.

(** An operation on the request at [p] that does not change it. *)
Lemma inv_keep s s' o p r new others :
  inv s (o :: others) -> heap (table s) !! p = Some r -> op_ptr o = Some p ->
  same_tables s s' -> output_ok s' ->
  Forall (fun o' => op_ptr o' = Some p /\ op_req (ses_params s) r o' \/
                    op_ptr o' = None /\ op_static (ses_params s) o') new ->
  (phase_ok p r (registered s p r) (o :: others) -> phase_ok p r (registered s p r) (new ++ others)) ->
  inv s' (new ++ others).
Proof.
  intros Hinv Hh Hptr [Hps Ht] Hout Hnew Hph. eapply inv_store; try done.
  - rewrite Ht. unfold set_heap. rewrite insert_id by done. by destruct (table s).
  - apply (i_requests _ _ Hinv p r Hh).
Qed.

Lemma inv_request s o p others :
  inv s (o :: others) -> op_ptr o = Some p ->
  exists r, heap (table s) !! p = Some r /\ op_req (ses_params s) r o /\ req_ok (ses_params s) r /\
    phase_ok p r (registered s p r) (o :: others).
Proof.
  intros Hinv Hp. destruct (Forall_cons_1 _ _ _ (i_ops _ _ Hinv)) as [Ho _]. unfold op_ok in Ho. rewrite Hp in Ho.
  destruct Ho as (r & Hh & Hr). exists r. split_and!; [done|done|apply (i_requests _ _ Hinv p r Hh)..].
Qed.


(** ** Pending operations that an operation leaves alone *)

Lemma others_not k s o p r others o' :
  phase_ok p r (registered s p r) (o :: others) -> op_ptr o = Some p ->
  pending k p (o :: others) <= Z.b2z (k o) -> o' ∈ others -> op_ptr o' = Some p -> k o' = false.
Proof.
  intros _ Ho Hk Hin Hp. simpl in Hk. rewrite (weigh_at k p o Ho) in Hk. pose proof (pending_nonneg k p others).
  eapply pending_zero; [|done..]. lia.
Qed.

(** A closing operation runs alone. *)
Lemma lone_closer s o p r others o' :
  phase_ok p r (registered s p r) (o :: others) -> op_ptr o = Some p -> closer o = true ->
  o' ∈ others -> op_ptr o' = Some p -> closer o' = false.
Proof.
  intros Hph Ho Hk. eapply others_not; [done..|]. rewrite Hk, (ph_close _ _ _ _ Hph).
  destruct (rs_terminal r), (rs_done r); simpl; lia.
Qed.

(** There is no closing operation on a live request. *)
Lemma live_no_closer s o p r others o' :
  phase_ok p r (registered s p r) (o :: others) -> op_ptr o = Some p -> rs_terminal r = false ->
  o' ∈ others -> op_ptr o' = Some p -> closer o' = false.
Proof.
  intros Hph Ho Ht. eapply others_not; [done..|]. rewrite (ph_close _ _ _ _ Hph), Ht. destruct (closer o); simpl; lia.
Qed.

(** While a request is opened, nothing else works on it. *)
Lemma lone_opener s o p r others o' :
  phase_ok p r (registered s p r) (o :: others) -> op_ptr o = Some p -> opener o = true ->
  o' ∈ others -> op_ptr o' = Some p -> opener o' = false /\ busy o' = false.
Proof.
  intros Hph Ho Hk Hin Hp. pose proof (ph_open _ _ _ _ Hph) as Hop. cbn [pending] in Hop.
  rewrite !(weigh_at _ p o Ho), Hk in Hop. cbn in Hop. pose proof (pending_nonneg opener p others).
  pose proof (pending_nonneg busy p others). destruct Hop as [Hop|[Hop Hb]]; [lia|].
  split; (eapply pending_zero; [|done..]); [lia|]. destruct (busy o); simpl in Hb; lia.
Qed.

(** A request with other work is not being opened. *)
Lemma busy_no_opener s o p r others o' :
  phase_ok p r (registered s p r) (o :: others) -> op_ptr o = Some p -> busy o = true ->
  o' ∈ others -> op_ptr o' = Some p -> opener o' = false.
Proof.
  intros Hph Ho Hk Hin Hp. pose proof (ph_open _ _ _ _ Hph) as Hop. cbn [pending] in Hop.
  rewrite !(weigh_at _ p o Ho), Hk in Hop. cbn in Hop. pose proof (pending_nonneg opener p others).
  pose proof (pending_nonneg busy p others). destruct Hop as [Hop|[Hop Hb]]; [|lia].
  eapply pending_zero; [|done..]. destruct (opener o); simpl in Hop; lia.
Qed.

Lemma lone_execute s o p r others o' :
  phase_ok p r (registered s p r) (o :: others) -> op_ptr o = Some p -> executing o = true ->
  o' ∈ others -> op_ptr o' = Some p -> executing o' = false.
Proof. intros Hph Ho Hk. eapply others_not; [done..|]. rewrite Hk. apply (ph_execute _ _ _ _ Hph). Qed.

Lemma idle_req params r o : opener o = false -> busy o = false -> op_req params r o.
Proof. by destruct o. Qed.

(** The operations that are neither opening nor closing rely on the body only. *)
Lemma body_req params r r' o :
  opener o = false -> closer o = false -> (halfClosed (rs_flow r) = true -> halfClosed (rs_flow r') = true) ->
  (halfClosed (rs_flow r) = true -> executing o = false \/
     received (rs_history r') = received (rs_history r) /\ calls (rs_history r') = calls (rs_history r)) ->
  op_req params r o -> op_req params r' o.
Proof.
  intros Ho Hc Hh He. destruct o; try done; simpl.
  - intros (Hhc & -> & Hcalls). destruct (He Hhc) as [|[-> ->]]; [done|]. auto.
  - intros (? & Hr & ?). auto.
Qed.

(** ** The operations on a request *)

Lemma end_ctx_same s r e : exists e', end_request_ctx s r e = set_rs_ctxErr r e'.
Proof.
  unfold end_request_ctx. destruct (request_ctxErr s r); [|by eexists].
  exists (rs_ctxErr r). by destruct r.
Qed.

Lemma end_ctx_ok s p e others :
  inv s (CancelContext p :: others) ->
  preserves others (with_request s p (fun r => Next (store s p (end_request_ctx s r e)) [] [])).
Proof.
  intros Hinv. destruct (inv_request _ _ p _ Hinv eq_refl) as (r & Hh & _ & Hreq & _).
  unfold with_request. rewrite Hh. cbn [preserves concat]. destruct (end_ctx_same s r e) as [e' ->].
  eapply inv_store; eauto with tunnel_out; try done; [by apply (req_ok_same _ r)|phase].
Qed.

Lemma watch_ok i s p others : inv s (Watch p :: others) -> preserves others (with_request s p (watchRequest i s p)).
Proof.
  intros Hinv. destruct (inv_request _ _ p _ Hinv eq_refl) as (r & Hh & _ & Hreq & Hph).
  unfold with_request. rewrite Hh. unfold watchRequest, select_step.
  destruct (select_ready _ _) as [x|] eqn:Hsel; [|done]. apply select_ready_elem, elem_of_app in Hsel. simpl.
  destruct Hsel as [Hsel|Hsel].
  - destruct (rs_done r) eqn:Hd; [|by apply elem_of_nil in Hsel]. apply list_elem_of_singleton in Hsel as ->.
    cbn [preserves concat]. pose proof (ph_done _ _ _ _ Hph Hd).
    eapply inv_keep; eauto with tunnel_out; try done. phase.
  - destruct (request_ctxErr s r); [|by apply elem_of_nil in Hsel]. apply list_elem_of_singleton in Hsel as ->.
    cbn [preserves concat]. eapply inv_keep; eauto with tunnel_out; try done; [|phase].
    constructor; [|done]. left. split; [done|]. split; [case_bool_decide; done|]. by split.
Qed.

Lemma abort_ok s p others : inv s (Abort p :: others) -> preserves others (with_request s p (abortRequest s p)).
Proof.
  intros Hinv. destruct (inv_request _ _ p _ Hinv eq_refl) as (r & Hh & _ & Hreq & Hph).
  unfold with_request. rewrite Hh. unfold abortRequest. destruct (rs_terminal r) eqn:Ht; cbn [preserves concat].
  - eapply inv_keep; eauto with tunnel_out; try done. phase.
  - eapply inv_store; eauto with tunnel_out; try done.
    + destruct Hreq. by constructor.
    + by repeat constructor; left.
    + phase.
Qed.

Lemma close_ok s p others : inv s (Close p :: others) -> preserves others (with_request s p (close_request s p)).
Proof.
  intros Hinv. destruct (inv_request _ _ p _ Hinv eq_refl) as (r & Hh & _ & Hreq & Hph).
  unfold with_request. rewrite Hh. unfold close_request.
  assert (Ht : rs_terminal r = true /\ rs_done r = false).
  { pose proof (ph_close _ _ _ _ Hph) as Hc. cbn [pending] in Hc. rewrite (weigh_at closer p (Close p)) in Hc by done.
    pose proof (pending_nonneg closer p others). cbn in Hc. destruct (rs_terminal r), (rs_done r); cbn in Hc; done || lia. }
  destruct Ht as [Ht Hd]. rewrite Hd. cbn [preserves concat].
  destruct (end_ctx_same s (set_flow r (set_requestBytes (rs_flow r) [])) Canceled) as [e ->].
  eapply inv_store; eauto with tunnel_out; try done; [|phase]. destruct Hreq. constructor; try done.
  simpl. congruence.
Qed.

Lemma request_spec params r :
  params_wf params -> req_ok params r ->
  spec_wf (rt_spec (rs_route r)) /\ (rs_class r = TRAFFIC_CLASS_CONTROL_AUTH \/ rs_class r = TRAFFIC_CLASS_REGULAR).
Proof.
  intros Hp Hr. destruct (reg_keys _ (pw_registry _ Hp) _ _ (rq_route _ _ Hr)) as [_ Hs]. split; [done|].
  destruct Hs as ([[_ Hc]|[[_ Hc]|[_ Hc]]] & Hn & _); unfold rs_class; rewrite Hc; [by left|by right|done].
Qed.

Lemma execute_ok i s p payload others :
  inv s (Execute p payload :: others) ->
  preserves others (with_request s p (fun r =>
    let '(response, code) := invoke (in_world i) (rs_call r) (rs_route r) payload in
    Next (store s p (log_call r payload)) [Complete p response (resultCode code)] [])).
Proof.
  intros Hinv. destruct (inv_request _ _ p _ Hinv eq_refl) as (r & Hh & (Hhc & -> & Hcalls) & Hreq & Hph).
  unfold with_request. rewrite Hh. destruct (invoke _ _ _ _) as [response c] eqn:Hi. cbn [preserves concat].
  destruct (request_spec _ _ (i_params _ _ Hinv) Hreq) as [(_ & _ & _ & Hm & _) _].
  apply invoke_bounded in Hi; [|lia].
  eapply inv_store; eauto with tunnel_out; try done.
  - destruct Hreq. constructor; try done. simpl. right. by rewrite Hcalls.
  - intros o' Hin Hp. pose proof (lone_execute s _ p r _ o' Hph eq_refl eq_refl Hin Hp). destruct o'; done.
  - constructor; [|done]. left. split; [done|]. split; [apply resultCode_known|]. split; [done|lia].
  - phase.
Qed.

Lemma credits_no_data fs : Forall is_credit fs -> sent_data fs = [].
Proof.
  induction 1 as [|f fs Hf _ IH]; [done|]. unfold sent_data. cbn [fmap list_fmap concat].
  change (concat (frame_data <$> fs)) with (sent_data fs). rewrite IH, app_nil_r.
  unfold is_credit in Hf. unfold frame_data, GetData_req. by destruct (creq_payload f) as [[]|].
Qed.

Lemma credits_flow fs : Forall is_credit fs -> Forall is_flow fs.
Proof.
  intros Hf. eapply Forall_impl; [exact Hf|]. unfold is_credit, is_flow. intros f. by repeat case_match.
Qed.

Lemma complete_ok s p response code others :
  inv s (Complete p response code :: others) ->
  preserves others (with_request s p (fun r => completeRequest s p r response code)).
Proof.
  intros Hinv. destruct (inv_request _ _ p _ Hinv eq_refl) as (r & Hh & (Hcode & Hhc & Hlen) & Hreq & Hph).
  unfold with_request. rewrite Hh. unfold completeRequest. destruct (rs_terminal r) eqn:Ht.
  { cbn [preserves concat]. eapply inv_keep; eauto with tunnel_out; try done. phase. }
  destruct (rq_live _ _ Hreq Ht) as (Hcr & Hout & Hseq). pose proof (credits_no_data _ Hcr) as Hsent.
  pose proof (credits_flow _ Hcr) as Hflow. cbv zeta.
  set (r' := log_outcome (set_terminal r) (response, code)).
  assert (Hr' : req_ok (ses_params s) r').
  { pose proof (len_nonneg response). destruct Hreq as [? ? Hbody ? ? [Hsub [Hs Hb]] ? Hlive Hshape ?].
    assert (Hresp : response_bytes r' = len response) by done.
    assert (Hresp0 : response_bytes r = 0) by (unfold response_bytes; by rewrite Hout).
    constructor; try done; rewrite ?Hresp.
    - split_and!; try done; change (body_credit r') with (body_credit r); change (rs_flow r') with (rs_flow r); lia.
    - exists (emitted (rs_history r)), []. rewrite app_nil_r. split_and!; [done|done|by left]. }
  assert (Hkeep : forall o', o' ∈ others -> op_ptr o' = Some p -> op_req (ses_params s) r o' -> op_req (ses_params s) r' o').
  { intros o' Hin Hp. pose proof (live_no_closer s _ p r _ o' Hph eq_refl Ht Hin Hp).
    pose proof (busy_no_opener s _ p r _ o' Hph eq_refl eq_refl Hin Hp). apply body_req; try done. by right. }
  destruct ((code =? RESULT_CODE_OK) && (0 <? len response)) eqn:Hok; cbn [preserves concat].
  - go_bool. subst code.
    eapply (inv_store s _ _ p r r'); eauto with tunnel_out; try done; [|phase]. constructor; [|done]. left. split; [done|].
    unfold op_req, responding. change (emitted (rs_history r')) with (emitted (rs_history r)).
    change (rs_flow r') with (rs_flow r). change (body_credit r') with (body_credit r).
    rewrite Hsent. split_and!; try done; [|rewrite len_nil; lia].
    apply Hhc. intros ->. done.
  - eapply (inv_store s _ _ p r r'); eauto with tunnel_out; try done; [|phase]. constructor; [|done]. left. split; [done|].
    unfold op_req. change (emitted (rs_history r')) with (emitted (rs_history r)).
    change (rs_flow r') with (rs_flow r). change (body_credit r') with (body_credit r).
    rewrite Hsent. split_and!; try done.
    + lia.
    + lia.
    + intros ->. simpl in Hok. assert (response = []) as -> by (apply len_zero_nil; pose proof (len_nonneg response); lia). done.
    + assert (response_bytes r' = len response) as -> by done. pose proof (len_nonneg response). lia.
Qed.

(** ** Bounds *)

Lemma MaxMessageBytes_value : MaxMessageBytes = 8388608.
Proof. done. Qed.
Lemma MaxCreditBytes_value : MaxCreditBytes = 1048576.
Proof. done. Qed.

(** The numbers of a request are far below the machine bounds. *)
Lemma request_numbers params r :
  params_wf params -> req_ok params r ->
  0 < request_maximum (sp_limits params) r <= 8388608 /\ 0 < response_maximum (sp_limits params) r <= 8388608 /\
  0 < cl_ReceiveWindowBytes (class_limits (sp_settings params) (rs_class r)) <= 1048576 /\
  0 <= len (received (rs_history r)) /\ 0 <= response_bytes r <= 8388608 /\
  0 <= outgoingSequence (rs_flow r) <= 20000000.
Proof.
  intros Hp Hr. destruct (request_spec params r Hp Hr) as [(_ & _ & Hmr & Hms & _) Hc].
  destruct (pw_limits _ Hp) as (_ & _ & _ & _ & _ & (Hm1 & Hm2) & _). destruct (pw_positive _ Hp) as (Hd & _ & Hcr).
  destruct (pw_classes _ Hp _ Hc) as [Hw _]. rewrite MaxMessageBytes_value, ?MaxCreditBytes_value in *.
  destruct (rq_sequence _ _ Hr) as (_ & Hseq & Hrb). destruct (rq_receive _ _ Hr) as [Hrc Hbc].
  assert (0 <= response_bytes r) by (unfold response_bytes; destruct (outcome _) as [[]|]; [apply len_nonneg|done]).
  pose proof (len_nonneg (received (rs_history r))). unfold request_maximum, response_maximum in *.
  rewrite MaxMessageBytes_value in *. change (2 ^ 23) with 8388608 in *. split_and!; lia.
Qed.

Lemma seqZ_sublist_up l n m : 0 <= n <= m -> sublist l (seqZ 1 n) -> sublist l (seqZ 1 m).
Proof.
  intros Hnm Hl. replace m with (n + (m - n)) by lia. rewrite seqZ_app by lia.
  by apply sublist_inserts_r.
Qed.

(** ** Opening a request *)

Lemma open_credit_ok s p others :
  inv s (OpenCredit p :: others) -> preserves others (with_request s p (open_credit s p)).
Proof.
  intros Hinv. destruct (inv_request _ _ p _ Hinv eq_refl) as (r & Hh & (Hem & Hout & Hrec & Hhc & Hrc) & Hreq & Hph).
  unfold with_request. rewrite Hh. unfold open_credit, enqueueRequestFrame_locked. cbn [preserves concat].
  pose proof (request_numbers _ _ (i_params _ _ Hinv) Hreq) as (Hm & _ & Hw & _).
  destruct (pw_positive _ (i_params _ _ Hinv)) as (_ & _ & Hcr).
  assert (Hg : 0 < initial_grant s r /\ initial_grant s r <= request_maximum (sp_limits (ses_params s)) r /\
    initial_grant s r <= cl_ReceiveWindowBytes (class_limits (sp_settings (ses_params s)) (rs_class r))).
  { unfold initial_grant, request_maximum in *. lia. }
  cbn [set_flow rs_flow set_receiveCredit outgoingSequence]. rewrite Hout. change (u64 (0 + 1)) with 1.
  eapply inv_store; eauto with tunnel_out; try done.
  - destruct Hreq as [? ? Hbody ? Hsend [Hsub [Hs Hb]] ? Hlive Hshape ?].
    constructor; try done; cbn [set_flow set_outgoing set_receiveCredit rs_flow receiveCredit outgoingSequence rs_history rs_terminal];
      unfold body_credit; cbn [set_flow set_outgoing set_receiveCredit rs_flow receiveCredit rs_history]; rewrite ?Hrec, ?Hem.
    + change (rs_class _) with (rs_class r). change (request_maximum _ _) with (request_maximum (sp_limits (ses_params s)) r).
      change (len (@nil Z)) with 0. lia.
    + split_and!; [apply sublist_nil_l|lia| |done].
      change (len (@nil Z)) with 0. change (response_bytes _) with (response_bytes r).
      assert (0 <= response_bytes r) by (unfold response_bytes; destruct (outcome _) as [[]|]; [apply len_nonneg|done]). lia.
    + intros Ht. destruct (Hlive Ht) as (? & ? & ?). split_and!; [by constructor|done|]. change (len (@nil Z)) with 0. lia.
    + split; [by constructor|]. change (sent_credit []) with 0. change (len (@nil Z)) with 0. lia.
  - intros o' Hin Hp. destruct (lone_opener s _ p r _ o' Hph eq_refl eq_refl Hin Hp). by intros _; apply idle_req.
  - constructor; [|done]. left. split; [done|]. split_and!; done.
  - phase.
Qed.

(** ** Frames of a request *)

Lemma sent_data_app a b : sent_data (a ++ b) = sent_data a ++ sent_data b.
Proof. unfold sent_data. by rewrite fmap_app, concat_app. Qed.

Lemma sent_data_one f : sent_data [f] = frame_data f.
Proof. unfold sent_data. simpl. apply app_nil_r. Qed.

Lemma sent_credit_app a b : sent_credit (a ++ b) = sent_credit a + sent_credit b.
Proof. unfold sent_credit. rewrite fmap_app. induction (frame_credit <$> a) as [|n l IH]; simpl; lia. Qed.

Lemma sent_credit_one f : sent_credit [f] = frame_credit f.
Proof. unfold sent_credit. simpl. lia. Qed.

(** A queue accepted the frame that carries the last number. *)
Lemma req_ok_emit params r f :
  req_ok params r -> sendable params f -> frame_seq f = outgoingSequence (rs_flow r) -> 0 < outgoingSequence (rs_flow r) ->
  sublist (frame_seq <$> emitted (rs_history r)) (seqZ 1 (outgoingSequence (rs_flow r) - 1)) ->
  Forall is_flow (emitted (rs_history r)) -> is_flow f -> (rs_terminal r = false -> is_credit f) ->
  len (sent_data (emitted (rs_history r))) + len (frame_data f) + sendCredit (rs_flow r) <= granted (rs_history r) ->
  0 <= frame_credit f -> sent_credit (emitted (rs_history r)) + frame_credit f <= body_credit r ->
  req_ok params (log_frames r [f]).
Proof.
  intros Hreq Hf Hseq Hpos Hsub Hflow Hff Hcr Hsent Hpc Hgrant.
  destruct Hreq as [? ? ? ? Hsend [_ [Hs Hb]] Hall Hlive _ ? [Hcf Hcs]]. constructor; try done;
    cbn [log_frames set_history rs_history emitted rs_terminal rs_flow].
  - rewrite sent_data_app, sent_data_one, len_app. split; [apply Hsend|]. cbn [granted]. lia.
  - split; [|split; [exact Hs|exact Hb]]. rewrite fmap_app. replace (outgoingSequence (rs_flow r)) with (outgoingSequence (rs_flow r) - 1 + 1) by lia.
    rewrite seqZ_snoc, (Z.add_comm 1) by lia. apply sublist_app; [done|]. cbn [fmap list_fmap]. rewrite Hseq.
    by replace (outgoingSequence (rs_flow r) - 1 + 1) with (outgoingSequence (rs_flow r)) by lia.
  - apply Forall_app. by split; [|constructor].
  - intros Ht. destruct (Hlive Ht) as (? & ? & ?). split_and!; [|done|done].
    apply Forall_app. split; [done|]. constructor; [by apply Hcr|done].
  - exists (emitted (rs_history r) ++ [f]), []. rewrite app_nil_r. split_and!; [done| |by left].
    apply Forall_app. by split; [|constructor].
  - split; [apply Forall_app; by split; [|constructor]|]. by rewrite sent_credit_app, sent_credit_one.
Qed.

Lemma open_queue_ok i s p frame others :
  inv s (OpenQueue p frame :: others) ->
  preserves others (with_request s p (fun r =>
    on_result (enqueue_request (in_choice i) s (ctxErr (life s)) p r [frame])
      (fun s => Next s [] [[Watch p]]) (fun s _ => Next s [Abort p] []))).
Proof.
  intros Hinv. destruct (inv_request _ _ p _ Hinv eq_refl) as (r & Hh & (Hem & Hout & Hhc & Hfr) & Hreq & Hph).
  unfold with_request. rewrite Hh. destruct (enqueue_request _ _ _ _ _ _) as [s' res] eqn:He.
  apply enqueue_request_cases in He as [(s1 & (Hp1 & Ht1 & _) & Ho1 & -> & -> & Hsend)|[-> [e ->]]];
    [| |by eapply inv_output]; cbn [on_result preserves concat app].
  - apply Forall_cons in Hsend as [Hsend _].
    eapply (inv_store s _ _ p r (log_frames r [frame]) [Watch p]); eauto with tunnel_out; try done.
    + cbn. by rewrite Ht1.
    + apply req_ok_emit; try done; subst frame; rewrite ?Hem, ?Hout; try done.
      * change (len (sent_data [])) with 0. change (len (frame_data _)) with 0.
        destruct (rq_send _ _ Hreq) as [_ Hsd]. rewrite Hem in Hsd. change (len (sent_data [])) with 0 in Hsd. lia.
      * apply u32_nonneg.
      * change (sent_credit []) with 0. change (frame_credit _) with (u32 (receiveCredit (rs_flow r))).
        destruct (rq_receive _ _ Hreq) as [Hrc _]. pose proof (u32_le (receiveCredit (rs_flow r)) ltac:(lia)).
        unfold body_credit. pose proof (len_nonneg (received (rs_history r))). lia.
    + intros o' Hin Hp. destruct (lone_opener s _ p r _ o' Hph eq_refl eq_refl Hin Hp). by intros _; apply idle_req.
    + constructor; [|done]. by left.
    + phase.
  - change ([Abort p] ++ []) with [Abort p]. eapply (inv_keep s s _ p r [Abort p]); eauto with tunnel_out; try done.
    + constructor; [|done]. by left.
    + phase.
Qed.

(** ** The body of a request *)

(** What a live request that is not being opened shares with its next state. *)
Lemma live_keep s o p r r' others o' :
  phase_ok p r (registered s p r) (o :: others) -> op_ptr o = Some p -> busy o = true -> rs_terminal r = false ->
  halfClosed (rs_flow r) = false -> o' ∈ others -> op_ptr o' = Some p ->
  op_req (ses_params s) r o' -> op_req (ses_params s) r' o'.
Proof.
  intros Hph Ho Hb Ht Hhc Hin Hp. apply body_req.
  - by eapply busy_no_opener.
  - by eapply live_no_closer.
  - congruence.
  - congruence.
Qed.

Lemma half_close_ok s p others :
  inv s (HalfCloseLocked p :: others) -> preserves others (with_request s p (handleHalfClose_locked s p)).
Proof.
  intros Hinv. destruct (inv_request _ _ p _ Hinv eq_refl) as (r & Hh & _ & Hreq & Hph).
  unfold with_request. rewrite Hh. unfold handleHalfClose_locked, receive_failed.
  destruct (halfClosed (rs_flow r) || rs_terminal r) eqn:Hg; cbn [preserves concat app].
  - eapply (inv_keep s s _ p r [_]); eauto with tunnel_out; try done; [|phase]. constructor; [|done]. by right.
  - go_bool. eapply (inv_store s _ _ p r _ [Execute p (requestBytes (rs_flow r))]); eauto with tunnel_out; try done.
    + destruct Hreq as [? ? Hbody Hcalls ? ? ? ? ? ?]. constructor; try done.
      cbn. destruct Hcalls as [?|[? ?]]; [by left|congruence].
    + intros o' Hin Hp. by eapply live_keep.
    + constructor; [|done]. left. split; [done|]. destruct Hreq as [? ? Hbody Hcalls ? ? ? ? ? ?].
      cbn. split_and!; [done|by apply Hbody|]. destruct Hcalls as [?|[? ?]]; [done|congruence].
    + pose proof (pending_nonneg executing p others).
      assert (Hex : pending executing p others = 0).
      { destruct (decide (0 < pending executing p others)) as [Hpos|]; [|lia].
        apply pending_pos in Hpos as (o' & Hin & Hp & Hk). destruct o'; try done.
        pose proof (i_ops _ _ Hinv) as Hall. rewrite Forall_cons, Forall_forall in Hall. destruct Hall as [_ Hall].
        specialize (Hall _ Hin). unfold op_ok in Hall. rewrite Hp in Hall. destruct Hall as (x & Hx & (Hxc & _)). congruence. }
      phase.
Qed.

(** The credit that [handleData] grants keeps the window and the size limit, and
    none of its subtractions wraps. *)
Lemma data_credit params r size :
  params_wf params -> req_ok params r -> rs_terminal r = false -> halfClosed (rs_flow r) = false ->
  0 <= size <= receiveCredit (rs_flow r) ->
  let maximum := request_maximum (sp_limits params) r in
  let window := cl_ReceiveWindowBytes (class_limits (sp_settings params) (rs_class r)) in
  let body := len (requestBytes (rs_flow r)) + size in
  let credit := receiveCredit (rs_flow r) - size in
  u64 body = body /\ body <= maximum /\ u64 credit = credit /\ 0 <= credit /\
  u64 (u64 (maximum - body) - credit) = maximum - body - credit /\ 0 <= maximum - body - credit /\
  u64 (window - credit) = window - credit /\ 0 <= window - credit.
Proof.
  intros Hp Hr Ht Hh Hsize maximum window body credit.
  pose proof (request_numbers _ _ Hp Hr) as (Hm & _ & Hw & Hrec & _). fold maximum in Hm. fold window in Hw.
  destruct (rq_receive _ _ Hr) as [Hrc Hbc]. fold maximum in Hbc. fold window in Hrc. unfold body_credit in Hbc.
  assert (Hb : len (requestBytes (rs_flow r)) = len (received (rs_history r))) by (by rewrite (rq_body _ _ Hr Ht Hh)).
  unfold body, credit. rewrite Hb. rewrite !u64_small; rewrite ?u64_small; lia.
Qed.

Lemma data_ok i s p payload others :
  inv s (DataLocked p payload :: others) ->
  preserves others (with_request s p (fun r => handleData_locked i s p r payload)).
Proof.
  intros Hinv. destruct (inv_request _ _ p _ Hinv eq_refl) as (r & Hh & _ & Hreq & Hph).
  unfold with_request. rewrite Hh. unfold handleData_locked.
  assert (Hfail : forall e, preserves others (receive_failed s e)).
  { intros e. unfold receive_failed. cbn [preserves concat app].
    eapply (inv_keep s s _ p r [_]); eauto with tunnel_out; try done; [|phase]. constructor; [|done]. by right. }
  destruct (halfClosed (rs_flow r) || rs_terminal r) eqn:Hg; [apply Hfail|]. go_bool.
  destruct (Z.ltb_spec (receiveCredit (rs_flow r)) (len payload)) as [|Hsize]; [apply Hfail|].
  pose proof (len_nonneg payload) as Hnn. pose proof (i_params _ _ Hinv) as Hp.
  destruct (data_credit _ r (len payload) Hp Hreq) as (Hu1 & Hle & Hu2 & Hc0 & Hu3 & Hr0 & Hu4 & Hw0); [done..|].
  pose proof (request_numbers _ _ Hp Hreq) as (Hm & _ & Hw & _ & _ & Hseqb).
  destruct (rq_receive _ _ Hreq) as [Hrc Hbc]. pose proof (rq_body _ _ Hreq ltac:(done) ltac:(done)) as Hbody.
  cbv zeta. rewrite Hu1. destruct (Z.ltb_spec (request_maximum (sp_limits (ses_params s)) r)
    (len (requestBytes (rs_flow r)) + len payload)) as [|_]; [lia|].
  rewrite len_app, Hu2, Hu3, Hu4.
  set (grant := _ `min` _ `min` _). set (credit := receiveCredit (rs_flow r) - len payload) in *.
  assert (Hgr : 0 <= grant /\ grant <= request_maximum (sp_limits (ses_params s)) r -
     (len (requestBytes (rs_flow r)) + len payload) - credit /\
     grant <= cl_ReceiveWindowBytes (class_limits (sp_settings (ses_params s)) (rs_class r)) - credit).
  { destruct (pw_positive _ Hp) as (_ & _ & ?). unfold grant. lia. }
  set (r1 := log_received _ payload).
  assert (Hkeep : forall r' o', o' ∈ others -> op_ptr o' = Some p -> op_req (ses_params s) r o' -> op_req (ses_params s) r' o').
  { intros r' o' Hin Hop. by eapply live_keep. }
  (* the request after the data, with any credit and number in the allowed range *)
  assert (Hbc' : forall g n, body_credit (set_flow r1 (set_outgoing (set_receiveCredit (rs_flow r1) (credit + g)) n)) = body_credit r + g).
  { intros g n. unfold body_credit, r1, credit. cbn. rewrite len_app. lia. }
  assert (Hnew : forall g n, 0 <= g <= grant -> outgoingSequence (rs_flow r) <= n <= outgoingSequence (rs_flow r) + g ->
    req_ok (ses_params s) (set_flow r1 (set_outgoing (set_receiveCredit (rs_flow r1) (credit + g)) n))).
  { intros g n Hgg Hn. destruct (rq_live _ _ Hreq ltac:(done)) as (Hcr & Hout & Hbound).
    unfold body_credit in Hbc. rewrite <- Hbody in Hbc.
    destruct Hreq as [? ? ? Hcalls Hsend [Hsub [Hs Hb]] Hall Hlive Hshape ? [Hcf Hcs]]. constructor; try done.
    - split; [change (receiveCredit _) with (credit + g); change (rs_class _) with (rs_class r); lia|]. rewrite Hbc'. change (request_maximum _ _) with (request_maximum (sp_limits (ses_params s)) r).
      unfold body_credit. rewrite <- Hbody. lia.
    - intros _ _. cbn. by rewrite Hbody.
    - cbn. destruct Hcalls as [?|[? ?]]; [by left|congruence].
    - rewrite Hbc'. change (response_bytes _) with (response_bytes r). cbn [set_flow rs_flow set_outgoing outgoingSequence].
      split; [|split; [lia|done]]. eapply seqZ_sublist_up; [|exact Hsub]. lia.
    - intros _. rewrite Hbc'. cbn [set_flow rs_flow set_outgoing outgoingSequence]. split_and!; [done|done|lia].
    - rewrite Hbc'. change (emitted _) with (emitted (rs_history r)). split; [done|]. lia. }
  destruct (grant =? 0) eqn:Hg0.
  - cbn [preserves concat app]. eapply (inv_store s _ _ p r r1 []); eauto with tunnel_out; try done; [|phase].
    assert (Hr1 : r1 = set_flow r1 (set_outgoing (set_receiveCredit (rs_flow r1) (credit + 0)) (outgoingSequence (rs_flow r)))).
    { rewrite Z.add_0_r. done. }
    rewrite Hr1. apply Hnew; lia.
  - apply Z.eqb_neq in Hg0. unfold enqueueRequestFrame_locked. rewrite (u64_small (credit + grant)) by lia.
    cbn [set_flow rs_flow set_receiveCredit outgoingSequence].
    change (outgoingSequence (rs_flow r1)) with (outgoingSequence (rs_flow r)).
    rewrite (u64_small (outgoingSequence (rs_flow r) + 1)) by lia.
    set (r2 := set_flow _ _). set (frame := requestFrame _ _ _ _).
    assert (Hr2 : req_ok (ses_params s) r2) by (apply Hnew; lia).
    destruct (enqueue_request _ _ _ _ _ _) as [s' res] eqn:He.
    apply enqueue_request_cases in He as [(s1 & (Hp1 & Ht1 & _) & Ho1 & -> & -> & Hsend)|[-> [e ->]]];
      [| |apply output_store; by eapply inv_output]; cbn [on_result preserves concat app].
    + apply Forall_cons in Hsend as [Hsend _]. destruct (rq_live _ _ Hreq ltac:(done)) as (Hcr & _ & _).
      eapply (inv_store s _ _ p r (log_frames r2 [frame]) []); eauto with tunnel_out; try done; [|  |phase].
      * cbn. rewrite Ht1. cbn. unfold set_heap. cbn. by rewrite insert_insert_eq.
      * apply req_ok_emit; try done; [cbn; lia| |by apply credits_flow| |apply u32_nonneg|].
        { cbn. replace (outgoingSequence (rs_flow r) + 1 - 1) with (outgoingSequence (rs_flow r)) by lia. apply (rq_sequence _ _ Hreq). }
        { change (len (frame_data _)) with 0. destruct (rq_send _ _ Hreq) as [_ Hsd].
          change (sendCredit (rs_flow r2)) with (sendCredit (rs_flow r)).
          change (granted (rs_history r2)) with (granted (rs_history r)).
          change (emitted (rs_history r2)) with (emitted (rs_history r)). lia. }
        { change (emitted (rs_history r2)) with (emitted (rs_history r)). change (frame_credit _) with (u32 grant).
          pose proof (Hbc' grant (outgoingSequence (rs_flow r) + 1)) as Hb2. change (body_credit _ = _) with (body_credit r2 = body_credit r + grant) in Hb2.
          pose proof (u32_le grant ltac:(lia)). destruct (rq_credit _ _ Hreq). lia. }
    + unfold receive_failed. cbn [preserves concat app].
      eapply (inv_store s _ _ p r r2 [_]); eauto with tunnel_out; try done; [|phase]. constructor; [|done]. by right.
Qed.

(** ** The response of a request *)

Lemma closer_keep s o p r r' others o' :
  phase_ok p r (registered s p r) (o :: others) -> op_ptr o = Some p -> busy o = true -> closer o = true ->
  halfClosed (rs_flow r') = halfClosed (rs_flow r) -> received (rs_history r') = received (rs_history r) ->
  calls (rs_history r') = calls (rs_history r) -> o' ∈ others -> op_ptr o' = Some p ->
  op_req (ses_params s) r o' -> op_req (ses_params s) r' o'.
Proof.
  intros Hph Ho Hb Hc Hh Hr Hca Hin Hp. apply body_req; [by eapply busy_no_opener|by eapply lone_closer|congruence|by right].
Qed.

Lemma closing_terminal s o p r others :
  phase_ok p r (registered s p r) (o :: others) -> op_ptr o = Some p -> closer o = true -> rs_terminal r = true.
Proof.
  intros Hph Ho Hk. pose proof (ph_close _ _ _ _ Hph) as Hc. cbn [pending] in Hc.
  rewrite (weigh_at closer p o Ho), Hk in Hc. pose proof (pending_nonneg closer p others).
  destruct (rs_terminal r); [done|]. cbn in Hc. lia.
Qed.

Lemma failed_code_known s r : 1 <= failed_code s r <= 11 /\ failed_code s r <> RESULT_CODE_OK.
Proof. unfold failed_code. destruct (ctxErr (life s)); [done|]. by case_bool_decide. Qed.

Lemma finish_failed params r p s r0 :
  Forall is_flow (emitted (rs_history r)) -> outgoingSequence (rs_flow r) <= body_credit r + response_bytes r ->
  op_req params r (Finish p (failed_code s r0)).
Proof.
  intros Hf Ho. destruct (failed_code_known s r0) as [Hk Hn]. split_and!; [lia|lia|done| |done]. intros Heq. by rewrite Heq in Hn.
Qed.

Lemma responding_bytes params r rest code :
  responding params r rest code -> response_bytes r = len (sent_data (emitted (rs_history r))) + len rest.
Proof. intros (_ & _ & _ & Ho & _). unfold response_bytes. by rewrite Ho, len_app. Qed.

(** The send credit changes, and nothing else. *)
Lemma req_ok_sendCredit params r n :
  req_ok params r -> 0 <= n <= sendCredit (rs_flow r) -> req_ok params (set_flow r (set_sendCredit (rs_flow r) n)).
Proof.
  intros [? ? ? ? [? Hsd] ? ? ? ? ?] Hn. constructor; try done.
  change (response_maximum _ _) with (response_maximum (sp_limits params) r). cbn [set_flow rs_flow set_sendCredit sendCredit rs_history].
  lia.
Qed.

Lemma respond_ok s p response code others :
  inv s (Respond p response code :: others) ->
  preserves others (with_request s p (fun r => sendResponse s p r response code)).
Proof.
  intros Hinv. destruct (inv_request _ _ p _ Hinv eq_refl) as (r & Hh & Hresp & Hreq & Hph).
  unfold with_request. rewrite Hh. unfold sendResponse. pose proof (i_params _ _ Hinv) as Hp.
  destruct (Z.eqb_spec (len response) 0) as [Hz|Hz]; cbn [preserves concat app].
  { apply len_zero_nil in Hz as ->. destruct Hresp as (Hhc & -> & Hfl & Hout & Hseq). rewrite app_nil_r in Hout.
    eapply (inv_keep s s _ p r [_]); eauto with tunnel_out; try done; [|phase]. constructor; [|done]. left.
    split; [done|]. split_and!; try done. unfold response_bytes. rewrite Hout. lia. }
  pose proof (len_nonneg response). destruct (pw_positive _ Hp) as (Hd & _ & _).
  destruct (rq_send _ _ Hreq) as [Hsc Hgr]. pose proof (request_numbers _ _ Hp Hreq) as (_ & Hrm & _).
  set (n := len response `min` _).
  destruct (Z.leb_spec n (sendCredit (rs_flow r))) as [Hle|Hgt]; cbn [preserves concat app].
  - rewrite u64_small by lia.
    eapply (inv_store s _ _ p r _ [_]); eauto with tunnel_out; try done.
    + apply req_ok_sendCredit; [done|lia].
    + intros o' Hin Hop. by eapply closer_keep.
    + constructor; [|done]. left. split; [done|]. cbn [op_req]. rewrite take_drop. split_and!; [exact Hresp| |].
      * intros He%(f_equal len). rewrite len_take, len_nil in He. lia.
      * cbn [set_flow rs_flow set_sendCredit sendCredit rs_history]. rewrite len_take. lia.
    + phase.
  - eapply (inv_keep s s _ p r [_]); eauto with tunnel_out; try done; [|phase]. constructor; [|done]. left.
    split; [done|]. split; [done|]. unfold chunk_size. fold n. lia.
Qed.

Lemma await_ok i s p response code others :
  inv s (AwaitCredit p response code :: others) ->
  preserves others (with_request s p (fun r => await_credit i s p r response code)).
Proof.
  intros Hinv. destruct (inv_request _ _ p _ Hinv eq_refl) as (r & Hh & [Hresp Hwake] & Hreq & Hph).
  unfold with_request. rewrite Hh. unfold await_credit, select_step.
  destruct (select_ready _ _) as [x|] eqn:Hsel; [|done]. apply select_ready_elem, elem_of_app in Hsel. simpl.
  destruct Hsel as [Hsel|Hsel].
  - unfold try_recv in Hsel. destruct (chan_buf (creditChanged r)) as [|u rest] eqn:Hb; [by apply elem_of_nil in Hsel|].
    apply list_elem_of_singleton in Hsel as ->. cbn [preserves concat app].
    eapply (inv_store s _ _ p r _ [_]); eauto with tunnel_out; try done.
    + destruct Hreq. by constructor.
    + intros o' Hin Hop. by eapply closer_keep.
    + phase.
  - destruct (request_ctxErr s r); [|by apply elem_of_nil in Hsel]. apply list_elem_of_singleton in Hsel as ->.
    cbn [preserves concat app]. eapply (inv_keep s s _ p r [_]); eauto with tunnel_out; try done; [|phase].
    constructor; [|done]. left. split; [done|]. pose proof (responding_bytes _ _ _ _ Hresp) as Hrb.
    destruct Hresp as (_ & _ & Hfl & _ & Hseq). apply finish_failed; [done|]. pose proof (len_nonneg response). lia.
Qed.

Lemma send_chunk_ok s p chunk response code others :
  inv s (SendChunk p chunk response code :: others) ->
  preserves others (with_request s p (fun r =>
    let '(r, frame) := enqueueRequestFrame_locked s r (Req_Data (Some (mkData chunk []))) in
    Next (store s p r) [QueueChunk p frame response code] [])).
Proof.
  intros Hinv. destruct (inv_request _ _ p _ Hinv eq_refl) as (r & Hh & (Hresp & Hne & Hgr) & Hreq & Hph).
  unfold with_request. rewrite Hh. unfold enqueueRequestFrame_locked. cbn [preserves concat app].
  pose proof (request_numbers _ _ (i_params _ _ Hinv) Hreq) as (_ & _ & _ & _ & _ & Hn).
  rewrite u64_small by lia. pose proof (responding_bytes _ _ _ _ Hresp) as Hrb. rewrite len_app in Hrb.
  assert (0 < len chunk) by (destruct chunk; [done|]; rewrite len_cons; pose proof (len_nonneg chunk); lia).
  pose proof (len_nonneg response). destruct Hresp as (Hhc & Hco & Hfl & Hout & Hseq).
  pose proof (closing_terminal s _ p r _ Hph eq_refl eq_refl) as Ht.
  eapply (inv_store s _ _ p r _ [_]); eauto with tunnel_out; try done.
  - destruct Hreq as [? ? ? ? ? [Hsub [Hs Hb]] ? Hlive ? ?]. constructor; try done.
    + change (response_bytes _) with (response_bytes r). change (body_credit _) with (body_credit r).
      cbn [set_flow rs_flow set_outgoing outgoingSequence rs_history]. split; [|split; [lia|done]].
      eapply seqZ_sublist_up; [|exact Hsub]. lia.
    + cbn. congruence.
  - intros o' Hin Hop. by eapply closer_keep.
  - constructor; [|done]. left. split; [done|]. exists chunk.
    change (body_credit _) with (body_credit r). cbn [set_flow rs_flow set_outgoing outgoingSequence rs_history halfClosed sendCredit].
    split_and!; try done; try lia.
    replace (outgoingSequence (rs_flow r) + 1 - 1) with (outgoingSequence (rs_flow r)) by lia. apply (rq_sequence _ _ Hreq).
  - phase.
Qed.

Lemma queue_chunk_ok i s p frame response code others :
  inv s (QueueChunk p frame response code :: others) ->
  preserves others (with_request s p (fun r =>
    on_result (enqueue_request (in_choice i) s (ctxErr (life s)) p r [frame])
      (fun s => Next s [Respond p response code] []) (fun s _ => Next s [Finish p (failed_code s r)] []))).
Proof.
  intros Hinv. destruct (inv_request _ _ p _ Hinv eq_refl) as
    (r & Hh & (chunk & Hne & Hfr & Hhc & Hco & Hfl & Hout & Hseq & Hpos & Hsub & Hgr) & Hreq & Hph).
  assert (Hrb : response_bytes r = len (sent_data (emitted (rs_history r))) + len chunk + len response).
  { unfold response_bytes. rewrite Hout, !len_app. lia. }
  pose proof (len_nonneg response). pose proof (closing_terminal s _ p r _ Hph eq_refl eq_refl) as Ht.
  unfold with_request. rewrite Hh. destruct (enqueue_request _ _ _ _ _ _) as [s' res] eqn:He.
  apply enqueue_request_cases in He as [(s1 & (Hp1 & Ht1 & _) & Ho1 & -> & -> & Hsend)|[-> [e ->]]];
    [| |by eapply inv_output]; cbn [on_result preserves concat app].
  - apply Forall_cons in Hsend as [Hsend _]. assert (Hfd : frame_data frame = chunk) by (by subst frame).
    eapply (inv_store s _ _ p r (log_frames r [frame]) [_]); eauto with tunnel_out; try done.
    + cbn. by rewrite Ht1.
    + apply req_ok_emit; try done; [by subst frame|by subst frame|congruence|by rewrite Hfd|by subst frame|].
      subst frame. change (frame_credit _) with 0. destruct (rq_credit _ _ Hreq). lia.
    + intros o' Hin Hop. by eapply closer_keep.
    + constructor; [|done]. left. split; [done|]. unfold op_req, responding.
      change (body_credit _) with (body_credit r). cbn [log_frames set_history rs_history emitted rs_flow outcome].
      rewrite sent_data_app, sent_data_one, Hfd, len_app, <- app_assoc. split_and!; try done.
      * apply Forall_app. split; [done|]. constructor; [|done]. by subst frame.
      * lia.
    + phase.
  - eapply (inv_keep s s _ p r [_]); eauto with tunnel_out; try done; [|phase]. constructor; [|done]. left. split; [done|].
    apply finish_failed; [done|]. lia.
Qed.

(** The numbers of the last two frames are used, whether or not a queue takes them. *)
Lemma req_ok_numbered params r :
  req_ok params r -> rs_terminal r = true -> outgoingSequence (rs_flow r) <= body_credit r + response_bytes r ->
  req_ok params (set_flow r (set_outgoing (rs_flow r) (outgoingSequence (rs_flow r) + 2))).
Proof.
  intros [? ? ? ? ? [Hsub [Hs Hb]] ? Hlive ? ?] Ht Hseq. constructor; try done; [|cbn; congruence].
  change (response_bytes _) with (response_bytes r). change (body_credit _) with (body_credit r).
  cbn [set_flow rs_flow set_outgoing outgoingSequence rs_history]. split; [|split; [lia|done]].
  eapply seqZ_sublist_up; [|exact Hsub]. lia.
Qed.

Lemma req_ok_finished params r f1 f2 code n :
  req_ok params r -> rs_terminal r = true -> outgoingSequence (rs_flow r) = n + 2 -> 0 <= n ->
  sublist (frame_seq <$> emitted (rs_history r)) (seqZ 1 n) -> Forall is_flow (emitted (rs_history r)) ->
  (code = RESULT_CODE_OK -> outcome (rs_history r) = Some (sent_data (emitted (rs_history r)), RESULT_CODE_OK)) ->
  Forall (sendable params) [f1; f2] -> frame_seq <$> [f1; f2] = [n + 1; n + 2] -> final_frames code [f1; f2] ->
  req_ok params (log_frames r [f1; f2]).
Proof.
  intros Hreq Ht Hn Hn0 Hsub Hfl Hok Hsend Hseqs Hfin.
  assert (Hdata : sent_data [f1; f2] = []).
  { unfold final_frames in Hfin. simpl in Hfin. injection Hfin as H1 H2. unfold sent_data, frame_data, GetData_req. simpl.
    by rewrite H1, H2. }
  assert (Hcredit : sent_credit [f1; f2] = 0).
  { unfold final_frames in Hfin. simpl in Hfin. injection Hfin as H1 H2. unfold sent_credit, frame_credit, GetCredit_req. simpl.
    by rewrite H1, H2. }
  destruct Hreq as [? ? ? ? Hsd [_ [Hs Hb]] Hall Hlive _ ? [Hcf Hcs]]. constructor; try done;
    cbn [log_frames set_history rs_history emitted rs_terminal rs_flow].
  - by rewrite sent_data_app, Hdata, app_nil_r.
  - split; [|split; [exact Hs|exact Hb]]. rewrite fmap_app, Hseqs, Hn. rewrite (seqZ_app 1 n 2) by lia.
    apply sublist_app; [done|]. replace (seqZ (1 + n) 2) with [n + 1; n + 2]; [done|].
    rewrite (seqZ_cons (1 + n)) by lia. rewrite (seqZ_cons (Z.succ (1 + n))) by lia.
    change (seqZ _ (Z.pred (Z.pred 2))) with (@nil Z). f_equal; [lia|]. f_equal. lia.
  - by apply Forall_app.
  - congruence.
  - exists (emitted (rs_history r)), [f1; f2]. split_and!; [done|done|]. right. by exists code.
  - split; [|by rewrite sent_credit_app, Hcredit, Z.add_0_r]. apply Forall_app. split; [done|].
    unfold final_frames in Hfin. simpl in Hfin. injection Hfin as H1 H2. unfold frame_credit, GetCredit_req.
    repeat constructor; by rewrite ?H1, ?H2.
Qed.

Lemma number_two s r a b :
  0 <= outgoingSequence (rs_flow r) <= 20000000 ->
  number_frames s r [a; b] =
    (set_flow r (set_outgoing (rs_flow r) (outgoingSequence (rs_flow r) + 2)),
     [request_frame (ses_params s) r (outgoingSequence (rs_flow r) + 1) a;
      request_frame (ses_params s) r (outgoingSequence (rs_flow r) + 2) b]).
Proof.
  intros Hn. cbn [number_frames enqueueRequestFrame_locked]. unfold enqueueRequestFrame_locked.
  cbn [set_flow rs_flow set_outgoing outgoingSequence]. rewrite (u64_small (_ + 1)) by lia.
  replace (outgoingSequence (rs_flow r) + 1 + 1) with (outgoingSequence (rs_flow r) + 2) by lia.
  rewrite u64_small by lia. done.
Qed.

Lemma finish_ok i s p code others :
  inv s (Finish p code :: others) -> preserves others (with_request s p (fun r => finish i s p r code)).
Proof.
  intros Hinv. destruct (inv_request _ _ p _ Hinv eq_refl) as (r & Hh & (Hcode & Hfl & Hok & Hseq) & Hreq & Hph).
  unfold with_request. rewrite Hh. pose proof (request_numbers _ _ (i_params _ _ Hinv) Hreq) as (_ & _ & _ & _ & _ & Hn).
  pose proof (closing_terminal s _ p r _ Hph eq_refl eq_refl) as Ht.
  unfold finish, enqueueRequestFrames. rewrite number_two by done.
  set (r2 := set_flow r _). set (f1 := request_frame _ r _ _). set (f2 := request_frame _ r _ _).
  pose proof (req_ok_numbered _ _ Hreq Ht Hseq) as Hreq2. fold r2 in Hreq2.
  destruct (enqueue_request _ _ _ _ _ _) as [s' res] eqn:He.
  apply enqueue_request_cases in He as [(s1 & (Hp1 & Ht1 & _) & Ho1 & -> & -> & Hsend)|[-> [e ->]]];
    [| |apply output_store; by eapply inv_output]; cbn [on_result preserves concat app].
  - eapply (inv_store s _ _ p r (log_frames r2 [f1; f2]) [_; _]); eauto with tunnel_out; try done.
    + cbn. rewrite Ht1. cbn. unfold set_heap. cbn. by rewrite insert_insert_eq.
    + apply (req_ok_finished _ _ _ _ code (outgoingSequence (rs_flow r))); try done; [lia|apply (rq_sequence _ _ Hreq)].
    + intros o' Hin Hop. by eapply closer_keep.
    + constructor; [|constructor; [|done]]; by left.
    + phase.
  - eapply (inv_store s _ _ p r r2 [_; _; _]); eauto with tunnel_out; try done.
    + intros o' Hin Hop. by eapply closer_keep.
    + constructor; [by right|]. constructor; [|constructor; [|done]]; by left.
    + phase.
Qed.
End steps.
