(* ===== verification/GatewayOutTables.v ===== *)
(** * The request tables of gateway-out sessions

    The operations that change the maps of a session: reserving and releasing a
    request, and the ring of terminal requests. *)

From S2P Require Import Prelude TunnelContract TunnelValidate TunnelValidateProofs GatewayOutRegistry GatewayOutSession.
From S2P Require Import GatewayOutSessionProofs GatewayOutSteps.
Local Open Scope Z_scope.

Section tables.
Context `{ProtoRuntime} `{InternalRpc}.

(** ** Terminal requests *)

Definition terminal_ok (tr : terminalRequest) : Prop :=
  0 <= tr_sendCredit tr <= tr_maximumCredit tr /\ tr_maximumCredit tr <= MaxMessageBytes.

(** [t'] differs from [t] in its terminal requests only. *)
Definition terminal_only (t t' : request_table) : Prop :=
  requests t' = requests t /\ activeByClass t' = activeByClass t /\ heap t' = heap t.

Lemma table_ok_terminal params t t' :
  table_ok params t -> terminal_only t t' ->
  (NoDup (terminalOrder t') /\ (forall k, k ∈ terminalOrder t' <-> is_Some (terminal t' !! k)) /\
   len (terminalOrder t') <= max_in_flight_requests (sp_limits params) /\
   0 <= terminalNext t' < max_in_flight_requests (sp_limits params)) ->
  (forall k tr, terminal t' !! k = Some tr -> terminal_ok tr) -> table_ok params t'.
Proof.
  intros [Hr Hs Ha Hb _ _] (Hreq & Hact & Hh) Hring Ht.
  assert (Hload : forall c, class_load t' c = class_load t c).
  { intros c. unfold class_load. rewrite Hreq. apply count_if_ext. intros k q _. unfold in_class. by rewrite Hh. }
  constructor; rewrite ?Hreq, ?Hh; try done.
  - intros c. unfold active_count. rewrite Hact, Hload. apply Ha.
  - intros c. rewrite Hload. apply Hb.
Qed.

Lemma addTerminalLocked_ok params t key tr :
  params_wf params -> table_ok params t -> terminal_ok tr ->
  exists t', addTerminalLocked (sp_limits params) t key tr = Ok t' /\ terminal_only t t' /\ table_ok params t'.
Proof.
  intros Hp Ht Htr. destruct (tb_ring _ _ Ht) as (Hnd & Hdom & Hlen & Hnext). unfold addTerminalLocked.
  pose proof (tb_terminal _ _ Ht) as Hall.
  case_bool_decide as Hk.
  { eexists. split_and!; [done..|]. eapply table_ok_terminal; [done..| |]; cbn.
    - split_and!; try done; try lia. intros k. rewrite Hdom, lookup_insert_is_Some.
      destruct (decide (key = k)) as [->|]; naive_solver.
    - by intros k x [[_ <-]|[_ Hx]]%lookup_insert_Some; [|eapply Hall]. }
  assert (Hnk : key ∉ terminalOrder t) by (by rewrite Hdom).
  destruct (Z.ltb_spec (len (terminalOrder t)) (max_in_flight_requests (sp_limits params))) as [Hlt|Hge].
  { eexists. split_and!; [done..|]. eapply table_ok_terminal; [done..| |]; cbn.
    - rewrite len_app, len_cons, len_nil. split_and!; try lia.
      + apply NoDup_app. split_and!; [done| |apply NoDup_singleton]. by intros x Hx ->%list_elem_of_singleton.
      + intros k. rewrite elem_of_app, list_elem_of_singleton, Hdom, lookup_insert_is_Some.
        destruct (decide (key = k)); naive_solver.
    - by intros k x [[_ <-]|[_ Hx]]%lookup_insert_Some; [|eapply Hall]. }
  destruct (lookup_lt_is_Some_2 (terminalOrder t) (Z.to_nat (terminalNext t))) as [oldest Hold].
  { unfold len in *. lia. }
  assert (Hidx : index (E := error) (terminalOrder t) (terminalNext t) = Ok oldest) by (apply index_Ok; [lia|done]).
  rewrite Hidx. cbn [mbind result_bind]. destruct (Z.eqb_spec (max_in_flight_requests (sp_limits params)) 0) as [|_]; [lia|].
  eexists. split_and!; [done..|]. eapply table_ok_terminal; [done..| |]; cbn.
  - split_and!.
    + by eapply NoDup_insert_fresh.
    + intros k. rewrite lookup_insert_is_Some, lookup_delete_is_Some, <- Hdom.
      rewrite (elem_of_insert_NoDup _ _ oldest) by done. destruct (decide (key = k)); naive_solver.
    + unfold len. rewrite length_insert. done.
    + apply Z.mod_pos_bound. lia.
    + apply Z.mod_pos_bound. lia.
  - intros k x [[_ <-]|[_ Hx]]%lookup_insert_Some; [done|]. apply lookup_delete_Some in Hx as [_ Hx]. by eapply Hall.
Qed.

(** An operation on no request that changes the terminal requests only. *)
Lemma inv_terminal s t o new others :
  inv s (o :: others) -> terminal_only (table s) t -> table_ok (ses_params s) t ->
  op_ptr o = None -> Forall (fun o' => op_ptr o' = None /\ op_static (ses_params s) o') new ->
  inv (set_table s t) (new ++ others).
Proof.
  intros [Hpw Hq Hw Ht Hr Ho] (Hreq & _ & Hh) Ht' Hptr Hnew. apply Forall_cons in Ho as [_ Ho].
  assert (Hpend : forall k p, pending k p (new ++ others) = pending k p (o :: others)).
  { intros k p. rewrite pending_app. simpl. rewrite (weigh_other k p o) by (by rewrite Hptr).
    rewrite pending_other; [done|]. eapply Forall_impl; [exact Hnew|]. intros o' [-> _]. done. }
  constructor; try done.
  - cbn. rewrite Hh. intros p r Hp. destruct (Hr p r Hp) as [Hrq [Ha Hb Hc Hd He Hf Hg]]. split; [done|].
    unfold registered in *. cbn. rewrite Hreq. constructor; rewrite ?Hpend; done.
  - apply Forall_app. split.
    + eapply Forall_impl; [exact Hnew|]. intros o' [Hn Hs]. unfold op_ok. by rewrite Hn.
    + eapply Forall_impl; [exact Ho|]. intros o'. unfold op_ok. cbn. by rewrite Hh.
Qed.

Lemma add_terminal_ok s key tr others :
  inv s (AddTerminal key tr :: others) ->
  preserves others (match addTerminalLocked (sp_limits (ses_params s)) (table s) key tr with
                    | Ok t => Next (set_table s t) [] []
                    | _ => Crash
                    end).
Proof.
  intros Hinv. destruct (Forall_cons_1 _ _ _ (i_ops _ _ Hinv)) as [Htr _].
  destruct (addTerminalLocked_ok _ _ key tr (i_params _ _ Hinv) (i_table _ _ Hinv) Htr) as (t & -> & Hon & Ht).
  cbn [preserves concat]. by eapply inv_terminal.
Qed.

Lemma terminal_frame_ok s header credit o others :
  (forall n, credit = Some n -> 0 <= n) ->
  inv s (o :: others) -> op_ptr o = None ->
  preserves others (match handleTerminalFrame (table s) header credit with
                    | None => receive_failed s errProtocol
                    | Some (Ok t) => Next (set_table s t) [] []
                    | Some (Err e) => receive_failed s e
                    | Some Panic => Crash
                    end).
Proof.
  intros Hpos Hinv Ho. unfold handleTerminalFrame.
  assert (Hfail : forall e, preserves others (receive_failed s e)).
  { intros e. unfold receive_failed. cbn [preserves concat app].
    eapply (inv_static s s o [_]); eauto with tunnel_out; try done. by constructor. }
  destruct (terminal (table s) !! requestKey (GetRequestId header)) as [tr|] eqn:Htr; [|apply Hfail].
  destruct (tb_terminal _ _ (i_table _ _ Hinv) _ _ Htr) as [Hc Hm]. rewrite MaxMessageBytes_value in Hm.
  destruct (_ || _ || _); [apply Hfail|]. cbn [mbind result_bind reject_if].
  assert (Hstore : forall tr', terminal_ok tr' -> preserves others (Next (set_table s (mkTable (requests (table s))
    (<[requestKey (GetRequestId header) := tr']> (terminal (table s))) (terminalOrder (table s)) (terminalNext (table s))
    (activeByClass (table s)) (heap (table s)))) [] [])).
  { intros tr' Htr'. cbn [preserves concat]. eapply inv_terminal; try done.
    eapply table_ok_terminal; [apply (i_table _ _ Hinv)|done| |]; cbn.
    - destruct (tb_ring _ _ (i_table _ _ Hinv)) as (? & Hdom & ? & ?). split_and!; try done; try lia.
      intros k. rewrite Hdom, lookup_insert_is_Some. destruct (decide (requestKey (GetRequestId header) = k)) as [<-|]; naive_solver.
    - intros k x [[_ <-]|[_ Hx]]%lookup_insert_Some; [done|]. by eapply (tb_terminal _ _ (i_table _ _ Hinv)). }
  destruct credit as [n|].
  - specialize (Hpos n eq_refl). destruct ((tr_maximumCredit tr <? n) || _) eqn:Hg; [apply Hfail|]. go_bool.
    cbn [mbind result_bind reject_if]. apply Hstore. unfold terminal_ok. cbn. rewrite u64_small in * by lia.
    rewrite MaxMessageBytes_value. lia.
  - cbn [mbind result_bind reject_if]. apply Hstore. unfold terminal_ok. cbn. by rewrite MaxMessageBytes_value.
Qed.

(** ** Releasing a request *)

Lemma class_load_nonneg t c : 0 <= class_load t c.
Proof. apply count_if_nonneg. Qed.

Lemma class_load_delete t k p r c :
  requests t !! k = Some p -> heap t !! p = Some r ->
  count_if (in_class t c) (delete k (requests t)) = class_load t c - (if decide (rs_class r = c) then 1 else 0).
Proof.
  intros Hk Hp. unfold class_load. rewrite (count_if_delete _ _ _ _ Hk). f_equal.
  assert (Hin : in_class t c (k, p) <-> rs_class r = c) by (unfold in_class; cbn; rewrite Hp; naive_solver).
  destruct (decide (in_class t c (k, p))), (decide (rs_class r = c)); tauto.
Qed.

Lemma table_ok_remove params t p r :
  params_wf params -> table_ok params t -> heap t !! p = Some r -> requests t !! rs_key r = Some p ->
  (rs_class r = TRAFFIC_CLASS_CONTROL_AUTH \/ rs_class r = TRAFFIC_CLASS_REGULAR) ->
  table_ok params (mkTable (delete (rs_key r) (requests t)) (terminal t) (terminalOrder t) (terminalNext t)
    (<[rs_class r := u32 (active_count t (rs_class r) - 1)]> (activeByClass t)) (heap t)).
Proof.
  intros Hp [Hr Hs Ha Hb Hring Ht] Hh Hk Hc. set (t' := mkTable _ _ _ _ _ _).
  assert (Hload : forall c, class_load t' c = class_load t c - (if decide (rs_class r = c) then 1 else 0)).
  { intros c. apply (class_load_delete t _ p r c Hk Hh). }
  constructor; cbn [requests heap terminal terminalOrder terminalNext activeByClass]; try done.
  - intros k q Hq. cbn in Hq. apply lookup_delete_Some in Hq as [_ Hq]. by apply Hr.
  - cbn. rewrite map_size_delete_Some by (by eexists). lia.
  - intros c. rewrite Hload. unfold active_count at 1. cbn. specialize (Ha c).
    pose proof (class_load_nonneg t' c) as Hnn. rewrite Hload in Hnn.
    destruct (decide (rs_class r = c)) as [<-|Hne].
    + rewrite lookup_insert_eq. cbn. destruct (pw_classes _ Hp _ Hc) as [_ Hmax]. unfold MaxInFlightRequests in Hmax.
      rewrite Ha in *. apply u32_small. specialize (Hb (rs_class r)). lia.
    + rewrite lookup_insert_ne by done. unfold active_count in Ha. lia.
  - intros c. rewrite Hload. specialize (Hb c). destruct (decide _); lia.
Qed.

Lemma release_ok s p others :
  inv s (Release p :: others) ->
  preserves others (with_request s p (fun r => match release s p r with Ok s => Next s [] [] | _ => Crash end)).
Proof.
  intros Hinv. destruct (inv_request _ _ p _ Hinv eq_refl) as (r & Hh & _ & Hreq & Hph).
  unfold with_request. rewrite Hh.
  assert (Htr : rs_terminal r = true /\ registered s p r = true).
  { pose proof (ph_release _ _ _ _ Hph) as Hr. cbn [pending] in Hr. rewrite (weigh_at releaser p (Release p)) in Hr by done.
    pose proof (pending_nonneg releaser p others). cbn in Hr.
    destruct (rs_terminal r), (registered s p r); cbn in Hr; done || lia. }
  destruct Htr as [Ht Hreg]. unfold registered in Hreg. apply bool_decide_eq_true in Hreg.
  pose proof (i_params _ _ Hinv) as Hp. pose proof (request_spec _ _ Hp Hreq) as [_ Hc].
  pose proof (request_numbers _ _ Hp Hreq) as (_ & Hrm & _). destruct (rq_send _ _ Hreq) as [Hsc _].
  unfold release. rewrite bool_decide_true by done. cbn [negb].
  match goal with |- context [addTerminalLocked _ _ _ ?x] => set (tr := x) end.
  destruct (addTerminalLocked_ok _ _ (rs_key r) tr Hp (i_table _ _ Hinv)) as (t & -> & (Htq & Hta & Hth) & Htok).
  { split; cbn; [lia|]. rewrite MaxMessageBytes_value. lia. }
  cbn [mbind result_bind preserves concat app].
  assert (Hkeys : forall q x, q <> p -> heap (table s) !! q = Some x ->
    bool_decide (delete (rs_key r) (requests t) !! rs_key x = Some q) = registered s q x).
  { intros q x Hne Hx. unfold registered. rewrite Htq. apply bool_decide_ext. destruct (decide (rs_key r = rs_key x)) as [Heq|Hk].
    - rewrite <- Heq, lookup_delete_eq, Hreg. naive_solver.
    - by rewrite lookup_delete_ne. }
  pose proof (i_ops _ _ Hinv) as Hops. apply Forall_cons in Hops as [_ Hops].
  constructor; cbn [set_life set_table ses_params table heap]; try apply Hinv.
  - apply (table_ok_remove _ t p r); [done|done|by rewrite Hth|by rewrite Htq|done].
  - rewrite Hth. intros q x Hx. unfold registered. cbn [set_life set_table table requests].
    destruct (i_requests _ _ Hinv q x Hx) as [Hrq Hpq]. split; [done|]. destruct (decide (q = p)) as [->|Hne].
    + assert (x = r) as -> by congruence. rewrite lookup_delete_eq. rewrite bool_decide_false by done.
      assert (Hreg' : registered s p r = true) by (by apply bool_decide_eq_true). rewrite Hreg' in Hpq.
      destruct Hpq as [Ha Hb Hcc Hd He Hf Hg]. pending_nonnegs p others.
      constructor; weigh_all p; rewrite Ht in *; cbn [andb negb Z.b2z] in *; try lia; try done.
    + rewrite Hkeys by done. destruct Hpq as [Ha Hb Hcc Hd He Hf Hg]. cbn [pending] in *.
      constructor; rewrite ?(weigh_other _ q (Release p)) in * by (cbn; congruence); done.
  - eapply Forall_impl; [exact Hops|]. intros o'. unfold op_ok. cbn [set_life set_table table heap ses_params]. by rewrite Hth.
Qed.

(** ** Reserving a request *)

Lemma new_request_ok params header r open :
  params_wf params -> routes (sp_registry params) !! rt_ID (rt_spec r) = Some r ->
  req_ok params (new_request header r open).
Proof.
  intros Hp Hr. destruct (reg_keys _ (pw_registry _ Hp) _ _ Hr) as [_ Hs].
  assert (Hc : rt_TrafficClass (rt_spec r) = TRAFFIC_CLASS_CONTROL_AUTH \/ rt_TrafficClass (rt_spec r) = TRAFFIC_CLASS_REGULAR).
  { destruct Hs as ([[_ Hc]|[[_ Hc]|[_ Hc]]] & Hn & _); rewrite Hc in *; [by left|by right|done]. }
  destruct (pw_classes _ Hp _ Hc) as [Hw _]. destruct Hs as (_ & _ & Hmr & Hms & _).
  destruct (pw_limits _ Hp) as (_ & _ & _ & _ & _ & (Hm1 & Hm2) & _). destruct (pw_positive _ Hp) as (Hd & _ & Hcr).
  constructor; cbn [new_request rs_route rs_flow rs_history rs_terminal creditChanged receiveCredit sendCredit emitted outcome
    calls received granted outgoingSequence requestBytes chan_cap]; try done.
  - split; [change (rs_class _) with (rt_TrafficClass (rt_spec r)); lia|].
    change (body_credit _) with 0. unfold request_maximum. change (rs_route _) with r. lia.
  - by left.
  - unfold response_maximum. change (rs_route _) with r. change (len (sent_data [])) with 0. lia.
  - exists [], []. split_and!; [done|done|by left].
Qed.

Lemma class_load_insert t k p r c :
  requests t !! k = None -> heap t !! p = None ->
  (forall k' q, requests t !! k' = Some q -> is_Some (heap t !! q)) ->
  count_if (in_class (set_heap t (<[p := r]> (heap t))) c) (<[k := p]> (requests t)) =
    class_load t c + (if decide (rs_class r = c) then 1 else 0).
Proof.
  intros Hk Hp Hall. rewrite count_if_insert by done. f_equal.
  - apply count_if_ext. intros k' q Hq. unfold in_class. cbn. rewrite lookup_insert_ne; [done|].
    intros <-. destruct (Hall _ _ Hq) as [? Hx]. congruence.
  - unfold in_class. destruct (decide _) as [Hd|Hd], (decide (rs_class r = c)) as [Hc|Hc]; try done;
      cbn in Hd; rewrite lookup_insert_eq in Hd; cbn in Hd; congruence.
Qed.

Lemma table_ok_add params t p r :
  params_wf params -> table_ok params t -> heap t !! p = None -> requests t !! rs_key r = None ->
  (rs_class r = TRAFFIC_CLASS_CONTROL_AUTH \/ rs_class r = TRAFFIC_CLASS_REGULAR) ->
  Z.of_nat (size (requests t)) < max_in_flight_requests (sp_limits params) ->
  active_count t (rs_class r) < cl_MaxInFlight (class_limits (sp_settings params) (rs_class r)) ->
  table_ok params (mkTable (<[rs_key r := p]> (requests t)) (terminal t) (terminalOrder t) (terminalNext t)
    (<[rs_class r := u32 (active_count t (rs_class r) + 1)]> (activeByClass t)) (<[p := r]> (heap t))).
Proof.
  intros Hp Ht Hh Hk Hc Hsize Hact. destruct (pw_classes _ Hp _ Hc) as [_ Hmax]. unfold MaxInFlightRequests in Hmax.
  destruct Ht as [Hr Hs Ha Hb Hring Ht]. set (t' := mkTable _ _ _ _ _ _).
  assert (Hload : forall c, class_load t' c = class_load t c + (if decide (rs_class r = c) then 1 else 0)).
  { intros c. apply (class_load_insert t _ p r c Hk Hh). intros k q Hq. destruct (Hr k q Hq) as (x & Hx & _). by eexists. }
  constructor; cbn [requests heap terminal terminalOrder terminalNext activeByClass]; try done.
  - intros k q Hq. cbn in Hq |- *. apply lookup_insert_Some in Hq as [[<- <-]|[Hne Hq]].
    + exists r. by rewrite lookup_insert_eq.
    + destruct (Hr k q Hq) as (x & Hx & Hkx). exists x. rewrite lookup_insert_ne; [done|]. intros <-. congruence.
  - cbn. rewrite map_size_insert_None by done. lia.
  - intros c. rewrite Hload. unfold active_count at 1. cbn. pose proof (Ha c) as Hac. pose proof (class_load_nonneg t c).
    destruct (decide (rs_class r = c)) as [<-|Hne].
    + rewrite lookup_insert_eq. cbn. rewrite Hac in *. apply u32_small. lia.
    + rewrite lookup_insert_ne by done. unfold active_count in Hac. lia.
  - intros c. rewrite Hload. specialize (Hb c). destruct (decide (rs_class r = c)) as [<-|]; [|lia]. rewrite <- Ha. lia.
Qed.

Lemma reserve_ok s header request others :
  inv s (Reserve header request :: others) ->
  preserves others (match reserve s request with
                    | Some (s, p) => Next s [OpenCredit p] []
                    | None => Next s [RejectOpen header RESULT_CODE_RESOURCE_EXHAUSTED] []
                    end).
Proof.
  intros Hinv. pose proof (i_ops _ _ Hinv) as Hops. apply Forall_cons in Hops as [Hst Hops].
  destruct Hst as (rt & Hrt & open & ->). pose proof (i_params _ _ Hinv) as Hp.
  set (r := new_request header rt open). pose proof (new_request_ok _ header rt open Hp Hrt) as Hreq. fold r in Hreq.
  assert (Hrej : preserves others (Next s [RejectOpen header RESULT_CODE_RESOURCE_EXHAUSTED] [])).
  { cbn [preserves concat app]. eapply (inv_static s s _ [_]); eauto with tunnel_out; try done. by constructor. }
  unfold reserve. destruct (draining (life s)); [done|].
  case_bool_decide as Hk; [done|]. apply eq_None_not_Some in Hk. case_bool_decide as Hkt; [done|].
  pose proof (tb_size _ _ (i_table _ _ Hinv)) as Hsz. pose proof (pw_limits _ Hp) as (_ & _ & _ & _ & _ & _ & _ & Hmf & _).
  destruct (Z.leb_spec (max_in_flight_requests (sp_limits (ses_params s))) (u32 (Z.of_nat (size (requests (table s)))))) as [|Hlt]; [done|].
  rewrite u32_small in Hlt by lia.
  destruct (Z.leb_spec (cl_MaxInFlight (class_limits (sp_settings (ses_params s)) (rs_class r))) (active_count (table s) (rs_class r))) as [|Hact]; [done|].
  set (p := fresh (dom (heap (table s)))).
  assert (Hfresh : heap (table s) !! p = None) by (apply not_elem_of_dom, is_fresh).
  pose proof (request_spec _ _ Hp Hreq) as [_ Hc]. cbn [preserves concat app].
  assert (Hnone : Forall (fun o => op_ptr o <> Some p) others).
  { eapply Forall_impl; [exact Hops|]. intros o Ho Hptr. unfold op_ok in Ho. rewrite Hptr in Ho.
    destruct Ho as (x & Hx & _). congruence. }
  constructor; cbn [set_life set_table ses_params table heap requests]; try apply Hinv.
  - by apply table_ok_add; try apply Hinv.
  - intros q x Hx. unfold registered. cbn [set_life set_table table requests].
    apply lookup_insert_Some in Hx as [[<- <-]|[Hne Hx]].
    + split; [done|]. rewrite lookup_insert_eq, bool_decide_true by done.
      pose proof (fun k => pending_other k p _ Hnone) as Hz. constructor; weigh_all p; rewrite ?Hz; cbn; try done; try lia; by right.
    + destruct (i_requests _ _ Hinv q x Hx) as [Hrq Hpq]. split; [done|].
      assert (Hsame : bool_decide (<[rs_key r := p]> (requests (table s)) !! rs_key x = Some q) = registered s q x).
      { unfold registered. apply bool_decide_ext. destruct (decide (rs_key r = rs_key x)) as [Heq|Hkx].
        - rewrite <- Heq, lookup_insert_eq, Hk. naive_solver.
        - by rewrite lookup_insert_ne. }
      rewrite Hsame. destruct Hpq as [Ha Hb Hcc Hd He Hf Hg].
      assert (Hpend : forall k, pending k q (OpenCredit p :: others) = pending k q (Reserve header r :: others)).
      { intros k. cbn [pending]. rewrite (weigh_other k q (OpenCredit p)) by (cbn; congruence). by rewrite (weigh_other k q). }
      constructor; rewrite ?Hpend; done.
  - constructor.
    + exists r. cbn. rewrite lookup_insert_eq. split; [done|]. done.
    + apply Forall_forall. intros o Ho. rewrite Forall_forall in Hops. specialize (Hops o Ho).
      unfold op_ok in *. cbn. destruct (op_ptr o) as [q|]; [|done]. destruct Hops as (x & Hx & Hox). exists x.
      rewrite lookup_insert_ne; [done|]. intros <-. congruence.
Qed.
End tables.
