(* ===== verification/GatewayOutReach.v ===== *)
(** * Reachable states of gateway-out sessions

    The invariant of [GatewayOutSessionProofs] holds after every sequence of
    events of a session and its environment. *)

From S2P Require Import Prelude TunnelContract TunnelValidate TunnelValidateProofs GatewayOutRegistry GatewayOutSession.
From S2P Require Import GatewayOutSessionProofs GatewayOutSteps GatewayOutTables.
Local Open Scope Z_scope.

Section reach.
Context `{ProtoRuntime} `{InternalRpc}.

(** ** The operations on no request *)

Lemma static_next s s' o o' others :
  inv s (o :: others) -> op_ptr o = None -> same_tables s s' -> output_ok s' ->
  op_ptr o' = None -> op_static (ses_params s) o' -> preserves others (Next s' [o'] []).
Proof. intros. cbn [preserves concat app]. eapply (inv_static s s' o [o']); try done. by constructor. Qed.

Lemma static_end s s' o others :
  inv s (o :: others) -> op_ptr o = None -> same_tables s s' -> output_ok s' -> preserves others (Next s' [] []).
Proof. intros. cbn [preserves concat app]. by eapply (inv_static s s' o []). Qed.

(** An operation whose frame is queued or refused. *)
Lemma static_enqueue choice s ctx class q o others ok failed :
  inv s (o :: others) -> op_ptr o = None ->
  (forall s', same_tables s s' -> output_ok s' -> preserves others (ok s')) ->
  (forall e, preserves others (failed s e)) ->
  preserves others (on_result (enqueue choice s ctx class q) ok failed).
Proof.
  intros Hinv Ho Hok Hfail. destruct (enqueue choice s ctx class q) as [s' res] eqn:He.
  apply enqueue_cases in He as ((Hp & Ht & _) & Hout & [[-> _]|[-> [e ->]]]); [| |by eapply inv_output]; cbn.
  - by apply Hok.
  - apply Hfail.
Qed.

Lemma reject_ok i s header code others :
  inv s (RejectOpen header code :: others) -> preserves others (rejectOpen i s header code).
Proof.
  intros Hinv. unfold rejectOpen. eapply static_enqueue; [done|done| |].
  - intros s' [Hp Ht] Hout. eapply static_next; try done. cbn. rewrite Hp.
    destruct (pw_limits _ (i_params _ _ Hinv)) as (_ & _ & _ & _ & _ & (Hm & Hm2) & _).
    destruct (pw_positive _ (i_params _ _ Hinv)) as (Hd & _). rewrite MaxMessageBytes_value.
    change (2 ^ 23) with 8388608 in Hm2. lia.
  - intros e. eapply static_next; eauto with tunnel_out; done.
Qed.

Lemma receive_from_ok s class o others x :
  inv s (o :: others) -> op_ptr o = None -> x ∈ receive_from s class -> preserves others x.
Proof.
  intros Hinv Ho. unfold receive_from, try_recv.
  destruct (inv_output _ _ Hinv) as [Hq Hw]. destruct (Hq class) as (Hcap & Hlen & Hall).
  destruct (chan_buf (queue s class)) as [|q rest] eqn:Hb; [by intros ?%elem_of_nil|].
  intros ->%list_elem_of_singleton. apply Forall_cons in Hall as [Hall Hrest].
  eapply static_next; try done. apply output_set_queue; try done; cbn.
  rewrite len_cons in Hlen. lia.
Qed.

Lemma select_preserves i others ready :
  (forall x, x ∈ ready -> preserves others x) -> preserves others (select_step i ready).
Proof.
  intros Hall. unfold select_step. destruct (select_ready i ready) as [x|] eqn:Hs; [|done].
  apply Hall. by apply select_ready_elem in Hs.
Qed.

Lemma send_next_ok s others : inv s (SendNext :: others) -> preserves others (nextOutbound s).
Proof.
  intros Hinv. unfold nextOutbound.
  destruct (receive_from s TRAFFIC_CLASS_CONTROL_AUTH) as [|x l] eqn:Hr.
  - eapply static_next; eauto with tunnel_out; done.
  - eapply receive_from_ok; [done|done|]. rewrite Hr. by left.
Qed.

(** Membership in the ready cases of a [select]. *)
Ltac ready_case Hin :=
  repeat match type of Hin with _ ∈ _ ++ _ => apply elem_of_app in Hin; destruct Hin as [Hin|Hin] end.
Ltac ready_one Hin :=
  first [by apply elem_of_nil in Hin | apply list_elem_of_singleton in Hin; subst].

Lemma send_select_ok i s others : inv s (SendSelect :: others) -> preserves others (nextOutbound_select i s).
Proof.
  intros Hinv. apply select_preserves. intros x Hin. ready_case Hin; [by eapply receive_from_ok..|].
  destruct (ctxErr (life s)); ready_one Hin. eapply static_next; eauto with tunnel_out; done.
Qed.

Lemma acknowledge_same s sent ok : same_tables s (acknowledge s sent ok) /\ (output_ok s -> output_ok (acknowledge s sent ok)).
Proof. by destruct sent. Qed.

Lemma send_frames_ok i s frames sent others :
  inv s (SendFrames frames sent :: others) -> preserves others (sendLoop_frames i s frames sent).
Proof.
  intros Hinv. pose proof (i_ops _ _ Hinv) as Hops. apply Forall_cons in Hops as [Hst _]. cbn in Hst.
  pose proof (inv_output _ _ Hinv) as Hout. unfold sendLoop_frames. destruct frames as [|f frames].
  - destruct (acknowledge_same s sent true). eapply static_next; eauto; done.
  - apply Forall_cons in Hst as [Hf Hfs]. destruct (in_sendOk i).
    + eapply static_next; try done. destruct Hout as [Hq Hw]. split; [done|]. cbn. apply Forall_app. by split; [|constructor].
    + destruct (acknowledge_same s sent false). eapply static_next; eauto; done.
Qed.

Lemma keepalive_ok i s nonce others : inv s (PingTick nonce :: others) -> preserves others (keepaliveLoop i s nonce).
Proof.
  intros Hinv. apply select_preserves. intros x Hin. ready_case Hin.
  - destruct (ctxErr (life s)); ready_one Hin. eapply static_next; eauto with tunnel_out; done.
  - destruct (in_timer i); ready_one Hin. eapply static_next; eauto with tunnel_out; done.
Qed.

Lemma ping_ok i s nonce others : inv s (SendPing nonce :: others) -> preserves others (send_ping i s nonce).
Proof.
  intros Hinv. unfold send_ping, enqueueTunnelFrame. eapply static_enqueue; [done|done| |].
  - intros s' Hs Hout. by eapply static_next.
  - intros e. eapply static_next; eauto with tunnel_out; done.
Qed.

Lemma wait_pong_ok i s nonce others : inv s (WaitPong nonce :: others) -> preserves others (waitPong i s nonce).
Proof.
  intros Hinv. apply select_preserves. intros x Hin. ready_case Hin.
  - destruct (try_recv (pongs (life s))) as [[v c]|]; ready_one Hin.
    eapply static_next; eauto with tunnel_out; try done; by destruct (v =? nonce).
  - destruct (in_timer i); ready_one Hin. eapply static_next; eauto with tunnel_out; done.
  - destruct (ctxErr (life s)); ready_one Hin. eapply static_next; eauto with tunnel_out; done.
Qed.

Lemma drain_begin_ok i s deadline peer others :
  inv s (DrainBegin deadline peer :: others) -> preserves others (drain_begin i s deadline peer).
Proof.
  intros Hinv. unfold drain_begin. cbv zeta. destruct (drainSent _); eapply static_next; eauto with tunnel_out; done.
Qed.

Lemma drain_queue_ok i s deadline reason others :
  inv s (DrainQueue deadline reason :: others) -> preserves others (drain_queue i s deadline reason).
Proof.
  intros Hinv. unfold drain_queue. eapply static_enqueue; [done|done| |].
  - intros s' Hs Hout. by eapply static_next.
  - intros e. eapply static_end; eauto with tunnel_out; done.
Qed.

Lemma drain_await_ok i s others : inv s (DrainAwait :: others) -> preserves others (drain_await i s).
Proof.
  intros Hinv. apply select_preserves. intros x Hin. ready_case Hin.
  - destruct (try_recv (drainAck (life s))) as [[[] c]|]; ready_one Hin.
    + eapply static_next; eauto with tunnel_out; done.
    + eapply static_end; eauto with tunnel_out; done.
  - destruct (in_ctx i); ready_one Hin. eapply static_end; eauto with tunnel_out; done.
  - destruct (ctxErr (life s)); ready_one Hin. eapply static_end; eauto with tunnel_out; done.
Qed.

Lemma drain_wait_ok s others : inv s (DrainWait :: others) -> preserves others (drain_wait s).
Proof.
  intros Hinv. unfold drain_wait. destruct (_ =? 0);
    [eapply static_end|eapply static_next]; eauto with tunnel_out; done.
Qed.

Lemma drain_select_ok i s others : inv s (DrainSelect :: others) -> preserves others (drain_select i s).
Proof.
  intros Hinv. apply select_preserves. intros x Hin. ready_case Hin.
  - destruct (try_recv (activeChanged (life s))) as [[[] c]|]; ready_one Hin.
    eapply static_next; eauto with tunnel_out; done.
  - destruct (in_ctx i); ready_one Hin. eapply static_next; eauto with tunnel_out; done.
  - destruct (ctxErr (life s)); ready_one Hin. eapply static_end; eauto with tunnel_out; done.
Qed.

Lemma loop_return_ok s l e others : inv s (LoopReturn l e :: others) -> preserves others (loop_return s l e).
Proof.
  intros Hinv. unfold loop_return. destruct (loopErr (life s)).
  - eapply static_end; eauto with tunnel_out; done.
  - cbn [preserves concat app]. eapply (inv_static s _ _ [CancelSession; AbortAll]); eauto with tunnel_out; try done.
    by repeat constructor.
Qed.

Lemma pending_aborts k p ps : k (Abort p) = false -> (forall q, k (Abort q) = false) -> pending k p (Abort <$> ps) = 0.
Proof. intros _ Hk. apply pending_false. apply Forall_fmap, Forall_true. intros q. apply Hk. Qed.

Lemma abort_all_ok s others : inv s (AbortAll :: others) -> preserves others (Next s (abortAll s) []).
Proof.
  intros Hinv. cbn [preserves concat]. rewrite app_nil_r. unfold abortAll. set (ps := (map_to_list _).*2).
  pose proof (i_ops _ _ Hinv) as Hops. apply Forall_cons in Hops as [_ Hops]. constructor; try apply Hinv.
  - intros p r Hh. destruct (i_requests _ _ Hinv p r Hh) as [Hrq [Ha Hb Hc Hd He Hf Hg]]. split; [done|].
    pose proof (pending_nonneg guardian p (Abort <$> ps)). cbn [pending] in *.
    rewrite !(weigh_other _ p AbortAll) in * by done.
    constructor; rewrite ?pending_app, ?(pending_aborts closer p ps), ?(pending_aborts releaser p ps),
      ?(pending_aborts opener p ps), ?(pending_aborts executing p ps), ?(pending_aborts busy p ps) by done; try done.
    intros Ht. specialize (Hg Ht). lia.
  - apply Forall_app. split; [|done]. apply Forall_fmap, Forall_forall. intros p Hp.
    apply list_elem_of_fmap in Hp as ([k q] & -> & Hkq%elem_of_map_to_list).
    destruct (tb_requests _ _ (i_table _ _ Hinv) k q Hkq) as (r & Hr & _). unfold op_ok. cbn. by exists r.
Qed.

Lemma cancel_same s : same_tables s (cancel s) /\ (output_ok s -> output_ok (cancel s)).
Proof. unfold cancel. by destruct (ctxErr (life s)). Qed.

(** ** Every operation *)

Lemma step_op_ok i s o others : inv s (o :: others) -> preserves others (step_op i s o).
Proof.
  intros Hinv. pose proof (inv_output _ _ Hinv) as Hout. destruct o; cbn [step_op].
  - by apply reserve_ok.
  - by apply reject_ok.
  - by apply add_terminal_ok.
  - by apply open_credit_ok.
  - by apply open_queue_ok.
  - by apply data_ok.
  - by apply half_close_ok.
  - eapply terminal_frame_ok; [|done|done]. intros n [= <-].
    pose proof (i_ops _ _ Hinv) as Hops. by apply Forall_cons in Hops as [Hst _].
  - by eapply terminal_frame_ok.
  - by apply end_ctx_ok.
  - unfold enqueueTunnelFrame. eapply static_enqueue; [done|done| |].
    + intros s' Hs Ho. by eapply static_end.
    + intros e. eapply static_next; eauto with tunnel_out; done.
  - by apply loop_return_ok.
  - by apply send_next_ok.
  - by apply send_select_ok.
  - by apply send_frames_ok.
  - by apply keepalive_ok.
  - by apply ping_ok.
  - by apply wait_pong_ok.
  - by apply watch_ok.
  - by apply execute_ok.
  - by apply complete_ok.
  - by apply respond_ok.
  - by apply await_ok.
  - by apply send_chunk_ok.
  - by apply queue_chunk_ok.
  - by apply finish_ok.
  - by apply close_ok.
  - by apply release_ok.
  - by apply abort_ok.
  - by apply drain_begin_ok.
  - by apply drain_queue_ok.
  - by apply drain_await_ok.
  - by apply drain_wait_ok.
  - by apply drain_select_ok.
  - by apply abort_all_ok.
  - destruct (cancel_same s). eapply static_end; eauto; done.
Qed.

(** ** Received frames *)

Lemma inv_dummy s ops : inv s ops -> inv s (CancelSession :: ops).
Proof.
  intros [Hpw Hq Hw Ht Hr Ho]. constructor; try done; [|by constructor].
  intros p r Hh. destruct (Hr p r Hh) as [Hrq [Ha Hb Hc Hd He Hf Hg]]. split; [done|].
  constructor; cbn [pending]; rewrite ?(weigh_other _ p CancelSession) by done; done.
Qed.

Lemma inv_dummy_request s p r ops : heap (table s) !! p = Some r -> inv s ops -> inv s (CancelContext p :: ops).
Proof.
  intros Hp [Hpw Hq Hw Ht Hr Ho]. constructor; try done.
  - intros q x Hh. destruct (Hr q x Hh) as [Hrq [Ha Hb Hc Hd He Hf Hg]]. split; [done|].
    assert (Hz : forall k, k (CancelContext p) = false -> weigh k q (CancelContext p) = 0) by (intros k Hk; unfold weigh; by rewrite Hk).
    constructor; cbn [pending]; rewrite ?Hz by done; done.
  - constructor; [|done]. unfold op_ok. cbn. by exists r.
Qed.

(** The result of [handleFrame] keeps the invariant. *)
Definition accepts_frame (others : list op) (res : session * list op * list (list op)) : Prop :=
  let '(s, ops, started) := res in inv s ((ops ++ concat started) ++ others).

Lemma frame_request_Some s header p r :
  frame_request s header = Some (p, r) -> heap (table s) !! p = Some r.
Proof.
  unfold frame_request. destruct (requests (table s) !! _) as [q|]; [|done]. cbn.
  destruct (heap (table s) !! q) as [x|] eqn:Hx; [|done]. cbn. destruct (_ && _); [|done]. by intros [= <- <-].
Qed.

Section frame.
Context (s : session) (others : list op).
Context (Hinv : inv s others) (Hquiet : forall p, pending opener p others = 0).

Lemma receive_error_ok e : accepts_frame others (s, [LoopReturn ReceiveLoop e], []).
Proof.
  cbn. eapply (inv_static s s CancelSession [_]); try done; [by apply inv_dummy|by eapply inv_output|by constructor].
Qed.

(** A change of the request of a frame, with its next number. *)
Lemma update_ok p r r' n ops :
  heap (table s) !! p = Some r -> rs_requestID r' = rs_requestID r -> rs_route r' = rs_route r ->
  rs_terminal r' = rs_terminal r -> rs_done r' = rs_done r -> req_ok (ses_params s) r' ->
  (forall o, opener o = false -> op_req (ses_params s) r o -> op_req (ses_params s) r' o) ->
  Forall (fun o => op_ptr o = Some p /\ op_req (ses_params s) r' o) ops ->
  Forall (fun o => closer o = false /\ releaser o = false /\ opener o = false /\ executing o = false) ops ->
  inv (store s p (set_flow r' (set_incoming (rs_flow r') n))) (ops ++ others).
Proof.
  intros Hh Hid Hrt Ht Hdn Hrq Hkeep Hops Hkinds. pose proof (inv_dummy_request _ _ _ _ Hh Hinv) as Hd.
  eapply (inv_store s _ (CancelContext p) p r); eauto with tunnel_out; try done.
  - destruct Hrq. by constructor.
  - intros o Hin Hp Hor. apply (Hkeep o) in Hor; [exact Hor|]. eapply pending_zero; [apply Hquiet|done..].
  - eapply Forall_impl; [exact Hops|]. intros o [? ?]. by left.
  - specialize (Hquiet p). rewrite Forall_forall in Hkinds.
    assert (Hz : forall k, (forall o, o ∈ ops -> k o = false) -> pending k p ops = 0).
    { intros k Hk. apply pending_false. by apply Forall_forall. }
    pose proof (Hz closer ltac:(intros o Ho; apply (Hkinds o Ho))). pose proof (Hz releaser ltac:(intros o Ho; apply (Hkinds o Ho))).
    pose proof (Hz opener ltac:(intros o Ho; apply (Hkinds o Ho))). pose proof (Hz executing ltac:(intros o Ho; apply (Hkinds o Ho))).
    pose proof (pending_nonneg guardian p ops).
    intros [Ha Hb Hc Hdd He Hf Hg]. constructor; rewrite ?pending_app; cbn [pending set_flow rs_terminal rs_done] in *;
      rewrite ?(weigh_at _ p (CancelContext p)) in * by done; cbn [closer releaser opener executing busy guardian Z.b2z] in *;
      rewrite ?Ht, ?Hdn; try done; try lia. intros Hn. specialize (Hg Hn). lia.
Qed.
(** A request takes the next number of the peer. *)
Lemma next_number_ok p r n ops :
  heap (table s) !! p = Some r -> Forall (fun o => op_ptr o = Some p /\ op_req (ses_params s) r o) ops ->
  Forall (fun o => closer o = false /\ releaser o = false /\ opener o = false /\ executing o = false) ops ->
  inv (store s p (set_flow r (set_incoming (rs_flow r) n))) (ops ++ others).
Proof. intros Hh Hops Hkinds. apply (update_ok p r); try done. apply (i_requests _ _ Hinv p r Hh). Qed.

Lemma handleData_ok header payload : accepts_frame others (handleData s header payload, []).
Proof.
  unfold handleData, requestForFrame. destruct (frame_request s header) as [[p r]|] eqn:Hf; [|apply receive_error_ok].
  apply frame_request_Some in Hf. cbn [accepts_frame concat app]. apply (next_number_ok p r _ [DataLocked p payload]); try done.
  - by constructor.
  - by constructor.
Qed.

Lemma handleHalfClose_ok header : accepts_frame others (handleHalfClose s header, []).
Proof.
  unfold handleHalfClose, requestForFrame. destruct (frame_request s header) as [[p r]|] eqn:Hf; [|apply receive_error_ok].
  apply frame_request_Some in Hf. cbn [accepts_frame concat app]. apply (next_number_ok p r _ [HalfCloseLocked p]); try done.
  - by constructor.
  - by constructor.
Qed.

Lemma static_frame_ok o : op_ptr o = None -> op_static (ses_params s) o -> accepts_frame others (s, [o], []).
Proof.
  intros Ho Hs. cbn. eapply (inv_static s s CancelSession [o]); try done; [by apply inv_dummy|by eapply inv_output|by constructor].
Qed.

Lemma handleCancel_ok header : accepts_frame others (handleCancel s header, []).
Proof.
  unfold handleCancel, updateRequestForFrame. destruct (frame_request s header) as [[p r]|] eqn:Hf; [|by apply static_frame_ok].
  apply frame_request_Some in Hf. unfold cancel_update. destruct (peerCanceled (rs_flow r)); [by apply static_frame_ok|].
  cbn [mbind result_bind reject_if accepts_frame concat app].
  destruct (i_requests _ _ Hinv p r Hf) as [Hrq _].
  apply (update_ok p r _ _ [CancelContext p; Complete p [] RESULT_CODE_CANCELED]); try done.
  - destruct Hrq. by constructor.
  - repeat constructor; done.
  - repeat constructor; done.
Qed.

Lemma notify_nonempty (c : chan unit) : chan_cap c = 1 -> chan_buf (notify c) <> [] /\ chan_cap (notify c) = 1.
Proof.
  intros Hc. unfold notify, try_send. rewrite Hc. destruct (Z.ltb_spec (len (chan_buf c)) 1) as [Hlt|Hge]; cbn.
  - split; [|done]. by destruct (chan_buf c).
  - split; [|done]. intros Hn. rewrite Hn, len_nil in Hge. lia.
Qed.

Lemma credit_keep params r r' o n :
  rs_requestID r' = rs_requestID r -> rs_route r' = rs_route r -> chan_cap (creditChanged r) = 1 -> 0 <= n ->
  r' = log_granted (set_creditChanged (set_flow r (set_sendCredit (rs_flow r) (sendCredit (rs_flow r) + n)))
         (notify (creditChanged r))) n ->
  opener o = false -> op_req params r o -> op_req params r' o.
Proof.
  intros Hid Hrt Hc Hn -> Ho. destruct o; try done; cbn [op_req].
  - intros [Hr _]. split; [exact Hr|]. intros _. by apply notify_nonempty.
  - intros (Hr & Hne & Hg). split_and!; [exact Hr|done|].
    cbn [log_granted set_history set_creditChanged set_flow rs_flow set_sendCredit sendCredit rs_history emitted granted]. lia.
  - intros (chunk & Hne & Hfr & Hhc & Hco & Hfl & Hout & Hseq & Hpos & Hsub & Hg). exists chunk. split_and!; try done.
    cbn [log_granted set_history set_creditChanged set_flow rs_flow set_sendCredit sendCredit rs_history emitted granted]. lia.
Qed.

Lemma handleCredit_ok header n : 0 <= n -> accepts_frame others (handleCredit s header n, []).
Proof.
  intros Hn. unfold handleCredit, updateRequestForFrame.
  destruct (frame_request s header) as [[p r]|] eqn:Hf; [|by apply static_frame_ok].
  apply frame_request_Some in Hf. unfold credit_update. destruct (i_requests _ _ Hinv p r Hf) as [Hrq _].
  pose proof (request_numbers _ _ (i_params _ _ Hinv) Hrq) as (_ & Hrm & _). destruct (rq_send _ _ Hrq) as [Hsc Hgr].
  destruct ((response_maximum _ r <? n) || _) eqn:Hg; [by apply static_frame_ok|]. go_bool.
  cbn [mbind result_bind reject_if accepts_frame concat app]. rewrite u64_small in * by lia.
  pose proof (rq_chan _ _ Hrq) as Hcap.
  eapply (update_ok p r _ _ []); try done.
  - destruct Hrq. constructor; try done; [|by apply notify_nonempty].
    change (response_maximum _ _) with (response_maximum (sp_limits (ses_params s)) r).
    cbn [log_granted set_history set_creditChanged set_flow rs_flow set_sendCredit sendCredit rs_history emitted granted]. lia.
  - intros o. by eapply credit_keep.
Qed.

Lemma handleOpen_ok now header open : accepts_frame others (s, handleOpen s now header open, []).
Proof.
  unfold handleOpen. destruct (negb _); [by apply static_frame_ok|]. destruct (draining _); [by apply static_frame_ok|].
  destruct (lookup _ _) as [rt|] eqn:Hl; [|by apply static_frame_ok]. cbv zeta.
  repeat (match goal with |- context [if ?c then _ else _] => destruct c; [by apply static_frame_ok|] end).
  apply static_frame_ok; [done|]. cbn. exists rt. split; [|by exists open].
  unfold lookup in Hl. by destruct (reg_keys _ (pw_registry _ (i_params _ _ Hinv)) _ _ Hl) as [-> _].
Qed.

Lemma handleFrame_ok now frame :
  0 <= GetBytes_credit (GetCredit_resp frame) -> accepts_frame others (handleFrame s now frame).
Proof.
  intros Hcr. unfold handleFrame. pose proof (receive_error_ok errProtocol) as Hfail.
  destruct (ValidateGatewayInFrame (Some frame)) as [[]| |]; [|done|done].
  destruct (negb _); [done|]. destruct (negb _); [done|].
  unfold GetCredit_resp in Hcr. destruct (cresp_payload frame) as [[m|m|m|m|m|m|m|m|m]|]; try done.
  - destruct m as [open|]; [apply handleOpen_ok|done].
  - apply handleData_ok.
  - apply handleHalfClose_ok.
  - apply handleCancel_ok.
  - by apply handleCredit_ok.
  - by apply static_frame_ok.
  - cbn. eapply (inv_static s _ CancelSession []); try done; [by apply inv_dummy|by apply output_life; eapply inv_output].
  - destruct m as [drain|]; [|done]. unfold handlePeerDrain. destruct (draining (life s)); cbn.
    + done.
    + eapply (inv_static s _ CancelSession [_; _]); try done;
        [by apply inv_dummy|by apply output_life; eapply inv_output|by repeat constructor].
Qed.
End frame.

(** ** Goroutines *)

(** The operations that open a request; only the receive loop executes them. *)
Definition opening (o : op) : bool :=
  match o with Reserve _ _ | OpenCredit _ | OpenQueue _ _ => true | _ => false end.
Definition no_opening (ops : list op) : Prop := Forall (fun o => opening o = false) ops.

Lemma no_opening_pending p ops : no_opening ops -> pending opener p ops = 0.
Proof. intros Hn. apply pending_false. eapply Forall_impl; [exact Hn|]. by intros []. Qed.

(** An operation starts no opening in another goroutine, and none at all unless it
    belongs to an opening itself. *)
Definition quiet (o : op) (res : step_result) : Prop :=
  match res with
  | Next _ ops started => (opening o = false -> no_opening ops) /\ Forall no_opening started
  | _ => True
  end.

Lemma select_quiet o i ready : Forall (quiet o) ready -> quiet o (select_step i ready).
Proof.
  intros Hall. unfold select_step. destruct (select_ready i ready) as [x|] eqn:Hs; [|done].
  apply select_ready_elem in Hs. rewrite Forall_forall in Hall. by apply Hall.
Qed.

Lemma result_quiet o m ok failed :
  (forall s, quiet o (ok s)) -> (forall s e, quiet o (failed s e)) -> quiet o (on_result m ok failed).
Proof. destruct m as [s [[]|e|]]; simpl; auto. Qed.

Lemma request_quiet o s p k : (forall r, quiet o (k r)) -> quiet o (with_request s p k).
Proof. intros Hk. unfold with_request. by destruct (heap (table s) !! p). Qed.

Lemma next_quiet o s ops started :
  (opening o = false -> no_opening ops) -> Forall no_opening started -> quiet o (Next s ops started).
Proof. done. Qed.

Ltac quiet_tac :=
  repeat first
  [ apply select_quiet | apply request_quiet; intros | apply result_quiet; intros
  | apply Forall_app; split | progress (cbv zeta)
  | match goal with |- context [match ?x with _ => _ end] => destruct x end
  | constructor ]; try done.

Lemma receive_from_quiet o s class : Forall (quiet o) (receive_from s class).
Proof. unfold receive_from. quiet_tac. Qed.

Lemma step_op_quiet i s o : quiet o (step_op i s o).
Proof.
  destruct o; cbn [step_op];
    unfold rejectOpen, open_credit, enqueueRequestFrame_locked, handleData_locked, handleHalfClose_locked, receive_failed,
      completeRequest, sendResponse, await_credit, finish, close_request, abortRequest, watchRequest,
      nextOutbound_select, receive_from, sendLoop_frames, keepaliveLoop, send_ping, waitPong, drain_begin, drain_queue,
      drain_await, drain_wait, drain_select, loop_return; try (quiet_tac; fail).
  - unfold nextOutbound. pose proof (receive_from_quiet SendNext s TRAFFIC_CLASS_CONTROL_AUTH) as Hr.
    destruct (receive_from s TRAFFIC_CLASS_CONTROL_AUTH) as [|x l]; [quiet_tac|]. by apply Forall_cons in Hr as [Hx _].
  - split; [|done]. intros _. by apply Forall_fmap, Forall_true.
Qed.

(** Operations do not touch the goroutines and the parameters of the session. *)
Definition same_frame (s s' : session) : Prop := threads s' = threads s /\ ses_params s' = ses_params s.
Definition keeps_threads (s : session) (res : step_result) : Prop :=
  match res with Next s' _ _ => same_frame s s' | _ => True end.

Lemma enqueue_threads choice s ctx class q : same_frame s (enqueue choice s ctx class q).1.
Proof.
  unfold enqueue. destruct (check_frames _ _); [|done|done]. cbv zeta.
  destruct (select_ready _ _) as [x|] eqn:Hs; [|done]. cbn. apply select_ready_elem in Hs. ready_case Hs.
  - destruct (try_send _ _); ready_one Hs; done.
  - destruct ctx; ready_one Hs; done.
  - destruct (ctxErr _); ready_one Hs; done.
Qed.

Lemma enqueue_request_threads choice s ctx p r fs : same_frame s (enqueue_request choice s ctx p r fs).1.
Proof.
  unfold enqueue_request. destruct fs as [|f fs]; [done|].
  pose proof (enqueue_threads choice s ctx (rs_class r) (mkQueuedFrame f fs false)) as He.
  by destruct (enqueue _ _ _ _ _) as [s' [[]| |]].
Qed.

Lemma enqueue_stored_threads choice s ctx p r q x fs : same_frame s (enqueue_request choice (store s q x) ctx p r fs).1.
Proof. apply (enqueue_request_threads _ (store s q x)). Qed.

Lemma enqueueRequestFrames_threads choice s p r ps : same_frame s (enqueueRequestFrames choice s p r ps).1.
Proof. unfold enqueueRequestFrames. destruct (number_frames s r ps). apply enqueue_stored_threads. Qed.

Lemma release_threads s p r s' : release s p r = Ok s' -> same_frame s s'.
Proof.
  unfold release. destruct (negb _); [by intros [= <-]|]. rewrite bind_Ok. intros (x & Hx & [= <-]).
  apply bind_Ok in Hx as (t & _ & [= <-]). done.
Qed.

Lemma reserve_threads s r s' p : reserve s r = Some (s', p) -> same_frame s s'.
Proof. unfold reserve. repeat case_match; intros; simplify_eq; done. Qed.

Lemma result_keeps s m ok failed :
  same_frame s m.1 -> (forall s', same_frame s s' -> keeps_threads s (ok s')) ->
  (forall s' e, same_frame s s' -> keeps_threads s (failed s' e)) -> keeps_threads s (on_result m ok failed).
Proof. destruct m as [s' [[]|e|]]; cbn; auto. Qed.

Lemma select_keeps s i ready : Forall (keeps_threads s) ready -> keeps_threads s (select_step i ready).
Proof.
  intros Hall. unfold select_step. destruct (select_ready i ready) as [x|] eqn:Hs; [|done].
  apply select_ready_elem in Hs. rewrite Forall_forall in Hall. by apply Hall.
Qed.

Lemma request_keeps s p k : (forall r, keeps_threads s (k r)) -> keeps_threads s (with_request s p k).
Proof. intros Hk. unfold with_request. by destruct (heap (table s) !! p). Qed.

Lemma cancel_threads s : same_frame s (cancel s).
Proof. unfold cancel. by destruct (ctxErr (life s)). Qed.

Ltac keeps_tac :=
  repeat first
  [ assumption | apply select_keeps | apply request_keeps; intros
  | apply result_keeps; [first [apply enqueue_threads | apply enqueue_request_threads | apply enqueue_stored_threads | apply enqueueRequestFrames_threads]|intros..]
  | apply Forall_app; split | progress (cbv zeta) | progress (cbn [keeps_threads])
  | match goal with |- context [match ?x with _ => _ end] => destruct x eqn:? end
  | constructor ]; try done.

Lemma receive_from_keeps s class : Forall (keeps_threads s) (receive_from s class).
Proof. unfold receive_from. keeps_tac. Qed.

Lemma step_op_threads i s o : keeps_threads s (step_op i s o).
Proof.
  destruct o; cbn [step_op];
    unfold rejectOpen, open_credit, enqueueRequestFrame_locked, handleData_locked, handleHalfClose_locked, receive_failed,
      completeRequest, sendResponse, await_credit, finish, close_request, abortRequest, watchRequest,
      nextOutbound_select, receive_from, sendLoop_frames, keepaliveLoop, send_ping, waitPong, drain_begin, drain_queue,
      drain_await, drain_wait, drain_select, loop_return, enqueueTunnelFrame, acknowledge; try (keeps_tac; fail).
  all: match goal with
  | |- context [reserve ?s ?request] => destruct (reserve s request) as [[? ?]|] eqn:Hr; [by apply reserve_threads in Hr|done]
  | |- context [nextOutbound ?s] =>
      unfold nextOutbound; pose proof (receive_from_keeps s TRAFFIC_CLASS_CONTROL_AUTH) as Hr;
      destruct (receive_from s TRAFFIC_CLASS_CONTROL_AUTH) as [|x l]; [done|by apply Forall_cons in Hr as [Hx _]]
  | |- keeps_threads ?s (with_request _ _ _) =>
      apply request_keeps; intros r; destruct (release s _ r) as [?| |] eqn:Hr; try done; by apply release_threads in Hr
  | |- context [cancel] => apply cancel_threads
  | |- context [enqueue] => apply result_keeps; [apply enqueue_threads|done|done]
  end.
Qed.

Lemma handleFrame_quiet s now frame s' ops started :
  handleFrame s now frame = (s', ops, started) -> Forall no_opening started.
Proof.
  unfold handleFrame, handleData, handleHalfClose, handleCancel, handleCredit, handlePeerDrain.
  repeat case_match; intros; simplify_eq; quiet_tac.
Qed.

Lemma handleFrame_frame s now frame s' ops started :
  handleFrame s now frame = (s', ops, started) -> same_frame s s'.
Proof.
  unfold handleFrame, handleData, handleHalfClose, handleCancel, handleCredit, handlePeerDrain,
    requestForFrame, updateRequestForFrame. repeat case_match; intros; simplify_eq; done.
Qed.

Lemma concat_lookup {A} (l : list (list A)) i x :
  l !! i = Some x -> exists others, concat l ≡ₚ x ++ others /\ (forall y, concat (<[i := y]> l) ≡ₚ y ++ others).
Proof.
  intros Hi. exists (concat (take i l) ++ concat (drop (S i) l)). split.
  - rewrite <- (take_drop_middle l i x Hi) at 1. rewrite concat_app. cbn. by rewrite Permutation_app_swap_app.
  - intros y. rewrite insert_take_drop by (by eapply lookup_lt_Some). rewrite concat_app. cbn. by rewrite Permutation_app_swap_app.
Qed.

(** ** Events *)

(** A goroutine other than the receive loop does not open requests. *)
Record session_inv (s : session) : Prop := {
  si_inv : inv s (concat (threads s));
  si_threads : forall i ops, threads s !! i = Some ops -> i <> receive_thread -> no_opening ops;
  si_receive : is_Some (threads s !! receive_thread)
}.

(** The credit of a frame is an unsigned machine integer. *)
Definition machine_event (e : event) : Prop :=
  match e with
  | Receive frame _ => 0 <= GetBytes_credit (GetCredit_resp frame)
  | _ => True
  end.

Lemma inv_threads s ts ops : inv s ops -> inv (set_threads s ts) ops.
Proof. intros [? ? ? ? ? ?]. by constructor. Qed.

(** A goroutine goes on with other operations. *)
Lemma resume_inv s s' i old ops started :
  session_inv s -> threads s !! i = Some old -> threads s' = threads s ->
  (forall others, inv s (old ++ others) -> (i = receive_thread -> old = [] -> forall p, pending opener p others = 0) ->
     inv s' ((ops ++ concat started) ++ others)) ->
  (i <> receive_thread -> no_opening ops) -> Forall no_opening started ->
  session_inv (resume s' i ops started).
Proof.
  intros [Hinv Hth Hrec] Hi Heq Hstep Hno Hst. destruct (concat_lookup _ _ _ Hi) as (others & Hall & Hupd).
  assert (Hlen : (receive_thread < length (threads s))%nat) by (by apply lookup_lt_is_Some).
  constructor; cbn [resume set_threads threads]; rewrite Heq.
  - apply inv_threads. rewrite concat_app. eapply inv_perm; [|apply (Hstep others)].
    + rewrite Hupd, <- !app_assoc. apply Permutation_app_head, Permutation_app_comm.
    + eapply inv_perm; [exact Hall|done].
    + intros -> -> p. cbn in Hall. apply no_opening_pending. unfold no_opening. rewrite <- Hall.
      apply Forall_concat, Forall_forall. intros ops' Hops. apply list_elem_of_lookup in Hops as [j Hj].
      destruct (decide (j = receive_thread)) as [->|Hne]; [|by eapply Hth].
      rewrite Hi in Hj. injection Hj as <-. constructor.
  - intros j ops' Hj Hne. apply lookup_app_Some in Hj as [Hj|[_ Hj]].
    + apply list_lookup_insert_Some in Hj as [(<- & <- & _)|[_ Hj]]; [by apply Hno|by eapply Hth].
    + rewrite Forall_forall in Hst. apply Hst. by eapply list_elem_of_lookup_2.
  - apply lookup_lt_is_Some. rewrite length_app, length_insert. lia.
Qed.

Lemma exec_inv s e : session_inv s -> machine_event e ->
  exec s e <> Panics /\ forall s', exec s e = Continues s' -> session_inv s'.
Proof.
  intros Hs He. pose proof Hs as [Hinv Hth Hrec]. destruct e as [frame now| |i inp|p| |deadline]; cbn [exec].
  - unfold receive_ready. destruct (receiving (life s)); [|done].
    destruct (threads s !! receive_thread) as [[|]|] eqn:Hr0; [|done|done]. cbn [andb negb].
    destruct (handleFrame s now frame) as [[s' ops] started] eqn:Hf. split; [done|]. intros s'' [= <-].
    destruct (handleFrame_frame _ _ _ _ _ _ Hf) as [Hts _].
    eapply (resume_inv s s' _ []); try done; [|by eapply handleFrame_quiet].
    intros others Ho Hq. pose proof (handleFrame_ok s others Ho (Hq eq_refl eq_refl) now frame He) as Hacc.
    by rewrite Hf in Hacc.
  - unfold receive_ready. destruct (receiving (life s)); [|done].
    destruct (threads s !! receive_thread) as [[|]|] eqn:Hr0; [|done|done]. cbn [andb negb]. split; [done|].
    intros s' [= <-]. eapply (resume_inv s s _ []); try done. intros others Ho _. apply (receive_error_ok s others Ho).
  - destruct (threads s !! i) as [[|o rest]|] eqn:Hi; [done| |done].
    destruct (concat_lookup _ _ _ Hi) as (others & Hall & _).
    pose proof (inv_perm _ _ _ Hall Hinv) as Hinv'. cbn [app] in Hinv'.
    pose proof (step_op_ok inp s o _ Hinv') as Hstep. pose proof (step_op_quiet inp s o) as Hq.
    pose proof (step_op_threads inp s o) as Hts.
    assert (Hall' : forall others', inv s ((o :: rest) ++ others') -> preserves (rest ++ others') (step_op inp s o)).
    { intros others' Ho. by apply step_op_ok. }
    destruct (step_op inp s o) as [| |s' ops started]; [done|done|]. split; [done|]. intros s'' [= <-].
    destruct Hq as [Hq Hst]. destruct Hts as [Hts _]. eapply (resume_inv s s' i (o :: rest)); try done.
    + intros others' Ho _. specialize (Hall' others' Ho). cbn in Hall'. eapply inv_perm; [|exact Hall'].
      rewrite <- !app_assoc. apply Permutation_app_head. rewrite (app_assoc rest), (app_assoc (concat started)).
      apply Permutation_app_tail, Permutation_app_comm.
    + intros Hne. pose proof (Hth _ _ Hi Hne) as Hold. apply Forall_cons in Hold as [Ho Hrest].
      apply Forall_app. split; [by apply Hq|done].
  - destruct (heap (table s) !! p) as [r|] eqn:Hh; [|done]. split; [done|]. intros s' [= <-].
    pose proof (end_ctx_ok s p DeadlineExceeded _ (inv_dummy_request _ _ _ _ Hh Hinv)) as Hok.
    unfold with_request in Hok. rewrite Hh in Hok. cbn in Hok. by constructor.
  - split; [done|]. intros s' [= <-]. destruct (cancel_same s) as [Hsame Hout].
    assert (Hts : threads (cancel s) = threads s) by (unfold cancel; by destruct (ctxErr (life s))).
    constructor; rewrite Hts; try done. eapply (inv_static s _ CancelSession []); try done; [by apply inv_dummy|].
    apply Hout. by eapply inv_output.
  - split; [done|]. intros s' [= <-]. constructor; cbn [set_threads threads].
    + apply inv_threads. rewrite concat_app. eapply inv_perm; [apply Permutation_app_comm|].
      cbn. eapply (inv_static s s CancelSession [_; _]); try done; [by apply inv_dummy|by eapply inv_output|by repeat constructor].
    + intros j ops Hj Hne. apply lookup_app_Some in Hj as [Hj|[_ Hj]]; [by eapply Hth|].
      apply list_lookup_singleton_Some in Hj as [_ <-]. by repeat constructor.
    + apply lookup_lt_is_Some. rewrite length_app. apply lookup_lt_is_Some in Hrec. lia.
Qed.

(** ** Reachable states *)

Lemma new_session_inv params : params_wf params -> session_inv (newSession params).
Proof.
  intros Hp. destruct (pw_positive _ Hp) as (_ & Hmf & _). constructor; cbn.
  - constructor; cbn; try done.
    + intros c. unfold queue, queue_ok. cbn [newSession ses_queues controlQueue regularQueue realtimeQueue ses_params].
      repeat case_match; go_bool; subst; cbn [chan_cap chan_buf]; change (len []) with 0; split_and!; try done; lia.
    + constructor; cbn; try done.
      * rewrite map_size_empty. lia.
      * split_and!; [constructor|intros k; split; [by intros ?%elem_of_nil|rewrite lookup_empty; by intros []]|unfold len; cbn; lia|lia..].
    + by repeat constructor.
  - intros [|[|[|i]]] ops Hi Hne; cbn in Hi; simplify_eq; by repeat constructor.
  - by eexists.
Qed.

Inductive reachable (params : sessionParams) : session -> Prop :=
| reach_start : reachable params (newSession params)
| reach_event s e s' : reachable params s -> machine_event e -> exec s e = Continues s' -> reachable params s'.

Lemma reachable_inv params s : params_wf params -> reachable params s -> session_inv s.
Proof.
  intros Hp. induction 1 as [|s e s' _ IH He Hx]; [by apply new_session_inv|]. by eapply exec_inv.
Qed.

(** The parameters of a session do not change. *)
Lemma exec_params s e s' : exec s e = Continues s' -> ses_params s' = ses_params s.
Proof.
  destruct e as [frame now| |i inp|p| |deadline]; cbn [exec]; try by intros [= <-].
  - destruct (negb _); [done|]. destruct (handleFrame s now frame) as [[s1 ops] started] eqn:Hf.
    apply handleFrame_frame in Hf as [_ Hp]. by intros [= <-].
  - destruct (negb _); [done|]. by intros [= <-].
  - destruct (threads s !! i) as [[|o rest]|]; [done| |done]. pose proof (step_op_threads inp s o) as Hk.
    destruct (step_op inp s o) as [| |s1 ops started]; [done|done|]. destruct Hk as [_ Hk]. by intros [= <-].
  - destruct (heap (table s) !! p); [|done]. by intros [= <-].
  - intros [= <-]. apply cancel_threads.
Qed.

Lemma reachable_params params s : reachable params s -> ses_params s = params.
Proof. induction 1 as [|s e s' _ IH _ Hx]; [done|]. rewrite <- IH. by eapply exec_params. Qed.

(** Runs a list of events. *)
Fixpoint run_events (s : session) (es : list event) : option session :=
  match es with
  | [] => Some s
  | e :: es => match exec s e with Continues s => run_events s es | _ => None end
  end.

Lemma run_reachable params es : forall s s',
  reachable params s -> Forall machine_event es -> run_events s es = Some s' -> reachable params s'.
Proof.
  induction es as [|e es IH]; intros s s' Hs Hes; cbn; [by intros [= <-]|]. apply Forall_cons in Hes as [He Hes].
  destruct (exec s e) as [| |s1] eqn:Hx; [done|done|]. apply IH; [|done]. by eapply reach_event.
Qed.

(** ** Progress *)

Lemma select_ready_some {A} choice (ready : list A) : ready <> [] -> is_Some (select_ready choice ready).
Proof.
  intros Hne. unfold select_ready. apply lookup_lt_is_Some_2. apply Nat.mod_upper_bound. by destruct ready.
Qed.

Lemma select_goes choice ready :
  ready <> [] -> Forall (fun x => x <> Blocked) ready -> select_step choice ready <> Blocked.
Proof.
  intros Hne Hall. unfold select_step. destruct (select_ready_some choice ready Hne) as [x Hx]. rewrite Hx. cbn.
  apply select_ready_elem in Hx. rewrite Forall_forall in Hall. by apply Hall.
Qed.

Lemma result_goes m ok failed :
  (forall s, ok s <> Blocked) -> (forall s e, failed s e <> Blocked) -> on_result m ok failed <> Blocked.
Proof. destruct m as [s [[]|e|]]; cbn; auto. Qed.

Lemma request_goes s p k : (forall r, k r <> Blocked) -> with_request s p k <> Blocked.
Proof. intros Hk. unfold with_request. by destruct (heap (table s) !! p). Qed.

Lemma app_not_nil {A} (a b : list A) : a <> [] \/ b <> [] -> a ++ b <> [].
Proof. destruct a; [|done]. intros [?|?]; done. Qed.

Lemma request_canceled s r : is_Some (ctxErr (life s)) -> is_Some (request_ctxErr s r).
Proof. unfold request_ctxErr. intros ?. by destruct (rs_ctxErr r). Qed.

Lemma receive_from_goes s class : Forall (fun x => x <> Blocked) (receive_from s class).
Proof. unfold receive_from. destruct (try_recv _) as [[]|]; by repeat constructor. Qed.

Ltac goes_tac :=
  repeat first
  [ discriminate | done | assumption
  | apply receive_from_goes
  | apply request_goes; intros | apply result_goes; intros | apply Forall_app; split
  | progress (cbv zeta)
  | match goal with
    | |- select_step _ _ <> Blocked => apply select_goes
    | |- context [match ?x with _ => _ end] => destruct x eqn:?
    end
  | constructor ].

(** A goroutine of a canceled session never waits. *)
Lemma step_op_goes i s o : is_Some (ctxErr (life s)) -> step_op i s o <> Blocked.
Proof.
  intros Hc. destruct o; cbn [step_op];
    unfold rejectOpen, open_credit, enqueueRequestFrame_locked, handleData_locked, handleHalfClose_locked, receive_failed,
      completeRequest, sendResponse, finish, close_request, abortRequest, enqueueTunnelFrame, loop_return,
      sendLoop_frames, send_ping, drain_begin, drain_queue, drain_wait; try (goes_tac; fail).
  all: destruct Hc as [e Hc]; try (apply request_goes; intros r; destruct (request_canceled s r (ex_intro _ e Hc)) as [e' Hr]).
  1: unfold nextOutbound; pose proof (receive_from_goes s TRAFFIC_CLASS_CONTROL_AUTH) as Hr;
    destruct (receive_from s TRAFFIC_CLASS_CONTROL_AUTH); [done|by apply Forall_cons in Hr as [? _]].
  all: unfold nextOutbound_select, keepaliveLoop, waitPong, watchRequest, await_credit, drain_await, drain_select;
    rewrite ?Hc, ?Hr; apply select_goes;
    [intros Hn; repeat (apply app_eq_nil in Hn; destruct Hn as [? Hn]); congruence|goes_tac].
Qed.

(** A response waits for credit only while it lacks the credit of its next chunk. *)
Lemma await_goes i s p response code r others :
  inv s (AwaitCredit p response code :: others) -> heap (table s) !! p = Some r ->
  chunk_size (ses_params s) response <= sendCredit (rs_flow r) -> step_op i s (AwaitCredit p response code) <> Blocked.
Proof.
  intros Hinv Hh Hle. destruct (inv_request _ _ p _ Hinv eq_refl) as (r' & Hh' & [_ Hwake] & _).
  assert (r' = r) as -> by congruence. specialize (Hwake Hle). cbn [step_op]. unfold with_request. rewrite Hh.
  unfold await_credit, try_recv. destruct (chan_buf (creditChanged r)); [done|]. apply select_goes; goes_tac.
Qed.
End reach.
