(* ===== verification/GatewayOutSample.v ===== *)
(** * A concrete gateway-out session

    An executable session: a route, its internal service, a negotiated policy and
    the frames of one request, on which the theorems of [GatewayOutTunnel] are
    evaluated. *)

From S2P Require Import Prelude TunnelContract TunnelRuntime TunnelValidate TunnelValidateProofs GatewayOutRegistry.
From S2P Require Import GatewayOutSession GatewayOutSessionProofs GatewayOutReach.
Local Open Scope Z_scope.

#[export] Instance sample_runtime : ProtoRuntime := reference_runtime [] [].

(** The service answers with the bytes of the world, or with an error. *)
#[export] Instance sample_rpc : InternalRpc := {|
  rpc_message := list Z;
  rpc_client := unit;
  rpc_world := list Z + code;
  proto_Unmarshal _ b := Some b;
  proto_Marshal m := Some m;
  client_Invoke w _ _ _ _ _ := match w with inl b => inl b | inr c => inr (mkRpcError false false c) end
|}.

Definition sample_spec : RouteSpec :=
  mkRouteSpec ROUTE_ID_USER_GET_ME TRAFFIC_CLASS_REGULAR "/user.v1.UserService/GetMe" (Some (Some [])) (Some (Some []))
    64 64 60000000000 false false.
Definition sample_clients : ClassClients := mkClassClients (H := sample_rpc) (Some tt) (Some tt) (Some tt).
Definition sample_registry : Registry :=
  match NewRegistry sample_clients [sample_spec] with
  | Ok reg => reg
  | _ => mkRegistry ∅ [] []
  end.

Definition sample_settings : settings :=
  mkSettings (replicate 16 2) 1000000000 (mkReceiveLimits 4096 4 64 4 4 64 64)
    {[ TRAFFIC_CLASS_CONTROL_AUTH := mkClassLimits 4 4 64; TRAFFIC_CLASS_REGULAR := mkClassLimits 4 1 64;
       TRAFFIC_CLASS_REALTIME := mkClassLimits 4 4 64 ]}.

Definition sample_limits : Limits := mkLimits 4096 4 64 4 4 64 64 [].
Definition sample_hello : ConnectResponse :=
  mkConnectResponse (Some (mkFrameHeader 0 (replicate 16 7) [] 0 0 []))
    (Some (Resp_Hello (Some (mkGatewayInHello 1 [CAPABILITY_DRAIN] [TRAFFIC_CLASS_REGULAR] [ROUTE_ID_USER_GET_ME]
       (Some sample_limits) (replicate 16 5) [])))) [].

Definition sample_params : sessionParams :=
  mkSessionParams sample_settings sample_registry (replicate 16 7) (replicate 16 5) sample_limits
    {[ROUTE_ID_USER_GET_ME]} {[TRAFFIC_CLASS_REGULAR]}.

Definition sample_frame (sequence : Z) (payload : ConnectResponse_payload) : event :=
  Receive (mkConnectResponse (Some (mkFrameHeader 1 (replicate 16 7) (replicate 16 9) sequence TRAFFIC_CLASS_REGULAR []))
    (Some payload) []) 5000000000.
Definition sample_open : event :=
  sample_frame 1 (Resp_Open (Some (mkOpen ROUTE_ID_USER_GET_ME (Some (mkTimestamp 10 0 [])) [] [] []))).

Definition sample_input (choice : nat) (world : list Z) : input :=
  mkInput choice 0 (inl world) None true false.
Definition run_thread (thread : nat) (n : nat) : list event :=
  replicate n (Run thread (sample_input 0 (replicate 8 3))).

(** A request with a body of three bytes; its response has two chunks, and the
    queue of the class holds one frame. *)
Definition sample_request : list event :=
  [sample_open] ++ run_thread 0 3 ++ run_thread 1 4 ++
  [sample_frame 2 (Resp_Credit (Some (mkCredit 8 []))); sample_frame 3 (Resp_Data (Some (mkData [1; 2; 3] [])))] ++
  run_thread 0 1 ++ [sample_frame 4 (Resp_HalfClose (Some (mkHalfClose [])))] ++ run_thread 0 1.

(** The send loop keeps up with the response. *)
Definition sample_served : list event :=
  sample_request ++ run_thread 4 5 ++ run_thread 1 4 ++ run_thread 4 3 ++ run_thread 1 4 ++ run_thread 4 2 ++
  run_thread 1 5 ++ run_thread 4 2.

(** The send loop is late: the second chunk finds the queue full. *)
Definition sample_congested : list event :=
  sample_request ++ run_thread 4 8 ++ run_thread 1 4 ++ run_thread 4 1 ++ run_thread 1 5 ++ run_thread 4 2.

Definition final (es : list event) : session := default (newSession sample_params) (run_events (newSession sample_params) es).

Lemma run_thread_machine thread n : Forall machine_event (run_thread thread n).
Proof. by apply Forall_replicate. Qed.

Lemma sample_request_machine : Forall machine_event sample_request.
Proof.
  unfold sample_request. repeat (apply Forall_app; split); try apply run_thread_machine; by repeat constructor.
Qed.

Lemma sample_served_machine : Forall machine_event sample_served.
Proof.
  unfold sample_served. apply Forall_app. split; [apply sample_request_machine|].
  repeat (apply Forall_app; split); apply run_thread_machine.
Qed.

Lemma sample_congested_machine : Forall machine_event sample_congested.
Proof.
  unfold sample_congested. apply Forall_app. split; [apply sample_request_machine|].
  repeat (apply Forall_app; split); apply run_thread_machine.
Qed.
