(* ===== verification/GatewayOutTunnel.v ===== *)
(** * Properties of gateway-out sessions

    The handshake of gateway-out, and the theorems about every reachable state of
    its sessions. *)

From S2P Require Import Prelude TunnelContract TunnelRuntime TunnelValidate TunnelValidateProofs GatewayOutRegistry.
From S2P Require Import GatewayOutSession GatewayOutSessionProofs GatewayOutSteps GatewayOutTables GatewayOutReach.
From S2P Require Import GatewayOutSample.
Local Open Scope Z_scope.

Section handshake.
Context `{ProtoRuntime} `{InternalRpc}.

(** ** Settings *)

(** Limits of a class are unsigned. *)
Definition class_machine (limits : gmap Z ClassLimits) : Prop :=
  forall c l, limits !! c = Some l -> 0 <= cl_MaxInFlight l /\ 0 <= cl_ReceiveWindowBytes l.

Definition limits_machine (l : Limits) : Prop :=
  0 <= max_frame_bytes l /\ 0 <= max_data_bytes l /\ 0 <= max_message_bytes l /\ 0 <= max_in_flight_requests l /\
  0 <= max_metadata_entries l /\ 0 <= max_metadata_value_bytes l /\ 0 <= max_credit_bytes l.

Lemma validateClassLimits_loop_Ok limits cs :
  validateClassLimits_loop limits cs = Ok tt -> forall c, c ∈ cs ->
  exists l, limits !! c = Some l /\ cl_MaxInFlight l <> 0 /\ cl_MaxInFlight l <= MaxInFlightRequests /\
    0 < cl_SendQueueDepth l <= MaxInFlightRequests /\ cl_ReceiveWindowBytes l <> 0 /\ cl_ReceiveWindowBytes l <= MaxCreditBytes.
Proof.
  induction cs as [|c cs IH]; [by intros _ c ?%elem_of_nil|]. cbn [validateClassLimits_loop].
  destruct (limits !! c) as [l|] eqn:Hl; [|done]. rewrite !guard_Ok. intros (H1 & H2 & H3 & Hrest) c' [->|Hin]%elem_of_cons.
  - exists l. go_bool. split_and!; done || lia.
  - by apply IH.
Qed.

(** The settings of a client: validated class limits of machine type. *)
Record settings_wf (s : settings) : Prop := {
  sw_classes : validateClassLimits (set_classLimits s) = Ok tt;
  sw_machine : class_machine (set_classLimits s)
}.

Lemma settings_class_bounds s c :
  settings_wf s -> c = TRAFFIC_CLASS_CONTROL_AUTH \/ c = TRAFFIC_CLASS_REGULAR ->
  0 < cl_ReceiveWindowBytes (class_limits s c) <= MaxCreditBytes /\
  cl_MaxInFlight (class_limits s c) <= MaxInFlightRequests.
Proof.
  intros [Hv Hm] Hc. unfold validateClassLimits in Hv. rewrite seq_Ok in Hv. destruct Hv as [Hv _].
  destruct (validateClassLimits_loop_Ok _ _ Hv c) as (l & Hl & ? & ? & _ & ? & ?).
  { destruct Hc as [-> | ->]; set_solver. }
  unfold class_limits. rewrite Hl. cbn. destruct (Hm _ _ Hl). lia.
Qed.

(** ** Accepting a Hello *)

Lemma acceptHello_classes_Ok reg values : forall classes out,
  acceptHello_classes reg values classes = Ok out <->
  (forall c, c ∈ values -> hasClass reg c = true) /\ out = list_to_set values ∪ classes.
Proof.
  induction values as [|c values IH]; intros classes out; cbn [acceptHello_classes].
  - rewrite Ok_eq. cbn. rewrite (left_id_L ∅ (∪)). split; [intros ->; split; [by intros c ?%elem_of_nil|done]|by intros [_ ->]].
  - rewrite guard_Ok, IH, negb_false_iff. setoid_rewrite elem_of_cons. cbn [list_to_set].
    assert ({[c]} ∪ list_to_set values ∪ classes = list_to_set values ∪ ({[c]} ∪ classes)) as -> by set_solver. naive_solver.
Qed.

Lemma acceptHello_routes_Ok reg classes values : forall routes out,
  acceptHello_routes reg classes values routes = Ok out <->
  (forall id, id ∈ values -> exists r, lookup reg id = Some r /\ rt_TrafficClass (rt_spec r) ∈ classes) /\
  out = list_to_set values ∪ routes.
Proof.
  induction values as [|id values IH]; intros routes out; cbn [acceptHello_routes].
  - rewrite Ok_eq. cbn. rewrite (left_id_L ∅ (∪)). split; [intros ->; split; [by intros c ?%elem_of_nil|done]|by intros [_ ->]].
  - setoid_rewrite elem_of_cons. cbn [list_to_set].
    assert ({[id]} ∪ list_to_set values ∪ routes = list_to_set values ∪ ({[id]} ∪ routes)) as -> by set_solver.
    destruct (lookup reg id) as [r|] eqn:Hl.
    + rewrite guard_Ok, IH, negb_false_iff, bool_decide_eq_true. split.
      * intros (Hc & Hall & ->). split; [|done]. intros id' [->|?]; eauto.
      * intros [Hall ->]. split_and!; [|by eauto|done]. destruct (Hall id (or_introl eq_refl)) as (x & Hx & ?). congruence.
    + split; [done|]. intros [Hall _]. destruct (Hall id (or_introl eq_refl)) as (x & Hx & _). congruence.
Qed.

Lemma limitsDoNotExceed_spec l offered :
  limitsDoNotExceed l offered = true <-> exists x, l = Some x /\
    max_frame_bytes x <= rl_MaxFrameBytes offered /\ max_data_bytes x <= rl_MaxDataBytes offered /\
    max_message_bytes x <= rl_MaxMessageBytes offered /\ max_in_flight_requests x <= rl_MaxInFlightRequests offered /\
    max_metadata_entries x <= rl_MaxMetadataEntries offered /\ max_metadata_value_bytes x <= rl_MaxMetadataValueBytes offered /\
    max_credit_bytes x <= rl_MaxCreditBytes offered.
Proof.
  destruct l as [x|]; cbn; [|naive_solver]. rewrite !andb_true_iff, !Z.leb_le. split; [intros; exists x; tauto|].
  intros (? & [= <-] & ?). tauto.
Qed.

(** What gateway-out requires of the Hello of gateway-in. *)
Definition hello_acceptable (s : settings) (reg : Registry) (offered : list Z) (h : GatewayInHello) (l : Limits) : Prop :=
  CAPABILITY_DRAIN ∈ gih_capabilities h /\ (forall c, c ∈ gih_capabilities h -> c ∈ offered) /\
  gih_traffic_classes h <> [] /\ gih_route_ids h <> [] /\
  (forall c, c ∈ gih_traffic_classes h -> c ∈ classes reg) /\
  (forall id, id ∈ gih_route_ids h ->
     exists r, routes reg !! id = Some r /\ rt_TrafficClass (rt_spec r) ∈ gih_traffic_classes h) /\
  gih_limits h = Some l /\ limitsDoNotExceed (Some l) (set_limits s) = true.

Lemma acceptHello_Ok s reg frame offered params :
  acceptHello s reg frame offered = Ok params <->
  gateway_in_frame_wf frame /\ exists h l, GetHello_resp frame = Some h /\ hello_acceptable s reg offered h l /\
    params = mkSessionParams s reg (GetTunnelId (cresp_header frame)) (copy_instanceID (gih_instance_id h)) l
      (list_to_set (gih_route_ids h)) (list_to_set (gih_traffic_classes h)).
Proof.
  unfold acceptHello, hello_acceptable. rewrite seq_Ok, map_err_Ok, in_frame_Ok. apply and_iff_compat_l.
  destruct (GetHello_resp frame) as [h|]; [|naive_solver]. rewrite !guard_Ok, bind_Ok.
  rewrite !negb_false_iff, bool_decide_eq_true, forallb_forall, orb_false_iff, !Z.eqb_neq, !len_zero_nil. split.
  - intros (Hd & Hcaps & [Hc0 Hr0] & cs & Hcs & Hrest). apply acceptHello_classes_Ok in Hcs as [Hcs ->].
    rewrite bind_Ok in Hrest. destruct Hrest as (rs & Hrs & Hrest). apply acceptHello_routes_Ok in Hrs as [Hrs ->].
    rewrite guard_Ok, negb_false_iff in Hrest. destruct Hrest as [Hl Hrest].
    destruct (gih_limits h) as [l|] eqn:Hgl; [|done]. injection Hrest as <-. exists h, l. split; [done|].
    rewrite !(right_id_L ∅ (∪)). split; [|done]. split_and!; try done.
    + intros c Hc. apply list_elem_of_In in Hc. by apply Hcaps, bool_decide_eq_true in Hc.
    + intros c Hc. by apply Hcs, bool_decide_eq_true in Hc.
    + intros id Hid. destruct (Hrs id Hid) as (r & Hr & Hc). exists r. split; [done|]. set_solver.
  - intros (h' & l & [= <-] & (Hd & Hcaps & Hc0 & Hr0 & Hcs & Hrs & Hl & Hlim) & ->).
    split; [done|]. split; [intros c Hc%list_elem_of_In; apply bool_decide_eq_true; by apply Hcaps|]. split; [done|].
    exists (list_to_set (gih_traffic_classes h) ∪ ∅). split.
    { apply acceptHello_classes_Ok. split; [|done]. intros c Hc. apply bool_decide_eq_true. by apply Hcs. }
    rewrite bind_Ok. exists (list_to_set (gih_route_ids h) ∪ ∅). split.
    + rewrite acceptHello_routes_Ok. split; [|done]. intros id Hid. destruct (Hrs id Hid) as (r & Hr & Hc). exists r.
      split; [done|]. set_solver.
    + rewrite Hl, guard_Ok, Hlim. split; [done|]. by rewrite !(right_id_L ∅ (∪)).
Qed.

(** A session starts with well-formed parameters. *)
Lemma accepted_params_wf s reg frame offered params :
  settings_wf s -> registry_wf reg -> (forall l, gih_limits <$> GetHello_resp frame = Some (Some l) -> limits_machine l) ->
  acceptHello s reg frame offered = Ok params -> params_wf params.
Proof.
  intros Hs Hreg Hm Ha. apply acceptHello_Ok in Ha as (Hwf & h & l & Hh & (_ & _ & _ & _ & _ & _ & Hl & _) & ->).
  assert (Hlim : limits_wf l).
  { destruct Hwf as (_ & hd & p & _ & Hp & Hpw). unfold GetHello_resp in Hh. rewrite Hp in Hh.
    destruct Hpw; try done. injection Hh as ->. destruct H2 as (_ & _ & (_ & _ & _ & _ & _ & _ & l' & Hl' & ?)). congruence. }
  rewrite Hh in Hm. destruct (Hm l) as (? & ? & ? & ? & ? & ? & ?); [cbn; by rewrite Hl|].
  constructor; cbn; [done| |done|].
  - destruct Hlim as (? & ? & ? & ? & ? & ? & ? & ? & ? & ? & ? & ? & ? & ?). lia.
  - intros c Hc. by apply settings_class_bounds.
Qed.
End handshake.

(** ** Sessions that a client opens *)

Section sessions.
Context `{ProtoRuntime} `{InternalRpc}.

(** Parameters of a session: settings and registry passed their validation, and
    [acceptHello] accepted the Hello of gateway-in. *)
Definition opened (params : sessionParams) : Prop :=
  exists s clients specs reg frame,
    settings_wf s /\ Forall spec_machine specs /\ NewRegistry clients specs = Ok reg /\
    (forall l, gih_limits <$> GetHello_resp frame = Some (Some l) -> limits_machine l) /\
    acceptHello s reg frame (offered_capabilities reg) = Ok params.

(** [s] is a state of a session with these parameters, after any sequence of
    frames, goroutine steps, deadlines, cancellations and drains. *)
Definition serves (params : sessionParams) (s : session) : Prop := opened params /\ reachable params s.

Lemma opened_wf params : opened params -> params_wf params.
Proof.
  intros (s & clients & specs & reg & frame & Hs & Hsp & Hreg & Hm & Ha).
  eapply accepted_params_wf; [exact Hs|by eapply NewRegistry_wf|exact Hm|exact Ha].
Qed.

Lemma serves_inv params s : serves params s -> session_inv s /\ ses_params s = params.
Proof.
  intros [Ho Hr]. split; [eapply reachable_inv; [by apply opened_wf|done]|by apply reachable_params].
Qed.

Lemma serves_request params s p r :
  serves params s -> heap (table s) !! p = Some r -> req_ok params r /\ phase_ok p r (registered s p r) (concat (threads s)).
Proof.
  intros Hs Hh. destruct (serves_inv _ _ Hs) as [Hi <-]. by apply (i_requests _ _ (si_inv _ Hi)).
Qed.
End sessions.

(** ** The sample session *)

Lemma sample_opened : opened sample_params.
Proof.
  exists sample_settings, sample_clients, [sample_spec], sample_registry, sample_hello.
  split_and!.
  - split; [vm_compute; reflexivity|]. intros c l Hl. cbn in Hl.
    repeat (apply lookup_insert_Some in Hl as [[_ <-]|[_ Hl]]; [by cbn|]). by rewrite lookup_empty in Hl.
  - by repeat constructor.
  - vm_compute. reflexivity.
  - intros l [= <-]. by vm_compute.
  - vm_compute. reflexivity.
Qed.

Lemma sample_serves es s :
  Forall machine_event es -> run_events (newSession sample_params) es = Some s -> serves sample_params s.
Proof. intros He Hr. split; [apply sample_opened|]. eapply run_reachable; [apply reach_start|done|done]. Qed.

Lemma sample_served_run : run_events (newSession sample_params) sample_served = Some (final sample_served).
Proof. vm_compute. reflexivity. Qed.

Lemma sample_served_serves : serves sample_params (final sample_served).
Proof. apply (sample_serves sample_served); [apply sample_served_machine|apply sample_served_run]. Qed.

(** ** Properties *)

Section properties.
Context `{ProtoRuntime} `{InternalRpc}.

(** C13. In every reachable state of a gateway-out session the tables are exact:
    no event makes the process panic (no close of a closed channel, no nil
    request, no index out of range in the ring of terminal requests), the live
    requests stay within the negotiated limit, the counter of each class is the
    number of its live requests and stays within the limit of the class, and the
    ring of terminal requests is bounded, without repetition, and holds exactly
    the keys of the terminal map. *)
Theorem out_tables_are_exact (params : sessionParams) (s : session) :
  serves params s ->
  (forall e, machine_event e -> exec s e <> Panics) /\
  Z.of_nat (size (requests (table s))) <= max_in_flight_requests (sp_limits params) /\
  (forall c, active_count (table s) c = class_load (table s) c /\
     (0 < class_load (table s) c ->
      class_load (table s) c <= cl_MaxInFlight (class_limits (sp_settings params) c))) /\
  NoDup (terminalOrder (table s)) /\
  len (terminalOrder (table s)) <= max_in_flight_requests (sp_limits params) /\
  (forall k, k ∈ terminalOrder (table s) <-> is_Some (terminal (table s) !! k)).
Proof.
  intros Hs. destruct (serves_inv _ _ Hs) as [Hi <-]. split; [intros e He; by apply exec_inv|].
  destruct (i_table _ _ (si_inv _ Hi)) as [_ Hsz Ha Hb (Hnd & Hdom & Hlen & _) _]. split_and!; try done. intros c. split; [apply Ha|apply Hb].
Qed.

(** The flow control of every request holds in every reachable state: the
    receive credit stays within the window of the class, body and outstanding
    credit and all the credit the peer was sent stay within the request limit, the response data never exceeds the
    credit the peer granted, the numbers of the queued frames increase strictly
    and start at 1, and no counter comes near its machine bound. *)
Theorem out_flow_control_holds (params : sessionParams) (s : session) (p : request_ptr) (r : requestState) :
  serves params s -> heap (table s) !! p = Some r ->
  let f := rs_flow r in
  let h := rs_history r in
  0 <= receiveCredit f <= cl_ReceiveWindowBytes (class_limits (sp_settings params) (rs_class r)) /\
  len (received h) + receiveCredit f <= request_maximum (sp_limits params) r /\
  sent_credit (emitted h) <= request_maximum (sp_limits params) r /\
  0 <= sendCredit f <= response_maximum (sp_limits params) r /\
  len (sent_data (emitted h)) + sendCredit f <= granted h /\
  sublist (frame_seq <$> emitted h) (seqZ 1 (outgoingSequence f)) /\
  0 <= outgoingSequence f <= 20000000.
Proof.
  intros Hs Hh f h. destruct (serves_request _ _ _ _ Hs Hh) as [Hr _].
  pose proof (request_numbers _ _ (opened_wf _ (proj1 Hs)) Hr) as (_ & _ & _ & _ & _ & Hn).
  destruct (rq_credit _ _ Hr). destruct (rq_receive _ _ Hr), (rq_send _ _ Hr), (rq_sequence _ _ Hr) as [? _].
  unfold f, h. split_and!; try done; lia.
Qed.

(** Gateway-out hands only valid frames to the stream: every frame sent after
    the handshake passes [ValidateGatewayOutFrame] and is within the negotiated
    limits. *)
Theorem out_sends_only_valid_frames (params : sessionParams) (s : session) :
  serves params s ->
  Forall (fun f => ValidateGatewayOutFrame (Some f) = Ok tt /\
                   withinNegotiatedLimits_request f (sp_limits params) = true) (wire s).
Proof.
  intros Hs. destruct (serves_inv _ _ Hs) as [Hi <-]. eapply Forall_impl; [apply (i_wire _ _ (si_inv _ Hi))|].
  intros f [Hf Hl]. split; [by apply out_frame_Ok|done].
Qed.

(** C14. The internal RPC of a request is called at most once, only after the peer
    closed the body, and with exactly the concatenation of the Data payloads the
    request received. *)
Theorem rpc_is_called_once_with_the_body (params : sessionParams) (s : session) (p : request_ptr) (r : requestState) :
  serves params s -> heap (table s) !! p = Some r ->
  calls (rs_history r) = [] \/
  (calls (rs_history r) = [received (rs_history r)] /\ halfClosed (rs_flow r) = true).
Proof. intros Hs Hh. destruct (serves_request _ _ _ _ Hs Hh) as [Hr _]. apply (rq_calls _ _ Hr). Qed.

(** C15. The frames of a request form a response: Credit and Data frames, then at
    most one HalfClose immediately followed by one Result, and nothing after it;
    until the request is completed there are only Credit frames.  A Result OK
    means that the request was completed with code OK and that its Data frames
    carry exactly the response. *)
Theorem response_is_sent_exactly (params : sessionParams) (s : session) (p : request_ptr) (r : requestState) :
  serves params s -> heap (table s) !! p = Some r ->
  (rs_terminal r = false -> Forall is_credit (emitted (rs_history r))) /\
  exists body tail, emitted (rs_history r) = body ++ tail /\ Forall is_flow body /\
    (tail = [] \/ exists code, final_frames code tail /\
       (code = RESULT_CODE_OK -> outcome (rs_history r) = Some (sent_data body, RESULT_CODE_OK))).
Proof.
  intros Hs Hh. destruct (serves_request _ _ _ _ Hs Hh) as [Hr _]. split; [|apply (rq_shape _ _ Hr)].
  intros Ht. by apply (rq_live _ _ Hr).
Qed.

(** C16. No request leaks.  A live request always has a pending operation that
    ends in its completion, a completed request that is still registered has
    exactly one goroutine that will release it, [done] is closed by exactly one
    goroutine, no goroutine of a canceled session waits, and a response that waits
    for credit is woken as soon as the credit of its next chunk arrives. *)
Theorem no_request_leaks (params : sessionParams) (s : session) :
  serves params s ->
  (forall p r, heap (table s) !! p = Some r ->
     (rs_terminal r = false -> registered s p r = true /\ 0 < pending guardian p (concat (threads s))) /\
     pending releaser p (concat (threads s)) = Z.b2z (rs_terminal r && registered s p r) /\
     pending closer p (concat (threads s)) = Z.b2z (rs_terminal r && negb (rs_done r))) /\
  (forall i o, is_Some (ctxErr (life s)) -> step_op i s o <> Blocked) /\
  (forall thread i p response code rest r,
     threads s !! thread = Some (AwaitCredit p response code :: rest) -> heap (table s) !! p = Some r ->
     chunk_size params response <= sendCredit (rs_flow r) -> step_op i s (AwaitCredit p response code) <> Blocked).
Proof.
  intros Hs. split_and!.
  - intros p r Hh. destruct (serves_request _ _ _ _ Hs Hh) as [_ Hph].
    split_and!; [|apply (ph_release _ _ _ _ Hph)|apply (ph_close _ _ _ _ Hph)].
    intros Ht. split; [by apply (ph_registered _ _ _ _ Hph)|by apply (ph_guarded _ _ _ _ Hph)].
  - intros i o. apply step_op_goes.
  - intros thread i p response code rest r Ht Hh Hle. destruct (serves_inv _ _ Hs) as [Hi <-].
    destruct (concat_lookup _ _ _ Ht) as (others & Hall & _). pose proof (inv_perm _ _ _ Hall (si_inv _ Hi)) as Hinv.
    by eapply await_goes.
Qed.
End properties.

(** ** Witnesses *)

Lemma out_tables_are_exact_witness :
  Z.of_nat (size (requests (table (final sample_served)))) <= 4 /\
  len (terminalOrder (table (final sample_served))) <= 4.
Proof.
  pose proof (out_tables_are_exact sample_params (final sample_served) sample_served_serves) as (_ & Hs & _ & _ & Hl & _).
  exact (conj Hs Hl).
Defined.

(** The request of the sample session. *)
Definition sample_state : requestState :=
  default (new_request None (mkRoute sample_spec tt) (mkOpen 0 None [] [] [])) (heap (table (final sample_served)) !! 1%positive).
Lemma sample_state_found : heap (table (final sample_served)) !! 1%positive = Some sample_state.
Proof. vm_compute. reflexivity. Qed.

Lemma out_flow_control_holds_witness :
  frame_seq <$> emitted (rs_history sample_state) = [1; 2; 3; 4; 5] /\
  len (sent_data (emitted (rs_history sample_state))) + sendCredit (rs_flow sample_state) <= granted (rs_history sample_state).
Proof.
  split; [vm_compute; reflexivity|].
  apply (out_flow_control_holds sample_params (final sample_served) 1%positive sample_state
    sample_served_serves sample_state_found).
Defined.

Lemma out_sends_only_valid_frames_witness :
  length (wire (final sample_served)) = 5%nat /\
  Forall (fun f => ValidateGatewayOutFrame (Some f) = Ok tt /\
    withinNegotiatedLimits_request f (sp_limits sample_params) = true) (wire (final sample_served)).
Proof.
  split; [vm_compute; reflexivity|].
  exact (out_sends_only_valid_frames sample_params (final sample_served) sample_served_serves).
Defined.

Lemma rpc_is_called_once_with_the_body_witness : calls (rs_history sample_state) = [[1; 2; 3]].
Proof.
  destruct (rpc_is_called_once_with_the_body sample_params (final sample_served) 1%positive sample_state
    sample_served_serves sample_state_found) as [Hn|[Hc _]].
  - vm_compute in Hn. discriminate Hn.
  - rewrite Hc. vm_compute. reflexivity.
Defined.

Lemma response_is_sent_exactly_witness :
  exists body tail, emitted (rs_history sample_state) = body ++ tail /\ Forall is_flow body /\
    (tail = [] \/ exists code, final_frames code tail /\
       (code = RESULT_CODE_OK -> outcome (rs_history sample_state) = Some (sent_data body, RESULT_CODE_OK))).
Proof.
  exact (proj2 (response_is_sent_exactly sample_params (final sample_served) 1%positive sample_state
    sample_served_serves sample_state_found)).
Defined.

Lemma no_request_leaks_witness :
  pending releaser 1%positive (concat (threads (final sample_served))) = 0.
Proof.
  pose proof (no_request_leaks sample_params (final sample_served) sample_served_serves) as (Hp & _).
  destruct (Hp 1%positive sample_state sample_state_found) as (_ & Hr & _). rewrite Hr. vm_compute. reflexivity.
Defined.

