(* ===== verification/GatewayOutConfig.v ===== *)
(** * Configuration and codec of gateway-out

    [services/gateway-out/internal/tunnel/config.go] and [codec.go]: the settings
    of the tunnel client and their validation, the TLS policy, and the codec that
    validates every frame it encodes or decodes.  Logger and telemetry handles are
    only present or absent; [net/url], TLS and protobuf are parameters. *)

From Stdlib Require Import Floats.SpecFloat.
From S2P Require Import Prelude GoStrings GoFloat TunnelContract TunnelRuntime TunnelValidate TunnelValidateProofs TunnelDecode.
From S2P Require Import GatewayInErrors GatewayInConfig GatewayOutRegistry.
Local Open Scope Z_scope.

(** ** Configuration data *)

Record ReconnectPolicy := mkReconnectPolicy {
  MaxAttempts : Z;
  InitialBackoff : Z;
  MaxBackoff : Z;
  Multiplier : float64;
  JitterRatio : float64;
  StableResetAfter : Z
}.

(** What the sources use of [tls.Config]. *)
Record tlsConfig := mkTlsConfig {
  InsecureSkipVerify : bool;
  ServerName : string;
  (** whether [RootCAs] is present *)
  RootCAs : bool;
  (** the number of [Certificates] *)
  Certificates : Z;
  (** whether [GetClientCertificate] is present *)
  GetClientCertificate : bool;
  MinVersion : Z;
  (** [None] is a nil function *)
  VerifyConnection : option (TLSState -> result error unit)
}.

Record Config := mkConfig {
  co_Target : string;
  co_TLSConfig : option tlsConfig;
  co_ExpectedServerIdentity : string;
  co_InstanceID : bytes;
  co_ConnectTimeout : Z;
  co_HandshakeTimeout : Z;
  co_KeepaliveTime : Z;
  co_KeepaliveTimeout : Z;
  co_PingInterval : Z;
  co_PingTimeout : Z;
  co_DrainTimeout : Z;
  co_Limits : ReceiveLimits;
  co_ClassLimits : gmap Z ClassLimits;
  co_Reconnect : ReconnectPolicy;
  (** whether the logger and the telemetry are present *)
  co_Logger : bool;
  co_Telemetry : bool
}.

(** The settings of the client; the sessions read [cs_session]. *)
Record clientSettings := mkClientSettings {
  cs_target : string;
  cs_tlsConfig : tlsConfig;
  cs_expectedServerIdentity : string;
  cs_connectTimeout : Z;
  cs_handshakeTimeout : Z;
  cs_keepaliveTime : Z;
  cs_keepaliveTimeout : Z;
  cs_pingInterval : Z;
  cs_pingTimeout : Z;
  cs_session : GatewayOutRegistry.settings;
  cs_reconnect : ReconnectPolicy
}.

(** ** Validation *)

Definition allZero (value : bytes) : bool := forallb (fun item => item =? 0) value.

Definition validateReconnectPolicy (policy : ReconnectPolicy) : result error unit :=
  reject_if ((MaxAttempts policy <=? 0) || (100 <? MaxAttempts policy))
    (errors_New "gateway-out tunnel reconnect attempts must be between 1 and 100");;
  reject_if ((InitialBackoff policy <=? 0) || (MaxBackoff policy <? InitialBackoff policy))
    (errors_New "gateway-out tunnel reconnect backoff bounds are invalid");;
  reject_if (math_IsNaN (Multiplier policy) || math_IsInf (Multiplier policy) || SFltb (Multiplier policy) float_one)
    (errors_New "gateway-out tunnel reconnect multiplier must be finite and at least one");;
  reject_if (math_IsNaN (JitterRatio policy) || math_IsInf (JitterRatio policy) ||
             SFltb (JitterRatio policy) (S754_zero false) || SFltb float_one (JitterRatio policy))
    (errors_New "gateway-out tunnel reconnect jitter ratio must be between zero and one");;
  reject_if (StableResetAfter policy <=? 0)
    (errors_New "gateway-out tunnel reconnect stable reset duration must be positive").

Section validation.
Context `{ProtoRuntime}.

(** The clock and the jitter function are set by [normalizeConfig]. *)
Definition validateSettings (config : Config) (target : string) : result error unit :=
  reject_if (bool_decide (target = EmptyString)) (errors_New "gateway-out tunnel target must not be empty");;
  reject_if (negb (co_Logger config)) (errors_New "gateway-out tunnel logger must not be nil");;
  reject_if (negb (co_Telemetry config)) (errors_New "gateway-out tunnel telemetry must not be nil");;
  reject_if (allZero (co_InstanceID config)) (errors_New "gateway-out tunnel instance ID must not be zero");;
  reject_if ((co_ConnectTimeout config <=? 0) || (co_HandshakeTimeout config <=? 0))
    (errors_New "gateway-out tunnel connect and handshake timeouts must be positive");;
  reject_if ((co_KeepaliveTime config <=? 0) || (co_KeepaliveTimeout config <=? 0))
    (errors_New "gateway-out tunnel transport keepalive values must be positive");;
  reject_if ((co_PingInterval config <=? 0) || (co_PingTimeout config <=? 0))
    (errors_New "gateway-out tunnel application keepalive values must be positive");;
  reject_if (co_PingInterval config <=? co_PingTimeout config)
    (errors_New "gateway-out tunnel ping timeout must be less than ping interval");;
  reject_if (co_DrainTimeout config <=? 0) (errors_New "gateway-out tunnel drain timeout must be positive");;
  validateReconnectPolicy (co_Reconnect config);;
  validateOfferedLimits (co_Limits config);;
  validateClassLimits (co_ClassLimits config).

(** ** TLS *)

Context `{UrlPackage}.

(** [identities[0].String()] dereferences the pointer. *)
Definition hasExactURIIdentity (chains : list (list (option Certificate))) (expected : URL) : result error bool :=
  if len chains =? 0 then Ok false else
  chain ← index chains 0;
  if len chain =? 0 then Ok false else
  leaf ← index chain 0;
  match leaf with
  | None => Panic
  | Some leaf =>
      let identities := cert_URIs leaf in
      if negb (len identities =? 1) then Ok false else
      identity ← index identities 0;
      match identity with
      | None => Panic
      | Some identity => Ok (bool_decide (url_String identity = url_String expected))
      end
  end.

(** [tls.VersionTLS12] *)
Definition VersionTLS12 : Z := 771.

(** The [VerifyConnection] of the cloned configuration. *)
Definition verifyServer (expectedURI : URL) (callerVerify : option (TLSState -> result error unit)) (state : TLSState) :
    result error unit :=
  ok ← hasExactURIIdentity (VerifiedChains state) expectedURI;
  reject_if (negb ok) (errors_New "gateway-out tunnel server workload identity mismatch");;
  match callerVerify with
  | Some verify =>
      map_err (fun _ => errors_New "gateway-out tunnel additional server verification failed") (verify state)
  | None => Ok tt
  end.

Definition secureClientTLSConfig (config : option tlsConfig) (expectedIdentity : string) : result error tlsConfig :=
  match config with
  | None => Err (errors_New "gateway-out tunnel mTLS config is required")
  | Some config =>
      reject_if (InsecureSkipVerify config) (errors_New "gateway-out tunnel TLS InsecureSkipVerify is forbidden");;
      reject_if (bool_decide (trim_string (ServerName config) = EmptyString))
        (errors_New "gateway-out tunnel TLS server name is required");;
      reject_if (negb (RootCAs config)) (errors_New "gateway-out tunnel server CA pool is required");;
      reject_if ((Certificates config =? 0) && negb (GetClientCertificate config))
        (errors_New "gateway-out tunnel client certificate is required");;
      match url_Parse expectedIdentity with
      | None => Err (errors_New "gateway-out tunnel expected server identity is invalid")
      | Some expectedURI =>
          reject_if (bool_decide (url_Scheme expectedURI = EmptyString) || bool_decide (url_Host expectedURI = EmptyString) ||
                     negb (bool_decide (url_RawQuery expectedURI = EmptyString)) ||
                     negb (bool_decide (url_Fragment expectedURI = EmptyString)) ||
                     bool_decide (is_Some (url_User expectedURI)))
            (errors_New "gateway-out tunnel expected server identity is invalid");;
          let minVersion := if MinVersion config =? 0 then VersionTLS12 else MinVersion config in
          reject_if (minVersion <? VersionTLS12)
            (errors_New "gateway-out tunnel minimum TLS version must be TLS 1.2 or newer");;
          Ok (mkTlsConfig (InsecureSkipVerify config) (ServerName config) (RootCAs config) (Certificates config)
                (GetClientCertificate config) minVersion
                (Some (verifyServer expectedURI (VerifyConnection config))))
      end
  end.

Definition normalizeConfig (config : Config) : result error clientSettings :=
  let target := trim_string (co_Target config) in
  let expected := trim_string (co_ExpectedServerIdentity config) in
  validateSettings config target;;
  tls ← secureClientTLSConfig (co_TLSConfig config) expected;
  Ok (mkClientSettings target tls expected (co_ConnectTimeout config) (co_HandshakeTimeout config)
        (co_KeepaliveTime config) (co_KeepaliveTimeout config) (co_PingInterval config) (co_PingTimeout config)
        (GatewayOutRegistry.mkSettings (co_InstanceID config) (co_DrainTimeout config) (co_Limits config) (co_ClassLimits config))
        (co_Reconnect config)).
End validation.

(** ** The codec *)

(** [proto.MarshalOptions{Deterministic: true}.Marshal] of frames and of other
    messages, and [proto.UnmarshalOptions.Unmarshal] of other messages. *)
Class ProtoMarshal := {
  other_message : Type;
  marshal_request : ConnectRequest -> option bytes;
  marshal_response : ConnectResponse -> option bytes;
  marshal_other : other_message -> option bytes;
  unmarshal_other : bytes -> option other_message
}.

Inductive codec_error :=
| CodecFrame (e : frame_error)
| CodecMarshal
| CodecNotProto.

Section codec.
Context `{ProtoRuntime} `{ProtoMarshal}.

(** The values gRPC hands to the codec; a frame pointer can be nil. *)
Inductive codec_value :=
| ValueRequest (frame : option ConnectRequest)
| ValueResponse (frame : option ConnectResponse)
| ValueMessage (m : other_message)
| ValueOther.

Definition marshalled (b : option bytes) : result codec_error bytes :=
  match b with Some b => Ok b | None => Err CodecMarshal end.

Definition strictCodec_Marshal (value : codec_value) : result codec_error bytes :=
  match value with
  | ValueOther => Err CodecNotProto
  | ValueRequest frame =>
      map_err CodecFrame (ValidateGatewayOutFrame frame);;
      match frame with Some frame => marshalled (marshal_request frame) | None => Panic end
  | ValueResponse frame =>
      map_err CodecFrame (ValidateGatewayInFrame frame);;
      match frame with Some frame => marshalled (marshal_response frame) | None => Panic end
  | ValueMessage m => marshalled (marshal_other m)
  end.

(** The type of the target selects the decoder; a decoded frame replaces the
    content of the target. *)
Inductive codec_target := TargetResponse | TargetRequest | TargetMessage | TargetOther.

(** [None]: the scan of the frame ran out of fuel. *)
Definition strictCodec_Unmarshal (data : bytes) (target : codec_target) : option (result codec_error codec_value) :=
  match target with
  | TargetResponse =>
      decoded ← DecodeGatewayInFrame data; Some ((fun f => ValueResponse (Some f)) <$> map_err CodecFrame decoded)
  | TargetRequest =>
      decoded ← DecodeGatewayOutFrame data; Some ((fun f => ValueRequest (Some f)) <$> map_err CodecFrame decoded)
  | TargetMessage =>
      Some (match unmarshal_other data with Some m => Ok (ValueMessage m) | None => Err CodecMarshal end)
  | TargetOther => Some (Err CodecNotProto)
  end.

(** What [proto.Marshal] documents of one frame: the encoding is read back as the
    frame, and it consists of the header and of the field of the oneof. *)
Definition encodes_request (f : ConnectRequest) (data : bytes) : Prop :=
  unmarshal_request data = Some f /\ 0 < len data <= 2 ^ 20 /\
  exists fs, wire_fields data fs /\ one_header_one_payload 19 fs.

(** A frame that the codec of one end writes is exactly what the codec of the
    other end reads. *)
Lemma codec_round_trip `{!WireLaws} (f : ConnectRequest) (data : bytes) :
  strictCodec_Marshal (ValueRequest (Some f)) = Ok data -> encodes_request f data ->
  strictCodec_Unmarshal data TargetRequest = Some (Ok (ValueRequest (Some f))).
Proof.
  cbn [strictCodec_Marshal]. rewrite seq_Ok, map_err_Ok. intros [Hv Hm] (Hu & Hl & Hw). apply out_frame_Ok in Hv.
  unfold strictCodec_Unmarshal.
  destruct (decode_spec unmarshal_request (fun f => ValidateGatewayOutFrame (Some f)) gateway_out_frame_wf data 19
    out_frame_Ok out_frame_no_panic) as (r & Hr & _ & Hiff).
  change (DecodeGatewayOutFrame data = Some r) in Hr. rewrite Hr. cbn. rewrite (proj2 (Hiff f)); [done|].
  split_and!; try done; apply Hl.
Qed.

(** Nothing that is not a valid frame of the direction passes the codec. *)
Lemma codec_is_strict (data : bytes) (v : codec_value) `{!WireLaws} :
  (forall f, strictCodec_Marshal (ValueRequest f) = Ok data -> exists g, f = Some g /\ gateway_out_frame_wf g) /\
  (strictCodec_Unmarshal data TargetResponse = Some (Ok v) -> exists g, v = ValueResponse (Some g) /\ gateway_in_frame_wf g).
Proof.
  split.
  - intros f. cbn [strictCodec_Marshal]. rewrite seq_Ok, map_err_Ok. intros [Hv _]. destruct f as [f|]; [|done].
    exists f. split; [done|]. by apply out_frame_Ok.
  - unfold strictCodec_Unmarshal.
    destruct (decode_spec unmarshal_response (fun f => ValidateGatewayInFrame (Some f)) gateway_in_frame_wf data 18
      in_frame_Ok in_frame_no_panic) as (r & Hr & _ & Hiff).
    change (DecodeGatewayInFrame data = Some r) in Hr. rewrite Hr. cbn. destruct r as [f|e|]; [|done|done].
    intros [= <-]. exists f. split; [done|]. by apply (Hiff f).
Qed.
End codec.

(** ** Validated settings *)

Section validated.
Context `{ProtoRuntime} `{UrlPackage}.

Record reconnect_wf (p : ReconnectPolicy) : Prop := {
  rw_attempts : 0 < MaxAttempts p <= 100;
  rw_backoff : 0 < InitialBackoff p <= MaxBackoff p;
  rw_stable : 0 < StableResetAfter p;
  (** a machine number that passed the checks is a ratio *)
  rw_jitter : valid_binary 53 1024 (JitterRatio p) = true -> ratio_ok (JitterRatio p)
}.

Lemma validateReconnectPolicy_wf p : validateReconnectPolicy p = Ok tt -> reconnect_wf p.
Proof.
  unfold validateReconnectPolicy. intros Hv. go_inv Hv. go_bool. constructor; [lia|lia|lia|].
  intros Hm. apply ratio_checked; try done. by rewrite orb_false_iff.
Qed.

(** The server a connection may talk to: the leaf of the first verified chain
    carries exactly one URI, and it is the expected one. *)
Definition pinned_server (identity : string) (state : TLSState) : Prop :=
  exists leaf rest chains u expected,
    VerifiedChains state = (Some leaf :: rest) :: chains /\ cert_URIs leaf = [Some u] /\
    url_Parse identity = Some expected /\ url_String u = url_String expected.

Lemma hasExactURIIdentity_true chains expected :
  hasExactURIIdentity chains expected = Ok true <->
  exists leaf rest others u, chains = (Some leaf :: rest) :: others /\ cert_URIs leaf = [Some u] /\
    url_String u = url_String expected.
Proof.
  unfold hasExactURIIdentity. destruct chains as [|[|[leaf|] rest] others]; [naive_solver..| |naive_solver].
  rewrite len_cons. pose proof (len_nonneg others). pose proof (len_nonneg rest).
  rewrite (proj2 (Z.eqb_neq (1 + len others) 0)) by lia. rewrite index_0_cons. unfold mbind, result_bind.
  rewrite len_cons, (proj2 (Z.eqb_neq (1 + len rest) 0)) by lia. rewrite index_0_cons.
  destruct (cert_URIs leaf) as [|u [|u' us]] eqn:Hu.
  - change (len (@nil (option URL)) =? 1) with false. cbn [negb]. split; [done|].
    intros (? & ? & ? & ? & [= <- <- <-] & Hu' & _). congruence.
  - change (len [u] =? 1) with true. cbn [negb]. rewrite index_0_cons. destruct u as [u|]; [|split; [done|]; intros (? & ? & ? & ? & [= <- <- <-] & Hu' & _); congruence]. split.
    + intros [= Hb]. exists leaf, rest, others, u. by rewrite bool_decide_eq_true in Hb.
    + intros (? & ? & ? & ? & [= <- <- <-] & Hu' & Hs). rewrite Hu in Hu'. injection Hu' as <-.
      by rewrite bool_decide_eq_true_2.
  - rewrite !len_cons. pose proof (len_nonneg us). rewrite (proj2 (Z.eqb_neq _ 1)) by lia. cbn [negb]. split; [done|].
    intros (? & ? & ? & ? & [= <- <- <-] & Hu' & _). congruence.
Qed.

(** The TLS policy of gateway-out cannot be weakened by its configuration: an
    accepted configuration verifies certificates against a CA pool with TLS 1.2 or
    newer, presents a client certificate, keeps the verification of the caller,
    and completes no handshake with a server other than the expected workload. *)
Theorem client_tls_is_pinned (config : option tlsConfig) (identity : string) (t : tlsConfig) :
  secureClientTLSConfig config identity = Ok t ->
  InsecureSkipVerify t = false /\ RootCAs t = true /\ VersionTLS12 <= MinVersion t /\
  (Certificates t <> 0 \/ GetClientCertificate t = true) /\
  exists c verify, config = Some c /\ VerifyConnection t = Some verify /\
    forall state, verify state = Ok tt ->
      pinned_server identity state /\ forall v, VerifyConnection c = Some v -> v state = Ok tt.
Proof.
  unfold secureClientTLSConfig. destruct config as [c|]; [|done]. intros Hv. rewrite !guard_Ok in Hv.
  destruct Hv as (Hi & _ & Hca & Hcert & Hv). destruct (url_Parse identity) as [u|] eqn:Hp; [|done].
  rewrite !guard_Ok in Hv. destruct Hv as (_ & Hmin & [= <-]). cbn [InsecureSkipVerify RootCAs MinVersion Certificates GetClientCertificate VerifyConnection].
  go_bool. split_and!; [done|by destruct (RootCAs c)|lia| |].
  - destruct (Z.eqb_spec (Certificates c) 0); [|by left]. right. by destruct (GetClientCertificate c).
  - exists c, (verifyServer u (VerifyConnection c)). split_and!; [done|done|]. intros state. unfold verifyServer.
    rewrite bind_Ok. intros (ok & Hok & Hrest). rewrite guard_Ok, negb_false_iff in Hrest. destruct Hrest as [-> Hrest].
    apply hasExactURIIdentity_true in Hok as (leaf & rest & others & x & Hch & Hx & Hs). split.
    + exists leaf, rest, others, x, u. by rewrite Hp.
    + intros v Hc. rewrite Hc, map_err_Ok in Hrest. exact Hrest.
Qed.

(** What [normalizeConfig] guarantees of the settings. *)
Lemma normalizeConfig_wf config cs :
  normalizeConfig config = Ok cs ->
  reconnect_wf (cs_reconnect cs) /\
  validateOfferedLimits (GatewayOutRegistry.set_limits (cs_session cs)) = Ok tt /\
  validateClassLimits (GatewayOutRegistry.set_classLimits (cs_session cs)) = Ok tt /\
  GatewayOutRegistry.set_instanceID (cs_session cs) = co_InstanceID config /\
  0 < cs_pingTimeout cs < cs_pingInterval cs /\
  0 < GatewayOutRegistry.set_drainTimeout (cs_session cs).
Proof.
  unfold normalizeConfig. rewrite seq_Ok, bind_Ok. intros (Hv & tls & _ & [= <-]).
  unfold validateSettings in Hv. rewrite !guard_Ok, !seq_Ok in Hv.
  cbn [cs_session cs_reconnect cs_pingTimeout cs_pingInterval GatewayOutRegistry.set_limits GatewayOutRegistry.set_classLimits
       GatewayOutRegistry.set_instanceID GatewayOutRegistry.set_drainTimeout].
  destruct Hv as (_ & _ & _ & _ & _ & _ & Hping & Hlt & Hdrain & Hrec & Hlim & Hcls). go_bool.
  split_and!; try done; try lia. by apply validateReconnectPolicy_wf.
Qed.
End validated.
