(* ===== verification/GatewayOutClient.v ===== *)
(** * The tunnel client of gateway-out

    [services/gateway-out/internal/tunnel/client.go]: the loop that keeps one
    session at a time, its backoff, readiness and shutdown.  A session is what
    [GatewayOutSession] models; here it is opened, ends, or is drained.  Contexts,
    timers and the outcome of a connection attempt are inputs. *)

From Stdlib Require Import Floats.SpecFloat.
From S2P Require Import Prelude GoStrings GoFloat TunnelContract TunnelRuntime TunnelValidate TunnelValidateProofs.
From S2P Require Import GatewayInErrors GatewayInConfig GatewayInNegotiation GatewayOutRegistry GatewayOutSession GatewayOutSample GatewayOutTunnel GatewayOutConfig.
Local Open Scope Z_scope.

(** ** Backoff *)

Section backoff.
(** The conversion of a number that [time.Duration] cannot represent. *)
Context (unrepresentable : float64 -> Z).

(** The loop over the failures. *)
Fixpoint backoff_loop (policy : ReconnectPolicy) (n : nat) (delay : Z) : Z :=
  match n with
  | O => delay
  | S n =>
      let next := Duration_of_float unrepresentable (float_mul (float_of_Duration delay) (Multiplier policy)) in
      if (next <? delay) || (MaxBackoff policy <? next) then MaxBackoff policy
      else backoff_loop policy n next
  end.

(** [jitter] is the configured source of randomness. *)
Definition backoff (policy : ReconnectPolicy) (jitter : Z -> Z) (failures : Z) : Z :=
  let delay := backoff_loop policy (Z.to_nat ((failures - 1) `max` 0)) (InitialBackoff policy) in
  let jitterBound := Duration_of_float unrepresentable (float_mul (float_of_Duration delay) (JitterRatio policy)) in
  if jitterBound <=? 0 then delay else
  let bound := i64 (2 * jitterBound) in
  let random := jitter bound in
  let random := if (random <? 0) || (bound <? random) then jitterBound else random in
  i64 (i64 (delay - jitterBound) + random) `min` MaxBackoff policy.

(** [cryptoJitter], with the result of [rand.Int] as an input *)
Definition cryptoJitter (random : Z -> option Z) (maximum : Z) : Z :=
  if maximum <=? 0 then 0 else
  match random (maximum + 1) with
  | Some value => value
  | None => 0
  end.

Lemma backoff_loop_bounds policy n : forall delay,
  0 < delay <= MaxBackoff policy -> delay <= backoff_loop policy n delay <= MaxBackoff policy.
Proof.
  induction n as [|n IH]; intros delay Hd; simpl; [lia|].
  set (next := Duration_of_float _ _). destruct (Z.ltb_spec next delay); [simpl; lia|].
  destruct (Z.ltb_spec (MaxBackoff policy) next); simpl; [lia|]. specialize (IH next). lia.
Qed.

(** The delay before a new attempt stays within the policy: the exponential
    part grows from the initial to the maximal backoff whatever the floating
    point product is, the jitter is at most the delay and moves it by at most that
    much in either direction, a jitter source that returns a value out of range is
    replaced by the middle of the range, and the result is neither negative nor
    above the maximum.  Durations are below [2 ^ 53] nanoseconds (104 days). *)
Theorem backoff_within_policy (policy : ReconnectPolicy) (jitter : Z -> Z) (failures : Z) :
  validateReconnectPolicy policy = Ok tt -> valid_binary 53 1024 (JitterRatio policy) = true ->
  MaxBackoff policy < 2 ^ 53 ->
  exists delay bound : Z, InitialBackoff policy <= delay <= MaxBackoff policy /\
    bound = Duration_of_float unrepresentable (float_mul (float_of_Duration delay) (JitterRatio policy)) /\
    0 <= bound <= delay /\
    (delay - bound) <= backoff policy jitter failures <= (delay + bound) `min` MaxBackoff policy.
Proof.
  intros Hw%validateReconnectPolicy_wf Hv Hmax. destruct (rw_backoff _ Hw). pose proof (rw_jitter _ Hw Hv) as Hratio.
  pose proof (backoff_loop_bounds policy (Z.to_nat ((failures - 1) `max` 0)) (InitialBackoff policy) ltac:(lia)) as Hd.
  unfold backoff. cbv zeta. set (delay := backoff_loop _ _ _) in *. exists delay.
  pose proof (scaled_at_most unrepresentable delay _ ltac:(lia) Hratio) as Hj. set (jb := Duration_of_float _ _) in *.
  exists jb. split; [done|]. split; [done|]. split; [done|].
  destruct (Z.leb_spec jb 0) as [Hj0|Hj0]; [lia|]. rewrite (i64_small (2 * jb)) by lia.
  set (random := if (jitter (2 * jb) <? 0) || (2 * jb <? jitter (2 * jb)) then jb else jitter (2 * jb)). assert (0 <= random <= 2 * jb) as Hr.
  { unfold random. destruct (Z.ltb_spec (jitter (2 * jb)) 0); [simpl; lia|].
    destruct (Z.ltb_spec (2 * jb) (jitter (2 * jb))); simpl; lia. }
  rewrite (i64_small (delay - jb)), i64_small by lia. lia.
Qed.
End backoff.

(** ** The client *)

Inductive client_error :=
| ErrClientUsed
| ErrReconnectExhausted.

(** Where [Run] is. *)
Inductive run_pc :=
| NotRunning
(** in [waitBackoff] *)
| BackingOff (delay : Z)
(** in [openSession] *)
| Opening
(** in the [select], with the session [id] *)
| Serving (id : bytes) (started : Z)
| Returned (err : option client_error).

#[export] Instance run_pc_eq_dec : EqDecision run_pc.
Proof. assert (EqDecision client_error) by solve_decision. solve_decision. Defined.

(** How an attempt ended; a record of the loop that no code reads. *)
Inductive attempt :=
| OpenFailed
| SessionLost (lasted : Z)
| ReconnectRequested.

Record client := mkClient {
  c_settings : clientSettings;
  used : bool;
  isReady : bool;
  c_serverInstanceID : bytes;
  reconnect : chan unit;
  (** [stopCtx.Err() != nil] *)
  stopped : bool;
  (** the deadline of the context of the first [Shutdown], if it was called and
      if it has one *)
  shutdownCtx : option (option Z);
  (** [done] is closed *)
  runDone : bool;
  (** [ctx.Err() != nil] for the context of [Run] *)
  rootDone : bool;
  failures : Z;
  pc : run_pc;
  attempts : list attempt
}.

Definition zero_id : bytes := replicate 16 0.

(** [NewClient]; [observer] tells whether the instruments could be created. *)
Definition NewClient `{ProtoRuntime} `{UrlPackage} `{InternalRpc} (config : Config) (registry : option Registry)
    (observer : bool) : result error client :=
  match registry with
  | None => Err (errors_New "gateway-out tunnel registry must not be nil")
  | Some reg =>
      settings ← normalizeConfig config;
      reject_if (negb (forallb (fun class => bool_decide (is_Some (GatewayOutRegistry.set_classLimits (cs_session settings) !! class)))
                         (advertisedClasses reg)))
        (errors_New "gateway-out tunnel class is not configured");;
      reject_if (negb observer) (errors_New "telemetry");;
      Ok (mkClient settings false false zero_id (mkChan 1 []) false None false false 0 NotRunning [])
  end.

Definition set_ready (c : client) (ready : bool) (id : bytes) : client :=
  mkClient (c_settings c) (used c) ready id (reconnect c) (stopped c) (shutdownCtx c) (runDone c) (rootDone c) (failures c) (pc c)
    (attempts c).
Definition set_pc (c : client) (p : run_pc) : client :=
  mkClient (c_settings c) (used c) (isReady c) (c_serverInstanceID c) (reconnect c) (stopped c) (shutdownCtx c) (runDone c)
    (rootDone c) (failures c) p (attempts c).
Definition set_failures (c : client) (n : Z) (a : attempt) : client :=
  mkClient (c_settings c) (used c) (isReady c) (c_serverInstanceID c) (reconnect c) (stopped c) (shutdownCtx c) (runDone c)
    (rootDone c) n (pc c) (attempts c ++ [a]).
Definition set_reconnect (c : client) (ch : chan unit) : client :=
  mkClient (c_settings c) (used c) (isReady c) (c_serverInstanceID c) ch (stopped c) (shutdownCtx c) (runDone c)
    (rootDone c) (failures c) (pc c) (attempts c).

Definition markReady (c : client) (instanceID : bytes) : client := set_ready c true instanceID.
Definition markNotReady (c : client) : client := set_ready c false zero_id.

Definition IsReady (c : option client) : bool := match c with None => false | Some c => isReady c end.

Definition RequestReconnect (c : client) : client :=
  set_reconnect c (default (reconnect c) (try_send (reconnect c) tt)).

(** The deadline of the drain of a session that [Shutdown] stops. *)
Definition drainContext (c : client) (now : Z) : Z :=
  let timeout := now + GatewayOutRegistry.set_drainTimeout (cs_session (c_settings c)) in
  match shutdownCtx c with
  | Some (Some deadline) => deadline `min` timeout
  | _ => timeout
  end.

(** [Shutdown] up to its wait: only the first call has an effect. *)
Definition Shutdown (c : client) (deadline : option Z) : client :=
  match shutdownCtx c with
  | Some _ => c
  | None =>
      mkClient (c_settings c) (used c) (isReady c) (c_serverInstanceID c) (reconnect c) true (Some deadline) (runDone c)
        (rootDone c) (failures c) (pc c) (attempts c)
  end.

(** The wait of [Shutdown]: [None] while it waits, else whether it timed out. *)
Definition Shutdown_wait (c : client) (ctxDone : bool) : option bool :=
  if runDone c then Some false else if ctxDone then Some true else None.

Section run.
Context (unrepresentable : float64 -> Z) (jitter : Z -> Z).

(** The deferred calls: [close(client.done)] runs before [markNotReady]. *)
Definition run_return (c : client) (err : option client_error) : client :=
  markNotReady (mkClient (c_settings c) (used c) (isReady c) (c_serverInstanceID c) (reconnect c) (stopped c) (shutdownCtx c) true
    (rootDone c) (failures c) (Returned err) (attempts c)).

(** The head of the loop. *)
Definition loop_top (c : client) : client :=
  if 0 <? failures c
  then set_pc c (BackingOff (backoff unrepresentable (cs_reconnect (c_settings c)) jitter (failures c)))
  else set_pc c Opening.

(** [failures++] and the test that follows it. *)
Definition count_failure (c : client) (n : Z) (a : attempt) : client :=
  let c := set_failures c (n + 1) a in
  if MaxAttempts (cs_reconnect (c_settings c)) <=? failures c then run_return c (Some ErrReconnectExhausted)
  else loop_top c.

(** A call of [Run]. *)
Definition Run_begin (c : client) : client * option client_error :=
  if used c then (c, Some ErrClientUsed) else
  let c := mkClient (c_settings c) true false (c_serverInstanceID c) (reconnect c) (stopped c) (shutdownCtx c) (runDone c)
             (rootDone c) (failures c) (pc c) (attempts c) in
  (loop_top c, None).

(** [waitBackoff]: the timer fires, or a context ends. *)
Definition backoff_fires (c : client) : client := set_pc c Opening.
Definition backoff_stops (c : client) : option client :=
  if rootDone c || stopped c then Some (run_return c None) else None.

(** [openSession] returned. *)
Definition open_succeeds (c : client) (id : bytes) (now : Z) : client := set_pc (markReady c id) (Serving id now).
Definition open_fails (c : client) : client :=
  if rootDone c || stopped c then run_return c None else count_failure c (failures c) OpenFailed.

(** The four cases of the [select]; each drains or abandons the session first. *)
Definition serve_root_done (c : client) : option client :=
  if rootDone c then Some (run_return (markNotReady c) None) else None.
Definition serve_stopped (c : client) : option client :=
  if stopped c then Some (run_return (markNotReady c) None) else None.
Definition serve_reconnect (c : client) : option client :=
  '(_, ch) ← try_recv (reconnect c);
  Some (loop_top (set_failures (markNotReady (set_reconnect c ch)) 0 ReconnectRequested)).
Definition serve_session_ends (c : client) (started now : Z) : client :=
  let c := markNotReady c in
  let n := if StableResetAfter (cs_reconnect (c_settings c)) <=? now - started then 0 else failures c in
  count_failure c n (SessionLost (now - started)).

Inductive client_event :=
| CallRun
| CallShutdown (deadline : option Z)
| CallRequestReconnect
| RootDone
| BackoffFires
| BackoffStops
| OpenSucceeds (id : bytes) (now : Z)
| OpenFails
| ServeRootDone
| ServeStopped
| ServeReconnect
| SessionEnds (now : Z).

Definition set_rootDone (c : client) : client :=
  mkClient (c_settings c) (used c) (isReady c) (c_serverInstanceID c) (reconnect c) (stopped c) (shutdownCtx c) (runDone c)
    true (failures c) (pc c) (attempts c).

(** [None]: the event cannot happen in this state. *)
Definition client_step (c : client) (e : client_event) : option client :=
  match e, pc c with
  | CallRun, _ => Some (Run_begin c).1
  | CallShutdown deadline, _ => Some (Shutdown c deadline)
  | CallRequestReconnect, _ => Some (RequestReconnect c)
  | RootDone, _ => Some (set_rootDone c)
  | BackoffFires, BackingOff _ => Some (backoff_fires c)
  | BackoffStops, BackingOff _ => backoff_stops c
  | OpenSucceeds id now, Opening => Some (open_succeeds c id now)
  | OpenFails, Opening => Some (open_fails c)
  | ServeRootDone, Serving _ _ => serve_root_done c
  | ServeStopped, Serving _ _ => serve_stopped c
  | ServeReconnect, Serving _ _ => serve_reconnect c
  | SessionEnds now, Serving _ started => Some (serve_session_ends c started now)
  | _, _ => None
  end.

(** The states of a client that [NewClient] returned. *)
Inductive client_reachable (c0 : client) : client -> Prop :=
| client_start : client_reachable c0 c0
| client_next c e c' : client_reachable c0 c -> client_step c e = Some c' -> client_reachable c0 c'.
End run.

(** ** The invariant of the loop *)

Definition stable (p : ReconnectPolicy) (a : attempt) : Prop :=
  match a with SessionLost d => StableResetAfter p <= d | _ => False end.

(** [n] is the number of the last attempts that failed in a row: none of them was
    a requested reconnect, only the first may have been a stable session, and
    they are preceded by nothing, by a requested reconnect, or their first is a
    stable session. *)
Definition streak (p : ReconnectPolicy) (l : list attempt) (n : Z) : Prop :=
  exists pre suf, l = pre ++ suf /\ len suf = n /\ Forall (fun a => a <> ReconnectRequested) suf /\
    Forall (fun a => ~ stable p a) (tail suf) /\
    (pre = [] \/ last pre = Some ReconnectRequested \/ exists a, head suf = Some a /\ stable p a).

Definition running (c : client) : Prop :=
  match pc c with NotRunning | Returned _ => False | _ => True end.

Definition serving (c : client) : option bytes :=
  match pc c with Serving id _ => Some id | _ => None end.

Record client_inv (policy : ReconnectPolicy) (c : client) : Prop := {
  ci_policy : cs_reconnect (c_settings c) = policy;
  ci_ready : isReady c = bool_decide (is_Some (serving c)) /\ c_serverInstanceID c = default zero_id (serving c);
  ci_used : used c = negb (bool_decide (pc c = NotRunning));
  ci_done : runDone c = true <-> exists err, pc c = Returned err;
  ci_streak : streak policy (attempts c) (failures c);
  ci_bound : running c -> 0 <= failures c < MaxAttempts policy;
  ci_backoff : forall d, pc c = BackingOff d -> 0 < failures c;
  ci_idle : pc c = NotRunning -> failures c = 0;
  ci_result : forall err, pc c = Returned (Some err) -> err = ErrReconnectExhausted /\ failures c = MaxAttempts policy;
  ci_channel : chan_cap (reconnect c) = 1
}.

Lemma streak_failed p l n a : ~ stable p a -> a <> ReconnectRequested -> streak p l n -> streak p (l ++ [a]) (n + 1).
Proof.
  intros Hs Hr (pre & suf & -> & Hn & Hreq & Hst & Hpre). exists pre, (suf ++ [a]).
  rewrite <- app_assoc, len_app. change (len [a]) with 1. split_and!; [done|lia|by apply Forall_app; split; [|constructor]| |].
  - destruct suf as [|b suf]; [by constructor|]. cbn [tail app]. apply Forall_app. by split; [|constructor].
  - destruct Hpre as [?|[?|(b & Hb & ?)]]; [by left|by right; left|]. right. right. exists b. by destruct suf.
Qed.

Lemma streak_stable p l d : StableResetAfter p <= d -> streak p (l ++ [SessionLost d]) 1.
Proof.
  intros Hd. exists l, [SessionLost d]. split_and!; [done|done|by repeat constructor|by constructor|].
  right. right. by exists (SessionLost d).
Qed.

Lemma streak_requested p l : streak p (l ++ [ReconnectRequested]) 0.
Proof.
  exists (l ++ [ReconnectRequested]), []. rewrite app_nil_r. split_and!; [done|done|by constructor|by constructor|].
  right. left. by rewrite last_snoc.
Qed.

Section preservation.
Context (unrepresentable : float64 -> Z) (jitter : Z -> Z) (policy : ReconnectPolicy) (wf : reconnect_wf policy).

Abbreviation inv := (client_inv policy).
Abbreviation top := (loop_top unrepresentable jitter).

(** The part of the invariant that the head of the loop relies on. *)
Definition at_top (c : client) : Prop :=
  cs_reconnect (c_settings c) = policy /\ isReady c = false /\ c_serverInstanceID c = zero_id /\ used c = true /\
  runDone c = false /\ streak policy (attempts c) (failures c) /\ 0 <= failures c < MaxAttempts policy /\
  chan_cap (reconnect c) = 1.

Lemma loop_top_inv c : at_top c -> inv (top c).
Proof.
  intros (Hp & Hr & Hid & Hu & Hd & Hs & Hf & Hc). unfold loop_top. destruct (Z.ltb_spec 0 (failures c));
    (constructor; cbn [set_pc c_settings isReady serving pc c_serverInstanceID used runDone attempts failures running reconnect];
     try done; try (by rewrite Hd; split; [done|intros [? ?]]); try lia; by intros).
Qed.

Lemma run_return_inv c err :
  cs_reconnect (c_settings c) = policy -> used c = true -> streak policy (attempts c) (failures c) ->
  chan_cap (reconnect c) = 1 ->
  (forall e, err = Some e -> e = ErrReconnectExhausted /\ failures c = MaxAttempts policy) -> inv (run_return c err).
Proof.
  intros Hp Hu Hs Hc He. constructor; cbn; try done.
  - split; [|done]. by exists err.
  - intros e [= ->]. by apply He.
Qed.

Lemma count_failure_inv c n a :
  at_top c -> streak policy (attempts c ++ [a]) (n + 1) -> 0 <= n < MaxAttempts policy ->
  inv (count_failure unrepresentable jitter c n a).
Proof.
  intros (Hp & Hr & Hid & Hu & Hd & _ & _ & Hc) Hs Hn. unfold count_failure. cbn [set_failures c_settings failures].
  rewrite Hp. destruct (Z.leb_spec (MaxAttempts policy) (n + 1)).
  - apply run_return_inv; try done. intros e [= <-]. cbn. split; [done|lia].
  - apply loop_top_inv. unfold at_top. cbn. split_and!; try done; lia.
Qed.

(** Leaving a session makes the client not ready. *)
Lemma not_ready_top c : inv c -> running c -> at_top (markNotReady c).
Proof.
  intros [Hp _ Hu Hd Hs Hb _ _ _ Hc] Hrun. unfold at_top. cbn. unfold running in *.
  assert (used c = true) by (rewrite Hu; destruct (pc c); done).
  assert (runDone c = false).
  { destruct (runDone c) eqn:Hdone; [|done]. destruct (proj1 Hd eq_refl) as [err Herr]. by rewrite Herr in Hrun. }
  split_and!; try done; by apply Hb.
Qed.

Lemma not_ready_id c : inv c -> serving c = None -> markNotReady c = c.
Proof.
  intros [_ [Hr Hid] _ _ _ _ _ _ _ _] Hs. rewrite Hs in Hr, Hid. destruct c. unfold markNotReady, set_ready. cbn in *. by subst.
Qed.

Lemma client_step_inv c e c' : inv c -> client_step unrepresentable jitter c e = Some c' -> inv c'.
Proof using wf.
  intros Hi. pose proof Hi as [Hp [Hr Hid] Hu Hd Hs Hb Hbo Hidle Hres Hc]. unfold client_step.
  destruct e as [|deadline| | | | |id now| | | | |now].
  - intros [= <-]. unfold Run_begin. destruct (used c) eqn:Husd; [exact Hi|]. cbn [fst]. apply loop_top_inv.
    assert (pc c = NotRunning) as Hpc by (destruct (decide (pc c = NotRunning)); [done|rewrite bool_decide_eq_false_2 in Hu; done]).
    unfold at_top, serving in *. rewrite Hpc in *. cbn in *. rewrite (Hidle eq_refl) in *.
    assert (runDone c = false) by (destruct (runDone c); [destruct (proj1 Hd eq_refl) as [? [=]]|done]).
    destruct (rw_attempts _ wf). split_and!; try done.
  - intros [= <-]. unfold Shutdown. destruct (shutdownCtx c); [exact Hi|]. by constructor.
  - intros [= <-]. unfold RequestReconnect, try_send. destruct (len _ <? chan_cap _); by constructor.
  - intros [= <-]. by constructor.
  - destruct (pc c) eqn:Hpc; try done. intros [= <-]. unfold backoff_fires, set_pc, serving in *.
    rewrite Hpc in *. unfold running in *. rewrite Hpc in *.
    constructor; cbn; try done. split; [|by intros [? ?]]. intros [? [=]]%Hd.
  - destruct (pc c) eqn:Hpc; try done. unfold backoff_stops. destruct (_ || _); [|done]. intros [= <-].
    apply run_return_inv; done.
  - destruct (pc c) eqn:Hpc; try done. intros [= <-]. unfold open_succeeds, set_pc, running in *. rewrite Hpc in *.
    constructor; cbn; try done. split; [|by intros [? ?]]. intros [? [=]]%Hd.
  - destruct (pc c) eqn:Hpc; try done. intros [= <-]. unfold open_fails. destruct (_ || _).
    + apply run_return_inv; done.
    + assert (running c) as Hrun by (unfold running; by rewrite Hpc).
      assert (serving c = None) as Hns by (unfold serving; by rewrite Hpc).
      pose proof (not_ready_top _ Hi Hrun) as Htop. rewrite (not_ready_id _ Hi Hns) in Htop.
      apply count_failure_inv; [done| |by apply Hb]. apply streak_failed; [by intros []|done|done].
  - destruct (pc c) eqn:Hpc; try done. unfold serve_root_done. destruct (rootDone c); [|done]. intros [= <-].
    apply run_return_inv; done.
  - destruct (pc c) eqn:Hpc; try done. unfold serve_stopped. destruct (stopped c); [|done]. intros [= <-].
    apply run_return_inv; done.
  - destruct (pc c) eqn:Hpc; try done. unfold serve_reconnect. destruct (try_recv (reconnect c)) as [[u ch]|] eqn:Hch; [|done].
    intros [= <-]. apply loop_top_inv. assert (running c) as Hrun by (unfold running; by rewrite Hpc).
    destruct (not_ready_top _ Hi Hrun) as (_ & _ & _ & Hu1 & Hd1 & _ & _ & Hc1). cbn in *.
    destruct (rw_attempts _ wf). unfold at_top. cbn. split_and!; try done.
    + apply streak_requested.
    + unfold try_recv in Hch. destruct (chan_buf (reconnect c)); [done|]. injection Hch as _ <-. done.
  - destruct (pc c) as [| | |id started|] eqn:Hpc; try done. intros [= <-].
    assert (running c) as Hrun by (unfold running; by rewrite Hpc).
    pose proof (not_ready_top _ Hi Hrun) as Htop. specialize (Hb Hrun). destruct (rw_attempts _ wf).
    unfold serve_session_ends. cbn [markNotReady set_ready c_settings failures]. rewrite Hp.
    destruct (Z.leb_spec (StableResetAfter policy) (now - started)); (apply count_failure_inv; [done| |lia]).
    + by apply streak_stable.
    + apply streak_failed; [cbn; lia|done|done].
Qed.

Lemma client_reachable_inv c0 c : inv c0 -> client_reachable unrepresentable jitter c0 c -> inv c.
Proof using wf. intros H0. induction 1 as [|c e c' _ IH Hs]; [done|]. by eapply client_step_inv. Qed.
End preservation.

(** ** Reading the server identifier

    [markReady], [markNotReady] and [ServerInstanceID] access by access: the flag
    is atomic, the identifier is under a read-write lock. *)

(** Where the goroutine of [Run] is. *)
Inductive writer :=
| WriterIdle
(** [markReady] stored the identifier *)
| WriterStored (id : bytes)
| WriterReady (id : bytes)
(** [markNotReady] cleared the flag *)
| WriterCleared.

(** Where a call of [ServerInstanceID] is. *)
Inductive reader :=
| ReaderStart
(** the first load returned true *)
| ReaderWaits
(** it holds the read lock *)
| ReaderLocked
(** the second load returned true while the session [id] was ready *)
| ReaderChecked (id : bytes)
(** it returned the identifier, if any, and the session of the second load *)
| ReaderReturned (result : option bytes) (during : bytes).

Record readiness := mkReadiness {
  r_ready : bool;
  r_id : bytes;
  r_writer : writer;
  r_readers : list reader
}.

Definition holds_lock (r : reader) : bool := match r with ReaderLocked | ReaderChecked _ => true | _ => false end.
(** [serverMu.Lock()] succeeds *)
Definition unlocked (s : readiness) : bool := forallb (fun r => negb (holds_lock r)) (r_readers s).

Inductive readiness_event :=
| StoreID (id : bytes)
| StoreReady
| ClearReady
| ClearID
| NewReader
| ReaderStep (i : nat).

Definition markReady_store (s : readiness) (id : bytes) : option readiness :=
  match r_writer s with
  | WriterIdle => if unlocked s then Some (mkReadiness (r_ready s) id (WriterStored id) (r_readers s)) else None
  | _ => None
  end.
Definition markReady_flag (s : readiness) : option readiness :=
  match r_writer s with
  | WriterStored id => Some (mkReadiness true (r_id s) (WriterReady id) (r_readers s))
  | _ => None
  end.
Definition markNotReady_flag (s : readiness) : option readiness :=
  match r_writer s with
  | WriterIdle | WriterReady _ => Some (mkReadiness false (r_id s) WriterCleared (r_readers s))
  | _ => None
  end.
Definition markNotReady_store (s : readiness) : option readiness :=
  match r_writer s with
  | WriterCleared => if unlocked s then Some (mkReadiness (r_ready s) zero_id WriterIdle (r_readers s)) else None
  | _ => None
  end.

(** The session that is ready, for the record of a reader. *)
Definition ready_session (s : readiness) : bytes := match r_writer s with WriterReady id => id | _ => zero_id end.

Definition ServerInstanceID_step (s : readiness) (r : reader) : reader :=
  match r with
  | ReaderStart => if r_ready s then ReaderWaits else ReaderReturned None zero_id
  | ReaderWaits => ReaderLocked
  | ReaderLocked => if r_ready s then ReaderChecked (ready_session s) else ReaderReturned None zero_id
  | ReaderChecked id => ReaderReturned (Some (r_id s)) id
  | ReaderReturned _ _ => r
  end.

Definition readiness_step (s : readiness) (e : readiness_event) : option readiness :=
  match e with
  | StoreID id => markReady_store s id
  | StoreReady => markReady_flag s
  | ClearReady => markNotReady_flag s
  | ClearID => markNotReady_store s
  | NewReader => Some (mkReadiness (r_ready s) (r_id s) (r_writer s) (r_readers s ++ [ReaderStart]))
  | ReaderStep i =>
      r ← r_readers s !! i;
      Some (mkReadiness (r_ready s) (r_id s) (r_writer s) (<[i := ServerInstanceID_step s r]> (r_readers s)))
  end.

Fixpoint readiness_run (s : readiness) (es : list readiness_event) : option readiness :=
  match es with
  | [] => Some s
  | e :: es => s ← readiness_step s e; readiness_run s es
  end.

Definition readiness_start : readiness := mkReadiness false zero_id WriterIdle [].

Section published.
(** The identifiers that [markReady] stored so far. *)
Implicit Types stored : list bytes.

(** A reader holds the lock only while the identifier is the one it checked. *)
Definition reader_ok stored (s : readiness) (r : reader) : Prop :=
  match r with
  | ReaderChecked id => r_id s = id /\ (r_writer s = WriterReady id \/ r_writer s = WriterCleared) /\ id ∈ stored
  | ReaderReturned (Some result) during => result = during /\ result ∈ stored
  | _ => True
  end.

Record readiness_inv stored (s : readiness) : Prop := {
  ri_writer : match r_writer s with
              | WriterReady id => r_ready s = true /\ r_id s = id /\ id ∈ stored
              | WriterStored id => r_ready s = false /\ r_id s = id /\ id ∈ stored
              | _ => r_ready s = false
              end;
  ri_readers : Forall (reader_ok stored s) (r_readers s)
}.

Definition stores (e : readiness_event) : list bytes := match e with StoreID id => [id] | _ => [] end.

Lemma reader_ok_mono stored more s r : reader_ok stored s r -> reader_ok (stored ++ more) s r.
Proof. destruct r as [| | |id|[]]; cbn; try done; intros; rewrite elem_of_app; tauto. Qed.

(** A store under the lock disturbs no reader. *)
Lemma unlocked_readers stored s s' :
  unlocked s = true -> Forall (reader_ok stored s) (r_readers s) -> Forall (reader_ok stored s') (r_readers s).
Proof.
  unfold unlocked. rewrite forallb_forall. intros Hu. rewrite !Forall_forall. intros Hr r Hin.
  specialize (Hr _ Hin). apply list_elem_of_In, Hu in Hin. destruct r as [| | | |[]]; done.
Qed.

Lemma readiness_step_inv stored s e s' :
  readiness_inv stored s -> readiness_step s e = Some s' -> readiness_inv (stored ++ stores e) s'.
Proof.
  intros [Hw Hr]. destruct e as [id| | | | |i]; cbn [readiness_step stores]; rewrite ?app_nil_r.
  - unfold markReady_store. destruct (r_writer s); try done. destruct (unlocked s) eqn:Hu; [|done]. intros [= <-].
    split; [cbn; rewrite elem_of_app, list_elem_of_singleton; auto|]. apply (unlocked_readers _ s); [done|].
    eapply Forall_impl; [exact Hr|]. intros. by apply reader_ok_mono.
  - unfold markReady_flag. destruct (r_writer s) as [|id| |] eqn:Hwr; try done. intros [= <-]. split; [by destruct Hw|].
    eapply Forall_impl; [exact Hr|]. intros r. destruct r as [| | |?|[]]; try done. unfold reader_ok. rewrite Hwr. naive_solver.
  - unfold markNotReady_flag. destruct (r_writer s) eqn:Hwr; try done; intros [= <-]; (split; [done|]);
      (eapply Forall_impl; [exact Hr|]); intros r; destruct r as [| | |?|[]]; try done; unfold reader_ok; cbn [r_id r_writer]; naive_solver.
  - unfold markNotReady_store. destruct (r_writer s); try done. destruct (unlocked s) eqn:Hu; [|done]. intros [= <-].
    split; [done|]. by apply (unlocked_readers _ s).
  - intros [= <-]. split; [done|]. apply Forall_app. split; [exact Hr|]. by repeat constructor.
  - destruct (r_readers s !! i) as [r|] eqn:Hi; [|done]. intros [= <-]. split; [done|]. cbn [r_readers].
    apply Forall_insert; [exact Hr|]. pose proof (Forall_lookup_1 _ _ _ _ Hr Hi) as Hok.
    unfold ServerInstanceID_step. destruct r as [| | |id|]; [by destruct (r_ready s)|done| | |exact Hok].
    + destruct (r_ready s) eqn:Hready; [|done]. unfold reader_ok, ready_session. cbn [r_id r_writer].
      destruct (r_writer s); try (exfalso; naive_solver congruence). destruct Hw as (_ & ? & ?). auto.
    + destruct Hok as (<- & _ & ?). done.
Qed.
End published.

(** A reader never sees a torn identifier: in every interleaving of the
    goroutine of [Run] with any number of calls, a call of [ServerInstanceID] that
    returns an identifier returns that of the session which was ready when it
    checked the flag under the lock, never a cleared one and never the one of a
    session that is still being published. *)
Theorem server_identifier_is_current (es : list readiness_event) (s : readiness) (i : nat) (result during : bytes) :
  readiness_run readiness_start es = Some s -> r_readers s !! i = Some (ReaderReturned (Some result) during) ->
  result = during /\ StoreID result ∈ es.
Proof.
  intros Hrun Hi. assert (Hgen : forall es stored s0, readiness_inv stored s0 -> readiness_run s0 es = Some s ->
    readiness_inv (stored ++ concat (stores <$> es)) s).
  { clear. induction es as [|e es IH]; intros stored s0 H0; cbn; [intros [= <-]; by rewrite app_nil_r|].
    destruct (readiness_step s0 e) as [s1|] eqn:Hs; [|done]. cbn. intros Hrun. rewrite (assoc_L (++)). eapply IH; [|done].
    by eapply readiness_step_inv. }
  destruct (Hgen es [] readiness_start ltac:(by split) Hrun) as [_ Hr].
  destruct (Forall_lookup_1 _ _ _ _ Hr Hi) as [-> Hin]. split; [done|]. cbn [app] in Hin.
  apply list_elem_of_In, in_concat in Hin as (l & Hl & Hin). apply list_elem_of_In, list_elem_of_fmap in Hl as (e & -> & He).
  destruct e; cbn in Hin; try done. destruct Hin as [->|[]]. done.
Qed.

(** ** New clients *)

Section new_client.
Context `{ProtoRuntime} `{UrlPackage} `{InternalRpc}.

Lemma NewClient_inv config registry observer c0 :
  NewClient config registry observer = Ok c0 ->
  exists reg, registry = Some reg /\ normalizeConfig config = Ok (c_settings c0) /\
    client_inv (cs_reconnect (c_settings c0)) c0 /\ reconnect_wf (cs_reconnect (c_settings c0)).
Proof.
  unfold NewClient. destruct registry as [reg|]; [|done]. rewrite bind_Ok. intros (cs & Hcs & Hrest).
  rewrite !guard_Ok in Hrest. destruct Hrest as (_ & _ & [= <-]). exists reg. cbn [c_settings].
  split; [done|]. split; [done|]. split; [|by eapply normalizeConfig_wf].
  destruct (normalizeConfig_wf _ _ Hcs) as (Hw & _). destruct (rw_attempts _ Hw).
  constructor; cbn; try done.
  - split; [done|]. by intros [? ?].
  - exists [], []. split_and!; try done. by left.
Qed.

(** The sessions of a client start with settings that meet what the session
    theorems require. *)
Lemma NewClient_settings config registry observer c0 :
  class_machine (co_ClassLimits config) -> NewClient config registry observer = Ok c0 ->
  GatewayOutTunnel.settings_wf (cs_session (c_settings c0)).
Proof.
  intros Hm Hc. apply NewClient_inv in Hc as (reg & _ & Hn & _). unfold normalizeConfig in Hn.
  pose proof (normalizeConfig_wf config (c_settings c0) Hn) as (_ & _ & Hcl & _). split; [exact Hcl|].
  rewrite seq_Ok, bind_Ok in Hn. destruct Hn as (_ & tls & _ & Heq). injection Heq as <-. exact Hm.
Qed.

(** The reconnect loop follows its policy in every reachable state of a new
    client: it is ready exactly while it serves one session and then shows that
    session's server; the failures it counts are exactly the attempts that failed
    in a row, where a requested reconnect clears the count and a session that was
    stable restarts it at one; it gives up exactly when they reach the allowed
    number, never with another error; and a second [Run] is refused without an
    effect. *)
Theorem client_reconnects_within_policy (config : Config) (registry : option Registry) (observer : bool) (c0 : client)
    (unrepresentable : float64 -> Z) (jitter : Z -> Z) (c : client) :
  NewClient config registry observer = Ok c0 -> client_reachable unrepresentable jitter c0 c ->
  let policy := cs_reconnect (c_settings c0) in
  isReady c = bool_decide (is_Some (serving c)) /\ c_serverInstanceID c = default zero_id (serving c) /\
  streak policy (attempts c) (failures c) /\
  (running c -> failures c < MaxAttempts policy) /\
  (forall err, pc c = Returned (Some err) -> err = ErrReconnectExhausted /\ failures c = MaxAttempts policy) /\
  (runDone c = true <-> exists err, pc c = Returned err) /\
  (pc c <> NotRunning -> Run_begin unrepresentable jitter c = (c, Some ErrClientUsed)).
Proof.
  intros Hn Hreach policy. apply NewClient_inv in Hn as (reg & _ & _ & Hstart & Hw).
  destruct (client_reachable_inv _ _ _ Hw _ _ Hstart Hreach) as [_ [Hr Hid] Hu Hd Hs Hb _ _ Hres _].
  split_and!; try done.
  - intros Hrun. by apply Hb.
  - intros Hpc. unfold Run_begin. by rewrite Hu, bool_decide_eq_false_2.
Qed.
End new_client.

(** ** A concrete client *)

#[local] Existing Instance sample_url.

Definition float_two : float64 := S754_finite false 4503599627370496 (-51).
Definition float_half : float64 := S754_finite false 4503599627370496 (-53).
Definition sample_policy : ReconnectPolicy := mkReconnectPolicy 2 1000 60000 float_two float_half 5000.

Definition sample_client_config : Config :=
  mkConfig " gateway-in:7443 " (Some (mkTlsConfig false "gateway-in" true 1 false 0 None)) "spiffe://mesh/gateway-in"
    (replicate 16 2) 10 10 10 10 20 10 1000 (mkReceiveLimits 4096 4 64 4 4 64 64)
    (GatewayOutRegistry.set_classLimits GatewayOutSample.sample_settings) sample_policy true true.

Definition sample_client : option client :=
  match NewClient sample_client_config (Some sample_registry) true with Ok c => Some c | _ => None end.

Fixpoint client_run (c : client) (es : list client_event) : option client :=
  match es with
  | [] => Some c
  | e :: es => c ← client_step (fun _ => 0) (fun bound => bound) c e; client_run c es
  end.

Lemma client_run_reachable c0 es : forall c c', client_reachable (fun _ => 0) (fun bound => bound) c0 c ->
  client_run c es = Some c' -> client_reachable (fun _ => 0) (fun bound => bound) c0 c'.
Proof.
  induction es as [|e es IH]; intros c c' Hc; cbn; [by intros [= <-]|].
  destruct (client_step _ _ c e) as [c1|] eqn:Hs; [|done]. cbn. apply IH. by eapply client_next.
Qed.

(** A stable session, then one that is lost at once: the policy allows two failures. *)
Definition sample_attempts : list client_event :=
  [CallRun; OpenSucceeds (replicate 16 5) 0; SessionEnds 9000; BackoffFires; OpenSucceeds (replicate 16 6) 9000; SessionEnds 9001].

Lemma client_reconnects_within_policy_witness :
  exists c0 c, sample_client = Some c0 /\ client_run c0 sample_attempts = Some c /\
    pc c = Returned (Some ErrReconnectExhausted) /\ failures c = 2 /\ isReady c = false.
Proof.
  destruct sample_client as [c0|] eqn:H0; [|vm_compute in H0; discriminate].
  destruct (client_run c0 sample_attempts) as [c|] eqn:H1; [|vm_compute in H0; injection H0 as <-; vm_compute in H1; discriminate].
  exists c0, c. split; [reflexivity|]. split; [exact H1|].
  assert (Hn : NewClient sample_client_config (Some sample_registry) true = Ok c0).
  { unfold sample_client in H0. destruct (NewClient _ _ _) as [c1|e|]; [|discriminate|discriminate].
    injection H0 as ->. reflexivity. }
  destruct (client_reconnects_within_policy sample_client_config (Some sample_registry) true c0 (fun _ => 0) (fun bound => bound) c Hn
    (client_run_reachable c0 sample_attempts c0 c (client_start _ _ _) H1)) as (Hr & _ & _ & _ & Hres & _).
  vm_compute in H0. injection H0 as <-. vm_compute in H1. injection H1 as <-.
  split; [reflexivity|]. split; [|exact Hr]. destruct (Hres _ eq_refl) as [_ Hf]. exact Hf.
Defined.

Lemma backoff_within_policy_witness :
  backoff (fun _ => 0) sample_policy (fun bound => bound) 3 = 6000 /\
  exists delay bound : Z, 1000 <= delay <= 60000 /\ 0 <= bound <= delay /\
    delay - bound <= backoff (fun _ => 0) sample_policy (fun bound => bound) 3 <= (delay + bound) `min` 60000.
Proof.
  split; [vm_compute; reflexivity|].
  destruct (backoff_within_policy (fun _ => 0) sample_policy (fun bound => bound) 3) as (delay & bound & Hd & _ & Hb & Hr);
    [vm_compute; reflexivity|vm_compute; reflexivity|vm_compute; reflexivity|].
  exists delay, bound. split; [exact Hd|]. split; [exact Hb|exact Hr].
Defined.

(** The reader checks the flag of the first session; the writer clears it and has
    to wait for the reader before the identifier is cleared. *)
Definition sample_readers : list readiness_event :=
  [StoreID (replicate 16 5); StoreReady; NewReader; ReaderStep 0; ReaderStep 0; ReaderStep 0; ClearReady; ReaderStep 0; ClearID].

Lemma server_identifier_is_current_witness :
  exists s, readiness_run readiness_start sample_readers = Some s /\
    r_readers s !! 0%nat = Some (ReaderReturned (Some (replicate 16 5)) (replicate 16 5)) /\
    StoreID (replicate 16 5) ∈ sample_readers.
Proof.
  destruct (readiness_run readiness_start sample_readers) as [s|] eqn:Hs; [|vm_compute in Hs; discriminate].
  exists s. split; [reflexivity|].
  assert (Hr : r_readers s !! 0%nat = Some (ReaderReturned (Some (replicate 16 5)) (replicate 16 5))).
  { vm_compute in Hs. injection Hs as <-. reflexivity. }
  split; [exact Hr|]. apply (proj2 (server_identifier_is_current sample_readers s 0 _ _ Hs Hr)).
Defined.

Definition sample_leaf : Certificate := mkCertificate [] [Some (mkURL "spiffe" "spiffe://mesh/gateway-in" None EmptyString EmptyString)] [] 0 1.

Lemma client_tls_is_pinned_witness :
  exists t verify, secureClientTLSConfig (co_TLSConfig sample_client_config) "spiffe://mesh/gateway-in" = Ok t /\
    VerifyConnection t = Some verify /\ verify (mkTLSState [[Some sample_leaf]] []) = Ok tt /\
    pinned_server "spiffe://mesh/gateway-in" (mkTLSState [[Some sample_leaf]] []).
Proof.
  destruct (secureClientTLSConfig (co_TLSConfig sample_client_config) "spiffe://mesh/gateway-in") as [t|e|] eqn:Ht;
    [|vm_compute in Ht; discriminate|vm_compute in Ht; discriminate].
  destruct (client_tls_is_pinned _ _ _ Ht) as (_ & _ & _ & _ & c & verify & _ & Hv & Hpin).
  exists t, verify. split; [reflexivity|]. split; [exact Hv|].
  assert (Hok : verify (mkTLSState [[Some sample_leaf]] []) = Ok tt).
  { injection Ht as <-. injection Hv as <-. vm_compute. reflexivity. }
  split; [exact Hok|]. apply (proj1 (Hpin _ Hok)).
Defined.
