(* ===== verification/GoEncoding.v ===== *)
(** * Text encodings

    [encoding/hex], [encoding/base64] and [strconv] as the services use them. *)

From S2P Require Import Prelude GoStrings Sha256.
Local Open Scope Z_scope.
Local Ltac Zify.zify_post_hook ::= Z.to_euclidean_division_equations.

Definition is_byte (x : Z) : Prop := 0 <= x < 256.

Lemma be_bytes_are_bytes n : forall x, Forall is_byte (be_bytes n x).
Proof. induction n as [|n IH]; intros x; cbn [be_bytes]; [constructor|]. apply Forall_app. split; [apply IH|]. repeat constructor; lia. Qed.

Lemma sha256_Sum_bytes msg : Forall is_byte (sha256_Sum msg).
Proof. apply Forall_concat, Forall_fmap, Forall_true. intros x. apply be_bytes_are_bytes. Qed.

(** ** Hexadecimal *)

(** [fromHexChar] *)
Definition hex_value (c : Z) : option Z :=
  if (48 <=? c) && (c <=? 57) then Some (c - 48)
  else if (97 <=? c) && (c <=? 102) then Some (c - 87)
  else if (65 <=? c) && (c <=? 70) then Some (c - 55)
  else None.

(** [hex.DecodeString] *)
Fixpoint hex_DecodeString (s : bytes) : option bytes :=
  match s with
  | [] => Some []
  | [_] => None
  | h :: l :: s => h ← hex_value h; l ← hex_value l; b ← hex_DecodeString s; Some (16 * h + l :: b)
  end.

Lemma length_hex_Encode b : length (hex_EncodeToString b) = (2 * length b)%nat.
Proof. induction b as [|x b IH]; [done|]. unfold hex_EncodeToString in *. cbn [fmap list_fmap concat app length]. rewrite IH. lia. Qed.

Lemma hex_value_digit n : 0 <= n < 16 -> hex_value (hex_digit_of n) = Some n.
Proof.
  intros Hn. unfold hex_digit_of, hex_value. destruct (Z.ltb_spec n 10).
  - rewrite (proj2 (Z.leb_le 48 _)), (proj2 (Z.leb_le _ 57)) by lia. cbn [andb]. f_equal. lia.
  - rewrite (proj2 (Z.leb_gt _ 57)), andb_false_r, (proj2 (Z.leb_le 97 _)), (proj2 (Z.leb_le _ 102)) by lia. cbn [andb]. f_equal. lia.
Qed.

Lemma hex_round_trip b : Forall is_byte b -> hex_DecodeString (hex_EncodeToString b) = Some b.
Proof.
  induction 1 as [|x b Hx Hb IH]; [done|]. unfold hex_EncodeToString in *. cbn [fmap list_fmap concat app hex_DecodeString].
  unfold is_byte in Hx. rewrite !hex_value_digit by lia.
  cbn [mbind option_bind]. rewrite IH. cbn [mbind option_bind]. do 2 f_equal. lia.
Qed.

(** Digits are never a separator. *)
Lemma hex_chars b c : Forall is_byte b -> c ∈ hex_EncodeToString b -> 48 <= c <= 57 \/ 97 <= c <= 102.
Proof.
  induction 1 as [|x b Hx Hb IH]; [by intros ?%elem_of_nil|]. unfold hex_EncodeToString in *. cbn [fmap list_fmap concat app].
  unfold is_byte in Hx. rewrite !elem_of_cons. intros [->|[->|Hc]]; [| |by apply IH]; unfold hex_digit_of; destruct (_ <? 10) eqn:Hd; lia.
Qed.

Lemma hex_Decode_bytes s : forall b, hex_DecodeString s = Some b -> Forall is_byte b /\ length s = (2 * length b)%nat.
Proof.
  assert (forall c v, hex_value c = Some v -> 0 <= v < 16) as Hv.
  { intros c v. unfold hex_value. destruct ((48 <=? c) && (c <=? 57)) eqn:H1, ((97 <=? c) && (c <=? 102)) eqn:H2, ((65 <=? c) && (c <=? 70)) eqn:H3;
      intros Hv; try done; injection Hv as Hv; lia. }
  revert s. fix IH 1. intros [|h [|l s]] b; cbn [hex_DecodeString]; [by intros [= <-]|done|].
  destruct (hex_value h) as [vh|] eqn:Hh; [|done]. destruct (hex_value l) as [vl|] eqn:Hl; [|done]. cbn [mbind option_bind].
  destruct (hex_DecodeString s) as [b'|] eqn:Hs; [|done]. cbn [mbind option_bind]. intros [= <-]. apply IH in Hs as [Hb Hlen].
  apply Hv in Hh, Hl. split; [constructor; [unfold is_byte; lia|done]|]. cbn [length]. lia.
Qed.

(** ** Base64 without padding, URL alphabet *)

(** Groups of six bits. *)
Fixpoint sextets (b : bytes) : list Z :=
  match b with
  | [] => []
  | [x] => [x / 4; x `mod` 4 * 16]
  | [x; y] => [x / 4; x `mod` 4 * 16 + y / 16; y `mod` 16 * 4]
  | x :: y :: z :: b => x / 4 :: x `mod` 4 * 16 + y / 16 :: y `mod` 16 * 4 + z / 64 :: z `mod` 64 :: sextets b
  end.

(** [decodeQuantum] of a strict encoding: the bits of the last group that are not
    used must be zero. *)
Fixpoint unsextets (s : list Z) : option bytes :=
  match s with
  | [] => Some []
  | [_] => None
  | [p; q] => if q `mod` 16 =? 0 then Some [p * 4 + q / 16] else None
  | [p; q; r] => if r `mod` 4 =? 0 then Some [p * 4 + q / 16; q `mod` 16 * 16 + r / 4] else None
  | p :: q :: r :: t :: s => b ← unsextets s; Some (p * 4 + q / 16 :: q `mod` 16 * 16 + r / 4 :: r `mod` 4 * 64 + t :: b)
  end.

Definition b64_char (x : Z) : Z :=
  if x <? 26 then 65 + x else if x <? 52 then 71 + x else if x <? 62 then x - 4 else if x =? 62 then 45 else 95.
Definition b64_value (c : Z) : option Z :=
  if (65 <=? c) && (c <=? 90) then Some (c - 65)
  else if (97 <=? c) && (c <=? 122) then Some (c - 71)
  else if (48 <=? c) && (c <=? 57) then Some (c + 4)
  else if c =? 45 then Some 62
  else if c =? 95 then Some 63
  else None.

(** [base64.RawURLEncoding.EncodeToString] *)
Definition base64_Encode (b : bytes) : bytes := b64_char <$> sextets b.

(** [base64.RawURLEncoding.Strict().DecodeString], which skips line breaks *)
Definition not_newline (c : Z) : bool := negb ((c =? 10) || (c =? 13)).
Definition base64_Decode (s : bytes) : option bytes :=
  xs ← mapM b64_value (List.filter not_newline s); unsextets xs.

Definition is_sextet (x : Z) : Prop := 0 <= x < 64.

Lemma sextets_sextet b : Forall is_byte b -> Forall is_sextet (sextets b).
Proof.
  revert b. fix IH 1. unfold is_byte, is_sextet. intros [|x [|y [|z b]]]; cbn [sextets]; rewrite ?Forall_cons; intros Hb.
  - done.
  - repeat constructor; lia.
  - repeat constructor; lia.
  - destruct Hb as (Hx & Hy & Hz & Hb). do 4 (split; [lia|]). by apply IH.
Qed.

Lemma unsextets_sextets b : Forall is_byte b -> unsextets (sextets b) = Some b.
Proof.
  revert b. fix IH 1. unfold is_byte. intros [|x [|y [|z b]]]; cbn [sextets unsextets]; rewrite ?Forall_cons; intros Hb.
  - done.
  - rewrite (proj2 (Z.eqb_eq _ 0)) by lia. do 2 f_equal. lia.
  - rewrite (proj2 (Z.eqb_eq _ 0)) by lia. f_equal. f_equal; [lia|]. f_equal. lia.
  - destruct Hb as (Hx & Hy & Hz & Hb). rewrite (IH b Hb). cbn [mbind option_bind]. f_equal. f_equal; [lia|]. f_equal; [lia|]. f_equal. lia.
Qed.

Lemma sextets_unsextets s : forall b, Forall is_sextet s -> unsextets s = Some b -> sextets b = s /\ Forall is_byte b.
Proof.
  revert s. fix IH 1. unfold is_sextet, is_byte. intros [|p [|q [|r [|t s]]]] b; cbn [unsextets]; rewrite ?Forall_cons; intros Hs.
  - by intros [= <-].
  - done.
  - destruct (Z.eqb_spec (q `mod` 16) 0); [|done]. intros [= <-]. cbn [sextets]. split; [f_equal; [lia|f_equal; lia]|]. repeat constructor; lia.
  - destruct (Z.eqb_spec (r `mod` 4) 0); [|done]. intros [= <-]. cbn [sextets].
    split; [f_equal; [lia|f_equal; [lia|f_equal; lia]]|]. repeat constructor; lia.
  - destruct Hs as (Hp & Hq & Hr & Ht & Hs). destruct (unsextets s) as [b'|] eqn:Hu; [|done]. cbn [mbind option_bind]. intros [= <-].
    destruct (IH s b' Hs Hu) as [<- Hb]. cbn [sextets]. split; [f_equal; [lia|f_equal; [lia|f_equal; [lia|f_equal; lia]]]|].
    rewrite !Forall_cons. split_and!; [lia..|done].
Qed.

Lemma length_sextets b : len (sextets b) = (4 * len b + 2) / 3.
Proof.
  revert b. fix IH 1. intros [|x [|y [|z b]]]; cbn [sextets]; rewrite ?len_cons; [done..|]. rewrite (IH b). lia.
Qed.

Lemma b64_value_char x : is_sextet x -> b64_value (b64_char x) = Some x.
Proof.
  unfold is_sextet. intros Hx. assert (x ∈ seqZ 0 64) as Hin by (apply elem_of_seqZ; lia). revert x Hin Hx.
  assert (forallb (fun x => bool_decide (b64_value (b64_char x) = Some x)) (seqZ 0 64) = true) as Hall by (vm_compute; reflexivity).
  rewrite forallb_forall in Hall. intros x Hx%list_elem_of_In%Hall _. by apply bool_decide_eq_true in Hx.
Qed.

Lemma b64_char_value c x : b64_value c = Some x -> b64_char x = c /\ is_sextet x.
Proof.
  unfold b64_value, is_sextet. destruct ((65 <=? c) && (c <=? 90)) eqn:H1; [intros [= <-]|].
  { unfold b64_char. rewrite (proj2 (Z.ltb_lt _ 26)) by lia. lia. }
  destruct ((97 <=? c) && (c <=? 122)) eqn:H2; [intros [= <-]|].
  { unfold b64_char. rewrite (proj2 (Z.ltb_ge _ 26)), (proj2 (Z.ltb_lt _ 52)) by lia. lia. }
  destruct ((48 <=? c) && (c <=? 57)) eqn:H3; [intros [= <-]|].
  { unfold b64_char. rewrite (proj2 (Z.ltb_ge _ 26)), (proj2 (Z.ltb_ge _ 52)), (proj2 (Z.ltb_lt _ 62)) by lia. lia. }
  destruct (Z.eqb_spec c 45) as [->|]; [by intros [= <-]|]. destruct (Z.eqb_spec c 95) as [->|]; [by intros [= <-]|done].
Qed.

Lemma b64_char_range x : is_sextet x -> 48 <= b64_char x <= 122 \/ b64_char x = 45.
Proof.
  unfold is_sextet, b64_char. intros Hx. destruct (Z.ltb_spec x 26); [lia|]. destruct (Z.ltb_spec x 52); [lia|].
  destruct (Z.ltb_spec x 62); [lia|]. destruct (x =? 62); lia.
Qed.

Lemma base64_chars b c : Forall is_byte b -> c ∈ base64_Encode b -> 48 <= c <= 122 \/ c = 45.
Proof.
  intros Hb%sextets_sextet (x & -> & Hx)%list_elem_of_fmap. rewrite Forall_forall in Hb. by apply b64_char_range, Hb.
Qed.

Lemma base64_round_trip b : Forall is_byte b -> base64_Decode (base64_Encode b) = Some b.
Proof.
  intros Hb. unfold base64_Decode. assert (List.filter not_newline (base64_Encode b) = base64_Encode b) as ->.
  { apply List.forallb_filter_id, forallb_forall. intros c Hc%list_elem_of_In. apply base64_chars in Hc; [|done].
    unfold not_newline. destruct (Z.eqb_spec c 10), (Z.eqb_spec c 13); try done; lia. }
  assert (mapM b64_value (base64_Encode b) = Some (sextets b)) as ->.
  { apply mapM_Some_2, Forall2_fmap_l, Forall_Forall2_diag. eapply Forall_impl; [by apply sextets_sextet|]. intros x. apply b64_value_char. }
  cbn [mbind option_bind]. by apply unsextets_sextets.
Qed.

(** A decoded text is the encoding of the bytes, up to line breaks. *)
Lemma base64_Decode_Some s b : base64_Decode s = Some b -> List.filter not_newline s = base64_Encode b /\ Forall is_byte b.
Proof.
  unfold base64_Decode. generalize (List.filter not_newline s) as l. intros l. destruct (mapM b64_value l) as [xs|] eqn:Hm; [|done].
  cbn [mbind option_bind]. intros Hu. apply mapM_Some_1 in Hm.
  assert (b64_char <$> xs = l /\ Forall is_sextet xs) as [Hl Hs].
  { clear Hu. induction Hm as [|c x l xs Hc Hm IH]; [done|]. apply b64_char_value in Hc as [Hc Hx]. destruct IH as [IH HF].
    rewrite fmap_cons, Hc, IH. split; [done|by constructor]. }
  destruct (sextets_unsextets xs b Hs Hu) as [<- Hb]. split; [by symmetry|done].
Qed.

Lemma length_base64_Encode b : len (base64_Encode b) = (4 * len b + 2) / 3.
Proof. rewrite <- length_sextets. unfold base64_Encode, len. by rewrite length_fmap. Qed.

(** ** Decimal numbers *)

Fixpoint dec_digits (fuel : nat) (n : Z) : bytes :=
  match fuel with
  | O => []
  | S fuel => if n <? 10 then [48 + n] else dec_digits fuel (n / 10) ++ [48 + n `mod` 10]
  end.

(** [strconv.FormatInt(n, 10)]; an [int64] has at most 19 digits *)
Definition FormatInt (n : Z) : bytes := if n <? 0 then 45 :: dec_digits 20 (- n) else dec_digits 20 n.

(** The digits of [strconv.ParseInt(s, 10, 64)] *)
Fixpoint parse_digits (s : bytes) (acc : Z) : option Z :=
  match s with
  | [] => Some acc
  | c :: s => if (48 <=? c) && (c <=? 57) then parse_digits s (acc * 10 + (c - 48)) else None
  end.
Definition ParseInt (s : bytes) : option Z :=
  let '(negative, digits) := match s with
    | c :: d => if c =? 45 then (true, d) else if c =? 43 then (false, d) else (false, s)
    | [] => (false, s)
    end in
  match digits with
  | [] => None
  | _ =>
      n ← parse_digits digits 0;
      let n := if negative : bool then - n else n in
      if (- 2 ^ 63 <=? n) && (n <? 2 ^ 63) then Some n else None
  end.

Lemma dec_digits_chars fuel n c : 0 <= n -> c ∈ dec_digits fuel n -> 48 <= c <= 57.
Proof.
  revert n. induction fuel as [|fuel IH]; intros n Hn; cbn [dec_digits]; [by intros ?%elem_of_nil|].
  destruct (Z.ltb_spec n 10); [intros ->%list_elem_of_singleton; lia|].
  intros [Hc|Hc%list_elem_of_singleton]%elem_of_app; [|lia]. eapply IH; [|exact Hc]. lia.
Qed.

Lemma parse_digits_app s t acc : parse_digits (s ++ t) acc = acc ← parse_digits s acc; parse_digits t acc.
Proof. revert acc. induction s as [|c s IH]; intros acc; [done|]. cbn [app parse_digits]. destruct (_ && _); [apply IH|done]. Qed.

Lemma parse_dec_digits fuel n : 0 <= n < 10 ^ Z.of_nat fuel -> parse_digits (dec_digits fuel n) 0 = Some n.
Proof.
  revert n. induction fuel as [|fuel IH]; intros n Hn; cbn [dec_digits]; [cbn in Hn; f_equal; lia|].
  rewrite Nat2Z.inj_succ, Z.pow_succ_r in Hn by lia.
  assert (forall d acc, 0 <= d < 10 -> parse_digits [48 + d] acc = Some (acc * 10 + d)) as Hd.
  { intros d acc Hd. cbn [parse_digits]. rewrite (proj2 (Z.leb_le 48 _)), (proj2 (Z.leb_le _ 57)) by lia. cbn [andb]. f_equal. lia. }
  destruct (Z.ltb_spec n 10); [rewrite Hd by lia; f_equal; lia|].
  rewrite parse_digits_app, IH by (split; [lia|]; apply Z.div_lt_upper_bound; lia). cbn [mbind option_bind]. rewrite Hd by lia. f_equal. lia.
Qed.

Lemma dec_digits_nonempty fuel n : (0 < fuel)%nat -> dec_digits fuel n <> [].
Proof. destruct fuel; [lia|]. intros _. cbn [dec_digits]. destruct (n <? 10); [done|]. by destruct (dec_digits fuel (n / 10)). Qed.

(** An [int64] survives its decimal text. *)
Lemma ParseInt_FormatInt n : - 2 ^ 63 <= n < 2 ^ 63 -> ParseInt (FormatInt n) = Some n.
Proof.
  intros Hn. unfold FormatInt, ParseInt. change (2 ^ 63) with 9223372036854775808 in *. destruct (Z.ltb_spec n 0).
  - pose proof (dec_digits_nonempty 20 (- n)) as Hne. destruct (dec_digits 20 (- n)) as [|c l] eqn:Hd; [by destruct Hne; [lia|]|].
    change (45 =? 45) with true. cbv beta iota. rewrite <- Hd, parse_dec_digits by (cbn; lia). cbn [mbind option_bind]. rewrite Z.opp_involutive.
    by rewrite (proj2 (Z.leb_le _ n)), (proj2 (Z.ltb_lt n _)) by lia.
  - pose proof (dec_digits_nonempty 20 n) as Hne. pose proof (fun c => dec_digits_chars 20 n c) as Hch.
    destruct (dec_digits 20 n) as [|c l] eqn:Hd; [by destruct Hne; [lia|]|]. specialize (Hch c). rewrite elem_of_cons in Hch.
    assert (48 <= c <= 57) as Hc by (apply Hch; [lia|by left]).
    rewrite (proj2 (Z.eqb_neq c 45)), (proj2 (Z.eqb_neq c 43)) by lia. cbv beta iota.
    rewrite <- Hd, parse_dec_digits by (cbn; lia). cbn [mbind option_bind].
    by rewrite (proj2 (Z.leb_le _ n)), (proj2 (Z.ltb_lt n _)) by lia.
Qed.

(** *** The order of decimal texts *)

(** First the length, then the bytes. *)
Definition shortlex_before (a b : bytes) : bool := (len a <? len b) || ((len a =? len b) && bytes_before a b).

Lemma bytes_before_snoc x : forall y c d, length x = length y ->
  bytes_before (x ++ [c]) (y ++ [d]) = bytes_before x y || (bool_decide (x = y) && (c <? d)).
Proof.
  induction x as [|a x IH]; intros [|b y] c d Hl; try done; cbn [app bytes_before].
  - rewrite andb_false_r, orb_false_r. by rewrite bool_decide_eq_true_2.
  - rewrite IH by (cbn in Hl; lia). destruct (Z.ltb_spec a b); [done|]. cbn [orb]. destruct (Z.eqb_spec a b) as [->|Hne]; cbn [andb].
    + f_equal. f_equal. apply bool_decide_ext. split; [by intros ->|by intros [= ->]].
    + rewrite bool_decide_eq_false_2; [done|]. congruence.
Qed.

Lemma dec_digits_inj fuel a b : 0 <= a < 10 ^ Z.of_nat fuel -> 0 <= b < 10 ^ Z.of_nat fuel -> dec_digits fuel a = dec_digits fuel b -> a = b.
Proof. intros Ha Hb He. apply parse_dec_digits in Ha, Hb. congruence. Qed.

Lemma dec_digits_order fuel : forall a b, 0 <= a < 10 ^ Z.of_nat fuel -> 0 <= b < 10 ^ Z.of_nat fuel -> (0 < fuel)%nat ->
  shortlex_before (dec_digits fuel a) (dec_digits fuel b) = (a <? b).
Proof.
  induction fuel as [|fuel IH]; intros a b Ha Hb Hf; [lia|]. rewrite Nat2Z.inj_succ, Z.pow_succ_r in Ha, Hb by lia. cbn [dec_digits].
  assert (forall n, 10 <= n -> n < 10 * 10 ^ Z.of_nat fuel -> 0 <= n / 10 < 10 ^ Z.of_nat fuel /\ (0 < fuel)%nat) as Hdiv.
  { intros n H1 H2. split; [split; [lia|apply Z.div_lt_upper_bound; lia]|]. destruct fuel; [cbn in H2; lia|lia]. }
  assert (forall n, 10 <= n -> n < 10 * 10 ^ Z.of_nat fuel -> 0 < len (dec_digits fuel (n / 10))) as Hlen.
  { intros n H1 H2. destruct (Hdiv n H1 H2) as [_ Hf']. pose proof (dec_digits_nonempty fuel (n / 10) Hf').
    pose proof (len_nonneg (dec_digits fuel (n / 10))). destruct (decide (len (dec_digits fuel (n / 10)) = 0)) as [Hz|]; [by apply len_zero_nil in Hz|lia]. }
  unfold shortlex_before. destruct (Z.ltb_spec a 10), (Z.ltb_spec b 10); rewrite ?len_app, ?len_cons; change (len (@nil Z)) with 0.
  - cbn [bytes_before Z.add]. rewrite andb_false_r, orb_false_r. destruct (Z.ltb_spec a b), (Z.ltb_spec (48 + a) (48 + b)); try done; lia.
  - specialize (Hlen b). rewrite (proj2 (Z.ltb_lt _ (_ + _))), (proj2 (Z.ltb_lt a b)) by lia. done.
  - specialize (Hlen a). rewrite (proj2 (Z.ltb_ge (_ + _) _)), (proj2 (Z.eqb_neq (_ + _) _)), (proj2 (Z.ltb_ge a b)) by lia. done.
  - destruct (Hdiv a) as [Hqa Hf']; [lia..|]. destruct (Hdiv b) as [Hqb _]; [lia..|]. specialize (IH (a / 10) (b / 10) Hqa Hqb Hf').
    unfold shortlex_before in IH. set (x := dec_digits fuel (a / 10)) in *. set (y := dec_digits fuel (b / 10)) in *.
    assert (x = y <-> a / 10 = b / 10) as Hxy by (split; [by apply dec_digits_inj|by unfold x, y; intros ->]).
    destruct (Z.ltb_spec (len x) (len y)).
    + rewrite (proj2 (Z.ltb_lt (_ + _) _)) by lia. cbn [orb] in *. symmetry in IH. apply Z.ltb_lt in IH. symmetry. apply Z.ltb_lt. lia.
    + rewrite (proj2 (Z.ltb_ge (_ + _) (_ + _))) by lia. cbn [orb] in *. destruct (Z.eqb_spec (len x) (len y)) as [Hl|Hl].
      * rewrite (proj2 (Z.eqb_eq (_ + _) _)) by lia. cbn [andb] in *. rewrite bytes_before_snoc by (unfold len in Hl; lia). rewrite IH.
        destruct (Z.ltb_spec (a / 10) (b / 10)), (Z.ltb_spec a b); try done; try lia; cbn [orb].
        -- rewrite bool_decide_eq_true_2 by (apply Hxy; lia). cbn [andb]. apply Z.ltb_lt. lia.
        -- case_bool_decide as He; [|done]. cbn [andb]. apply Z.ltb_ge. apply Hxy in He. lia.
      * rewrite (proj2 (Z.eqb_neq (_ + _) _)) by lia. cbn [andb] in *. symmetry in IH. apply Z.ltb_ge in IH. symmetry. apply Z.ltb_ge.
        assert (a / 10 <> b / 10) by (intros He; apply Hl; by rewrite (proj2 Hxy He)). lia.
Qed.

Lemma FormatInt_order a b : 0 <= a < 2 ^ 63 -> 0 <= b < 2 ^ 63 -> shortlex_before (FormatInt a) (FormatInt b) = (a <? b).
Proof.
  intros Ha Hb. unfold FormatInt. rewrite !(proj2 (Z.ltb_ge _ 0)) by lia. change (2 ^ 63) with 9223372036854775808 in *.
  apply dec_digits_order; [change (10 ^ Z.of_nat 20) with 100000000000000000000; lia..|lia].
Qed.

Lemma FormatInt_inj a b : - 2 ^ 63 <= a < 2 ^ 63 -> - 2 ^ 63 <= b < 2 ^ 63 -> FormatInt a = FormatInt b -> a = b.
Proof. intros Ha Hb He. apply ParseInt_FormatInt in Ha, Hb. congruence. Qed.
