(* ===== verification/Effects.v ===== *)
(** * Programs that make calls

    A function of the sources that talks to a database or to another process is a
    program: it makes one call at a time and goes on with the reply.  Any number of
    programs run concurrently over a shared state, interleaved call by call. *)

From S2P Require Import Prelude.
Local Open Scope Z_scope.

(** ** Programs *)

Inductive program {call : Type} (reply : call -> Type) (A : Type) : Type :=
| Ret (a : A)
| Do (c : call) (k : reply c -> program reply A).
Arguments Ret {call reply A} a.
Arguments Do {call reply A} c k.

(** The calls and replies of a program so far. *)
Abbreviation trace_of reply := (list (sigT reply)).

Section programs.
Context {call : Type} {reply : call -> Type}.

Fixpoint prog_bind {A B} (p : program reply A) (f : A -> program reply B) : program reply B :=
  match p with
  | Ret a => f a
  | Do c k => Do c (fun r => prog_bind (k r) f)
  end.

#[export] Instance prog_ret : MRet (program reply) := fun A => Ret.
#[export] Instance prog_mbind : MBind (program reply) := fun A B f p => prog_bind p f.

(** One call. *)
Definition perform (c : call) : program reply (reply c) := Do c Ret.

(** [if err != nil { return ..., err }] for a function that returns a value and
    an error: programs whose value is a [result]. *)
Definition try {E A B} (p : program reply (result E A)) (f : A -> program reply (result E B)) : program reply (result E B) :=
  r ← p;
  match r with
  | Ok a => f a
  | Err e => Ret (Err e)
  | Panic => Ret Panic
  end.

(** A guard of a function: [if cond { return err }]. *)
Definition refuse {E B} (b : bool) (e : E) (p : program reply (result E B)) : program reply (result E B) :=
  if b then Ret (Err e) else p.

(** The calls a program makes satisfy [ok], which sees the calls and replies
    before each, as long as the replies are [legal], and its results satisfy
    [post]. *)
Section verified.
Context (ok : trace_of reply -> call -> Prop) (legal : forall c, reply c -> Prop).

Fixpoint verified {A} (p : program reply A) (t : trace_of reply) (post : trace_of reply -> A -> Prop) : Prop :=
  match p with
  | Ret a => post t a
  | Do c k => ok t c /\ forall r, legal c r -> verified (k r) (t ++ [existT c r]) post
  end.

Lemma verified_bind {A B} (p : program reply A) (f : A -> program reply B) : forall t post,
  verified p t (fun t a => verified (f a) t post) -> verified (p ≫= f) t post.
Proof.
  induction p as [a|c k IH]; intros t post; [done|]. intros [Hc Hk]. split; [done|]. intros r Hr. by apply IH, Hk.
Qed.

Lemma verified_impl {A} (p : program reply A) : forall t (post post' : trace_of reply -> A -> Prop),
  (forall t a, post t a -> post' t a) -> verified p t post -> verified p t post'.
Proof.
  induction p as [a|c k IH]; intros t post post' Hi; [by apply Hi|]. intros [Hc Hk]. split; [done|]. intros r Hr.
  eapply IH; [done|by apply Hk].
Qed.

Lemma verified_perform c t post :
  ok t c -> (forall r, legal c r -> post (t ++ [existT c r]) r) -> verified (perform c) t post.
Proof. done. Qed.

(** One call, then the rest. *)
Lemma verified_do {B} c (k : reply c -> program reply B) t post :
  ok t c -> (forall r, legal c r -> verified (k r) (t ++ [existT c r]) post) -> verified (r ← perform c; k r) t post.
Proof. done. Qed.

Lemma verified_try {E A B} (p : program reply (result E A)) (f : A -> program reply (result E B)) t post :
  verified p t (fun t r => match r with
    | Ok a => verified (f a) t post
    | Err e => post t (Err e)
    | Panic => post t Panic
    end) -> verified (try p f) t post.
Proof. intros Hp. apply verified_bind. eapply verified_impl; [|exact Hp]. by intros ? []. Qed.

Lemma verified_refuse {E A} b (e : E) (p : program reply (result E A)) t post :
  (b = true -> post t (Err e)) -> (b = false -> verified p t post) -> verified (refuse b e p) t post.
Proof. intros Ht Hf. unfold refuse. destruct b; [by apply Ht|by apply Hf]. Qed.
End verified.

Lemma verified_weaken (ok ok' : trace_of reply -> call -> Prop) (legal legal' : forall c, reply c -> Prop) {A} (p : program reply A) : forall t (post : trace_of reply -> A -> Prop),
  (forall t c, ok t c -> ok' t c) -> (forall c r, legal' c r -> legal c r) -> verified ok legal p t post -> verified ok' legal' p t post.
Proof.
  induction p as [a|c k IH]; intros t post Hok Hlegal; [done|]. intros [Hc Hk]. split; [by apply Hok|]. intros r Hr. apply IH; auto.
Qed.

(** What two proofs say of one program. *)
Lemma verified_and (ok ok' : trace_of reply -> call -> Prop) (legal : forall c, reply c -> Prop) {A} (p : program reply A) : forall t (post post' : trace_of reply -> A -> Prop),
  verified ok legal p t post -> verified ok' legal p t post' -> verified (fun t c => ok t c /\ ok' t c) legal p t (fun t a => post t a /\ post' t a).
Proof.
  induction p as [a|c k IH]; intros t post post'; [done|]. intros [Hc Hk] [Hc' Hk']. split; [done|]. intros r Hr. apply IH; auto.
Qed.

(** *** Growing traces *)

Definition grown (ts ts' : list (trace_of reply)) : Prop := forall t, t ∈ ts -> exists t', t' ∈ ts' /\ t ⊆ t'.

Lemma grown_start ts : grown ts (ts ++ [[]]).
Proof. intros t Ht. exists t. split; [|done]. apply elem_of_app. by left. Qed.

Section one_call.
Context (ts : list (trace_of reply)) (i : nat) (t : trace_of reply) (e : sigT reply) (Hi : ts !! i = Some t).
Let ts' := <[i := t ++ [e]]> ts.

Lemma grown_call : grown ts ts'.
Proof.
  intros t' (j & Hj)%list_elem_of_lookup. destruct (decide (i = j)) as [<-|Hne].
  - rewrite Hi in Hj. injection Hj as <-. exists (t ++ [e]). split; [|intros x Hx; apply elem_of_app; by left].
    eapply list_elem_of_lookup_2, list_lookup_insert_eq. by eapply lookup_lt_Some.
  - exists t'. split; [|done]. eapply list_elem_of_lookup_2. unfold ts'. by rewrite list_lookup_insert_ne.
Qed.

Lemma call_trace t' : t' ∈ ts' -> t' ∈ ts \/ t' = t ++ [e].
Proof. intros [j [[<- [<- _]]|[_ Hj]]%list_lookup_insert_Some]%list_elem_of_lookup; [by right|left; by eapply list_elem_of_lookup_2]. Qed.

Lemma call_event t' x : t' ∈ ts' -> x ∈ t' -> (exists t0, t0 ∈ ts /\ x ∈ t0) \/ x = e.
Proof.
  intros [Ht|Ht]%call_trace Hx; [left; by exists t'|subst t']. apply elem_of_app in Hx as [Hx|Hx%list_elem_of_singleton]; [|by right].
  left. exists t. split; [by eapply list_elem_of_lookup_2|done].
Qed.
End one_call.
End programs.

(** The next step of a program is one call. *)
Ltac one_call :=
  lazymatch goal with
  | |- @verified _ _ ?ok ?legal _ (perform ?c) ?t ?post => refine (verified_perform ok legal c t post _ _)
  end.

(** ** Faults *)

(** A statement that fails may or may not have been committed. *)
Inductive fault := Healthy | FailsBefore | FailsAfter.

Definition faulty {D R} (failed : R) (f : fault) (d : D) (r : D * R) : D * R :=
  match f with
  | Healthy => r
  | FailsBefore => (d, failed)
  | FailsAfter => (r.1, failed)
  end.

Lemma faulty_state {D R} (P : D -> Prop) (failed : R) f d r : P d -> P r.1 -> P (faulty failed f d r).1.
Proof. by destruct f. Qed.

(** What [QueryRow(...).Scan] yields. *)
Inductive query (A : Type) :=
| Scanned (a : A)
| NoRows
| QueryFailed.
Arguments Scanned {A} a.
Arguments NoRows {A}.
Arguments QueryFailed {A}.

(** [timestamptz] has a resolution of one microsecond. *)
Definition pg_time (t : Z) : Z := t / 1000 * 1000.

(** [ORDER BY ... LIMIT 1] *)
Definition first_by {A} (before : A -> A -> bool) (l : list A) : option A :=
  fold_left (fun best x => match best with Some b => if before x b then Some x else best | None => Some x end) l None.

Lemma first_by_in {A} (before : A -> A -> bool) l x : first_by before l = Some x -> x ∈ l.
Proof.
  unfold first_by. assert (forall b, fold_left (fun best y => match best with Some b => if before y b then Some y else best | None => Some y end) l b = Some x -> x ∈ l \/ b = Some x) as Hgen; [|intros [?|?]%Hgen; done].
  induction l as [|y l IH]; intros b; cbn [fold_left]; [by right|]. intros [Hx|Hx]%IH; [left; by right|]. destruct b as [b|]; [destruct (before y b)|]; simplify_eq; [left; by left|by right|left; by left].
Qed.

Lemma first_by_None {A} (before : A -> A -> bool) l : first_by before l = None -> l = [].
Proof.
  unfold first_by. destruct l as [|y l]; [done|]. cbn [fold_left]. intros Hn. exfalso. revert y Hn. induction l as [|z l IH]; intros y; cbn [fold_left]; [done|]. destruct (before z y); apply IH.
Qed.

(** ** Concurrent systems *)

Record thread {call : Type} (reply : call -> Type) (Q A : Type) := mkThread {
  th_request : Q;
  th_prog : program reply A;
  th_trace : trace_of reply
}.
Arguments mkThread {call reply Q A}.
Arguments th_request {call reply Q A}.
Arguments th_prog {call reply Q A}.
Arguments th_trace {call reply Q A}.

(** A request starts, or a program makes its next call in some outside world. *)
Inductive event (Q W : Type) :=
| Start (q : Q)
| Call (i : nat) (w : W).
Arguments Start {Q W}.
Arguments Call {Q W}.

Record system {call : Type} (reply : call -> Type) (Q A D : Type) := mkSystem {
  sys_db : D;
  sys_threads : list (thread reply Q A)
}.
Arguments mkSystem {call reply Q A D}.
Arguments sys_db {call reply Q A D}.
Arguments sys_threads {call reply Q A D}.

Definition traces {call} {reply : call -> Type} {Q A D} (s : system reply Q A D) : list (trace_of reply) := th_trace <$> sys_threads s.

Section systems.
Context {call : Type} {reply : call -> Type} {Q A D W : Type}.
(** how the shared state answers a call, and the program of a request *)
Context (respond : W -> D -> forall c, D * reply c) (program_of : Q -> program reply A).

Definition sys_step (s : system reply Q A D) (e : event Q W) : option (system reply Q A D) :=
  match e with
  | Start q => Some (mkSystem (sys_db s) (sys_threads s ++ [mkThread q (program_of q) []]))
  | Call i w =>
      th ← sys_threads s !! i;
      match th_prog th with
      | Ret _ => None
      | Do c k =>
          let '(d, r) := respond w (sys_db s) c in
          Some (mkSystem d (<[i := mkThread (th_request th) (k r) (th_trace th ++ [existT c r])]> (sys_threads s)))
      end
  end.

Fixpoint sys_run (s : system reply Q A D) (es : list (event Q W)) : option (system reply Q A D) :=
  match es with
  | [] => Some s
  | e :: es => s ← sys_step s e; sys_run s es
  end.

Lemma sys_run_app s es es' : sys_run s (es ++ es') = s' ← sys_run s es; sys_run s' es'.
Proof.
  revert s. induction es as [|e es IH]; intros s; [done|]. cbn [sys_run app]. destruct (sys_step s e) as [s1|]; [|done]. cbn [mbind option_bind]. apply IH.
Qed.

(** A program on its own, in a world that does not change. *)
Fixpoint run_alone {X} (w : W) (d : D) (p : program reply X) : D * X :=
  match p with
  | Ret a => (d, a)
  | Do c k => run_alone w (respond w d c).1 (k (respond w d c).2)
  end.

Lemma run_alone_bind {X Y} w d (p : program reply X) (f : X -> program reply Y) : run_alone w d (p ≫= f) = run_alone w (run_alone w d p).1 (f (run_alone w d p).2).
Proof. revert d. induction p as [a|c k IH]; intros d; [done|]. apply IH. Qed.

(** A thread that is called until it returns does what its program does on its own. *)
Lemma run_alone_reaches w s i th : sys_threads s !! i = Some th ->
  exists n t, sys_run s (replicate n (Call i w)) = Some (mkSystem (run_alone w (sys_db s) (th_prog th)).1 (<[i := mkThread (th_request th) (Ret (run_alone w (sys_db s) (th_prog th)).2) t]> (sys_threads s))).
Proof.
  destruct s as [d ths], th as [q p t]. cbn [sys_threads sys_db th_prog th_request]. revert d ths t. induction p as [a|c k IH]; intros d ths t Hi.
  - exists 0%nat, t. cbn. by rewrite list_insert_id.
  - destruct (respond w d c) as [d' r] eqn:Hr. set (ths' := <[i := mkThread q (k r) (t ++ [existT c r])]> ths). assert (ths' !! i = Some (mkThread q (k r) (t ++ [existT c r]))) as Hi' by (eapply list_lookup_insert_eq, lookup_lt_Some; exact Hi).
    destruct (IH r d' ths' _ Hi') as (n & t' & Hn). exists (S n), t'. cbn [replicate sys_run sys_step sys_threads sys_db]. rewrite Hi. cbn [mbind option_bind th_prog th_request th_trace run_alone]. rewrite Hr. cbn [fst snd mbind option_bind]. fold ths'. rewrite Hn. unfold ths'. by rewrite list_insert_insert_eq.
Qed.

(** Whatever the replies, the programs of some requests make only some calls. *)
Section per_request.
Context (own : Q -> Prop) (allowed : Q -> call -> Prop).
Context (program_allowed : forall q, own q -> verified (fun _ => allowed q) (fun _ _ => True) (program_of q) [] (fun _ _ => True)).

Definition keeps_to (th : thread reply Q A) : Prop :=
  own (th_request th) -> (forall x, x ∈ th_trace th -> allowed (th_request th) (projT1 x)) /\
    verified (fun _ => allowed (th_request th)) (fun _ _ => True) (th_prog th) (th_trace th) (fun _ _ => True).

Lemma run_keeps_to s es s' : (forall th, th ∈ sys_threads s -> keeps_to th) -> sys_run s es = Some s' -> forall th, th ∈ sys_threads s' -> keeps_to th.
Proof.
  revert s. induction es as [|e es IH]; intros s Hs; cbn [sys_run]; [by intros [= <-]|].
  destruct (sys_step s e) as [s1|] eqn:He; cbn [mbind option_bind]; [|done]. apply IH. clear IH. destruct e as [q|i w]; cbn [sys_step] in He.
  - injection He as <-. intros th [Hin|Hin%list_elem_of_singleton]%elem_of_app; [by apply Hs|]. subst th. intros Hq. cbn. split; [by intros x ?%elem_of_nil|by apply program_allowed].
  - destruct (sys_threads s !! i) as [th|] eqn:Hi; cbn [mbind option_bind] in He; [|done]. destruct (th_prog th) as [a|c k] eqn:Hp; [done|]. destruct (respond w (sys_db s) c) as [d r]. injection He as <-.
    intros th' [j [[<- [<- _]]|[_ Hj]]%list_lookup_insert_Some]%list_elem_of_lookup; [|apply Hs; by eapply list_elem_of_lookup_2]. intros Hq. cbn in *.
    destruct (Hs th (list_elem_of_lookup_2 _ _ _ Hi) Hq) as [Htr Hv]. rewrite Hp in Hv. destruct Hv as [Hc Hv]. split; [|by apply Hv].
    intros x [Hx|Hx%list_elem_of_singleton]%elem_of_app; [by apply Htr|by subst x].
Qed.
End per_request.

(** An invariant of the shared state and the traces that holds under every guarded
    call holds in every run of verified programs. *)
Section invariant.
Context (ok : trace_of reply -> call -> Prop) (legal : forall c, reply c -> Prop) (post : Q -> trace_of reply -> A -> Prop).
Context (I : D -> list (trace_of reply) -> Prop).
Context (program_ok : forall q, verified ok legal (program_of q) [] (post q)).
Context (reply_legal : forall w d ts t c, I d ts -> t ∈ ts -> ok t c -> legal c (respond w d c).2).
Context (start_ok : forall d ts, I d ts -> I d (ts ++ [[]])).
Context (call_kept : forall w d ts i t c, I d ts -> ts !! i = Some t -> ok t c ->
  I (respond w d c).1 (<[i := t ++ [existT c (respond w d c).2]]> ts)).

Definition invariant (s : system reply Q A D) : Prop :=
  I (sys_db s) (traces s) /\ forall th, th ∈ sys_threads s -> verified ok legal (th_prog th) (th_trace th) (post (th_request th)).

Lemma step_invariant s e s' : invariant s -> sys_step s e = Some s' -> invariant s'.
Proof.
  intros [HI Hth]. destruct e as [q|i w]; cbn [sys_step].
  - intros [= <-]. split.
    + unfold traces. cbn [sys_db sys_threads]. rewrite fmap_app. by apply start_ok.
    + intros th [Hin|Hin%list_elem_of_singleton]%elem_of_app; [by apply Hth|]. subst th. apply program_ok.
  - destruct (sys_threads s !! i) as [th|] eqn:Hi; cbn [mbind option_bind]; [|done]. destruct (th_prog th) as [a|c k] eqn:Hp; [done|].
    pose proof (call_kept w (sys_db s) (traces s) i (th_trace th) c HI) as Hkept.
    pose proof (Hth th (list_elem_of_lookup_2 _ _ _ Hi)) as Hv. rewrite Hp in Hv. destruct Hv as [Hok Hv].
    assert (traces s !! i = Some (th_trace th)) as Ht by (unfold traces; by rewrite list_lookup_fmap, Hi).
    pose proof (reply_legal w _ _ _ c HI (list_elem_of_lookup_2 _ _ _ Ht) Hok) as Hlegal.
    specialize (Hkept Ht Hok). destruct (respond w (sys_db s) c) as [d r]. intros [= <-]. split.
    + unfold traces. cbn [sys_db sys_threads]. by rewrite list_fmap_insert.
    + intros th' [j [[<- [<- _]]|[_ Hj]]%list_lookup_insert_Some]%list_elem_of_lookup; [by apply Hv|].
      apply Hth. by eapply list_elem_of_lookup_2.
Qed.

Lemma run_invariant_from s es s' : invariant s -> sys_run s es = Some s' -> invariant s'.
Proof.
  revert s. induction es as [|e es IH]; intros s Hs; cbn [sys_run]; [by intros [= <-]|].
  destruct (sys_step s e) as [s1|] eqn:He; cbn [mbind option_bind]; [|done]. apply IH. by eapply step_invariant.
Qed.

Lemma run_invariant d es s : I d [] -> sys_run (mkSystem d []) es = Some s -> invariant s.
Proof. intros HI. apply run_invariant_from. split; [done|]. by intros th ?%elem_of_nil. Qed.
End invariant.
End systems.
