(* ===== verification/FileDomain.v ===== *)
(** * Files: manifests and states

    [services/files/internal/domain/file/file.go]: upload manifests and their
    validation, fingerprints, records and the transitions of a file. *)

From S2P Require Import Prelude Sha256.
Local Open Scope Z_scope.

(** ** Constants and errors *)

Definition MaxSize : Z := 100 * 1024 * 1024.
Definition PartSize : Z := 5 * 1024 * 1024.
Definition MaxParts : Z := MaxSize / PartSize.
(** Durations in nanoseconds. *)
Definition Minute : Z := 60 * 1000000000.
Definition Hour : Z := 60 * Minute.
Definition CapabilityTTL : Z := Minute.
Definition UploadTTL : Z := 24 * Hour.
Definition ProcessingTTL : Z := 48 * Hour.

Inductive file_error := ErrInvalid | ErrNotFound | ErrConflict | ErrNotReady | ErrUnavailable | ErrRejected | ErrLimit
(** errors of the contexts *)
| ErrCanceled | ErrDeadline
(** any other error of a dependency *)
| ErrOther.

#[export] Instance file_error_eq_dec : EqDecision file_error.
Proof. solve_decision. Defined.

(** ** Identifiers *)

(** [ID] is an array of 16 bytes, [Digest] one of 32. *)
Abbreviation ID := bytes (only parsing).
Abbreviation Digest := bytes (only parsing).
Definition zero_ID : ID := replicate 16 0.
Definition zero_Digest : Digest := replicate 32 0.

Definition ParseID (raw : bytes) : result file_error ID :=
  reject_if (negb (len raw =? 16)) ErrInvalid;;
  reject_if (bool_decide (raw = zero_ID)) ErrInvalid;;
  Ok raw.

(** [ID.String] *)
Definition ID_String (id : ID) : bytes := hex_EncodeToString id.

Record Owner := mkOwner { Tenant : ID; Subject : ID }.
#[export] Instance Owner_eq_dec : EqDecision Owner.
Proof. solve_decision. Defined.

(** [Owner.Valid] *)
Definition Owner_Valid (o : Owner) : bool :=
  negb (bool_decide (Tenant o = zero_ID)) && negb (bool_decide (Subject o = zero_ID)).

(** ** States and formats *)

(** A Go string; the last constructor is any other value. *)
Inductive State := Uploading | Scanning | Replicating | Ready | Rejected | Expired | Deleted | OtherState (name : string).
#[export] Instance State_eq_dec : EqDecision State.
Proof. solve_decision. Defined.

Abbreviation Format := string (only parsing).
Definition JPEG : Format := "image/jpeg".
Definition PNG : Format := "image/png".
Definition PDF : Format := "application/pdf".
Definition DOCX : Format := "application/vnd.openxmlformats-officedocument.wordprocessingml.document".
Definition XLSX : Format := "application/vnd.openxmlformats-officedocument.spreadsheetml.sheet".
Definition PPTX : Format := "application/vnd.openxmlformats-officedocument.presentationml.presentation".
Definition ODT : Format := "application/vnd.oasis.opendocument.text".
Definition ODS : Format := "application/vnd.oasis.opendocument.spreadsheet".
Definition ODP : Format := "application/vnd.oasis.opendocument.presentation".

Definition Extension (f : Format) : string :=
  if bool_decide (f = JPEG) then "jpg"
  else if bool_decide (f = PNG) then "png"
  else if bool_decide (f = PDF) then "pdf"
  else if bool_decide (f = DOCX) then "docx"
  else if bool_decide (f = XLSX) then "xlsx"
  else if bool_decide (f = PPTX) then "pptx"
  else if bool_decide (f = ODT) then "odt"
  else if bool_decide (f = ODS) then "ods"
  else if bool_decide (f = ODP) then "odp"
  else EmptyString.

(** ** Manifests *)

Record Part := mkPart { part_Size : Z; part_SHA256 : Digest }.
#[export] Instance Part_eq_dec : EqDecision Part.
Proof. solve_decision. Defined.

Record Manifest := mkManifest {
  mf_Format : Format;
  mf_Size : Z;
  mf_SHA256 : Digest;
  mf_Parts : list Part
}.
#[export] Instance Manifest_eq_dec : EqDecision Manifest.
Proof. solve_decision. Defined.

(** The loop over the parts; [last] is [len(m.Parts)-1]. *)
Fixpoint Validate_parts (parts : list Part) (i last total : Z) : result file_error Z :=
  match parts with
  | [] => Ok total
  | p :: parts =>
      reject_if ((part_Size p <=? 0) || (PartSize <? part_Size p) || bool_decide (part_SHA256 p = zero_Digest) ||
                 ((i <? last) && negb (part_Size p =? PartSize))) ErrInvalid;;
      Validate_parts parts (i + 1) last (i64 (total + part_Size p))
  end.

Definition Validate (m : Manifest) : result file_error unit :=
  reject_if (bool_decide (Extension (mf_Format m) = EmptyString) || (mf_Size m <=? 0) || (MaxSize <? mf_Size m) ||
             bool_decide (mf_SHA256 m = zero_Digest) || (len (mf_Parts m) =? 0) || (MaxParts <? len (mf_Parts m))) ErrInvalid;;
  total ← Validate_parts (mf_Parts m) 0 (len (mf_Parts m) - 1) 0;
  reject_if (negb (total =? mf_Size m)) ErrInvalid.

(** What [Fingerprint] writes to the hash. *)
Definition fingerprint_input (m : Manifest) : bytes :=
  bytes_of "marketmesh-file-manifest-v1" ++ [0] ++ bytes_of (mf_Format m) ++ [0] ++ PutUint64 (u64 (mf_Size m)) ++ mf_SHA256 m ++
  concat ((fun p => PutUint64 (u64 (part_Size p)) ++ part_SHA256 p) <$> mf_Parts m).

Definition Fingerprint (m : Manifest) : Digest := sha256_Sum (fingerprint_input m).

(** ** Records *)

Record Record_ := mkRecord {
  rec_ID : ID;
  rec_Owner : Owner;
  IdempotencyKey : ID;
  rec_Manifest : Manifest;
  ObjectKey : bytes;
  UploadID : bytes;
  rec_State : State;
  Version : Z;
  (** times are nanoseconds since the Unix epoch *)
  CreatedAt : Z;
  ExpiresAt : Z;
  CleanFormat : Format;
  CleanSize : Z;
  CleanSHA256 : Digest
}.
#[export] Instance Record_eq_dec : EqDecision Record_.
Proof. solve_decision. Defined.

Definition CanTransition (from to : State) : bool :=
  match to with
  | Deleted =>
      match from with
      | Uploading | Scanning | Replicating | Ready | Rejected | Expired => true
      | _ => false
      end
  | _ =>
      match from, to with
      | Uploading, (Scanning | Expired | Rejected) => true
      | Scanning, (Replicating | Rejected | Expired) => true
      | Replicating, (Ready | Rejected | Expired) => true
      | _, _ => false
      end
  end.

(** ** The layout of an upload *)

(** The sizes of the parts of a file: full parts, then the rest. *)
Definition layout (size : Z) : list Z :=
  replicate (Z.to_nat (size / PartSize)) PartSize ++ (if size `mod` PartSize =? 0 then [] else [size `mod` PartSize]).

Definition manifest_wf (m : Manifest) : Prop :=
  Extension (mf_Format m) <> EmptyString /\ 0 < mf_Size m <= MaxSize /\ mf_SHA256 m <> zero_Digest /\
  part_Size <$> mf_Parts m = layout (mf_Size m) /\ Forall (fun p => part_SHA256 p <> zero_Digest) (mf_Parts m).

(** The arrays of the machine types. *)
Definition manifest_machine (m : Manifest) : Prop :=
  - 2 ^ 63 <= mf_Size m < 2 ^ 63 /\ length (mf_SHA256 m) = 32%nat /\
  Forall (fun p => - 2 ^ 63 <= part_Size p < 2 ^ 63 /\ length (part_SHA256 p) = 32%nat) (mf_Parts m).

Definition sum_sizes (ps : list Part) : Z := foldr Z.add 0 (part_Size <$> ps).

(** The parts are full but for the last. *)
Inductive full_parts : list Z -> Prop :=
| full_last n : 0 < n <= PartSize -> full_parts [n]
| full_cons ns : full_parts ns -> full_parts (PartSize :: ns).

Lemma PartSize_pos : 0 < PartSize.
Proof. done. Qed.

Lemma layout_sum size : 0 < size -> foldr Z.add 0 (layout size) = size.
Proof.
  intros Hs. pose proof PartSize_pos as Hp. unfold layout. pose proof (Z.div_mod size PartSize) as Hdm.
  pose proof (Z.mod_pos_bound size PartSize Hp). assert (Hq : 0 <= size / PartSize) by (apply Z.div_pos; lia).
  assert (Hr : forall k rest, foldr Z.add 0 (replicate k PartSize ++ rest) = Z.of_nat k * PartSize + foldr Z.add 0 rest).
  { induction k as [|k IH]; intros rest; [done|]. cbn [replicate app foldr]. rewrite IH. lia. }
  rewrite Hr, Z2Nat.id by done. destruct (Z.eqb_spec (size `mod` PartSize) 0); simpl; lia.
Qed.

Lemma full_parts_layout ns : full_parts ns <-> exists size, 0 < size /\ ns = layout size /\ foldr Z.add 0 ns = size.
Proof.
  pose proof PartSize_pos as Hp. split.
  - induction 1 as [n Hn|ns Hns (size & Hs & -> & Hsum)].
    + exists n. split; [lia|]. split; [|simpl; lia]. unfold layout. destruct (Z.eq_dec n PartSize) as [->|Hne].
      * by rewrite Z.div_same, Z.mod_same by lia.
      * rewrite Z.div_small, Z.mod_small by lia. simpl. by rewrite (proj2 (Z.eqb_neq n 0)) by lia.
    + exists (PartSize + size). split; [lia|]. split; [|simpl; lia]. unfold layout.
      replace (PartSize + size) with (size + 1 * PartSize) by lia. rewrite Z.div_add, Z.mod_add by lia.
      assert (0 <= size / PartSize) by (apply Z.div_pos; lia). by rewrite Z2Nat.inj_add, Nat.add_comm by lia.
  - intros (size & Hs & -> & _). unfold layout. pose proof (Z.mod_pos_bound size PartSize Hp) as Hm.
    assert (Hq : 0 <= size / PartSize) by (apply Z.div_pos; lia).
    pose proof (Z.div_mod size PartSize) as Hdm. remember (Z.to_nat (size / PartSize)) as k eqn:Hk.
    destruct (Z.eqb_spec (size `mod` PartSize) 0) as [Hz|Hz].
    + destruct k as [|k]; [exfalso; assert (size / PartSize = 0) by lia; nia|]. clear Hk. rewrite app_nil_r.
      induction k as [|k IH]; [by apply full_last|]. cbn [replicate]. by apply full_cons.
    + clear Hk. induction k as [|k IH]; [apply full_last; lia|]. cbn [replicate app]. by apply full_cons.
Qed.

(** ** What the validation accepts *)

(** One part; [more] tells whether others follow. *)
Definition part_ok (more : bool) (p : Part) : Prop :=
  0 < part_Size p <= PartSize /\ part_SHA256 p <> zero_Digest /\ (more = true -> part_Size p = PartSize).

Lemma Validate_parts_cons p ps i last total n :
  Validate_parts (p :: ps) i last total = Ok n <->
  part_ok (i <? last) p /\ Validate_parts ps (i + 1) last (i64 (total + part_Size p)) = Ok n.
Proof.
  cbn [Validate_parts]. rewrite guard_Ok. apply and_iff_compat_r. unfold part_ok.
  rewrite !orb_false_iff, Z.leb_gt, Z.ltb_ge, bool_decide_eq_false.
  destruct (i <? last); cbn [andb]; rewrite ?negb_false_iff, ?Z.eqb_eq; intuition congruence.
Qed.

Lemma Validate_parts_Ok ps : forall i last total n,
  ps <> [] -> last = i + len ps - 1 -> - 2 ^ 63 <= total -> total + len ps * PartSize < 2 ^ 63 ->
  Validate_parts ps i last total = Ok n <->
  full_parts (part_Size <$> ps) /\ Forall (fun p => part_SHA256 p <> zero_Digest) ps /\ n = total + sum_sizes ps.
Proof.
  pose proof PartSize_pos as Hp. induction ps as [|p ps IH]; intros i last total n Hne Hlast Ht Hmax; [done|].
  rewrite Validate_parts_cons, len_cons in *. pose proof (len_nonneg ps) as Hl. unfold sum_sizes in *. cbn [fmap list_fmap foldr].
  rewrite Forall_cons. destruct ps as [|p' ps].
  - change (len (@nil Part)) with 0 in *. rewrite (proj2 (Z.ltb_ge i _)) by lia. unfold part_ok. cbn [Validate_parts]. split.
    + intros [(Hs & Hd & _) [= <-]]. rewrite i64_small by lia. split_and!; [by apply full_last|done|by constructor|simpl; lia].
    + intros (Hf & [Hd _] & ->). assert (0 < part_Size p <= PartSize) by (inversion Hf; [done|lia]).
      split; [done|]. rewrite i64_small by lia. f_equal. simpl. lia.
  - rewrite (proj2 (Z.ltb_lt i _)) by (rewrite len_cons in *; pose proof (len_nonneg ps); lia). unfold part_ok. split.
    + intros [(Hs & Hd & Hfull) Hrest]. specialize (Hfull eq_refl). rewrite i64_small in Hrest by lia.
      apply IH in Hrest as (Hf & Hds & ->); [|done|lia|lia|lia]. split_and!; [|done|done|lia].
      rewrite Hfull. by apply full_cons.
    + intros (Hf & [Hd Hds] & ->). cbn [fmap list_fmap] in Hf. inversion Hf as [|ns Hf' Heq]; subst.
      split; [split; [lia|]; split; [done|lia]|]. rewrite i64_small by lia. apply IH; [done|lia|lia|lia|]. split_and!; [exact Hf'|done|cbn [fmap list_fmap foldr]; lia].
Qed.

Lemma layout_length size : 0 < size <= MaxSize -> 0 < len (layout size) <= MaxParts.
Proof.
  intros Hs. pose proof PartSize_pos as Hp. unfold layout, len. rewrite length_app, length_replicate.
  assert (0 <= size / PartSize) by (apply Z.div_pos; lia). pose proof (Z.mod_pos_bound size PartSize Hp).
  pose proof (Z.div_mod size PartSize). change MaxParts with 20. change MaxSize with (20 * PartSize) in Hs.
  destruct (Z.eqb_spec (size `mod` PartSize) 0); simpl; nia.
Qed.

Lemma Validate_wf (m : Manifest) : Validate m = Ok tt <-> manifest_wf m.
Proof.
  unfold Validate, manifest_wf. rewrite guard_Ok, !orb_false_iff, !bool_decide_eq_false, Z.leb_gt, !Z.ltb_ge, Z.eqb_neq, bind_Ok.
  destruct (decide (mf_Parts m = [])) as [Hnil|Hnil].
  { rewrite Hnil. change (len (@nil Part)) with 0. split; [intros [[[_ ?] _] _]; lia|].
    intros (_ & Hs & _ & Hl & _). pose proof (layout_length _ Hs) as Hlen. rewrite <- Hl in Hlen. change (0 < 0 <= MaxParts) in Hlen. lia. }
  pose proof (len_nonneg (mf_Parts m)) as Hl0.
  split.
  - intros [[[[[[He Hs] Hmax] Hd] Hne] Hmp] (total & Hv & Hsum)]. apply reject_if_Ok, negb_false_iff, Z.eqb_eq in Hsum. subst total.
    apply Validate_parts_Ok in Hv as (Hf & Hds & Heq); [|done|lia|lia|change MaxParts with 20 in Hmp; unfold PartSize; lia].
    apply full_parts_layout in Hf as (size & _ & Hlay & Hsz). unfold sum_sizes in Heq. rewrite Hsz in Heq. rewrite Z.add_0_l in Heq.
    subst size. split_and!; try done. by rewrite Heq.
  - intros (He & Hs & Hd & Hlay & Hds). pose proof (layout_length _ Hs) as Hlen.
    assert (Hll : len (mf_Parts m) = len (layout (mf_Size m))) by (rewrite <- Hlay; unfold len; by rewrite length_fmap).
    assert (full_parts (part_Size <$> mf_Parts m) /\ sum_sizes (mf_Parts m) = mf_Size m) as [Hf Hsum].
    { unfold sum_sizes. rewrite Hlay. assert (Hfl : full_parts (layout (mf_Size m))).
      { apply full_parts_layout. exists (mf_Size m). split_and!; [lia|done|apply layout_sum; lia]. }
      split; [done|]. apply layout_sum. lia. }
    split; [split_and!; try done; lia|]. exists (mf_Size m). split.
    + apply Validate_parts_Ok; [done|lia|lia|change MaxParts with 20 in Hlen; unfold PartSize; lia|]. split_and!; [done|done|lia].
    + by rewrite Z.eqb_refl.
Qed.

(** [Validate] accepts exactly the manifests of one layout: a known format, a
    size of 1 byte to 100 MiB, non-zero digests, and the parts that the size
    prescribes, full parts of 5 MiB followed by the rest. *)
Theorem manifest_accepted_iff_wf (m : Manifest) : Validate m = Ok tt <-> manifest_wf m.
Proof. apply Validate_wf. Qed.

(** ** Fingerprints *)

(** The known formats hold no zero byte. *)
Lemma format_no_zero f : Extension f <> EmptyString -> Forall (fun c => c <> 0) (bytes_of f).
Proof.
  unfold Extension. intros Hf.
  repeat (case_bool_decide; [subst f; apply (bool_decide_unpack _); by vm_compute|]). done.
Qed.

(** A text without a zero byte ends at the first one. *)
Lemma terminated_inj (a b x y : bytes) :
  Forall (fun c => c <> 0) a -> Forall (fun c => c <> 0) b -> a ++ [0] ++ x = b ++ [0] ++ y -> a = b /\ x = y.
Proof.
  revert b. induction a as [|c a IH]; intros [|d b] Ha Hb; cbn; intros He.
  - by injection He as ->.
  - injection He as <- _. by apply Forall_cons in Hb as [? _].
  - injection He as -> _. by apply Forall_cons in Ha as [? _].
  - injection He as <- He. apply Forall_cons in Ha as [_ Ha], Hb as [_ Hb]. destruct (IH _ Ha Hb He) as [-> ->]. done.
Qed.

Lemma bytes_of_inj a b : bytes_of a = bytes_of b -> a = b.
Proof.
  unfold bytes_of. intros He. rewrite <- (String.string_of_list_ascii_of_string a), <- (String.string_of_list_ascii_of_string b).
  f_equal. revert He. generalize (String.list_ascii_of_string a), (String.list_ascii_of_string b).
  induction l as [|x l IH]; intros [|y m]; cbn; try done. intros [= Hx Hr]. f_equal; [|by apply IH].
  apply (f_equal Ascii.ascii_of_N) in Hx || (apply N2Z.inj in Hx; apply (f_equal Ascii.ascii_of_N) in Hx).
  by rewrite !Ascii.ascii_N_embedding in Hx.
Qed.

Definition part_bytes (p : Part) : bytes := PutUint64 (u64 (part_Size p)) ++ part_SHA256 p.

Lemma PutUint64_inj x y : 0 <= x < 2 ^ 63 -> 0 <= y < 2 ^ 63 -> PutUint64 (u64 x) = PutUint64 (u64 y) -> x = y.
Proof. intros Hx Hy. rewrite !u64_small by lia. apply be_bytes_inj; change (256 ^ Z.of_nat 8) with (2 ^ 64); lia. Qed.

Lemma parts_bytes_inj ps : forall qs,
  Forall (fun p => 0 <= part_Size p < 2 ^ 63 /\ length (part_SHA256 p) = 32%nat) ps ->
  Forall (fun p => 0 <= part_Size p < 2 ^ 63 /\ length (part_SHA256 p) = 32%nat) qs ->
  concat (part_bytes <$> ps) = concat (part_bytes <$> qs) -> ps = qs.
Proof.
  assert (Hlen : forall p, length (part_SHA256 p) = 32%nat -> length (part_bytes p) = 40%nat).
  { intros p Hp. unfold part_bytes, PutUint64. by rewrite length_app, length_be_bytes, Hp. }
  induction ps as [|p ps IH]; intros [|q qs] Hps Hqs; cbn [fmap list_fmap concat]; try done.
  apply Forall_cons in Hps as [[Hps Hp] Hpr], Hqs as [[Hqs Hq] Hqr]. intros He.
  apply app_inj_1 in He as [Hb Hr]; [|by rewrite !Hlen]. f_equal; [|by apply IH].
  apply app_inj_1 in Hb as [Hsz Hd]; [|unfold PutUint64; by rewrite !length_be_bytes].
  apply PutUint64_inj in Hsz; [|done|done]. destruct p, q; cbn in *; congruence.
Qed.

Lemma wf_part_sizes m : manifest_wf m -> Forall (fun p => 0 <= part_Size p < 2 ^ 63) (mf_Parts m).
Proof.
  intros (_ & Hs & _ & Hlay & _). apply Forall_fmap with (f := part_Size) (P := fun n => 0 <= n < 2 ^ 63). rewrite Hlay.
  unfold layout. pose proof (Z.mod_pos_bound (mf_Size m) PartSize PartSize_pos). apply Forall_app. split.
  - apply Forall_replicate. unfold PartSize. lia.
  - destruct (_ =? 0); repeat constructor; unfold PartSize in *; lia.
Qed.

(** A fingerprint binds every constraint of a manifest: the bytes that are
    hashed determine format, size, digest and every part of a valid manifest, so
    that two valid manifests with one fingerprint are equal unless SHA-256
    collides on the two byte strings. *)
Theorem fingerprint_binds_manifest (m m' : Manifest) :
  Validate m = Ok tt -> Validate m' = Ok tt -> manifest_machine m -> manifest_machine m' ->
  Fingerprint m = Fingerprint m' ->
  m = m' \/ (fingerprint_input m <> fingerprint_input m' /\ sha256_Sum (fingerprint_input m) = sha256_Sum (fingerprint_input m')).
Proof.
  rewrite !Validate_wf. intros Hm Hm' (_ & Hd & Hp) (_ & Hd' & Hp') Hf.
  destruct (decide (fingerprint_input m = fingerprint_input m')) as [He|]; [left|by right]. clear Hf.
  pose proof (wf_part_sizes _ Hm) as Hsz. pose proof (wf_part_sizes _ Hm') as Hsz'.
  destruct Hm as (Hx & Hs & _), Hm' as (Hx' & Hs' & _). unfold fingerprint_input in He.
  apply app_inj_1 in He as [_ He]; [|done]. apply app_inj_1 in He as [_ He]; [|done].
  apply terminated_inj in He as [Hfmt He]; [|by apply format_no_zero|by apply format_no_zero].
  apply app_inj_1 in He as [Hsize He]; [|unfold PutUint64; by rewrite !length_be_bytes].
  apply app_inj_1 in He as [Hdig He]; [|congruence].
  apply PutUint64_inj in Hsize; [|unfold MaxSize in *; lia|unfold MaxSize in *; lia]. apply bytes_of_inj in Hfmt.
  apply parts_bytes_inj in He; [destruct m, m'; cbn in *; congruence|..].
  - apply Forall_and. split; [done|]. eapply Forall_impl; [exact Hp|]. by intros ? [].
  - apply Forall_and. split; [done|]. eapply Forall_impl; [exact Hp'|]. by intros ? [].
Qed.
