(* ===== verification/FileEffects.v ===== *)
(** * Files: effects

    The calls that the code of the files service makes: SQL statements, the object
    storage, the scanner and the reconstructor, the clock and temporary files. *)

From S2P Require Import Prelude Sha256 Effects FileDomain.
Local Open Scope Z_scope.

(** ** Interfaces *)

(** [files.Capability]; the headers of the signed request are opaque. *)
Record Capability := mkCapability {
  cap_URL : string;
  cap_Method : string;
  cap_ExpiresAt : Z;
  cap_PartNumber : Z
}.

Record ReceivedPart := mkReceivedPart {
  rp_Number : Z;
  rp_Size : Z;
  rp_SHA256 : Digest;
  rp_ETag : string
}.

(** A row of [files.uploads]. *)
Record row := mkRow {
  row_record : Record_;
  manifest_hash : Digest;
  updated_at : Z;
  lease_until : option Z;
  cleanup_after : option Z
}.

(** What [QueryRow(...).Scan] yields. *)
Inductive query_reply :=
| Scanned (r : row)
| NoRows
(** the exception of the quota trigger *)
| CodeP0001
| QueryFailed.

(** One [Write] of the reconstructor: the length of its buffer and what the
    destination wrote of it. *)
Record write := mkWrite { write_len : Z; write_done : Z }.

(** ** Calls *)

Inductive call :=
(* SQL *)
| SqlInsert (v : Record_) (hash : Digest)
| SqlSelectKey (owner : Owner) (key : ID)
| SqlSelect (owner : Owner) (id : ID)
| SqlAttach (v : Record_) (uploadID : bytes)
| SqlTransition (v : Record_) (to : State)
| SqlClaim
| SqlMarkClean (v : Record_) (format : Format) (size : Z) (digest : Digest)
| SqlDefer (v : Record_)
(* process *)
| TimeNow
| RandRead
| TempFile
| SeekStart
(* object storage *)
| StorageBegin (r : Record_)
| StorageParts (r : Record_)
| StorageSignPart (r : Record_) (number until : Z)
| StorageComplete (r : Record_) (parts : list ReceivedPart)
| StorageCompleted (r : Record_)
| StorageSignDownload (r : Record_) (until : Z)
| StorageReadUpload (r : Record_)
| StoragePutClean (r : Record_) (format : Format) (size : Z)
| StorageReplicate (r : Record_)
| StoragePurge (r : Record_)
| StorageCleanupReady (r : Record_)
(* content *)
| ReconstructorClean (r : Record_)
| ScannerScan (r : Record_) (derivative : bool) (size : Z).

(** The reply of a call; [result file_error A] is [(A, error)]. *)
Definition reply (c : call) : Type :=
  match c with
  | SqlInsert _ _ | SqlSelectKey _ _ | SqlSelect _ _ | SqlAttach _ _ | SqlTransition _ _ | SqlClaim | SqlMarkClean _ _ _ _ => query_reply
  (** the affected rows, if the command succeeded *)
  | SqlDefer _ => option Z
  | TimeNow => Z
  | RandRead => option bytes
  | TempFile | SeekStart => bool
  | StorageBegin _ => result file_error bytes
  | StorageParts _ => result file_error (list ReceivedPart)
  | StorageSignPart _ _ _ | StorageSignDownload _ _ => result file_error Capability
  | StorageCompleted _ => result file_error bool
  | StoragePutClean _ _ _ => result file_error Digest
  | StorageComplete _ _ | StorageReadUpload _ | StorageReplicate _ | StoragePurge _ | StorageCleanupReady _
  | ScannerScan _ _ _ => result file_error unit
  (** the writes it made, its format and error *)
  | ReconstructorClean _ => list write * result file_error Format
  end.

(** ** Programs *)

Abbreviation prog := (program reply).
Abbreviation trace := (trace_of reply).
Abbreviation perform := (Effects.perform (reply := reply)).
