(* ===== verification/FileRepository.v ===== *)
(** * Files: the repository

    [services/files/internal/adapter/out/postgres/repository.go]: the SQL
    statements over the table of [migrations/000001_files.up.sql], executed one at
    a time, and the functions that issue them.  The JSON encoding of a manifest is
    left out: a row holds the manifest itself. *)

From S2P Require Import Prelude GoStrings Sha256 Effects FileDomain FileEffects.
Local Open Scope Z_scope.

(** ** The database *)

(** An entry of [files.audit]: file, state and version. *)
Definition audit_entry : Type := ID * State * Z.

Record db := mkDb {
  uploads : gmap ID row;
  audit : list audit_entry
}.

Definition same_owner (o : Owner) (r : row) : bool := bool_decide (rec_Owner (row_record r) = o).
Definition active (s : State) : bool := match s with Uploading | Scanning | Replicating => true | _ => false end.
Definition row_state (r : row) : State := rec_State (row_record r).
Definition row_version (r : row) : Z := Version (row_record r).

Definition clean_format_ok (f : Format) : bool := bool_decide (f = PNG) || bool_decide (f = JPEG) || bool_decide (f = PDF).
Definition lower_hex (c : Z) : bool := ((48 <=? c) && (c <=? 57)) || ((97 <=? c) && (c <=? 102)).

Definition MaxInt64 : Z := 2 ^ 63 - 1.

(** The CHECK constraints of the table and the range of [bigint]. *)
Definition check_row (r : row) : bool :=
  let v := row_record r in
  (len (rec_ID v) =? 16) && (len (Tenant (rec_Owner v)) =? 16) && (len (Subject (rec_Owner v)) =? 16) && (len (IdempotencyKey v) =? 16) &&
  (len (ObjectKey v) =? 32) && forallb lower_hex (ObjectKey v) && (len (manifest_hash r) =? 32) &&
  (len (UploadID v) <=? 1024) &&
  match rec_State v with OtherState _ => false | _ => true end &&
  (0 <? Version v) && (Version v <=? MaxInt64) && (CreatedAt v <? ExpiresAt v) && (0 <=? CleanSize v) && (CleanSize v <=? 104857600) &&
  (negb (bool_decide (rec_State v = Ready)) ||
   ((0 <? CleanSize v) && (len (CleanSHA256 v) =? 32) && clean_format_ok (CleanFormat v))).

(** The row triggers: [check_upload_quota] and [audit_transition]. *)
Definition key_exists (t : gmap ID row) (owner : Owner) (key : ID) : bool :=
  existsb (fun r => same_owner owner r && bool_decide (IdempotencyKey (row_record r) = key)) (map_to_list t).*2.
Definition active_uploads (t : gmap ID row) (owner : Owner) : Z :=
  count_if (fun x => same_owner owner x.2 && active (row_state x.2) = true) t.
Definition recent_uploads (now : Z) (t : gmap ID row) (owner : Owner) : Z :=
  count_if (fun x => same_owner owner x.2 && (now - 24 * Hour <? CreatedAt (row_record x.2)) = true) t.
Definition quota_reached (now : Z) (t : gmap ID row) (owner : Owner) : bool :=
  (10 <=? active_uploads t owner) || (100 <=? recent_uploads now t owner).

(** A row is stored, and a new state is audited. *)
Definition stored (d : db) (r : row) : db :=
  let id := rec_ID (row_record r) in
  let changed := match uploads d !! id with Some old => negb (bool_decide (row_state old = row_state r)) | None => true end in
  mkDb (<[id := r]> (uploads d)) (if changed then audit d ++ [(id, row_state r, row_version r)] else audit d).

(** Stores a row if the constraints hold. *)
Definition put_row (d : db) (r : row) : db * query_reply :=
  if check_row r then (stored d r, Scanned r) else (d, QueryFailed).

(** *** Statements *)

(** The record a fresh row holds. *)
Definition inserted (v : Record_) : Record_ :=
  mkRecord (rec_ID v) (rec_Owner v) (IdempotencyKey v) (rec_Manifest v) (ObjectKey v) [] Uploading 1
    (pg_time (CreatedAt v)) (pg_time (ExpiresAt v)) EmptyString 0 [].

Definition sql_insert (now : Z) (d : db) (v : Record_) (hash : Digest) : db * query_reply :=
  let t := uploads d in
  if key_exists t (rec_Owner v) (IdempotencyKey v) then (d, NoRows) else
  if quota_reached now t (rec_Owner v) then (d, CodeP0001) else
  if bool_decide (is_Some (t !! rec_ID v)) || existsb (fun r => bool_decide (ObjectKey (row_record r) = ObjectKey v)) (map_to_list t).*2
  then (d, QueryFailed)
  else put_row d (mkRow (inserted v) hash now None None).

Definition one_row (r : option row) : query_reply := match r with Some r => Scanned r | None => NoRows end.

Definition sql_select_key (d : db) (owner : Owner) (key : ID) : query_reply :=
  one_row (List.find (fun r => same_owner owner r && bool_decide (IdempotencyKey (row_record r) = key)) (map_to_list (uploads d)).*2).

Definition owned_row (d : db) (owner : Owner) (id : ID) : option row :=
  match uploads d !! id with
  | Some r => if same_owner owner r then Some r else None
  | None => None
  end.
Definition sql_select (d : db) (owner : Owner) (id : ID) : query_reply := one_row (owned_row d owner id).

(** [UPDATE ... WHERE tenant_id, owner_id, id, version AND cond] *)
Definition update_row (d : db) (v : Record_) (cond : row -> bool) (f : row -> row) : db * query_reply :=
  match owned_row d (rec_Owner v) (rec_ID v) with
  | Some r => if (row_version r =? Version v) && cond r then put_row d (f r) else (d, NoRows)
  | None => (d, NoRows)
  end.

Definition set_upload (v : Record_) (uploadID : bytes) : Record_ :=
  mkRecord (rec_ID v) (rec_Owner v) (IdempotencyKey v) (rec_Manifest v) (ObjectKey v) uploadID (rec_State v) (Version v + 1)
    (CreatedAt v) (ExpiresAt v) (CleanFormat v) (CleanSize v) (CleanSHA256 v).
Definition set_state (v : Record_) (to : State) : Record_ :=
  mkRecord (rec_ID v) (rec_Owner v) (IdempotencyKey v) (rec_Manifest v) (ObjectKey v) (UploadID v) to (Version v + 1)
    (CreatedAt v) (ExpiresAt v) (CleanFormat v) (CleanSize v) (CleanSHA256 v).
Definition set_clean (v : Record_) (format : Format) (size : Z) (digest : Digest) : Record_ :=
  mkRecord (rec_ID v) (rec_Owner v) (IdempotencyKey v) (rec_Manifest v) (ObjectKey v) (UploadID v) Replicating (Version v + 1)
    (CreatedAt v) (ExpiresAt v) format size digest.

Definition sql_attach (now : Z) (d : db) (v : Record_) (uploadID : bytes) : db * query_reply :=
  update_row d v
    (fun r => bool_decide (row_state r = Uploading) && bool_decide (UploadID (row_record r) = []) && (now <? ExpiresAt (row_record r)))
    (fun r => mkRow (set_upload (row_record r) uploadID) (manifest_hash r) now (lease_until r) (cleanup_after r)).

Definition sql_transition (now : Z) (d : db) (v : Record_) (to : State) : db * query_reply :=
  update_row d v (fun r => bool_decide (row_state r = rec_State v))
    (fun r => mkRow (set_state (row_record r) to) (manifest_hash r) now None
       (match to with Deleted | Expired | Rejected => Some (now + 2 * Minute) | _ => cleanup_after r end)).

(** Whether [Claim] may take a row. *)
Definition claimable (now : Z) (r : row) : bool :=
  (match row_state r with
   | Scanning | Replicating => true
   | Uploading => ExpiresAt (row_record r) <=? now
   | Ready | Deleted | Expired | Rejected => match cleanup_after r with None => true | Some t => t <=? now end
   | OtherState _ => false
   end) &&
  match lease_until r with None => true | Some t => t <? now end.

Definition claim_priority (s : State) : Z :=
  match s with Scanning | Replicating => 0 | Uploading => 1 | _ => 2 end.
(** The order of the candidates. *)
Definition claim_before (a b : row) : bool :=
  let pa := claim_priority (row_state a) in
  let pb := claim_priority (row_state b) in
  (pa <? pb) || ((pa =? pb) && ((updated_at a <? updated_at b) ||
    ((updated_at a =? updated_at b) && bytes_before (rec_ID (row_record a)) (rec_ID (row_record b))))).
Definition claim_best (best : option row) (r : row) : option row :=
  match best with
  | None => Some r
  | Some b => if claim_before r b then Some r else best
  end.

(** [locked] are the rows that concurrent transactions hold. *)
Definition sql_claim (now : Z) (d : db) (locked : list ID) : db * query_reply :=
  let candidates := List.filter (fun r => claimable now r && negb (bool_decide (rec_ID (row_record r) ∈ locked))) (map_to_list (uploads d)).*2 in
  match fold_left claim_best candidates None with
  | Some r => put_row d (mkRow (set_state (row_record r) (row_state r)) (manifest_hash r) (updated_at r) (Some (now + 10 * Minute)) (cleanup_after r))
  | None => (d, NoRows)
  end.

Definition sql_mark_clean (now : Z) (d : db) (v : Record_) (format : Format) (size : Z) (digest : Digest) : db * query_reply :=
  update_row d v (fun r => bool_decide (row_state r = Scanning))
    (fun r => mkRow (set_clean (row_record r) format size digest) (manifest_hash r) now None (cleanup_after r)).

Definition sql_defer (now : Z) (d : db) (v : Record_) : db * query_reply :=
  update_row d v (fun r => bool_decide (row_state r = rec_State v))
    (fun r => mkRow (set_state (row_record r) (row_state r)) (manifest_hash r) (updated_at r) None (Some (now + Hour))).

(** ** The functions of the repository *)

Definition zero_Record : Record_ :=
  mkRecord zero_ID (mkOwner zero_ID zero_ID) zero_ID (mkManifest EmptyString 0 zero_Digest []) [] [] (OtherState EmptyString) 0 0 0
    EmptyString 0 zero_Digest.

(** [copy(r.CleanSHA256[:], digest)] *)
Definition copy_digest (digest : bytes) : Digest := take 32 (digest ++ zero_Digest).
Definition set_digest (v : Record_) (digest : Digest) : Record_ :=
  mkRecord (rec_ID v) (rec_Owner v) (IdempotencyKey v) (rec_Manifest v) (ObjectKey v) (UploadID v) (rec_State v) (Version v)
    (CreatedAt v) (ExpiresAt v) (CleanFormat v) (CleanSize v) digest.

(** The record that [decode] returns for a row. *)
Definition decoded (r : row) : Record_ := set_digest (row_record r) (copy_digest (CleanSHA256 (row_record r))).

(** The checks of [decode] on the columns. *)
Definition decode_row (r : row) : result file_error Record_ :=
  let v := row_record r in
  map_err (fun _ => ErrUnavailable) (ParseID (rec_ID v));;
  map_err (fun _ => ErrUnavailable) (ParseID (Tenant (rec_Owner v)));;
  map_err (fun _ => ErrUnavailable) (ParseID (Subject (rec_Owner v)));;
  map_err (fun _ => ErrUnavailable) (ParseID (IdempotencyKey v));;
  reject_if (negb (is_ok (Validate (rec_Manifest v))) || (Version v <=? 0) || negb (CreatedAt v <? ExpiresAt v)) ErrUnavailable;;
  reject_if (negb (bool_decide (manifest_hash r = Fingerprint (rec_Manifest v))) ||
             negb ((len (ObjectKey v) =? 32) && forallb lower_hex (ObjectKey v)) ||
             (negb (bool_decide (UploadID v = [])) && negb (bool_decide (UploadID v = ID_String (rec_ID v))))) ErrUnavailable;;
  reject_if (negb (len (CleanSHA256 v) =? 0) && negb (len (CleanSHA256 v) =? 32)) ErrUnavailable;;
  let digest := copy_digest (CleanSHA256 v) in
  reject_if (bool_decide (rec_State v = Ready) &&
             (bool_decide (digest = zero_Digest) || (CleanSize v <=? 0) || (MaxSize <? CleanSize v) || negb (clean_format_ok (CleanFormat v))))
    ErrUnavailable;;
  Ok (decoded r).

Definition decode (reply : query_reply) : result file_error Record_ :=
  match reply with
  | NoRows => Err ErrNotFound
  | CodeP0001 => Err ErrLimit
  | QueryFailed => Err ErrUnavailable
  | Scanned r => decode_row r
  end.

Definition validVersion (v : Record_) : bool :=
  Owner_Valid (rec_Owner v) && negb (bool_decide (rec_ID v = zero_ID)) && (0 <? Version v) && (Version v <? MaxInt64).

(** [if errors.Is(err, file.ErrNotFound) { return file.ErrConflict }] *)
Definition not_found_conflicts (r : result file_error Record_) : result file_error Record_ :=
  match r with Err ErrNotFound => Err ErrConflict | _ => r end.

Definition repo_Create (v : Record_) : prog (result file_error Record_) :=
  refuse (negb (Owner_Valid (rec_Owner v)) || bool_decide (rec_ID v = zero_ID) || bool_decide (IdempotencyKey v = zero_ID) ||
          negb (is_ok (Validate (rec_Manifest v)))) ErrInvalid $
  reply ← perform (SqlInsert v (Fingerprint (rec_Manifest v)));
  match decode reply with
  | Err ErrNotFound => reply ← perform (SqlSelectKey (rec_Owner v) (IdempotencyKey v)); Ret (decode reply)
  | created => Ret created
  end.

Definition repo_Get (owner : Owner) (id : ID) : prog (result file_error Record_) :=
  refuse (negb (Owner_Valid owner) || bool_decide (id = zero_ID)) ErrInvalid $
  reply ← perform (SqlSelect owner id); Ret (decode reply).

Definition repo_AttachUpload (v : Record_) (uploadID : bytes) : prog (result file_error Record_) :=
  refuse (negb (validVersion v) || bool_decide (uploadID = []) || (1024 <? len uploadID)) ErrInvalid $
  reply ← perform (SqlAttach v uploadID); Ret (not_found_conflicts (decode reply)).

Definition repo_Transition (v : Record_) (to : State) : prog (result file_error Record_) :=
  refuse (negb (validVersion v) || negb (CanTransition (rec_State v) to)) ErrConflict $
  reply ← perform (SqlTransition v to); Ret (not_found_conflicts (decode reply)).

Definition repo_Claim : prog (result file_error Record_) :=
  reply ← perform SqlClaim; Ret (decode reply).

Definition repo_MarkClean (v : Record_) (format : Format) (size : Z) (digest : Digest) : prog (result file_error Record_) :=
  refuse (negb (validVersion v) || negb (bool_decide (rec_State v = Scanning)) || negb (clean_format_ok format) || (size <=? 0) ||
          (MaxSize <? size) || bool_decide (digest = zero_Digest)) ErrInvalid $
  reply ← perform (SqlMarkClean v format size digest); Ret (not_found_conflicts (decode reply)).

Definition repo_DeferCleanup (v : Record_) : prog (result file_error unit) :=
  refuse (negb (validVersion v) ||
          negb (match rec_State v with Deleted | Rejected | Expired | Ready => true | _ => false end)) ErrInvalid $
  affected ← perform (SqlDefer v);
  Ret (match affected with
       | None => Err ErrUnavailable
       | Some n => if negb (n =? 1) then Err ErrConflict else Ok tt
       end).
