(* ===== verification/FileService.v ===== *)
(** * Files: upload sessions and the processing worker

    [services/files/internal/application/files/service.go] and
    [application/processing/worker.go] and [error.go] as programs over the calls
    of [FileEffects]. *)

From S2P Require Import Prelude Sha256 Effects FileDomain FileEffects FileRepository.
Local Open Scope Z_scope.

(** ** The service *)

Record Upload := mkUpload {
  up_File : Record_;
  up_Parts : list Capability;
  up_Received : list Z
}.

(** [record.Manifest.Parts[part.Number-1]] is in range after the first test. *)
Definition validPart (record : Record_) (part : ReceivedPart) : result file_error bool :=
  if (rp_Number part <? 1) || (len (mf_Parts (rec_Manifest record)) <? rp_Number part) || bool_decide (rp_ETag part = EmptyString)
  then Ok false else
  expected ← index (mf_Parts (rec_Manifest record)) (rp_Number part - 1);
  Ok ((part_Size expected =? rp_Size part) && bool_decide (part_SHA256 expected = rp_SHA256 part)).

Definition minTime (a b : Z) : Z := if a <? b then a else b.

(** The loop over the received parts of [capabilities]; it returns the numbers. *)
Fixpoint received_numbers (record : Record_) (received : list ReceivedPart) (seen : list Z) : result file_error (list Z) :=
  match received with
  | [] => Ok seen
  | part :: received =>
      valid ← validPart record part;
      reject_if (negb valid || bool_decide (rp_Number part ∈ seen)) ErrRejected;;
      received_numbers record received (seen ++ [rp_Number part])
  end.

(** The loop that signs the missing parts. *)
Fixpoint sign_parts (record : Record_) (until : Z) (seen : list Z) (numbers : list Z) (signed : list Capability) :
    prog (result file_error (list Capability)) :=
  match numbers with
  | [] => Ret (Ok signed)
  | number :: numbers =>
      if bool_decide (number ∈ seen) then sign_parts record until seen numbers signed else
      try (perform (StorageSignPart record number until)) (fun capability =>
      sign_parts record until seen numbers (signed ++ [capability]))
  end.

(** [int32(i + 1)] over the parts of the manifest. *)
Definition part_numbers (record : Record_) : list Z := seqZ 1 (len (mf_Parts (rec_Manifest record))).

Definition capabilities (record : Record_) : prog (result file_error Upload) :=
  if negb (bool_decide (rec_State record = Uploading)) then Ret (Ok (mkUpload record [] [])) else
  if bool_decide (UploadID record = []) then Ret (Err ErrConflict) else
  now ← perform TimeNow;
  refuse (negb (now <? ExpiresAt record)) ErrConflict $
  try (perform (StorageParts record)) (fun received =>
  match received_numbers record received [] with
  | Ok seen =>
      now ← perform TimeNow;
      let until := minTime (now + CapabilityTTL) (ExpiresAt record) in
      try (sign_parts record until seen (part_numbers record) []) (fun signed => Ret (Ok (mkUpload record signed seen)))
  | Err e => Ret (Err e)
  | Panic => Ret Panic
  end).

(** The record [Create] asks the repository to store. *)
Definition new_record (owner : Owner) (key : ID) (manifest : Manifest) (id objectID : ID) (now : Z) : Record_ :=
  mkRecord id owner key manifest (ID_String objectID) [] Uploading 1 now (now + UploadTTL) EmptyString 0 zero_Digest.

(** [AttachUpload] failed: its acknowledgement may have been lost. *)
Definition attach_failed (owner : Owner) (record : Record_) (uploadID : bytes) (err : file_error) : prog (result file_error Upload) :=
  r ← repo_Get owner (rec_ID record);
  match r with
  | Ok current =>
      if bool_decide (UploadID current = uploadID) then capabilities current
      else if bool_decide (err = ErrConflict) then capabilities current
      else Ret (Err err)
  | _ => Ret (Err err)
  end.

Definition begin_upload (owner : Owner) (record : Record_) : prog (result file_error Upload) :=
  try (perform (StorageBegin record)) (fun uploadID =>
  r ← repo_AttachUpload record uploadID;
  match r with
  | Ok attached => capabilities attached
  | Err err => attach_failed owner record uploadID err
  | Panic => Ret Panic
  end).

Definition service_Create (owner : Owner) (key : ID) (manifest : Manifest) : prog (result file_error Upload) :=
  refuse (negb (Owner_Valid owner) || bool_decide (key = zero_ID) || negb (is_ok (Validate manifest))) ErrInvalid $
  id ← perform RandRead;
  match id with
  | None => Ret (Err ErrUnavailable)
  | Some id =>
      objectID ← perform RandRead;
      match objectID with
      | None => Ret (Err ErrUnavailable)
      | Some objectID =>
          now ← perform TimeNow;
          try (repo_Create (new_record owner key manifest id objectID now)) (fun record =>
          refuse (negb (bool_decide (Fingerprint (rec_Manifest record) = Fingerprint manifest))) ErrConflict $
          if negb (bool_decide (rec_State record = Uploading)) then Ret (Ok (mkUpload record [] [])) else
          now ← perform TimeNow;
          refuse (negb (now <? ExpiresAt record)) ErrConflict $
          if bool_decide (UploadID record = []) then begin_upload owner record else capabilities record)
      end
  end.

Definition service_Status (owner : Owner) (id : ID) : prog (result file_error Record_) :=
  refuse (negb (Owner_Valid owner) || bool_decide (id = zero_ID)) ErrInvalid (repo_Get owner id).

Definition advanceComplete (record : Record_) : prog (result file_error Record_) :=
  r ← repo_Transition record Scanning;
  match r with
  | Err ErrConflict => service_Status (rec_Owner record) (rec_ID record)
  | _ => Ret r
  end.

(** The loop over the parts of [Complete]. *)
Fixpoint complete_parts (record : Record_) (parts : list ReceivedPart) (i : Z) : result file_error unit :=
  match parts with
  | [] => Ok tt
  | part :: parts =>
      reject_if (negb (rp_Number part =? i + 1)) ErrRejected;;
      valid ← validPart record part;
      reject_if (negb valid) ErrRejected;;
      complete_parts record parts (i + 1)
  end.

Definition service_Complete (owner : Owner) (id : ID) : prog (result file_error Record_) :=
  try (service_Status owner id) (fun record =>
  match rec_State record with
  | Scanning | Replicating | Ready => Ret (Ok record)
  | Uploading =>
      if bool_decide (UploadID record = []) then Ret (Err ErrConflict) else
      now ← perform TimeNow;
      refuse (negb (now <? ExpiresAt record)) ErrConflict $
      try (perform (StorageCompleted record)) (fun complete =>
      if complete : bool then advanceComplete record else
      try (perform (StorageParts record)) (fun parts =>
      refuse (negb (len parts =? len (mf_Parts (rec_Manifest record)))) ErrConflict $
      match complete_parts record parts 0 with
      | Ok _ => try (perform (StorageComplete record parts)) (fun _ => advanceComplete record)
      | Err e => Ret (Err e)
      | Panic => Ret Panic
      end))
  | _ => Ret (Err ErrConflict)
  end).

Definition service_Download (owner : Owner) (id : ID) : prog (result file_error Capability) :=
  try (service_Status owner id) (fun record =>
  refuse (negb (bool_decide (rec_State record = Ready))) ErrNotReady $
  now ← perform TimeNow;
  perform (StorageSignDownload record (now + CapabilityTTL))).

Definition service_Delete (owner : Owner) (id : ID) : prog (result file_error unit) :=
  try (service_Status owner id) (fun record =>
  if bool_decide (rec_State record = Deleted) then Ret (Ok tt) else
  try (repo_Transition record Deleted) (fun _ => Ret (Ok tt))).

(** ** The worker *)

(** [errors.Join]: the errors that are not nil. *)
Abbreviation cause := (list file_error).

Record JobError := mkJobError {
  je_FileID : ID;
  je_State : State;
  je_Stage : string;
  je_cause : cause
}.

(** [errors.Is(e.cause, candidate)] in the order of the candidates *)
Definition Class (e : JobError) : string :=
  let has candidate := bool_decide (candidate ∈ je_cause e) in
  if has ErrDeadline then "deadline_exceeded"
  else if has ErrCanceled then "canceled"
  else if has ErrUnavailable then "unavailable"
  else if has ErrConflict then "conflict"
  else if has ErrRejected then "rejected"
  else if has ErrNotFound then "not_found"
  else if has ErrInvalid then "invalid"
  else if has ErrLimit then "limit"
  else "unknown".

(** [boundedWriter.Write]: the new [remaining]; the destination wrote [write_done]
    bytes unless the writer refused. *)
Definition boundedWriter_Write (remaining : Z) (w : write) : Z :=
  if remaining <? write_len w then remaining else i64 (remaining - write_done w).

Definition error_of {A} (r : result file_error A) : cause := match r with Err e => [e] | _ => [] end.

(** A function that returns a stage and an error. *)
Definition staged := (string * cause)%type.

(** Seeks to the start of a temporary file. *)
Definition seek (stage : string) (p : prog staged) : prog staged :=
  ok ← perform SeekStart;
  if ok : bool then p else Ret (stage, [ErrUnavailable]).
Definition create_temp (stage : string) (p : prog staged) : prog staged :=
  ok ← perform TempFile;
  if ok : bool then p else Ret (stage, [ErrUnavailable]).
Definition stage_step {A} (c : prog (result file_error A)) (stage : string) (p : A -> prog staged) : prog staged :=
  r ← c;
  match r with
  | Ok a => p a
  | Err e => Ret (stage, [e])
  | Panic => Ret (stage, [])
  end.

Definition worker_scan (r : Record_) : prog staged :=
  create_temp "prepare_source" $
  stage_step (perform (StorageReadUpload r)) "read_upload" $ fun _ =>
  seek "prepare_source" $
  create_temp "prepare_derivative" $
  output ← perform (ReconstructorClean r);
  let remaining := fold_left boundedWriter_Write output.1 MaxSize in
  match output.2 with
  | Err e => Ret ("reconstruct"%string, [e])
  | Panic => Ret ("reconstruct"%string, [])
  | Ok format =>
      let size := i64 (MaxSize - remaining) in
      if (size <=? 0) || (negb (bool_decide (format = PNG)) && negb (bool_decide (format = PDF)))
      then Ret ("reconstruct"%string, [ErrRejected]) else
      seek "prepare_derivative" $
      seek "prepare_source" $
      stage_step (perform (ScannerScan r false (mf_Size (rec_Manifest r)))) "scan_source" $ fun _ =>
      stage_step (perform (ScannerScan r true size)) "scan_derivative" $ fun _ =>
      seek "prepare_derivative" $
      stage_step (perform (StoragePutClean r format size)) "put_clean" $ fun digest =>
      marked ← repo_MarkClean r format size digest;
      Ret ("mark_clean"%string, error_of marked)
  end.

(** Runs a storage operation and, if it succeeds, a repository operation. *)
Definition then_repo {A} (c : call) (to_result : reply c -> result file_error unit) (stage : string)
    (next : prog (result file_error A)) (next_stage : string) : prog staged :=
  r ← perform c;
  match to_result r with
  | Ok _ => m ← next; Ret (next_stage, error_of m)
  | e => Ret (stage, error_of e)
  end.

(** The [switch] of [Step]; [None] is the default case, which returns at once. *)
Definition step_dispatch (r : Record_) : option (prog staged) :=
  match rec_State r with
  | Uploading => Some (m ← repo_Transition r Expired; Ret ("expire"%string, error_of m))
  | Scanning => Some (worker_scan r)
  | Replicating => Some (then_repo (StorageReplicate r) (fun x => x) "replicate" (repo_Transition r Ready) "mark_ready")
  | Rejected | Expired | Deleted =>
      Some (then_repo (StoragePurge r) (fun x => x) "purge" (repo_DeferCleanup r) "defer_cleanup")
  | Ready => Some (then_repo (StorageCleanupReady r) (fun x => x) "cleanup_ready" (repo_DeferCleanup r) "defer_cleanup")
  | OtherState _ => None
  end.

(** The zero [time.Time], in nanoseconds of the Unix epoch *)
Definition zero_time : Z := -62135596800000000000.

Definition job_error (r : Record_) (s : staged) : option JobError :=
  match s.2 with
  | [] => None
  | c => Some (mkJobError (rec_ID r) (rec_State r) s.1 c)
  end.

(** A rejected job is moved to REJECTED. *)
Definition step_reject (r : Record_) (s : staged) : prog staged :=
  if bool_decide (ErrRejected ∈ s.2) && (bool_decide (rec_State r = Scanning) || bool_decide (rec_State r = Replicating))
  then
    m ← repo_Transition r Rejected;
    Ret (if is_ok m then s.1 else "mark_rejected"%string, s.2 ++ error_of m)
  else Ret s.

Definition worker_Step : prog (option JobError) :=
  claimed ← repo_Claim;
  match claimed with
  | Ok r =>
      now ← perform TimeNow;
      if (bool_decide (rec_State r = Scanning) || bool_decide (rec_State r = Replicating)) &&
         negb (CreatedAt r =? zero_time) && (CreatedAt r + ProcessingTTL <? now)
      then m ← repo_Transition r Expired; Ret (job_error r ("expire"%string, error_of m))
      else
        match step_dispatch r with
        | None => Ret (job_error r ("dispatch"%string, [ErrConflict]))
        | Some p => s ← p; s ← step_reject r s; Ret (job_error r s)
        end
  | Err e => Ret (job_error zero_Record ("claim"%string, [e]))
  | Panic => Ret None
  end.
