(* ===== verification/FileSystem.v ===== *)
(** * Files: any number of requests and workers

    The requests and the workers of the files service run concurrently over one
    database, interleaved call by call.  The clocks, the object storage, the
    scanner and the reconstructor answer anything, and a statement can fail before
    or after its commit. *)

From S2P Require Import Prelude Sha256 Effects FileDomain FileEffects FileRepository FileService.
Local Open Scope Z_scope.

(** ** Requests *)

Inductive request :=
| ReqCreate (owner : Owner) (key : ID) (manifest : Manifest)
| ReqComplete (owner : Owner) (id : ID)
| ReqStatus (owner : Owner) (id : ID)
| ReqDownload (owner : Owner) (id : ID)
| ReqDelete (owner : Owner) (id : ID)
| ReqWork.

Inductive answer :=
| AnsUpload (r : result file_error Upload)
| AnsRecord (r : result file_error Record_)
| AnsCapability (r : result file_error Capability)
| AnsUnit (r : result file_error unit)
| AnsJob (e : option JobError).

Definition program_of (q : request) : prog answer :=
  match q with
  | ReqCreate owner key manifest => r ← service_Create owner key manifest; Ret (AnsUpload r)
  | ReqComplete owner id => r ← service_Complete owner id; Ret (AnsRecord r)
  | ReqStatus owner id => r ← service_Status owner id; Ret (AnsRecord r)
  | ReqDownload owner id => r ← service_Download owner id; Ret (AnsCapability r)
  | ReqDelete owner id => r ← service_Delete owner id; Ret (AnsUnit r)
  | ReqWork => r ← worker_Step; Ret (AnsJob r)
  end.

(** ** The system *)

(** The outside world of one call. *)
Record world := mkWorld {
  (** the clock of the database *)
  w_now : Z;
  w_fault : fault;
  (** rows locked by other transactions *)
  w_locked : list ID;
  (** the replies of everything but the database *)
  w_reply : forall c, reply c
}.

Definition answer_call (w : world) (d : db) (c : call) : db * reply c :=
  match c return db * reply c with
  | SqlInsert v hash => faulty QueryFailed (w_fault w) d (sql_insert (w_now w) d v hash)
  | SqlSelectKey owner key => faulty QueryFailed (w_fault w) d (d, sql_select_key d owner key)
  | SqlSelect owner id => faulty QueryFailed (w_fault w) d (d, sql_select d owner id)
  | SqlAttach v uploadID => faulty QueryFailed (w_fault w) d (sql_attach (w_now w) d v uploadID)
  | SqlTransition v to => faulty QueryFailed (w_fault w) d (sql_transition (w_now w) d v to)
  | SqlClaim => faulty QueryFailed (w_fault w) d (sql_claim (w_now w) d (w_locked w))
  | SqlMarkClean v format size digest => faulty QueryFailed (w_fault w) d (sql_mark_clean (w_now w) d v format size digest)
  | SqlDefer v =>
      let '(d, r) := faulty QueryFailed (w_fault w) d (sql_defer (w_now w) d v) in
      (d, match r with QueryFailed | CodeP0001 => None | NoRows => Some 0 | Scanned _ => Some 1 end)
  | c => (d, w_reply w c)
  end.

Abbreviation files_system := (system reply request answer db).
Abbreviation files_event := (event request world).

(** An empty database. *)
Definition files_start : files_system := mkSystem (mkDb ∅ []) [].
Definition files_run : files_system -> list files_event -> option files_system := sys_run answer_call program_of.

(** ** Legal replies of the database *)

Definition scanned (P : Record_ -> Prop) (q : query_reply) : Prop := match q with Scanned r => P (row_record r) | _ => True end.

Definition same_file (v x : Record_) : Prop := rec_Owner x = rec_Owner v /\ rec_ID x = rec_ID v.

Definition legal (c : call) : reply c -> Prop :=
  match c return reply c -> Prop with
  | SqlInsert v _ => scanned (fun x => x = inserted v)
  | SqlSelectKey owner key => scanned (fun x => rec_Owner x = owner /\ IdempotencyKey x = key)
  | SqlSelect owner id => scanned (fun x => rec_Owner x = owner /\ rec_ID x = id)
  | SqlAttach v uploadID => scanned (fun x => same_file v x /\ rec_State x = Uploading /\ UploadID x = uploadID)
  | SqlTransition v to => scanned (fun x => same_file v x /\ rec_State x = to)
  | SqlMarkClean v _ _ _ => scanned (fun x => same_file v x /\ rec_State x = Replicating)
  | _ => fun _ => True
  end.

(** ** Guards of the calls *)

(** The call and its reply are in the trace. *)
Abbreviation did t c r := (@existT call reply c r ∈ t).

(** The row that a call returned. *)
Definition scanned_row (e : { c : call & reply c }) : option row :=
  let of_query (q : query_reply) := match q with Scanned x => Some x | _ => None end in
  match e with
  | existT c r =>
      match c return reply c -> option row with
      | SqlInsert _ _ | SqlSelectKey _ _ | SqlSelect _ _ | SqlAttach _ _ | SqlTransition _ _ | SqlClaim | SqlMarkClean _ _ _ _ => of_query
      | _ => fun _ => None
      end r
  end.

(** The record was decoded from a row that a call returned. *)
Definition read (t : trace) (v : Record_) : Prop := exists e x, e ∈ t /\ scanned_row e = Some x /\ v = decoded x.

Lemma read_mono t t' v : t ⊆ t' -> read t v -> read t' v.
Proof. intros Ht (e & x & He & Hx). exists e, x. split; [by apply Ht|done]. Qed.

Definition call_ok (t : trace) (c : call) : Prop :=
  match c with
  | SqlInsert v hash =>
      Owner_Valid (rec_Owner v) = true /\ Validate (rec_Manifest v) = Ok tt /\ hash = Fingerprint (rec_Manifest v)
  | SqlAttach v uploadID => uploadID <> []
  | SqlTransition v to => CanTransition (rec_State v) to = true /\ to <> Replicating /\ (to = Ready -> read t v /\ did t (StorageReplicate v) (Ok tt))
  | SqlMarkClean v format size digest =>
      read t v /\ rec_State v = Scanning /\ (format = PNG \/ format = PDF) /\ 0 < size <= MaxSize /\ digest <> zero_Digest /\
      did t (ScannerScan v false (mf_Size (rec_Manifest v))) (Ok tt) /\ did t (ScannerScan v true size) (Ok tt) /\
      did t (StoragePutClean v format size) (Ok digest)
  | SqlDefer v => match rec_State v with Deleted | Rejected | Expired | Ready => True | _ => False end
  | StorageSignPart r number until =>
      rec_State r = Uploading /\ UploadID r <> [] /\ number ∈ part_numbers r /\ until <= ExpiresAt r
  | StorageSignDownload r _ => read t r /\ rec_State r = Ready
  | _ => True
  end.

(** ** What an answer promises *)

(** Every part of an upload in progress was received or is signed exactly once,
    with a capability that does not outlive the upload. *)
Definition upload_ok (t : trace) (up : Upload) : Prop :=
  rec_State (up_File up) = Uploading ->
  exists until numbers, up_Received up ++ numbers ≡ₚ part_numbers (up_File up) /\ until <= ExpiresAt (up_File up) /\
    Forall2 (fun n cap => did t (StorageSignPart (up_File up) n until) (Ok cap)) numbers (up_Parts up).

Definition answer_ok (q : request) (t : trace) (a : answer) : Prop :=
  match q, a with
  | ReqCreate owner _ _, AnsUpload (Ok up) => rec_Owner (up_File up) = owner /\ upload_ok t up
  | (ReqComplete owner id | ReqStatus owner id), AnsRecord (Ok v) => rec_Owner v = owner /\ rec_ID v = id
  | ReqDownload owner id, AnsCapability (Ok cap) =>
      exists v until, rec_Owner v = owner /\ rec_ID v = id /\ rec_State v = Ready /\ did t (StorageSignDownload v until) (Ok cap)
  | ReqDelete owner id, AnsUnit (Ok _) =>
      (exists r, did t (SqlSelect owner id) (Scanned r) /\ row_state r = Deleted) \/
      (exists v r, rec_Owner v = owner /\ rec_ID v = id /\ did t (SqlTransition v Deleted) (Scanned r))
  | _, _ => True
  end.

Abbreviation ver := (verified call_ok legal).

(** ** The functions of the repository *)

Lemma decode_Ok q v : decode q = Ok v -> exists r, q = Scanned r /\ v = decoded r.
Proof.
  destruct q as [r| | |]; try done. cbn [decode]. unfold decode_row. intros Hd. exists r. split; [done|].
  cbv zeta in Hd. go_inv Hd. by injection Hd.
Qed.

Lemma not_found_conflicts_Ok r v : not_found_conflicts r = Ok v <-> r = Ok v.
Proof. destruct r as [|[]|]; done. Qed.

(** A query whose result is decoded. *)
Lemma ver_query (c : call) (f : reply c -> query_reply) (g : result file_error Record_ -> result file_error Record_) P t
    (post : trace -> result file_error Record_ -> Prop) :
  call_ok t c -> (forall r, legal c r -> scanned P (f r)) -> (forall r v, g r = Ok v -> r = Ok v) ->
  (forall r res, res = g (decode (f r)) -> (forall v, res = Ok v -> exists x, f r = Scanned x /\ P (row_record x) /\
     v = decoded x) -> post (t ++ [existT c r]) res) ->
  ver (Do c (fun r => Ret (g (decode (f r))))) t post.
Proof.
  intros Hc Hl Hg Hp. split; [done|]. intros r Hr. cbn. eapply Hp; [done|]. intros v Hv%Hg.
  destruct (decode_Ok _ _ Hv) as (x & Hx & ->). exists x. split_and!; [done| |done]. specialize (Hl r Hr). by rewrite Hx in Hl.
Qed.

Lemma ver_repo_Get owner id t (post : trace -> result file_error Record_ -> Prop) :
  (forall t' r, t ⊆ t' -> (forall v, r = Ok v -> rec_Owner v = owner /\ rec_ID v = id /\ read t' v /\
     exists x, did t' (SqlSelect owner id) (Scanned x) /\ row_state x = rec_State v) -> post t' r) ->
  ver (repo_Get owner id) t post.
Proof.
  intros Hp. apply verified_refuse; [intros _; by apply Hp|]. intros _.
  apply (ver_query (SqlSelect owner id) (fun r => r) (fun r => r) (fun x => rec_Owner x = owner /\ rec_ID x = id)); try done.
  intros r res _ Hres. apply Hp; [set_solver|]. intros v Hv. destruct (Hres v Hv) as (x & -> & [Ho Hi] & ->).
  split_and!; [exact Ho|exact Hi| |].
  - exists (existT (SqlSelect owner id) (Scanned x)), x. split; [set_solver|done].
  - exists x. split; [set_solver|done].
Qed.

Lemma ver_repo_Transition v to t (post : trace -> result file_error Record_ -> Prop) :
  to <> Replicating -> (to = Ready -> read t v /\ did t (StorageReplicate v) (Ok tt)) ->
  (forall t' r, t ⊆ t' -> (forall u, r = Ok u -> same_file v u /\ rec_State u = to /\
     exists x, did t' (SqlTransition v to) (Scanned x)) -> post t' r) ->
  ver (repo_Transition v to) t post.
Proof.
  intros Hto Hready Hp. apply verified_refuse; [intros _; by apply Hp|].
  intros [_ Hct%negb_false_iff]%orb_false_iff.
  apply (ver_query (SqlTransition v to) (fun r => r) not_found_conflicts (fun x => same_file v x /\ rec_State x = to));
    [done|done|apply not_found_conflicts_Ok|].
  intros r res _ Hres. apply Hp; [set_solver|]. intros u Hu. destruct (Hres u Hu) as (x & -> & [Hf Hst] & ->).
  split_and!; [exact Hf|exact Hst|]. exists x. set_solver.
Qed.

Lemma ver_repo_AttachUpload v uploadID t (post : trace -> result file_error Record_ -> Prop) :
  (forall t' r, t ⊆ t' -> (forall u, r = Ok u -> same_file v u) -> post t' r) -> ver (repo_AttachUpload v uploadID) t post.
Proof.
  intros Hp. apply verified_refuse; [intros _; by apply Hp|].
  intros [[_ Hne%bool_decide_eq_false]%orb_false_iff _]%orb_false_iff.
  apply (ver_query (SqlAttach v uploadID) (fun r => r) not_found_conflicts
    (fun x => same_file v x /\ rec_State x = Uploading /\ UploadID x = uploadID)); [done|done|apply not_found_conflicts_Ok|].
  intros r res _ Hres. apply Hp; [set_solver|]. intros u Hu. destruct (Hres u Hu) as (x & -> & [Hf _] & ->). exact Hf.
Qed.

Lemma ver_repo_Create v t (post : trace -> result file_error Record_ -> Prop) :
  (forall t' r, t ⊆ t' -> (forall u, r = Ok u -> rec_Owner u = rec_Owner v /\ IdempotencyKey u = IdempotencyKey v) -> post t' r) ->
  ver (repo_Create v) t post.
Proof.
  intros Hp. apply verified_refuse; [intros _; by apply Hp|].
  intros [[[Ho%negb_false_iff _]%orb_false_iff _]%orb_false_iff Hm%negb_false_iff]%orb_false_iff.
  apply verified_do; [split_and!; [done|by apply is_ok_true in Hm as [[] Hm]|done]|]. intros r Hr. cbn [reply] in r.
  destruct (decode r) as [u|[]|] eqn:Hd; try (apply Hp; [set_solver|done]).
  - apply Hp; [set_solver|]. intros u' [= <-]. apply decode_Ok in Hd as (x & -> & ->). cbn in Hr. unfold decoded. rewrite Hr. done.
  - apply verified_do; [done|]. intros r' Hr'. apply Hp; [set_solver|]. intros u (x & -> & ->)%decode_Ok. exact Hr'.
Qed.

Lemma ver_repo_MarkClean v format size digest t (post : trace -> result file_error Record_ -> Prop) :
  read t v -> (format = PNG \/ format = PDF) -> did t (ScannerScan v false (mf_Size (rec_Manifest v))) (Ok tt) ->
  did t (ScannerScan v true size) (Ok tt) -> did t (StoragePutClean v format size) (Ok digest) ->
  (forall t' r, t ⊆ t' -> post t' r) -> ver (repo_MarkClean v format size digest) t post.
Proof.
  intros Hr Hf Hs1 Hs2 Hput Hp. apply verified_refuse; [intros _; by apply Hp|]. intros Hg. go_bool.
  split; [split_and!; done|]. intros r _. apply Hp. set_solver.
Qed.

Lemma ver_repo_DeferCleanup v t (post : trace -> result file_error unit -> Prop) :
  (forall t' r, t ⊆ t' -> post t' r) -> ver (repo_DeferCleanup v) t post.
Proof.
  intros Hp. apply verified_refuse; [intros _; by apply Hp|]. intros [_ Hs%negb_false_iff]%orb_false_iff.
  split; [cbn; by destruct (rec_State v)|]. intros r _. apply Hp. set_solver.
Qed.

Lemma ver_repo_Claim t (post : trace -> result file_error Record_ -> Prop) :
  (forall t' r, t ⊆ t' -> (forall v, r = Ok v -> read t' v) -> post t' r) -> ver repo_Claim t post.
Proof.
  intros Hp. apply verified_do; [done|]. intros r _. apply Hp; [set_solver|]. intros v (x & Hx & ->)%decode_Ok. subst r.
  exists (existT SqlClaim (Scanned x)), x. split; [set_solver|done].
Qed.

(** ** Capabilities *)

Lemma validPart_Ok record part b : validPart record part = Ok b -> b = true ->
  1 <= rp_Number part <= len (mf_Parts (rec_Manifest record)).
Proof.
  unfold validPart. destruct (rp_Number part <? 1) eqn:H1; [by intros [= <-]|].
  destruct (_ <? rp_Number part) eqn:H2; [by intros [= <-]|]. intros _ _. go_bool. lia.
Qed.

Lemma received_numbers_Ok record received : forall seen out,
  received_numbers record received seen = Ok out -> NoDup seen -> (forall n, n ∈ seen -> n ∈ part_numbers record) ->
  NoDup out /\ (forall n, n ∈ out -> n ∈ part_numbers record).
Proof.
  induction received as [|part received IH]; intros seen out; cbn [received_numbers]; [by intros [= <-]|].
  intros Hr Hnd Hin. rewrite bind_Ok in Hr. destruct Hr as (valid & Hv & Hr). rewrite guard_Ok in Hr. destruct Hr as [Hg Hr].
  apply orb_false_iff in Hg as [Hvalid%negb_false_iff Hseen%bool_decide_eq_false]. apply IH in Hr; [done|..].
  - apply NoDup_app. split_and!; [done| |apply NoDup_singleton]. intros x Hx Hx'%list_elem_of_singleton. by subst.
  - intros n [Hn|Hn%list_elem_of_singleton]%elem_of_app; [by apply Hin|]. subst n. unfold part_numbers. rewrite elem_of_seqZ.
    pose proof (validPart_Ok _ _ _ Hv Hvalid). lia.
Qed.

Lemma ver_sign_parts record until seen numbers : forall signed t (post : trace -> result file_error (list Capability) -> Prop),
  rec_State record = Uploading -> UploadID record <> [] -> until <= ExpiresAt record ->
  (forall n, n ∈ numbers -> n ∈ part_numbers record) ->
  (forall t' r, t ⊆ t' -> (forall caps, r = Ok caps -> exists new, caps = signed ++ new /\
     Forall2 (fun n cap => did t' (StorageSignPart record n until) (Ok cap)) (List.filter (fun n => negb (bool_decide (n ∈ seen))) numbers) new) ->
     post t' r) ->
  ver (sign_parts record until seen numbers signed) t post.
Proof.
  induction numbers as [|n numbers IH]; intros signed t post Hs Hu Hun Hin Hp; cbn [sign_parts List.filter].
  { apply Hp; [done|]. intros caps [= <-]. exists []. by rewrite app_nil_r. }
  case_bool_decide as Hseen; cbn [negb].
  - apply IH; try done; [set_solver|]. intros t' r Ht Hr. apply Hp; [done|]. intros caps Hcaps.
    cbn [List.filter]. rewrite bool_decide_eq_true_2 by done. by apply Hr.
  - apply verified_try; one_call; [split_and!; try done; apply Hin; set_solver|]. intros r _.
    destruct r as [cap|e|]; [|apply Hp; [set_solver|done]|apply Hp; [set_solver|done]].
    apply IH; try done; [set_solver|]. intros t' r Ht Hr. apply Hp; [set_solver|]. intros caps Hcaps.
    destruct (Hr caps Hcaps) as (new & -> & Hnew). exists (cap :: new). rewrite <- app_assoc. split; [done|].
    cbn [List.filter]. rewrite bool_decide_eq_false_2 by done. constructor; [set_solver|done].
Qed.

Lemma partition_numbers (seen all : list Z) :
  NoDup seen -> NoDup all -> (forall n, n ∈ seen -> n ∈ all) ->
  seen ++ List.filter (fun n => negb (bool_decide (n ∈ seen))) all ≡ₚ all.
Proof.
  intros Hs Ha Hsub. apply NoDup_Permutation; [|done|].
  - apply NoDup_app. split_and!; [done| |by apply NoDup_ListNoDup, List.NoDup_filter, NoDup_ListNoDup].
    intros n Hn [_ Hf]%list_elem_of_In%filter_In. by rewrite bool_decide_eq_true_2 in Hf.
  - intros n. rewrite elem_of_app, !list_elem_of_In, filter_In, <- !list_elem_of_In.
    destruct (decide (n ∈ seen)); [rewrite bool_decide_eq_true_2 by done|rewrite bool_decide_eq_false_2 by done]; naive_solver.
Qed.

Lemma ver_capabilities record t (post : trace -> result file_error Upload -> Prop) :
  (forall t' r, t ⊆ t' -> (forall up, r = Ok up -> up_File up = record /\ upload_ok t' up) -> post t' r) ->
  ver (capabilities record) t post.
Proof.
  intros Hp. unfold capabilities. case_bool_decide as Hst; cbn [negb]; [|apply Hp; [done|]; intros up [= <-]; split; [done|]; intros Hst'; by destruct Hst].
  case_bool_decide as Hu; [by apply Hp|]. apply verified_do; [done|]. intros now _. cbn [reply] in now. apply verified_refuse; [intros _; apply Hp; [set_solver|done]|].
  intros _. apply verified_try; one_call; [done|]. intros received _. cbn [reply] in received.
  destruct received as [received|e|]; [|apply Hp; [set_solver|done]|apply Hp; [set_solver|done]].
  destruct (received_numbers record received []) as [seen|e|] eqn:Hseen; [|apply Hp; [set_solver|done]|apply Hp; [set_solver|done]].
  destruct (received_numbers_Ok _ _ _ _ Hseen) as [Hnd Hsub]; [constructor|set_solver|].
  apply verified_do; [done|]. intros now' _. cbn [reply] in now'. apply verified_try. set (until := minTime _ _).
  assert (Huntil : until <= ExpiresAt record) by (unfold until, minTime; destruct (Z.ltb_spec (now' + CapabilityTTL) (ExpiresAt record)); lia).
  apply ver_sign_parts; try done. intros t' r Ht Hr. destruct r as [caps|e|]; [|apply Hp; [set_solver|done]|apply Hp; [set_solver|done]].
  apply Hp; [set_solver|]. intros up [= <-]. split; [done|]. intros _. cbn [up_File up_Received up_Parts].
  destruct (Hr caps eq_refl) as (new & -> & Hnew). eexists until, _. split_and!; [|done|exact Hnew].
  apply partition_numbers; [done|apply NoDup_seqZ|done].
Qed.

(** ** The functions of the service *)

Ltac fails Hp := apply Hp; [set_solver|done].

Lemma ver_attach_failed owner record uploadID err t (post : trace -> result file_error Upload -> Prop) :
  (forall t' r, t ⊆ t' -> (forall up, r = Ok up -> rec_Owner (up_File up) = owner /\ upload_ok t' up) -> post t' r) ->
  ver (attach_failed owner record uploadID err) t post.
Proof.
  intros Hp. apply verified_bind, ver_repo_Get. intros t' r Ht Hr. destruct r as [current|e|]; [|fails Hp|fails Hp].
  destruct (Hr current eq_refl) as (Ho & _ & _).
  assert (ver (capabilities current) t' post) as Hc.
  { apply ver_capabilities. intros t'' r Ht' Hup. apply Hp; [set_solver|]. intros up Hu. destruct (Hup up Hu) as [-> ?]. done. }
  do 2 (case_bool_decide; [exact Hc|]). fails Hp.
Qed.

Lemma ver_begin_upload owner record t (post : trace -> result file_error Upload -> Prop) :
  rec_Owner record = owner ->
  (forall t' r, t ⊆ t' -> (forall up, r = Ok up -> rec_Owner (up_File up) = owner /\ upload_ok t' up) -> post t' r) ->
  ver (begin_upload owner record) t post.
Proof.
  intros Ho Hp. apply verified_try; one_call; [done|]. intros uploadID _. cbn [reply] in uploadID.
  destruct uploadID as [uploadID|e|]; [|fails Hp|fails Hp].
  apply verified_bind, ver_repo_AttachUpload. intros t' r Ht Hr. destruct r as [attached|e|]; [| |fails Hp].
  - destruct (Hr attached eq_refl) as [Ho' _]. apply ver_capabilities. intros t'' r Ht' Hup. apply Hp; [set_solver|].
    intros up Hu. destruct (Hup up Hu) as [-> ?]. split; [congruence|done].
  - apply ver_attach_failed. intros t'' r Ht' Hup. apply Hp; [set_solver|done].
Qed.

Lemma ver_service_Create owner key manifest t (post : trace -> result file_error Upload -> Prop) :
  (forall t' r, t ⊆ t' -> (forall up, r = Ok up -> rec_Owner (up_File up) = owner /\ upload_ok t' up) -> post t' r) ->
  ver (service_Create owner key manifest) t post.
Proof.
  intros Hp. apply verified_refuse; [intros _; fails Hp|]. intros _. apply verified_do; [done|]. intros id _. cbn [reply] in id.
  destruct id as [id|]; [|fails Hp]. apply verified_do; [done|]. intros objectID _. cbn [reply] in objectID.
  destruct objectID as [objectID|]; [|fails Hp]. apply verified_do; [done|]. intros now _. cbn [reply] in now.
  apply verified_try, ver_repo_Create. intros t' r Ht Hr. destruct r as [record|e|]; [|fails Hp|fails Hp].
  destruct (Hr record eq_refl) as [Ho _]. apply verified_refuse; [intros _; fails Hp|]. intros _.
  case_bool_decide as Hst; cbn [negb].
  - apply verified_do; [done|]. intros now' _. cbn [reply] in now'. apply verified_refuse; [intros _; fails Hp|]. intros _.
    case_bool_decide.
    + apply ver_begin_upload; [done|]. intros t'' r Ht' Hup. apply Hp; [set_solver|done].
    + apply ver_capabilities. intros t'' r Ht' Hup. apply Hp; [set_solver|]. intros up Hu. by destruct (Hup up Hu) as [-> ?].
  - apply Hp; [set_solver|]. intros up [= <-]. split; [done|]. intros Hst'. by destruct Hst.
Qed.

Lemma ver_service_Status owner id t (post : trace -> result file_error Record_ -> Prop) :
  (forall t' r, t ⊆ t' -> (forall v, r = Ok v -> rec_Owner v = owner /\ rec_ID v = id /\ read t' v /\
     exists x, did t' (SqlSelect owner id) (Scanned x) /\ row_state x = rec_State v) -> post t' r) ->
  ver (service_Status owner id) t post.
Proof. intros Hp. apply verified_refuse; [intros _; fails Hp|]. intros _. by apply ver_repo_Get. Qed.

Lemma ver_advanceComplete record t (post : trace -> result file_error Record_ -> Prop) :
  (forall t' r, t ⊆ t' -> (forall v, r = Ok v -> same_file record v) -> post t' r) -> ver (advanceComplete record) t post.
Proof.
  intros Hp. apply verified_bind, ver_repo_Transition; [done|done|]. intros t' r Ht Hr.
  destruct r as [v|[]|]; try (apply Hp; [set_solver|done]).
  - apply Hp; [done|]. intros v' [= <-]. by destruct (Hr v eq_refl).
  - apply ver_service_Status. intros t'' r Ht' Hs. apply Hp; [set_solver|]. intros v Hv. destruct (Hs v Hv) as (? & ? & _). done.
Qed.

Lemma ver_service_Complete owner id t (post : trace -> result file_error Record_ -> Prop) :
  (forall t' r, t ⊆ t' -> (forall v, r = Ok v -> rec_Owner v = owner /\ rec_ID v = id) -> post t' r) -> ver (service_Complete owner id) t post.
Proof.
  intros Hp. apply verified_try, ver_service_Status. intros t' r Ht Hr. destruct r as [record|e|]; [|fails Hp|fails Hp].
  destruct (Hr record eq_refl) as (Ho & Hi & _).
  assert (forall t'', t' ⊆ t'' -> ver (advanceComplete record) t'' post) as Hadv.
  { intros t'' Ht''. apply ver_advanceComplete. intros t3 r Ht3 Hs. apply Hp; [set_solver|]. intros v Hv.
    destruct (Hs v Hv) as [-> ->]. done. }
  destruct (rec_State record); try (apply Hp; [done|intros v Hv; split; congruence]).
  case_bool_decide; [fails Hp|]. apply verified_do; [done|]. intros now _. cbn [reply] in now.
  apply verified_refuse; [intros _; fails Hp|]. intros _. apply verified_try; one_call; [done|].
  intros complete _. cbn [reply] in complete. destruct complete as [[]|e|]; [apply Hadv; set_solver| |fails Hp|fails Hp].
  apply verified_try; one_call; [done|]. intros parts _. cbn [reply] in parts. destruct parts as [parts|e|]; [|fails Hp|fails Hp].
  apply verified_refuse; [intros _; fails Hp|]. intros _. destruct (complete_parts record parts 0); [|fails Hp|fails Hp].
  apply verified_try; one_call; [done|]. intros completed _. cbn [reply] in completed. destruct completed; [|fails Hp|fails Hp].
  apply Hadv. set_solver.
Qed.

Lemma ver_service_Download owner id t (post : trace -> result file_error Capability -> Prop) :
  (forall t' r, t ⊆ t' -> (forall cap, r = Ok cap -> exists v until, rec_Owner v = owner /\ rec_ID v = id /\ rec_State v = Ready /\
     did t' (StorageSignDownload v until) (Ok cap)) -> post t' r) -> ver (service_Download owner id) t post.
Proof.
  intros Hp. apply verified_try, ver_service_Status. intros t' r Ht Hr. destruct r as [record|e|]; [|fails Hp|fails Hp].
  destruct (Hr record eq_refl) as (Ho & Hi & Hread & _). apply verified_refuse; [intros _; fails Hp|]. intros Hst%negb_false_iff%bool_decide_eq_true.
  apply verified_do; [done|]. intros now _. cbn [reply] in now. one_call; [split; [eapply read_mono, Hread; set_solver|done]|]. intros r _. apply Hp; [set_solver|].
  intros cap ->. exists record, (now + CapabilityTTL). split_and!; [done..|]. set_solver.
Qed.

Lemma ver_service_Delete owner id t (post : trace -> result file_error unit -> Prop) :
  (forall t' r, t ⊆ t' -> (forall u, r = Ok u ->
     (exists r, did t' (SqlSelect owner id) (Scanned r) /\ row_state r = Deleted) \/
     (exists v r, rec_Owner v = owner /\ rec_ID v = id /\ did t' (SqlTransition v Deleted) (Scanned r))) -> post t' r) ->
  ver (service_Delete owner id) t post.
Proof.
  intros Hp. apply verified_try, ver_service_Status. intros t' r Ht Hr. destruct r as [record|e|]; [|fails Hp|fails Hp].
  destruct (Hr record eq_refl) as (Ho & Hi & _ & x & Hx & Hst). case_bool_decide as Hd.
  - apply Hp; [done|]. intros _ _. left. exists x. split; [done|congruence].
  - apply verified_try, ver_repo_Transition; [done|done|]. intros t'' r Ht' Htr. destruct r as [u|e|]; [|fails Hp|fails Hp].
    apply Hp; [set_solver|]. intros _ _. right. destruct (Htr u eq_refl) as (_ & _ & y & Hy). exists record, y. done.
Qed.

(** ** The worker *)


Lemma ver_stage {A} (p : prog (result file_error A)) stage (f : A -> prog staged) t post :
  (forall t s, post t s) ->
  ver p t (fun t r => match r with Ok a => ver (f a) t post | _ => True end) -> ver (stage_step p stage f) t post.
Proof. intros Hp Hv. apply verified_bind. eapply verified_impl; [|exact Hv]. intros t' []; [done|intros _; apply Hp..]. Qed.

Lemma ver_flag c (p : prog staged) (e : staged) (to : reply c -> bool) t post :
  (forall t s, post t s) -> call_ok t c -> (forall t', t ⊆ t' -> ver p t' post) ->
  ver (r ← perform c; if to r then p else Ret e) t post.
Proof.
  intros Hp Hc Hv. apply verified_do; [done|]. intros r _. destruct (to r); [apply Hv; set_solver|apply Hp].
Qed.

Lemma ver_worker_scan r t (post : trace -> staged -> Prop) : read t r -> (forall t s, post t s) -> ver (worker_scan r) t post.
Proof.
  intros Hread Hp. apply (ver_flag TempFile _ _ (fun b => b)); [done..|]. intros t1 Ht1.
  apply ver_stage; [done|]. one_call; [done|]. intros [[]| |] _; [|done|done].
  apply (ver_flag SeekStart _ _ (fun b => b)); [done..|]. intros t2 Ht2.
  apply (ver_flag TempFile _ _ (fun b => b)); [done..|]. intros t3 Ht3.
  apply verified_do; [done|]. intros output _. cbn [reply] in output. cbv zeta.
  destruct (output.2) as [format|e|]; [|apply Hp..]. set (size := i64 _).
  destruct ((size <=? 0) || _) eqn:Hg; [apply Hp|].
  assert (format = PNG \/ format = PDF) as Hf.
  { apply orb_false_iff in Hg as [_ Hg]. apply andb_false_iff in Hg as [Hg|Hg]; apply negb_false_iff, bool_decide_eq_true in Hg; auto. }
  apply (ver_flag SeekStart _ _ (fun b => b)); [done..|]. intros t4 Ht4.
  apply (ver_flag SeekStart _ _ (fun b => b)); [done..|]. intros t5 Ht5.
  apply ver_stage; [done|]. one_call; [done|]. intros [[]| |] _; [|done|done].
  apply ver_stage; [done|]. one_call; [done|]. intros [[]| |] _; [|done|done].
  apply (ver_flag SeekStart _ _ (fun b => b)); [done..|]. intros t6 Ht6.
  apply ver_stage; [done|]. one_call; [done|]. intros [digest| |] _; [|done|done].
  apply verified_bind, ver_repo_MarkClean; [eapply read_mono, Hread; set_solver|done|set_solver..|]. intros; apply Hp.
Qed.

Lemma ver_then_repo {A} c to_result stage (next : prog (result file_error A)) next_stage t post :
  (forall t s, post t s) -> call_ok t c ->
  (forall r, to_result r = Ok tt -> ver next (t ++ [existT c r]) (fun _ _ => True)) ->
  ver (then_repo c to_result stage next next_stage) t post.
Proof.
  intros Hp Hc Hv. apply verified_do; [done|]. intros r _. destruct (to_result r) as [[]|e|] eqn:Hr; [|apply Hp..].
  apply verified_bind. eapply verified_impl; [|by apply Hv]. intros; apply Hp.
Qed.

Lemma ver_step_dispatch r p t (post : trace -> staged -> Prop) :
  read t r -> (forall t s, post t s) -> step_dispatch r = Some p -> ver p t post.
Proof.
  intros Hread Hp. unfold step_dispatch.
  destruct (rec_State r); intros [= <-]; try (apply ver_then_repo; [done..|]; intros x Hx).
  - apply verified_bind, ver_repo_Transition; [done|done|]. intros; apply Hp.
  - by apply ver_worker_scan.
  - apply ver_repo_Transition; [done| |done]. intros _. cbn in Hx. subst x. split; [eapply read_mono, Hread; set_solver|set_solver].
  - by apply ver_repo_DeferCleanup.
  - by apply ver_repo_DeferCleanup.
  - by apply ver_repo_DeferCleanup.
  - by apply ver_repo_DeferCleanup.
Qed.

Lemma ver_step_reject r s t (post : trace -> staged -> Prop) : (forall t s, post t s) -> ver (step_reject r s) t post.
Proof.
  intros Hp. unfold step_reject. destruct (_ && _); [|apply Hp]. apply verified_bind, ver_repo_Transition; [done|done|].
  intros; apply Hp.
Qed.

Lemma ver_worker_Step t (post : trace -> option JobError -> Prop) : (forall t s, post t s) -> ver worker_Step t post.
Proof.
  intros Hp. apply verified_bind, ver_repo_Claim. intros t' claimed _ Hread. destruct claimed as [r|e|]; [|apply Hp..].
  apply verified_do; [done|]. intros now _. cbn [reply] in now. destruct (_ && _).
  - apply verified_bind, ver_repo_Transition; [done|done|]. intros; apply Hp.
  - destruct (step_dispatch r) as [p|] eqn:Hd; [|apply Hp].
    apply verified_bind. apply (ver_step_dispatch r); [eapply read_mono, (Hread r); [set_solver|done]| |done]. intros t'' s. apply verified_bind, ver_step_reject. intros; apply Hp.
Qed.

(** Every request makes only guarded calls and keeps its promise. *)
Lemma ver_program_of q : ver (program_of q) [] (answer_ok q).
Proof.
  destruct q as [owner key manifest|owner id|owner id|owner id|owner id|]; apply verified_bind.
  - apply ver_service_Create. intros t' r _ Hr. destruct r as [up| |]; [|done|done]. by apply Hr.
  - apply ver_service_Complete. intros t' r _ Hr. destruct r as [up| |]; [|done|done]. by apply Hr.
  - apply ver_service_Status. intros t' r _ Hr. destruct r as [up| |]; [|done|done]. by destruct (Hr up eq_refl) as (? & ? & _).
  - apply ver_service_Download. intros t' r _ Hr. destruct r as [cap| |]; [|done|done]. by apply Hr.
  - apply ver_service_Delete. intros t' r _ Hr. destruct r as [u| |]; [|done|done]. by apply (Hr u).
  - apply ver_worker_Step. done.
Qed.
