(* ===== verification/FileHistory.v ===== *)
(** * Files: what holds over every run

    The effect of one call on the database, the invariant of the system of
    [FileSystem] over its steps, and what it gives: consistent rows, quotas and
    histories, optimistic locking, and that only scanned files are published. *)

From S2P Require Import Prelude Sha256 Effects FileDomain FileEffects FileRepository FileService FileSystem.
Local Open Scope Z_scope.

(** ** The effect of a call *)

(** What no statement changes, and what a scan fills in. *)
Definition immut (v : Record_) := (rec_ID v, rec_Owner v, IdempotencyKey v, rec_Manifest v, ObjectKey v, CreatedAt v, ExpiresAt v).
Definition clean (v : Record_) := (CleanFormat v, CleanSize v, CleanSHA256 v).

Definition fresh (d : db) (c : call) (x : row) : Prop :=
  exists v hash now, c = SqlInsert v hash /\ x = mkRow (inserted v) hash now None None /\
    key_exists (uploads d) (rec_Owner v) (IdempotencyKey v) = false /\ active_uploads (uploads d) (rec_Owner v) < 10 /\
    uploads d !! rec_ID v = None /\ forall id r, uploads d !! id = Some r -> ObjectKey (row_record r) <> ObjectKey v.

(** The caller knew the version of the row. *)
Definition current (v : Record_) (old : row) : Prop := rec_ID v = rec_ID (row_record old) /\ Version v = row_version old.

Definition updated (c : call) (old x : row) : Prop :=
  immut (row_record x) = immut (row_record old) /\ manifest_hash x = manifest_hash old /\ row_version x = row_version old + 1 /\
  (row_state x = row_state old /\ clean (row_record x) = clean (row_record old) \/
   (exists v, c = SqlTransition v (row_state x) /\ current v old /\ rec_State v = row_state old /\
      clean (row_record x) = clean (row_record old)) \/
   (exists v, c = SqlMarkClean v (CleanFormat (row_record x)) (CleanSize (row_record x)) (CleanSHA256 (row_record x)) /\
      current v old /\ row_state old = Scanning /\ row_state x = Replicating)).

(** A call reads rows as they are, or stores one that it may return. *)
Inductive effect (d : db) (c : call) : db -> option row -> Prop :=
| reads y : (forall x, y = Some x -> uploads d !! rec_ID (row_record x) = Some x) -> effect d c d y
| writes x y : check_row x = true -> (fresh d c x \/ exists old, uploads d !! rec_ID (row_record x) = Some old /\ updated c old x) ->
    (y = Some x \/ y = None) -> effect d c (stored d x) y.

Definition keyed (d : db) : Prop := forall id x, uploads d !! id = Some x -> rec_ID (row_record x) = id.

Definition row_of (q : query_reply) : option row := match q with Scanned x => Some x | _ => None end.

Section effects.
Context (d : db) (Hkeyed : keyed d).

Lemma effect_faulty c f r : effect d c r.1 (row_of r.2) -> effect d c (faulty QueryFailed f d r).1 (row_of (faulty QueryFailed f d r).2).
Proof.
  destruct f; [done|by constructor|]. cbn [faulty fst snd]. change (row_of QueryFailed) with (@None row).
  generalize (row_of r.2), r.1. intros y d' []; [by constructor|]. apply writes; [done|done|by right].
Qed.

Lemma effect_put c x : (fresh d c x \/ exists old, uploads d !! rec_ID (row_record x) = Some old /\ updated c old x) ->
  effect d c (put_row d x).1 (row_of (put_row d x).2).
Proof. intros Hx. unfold put_row. destruct (check_row x) eqn:Hc; [apply writes; [done|done|by left]|by constructor]. Qed.

Lemma effect_update c v cond f :
  (forall old, cond old = true -> current v old -> immut (row_record (f old)) = immut (row_record old) /\ updated c old (f old)) ->
  effect d c (update_row d v cond f).1 (row_of (update_row d v cond f).2).
Proof.
  intros Hf. unfold update_row, owned_row. destruct (uploads d !! rec_ID v) as [old|] eqn:Hl; [|by constructor].
  destruct (same_owner _ _); [|by constructor]. destruct (Z.eqb_spec (row_version old) (Version v)); [|by constructor].
  destruct (cond old) eqn:Hc; [|by constructor]. cbn [andb]. pose proof (Hkeyed _ _ Hl) as Hk.
  destruct (Hf old Hc (conj (eq_sym Hk) (eq_sym e))) as [Him Hup]. apply effect_put. right. exists old. split; [|done].
  injection Him as Hid. by rewrite Hid, Hk.
Qed.

Lemma effect_insert now v hash : effect d (SqlInsert v hash) (sql_insert now d v hash).1 (row_of (sql_insert now d v hash).2).
Proof.
  unfold sql_insert. destruct (key_exists _ _ _) eqn:Hk; [by constructor|]. destruct (quota_reached _ _ _) eqn:Hq; [by constructor|].
  destruct (_ || _) eqn:He; [by constructor|]. apply effect_put. left. apply orb_false_iff in He as [Hid Hobj].
  apply orb_false_iff in Hq as [Hact _]. rewrite Z.leb_gt in Hact. apply bool_decide_eq_false in Hid. rewrite <- eq_None_not_Some in Hid.
  exists v, hash, now. split_and!; [done..|]. intros id r Hr Ho. apply not_true_iff_false in Hobj. destruct Hobj. apply existsb_exists.
  exists r. split; [|by apply bool_decide_eq_true_2]. apply list_elem_of_In, (list_elem_of_fmap_2 snd _ (id, r)). by apply elem_of_map_to_list.
Qed.

Lemma elem_of_rows x : x ∈ (map_to_list (uploads d)).*2 -> uploads d !! rec_ID (row_record x) = Some x.
Proof. intros ([id y] & -> & Hy%elem_of_map_to_list)%list_elem_of_fmap. cbn. by rewrite (Hkeyed _ _ Hy). Qed.

Lemma claim_best_in l : forall b r, fold_left claim_best l b = Some r -> r ∈ l \/ b = Some r.
Proof.
  induction l as [|x l IH]; intros b r; cbn [fold_left]; [by right|]. intros [Hr|Hr]%IH; [left; by right|].
  unfold claim_best in Hr. destruct b as [b|]; [destruct (claim_before x b)|]; simplify_eq; [left; by left|by right|left; by left].
Qed.

Lemma effect_claim now locked : effect d SqlClaim (sql_claim now d locked).1 (row_of (sql_claim now d locked).2).
Proof.
  unfold sql_claim. destruct (fold_left _ _ _) as [r|] eqn:Hf; [|by constructor]. apply claim_best_in in Hf as [Hr|?]; [|done].
  apply list_elem_of_In, filter_In in Hr as [Hr _]. apply list_elem_of_In, elem_of_rows in Hr.
  apply effect_put. right. exists r. split; [done|]. split_and!; [done..|]. by left.
Qed.

Lemma select_key_row owner key x : sql_select_key d owner key = Scanned x ->
  uploads d !! rec_ID (row_record x) = Some x /\ rec_Owner (row_record x) = owner /\ IdempotencyKey (row_record x) = key.
Proof.
  unfold sql_select_key. destruct (List.find _ _) as [r|] eqn:Hf; intros [= <-].
  apply find_some in Hf as [Hin [Ho Hk]%andb_true_iff]. apply bool_decide_eq_true in Ho, Hk. split; [|done].
  by apply elem_of_rows, list_elem_of_In.
Qed.

Lemma select_row owner id x : sql_select d owner id = Scanned x ->
  uploads d !! rec_ID (row_record x) = Some x /\ rec_Owner (row_record x) = owner /\ rec_ID (row_record x) = id.
Proof.
  unfold sql_select, owned_row. destruct (uploads d !! id) as [r|] eqn:Hl; [|done]. destruct (same_owner owner r) eqn:Ho; [|done].
  intros [= <-]. apply bool_decide_eq_true in Ho. pose proof (Hkeyed _ _ Hl) as ->. done.
Qed.

Lemma answer_call_effect w c : effect d c (answer_call w d c).1 (scanned_row (existT c (answer_call w d c).2)).
Proof.
  destruct c; cbn [answer_call]; try (by constructor).
  - apply effect_faulty, effect_insert.
  - apply effect_faulty. constructor. cbn [fst snd]. intros x Hx. destruct (sql_select_key _ _ _) eqn:Hs; simplify_eq/=.
    by apply select_key_row in Hs as [? _].
  - apply effect_faulty. constructor. cbn [fst snd]. intros x Hx. destruct (sql_select _ _ _) eqn:Hs; simplify_eq/=.
    by apply select_row in Hs as [? _].
  - apply effect_faulty, effect_update. intros old Hc Hcur. split; [done|]. split_and!; [done..|]. left.
    apply andb_true_iff in Hc as [[Hc%bool_decide_eq_true _]%andb_true_iff _]. done.
  - apply effect_faulty, effect_update. intros old Hc%bool_decide_eq_true Hcur. split; [done|]. split_and!; [done..|]. right. left.
    exists v. done.
  - apply effect_faulty, effect_claim.
  - apply effect_faulty, effect_update. intros old Hc%bool_decide_eq_true Hcur. split; [done|]. split_and!; [done..|]. right. right.
    exists v. done.
  - assert (effect d (SqlDefer v) (faulty QueryFailed (w_fault w) d (sql_defer (w_now w) d v)).1
      (row_of (faulty QueryFailed (w_fault w) d (sql_defer (w_now w) d v)).2)) as He.
    { apply effect_faulty, effect_update. intros old _ Hcur. split; [done|]. split_and!; [done..|]. by left. }
    revert He. destruct (faulty _ _ _ _) as [d' q]. cbn [fst snd scanned_row]. generalize (row_of q). intros y [].
    + by constructor.
    + apply writes; [done|done|by right].
Qed.

(** The rows that the statements return. *)
Lemma update_row_scanned v cond f x : (update_row d v cond f).2 = Scanned x ->
  exists old, x = f old /\ cond old = true /\ rec_Owner (row_record old) = rec_Owner v /\ rec_ID (row_record old) = rec_ID v.
Proof.
  unfold update_row, owned_row, put_row. destruct (uploads d !! rec_ID v) as [old|] eqn:Hl; [|done].
  destruct (same_owner _ _) eqn:Ho; [|done]. destruct (_ =? _); [|done]. destruct (cond old) eqn:Hc; [|done]. cbn [andb].
  destruct (check_row (f old)); [|done]. intros [= <-]. exists old. apply bool_decide_eq_true in Ho. split_and!; try done.
  by apply Hkeyed.
Qed.

Lemma scanned_faulty P f (r : db * query_reply) : scanned P r.2 -> scanned P (faulty QueryFailed f d r).2.
Proof. by destruct f. Qed.

Lemma answer_call_legal w c : legal c (answer_call w d c).2.
Proof.
  destruct c; cbn [answer_call legal]; try done; apply scanned_faulty.
  - unfold sql_insert, put_row. repeat case_match; done.
  - cbn [snd]. destruct (sql_select_key _ _ _) eqn:Hs; [|done..]. by apply select_key_row in Hs as [_ ?].
  - cbn [snd]. destruct (sql_select _ _ _) eqn:Hs; [|done..]. by apply select_row in Hs as [_ ?].
  - destruct (sql_attach _ _ _ _).2 as [x| | |] eqn:Hs; [|done..]. apply update_row_scanned in Hs as (old & -> & Hc & Ho & Hi).
    apply andb_true_iff in Hc as [[Hc%bool_decide_eq_true _]%andb_true_iff _]. done.
  - destruct (sql_transition _ _ _ _).2 as [x| | |] eqn:Hs; [|done..]. apply update_row_scanned in Hs as (old & -> & Hc & Ho & Hi). done.
  - destruct (sql_mark_clean _ _ _ _ _ _).2 as [x| | |] eqn:Hs; [|done..]. apply update_row_scanned in Hs as (old & -> & Hc & Ho & Hi). done.
Qed.
End effects.

(** ** A consistent database *)

Definition row_ok (x : row) : Prop :=
  check_row x = true /\ Owner_Valid (rec_Owner (row_record x)) = true /\ Validate (rec_Manifest (row_record x)) = Ok tt /\
  manifest_hash x = Fingerprint (rec_Manifest (row_record x)).

(** The audit entries of one file. *)
Definition audit_of (d : db) (id : ID) : list audit_entry := List.filter (fun e => bool_decide (e.1.1 = id)) (audit d).

(** A legal history: it starts with an upload, every change of state is one that
    [CanTransition] allows, at a later version. *)
Inductive history (id : ID) : list audit_entry -> State -> Z -> Prop :=
| born : history id [(id, Uploading, 1)] Uploading 1
| moved es s v to v' : history id es s v -> CanTransition s to = true -> v < v' -> history id (es ++ [(id, to, v')]) to v'.

Record db_ok (d : db) : Prop := mkDbOk {
  db_keyed : keyed d;
  db_rows id x : uploads d !! id = Some x -> row_ok x;
  (** one upload per owner and idempotency key *)
  db_keys id id' x x' : uploads d !! id = Some x -> uploads d !! id' = Some x' ->
    rec_Owner (row_record x) = rec_Owner (row_record x') -> IdempotencyKey (row_record x) = IdempotencyKey (row_record x') -> id = id';
  db_objects id id' x x' : uploads d !! id = Some x -> uploads d !! id' = Some x' ->
    ObjectKey (row_record x) = ObjectKey (row_record x') -> id = id';
  db_quota owner : active_uploads (uploads d) owner <= 10;
  db_audit id : match uploads d !! id with
    | None => audit_of d id = []
    | Some x => exists v, v <= row_version x /\ history id (audit_of d id) (row_state x) v
    end
}.

Lemma db_ok_start : db_ok (mkDb ∅ []).
Proof. split; try (intros *; cbn [uploads]; by rewrite lookup_empty). all: done. Qed.

(** What a change of state does to the quotas. *)
Lemma CanTransition_active from to : CanTransition from to = true -> active to = true -> active from = true.
Proof. by destruct from, to. Qed.

Section updates.
Context (d : db) (Hd : db_ok d) (t : trace) (c : call) (Hc : call_ok t c).

Lemma updated_state old x : updated c old x ->
  row_state x = row_state old \/ CanTransition (row_state old) (row_state x) = true.
Proof.
  intros (_ & _ & _ & [[Hs _]|[(v & Hv & _ & Hs & _)|(v & _ & _ & Hs & Hs')]]); [by left| |right; by rewrite Hs, Hs'].
  right. subst c. destruct Hc as [Hct _]. by rewrite Hs in Hct.
Qed.

Lemma updated_row_ok old x : check_row x = true -> row_ok old -> updated c old x -> row_ok x.
Proof.
  intros Hx (_ & Ho & Hv & Hh) ([= Hi Hown Hk Hm Hob Hcr Hex] & Hash & _). unfold row_ok. by rewrite Hown, Hm, Hash.
Qed.

Lemma fresh_row_ok x : check_row x = true -> fresh d c x -> row_ok x.
Proof. intros Hx (v & hash & now & -> & -> & _). destruct Hc as (Ho & Hv & Hh). done. Qed.

Lemma uploads_stored x : uploads (stored d x) = <[rec_ID (row_record x) := x]> (uploads d).
Proof. done. Qed.

Lemma stored_Some x id y : uploads (stored d x) !! id = Some y -> rec_ID (row_record x) = id /\ x = y \/ uploads d !! id = Some y.
Proof. rewrite uploads_stored. intros [[<- <-]|[_ Hl]]%lookup_insert_Some; auto. Qed.

Lemma audit_of_stored x id :
  audit_of (stored d x) id =
  audit_of d id ++
  (if bool_decide (rec_ID (row_record x) = id) &&
      match uploads d !! rec_ID (row_record x) with Some old => negb (bool_decide (row_state old = row_state x)) | None => true end
   then [(id, row_state x, row_version x)] else []).
Proof.
  unfold audit_of, stored. cbv zeta. cbn [audit].
  destruct (match uploads d !! rec_ID (row_record x) with Some old => _ | None => true end) eqn:Hch.
  - rewrite List.filter_app. cbn [List.filter fst]. case_bool_decide; [by subst|done].
  - by rewrite andb_false_r, app_nil_r.
Qed.

Lemma stored_fresh x : check_row x = true -> fresh d c x -> db_ok (stored d x).
Proof.
  intros Hx Hf. pose proof (fresh_row_ok _ Hx Hf) as Hok. destruct Hf as (v & hash & now & _ & -> & Hkey & Hact & Hid & Hobj).
  change (rec_ID v) with (rec_ID (inserted v)) in Hid. set (y0 := mkRow (inserted v) hash now None None) in *. split.
  - intros id x [[<- <-]|Hl]%stored_Some; [done|]. by apply (db_keyed _ Hd).
  - intros id x [[<- <-]|Hl]%stored_Some; [done|]. by apply (db_rows _ Hd _ _ Hl).
  - assert (forall id x, uploads d !! id = Some x -> rec_Owner (row_record x) = rec_Owner v -> IdempotencyKey (row_record x) <> IdempotencyKey v) as Hn.
    { intros id x Hl Ho Hk. apply not_true_iff_false in Hkey. destruct Hkey. apply existsb_exists. exists x. split.
      - apply list_elem_of_In, (list_elem_of_fmap_2 snd _ (id, x)). by apply elem_of_map_to_list.
      - unfold same_owner. by rewrite !bool_decide_eq_true_2. }
    intros id id' x x' [[<- <-]|Hl]%stored_Some [[<- <-]|Hl']%stored_Some Ho Hk; cbn in Ho, Hk.
    + done.
    + by destruct (Hn _ _ Hl' (eq_sym Ho)).
    + by destruct (Hn _ _ Hl Ho).
    + by apply (db_keys _ Hd _ _ _ _ Hl Hl').
  - intros id id' x x' [[<- <-]|Hl]%stored_Some [[<- <-]|Hl']%stored_Some Ho; cbn in Ho.
    + done.
    + by destruct (Hobj _ _ Hl').
    + by destruct (Hobj _ _ Hl).
    + by apply (db_objects _ Hd _ _ _ _ Hl Hl').
  - intros owner. unfold active_uploads in *. rewrite uploads_stored, count_if_insert by done. pose proof (db_quota _ Hd owner) as Hq. unfold active_uploads in Hq.
    destruct (decide _) as [[Ho _]%andb_true_iff|]; [|lia]. cbn in Ho. apply bool_decide_eq_true in Ho. subst owner. change (rec_Owner (row_record y0)) with (rec_Owner v) in *. lia.
  - intros id. pose proof (db_audit _ Hd id) as Ha. change (rec_ID (inserted v)) with (rec_ID (row_record y0)) in Hid.
    rewrite audit_of_stored, uploads_stored, Hid, andb_true_r. destruct (decide (rec_ID (row_record y0) = id)) as [<-|Hne].
    + rewrite lookup_insert_eq. rewrite Hid in Ha. rewrite Ha, bool_decide_eq_true_2 by done. exists 1. split; [done|]. constructor.
    + rewrite lookup_insert_ne, bool_decide_eq_false_2, app_nil_r by done. done.
Qed.

Lemma stored_update old x : check_row x = true -> uploads d !! rec_ID (row_record x) = Some old -> updated c old x -> db_ok (stored d x).
Proof.
  intros Hx Hl Hup. pose proof (updated_row_ok _ _ Hx (db_rows _ Hd _ _ Hl) Hup) as Hok. pose proof (updated_state _ _ Hup) as Hst.
  destruct Hup as ([= Hi Hown Hk Hm Hob Hcr Hex] & _ & Hver & _).
  assert (forall id y, uploads (stored d x) !! id = Some y -> exists z, uploads d !! id = Some z /\
    rec_Owner (row_record y) = rec_Owner (row_record z) /\ IdempotencyKey (row_record y) = IdempotencyKey (row_record z) /\
    ObjectKey (row_record y) = ObjectKey (row_record z)) as Hback.
  { intros id y [[<- <-]|Hl']%stored_Some; [by exists old|by exists y]. }
  split.
  - intros id y [[<- <-]|Hl']%stored_Some; [done|]. by apply (db_keyed _ Hd).
  - intros id y [[<- <-]|Hl']%stored_Some; [done|]. by apply (db_rows _ Hd _ _ Hl').
  - intros id id' y y' (z & Hz & Ho & Hkey & _)%Hback (z' & Hz' & Ho' & Hkey' & _)%Hback. rewrite Ho, Ho', Hkey, Hkey'.
    by apply (db_keys _ Hd _ _ _ _ Hz Hz').
  - intros id id' y y' (z & Hz & _ & _ & Ho)%Hback (z' & Hz' & _ & _ & Ho')%Hback. rewrite Ho, Ho'. by apply (db_objects _ Hd _ _ _ _ Hz Hz').
  - intros owner. unfold active_uploads. rewrite uploads_stored, (count_if_update _ _ _ old) by done.
    pose proof (db_quota _ Hd owner) as Hq. unfold active_uploads in Hq.
    assert (same_owner owner x && active (row_state x) = true -> same_owner owner old && active (row_state old) = true) as Hmono.
    { intros [Ho Ha]%andb_true_iff. unfold same_owner in *. rewrite Hown in Ho. rewrite Ho. cbn [andb].
      destruct Hst as [<-|Hct]; [done|]. by eapply CanTransition_active. }
    cbn [snd]. do 2 destruct (decide _); try lia. tauto.
  - intros id. pose proof (db_audit _ Hd id) as Ha. rewrite audit_of_stored, uploads_stored, Hl.
    destruct (decide (rec_ID (row_record x) = id)) as [<-|Hne].
    + rewrite Hl in Ha. destruct Ha as (v & Hv & Hh). rewrite lookup_insert_eq, (bool_decide_eq_true_2 (_ = rec_ID _)) by done. cbn [andb].
      case_bool_decide as Hs; cbn [negb].
      * exists v. rewrite app_nil_r, <- Hs. split; [lia|done].
      * exists (row_version x). split; [done|]. destruct Hst as [Hst|Hct]; [by destruct Hs|]. eapply moved; [done|done|lia].
    + rewrite lookup_insert_ne, (bool_decide_eq_false_2 (_ = id)) by done. by rewrite app_nil_r.
Qed.

Lemma effect_db_ok d' y : effect d c d' y -> db_ok d'.
Proof. intros [|x y' Hx [Hf|(old & Hl & Hup)] _]; [done|by apply stored_fresh|by eapply stored_update]. Qed.
End updates.

(** ** Rows that were seen *)

(** A row that some call returned is the current one or an older version. *)
Definition seen_ok (d : db) (x : row) : Prop :=
  exists cur, uploads d !! rec_ID (row_record x) = Some cur /\ immut (row_record x) = immut (row_record cur) /\
    row_version x <= row_version cur /\ (row_version x = row_version cur -> row_record x = row_record cur).

Lemma seen_now d x : uploads d !! rec_ID (row_record x) = Some x -> seen_ok d x.
Proof. intros Hl. by exists x. Qed.

Lemma seen_stored d c x x' :
  (fresh d c x' \/ exists old, uploads d !! rec_ID (row_record x') = Some old /\ updated c old x') -> seen_ok d x -> seen_ok (stored d x') x.
Proof.
  intros Hx' (cur & Hl & Him & Hv & He).
  destruct (decide (rec_ID (row_record x') = rec_ID (row_record x))) as [Hid|Hne].
  - destruct Hx' as [(v & hash & now & _ & -> & _ & _ & Hnone & _)|(old & Hold & Him' & _ & Hver & _)].
    { cbn in Hid. rewrite Hid in Hnone. congruence. }
    rewrite Hid in Hold. assert (old = cur) as -> by congruence. exists x'. rewrite uploads_stored, <- Hid, lookup_insert_eq.
    split_and!; [done|congruence|lia|lia].
  - exists cur. rewrite uploads_stored, lookup_insert_ne by done. done.
Qed.

(** ** Evidence *)

(** Some thread scanned the source and the derivative of the file and stored the
    derivative under the digest of the row. *)
Definition scan_evidence (ts : list trace) (v : Record_) : Prop :=
  exists t u, t ∈ ts /\ immut u = immut v /\
    did t (ScannerScan u false (mf_Size (rec_Manifest u))) (Ok tt) /\ did t (ScannerScan u true (CleanSize v)) (Ok tt) /\
    did t (StoragePutClean u (CleanFormat v) (CleanSize v)) (Ok (CleanSHA256 v)).

(** Some thread replicated the derivative of the row. *)
Definition replica_evidence (ts : list trace) (v : Record_) : Prop :=
  exists t u, t ∈ ts /\ immut u = immut v /\ CleanFormat u = CleanFormat v /\ CleanSize u = CleanSize v /\
    CleanSHA256 u = copy_digest (CleanSHA256 v) /\ did t (StorageReplicate u) (Ok tt).

Definition evident (ts : list trace) (v : Record_) : Prop :=
  (rec_State v = Replicating \/ rec_State v = Ready -> scan_evidence ts v) /\ (rec_State v = Ready -> replica_evidence ts v).

Lemma evident_grown ts ts' v : grown ts ts' -> evident ts v -> evident ts' v.
Proof.
  intros Hg [Hs Hr]. split.
  - intros Hst. destruct (Hs Hst) as (t & u & Ht & Him & H1 & H2 & H3). destruct (Hg t Ht) as (t' & Ht' & Hsub).
    exists t', u. split_and!; [done|done|by apply Hsub..].
  - intros Hst. destruct (Hr Hst) as (t & u & Ht & Him & H1 & H2 & H3 & H4). destruct (Hg t Ht) as (t' & Ht' & Hsub).
    exists t', u. split_and!; [done..|by apply Hsub].
Qed.

Lemma evident_same ts u v : immut u = immut v -> clean u = clean v -> rec_State u = rec_State v -> evident ts u -> evident ts v.
Proof.
  intros Him [= Hf Hs Hd] Hst [Hscan Hrep]. unfold evident, scan_evidence, replica_evidence. by rewrite <- Hst, <- Him, <- Hf, <- Hs, <- Hd.
Qed.

(** The evidence of a stored row. *)
Lemma evident_updated d ts t c old x :
  t ∈ ts -> call_ok t c -> (forall e y, e ∈ t -> scanned_row e = Some y -> seen_ok d y) ->
  uploads d !! rec_ID (row_record x) = Some old -> updated c old x -> evident ts (row_record old) -> evident ts (row_record x).
Proof.
  intros Ht Hc Hseen Hl (Him & _ & _ & Hcase) Hev.
  assert (forall v, read t v -> current v old -> immut v = immut (row_record x) /\ clean v = (CleanFormat (row_record old), CleanSize (row_record old), copy_digest (CleanSHA256 (row_record old)))) as Hread.
  { intros v (e & y & He & Hy & ->) [Hid Hver]. destruct (Hseen e y He Hy) as (cur & Hcur & Himy & _ & Heq).
    assert (cur = old) as ->.
    { change (rec_ID (decoded y)) with (rec_ID (row_record y)) in Hid. injection Him as Hidx. rewrite Hid, <- Hidx in Hcur. congruence. }
    change (immut (decoded y)) with (immut (row_record y)). split; [congruence|]. change (Version (decoded y)) with (row_version y) in Hver.
    unfold decoded, clean. cbn. by rewrite (Heq Hver). }
  destruct Hcase as [[Hs Hcl]|[(v & -> & Hcur & Hs & Hcl)|(v & -> & Hcur & Hs & Hs')]].
  - eapply evident_same; [done|done| |done]. done.
  - destruct Hc as (Hct & Hnr & Hready). destruct (decide (row_state x = Ready)) as [Hr|Hr].
    + destruct (Hready Hr) as [Hrd Hrep]. destruct (Hread v Hrd Hcur) as [Himv [= Hf Hsz Hdg]].
      rewrite Hs in Hct. rewrite Hr in Hct. assert (row_state old = Replicating) as Hold by (by destruct (row_state old)).
      destruct Hev as [Hsc _]. destruct (Hsc (or_introl Hold)) as (t0 & u & Ht0 & Himu & H1 & H2 & H3). injection Hcl as Hcf Hcs Hcd.
      split; intros _.
      * exists t0, u. rewrite Him, Hcf, Hcs, Hcd. done.
      * exists t, v. rewrite Hcf, Hcs, Hcd. done.
    + split; intros Hst; [|by destruct Hr]. destruct Hst; [by destruct Hnr|by destruct Hr].
  - destruct Hc as (Hrd & _ & _ & _ & _ & H1 & H2 & H3). destruct (Hread v Hrd Hcur) as [Himv _].
    split; intros Hst; [|change (row_state x = Ready) in Hst; congruence]. by exists t, v.
Qed.

(** ** The invariant *)

Lemma call_ok_mono t t' c : t ⊆ t' -> call_ok t c -> call_ok t' c.
Proof.
  intros Ht. pose proof (read_mono t t') as Hr. destruct c; cbn [call_ok]; try done.
  - intros (H1 & H2 & H3). split_and!; [done..|]. intros Hto. destruct (H3 Hto). split; [by apply Hr|by apply Ht].
  - intros (H1 & H2 & H3 & H4 & H5 & H6 & H7 & H8). split; [by apply Hr|]. do 4 (split; [done|]). split_and!; by apply Ht.
  - intros [H1 H2]. split; [by apply Hr|done].
Qed.

Record files_ok (d : db) (ts : list trace) : Prop := mkFilesOk {
  fo_db : db_ok d;
  fo_rows id x : uploads d !! id = Some x -> evident ts (row_record x);
  fo_calls t c r : t ∈ ts -> did t c r -> call_ok t c;
  fo_seen t e x : t ∈ ts -> e ∈ t -> scanned_row e = Some x -> seen_ok d x /\ evident ts (row_record x)
}.

Lemma files_ok_start : files_ok (mkDb ∅ []) [].
Proof.
  split; try (intros *; intros ?%elem_of_nil; done).
  - apply db_ok_start.
  - intros id x. cbn. by rewrite lookup_empty.
Qed.

Lemma files_ok_grown d ts : files_ok d ts -> files_ok d (ts ++ [[]]).
Proof.
  intros [Hdb Hrows Hcalls Hseen]. split; [done| | |].
  - intros id x Hx. eapply evident_grown; [apply grown_start|]. by eapply Hrows.
  - intros t c r [Ht|Ht%list_elem_of_singleton]%elem_of_app Hd; [by eapply Hcalls|]. subst t. by apply elem_of_nil in Hd.
  - intros t e x [Ht|Ht%list_elem_of_singleton]%elem_of_app He Hx; [|subst t; by apply elem_of_nil in He].
    destruct (Hseen t e x Ht He Hx). split; [done|]. eapply evident_grown; [apply grown_start|done].
Qed.

(** The state and the reply of one guarded call. *)
Lemma effect_evident d ts t c d' y : files_ok d ts -> t ∈ ts -> call_ok t c -> effect d c d' y ->
  (forall id x, uploads d' !! id = Some x -> evident ts (row_record x)) /\ (forall x, seen_ok d x -> seen_ok d' x) /\
  (forall x, y = Some x -> seen_ok d' x /\ evident ts (row_record x)).
Proof.
  intros [Hdb Hrows _ Hseen] Ht Hc [y' Hy|x y' Hx Hcase Hy].
  - split_and!; [apply Hrows|done|]. intros x ->. specialize (Hy x eq_refl). split; [by apply seen_now|by eapply Hrows].
  - assert (evident ts (row_record x)) as Hev.
    { destruct Hcase as [(v & hash & now & _ & -> & _)|(old & Hold & Hup)]; [split; cbn; [by intros []|done]|].
      eapply evident_updated; [done|done| |done|done|by eapply Hrows]. intros e y'' He Hy''. by destruct (Hseen t e y'' Ht He Hy''). }
    split_and!.
    + intros id x' [[_ <-]|Hl]%stored_Some; [done|by eapply Hrows].
    + intros x'. by eapply seen_stored.
    + intros x' Hx'. assert (x' = x) as -> by (destruct Hy; congruence). split; [|done]. apply seen_now. by rewrite uploads_stored, lookup_insert_eq.
Qed.

Lemma files_ok_call w d ts i t c : files_ok d ts -> ts !! i = Some t -> call_ok t c ->
  files_ok (answer_call w d c).1 (<[i := t ++ [existT c (answer_call w d c).2]]> ts).
Proof.
  intros Hok Hi Hc. pose proof (list_elem_of_lookup_2 _ _ _ Hi) as Ht.
  pose proof (answer_call_effect _ (db_keyed _ (fo_db _ _ Hok)) w c) as He. revert He.
  generalize (answer_call w d c).1 (answer_call w d c).2. intros d' r He.
  destruct (effect_evident _ _ _ _ _ _ Hok Ht Hc He) as (Hrows & Hkeep & Hnew). destruct Hok as [Hdb _ Hcalls Hseen].
  pose proof (grown_call ts i t (existT c r) Hi) as Hg. split.
  - eapply effect_db_ok; [exact Hdb|exact Hc|exact He].
  - intros id x Hx. eapply evident_grown; [exact Hg|]. by eapply Hrows.
  - intros t' c' r' [Ht'|Ht']%call_trace Hd; [by eapply Hcalls|subst t']. apply (call_ok_mono t); [intros e' ?; apply elem_of_app; by left|].
    apply elem_of_app in Hd as [Hd|Hd%list_elem_of_singleton]; [by eapply Hcalls|]. injection Hd as -> _. done.
  - intros t' e x Ht' Hin Hx. destruct (call_event ts i t (existT c r) Hi t' e Ht' Hin) as [(t0 & Ht0 & He0)|He0]; [|subst e].
    + destruct (Hseen t0 e x Ht0 He0 Hx). split; [by apply Hkeep|eapply evident_grown; [exact Hg|done]].
    + destruct (Hnew x Hx). split; [done|eapply evident_grown; [exact Hg|done]].
Qed.

Lemma files_run_ok es s : files_run files_start es = Some s ->
  files_ok (sys_db s) (traces s) /\ forall th, th ∈ sys_threads s -> ver (th_prog th) (th_trace th) (answer_ok (th_request th)).
Proof.
  apply (run_invariant answer_call program_of call_ok legal answer_ok files_ok); [apply ver_program_of| | | |apply files_ok_start].
  - intros w d ts t c Hok _ _. apply answer_call_legal, (db_keyed _ (fo_db _ _ Hok)).
  - apply files_ok_grown.
  - apply files_ok_call.
Qed.
