(* ===== verification/FileRuns.v ===== *)
(** * Files: runs of the service

    The properties of every run of the files service, and a run from an upload to
    its download. *)

From S2P Require Import Prelude Sha256 Effects FileDomain FileEffects FileRepository FileService FileSystem FileHistory.
Local Open Scope Z_scope.

(** ** Every run *)


(** C37. Only scanned files are published: for every READY file, and for every file
    whose download was ever signed, some worker had its source and its derivative
    scanned without a finding and stored that derivative under the digest in the
    row, and the derivative was replicated before. *)
Theorem only_scanned_files_are_published (es : list files_event) (s : files_system) :
  files_run files_start es = Some s ->
  (forall id x, uploads (sys_db s) !! id = Some x -> row_state x = Ready ->
     scan_evidence (traces s) (row_record x) /\ replica_evidence (traces s) (row_record x)) /\
  (forall t v until r, t ∈ traces s -> did t (StorageSignDownload v until) r ->
     exists x, v = decoded x /\ scan_evidence (traces s) (row_record x) /\ replica_evidence (traces s) (row_record x)).
Proof.
  intros Hrun. destruct (files_run_ok _ _ Hrun) as [Hok _]. split.
  - intros id x Hx Hr. destruct (fo_rows _ _ Hok id x Hx) as [Hs Hrep]. split; [apply Hs; by right|by apply Hrep].
  - intros t v until r Ht Hd. destruct (fo_calls _ _ Hok _ _ _ Ht Hd) as [(e & x & He & Hx & ->) Hr].
    destruct (fo_seen _ _ Hok _ _ _ Ht He Hx) as [_ [Hs Hrep]]. exists x. split_and!; [done|apply Hs; by right|by apply Hrep].
Qed.

(** What the service answers: a request sees only files of its owner; an upload
    in progress lists every part exactly once, as received or with a capability
    that does not outlive the upload; a download is of a READY file; a deletion
    is acknowledged only after the file was DELETED. *)
Theorem requests_keep_their_promises (es : list files_event) (s : files_system) (th : thread reply request answer) (a : answer) :
  files_run files_start es = Some s -> th ∈ sys_threads s -> th_prog th = Ret a -> answer_ok (th_request th) (th_trace th) a.
Proof.
  intros Hrun Hth Hp. pose proof (proj2 (files_run_ok _ _ Hrun) th Hth) as Hv. by rewrite Hp in Hv.
Qed.

(** Optimistic locking: a row that any call ever returned is of a version that
    the row had, the immutable columns never change, and a caller that holds the
    current version holds the current record. *)
Theorem versions_identify_records (es : list files_event) (s : files_system) (t : trace) (v : Record_) :
  files_run files_start es = Some s -> t ∈ traces s -> read t v ->
  exists cur, uploads (sys_db s) !! rec_ID v = Some cur /\ immut v = immut (row_record cur) /\ Version v <= row_version cur /\
    (Version v = row_version cur -> v = decoded cur).
Proof.
  intros Hrun Ht (e & x & He & Hx & ->). destruct (fo_seen _ _ (proj1 (files_run_ok _ _ Hrun)) _ _ _ Ht He Hx) as [(cur & Hl & Him & Hv & Heq) _].
  exists cur. split_and!; [done|done|done|]. intros Hver. unfold decoded. by rewrite (Heq Hver).
Qed.

(** ** A run *)

Definition sample_bytes (n : nat) (x : Z) : bytes := replicate n x.
Definition sample_owner : Owner := mkOwner (sample_bytes 16 1) (sample_bytes 16 2).
Definition sample_id : ID := sample_bytes 16 7.
Definition sample_manifest : Manifest := mkManifest PNG 10 (sample_bytes 32 3) [mkPart 10 (sample_bytes 32 3)].
Definition sample_capability : Capability := mkCapability "https://storage" "PUT" 0 1.

(** The clocks stand still, the storage and the scanner answer. *)
Definition sample_world (random : Z) : world := mkWorld 1000000 Healthy [] (fun c =>
  match c return reply c with
  | SqlInsert _ _ | SqlSelectKey _ _ | SqlSelect _ _ | SqlAttach _ _ | SqlTransition _ _ | SqlClaim | SqlMarkClean _ _ _ _ => NoRows
  | SqlDefer _ => None
  | TimeNow => 1000000
  | RandRead => Some (sample_bytes 16 random)
  | TempFile | SeekStart => true
  | StorageBegin r => Ok (ID_String (rec_ID r))
  | StorageParts _ => Ok []
  | StorageSignPart _ _ _ | StorageSignDownload _ _ => Ok sample_capability
  | StorageCompleted _ => Ok true
  | StoragePutClean _ _ _ => Ok (sample_bytes 32 9)
  | StorageComplete _ _ | StorageReadUpload _ | StorageReplicate _ | StoragePurge _ | StorageCleanupReady _
  | ScannerScan _ _ _ => Ok tt
  | ReconstructorClean _ => ([mkWrite 12 12], Ok PNG)
  end).

Definition sample_calls (i n : nat) : list files_event := replicate n (Call i (sample_world 8)).

(** An upload, its completion, two jobs of a worker and a download. *)
Definition sample_run : list files_event :=
  Start (ReqCreate sample_owner (sample_bytes 16 4) sample_manifest) :: Call 0 (sample_world 7) :: sample_calls 0 10 ++
  Start (ReqComplete sample_owner sample_id) :: sample_calls 1 4 ++
  Start ReqWork :: sample_calls 2 14 ++ Start ReqWork :: sample_calls 3 4 ++
  Start (ReqDownload sample_owner sample_id) :: sample_calls 4 3.

(** The file is READY at the end and the download is answered. *)
Definition sample_check (s : files_system) : bool :=
  match uploads (sys_db s) !! sample_id, sys_threads s !! 4%nat with
  | Some x, Some (mkThread _ (Ret (AnsCapability (Ok _))) _) => bool_decide (row_state x = Ready)
  | _, _ => false
  end.

Lemma sample_run_reaches :
  exists s x th cap, files_run files_start sample_run = Some s /\ uploads (sys_db s) !! sample_id = Some x /\ row_state x = Ready /\
    th ∈ sys_threads s /\ th_prog th = Ret (AnsCapability (Ok cap)).
Proof.
  assert (sample_check <$> files_run files_start sample_run = Some true) as Hs by (vm_compute; reflexivity).
  destruct (files_run files_start sample_run) as [s|]; [|done]. injection Hs as Hs. unfold sample_check in Hs.
  destruct (uploads (sys_db s) !! sample_id) as [x|] eqn:Hx; [|done]. destruct (sys_threads s !! 4%nat) as [th|] eqn:Hth; [|done].
  apply list_elem_of_lookup_2 in Hth. destruct th as [q p t]. destruct p as [[]|]; try done. destruct r as [cap| |]; try done.
  apply bool_decide_eq_true in Hs. by exists s, x, (mkThread q (Ret (AnsCapability (Ok cap))) t), cap.
Qed.


Lemma only_scanned_files_are_published_witness :
  exists s x, files_run files_start sample_run = Some s /\ uploads (sys_db s) !! sample_id = Some x /\ row_state x = Ready /\
    scan_evidence (traces s) (row_record x) /\ replica_evidence (traces s) (row_record x).
Proof.
  destruct sample_run_reaches as (s & x & _ & _ & Hrun & Hx & Hr & _). exists s, x. split; [exact Hrun|]. split; [exact Hx|]. split; [exact Hr|].
  destruct (only_scanned_files_are_published sample_run s Hrun) as [Hrows _]. exact (Hrows sample_id x Hx Hr).
Defined.

Lemma requests_keep_their_promises_witness :
  exists s th cap, files_run files_start sample_run = Some s /\ th ∈ sys_threads s /\
    answer_ok (th_request th) (th_trace th) (AnsCapability (Ok cap)).
Proof.
  destruct sample_run_reaches as (s & _ & th & cap & Hrun & _ & _ & Hth & Hp). exists s, th, cap. split; [exact Hrun|]. split; [exact Hth|].
  exact (requests_keep_their_promises sample_run s th _ Hrun Hth Hp).
Defined.

(** After the insertion of the upload. *)
Definition sample_insert : list files_event := take 5 sample_run.

(** The fourth reply of the upload. *)
Definition sample_row (s : files_system) : option row :=
  match traces s with
  | t :: _ => match t !! 3%nat with Some e => scanned_row e | None => None end
  | [] => None
  end.

Lemma sample_insert_reads : exists s t v, files_run files_start sample_insert = Some s /\ t ∈ traces s /\ read t v.
Proof.
  assert ((fun s => bool_decide (is_Some (sample_row s))) <$> files_run files_start sample_insert = Some true) as Hs by (vm_compute; reflexivity).
  destruct (files_run files_start sample_insert) as [s|]; [|done]. injection Hs as Hs. apply bool_decide_eq_true in Hs as [x Hx].
  unfold sample_row in Hx. destruct (traces s) as [|t ts] eqn:Ht; [done|]. destruct (t !! 3%nat) as [e|] eqn:He; [|done].
  exists s, t, (decoded x). rewrite Ht. split_and!; [done|by left|]. exists e, x. split; [by eapply list_elem_of_lookup_2|done].
Qed.

Lemma versions_identify_records_witness :
  exists s v cur, files_run files_start sample_insert = Some s /\ uploads (sys_db s) !! rec_ID v = Some cur /\ immut v = immut (row_record cur).
Proof.
  destruct sample_insert_reads as (s & t & v & Hrun & Ht & Hv).
  destruct (versions_identify_records sample_insert s t v Hrun Ht Hv) as (cur & Hcur & Him & _). exists s, v, cur. split; [exact Hrun|]. split; [exact Hcur|exact Him].
Defined.

Lemma fingerprint_binds_manifest_witness :
  sample_manifest = sample_manifest \/
  (fingerprint_input sample_manifest <> fingerprint_input sample_manifest /\
   sha256_Sum (fingerprint_input sample_manifest) = sha256_Sum (fingerprint_input sample_manifest)).
Proof.
  apply (fingerprint_binds_manifest sample_manifest sample_manifest); [reflexivity|reflexivity| | |reflexivity].
  - split; [split; vm_compute; congruence|]. split; [reflexivity|]. constructor; [|constructor]. split; [split; vm_compute; congruence|reflexivity].
  - split; [split; vm_compute; congruence|]. split; [reflexivity|]. constructor; [|constructor]. split; [split; vm_compute; congruence|reflexivity].
Defined.
