(* ===== verification/GoUnicode.v ===== *)
(** * Code points

    [unicode/utf8], and what the sources use of [unicode]: control characters and
    spaces are fixed ranges; the tables of letters, digits and lower-case mappings
    are a parameter with their ASCII part. *)

From S2P Require Import Prelude GoStrings.
Local Open Scope Z_scope.
Local Ltac Zify.zify_post_hook ::= Z.to_euclidean_division_equations.

Definition RuneError : Z := 65533.

(** A continuation byte in a range. *)
Definition between (lo x hi : Z) : bool := (lo <=? x) && (x <=? hi).
Definition continuation (x : Z) : bool := between 128 x 191.

(** [utf8.DecodeRune] on a non-empty string: the code point and its size; an
    invalid encoding is [RuneError] of size 1. *)
Definition decode_rune (x : Z) (rest : bytes) : Z * nat :=
  if x <? 128 then (x, 1%nat) else
  match rest with
  | y :: rest =>
      if between 194 x 223 then if continuation y then ((x - 192) * 64 + (y - 128), 2%nat) else (RuneError, 1%nat) else
      match rest with
      | z :: rest =>
          if between 224 x 239 then
            if between (if x =? 224 then 160 else 128) y (if x =? 237 then 159 else 191) && continuation z
            then ((x - 224) * 4096 + (y - 128) * 64 + (z - 128), 3%nat) else (RuneError, 1%nat) else
          match rest with
          | w :: _ =>
              if between 240 x 244 && between (if x =? 240 then 144 else 128) y (if x =? 244 then 143 else 191) && continuation z && continuation w
              then ((x - 240) * 262144 + (y - 128) * 4096 + (z - 128) * 64 + (w - 128), 4%nat) else (RuneError, 1%nat)
          | [] => (RuneError, 1%nat)
          end
      | [] => (RuneError, 1%nat)
      end
  | [] => (RuneError, 1%nat)
  end.

(** The code points of a string with their sizes; each has at least one byte. *)
Fixpoint decode_runes (fuel : nat) (l : bytes) : list (Z * nat) :=
  match fuel, l with
  | S fuel, x :: rest => let '(r, size) := decode_rune x rest in (r, size) :: decode_runes fuel (drop size l)
  | _, _ => []
  end.
Definition sized_runes (l : bytes) : list (Z * nat) := decode_runes (length l) l.

(** [range] over a string *)
Definition runes (l : bytes) : list Z := (sized_runes l).*1.
(** [utf8.ValidString], [utf8.RuneCount] *)
Definition utf8_Valid (l : bytes) : bool := forallb (fun x => negb ((x.1 =? RuneError) && (x.2 =? 1)%nat)) (sized_runes l).
Definition utf8_RuneCount (l : bytes) : Z := len (sized_runes l).

(** [utf8.AppendRune] *)
Definition encode_rune (r : Z) : bytes :=
  if between 0 r 127 then [r]
  else if between 0 r 2047 then [192 + r / 64; 128 + r `mod` 64]
  else if between 0 r 65535 then
    let r := if between 55296 r 57343 then RuneError else r in [224 + r / 4096; 128 + r / 64 `mod` 64; 128 + r `mod` 64]
  else if between 65536 r 1114111 then [240 + r / 262144; 128 + r / 4096 `mod` 64; 128 + r / 64 `mod` 64; 128 + r `mod` 64]
  else [239; 191; 189].

(** [unicode.IsControl] and [unicode.IsSpace] *)
Definition IsControl (r : Z) : bool := between 0 r 31 || between 127 r 159.
Definition IsSpace (r : Z) : bool :=
  between 9 r 13 || bool_decide (r ∈ [32; 133; 160; 5760; 8232; 8233; 8239; 8287; 12288]) || between 8192 r 8202.

(** The tables of [unicode]. *)
Class UnicodeTables := {
  ToLower : Z -> Z;
  IsLetter : Z -> bool;
  IsDigit : Z -> bool;
  ToLower_not_upper r : between 65 (ToLower r) 90 = false;
  ToLower_ascii r : 0 <= r < 128 -> ToLower r = if between 65 r 90 then r + 32 else r;
  IsLetter_ascii r : 0 <= r < 128 -> IsLetter r = between 65 r 90 || between 97 r 122;
  IsDigit_ascii r : 0 <= r < 128 -> IsDigit r = between 48 r 57
}.

(** The ASCII part alone. *)
Definition ascii_lower (r : Z) : Z := if between 65 r 90 then r + 32 else r.
Lemma ascii_lower_not_upper r : between 65 (ascii_lower r) 90 = false.
Proof. unfold ascii_lower. destruct (between 65 r 90) eqn:Hr; [|done]. unfold between in *. lia. Qed.
Definition ascii_tables : UnicodeTables :=
  Build_UnicodeTables ascii_lower (fun r => between 65 r 90 || between 97 r 122) (fun r => between 48 r 57)
    ascii_lower_not_upper (fun _ _ => eq_refl) (fun _ _ => eq_refl) (fun _ _ => eq_refl).

Section strings.
Context `{UnicodeTables}.

(** [strings.ToLower] *)
Definition strings_ToLower (l : bytes) : bytes := concat ((fun r => encode_rune (ToLower r)) <$> runes l).
End strings.

(** ** ASCII strings *)

Definition ascii (l : bytes) : Prop := Forall (fun x => 0 <= x < 128) l.

Lemma sized_runes_ascii l : ascii l -> sized_runes l = (fun x => (x, 1%nat)) <$> l.
Proof.
  unfold sized_runes. induction 1 as [|x l Hx Hl IH]; [done|]. cbn [length decode_runes]. unfold decode_rune.
  rewrite (proj2 (Z.ltb_lt x 128)) by lia. cbn [drop]. by rewrite drop_0, IH.
Qed.

Lemma runes_ascii l : ascii l -> runes l = l.
Proof. intros Hl. unfold runes. rewrite sized_runes_ascii by done. rewrite <- list_fmap_compose. apply list_fmap_id. Qed.

Lemma encode_rune_ascii r : 0 <= r < 128 -> encode_rune r = [r].
Proof. intros Hr. unfold encode_rune, between. by rewrite (proj2 (Z.leb_le 0 r)), (proj2 (Z.leb_le r 127)) by lia. Qed.

(** A string without upper-case letters is its own lower case. *)
Lemma ToLower_lower `{UnicodeTables} l : Forall (fun x => 0 <= x < 128 /\ between 65 x 90 = false) l -> strings_ToLower l = l.
Proof.
  intros Hl. unfold strings_ToLower. rewrite runes_ascii by (eapply Forall_impl; [exact Hl|]; by intros ? []).
  induction Hl as [|x l [Hx Hu] Hl IH]; [done|]. rewrite fmap_cons. cbn [concat]. rewrite IH, ToLower_ascii, Hu, encode_rune_ascii by done. done.
Qed.

(** A code point that is not ASCII is encoded without ASCII bytes. *)
Lemma encode_rune_high r x : ~ 0 <= r < 128 -> x ∈ encode_rune r -> 128 <= x.
Proof.
  intros Hr. unfold encode_rune. destruct (between 0 r 127) eqn:H1; [unfold between in H1; lia|].
  destruct (between 0 r 2047) eqn:H2.
  { unfold between in H2. rewrite !elem_of_cons, elem_of_nil. lia. }
  destruct (between 0 r 65535) eqn:H3.
  { cbv zeta. set (r' := if between 55296 r 57343 then RuneError else r). assert (0 <= r') by (unfold r', RuneError; destruct (between 55296 r 57343); unfold between in H3; lia).
    clearbody r'. rewrite !elem_of_cons, elem_of_nil. lia. }
  destruct (between 65536 r 1114111) eqn:H4.
  { unfold between in H4. rewrite !elem_of_cons, elem_of_nil.
    lia. }
  rewrite !elem_of_cons, elem_of_nil. lia.
Qed.

(** The code points of a string are ASCII only if its bytes are. *)
Lemma decode_rune_low x rest r size : decode_rune x rest = (r, size) -> r < 128 -> r = x /\ size = 1%nat /\ x < 128.
Proof.
  unfold decode_rune, between, continuation, RuneError. destruct (Z.ltb_spec x 128) as [Hx|Hx]; [by intros [= <- <-]|].
  intros Hd Hr. exfalso. destruct rest as [|y [|z [|w rest]]]; repeat case_match; unfold between in *; injection Hd as <- _; lia.
Qed.

Lemma runes_low l : Forall (fun r => r < 128) (runes l) -> runes l = l.
Proof.
  unfold runes, sized_runes. induction l as [|x l IH]; [done|]. cbn [length decode_runes].
  destruct (decode_rune x l) as [r size] eqn:Hd. rewrite fmap_cons, Forall_cons. cbn [fst]. intros [Hr Hl].
  destruct (decode_rune_low _ _ _ _ Hd Hr) as (-> & -> & _). cbn [drop] in *. rewrite drop_0 in *. by rewrite IH.
Qed.
