(* ===== verification/GoText.v ===== *)
(** * Texts

    Valid UTF-8 strings as sequences of encoded code points, and that trimming the
    spaces of a text yields a text: what the profiles rely on when they store what
    they normalized. *)

From S2P Require Import Prelude GoStrings GoUnicode.
Local Open Scope Z_scope.

(** ** Encoded code points *)

(** The bytes of one code point. *)
Definition rune_bytes (p : bytes) : bool :=
  match p with
  | x :: rest => let '(r, size) := decode_rune x rest in (size =? length p)%nat && negb ((r =? RuneError) && (size =? 1)%nat)
  | [] => false
  end.
Definition rune_of (p : bytes) : Z := match p with x :: rest => (decode_rune x rest).1 | [] => RuneError end.

Lemma decode_rune_size x rest : (1 <= (decode_rune x rest).2 <= S (length rest))%nat.
Proof. unfold decode_rune. destruct rest as [|y [|z [|w rest]]]; repeat case_match; cbn; lia. Qed.

(** What follows a code point does not matter. *)
Lemma decode_rune_app x rest l : rune_bytes (x :: rest) = true -> decode_rune x (rest ++ l) = decode_rune x rest.
Proof.
  unfold rune_bytes, decode_rune. destruct (x <? 128) eqn:Hx; [done|]. destruct rest as [|y [|z [|w [|v rest]]]]; cbn [app length].
  - intros H. by rewrite andb_false_r in H.
  - destruct (between 194 x 223); [by destruct (continuation y)|]. intros H. by rewrite andb_false_r in H.
  - destruct (between 194 x 223); [destruct (continuation y); done|]. destruct (between 224 x 239); [by destruct (_ && _)|]. intros H. by rewrite andb_false_r in H.
  - destruct (between 194 x 223); [destruct (continuation y); done|]. destruct (between 224 x 239); [destruct (_ && _); done|]. by destruct (_ && _).
  - destruct (between 194 x 223); [destruct (continuation y); done|]. destruct (between 224 x 239); [destruct (_ && _); done|]. destruct (_ && _); done.
Qed.

Lemma decode_rune_take x rest r size : decode_rune x rest = (r, size) -> r <> RuneError \/ size <> 1%nat -> rune_bytes (take size (x :: rest)) = true.
Proof.
  intros Hd Hne. unfold decode_rune in Hd. destruct (x <? 128) eqn:Hx.
  { injection Hd as <- <-. cbn [take]. unfold rune_bytes, decode_rune. rewrite take_0, Hx. apply andb_true_iff. split; [done|]. apply negb_true_iff, andb_false_iff. left. unfold RuneError. lia. }
  destruct rest as [|y [|z [|w rest]]]; repeat case_match; injection Hd as <- <-; try (by destruct Hne); cbn [take]; rewrite ?take_0; unfold rune_bytes, decode_rune;
    repeat match goal with H : ?b = _ |- context [?b] => rewrite H end; by rewrite andb_false_r.
Qed.

(** Only the first byte of a code point is not a continuation. *)
Lemma rune_bytes_shape x rest : rune_bytes (x :: rest) = true -> continuation x = false /\ Forall (fun y => continuation y = true) rest.
Proof.
  unfold rune_bytes, decode_rune, continuation, between. intros H. destruct (Z.ltb_spec x 128) as [Hx|Hx].
  - destruct rest as [|y rest]; [split; [lia|constructor]|]. cbn in H. done.
  - destruct rest as [|y [|z [|w [|v rest]]]]; repeat case_match; cbn [length Nat.eqb andb negb] in H; try done; try (rewrite andb_false_r in H; done);
      try (cbn in H; done); rewrite ?Forall_cons; split_and!; try (by apply Forall_nil_2); unfold between in *; try lia;
      repeat match goal with H : (_, _) = (_, _) |- _ => injection H as <- <- end; try (cbn in H; lia).
Qed.

(** ** Texts *)

Inductive text : bytes -> Prop :=
| text_nil : text []
| text_cons p l : rune_bytes p = true -> text l -> text (p ++ l).

Lemma text_app a b : text a -> text b -> text (a ++ b).
Proof. intros Ha Hb. induction Ha as [|p l Hp _ IH]; [done|]. rewrite <- app_assoc. by constructor. Qed.
Lemma text_rune p : rune_bytes p = true -> text p.
Proof. intros Hp. rewrite <- (app_nil_r p). by repeat constructor. Qed.

Lemma decode_runes_fuel fuel fuel' l : (length l <= fuel)%nat -> (length l <= fuel')%nat -> decode_runes fuel l = decode_runes fuel' l.
Proof.
  revert fuel' l. induction fuel as [|fuel IH]; intros fuel' l Hf Hf'; [destruct l; [by destruct fuel'|cbn in Hf; lia]|].
  destruct l as [|x rest]; [by destruct fuel'|]. destruct fuel' as [|fuel']; [cbn in Hf'; lia|]. cbn [decode_runes]. destruct (decode_rune x rest) as [r size] eqn:Hd.
  pose proof (decode_rune_size x rest) as Hs. rewrite Hd in Hs. cbn [snd length] in *. f_equal. apply IH; rewrite length_drop; cbn [length]; lia.
Qed.

Lemma sized_runes_cons p l : rune_bytes p = true -> sized_runes (p ++ l) = (rune_of p, length p) :: sized_runes l.
Proof.
  intros Hp. destruct p as [|x rest]; [done|]. unfold sized_runes, rune_of. cbn [app length decode_runes]. rewrite (decode_rune_app x rest l Hp). pose proof Hp as Hsize. unfold rune_bytes in Hsize.
  destruct (decode_rune x rest) as [r size]. apply andb_true_iff in Hsize as [Hsize%Nat.eqb_eq _]. cbn [length] in Hsize. rewrite Hsize. cbn [fst]. f_equal.
  cbn [drop]. rewrite drop_app_length. apply decode_runes_fuel; [rewrite length_app; lia|done].
Qed.

Lemma sized_runes_app a b : text a -> sized_runes (a ++ b) = sized_runes a ++ sized_runes b.
Proof. induction 1 as [|p l Hp _ IH]; [done|]. rewrite <- app_assoc. rewrite (sized_runes_cons p (l ++ b)), (sized_runes_cons p l), IH by done. done. Qed.
Lemma runes_app a b : text a -> runes (a ++ b) = runes a ++ runes b.
Proof. intros Ha. unfold runes. by rewrite sized_runes_app, fmap_app. Qed.

Lemma utf8_Valid_text l : utf8_Valid l = true <-> text l.
Proof.
  split.
  - remember (length l) as n eqn:Hn. revert l Hn. induction n as [n IH] using lt_wf_ind. intros l Hn Hv. destruct l as [|x rest]; [constructor|].
    destruct (decode_rune x rest) as [r size] eqn:Hd. pose proof (decode_rune_size x rest) as Hs. rewrite Hd in Hs. cbn [snd] in Hs.
    unfold utf8_Valid, sized_runes in Hv. cbn [length decode_runes] in Hv. rewrite Hd in Hv. cbn [forallb fst snd] in Hv. apply andb_true_iff in Hv as [Hr Hv].
    rewrite <- (take_drop size (x :: rest)). constructor.
    + eapply decode_rune_take; [exact Hd|]. apply negb_true_iff, andb_false_iff in Hr as [Hr|Hr]; [left; lia|right]. by apply Nat.eqb_neq in Hr.
    + eapply (IH (length (drop size (x :: rest)))); [rewrite length_drop; cbn [length] in *; lia|done|]. unfold utf8_Valid, sized_runes.
      rewrite (decode_runes_fuel _ (length rest)) by (rewrite length_drop; cbn [length]; lia). done.
  - induction 1 as [|p l Hp _ IH]; [done|]. unfold utf8_Valid in *. rewrite sized_runes_cons by done. cbn [forallb fst snd]. rewrite IH, andb_true_r.
    destruct p as [|x rest]; [done|]. unfold rune_bytes in Hp. unfold rune_of. destruct (decode_rune x rest) as [r size]. apply andb_true_iff in Hp as [Hs%Nat.eqb_eq Hp]. cbn [fst]. by rewrite <- Hs.
Qed.

(** The first code point of a text is determined by its first byte. *)
Lemma text_strip_front q l : rune_bytes q = true -> text (q ++ l) -> text l.
Proof.
  intros Hq Ht. remember (q ++ l) as m eqn:Hm. destruct Ht as [|p l' Hp Ht]; [by destruct q|].
  destruct p as [|x p]; [done|]. destruct q as [|y q]; [done|]. injection Hm as <- Hm.
  destruct (rune_bytes_shape _ _ Hp) as [_ Cp], (rune_bytes_shape _ _ Hq) as [_ Cq].
  assert (length p = length q) as Hl.
  { unfold rune_bytes in Hp, Hq. rewrite <- (decode_rune_app x p l' Hp), Hm in Hp. rewrite <- (decode_rune_app x q l Hq) in Hq.
    destruct (decode_rune x (q ++ l)) as [r size]. apply andb_true_iff in Hp as [Hp%Nat.eqb_eq _], Hq as [Hq%Nat.eqb_eq _]. cbn [length] in *. lia. }
  apply app_inj_1 in Hm as [_ <-]; done.
Qed.

(** The last code point of a text starts at its last byte that is not a continuation. *)
Lemma text_strip_back q l : rune_bytes q = true -> text (l ++ q) -> text l.
Proof.
  intros Hq Ht. remember (l ++ q) as m eqn:Hm. revert l Hm. induction Ht as [|p l' Hp Ht IH]; intros l Hm; [by destruct l; [constructor|]|].
  destruct (decide (length p <= length l)%nat) as [Hle|Hgt].
  - assert (exists l0, l = p ++ l0) as [l0 ->] by (exists (drop (length p) l); rewrite <- (take_drop (length p) l) at 1; f_equal; apply (f_equal (take (length p))) in Hm;
      rewrite take_app_length, take_app_le in Hm by done; done).
    rewrite <- app_assoc in Hm. apply app_inv_head in Hm. constructor; [done|]. by apply IH.
  - destruct l as [|x l]; [constructor|]. exfalso. destruct q as [|y q]; [done|]. destruct p as [|x' p]; [done|]. injection Hm as <- Hm.
    destruct (rune_bytes_shape _ _ Hp) as [_ Cp], (rune_bytes_shape _ _ Hq) as [Cy _].
    assert ((p ++ l') !! length l = Some y) as Hy by (rewrite Hm, lookup_app_r, Nat.sub_diag by lia; done).
    rewrite lookup_app_l in Hy by (cbn [length] in Hgt; lia). rewrite Forall_forall in Cp. apply list_elem_of_lookup_2, Cp in Hy. congruence.
Qed.

(** ** Trimming *)

Lemma spaces_are_runes p : p ∈ spaces -> rune_bytes p = true /\ IsSpace (rune_of p) = true.
Proof.
  intros Hp. assert (forallb (fun p => rune_bytes p && IsSpace (rune_of p)) spaces = true) as Hall by (vm_compute; reflexivity).
  rewrite forallb_forall in Hall. apply list_elem_of_In, Hall, andb_true_iff in Hp. done.
Qed.

(** A text of spaces. *)
Definition blank (l : bytes) : Prop := text l /\ Forall (fun r => IsSpace r = true) (runes l).

Lemma blank_nil : blank [].
Proof. split; constructor. Qed.
Lemma blank_space p : p ∈ spaces -> blank p.
Proof.
  intros [Hp Hs]%spaces_are_runes. split; [by apply text_rune|]. rewrite <- (app_nil_r p). unfold runes. rewrite sized_runes_cons by done. by repeat constructor.
Qed.
Lemma blank_app a b : blank a -> blank b -> blank (a ++ b).
Proof. intros [Ta Sa] [Tb Sb]. split; [by apply text_app|]. rewrite runes_app by done. by apply Forall_app. Qed.

Lemma trim_front fuel l : text l -> exists a, l = a ++ trim_patterns spaces fuel l /\ blank a /\ text (trim_patterns spaces fuel l).
Proof.
  revert l. induction fuel as [|fuel IH]; intros l Hl; cbn [trim_patterns]; [exists []; split_and!; [done|apply blank_nil|done]|].
  destruct (strip_any spaces l) as [rest|] eqn:Hs; [|exists []; split_and!; [done|apply blank_nil|done]].
  apply strip_any_Some in Hs as (p & Hp & ->). destruct (IH rest) as (a & Ha & Hb & Ht); [by eapply text_strip_front; [apply spaces_are_runes|]|].
  exists (p ++ a). split_and!; [by rewrite <- app_assoc, <- Ha|by apply blank_app; [apply blank_space|]|done].
Qed.

Lemma trim_back fuel l : text l -> exists b, l = rev (trim_patterns (@rev Z <$> spaces) fuel (rev l)) ++ b /\ blank b /\ text (rev (trim_patterns (@rev Z <$> spaces) fuel (rev l))).
Proof.
  revert l. induction fuel as [|fuel IH]; intros l Hl; cbn [trim_patterns]; [exists []; rewrite rev_involutive, app_nil_r; split_and!; [done|apply blank_nil|done]|].
  destruct (strip_any (@rev Z <$> spaces) (rev l)) as [rest|] eqn:Hs; [|exists []; rewrite rev_involutive, app_nil_r; split_and!; [done|apply blank_nil|done]].
  apply strip_any_Some in Hs as (q & (p & -> & Hp)%list_elem_of_fmap & He). apply (f_equal (@rev Z)) in He. rewrite rev_involutive, rev_app_distr, rev_involutive in He. subst l.
  destruct (IH (rev rest)) as (b & Hb & Hbl & Ht); [by eapply text_strip_back; [apply spaces_are_runes|]|]. rewrite rev_involutive in *.
  exists (b ++ p). split_and!; [by rewrite app_assoc, <- Hb|by apply blank_app; [|apply blank_space]|done].
Qed.

(** Trimming a text removes spaces and leaves a text. *)
Lemma TrimSpace_text l : text l -> exists a b, l = a ++ TrimSpace l ++ b /\ blank a /\ blank b /\ text (TrimSpace l).
Proof.
  intros Hl. destruct (trim_front (length l) l Hl) as (a & Ha & Hab & Ht). unfold TrimSpace, trim_left. set (m := trim_patterns spaces (length l) l) in *.
  destruct (trim_back (length (rev m)) m Ht) as (b & Hb & Hbb & Ht'). exists a, b. split_and!; [by rewrite <- Hb|done|done|done].
Qed.

Lemma strip_any_None pats l : strip_any pats l = None <-> forall p r, p ∈ pats -> l <> p ++ r.
Proof.
  induction pats as [|q pats IH]; cbn [strip_any]; [split; [intros _ p r ?%elem_of_nil; done|done]|]. destruct (strip_prefix q l) as [rest|] eqn:Hq.
  - apply strip_prefix_Some in Hq. split; [done|]. intros Hn. by destruct (Hn q rest (list_elem_of_here _ _)).
  - rewrite IH. split; [|intros Hn p r Hp; apply Hn; by right]. intros Hn p r [->|Hp]%elem_of_cons; [|by apply Hn].
    intros He. apply strip_prefix_Some in He. congruence.
Qed.

Lemma trim_left_stuck pats l : strip_any pats l = None -> trim_left pats l = l.
Proof. intros Hn. unfold trim_left. destruct (length l); cbn [trim_patterns]; [done|]. by rewrite Hn. Qed.

Lemma spaces_not_empty : Forall (fun p => p <> []) spaces /\ Forall (fun p => p <> []) (@rev Z <$> spaces).
Proof.
  assert (Forall (fun p => p <> []) spaces) as Hs by (apply Forall_forall; intros p [Hp _]%spaces_are_runes; by destruct p). split; [done|].
  apply Forall_fmap. eapply Forall_impl; [exact Hs|]. intros p Hp He. apply (f_equal (@rev Z)) in He. by rewrite rev_involutive in He.
Qed.

(** Trimming is done at once. *)
Lemma TrimSpace_idempotent l : TrimSpace (TrimSpace l) = TrimSpace l.
Proof.
  destruct spaces_not_empty as [Hne Hne']. set (s := trim_left spaces l). assert (strip_any spaces s = None) as Hs by (by apply trim_patterns_done).
  set (u := trim_left (@rev Z <$> spaces) (rev s)). assert (strip_any (@rev Z <$> spaces) u = None) as Hu by (by apply trim_patterns_done).
  change (TrimSpace l) with (rev u). unfold TrimSpace. rewrite (trim_left_stuck spaces (rev u)); [|].
  - rewrite rev_involutive. by rewrite trim_left_stuck.
  - destruct (trim_left_suffix (@rev Z <$> spaces) (rev s)) as [b Hb]. change (trim_left (@rev Z <$> spaces) (rev s)) with u in Hb. apply (f_equal (@rev Z)) in Hb. rewrite rev_involutive, rev_app_distr in Hb.
    rewrite strip_any_None in *. intros p r Hp He. apply (Hs p (r ++ rev b) Hp). by rewrite Hb, He, app_assoc.
Qed.

(** The number of code points. *)
Lemma utf8_RuneCount_text a b : text a -> utf8_RuneCount (a ++ b) = utf8_RuneCount a + utf8_RuneCount b.
Proof. intros Ha. unfold utf8_RuneCount. rewrite sized_runes_app, len_app by done. done. Qed.
