(* ===== verification/AuthToken.v ===== *)
(** * Auth: session tokens

    [services/auth/internal/domain/session/session.go]: session identifiers, opaque
    tokens and their digests, records and access state. *)

From S2P Require Import Prelude GoStrings Sha256 GoEncoding.
Local Open Scope Z_scope.

Inductive session_error := ErrInvalidSession | ErrRefreshReuse | ErrUnavailable
(** errors of the contexts *)
| ErrCanceled | ErrDeadlineExceeded
(** any other error of a dependency *)
| ErrOther.
#[export] Instance session_error_eq_dec : EqDecision session_error.
Proof. solve_decision. Defined.

(** ** Identifiers *)

(** [ID] is an array of 16 bytes, [Digest] one of 32. *)
Abbreviation session_id := bytes (only parsing).
Abbreviation digest := bytes (only parsing).
Definition zero_id : session_id := replicate 16 0.

(** [ID.String] *)
Definition id_String (id : session_id) : bytes := hex_EncodeToString id.

Definition ParseID (value : bytes) : result session_error session_id :=
  reject_if (negb (len value =? 32)) ErrInvalidSession;;
  match hex_DecodeString value with
  | None => Err ErrInvalidSession
  | Some id =>
      reject_if (bool_decide (id = zero_id) || negb (bool_decide (id_String id = value))) ErrInvalidSession;;
      Ok id
  end.

(** ** Tokens *)

Record Token := mkToken { tok_id : session_id; tok_value : bytes }.

Definition dot : Z := 46.
Definition token_prefix : bytes := bytes_of "mm1".

Definition NewToken (id : session_id) (random : bytes) : result session_error Token :=
  reject_if (bool_decide (id = zero_id) || negb (len random =? 32)) ErrInvalidSession;;
  Ok (mkToken id (token_prefix ++ [dot] ++ id_String id ++ [dot] ++ base64_Encode random)).

Definition ParseToken (value : bytes) : result session_error Token :=
  reject_if (negb (len value =? 80)) ErrInvalidSession;;
  match strings_Split value dot with
  | [prefix; id; secret] =>
      reject_if (negb (bool_decide (prefix = token_prefix))) ErrInvalidSession;;
      id ← map_err (fun _ => ErrInvalidSession) (ParseID id);
      match base64_Decode secret with
      | Some s => reject_if (negb (len s =? 32)) ErrInvalidSession;; Ok (mkToken id value)
      | None => Err ErrInvalidSession
      end
  | _ => Err ErrInvalidSession
  end.

(** [Token.Digest] *)
Definition token_Digest (t : Token) : digest := sha256_Sum (tok_value t).

(** ** Records *)

(** [RevokedAt] is nil or a time; times are nanoseconds since the Unix epoch. *)
Record Record_ := mkRecord {
  rec_ID : session_id;
  SubjectID : bytes;
  Version : Z;
  CreatedAt : Z;
  AccessExpiresAt : Z;
  RefreshExpiresAt : Z;
  ExpiresAt : Z;
  RevokedAt : option Z
}.
#[export] Instance Record_eq_dec : EqDecision Record_.
Proof. solve_decision. Defined.

Definition Active (record : Record_) (now : Z) : bool :=
  negb (bool_decide (rec_ID record = zero_id)) && negb (bool_decide (SubjectID record = zero_id)) && (0 <? Version record) &&
  bool_decide (RevokedAt record = None) && negb (now <? CreatedAt record) && (now <? ExpiresAt record).

Record Access := mkAccess {
  acc_Digest : digest;
  acc_Version : Z;
  acc_ExpiresAt : Z
}.

(** ** Tokens round trip *)

(** An identifier as the Go type has it. *)
Definition id_wf (id : session_id) : Prop := length id = 16%nat /\ Forall is_byte id.

Lemma ParseID_Ok value id : ParseID value = Ok id <-> id_wf id /\ id <> zero_id /\ value = id_String id.
Proof.
  unfold ParseID, id_String. rewrite guard_Ok, negb_false_iff, Z.eqb_eq. split.
  - intros [Hl Hv]. destruct (hex_DecodeString value) as [id'|] eqn:Hd; [|done]. rewrite guard_Ok, orb_false_iff in Hv.
    destruct Hv as [[Hz%bool_decide_eq_false He%negb_false_iff%bool_decide_eq_true] [= <-]].
    apply hex_Decode_bytes in Hd as [Hb Hlen]. unfold len in Hl. split; [split; [lia|done]|done].
  - intros ([Hl Hb] & Hz & ->). rewrite hex_round_trip by done. split; [unfold len; rewrite length_hex_Encode; lia|].
    rewrite guard_Ok, bool_decide_eq_false_2, bool_decide_eq_true_2 by done. done.
Qed.

Lemma Split_no_sep (l : bytes) sep : sep ∉ l -> strings_Split l sep = [l].
Proof.
  induction l as [|x l IH]; [done|]. rewrite not_elem_of_cons. intros [Hne Hl]. cbn [strings_Split].
  rewrite (proj2 (Z.eqb_neq x sep)) by congruence. by rewrite IH.
Qed.

Lemma Split_sep (l r : bytes) sep : sep ∉ l -> strings_Split (l ++ sep :: r) sep = l :: strings_Split r sep.
Proof.
  induction l as [|x l IH]; cbn [app strings_Split]; [by rewrite Z.eqb_refl|]. rewrite not_elem_of_cons. intros [Hne Hl].
  rewrite (proj2 (Z.eqb_neq x sep)) by congruence. by rewrite IH.
Qed.

(** The parts of a split, joined. *)
Lemma Split_joined (l : bytes) sep parts : strings_Split l sep = parts ->
  match parts with [] => False | p :: ps => l = p ++ concat ((fun q => sep :: q) <$> ps) end.
Proof.
  intros <-. induction l as [|x l IH]; cbn [strings_Split]; [done|]. destruct (Z.eqb_spec x sep) as [->|Hne].
  - destruct (strings_Split l sep) as [|p ps]; [done|]. cbn. by rewrite IH.
  - destruct (strings_Split l sep) as [|p ps]; [done|]. cbn. by rewrite IH.
Qed.

Lemma filter_length_id (l : bytes) : length (List.filter not_newline l) = length l -> List.filter not_newline l = l.
Proof.
  induction l as [|x l IH]; [done|]. cbn [List.filter]. pose proof (List.filter_length_le not_newline l).
  destruct (not_newline x); cbn [length]; [intros [= Hl]; f_equal; by apply IH|lia].
Qed.

(** What [ParseToken] accepts. *)
Lemma ParseToken_Ok value t :
  ParseToken value = Ok t <->
  exists id random, id_wf id /\ length random = 32%nat /\ Forall is_byte random /\ NewToken id random = Ok t /\ tok_value t = value.
Proof.
  assert (forall id random, id_wf id -> id <> zero_id -> length random = 32%nat ->
    NewToken id random = Ok (mkToken id (token_prefix ++ [dot] ++ id_String id ++ [dot] ++ base64_Encode random))) as Hnew.
  { intros id random Hid Hz Hr. unfold NewToken. rewrite bool_decide_eq_false_2 by done. unfold len. by rewrite Hr. }
  unfold ParseToken. rewrite guard_Ok, negb_false_iff, Z.eqb_eq. split.
  - intros [Hl Hv]. destruct (strings_Split value dot) as [|prefix [|idv [|secret [|]]]] eqn:Hs; try done.
    apply Split_joined in Hs. cbn in Hs. rewrite app_nil_r in Hs. rewrite guard_Ok, negb_false_iff, bool_decide_eq_true in Hv. destruct Hv as [-> Hv].
    rewrite bind_Ok in Hv. destruct Hv as (id & Hid & Hv). rewrite map_err_Ok in Hid. apply ParseID_Ok in Hid as (Hwf & Hz & ->).
    destruct (base64_Decode secret) as [s|] eqn:Hd; [|done]. rewrite guard_Ok, negb_false_iff, Z.eqb_eq in Hv. destruct Hv as [Hlen [= <-]].
    apply base64_Decode_Some in Hd as [Hf Hb].
    assert (List.filter not_newline secret = secret) as Hfs.
    { apply filter_length_id. rewrite Hf. pose proof (length_base64_Encode s) as He. rewrite Hlen in He. change ((4 * 32 + 2) / 3) with 43 in He.
      subst value. unfold len in Hl, He. rewrite length_app in Hl. cbn [length] in Hl. rewrite length_app in Hl. cbn [length] in Hl.
      unfold id_String in Hl. rewrite length_hex_Encode in Hl. destruct Hwf as [Hw _]. rewrite Hw in Hl. change (length token_prefix) with 3%nat in Hl. lia. }
    exists id, s. unfold len in Hlen. split_and!; [done|lia|done| |done]. rewrite Hnew by (done || lia). f_equal. f_equal.
    rewrite Hs. rewrite <- Hfs at 1. by rewrite Hf.
  - intros (id & random & Hwf & Hr & Hb & Ht & <-). unfold NewToken in Ht. rewrite guard_Ok, orb_false_iff in Ht.
    destruct Ht as [[Hz%bool_decide_eq_false _] Ht]. rewrite Ok_eq in Ht. subst t. cbn [tok_value]. pose proof (length_base64_Encode random) as He. unfold len in He. rewrite Hr in He.
    change ((4 * Z.of_nat 32 + 2) / 3) with 43 in He. destruct Hwf as [Hw Hib]. split.
    + unfold len, id_String. rewrite !length_app, length_hex_Encode, Hw. cbn [length]. change (length token_prefix) with 3%nat. lia.
    + assert (dot ∉ id_String id) as Hd1 by (intros Hin%hex_chars; [unfold dot in Hin; lia|done]).
      assert (dot ∉ base64_Encode random) as Hd2 by (intros Hin%base64_chars; [unfold dot in Hin; lia|done]).
      match goal with |- context [strings_Split ?v dot] =>
        change (strings_Split v dot) with (strings_Split (token_prefix ++ dot :: (id_String id ++ dot :: base64_Encode random)) dot) end.
      rewrite Split_sep by (apply (bool_decide_unpack _); by vm_compute). rewrite (Split_sep (id_String id)) by done.
      rewrite Split_no_sep by done. rewrite bool_decide_eq_true_2 by done. cbn [negb reject_if mbind result_bind].
      rewrite (proj2 (ParseID_Ok (id_String id) id)) by (split; [by split|done]). cbn [map_err mbind result_bind].
      rewrite base64_round_trip by done. unfold len. by rewrite Hr.
Qed.

(** Tokens round trip: [ParseToken] accepts exactly the texts of the tokens that
    [NewToken] mints for an identifier of 16 bytes and a secret of 32, and returns
    that token; no other spelling of a token is accepted. *)
Theorem tokens_round_trip (value : bytes) (t : Token) :
  ParseToken value = Ok t <->
  exists id random, id_wf id /\ length random = 32%nat /\ Forall is_byte random /\ NewToken id random = Ok t /\ tok_value t = value.
Proof. apply ParseToken_Ok. Qed.
