(* ===== verification/AuthDomain.v ===== *)
(** * Auth: credentials and account security

    [services/auth/internal/domain/credential/credential.go] and
    [domain/security/security.go]: identifiers, passwords, e-mail addresses, accounts
    and challenges. *)

From S2P Require Import Prelude GoStrings GoUnicode AuthToken.
Local Open Scope Z_scope.

(** ** Failures *)

Inductive Failure :=
| InvalidInput | InvalidCredentials | LoginLocked | CodeMismatch | CodeReissued | CodeExpired | TokenExpired | TokenUsed
| EmailUnverified | CodeRequired | RateLimited | NewDeviceCooldown | Unavailable | NotFound.
#[export] Instance Failure_eq_dec : EqDecision Failure.
Proof. solve_decision. Defined.

(** An error of the service: a [Failure], the end of the context, an error of the
    sessions, or any other. *)
Inductive sec_error := Failed (f : Failure) | SecCanceled | SecDeadline | SecSession (e : session_error) | SecOther.

Definition IsExpected (err : sec_error) : bool :=
  match err with Failed failure => negb (bool_decide (failure = Unavailable)) | _ => false end.

(** ** Credentials *)

Inductive credential_error := ErrInvalidIdentifier | ErrInvalidPassword | ErrInvalidSubjectID | ErrInvalidPasswordDigest.

Definition minIdentifierBytes : Z := 3.
Definition maxIdentifierBytes : Z := 254.
Definition minPasswordRunes : Z := 8.
Definition maxPasswordRunes : Z := 64.
Definition maxPasswordBytes : Z := 72.
Definition maxDigestBytes : Z := 512.
Definition SubjectIDBytes : Z := 16.

Definition NewPassword (value : bytes) : result credential_error bytes :=
  reject_if ((maxPasswordBytes <? len value) || negb (utf8_Valid value) || bool_decide (0 ∈ value)) ErrInvalidPassword;;
  let length := utf8_RuneCount value in
  reject_if ((length <? minPasswordRunes) || (maxPasswordRunes <? length)) ErrInvalidPassword;;
  Ok value.

Definition NewSubjectID (value : bytes) : result credential_error bytes :=
  reject_if (negb (len value =? SubjectIDBytes)) ErrInvalidSubjectID;;
  Ok value.

Definition NewPasswordDigest (value : bytes) : result credential_error bytes :=
  reject_if (bool_decide (value = []) || (maxDigestBytes <? len value)) ErrInvalidPasswordDigest;;
  Ok value.

(** ** [net/mail] *)

(** The longest prefix of characters of a kind, and the rest. *)
Fixpoint span (p : Z -> bool) (l : bytes) : bytes * bytes :=
  match l with
  | [] => ([], [])
  | x :: rest => if p x then let '(a, b) := span p rest in (x :: a, b) else ([], l)
  end.

Definition at_sign : Z := 64.
Definition period : Z := 46.
Definition open_bracket : Z := 91.
Definition close_bracket : Z := 93.

(** [isVchar], [isAtext] with and without dots, and [isDtext], for ASCII *)
Definition isVchar (r : Z) : bool := between 33 r 126.
Definition isAtext (r : Z) (dot : bool) : bool :=
  if r =? period then dot
  else if bool_decide (r ∈ bytes_of "()<>[]:;@\," ++ [34]) then false
  else isVchar r.
Definition isDtext (r : Z) : bool := isVchar r && negb (bool_decide (r ∈ bytes_of "[]\")).

Fixpoint double_dot (l : bytes) : bool :=
  match l with
  | x :: ((y :: _) as rest) => (x =? period) && (y =? period) || double_dot rest
  | _ => false
  end.

(** [consumeAtom(true, false)] *)
Definition consumeAtom (l : bytes) : option (bytes * bytes) :=
  let '(atom, rest) := span (fun r => isAtext r true) l in
  if bool_decide (atom = []) || bool_decide (head atom = Some period) || double_dot atom || bool_decide (last atom = Some period) then None
  else Some (atom, rest).

(** [net.ParseIP] on texts without colons: four decimal numbers *)
Definition ipv4_field (l : bytes) : bool :=
  (0 <? len l) && forallb (fun x => between 48 x 57) l && (bool_decide (length l = 1%nat) || negb (bool_decide (head l = Some 48))) &&
  (len l <=? 3) && (fold_left (fun n x => n * 10 + (x - 48)) l 0 <=? 255).
Definition ParseIPv4 (l : bytes) : bool :=
  let parts := strings_Split l period in bool_decide (length parts = 4%nat) && forallb ipv4_field parts.

(** [consumeDomainLiteral] *)
Definition consumeDomainLiteral (l : bytes) : option (bytes * bytes) :=
  match l with
  | x :: l =>
      let '(dtext, rest) := span isDtext l in
      match rest with
      | y :: rest =>
          if (x =? open_bracket) && (y =? close_bracket) && ParseIPv4 dtext then Some (open_bracket :: dtext ++ [close_bracket], rest) else None
      | [] => None
      end
  | [] => None
  end.

(** [consumeAddrSpec] on a text without quotes and spaces *)
Definition consumeAddrSpec (l : bytes) : option (bytes * bytes) :=
  '(local, rest) ← consumeAtom l;
  match rest with
  | x :: rest =>
      if negb (x =? at_sign) then None else
      '(domain, rest) ← (if bool_decide (head rest = Some open_bracket) then consumeDomainLiteral rest else consumeAtom rest);
      Some (local ++ at_sign :: domain, rest)
  | [] => None
  end.

(** [mail.ParseAddress] on a text of visible ASCII characters without quotes,
    angle brackets, comments, groups and lists: only an addr-spec parses. *)
Definition ParseAddress (l : bytes) : option bytes :=
  '(address, rest) ← consumeAddrSpec l;
  if bool_decide (rest = []) then Some address else None.

Section domain.
Context `{UnicodeTables}.

Definition NewIdentifier (value : bytes) : result credential_error bytes :=
  reject_if (negb (utf8_Valid value)) ErrInvalidIdentifier;;
  let normalized := strings_ToLower (TrimSpace value) in
  reject_if ((len normalized <? minIdentifierBytes) || (maxIdentifierBytes <? len normalized)) ErrInvalidIdentifier;;
  reject_if (existsb (fun character => IsControl character || IsSpace character) (runes normalized)) ErrInvalidIdentifier;;
  Ok normalized.

(** ** E-mail addresses and new passwords *)

(** The characters that [Email] refuses. *)
Definition email_refuses (r : Z) : bool := (r <? 33) || (126 <? r) || bool_decide (r ∈ bytes_of "<>\(),;:" ++ [34]).

Definition Email (value : bytes) : result sec_error bytes :=
  let value := strings_ToLower (TrimSpace value) in
  reject_if ((len value <? 3) || (254 <? len value) || negb (strings_Count value at_sign =? 1) || existsb email_refuses (runes value)) (Failed InvalidInput);;
  match ParseAddress value with
  | Some address => reject_if (negb (bool_decide (address = value))) (Failed InvalidInput);; Ok value
  | None => Err (Failed InvalidInput)
  end.

(** [security.NewPassword] *)
Definition has_special (r : Z) : bool := negb (IsLetter r) && negb (IsDigit r) && negb (IsSpace r) && negb (IsControl r).
Definition NewSecurePassword (value : bytes) : result sec_error bytes :=
  password ← map_err (fun _ => Failed InvalidInput) (NewPassword value);
  let rs := runes value in
  reject_if (negb (existsb (fun x => between 97 x 122) rs) || negb (existsb (fun x => between 65 x 90) rs) || negb (existsb (fun x => between 48 x 57) rs) ||
             negb (existsb has_special rs)) (Failed InvalidInput);;
  Ok password.
End domain.

(** ** Accounts and challenges *)

Inductive Purpose := LoginCode | VerifyEmail | ResetPassword_ | ChangeEmail | CancelEmailChange_ | CancelDeletion | EnableCode | DisableCode.
#[export] Instance Purpose_eq_dec : EqDecision Purpose.
Proof. solve_decision. Defined.

Definition purpose_string (p : Purpose) : string :=
  match p with
  | LoginCode => "login" | VerifyEmail => "verify" | ResetPassword_ => "reset" | ChangeEmail => "change_email"
  | CancelEmailChange_ => "cancel_email" | CancelDeletion => "cancel_deletion" | EnableCode => "enable_code" | DisableCode => "disable_code"
  end.

Record Account := mkAccount {
  Subject : bytes;
  ac_Email : bytes;
  ac_PasswordDigest : bytes;
  Verified : bool;
  CodeEnabled : bool;
  Revision : Z;
  DeletionAt : option Z;
  DeletedAt : option Z
}.
#[export] Instance Account_eq_dec : EqDecision Account.
Proof. solve_decision. Defined.

Record Challenge := mkChallenge {
  ch_ID : bytes;
  ch_Subject : bytes;
  ch_Purpose : Purpose;
  ch_Digest : bytes;
  RegistrationDigest : bytes;
  ch_Revision : Z;
  ch_Email : bytes;
  ch_ExpiresAt : Z;
  ch_SentAt : Z;
  Attempts : Z;
  Sends : Z;
  UsedAt : option Z
}.
#[export] Instance Challenge_eq_dec : EqDecision Challenge.
Proof. solve_decision. Defined.

Definition no_id : bytes := replicate 16 0.
Definition no_digest : bytes := replicate 32 0.

(** [Challenge.Check] *)
Definition challenge_Check (c : Challenge) (account : Account) (purpose : Purpose) (now : Z) : result sec_error unit :=
  reject_if (bool_decide (ch_ID c = no_id) || negb (bool_decide (ch_Subject c = Subject account)) || negb (bool_decide (ch_Purpose c = purpose)) ||
             negb (ch_Revision c =? Revision account) || negb (bool_decide (DeletedAt account = None))) (Failed TokenExpired);;
  reject_if (negb (bool_decide (UsedAt c = None))) (Failed TokenUsed);;
  reject_if (negb (now <? ch_ExpiresAt c)) (Failed TokenExpired);;
  Ok tt.

(** ** Addresses in normal form *)

(** Dot-separated non-empty texts of atom characters. *)
Definition dot_atom (l : bytes) : Prop := Forall (fun part => part <> [] /\ Forall (fun r => isAtext r false = true) part) (strings_Split l period).
Definition address_literal (l : bytes) : Prop := exists ip, l = open_bracket :: ip ++ [close_bracket] /\ Forall (fun r => isDtext r = true) ip /\ ParseIPv4 ip = true.

Record email_wf (e : bytes) : Prop := mkEmailWf {
  ew_length : 3 <= len e <= 254;
  ew_chars : Forall (fun r => email_refuses r = false /\ between 65 r 90 = false) e;
  ew_parts : exists local domain, e = local ++ at_sign :: domain /\ dot_atom local /\ (dot_atom domain \/ address_literal domain) /\
    at_sign ∉ local /\ at_sign ∉ domain
}.

Lemma span_spec p l a b : span p l = (a, b) -> l = a ++ b /\ Forall (fun x => p x = true) a /\ (forall x, head b = Some x -> p x = false).
Proof.
  revert a b. induction l as [|x l IH]; cbn [span]; intros a b; [by intros [= <- <-]|]. destruct (p x) eqn:Hx.
  - destruct (span p l) as [a' b'] eqn:Hs. intros [= <- <-]. destruct (IH _ _ eq_refl) as (-> & Ha & Hb). split_and!; [done|by constructor|done].
  - intros [= <- <-]. split_and!; [done|constructor|]. cbn. by intros y [= <-].
Qed.

Lemma span_all p l b : Forall (fun x => p x = true) l -> (forall x, head b = Some x -> p x = false) -> span p (l ++ b) = (l, b).
Proof.
  intros Hl Hb. induction Hl as [|x l Hx Hl IH]; cbn [app span].
  - destruct b as [|y b]; [done|]. cbn [span]. by rewrite (Hb y eq_refl).
  - by rewrite Hx, IH.
Qed.

Lemma isAtext_dot r : isAtext r true = true <-> r = period \/ isAtext r false = true.
Proof. unfold isAtext. destruct (Z.eqb_spec r period) as [->|Hne]; [by split; [left|]|]. split; [by right|by intros [?|?]]. Qed.

Lemma isAtext_not_dot r : isAtext r false = true -> r <> period.
Proof. unfold isAtext. by destruct (Z.eqb_spec r period). Qed.

(** The checks of [consumeAtom] are those of a dot-atom. *)
Lemma dot_atom_cons x l : l <> [] -> dot_atom (x :: l) <->
  (x = period /\ False) \/ (isAtext x false = true /\ (dot_atom l \/ (head l = Some period /\ exists l', l = period :: l' /\ dot_atom l'))).
Proof.
  intros Hl. unfold dot_atom. cbn [strings_Split]. destruct (Z.eqb_spec x period) as [->|Hx].
  - rewrite Forall_cons. split; [by intros [[? _] _]|]. intros [[_ []]|[Ha _]]. by apply isAtext_not_dot in Ha.
  - destruct (strings_Split l period) as [|part parts] eqn:Hs; [by destruct l as [|y l]; cbn in Hs; repeat case_match|].
    rewrite !Forall_cons. destruct l as [|y l]; [done|]. cbn [strings_Split] in Hs. destruct (Z.eqb_spec y period) as [->|Hy].
    + injection Hs as <- <-. split.
      * intros [(_ & Hx' & _) Hr]. right. split; [done|]. right. split; [done|]. by exists l.
      * intros [[_ []]|[Ha [[[? _] _]|(_ & l' & Hl' & Hr)]]]; [done|]. injection Hl' as <-. done.
    + split.
      * intros [(_ & Hx' & Hp') Hr]. right. split; [done|]. left. split; [split; [|done]|done].
        destruct (strings_Split l period); by injection Hs as <- <-.
      * intros [[_ []]|[Ha [[[_ Hp] Hr]|[Hh _]]]]; [|cbn in Hh; congruence]. done.
Qed.

Lemma double_dot_cons x y l : double_dot (x :: y :: l) = (x =? period) && (y =? period) || double_dot (y :: l).
Proof. done. Qed.

Lemma dot_atom_iff l : dot_atom l <->
  l <> [] /\ Forall (fun r => isAtext r true = true) l /\ head l <> Some period /\ double_dot l = false /\ last l <> Some period.
Proof.
  induction l as [l IH] using (induction_ltof1 _ (@length Z)). unfold ltof in IH. destruct l as [|x l].
  { unfold dot_atom. cbn. rewrite Forall_singleton. split; [by intros [? _]|by intros [? _]]. }
  destruct l as [|y l].
  { unfold dot_atom. cbn [strings_Split last head double_dot]. destruct (Z.eqb_spec x period) as [->|Hx].
    - rewrite Forall_cons. split; [by intros [[? _] _]|by intros (_ & _ & ? & _)].
    - rewrite !Forall_singleton, isAtext_dot. split; [intros [_ Ha]; split_and!; [done|by right|congruence|done|congruence]|].
      intros (_ & [?|Ha] & _); [done|]. done. }
  rewrite dot_atom_cons by done. rewrite double_dot_cons, Forall_cons, isAtext_dot. cbn [head].
  pose proof (IH (y :: l) ltac:(cbn; lia)) as IHy. rewrite IHy. change (last (x :: y :: l)) with (last (y :: l)). cbn [head]. split.
  - intros [[_ []]|[Ha [(_ & Hf & Hh & Hd & Hl)|(Hh & l' & [= -> ->] & Hl')]]].
    + pose proof (isAtext_not_dot _ Ha). split_and!; [done|by right|done|congruence| |done]. rewrite Hd, (proj2 (Z.eqb_neq x period)) by done. done.
    + pose proof (isAtext_not_dot _ Ha). apply (IH l') in Hl' as (Hne & Hf & Hh' & Hd & Hl); [|cbn; lia]. split_and!; [done|by right| |congruence| |].
      * constructor; [by apply isAtext_dot; left|done].
      * destruct l' as [|z l']; [done|]. rewrite double_dot_cons, (proj2 (Z.eqb_neq x period)) by done. cbn [andb orb].
        rewrite (proj2 (Z.eqb_neq z period)) by (cbn in Hh'; congruence). by rewrite andb_false_r.
      * by destruct l'.
  - intros (_ & [Hx Hf] & Hh & Hd & Hl). destruct Hx as [->|Ha]; [done|]. right. split; [done|]. apply orb_false_iff in Hd as [Hxy Hd].
    destruct (decide (y = period)) as [->|Hy]; [right; split; [done|]; exists l; split; [done|]|left; split_and!; [done|done|congruence|done|done]].
    apply IH; [cbn; lia|]. inversion Hf as [|? ? _ Hf']; subst. destruct l as [|z l]; [done|]. rewrite double_dot_cons in Hd. apply orb_false_iff in Hd as [Hz Hd].
    rewrite Z.eqb_refl in Hz. cbn [andb] in Hz. split_and!; [done|done| |done|done]. apply Z.eqb_neq in Hz. cbn. congruence.
Qed.

Lemma consumeAtom_Some l a rest : consumeAtom l = Some (a, rest) <->
  l = a ++ rest /\ dot_atom a /\ (forall x, head rest = Some x -> isAtext x true = false).
Proof.
  unfold consumeAtom. rewrite dot_atom_iff. split.
  - destruct (span _ l) as [atom rest'] eqn:Hs. apply span_spec in Hs as (-> & Ha & Hr). destruct (_ || _) eqn:Hb; [done|]. intros [= <- <-].
    go_bool. done.
  - intros (-> & (Hne & Ha & Hh & Hd & Hl) & Hr). rewrite span_all by done. rewrite !bool_decide_eq_false_2, Hd by done. done.
Qed.

Lemma consumeDomainLiteral_all l a : consumeDomainLiteral l = Some (a, []) <-> a = l /\ address_literal l.
Proof.
  unfold consumeDomainLiteral, address_literal. split.
  - destruct l as [|x l]; [done|]. destruct (span isDtext l) as [dtext rest] eqn:Hs. apply span_spec in Hs as (-> & Hd & _). destruct rest as [|y rest]; [done|].
    destruct (_ && _) eqn:Hb; [|done]. intros [= <- ->]. go_bool. subst. split; [done|]. by exists dtext.
  - intros [-> (ip & -> & Hd & Hp)]. rewrite span_all; [|done|by intros x [= <-]]. rewrite !Z.eqb_refl, Hp. done.
Qed.

Lemma dot_atom_head l : dot_atom l -> head l <> Some open_bracket.
Proof. rewrite dot_atom_iff. intros (_ & Hf & _). destruct Hf as [|x l Hx _]; [done|]. intros [= ->]. by vm_compute in Hx. Qed.

Lemma ParseAddress_Some l a : ParseAddress l = Some a <->
  a = l /\ exists local domain, l = local ++ at_sign :: domain /\ dot_atom local /\ (dot_atom domain \/ address_literal domain).
Proof.
  unfold ParseAddress, consumeAddrSpec. split.
  - destruct (consumeAtom l) as [[local rest]|] eqn:Hc; cbn [mbind option_bind]; [|done]. apply consumeAtom_Some in Hc as (-> & Hlocal & _).
    destruct rest as [|x rest]; [done|]. destruct (Z.eqb_spec x at_sign) as [->|]; cbn [negb]; [|done]. intros Hp.
    assert (exists domain, a = local ++ at_sign :: domain /\ rest = domain /\ (dot_atom domain \/ address_literal domain)) as (domain & -> & -> & Hd); [|split; [done|]; by exists local, domain].
    case_bool_decide.
    + destruct (consumeDomainLiteral rest) as [[domain rest']|] eqn:Hd; cbn [mbind option_bind] in Hp; [|done]. case_bool_decide; [|done]. subst rest'. injection Hp as <-.
      apply consumeDomainLiteral_all in Hd as [-> Hd]. exists rest. auto.
    + destruct (consumeAtom rest) as [[domain rest']|] eqn:Hd; cbn [mbind option_bind] in Hp; [|done]. case_bool_decide; [|done]. subst rest'. injection Hp as <-.
      apply consumeAtom_Some in Hd as (-> & Hd & _). rewrite app_nil_r. exists domain. auto.
  - intros [-> (local & domain & -> & Hl & Hd)]. rewrite (proj2 (consumeAtom_Some _ local (at_sign :: domain))) by (split_and!; [done|done|by intros x [= <-]]).
    cbn [mbind option_bind]. rewrite Z.eqb_refl. cbn [negb]. destruct Hd as [Hd|Hd].
    + rewrite bool_decide_eq_false_2 by (by apply dot_atom_head). rewrite (proj2 (consumeAtom_Some domain domain [])) by (split_and!; [by rewrite app_nil_r|done|done]). done.
    + rewrite bool_decide_eq_true_2 by (by destruct Hd as (ip & -> & _)). by rewrite (proj2 (consumeDomainLiteral_all domain domain)).
Qed.

Section emails.
Context `{UnicodeTables}.

Lemma email_chars e : existsb email_refuses (runes e) = false <-> Forall (fun r => email_refuses r = false) e.
Proof.
  assert (forall r, email_refuses r = false -> 0 <= r < 128) as Hr by (intros r Hr; unfold email_refuses in Hr; go_bool; lia).
  assert (forall l, existsb email_refuses l = false <-> Forall (fun r => email_refuses r = false) l) as Hl.
  { induction l as [|x l IH]; cbn [existsb]; [by split; [constructor|]|]. rewrite Forall_cons, orb_false_iff. by rewrite IH. }
  rewrite Hl. split; intros Hf.
  - rewrite <- runes_low; [done|]. eapply Forall_impl; [exact Hf|]. intros x Hx%Hr. lia.
  - rewrite runes_ascii; [done|]. eapply Forall_impl; [exact Hf|]. by intros x Hx%Hr.
Qed.

Lemma lower_chars v : Forall (fun x => 0 <= x < 128) (strings_ToLower v) -> Forall (fun x => between 65 x 90 = false) (strings_ToLower v).
Proof.
  rewrite !Forall_forall. intros Ha x Hx. specialize (Ha x Hx). revert Hx. unfold strings_ToLower. rewrite list_elem_of_In, in_concat. intros (y & Hy & Hx).
  apply list_elem_of_In, list_elem_of_fmap in Hy as (r & -> & _). apply list_elem_of_In in Hx.
  destruct (decide (0 <= ToLower r < 128)) as [Hr|Hr]; [|apply encode_rune_high in Hx; [lia|done]].
  rewrite encode_rune_ascii in Hx by done. apply list_elem_of_singleton in Hx as ->. apply ToLower_not_upper.
Qed.

Lemma count_one local domain : strings_Count (local ++ at_sign :: domain) at_sign = 1 <-> at_sign ∉ local /\ at_sign ∉ domain.
Proof.
  unfold strings_Count. rewrite filter_app, filter_cons_True, len_app, len_cons by done.
  assert (forall l : bytes, 0 <= len (filter (fun c => c = at_sign) l) /\ (len (filter (fun c => c = at_sign) l) = 0 <-> at_sign ∉ l)) as Hc.
  { intros l. split; [unfold len; lia|]. induction l as [|x l IH]; [by split; [intros _ ?%elem_of_nil|]|]. rewrite not_elem_of_cons, <- IH.
    destruct (decide (x = at_sign)) as [->|Hx].
    - rewrite filter_cons_True, len_cons by done. split; [unfold len; lia|]. by intros [? _].
    - rewrite filter_cons_False by done. split; [|by intros [_ ?]]. by split; [congruence|]. }
  destruct (Hc local) as [H1 <-], (Hc domain) as [H2 <-]. lia.
Qed.

Lemma Email_Ok value e : Email value = Ok e <-> e = strings_ToLower (TrimSpace value) /\ email_wf e.
Proof.
  unfold Email. cbv zeta. set (v := strings_ToLower (TrimSpace value)). rewrite guard_Ok, !orb_false_iff, negb_false_iff, email_chars, !Z.ltb_ge, Z.eqb_eq.
  assert (forall r, email_refuses r = false -> 0 <= r < 128) as Hr by (intros r Hr; unfold email_refuses in Hr; go_bool; lia). split.
  - intros [[[[H1 H2] Hn] Hc] Hp]. destruct (ParseAddress v) as [a|] eqn:Ha; [|done]. apply ParseAddress_Some in Ha as [-> Hparts].
    rewrite bool_decide_eq_true_2 in Hp by done. cbn in Hp. rewrite Ok_eq in Hp. subst e. split; [done|]. split; [lia| |].
    + apply Forall_and. split; [done|]. apply lower_chars. eapply Forall_impl; [exact Hc|]. intros x Hx. by apply Hr.
    + destruct Hparts as (local & domain & Hv & Hl & Hd). exists local, domain. rewrite Hv in Hn. apply count_one in Hn as [? ?]. done.
  - intros [-> [Hlen Hc (local & domain & Hv & Hl & Hd & Hn)]]. fold v in Hlen, Hc, Hv. split.
    + split_and!; [lia|lia| |by apply Forall_and in Hc as [? _]]. rewrite Hv. by apply count_one.
    + rewrite (proj2 (ParseAddress_Some v v)); [by rewrite bool_decide_eq_true_2|]. split; [done|]. by exists local, domain.
Qed.

(** [Email] accepts exactly the addresses whose normal form is well formed (one
    dot-atom, an at sign, a domain or an address literal, in lower case), and a
    normal form is its own normal form. *)
Theorem emails_have_one_normal_form (value e : bytes) :
  (Email value = Ok e <-> e = strings_ToLower (TrimSpace value) /\ email_wf e) /\ (email_wf e -> Email e = Ok e).
Proof.
  split; [apply Email_Ok|]. intros Hwf. apply Email_Ok. split; [|done]. destruct Hwf as [_ Hc _].
  assert (forall r, email_refuses r = false -> 33 <= r <= 126) as Hr by (intros r Hr; unfold email_refuses in Hr; go_bool; lia).
  rewrite TrimSpace_visible; [rewrite ToLower_lower; [done|]|]; eapply Forall_impl; try exact Hc; intros x [Hx Hu]; apply Hr in Hx; [split; [lia|done]|].
  unfold visible. lia.
Qed.
End emails.
