(* ===== verification/AuthStore.v ===== *)
(** * Auth: the stores of sessions

    [services/auth/internal/adapter/out/postgressession/repository.go] over the
    tables of [migrations/000002_sessions.up.sql], the statements on sessions of
    [adapter/out/postgressecurity/sessions.go], and
    [adapter/out/redissession/store.go].  A transaction locks the row of its session
    first and is executed as one call.  The text of a time in Redis is left out: an
    entry holds the time itself. *)

From S2P Require Import Prelude GoStrings Sha256 GoEncoding Effects AuthToken.
Local Open Scope Z_scope.

(** ** Tables *)

(** A row of [auth.sessions]. *)
Record session_row := mkSessionRow {
  sr_record : Record_;
  refresh_digest : digest
}.

(** A row of [auth.session_revocation_outbox]. *)
Record revocation := mkRevocation {
  rv_session : session_id;
  rv_subject : bytes;
  rv_version : Z;
  rv_occurred_at : Z;
  rv_reason : string
}.

(** The hash of a key in Redis: version and digest are texts. *)
Record cache_entry := mkCacheEntry {
  ce_version : bytes;
  ce_digest : bytes;
  ce_expires_at : Z
}.
#[export] Instance cache_entry_eq_dec : EqDecision cache_entry.
Proof. solve_decision. Defined.

Record auth_db := mkAuthDb {
  sessions : gmap session_id session_row;
  consumed : list (session_id * digest);
  outbox : list revocation;
  cache : gmap session_id cache_entry
}.

Definition MaxInt64 : Z := 2 ^ 63 - 1.

(** The CHECK constraints of [auth.sessions] and the range of [bigint]. *)
Definition check_session (r : session_row) : bool :=
  let v := sr_record r in
  (len (rec_ID v) =? 16) && (0 <? Version v) && (Version v <=? MaxInt64) && (len (refresh_digest r) =? 32) &&
  (CreatedAt v <? AccessExpiresAt v) && (AccessExpiresAt v <=? ExpiresAt v) &&
  (CreatedAt v <? RefreshExpiresAt v) && (RefreshExpiresAt v <=? ExpiresAt v).

(** *** Statements *)

Definition set_sessions (d : auth_db) (s : gmap session_id session_row) : auth_db := mkAuthDb s (consumed d) (outbox d) (cache d).

Definition stored_record (v : Record_) : Record_ :=
  mkRecord (rec_ID v) (SubjectID v) (Version v) (pg_time (CreatedAt v)) (pg_time (AccessExpiresAt v)) (pg_time (RefreshExpiresAt v))
    (pg_time (ExpiresAt v)) (pg_time <$> RevokedAt v).

(** [INSERT INTO auth.sessions]; [None] is an error *)
Definition sql_create (d : auth_db) (v : Record_) (dg : digest) : auth_db * option unit :=
  let r := mkSessionRow (stored_record v) dg in
  if bool_decide (is_Some (sessions d !! rec_ID v)) || negb (check_session r) then (d, None)
  else (set_sessions d (<[rec_ID v := r]> (sessions d)), Some tt).

(** [revoked_at] of the rows that satisfy [p] and are not revoked, and one event each *)
Definition revoke_row (now : Z) (p : session_row -> bool) (r : session_row) : session_row :=
  let v := sr_record r in
  if bool_decide (RevokedAt v = None) && p r
  then mkSessionRow (mkRecord (rec_ID v) (SubjectID v) (Version v) (CreatedAt v) (AccessExpiresAt v) (RefreshExpiresAt v) (ExpiresAt v)
    (Some (pg_time now))) (refresh_digest r)
  else r.
Definition revocation_of (now : Z) (reason : string) (r : session_row) : revocation :=
  let v := sr_record r in mkRevocation (rec_ID v) (SubjectID v) (Version v) (pg_time now) reason.
Definition sql_revoke (d : auth_db) (now : Z) (reason : string) (p : session_row -> bool) : auth_db :=
  let revoked := List.filter (fun r => bool_decide (RevokedAt (sr_record r) = None) && p r) (map_to_list (sessions d)).*2 in
  mkAuthDb (revoke_row now p <$> sessions d) (consumed d) (outbox d ++ (revocation_of now reason <$> revoked)) (cache d).

Definition has_id (id : session_id) (r : session_row) : bool := bool_decide (rec_ID (sr_record r) = id).
Definition has_subject (subject : bytes) (r : session_row) : bool := bool_decide (SubjectID (sr_record r) = subject).

(** ** Rotation *)

(** [scanRecord] and [validRecord] *)
Definition validRecord (v : Record_) : bool :=
  negb (bool_decide (rec_ID v = zero_id)) && negb (bool_decide (SubjectID v = zero_id)) && (0 <? Version v) &&
  negb (CreatedAt v =? -62135596800000000000) && (CreatedAt v <? AccessExpiresAt v) && (CreatedAt v <? RefreshExpiresAt v) &&
  negb (ExpiresAt v <? AccessExpiresAt v) && negb (ExpiresAt v <? RefreshExpiresAt v).
Definition scanRecord (r : session_row) : option Record_ :=
  let v := sr_record r in
  if negb (len (rec_ID v) =? 16) || negb (len (SubjectID v) =? 16) then None else
  if validRecord v then Some v else None.

Definition minTime (a b : Z) : Z := if a <? b then a else b.

(** The record that a rotation stores and returns. *)
Definition rotated (v : Record_) (now accessTTL idleTTL : Z) : Record_ :=
  mkRecord (rec_ID v) (SubjectID v) (Version v + 1) (CreatedAt v) (minTime (now + accessTTL) (ExpiresAt v))
    (minTime (now + idleTTL) (ExpiresAt v)) (ExpiresAt v) (RevokedAt v).

(** What the transaction of [Rotate] yields. *)
Inductive rotation :=
| Rotated (v : Record_)
| Refused (e : session_error)
(** the transaction failed *)
| TxFailed.

Definition was_consumed (d : auth_db) (id : session_id) (dg : digest) : bool := bool_decide ((id, dg) ∈ consumed d).

Definition tx_rotate (d : auth_db) (id : session_id) (previous next : digest) (now accessTTL idleTTL : Z) : auth_db * rotation :=
  match sessions d !! id with
  | None => (d, Refused ErrInvalidSession)
  | Some r =>
      match scanRecord r with
      | None => (d, TxFailed)
      | Some v =>
          if negb (Active v now) then (d, Refused ErrInvalidSession) else
          if negb (bool_decide (refresh_digest r = previous)) then
            if was_consumed d id previous then (sql_revoke d now "refresh_reuse" (has_id id), Refused ErrRefreshReuse)
            else (d, Refused ErrInvalidSession)
          else
          if negb (now <? RefreshExpiresAt v) || (Version v =? MaxInt64) then (d, Refused ErrInvalidSession) else
          if was_consumed d id next then (d, Refused ErrInvalidSession) else
          (* the primary key of [consumed_refresh_digests] *)
          if was_consumed d id previous then (d, TxFailed) else
          let v' := rotated v now accessTTL idleTTL in
          let r' := mkSessionRow (stored_record v') next in
          if check_session r' then
            (mkAuthDb (<[id := r']> (sessions d)) (consumed d ++ [(id, previous)]) (outbox d) (cache d), Rotated v')
          else (d, TxFailed)
      end
  end.

(** ** Redis *)

(** [putScript]; the comparison of decimal texts is by length, then by byte *)
Definition put_script (c : gmap session_id cache_entry) (id : session_id) (e : cache_entry) : gmap session_id cache_entry * Z :=
  match c !! id with
  | None => (<[id := e]> c, 1)
  | Some old =>
      if shortlex_before (ce_version e) (ce_version old) then (c, 0)
      else if bool_decide (ce_version old = ce_version e) then (c, if bool_decide (old = e) then 1 else 0)
      else (<[id := e]> c, 1)
  end.

(** ** Calls *)

Inductive found := Found (r : session_row) | NoSession | FindFailed.

Inductive call :=
(* PostgreSQL *)
| DbCreate (v : Record_) (dg : digest)
| DbFind (id : session_id)
| DbRotate (id : session_id) (previous next : digest) (now accessTTL idleTTL : Z)
| DbRevoke (id : session_id) (now : Z) (reason : string)
| DbRevokeAll (subject : bytes) (now : Z) (reason : string)
| DbRevokeOf (id : session_id) (subject : bytes) (now : Z)
(* Redis *)
| CachePut (id : session_id) (e : cache_entry)
| CacheGet (id : session_id)
(** a key expires or is evicted *)
| CacheDrop (id : session_id)
(* process *)
| ClockNow
| RandomRead (n : nat)
| IssueAssertion (v : Record_) (audience : bytes) (expiresAt : Z).

Definition reply (c : call) : Type :=
  match c with
  | DbCreate _ _ | DbRevoke _ _ _ | DbRevokeAll _ _ _ | DbRevokeOf _ _ _ => option unit
  | DbFind _ => found
  | DbRotate _ _ _ _ _ _ => rotation
  | CachePut _ _ => option Z
  | CacheGet _ => option (option cache_entry)
  | CacheDrop _ => unit
  | ClockNow => Z
  | RandomRead _ => option bytes
  | IssueAssertion _ _ _ => result session_error bytes
  end.

Abbreviation prog := (program reply).
Abbreviation trace := (trace_of reply).
Abbreviation perform := (Effects.perform (reply := reply)).

(** ** The functions of the stores *)

Definition unavailable (r : option unit) : result session_error unit := match r with Some _ => Ok tt | None => Err ErrUnavailable end.

Definition store_Create (v : Record_) (dg : digest) : prog (result session_error unit) :=
  refuse (negb (validRecord v) || negb (bool_decide (RevokedAt v = None)) || negb (Version v =? 1)) ErrInvalidSession $
  r ← perform (DbCreate v dg); Ret (unavailable r).

Definition store_Find (id : session_id) : prog (result session_error Record_) :=
  r ← perform (DbFind id);
  Ret (match r with
       | Found row => match scanRecord row with Some v => Ok v | None => Err ErrUnavailable end
       | NoSession => Err ErrInvalidSession
       | FindFailed => Err ErrUnavailable
       end).

Definition store_Rotate (id : session_id) (previous next : digest) (now accessTTL idleTTL : Z) : prog (result session_error Record_) :=
  refuse (bool_decide (id = zero_id) || (accessTTL <=? 0) || (idleTTL <=? 0) || bool_decide (previous = next)) ErrInvalidSession $
  r ← perform (DbRotate id previous next now accessTTL idleTTL);
  Ret (match r with
       | Rotated v => Ok v
       | Refused e => Err e
       | TxFailed => Err ErrUnavailable
       end).

Definition validReason (reason : string) : bool :=
  bool_decide (reason ∈ ["logout"; "logout_all"; "refresh_reuse"; "credential_change"; "administrative"; "issuance_failed"]%string).

Definition store_Revoke (id : session_id) (now : Z) (reason : string) : prog (result session_error unit) :=
  refuse (negb (validReason reason)) ErrInvalidSession $
  r ← perform (DbRevoke id now reason); Ret (unavailable r).

Definition store_RevokeAll (subject : bytes) (now : Z) (reason : string) : prog (result session_error unit) :=
  refuse (negb (validReason reason) || bool_decide (subject = zero_id)) ErrInvalidSession $
  r ← perform (DbRevokeAll subject now reason); Ret (unavailable r).

(** [redissession.Store.Put] *)
Definition access_Put (v : Record_) (dg : digest) (now : Z) : prog (result session_error unit) :=
  refuse (negb (Active v now) || negb (now <? AccessExpiresAt v) || (ExpiresAt v <? AccessExpiresAt v)) ErrInvalidSession $
  r ← perform (CachePut (rec_ID v) (mkCacheEntry (FormatInt (Version v)) (hex_EncodeToString dg) (AccessExpiresAt v)));
  Ret (match r with
       | None => Err ErrUnavailable
       | Some n => if negb (n =? 1) then Err ErrInvalidSession else Ok tt
       end).

(** The checks of [Get] on the fields of an entry. *)
Definition decode_entry (e : cache_entry) : result session_error Access :=
  match ParseInt (ce_version e) with
  | None => Err ErrUnavailable
  | Some version =>
      reject_if (version <=? 0) ErrUnavailable;;
      match hex_DecodeString (ce_digest e) with
      | None => Err ErrUnavailable
      | Some dg =>
          reject_if (negb (len dg =? 32)) ErrUnavailable;;
          reject_if (ce_expires_at e =? -62135596800000000000) ErrUnavailable;;
          Ok (mkAccess dg version (ce_expires_at e))
      end
  end.

(** [redissession.Store.Get] *)
Definition access_Get (id : session_id) : prog (result session_error Access) :=
  refuse (bool_decide (id = zero_id)) ErrInvalidSession $
  r ← perform (CacheGet id);
  Ret (match r with
       | None => Err ErrUnavailable
       | Some None => Err ErrInvalidSession
       | Some (Some e) => decode_entry e
       end).
