(* ===== verification/AuthSession.v ===== *)
(** * Auth: the session service

    [services/auth/internal/application/session/service.go] as programs over the
    calls of [AuthStore], and any number of its requests over one database and one
    cache, together with the other writers of sessions: logins and revocations of
    the security service, and the expiry of keys. *)

From S2P Require Import Prelude GoStrings Sha256 GoEncoding Effects AuthToken AuthStore.
Local Open Scope Z_scope.

(** ** Configuration *)

(** The lifetimes; [Clock] and [Random] are calls. *)
Record Config := mkConfig {
  AccessTTL : Z;
  IdleTTL : Z;
  AbsoluteTTL : Z;
  AssertionTTL : Z
}.

(** The checks of [New]; the dependencies are present. *)
Definition New (c : Config) : bool :=
  forallb (fun ttl => negb ((ttl <? Second) || negb (ttl `mod` Second =? 0))) [AccessTTL c; IdleTTL c; AbsoluteTTL c; AssertionTTL c] &&
  negb ((5 * 60 * Second <? AssertionTTL c) || (AccessTTL c <? AssertionTTL c) || (IdleTTL c <? AccessTTL c) ||
        (AbsoluteTTL c <? IdleTTL c) || (90 * 24 * 3600 * Second <? AbsoluteTTL c)).

(** ** The service *)

Record Tokens := mkTokens {
  tk_Record : Record_;
  tk_Access : Token;
  tk_Refresh : Token
}.

Definition safeError {A} (r : result session_error A) : result session_error A :=
  match r with
  | Err (ErrRefreshReuse | ErrInvalidSession | ErrCanceled | ErrDeadlineExceeded) => r
  | Err _ => Err ErrUnavailable
  | _ => r
  end.

(** [service.now]: the clock in whole seconds *)
Definition service_now : prog Z := t ← perform ClockNow; Ret (t / Second * Second).

Definition mint (v : Record_) : prog (result session_error Tokens) :=
  secrets ← perform (RandomRead 64);
  Ret (match secrets with
       | None => Err ErrUnavailable
       | Some secrets =>
           match NewToken (rec_ID v) (take 32 secrets), NewToken (rec_ID v) (drop 32 secrets) with
           | Ok access, Ok refresh =>
               if bool_decide (token_Digest access = token_Digest refresh) then Err ErrUnavailable else Ok (mkTokens v access refresh)
           | _, _ => Err ErrUnavailable
           end
       end).

(** Two records are the same session at the same version. *)
Definition same_prepared (record prepared : Record_) : bool :=
  bool_decide (rec_ID record = rec_ID prepared) && bool_decide (SubjectID record = SubjectID prepared) &&
  (Version record =? Version prepared) && (CreatedAt record =? CreatedAt prepared) &&
  (AccessExpiresAt record =? AccessExpiresAt prepared) && (RefreshExpiresAt record =? RefreshExpiresAt prepared) &&
  (ExpiresAt record =? ExpiresAt prepared).

Definition Activate (tokens : Tokens) : prog (result session_error Tokens) :=
  found ← store_Find (rec_ID (tk_Record tokens));
  match found with
  | Ok record =>
      if negb (same_prepared record (tk_Record tokens)) then Ret (Err ErrInvalidSession) else
      now ← service_now;
      refuse (negb (Active record now)) ErrInvalidSession $
      now ← service_now;
      put ← access_Put record (token_Digest (tk_Access tokens)) now;
      match put with
      | Ok _ => Ret (Ok tokens)
      | _ =>
          now ← service_now;
          _ ← store_Revoke (rec_ID record) now "issuance_failed";
          Ret (Err ErrUnavailable)
      end
  | _ => Ret (Err ErrInvalidSession)
  end.

(** [service.active] *)
Definition active (id : session_id) : prog (result session_error (Record_ * Access)) :=
  found ← store_Find id;
  try (Ret (safeError found)) (fun record =>
  got ← access_Get id;
  try (Ret (safeError got)) (fun access =>
  now ← service_now;
  refuse (negb (Active record now) || negb (now <? AccessExpiresAt record) || negb (now <? acc_ExpiresAt access) ||
          negb (acc_Version access =? Version record) || negb (acc_ExpiresAt access =? AccessExpiresAt record)) ErrInvalidSession $
  Ret (Ok (record, access)))).

(** [domain.ParseToken], with every error mapped to [ErrInvalidSession] *)
Definition parse_token {B} (value : bytes) (f : Token -> prog (result session_error B)) : prog (result session_error B) :=
  match ParseToken value with
  | Ok token => f token
  | _ => Ret (Err ErrInvalidSession)
  end.

Definition Authenticate (value : bytes) : prog (result session_error Record_) :=
  parse_token value $ fun token =>
  try (active (tok_id token)) (fun found =>
  refuse (negb (bool_decide (token_Digest token = acc_Digest found.2))) ErrInvalidSession $
  Ret (Ok found.1)).

Definition service_Revoke (value : bytes) : prog (result session_error unit) :=
  try (Authenticate value) (fun record =>
  now ← service_now;
  r ← store_Revoke (rec_ID record) now "logout"; Ret (safeError r)).

Definition service_RevokeAll (value : bytes) : prog (result session_error unit) :=
  try (Authenticate value) (fun record =>
  now ← service_now;
  r ← store_RevokeAll (SubjectID record) now "logout_all"; Ret (safeError r)).

Definition service_Check (id : session_id) (subject : bytes) (authTime : Z) : prog (result session_error unit) :=
  try (active id) (fun found =>
  refuse (negb (bool_decide (SubjectID found.1 = subject)) || negb (CreatedAt found.1 =? authTime)) ErrInvalidSession $
  Ret (Ok tt)).

Section configured.
Context (config : Config).

Definition Prepare (subject : bytes) : prog (result session_error Tokens) :=
  refuse (bool_decide (subject = zero_id)) ErrInvalidSession $
  id ← perform (RandomRead 16);
  match id with
  | None => Ret (Err ErrUnavailable)
  | Some id =>
      refuse (bool_decide (id = zero_id)) ErrUnavailable $
      now ← service_now;
      mint (mkRecord id subject 1 now (now + AccessTTL config) (now + IdleTTL config) (now + AbsoluteTTL config) None)
  end.

Definition service_Start (subject : bytes) : prog (result session_error Tokens) :=
  refuse (bool_decide (subject = zero_id)) ErrInvalidSession $
  try (Prepare subject) (fun tokens =>
  created ← store_Create (tk_Record tokens) (token_Digest (tk_Refresh tokens));
  try (Ret (safeError created)) (fun _ => Activate tokens)).

(** A login of the security service: the session is created in its transaction. *)
Definition login (subject : bytes) : prog (result session_error Tokens) :=
  try (Prepare subject) (fun tokens =>
  created ← perform (DbCreate (tk_Record tokens) (token_Digest (tk_Refresh tokens)));
  try (Ret (unavailable created)) (fun _ => Activate tokens)).

Definition Refresh (value : bytes) : prog (result session_error Tokens) :=
  parse_token value $ fun previous =>
  try (mint (mkRecord (tok_id previous) [] 0 0 0 0 0 None)) (fun tokens =>
  now ← service_now;
  r ← store_Rotate (tok_id previous) (token_Digest previous) (token_Digest (tk_Refresh tokens)) now (AccessTTL config) (IdleTTL config);
  try (Ret (safeError r)) (fun record =>
  refuse (negb (Active record now) || negb (now <? AccessExpiresAt record)) ErrInvalidSession $
  put ← access_Put record (token_Digest (tk_Access tokens)) now;
  Ret (match put with
       | Ok _ => Ok (mkTokens record (tk_Access tokens) (tk_Refresh tokens))
       | _ => Err ErrUnavailable
       end))).

(** The expiry of an assertion, [None] if less than a second is left. *)
Definition assertion_expiry (record : Record_) (now : Z) : option Z :=
  let expiry := now + AssertionTTL config in
  let expiry := if AccessExpiresAt record <? expiry then AccessExpiresAt record else expiry in
  let expiry := if ExpiresAt record <? expiry then ExpiresAt record else expiry in
  let ttl := Z.quot (expiry - now) Second * Second in
  if ttl <? Second then None else Some (now + ttl).

Definition Exchange (value audience : bytes) : prog (result session_error (bytes * Z)) :=
  try (Authenticate value) (fun record =>
  now ← service_now;
  match assertion_expiry record now with
  | None => Ret (Err ErrInvalidSession)
  | Some expiresAt =>
      token ← perform (IssueAssertion record audience expiresAt);
      Ret (match safeError token with Ok token => Ok (token, expiresAt) | Err e => Err e | Panic => Panic end)
  end).

(** ** Requests *)

Inductive request :=
| ReqStart (subject : bytes)
| ReqLogin (subject : bytes)
| ReqRefresh (value : bytes)
| ReqAuthenticate (value : bytes)
| ReqRevoke (value : bytes)
| ReqRevokeAll (value : bytes)
| ReqExchange (value audience : bytes)
| ReqCheck (id : session_id) (subject : bytes) (authTime : Z)
(** the security service, after a change of credentials or by an administrator *)
| ReqRevokeSessions (subject : bytes)
| ReqRevokeSession (id : session_id) (subject : bytes)
(** a key of the cache expires *)
| ReqExpire (id : session_id).

Inductive answer :=
| AnsTokens (r : result session_error Tokens)
| AnsRecord (r : result session_error Record_)
| AnsAssertion (r : result session_error (bytes * Z))
| AnsUnit (r : result session_error unit).

Definition program_of (q : request) : prog answer :=
  match q with
  | ReqStart subject => r ← service_Start subject; Ret (AnsTokens r)
  | ReqLogin subject => r ← login subject; Ret (AnsTokens r)
  | ReqRefresh value => r ← Refresh value; Ret (AnsTokens r)
  | ReqAuthenticate value => r ← Authenticate value; Ret (AnsRecord r)
  | ReqRevoke value => r ← service_Revoke value; Ret (AnsUnit r)
  | ReqRevokeAll value => r ← service_RevokeAll value; Ret (AnsUnit r)
  | ReqExchange value audience => r ← Exchange value audience; Ret (AnsAssertion r)
  | ReqCheck id subject authTime => r ← service_Check id subject authTime; Ret (AnsUnit r)
  | ReqRevokeSessions subject => now ← service_now; r ← perform (DbRevokeAll subject now "credential_change"); Ret (AnsUnit (unavailable r))
  | ReqRevokeSession id subject => now ← service_now; r ← perform (DbRevokeOf id subject now); Ret (AnsUnit (unavailable r))
  | ReqExpire id => _ ← perform (CacheDrop id); Ret (AnsUnit (Ok tt))
  end.
End configured.

(** ** The shared state *)

Record world := mkWorld {
  w_fault : fault;
  (** the clock, random bytes and the issuer of assertions *)
  w_clock : Z;
  w_random : option bytes;
  w_assertion : result session_error bytes
}.

Definition set_cache (d : auth_db) (c : gmap session_id cache_entry) : auth_db := mkAuthDb (sessions d) (consumed d) (outbox d) c.

Definition respond (w : world) (d : auth_db) (c : call) : auth_db * reply c :=
  match c return auth_db * reply c with
  | DbCreate v dg => faulty None (w_fault w) d (sql_create d v dg)
  | DbFind id => faulty FindFailed (w_fault w) d (d, match sessions d !! id with Some r => Found r | None => NoSession end)
  | DbRotate id previous next now accessTTL idleTTL =>
      faulty TxFailed (w_fault w) d (tx_rotate d id previous next now accessTTL idleTTL)
  | DbRevoke id now reason => faulty None (w_fault w) d (sql_revoke d now reason (has_id id), Some tt)
  | DbRevokeAll subject now reason => faulty None (w_fault w) d (sql_revoke d now reason (has_subject subject), Some tt)
  | DbRevokeOf id subject now =>
      faulty None (w_fault w) d (sql_revoke d now "administrative" (fun r => has_id id r && has_subject subject r), Some tt)
  | CachePut id e =>
      faulty None (w_fault w) d (set_cache d (put_script (cache d) id e).1, Some (put_script (cache d) id e).2)
  | CacheGet id => faulty None (w_fault w) d (d, Some (cache d !! id))
  | CacheDrop id => (set_cache d (delete id (cache d)), tt)
  | ClockNow => (d, w_clock w)
  (** [io.ReadFull] fills the buffer or fails *)
  | RandomRead n =>
      (d, match w_random w with
          | Some b => if (length b =? n)%nat && forallb (fun x => (0 <=? x) && (x <? 256)) b then Some b else None
          | None => None
          end)
  | IssueAssertion _ _ _ => (d, w_assertion w)
  end.

Abbreviation auth_system := (system reply request answer auth_db).
Abbreviation auth_event := (event request world).

Definition auth_start : auth_system := mkSystem (mkAuthDb ∅ [] [] ∅) [].
Definition auth_run (config : Config) : auth_system -> list auth_event -> option auth_system := sys_run respond (program_of config).
