(* ===== verification/AuthGuards.v ===== *)
(** * Auth: what the requests do

    The guards of the calls that the programs of [AuthSession] make, and what their
    answers promise, for each request on its own. *)

From S2P Require Import Prelude GoStrings Sha256 GoEncoding Effects AuthToken AuthStore AuthSession.
Local Open Scope Z_scope.

Abbreviation did t c r := (@existT call reply c r ∈ t).

(** ** Guards *)

(** The program minted a token of the session from fresh random bytes. *)
Definition minted (t : trace) (part : bytes -> bytes) (id : session_id) (token : Token) : Prop :=
  exists secrets, did t (RandomRead 64) (Some secrets) /\ NewToken id (part secrets) = Ok token.
Abbreviation access_part := (take 32).
Abbreviation refresh_part := (drop 32).

(** The entry of an access token that the program minted. *)
Definition access_entry (v : Record_) (token : Token) : cache_entry :=
  mkCacheEntry (FormatInt (Version v)) (hex_EncodeToString (token_Digest token)) (AccessExpiresAt v).

(** The clock that the program read, in whole seconds. *)
Definition read_clock (t : trace) (now : Z) : Prop := exists clock, did t ClockNow clock /\ now = clock / Second * Second.

(** The program found the session and the access state of the token, and both
    were alive. *)
Definition checked (t : trace) (id : session_id) (v : Record_) (e : cache_entry) (access : Access) : Prop :=
  exists row now, did t (DbFind id) (Found row) /\ scanRecord row = Some v /\ rec_ID v = id /\ did t (CacheGet id) (Some (Some e)) /\ decode_entry e = Ok access /\
    read_clock t now /\ Active v now = true /\ now < AccessExpiresAt v /\ acc_Version access = Version v /\ acc_ExpiresAt access = AccessExpiresAt v.

Definition authenticated (t : trace) (value : bytes) (v : Record_) : Prop :=
  exists token e access, ParseToken value = Ok token /\ checked t (tok_id token) v e access /\ acc_Digest access = token_Digest token.

Section guards.
Context (config : Config).

Definition call_ok (t : trace) (c : call) : Prop :=
  match c with
  | DbCreate v dg => Version v = 1 /\ RevokedAt v = None /\ SubjectID v <> zero_id
  | DbRotate id previous next now accessTTL idleTTL => previous <> next /\ 0 < accessTTL /\ 0 < idleTTL
  | DbRevoke id _ reason => validReason reason = true /\ exists row, did t (DbFind id) (Found row)
  | DbRevokeAll _ _ reason => validReason reason = true
  | CachePut id e => exists v token, rec_ID v = id /\ 0 < Version v < 2 ^ 63 /\ minted t access_part id token /\ e = access_entry v token
  | IssueAssertion v audience expiresAt =>
      exists now, read_clock t now /\ now + Second <= expiresAt /\ expiresAt <= now + AssertionTTL config /\
        expiresAt <= AccessExpiresAt v /\ expiresAt <= ExpiresAt v
  | _ => True
  end.

(** Legal replies. *)
Definition legal (c : call) : reply c -> Prop :=
  match c return reply c -> Prop with
  | DbFind id => fun r => match r with Found row => rec_ID (sr_record row) = id /\ check_session row = true | _ => True end
  | DbRotate id _ _ _ _ _ => fun r => match r with Rotated v => rec_ID v = id /\ 0 < Version v <= MaxInt64 | _ => True end
  | RandomRead n => fun r => match r with Some b => length b = n /\ Forall is_byte b | None => True end
  | _ => fun _ => True
  end.

(** ** Answers *)

(** The tokens of a session that was created or rotated by this program. *)
Definition issued (t : trace) (tk : Tokens) : Prop :=
  minted t access_part (rec_ID (tk_Record tk)) (tk_Access tk) /\ minted t refresh_part (rec_ID (tk_Record tk)) (tk_Refresh tk) /\
  did t (CachePut (rec_ID (tk_Record tk)) (access_entry (tk_Record tk) (tk_Access tk))) (Some 1).

Definition answer_ok (q : request) (t : trace) (a : answer) : Prop :=
  match q, a with
  | (ReqStart subject | ReqLogin subject), AnsTokens (Ok tk) =>
      SubjectID (tk_Record tk) = subject /\ issued t tk /\ did t (DbCreate (tk_Record tk) (token_Digest (tk_Refresh tk))) (Some tt)
  | ReqRefresh value, AnsTokens (Ok tk) =>
      issued t tk /\ exists token now, ParseToken value = Ok token /\
        did t (DbRotate (tok_id token) (token_Digest token) (token_Digest (tk_Refresh tk)) now (AccessTTL config) (IdleTTL config)) (Rotated (tk_Record tk))
  | ReqRefresh value, AnsTokens (Err ErrRefreshReuse) =>
      exists token next now, ParseToken value = Ok token /\
        did t (DbRotate (tok_id token) (token_Digest token) next now (AccessTTL config) (IdleTTL config)) (Refused ErrRefreshReuse)
  | ReqAuthenticate value, AnsRecord (Ok v) => authenticated t value v
  | ReqRevoke value, AnsUnit (Ok _) => exists v now, authenticated t value v /\ did t (DbRevoke (rec_ID v) now "logout") (Some tt)
  | ReqRevokeAll value, AnsUnit (Ok _) => exists v now, authenticated t value v /\ did t (DbRevokeAll (SubjectID v) now "logout_all") (Some tt)
  | ReqExchange value audience, AnsAssertion (Ok (assertion, expiresAt)) =>
      exists v, authenticated t value v /\ did t (IssueAssertion v audience expiresAt) (Ok assertion)
  | ReqCheck id subject authTime, AnsUnit (Ok _) =>
      exists v e access, checked t id v e access /\ SubjectID v = subject /\ CreatedAt v = authTime
  | _, _ => True
  end.

Abbreviation ver := (verified call_ok legal).

Lemma minted_mono t t' part id token : t ⊆ t' -> minted t part id token -> minted t' part id token.
Proof. intros Ht (s & Hs & Hn). exists s. split; [by apply Ht|done]. Qed.
Lemma clock_mono t t' now : t ⊆ t' -> read_clock t now -> read_clock t' now.
Proof. intros Ht (s & Hs & Hn). exists s. split; [by apply Ht|done]. Qed.
Lemma checked_mono t t' id v e a : t ⊆ t' -> checked t id v e a -> checked t' id v e a.
Proof.
  intros Ht (row & now & H1 & H2 & H0 & H3 & H4 & H5 & H6). exists row, now. split_and!; [by apply Ht|done|done|by apply Ht|done|by eapply clock_mono|by destruct_and! H6..].
Qed.
Lemma authenticated_mono t t' value v : t ⊆ t' -> authenticated t value v -> authenticated t' value v.
Proof. intros Ht (tok & e & a & H1 & H2 & H3). exists tok, e, a. split_and!; [done|by eapply checked_mono|done]. Qed.

Lemma auth_call_mono t t' c : t ⊆ t' -> call_ok t c -> call_ok t' c.
Proof.
  intros Ht. destruct c; cbn [call_ok]; try done.
  - intros (H1 & row & H2). split; [done|]. exists row. by apply Ht.
  - intros (v & tok & H1 & H2 & H3 & H4). exists v, tok. split_and!; [done|by destruct H2..|by eapply minted_mono|done].
  - intros (now & H1 & H2). exists now. split; [by eapply clock_mono|done].
Qed.

(** ** The programs *)

Ltac sub := first [done | set_solver].

Lemma ver_now t (post : trace -> Z -> Prop) : (forall t' now, t ⊆ t' -> read_clock t' now -> post t' now) -> ver service_now t post.
Proof.
  intros Hp. apply verified_do; [done|]. intros clock _. cbn [reply] in clock. apply Hp; [set_solver|]. exists clock. split; [set_solver|done].
Qed.

Lemma ver_Find id t (post : trace -> result session_error Record_ -> Prop) :
  (forall t' r, t ⊆ t' -> (forall v, r = Ok v -> rec_ID v = id /\ 0 < Version v <= MaxInt64 /\
     exists row, did t' (DbFind id) (Found row) /\ scanRecord row = Some v) -> post t' r) -> ver (store_Find id) t post.
Proof.
  intros Hp. apply verified_do; [done|]. intros r Hr. cbn [reply] in r. apply Hp; [set_solver|]. intros v Hv.
  destruct r as [row| |]; try done. destruct (scanRecord row) as [v'|] eqn:Hs; [|done]. injection Hv as <-. destruct Hr as [Hid Hck].
  assert (v' = sr_record row) as -> by (unfold scanRecord in Hs; repeat case_match; congruence).
  unfold check_session in Hck. go_bool. split_and!; [done|lia|lia|]. exists row. split; [set_solver|done].
Qed.

Lemma ver_Put v token t (post : trace -> result session_error unit -> Prop) now :
  0 < Version v <= MaxInt64 -> minted t access_part (rec_ID v) token ->
  (forall t' r, t ⊆ t' -> (forall u, r = Ok u -> did t' (CachePut (rec_ID v) (access_entry v token)) (Some 1)) -> post t' r) ->
  ver (access_Put v (token_Digest token) now) t post.
Proof.
  intros Hv Hm Hp. apply verified_refuse; [intros _; by apply Hp|]. intros _. apply verified_do.
  { exists v, token. unfold MaxInt64 in Hv. split_and!; [done|lia|lia|done|done]. }
  intros r _. cbn [reply] in r. apply Hp; [set_solver|]. intros u Hu. destruct r as [n|]; [|done].
  destruct (Z.eqb_spec n 1) as [->|]; [|done]. set_solver.
Qed.

Lemma ver_Get id t (post : trace -> result session_error Access -> Prop) :
  (forall t' r, t ⊆ t' -> (forall a, r = Ok a -> exists e, did t' (CacheGet id) (Some (Some e)) /\ decode_entry e = Ok a) -> post t' r) ->
  ver (access_Get id) t post.
Proof.
  intros Hp. apply verified_refuse; [intros _; by apply Hp|]. intros _. apply verified_do; [done|]. intros r _. cbn [reply] in r.
  apply Hp; [set_solver|]. intros a Ha. destruct r as [[e|]|]; try done. exists e. split; [set_solver|done].
Qed.

Lemma ver_Revoke id now reason t (post : trace -> result session_error unit -> Prop) :
  (exists row, did t (DbFind id) (Found row)) ->
  (forall t' r, t ⊆ t' -> (forall u, r = Ok u -> did t' (DbRevoke id now reason) (Some tt)) -> post t' r) -> ver (store_Revoke id now reason) t post.
Proof.
  intros Hf Hp. apply verified_refuse; [intros _; by apply Hp|]. intros Hr%negb_false_iff. apply verified_do; [done|]. intros r _. cbn [reply] in r.
  apply Hp; [set_solver|]. intros u Hu. destruct r as [[]|]; [set_solver|done].
Qed.

Lemma ver_RevokeAll subject now reason t (post : trace -> result session_error unit -> Prop) :
  (forall t' r, t ⊆ t' -> (forall u, r = Ok u -> did t' (DbRevokeAll subject now reason) (Some tt)) -> post t' r) ->
  ver (store_RevokeAll subject now reason) t post.
Proof.
  intros Hp. apply verified_refuse; [intros _; by apply Hp|]. intros [Hr%negb_false_iff _]%orb_false_iff. apply verified_do; [done|]. intros r _. cbn [reply] in r.
  apply Hp; [set_solver|]. intros u Hu. destruct r as [[]|]; [set_solver|done].
Qed.

Lemma safeError_Ok {A} (r : result session_error A) a : safeError r = Ok a <-> r = Ok a.
Proof. by destruct r as [|[]|]. Qed.

(** A result whose errors are mapped. *)
Lemma ver_safe {A B} (r : result session_error A) (f : A -> prog (result session_error B)) t post :
  (forall a, r = Ok a -> ver (f a) t post) -> (forall e, safeError r = Err e -> post t (Err e)) -> (r = Panic -> post t Panic) ->
  ver (try (Ret (safeError r)) f) t post.
Proof.
  intros Ho He Hp. apply verified_try. cbn [verified]. destruct (safeError r) as [a|e|] eqn:Hs; [|by apply He|].
  - apply (proj1 (safeError_Ok _ _)) in Hs. exact (Ho a Hs).
  - apply Hp. by destruct r as [|[]|].
Qed.

Lemma NewToken_id id random token : NewToken id random = Ok token -> tok_id token = id.
Proof. unfold NewToken. rewrite guard_Ok. by intros [_ [= <-]]. Qed.

Lemma ver_mint v t (post : trace -> result session_error Tokens -> Prop) :
  (forall t' r, t ⊆ t' -> r <> Err ErrRefreshReuse -> (forall tk, r = Ok tk -> tk_Record tk = v /\ minted t' access_part (rec_ID v) (tk_Access tk) /\
     minted t' refresh_part (rec_ID v) (tk_Refresh tk)) -> post t' r) -> ver (mint v) t post.
Proof.
  intros Hp. apply verified_do; [done|]. intros r Hr. cbn [reply] in r. apply Hp; [set_solver|repeat case_match; congruence|].
  intros tk Htk. destruct r as [secrets|]; [|done].
  destruct (NewToken _ (take 32 secrets)) as [access| |] eqn:Ha; try done. destruct (NewToken _ (drop 32 secrets)) as [refresh| |] eqn:Hb; try done.
  case_bool_decide; [done|]. injection Htk as <-. split_and!; [done|exists secrets; split; [set_solver|done]..].
Qed.

Lemma ver_active id t (post : trace -> result session_error (Record_ * Access) -> Prop) :
  (forall t' r, t ⊆ t' -> (forall v a, r = Ok (v, a) -> exists e, checked t' id v e a) -> post t' r) -> ver (active id) t post.
Proof.
  intros Hp. apply verified_bind, ver_Find. intros t1 r Ht1 Hr. apply ver_safe; [|by intros; apply Hp..].
  intros v ->. destruct (Hr v eq_refl) as (Hid & _ & row & Hrow & Hscan).
  apply verified_bind, ver_Get. intros t2 r Ht2 Hg. apply ver_safe; [|by intros; apply Hp; [set_solver|]..].
  intros a ->. destruct (Hg a eq_refl) as (e & He & Hdec). apply verified_bind, ver_now. intros t3 now Ht3 Hnow.
  apply verified_refuse; [intros _; apply Hp; [set_solver|done]|]. intros Hb. apply Hp; [set_solver|].
  intros v' a' [= <- <-]. go_bool. exists e, row, now. split_and!; try done; [set_solver|set_solver].
Qed.

Lemma ver_Authenticate value t (post : trace -> result session_error Record_ -> Prop) :
  (forall t' r, t ⊆ t' -> (forall v, r = Ok v -> authenticated t' value v) -> post t' r) -> ver (Authenticate value) t post.
Proof.
  intros Hp. unfold Authenticate, parse_token. destruct (ParseToken value) as [token| |] eqn:Htok; [|by apply Hp|by apply Hp].
  apply verified_try, ver_active. intros t1 r Ht1 Hr. destruct r as [[v a]|e|]; [|by apply Hp|by apply Hp].
  apply verified_refuse; [intros _; by apply Hp|]. intros Hd%negb_false_iff%bool_decide_eq_true. apply Hp; [done|].
  intros v' [= <-]. destruct (Hr v a eq_refl) as [e He]. exists token, e, a. done.
Qed.

Lemma ver_Activate tokens t (post : trace -> result session_error Tokens -> Prop) :
  minted t access_part (rec_ID (tk_Record tokens)) (tk_Access tokens) ->
  (forall t' r, t ⊆ t' -> (forall tk, r = Ok tk -> tk = tokens /\
     did t' (CachePut (rec_ID (tk_Record tokens)) (access_entry (tk_Record tokens) (tk_Access tokens))) (Some 1)) -> post t' r) ->
  ver (Activate tokens) t post.
Proof.
  intros Hm Hp. apply verified_bind, ver_Find. intros t1 r Ht1 Hr. destruct r as [v|e|]; [|by apply Hp|by apply Hp].
  destruct (Hr v eq_refl) as (Hid & Hv & row & Hrow & _). destruct (same_prepared v (tk_Record tokens)) eqn:Hsame; cbn [negb]; [|by apply Hp].
  apply verified_bind, ver_now. intros t2 now Ht2 _. apply verified_refuse; [intros _; apply Hp; [set_solver|done]|]. intros _.
  apply verified_bind, ver_now. intros t3 now' Ht3 _. apply verified_bind, ver_Put; [done|rewrite Hid; eapply minted_mono, Hm; set_solver|].
  intros t4 r Ht4 Hput. destruct r as [u|e|].
  - apply Hp; [set_solver|]. intros tk [= <-]. split; [done|]. specialize (Hput u eq_refl).
    assert (access_entry v (tk_Access tokens) = access_entry (tk_Record tokens) (tk_Access tokens)) as <-; [|by rewrite <- Hid].
    unfold same_prepared in Hsame. unfold access_entry. go_bool. congruence.
  - apply verified_bind, ver_now. intros t5 now5 Ht5 _. apply verified_bind, ver_Revoke; [exists row; rewrite Hid; set_solver|]. intros t6 r Ht6 _. apply Hp; [set_solver|done].
  - apply verified_bind, ver_now. intros t5 now5 Ht5 _. apply verified_bind, ver_Revoke; [exists row; rewrite Hid; set_solver|]. intros t6 r Ht6 _. apply Hp; [set_solver|done].
Qed.

Lemma ver_Prepare subject t (post : trace -> result session_error Tokens -> Prop) :
  (forall t' r, t ⊆ t' -> (forall tk, r = Ok tk -> SubjectID (tk_Record tk) = subject /\ subject <> zero_id /\ Version (tk_Record tk) = 1 /\
     RevokedAt (tk_Record tk) = None /\ minted t' access_part (rec_ID (tk_Record tk)) (tk_Access tk) /\
     minted t' refresh_part (rec_ID (tk_Record tk)) (tk_Refresh tk)) -> post t' r) -> ver (Prepare config subject) t post.
Proof.
  intros Hp. apply verified_refuse; [intros _; by apply Hp|]. intros Hs%bool_decide_eq_false. apply verified_do; [done|]. intros id _. cbn [reply] in id.
  destruct id as [id|]; [|apply Hp; [set_solver|done]]. apply verified_refuse; [intros _; apply Hp; [set_solver|done]|]. intros _.
  apply verified_bind, ver_now. intros t1 now Ht1 _. apply ver_mint. intros t2 r Ht2 _ Hr. apply Hp; [set_solver|].
  intros tk Htk. destruct (Hr tk Htk) as (-> & Ha & Hb). done.
Qed.

(** Creating and activating a prepared session. *)
Lemma ver_created subject tk t1 t2 (post : trace -> result session_error Tokens -> Prop) :
  t1 ⊆ t2 -> SubjectID (tk_Record tk) = subject -> minted t1 access_part (rec_ID (tk_Record tk)) (tk_Access tk) ->
  minted t1 refresh_part (rec_ID (tk_Record tk)) (tk_Refresh tk) ->
  did t2 (DbCreate (tk_Record tk) (token_Digest (tk_Refresh tk))) (Some tt) ->
  (forall t' r, t2 ⊆ t' -> (forall tk, r = Ok tk -> SubjectID (tk_Record tk) = subject /\ issued t' tk /\
     did t' (DbCreate (tk_Record tk) (token_Digest (tk_Refresh tk))) (Some tt)) -> post t' r) -> ver (Activate tk) t2 post.
Proof.
  intros Ht Hs Ha Hb Hd Hp. apply ver_Activate; [by eapply minted_mono|]. intros t' r Ht' Hr. apply Hp; [done|]. intros tk' Htk.
  destruct (Hr tk' Htk) as [-> Hput]. split_and!; [done|split_and!; [eapply minted_mono, Ha; set_solver|eapply minted_mono, Hb; set_solver|done]|by apply Ht'].
Qed.

Lemma ver_Start subject t (post : trace -> result session_error Tokens -> Prop) :
  (forall t' r, t ⊆ t' -> (forall tk, r = Ok tk -> SubjectID (tk_Record tk) = subject /\ issued t' tk /\
     did t' (DbCreate (tk_Record tk) (token_Digest (tk_Refresh tk))) (Some tt)) -> post t' r) -> ver (service_Start config subject) t post.
Proof.
  intros Hp. apply verified_refuse; [intros _; by apply Hp|]. intros _. apply verified_try, ver_Prepare. intros t1 r Ht1 Hr.
  destruct r as [tk|e|]; [|by apply Hp|by apply Hp]. destruct (Hr tk eq_refl) as (Hs & Hz & Hv & Hrev & Ha & Hb).
  apply verified_bind, verified_refuse; [intros _; apply verified_try; by apply Hp|]. intros _. apply verified_do; [split_and!; congruence|].
  intros r _. cbn [reply] in r. destruct r as [[]|]; [|apply Hp; [set_solver|done]]. cbn [unavailable verified].
  apply ver_safe; [intros [] _|done|done]. eapply (ver_created subject tk t1); [set_solver|done..|set_solver|].
  intros t' r Ht' Hr'. apply Hp; [set_solver|done].
Qed.

Lemma ver_login subject t (post : trace -> result session_error Tokens -> Prop) :
  (forall t' r, t ⊆ t' -> (forall tk, r = Ok tk -> SubjectID (tk_Record tk) = subject /\ issued t' tk /\
     did t' (DbCreate (tk_Record tk) (token_Digest (tk_Refresh tk))) (Some tt)) -> post t' r) -> ver (login config subject) t post.
Proof.
  intros Hp. apply verified_try, ver_Prepare. intros t1 r Ht1 Hr.
  destruct r as [tk|e|]; [|by apply Hp|by apply Hp]. destruct (Hr tk eq_refl) as (Hs & Hz & Hv & Hrev & Ha & Hb).
  apply verified_do; [split_and!; congruence|]. intros r _. cbn [reply] in r. apply verified_try. destruct r as [[]|]; cbn [unavailable verified]; [|apply Hp; [set_solver|done]].
  eapply (ver_created subject tk t1); [set_solver|done..|set_solver|]. intros t' r Ht' Hr'. apply Hp; [set_solver|done].
Qed.

Lemma ver_Rotate id previous next now t (post : trace -> result session_error Record_ -> Prop) :
  (forall t' r, t ⊆ t' ->
     (forall v, r = Ok v -> rec_ID v = id /\ 0 < Version v <= MaxInt64 /\
        did t' (DbRotate id previous next now (AccessTTL config) (IdleTTL config)) (Rotated v)) ->
     (r = Err ErrRefreshReuse -> did t' (DbRotate id previous next now (AccessTTL config) (IdleTTL config)) (Refused ErrRefreshReuse)) -> post t' r) ->
  ver (store_Rotate id previous next now (AccessTTL config) (IdleTTL config)) t post.
Proof.
  intros Hp. apply verified_refuse; [intros _; by apply Hp|]. intros Hb. apply verified_do; [cbn [call_ok]; go_bool; split_and!; [done|lia|lia]|].
  intros r Hr. cbn [reply] in r. destruct r as [v|e|]; (apply Hp; [set_solver|..]); try done.
  - intros v' [= <-]. destruct Hr as [Hid Hv]. split_and!; [done|lia|lia|set_solver].
  - intros [= ->]. set_solver.
Qed.

Lemma ver_Refresh value t : ver (Refresh config value) t (fun t r => answer_ok (ReqRefresh value) t (AnsTokens r)).
Proof.
  unfold Refresh, parse_token. destruct (ParseToken value) as [token| |] eqn:Htok; [|done|done].
  apply verified_try, ver_mint. intros t1 r Ht1 Hne Hm. destruct r as [tk|[]|]; try done. destruct (Hm tk eq_refl) as (_ & Ha & Hb). cbn [rec_ID] in Ha, Hb.
  apply verified_bind, ver_now. intros t2 now Ht2 _. apply verified_bind, ver_Rotate. intros t3 r Ht3 Hr Hreuse.
  apply ver_safe; [|intros e He|done].
  - intros v ->. destruct (Hr v eq_refl) as (Hid & Hv & Hrot). apply verified_refuse; [done|]. intros _.
    apply verified_bind, ver_Put; [done|rewrite Hid; eapply minted_mono, Ha; set_solver|]. intros t4 r Ht4 Hput. cbn [verified].
    destruct r as [u|e|]; [|done|done]. specialize (Hput u eq_refl). cbn [answer_ok tk_Record tk_Refresh]. split.
    + unfold issued. cbn [tk_Record tk_Access tk_Refresh]. rewrite !Hid in *. split_and!; [eapply minted_mono, Ha; set_solver|eapply minted_mono, Hb; set_solver|done].
    + exists token, now. split; [done|]. by apply Ht4.
  - assert (e = ErrRefreshReuse -> r = Err ErrRefreshReuse) as Hre by (intros ->; by destruct r as [|[]|]).
    destruct e; try done. exists token, (token_Digest (tk_Refresh tk)), now. split; [done|]. by apply Hreuse, Hre.
Qed.

Lemma expiry_bounds v now expiresAt : assertion_expiry config v now = Some expiresAt ->
  now + Second <= expiresAt /\ expiresAt <= now + AssertionTTL config /\ expiresAt <= AccessExpiresAt v /\ expiresAt <= ExpiresAt v.
Proof.
  unfold assertion_expiry. set (e1 := if AccessExpiresAt v <? _ then _ else _).
  assert (e1 <= now + AssertionTTL config /\ e1 <= AccessExpiresAt v) as [H1 H2] by (unfold e1; destruct (Z.ltb_spec (AccessExpiresAt v) (now + AssertionTTL config)); lia).
  clearbody e1. set (e2 := if ExpiresAt v <? e1 then _ else _).
  assert (e2 <= e1 /\ e2 <= ExpiresAt v) as [H3 H4] by (unfold e2; destruct (Z.ltb_spec (ExpiresAt v) e1); lia). clearbody e2.
  destruct (Z.ltb_spec (Z.quot (e2 - now) Second * Second) Second) as [|Hge]; [done|]. intros [= <-].
  assert (Z.quot (e2 - now) Second * Second <= e2 - now); [|lia]. unfold Second in *.
  pose proof (Z.quot_rem' (e2 - now) 1000000000). destruct (Z.le_gt_cases 0 (e2 - now)).
  - pose proof (Z.rem_bound_pos (e2 - now) 1000000000). lia.
  - pose proof (Z.rem_bound_abs (e2 - now) 1000000000). lia.
Qed.

Lemma ver_Exchange value audience t : ver (Exchange config value audience) t (fun t r => answer_ok (ReqExchange value audience) t (AnsAssertion r)).
Proof.
  apply verified_try, ver_Authenticate. intros t1 r Ht1 Hr. destruct r as [v|e|]; [|done|done]. specialize (Hr v eq_refl).
  apply verified_bind, ver_now. intros t2 now Ht2 Hnow. destruct (assertion_expiry config v now) as [expiresAt|] eqn:He; [|done].
  apply verified_do; [exists now; split; [done|]; by apply expiry_bounds|]. intros r _. cbn [reply] in r. cbn [verified answer_ok].
  destruct (safeError r) as [token|e|] eqn:Hs; [|done|done]. apply (proj1 (safeError_Ok _ _)) in Hs. subst r.
  exists v. split; [eapply authenticated_mono, Hr; set_solver|set_solver].
Qed.

(** Every request makes only guarded calls and keeps its promise. *)
Lemma ver_auth_program q : ver (program_of config q) [] (answer_ok q).
Proof.
  destruct q as [subject|subject|value|value|value|value|value audience|id subject authTime|subject|id subject|id]; cbn [program_of].
  - apply verified_bind, ver_Start. intros t r _ Hr. destruct r as [tk| |]; [by apply Hr|done|done].
  - apply verified_bind, ver_login. intros t r _ Hr. destruct r as [tk| |]; [by apply Hr|done|done].
  - apply verified_bind, ver_Refresh.
  - apply verified_bind, ver_Authenticate. intros t r _ Hr. destruct r as [v| |]; [by apply Hr|done|done].
  - apply verified_bind, verified_try, ver_Authenticate. intros t1 r Ht1 Hr. destruct r as [v| |]; [|done|done].
    apply verified_bind, ver_now. intros t2 now Ht2 _. apply verified_bind, ver_Revoke.
    { destruct (Hr v eq_refl) as (tok & e & a & _ & (row & now' & Hrow & _ & Hid & _) & _). exists row. rewrite Hid. set_solver. }
    intros t3 r Ht3 Hrev. cbn [verified answer_ok].
    destruct (safeError r) as [u| |] eqn:Hs; [|done|done]. apply (proj1 (safeError_Ok _ _)) in Hs. exists v, now.
    split; [eapply authenticated_mono, (Hr v eq_refl); set_solver|by apply (Hrev u)].
  - apply verified_bind, verified_try, ver_Authenticate. intros t1 r Ht1 Hr. destruct r as [v| |]; [|done|done].
    apply verified_bind, ver_now. intros t2 now Ht2 _. apply verified_bind, ver_RevokeAll. intros t3 r Ht3 Hrev. cbn [verified answer_ok].
    destruct (safeError r) as [u| |] eqn:Hs; [|done|done]. apply (proj1 (safeError_Ok _ _)) in Hs. exists v, now.
    split; [eapply authenticated_mono, (Hr v eq_refl); set_solver|by apply (Hrev u)].
  - apply verified_bind, ver_Exchange.
  - apply verified_bind, verified_try, ver_active. intros t1 r Ht1 Hr. destruct r as [[v a]| |]; [|done|done].
    apply verified_refuse; [done|]. intros Hb. destruct (Hr v a eq_refl) as [e He]. cbn [verified answer_ok]. exists v, e, a. cbn [fst] in Hb. go_bool. done.
  - apply verified_bind, ver_now. intros t1 now Ht1 _. by apply verified_do.
  - apply verified_bind, ver_now. intros t1 now Ht1 _. by apply verified_do.
  - by apply verified_do.
Qed.
End guards.
