(* ===== verification/AuthHistory.v ===== *)
(** * Auth: what holds over every run

    The invariant of the database and of the cache over every interleaving of
    requests, revocations and expiries. *)

From S2P Require Import Prelude GoStrings Sha256 GoEncoding Effects AuthToken AuthStore AuthSession AuthGuards.
Local Open Scope Z_scope.

(** ** The database *)

Definition consumed_of (d : auth_db) (id : session_id) : list (session_id * digest) := List.filter (fun x => bool_decide (x.1 = id)) (consumed d).
Definition outbox_of (d : auth_db) (id : session_id) : list revocation := List.filter (fun e => bool_decide (rv_session e = id)) (outbox d).

Definition is_revoked (r : session_row) : Prop := RevokedAt (sr_record r) <> None.

(** The events of a session: none while it is alive, exactly one when it is
    revoked. *)
Definition revocation_events (id : session_id) (r : session_row) (events : list revocation) : Prop :=
  let v := sr_record r in
  match RevokedAt v with
  | None => events = []
  | Some at_ => exists reason, validReason reason = true /\ events = [mkRevocation id (SubjectID v) (Version v) at_ reason]
  end.

Record auth_db_ok (d : auth_db) : Prop := mkAuthDbOk {
  ad_rows id r : sessions d !! id = Some r -> rec_ID (sr_record r) = id /\ check_session r = true;
  (** every rotation consumed one digest, and no digest twice *)
  ad_consumed : NoDup (consumed d);
  ad_versions id r : sessions d !! id = Some r ->
    Version (sr_record r) = 1 + len (consumed_of d id) /\ (id, refresh_digest r) ∉ consumed d;
  ad_known id dg : (id, dg) ∈ consumed d -> is_Some (sessions d !! id);
  ad_outbox id : match sessions d !! id with
    | Some r => revocation_events id r (outbox_of d id)
    | None => outbox_of d id = []
    end
}.

(** Sessions are never removed, their versions grow, and a revoked one is frozen. *)
Definition later (d d' : auth_db) : Prop :=
  (forall id r, sessions d !! id = Some r -> exists r', sessions d' !! id = Some r' /\ SubjectID (sr_record r') = SubjectID (sr_record r) /\
     Version (sr_record r) <= Version (sr_record r') /\ (is_revoked r -> r' = r)) /\
  (forall x, x ∈ consumed d -> x ∈ consumed d').

Lemma later_refl d d' : sessions d' = sessions d -> consumed d' = consumed d -> later d d'.
Proof. intros Hs Hc. split; rewrite ?Hs, ?Hc; [|done]. intros id r Hr. by exists r. Qed.

(** *** Revocations *)

(** The rows of one session among all rows. *)
Lemma rows_with_id (m : gmap session_id session_row) (f : session_row -> bool) id :
  (forall k r, m !! k = Some r -> rec_ID (sr_record r) = k) ->
  List.filter (fun r => bool_decide (rec_ID (sr_record r) = id)) (List.filter f (map_to_list m).*2) =
  match m !! id with Some r => if f r then [r] else [] | None => [] end.
Proof.
  revert id. induction m as [|k x m Hk Hfirst IH] using map_first_key_ind; intros id Hkey; [by rewrite map_to_list_empty|].
  assert (forall k' r, m !! k' = Some r -> rec_ID (sr_record r) = k') as Hkey'.
  { intros k' r Hr. apply Hkey. rewrite lookup_insert_ne; [done|]. congruence. }
  assert (rec_ID (sr_record x) = k) as Hx by (apply Hkey; by rewrite lookup_insert_eq).
  rewrite map_to_list_insert_first_key by done. rewrite fmap_cons. cbn [snd List.filter]. specialize (IH id Hkey').
  destruct (decide (k = id)) as [->|Hne].
  - rewrite lookup_insert_eq. rewrite Hk in IH. destruct (f x); cbn [List.filter]; rewrite IH; [|done]. by rewrite bool_decide_eq_true_2.
  - rewrite lookup_insert_ne by done. destruct (f x); cbn [List.filter]; [|done]. rewrite bool_decide_eq_false_2 by congruence. done.
Qed.

Lemma revoke_row_cases now p r :
  (revoke_row now p r = r /\ (is_revoked r \/ p r = false)) \/
  (~ is_revoked r /\ p r = true /\ RevokedAt (sr_record (revoke_row now p r)) = Some (pg_time now) /\
   refresh_digest (revoke_row now p r) = refresh_digest r /\ rec_ID (sr_record (revoke_row now p r)) = rec_ID (sr_record r) /\
   SubjectID (sr_record (revoke_row now p r)) = SubjectID (sr_record r) /\ Version (sr_record (revoke_row now p r)) = Version (sr_record r)).
Proof.
  unfold revoke_row, is_revoked. case_bool_decide as Hr; cbn [andb]; [|by left; auto]. destruct (p r) eqn:Hp; [right; by auto 10|left; auto].
Qed.

Lemma check_revoke_row now p r : check_session (revoke_row now p r) = check_session r.
Proof. unfold revoke_row. by destruct (_ && _). Qed.

Lemma outbox_of_revoke d now reason p id : (forall k r, sessions d !! k = Some r -> rec_ID (sr_record r) = k) ->
  outbox_of (sql_revoke d now reason p) id =
  outbox_of d id ++ match sessions d !! id with
    | Some r => if bool_decide (RevokedAt (sr_record r) = None) && p r then [revocation_of now reason r] else []
    | None => []
    end.
Proof.
  intros Hkey. unfold outbox_of, sql_revoke. cbn [outbox]. rewrite List.filter_app. f_equal.
  pose proof (rows_with_id (sessions d) (fun r => bool_decide (RevokedAt (sr_record r) = None) && p r) id Hkey) as Hrows. revert Hrows.
  generalize (List.filter (fun r => bool_decide (RevokedAt (sr_record r) = None) && p r) (map_to_list (sessions d)).*2). intros l Hl.
  transitivity (revocation_of now reason <$> List.filter (fun r => bool_decide (rec_ID (sr_record r) = id)) l).
  - clear Hl. induction l as [|r l IH]; [done|]. rewrite fmap_cons. cbn [List.filter rv_session revocation_of]. rewrite IH.
    destruct (bool_decide _); [by rewrite fmap_cons|done].
  - rewrite Hl. destruct (sessions d !! id) as [r|]; [|done]. by destruct (_ && _).
Qed.

Lemma revoke_ok d now reason p : validReason reason = true -> auth_db_ok d -> auth_db_ok (sql_revoke d now reason p).
Proof.
  intros Hreason [Hrows Hnd Hver Hknown Hout].
  assert (forall id r, sessions (sql_revoke d now reason p) !! id = Some r -> exists r0, sessions d !! id = Some r0 /\ r = revoke_row now p r0) as Hl.
  { intros id r. unfold sql_revoke. cbn [sessions]. rewrite lookup_fmap. destruct (sessions d !! id) as [r0|]; [|done]. intros [= <-]. by exists r0. }
  split.
  - intros id r (r0 & H0 & ->)%Hl. destruct (Hrows id r0 H0) as [Hid Hck]. rewrite check_revoke_row. split; [|done].
    destruct (revoke_row_cases now p r0) as [[-> _]|(_ & _ & _ & _ & -> & _)]; done.
  - done.
  - intros id r (r0 & H0 & ->)%Hl. destruct (Hver id r0 H0) as [Hv Hd].
    destruct (revoke_row_cases now p r0) as [[-> _]|(_ & _ & _ & -> & _ & _ & ->)]; done.
  - intros id dg Hin. destruct (Hknown id dg Hin) as [r Hr]. unfold sql_revoke. cbn [sessions]. rewrite lookup_fmap, Hr. by eexists.
  - intros id. rewrite outbox_of_revoke by (intros k r Hr; by apply Hrows). specialize (Hout id). unfold sql_revoke. cbn [sessions]. rewrite lookup_fmap.
    destruct (sessions d !! id) as [r|] eqn:Hr; cbn [fmap option_fmap option_map]; [|by rewrite Hout]. destruct (Hrows id r Hr) as [Hid _].
    unfold revocation_events, revoke_row in *. case_bool_decide as Hrev; cbn [andb]; [|by rewrite app_nil_r].
    destruct (p r); [|by rewrite app_nil_r]. rewrite Hrev in Hout. rewrite Hout. cbn [sr_record RevokedAt SubjectID Version]. exists reason. split; [done|].
    unfold revocation_of. by rewrite Hid.
Qed.

Lemma revoke_later d now reason p : later d (sql_revoke d now reason p).
Proof.
  split; [|done]. intros id r Hr. unfold sql_revoke. cbn [sessions]. rewrite lookup_fmap, Hr. eexists. split; [done|].
  destruct (revoke_row_cases now p r) as [[-> _]|(Hn & _ & _ & _ & _ & -> & ->)]; [done|]. split_and!; [done|done|]. by intros ?%Hn.
Qed.

(** A revocation by identifier. *)
Lemma revoked_has_id d now reason id x : auth_db_ok d -> sessions d !! id = Some x ->
  exists r, sessions (sql_revoke d now reason (has_id id)) !! id = Some r /\ is_revoked r.
Proof.
  intros Hok Hx. unfold sql_revoke. cbn [sessions]. rewrite lookup_fmap, Hx. eexists. split; [done|].
  destruct (revoke_row_cases now (has_id id) x) as [[-> [Hr|Hr]]|(_ & _ & Hr & _)]; [done| |unfold is_revoked; by rewrite Hr].
  unfold has_id in Hr. destruct (ad_rows _ Hok id x Hx) as [Hid _]. by rewrite bool_decide_eq_true_2 in Hr.
Qed.

(** *** Creation and rotation *)

Lemma consumed_of_fresh d id : auth_db_ok d -> sessions d !! id = None -> consumed_of d id = [].
Proof.
  intros Hok Hn. unfold consumed_of. destruct (List.filter _ _) as [|[k dg] l] eqn:Hf; [done|].
  assert ((k, dg) ∈ List.filter (fun x => bool_decide (x.1 = id)) (consumed d)) as Hin by (rewrite Hf; by left).
  apply list_elem_of_In, filter_In in Hin as [Hin Hk]. apply bool_decide_eq_true in Hk. cbn in Hk. subst k.
  apply list_elem_of_In, (ad_known _ Hok) in Hin as [r Hr]. congruence.
Qed.

Lemma create_ok d v dg : Version v = 1 -> RevokedAt v = None -> auth_db_ok d -> auth_db_ok (sql_create d v dg).1 /\ later d (sql_create d v dg).1.
Proof.
  intros Hv1 Hrev Hok. unfold sql_create. destruct (_ || _) eqn:Hb; [split; [done|by apply later_refl]|]. cbn [fst].
  apply orb_false_iff in Hb as [Hex%bool_decide_eq_false%eq_None_not_Some Hck%negb_false_iff].
  pose proof (consumed_of_fresh _ _ Hok Hex) as Hc. pose proof (ad_outbox _ Hok (rec_ID v)) as Hob. rewrite Hex in Hob. split.
  - split; unfold set_sessions; cbn [sessions consumed].
    + intros id r [[<- <-]|[_ Hr]]%lookup_insert_Some; [done|by apply (ad_rows _ Hok)].
    + apply (ad_consumed _ Hok).
    + intros id r [[<- <-]|[_ Hr]]%lookup_insert_Some; [|by apply (ad_versions _ Hok)]. unfold consumed_of in *. cbn [consumed]. rewrite Hc.
      cbn [sr_record stored_record Version]. split; [done|]. intros Hin. apply (ad_known _ Hok) in Hin as [r Hr]. congruence.
    + intros id dg' Hin. destruct (ad_known _ Hok id dg' Hin) as [r Hr]. rewrite lookup_insert_ne by congruence. by eexists.
    + intros id. unfold outbox_of in *. cbn [outbox]. destruct (decide (rec_ID v = id)) as [<-|Hne].
      * rewrite lookup_insert_eq. unfold revocation_events. cbn [sr_record stored_record RevokedAt]. rewrite Hrev. done.
      * rewrite lookup_insert_ne by done. apply (ad_outbox _ Hok).
  - split; [|done]. intros id r Hr. unfold set_sessions. cbn [sessions]. rewrite lookup_insert_ne by congruence. by exists r.
Qed.

(** What a rotation did. *)
Definition rotation_spec (d : auth_db) (id : session_id) (previous next : digest) (d' : auth_db) (o : rotation) : Prop :=
  match o with
  | Rotated v => (id, previous) ∉ consumed d /\ (id, previous) ∈ consumed d' /\ rec_ID v = id /\ 0 < Version v <= MaxInt64 /\
      (forall r, sessions d !! id = Some r -> ~ is_revoked r)
  | Refused ErrRefreshReuse => (id, previous) ∈ consumed d /\ exists r, sessions d' !! id = Some r /\ is_revoked r
  | _ => d' = d
  end.

Lemma scanRecord_Some r v : scanRecord r = Some v -> v = sr_record r.
Proof. unfold scanRecord. repeat case_match; congruence. Qed.

Lemma Active_alive v now : Active v now = true -> RevokedAt v = None.
Proof. unfold Active. intros H. go_bool. done. Qed.

Lemma rotate_ok d id previous next now attl ittl : auth_db_ok d -> previous <> next ->
  let '(d', o) := tx_rotate d id previous next now attl ittl in
  auth_db_ok d' /\ later d d' /\ rotation_spec d id previous next d' o.
Proof.
  intros Hok Hpn. pose proof (later_refl d d eq_refl eq_refl) as Hrefl. unfold tx_rotate.
  destruct (sessions d !! id) as [r|] eqn:Hr; [|done]. destruct (scanRecord r) as [v|] eqn:Hs; [|done].
  apply scanRecord_Some in Hs as ->. destruct (Active (sr_record r) now) eqn:Hact; cbn [negb]; [|done]. apply Active_alive in Hact as Halive.
  destruct (ad_rows _ Hok id r Hr) as [Hid Hck]. destruct (ad_versions _ Hok id r Hr) as [Hver Hnew].
  case_bool_decide as Hdig; cbn [negb].
  2: { destruct (was_consumed d id previous) eqn:Hc; [|done]. apply bool_decide_eq_true in Hc.
       split_and!; [by apply revoke_ok|apply revoke_later|]. cbn [rotation_spec]. split; [done|]. by eapply revoked_has_id. }
  destruct (_ || _) eqn:Hexp; [done|]. destruct (was_consumed d id next) eqn:Hnx; [done|]. destruct (was_consumed d id previous) eqn:Hpx; [done|].
  destruct (check_session (mkSessionRow (stored_record _) next)) eqn:Hck'; [|done]. apply bool_decide_eq_false in Hnx, Hpx. apply orb_false_iff in Hexp as [_ Hmax%Z.eqb_neq].
  set (v' := rotated (sr_record r) now attl ittl) in *. set (r' := mkSessionRow (stored_record v') next) in *.
  assert (Version v' = Version (sr_record r) + 1 /\ Version (sr_record r') = Version (sr_record r) + 1 /\ SubjectID (sr_record r') = SubjectID (sr_record r) /\
    RevokedAt (sr_record r') = None /\ rec_ID v' = id /\ rec_ID (sr_record r') = id /\ refresh_digest r' = next) as (Ev & Evr & Es & Er & Ei & Eir & En).
  { unfold r', v', stored_record, rotated. cbn [sr_record Version SubjectID RevokedAt rec_ID refresh_digest]. by rewrite Halive. }
  clearbody r' v'. assert (0 < Version v' <= MaxInt64) as Hv'.
  { clear -Hck Ev Hmax. unfold check_session in Hck. cbv zeta in Hck. rewrite Ev. clear Ev. go_bool. lia. }
  split_and!.
  - split; cbn [sessions consumed].
    + intros k x [[<- <-]|[_ Hx]]%lookup_insert_Some; [done|by apply (ad_rows _ Hok)].
    + apply NoDup_app. split_and!; [apply (ad_consumed _ Hok)| |apply NoDup_singleton]. intros x Hx Hx'%list_elem_of_singleton. by subst.
    + intros k x Hx. unfold consumed_of. cbn [consumed]. rewrite List.filter_app, len_app. cbn [List.filter fst].
      apply lookup_insert_Some in Hx as [[<- <-]|[Hne Hx]].
      * rewrite bool_decide_eq_true_2 by done. rewrite len_cons. change (len (@nil (session_id * digest))) with 0. unfold consumed_of in Hver.
        rewrite En. split; [lia|].
        intros [Hin|Hin%list_elem_of_singleton]%elem_of_app; [done|]. congruence.
      * rewrite bool_decide_eq_false_2 by done. change (len (@nil (session_id * digest))) with 0. destruct (ad_versions _ Hok k x Hx) as [Hv Hd].
        unfold consumed_of in Hv. split; [lia|]. intros [Hin|Hin%list_elem_of_singleton]%elem_of_app; [done|]. congruence.
    + intros k dg [Hin|Hin%list_elem_of_singleton]%elem_of_app.
      * destruct (decide (id = k)) as [<-|Hne]; [rewrite lookup_insert_eq; by eexists|]. rewrite lookup_insert_ne by done. by apply (ad_known _ Hok k dg).
      * injection Hin as -> _. rewrite lookup_insert_eq. by eexists.
    + intros k. unfold outbox_of. cbn [outbox]. pose proof (ad_outbox _ Hok k) as Hob. unfold outbox_of in Hob. destruct (decide (id = k)) as [<-|Hne].
      * rewrite lookup_insert_eq. rewrite Hr in Hob. unfold revocation_events in *. rewrite Er.
        rewrite Halive in *. done.
      * by rewrite lookup_insert_ne.
  - split; cbn [sessions consumed].
    + intros k x Hx. destruct (decide (id = k)) as [<-|Hne].
      * rewrite lookup_insert_eq. exists r'. assert (x = r) as -> by congruence.
        split_and!; [done|done|lia|]. by intros Hrv.
      * rewrite lookup_insert_ne by done. by exists x.
    + intros x Hx. apply elem_of_app. by left.
  - cbn [rotation_spec]. split_and!; [done|apply elem_of_app; right; by left|done|lia|lia|]. intros x Hx Hrv. assert (x = r) as -> by congruence. by apply Hrv.
Qed.

Section runs.
Context (config : Config).

Lemma respond_db w d t c : auth_db_ok d -> call_ok config t c -> auth_db_ok (respond w d c).1 /\ later d (respond w d c).1.
Proof.
  intros Hok Hc. pose proof (later_refl d d eq_refl eq_refl) as Hrefl.
  assert (forall c', auth_db_ok (set_cache d c') /\ later d (set_cache d c')) as Hcache by (intros c'; split; [by destruct Hok|by apply later_refl]).
  destruct c; cbn [respond]; try done;
    try (match goal with |- context [faulty ?failed ?f ?d0 ?r] => apply (faulty_state (fun d' => auth_db_ok d' /\ later d d') failed f d0 r); [done|] end);
    cbn [fst]; try done; try apply Hcache.
  - destruct Hc as (Hv & Hr & _). by apply create_ok.
  - destruct Hc as (Hpn & _). pose proof (rotate_ok d id previous next now accessTTL idleTTL Hok Hpn) as Hrot.
    destruct (tx_rotate _ _ _ _ _ _ _) as [d' o]. cbn [fst]. by destruct Hrot as (? & ? & _).
  - destruct Hc as [Hc _]. split; [by apply revoke_ok|apply revoke_later].
  - split; [by apply revoke_ok|apply revoke_later].
  - split; [by apply revoke_ok|apply revoke_later].
Qed.

Lemma respond_legal w d t c : auth_db_ok d -> call_ok config t c -> legal c (respond w d c).2.
Proof.
  intros Hok Hc. destruct c; cbn [respond legal]; try done.
  - destruct (w_fault w); cbn [faulty fst snd]; try done. destruct (sessions d !! id) as [r|] eqn:Hr; [|done]. by apply (ad_rows _ Hok).
  - destruct Hc as (Hpn & _). pose proof (rotate_ok d id previous next now accessTTL idleTTL Hok Hpn) as Hrot.
    destruct (tx_rotate _ _ _ _ _ _ _) as [d' o]. destruct Hrot as (_ & _ & Hspec). destruct (w_fault w); cbn [faulty fst snd]; try done.
    destruct o; try done. by destruct Hspec as (_ & _ & ? & ? & _).
  - cbn [snd]. destruct (w_random w) as [b|]; [|done]. destruct (_ && _) eqn:Hb; [|done]. apply andb_true_iff in Hb as [Hl%Nat.eqb_eq Hf]. split; [done|].
    rewrite forallb_forall in Hf. apply Forall_forall. intros x Hx%list_elem_of_In. specialize (Hf x Hx). unfold is_byte. lia.
Qed.

(** ** The invariant *)

(** The program rotated the refresh token with this digest. *)
Definition rotated_in (t : trace) (id : session_id) (previous : digest) : Prop :=
  exists next now attl ittl v, did t (DbRotate id previous next now attl ittl) (Rotated v).

Definition revoked_now (d : auth_db) (id : session_id) : Prop := exists r, sessions d !! id = Some r /\ is_revoked r.

Lemma revoked_later d d' id : later d d' -> revoked_now d id -> revoked_now d' id.
Proof. intros [Hl _] (r & Hr & Hrev). destruct (Hl id r Hr) as (r' & Hr' & _ & _ & Hsame). exists r'. by rewrite (Hsame Hrev) in *. Qed.

Record auth_ok (d : auth_db) (ts : list trace) : Prop := mkAuthOk {
  ao_db : auth_db_ok d;
  ao_calls t c r : t ∈ ts -> did t c r -> call_ok config t c;
  (** every entry of the cache was put by a program *)
  ao_cache id e : cache d !! id = Some e -> exists t r, t ∈ ts /\ did t (CachePut id e) r;
  ao_got t id e : t ∈ ts -> did t (CacheGet id) (Some (Some e)) -> exists t' r, t' ∈ ts /\ did t' (CachePut id e) r;
  ao_rotated t id previous : t ∈ ts -> rotated_in t id previous -> (id, previous) ∈ consumed d;
  ao_once i j t t' id previous : ts !! i = Some t -> ts !! j = Some t' -> rotated_in t id previous -> rotated_in t' id previous -> i = j;
  ao_reuse t id previous next now attl ittl : t ∈ ts -> did t (DbRotate id previous next now attl ittl) (Refused ErrRefreshReuse) -> revoked_now d id;
  ao_revoked t id now reason : t ∈ ts -> did t (DbRevoke id now reason) (Some tt) -> revoked_now d id;
  ao_found t id row : t ∈ ts -> did t (DbFind id) (Found row) -> exists r, sessions d !! id = Some r /\ SubjectID (sr_record r) = SubjectID (sr_record row)
}.

Lemma auth_ok_start : auth_ok (mkAuthDb ∅ [] [] ∅) [].
Proof.
  split; try (intros *; intros ?%elem_of_nil; done); try done.
  split; try done; cbn; [constructor|by intros ? ? ?%elem_of_nil].
Qed.

Lemma auth_ok_grown d ts : auth_ok d ts -> auth_ok d (ts ++ [[]]).
Proof.
  assert (forall t c r, t ∈ ts ++ [[]] -> did t c r -> t ∈ ts) as Hin.
  { intros t c r [Ht|Ht%list_elem_of_singleton]%elem_of_app Hd; [done|]. subst t. by apply elem_of_nil in Hd. }
  intros [Hdb Hcalls Hcache Hgot Hrot Honce Hreuse Hrevoked Hfound]. split; [done| | | | | | | |].
  - intros t c r Ht Hd. eapply Hcalls; [by eapply Hin|done].
  - intros id e He. destruct (Hcache id e He) as (t & r & Ht & Hd). exists t, r. split; [|done]. apply elem_of_app. by left.
  - intros t id e Ht Hd. destruct (Hgot t id e) as (t' & r & Ht' & Hd'); [by eapply Hin|done|]. exists t', r. split; [|done]. apply elem_of_app. by left.
  - intros t id previous Ht Hr. pose proof Hr as (? & ? & ? & ? & ? & Hd). eapply Hrot; [by eapply Hin|done].
  - intros i j t t' id previous Hi Hj Hr Hr'.
    assert (forall k x, (ts ++ [[]]) !! k = Some x -> rotated_in x id previous -> ts !! k = Some x) as Hold.
    { intros k x Hk (? & ? & ? & ? & ? & Hd).
      apply lookup_app_Some in Hk as [Hk|[_ Hk]]; [done|]. apply list_elem_of_lookup_2, list_elem_of_singleton in Hk. subst x. by apply elem_of_nil in Hd. }
    eapply Honce; [by apply Hold|by apply Hold|done|done].
  - intros t id previous next now attl ittl Ht Hd. eapply Hreuse; [by eapply Hin|done].
  - intros t id now reason Ht Hd. eapply Hrevoked; [by eapply Hin|done].
  - intros t id row Ht Hd. eapply Hfound; [by eapply Hin|done].
Qed.

Lemma respond_cache w d c id e : cache (respond w d c).1 !! id = Some e -> cache d !! id = Some e \/ c = CachePut id e.
Proof.
  assert (forall now reason p, cache (sql_revoke d now reason p) = cache d) as Hrev by done.
  destruct c; cbn [respond]; try (by left);
    try (match goal with |- context [faulty ?failed ?f ?d0 ?r] =>
      apply (faulty_state (fun d' => cache d' !! id = Some e -> cache d !! id = Some e \/ _) failed f d0 r); [by left|] end; cbn [fst]; try (by left)).
  - unfold sql_create. destruct (_ || _); by left.
  - unfold tx_rotate. repeat case_match; by left.
  - unfold set_cache, put_script. cbn [cache]. destruct (cache d !! id0) as [old|] eqn:Ho; cbn [fst].
    + destruct (shortlex_before _ _); [by left|]. case_bool_decide; [by left|]. cbn [fst]. intros [[<- <-]|[_ Hl]]%lookup_insert_Some; [by right|by left].
    + intros [[<- <-]|[_ Hl]]%lookup_insert_Some; [by right|by left].
  - cbn [fst]. unfold set_cache. cbn [cache]. intros [_ Hl]%lookup_delete_Some. by left.
Qed.

Lemma respond_rotate w d t id previous next now attl ittl : auth_db_ok d -> call_ok config t (DbRotate id previous next now attl ittl) ->
  let '(d', o) := respond w d (DbRotate id previous next now attl ittl) in
  match o with
  | Rotated _ => (id, previous) ∉ consumed d /\ (id, previous) ∈ consumed d' /\ ~ revoked_now d id
  | Refused ErrRefreshReuse => revoked_now d' id
  | _ => True
  end.
Proof.
  intros Hok (Hpn & _). cbn [respond]. pose proof (rotate_ok d id previous next now attl ittl Hok Hpn) as Hrot.
  destruct (tx_rotate _ _ _ _ _ _ _) as [d' o]. destruct Hrot as (_ & _ & Hspec). destruct (w_fault w); cbn [faulty fst snd]; try done.
  destruct o as [v|[]|]; try done.
  - destruct Hspec as (H1 & H2 & _ & _ & H3). split_and!; [done|done|]. intros (r & Hr & Hrev). by destruct (H3 r Hr).
  - destruct Hspec as (_ & r & Hr & Hrev). by exists r.
Qed.

(** The calls and replies of an event, by kind. *)
Definition as_rotation (e : sigT reply) : option (session_id * digest * digest * Z * Z * Z * rotation) :=
  match e with existT (DbRotate id previous next now attl ittl) r => Some (id, previous, next, now, attl, ittl, r) | _ => None end.
Definition as_revoke (e : sigT reply) : option (session_id * Z * string * option unit) := match e with existT (DbRevoke id now reason) r => Some (id, now, reason, r) | _ => None end.
Definition as_found (e : sigT reply) : option (session_id * found) := match e with existT (DbFind id) r => Some (id, r) | _ => None end.

Definition as_get (e : sigT reply) : option (session_id * option (option cache_entry)) := match e with existT (CacheGet id) r => Some (id, r) | _ => None end.

(** What a reply says about the state. *)
Lemma new_event w d t c : auth_db_ok d -> call_ok config t c ->
  let d' := (respond w d c).1 in let r := (respond w d c).2 in
  (forall id previous next now attl ittl v, @existT call reply (DbRotate id previous next now attl ittl) (Rotated v) = existT c r ->
     (id, previous) ∉ consumed d /\ (id, previous) ∈ consumed d' /\ ~ revoked_now d id) /\
  (forall id previous next now attl ittl, @existT call reply (DbRotate id previous next now attl ittl) (Refused ErrRefreshReuse) = existT c r -> revoked_now d' id) /\
  (forall id now reason, @existT call reply (DbRevoke id now reason) (Some tt) = existT c r -> is_Some (sessions d !! id) -> revoked_now d' id) /\
  (forall id row, @existT call reply (DbFind id) (Found row) = existT c r -> sessions d' = sessions d /\ sessions d !! id = Some row) /\
  (forall id e, @existT call reply (CacheGet id) (Some (Some e)) = existT c r -> cache d !! id = Some e).
Proof.
  intros Hdb Hc. cbv zeta. split_and!.
  - intros id previous next now attl ittl v He%(f_equal as_rotation). destruct c as [| |id0 p0 n0 now0 a0 i0| | | | | | | | |]; try done.
    pose proof (respond_rotate w d t id0 p0 n0 now0 a0 i0 Hdb Hc) as Hs. destruct (respond w d (DbRotate id0 p0 n0 now0 a0 i0)) as [d1 o].
    cbn [as_rotation fst snd] in *. by injection He as -> -> -> -> -> -> <-.
  - intros id previous next now attl ittl He%(f_equal as_rotation). destruct c as [| |id0 p0 n0 now0 a0 i0| | | | | | | | |]; try done.
    pose proof (respond_rotate w d t id0 p0 n0 now0 a0 i0 Hdb Hc) as Hs. destruct (respond w d (DbRotate id0 p0 n0 now0 a0 i0)) as [d1 o].
    cbn [as_rotation fst snd] in *. by injection He as -> -> -> -> -> -> <-.
  - intros id now reason He%(f_equal as_revoke) [x Hx]. destruct c; try done. cbn [as_revoke respond] in He. injection He as <- <- <- Hr.
    cbn [respond]. destruct (w_fault w); cbn [faulty fst snd] in *; try done. by eapply revoked_has_id.
  - intros id row He%(f_equal as_found). destruct c; try done. cbn [as_found respond] in He. injection He as <- Hf. cbn [respond].
    destruct (w_fault w); cbn [faulty fst snd] in *; try done. destruct (sessions d !! id) as [x|] eqn:Hx; [|done]. injection Hf as ->. done.
  - intros id e He%(f_equal as_get). destruct c; try done. cbn [as_get respond] in He. injection He as <- Hf.
    destruct (w_fault w); cbn [faulty fst snd] in *; try done. by injection Hf as <-.
Qed.

Lemma auth_ok_call w d ts i t c : auth_ok d ts -> ts !! i = Some t -> call_ok config t c ->
  auth_ok (respond w d c).1 (<[i := t ++ [existT c (respond w d c).2]]> ts).
Proof.
  intros [Hdb Hcalls Hcache Hgot Hrot Honce Hreuse Hrevoked Hfound] Hi Hc. pose proof (list_elem_of_lookup_2 _ _ _ Hi) as Ht.
  destruct (respond_db w d t c Hdb Hc) as [Hdb' Hlater]. pose proof (fun id e => respond_cache w d c id e) as Hcache'.
  set (d' := (respond w d c).1) in *. set (r := (respond w d c).2). set (ts' := <[i := _]> ts).
  pose proof (grown_call ts i t (existT c r) Hi) as Hg. fold ts' in Hg.
  assert (forall t' x, t' ∈ ts' -> x ∈ t' -> (exists t0, t0 ∈ ts /\ x ∈ t0) \/ x = existT c r) as Hev by (intros t' x; by apply call_event).
  destruct (new_event w d t c Hdb Hc) as (Hnew & Hused & Hgone & Hread & Hentry). fold d' r in Hnew, Hused, Hgone, Hread, Hentry.
  assert (forall t0 c0 r0, t0 ∈ ts -> did t0 c0 r0 -> exists t', t' ∈ ts' /\ did t' c0 r0) as Hkept.
  { intros t0 c0 r0 Ht0 Hd. destruct (Hg t0 Ht0) as (t' & Ht' & Hsub). exists t'. split; [done|by apply Hsub]. }
  split.
  - exact Hdb'.
  - intros t' c' r' [Ht'|Ht']%call_trace Hd; [by eapply Hcalls|subst t']. apply (auth_call_mono config t); [intros x ?; apply elem_of_app; by left|].
    apply elem_of_app in Hd as [Hd|Hd%list_elem_of_singleton]; [by eapply Hcalls|]. injection Hd as -> _. done.
  - intros id e [He| ->]%Hcache'.
    + destruct (Hcache id e He) as (t0 & r0 & Ht0 & Hd). destruct (Hkept _ _ _ Ht0 Hd) as (t' & ? & ?). by exists t', r0.
    + exists (t ++ [existT (CachePut id e) r]), r. split; [|apply elem_of_app; right; by left].
      eapply list_elem_of_lookup_2, list_lookup_insert_eq. by eapply lookup_lt_Some.
  - intros t' id e Ht' Hd. assert (exists t0 r0, t0 ∈ ts /\ did t0 (CachePut id e) r0) as (t0 & r0 & Ht0 & Hd0).
    { destruct (Hev _ _ Ht' Hd) as [(t0 & Ht0 & Hd0)|Heq]; [by eapply Hgot|by apply Hcache, Hentry]. }
    destruct (Hkept _ _ _ Ht0 Hd0) as (t1 & ? & ?). by exists t1, r0.
  - intros t' id previous Ht' (next & now & attl & ittl & v & Hd). destruct (Hev _ _ Ht' Hd) as [(t0 & Ht0 & Hd0)|Heq].
    + apply Hlater. eapply Hrot; [exact Ht0|]. by exists next, now, attl, ittl, v.
    + destruct (Hnew _ _ _ _ _ _ _ Heq) as (_ & ? & _). done.
  - intros i1 i2 t1 t2 id previous H1 H2 Hr1 Hr2.
    assert (forall k x, ts' !! k = Some x -> rotated_in x id previous -> (exists x0, ts !! k = Some x0 /\ rotated_in x0 id previous) \/
      (k = i /\ (id, previous) ∉ consumed d)) as Hcase.
    { intros k x Hk (next & now & attl & ittl & v & Hd). apply list_lookup_insert_Some in Hk as [[<- [<- _]]|[_ Hk]].
      - apply elem_of_app in Hd as [Hd|Hd%list_elem_of_singleton]; [left; exists t; split; [done|by exists next, now, attl, ittl, v]|].
        right. split; [done|]. by destruct (Hnew _ _ _ _ _ _ _ Hd).
      - left. exists x. split; [done|]. by exists next, now, attl, ittl, v. }
    assert (forall k x0, ts !! k = Some x0 -> rotated_in x0 id previous -> (id, previous) ∈ consumed d) as Hin.
    { intros k x0 Hk Hx. eapply Hrot; [by eapply list_elem_of_lookup_2|done]. }
    destruct (Hcase _ _ H1 Hr1) as [(x1 & Hx1 & Hxr1)|[-> Hn1]], (Hcase _ _ H2 Hr2) as [(x2 & Hx2 & Hxr2)|[-> Hn2]].
    + by eapply Honce.
    + destruct Hn2. by eapply Hin.
    + destruct Hn1. by eapply Hin.
    + done.
  - intros t' id previous next now attl ittl Ht' Hd. destruct (Hev _ _ Ht' Hd) as [(t0 & Ht0 & Hd0)|Heq].
    + eapply revoked_later; [exact Hlater|]. by eapply Hreuse.
    + by eapply Hused.
  - intros t' id now reason Ht' Hd. destruct (Hev _ _ Ht' Hd) as [(t0 & Ht0 & Hd0)|Heq].
    + eapply revoked_later; [exact Hlater|]. by eapply Hrevoked.
    + eapply Hgone; [exact Heq|]. assert (c = DbRevoke id now reason) as -> by congruence. destruct Hc as [_ [row Hrow]].
      destruct (Hfound _ _ _ Ht Hrow) as (x & Hx & _). by exists x.
  - intros t' id row Ht' Hd. destruct (Hev _ _ Ht' Hd) as [(t0 & Ht0 & Hd0)|Heq].
    + destruct (Hfound _ _ _ Ht0 Hd0) as (x & Hx & Hs). destruct Hlater as [Hl _]. destruct (Hl id x Hx) as (x' & Hx' & Hs' & _). exists x'. split; [done|congruence].
    + destruct (Hread _ _ Heq) as [Hsame Hrow]. exists row. by rewrite Hsame.
Qed.

Lemma auth_run_ok es s : auth_run config auth_start es = Some s ->
  auth_ok (sys_db s) (traces s) /\
  forall th, th ∈ sys_threads s -> verified (call_ok config) legal (th_prog th) (th_trace th) (answer_ok config (th_request th)).
Proof.
  apply (run_invariant respond (program_of config) (call_ok config) legal (answer_ok config) auth_ok); [apply ver_auth_program| | | |apply auth_ok_start].
  - intros w d ts t c Hok _ Hc. eapply respond_legal; [apply (ao_db _ _ Hok)|done].
  - apply auth_ok_grown.
  - apply auth_ok_call.
Qed.
End runs.
