(* ===== verification/AuthRuns.v ===== *)
(** * Auth: runs of the session service

    The properties of every run: consistent sessions, single use of refresh tokens,
    immediate revocation, and what an accepted access token proves. *)

From S2P Require Import Prelude GoStrings Sha256 GoEncoding Effects AuthToken AuthStore AuthSession AuthGuards AuthHistory.
Local Open Scope Z_scope.

Section runs.
Context (config : Config).

(** C33. The stored sessions stay consistent under any interleaving and failure: every
    row satisfies its constraints, its version counts the refresh tokens it has
    consumed, no refresh digest is ever consumed twice or current again, and the
    outbox holds exactly one event for a revoked session and none for others. *)
Theorem sessions_stay_consistent (es : list auth_event) (s : auth_system) :
  auth_run config auth_start es = Some s -> auth_db_ok (sys_db s).
Proof. intros Hrun. apply (ao_db _ _ _ (proj1 (auth_run_ok _ _ _ Hrun))). Qed.

(** C34. A refresh token is used at most once: no two requests, however they
    interleave, are answered new tokens for one refresh token. *)
Theorem refresh_tokens_are_single_use (es : list auth_event) (s : auth_system) (i j : nat) (value : bytes)
    (th th' : thread reply request answer) (tk tk' : Tokens) :
  auth_run config auth_start es = Some s -> sys_threads s !! i = Some th -> sys_threads s !! j = Some th' ->
  th_request th = ReqRefresh value -> th_request th' = ReqRefresh value ->
  th_prog th = Ret (AnsTokens (Ok tk)) -> th_prog th' = Ret (AnsTokens (Ok tk')) -> i = j.
Proof.
  intros Hrun Hi Hj Hq Hq' Hp Hp'. destruct (auth_run_ok _ _ _ Hrun) as [Hok Hth].
  assert (forall k x y, sys_threads s !! k = Some x -> th_request x = ReqRefresh value -> th_prog x = Ret (AnsTokens (Ok y)) ->
    exists tok, ParseToken value = Ok tok /\ traces s !! k = Some (th_trace x) /\ rotated_in (th_trace x) (tok_id tok) (token_Digest tok)) as Hrot.
  { intros k x y Hk Hxq Hxp. pose proof (Hth x (list_elem_of_lookup_2 _ _ _ Hk)) as Hv. rewrite Hxq, Hxp in Hv. destruct Hv as (_ & tok & now & Htok & Hd).
    exists tok. split_and!; [done|unfold traces; by rewrite list_lookup_fmap, Hk|]. by eexists _, _, _, _, _. }
  destruct (Hrot i th tk Hi Hq Hp) as (tok & Htok & Ht & Hr), (Hrot j th' tk' Hj Hq' Hp') as (tok' & Htok' & Ht' & Hr').
  assert (tok' = tok) as -> by congruence. by eapply (ao_once _ _ _ Hok).
Qed.

(** A logout that is answered, and a refresh token that is presented again after it
    was consumed, leave the session revoked. *)
Theorem revoking_requests_revoke (es : list auth_event) (s : auth_system) (th : thread reply request answer) (value : bytes) (token : Token) :
  auth_run config auth_start es = Some s -> th ∈ sys_threads s -> ParseToken value = Ok token ->
  th_request th = ReqRevoke value /\ th_prog th = Ret (AnsUnit (Ok tt)) \/
  th_request th = ReqRefresh value /\ th_prog th = Ret (AnsTokens (Err ErrRefreshReuse)) ->
  revoked_now (sys_db s) (tok_id token).
Proof.
  intros Hrun Hth Htok Hcase. destruct (auth_run_ok _ _ _ Hrun) as [Hok Hver]. specialize (Hver th Hth).
  assert (th_trace th ∈ traces s) as Ht by (by apply list_elem_of_fmap_2).
  destruct Hcase as [[Hq Hp]|[Hq Hp]]; rewrite Hq, Hp in Hver.
  - destruct Hver as (v & now & (tok & e & a & Htok' & (row & now' & _ & _ & Hid & _) & _) & Hd). assert (tok = token) as -> by congruence.
    rewrite <- Hid. by eapply (ao_revoked _ _ _ Hok).
  - destruct Hver as (tok & next & now & Htok' & Hd). assert (tok = token) as -> by congruence. by eapply (ao_reuse _ _ _ Hok).
Qed.

(** ** Revocation is immediate *)

(** The request presents a token of the session, or asks about it. *)
Definition uses (q : request) (id : session_id) : Prop :=
  match q with
  | ReqRefresh value | ReqAuthenticate value | ReqRevoke value | ReqRevokeAll value | ReqExchange value _ =>
      exists token, ParseToken value = Ok token /\ tok_id token = id
  | ReqCheck id' _ _ => id' = id
  | _ => False
  end.

(** The request was granted. *)
Definition granted (q : request) (a : answer) : Prop :=
  match q, a with
  | ReqRefresh _, AnsTokens (Ok _) | ReqAuthenticate _, AnsRecord (Ok _) | ReqExchange _ _, AnsAssertion (Ok _)
  | (ReqRevoke _ | ReqRevokeAll _ | ReqCheck _ _ _), AnsUnit (Ok _) => True
  | _, _ => False
  end.

(** The programs from the [n]-th on never saw the session alive. *)
Definition dead_for (id : session_id) (n : nat) (d : auth_db) (ts : list trace) : Prop :=
  auth_ok config d ts /\ revoked_now d id /\
  forall j t, (n <= j)%nat -> ts !! j = Some t -> (forall row, did t (DbFind id) (Found row) -> is_revoked row) /\ (forall previous, ~ rotated_in t id previous).

Lemma dead_grown id n d ts : dead_for id n d ts -> dead_for id n d (ts ++ [[]]).
Proof.
  intros (Hok & Hrev & Hdead). split_and!; [by apply auth_ok_grown|done|]. intros j t Hj [Ht|[_ Ht]]%lookup_app_Some; [by apply (Hdead j)|].
  apply list_elem_of_lookup_2, list_elem_of_singleton in Ht. subst t.
  split; [by intros row ?%elem_of_nil|]. by intros previous (? & ? & ? & ? & ? & ?%elem_of_nil).
Qed.

Lemma dead_call id n w d ts i t c : dead_for id n d ts -> ts !! i = Some t -> call_ok config t c ->
  dead_for id n (respond w d c).1 (<[i := t ++ [existT c (respond w d c).2]]> ts).
Proof.
  intros (Hok & Hrev & Hdead) Hi Hc. pose proof (ao_db _ _ _ Hok) as Hdb. destruct (respond_db config w d t c Hdb Hc) as [_ Hlater].
  destruct (new_event config w d t c Hdb Hc) as (Hnew & _ & _ & Hread & _). split_and!; [by apply auth_ok_call|by eapply revoked_later|].
  intros j t' Hj [[<- [<- _]]|[_ Ht]]%list_lookup_insert_Some; [|by apply (Hdead j)]. destruct (Hdead i t Hj Hi) as [Hfound Hrot]. split.
  - intros row [Hd|Hd%list_elem_of_singleton]%elem_of_app; [by apply Hfound|]. destruct (Hread _ _ Hd) as [_ Hrow]. destruct Hrev as (r & Hr & Hx).
    assert (row = r) as -> by congruence. exact Hx.
  - intros previous (next & now & attl & ittl & v & Hd). apply elem_of_app in Hd as [Hd|Hd%list_elem_of_singleton].
    + apply (Hrot previous). by exists next, now, attl, ittl, v.
    + by destruct (Hnew _ _ _ _ _ _ _ Hd) as (_ & _ & ?).
Qed.

Lemma checked_alive t id v e a : checked t id v e a -> exists row, did t (DbFind id) (Found row) /\ ~ is_revoked row.
Proof.
  intros (row & now & Hd & Hs & _ & _ & _ & _ & Hact & _). exists row. split; [done|]. apply scanRecord_Some in Hs as ->.
  apply Active_alive in Hact. intros Hx. by apply Hx.
Qed.

(** A request that was granted saw the session alive. *)
Lemma granted_alive q id t a : uses q id -> granted q a -> answer_ok config q t a ->
  (exists row, did t (DbFind id) (Found row) /\ ~ is_revoked row) \/ exists previous, rotated_in t id previous.
Proof.
  assert (forall value v, authenticated t value v -> (exists token, ParseToken value = Ok token /\ tok_id token = id) ->
    exists row, did t (DbFind id) (Found row) /\ ~ is_revoked row) as Hau.
  { intros value v (tok & e & acc & Htok & Hx & _) (token & Htok' & <-). assert (tok = token) as -> by congruence. by eapply checked_alive. }
  intros Hu Hs Ha. destruct q, a; try done; destruct r as [r| |]; try done; cbn [uses answer_ok] in *.
  - right. destruct Ha as (_ & tok & now & Htok & Hd). destruct Hu as (token & Htok' & <-). assert (tok = token) as -> by congruence. by eexists _, _, _, _, _, _.
  - left. by eapply Hau.
  - left. destruct Ha as (v & now & Hv & _). by eapply Hau.
  - left. destruct Ha as (v & now & Hv & _). by eapply Hau.
  - left. destruct r as [assertion expiresAt]. destruct Ha as (v & Hv & _). by eapply Hau.
  - left. subst. destruct Ha as (v & e & acc & Hx & _). by eapply checked_alive.
Qed.
Lemma dead_run id es es' s s' : auth_run config auth_start es = Some s -> revoked_now (sys_db s) id -> auth_run config s es' = Some s' ->
  dead_for id (length (sys_threads s)) (sys_db s') (traces s') /\
  forall th, th ∈ sys_threads s' -> verified (call_ok config) legal (th_prog th) (th_trace th) (answer_ok config (th_request th)).
Proof.
  intros Hrun Hrev. destruct (auth_run_ok _ _ _ Hrun) as [Hok Hver].
  apply (run_invariant_from respond (program_of config) (call_ok config) legal (answer_ok config) (dead_for id (length (sys_threads s)))); [apply ver_auth_program| | | |].
  - intros w d ts t c (Hd & _) _ Hc. eapply respond_legal; [apply (ao_db _ _ _ Hd)|done].
  - apply dead_grown.
  - intros. by apply dead_call.
  - split; [|done]. split_and!; [done|done|]. intros j t Hj Ht%lookup_lt_Some. unfold traces in Ht. rewrite length_fmap in Ht. lia.
Qed.

(** C32. Revocation is immediate: once a session is revoked, no request that starts
    later and presents one of its tokens, or asks about it, is granted, whatever is
    still in the cache and however the requests interleave and fail. *)
Theorem revocation_is_immediate (es es' : list auth_event) (s s' : auth_system) (id : session_id) (i : nat)
    (th : thread reply request answer) (a : answer) :
  auth_run config auth_start es = Some s -> revoked_now (sys_db s) id -> auth_run config s es' = Some s' ->
  (length (sys_threads s) <= i)%nat -> sys_threads s' !! i = Some th -> uses (th_request th) id -> th_prog th = Ret a ->
  ~ granted (th_request th) a.
Proof.
  intros Hrun Hrev Hrun' Hi Hth Hu Hp Hg. destruct (dead_run id es es' s s' Hrun Hrev Hrun') as [(_ & _ & Hdead) Hver].
  specialize (Hver th (list_elem_of_lookup_2 _ _ _ Hth)). rewrite Hp in Hver.
  assert (traces s' !! i = Some (th_trace th)) as Ht by (unfold traces; by rewrite list_lookup_fmap, Hth).
  destruct (Hdead i _ Hi Ht) as [Hfound Hrot]. destruct (granted_alive _ _ _ _ Hu Hg Hver) as [(row & Hd & Hn)|(previous & Hr)].
  - by apply Hn, Hfound.
  - by apply (Hrot previous).
Qed.

(** ** What an accepted token proves *)

(** The entry of a token, read back. *)
Lemma decode_access_entry v token access : 0 < Version v < 2 ^ 63 -> decode_entry (access_entry v token) = Ok access ->
  access = mkAccess (token_Digest token) (Version v) (AccessExpiresAt v).
Proof.
  intros Hv. unfold decode_entry, access_entry. cbn [ce_version ce_digest ce_expires_at]. rewrite ParseInt_FormatInt by lia.
  unfold token_Digest. rewrite hex_round_trip by apply sha256_Sum_bytes. rewrite !guard_Ok. intros (_ & _ & _ & H). by rewrite Ok_eq in H.
Qed.

(** An access token is accepted only if it was issued: some program minted a token
    for the session from fresh random bytes, at the session's current version and
    expiry, and it is the presented token (or SHA-256 has a collision); and the
    session was found alive and unexpired. *)
Theorem accepted_tokens_were_issued (es : list auth_event) (s : auth_system) (th : thread reply request answer) (value : bytes) (v : Record_) :
  auth_run config auth_start es = Some s -> th ∈ sys_threads s -> th_request th = ReqAuthenticate value -> th_prog th = Ret (AnsRecord (Ok v)) ->
  authenticated (th_trace th) value v /\
  exists t v' token, t ∈ traces s /\ minted t access_part (rec_ID v) token /\ Version v' = Version v /\ AccessExpiresAt v' = AccessExpiresAt v /\
    (exists r, did t (CachePut (rec_ID v) (access_entry v' token)) r) /\
    (tok_value token = value \/ (tok_value token <> value /\ sha256_Sum (tok_value token) = sha256_Sum value)).
Proof.
  intros Hrun Hth Hq Hp. destruct (auth_run_ok _ _ _ Hrun) as [Hok Hver]. specialize (Hver th Hth). rewrite Hq, Hp in Hver. cbn [verified answer_ok] in Hver.
  split; [done|]. destruct Hver as (token & e & access & Htok & (row & now & _ & _ & Hid & Hget & Hdec & _ & _ & _ & Hv & Hx) & Hdg).
  assert (th_trace th ∈ traces s) as Ht by (by apply list_elem_of_fmap_2). destruct (ao_got _ _ _ Hok _ _ _ Ht Hget) as (t & r & Ht' & Hput).
  destruct (ao_calls _ _ _ Hok _ _ _ Ht' Hput) as (v' & token' & _ & Hrange & Hmint & ->). apply decode_access_entry in Hdec as ->; [|done].
  cbn [acc_Version acc_ExpiresAt acc_Digest] in *. exists t, v', token'. rewrite Hid. split_and!; [done|done|done|done|by exists r|].
  apply ParseToken_Ok in Htok as (_ & _ & _ & _ & _ & _ & <-). unfold token_Digest in Hdg. destruct (decide (tok_value token' = tok_value token)); auto.
Qed.

(** An identity assertion is issued only for an authenticated session, lasts at
    least a second and at most [AssertionTTL], and never outlives the access token
    or the session. *)
Theorem assertions_are_bounded (es : list auth_event) (s : auth_system) (th : thread reply request answer)
    (value audience assertion : bytes) (expiresAt : Z) :
  auth_run config auth_start es = Some s -> th ∈ sys_threads s -> th_request th = ReqExchange value audience ->
  th_prog th = Ret (AnsAssertion (Ok (assertion, expiresAt))) ->
  exists v now, authenticated (th_trace th) value v /\ did (th_trace th) (IssueAssertion v audience expiresAt) (Ok assertion) /\
    read_clock (th_trace th) now /\ now + Second <= expiresAt <= now + AssertionTTL config /\
    expiresAt <= AccessExpiresAt v /\ expiresAt <= ExpiresAt v.
Proof.
  intros Hrun Hth Hq Hp. destruct (auth_run_ok _ _ _ Hrun) as [Hok Hver]. specialize (Hver th Hth). rewrite Hq, Hp in Hver.
  destruct Hver as (v & Hau & Hd). assert (th_trace th ∈ traces s) as Ht by (by apply list_elem_of_fmap_2).
  destruct (ao_calls _ _ _ Hok _ _ _ Ht Hd) as (now & Hnow & H1 & H2 & H3 & H4). by exists v, now.
Qed.
End runs.

(** ** A run *)

Definition sample_config : Config := mkConfig (600 * Second) (3600 * Second) (7200 * Second) (60 * Second).
Definition sample_subject : bytes := replicate 16 1.

(** The database is available and the clock stands; the random bytes are [n] and on. *)
Definition sample_world (n : Z) (size : nat) : world :=
  mkWorld Healthy (1000 * Second) (Some (Z.add n <$> (Z.of_nat <$> seq 0 size))) (Ok (bytes_of "assertion")).

Definition sample_token (n : Z) (part : bytes -> bytes) : bytes :=
  match NewToken (Z.add 1 <$> (Z.of_nat <$> seq 0 16)) (part (Z.add n <$> (Z.of_nat <$> seq 0 64))) with Ok t => tok_value t | _ => [] end.

(** Calls of one program, all with the same random bytes. *)
Definition sample_calls (i n : nat) (random : Z) : list auth_event := replicate n (Call i (sample_world random 64)).

(** A session starts, its access token is accepted and exchanged, it is refreshed,
    the refresh token is presented again. *)
Definition sample_before : list auth_event :=
  Start (ReqStart sample_subject) :: Call 0 (sample_world 1 16) :: sample_calls 0 7 2 ++
  Start (ReqAuthenticate (sample_token 2 access_part)) :: sample_calls 1 3 3 ++
  Start (ReqExchange (sample_token 2 access_part) (bytes_of "user")) :: sample_calls 2 5 3 ++
  Start (ReqRefresh (sample_token 2 refresh_part)) :: sample_calls 3 4 70 ++
  Start (ReqRefresh (sample_token 2 refresh_part)) :: sample_calls 4 3 100.

(** The new access token is presented. *)
Definition sample_after : list auth_event := Start (ReqAuthenticate (sample_token 70 access_part)) :: sample_calls 5 3 3.

(** The answers of the run, with their requests. *)
Definition sample_answers (s : auth_system) : option (Record_ * (bytes * Z) * Tokens) :=
  match sys_threads s with
  | [_; mkThread (ReqAuthenticate a) (Ret (AnsRecord (Ok v))) _; mkThread (ReqExchange b _) (Ret (AnsAssertion (Ok x))) _;
     mkThread (ReqRefresh c) (Ret (AnsTokens (Ok tk))) _; mkThread (ReqRefresh d) (Ret (AnsTokens (Err ErrRefreshReuse))) _] =>
      if bool_decide (a = sample_token 2 access_part /\ b = a /\ c = sample_token 2 refresh_part /\ d = c) then Some (v, x, tk) else None
  | _ => None
  end.

Lemma sample_reaches :
  exists s v x tk t0 t1 t2 t3 t4 audience,
    auth_run sample_config auth_start sample_before = Some s /\
    sys_threads s = [t0; mkThread (ReqAuthenticate (sample_token 2 access_part)) (Ret (AnsRecord (Ok v))) t1;
      mkThread (ReqExchange (sample_token 2 access_part) audience) (Ret (AnsAssertion (Ok x))) t2;
      mkThread (ReqRefresh (sample_token 2 refresh_part)) (Ret (AnsTokens (Ok tk))) t3;
      mkThread (ReqRefresh (sample_token 2 refresh_part)) (Ret (AnsTokens (Err ErrRefreshReuse))) t4].
Proof.
  assert ((fun s => bool_decide (is_Some (sample_answers s))) <$> auth_run sample_config auth_start sample_before = Some true) as Hs by (vm_compute; reflexivity).
  destruct (auth_run sample_config auth_start sample_before) as [s|]; [|done]. injection Hs as Hs. apply bool_decide_eq_true in Hs as [y Hy].
  exists s. destruct s as [d ths]. unfold sample_answers in Hy. cbn [sys_threads] in *.
  repeat (match type of Hy with
    | (if bool_decide _ then _ else _) = _ => fail 1
    | context [match ?x with _ => _ end] => destruct x; try done
    end).
  case_bool_decide as Hq; [|done]. destruct Hq as (-> & -> & -> & ->). by eexists _, _, _, _, _, _, _, _, _.
Qed.

Lemma sessions_stay_consistent_witness : exists s, auth_run sample_config auth_start sample_before = Some s /\ auth_db_ok (sys_db s).
Proof.
  destruct sample_reaches as (s & _ & _ & _ & _ & _ & _ & _ & _ & _ & Hrun & _). exists s. split; [exact Hrun|].
  exact (sessions_stay_consistent sample_config sample_before s Hrun).
Defined.

Lemma refresh_tokens_are_single_use_witness : exists s, auth_run sample_config auth_start sample_before = Some s /\ 3%nat = 3%nat.
Proof.
  destruct sample_reaches as (s & v & x & tk & t0 & t1 & t2 & t3 & t4 & a & Hrun & Hs). exists s. split; [exact Hrun|].
  apply (refresh_tokens_are_single_use sample_config sample_before s 3 3 (sample_token 2 refresh_part)
    (mkThread (ReqRefresh (sample_token 2 refresh_part)) (Ret (AnsTokens (Ok tk))) t3)
    (mkThread (ReqRefresh (sample_token 2 refresh_part)) (Ret (AnsTokens (Ok tk))) t3) tk tk Hrun); try reflexivity; rewrite Hs; reflexivity.
Defined.

Lemma accepted_tokens_were_issued_witness : exists s v (th : thread reply request answer), auth_run sample_config auth_start sample_before = Some s /\
  th_request th = ReqAuthenticate (sample_token 2 access_part) /\ authenticated (th_trace th) (sample_token 2 access_part) v.
Proof.
  destruct sample_reaches as (s & v & x & tk & t0 & t1 & t2 & t3 & t4 & a & Hrun & Hs).
  exists s, v, (mkThread (ReqAuthenticate (sample_token 2 access_part)) (Ret (AnsRecord (Ok v))) t1). split; [exact Hrun|]. split; [reflexivity|].
  apply (accepted_tokens_were_issued sample_config sample_before s _ (sample_token 2 access_part) v Hrun); [|reflexivity|reflexivity].
  rewrite Hs. right. left.
Defined.

Lemma assertions_are_bounded_witness : exists s (th : thread reply request answer) v now expiresAt, auth_run sample_config auth_start sample_before = Some s /\
  authenticated (th_trace th) (sample_token 2 access_part) v /\ now + Second <= expiresAt <= now + AssertionTTL sample_config.
Proof.
  destruct sample_reaches as (s & v & [assertion expiresAt] & tk & t0 & t1 & t2 & t3 & t4 & a & Hrun & Hs).
  destruct (assertions_are_bounded sample_config sample_before s
    (mkThread (ReqExchange (sample_token 2 access_part) a) (Ret (AnsAssertion (Ok (assertion, expiresAt)))) t2)
    (sample_token 2 access_part) a assertion expiresAt Hrun) as (v' & now & Hau & _ & _ & Hb & _); [|reflexivity|reflexivity|].
  { rewrite Hs. right. right. left. }
  exists s, (mkThread (ReqExchange (sample_token 2 access_part) a) (Ret (AnsAssertion (Ok (assertion, expiresAt)))) t2), v', now, expiresAt.
  split; [exact Hrun|]. split; [exact Hau|exact Hb].
Defined.

(** The session of the sample tokens. *)
Definition sample_session : session_id := Z.add 1 <$> (Z.of_nat <$> seq 0 16).

Lemma sample_parses : forall n part, (n, part) ∈ [(2, access_part : bytes -> bytes); (2, refresh_part : bytes -> bytes); (70, access_part : bytes -> bytes)] ->
  ParseToken (sample_token n part) = Ok (mkToken sample_session (sample_token n part)).
Proof. intros n part. rewrite !elem_of_cons, elem_of_nil. intros [[= -> ->]|[[= -> ->]|[[= -> ->]|[]]]]; vm_compute; reflexivity. Qed.

(** The refresh token was presented twice. *)
Lemma revoking_requests_revoke_witness : exists s, auth_run sample_config auth_start sample_before = Some s /\ revoked_now (sys_db s) sample_session.
Proof.
  destruct sample_reaches as (s & v & x & tk & t0 & t1 & t2 & t3 & t4 & a & Hrun & Hs). exists s. split; [exact Hrun|].
  apply (revoking_requests_revoke sample_config sample_before s
    (mkThread (ReqRefresh (sample_token 2 refresh_part)) (Ret (AnsTokens (Err ErrRefreshReuse))) t4)
    (sample_token 2 refresh_part) (mkToken sample_session (sample_token 2 refresh_part)) Hrun).
  - rewrite Hs. right. right. right. right. left.
  - apply sample_parses. right. left.
  - right. split; reflexivity.
Defined.

(** The new access token after the reuse. *)
Definition sample_revoked (s : auth_system) : bool :=
  match sessions (sys_db s) !! sample_session with Some r => negb (bool_decide (RevokedAt (sr_record r) = None)) | None => false end.
Definition sample_denied (s s' : auth_system) : bool :=
  bool_decide (length (sys_threads s) = 5%nat) && sample_revoked s &&
  match sys_threads s' !! 5%nat with
  | Some (mkThread (ReqAuthenticate value) (Ret _) _) => bool_decide (value = sample_token 70 access_part)
  | _ => false
  end.

Lemma sample_goes_on : exists s s' a t, auth_run sample_config auth_start sample_before = Some s /\ auth_run sample_config s sample_after = Some s' /\
  length (sys_threads s) = 5%nat /\ revoked_now (sys_db s) sample_session /\
  sys_threads s' !! 5%nat = Some (mkThread (ReqAuthenticate (sample_token 70 access_part)) (Ret a) t).
Proof.
  assert ((s ← auth_run sample_config auth_start sample_before; s' ← auth_run sample_config s sample_after; Some (sample_denied s s')) = Some true) as Hs
    by (vm_compute; reflexivity).
  destruct (auth_run sample_config auth_start sample_before) as [s|]; [|done]. cbn [mbind option_bind] in Hs.
  destruct (auth_run sample_config s sample_after) as [s'|] eqn:Hafter; [|done]. cbn [mbind option_bind] in Hs. injection Hs as Hs. unfold sample_denied, sample_revoked in Hs.
  destruct (sys_threads s' !! 5%nat) as [[q p t]|] eqn:Hth; [|by rewrite andb_false_r in Hs]. destruct q; try (by rewrite andb_false_r in Hs).
  destruct p as [a|]; [|by rewrite andb_false_r in Hs]. destruct (sessions (sys_db s) !! sample_session) as [r|] eqn:Hr; [|by rewrite andb_false_r in Hs]. go_bool.
  exists s, s', a, t. split_and!; [done|done|done| |congruence]. by exists r.
Qed.

Lemma revocation_is_immediate_witness : exists s s' a t, auth_run sample_config s sample_after = Some s' /\
  sys_threads s' !! 5%nat = Some (mkThread (ReqAuthenticate (sample_token 70 access_part)) (Ret a) t) /\ ~ granted (ReqAuthenticate (sample_token 70 access_part)) a.
Proof.
  destruct sample_goes_on as (s & s' & a & t & Hrun & Hrun' & Hlen & Hrev & Hth). exists s, s', a, t. split; [exact Hrun'|]. split; [exact Hth|].
  apply (revocation_is_immediate sample_config sample_before sample_after s s' sample_session 5
    (mkThread (ReqAuthenticate (sample_token 70 access_part)) (Ret a) t) a Hrun Hrev Hrun'); [lia|exact Hth| |reflexivity].
  exists (mkToken sample_session (sample_token 70 access_part)). split; [|reflexivity]. apply sample_parses. right. right. left.
Defined.
