(* ===== verification/AuthSecurityStore.v ===== *)
(** * Auth: the store of account security

    [services/auth/internal/adapter/out/postgressecurity] over the tables of
    [migrations/000001_credentials], [000004_security] and [000005_registration_login],
    next to the sessions of [AuthStore].  A transaction of [WithAccount] holds the
    row of the account, so that it is executed atomically: its body is a program over
    the calls of a unit, run on a copy of the database that is kept or dropped.
    Times are in nanoseconds; those that the service stores are whole seconds.  The
    encryption of queued mail, and the display time zone, are left out. *)

From S2P Require Import Prelude GoStrings GoUnicode Sha256 GoEncoding Effects AuthDomain AuthToken AuthStore.
Local Open Scope Z_scope.

(** ** Tables *)

Record cred_row := mkCredRow { identifier : bytes; password_digest : bytes }.
Record sec_row := mkSecRow { email_verified : bool; login_code_enabled : bool; revision : Z; deletion_at : option Z; deleted_at : option Z }.
Record limit_row := mkLimitRow { lim_attempts : Z; lim_expires : Z }.

(** [Mail] without its display time zone and its second link, which the operations
    leave empty *)
Record Mail := mkMail {
  m_ID : bytes;
  m_Subject : bytes;
  Kind : string;
  m_Email : bytes;
  OtherEmail : bytes;
  URL : bytes;
  Code : bytes;
  m_At : Z;
  m_ExpiresAt : Z
}.

(** A row of [auth.mail_outbox]; the payload is cleared on completion. *)
Record mail_row := mkMailRow {
  payload : option Mail;
  available_at : Z;
  mail_created_at : Z;
  mail_expires_at : Z;
  mail_attempts : Z;
  mail_lease : option (bytes * Z);
  completed : option (Z * string)
}.

Record sec_db := mkSecDb {
  sd_auth : auth_db;
  credentials : gmap bytes cred_row;
  account_security : gmap bytes sec_row;
  challenges : gmap bytes Challenge;
  limits : gmap bytes limit_row;
  mail_outbox : gmap bytes mail_row;
  (** identifiers of [registration_outbox], with the registered account *)
  registrations : gmap bytes bytes;
  (** the challenge identifiers that were ever drawn; they are random and do not
      repeat *)
  drawn : gset bytes
}.

Definition set_auth (d : sec_db) (a : auth_db) : sec_db :=
  mkSecDb a (credentials d) (account_security d) (challenges d) (limits d) (mail_outbox d) (registrations d) (drawn d).
Definition set_challenges (d : sec_db) (c : gmap bytes Challenge) : sec_db :=
  mkSecDb (sd_auth d) (credentials d) (account_security d) c (limits d) (mail_outbox d) (registrations d) (drawn d).
Definition set_limits (d : sec_db) (l : gmap bytes limit_row) : sec_db :=
  mkSecDb (sd_auth d) (credentials d) (account_security d) (challenges d) l (mail_outbox d) (registrations d) (drawn d).
Definition set_outbox (d : sec_db) (m : gmap bytes mail_row) : sec_db :=
  mkSecDb (sd_auth d) (credentials d) (account_security d) (challenges d) (limits d) m (registrations d) (drawn d).
Definition set_accounts (d : sec_db) (c : gmap bytes cred_row) (s : gmap bytes sec_row) : sec_db :=
  mkSecDb (sd_auth d) c s (challenges d) (limits d) (mail_outbox d) (registrations d) (drawn d).
Definition set_drawn (d : sec_db) (i : gset bytes) : sec_db :=
  mkSecDb (sd_auth d) (credentials d) (account_security d) (challenges d) (limits d) (mail_outbox d) (registrations d) i.
Definition set_registrations (d : sec_db) (r : gmap bytes bytes) : sec_db :=
  mkSecDb (sd_auth d) (credentials d) (account_security d) (challenges d) (limits d) (mail_outbox d) r (drawn d).

(** ** The unit of a transaction *)

(** The copy of the database and the account that the transaction holds. *)
Record tx_state := mkTx { tx_db : sec_db; tx_account : option Account }.

Definition with_db (s : tx_state) (d : sec_db) : tx_state := mkTx d (tx_account s).

(** Statements that are not errors of the connection return a [Failure]. *)
Abbreviation reply_of A := (result sec_error A).

Definition unit_Challenge (s : tx_state) (id : bytes) : reply_of Challenge :=
  match tx_account s with
  | None => Err (Failed TokenExpired)
  | Some a =>
      match challenges (tx_db s) !! id with
      | Some c => if bool_decide (ch_Subject c = Subject a) then Ok c else Err (Failed TokenExpired)
      | None => Err (Failed TokenExpired)
      end
  end.

(** [ORDER BY sent_at DESC, challenge_id DESC LIMIT 1] *)
Definition challenge_before (c c' : Challenge) : bool :=
  (ch_SentAt c <? ch_SentAt c') || ((ch_SentAt c =? ch_SentAt c') && bytes_before (ch_ID c) (ch_ID c')).
Definition latest_of (cs : list Challenge) : option Challenge :=
  fold_left (fun best c => match best with Some b => if challenge_before b c then Some c else best | None => Some c end) cs None.
Definition unit_LatestChallenge (s : tx_state) (purpose : Purpose) : reply_of (option Challenge) :=
  Ok (a ← tx_account s;
      latest_of (List.filter (fun c => bool_decide (ch_Subject c = Subject a) && bool_decide (ch_Purpose c = purpose)) (map_to_list (challenges (tx_db s))).*2)).

(** The constraints of [auth.security_challenges]. *)
Definition check_challenge (c : Challenge) : bool :=
  (len (ch_ID c) =? 16) && (len (ch_Digest c) =? 32) && (0 <? ch_Revision c) && (len (ch_Email c) <=? 254) &&
  between 0 (Attempts c) 3 && between 1 (Sends c) 5 &&
  (bool_decide (RegistrationDigest c = no_digest) || bool_decide (ch_Purpose c = VerifyEmail) && (len (RegistrationDigest c) =? 32)).

(** The columns that a conflict updates. *)
Definition updated_challenge (old c : Challenge) : Challenge :=
  mkChallenge (ch_ID old) (ch_Subject old) (ch_Purpose old) (ch_Digest c) (RegistrationDigest old) (ch_Revision old) (ch_Email old)
    (ch_ExpiresAt c) (ch_SentAt c) (Attempts c) (Sends c) (UsedAt c).

Definition sql_upsert_challenge (m : gmap bytes Challenge) (c : Challenge) : option (gmap bytes Challenge) :=
  if negb (check_challenge c) then None else
  match m !! ch_ID c with
  | None => Some (<[ch_ID c := c]> m)
  | Some old =>
      if bool_decide (ch_Subject old = ch_Subject c) && bool_decide (ch_Purpose old = ch_Purpose c) then Some (<[ch_ID c := updated_challenge old c]> m)
      else Some m
  end.

Definition unit_SaveChallenge (s : tx_state) (c : Challenge) : tx_state * reply_of unit :=
  match tx_account s with
  | Some a =>
      if negb (bool_decide (ch_Subject c = Subject a)) then (s, Err (Failed Unavailable)) else
      match sql_upsert_challenge (challenges (tx_db s)) c with
      | Some m => (with_db s (set_challenges (tx_db s) m), Ok tt)
      | None => (s, Err SecOther)
      end
  | None => (s, Err (Failed Unavailable))
  end.

(** [ReserveBudget]: the row after an attempt and the number of the attempt in its
    window, or [limit + 1]; a refused attempt leaves the row that it found, whose
    window is not over *)
Definition reserve (row : option limit_row) (now limit window : Z) : limit_row * Z :=
  let row := match row with Some r => r | None => mkLimitRow 0 (now + window) end in
  let row := if negb (now <? lim_expires row) then mkLimitRow 0 (now + window) else row in
  if limit <=? lim_attempts row then (row, limit + 1)
  else (mkLimitRow (lim_attempts row + 1) (lim_expires row), lim_attempts row + 1).

Definition unit_ReserveBudget (s : tx_state) (bucket : bytes) (now limit window : Z) : tx_state * reply_of Z :=
  if (limit <? 1) || (100 <? limit) || (window <? 1000000000) then (s, Err (Failed Unavailable)) else
  let '(row, n) := reserve (limits (tx_db s) !! bucket) now limit window in
  (with_db s (set_limits (tx_db s) (<[bucket := row]> (limits (tx_db s)))), Ok n).

Definition unit_ResetAttempts (s : tx_state) (bucket : bytes) : tx_state * reply_of unit :=
  (with_db s (set_limits (tx_db s) (delete bucket (limits (tx_db s)))), Ok tt).

(** [Queue]; the limit on the size of the encoded mail is left out *)
Definition unit_Queue (s : tx_state) (m : Mail) : tx_state * reply_of unit :=
  match tx_account s with
  | Some a =>
      if negb (bool_decide (m_Subject m = Subject a)) || bool_decide (m_ID m = no_id) || bool_decide (m_Email m = []) || negb (m_At m <? m_ExpiresAt m)
      then (s, Err (Failed Unavailable)) else
      if bool_decide (is_Some (mail_outbox (tx_db s) !! m_ID m)) then (s, Err SecOther) else
      (with_db s (set_outbox (tx_db s) (<[m_ID m := mkMailRow (Some m) (m_At m) (m_At m) (m_ExpiresAt m) 0 None None]> (mail_outbox (tx_db s)))), Ok tt)
  | None => (s, Err (Failed Unavailable))
  end.

(** *** Sessions *)

Definition unit_CheckSession (s : tx_state) (record : Record_) (now : Z) : reply_of unit :=
  match tx_account s with
  | Some a =>
      if negb (bool_decide (Subject a = SubjectID record)) || negb (bool_decide (DeletionAt a = None)) || negb (bool_decide (DeletedAt a = None))
      then Err (Failed InvalidCredentials) else
      match sessions (sd_auth (tx_db s)) !! rec_ID record with
      | Some r =>
          let v := sr_record r in
          if bool_decide (SubjectID v = SubjectID record) && bool_decide (RevokedAt v = None) && (now <? AccessExpiresAt v) && (now <? ExpiresAt v) &&
             (Version v =? Version record)
          then Ok tt else Err (Failed InvalidCredentials)
      | None => Err (Failed InvalidCredentials)
      end
  | None => Err (Failed InvalidCredentials)
  end.

Definition unit_CreateSession (s : tx_state) (r : Record_) (dg : digest) : tx_state * reply_of unit :=
  match tx_account s with
  | Some a =>
      if negb (bool_decide (SubjectID r = Subject a)) || negb (bool_decide (DeletionAt a = None)) || negb (bool_decide (DeletedAt a = None)) || negb (Verified a)
      then (s, Err (Failed InvalidCredentials)) else
      match sql_create (sd_auth (tx_db s)) r dg with
      | (d, Some _) => (with_db s (set_auth (tx_db s) d), Ok tt)
      | (_, None) => (s, Err SecOther)
      end
  | None => (s, Err (Failed InvalidCredentials))
  end.

Definition unit_RevokeSessions (s : tx_state) (now : Z) : tx_state * reply_of unit :=
  match tx_account s with
  | Some a => (with_db s (set_auth (tx_db s) (sql_revoke (sd_auth (tx_db s)) now "credential_change" (has_subject (Subject a)))), Ok tt)
  | None => (s, Err (Failed InvalidCredentials))
  end.

Definition unit_RevokeSession (s : tx_state) (id : session_id) (now : Z) : tx_state * reply_of unit :=
  match tx_account s with
  | Some a =>
      (with_db s (set_auth (tx_db s) (sql_revoke (sd_auth (tx_db s)) now "administrative" (fun r => has_id id r && has_subject (Subject a) r))), Ok tt)
  | None => (s, Err (Failed InvalidCredentials))
  end.

(** [ORDER BY created_at DESC LIMIT 100] *)
Definition newer (a b : Record_) : Prop := CreatedAt b <= CreatedAt a.
#[export] Instance newer_dec : RelDecision newer.
Proof. intros a b. unfold newer. apply _. Defined.
Definition unit_Sessions (s : tx_state) (now : Z) : reply_of (list Record_) :=
  match tx_account s with
  | Some a =>
      Ok (take 100 (merge_sort newer (sr_record <$> List.filter (fun r => let v := sr_record r in
        bool_decide (SubjectID v = Subject a) && bool_decide (RevokedAt v = None) && (now <? ExpiresAt v) && (now <? RefreshExpiresAt v))
        (map_to_list (sessions (sd_auth (tx_db s)))).*2)))
  | None => Err (Failed InvalidCredentials)
  end.

(** ** Calls of a transaction *)

(** [Account] reads the account of the unit and [SetAccount] stores through the
    pointer; the rest of the calls are statements, the clock, the source of random
    bytes and the password hasher. *)
Inductive ucall :=
| UAccount
| USetAccount (a : Account)
| UChallenge (id : bytes)
| ULatest (purpose : Purpose)
| USave (c : Challenge)
| UQueue (m : Mail)
| UBudget (bucket : bytes) (now limit window : Z)
| UReset (bucket : bytes)
| UCreate (r : Record_) (dg : digest)
| URevokeAll (now : Z)
| URevokeOne (id : session_id) (now : Z)
| USessions (now : Z)
| UCheckSession (r : Record_) (now : Z)
(** the calls of [Prepare]: clock and random bytes *)
| UProcess (c : call)
(** 16 random bytes, 32 random bytes, a number below 1000000 *)
| UNewID
| UNewSecret
| UNewNumber
| UHash (password : bytes)
| UVerify (password digest : bytes)
| UEqualize (password : bytes).

Definition ureply (c : ucall) : Type :=
  match c with
  | UAccount => option Account
  | USetAccount _ => unit
  | UChallenge _ => reply_of Challenge
  | ULatest _ => reply_of (option Challenge)
  | USave _ | UQueue _ | UReset _ | UCreate _ _ | URevokeAll _ | URevokeOne _ _ | UCheckSession _ _ => reply_of unit
  | UBudget _ _ _ _ => reply_of Z
  | USessions _ => reply_of (list Record_)
  | UProcess c => reply c
  | UNewID | UNewSecret => option bytes
  | UNewNumber => option Z
  | UHash _ => option bytes
  | UVerify _ _ => option (bool * bool)
  | UEqualize _ => option unit
  end.

(** What the outside decides about one call. *)
Record uworld := mkUWorld {
  (** the statement fails *)
  uw_failed : option sec_error;
  uw_clock : Z;
  uw_bytes : option bytes;
  uw_number : option Z;
  uw_hash : option bytes;
  uw_verify : option (bool * bool)
}.

Definition all_bytes (b : bytes) : bool := forallb (fun x => (0 <=? x) && (x <? 256)) b.
Definition random_bytes (w : uworld) (n : nat) : option bytes :=
  b ← uw_bytes w; if (length b =? n)%nat && all_bytes b then Some b else None.

Definition failing {A} (w : uworld) (s : tx_state) (r : tx_state * reply_of A) : tx_state * reply_of A :=
  match uw_failed w with Some e => (s, Err e) | None => r end.

Definition urespond (w : uworld) (s : tx_state) (c : ucall) : tx_state * ureply c :=
  match c return tx_state * ureply c with
  | UAccount => (s, tx_account s)
  | USetAccount a => (mkTx (tx_db s) ((fun _ => a) <$> tx_account s), tt)
  | UChallenge id => failing w s (s, unit_Challenge s id)
  | ULatest p => failing w s (s, unit_LatestChallenge s p)
  | USave c => failing w s (unit_SaveChallenge s c)
  | UQueue m => failing w s (unit_Queue s m)
  | UBudget b now limit window => failing w s (unit_ReserveBudget s b now limit window)
  | UReset b => failing w s (unit_ResetAttempts s b)
  | UCreate r dg => failing w s (unit_CreateSession s r dg)
  | URevokeAll now => failing w s (unit_RevokeSessions s now)
  | URevokeOne id now => failing w s (unit_RevokeSession s id now)
  | USessions now => failing w s (s, unit_Sessions s now)
  | UCheckSession r now => failing w s (s, unit_CheckSession s r now)
  | UProcess c =>
      (s, match c return reply c with
          | ClockNow => uw_clock w
          | RandomRead n => random_bytes w n
          | DbCreate _ _ | DbRevoke _ _ _ | DbRevokeAll _ _ _ | DbRevokeOf _ _ _ => None
          | DbFind _ => FindFailed
          | DbRotate _ _ _ _ _ _ => TxFailed
          | CachePut _ _ | CacheGet _ => None
          | CacheDrop _ => tt
          | IssueAssertion _ _ _ => Err ErrOther
          end)
  | UNewID =>
      match random_bytes w 16 with
      | Some id => if bool_decide (id ∈ drawn (tx_db s)) then (s, None) else (with_db s (set_drawn (tx_db s) ({[id]} ∪ drawn (tx_db s))), Some id)
      | None => (s, None)
      end
  | UNewSecret => (s, random_bytes w 32)
  | UNewNumber => (s, n ← uw_number w; if (0 <=? n) && (n <? 1000000) then Some n else None)
  | UHash _ => (s, uw_hash w)
  | UVerify _ _ => (s, uw_verify w)
  | UEqualize _ => (s, _ ← uw_hash w; Some tt)
  end.

Abbreviation uprog := (program ureply).
Abbreviation utrace := (trace_of ureply).
Abbreviation uperform := (Effects.perform (reply := ureply)).

(** A transaction runs its body, call by call; [n] counts the calls. *)
Fixpoint tx_exec {A} (w : nat -> uworld) (n : nat) (s : tx_state) (t : utrace) (p : uprog A) : tx_state * utrace * A :=
  match p with
  | Ret a => (s, t, a)
  | Do c k => let '(s', r) := urespond (w n) s c in tx_exec w (S n) s' (t ++ [existT c r]) (k r)
  end.

(** ** [WithAccount] *)

Inductive Selector := ByEmail (email : bytes) | BySubject (subject : bytes).

Definition selected (d : sec_db) (sel : Selector) : option (bytes * cred_row) :=
  match sel with
  | BySubject subject => r ← credentials d !! subject; Some (subject, r)
  | ByEmail email => list_find (fun x => identifier x.2 = email) (map_to_list (credentials d)) ≫= fun x => Some x.2
  end.
Definition empty_selector (sel : Selector) : bool :=
  match sel with ByEmail email => bool_decide (email = []) | BySubject subject => bool_decide (subject = no_id) end.

(** [INSERT INTO auth.account_security(subject_id) ... ON CONFLICT DO NOTHING] *)
Definition default_security : sec_row := mkSecRow false true 1 None None.
Definition ensure_security (d : sec_db) (subject : bytes) : sec_db :=
  match account_security d !! subject with
  | Some _ => d
  | None => set_accounts d (credentials d) (<[subject := default_security]> (account_security d))
  end.

Definition account_of (subject : bytes) (r : cred_row) (x : sec_row) : Account :=
  mkAccount subject (identifier r) (password_digest r) (email_verified x) (login_code_enabled x) (revision x) (deletion_at x) (deleted_at x).

(** The two updates at the end; [None] if a constraint fails. *)
Definition check_credential (r : cred_row) : bool := between 3 (len (identifier r)) 254 && between 1 (len (password_digest r)) 512.
Definition identifier_taken (d : sec_db) (subject email : bytes) : bool :=
  existsb (fun x => bool_decide (identifier x.2 = email) && negb (bool_decide (x.1 = subject))) (map_to_list (credentials d)).
(** [credentials_identifier_unique], for a new account *)
Definition identifier_used (d : sec_db) (email : bytes) : bool := existsb (fun x => bool_decide (identifier x.2 = email)) (map_to_list (credentials d)).
Definition store_account (d : sec_db) (before a : Account) : option sec_db :=
  d ← (if negb (bool_decide (ac_Email a = ac_Email before)) || negb (bool_decide (ac_PasswordDigest a = ac_PasswordDigest before)) then
         let r := mkCredRow (ac_Email a) (ac_PasswordDigest a) in
         if check_credential r && negb (identifier_taken d (Subject a) (ac_Email a))
         then Some (set_accounts d (<[Subject a := r]> (credentials d)) (account_security d)) else None
       else Some d);
  if negb (bool_decide (a = before)) then
    if 0 <? Revision a
    then Some (set_accounts d (credentials d) (<[Subject a := mkSecRow (Verified a) (CodeEnabled a) (Revision a) (DeletionAt a) (DeletedAt a)]> (account_security d)))
    else None
  else Some d.

(** What the body of a transaction sees and how it ends. *)
Definition tx_body {A} (w : nat -> uworld) (d : sec_db) (sel : Selector) (body : uprog (reply_of A)) : option sec_db * utrace * reply_of A :=
  match selected d sel with
  | None =>
      match tx_exec w 0 (mkTx d None) [] body with
      | (s, t, Ok a) => (Some (tx_db s), t, Ok a)
      | (_, t, r) => (None, t, r)
      end
  | Some (subject, r) =>
      match NewPasswordDigest (password_digest r) with
      | Ok _ =>
          let d := ensure_security d subject in
          match account_security d !! subject with
          | None => (None, [], Err SecOther)
          | Some x =>
              let before := account_of subject r x in
              match tx_exec w 0 (mkTx d (Some before)) [] body with
              | (s, t, Ok v) =>
                  match tx_account s with
                  | Some a =>
                      if negb (bool_decide (Subject a = Subject before)) then (None, t, Err (Failed Unavailable)) else
                      match store_account (tx_db s) before a with
                      | Some d' => (Some d', t, Ok v)
                      | None => (None, t, Err SecOther)
                      end
                  | None => (None, t, Err SecOther)
                  end
              | (_, t, r) => (None, t, r)
              end
          end
      | _ => (None, [], Err SecOther)
      end
  end.

(** [sanitize] *)
Definition sanitize {A} (r : reply_of A) : reply_of A :=
  match r with
  | Err e => if IsExpected e then r else match e with SecCanceled | SecDeadline => r | _ => Err (Failed Unavailable) end
  | _ => r
  end.

Definition WithAccount {A} (w : nat -> uworld) (f : fault) (d : sec_db) (sel : Selector) (body : uprog (reply_of A)) : sec_db * (utrace * reply_of A) :=
  if empty_selector sel then (d, ([], Err (Failed InvalidInput))) else
  match tx_body w d sel body with
  | (Some d', t, r) =>
      match f with
      | Healthy => (d', (t, r))
      | FailsBefore => (d, (t, Err (Failed Unavailable)))
      | FailsAfter => (d', (t, Err (Failed Unavailable)))
      end
  | (None, t, r) => (d, (t, sanitize r))
  end.

(** ** The other operations *)

Definition ChallengeSubject (d : sec_db) (id : bytes) : reply_of bytes :=
  match challenges d !! id with Some c => Ok (ch_Subject c) | None => Err (Failed TokenExpired) end.

(** [Register]; a taken address changes nothing and is not an error.  The unit of
    the new account stores the challenge and queues the mail. *)
Definition RegisterTx (d : sec_db) (subject email password : bytes) (event : bytes) (c : Challenge) (m : Mail) : sec_db * reply_of unit :=
  if negb (bool_decide (ch_Subject c = subject)) || negb (bool_decide (m_Subject m = subject)) then (d, Err (Failed InvalidInput)) else
  if identifier_used d email then (d, Ok tt) else
  let r := mkCredRow email password in
  if bool_decide (is_Some (credentials d !! subject)) || negb (check_credential r) || negb (len subject =? 16) ||
     bool_decide (is_Some (registrations d !! event)) || bool_decide (is_Some (account_security d !! subject)) then (d, Err (Failed Unavailable)) else
  let d1 := set_accounts (set_registrations d (<[event := subject]> (registrations d)))
              (<[subject := r]> (credentials d)) (<[subject := mkSecRow false true 1 None None]> (account_security d)) in
  let s := mkTx d1 (Some (mkAccount subject email password false true 1 None None)) in
  match unit_SaveChallenge s c with
  | (s, Ok _) =>
      match unit_Queue s m with
      | (s, Ok _) => (tx_db s, Ok tt)
      | (_, r) => (d, sanitize r)
      end
  | (_, r) => (d, sanitize r)
  end.
