(* ===== verification/AuthSecurity.v ===== *)
(** * Auth: account security

    [services/auth/internal/application/security]: registration, sign-in with a
    password and a code, e-mail links, changes of credentials, and the sessions of an
    account, as programs whose transactions are programs over the calls of a unit. *)

From S2P Require Import Prelude GoStrings GoUnicode Sha256 GoEncoding Effects AuthDomain AuthToken AuthStore AuthSession AuthSecurityStore.
Local Open Scope Z_scope.

Definition Minute : Z := 60 * Second.
Definition Hour : Z := 60 * Minute.
Definition codeTTL : Z := 10 * Minute.
Definition resendDelay : Z := Minute.

(** ** Secrets *)

Definition newID : uprog (reply_of bytes) :=
  r ← uperform UNewID; Ret (match r with Some id => Ok id | None => Err (Failed Unavailable) end).
Definition newSecret : uprog (reply_of bytes) :=
  r ← uperform UNewSecret; Ret (match r with Some b => Ok (base64_Encode b) | None => Err (Failed Unavailable) end).

(** [fmt.Sprintf("%06d", n)] for a number below 1000000 *)
Definition six_digits (n : Z) : bytes := (fun k => 48 + n / 10 ^ k `mod` 10) <$> [5; 4; 3; 2; 1; 0].
Definition newCode : uprog (reply_of bytes) :=
  r ← uperform UNewNumber; Ret (match r with Some n => Ok (six_digits n) | None => Err (Failed Unavailable) end).

(** [token] and [parseToken]; the secret is checked to be 32 bytes of base64 and
    kept as text *)
Definition token (id secret : bytes) : bytes := hex_EncodeToString id ++ dot :: secret.
Definition decodes_32 (s : bytes) : bool := bool_decide (length (List.filter not_newline s) = 43%nat) && forallb (fun c => bool_decide (is_Some (b64_value c))) (List.filter not_newline s).
Definition parseToken (value : bytes) : reply_of (bytes * bytes) :=
  match strings_Split value dot with
  | [id; secret] =>
      reject_if (negb (len id =? 32) || negb (len secret =? 43)) (Failed TokenExpired);;
      match hex_DecodeString id with
      | Some decoded => reject_if (negb (decodes_32 secret)) (Failed TokenExpired);; Ok (decoded, secret)
      | None => Err (Failed TokenExpired)
      end
  | _ => Err (Failed TokenExpired)
  end.

(** [url.QueryEscape] *)
Definition hex_upper (n : Z) : Z := if n <? 10 then 48 + n else 55 + n.
Definition QueryEscape (s : bytes) : bytes :=
  concat ((fun c => if between 48 c 57 || between 65 c 90 || between 97 c 122 || bool_decide (c ∈ bytes_of "-_.~") then [c]
                    else if c =? 32 then [43] else [37; hex_upper (c / 16); hex_upper (c `mod` 16)]) <$> s).

(** ** The service *)

Record SecConfig := mkSecConfig {
  cf_key : bytes;
  cf_origin : bytes;
  cf_sessions : Config;
  (** a code is drawn again while its digest repeats, at most this often *)
  cf_draws : nat
}.

Record LoginResult := mkLoginResult { ChallengeID : bytes; ExpiresIn : Z; lr_Tokens : option Tokens }.

(** What a transaction yields: an expected rejection that is committed, or a value. *)
Inductive tx_value :=
| Rejected (e : sec_error)
| Done
| Challenged (id : bytes) (expiresIn : Z)
| Issued (tk : Tokens)
| Remaining (ttl : Z)
| TheAccount (a : Account)
| TheSessions (l : list Record_).

Abbreviation body := (uprog (reply_of tx_value)).

(** [if domain.IsExpected(err) { outcome = err; return nil }] *)
Definition commit_expected (p : body) : body :=
  r ← p;
  Ret (match r with Err e => if IsExpected e then Ok (Rejected e) else Err e | _ => r end).

(** [s.sessions.Prepare] inside a transaction *)
Fixpoint lift_process {A} (p : prog A) : uprog A :=
  match p with Ret a => Ret a | Do c k => Do (UProcess c) (fun r => lift_process (k r)) end.

Definition unit_now : uprog Z := lift_process service_now.

(** [tx.Account()], which is not nil *)
Definition with_account_of {A} (f : Account -> uprog (reply_of A)) : uprog (reply_of A) :=
  a ← uperform UAccount; match a with Some a => f a | None => Ret Panic end.

Definition increment (a : Account) : reply_of Account :=
  reject_if (Revision a =? 9223372036854775807) (Failed Unavailable);;
  Ok (mkAccount (Subject a) (ac_Email a) (ac_PasswordDigest a) (Verified a) (CodeEnabled a) (Revision a + 1) (DeletionAt a) (DeletedAt a)).
(** [increment(tx.Account())] *)
Definition increment_account : uprog (reply_of unit) :=
  with_account_of $ fun a => match increment a with Ok a => _ ← uperform (USetAccount a); Ret (Ok tt) | Err e => Ret (Err e) | Panic => Ret Panic end.

Definition set_password (a : Account) (digest : bytes) : Account :=
  mkAccount (Subject a) (ac_Email a) digest (Verified a) (CodeEnabled a) (Revision a) (DeletionAt a) (DeletedAt a).
Definition set_verified (a : Account) : Account :=
  mkAccount (Subject a) (ac_Email a) (ac_PasswordDigest a) true (CodeEnabled a) (Revision a) (DeletionAt a) (DeletedAt a).
Definition set_email (a : Account) (email : bytes) : Account :=
  mkAccount (Subject a) email (ac_PasswordDigest a) (Verified a) (CodeEnabled a) (Revision a) (DeletionAt a) (DeletedAt a).
Definition set_code_enabled (a : Account) (enabled : bool) : Account :=
  mkAccount (Subject a) (ac_Email a) (ac_PasswordDigest a) (Verified a) enabled (Revision a) (DeletionAt a) (DeletedAt a).

Definition set_used (c : Challenge) (now : Z) : Challenge :=
  mkChallenge (ch_ID c) (ch_Subject c) (ch_Purpose c) (ch_Digest c) (RegistrationDigest c) (ch_Revision c) (ch_Email c) (ch_ExpiresAt c) (ch_SentAt c)
    (Attempts c) (Sends c) (Some now).

(** ** The calls of an operation *)

(** The calls of an operation: a transaction, the two other operations of the store,
    the process, and the sessions. *)
Inductive scall :=
| SWithAccount (sel : Selector) (b : body)
| SChallengeSubject (id : bytes)
| SRegister (subject email password event : bytes) (c : Challenge) (m : Mail)
| SProcess (u : ucall)
(** [events.New] *)
| SEvent
| SAuth (c : call).

Definition sreply (c : scall) : Type :=
  match c with
  | SWithAccount _ _ => utrace * reply_of tx_value
  | SChallengeSubject _ => reply_of bytes
  | SRegister _ _ _ _ _ _ => reply_of unit
  | SProcess u => ureply u
  | SEvent => option bytes
  | SAuth c => reply c
  end.

Abbreviation sprog := (program sreply).
Abbreviation strace := (trace_of sreply).
Abbreviation sperform := (Effects.perform (reply := sreply)).

Fixpoint lift_unit {A} (p : uprog A) : sprog A :=
  match p with Ret a => Ret a | Do c k => Do (SProcess c) (fun r => lift_unit (k r)) end.
Fixpoint lift_auth {A} (p : prog A) : sprog A :=
  match p with Ret a => Ret a | Do c k => Do (SAuth c) (fun r => lift_auth (k r)) end.

Definition of_session {A} (r : result session_error A) : reply_of A :=
  map_err (fun e => match e with ErrCanceled => SecCanceled | ErrDeadlineExceeded => SecDeadline | _ => SecSession e end) r.
(** [safe]; it is [sanitize] of the store *)
Definition safe {A} (r : reply_of A) : reply_of A := sanitize r.

(** A transaction and its outcome. *)
Definition transaction (sel : Selector) (b : body) : sprog (reply_of tx_value) :=
  r ← sperform (SWithAccount sel b);
  Ret (match safe r.2 with Ok (Rejected e) => Err e | r => r end).

Section service.
Context `{UnicodeTables} (config : SecConfig).

(** [service.digest] *)
Definition sec_digest (purpose : string) (id value : bytes) : bytes :=
  hmac_sha256 (cf_key config) (bytes_of purpose ++ [0] ++ id ++ value).

Definition link (action : string) (secret : bytes) : bytes :=
  cf_origin config ++ bytes_of "/account/security/" ++ bytes_of action ++ bytes_of "#token=" ++ QueryEscape secret.
Definition reset_url : bytes := cf_origin config ++ bytes_of "/account/security/reset".

Definition notice (kind : string) : uprog (reply_of unit) :=
  try newID (fun id =>
  with_account_of $ fun a =>
  now ← unit_now;
  later ← unit_now;
  uperform (UQueue (mkMail id (Subject a) kind (ac_Email a) [] reset_url [] now (later + 24 * Hour)))).

Definition issue : uprog (reply_of Tokens) :=
  with_account_of $ fun a =>
  prepared ← lift_process (Prepare (cf_sessions config) (Subject a));
  match prepared with
  | Ok tokens =>
      try (uperform (UCreate (tk_Record tokens) (token_Digest (tk_Refresh tokens)))) (fun _ =>
      try (notice "new_login") (fun _ => Ret (Ok tokens)))
  | Err _ => Ret (Err (Failed Unavailable))
  | Panic => Ret Panic
  end.

(** *** Codes *)

(** A code whose digest differs from the current one. *)
Fixpoint fresh_code (fuel : nat) (c : Challenge) : uprog (reply_of (bytes * bytes)) :=
  match fuel with
  | O => Ret (Err (Failed Unavailable))
  | S fuel =>
      try newCode (fun code =>
      let next := sec_digest (purpose_string (ch_Purpose c)) (ch_ID c) code in
      if bool_decide (next = ch_Digest c) then fresh_code fuel c else Ret (Ok (code, next)))
  end.

Definition replaced (c : Challenge) (next : bytes) (now : Z) : Challenge :=
  mkChallenge (ch_ID c) (ch_Subject c) (ch_Purpose c) next (RegistrationDigest c) (ch_Revision c) (ch_Email c) (ch_ExpiresAt c) now 0 (Sends c + 1) (UsedAt c).

Definition replaceCode (c : Challenge) : uprog (reply_of Challenge) :=
  refuse (5 <=? Sends c) (Failed CodeExpired) $
  let budget := sec_digest "code-mail-budget" (ch_Subject c) (bytes_of (purpose_string (ch_Purpose c))) in
  now ← unit_now;
  try (uperform (UBudget budget now 5 codeTTL)) (fun n =>
  refuse (5 <? n) (Failed RateLimited) $
  try (fresh_code (cf_draws config) c) (fun drawn =>
  let '(code, next) := drawn in
  now ← unit_now;
  let c := replaced c next now in
  try (uperform (USave c)) (fun _ =>
  try newID (fun id =>
  with_account_of $ fun a =>
  now ← unit_now;
  try (uperform (UQueue (mkMail id (ch_Subject c) "code" (ac_Email a) [] reset_url code now (ch_ExpiresAt c)))) (fun _ => Ret (Ok c)))))).

Definition createCode (purpose : Purpose) : uprog (reply_of Challenge) :=
  try newID (fun id =>
  with_account_of $ fun a =>
  now ← unit_now;
  replaceCode (mkChallenge id (Subject a) purpose no_digest no_digest (Revision a) [] (now + codeTTL) 0 0 0 None)).

Definition count_attempt (c : Challenge) : Challenge :=
  mkChallenge (ch_ID c) (ch_Subject c) (ch_Purpose c) (ch_Digest c) (RegistrationDigest c) (ch_Revision c) (ch_Email c) (ch_ExpiresAt c) (ch_SentAt c)
    (Attempts c + 1) (Sends c) (UsedAt c).

Definition is_code (code : bytes) : bool := (len code =? 6) && forallb (fun char => between 48 char 57) (runes code).

Definition checkCode (c : Challenge) (purpose : Purpose) (code : bytes) : uprog (reply_of unit) :=
  with_account_of $ fun a =>
  now ← unit_now;
  match challenge_Check c a purpose now with
  | Ok _ =>
      refuse (negb (is_code code)) (Failed CodeMismatch) $
      let budget := sec_digest "code-attempt-budget" (ch_Subject c) (bytes_of (purpose_string purpose)) in
      now ← unit_now;
      try (uperform (UBudget budget now 15 codeTTL)) (fun n =>
      refuse (15 <? n) (Failed RateLimited) $
      if bool_decide (sec_digest (purpose_string purpose) (ch_ID c) code = ch_Digest c) then Ret (Ok tt) else
      let c := count_attempt c in
      if 3 <=? Attempts c then
        if 5 <=? Sends c then
          now ← unit_now;
          try (uperform (USave (set_used c now))) (fun _ => Ret (Err (Failed CodeExpired)))
        else
          try (replaceCode c) (fun _ => Ret (Err (Failed CodeReissued)))
      else
        try (uperform (USave c)) (fun _ => Ret (Err (Failed CodeMismatch))))
  | _ => Ret (Err (Failed CodeExpired))
  end.

(** *** Links *)

Definition tokenChallenge (account : Account) (purpose : Purpose) (email : bytes) (ttl : Z) : uprog (reply_of (Challenge * Mail)) :=
  try newID (fun id =>
  try newSecret (fun secret =>
  try newID (fun mailID =>
  now ← unit_now;
  Ret (Ok (mkChallenge id (Subject account) purpose (sec_digest (purpose_string purpose) id secret) no_digest (Revision account) email (now + ttl) now 0 1 None,
           mkMail mailID (Subject account) (purpose_string purpose) email [] (link (purpose_string purpose) (token id secret)) [] now (now + ttl)))))).

Definition login_bucket (email : bytes) : bytes := sec_digest "login-limit" no_id email.

Definition loginAttempts : Z := 5.
Definition loginWindow : Z := 15 * Minute.
(** [ReserveAttempt] *)
Definition ReserveAttempt (bucket : bytes) (now : Z) : uprog (reply_of Z) := uperform (UBudget bucket now loginAttempts loginWindow).

(** *** Sign-in *)

(** The password is wrong, or there is no account to sign in to. *)
Definition login_failed (account : option Account) (attempt : Z) : body :=
  if negb (attempt =? 5) then Ret (Ok (Rejected (Failed InvalidCredentials))) else
  match account with
  | Some a =>
      if bool_decide (DeletedAt a = None) then try (notice "account_locked") (fun _ => Ret (Ok (Rejected (Failed LoginLocked))))
      else Ret (Ok (Rejected (Failed LoginLocked)))
  | None => Ret (Ok (Rejected (Failed LoginLocked)))
  end.

(** The password is right: a code is sent if the account asks for one, or a session
    is issued. *)
Definition login_code (account : Account) (now : Z) : body :=
  try (uperform (ULatest LoginCode)) (fun latest =>
  let sent c := Ret (Ok (Challenged (ch_ID c) (ch_ExpiresAt c - now))) in
  let create := try (createCode LoginCode) sent in
  match latest with
  | Some challenge =>
      match challenge_Check challenge account LoginCode now with
      | Ok _ =>
          if now - ch_SentAt challenge <? resendDelay then Ret (Ok (Rejected (Failed RateLimited)))
          else commit_expected (try (replaceCode challenge) sent)
      | _ => create
      end
  | None => create
  end).

Definition login_passed (account : Account) (plain bucket : bytes) (rehash allowChallenge : bool) (now : Z) : body :=
  try (uperform (UReset bucket)) (fun _ =>
  if negb (Verified account) then Ret (Ok (Rejected (Failed EmailUnverified))) else
  let signed (account : Account) : body :=
    if CodeEnabled account then
      if negb allowChallenge then Ret (Ok (Rejected (Failed CodeRequired))) else login_code account now
    else try issue (fun tokens => Ret (Ok (Issued tokens))) in
  if rehash then
    hash ← uperform (UHash plain);
    match hash with
    | Some digest => _ ← uperform (USetAccount (set_password account digest)); signed (set_password account digest)
    | None => Ret (Err (Failed Unavailable))
    end
  else signed account).

Definition login_body (plain bucket : bytes) (allowChallenge : bool) (now : Z) : body :=
  try (ReserveAttempt bucket now) (fun attempt =>
  if 5 <? attempt then Ret (Ok (Rejected (Failed LoginLocked))) else
  account ← uperform UAccount;
  match account with
  | None =>
      equalized ← uperform (UEqualize plain);
      match equalized with Some _ => login_failed None attempt | None => Ret (Err (Failed Unavailable)) end
  | Some a =>
      verified ← uperform (UVerify plain (ac_PasswordDigest a));
      match verified with
      | Some (valid, rehash) =>
          if negb valid || negb (bool_decide (DeletionAt a = None)) || negb (bool_decide (DeletedAt a = None)) then login_failed (Some a) attempt
          else login_passed a plain bucket rehash allowChallenge now
      | None => Ret (Err (Failed Unavailable))
      end
  end).

Definition complete_login_body (code : bytes) (challenge : Challenge) : body :=
  try (checkCode challenge LoginCode code) (fun _ =>
  with_account_of $ fun account =>
  refuse (negb (Verified account) || negb (CodeEnabled account) || negb (bool_decide (DeletionAt account = None))) (Failed CodeExpired) $
  now ← unit_now;
  try (uperform (USave (set_used challenge now))) (fun _ =>
  try issue (fun tokens => Ret (Ok (Issued tokens))))).

Definition resend_body (c : Challenge) : body :=
  with_account_of $ fun account =>
  now ← unit_now;
  match challenge_Check c account LoginCode now with
  | Ok _ =>
      now ← unit_now;
      refuse (now - ch_SentAt c <? resendDelay) (Failed RateLimited) $
      try (replaceCode c) (fun c => now ← unit_now; Ret (Ok (Remaining (ch_ExpiresAt c - now))))
  | _ => Ret (Err (Failed CodeExpired))
  end.

(** *** Links and credentials *)

(** The digest of the browser that registered, kept while its link is valid. *)
Definition registration_binding (latest : Challenge) (account : Account) (purpose : Purpose) : uprog bytes :=
  if bool_decide (purpose = VerifyEmail) then
    now ← unit_now;
    Ret (match challenge_Check latest account purpose now with Ok _ => RegistrationDigest latest | _ => no_digest end)
  else Ret no_digest.

(** A new link is stored and mailed; one that is bound to a browser expires with the
    link that it replaces. *)
Definition bound_challenge (c : Challenge) (registrationDigest : bytes) (expiresAt : Z) : Challenge :=
  mkChallenge (ch_ID c) (ch_Subject c) (ch_Purpose c) (ch_Digest c) registrationDigest (ch_Revision c) (ch_Email c) expiresAt (ch_SentAt c) (Attempts c) (Sends c) (UsedAt c).
Definition send_link (account : Account) (purpose : Purpose) (email registrationDigest : bytes) (previousExpiresAt : Z) : body :=
  try (tokenChallenge account purpose email (if bool_decide (purpose = ResetPassword_) then 30 * Minute else 24 * Hour)) (fun '(c, m) =>
  let expiresAt := if bool_decide (registrationDigest = no_digest) then ch_ExpiresAt c else previousExpiresAt in
  try (uperform (USave (bound_challenge c registrationDigest expiresAt))) (fun _ =>
  try (uperform (UQueue (mkMail (m_ID m) (m_Subject m) (Kind m) (m_Email m) (OtherEmail m) (URL m) (Code m) (m_At m) expiresAt))) (fun _ => Ret (Ok Done)))).

Definition request_token_body (purpose : Purpose) (email : bytes) : body :=
  account ← uperform UAccount;
  match account with
  | None => Ret (Ok Done)
  | Some account =>
      if negb (bool_decide (DeletedAt account = None)) || negb (bool_decide (DeletionAt account = None)) || bool_decide (purpose = VerifyEmail) && Verified account
      then Ret (Ok Done) else
      try (uperform (ULatest purpose)) (fun latest =>
      match latest with
      | None => send_link account purpose email no_digest 0
      | Some latest =>
          now ← unit_now;
          if now - ch_SentAt latest <? resendDelay then Ret (Ok Done) else
          registrationDigest ← registration_binding latest account purpose;
          now ← unit_now;
          try (uperform (USave (set_used latest now))) (fun _ =>
          send_link account purpose email registrationDigest (ch_ExpiresAt latest))
      end)
  end.

(** [confirmToken] inside its transaction *)
Definition confirm_body (id secret : bytes) (purpose : Purpose) (apply : Challenge -> body) (c : Challenge) : body :=
  with_account_of $ fun account =>
  now ← unit_now;
  match challenge_Check c account purpose now with
  | Ok _ =>
      refuse (negb (bool_decide (sec_digest (purpose_string purpose) id secret = ch_Digest c))) (Failed TokenExpired) $
      try (apply c) (fun v =>
      now ← unit_now;
      try (uperform (USave (set_used c now))) (fun _ => Ret (Ok v)))
  | Err e => Ret (Err e)
  | Panic => Ret Panic
  end.

Definition confirm_registration_apply (browserSecret : bytes) (c : Challenge) : body :=
  with_account_of $ fun account =>
  refuse (negb (bool_decide (ac_Email account = ch_Email c)) || negb (bool_decide (DeletionAt account = None)) || Verified account) (Failed TokenExpired) $
  _ ← uperform (USetAccount (set_verified account));
  if (len browserSecret =? 43) && negb (bool_decide (RegistrationDigest c = no_digest)) &&
     bool_decide (sec_digest "registration-browser" (Subject account) browserSecret = RegistrationDigest c)
  then try issue (fun tokens => Ret (Ok (Issued tokens)))
  else Ret (Ok Done).

Definition revoke_and_notify (kind : string) : body :=
  now ← unit_now;
  try (uperform (URevokeAll now)) (fun _ =>
  try (notice kind) (fun _ => Ret (Ok Done))).

(** A new digest of the password, stored with [f]. *)
Definition change_password (plain : bytes) (f : Account -> Account) : body :=
  try increment_account (fun _ =>
  hash ← uperform (UHash plain);
  match hash with
  | Some digest =>
      with_account_of $ fun account =>
      _ ← uperform (USetAccount (f (set_password account digest)));
      revoke_and_notify "password_changed"
  | None => Ret (Err (Failed Unavailable))
  end).

Definition reset_password_apply (plain : bytes) (c : Challenge) : body :=
  with_account_of $ fun account =>
  refuse (negb (bool_decide (ac_Email account = ch_Email c)) || negb (bool_decide (DeletionAt account = None))) (Failed TokenExpired) $
  change_password plain set_verified.

Definition confirm_email_change_apply (c : Challenge) : body :=
  with_account_of $ fun account =>
  refuse (negb (bool_decide (DeletionAt account = None))) (Failed TokenExpired) $
  try increment_account (fun _ =>
  with_account_of $ fun account =>
  _ ← uperform (USetAccount (set_verified (set_email account (ch_Email c))));
  now ← unit_now;
  try (uperform (URevokeAll now)) (fun _ => Ret (Ok Done))).

Definition cancel_email_change_apply (c : Challenge) : body := try increment_account (fun _ => Ret (Ok Done)).

(** *** The owner *)

Definition with_owner_body (actor : Record_) (apply : body) : body :=
  now ← unit_now;
  try (uperform (UCheckSession actor now)) (fun _ => commit_expected apply).

Definition verifyPassword (raw : bytes) : uprog (reply_of unit) :=
  with_account_of $ fun account =>
  let bucket := sec_digest "reauth-limit" (Subject account) [] in
  now ← unit_now;
  try (ReserveAttempt bucket now) (fun attempt =>
  refuse (5 <? attempt) (Failed LoginLocked) $
  match NewPassword raw with
  | Ok plain =>
      verified ← uperform (UVerify plain (ac_PasswordDigest account));
      match verified with
      | Some (valid, _) =>
          if (valid : bool) then uperform (UReset bucket)
          else Ret (Err (Failed (if attempt =? 5 then LoginLocked else InvalidCredentials)))
      | None => Ret (Err (Failed Unavailable))
      end
  | _ => Ret (Err (Failed InvalidCredentials))
  end).

Definition change_password_body (oldPassword plain : bytes) : body :=
  try (verifyPassword oldPassword) (fun _ => change_password plain (fun a => a)).

Definition start_email_change_body (newEmail password : bytes) : body :=
  try (verifyPassword password) (fun _ =>
  with_account_of $ fun account =>
  refuse (bool_decide (newEmail = ac_Email account)) (Failed InvalidInput) $
  refuse (negb (Verified account)) (Failed EmailUnverified) $
  try (uperform (ULatest ChangeEmail)) (fun previous =>
  now ← (match previous with Some _ => unit_now | None => Ret 0 end);
  refuse (match previous with Some p => now - ch_SentAt p <? resendDelay | None => false end) (Failed RateLimited) $
  try increment_account (fun _ =>
  with_account_of $ fun account =>
  try (tokenChallenge account ChangeEmail newEmail (30 * Minute)) (fun '(confirm, letter) =>
  try (tokenChallenge account CancelEmailChange_ (ac_Email account) (30 * Minute)) (fun '(cancel, alert) =>
  let other (m : Mail) (email : bytes) := mkMail (m_ID m) (m_Subject m) (Kind m) (m_Email m) email (URL m) (Code m) (m_At m) (m_ExpiresAt m) in
  try (uperform (USave confirm)) (fun _ =>
  try (uperform (USave cancel)) (fun _ =>
  try (uperform (UQueue (other letter (ac_Email account)))) (fun _ =>
  try (uperform (UQueue (other alert newEmail))) (fun _ => Ret (Ok Done)))))))))).

Definition code_purpose (enabled : bool) : Purpose := if enabled then EnableCode else DisableCode.

Definition start_code_change_body (password : bytes) (enabled : bool) : body :=
  try (verifyPassword password) (fun _ =>
  with_account_of $ fun account =>
  refuse (negb (Verified account)) (Failed EmailUnverified) $
  let purpose := code_purpose enabled in
  refuse (eqb (CodeEnabled account) enabled) (Failed InvalidInput) $
  try (uperform (ULatest purpose)) (fun latest =>
  let sent (c : Challenge) : body := now ← unit_now; Ret (Ok (Challenged (ch_ID c) (ch_ExpiresAt c - now))) in
  let create := try (createCode purpose) sent in
  match latest with
  | Some c =>
      now ← unit_now;
      match challenge_Check c account purpose now with
      | Ok _ =>
          now ← unit_now;
          refuse (now - ch_SentAt c <? resendDelay) (Failed RateLimited) $
          try (replaceCode c) sent
      | _ => create
      end
  | None => create
  end)).

Definition complete_code_change_body (id code : bytes) (enabled : bool) : body :=
  try (uperform (UChallenge id)) (fun c =>
  checked ← checkCode c (code_purpose enabled) code;
  match checked with
  | Err e => if IsExpected e then Ret (Ok (Rejected e)) else Ret (Err e)
  | Panic => Ret Panic
  | Ok _ =>
      try increment_account (fun _ =>
      with_account_of $ fun account =>
      _ ← uperform (USetAccount (set_code_enabled account enabled));
      now ← unit_now;
      try (uperform (USave (set_used c now))) (fun _ =>
      try (uperform (URevokeAll now)) (fun _ =>
      try (notice (if enabled then "two_factor_on" else "two_factor_off")) (fun _ => Ret (Ok Done)))))
  end).

Definition credentials_body : body := with_account_of $ fun account => Ret (Ok (TheAccount account)).
Definition list_sessions_body : body := now ← unit_now; try (uperform (USessions now)) (fun l => Ret (Ok (TheSessions l))).

(** [s.now().Before(actor.CreatedAt.Add(24 * time.Hour))] *)
Definition revoke_session_body (actor : Record_) (id : session_id) : body :=
  let revoke := now ← unit_now; try (uperform (URevokeOne id now)) (fun _ => Ret (Ok Done)) in
  if bool_decide (rec_ID actor = id) then revoke else
  now ← unit_now;
  refuse (now <? CreatedAt actor + 24 * Hour) (Failed NewDeviceCooldown) revoke.

Definition logout_all_body (actor : Record_) : body :=
  now ← unit_now;
  refuse (now <? CreatedAt actor + 24 * Hour) (Failed NewDeviceCooldown) $
  revoke_and_notify "sessions_closed".

(** ** Operations *)

Definition challenge_body (id : bytes) (apply : Challenge -> body) : body :=
  account ← uperform UAccount;
  match account with
  | None => Ret (Ok (Rejected (Failed TokenExpired)))
  | Some _ => try (uperform (UChallenge id)) (fun c => commit_expected (apply c))
  end.
Definition withChallenge (id : bytes) (apply : Challenge -> body) : sprog (reply_of tx_value) :=
  refuse (bool_decide (id = no_id)) (Failed TokenExpired) $
  subject ← sperform (SChallengeSubject id);
  try (Ret (safe subject)) (fun subject => transaction (BySubject subject) (challenge_body id apply)).

Definition confirmToken (value : bytes) (purpose : Purpose) (apply : Challenge -> body) : sprog (reply_of tx_value) :=
  match parseToken value with
  | Ok (id, secret) => withChallenge id (confirm_body id secret purpose apply)
  | Err e => Ret (Err e)
  | Panic => Ret Panic
  end.

Definition withOwner (actor : Record_) (apply : body) : sprog (reply_of tx_value) :=
  refuse (bool_decide (SubjectID actor = no_id) || bool_decide (rec_ID actor = no_id)) (Failed InvalidCredentials) $
  transaction (BySubject (SubjectID actor)) (with_owner_body actor apply).

(** [domain.NewPassword], and the operation with the password *)
Definition with_new_password (raw : bytes) (f : bytes -> sprog (reply_of tx_value)) : sprog (reply_of tx_value) :=
  match NewSecurePassword raw with
  | Ok plain => f plain
  | Err e => Ret (Err e)
  | Panic => Ret Panic
  end.

(** [Register] and [RegisterBrowser] *)
Definition register (email raw browserSecret : bytes) : sprog (reply_of tx_value) :=
  match Email email with
  | Ok email =>
      with_new_password raw $ fun plain =>
      hash ← sperform (SProcess (UHash plain));
      match hash with
      | None => Ret (Err (Failed Unavailable))
      | Some digest =>
          try (lift_unit newID) (fun subject =>
          match NewIdentifier email with
          | Ok identifier =>
              event ← sperform SEvent;
              match event with
              | None => Ret (Err (Failed Unavailable))
              | Some event =>
                  let account := mkAccount subject email digest false true 1 None None in
                  try (lift_unit (tokenChallenge account VerifyEmail email (24 * Hour))) (fun '(c, m) =>
                  let c := if bool_decide (browserSecret = []) then c else
                    mkChallenge (ch_ID c) (ch_Subject c) (ch_Purpose c) (ch_Digest c) (sec_digest "registration-browser" subject browserSecret)
                      (ch_Revision c) (ch_Email c) (ch_ExpiresAt c) (ch_SentAt c) (Attempts c) (Sends c) (UsedAt c) in
                  r ← sperform (SRegister subject identifier digest event c m);
                  try (Ret (safe r)) (fun _ => Ret (Ok Done)))
              end
          | _ => Ret (Err (Failed InvalidInput))
          end)
      end
  | Err e => Ret (Err e)
  | Panic => Ret Panic
  end.

Definition RegisterBrowser (email raw : bytes) : sprog (reply_of tx_value) :=
  try (lift_unit newSecret) (fun secret => register email raw secret).

Definition activated (mapped : bool) (v : tx_value) : sprog (reply_of tx_value) :=
  match v with
  | Issued tokens =>
      r ← lift_auth (Activate tokens);
      let r := of_session r in
      try (Ret (if mapped then safe r else r)) (fun tokens => Ret (Ok (Issued tokens)))
  | v => Ret (Ok v)
  end.

Definition Login (email raw : bytes) (allowChallenge : bool) : sprog (reply_of tx_value) :=
  match Email email, NewPassword raw with
  | Ok email, Ok plain =>
      now ← lift_unit unit_now;
      try (transaction (ByEmail email) (login_body plain (login_bucket email) allowChallenge now)) (activated true)
  | _, _ => Ret (Err (Failed InvalidCredentials))
  end.

Definition CompleteLogin (id code : bytes) : sprog (reply_of tx_value) :=
  try (withChallenge id (complete_login_body code)) (activated false).

Definition ResendCode (id : bytes) : sprog (reply_of tx_value) := withChallenge id resend_body.

Definition RequestToken (email : bytes) (purpose : Purpose) : sprog (reply_of tx_value) :=
  refuse (negb (bool_decide (purpose = VerifyEmail)) && negb (bool_decide (purpose = ResetPassword_))) (Failed InvalidInput) $
  match Email email with
  | Ok email => transaction (ByEmail email) (request_token_body purpose email)
  | _ => Ret (Err (Failed InvalidInput))
  end.

Definition ConfirmRegistration (value browserSecret : bytes) : sprog (reply_of tx_value) :=
  try (confirmToken value VerifyEmail (confirm_registration_apply browserSecret)) (activated false).
Definition ConfirmEmail (value : bytes) : sprog (reply_of tx_value) := ConfirmRegistration value [].

Definition ResetPassword (value raw : bytes) : sprog (reply_of tx_value) :=
  with_new_password raw $ fun plain => confirmToken value ResetPassword_ (reset_password_apply plain).
Definition ConfirmEmailChange (value : bytes) : sprog (reply_of tx_value) := confirmToken value ChangeEmail confirm_email_change_apply.
Definition CancelEmailChange (value : bytes) : sprog (reply_of tx_value) := confirmToken value CancelEmailChange_ cancel_email_change_apply.

Definition Credentials (actor : Record_) : sprog (reply_of tx_value) := withOwner actor credentials_body.
Definition ChangePassword (actor : Record_) (oldPassword newPassword : bytes) : sprog (reply_of tx_value) :=
  with_new_password newPassword $ fun plain => withOwner actor (change_password_body oldPassword plain).
Definition StartEmailChange (actor : Record_) (newEmail password : bytes) : sprog (reply_of tx_value) :=
  match Email newEmail with
  | Ok newEmail => withOwner actor (start_email_change_body newEmail password)
  | Err e => Ret (Err e)
  | Panic => Ret Panic
  end.
Definition StartCodeChange (actor : Record_) (password : bytes) (enabled : bool) : sprog (reply_of tx_value) :=
  withOwner actor (start_code_change_body password enabled).
Definition CompleteCodeChange (actor : Record_) (id code : bytes) (enabled : bool) : sprog (reply_of tx_value) :=
  withOwner actor (complete_code_change_body id code enabled).
Definition ListSessions (actor : Record_) : sprog (reply_of tx_value) := withOwner actor list_sessions_body.
Definition RevokeSession (actor : Record_) (id : session_id) : sprog (reply_of tx_value) := withOwner actor (revoke_session_body actor id).
Definition LogoutAll (actor : Record_) : sprog (reply_of tx_value) := withOwner actor (logout_all_body actor).
End service.

(** ** The system *)

(** The operations of account security, and those of the sessions. *)
Inductive srequest :=
| SReqRegister (email raw : bytes) (browser : bool)
| SReqLogin (email raw : bytes) (allowChallenge : bool)
| SReqCompleteLogin (id code : bytes)
| SReqResendCode (id : bytes)
| SReqRequestToken (email : bytes) (purpose : Purpose)
| SReqConfirmRegistration (value browserSecret : bytes)
| SReqResetPassword (value raw : bytes)
| SReqConfirmEmailChange (value : bytes)
| SReqCancelEmailChange (value : bytes)
| SReqCredentials (actor : Record_)
| SReqChangePassword (actor : Record_) (oldPassword newPassword : bytes)
| SReqStartEmailChange (actor : Record_) (newEmail password : bytes)
| SReqStartCodeChange (actor : Record_) (password : bytes) (enabled : bool)
| SReqCompleteCodeChange (actor : Record_) (id code : bytes) (enabled : bool)
| SReqListSessions (actor : Record_)
| SReqRevokeSession (actor : Record_) (id : session_id)
| SReqLogoutAll (actor : Record_)
(** [Refresh], [Authenticate], [Revoke], [RevokeAll], [Exchange] and [Check], and the
    expiry of a key of the cache *)
| SReqRefresh (value : bytes)
| SReqAuthenticate (value : bytes)
| SReqRevoke (value : bytes)
| SReqRevokeAll (value : bytes)
| SReqExchange (value audience : bytes)
| SReqCheck (id : session_id) (subject : bytes) (authTime : Z)
| SReqExpire (id : session_id).

Inductive sanswer := SecAnswer (r : reply_of tx_value) | SessionAnswer (a : answer).

Record sworld := mkSWorld {
  sw_fault : fault;
  (** the outside of the calls of a transaction, by number *)
  sw_unit : nat -> uworld;
  sw_auth : world;
  sw_event : option bytes
}.

Definition srespond (w : sworld) (d : sec_db) (c : scall) : sec_db * sreply c :=
  match c return sec_db * sreply c with
  | SWithAccount sel b => WithAccount (sw_unit w) (sw_fault w) d sel b
  | SChallengeSubject id => (d, match sw_fault w with Healthy => ChallengeSubject d id | _ => Err (Failed Unavailable) end)
  | SRegister subject email password event c m => faulty (Err (Failed Unavailable)) (sw_fault w) d (RegisterTx d subject email password event c m)
  | SProcess u => ((tx_db (urespond (sw_unit w 0) (mkTx d None) u).1), (urespond (sw_unit w 0) (mkTx d None) u).2)
  | SEvent => (d, sw_event w)
  | SAuth c => (set_auth d (respond (sw_auth w) (sd_auth d) c).1, (respond (sw_auth w) (sd_auth d) c).2)
  end.

Abbreviation sec_system := (system sreply srequest sanswer sec_db).
Abbreviation sec_event := (event srequest sworld).

Definition sec_start : sec_system := mkSystem (mkSecDb (mkAuthDb ∅ [] [] ∅) ∅ ∅ ∅ ∅ ∅ ∅ ∅) [].

Section system.
Context `{UnicodeTables} (config : SecConfig).

Definition sprogram_of (q : srequest) : sprog sanswer :=
  let security p := r ← p; Ret (SecAnswer r) in
  let session q := a ← lift_auth (program_of (cf_sessions config) q); Ret (SessionAnswer a) in
  match q with
  | SReqRegister email raw browser => security (if browser then RegisterBrowser config email raw else register config email raw [])
  | SReqLogin email raw allowChallenge => security (Login config email raw allowChallenge)
  | SReqCompleteLogin id code => security (CompleteLogin config id code)
  | SReqResendCode id => security (ResendCode config id)
  | SReqRequestToken email purpose => security (RequestToken config email purpose)
  | SReqConfirmRegistration value browserSecret => security (ConfirmRegistration config value browserSecret)
  | SReqResetPassword value raw => security (ResetPassword config value raw)
  | SReqConfirmEmailChange value => security (ConfirmEmailChange config value)
  | SReqCancelEmailChange value => security (CancelEmailChange config value)
  | SReqCredentials actor => security (Credentials actor)
  | SReqChangePassword actor old new => security (ChangePassword config actor old new)
  | SReqStartEmailChange actor newEmail password => security (StartEmailChange config actor newEmail password)
  | SReqStartCodeChange actor password enabled => security (StartCodeChange config actor password enabled)
  | SReqCompleteCodeChange actor id code enabled => security (CompleteCodeChange config actor id code enabled)
  | SReqListSessions actor => security (ListSessions actor)
  | SReqRevokeSession actor id => security (RevokeSession actor id)
  | SReqLogoutAll actor => security (LogoutAll config actor)
  | SReqRefresh value => session (ReqRefresh value)
  | SReqAuthenticate value => session (ReqAuthenticate value)
  | SReqRevoke value => session (ReqRevoke value)
  | SReqRevokeAll value => session (ReqRevokeAll value)
  | SReqExchange value audience => session (ReqExchange value audience)
  | SReqCheck id subject authTime => session (ReqCheck id subject authTime)
  | SReqExpire id => session (ReqExpire id)
  end.

Definition sec_run : sec_system -> list sec_event -> option sec_system := sys_run srespond sprogram_of.
End system.
