(* ===== verification/AuthSecurityTx.v ===== *)
(** * Auth: transactions of account security

    A weakest-precondition calculus for the bodies of transactions, and what every
    transaction of verified calls keeps: the tables stay consistent, challenges that
    were used stay used, and sessions are created only with a proof of identity. *)

From S2P Require Import Prelude GoStrings GoUnicode Sha256 GoEncoding Effects AuthDomain AuthToken AuthStore AuthSession AuthGuards AuthHistory AuthSecurityStore AuthSecurity.
Local Open Scope Z_scope.

Abbreviation udid t c r := (@existT ucall ureply c r ∈ t).

(** ** Tables *)

(** The revision of an account: that of the transaction that holds it, or the
    stored one. *)
Definition current_revision (acc : option Account) (d : sec_db) (subject : bytes) : Z :=
  match acc with
  | Some a => if bool_decide (Subject a = subject) then Revision a else from_option revision 0 (account_security d !! subject)
  | None => from_option revision 0 (account_security d !! subject)
  end.

Record sec_rows (acc : option Account) (d : sec_db) : Prop := mkSecRows {
  sq_auth : auth_db_ok (sd_auth d);
  sq_owner id r : sessions (sd_auth d) !! id = Some r -> is_Some (credentials d !! SubjectID (sr_record r));
  sq_accounts k x : account_security d !! k = Some x -> is_Some (credentials d !! k) /\ 0 < revision x;
  sq_creds k r : credentials d !! k = Some r -> check_credential r = true;
  (** an address belongs to one account *)
  sq_unique k k' r r' : credentials d !! k = Some r -> credentials d !! k' = Some r' -> identifier r = identifier r' -> k = k';
  sq_challenges id c : challenges d !! id = Some c ->
    ch_ID c = id /\ check_challenge c = true /\ id ∈ drawn d /\ is_Some (account_security d !! ch_Subject c) /\
    ch_Revision c <= current_revision acc d (ch_Subject c);
  sq_mails id m p : mail_outbox d !! id = Some m -> payload m = Some p -> m_ID p = id /\ is_Some (credentials d !! m_Subject p);
  sq_registrations e k : registrations d !! e = Some k -> is_Some (credentials d !! k)
}.

(** The account that a transaction holds is stored, with a revision that is not
    newer. *)
Definition holds (acc : option Account) (d : sec_db) : Prop :=
  match acc with
  | Some a => is_Some (credentials d !! Subject a) /\ exists x, account_security d !! Subject a = Some x /\ revision x <= Revision a
  | None => True
  end.

(** ** What only grows *)

Definition used (d : sec_db) (id : bytes) : Prop := exists c, challenges d !! id = Some c /\ UsedAt c <> None.

Record grows (d d' : sec_db) : Prop := mkGrows {
  gr_auth : later (sd_auth d) (sd_auth d');
  gr_challenges id c : challenges d !! id = Some c -> exists c', challenges d' !! id = Some c' /\ ch_Subject c' = ch_Subject c /\ ch_Purpose c' = ch_Purpose c /\
    ch_Revision c' = ch_Revision c /\ (UsedAt c <> None -> UsedAt c' <> None);
  gr_drawn : drawn d ⊆ drawn d'
}.

Lemma later_trans d1 d2 d3 : later d1 d2 -> later d2 d3 -> later d1 d3.
Proof.
  intros [H1 C1] [H2 C2]. split; [|by intros x ?%C1%C2]. intros id r Hr. destruct (H1 id r Hr) as (r2 & Hr2 & S2 & V2 & F2).
  destruct (H2 id r2 Hr2) as (r3 & Hr3 & S3 & V3 & F3). exists r3. split_and!; [done|congruence|lia|]. intros Hx. specialize (F2 Hx). subst r2. by apply F3.
Qed.

Lemma grows_refl d : grows d d.
Proof. split; [by apply later_refl| |done]. intros id c Hc. by exists c. Qed.
Lemma grows_trans d1 d2 d3 : grows d1 d2 -> grows d2 d3 -> grows d1 d3.
Proof.
  intros [A1 C1 D1] [A2 C2 D2]. split; [by eapply later_trans| |set_solver]. intros id c Hc. destruct (C1 id c Hc) as (c2 & H2 & S2 & P2 & R2 & U2).
  destruct (C2 id c2 H2) as (c3 & H3 & S3 & P3 & R3 & U3). exists c3. split_and!; [done|congruence..|]. intros Hu. by apply U3, U2.
Qed.
Lemma used_grows d d' id : grows d d' -> used d id -> used d' id.
Proof. intros [_ Hc _] (c & Hl & Hu). destruct (Hc id c Hl) as (c' & Hl' & _ & _ & _ & Hu'). exists c'. auto. Qed.

(** ** Single calls *)

Lemma current_revision_same acc d d' k : account_security d' = account_security d -> current_revision acc d' k = current_revision acc d k.
Proof. intros He. unfold current_revision. by rewrite He. Qed.

(** Tables that a statement does not touch. *)
Lemma rows_same acc d d' : sec_rows acc d -> sd_auth d' = sd_auth d -> credentials d' = credentials d -> account_security d' = account_security d ->
  challenges d' = challenges d -> mail_outbox d' = mail_outbox d -> registrations d' = registrations d -> drawn d ⊆ drawn d' -> sec_rows acc d'.
Proof.
  intros [H1 H2 H3 H4 H5 H6 H7 H8] Ea Ec Es Eh Em Er Hd. split; rewrite ?Ea, ?Ec, ?Es, ?Eh, ?Em, ?Er; try done.
  intros id c Hc. destruct (H6 id c Hc) as (? & ? & ? & ? & ?). rewrite (current_revision_same acc d) by done. split_and!; [done|done|set_solver|done|done].
Qed.

Lemma grows_same d d' : sd_auth d' = sd_auth d -> challenges d' = challenges d -> drawn d ⊆ drawn d' -> grows d d'.
Proof. intros Ea Eh Hd. split; rewrite ?Ea, ?Eh; [by apply later_refl| |done]. intros id c Hc. by exists c. Qed.

(** A statement on the sessions alone. *)
Lemma rows_auth acc d a : sec_rows acc d -> auth_db_ok a -> later (sd_auth d) a ->
  (forall id r, sessions a !! id = Some r -> is_Some (credentials d !! SubjectID (sr_record r))) -> sec_rows acc (set_auth d a) /\ grows d (set_auth d a).
Proof.
  intros [H1 H2 H3 H4 H5 H6 H7 H8] Ha Hl Ho. split; [by split|]. split; [done| |done]. intros id c Hc. by exists c.
Qed.

Lemma revoke_owner d now reason p (P : bytes -> Prop) : (forall id r, sessions d !! id = Some r -> P (SubjectID (sr_record r))) ->
  forall id r, sessions (sql_revoke d now reason p) !! id = Some r -> P (SubjectID (sr_record r)).
Proof.
  intros Ho id r. unfold sql_revoke. cbn [sessions]. rewrite lookup_fmap. destruct (sessions d !! id) as [x|] eqn:Hx; [|done]. intros [= <-].
  destruct (revoke_row_cases now p x) as [[-> _]|(_ & _ & _ & _ & _ & -> & _)]; by eapply Ho.
Qed.

Section transactions.
Context (config : SecConfig).

(** The right password of the account was presented. *)
Definition password_for (t : utrace) (subject : bytes) : Prop :=
  exists a pw rehash, udid t UAccount (Some a) /\ Subject a = subject /\ udid t (UVerify pw (ac_PasswordDigest a)) (Some (true, rehash)).

(** The proofs of identity: the password of an account without codes, an unused
    login code, or the link of a registration together with its browser. *)
Definition by_password (t : utrace) (subject : bytes) : Prop :=
  exists a pw rehash, udid t UAccount (Some a) /\ Subject a = subject /\ CodeEnabled a = false /\
    udid t (UVerify pw (ac_PasswordDigest a)) (Some (true, rehash)).
Definition by_code (t : utrace) (subject : bytes) : Prop :=
  exists c code, udid t (UChallenge (ch_ID c)) (Ok c) /\ ch_Subject c = subject /\ ch_Purpose c = LoginCode /\ UsedAt c = None /\
    sec_digest config (purpose_string LoginCode) (ch_ID c) code = ch_Digest c.
Definition by_link (t : utrace) (subject : bytes) : Prop :=
  exists c secret browser, udid t (UChallenge (ch_ID c)) (Ok c) /\ ch_Subject c = subject /\ ch_Purpose c = VerifyEmail /\ UsedAt c = None /\
    sec_digest config (purpose_string VerifyEmail) (ch_ID c) secret = ch_Digest c /\
    RegistrationDigest c <> no_digest /\ sec_digest config "registration-browser" subject browser = RegistrationDigest c.
Definition signed_in (t : utrace) (subject : bytes) : Prop := by_password t subject \/ by_code t subject \/ by_link t subject.

Lemma password_for_mono t t' subject : t ⊆ t' -> password_for t subject -> password_for t' subject.
Proof. intros Ht (a & pw & rh & H1 & H2 & H3). exists a, pw, rh. split_and!; [by apply Ht|done|by apply Ht]. Qed.
Lemma signed_in_mono t t' subject : t ⊆ t' -> signed_in t subject -> signed_in t' subject.
Proof.
  intros Ht [(a & pw & rh & H1 & H2 & H3 & H4)|[(c & code & H1 & H2)|(c & x & y & H1 & H2)]]; [left|right; left|right; right].
  - exists a, pw, rh. split_and!; [by apply Ht|done|done|by apply Ht].
  - exists c, code. split; [by apply Ht|done].
  - exists c, x, y. split; [by apply Ht|done].
Qed.

(** A challenge that may be stored: it is the stored one and stays used if it was,
    or it is a new one of the account's revision, a login code only after the
    password. *)
Definition saveable (s : tx_state) (t : utrace) (c : Challenge) : Prop :=
  match challenges (tx_db s) !! ch_ID c with
  | Some old => ch_Subject old = ch_Subject c /\ ch_Purpose old = ch_Purpose c /\ (UsedAt old <> None -> UsedAt c <> None)
  | None => ch_ID c ∈ drawn (tx_db s) /\ (forall a, tx_account s = Some a -> ch_Revision c <= Revision a) /\ (ch_Purpose c = LoginCode -> password_for t (ch_Subject c))
  end.

(** The guards of the calls; [creates] allows sessions to be created. *)
Definition pre (creates : bool) (s : tx_state) (t : utrace) (c : ucall) : Prop :=
  match c with
  | USetAccount a => forall a0, tx_account s = Some a0 -> Subject a = Subject a0 /\ Revision a0 <= Revision a
  | USave c => saveable s t c
  | UCreate r _ => creates = true /\ Version r = 1 /\ RevokedAt r = None /\ signed_in t (SubjectID r)
  | _ => True
  end.

(** *** Tables *)

Definition tx_ok (s : tx_state) : Prop := sec_rows (tx_account s) (tx_db s) /\ holds (tx_account s) (tx_db s).

Lemma save_ok s t c : tx_ok s -> saveable s t c ->
  tx_ok (unit_SaveChallenge s c).1 /\ grows (tx_db s) (tx_db (unit_SaveChallenge s c).1) /\
  ((unit_SaveChallenge s c).2 = Ok tt -> exists c', challenges (tx_db (unit_SaveChallenge s c).1) !! ch_ID c = Some c' /\ UsedAt c' = UsedAt c).
Proof.
  intros Hok Hs. pose proof (grows_refl (tx_db s)) as Hrefl. unfold unit_SaveChallenge. destruct (tx_account s) as [a|] eqn:Ha; [|done].
  case_bool_decide as Hsub; cbn [negb]; [|done]. unfold sql_upsert_challenge. destruct (check_challenge c) eqn:Hck; cbn [negb]; [|done].
  pose proof Hok as [Hrows Hholds]. rewrite Ha in Hrows, Hholds. unfold saveable in Hs. destruct (challenges (tx_db s) !! ch_ID c) as [old|] eqn:Hold.
  - destruct Hs as (Es & Ep & Hu). rewrite !bool_decide_eq_true_2 by done. cbn [andb fst snd]. split_and!.
    + split; [|cbn [tx_account with_db tx_db]; by rewrite Ha]. cbn [tx_account with_db tx_db]. rewrite Ha. destruct Hrows as [H1 H2 H3 H4 H5 H6 H7 H8]. split; try done; cbn [challenges set_challenges drawn account_security].
      intros id x [[<- <-]|[_ Hx]]%lookup_insert_Some; [|by apply H6]. destruct (H6 _ _ Hold) as (Hid & Hco & Hdr & Hac & Hrev).
      cbn [ch_ID updated_challenge ch_Subject ch_Revision]. split_and!; [done| |done|done|done].
      unfold check_challenge in *. cbn [ch_ID ch_Digest ch_Revision ch_Email Attempts Sends RegistrationDigest ch_Purpose updated_challenge].
      rewrite !andb_true_iff in *. destruct_and!. split_and!; done.
    + split; [by apply later_refl| |done]. intros id x Hx. cbn [challenges tx_db with_db set_challenges]. destruct (decide (ch_ID c = id)) as [<-|Hne].
      * rewrite lookup_insert_eq. assert (x = old) as -> by congruence. eexists. split; [done|]. by cbn.
      * rewrite lookup_insert_ne by done. by exists x.
    + intros _. cbn [challenges tx_db with_db set_challenges]. rewrite lookup_insert_eq. eexists. by split.
  - destruct Hs as (Hdr & Hrev & _). cbn [fst snd]. split_and!.
    + split; [|cbn [tx_account with_db tx_db]; by rewrite Ha]. cbn [tx_account with_db tx_db]. rewrite Ha. destruct Hrows as [H1 H2 H3 H4 H5 H6 H7 H8]. split; try done; cbn [challenges set_challenges drawn account_security].
      intros id x [[<- <-]|[_ Hx]]%lookup_insert_Some; [|by apply H6]. destruct Hholds as (Hc & y & Hy & _).
      split_and!; [done|done|done|rewrite Hsub; by eexists|]. rewrite Hsub. unfold current_revision. rewrite bool_decide_eq_true_2 by done. by apply Hrev.
    + split; [by apply later_refl| |done]. intros id x Hx. cbn [challenges tx_db with_db set_challenges]. rewrite lookup_insert_ne by congruence. by exists x.
    + intros _. cbn [challenges tx_db with_db set_challenges]. rewrite lookup_insert_eq. by eexists.
Qed.

Lemma create_session_ok s r dg : tx_ok s -> Version r = 1 -> RevokedAt r = None ->
  tx_ok (unit_CreateSession s r dg).1 /\ grows (tx_db s) (tx_db (unit_CreateSession s r dg).1).
Proof.
  intros Hok Hv Hr. pose proof (grows_refl (tx_db s)) as Hrefl. unfold unit_CreateSession. destruct (tx_account s) as [a|] eqn:Ha; [|done].
  case_bool_decide as Hsub; cbn [negb orb]; [|done]. match goal with |- context [if ?b then _ else _] => destruct b; [done|] end. pose proof Hok as [Hrows Hholds]. rewrite Ha in Hrows, Hholds.
  destruct (create_ok (sd_auth (tx_db s)) r dg Hv Hr (sq_auth _ _ Hrows)) as [Hc Hl].
  assert (forall id x, sessions (sql_create (sd_auth (tx_db s)) r dg).1 !! id = Some x -> is_Some (credentials (tx_db s) !! SubjectID (sr_record x))) as Ho.
  { unfold sql_create. destruct (_ || _); cbn [fst]; [apply (sq_owner _ _ Hrows)|]. unfold set_sessions. cbn [sessions].
    intros id x [[_ <-]|[_ Hx]]%lookup_insert_Some; [|by eapply (sq_owner _ _ Hrows)]. cbn [sr_record stored_record SubjectID]. rewrite Hsub. by destruct Hholds. }
  destruct (sql_create _ _ _) as [d' [u|]]; [|done]. cbn [fst] in *. destruct (rows_auth _ _ d' Hrows Hc Hl Ho) as [H1 H2]. split; [|done]. split; [|cbn [tx_account with_db]; by rewrite Ha].
  cbn [tx_account tx_db with_db]. by rewrite Ha.
Qed.

Lemma revoke_sessions_ok s now reason p : tx_ok s -> validReason reason = true ->
  let s' := with_db s (set_auth (tx_db s) (sql_revoke (sd_auth (tx_db s)) now reason p)) in tx_ok s' /\ grows (tx_db s) (tx_db s').
Proof.
  intros [Hrows Hholds] Hr. cbv zeta. destruct (rows_auth _ _ (sql_revoke (sd_auth (tx_db s)) now reason p) Hrows) as [H1 H2].
  - apply revoke_ok; [done|]. apply (sq_auth _ _ Hrows).
  - apply revoke_later.
  - apply (revoke_owner _ now reason p (fun k => is_Some (credentials (tx_db s) !! k))). apply (sq_owner _ _ Hrows).
  - done.
Qed.

Lemma queue_ok s m : tx_ok s -> tx_ok (unit_Queue s m).1 /\ grows (tx_db s) (tx_db (unit_Queue s m).1).
Proof.
  intros Hok. pose proof (grows_refl (tx_db s)) as Hrefl. unfold unit_Queue. destruct (tx_account s) as [a|] eqn:Ha; [|done].
  case_bool_decide as Hsub; cbn [negb orb]; [|done]. destruct (_ || _); [done|]. case_bool_decide; [done|]. cbn [fst].
  pose proof Hok as [Hrows Hholds]. rewrite Ha in Hrows, Hholds. split; [|by apply grows_same].
  split; [|cbn [tx_account with_db tx_db]; by rewrite Ha]. cbn [tx_account with_db tx_db]. rewrite Ha. destruct Hrows as [H1 H2 H3 H4 H5 H6 H7 H8]. split; try done; cbn [mail_outbox set_outbox credentials].
  intros id x p [[<- <-]|[_ Hx]]%lookup_insert_Some; [|by apply H7]. cbn [payload]. intros [= <-]. split; [done|]. rewrite Hsub. by destruct Hholds.
Qed.

Lemma failing_state {A} (P : tx_state -> Prop) w s (r : tx_state * reply_of A) : P s -> P r.1 -> P (failing w s r).1.
Proof. unfold failing. by destruct (uw_failed w). Qed.

Lemma urespond_ok creates w s t c : tx_ok s -> pre creates s t c -> tx_ok (urespond w s c).1 /\ grows (tx_db s) (tx_db (urespond w s c).1).
Proof.
  intros Hok Hpre. pose proof (grows_refl (tx_db s)) as Hrefl.
  destruct c; cbn [urespond fst]; try done;
    try (match goal with |- context [failing ?w ?s ?r] => apply (failing_state (fun s' => tx_ok s' /\ grows (tx_db s) (tx_db s')) w s r); [done|] end; cbn [fst]; try done).
  - destruct Hok as [Hrows Hholds]. destruct (tx_account s) as [a0|] eqn:Ha; cbn [fmap option_fmap option_map]; [|done]. destruct (Hpre a0 Ha) as [Hs Hr].
    split; [|done]. split; cbn [tx_account tx_db].
    + destruct Hrows as [H1 H2 H3 H4 H5 H6 H7 H8]. split; try done. intros id c Hc. destruct (H6 id c Hc) as (? & ? & ? & ? & Hle). split_and!; [done..|].
      unfold current_revision in *. rewrite Hs. case_bool_decide; lia.
    + destruct Hholds as (Hc & x & Hx & Hle). cbn [holds]. rewrite Hs. split; [done|]. exists x. split; [done|lia].
  - destruct (save_ok s t c Hok Hpre) as (? & ? & _). done.
  - by apply queue_ok.
  - unfold unit_ReserveBudget. destruct (_ || _); [done|]. destruct (reserve _ _ _ _) as [row n]. cbn [fst]. destruct Hok as [Hrows Hholds].
    split; [split; [by eapply rows_same|done]|by apply grows_same].
  - destruct Hok as [Hrows Hholds]. split; [split; [by eapply rows_same|done]|by apply grows_same].
  - destruct Hpre as (_ & Hv & Hr & _). by apply create_session_ok.
  - unfold unit_RevokeSessions. destruct (tx_account s); [|done]. by apply revoke_sessions_ok.
  - unfold unit_RevokeSession. destruct (tx_account s); [|done]. by apply revoke_sessions_ok.
  - destruct (random_bytes w 16) as [id|]; [|done]. case_bool_decide; [done|]. cbn [fst]. destruct Hok as [Hrows Hholds].
    split; [split; [eapply rows_same; try done; cbn; set_solver|done]|apply grows_same; try done; cbn; set_solver].
Qed.

(** ** Traces *)

Definition as_created (e : sigT ureply) : option (Record_ * digest * reply_of unit) := match e with existT (UCreate v dg) r => Some (v, dg, r) | _ => None end.
Definition as_read (e : sigT ureply) : option (bytes * reply_of Challenge) := match e with existT (UChallenge id) r => Some (id, r) | _ => None end.
Definition as_saved (e : sigT ureply) : option (Challenge * reply_of unit) := match e with existT (USave c) r => Some (c, r) | _ => None end.
Definition as_revoked_all (e : sigT ureply) : option (Z * reply_of unit) := match e with existT (URevokeAll now) r => Some (now, r) | _ => None end.
Definition as_set (e : sigT ureply) : option Account := match e with existT (USetAccount a) _ => Some a | _ => None end.

(** Where the sessions and challenges after a call come from. *)
Lemma urespond_sessions w s c id x : sessions (sd_auth (tx_db (urespond w s c).1)) !! id = Some x ->
  (exists x0, sessions (sd_auth (tx_db s)) !! id = Some x0 /\ SubjectID (sr_record x) = SubjectID (sr_record x0) /\ (is_revoked x0 -> is_revoked x)) \/
  (exists v dg, as_created (existT c (urespond w s c).2) = Some (v, dg, Ok tt) /\ rec_ID v = id /\ SubjectID (sr_record x) = SubjectID v).
Proof.
  assert (forall x, sessions (sd_auth (tx_db s)) !! id = Some x -> exists x0, sessions (sd_auth (tx_db s)) !! id = Some x0 /\ SubjectID (sr_record x) = SubjectID (sr_record x0) /\ (is_revoked x0 -> is_revoked x)) as Hsame by eauto.
  assert (forall now reason p x, sessions (sql_revoke (sd_auth (tx_db s)) now reason p) !! id = Some x ->
    exists x0, sessions (sd_auth (tx_db s)) !! id = Some x0 /\ SubjectID (sr_record x) = SubjectID (sr_record x0) /\ (is_revoked x0 -> is_revoked x)) as Hrev.
  { intros now reason p y. unfold sql_revoke. cbn [sessions]. rewrite lookup_fmap. destruct (sessions (sd_auth (tx_db s)) !! id) as [x0|] eqn:H0; [|done]. intros [= <-]. exists x0.
    destruct (revoke_row_cases now p x0) as [[-> _]|(Hn & _ & Hr & _ & _ & -> & _)]; [done|]. split_and!; [done|done|]. intros _. unfold is_revoked. by rewrite Hr. }
  destruct c; cbn [urespond]; unfold failing; try (destruct (uw_failed w)); cbn [fst snd tx_db]; try (by left; apply Hsame); intros Hx.
  - left. apply Hsame. revert Hx. unfold unit_SaveChallenge. by repeat case_match.
  - left. apply Hsame. revert Hx. unfold unit_Queue. by repeat case_match.
  - left. apply Hsame. revert Hx. unfold unit_ReserveBudget. by repeat case_match.
  - revert Hx. unfold unit_CreateSession, sql_create. destruct (tx_account s) as [a|]; [|by left; apply Hsame].
    destruct (_ || _ || _ || _); [by left; apply Hsame|]. destruct (_ || _) eqn:Hb; [by left; apply Hsame|]. cbn [fst snd with_db set_auth set_sessions tx_db sd_auth sessions].
    intros [[<- <-]|[_ Hx]]%lookup_insert_Some; [right|by left; apply Hsame]. by exists r, dg.
  - left. revert Hx. unfold unit_RevokeSessions. destruct (tx_account s); [|by apply Hsame]. cbn [fst with_db set_auth tx_db sd_auth]. apply Hrev.
  - left. revert Hx. unfold unit_RevokeSession. destruct (tx_account s); [|by apply Hsame]. cbn [fst with_db set_auth tx_db sd_auth]. apply Hrev.
  - left. apply Hsame. revert Hx. by repeat case_match.
  - left. apply Hsame. revert Hx. by repeat case_match.
Qed.

Lemma urespond_challenges w s c id x : challenges (tx_db (urespond w s c).1) !! id = Some x ->
  (exists x0, challenges (tx_db s) !! id = Some x0 /\ ch_Purpose x = ch_Purpose x0 /\ ch_Subject x = ch_Subject x0) \/
  (c = USave x /\ challenges (tx_db s) !! id = None /\ ch_ID x = id).
Proof.
  assert (forall x, challenges (tx_db s) !! id = Some x -> exists x0, challenges (tx_db s) !! id = Some x0 /\ ch_Purpose x = ch_Purpose x0 /\ ch_Subject x = ch_Subject x0) as Hsame by eauto.
  destruct c; cbn [urespond]; unfold failing; try (destruct (uw_failed w)); cbn [fst snd tx_db]; try (by left; apply Hsame); intros Hx.
  - revert Hx. unfold unit_SaveChallenge, sql_upsert_challenge. destruct (tx_account s) as [a|]; [|by left; apply Hsame].
    destruct (negb _); [by left; apply Hsame|]. destruct (negb (check_challenge c)); [by left; apply Hsame|].
    destruct (challenges (tx_db s) !! ch_ID c) as [old|] eqn:Ho.
    + destruct (_ && _) eqn:Hb; [|by left; apply Hsame]. cbn [fst with_db set_challenges tx_db challenges].
      intros [[<- <-]|[_ Hx]]%lookup_insert_Some; [left; by exists old|left; by apply Hsame].
    + cbn [fst with_db set_challenges tx_db challenges]. intros [[<- <-]|[_ Hx]]%lookup_insert_Some; [by right|left; by apply Hsame].
  - left. apply Hsame. revert Hx. unfold unit_Queue. by repeat case_match.
  - left. apply Hsame. revert Hx. unfold unit_ReserveBudget. by repeat case_match.
  - left. apply Hsame. revert Hx. unfold unit_CreateSession. by repeat case_match.
  - left. apply Hsame. revert Hx. unfold unit_RevokeSessions. by repeat case_match.
  - left. apply Hsame. revert Hx. unfold unit_RevokeSession. by repeat case_match.
  - left. apply Hsame. revert Hx. by repeat case_match.
  - left. apply Hsame. revert Hx. by repeat case_match.
Qed.

Lemma urespond_account w s c : tx_account (urespond w s c).1 = tx_account s \/ exists a, c = USetAccount a /\ tx_account (urespond w s c).1 = (fun _ => a) <$> tx_account s.
Proof.
  destruct c; cbn [urespond]; unfold failing; try (destruct (uw_failed w)); cbn [fst snd]; try (by left); try (right; by eexists); left;
    unfold unit_SaveChallenge, unit_Queue, unit_ReserveBudget, unit_CreateSession, unit_RevokeSessions, unit_RevokeSession; by repeat case_match.
Qed.

Lemma urespond_tables w s c : credentials (tx_db (urespond w s c).1) = credentials (tx_db s) /\ account_security (tx_db (urespond w s c).1) = account_security (tx_db s).
Proof.
  destruct c; cbn [urespond]; unfold failing; try (destruct (uw_failed w)); try done; cbn [fst snd];
    unfold unit_SaveChallenge, unit_Queue, unit_ReserveBudget, unit_CreateSession, unit_RevokeSessions, unit_RevokeSession; by repeat case_match.
Qed.

(** ** Every transaction of guarded calls *)

Lemma as_created_Some e v dg r : as_created e = Some (v, dg, r) -> e = existT (UCreate v dg) r.
Proof. destruct e as [c x]. destruct c; try done. cbn [as_created]. by intros [= -> -> ->]. Qed.

Section invariant.
Context (creates : bool) (d0 : sec_db) (acc0 : option Account).

Record tx_inv (s : tx_state) (t : utrace) : Prop := mkTxInv {
  ti_ok : tx_ok s;
  ti_grows : grows d0 (tx_db s);
  ti_sessions id r : sessions (sd_auth (tx_db s)) !! id = Some r ->
    is_Some (sessions (sd_auth d0) !! id) \/ exists v dg, udid t (UCreate v dg) (Ok tt) /\ rec_ID v = id /\ SubjectID (sr_record r) = SubjectID v;
  ti_created v dg x : udid t (UCreate v dg) x -> creates = true /\ signed_in t (SubjectID v);
  ti_read id c : udid t (UChallenge id) (Ok c) -> UsedAt c = None -> ~ used d0 id;
  ti_saved c : udid t (USave c) (Ok tt) -> UsedAt c <> None -> used (tx_db s) (ch_ID c);
  ti_codes id c : challenges (tx_db s) !! id = Some c -> ch_Purpose c = LoginCode ->
    (exists c0, challenges d0 !! id = Some c0 /\ ch_Purpose c0 = LoginCode /\ ch_Subject c0 = ch_Subject c) \/ password_for t (ch_Subject c);
  ti_read_codes id c : udid t (UChallenge id) (Ok c) -> ch_Purpose c = LoginCode ->
    (exists c0, challenges d0 !! id = Some c0 /\ ch_Purpose c0 = LoginCode /\ ch_Subject c0 = ch_Subject c) \/ password_for t (ch_Subject c);
  ti_tables : credentials (tx_db s) = credentials d0 /\ account_security (tx_db s) = account_security d0;
  ti_signed_out now : udid t (URevokeAll now) (Ok tt) -> creates = false ->
    forall id r a, tx_account s = Some a -> sessions (sd_auth (tx_db s)) !! id = Some r -> SubjectID (sr_record r) = Subject a -> is_revoked r;
  ti_account : match acc0 with
    | Some a0 => exists a, tx_account s = Some a /\ Subject a = Subject a0 /\ Revision a0 <= Revision a /\ forall a', udid t (USetAccount a') tt -> Revision a' <= Revision a
    | None => tx_account s = None
    end
}.

Lemma tx_inv_start : sec_rows acc0 d0 -> holds acc0 d0 -> tx_inv (mkTx d0 acc0) [].
Proof.
  intros Hrows Hholds. split; cbn [tx_db tx_account]; try (intros *; by intros ?%elem_of_nil); try done.
  - apply grows_refl.
  - intros id r Hr. left. by eexists.
  - intros id c Hc Hp. left. by exists c.
  - destruct acc0 as [a|]; [|done]. exists a. split_and!; [done|done|lia|]. by intros a' ?%elem_of_nil.
Qed.

Lemma account_kept w s t c a : pre creates s t c -> tx_account (urespond w s c).1 = Some a -> exists a0, tx_account s = Some a0 /\ Subject a = Subject a0.
Proof.
  intros Hpre Ha. destruct (urespond_account w s c) as [Hs|(a1 & -> & Hs)]; rewrite Hs in Ha; [by exists a|].
  destruct (tx_account s) as [a0|] eqn:H0; [|done]. injection Ha as ->. exists a0. split; [done|]. by destruct (Hpre a0 H0).
Qed.

Lemma tx_inv_step w s t c : tx_inv s t -> pre creates s t c -> tx_inv (urespond w s c).1 (t ++ [existT c (urespond w s c).2]).
Proof.
  intros [Hok Hgrows Hsess Hcr Hread Hsaved Hcodes Hrc Htab Hout Hacc] Hpre. destruct (urespond_ok creates w s t c Hok Hpre) as [Hok' Hg].
  pose proof (urespond_sessions w s c) as Hs'. pose proof (urespond_challenges w s c) as Hc'.
  pose proof (fun a => account_kept w s t c a Hpre) as Ha'.
  assert (t ⊆ t ++ [existT c (urespond w s c).2]) as Hsub by (intros x Hx; apply elem_of_app; by left). split.
  - exact Hok'.
  - by eapply grows_trans.
  - intros id r Hr. destruct (Hs' id r Hr) as [(x0 & Hx0 & Hsubj & _)|(v & dg & He & Hid & Hsubj)].
    + destruct (Hsess id x0 Hx0) as [?|(v & dg & Hd & Hid & Hv)]; [by left|]. right. exists v, dg. split_and!; [by apply Hsub|done|congruence].
    + right. exists v, dg. split_and!; [|done|done]. apply as_created_Some in He. rewrite He. apply elem_of_app. right. by left.
  - intros v dg x [Hd|Hd%list_elem_of_singleton]%elem_of_app.
    + destruct (Hcr v dg x Hd) as [-> Hsi]. split; [done|]. by eapply signed_in_mono.
    + apply (f_equal (@projT1 _ _)) in Hd. cbn [projT1] in Hd. subst c. destruct Hpre as (-> & _ & _ & Hsi). split; [done|]. by eapply signed_in_mono.
  - intros id x [Hd|Hd%list_elem_of_singleton]%elem_of_app Hu; [by eapply Hread|]. apply (f_equal as_read) in Hd. destruct c; try done. cbn [as_read urespond] in Hd.
    injection Hd as <- Hr. unfold failing in Hr. destruct (uw_failed w); [done|]. cbn [snd] in Hr. unfold unit_Challenge in Hr.
    destruct (tx_account s); [|done]. destruct (challenges (tx_db s) !! id) as [y|] eqn:Hy; [|done]. case_bool_decide; [|done]. rewrite Ok_eq in Hr. subst y.
    intros Hused. apply (used_grows _ _ _ Hgrows) in Hused as (z & Hz & Hzu). congruence.
  - intros x [Hd|Hd%list_elem_of_singleton]%elem_of_app Hu; [eapply used_grows; [exact Hg|by apply Hsaved]|].
    apply (f_equal as_saved) in Hd. destruct c; try done. cbn [as_saved urespond] in *. injection Hd as <- Hr. unfold failing in *. destruct (uw_failed w); [done|].
    destruct (save_ok s t x Hok Hpre) as (_ & _ & Hw). destruct (Hw (eq_sym Hr)) as (x' & Hx' & Hux). exists x'. split; [done|congruence].
  - intros id x Hx Hp. destruct (Hc' id x Hx) as [(x0 & Hx0 & Ep & Es)|(-> & Hn & Hid)].
    + rewrite Es. rewrite Ep in Hp. destruct (Hcodes id x0 Hx0 Hp) as [?|Hpw]; [by left|right]. by eapply password_for_mono.
    + right. cbn [pre] in Hpre. unfold saveable in Hpre. rewrite Hid, Hn in Hpre. destruct Hpre as (_ & _ & Hpw). eapply password_for_mono; [|by apply Hpw]. done.
  - intros id x [Hd|Hd%list_elem_of_singleton]%elem_of_app Hp; [destruct (Hrc id x Hd Hp) as [?|Hpw]; [by left|right]; by eapply password_for_mono|].
    apply (f_equal as_read) in Hd. destruct c; try done. cbn [as_read urespond] in Hd. injection Hd as <- Hr. unfold failing in Hr. destruct (uw_failed w); [done|]. cbn [snd] in Hr.
    unfold unit_Challenge in Hr. destruct (tx_account s); [|done]. destruct (challenges (tx_db s) !! id) as [y|] eqn:Hy; [|done]. case_bool_decide; [|done]. rewrite Ok_eq in Hr. subst y.
    destruct (Hcodes id x Hy Hp) as [?|Hpw]; [by left|right]. by eapply password_for_mono.
  - destruct (urespond_tables w s c) as [-> ->]. done.
  - intros now Hd Hcf id r a Ha Hr Hra. destruct (Ha' a Ha) as (a0 & Ha0 & Hsame). apply elem_of_app in Hd as [Hd|Hd%list_elem_of_singleton].
    + destruct (Hs' id r Hr) as [(x0 & Hx0 & Hsubj & Hrv)|(v & dg & He & _)].
      * apply Hrv. eapply (Hout now Hd Hcf id x0 a0); [done|done|congruence].
      * apply as_created_Some in He. apply (f_equal (@projT1 _ _)) in He. cbn [projT1] in He. subst c. destruct Hpre as (Ht & _). congruence.
    + apply (f_equal as_revoked_all) in Hd. destruct c; try done. cbn [as_revoked_all urespond] in *. injection Hd as <- Hres. unfold failing in *.
      destruct (uw_failed w); [done|]. unfold unit_RevokeSessions in *. rewrite Ha0 in *. cbn [fst snd with_db set_auth tx_db sd_auth] in Hr. revert Hr. unfold sql_revoke. cbn [sessions].
      rewrite lookup_fmap. destruct (sessions (sd_auth (tx_db s)) !! id) as [x0|]; [|done]. intros [= <-].
      destruct (revoke_row_cases now (has_subject (Subject a0)) x0) as [[Heq [Hrv|Hp]]|(_ & _ & Hrv & _)].
      * by rewrite Heq.
      * rewrite Heq in Hra. unfold has_subject in Hp. rewrite bool_decide_eq_true_2 in Hp by congruence. done.
      * unfold is_revoked. by rewrite Hrv.
  - destruct acc0 as [b0|].
    + destruct Hacc as (a & Ha & Hsa & Hra & Hset). destruct (urespond_account w s c) as [Hs|(a1 & -> & Hs)]; rewrite Hs.
      * exists a. split_and!; [done..|]. intros a' [Hd|Hd%list_elem_of_singleton]%elem_of_app; [by apply Hset|]. apply (f_equal (@projT1 _ _)) in Hd. cbn [projT1] in Hd. subst c.
        cbn [urespond fst] in Hs. rewrite Ha in Hs. cbn in Hs. injection Hs as ->. lia.
      * destruct (Hpre a Ha) as [E1 E2]. rewrite Ha. exists a1. split_and!; [done|congruence|lia|]. intros a' [Hd|Hd%list_elem_of_singleton]%elem_of_app; [specialize (Hset a' Hd); lia|].
        apply (f_equal as_set) in Hd. cbn [as_set] in Hd. injection Hd as ->. lia.
    + destruct (urespond_account w s c) as [Hs|(a1 & -> & Hs)]; rewrite Hs; [done|]. by rewrite Hacc.
Qed.
End invariant.

(** ** Weakest preconditions *)

Section wp.
Context (creates : bool).

Fixpoint wp {A} (p : uprog A) (s : tx_state) (t : utrace) (Q : tx_state -> utrace -> A -> Prop) : Prop :=
  match p with
  | Ret a => Q s t a
  | Do c k => tx_ok s -> pre creates s t c /\ forall w, wp (k (urespond w s c).2) (urespond w s c).1 (t ++ [existT c (urespond w s c).2]) Q
  end.

Lemma wp_sound {A} (p : uprog A) d0 acc0 w : forall n s t Q, tx_inv creates d0 acc0 s t -> wp p s t Q ->
  let '(s', t', a) := tx_exec w n s t p in tx_inv creates d0 acc0 s' t' /\ Q s' t' a.
Proof.
  induction p as [a|c k IH]; intros n s t Q Hinv; cbn [wp tx_exec]; [done|]. intros Hk. destruct (Hk (ti_ok _ _ _ _ _ Hinv)) as [Hpre Hk']. clear Hk. pose proof (tx_inv_step _ _ _ (w n) s t c Hinv Hpre) as Hstep.
  specialize (Hk' (w n)). destruct (urespond (w n) s c) as [s' r]. by apply IH.
Qed.

Lemma wp_impl {A} (p : uprog A) : forall s t (Q Q' : tx_state -> utrace -> A -> Prop), (forall s t a, Q s t a -> Q' s t a) -> wp p s t Q -> wp p s t Q'.
Proof. induction p as [a|c k IH]; intros s t Q Q' Hi; cbn [wp]; [apply Hi|]. intros Hk Hok. destruct (Hk Hok) as [Hp Hk']. split; [done|]. intros w. eapply IH; [exact Hi|apply Hk']. Qed.

Lemma wp_bind {A B} (p : uprog A) (f : A -> uprog B) : forall s t Q, wp p s t (fun s t a => wp (f a) s t Q) -> wp (p ≫= f) s t Q.
Proof. induction p as [a|c k IH]; intros s t Q; [done|]. intros Hk Hok. destruct (Hk Hok) as [Hp Hk']. split; [done|]. intros w. apply IH, Hk'. Qed.
End wp.
End transactions.
