(* ===== verification/AuthSecurityBodies.v ===== *)
(** * Auth: what the transactions of account security do

    Every body makes only guarded calls, and what its success proves: a challenge
    that was unused and is now used, or a change of credentials that revoked the
    sessions. *)

From S2P Require Import Prelude GoStrings GoUnicode Sha256 GoEncoding Effects AuthDomain AuthToken AuthStore AuthSession AuthGuards AuthHistory AuthSecurityStore AuthSecurity AuthSecurityTx.
Local Open Scope Z_scope.

(** A result that is an error promises nothing: the transaction is rolled back, or
    its rejection is committed. *)
Definition okp {A} (Q : tx_state -> utrace -> A -> Prop) : tx_state -> utrace -> reply_of A -> Prop :=
  fun s t r => match r with Ok a => Q s t a | _ => True end.

(** Calls that leave the challenges and the account alone. *)
Definition quiet (s s' : tx_state) : Prop :=
  challenges (tx_db s') = challenges (tx_db s) /\ tx_account s' = tx_account s /\ drawn (tx_db s) ⊆ drawn (tx_db s').

Lemma quiet_refl s : quiet s s.
Proof. done. Qed.
Lemma quiet_trans s1 s2 s3 : quiet s1 s2 -> quiet s2 s3 -> quiet s1 s3.
Proof. intros (A & B & C) (D & E & F). split_and!; [congruence..|set_solver]. Qed.
#[local] Hint Resolve quiet_refl : core.

Definition quiet_call (c : ucall) : bool := match c with USetAccount _ | USave _ => false | _ => true end.

Lemma urespond_quiet w s c : quiet_call c = true -> quiet s (urespond w s c).1.
Proof.
  intros Hc. unfold quiet. destruct c; try done; cbn [urespond]; unfold failing; try (destruct (uw_failed w)); try done; cbn [fst snd];
    unfold unit_Queue, unit_ReserveBudget, unit_CreateSession, unit_RevokeSessions, unit_RevokeSession; try (by repeat case_match).
  all: destruct (random_bytes w 16) as [id|]; [|done]; case_bool_decide; [done|]; split_and!; [done|done|cbn; set_solver].
Qed.

(** What the replies say. *)
Definition fact (s s' : tx_state) (c : ucall) : ureply c -> Prop :=
  match c return ureply c -> Prop with
  | UAccount => fun r => r = tx_account s
  | UChallenge id => fun r => forall x, r = Ok x -> challenges (tx_db s) !! id = Some x /\ ch_ID x = id /\ exists a, tx_account s = Some a /\ ch_Subject x = Subject a
  | ULatest p => fun r => forall x, r = Ok (Some x) -> challenges (tx_db s) !! ch_ID x = Some x /\ ch_Purpose x = p /\ exists a, tx_account s = Some a /\ ch_Subject x = Subject a
  | UNewID => fun r => forall id, r = Some id -> id ∈ drawn (tx_db s') /\ id ∉ drawn (tx_db s) /\ challenges (tx_db s') !! id = None
  | _ => fun _ => True
  end.

Lemma latest_of_In cs x : latest_of cs = Some x -> x ∈ cs.
Proof.
  unfold latest_of. assert (forall acc, fold_left (fun best c => match best with Some b => if challenge_before b c then Some c else best | None => Some c end) cs acc = Some x ->
    acc = Some x \/ x ∈ cs) as Hf; [|intros Hx; by destruct (Hf None Hx)].
  induction cs as [|c cs IH]; cbn [fold_left]; intros acc Hx; [by left|]. destruct (IH _ Hx) as [He|Hin]; [|right; by right].
  destruct acc as [b|]; [destruct (challenge_before b c)|]; injection He as <-; [right; by left|by left|right; by left].
Qed.

Lemma urespond_fact w s c : tx_ok s -> fact s (urespond w s c).1 c (urespond w s c).2.
Proof.
  intros [Hrows _]. destruct c; try done; cbn [urespond fact].
  - unfold failing. destruct (uw_failed w); [done|]. cbn [snd]. intros x Hx. unfold unit_Challenge in Hx. destruct (tx_account s) as [a|]; [|done].
    destruct (challenges (tx_db s) !! id) as [y|] eqn:Hy; [|done]. case_bool_decide; [|done]. injection Hx as ->.
    destruct (sq_challenges _ _ Hrows id x Hy) as (Hid & _). split_and!; [done|done|by exists a].
  - unfold failing. destruct (uw_failed w); [done|]. cbn [snd]. intros x Hx. unfold unit_LatestChallenge in Hx.
    destruct (tx_account s) as [a|]; [|done]. cbn [mbind option_bind] in Hx. injection Hx as Hx. apply latest_of_In, list_elem_of_In, filter_In in Hx as [Hx Hb]. go_bool.
    apply list_elem_of_In, list_elem_of_fmap in Hx as ([id y] & -> & Hl%elem_of_map_to_list). cbn [snd] in *.
    destruct (sq_challenges _ _ Hrows id y Hl) as (Hid & _). rewrite Hid. split_and!; [done|done|by exists a].
  - intros id. destruct (random_bytes w 16) as [x|]; [|done]. case_bool_decide as Hd; [done|]. cbn [fst snd tx_db with_db drawn set_drawn challenges]. intros [= ->].
    split_and!; [set_solver|done|]. destruct (challenges (tx_db s) !! id) as [c|] eqn:Hc; [|done]. by destruct (sq_challenges _ _ Hrows id c Hc) as (_ & _ & ? & _).
Qed.

(** A challenge that the transaction found unused and stored as used. *)
Definition consumed_challenge (t : utrace) (id : bytes) : Prop :=
  exists c now, udid t (UChallenge id) (Ok c) /\ ch_ID c = id /\ UsedAt c = None /\ udid t (USave (set_used c now)) (Ok tt).

(** A change of credentials: the sessions were revoked and the revision grew. *)
Definition changed_credentials (t : utrace) (a0 : Account) : Prop :=
  (exists now, udid t (URevokeAll now) (Ok tt)) /\ exists a, udid t (USetAccount a) tt /\ Revision a0 < Revision a.

Section bodies.
Context (config : SecConfig) (creates : bool).
Abbreviation wp := (wp config creates).

Lemma wp_call c s t (Q : tx_state -> utrace -> ureply c -> Prop) : quiet_call c = true -> pre config creates s t c ->
  (forall s' t' r, quiet s s' -> t ⊆ t' -> udid t' c r -> fact s s' c r -> Q s' t' r) -> wp (uperform c) s t Q.
Proof.
  intros Hc Hp HQ Hok. split; [done|]. intros w. apply HQ; [by apply urespond_quiet|set_solver|set_solver|by apply urespond_fact].
Qed.

Lemma wp_save c s t (Q : tx_state -> utrace -> unit -> Prop) : saveable s t c ->
  (forall s' t', t ⊆ t' -> udid t' (USave c) (Ok tt) -> tx_account s' = tx_account s -> drawn (tx_db s') = drawn (tx_db s) ->
     (forall id, id <> ch_ID c -> challenges (tx_db s') !! id = challenges (tx_db s) !! id) -> Q s' t' tt) -> wp (uperform (USave c)) s t (okp Q).
Proof.
  intros Hs HQ Hok. split; [done|]. intros w. cbn [urespond]. unfold failing. destruct (uw_failed w); [done|]. unfold unit_SaveChallenge.
  destruct (tx_account s) as [a|] eqn:Ha; [|done]. destruct (negb _); [done|]. destruct (sql_upsert_challenge _ c) as [m|] eqn:Hm; [|done].
  apply HQ; cbn [fst snd tx_account with_db tx_db set_challenges drawn challenges]; [set_solver|set_solver|done|done|]. intros id Hne.
  unfold sql_upsert_challenge in Hm. destruct (negb _); [done|]. destruct (challenges (tx_db s) !! ch_ID c); [destruct (_ && _)|]; injection Hm as <-; [|done|]; by rewrite lookup_insert_ne.
Qed.

Lemma wp_set a s t (Q : tx_state -> utrace -> unit -> Prop) a0 : tx_account s = Some a0 -> Subject a = Subject a0 -> Revision a0 <= Revision a ->
  (forall s' t', t ⊆ t' -> udid t' (USetAccount a) tt -> tx_account s' = Some a -> tx_db s' = tx_db s -> Q s' t' tt) -> wp (uperform (USetAccount a)) s t Q.
Proof.
  intros H0 Hs Hr HQ Hok. split; [cbn [pre]; intros a1 H1; assert (a1 = a0) as -> by congruence; done|]. intros w. cbn [urespond].
  apply HQ; [set_solver|set_solver| |done]. cbn [tx_account]. by rewrite H0.
Qed.

Lemma wp_try {A B} (p : uprog (reply_of A)) (f : A -> uprog (reply_of B)) s t (Q : tx_state -> utrace -> B -> Prop) :
  wp p s t (okp (fun s t a => wp (f a) s t (okp Q))) -> wp (try p f) s t (okp Q).
Proof. intros Hp. apply wp_bind. eapply wp_impl; [|exact Hp]. by intros s' t' []. Qed.

Lemma wp_refuse {A} b e (p : uprog (reply_of A)) s t (Q : tx_state -> utrace -> A -> Prop) :
  (b = false -> wp p s t (okp Q)) -> wp (refuse b e p) s t (okp Q).
Proof. unfold refuse. destruct b; [done|]. intros Hp. by apply Hp. Qed.

Lemma wp_account {A} (f : Account -> uprog (reply_of A)) s t (Q : tx_state -> utrace -> A -> Prop) :
  (forall s' t' a, quiet s s' -> tx_account s = Some a -> t ⊆ t' -> udid t' UAccount (Some a) -> wp (f a) s' t' (okp Q)) -> wp (with_account_of f) s t (okp Q).
Proof.
  intros Hf. apply wp_bind, (wp_call UAccount); [done|done|]. intros s' t' r Hq Ht Hd Hr. cbn [ureply fact] in *. subst r.
  destruct (tx_account s) as [a|] eqn:Ha; [by apply Hf|done].
Qed.

(** Programs of the process only. *)
Lemma wp_lift {A} (p : prog A) (post : A -> Prop) : forall s t t0 (Q : tx_state -> utrace -> A -> Prop),
  verified (fun _ _ => True) (fun _ _ => True) p t0 (fun _ a => post a) ->
  (forall s' t' a, quiet s s' -> t ⊆ t' -> post a -> Q s' t' a) -> wp (lift_process p) s t Q.
Proof.
  induction p as [a|c k IH]; intros s t t0 Q Hv HQ; cbn [lift_process]; [by apply HQ|]. destruct Hv as [_ Hv]. intros Hok. split; [done|]. intros w.
  cbn [urespond fst snd]. eapply IH; [by apply Hv|]. intros s' t' a Hq Ht Ha. apply HQ; [done|set_solver|done].
Qed.

Lemma wp_now s t (Q : tx_state -> utrace -> Z -> Prop) : (forall s' t' now, quiet s s' -> t ⊆ t' -> Q s' t' now) -> wp unit_now s t Q.
Proof. intros HQ. apply (wp_lift service_now (fun _ => True) s t []); [done|]. intros. by apply HQ. Qed.

Lemma wp_newID s t (Q : tx_state -> utrace -> bytes -> Prop) :
  (forall s' t' id, quiet s s' -> t ⊆ t' -> id ∈ drawn (tx_db s') -> id ∉ drawn (tx_db s) -> challenges (tx_db s') !! id = None -> Q s' t' id) -> wp newID s t (okp Q).
Proof.
  intros HQ. apply wp_bind, (wp_call UNewID); [done|done|]. intros s' t' r Hq Ht _ Hf. cbn [ureply fact] in *. destruct r as [id|]; [|done].
  destruct (Hf id eq_refl) as (H1 & H2 & H3). by apply HQ.
Qed.

(** Other calls of the process. *)
Lemma wp_quiet {A} c (f : ureply c -> uprog A) s t Q : quiet_call c = true -> (forall s t, pre config creates s t c) ->
  (forall s' t' r, quiet s s' -> t ⊆ t' -> udid t' c r -> fact s s' c r -> wp (f r) s' t' Q) -> wp (uperform c ≫= f) s t Q.
Proof. intros Hc Hp HQ. apply wp_bind, wp_call; [done|done|]. intros. by apply HQ. Qed.

Ltac quiets := eauto 6 using quiet_trans.
Ltac subs := first [done | set_solver].

Lemma wp_notice kind s t (Q : tx_state -> utrace -> unit -> Prop) : (forall s' t', quiet s s' -> t ⊆ t' -> Q s' t' tt) -> wp (notice config kind) s t (okp Q).
Proof.
  intros HQ. apply wp_try, wp_newID. intros s1 t1 id Hq1 Ht1 _ _ _. apply wp_account. intros s2 t2 a Hq2 _ Ht2 _.
  apply wp_bind, wp_now. intros s3 t3 now Hq3 Ht3. apply wp_bind, wp_now. intros s4 t4 later Hq4 Ht4.
  apply (wp_call (UQueue _)); [done|done|]. intros s5 t5 r Hq5 Ht5 _ _. cbn [ureply] in r. destruct r as [[]| |]; try done. apply HQ; [quiets|subs].
Qed.

Lemma Prepare_record cfg subject t0 : verified (reply := reply) (fun _ _ => True) (fun _ _ => True) (Prepare cfg subject) t0
  (fun _ r => forall tk, r = Ok tk -> SubjectID (tk_Record tk) = subject /\ Version (tk_Record tk) = 1 /\ RevokedAt (tk_Record tk) = None).
Proof.
  apply verified_refuse; [done|]. intros _. apply verified_do; [done|]. intros r _. cbn [reply] in r. destruct r as [id|]; [|done]. apply verified_refuse; [done|]. intros _.
  apply verified_bind, verified_do; [done|]. intros clock _. apply verified_do; [done|]. intros r _. cbn [reply] in r. cbn [verified]. intros tk Htk.
  destruct r as [secrets|]; [|done]. destruct (NewToken _ (take 32 secrets)); try done. destruct (NewToken _ (drop 32 secrets)); try done. case_bool_decide; [done|]. by injection Htk as <-.
Qed.

Lemma wp_issue s t (Q : tx_state -> utrace -> Tokens -> Prop) : creates = true -> (forall a, tx_account s = Some a -> signed_in config t (Subject a)) ->
  (forall s' t' tk, quiet s s' -> t ⊆ t' -> Q s' t' tk) -> wp (issue config) s t (okp Q).
Proof.
  intros Hcr Hsi HQ. apply wp_account. intros s1 t1 a Hq1 Ha Ht1 _.
  apply wp_bind. eapply (wp_lift _ _ _ _ []); [apply Prepare_record|]. intros s2 t2 r Hq2 Ht2 Hr. destruct r as [tk| |]; try done. destruct (Hr tk eq_refl) as (Hsub & Hv & Hrev).
  apply wp_try, (wp_call (UCreate _ _)); [done| |].
  { cbn [pre]. rewrite Hsub. split_and!; [done|done|done|]. eapply signed_in_mono; [|by apply Hsi]. subs. }
  intros s3 t3 r Hq3 Ht3 _ _. cbn [ureply] in r. destruct r as [[]| |]; try done. apply wp_try, wp_notice. intros s4 t4 Hq4 Ht4. apply HQ; [quiets|subs].
Qed.

(** *** Codes *)

Lemma saveable_quiet s s' t t' c : quiet s s' -> t ⊆ t' -> saveable s t c -> saveable s' t' c.
Proof.
  intros (Hc & Ha & Hd) Ht. unfold saveable. rewrite Hc, Ha. destruct (challenges (tx_db s) !! ch_ID c); [done|]. intros (H1 & H2 & H3). split_and!; [set_solver|done|].
  intros Hp. eapply password_for_mono; [done|by apply H3].
Qed.

Lemma saveable_like s t c c' : ch_ID c' = ch_ID c -> ch_Subject c' = ch_Subject c -> ch_Purpose c' = ch_Purpose c -> ch_Revision c' = ch_Revision c ->
  (UsedAt c <> None -> UsedAt c' <> None) -> saveable s t c -> saveable s t c'.
Proof.
  intros E1 E2 E3 E4 E5. unfold saveable. rewrite E1, E2, E3, E4. destruct (challenges (tx_db s) !! ch_ID c); [|done]. intros (H1 & H2 & H3). split_and!; [done|done|auto].
Qed.

(** The stored challenge itself. *)
Lemma saveable_stored s t c : challenges (tx_db s) !! ch_ID c = Some c -> saveable s t c.
Proof. intros Hc. unfold saveable. by rewrite Hc. Qed.

Lemma wp_fresh_code fuel c s t (Q : tx_state -> utrace -> bytes * bytes -> Prop) :
  (forall s' t' x, quiet s s' -> t ⊆ t' -> Q s' t' x) -> wp (fresh_code config fuel c) s t (okp Q).
Proof.
  revert s t. induction fuel as [|fuel IH]; intros s t HQ; [done|]. cbn [fresh_code]. apply wp_try, wp_bind, (wp_call UNewNumber); [done|done|].
  intros s1 t1 r Hq1 Ht1 _ _. cbn [ureply] in r. destruct r as [n|]; [|done]. unfold wp. cbn [AuthSecurityTx.wp okp]. case_bool_decide.
  - apply IH. intros s2 t2 x Hq2 Ht2. apply HQ; [quiets|subs].
  - by apply HQ.
Qed.

Lemma wp_replaceCode c s t (Q : tx_state -> utrace -> Challenge -> Prop) : saveable s t c ->
  (forall s' t' c', t ⊆ t' -> ch_ID c' = ch_ID c -> Q s' t' c') -> wp (replaceCode config c) s t (okp Q).
Proof.
  intros Hs HQ. apply wp_refuse. intros _. cbv zeta. apply wp_bind, wp_now. intros s1 t1 now Hq1 Ht1.
  apply wp_try, (wp_call (UBudget _ _ _ _)); [done|done|]. intros s2 t2 r Hq2 Ht2 _ _. cbn [ureply] in r. destruct r as [n| |]; try done.
  apply wp_refuse. intros _. apply wp_try, wp_fresh_code. intros s3 t3 [code next] Hq3 Ht3. apply wp_bind, wp_now. intros s4 t4 now4 Hq4 Ht4.
  apply wp_try, wp_save.
  { apply (saveable_like _ _ c); [done..|]. eapply saveable_quiet; [| |exact Hs]; [quiets|subs]. }
  intros s5 t5 Ht5 _ _ _ _. apply wp_try, wp_newID. intros s6 t6 id Hq6 Ht6 _ _ _. apply wp_account. intros s7 t7 a Hq7 _ Ht7 _.
  apply wp_bind, wp_now. intros s8 t8 now8 Hq8 Ht8. apply wp_try, (wp_call (UQueue _)); [done|done|]. intros s9 t9 r Hq9 Ht9 _ _. cbn [ureply] in r.
  destruct r as [[]| |]; try done. apply HQ; [subs|done].
Qed.

Lemma wp_createCode purpose s t (Q : tx_state -> utrace -> Challenge -> Prop) :
  (purpose = LoginCode -> forall a, tx_account s = Some a -> password_for t (Subject a)) ->
  (forall s' t' c, t ⊆ t' -> Q s' t' c) -> wp (createCode config purpose) s t (okp Q).
Proof.
  intros Hpw HQ. apply wp_try, wp_newID. intros s1 t1 id Hq1 Ht1 Hd _ Hn. apply wp_account. intros s2 t2 a Hq2 Ha Ht2 _.
  apply wp_bind, wp_now. intros s3 t3 now Hq3 Ht3. apply wp_replaceCode.
  - eapply (saveable_quiet s1 s3 t1 t3); [quiets|subs|]. unfold saveable. cbn [ch_ID ch_Revision ch_Purpose ch_Subject]. rewrite Hn. destruct Hq1 as (_ & Ea & _). rewrite Ea in Ha. rewrite Ea.
    split_and!; [done| |]; [intros a' Ha'; assert (a' = a) as -> by congruence; lia|]. intros ->. eapply password_for_mono; [done|by apply Hpw].
  - intros s4 t4 c Ht4 _. apply HQ. subs.
Qed.

Lemma challenge_Check_Ok c a purpose now : challenge_Check c a purpose now = Ok tt -> ch_Subject c = Subject a /\ ch_Purpose c = purpose /\ UsedAt c = None /\ ch_Revision c = Revision a.
Proof. unfold challenge_Check. rewrite !guard_Ok. intros (H1 & H2 & _). go_bool. done. Qed.

Lemma wp_checkCode c purpose code s t (Q : tx_state -> utrace -> unit -> Prop) : challenges (tx_db s) !! ch_ID c = Some c ->
  (forall s' t' a, quiet s s' -> t ⊆ t' -> tx_account s = Some a -> ch_Subject c = Subject a -> ch_Purpose c = purpose -> UsedAt c = None ->
     sec_digest config (purpose_string purpose) (ch_ID c) code = ch_Digest c -> Q s' t' tt) -> wp (checkCode config c purpose code) s t (okp Q).
Proof.
  intros Hstored HQ. apply wp_account. intros s1 t1 a Hq1 Ha Ht1 _. apply wp_bind, wp_now. intros s2 t2 now Hq2 Ht2.
  destruct (challenge_Check c a purpose now) as [[]| |] eqn:Hck; try done. apply challenge_Check_Ok in Hck as (Hsub & Hpur & Hun & _).
  apply wp_refuse. intros _. cbv zeta. apply wp_bind, wp_now. intros s3 t3 now3 Hq3 Ht3.
  apply wp_try, (wp_call (UBudget _ _ _ _)); [done|done|]. intros s4 t4 r Hq4 Ht4 _ _. cbn [ureply] in r. destruct r as [n| |]; try done. apply wp_refuse. intros _.
  assert (quiet s s4) as Hq by quiets.
  assert (saveable s4 t4 c) as Hs by (eapply saveable_quiet; [exact Hq| |by apply saveable_stored]; subs).
  case_bool_decide as Hdig; [apply (HQ s4 t4 a); try done; subs|]. destruct (3 <=? Attempts (count_attempt c)).
  - destruct (5 <=? Sends (count_attempt c)).
    + apply wp_bind, wp_now. intros s5 t5 now5 Hq5 Ht5. apply wp_try, wp_save; [|done]. eapply saveable_quiet; [exact Hq5|exact Ht5|]. by apply (saveable_like _ _ c).
    + apply wp_try, wp_replaceCode; [by apply (saveable_like _ _ c)|done].
  - apply wp_try, wp_save; [by apply (saveable_like _ _ c)|done].
Qed.

(** *** Links *)

Lemma wp_tokenChallenge account purpose email ttl s t (Q : tx_state -> utrace -> Challenge * Mail -> Prop) :
  (forall s' t' c m, quiet s s' -> t ⊆ t' -> ch_ID c ∈ drawn (tx_db s') -> ch_ID c ∉ drawn (tx_db s) -> challenges (tx_db s') !! ch_ID c = None ->
     ch_Subject c = Subject account -> ch_Purpose c = purpose -> ch_Revision c = Revision account -> UsedAt c = None -> Q s' t' (c, m)) ->
  wp (tokenChallenge config account purpose email ttl) s t (okp Q).
Proof.
  intros HQ. apply wp_try, wp_newID. intros s1 t1 id Hq1 Ht1 Hd Hnd Hn. apply wp_try, wp_bind, (wp_call UNewSecret); [done|done|].
  intros s2 t2 r Hq2 Ht2 _ _. cbn [ureply] in r. destruct r as [b|]; [|done]. unfold wp. cbn [AuthSecurityTx.wp okp].
  apply wp_try, wp_newID. intros s3 t3 mailID Hq3 Ht3 _ _ _. apply wp_bind, wp_now. intros s4 t4 now Hq4 Ht4. unfold wp. cbn [AuthSecurityTx.wp okp].
  assert (quiet s1 s4) as Hq by quiets. pose proof Hq as (Hc & _ & Hdr). apply HQ; cbn [ch_ID ch_Subject ch_Purpose ch_Revision UsedAt]; try done.
  - quiets.
  - subs.
  - by apply Hdr.
  - by rewrite Hc.
Qed.

Lemma wp_increment s t (Q : tx_state -> utrace -> unit -> Prop) :
  (forall s' t' a a', t ⊆ t' -> tx_account s = Some a -> tx_account s' = Some a' -> Subject a' = Subject a -> Revision a < Revision a' ->
     CodeEnabled a' = CodeEnabled a -> udid t' (USetAccount a') tt -> tx_db s' = tx_db s -> Q s' t' tt) -> wp increment_account s t (okp Q).
Proof.
  intros HQ. apply wp_bind. intros Hok. split; [done|]. intros w. cbn [urespond fst snd AuthSecurityTx.wp]. destruct (tx_account s) as [a|] eqn:Ha; [|done].
  destruct (increment a) as [a'| |] eqn:Hi; try done. unfold increment in Hi. rewrite guard_Ok in Hi. destruct Hi as [_ [= <-]].
  apply wp_bind. eapply (wp_set _ _ _ _ a); [done|done|cbn; lia|]. intros s' t' Ht Hd Ha' Hdb. unfold wp. cbn [AuthSecurityTx.wp okp].
  eapply HQ; [set_solver|done|done|done|cbn; lia|done|done|done].
Qed.

(** ** The bodies *)

(** Committed rejections promise nothing either. *)
Definition okv (Q : tx_state -> utrace -> tx_value -> Prop) : tx_state -> utrace -> reply_of tx_value -> Prop :=
  okp (fun s t v => match v with Rejected _ => True | v => Q s t v end).
Abbreviation anything := (fun _ _ _ => True).

Lemma wp_commit p s t Q : wp p s t (okv Q) -> wp (commit_expected p) s t (okv Q).
Proof.
  intros Hp. apply wp_bind. eapply wp_impl; [|exact Hp]. intros s' t' r Hr. unfold wp. cbn [AuthSecurityTx.wp]. destruct r as [v|e|]; [done| |done]. by destruct (IsExpected e).
Qed.

Lemma fine_value p s t Q : (forall s t v, Q s t v) -> wp p s t (okp anything) -> wp p s t (okv Q).
Proof. intros HQ. apply wp_impl. intros s' t' [v| |] _; try done. cbn [okv okp]. destruct v; try done; apply HQ. Qed.

(** The challenges stay as they are. *)
Definition still (s s' : tx_state) : Prop := challenges (tx_db s') = challenges (tx_db s) /\ drawn (tx_db s) ⊆ drawn (tx_db s').
Lemma quiet_still s s' : quiet s s' -> still s s'.
Proof. intros (H1 & _ & H3). done. Qed.
Lemma still_trans s1 s2 s3 : still s1 s2 -> still s2 s3 -> still s1 s3.
Proof. intros [A B] [C D]. split; [congruence|set_solver]. Qed.

Lemma fine_login_failed account attempt s t Q : wp (login_failed config account attempt) s t (okv Q).
Proof.
  unfold login_failed. destruct (negb _); [done|]. destruct account as [a|]; [|done]. case_bool_decide; [|done]. apply wp_try, wp_notice. done.
Qed.

Lemma fine_login_code account now s t : (forall a, tx_account s = Some a -> Subject a = Subject account) -> password_for t (Subject account) ->
  wp (login_code config account now) s t (okv anything).
Proof.
  intros Ha Hpw. apply wp_try, (wp_call (ULatest LoginCode)); [done|done|]. intros s1 t1 r Hq1 Ht1 _ Hf. cbn [ureply fact] in *. destruct r as [latest| |]; try done. cbn [okp]. cbv zeta.
  assert (wp (try (createCode config LoginCode) (fun c => Ret (Ok (Challenged (ch_ID c) (ch_ExpiresAt c - now))))) s1 t1 (okv anything)) as Hcreate.
  { apply wp_try, wp_createCode; [|done]. intros _ a Ha1. destruct Hq1 as (_ & E & _). rewrite E in Ha1. rewrite (Ha a Ha1). by eapply password_for_mono. }
  destruct latest as [c|]; [|exact Hcreate]. destruct (challenge_Check c account LoginCode now) as [[]| |]; try exact Hcreate. destruct (_ <? _); [done|].
  apply wp_commit, wp_try, wp_replaceCode; [|done]. apply saveable_stored. destruct (Hf c eq_refl) as [Hl _]. destruct Hq1 as (E & _). by rewrite E.
Qed.

Lemma fine_login plain bucket allow now s t : creates = true -> wp (login_body config plain bucket allow now) s t (okv anything).
Proof.
  intros Hcr. apply wp_try. unfold ReserveAttempt. apply (wp_call (UBudget _ _ _ _)); [done|done|]. intros s1 t1 r Hq1 Ht1 _ _. cbn [ureply] in r. destruct r as [n| |]; try done.
  cbn [okp]. destruct (5 <? n); [done|]. apply wp_quiet; [done|done|]. intros s2 t2 acc Hq2 Ht2 Hd2 Hf2. cbn [ureply fact] in *. subst acc.
  destruct (tx_account s1) as [a|] eqn:Ha.
  - apply wp_quiet; [done|done|]. intros s3 t3 r Hq3 Ht3 Hd3 _. cbn [ureply] in *. destruct r as [[valid rehash]|]; [|done].
    destruct valid; cbn [negb orb]; [|apply fine_login_failed]. destruct (_ || _); [apply fine_login_failed|].
    assert (tx_account s3 = Some a) as Ha3 by (destruct Hq3 as (_ & -> & _); destruct Hq2 as (_ & -> & _); done). clear Hq1 Hq2 Hq3.
    assert (password_for t3 (Subject a)) as Hpw by (exists a, plain, rehash; split_and!; [set_solver|done|done]).
    assert (forall t', t3 ⊆ t' -> CodeEnabled a = false -> signed_in config t' (Subject a)) as Hsi.
    { intros t' Ht' Hc. left. exists a, plain, rehash. split_and!; [set_solver|done|done|by apply Ht']. }
    apply wp_try, (wp_call (UReset _)); [done|done|]. intros s4 t4 r Hq4 Ht4 _ _. cbn [ureply] in r. destruct r as [[]| |]; try done. cbn [okp].
    destruct (Verified a); cbn [negb]; [|done]. cbv zeta.
    assert (forall a', Subject a' = Subject a -> CodeEnabled a' = CodeEnabled a -> forall s' t', t4 ⊆ t' -> tx_account s' = Some a' ->
      wp (if CodeEnabled a' then if negb allow then Ret (Ok (Rejected (Failed CodeRequired))) else login_code config a' now
          else try (issue config) (fun tokens => Ret (Ok (Issued tokens)))) s' t' (okv anything)) as Hgo.
    { intros a' Hsub Hcode s' t' Ht' Ha'. destruct (CodeEnabled a') eqn:Hc.
      - destruct (negb allow); [done|]. apply fine_login_code; [intros b Hb; congruence|]. rewrite Hsub. eapply password_for_mono; [|exact Hpw]. set_solver.
      - apply wp_try, wp_issue; [done| |done]. intros b Hb. assert (b = a') as -> by congruence. rewrite Hsub. apply Hsi; [set_solver|congruence]. }
    assert (tx_account s4 = Some a) as Ha4 by (destruct Hq4 as (_ & -> & _); done). destruct rehash; [|by apply Hgo].
    apply wp_quiet; [done|done|]. intros s5 t5 r Hq5 Ht5 _ _. cbn [ureply] in r. destruct r as [digest|]; [|done].
    apply wp_bind. eapply (wp_set _ _ _ _ a); [destruct Hq5 as (_ & -> & _); done|done|cbn; lia|]. intros s6 t6 Ht6 _ Ha6 _. apply Hgo; [done|done|set_solver|done].
  - apply wp_quiet; [done|done|]. intros s3 t3 r Hq3 Ht3 _ _. cbn [ureply] in r. destruct r as [[]|]; [apply fine_login_failed|done].
Qed.

(** A challenge of the transaction's account. *)
Definition held (s : tx_state) (t : utrace) (id : bytes) (c : Challenge) : Prop :=
  challenges (tx_db s) !! id = Some c /\ ch_ID c = id /\ udid t (UChallenge id) (Ok c).

Lemma held_quiet s s' t t' id c : still s s' -> t ⊆ t' -> held s t id c -> held s' t' id c.
Proof. intros (E & _) Ht (H1 & H2 & H3). unfold held. rewrite E. split_and!; [done|done|by apply Ht]. Qed.

Lemma held_used s t id c now : held s t id c -> saveable s t (set_used c now).
Proof. intros (H1 & <- & _). apply (saveable_like _ _ c); [done..|]. by apply saveable_stored. Qed.

Lemma fine_complete_login code c id s t : creates = true -> held s t id c ->
  wp (complete_login_body config code c) s t (okv (fun s t _ => consumed_challenge t id)).
Proof.
  intros Hcr Hh. apply wp_try, wp_checkCode; [destruct Hh as (H1 & <- & _); done|]. intros s1 t1 a Hq1 Ht1 Ha Hsub Hpur Hun Hdig.
  apply wp_account. intros s2 t2 a2 Hq2 Ha2 Ht2 _. assert (a2 = a) as -> by (destruct Hq1 as (_ & E & _); congruence).
  apply wp_refuse. intros _. apply wp_bind, wp_now. intros s3 t3 now Hq3 Ht3.
  assert (held s3 t3 id c) as Hh3 by (apply (held_quiet s s3 t t3); [apply quiet_still; quiets|set_solver|exact Hh]).
  apply wp_try, wp_save; [by eapply held_used|]. intros s4 t4 Ht4 Hd4 Ea _ _. apply wp_try, wp_issue; [done| |].
  - intros b Hb. right. left. exists c, code. destruct Hh3 as (_ & Hid & Hr). assert (b = a) as ->.
    { rewrite Ea in Hb. destruct Hq3 as (_ & E3 & _), Hq2 as (_ & E2 & _), Hq1 as (_ & E1 & _). congruence. }
    rewrite Hid. split_and!; [by apply Ht4|done|done|done|]. by rewrite <- Hdig, Hid.
  - intros s5 t5 tk Hq5 Ht5. exists c, now. destruct Hh3 as (_ & Hid & Hr). split_and!; [set_solver|done|done|by apply Ht5].
Qed.

Lemma fine_resend c id s t : held s t id c -> wp (resend_body config c) s t (okv anything).
Proof.
  intros Hh. apply wp_account. intros s1 t1 a Hq1 _ Ht1 _. apply wp_bind, wp_now. intros s2 t2 now Hq2 Ht2. destruct (challenge_Check c a LoginCode now) as [[]| |]; try done.
  apply wp_bind, wp_now. intros s3 t3 now3 Hq3 Ht3. apply wp_refuse. intros _. apply wp_try, wp_replaceCode.
  - apply saveable_stored. destruct Hh as (H1 & <- & _). assert (quiet s s3) as (E & _) by quiets. by rewrite E.
  - intros s4 t4 c' _ _. apply wp_bind, wp_now. done.
Qed.

(** *** Links and credentials *)

Lemma saveable_new s t c : challenges (tx_db s) !! ch_ID c = None -> ch_ID c ∈ drawn (tx_db s) -> ch_Purpose c <> LoginCode ->
  (forall a, tx_account s = Some a -> ch_Revision c <= Revision a) -> saveable s t c.
Proof. intros Hn Hd Hp Hr. unfold saveable. rewrite Hn. done. Qed.

Lemma fine_send_link account purpose email digest expires s t : purpose <> LoginCode -> tx_account s = Some account ->
  wp (send_link config account purpose email digest expires) s t (okv anything).
Proof.
  intros Hp Ha. apply wp_try, wp_tokenChallenge. intros s1 t1 c m Hq1 Ht1 Hd _ Hn _ Hpur Hrev _. cbv zeta. apply wp_try, wp_save.
  - apply saveable_new; cbn [ch_ID ch_Purpose ch_Revision bound_challenge]; [done|done|congruence|]. intros a Ha1. destruct Hq1 as (_ & E & _).
    assert (a = account) as -> by congruence. lia.
  - intros s2 t2 _ _ _ _ _. apply wp_try, (wp_call (UQueue _)); [done|done|]. intros s3 t3 r _ _ _ _. cbn [ureply] in r. by destruct r as [[]| |].
Qed.

Lemma fine_request_token purpose email s t : purpose <> LoginCode -> wp (request_token_body config purpose email) s t (okv anything).
Proof.
  intros Hp. apply wp_quiet; [done|done|]. intros s1 t1 acc Hq1 Ht1 _ Hf1. cbn [ureply fact] in *. subst acc. destruct (tx_account s) as [account|] eqn:Ha; [|done].
  destruct (_ || _); [done|]. apply wp_try, (wp_call (ULatest purpose)); [done|done|]. intros s2 t2 r Hq2 Ht2 _ Hf2. cbn [ureply fact] in *. destruct r as [latest| |]; try done. cbn [okp].
  assert (tx_account s2 = Some account) as Ha2 by (destruct Hq2 as (_ & -> & _), Hq1 as (_ & -> & _); done). destruct latest as [l|]; [|by apply fine_send_link].
  destruct (Hf2 l eq_refl) as (Hl & _). apply wp_bind, wp_now. intros s3 t3 now Hq3 Ht3. destruct (_ <? _); [done|]. apply wp_bind.
  assert (forall s' t' digest, quiet s3 s' -> wp (now ← unit_now; try (uperform (USave (set_used l now))) (fun _ =>
    send_link config account purpose email digest (ch_ExpiresAt l))) s' t' (okv anything)) as Hgo.
  { intros s' t' digest Hq'. apply wp_bind, wp_now. intros s5 t5 now5 Hq5 Ht5. assert (quiet s1 s5) as (E5 & Ea5 & _) by quiets. apply wp_try, wp_save.
    - apply (saveable_like _ _ l); [done..|]. apply saveable_stored. by rewrite E5.
    - intros s6 t6 _ _ Ea _ _. apply fine_send_link; [done|]. destruct Hq1 as (_ & E1 & _). congruence. }
  unfold registration_binding. case_bool_decide; [apply wp_bind, wp_now; intros s4 t4 now4 Hq4 Ht4|]; by apply Hgo.
Qed.

(** *** Confirmation of a link *)

(** What the body of a confirmation may rely on. *)
Definition confirmed (t : utrace) (id secret : bytes) (purpose : Purpose) (c : Challenge) (a : Account) : Prop :=
  udid t (UChallenge id) (Ok c) /\ ch_ID c = id /\ ch_Subject c = Subject a /\ ch_Purpose c = purpose /\ UsedAt c = None /\
  sec_digest config (purpose_string purpose) id secret = ch_Digest c.

Lemma fine_confirm id secret purpose apply c s t a (R : utrace -> Prop) : held s t id c -> tx_account s = Some a -> (forall t t', t ⊆ t' -> R t -> R t') ->
  (forall s' t', quiet s s' -> t ⊆ t' -> confirmed t' id secret purpose c a -> wp (apply c) s' t' (okp (fun s2 t2 _ => still s' s2 /\ t' ⊆ t2 /\ R t2))) ->
  wp (confirm_body config id secret purpose apply c) s t (okv (fun _ t _ => consumed_challenge t id /\ R t)).
Proof.
  intros Hh Ha HR Happly. apply wp_account. intros s1 t1 a1 Hq1 Ha1 Ht1 _. assert (a1 = a) as -> by congruence. apply wp_bind, wp_now. intros s2 t2 now Hq2 Ht2.
  destruct (challenge_Check c a purpose now) as [[]| |] eqn:Hck; try done. apply challenge_Check_Ok in Hck as (Hsub & Hpur & Hun & _). apply wp_refuse. intros Hdig. go_bool.
  assert (held s2 t2 id c) as Hh2 by (apply (held_quiet s s2 t t2); [apply quiet_still; quiets|set_solver|exact Hh]).
  apply wp_try. eapply wp_impl; [|apply (Happly s2 t2); [quiets|set_solver|destruct Hh2 as (_ & ? & ?); done]].
  intros s3 t3 r Hr. destruct r as [v| |]; try done. cbn [okp] in *. destruct Hr as (Hst & Ht3 & HRt). apply wp_bind, wp_now. intros s4 t4 now4 Hq4 Ht4.
  assert (held s4 t4 id c) as Hh4 by (apply (held_quiet s2 s4 t2 t4); [eapply still_trans; [exact Hst|by apply quiet_still]|set_solver|exact Hh2]).
  apply wp_try, wp_save; [by eapply held_used|]. intros s5 t5 Ht5 Hd5 _ _ _. cbn [AuthSecurityTx.wp okv okp].
  assert (consumed_challenge t5 id /\ R t5) as Hdone; [|by destruct v].
  split; [|eapply HR; [|exact HRt]; set_solver]. exists c, now4. destruct Hh4 as (_ & Hid & Hread). split_and!; [by apply Ht5|done|done|done].
Qed.

Lemma fine_confirm_registration browser id secret c s t a : creates = true -> tx_account s = Some a -> confirmed t id secret VerifyEmail c a ->
  wp (confirm_registration_apply config browser c) s t (okp (fun s2 t2 _ => still s s2 /\ t ⊆ t2 /\ True)).
Proof.
  intros Hcr Ha (Hread & Hid & Hsub & Hpur & Hun & Hdig). apply wp_account. intros s1 t1 a1 Hq1 Ha1 Ht1 _. assert (a1 = a) as -> by congruence. apply wp_refuse. intros _.
  assert (tx_account s1 = Some a) as Has1 by (destruct Hq1 as (_ & -> & _); done).
  apply wp_bind. eapply (wp_set _ _ _ _ a); [done|done|cbn; lia|]. intros s2 t2 Ht2 _ Ha2 Hdb. assert (still s s2) as Hst by (destruct Hq1 as (E & _ & D); unfold still; by rewrite Hdb).
  destruct (_ && _ && _) eqn:Hb; [|cbn [AuthSecurityTx.wp okp]; split_and!; [done|set_solver|done]]. go_bool.
  apply wp_try, wp_issue; [done| |].
  - intros b Hb. rewrite Ha2 in Hb. injection Hb as <-. cbn [Subject set_verified]. right. right. exists c, secret, browser.
    rewrite Hid. split_and!; [set_solver|done|done|done|done|done|congruence].
  - intros s3 t3 tk Hq3 Ht3. split_and!; [|set_solver|done]. eapply still_trans; [exact Hst|by apply quiet_still].
Qed.

Lemma changed_mono t t' a : t ⊆ t' -> changed_credentials t a -> changed_credentials t' a.
Proof. intros Ht [(now & H1) (a' & H2 & H3)]. split; [exists now; by apply Ht|]. exists a'. split; [by apply Ht|done]. Qed.

Lemma wp_revoke_and_notify kind s t (Q : tx_state -> utrace -> tx_value -> Prop) :
  (forall s' t' now v, quiet s s' -> t ⊆ t' -> udid t' (URevokeAll now) (Ok tt) -> Q s' t' v) -> wp (revoke_and_notify config kind) s t (okp Q).
Proof.
  intros HQ. apply wp_bind, wp_now. intros s1 t1 now Hq1 Ht1. apply wp_try, (wp_call (URevokeAll now)); [done|done|]. intros s2 t2 r Hq2 Ht2 Hd2 _. cbn [ureply] in r.
  destruct r as [[]| |]; try done. apply wp_try, wp_notice. intros s3 t3 Hq3 Ht3. apply (HQ s3 t3 now); [quiets|set_solver|by apply Ht3].
Qed.

Lemma wp_change_password plain f s t a : tx_account s = Some a -> (forall a, Subject (f a) = Subject a /\ Revision (f a) = Revision a) ->
  wp (change_password config plain f) s t (okp (fun s2 t2 _ => still s s2 /\ t ⊆ t2 /\ changed_credentials t2 a)).
Proof.
  intros Ha Hf. apply wp_try, wp_increment. intros s1 t1 b b' Ht1 Hb Hb' Hsub Hrev _ Hset Hdb. assert (b = a) as -> by congruence.
  apply wp_quiet; [done|done|]. intros s2 t2 r Hq2 Ht2 _ _. cbn [ureply] in r. destruct r as [digest|]; [|done]. apply wp_account. intros s3 t3 x Hq3 Hx Ht3 _.
  assert (x = b') as -> by (destruct Hq2 as (_ & E & _); congruence).
  apply wp_bind. eapply (wp_set _ _ _ _ b'); [destruct Hq3 as (_ & -> & _); done|destruct (Hf (set_password b' digest)) as [-> _]; done|destruct (Hf (set_password b' digest)) as [_ ->]; cbn; lia|].
  intros s4 t4 Ht4 _ Ha4 Hdb4. apply wp_revoke_and_notify. intros s5 t5 now v Hq5 Ht5 Hd5. split_and!; [|set_solver|].
  - assert (quiet s1 s3) as (E1 & _ & D1) by quiets. destruct Hq5 as (E5 & _ & D5). split; [rewrite E5, Hdb4, E1, Hdb; done|]. rewrite <- Hdb. rewrite Hdb4 in D5. set_solver.
  - split; [by exists now|]. exists b'. split; [|done]. set_solver.
Qed.

Lemma fine_reset_password plain c s t a : tx_account s = Some a ->
  wp (reset_password_apply config plain c) s t (okp (fun s2 t2 _ => still s s2 /\ t ⊆ t2 /\ changed_credentials t2 a)).
Proof.
  intros Ha. apply wp_account. intros s1 t1 a1 Hq1 Ha1 Ht1 _. apply wp_refuse. intros _. eapply wp_impl; [|apply (wp_change_password _ _ _ _ a); [destruct Hq1 as (_ & -> & _); done|done]].
  intros s2 t2 r Hr. destruct r as [v| |]; try done. cbn [okp] in *. destruct Hr as (Hst & Ht & Hch). split_and!; [|set_solver|done]. eapply still_trans; [by apply quiet_still|done].
Qed.

Lemma fine_confirm_email_change c s t a : tx_account s = Some a ->
  wp (confirm_email_change_apply c) s t (okp (fun s2 t2 _ => still s s2 /\ t ⊆ t2 /\ changed_credentials t2 a)).
Proof.
  intros Ha. apply wp_account. intros s1 t1 a1 Hq1 Ha1 Ht1 _. apply wp_refuse. intros _. apply wp_try, wp_increment.
  intros s2 t2 b b' Ht2 Hb Hb' Hsub Hrev _ Hset Hdb. assert (b = a) as -> by (destruct Hq1 as (_ & E & _); congruence).
  apply wp_account. intros s3 t3 x Hq3 Hx Ht3 _. assert (x = b') as -> by congruence.
  apply wp_bind. eapply (wp_set _ _ _ _ b'); [destruct Hq3 as (_ & -> & _); done|done|cbn; lia|]. intros s4 t4 Ht4 _ Ha4 Hdb4. apply wp_bind, wp_now. intros s5 t5 now Hq5 Ht5.
  apply wp_try, (wp_call (URevokeAll now)); [done|done|]. intros s6 t6 r Hq6 Ht6 Hd6 _. cbn [ureply] in r. destruct r as [[]| |]; try done. cbn [AuthSecurityTx.wp okp]. split_and!; [|set_solver|].
  - assert (quiet s4 s6) as (E6 & _ & D6) by quiets. destruct Hq1 as (E1 & _ & D1), Hq3 as (E3 & _ & D3). split; [rewrite E6, Hdb4, E3, Hdb, E1; done|].
    rewrite Hdb in D3. rewrite Hdb4 in D6. set_solver.
  - split; [by exists now|]. exists b'. split; [|done]. set_solver.
Qed.

Lemma fine_cancel_email_change c s t : wp (cancel_email_change_apply c) s t (okp (fun s2 t2 _ => still s s2 /\ t ⊆ t2 /\ True)).
Proof.
  apply wp_try, wp_increment. intros s1 t1 b b' Ht1 _ _ _ _ _ _ Hdb. cbn [AuthSecurityTx.wp okp]. split_and!; [|done|done]. unfold still. by rewrite Hdb.
Qed.

(** *** The owner *)

Lemma wp_owner actor apply s t Q : (forall s' t', quiet s s' -> t ⊆ t' -> wp apply s' t' (okv Q)) -> wp (with_owner_body actor apply) s t (okv Q).
Proof.
  intros Ha. apply wp_bind, wp_now. intros s1 t1 now Hq1 Ht1. apply wp_try, (wp_call (UCheckSession actor now)); [done|done|]. intros s2 t2 r Hq2 Ht2 _ _. cbn [ureply] in r.
  destruct r as [[]| |]; try done. apply wp_commit, Ha; [quiets|set_solver].
Qed.

Lemma wp_verifyPassword raw s t (Q : tx_state -> utrace -> unit -> Prop) : (forall s' t', quiet s s' -> t ⊆ t' -> Q s' t' tt) -> wp (verifyPassword config raw) s t (okp Q).
Proof.
  intros HQ. apply wp_account. intros s1 t1 a Hq1 _ Ht1 _. cbv zeta. apply wp_bind, wp_now. intros s2 t2 now Hq2 Ht2. apply wp_try. unfold ReserveAttempt.
  apply (wp_call (UBudget _ _ _ _)); [done|done|]. intros s3 t3 r Hq3 Ht3 _ _. cbn [ureply] in r. destruct r as [n| |]; try done. apply wp_refuse. intros _.
  destruct (NewPassword raw) as [plain| |]; try done. apply wp_quiet; [done|done|]. intros s4 t4 r Hq4 Ht4 _ _. cbn [ureply] in r. destruct r as [[valid rh]|]; [|done].
  destruct valid; [|done]. apply (wp_call (UReset _)); [done|done|]. intros s5 t5 r Hq5 Ht5 _ _. cbn [ureply] in r. destruct r as [[]| |]; try done. apply HQ; [quiets|set_solver].
Qed.

Lemma fine_change_password old plain s t :
  wp (change_password_body config old plain) s t (okv (fun _ t _ => exists a, tx_account s = Some a /\ changed_credentials t a)).
Proof.
  destruct (tx_account s) as [a|] eqn:Ha.
  - apply wp_try, wp_verifyPassword. intros s1 t1 Hq1 Ht1. eapply wp_impl; [|apply (wp_change_password _ _ _ _ a); [destruct Hq1 as (_ & -> & _); done|done]].
    intros s2 t2 r Hr. destruct r as [v| |]; try done. cbn [okp] in *. destruct Hr as (_ & _ & Hch). assert (exists b, Some a = Some b /\ changed_credentials t2 b) by (by exists a). by destruct v.
  - apply wp_try, wp_account. intros s1 t1 a _ Ha1. congruence.
Qed.

Lemma fine_start_email_change newEmail password s t : wp (start_email_change_body config newEmail password) s t (okv anything).
Proof.
  apply wp_try, wp_verifyPassword. intros s1 t1 Hq1 Ht1. apply wp_account. intros s2 t2 a Hq2 _ Ht2 _. apply wp_refuse. intros _. apply wp_refuse. intros _.
  apply wp_try, (wp_call (ULatest ChangeEmail)); [done|done|]. intros s3 t3 r Hq3 Ht3 _ _. cbn [ureply] in r. destruct r as [previous| |]; try done. cbn [okp].
  apply wp_bind. assert (forall s' t' now, wp (refuse (match previous with Some p => now - ch_SentAt p <? resendDelay | None => false end) (Failed RateLimited) $
    try increment_account (fun _ => with_account_of $ fun account =>
    try (tokenChallenge config account ChangeEmail newEmail (30 * Minute)) (fun '(confirm, letter) =>
    try (tokenChallenge config account CancelEmailChange_ (ac_Email account) (30 * Minute)) (fun '(cancel, alert) =>
    let other (m : Mail) (email : bytes) := mkMail (m_ID m) (m_Subject m) (Kind m) (m_Email m) email (URL m) (Code m) (m_At m) (m_ExpiresAt m) in
    try (uperform (USave confirm)) (fun _ => try (uperform (USave cancel)) (fun _ =>
    try (uperform (UQueue (other letter (ac_Email account)))) (fun _ => try (uperform (UQueue (other alert newEmail))) (fun _ => Ret (Ok Done))))))))) s' t' (okv anything)) as Hgo;
    [|destruct previous; [apply wp_now; intros s' t' now _ _; exact (Hgo s' t' now)|exact (Hgo s3 t3 0)]].
  clear. intros s t now. apply wp_refuse. intros _. apply wp_try, wp_increment. intros s1 t1 b b' Ht1 _ Hb' _ _ _ _ _. apply wp_account. intros s2 t2 x Hq2 Hx Ht2 _.
  assert (x = b') as -> by congruence. apply wp_try, wp_tokenChallenge. intros s3 t3 c1 m1 Hq3 Ht3 Hd1 _ Hn1 _ Hp1 Hr1 Hu1.
  apply wp_try, wp_tokenChallenge. intros s4 t4 c2 m2 Hq4 Ht4 Hd2 Hnd2 Hn2 _ Hp2 Hr2 Hu2. cbv zeta.
  assert (tx_account s4 = Some b') as Ha4 by (destruct Hq4 as (_ & -> & _), Hq3 as (_ & -> & _), Hq2 as (_ & -> & _); done).
  assert (ch_ID c2 <> ch_ID c1) as Hne by (intros E; apply Hnd2; rewrite E; done). destruct Hq4 as (E4 & _ & D4).
  apply wp_try, wp_save; [apply saveable_new; [by rewrite E4|by apply D4|congruence|intros a Ha; assert (a = b') as -> by congruence; lia]|].
  intros s5 t5 _ _ Ea5 Ed5 Hc5. apply wp_try, wp_save; [apply saveable_new; [by rewrite Hc5|by rewrite Ed5|congruence|intros a Ha; assert (a = b') as -> by congruence; lia]|].
  intros s6 t6 _ _ _ _ _. apply wp_try, (wp_call (UQueue _)); [done|done|]. intros s7 t7 r _ _ _ _. cbn [ureply] in r. destruct r as [[]| |]; try done.
  apply wp_try, (wp_call (UQueue _)); [done|done|]. intros s8 t8 r _ _ _ _. cbn [ureply] in r. by destruct r as [[]| |].
Qed.

Lemma fine_start_code_change password enabled s t : wp (start_code_change_body config password enabled) s t (okv anything).
Proof.
  apply wp_try, wp_verifyPassword. intros s1 t1 Hq1 Ht1. apply wp_account. intros s2 t2 a Hq2 _ Ht2 _. apply wp_refuse. intros _. cbv zeta. apply wp_refuse. intros _.
  apply wp_try, (wp_call (ULatest _)); [done|done|]. intros s3 t3 r Hq3 Ht3 _ Hf. cbn [ureply fact] in *. destruct r as [latest| |]; try done. cbn [okp].
  assert (forall s' t', wp (try (createCode config (code_purpose enabled)) (fun c => now ← unit_now; Ret (Ok (Challenged (ch_ID c) (ch_ExpiresAt c - now))))) s' t' (okv anything)) as Hcreate.
  { intros s' t'. apply wp_try, wp_createCode; [by destruct enabled|]. intros s4 t4 c _. apply wp_bind, wp_now. done. }
  destruct latest as [c|]; [|apply Hcreate]. apply wp_bind, wp_now. intros s4 t4 now Hq4 Ht4. destruct (challenge_Check c a _ now) as [[]| |]; try apply Hcreate.
  apply wp_bind, wp_now. intros s5 t5 now5 Hq5 Ht5. apply wp_refuse. intros _. apply wp_try, wp_replaceCode.
  - apply saveable_stored. destruct (Hf c eq_refl) as (Hl & _). assert (quiet s2 s5) as (E & _) by quiets. by rewrite E.
  - intros s6 t6 c' _ _. apply wp_bind, wp_now. done.
Qed.

Lemma fine_complete_code_change id code enabled s t :
  wp (complete_code_change_body config id code enabled) s t (okv (fun _ t _ => consumed_challenge t id /\ exists a, tx_account s = Some a /\ changed_credentials t a)).
Proof.
  apply wp_try, (wp_call (UChallenge id)); [done|done|]. intros s1 t1 r Hq1 Ht1 Hd1 Hf. cbn [ureply fact] in *. destruct r as [c| |]; try done. destruct (Hf c eq_refl) as (Hl & Hid & a & Ha & _).
  assert (held s1 t1 id c) as Hh by (destruct Hq1 as (E & _); split_and!; [by rewrite E|done|done]). cbn [okp]. apply wp_bind. eapply wp_impl; [|apply (wp_checkCode c _ _ s1 t1 (fun s' t' _ => quiet s1 s' /\ t1 ⊆ t' /\ UsedAt c = None))].
  2: { destruct Hh as (H1 & <- & _). done. }
  2: { intros s' t' b Hq Ht _ _ _ Hu _. done. }
  intros s2 t2 r Hr. destruct r as [[]|e|]; [|by destruct (IsExpected e)|done]. cbn [okp] in Hr. destruct Hr as (Hq2 & Ht2 & Hun).
  apply wp_try, wp_increment. intros s3 t3 b b' Ht3 Hb Hb' Hsub Hrev _ Hset Hdb. assert (b = a) as -> by (destruct Hq2 as (_ & E & _), Hq1 as (_ & E1 & _); congruence).
  apply wp_account. intros s4 t4 x Hq4 Hx Ht4 _. assert (x = b') as -> by congruence.
  apply wp_bind. eapply (wp_set _ _ _ _ b'); [destruct Hq4 as (_ & -> & _); done|done|cbn; lia|]. intros s5 t5 Ht5 _ Ha5 Hdb5. apply wp_bind, wp_now. intros s6 t6 now Hq6 Ht6.
  assert (held s6 t6 id c) as Hh6.
  { apply (held_quiet s1 s6 t1 t6); [|set_solver|done]. destruct Hq2 as (E2 & _ & D2), Hq4 as (E4 & _ & D4), Hq6 as (E6 & _ & D6). split; [rewrite E6, Hdb5, E4, Hdb, E2; done|].
    rewrite Hdb in D4. rewrite Hdb5 in D6. set_solver. }
  apply wp_try, wp_save; [by eapply held_used|]. intros s7 t7 Ht7 Hd7 _ _ _. apply wp_try, (wp_call (URevokeAll now)); [done|done|]. intros s8 t8 r Hq8 Ht8 Hd8 _. cbn [ureply] in r.
  destruct r as [[]| |]; try done. apply wp_try, wp_notice. intros s9 t9 Hq9 Ht9. cbn [AuthSecurityTx.wp okv okp]. destruct Hh6 as (_ & _ & Hread). split.
  - exists c, now. split_and!; [set_solver|done|done|set_solver].
  - exists a. split; [done|]. split; [exists now; by apply Ht9|]. exists b'. split; [set_solver|done].
Qed.

Lemma fine_owner_reads s t : wp credentials_body s t (okv anything) /\ wp list_sessions_body s t (okv anything).
Proof.
  split; [apply wp_account; done|]. apply wp_bind, wp_now. intros s1 t1 now _ _. apply wp_try, (wp_call (USessions now)); [done|done|]. intros s2 t2 r _ _ _ _. cbn [ureply] in r. by destruct r.
Qed.

Lemma fine_revoke_session actor id s t : wp (revoke_session_body actor id) s t (okv anything).
Proof.
  unfold revoke_session_body. cbv zeta. assert (forall s t, wp (now ← unit_now; try (uperform (URevokeOne id now)) (fun _ => Ret (Ok Done))) s t (okv anything)) as Hgo.
  { intros s' t'. apply wp_bind, wp_now. intros s1 t1 now _ _. apply wp_try, (wp_call (URevokeOne id now)); [done|done|]. intros s2 t2 r _ _ _ _. cbn [ureply] in r. by destruct r. }
  case_bool_decide; [apply Hgo|]. apply wp_bind, wp_now. intros s1 t1 now _ _. apply wp_refuse. intros _. apply Hgo.
Qed.

Lemma fine_logout_all actor s t : wp (logout_all_body config actor) s t (okv anything).
Proof. apply wp_bind, wp_now. intros s1 t1 now _ _. apply wp_refuse. intros _. apply wp_revoke_and_notify. intros s2 t2 n v _ _ _. by destruct v. Qed.

(** A challenge of the account, and its body. *)
Lemma wp_with_challenge id apply s t Q :
  (forall s' t' c a, held s' t' id c -> tx_account s = Some a -> tx_account s' = Some a -> t ⊆ t' -> wp (apply c) s' t' (okv Q)) ->
  wp (challenge_body id apply) s t (okv Q).
Proof.
  intros Happly. apply wp_quiet; [done|done|]. intros s1 t1 acc Hq1 Ht1 _ Hf1. cbn [ureply fact] in *. subst acc. destruct (tx_account s) as [a|] eqn:Ha; [|done].
  apply wp_try, (wp_call (UChallenge id)); [done|done|]. intros s2 t2 r Hq2 Ht2 Hd2 Hf. cbn [ureply fact] in *. destruct r as [c| |]; try done. destruct (Hf c eq_refl) as (Hl & Hid & _).
  cbn [okp]. apply wp_commit, (Happly s2 t2 c a); [|done| |set_solver].
  - destruct Hq2 as (E & _). split_and!; [by rewrite E|done|done].
  - destruct Hq2 as (_ & -> & _), Hq1 as (_ & -> & _). done.
Qed.
End bodies.
