(* ===== verification/AuthSecurityCommit.v ===== *)
(** * Auth: commits of account security

    What [WithAccount] and [Register] do to the database when their calls are
    guarded, whether they commit or not. *)

From S2P Require Import Prelude GoStrings GoUnicode Sha256 GoEncoding Effects AuthDomain AuthToken AuthStore AuthSession AuthGuards AuthHistory AuthSecurityStore AuthSecurity AuthSecurityTx AuthSecurityBodies.
Local Open Scope Z_scope.

(** Revisions never go back. *)
Definition accounts_grow (d d' : sec_db) : Prop :=
  forall k x, account_security d !! k = Some x -> exists x', account_security d' !! k = Some x' /\ revision x <= revision x'.

Lemma accounts_grow_refl d : accounts_grow d d.
Proof. intros k x Hx. exists x. split; [done|lia]. Qed.

(** The account of a selector. *)
Definition selects (sel : Selector) (d : sec_db) (a : Account) : Prop :=
  match sel with BySubject k => Subject a = k | ByEmail email => ac_Email a = email end.

Lemma selected_Some d sel subject r : selected d sel = Some (subject, r) ->
  credentials d !! subject = Some r /\ forall x, selects sel d (account_of subject r x).
Proof.
  destruct sel as [email|k]; cbn [selected].
  - destruct (list_find _ _) as [[i [k c]]|] eqn:Hf; [|done]. cbn [mbind option_bind snd]. intros [= -> ->]. apply list_find_Some in Hf as (Hl & He & _). cbn [snd] in He.
    apply list_elem_of_lookup_2, elem_of_map_to_list in Hl. done.
  - destruct (credentials d !! k) as [c|] eqn:Hc; [|done]. by intros [= <- <-].
Qed.

Lemma ensure_ok d subject r : sec_rows None d -> credentials d !! subject = Some r ->
  let d1 := ensure_security d subject in
  exists x, account_security d1 !! subject = Some x /\ sec_rows (Some (account_of subject r x)) d1 /\ holds (Some (account_of subject r x)) d1 /\
    sec_rows None d1 /\ accounts_grow d d1 /\ sd_auth d1 = sd_auth d /\ challenges d1 = challenges d /\ drawn d1 = drawn d /\ credentials d1 = credentials d.
Proof.
  intros Hrows Hr. cbv zeta. unfold ensure_security.
  assert (forall d1 x, sec_rows None d1 -> credentials d1 !! subject = Some r -> account_security d1 !! subject = Some x ->
    sec_rows (Some (account_of subject r x)) d1 /\ holds (Some (account_of subject r x)) d1) as Hhold.
  { intros d1 x [H1 H2 H3 H4 H5 H6 H7 H8] Hc Hx. split.
    - split; try done. intros id c Hch. destruct (H6 id c Hch) as (? & ? & ? & ? & Hle). split_and!; [done..|]. unfold current_revision in *. cbn [Subject account_of Revision].
      case_bool_decide as He; [|done]. rewrite <- He, Hx in Hle. done.
    - cbn [holds Subject account_of Revision]. split; [by eexists|]. exists x. split; [done|lia]. }
  destruct (account_security d !! subject) as [x|] eqn:Hx.
  - exists x. destruct (Hhold d x Hrows Hr Hx) as [? ?]. split_and!; try done. apply accounts_grow_refl.
  - exists default_security. assert (sec_rows None (set_accounts d (credentials d) (<[subject:=default_security]> (account_security d)))) as Hrows'.
    { destruct Hrows as [H1 H2 H3 H4 H5 H6 H7 H8]. split; try done; cbn [account_security set_accounts credentials challenges drawn].
      - intros k y [[<- <-]|[_ Hy]]%lookup_insert_Some; [split; [by eexists|done]|by apply H3].
      - intros id c Hc. destruct (H6 id c Hc) as (? & ? & ? & [y Hy] & Hle). assert (subject <> ch_Subject c) as Hne by congruence. unfold current_revision in *. cbn [account_security set_accounts].
        rewrite lookup_insert_ne by done. split_and!; [done..| |done]. by exists y. }
    assert (account_security (set_accounts d (credentials d) (<[subject:=default_security]> (account_security d))) !! subject = Some default_security) as Hl
      by (cbn [account_security set_accounts]; by rewrite lookup_insert_eq).
    destruct (Hhold _ default_security Hrows' Hr Hl) as [? ?]. split_and!; try done.
    intros k y Hy. exists y. split; [|lia]. cbn [account_security set_accounts]. rewrite lookup_insert_ne by congruence. done.
Qed.

(** The stored account at the end. *)
Lemma store_ok d before a d' x : sec_rows (Some a) d -> holds (Some a) d -> Subject a = Subject before -> account_security d !! Subject before = Some x ->
  revision x = Revision before -> Revision before <= Revision a -> store_account d before a = Some d' ->
  sec_rows None d' /\ sd_auth d' = sd_auth d /\ challenges d' = challenges d /\ drawn d' = drawn d /\ accounts_grow d d' /\
  exists x', account_security d' !! Subject a = Some x' /\ revision x' = Revision a.
Proof.
  intros Hrows [Hcred _] Hs Hx Hrx Hle. unfold store_account.
  assert (forall d1, sec_rows (Some a) d1 -> account_security d1 = account_security d ->
    (if negb (bool_decide (a = before)) then if 0 <? Revision a then Some (set_accounts d1 (credentials d1) (<[Subject a:=mkSecRow (Verified a) (CodeEnabled a) (Revision a) (DeletionAt a) (DeletedAt a)]> (account_security d1))) else None else Some d1) = Some d' ->
    is_Some (credentials d1 !! Subject a) ->
    sec_rows None d' /\ sd_auth d' = sd_auth d1 /\ challenges d' = challenges d1 /\ drawn d' = drawn d1 /\ accounts_grow d1 d' /\
    exists x', account_security d' !! Subject a = Some x' /\ revision x' = Revision a) as Hsec.
  { intros d1 [H1 H2 H3 H4 H5 H6 H7 H8] Eacc Hd Hc. case_bool_decide as Hab; cbn [negb] in Hd.
    - injection Hd as <-. subst before. split_and!; try done; [|apply accounts_grow_refl|exists x; rewrite Eacc; done]. split; try done.
      intros id c Hch. destruct (H6 id c Hch) as (? & ? & ? & ? & Hb). split_and!; [done..|]. unfold current_revision in *. case_bool_decide as He; [|done]. rewrite <- He, Eacc, Hx. cbn. lia.
    - destruct (Z.ltb_spec 0 (Revision a)) as [Hpos|]; [|done]. injection Hd as <-.
      assert (forall k y, account_security d1 !! k = Some y -> exists x', <[Subject a:=mkSecRow (Verified a) (CodeEnabled a) (Revision a) (DeletionAt a) (DeletedAt a)]> (account_security d1) !! k = Some x' /\ revision y <= revision x') as Hgrow.
      { intros k y Hy. destruct (decide (Subject a = k)) as [<-|Hne]; [rewrite lookup_insert_eq|rewrite lookup_insert_ne by done; exists y; split; [done|lia]].
        eexists. split; [done|]. cbn [revision]. rewrite Eacc, Hs, Hx in Hy. injection Hy as <-. lia. }
      split_and!; try done; [|eexists; cbn [account_security set_accounts]; by rewrite lookup_insert_eq]. split; try done; cbn [account_security set_accounts credentials challenges drawn].
      + intros k y [[<- <-]|[_ Hy]]%lookup_insert_Some; [done|by apply H3].
      + intros id c Hch. destruct (H6 id c Hch) as (? & ? & ? & [y Hy] & Hb). destruct (Hgrow _ _ Hy) as (x' & Hx' & _). split_and!; [done..|by exists x'|].
        unfold current_revision in *. cbn [account_security set_accounts]. case_bool_decide as He; [rewrite He, lookup_insert_eq; done|]. rewrite lookup_insert_ne by done. done. }
  destruct (_ || _) eqn:Hchg; cbn [mbind option_bind]; [|intros Hd; by apply (Hsec d)].
  destruct (check_credential _ && _) eqn:Hck; cbn [mbind option_bind]; [|done]. apply andb_true_iff in Hck as [Hck Htaken%negb_true_iff].
  set (d1 := set_accounts d (<[Subject a:=mkCredRow (ac_Email a) (ac_PasswordDigest a)]> (credentials d)) (account_security d)).
  assert (forall k, is_Some (credentials d !! k) -> is_Some (credentials d1 !! k)) as Hsome.
  { intros k Hk. unfold d1. cbn [credentials set_accounts]. destruct (decide (Subject a = k)) as [<-|Hne]; [rewrite lookup_insert_eq; by eexists|by rewrite lookup_insert_ne]. }
  assert (forall k r, credentials d !! k = Some r -> identifier r = ac_Email a -> k = Subject a) as Hown.
  { intros k r Hk He. destruct (decide (k = Subject a)) as [|Hne]; [done|]. unfold identifier_taken in Htaken. exfalso.
    assert (existsb (fun x => bool_decide (identifier x.2 = ac_Email a) && negb (bool_decide (x.1 = Subject a))) (map_to_list (credentials d)) = true); [|congruence].
    apply existsb_exists. exists (k, r). split; [by apply list_elem_of_In, elem_of_map_to_list|]. cbn. by rewrite bool_decide_eq_true_2, bool_decide_eq_false_2. }
  intros Hd. apply (Hsec d1); [|done|exact Hd|by apply Hsome]. destruct Hrows as [H1 H2 H3 H4 H5 H6 H7 H8]. split; try done.
  - intros id r Hr. by apply Hsome, (H2 id).
  - intros k y Hy. destruct (H3 k y Hy) as [? ?]. auto.
  - unfold d1. cbn [credentials set_accounts]. intros k r [[<- <-]|[_ Hr]]%lookup_insert_Some; [done|by eapply H4].
  - unfold d1. cbn [credentials set_accounts]. intros k k' r r' [[<- <-]|[Hk Hr]]%lookup_insert_Some [[<- <-]|[Hk' Hr']]%lookup_insert_Some He; [done| | |by eapply H5].
    + symmetry. eapply Hown; [exact Hr'|]. done.
    + eapply Hown; [exact Hr|]. done.
  - intros id m p Hm Hp. destruct (H7 id m p Hm Hp) as [? ?]. auto.
  - intros e k He. apply Hsome. by eapply H8.
Qed.

(** ** [WithAccount] *)

Definition accepted (v : tx_value) : Prop := match v with Rejected _ => False | _ => True end.

Section commit.
Context (config : SecConfig) (creates : bool).

(** What a transaction did, committed or not. *)
Record tx_effect (d d' : sec_db) (ut : utrace) : Prop := mkTxEffect {
  te_rows : sec_rows None d';
  te_grows : grows d d';
  te_accounts : accounts_grow d d';
  te_sessions id r : sessions (sd_auth d') !! id = Some r ->
    is_Some (sessions (sd_auth d) !! id) \/ exists v dg, udid ut (UCreate v dg) (Ok tt) /\ rec_ID v = id /\ SubjectID (sr_record r) = SubjectID v;
  te_created v dg x : udid ut (UCreate v dg) x -> signed_in config ut (SubjectID v);
  te_read id c : udid ut (UChallenge id) (Ok c) -> UsedAt c = None -> ~ used d id;
  te_codes id c : challenges d' !! id = Some c -> ch_Purpose c = LoginCode ->
    (exists c0, challenges d !! id = Some c0 /\ ch_Purpose c0 = LoginCode /\ ch_Subject c0 = ch_Subject c) \/ password_for ut (ch_Subject c);
  te_read_codes id c : udid ut (UChallenge id) (Ok c) -> ch_Purpose c = LoginCode ->
    (exists c0, challenges d !! id = Some c0 /\ ch_Purpose c0 = LoginCode /\ ch_Subject c0 = ch_Subject c) \/ password_for ut (ch_Subject c)
}.

(** What a committed one did for the account that it held. *)
Record tx_commit (d d' : sec_db) (sel : Selector) (ut : utrace) (acc : option Account) : Prop := mkTxCommit {
  tc_saved c : udid ut (USave c) (Ok tt) -> UsedAt c <> None -> used d' (ch_ID c);
  tc_selects a : acc = Some a -> selects sel d a;
  tc_signed_out a now : acc = Some a -> creates = false -> udid ut (URevokeAll now) (Ok tt) ->
    forall id r, sessions (sd_auth d') !! id = Some r -> SubjectID (sr_record r) = Subject a -> is_revoked r;
  tc_revision a : acc = Some a -> (forall id c, challenges d !! id = Some c -> ch_Subject c = Subject a -> ch_Revision c <= Revision a) /\
    exists x', account_security d' !! Subject a = Some x' /\ forall a', udid ut (USetAccount a') tt -> Revision a' <= revision x'
}.

Lemma effect_none d ut d1 acc s : sec_rows None d -> challenges d1 = challenges d -> tx_inv config creates d1 acc s ut -> tx_effect d d ut.
Proof.
  intros Hrows Ec [_ _ _ Hcr Hread _ _ Hrc _ _ _]. split; [done|apply grows_refl|apply accounts_grow_refl| | | | |].
  - intros id r Hr. left. by eexists.
  - intros v dg x Hd. by destruct (Hcr v dg x Hd).
  - intros id c Hd Hu (c' & Hc' & Hu'). apply (Hread id c Hd Hu). exists c'. by rewrite Ec.
  - intros id c Hc Hp. left. by exists c.
  - intros id c Hd Hp. rewrite <- Ec. by apply (Hrc id c).
Qed.

Lemma effect_commit d d' ut d1 acc s : sec_rows None d' -> accounts_grow d d' -> sd_auth d1 = sd_auth d -> challenges d1 = challenges d -> drawn d1 = drawn d ->
  sd_auth d' = sd_auth (tx_db s) -> challenges d' = challenges (tx_db s) -> drawn d' = drawn (tx_db s) -> tx_inv config creates d1 acc s ut -> tx_effect d d' ut.
Proof.
  intros Hrows Hacc Ea Ec Ed Ea' Ec' Ed' [_ Hg Hsess Hcr Hread _ Hcodes Hrc _ _ _]. split; [done| |done| | | | |].
  - destruct Hg as [Hl Hch Hdr]. split; rewrite ?Ea', ?Ec', ?Ed', <- ?Ea, <- ?Ec, <- ?Ed; done.
  - rewrite Ea', <- Ea. exact Hsess.
  - intros v dg x Hd. by destruct (Hcr v dg x Hd).
  - intros id c Hd Hu (c' & Hc' & Hu'). apply (Hread id c Hd Hu). exists c'. by rewrite Ec.
  - rewrite Ec', <- Ec. exact Hcodes.
  - rewrite <- Ec. exact Hrc.
Qed.

Lemma no_effect d : sec_rows None d -> tx_effect d d [].
Proof. intros Hrows. eapply (effect_none d [] d None (mkTx d None)); [done|done|]. by apply tx_inv_start. Qed.

Lemma tx_body_sound w d sel b (Q : option Account -> utrace -> tx_value -> Prop) : sec_rows None d ->
  (forall d1 acc, wp config creates b (mkTx d1 acc) [] (okv (fun _ t v => Q acc t v))) ->
  let '(od, ut, r) := tx_body w d sel b in
  match od with
  | Some d' => tx_effect d d' ut /\ exists v acc, r = Ok v /\ tx_commit d d' sel ut acc /\ (accepted v -> Q acc ut v)
  | None => tx_effect d d ut /\ forall v, r <> Ok v
  end.
Proof.
  intros Hrows Hwp. unfold tx_body. destruct (selected d sel) as [[subject r]|] eqn:Hsel.
  - apply selected_Some in Hsel as [Hcred Hselects]. destruct (NewPasswordDigest _) as [pd| |]; [|split; [by apply no_effect|done]..].
    destruct (ensure_ok d subject r Hrows Hcred) as (x & Hx & Hrows1 & Hholds1 & Hrows1' & Hacc1 & Ea & Ec & Ed & Ecr). set (d1 := ensure_security d subject) in *. rewrite Hx.
    set (before := account_of subject r x) in *. pose proof (wp_sound config creates b d1 (Some before) w 0 _ _ _ (tx_inv_start config creates d1 (Some before) Hrows1 Hholds1) (Hwp d1 (Some before))) as Hs.
    destruct (tx_exec w 0 _ [] b) as [[s t] res]. destruct Hs as [Hinv HQ]. pose proof (effect_none d t d1 _ s Hrows Ec Hinv) as Hnone.
    destruct res as [v|e|]; [|by split..]. destruct (tx_account s) as [a|] eqn:Ha; [|by split]. case_bool_decide as Hsub; cbn [negb]; [|by split].
    destruct (store_account (tx_db s) before a) as [d'|] eqn:Hst; [|by split].
    pose proof (ti_ok _ _ _ _ _ _ Hinv) as [Hrs Hhs]. rewrite Ha in Hrs, Hhs. destruct (ti_tables _ _ _ _ _ _ Hinv) as [_ Etab].
    destruct (ti_account _ _ _ _ _ _ Hinv) as (a' & Ha' & Hsa & Hra & Hset). assert (a' = a) as -> by congruence.
    destruct (store_ok (tx_db s) before a d' x Hrs Hhs Hsub) as (Hrows' & Ea' & Ec' & Ed' & Hgr & x' & Hx' & Hrx'); [by rewrite Etab|done|done|done|]. split.
    + eapply effect_commit; try done. intros k y Hy. destruct (Hacc1 k y Hy) as (y1 & Hy1 & Hle1). rewrite <- Etab in Hy1. destruct (Hgr k y1 Hy1) as (y2 & Hy2 & Hle2). exists y2. split; [done|lia].
    + exists v, (Some before). split_and!; [done| |].
      * split.
        -- intros c Hd Hu. destruct (ti_saved _ _ _ _ _ _ Hinv c Hd Hu) as (c' & Hc' & Hu'). exists c'. by rewrite Ec'.
        -- intros a0 [= <-]. apply Hselects.
        -- intros a0 now [= <-] Hcf Hd id row Hrow Hrsub. rewrite Ea' in Hrow. eapply (ti_signed_out _ _ _ _ _ _ Hinv now Hd Hcf id row a); [done|done|congruence].
        -- intros a0 [= <-]. split.
           ++ intros id c Hc Hcs. rewrite <- Ec in Hc. destruct (sq_challenges _ _ Hrows1 id c Hc) as (_ & _ & _ & _ & Hle). unfold current_revision in Hle. by rewrite bool_decide_eq_true_2 in Hle.
           ++ exists x'. rewrite <- Hsub. split; [done|]. rewrite Hrx'. exact Hset.
      * intros Hv. cbn [okv okp] in HQ. by destruct v.
  - pose proof (wp_sound config creates b d None w 0 _ _ _ (tx_inv_start config creates d None Hrows I) (Hwp d None)) as Hs.
    destruct (tx_exec w 0 _ [] b) as [[s t] res]. destruct Hs as [Hinv HQ]. pose proof (effect_none d t d _ s Hrows eq_refl Hinv) as Hnone. destruct res as [v|e|]; [|by split..].
    pose proof (ti_ok _ _ _ _ _ _ Hinv) as [Hrs _]. pose proof (ti_account _ _ _ _ _ _ Hinv) as Hn. cbn in Hn. rewrite Hn in Hrs. destruct (ti_tables _ _ _ _ _ _ Hinv) as [_ Etab]. split.
    + eapply effect_commit; try done. intros k y Hy. exists y. rewrite Etab. split; [done|lia].
    + exists v, None. split_and!; [done| |intros Hv; cbn [okv okp] in HQ; by destruct v]. split; try done. apply (ti_saved _ _ _ _ _ _ Hinv).
Qed.

Lemma WithAccount_sound w f d sel b (Q : option Account -> utrace -> tx_value -> Prop) : sec_rows None d ->
  (forall d1 acc, wp config creates b (mkTx d1 acc) [] (okv (fun _ t v => Q acc t v))) ->
  let '(d', (ut, r)) := WithAccount w f d sel b in
  tx_effect d d' ut /\ forall v, r = Ok v -> exists acc, tx_commit d d' sel ut acc /\ (accepted v -> Q acc ut v).
Proof.
  intros Hrows Hwp. unfold WithAccount. destruct (empty_selector sel); [split; [by apply no_effect|done]|].
  pose proof (tx_body_sound w d sel b Q Hrows Hwp) as Hs. destruct (tx_body w d sel b) as [[[d'|] ut] r].
  - destruct Hs as [He (v & acc & -> & Hc & HQ)]. assert (tx_effect d d ut) as Hno.
    { destruct He as [H1 H2 H3 H4 H5 H6 H7 H8]. split; try done; [apply grows_refl|apply accounts_grow_refl| |]; [intros id r Hr; left; by eexists|intros id c Hc' Hp; left; by exists c]. }
    destruct f; [|by split|by split]. split; [done|]. intros v' [= <-]. by exists acc.
  - destruct Hs as [He Hr]. split; [done|]. intros v Hv. exfalso. apply (Hr v). unfold sanitize in Hv. destruct r as [|e|]; try done. destruct (IsExpected e); [done|]. by destruct e.
Qed.
End commit.

(** ** [Register] *)

(** The account is stored as the transaction holds it. *)
Lemma rows_release a x d : sec_rows (Some a) d -> account_security d !! Subject a = Some x -> revision x = Revision a -> sec_rows None d.
Proof.
  intros [H1 H2 H3 H4 H5 H6 H7 H8] Hx Hr. split; try done. intros id c Hc. destruct (H6 id c Hc) as (? & ? & ? & ? & Hb). split_and!; [done..|].
  unfold current_revision in *. case_bool_decide as He; [|done]. rewrite <- He, Hx. cbn. lia.
Qed.

Lemma identifier_unused d email k r : identifier_used d email = false -> credentials d !! k = Some r -> identifier r <> email.
Proof.
  intros Hu Hk He. unfold identifier_used in Hu. assert (existsb (fun x => bool_decide (identifier x.2 = email)) (map_to_list (credentials d)) = true); [|congruence].
  apply existsb_exists. exists (k, r). split; [by apply list_elem_of_In, elem_of_map_to_list|]. by rewrite bool_decide_eq_true_2.
Qed.

(** A new account, before its challenge is stored. *)
Lemma insert_ok d subject email password event : sec_rows None d -> identifier_used d email = false -> credentials d !! subject = None ->
  check_credential (mkCredRow email password) = true -> account_security d !! subject = None ->
  let d1 := set_accounts (set_registrations d (<[event := subject]> (registrations d)))
              (<[subject := mkCredRow email password]> (credentials d)) (<[subject := mkSecRow false true 1 None None]> (account_security d)) in
  tx_ok (mkTx d1 (Some (mkAccount subject email password false true 1 None None))).
Proof.
  intros [H1 H2 H3 H4 H5 H6 H7 H8] Hun Hc Hck Hs. cbv zeta. set (d1 := set_accounts _ _ _).
  assert (forall k, is_Some (credentials d !! k) -> is_Some (credentials d1 !! k)) as Hsome.
  { intros k [r Hr]. exists r. unfold d1. cbn [credentials set_accounts]. by rewrite lookup_insert_ne by congruence. }
  split; [|split; [eexists; unfold d1; cbn [credentials set_accounts Subject tx_db]; by rewrite lookup_insert_eq|eexists; unfold d1; cbn [account_security set_accounts Subject tx_db]; rewrite lookup_insert_eq; split; [done|cbn; lia]]].
  cbn [tx_account tx_db]. split; [done|..].
  - intros id r Hr. by apply Hsome, (H2 id).
  - unfold d1. cbn [account_security set_accounts credentials]. intros k x [[<- <-]|[Hne Hx]]%lookup_insert_Some; [rewrite lookup_insert_eq; split; [by eexists|done]|].
    rewrite lookup_insert_ne by done. by apply H3.
  - unfold d1. cbn [credentials set_accounts]. intros k r [[<- <-]|[_ Hr]]%lookup_insert_Some; [done|by eapply H4].
  - unfold d1. cbn [credentials set_accounts]. intros k k' r r' [[<- <-]|[Hk Hr]]%lookup_insert_Some [[<- <-]|[Hk' Hr']]%lookup_insert_Some He; [done| | |by eapply H5].
    + by destruct (identifier_unused _ _ _ _ Hun Hr').
    + by destruct (identifier_unused _ _ _ _ Hun Hr).
  - intros id c Hch. destruct (H6 id c Hch) as (? & ? & ? & [x Hx] & Hle). unfold d1, current_revision in *. cbn [account_security set_accounts drawn set_registrations Subject].
    rewrite bool_decide_eq_false_2 by congruence. rewrite lookup_insert_ne by congruence. split_and!; [done..|by exists x|done].
  - intros id m p Hm Hp. destruct (H7 id m p Hm Hp) as [? ?]. auto.
  - unfold d1. cbn [registrations set_accounts set_registrations credentials]. intros e k [[<- <-]|[_ He]]%lookup_insert_Some; [rewrite lookup_insert_eq; by eexists|by apply Hsome, (H8 e)].
Qed.

(** What [Register] does: the sessions and the login codes stay. *)
Record registered (d d' : sec_db) : Prop := mkRegistered {
  rg_rows : sec_rows None d';
  rg_grows : grows d d';
  rg_accounts : accounts_grow d d';
  rg_sessions : sd_auth d' = sd_auth d;
  rg_codes id x : challenges d' !! id = Some x -> ch_Purpose x = LoginCode -> challenges d !! id = Some x
}.

Lemma registered_none d : sec_rows None d -> registered d d.
Proof. intros Hr. split; [done|apply grows_refl|apply accounts_grow_refl|done|done]. Qed.

Lemma RegisterTx_sound d subject email password event c m : sec_rows None d -> ch_ID c ∈ drawn d -> ch_Purpose c <> LoginCode -> ch_Revision c = 1 ->
  registered d (RegisterTx d subject email password event c m).1.
Proof.
  intros Hrows Hdr Hp Hrev. pose proof (registered_none d Hrows) as Hno. unfold RegisterTx. destruct (negb _ || _); [done|].
  destruct (identifier_used d email) eqn:Hun; [done|]. destruct (_ || _) eqn:Hg; [done|]. rewrite !orb_false_iff, !negb_false_iff, !bool_decide_eq_false, <- !eq_None_not_Some in Hg.
  destruct Hg as ((((Hcred & Hck) & _) & _) & Hsec). pose proof (insert_ok d subject email password event Hrows Hun Hcred Hck Hsec) as Hok. cbv zeta in *. set (d1 := set_accounts _ _ _) in *. set (s := mkTx d1 _) in *.
  assert (ch_ID c ∈ drawn (tx_db s)) as Hdr' by done.
  assert (forall old, challenges d !! ch_ID c = Some old -> ch_Subject old <> subject) as Hold.
  { intros old Ho <-. destruct (sq_challenges _ _ Hrows _ _ Ho) as (_ & _ & _ & [x Hx] & _). congruence. }
  assert (tx_ok (unit_SaveChallenge s c).1 /\ grows d (tx_db (unit_SaveChallenge s c).1) /\ tx_account (unit_SaveChallenge s c).1 = tx_account s /\
    sd_auth (tx_db (unit_SaveChallenge s c).1) = sd_auth d /\ account_security (tx_db (unit_SaveChallenge s c).1) = account_security d1 /\
    forall id x, challenges (tx_db (unit_SaveChallenge s c).1) !! id = Some x -> ch_Purpose x = LoginCode -> challenges d !! id = Some x) as (Hok1 & Hg1 & Ha1 & Hs1 & Hacc1 & Hc1).
  { assert (grows d d1) as Hgd by (by apply grows_same). unfold unit_SaveChallenge, sql_upsert_challenge. cbn [tx_account s Subject].
    case_bool_decide as Hsub; cbn [negb]; [|done]. destruct (check_challenge c) eqn:Hcc; cbn [negb]; [|done]. change (challenges (tx_db s)) with (challenges d).
    destruct (challenges d !! ch_ID c) as [old|] eqn:Ho.
    - rewrite bool_decide_eq_false_2 by (rewrite Hsub; by apply Hold). done.
    - pose proof (save_ok s [] c Hok) as Hsave. unfold saveable, unit_SaveChallenge, sql_upsert_challenge in Hsave. change (challenges (tx_db s)) with (challenges d) in Hsave.
      rewrite Ho in Hsave. cbn [tx_account s Subject] in Hsave. rewrite bool_decide_eq_true_2, Hcc in Hsave by done. cbn [negb fst] in Hsave.
      destruct Hsave as (Hok' & Hgr & _); [split_and!; [done| |done]; intros a [= <-]; cbn; lia|]. split_and!; try done; [by eapply grows_trans|].
      cbn [fst tx_db with_db set_challenges challenges]. intros id x [[<- <-]|[_ Hx]]%lookup_insert_Some Hpx; done. }
  destruct (unit_SaveChallenge s c) as [s1 [[]| |]]; try done. cbn [fst] in *. destruct (queue_ok s1 m Hok1) as [Hok2 Hg2].
  assert (sd_auth (tx_db (unit_Queue s1 m).1) = sd_auth (tx_db s1) /\ challenges (tx_db (unit_Queue s1 m).1) = challenges (tx_db s1) /\
    account_security (tx_db (unit_Queue s1 m).1) = account_security (tx_db s1) /\ tx_account (unit_Queue s1 m).1 = tx_account s1) as (Ea & Ec & Es & Et) by (unfold unit_Queue; by repeat case_match).
  destruct (unit_Queue s1 m) as [s2 [[]| |]]; try done. cbn [fst] in *. destruct Hok2 as [Hr2 _]. rewrite Et, Ha1 in Hr2. split.
  - eapply rows_release; [exact Hr2|rewrite Es, Hacc1; unfold d1; cbn [account_security set_accounts Subject tx_account s]; by rewrite lookup_insert_eq|done].
  - by eapply grows_trans.
  - intros k x Hx. exists x. rewrite Es, Hacc1. unfold d1. cbn [account_security set_accounts]. rewrite lookup_insert_ne by congruence. split; [done|lia].
  - congruence.
  - rewrite Ec. exact Hc1.
Qed.
