(* ===== verification/AuthSecurityOps.v ===== *)
(** * Auth: what the operations of account security do

    Every operation makes only guarded calls, and what its success proves; the calls
    outside transactions. *)

From S2P Require Import Prelude GoStrings GoUnicode Sha256 GoEncoding Effects AuthDomain AuthToken AuthStore AuthSession AuthGuards AuthHistory AuthSecurityStore AuthSecurity AuthSecurityTx AuthSecurityBodies AuthSecurityCommit.
Local Open Scope Z_scope.

Abbreviation sdid t c r := (@existT scall sreply c r ∈ t).

(** ** Calls outside transactions *)

(** The calls that the sessions make here; sessions are only created in
    transactions. *)
Definition session_call (c : call) : Prop :=
  match c with
  | DbCreate _ _ => False
  | DbRotate _ previous next _ _ _ => previous <> next
  | DbRevoke _ _ reason | DbRevokeAll _ _ reason => validReason reason = true
  | _ => True
  end.

(** No session is created, and each keeps its subject. *)
Record sessions_kept (d d' : auth_db) : Prop := mkSessionsKept {
  sk_ok : auth_db_ok d';
  sk_later : later d d';
  sk_same id r : sessions d' !! id = Some r -> exists r0, sessions d !! id = Some r0 /\ SubjectID (sr_record r) = SubjectID (sr_record r0)
}.

Lemma kept_same d d' : auth_db_ok d -> sessions d' = sessions d -> consumed d' = consumed d -> outbox d' = outbox d -> sessions_kept d d'.
Proof.
  intros [H1 H2 H3 H4 H5] Es Ec Eo. split; [|by apply later_refl|rewrite Es; eauto]. split; unfold outbox_of, consumed_of in *; rewrite ?Es, ?Ec, ?Eo; done.
Qed.

Lemma kept_revoke d now reason p : auth_db_ok d -> validReason reason = true -> sessions_kept d (sql_revoke d now reason p).
Proof.
  intros Hok Hr. split; [by apply revoke_ok|apply revoke_later|]. intros id r. unfold sql_revoke. cbn [sessions]. rewrite lookup_fmap.
  destruct (sessions d !! id) as [x|] eqn:Hx; [|done]. intros [= <-]. exists x. split; [done|]. by destruct (revoke_row_cases now p x) as [[-> _]|(_ & _ & _ & _ & _ & -> & _)].
Qed.

Lemma kept_rotate d id previous next now attl ittl : auth_db_ok d -> previous <> next -> sessions_kept d (tx_rotate d id previous next now attl ittl).1.
Proof.
  intros Hok Hne. pose proof (rotate_ok d id previous next now attl ittl Hok Hne) as Hrot. split; [by destruct (tx_rotate _ _ _ _ _ _ _); destruct Hrot|by destruct (tx_rotate _ _ _ _ _ _ _); destruct Hrot as (_ & ? & _)|]. clear Hrot.
  intros id' r'. unfold tx_rotate. destruct (sessions d !! id) as [r|] eqn:Hr; [|cbn; eauto].
  destruct (scanRecord r) as [v|] eqn:Hs; [|cbn; eauto]. apply scanRecord_Some in Hs as ->. repeat (case_match; cbn [fst]; try (by eauto)).
  - apply (kept_revoke d); done.
  - cbn [sessions]. intros [[<- <-]|[_ Hr']]%lookup_insert_Some; [by exists r|eauto].
Qed.

Lemma respond_guarded w d c : auth_db_ok d -> session_call c -> sessions_kept d (respond w d c).1.
Proof.
  intros Hok Hc. pose proof (kept_same d d Hok eq_refl eq_refl eq_refl) as Hd.
  destruct c; cbn [respond session_call] in *; try done; try (by apply faulty_state); try (by apply kept_same);
    (apply (faulty_state (sessions_kept d)); [done|]; cbn [fst]); [by apply kept_rotate|by apply kept_revoke..|by apply kept_same].
Qed.

(** Programs of the sessions all of whose calls are such calls. *)
Fixpoint polite {A} (p : prog A) : Prop :=
  match p with Ret _ => True | Do c k => session_call c /\ forall r, polite (k r) end.

Lemma polite_bind {A B} (p : prog A) (f : A -> prog B) : polite p -> (forall a, polite (f a)) -> polite (p ≫= f).
Proof. intros Hp Hf. induction p as [a|c k IH]; [apply Hf|]. destruct Hp as [Hc Hk]. split; [done|]. intros r. by apply IH. Qed.
Lemma polite_try {E A B} (p : prog (result E A)) (f : A -> prog (result E B)) : polite p -> (forall a, polite (f a)) -> polite (try p f).
Proof. intros Hp Hf. apply polite_bind; [done|]. by intros []. Qed.
Lemma polite_refuse {E A} b (e : E) (p : prog (result E A)) : (b = false -> polite p) -> polite (refuse b e p).
Proof. destruct b; [done|]. intros Hp. by apply Hp. Qed.
Lemma polite_call {A} c (k : reply c -> prog A) : session_call c -> (forall r, polite (k r)) -> polite (r ← perform c; k r).
Proof. done. Qed.

(** Walks through a program. *)
Ltac polite :=
  repeat first
    [ done | apply polite_try | apply polite_refuse | apply polite_bind | apply polite_call | progress intros
    | match goal with |- polite (match ?x with _ => _ end) => destruct x end ].

Lemma polite_Find id : polite (store_Find id).
Proof. unfold store_Find. polite. Qed.
Lemma polite_Put v dg now : polite (access_Put v dg now).
Proof. unfold access_Put. polite. Qed.
Lemma polite_Revoke id now reason : polite (store_Revoke id now reason).
Proof. unfold store_Revoke. apply polite_refuse. intros Hr%negb_false_iff. polite. Qed.
Lemma polite_active id : polite (active id).
Proof. unfold active, store_Find, access_Get, service_now. polite. Qed.
Lemma polite_Authenticate value : polite (Authenticate value).
Proof. unfold Authenticate, parse_token. pose proof polite_active. polite. Qed.
Lemma polite_Activate tokens : polite (Activate tokens).
Proof. unfold Activate, service_now. pose proof polite_Find. pose proof polite_Put. pose proof polite_Revoke. polite. Qed.

Lemma polite_Refresh config value : polite (Refresh config value).
Proof.
  unfold Refresh, parse_token, mint, service_now. pose proof polite_Put. polite. go_bool. done.
Qed.
Lemma polite_RevokeAll value : polite (service_RevokeAll value).
Proof. unfold service_RevokeAll, store_RevokeAll, service_now. apply polite_try; [apply polite_Authenticate|]. intros v. polite. Qed.

(** ** Guards *)

(** The calls of the process that an operation makes itself. *)
Definition process_call (u : ucall) : bool := match u with UProcess _ | UNewID | UNewSecret | UHash _ => true | _ => false end.

Section guards.
Context `{UnicodeTables} (config : SecConfig).

(** The transaction promises [Q] of the account that it held, its calls and its
    value. *)
Definition promises (creates : bool) (b : body) (Q : option Account -> utrace -> tx_value -> Prop) : Prop :=
  forall d acc, wp config creates b (mkTx d acc) [] (okv (fun _ t v => Q acc t v)).

Definition sok (t : strace) (c : scall) : Prop :=
  match c with
  | SWithAccount _ b => exists creates, promises creates b (fun _ _ _ => True)
  | SRegister _ _ _ _ c _ => sdid t (SProcess UNewID) (Some (ch_ID c)) /\ ch_Purpose c = VerifyEmail /\ ch_Revision c = 1
  | SProcess u => process_call u = true
  | SAuth c => session_call c
  | _ => True
  end.

(** An accepted transaction kept what it promises. *)
Definition slegal (c : scall) : sreply c -> Prop :=
  match c return sreply c -> Prop with
  | SWithAccount _ b => fun r => forall creates Q v, promises creates b Q -> r.2 = Ok v -> accepted v -> exists acc, Q acc r.1 v
  | _ => fun _ => True
  end.

(** ** Answers *)

(** The challenge that a request presents. *)
Definition challenge_of (q : srequest) : option bytes :=
  let of_token value := match parseToken value with Ok (id, _) => Some id | _ => None end in
  match q with
  | SReqCompleteLogin id _ | SReqCompleteCodeChange _ id _ _ => Some id
  | SReqConfirmRegistration value _ | SReqResetPassword value _ | SReqConfirmEmailChange value | SReqCancelEmailChange value => of_token value
  | _ => None
  end.

(** The requests that change credentials. *)
Definition changes (q : srequest) : bool :=
  match q with SReqResetPassword _ _ | SReqConfirmEmailChange _ | SReqChangePassword _ _ _ | SReqCompleteCodeChange _ _ _ _ => true | _ => false end.

(** The account of such a request. *)
Definition account_for (q : srequest) (t : strace) (subject : bytes) : Prop :=
  match q with
  | SReqChangePassword actor _ _ | SReqCompleteCodeChange actor _ _ _ => subject = SubjectID actor
  | _ => exists id, challenge_of q = Some id /\ sdid t (SChallengeSubject id) (Ok subject)
  end.

(** A transaction that consumed the challenge and was committed. *)
Definition consumes (e : sigT sreply) (id : bytes) : Prop :=
  match e with
  | existT (SWithAccount _ _) r => (exists v, r.2 = Ok v) /\ consumed_challenge r.1 id
  | _ => False
  end.

Definition changing (b : body) : Prop := promises false b (fun acc t _ => exists a, acc = Some a /\ changed_credentials t a).

Definition sanswer_ok (q : srequest) (t : strace) (a : sanswer) : Prop :=
  match a with
  | SecAnswer (Ok _) =>
      (forall id, challenge_of q = Some id -> exists e, e ∈ t /\ consumes e id) /\
      (changes q = true -> exists t0 subject b ut v, t = t0 ++ [existT (SWithAccount (BySubject subject) b) (ut, Ok v)] /\ accepted v /\ changing b /\ account_for q t subject)
  | _ => True
  end.

Abbreviation ver := (verified sok slegal).

(** Errors promise nothing. *)
Definition fine {A} (Q : strace -> A -> Prop) : strace -> reply_of A -> Prop := fun t r => match r with Ok a => Q t a | _ => True end.

Lemma ver_try {A B} (p : sprog (reply_of A)) (f : A -> sprog (reply_of B)) t Q : ver p t (fine (fun t a => ver (f a) t (fine Q))) -> ver (try p f) t (fine Q).
Proof. intros Hp. apply verified_try. eapply verified_impl; [|exact Hp]. by intros t' []. Qed.
Lemma ver_refuse {A} b e (p : sprog (reply_of A)) t Q : (b = false -> ver p t (fine Q)) -> ver (refuse b e p) t (fine Q).
Proof. intros Hp. by apply verified_refuse. Qed.

Lemma promises_impl creates b (Q Q' : option Account -> utrace -> tx_value -> Prop) : (forall acc t v, Q acc t v -> Q' acc t v) -> promises creates b Q -> promises creates b Q'.
Proof. intros Hi Hb d acc. eapply wp_impl; [|apply Hb]. intros s t r. cbn. destruct r as [v| |]; try done. destruct v; cbn; auto. Qed.

Lemma ver_transaction creates sel b Q0 t (Q : strace -> tx_value -> Prop) : promises creates b Q0 ->
  (forall ut v acc, accepted v -> Q0 acc ut v -> Q (t ++ [existT (SWithAccount sel b) (ut, Ok v)]) v) -> ver (transaction sel b) t (fine Q).
Proof.
  intros Hb HQ. apply verified_do; [exists creates; eapply promises_impl; [|exact Hb]; done|]. intros [ut r] Hr. cbn [snd verified].
  destruct r as [v|e|]; cbn [safe sanitize]; [|destruct (IsExpected e); [done|by destruct e]|done].
  assert (accepted v -> fine Q (t ++ [existT (SWithAccount sel b) (ut, Ok v)]) (Ok v)) as Hgo; [|by destruct v; try (by apply Hgo)].
  intros Ha. destruct (Hr creates Q0 v Hb eq_refl Ha) as [acc Hq]. by apply (HQ ut v acc).
Qed.

(** Programs of the process and of the sessions. *)
Lemma ver_lift_auth {A} (p : prog A) t (post : strace -> A -> Prop) : polite p -> (forall t' a, t ⊆ t' -> post t' a) -> ver (lift_auth p) t post.
Proof.
  revert t. induction p as [a|c k IH]; intros t; cbn [lift_auth]; [intros _ Hp; by apply Hp|]. intros [Hc Hk] Hp. split; [done|]. intros r _. apply IH; [done|].
  intros t' a Ht. apply Hp. set_solver.
Qed.

Lemma ver_unit_now t (post : strace -> Z -> Prop) : (forall t' now, t ⊆ t' -> post t' now) -> ver (lift_unit unit_now) t post.
Proof. intros Hp. split; [done|]. intros r _. apply Hp. set_solver. Qed.

Lemma ver_newID t (Q : strace -> bytes -> Prop) : (forall t' id, t ⊆ t' -> sdid t' (SProcess UNewID) (Some id) -> Q t' id) -> ver (lift_unit newID) t (fine Q).
Proof. intros Hp. split; [done|]. intros r _. cbn [sreply ureply] in r. destruct r as [id|]; [|done]. apply Hp; set_solver. Qed.
Lemma ver_newSecret t (Q : strace -> bytes -> Prop) : (forall t' s, t ⊆ t' -> Q t' s) -> ver (lift_unit newSecret) t (fine Q).
Proof. intros Hp. split; [done|]. intros r _. cbn [sreply ureply] in r. destruct r as [id|]; [|done]. apply Hp; set_solver. Qed.

Lemma ver_activated mapped v t (Q : strace -> tx_value -> Prop) : (forall t' v, t ⊆ t' -> Q t' v) -> ver (activated mapped v) t (fine Q).
Proof.
  intros HQ. destruct v; cbn [activated]; try (by apply HQ). apply verified_bind, ver_lift_auth; [apply polite_Activate|]. intros t1 r Ht1. cbv zeta.
  apply ver_try. cbn [verified]. destruct (if mapped then _ else _) as [tk'| |]; try done. by apply HQ.
Qed.

Lemma ver_withChallenge creates id apply Q0 t (Q : strace -> tx_value -> Prop) : promises creates (challenge_body id apply) Q0 ->
  (forall t' subject ut v acc, t ⊆ t' -> sdid t' (SChallengeSubject id) (Ok subject) -> accepted v -> Q0 acc ut v ->
     Q (t' ++ [existT (SWithAccount (BySubject subject) (challenge_body id apply)) (ut, Ok v)]) v) -> ver (withChallenge id apply) t (fine Q).
Proof.
  intros Hb HQ. apply ver_refuse. intros _. apply verified_do; [done|]. intros r _. cbn [sreply] in r. apply ver_try. cbn [verified].
  destruct r as [subject|e|]; cbn [safe sanitize]; [|destruct (IsExpected e); [done|by destruct e]|done]. cbn [fine]. eapply ver_transaction; [exact Hb|].
  intros ut v acc Ha Hq. eapply HQ; [|apply elem_of_app; right; by left|done|done]. set_solver.
Qed.

Lemma ver_confirmToken creates value purpose apply (Q0 : bytes -> option Account -> utrace -> tx_value -> Prop) t (Q : strace -> tx_value -> Prop) :
  (forall id secret, parseToken value = Ok (id, secret) -> promises creates (challenge_body id (confirm_body config id secret purpose apply)) (Q0 id)) ->
  (forall t' id secret subject ut v acc, t ⊆ t' -> parseToken value = Ok (id, secret) -> sdid t' (SChallengeSubject id) (Ok subject) -> accepted v -> Q0 id acc ut v ->
     Q (t' ++ [existT (SWithAccount (BySubject subject) (challenge_body id (confirm_body config id secret purpose apply))) (ut, Ok v)]) v) ->
  ver (confirmToken config value purpose apply) t (fine Q).
Proof.
  intros Hb HQ. unfold confirmToken. destruct (parseToken value) as [[id secret]| |] eqn:Hp; try done. eapply ver_withChallenge; [by eapply Hb|].
  intros t' subject ut v acc Ht Hs Ha Hq. by eapply (HQ t' id secret subject ut v acc).
Qed.

Lemma ver_withOwner creates actor b Q0 t (Q : strace -> tx_value -> Prop) : (forall s t, wp config creates b s t (okv (fun _ t v => Q0 (tx_account s) t v))) ->
  (forall ut v acc, accepted v -> Q0 acc ut v -> Q (t ++ [existT (SWithAccount (BySubject (SubjectID actor)) (with_owner_body actor b)) (ut, Ok v)]) v) -> ver (withOwner actor b) t (fine Q).
Proof.
  intros Hb HQ. apply ver_refuse. intros _. eapply (ver_transaction creates _ _ Q0); [|exact HQ]. intros d acc. apply wp_owner. intros s' t' (_ & E & _) _.
  cbn [tx_account] in E. rewrite <- E. apply Hb.
Qed.

(** ** The operations *)

(** The promise of a request. *)
Definition answers (q : srequest) (t : strace) : Prop :=
  (forall id, challenge_of q = Some id -> exists e, e ∈ t /\ consumes e id) /\
  (changes q = true -> exists t0 subject b ut v, t = t0 ++ [existT (SWithAccount (BySubject subject) b) (ut, Ok v)] /\ accepted v /\ changing b /\ account_for q t subject).

(** Requests that promise nothing here. *)
Lemma answers_none q t : challenge_of q = None -> changes q = false -> answers q t.
Proof. intros Hc Hch. split; [by rewrite Hc|by rewrite Hch]. Qed.

Lemma consumes_tx sel b ut v id : consumed_challenge ut id -> consumes (existT (SWithAccount sel b) (ut, Ok v)) id.
Proof. intros Hc. split; [by exists v|done]. Qed.

Lemma ver_register email raw browserSecret t (Q : strace -> tx_value -> Prop) : (forall t v, Q t v) -> ver (register config email raw browserSecret) t (fine Q).
Proof.
  intros HQ. unfold register. destruct (Email email) as [e| |]; try done. unfold with_new_password. destruct (NewSecurePassword raw) as [plain| |]; try done.
  apply verified_do; [done|]. intros r _. cbn [sreply ureply] in r. destruct r as [digest|]; [|done]. apply ver_try, ver_newID. intros t1 subject _ _.
  destruct (NewIdentifier e) as [identifier| |]; try done. apply verified_do; [done|]. intros r _. cbn [sreply] in r. destruct r as [ev|]; [|done]. cbv zeta.
  apply ver_try. split; [done|]. intros r _. cbn [sreply ureply] in r. destruct r as [id|]; [|done]. split; [done|]. intros r _. cbn [sreply ureply] in r. destruct r as [secret|]; [|done].
  split; [done|]. intros r _. cbn [sreply ureply] in r. destruct r as [mail|]; [|done]. split; [done|]. intros now _. cbn [verified fine]. apply verified_do.
  - cbn [sok]. case_bool_decide; cbn [ch_ID ch_Purpose ch_Revision]; (split_and!; [set_solver|done|done]).
  - intros r _. cbn [sreply] in r. apply ver_try. cbn [verified]. destruct r as [u|err|]; cbn [safe sanitize]; [by apply HQ|destruct (IsExpected err); [done|by destruct err]|done].
Qed.

(** Links. *)
Lemma promises_token creates id secret purpose apply (R : option Account -> utrace -> Prop) : (forall a t t', t ⊆ t' -> R a t -> R a t') ->
  (forall c a s t, tx_account s = Some a -> confirmed config t id secret purpose c a ->
     wp config creates (apply c) s t (okp (fun s2 t2 _ => still s s2 /\ t ⊆ t2 /\ R (Some a) t2))) ->
  promises creates (challenge_body id (confirm_body config id secret purpose apply)) (fun acc t _ => consumed_challenge t id /\ R acc t).
Proof.
  intros HR Happly d acc. apply wp_with_challenge. intros s t c a Hh Ha0 Ha _. cbn [tx_account] in Ha0. subst acc.
  apply (fine_confirm config creates id secret purpose apply c s t a (R (Some a)) Hh Ha); [apply HR|].
  intros s' t' (_ & E & _) _ Hc. apply Happly; [congruence|done].
Qed.

(** A link that changes credentials. *)
Lemma ver_changing_token q value purpose apply : challenge_of q = match parseToken value with Ok (id, _) => Some id | _ => None end ->
  (forall t subject, account_for q t subject = exists id, challenge_of q = Some id /\ sdid t (SChallengeSubject id) (Ok subject)) ->
  (forall c a s t, tx_account s = Some a -> wp config false (apply c) s t (okp (fun s2 t2 _ => still s s2 /\ t ⊆ t2 /\ changed_credentials t2 a))) ->
  ver (confirmToken config value purpose apply) [] (fine (fun t _ => answers q t)).
Proof.
  intros Hq Hacc Happly. set (R := fun (acc : option Account) (t : utrace) => exists a, acc = Some a /\ changed_credentials t a).
  assert (forall id secret, promises false (challenge_body id (confirm_body config id secret purpose apply)) (fun acc t _ => consumed_challenge t id /\ R acc t)) as Hb.
  { intros id secret. apply promises_token.
    - intros a t t' Ht (b & -> & Hc). exists b. split; [done|]. by eapply changed_mono.
    - intros c a s t Ha _. eapply wp_impl; [|by apply Happly]. intros s2 t2 [v| |]; try done. cbn [okp]. intros (? & ? & ?). split_and!; [done|done|by exists a]. }
  eapply (ver_confirmToken false value purpose apply (fun id acc t _ => consumed_challenge t id /\ R acc t)); [intros id secret _; apply Hb|].
  intros t' id secret subject ut v acc _ Hp Hs Ha [Hc HR]. split.
  - rewrite Hq, Hp. intros x [= <-]. eexists. split; [apply elem_of_app; right; by left|]. by apply consumes_tx.
  - intros _. eexists t', subject, _, ut, v. split_and!; [done|done| |].
    + eapply promises_impl; [|apply Hb]. by intros ? ? ? [_ ?].
    + rewrite Hacc. exists id. rewrite Hq, Hp. split; [done|]. apply elem_of_app. by left.
Qed.

(** A link that signs in or cancels. *)
Lemma ver_token creates q value purpose apply :
  challenge_of q = match parseToken value with Ok (id, _) => Some id | _ => None end -> changes q = false ->
  (forall id secret c a s t, tx_account s = Some a -> confirmed config t id secret purpose c a ->
     wp config creates (apply c) s t (okp (fun s2 t2 _ => still s s2 /\ t ⊆ t2 /\ True))) ->
  ver (confirmToken config value purpose apply) [] (fine (fun t _ => forall t', t ⊆ t' -> answers q t')).
Proof.
  intros Hq Hch Happly. eapply (ver_confirmToken creates value purpose apply (fun id acc t _ => consumed_challenge t id /\ True)).
  - intros id secret _. by apply (promises_token creates id secret purpose apply (fun _ _ => True)); [|intros; eapply Happly].
  - intros t' id secret subject ut v acc _ Hp Hs Ha [Hc _] t2 Ht2. split; [|by rewrite Hch].
    rewrite Hq, Hp. intros x [= <-]. eexists. split; [apply Ht2, elem_of_app; right; by left|]. by apply consumes_tx.
Qed.

(** The owner's operations that change credentials, and the others. *)
Lemma ver_owner_quiet creates q actor b : challenge_of q = None -> changes q = false -> (forall s t, wp config creates b s t (okv (fun _ _ _ => True))) ->
  ver (withOwner actor b) [] (fine (fun t _ => answers q t)).
Proof. intros Hq Hch Hb. eapply (ver_withOwner creates actor b (fun _ _ _ => True)); [exact Hb|]. intros. by apply answers_none. Qed.

Lemma ver_owner_changing q actor b (R : utrace -> Prop) : (forall t id, challenge_of q = Some id -> R t -> consumed_challenge t id) ->
  (forall t subject, account_for q t subject = (subject = SubjectID actor)) ->
  (forall s t, wp config false b s t (okv (fun _ t _ => R t /\ exists a, tx_account s = Some a /\ changed_credentials t a))) ->
  ver (withOwner actor b) [] (fine (fun t _ => answers q t)).
Proof.
  intros HR Hacc Hb. eapply (ver_withOwner false actor b (fun acc t _ => R t /\ exists a, acc = Some a /\ changed_credentials t a)); [exact Hb|].
  intros ut v acc Ha [Hr Hc]. split.
  - intros id Hid. eexists. split; [by left|]. apply consumes_tx. by apply (HR ut id).
  - intros _. eexists [], (SubjectID actor), _, ut, v. split_and!; [done|done| |by rewrite Hacc]. intros d acc'. apply wp_owner. intros s' t' (_ & E & _) _. cbn [tx_account] in E.
    eapply wp_impl; [|apply Hb]. intros s2 t2 r Hres. destruct r as [x| |]; try done. rewrite <- E. destruct x; cbn in *; tauto.
Qed.

(** Every request makes only guarded calls and keeps its promise. *)
Lemma ver_security q p : sprogram_of config q = (r ← p; Ret (SecAnswer r)) -> ver p [] (fine (fun t _ => answers q t)) -> ver (sprogram_of config q) [] (sanswer_ok q).
Proof. intros -> Hp. apply verified_bind. eapply verified_impl; [|exact Hp]. intros t r Hr. cbn [verified]. by destruct r. Qed.

Lemma ver_session q q' : sprogram_of config q = (a ← lift_auth (program_of (cf_sessions config) q'); Ret (SessionAnswer a)) -> polite (program_of (cf_sessions config) q') ->
  ver (sprogram_of config q) [] (sanswer_ok q).
Proof. intros -> Hp. apply verified_bind, ver_lift_auth; [exact Hp|]. done. Qed.

Lemma ver_sprogram q : ver (sprogram_of config q) [] (sanswer_ok q).
Proof.
  destruct q as [email raw browser|email raw allow|id code|id|email purpose|value secret|value raw|value|value|actor|actor old new|actor email password|actor password enabled|actor id code enabled|actor|actor id|actor
    |value|value|value|value|value audience|id subject authTime|id];
    try (eapply ver_security; [done|]); try (eapply ver_session; [done|]; cbn [program_of]).
  - destruct browser; [apply ver_try, ver_newSecret; intros t s _|]; apply ver_register; intros; by apply answers_none.
  - unfold Login. destruct (Email email) as [e| |], (NewPassword raw) as [plain| |]; try done. apply verified_bind, ver_unit_now. intros t now _. apply ver_try.
    eapply (ver_transaction true _ _ (fun _ _ _ => True)); [intros d acc; by apply fine_login|]. intros ut v acc _ _. apply ver_activated. intros. by apply answers_none.
  - apply ver_try. eapply (ver_withChallenge true _ _ (fun _ t _ => consumed_challenge t id)).
    { intros d acc. apply wp_with_challenge. intros. by apply fine_complete_login. }
    intros t' subject ut v acc _ _ _ Hc. apply ver_activated. intros t2 v2 Ht2. split; [|done]. intros x [= <-]. eexists. split; [apply Ht2, elem_of_app; right; by left|]. by apply consumes_tx.
  - eapply (ver_withChallenge false _ _ (fun _ t _ => True)); [intros d acc; apply wp_with_challenge; intros; by eapply fine_resend|]. intros. by apply answers_none.
  - apply ver_refuse. intros Hp. destruct (Email email) as [e| |]; try done. eapply (ver_transaction false _ _ (fun _ _ _ => True)); [|intros; by apply answers_none].
    intros d acc. apply fine_request_token. intros ->. done.
  - apply ver_try. eapply verified_impl; [|apply (ver_token true (SReqConfirmRegistration value secret)); [done|done|]].
    + intros t r Hr. destruct r as [v| |]; try done. apply ver_activated. intros t' _ Ht. by apply Hr.
    + intros id sec c a s t Ha Hc. by eapply (fine_confirm_registration config true secret id sec).
  - unfold ResetPassword, with_new_password. destruct (NewSecurePassword raw) as [plain| |]; try done. apply ver_changing_token; [done|done|]. intros. by apply fine_reset_password.
  - apply ver_changing_token; [done|done|]. intros. by apply fine_confirm_email_change.
  - eapply verified_impl; [|apply (ver_token false (SReqCancelEmailChange value)); [done|done|intros; apply fine_cancel_email_change]].
    intros t r Hr. destruct r as [v| |]; try done. by apply Hr.
  - apply (ver_owner_quiet false); [done|done|]. intros. apply fine_owner_reads.
  - unfold ChangePassword, with_new_password. destruct (NewSecurePassword new) as [plain| |]; try done. apply (ver_owner_changing _ actor _ (fun _ => True)); [done|done|]. intros s t.
    eapply wp_impl; [|apply fine_change_password]. intros s2 t2 r Hr. destruct r as [v| |]; try done. by destruct v.
  - unfold StartEmailChange. destruct (Email email) as [e| |]; try done. apply (ver_owner_quiet false); [done|done|]. intros. apply fine_start_email_change.
  - apply (ver_owner_quiet false); [done|done|]. intros. apply fine_start_code_change.
  - apply (ver_owner_changing _ actor _ (fun t => consumed_challenge t id)); [intros t x [= <-]; done|done|]. intros s t. apply fine_complete_code_change.
  - apply (ver_owner_quiet false); [done|done|]. intros. apply fine_owner_reads.
  - apply (ver_owner_quiet false); [done|done|]. intros. apply fine_revoke_session.
  - apply (ver_owner_quiet false); [done|done|]. intros. apply fine_logout_all.
  - apply polite_bind; [apply polite_Refresh|done].
  - apply polite_bind; [apply polite_Authenticate|done].
  - apply polite_bind; [apply polite_try; [apply polite_Authenticate|]|done]. intros v. apply polite_bind; [done|]. intros now. apply polite_bind; [apply polite_Revoke|done].
  - apply polite_bind; [apply polite_RevokeAll|done].
  - apply polite_bind; [apply polite_try; [apply polite_Authenticate|]|done]. intros v. apply polite_bind; [done|]. intros now. polite.
  - apply polite_bind; [apply polite_try; [apply polite_active|]|done]. intros v. by apply polite_refuse.
  - done.
Qed.
End guards.
