(* ===== verification/AuthSecurityRuns.v ===== *)
(** * Auth: runs of account security

    The invariant of the accounts, their challenges and sessions under any number of
    concurrent requests, and the theorems about account security. *)

From S2P Require Import Prelude GoStrings GoUnicode Sha256 GoEncoding Effects AuthDomain AuthToken AuthStore AuthSession AuthGuards AuthHistory AuthSecurityStore AuthSecurity AuthSecurityTx AuthSecurityBodies AuthSecurityCommit AuthSecurityOps.
Local Open Scope Z_scope.

(** The calls of a transaction. *)
Definition tx_of (e : sigT sreply) : option utrace := match e with existT (SWithAccount _ _) r => Some r.1 | _ => None end.
Definition in_history (ts : list strace) (ut : utrace) : Prop := exists t e, t ∈ ts /\ e ∈ t /\ tx_of e = Some ut.

(** The transaction created the session. *)
Definition created (ut : utrace) (id : session_id) (subject : bytes) : Prop := exists v dg, udid ut (UCreate v dg) (Ok tt) /\ rec_ID v = id /\ SubjectID v = subject.

(** The right password of the account was presented in some transaction. *)
Definition password_known (ts : list strace) (subject : bytes) : Prop := exists ut, in_history ts ut /\ password_for ut subject.

Section runs.
Context `{UnicodeTables} (config : SecConfig).

(** ** One call *)

Definition drew (e : sigT sreply) : option bytes := match e with existT (SProcess UNewID) r => r | _ => None end.

Record effect (d d' : sec_db) (e : sigT sreply) : Prop := mkEffect {
  ef_rows : sec_rows None d';
  ef_grows : grows d d';
  ef_accounts : accounts_grow d d';
  ef_sessions id r : sessions (sd_auth d') !! id = Some r ->
    is_Some (sessions (sd_auth d) !! id) \/
    exists ut, tx_of e = Some ut /\ created ut id (SubjectID (sr_record r)) /\ signed_in config ut (SubjectID (sr_record r));
  ef_codes id c : challenges d' !! id = Some c -> ch_Purpose c = LoginCode ->
    (exists c0, challenges d !! id = Some c0 /\ ch_Purpose c0 = LoginCode /\ ch_Subject c0 = ch_Subject c) \/
    exists ut, tx_of e = Some ut /\ password_for ut (ch_Subject c);
  ef_read_codes ut id c : tx_of e = Some ut -> udid ut (UChallenge id) (Ok c) -> ch_Purpose c = LoginCode ->
    (exists c0, challenges d !! id = Some c0 /\ ch_Purpose c0 = LoginCode /\ ch_Subject c0 = ch_Subject c) \/ password_for ut (ch_Subject c);
  ef_consumed id : consumes e id -> ~ used d id /\ used d' id;
  ef_drew id : drew e = Some id -> id ∈ drawn d'
}.

(** A call that is no transaction. *)
Lemma effect_other d d' e : tx_of e = None -> sec_rows None d' -> grows d d' -> accounts_grow d d' ->
  (forall id r, sessions (sd_auth d') !! id = Some r -> is_Some (sessions (sd_auth d) !! id)) ->
  (forall id c, challenges d' !! id = Some c -> ch_Purpose c = LoginCode -> challenges d !! id = Some c) ->
  (forall id, drew e = Some id -> id ∈ drawn d') -> effect d d' e.
Proof.
  intros Htx Hrows Hg Ha Hs Hc Hd. split; try done.
  - intros id r Hr. left. by eapply Hs.
  - intros id c Hl Hp. left. exists c. split; [by apply Hc|done].
  - intros ut id c Hu. congruence.
  - intros id Hcon. destruct e as [[] r]; done.
Qed.

Lemma effect_same d d' e : tx_of e = None -> sec_rows None d -> sd_auth d' = sd_auth d -> credentials d' = credentials d -> account_security d' = account_security d ->
  challenges d' = challenges d -> mail_outbox d' = mail_outbox d -> registrations d' = registrations d -> drawn d ⊆ drawn d' -> (forall id, drew e = Some id -> id ∈ drawn d') -> effect d d' e.
Proof.
  intros Htx Hrows Ea Ec Es Eh Em Er Hdr Hd. apply effect_other; [done|by eapply rows_same|by apply grows_same| |rewrite Ea; by eauto|by rewrite Eh|done].
  intros k x Hx. exists x. rewrite Es. split; [done|lia].
Qed.

Lemma effect_transaction w d sel b : sec_rows None d -> (exists creates, promises config creates b (fun _ _ _ => True)) ->
  effect d (srespond w d (SWithAccount sel b)).1 (existT (SWithAccount sel b) (srespond w d (SWithAccount sel b)).2).
Proof.
  intros Hrows [creates Hb]. cbn [srespond]. pose proof (WithAccount_sound config creates (sw_unit w) (sw_fault w) d sel b (fun _ _ _ => True) Hrows Hb) as Hs.
  destruct (WithAccount (sw_unit w) (sw_fault w) d sel b) as [d' [ut r]]. destruct Hs as [[H1 H2 H3 H4 H5 H6 H7 H8] Hcommit]. cbn [fst snd]. split; [done|done|done|..]; cbn [tx_of fst].
  - intros id x Hx. destruct (H4 id x Hx) as [?|(v & dg & Hd & Hid & Hsub)]; [by left|right]. exists ut. rewrite Hsub. split_and!; [done|by exists v, dg|by eapply H5].
  - intros id c Hc Hp. destruct (H7 id c Hc Hp) as [?|?]; [by left|right]. by exists ut.
  - intros ut' id c [= <-]. apply H8.
  - intros id [[v Hv] (c & now & Hread & Hid & Hun & Hsave)]. cbn [fst snd] in *. split; [by eapply H6|]. destruct (Hcommit v Hv) as (acc & Hcm & _).
    rewrite <- Hid. by apply (tc_saved _ _ _ _ _ _ Hcm (set_used c now) Hsave).
  - done.
Qed.

Lemma effect_auth w d c : sec_rows None d -> session_call c -> effect d (srespond w d (SAuth c)).1 (existT (SAuth c) (srespond w d (SAuth c)).2).
Proof.
  intros Hrows Hc. cbn [srespond fst snd]. destruct (respond_guarded (sw_auth w) (sd_auth d) c (sq_auth _ _ Hrows) Hc) as [H1 H2 H3].
  destruct (rows_auth None d (respond (sw_auth w) (sd_auth d) c).1 Hrows H1 H2) as [Hr Hg].
  { intros id r Hr. destruct (H3 id r Hr) as (r0 & Hr0 & ->). by apply (sq_owner _ _ Hrows id). }
  apply effect_other; [done|done|done|intros k x Hx; exists x; split; [done|lia]| |done|done]. cbn [sd_auth set_auth]. intros id r Hx. destruct (H3 id r Hx) as (r0 & Hr0 & _). by exists r0.
Qed.

Lemma srespond_effect w d t c : sec_rows None d -> (forall id, sdid t (SProcess UNewID) (Some id) -> id ∈ drawn d) -> sok config t c ->
  effect d (srespond w d c).1 (existT c (srespond w d c).2).
Proof.
  intros Hrows Hdr Hok. destruct c as [sel b|id|subject email password ev c m|u| |c].
  - by apply effect_transaction.
  - by apply effect_same.
  - destruct Hok as (Hid & Hp & Hr). cbn [srespond]. apply (faulty_state (fun d' => forall e, tx_of e = None -> drew e = None -> effect d d' e)); [|  |done|done].
    + intros e He Hd. apply effect_same; try done. by rewrite Hd.
    + intros e He Hd. destruct (RegisterTx_sound d subject email password ev c m Hrows) as [H1 H2 H3 H4 H5]; [by apply Hdr|by rewrite Hp|done|].
      apply effect_other; [done|done|done|done|intros id r Hr0; exists r; rewrite <- H4; exact Hr0|done|by rewrite Hd].
  - cbn [srespond fst snd]. destruct u; try done; cbn [urespond]; try (by apply effect_same).
    destruct (random_bytes (sw_unit w 0) 16) as [id|] eqn:Hid; cbn [fst snd tx_db]; [|by apply effect_same].
    case_bool_decide; cbn [fst snd tx_db]; [by apply effect_same|]. apply effect_same; try done; cbn; [set_solver|]. intros x [= <-]. set_solver.
  - by apply effect_same.
  - by apply effect_auth.
Qed.

(** ** The invariant *)

Record sec_ok (d : sec_db) (ts : list strace) : Prop := mkSecOk {
  so_rows : sec_rows None d;
  so_drawn t e id : t ∈ ts -> e ∈ t -> drew e = Some id -> id ∈ drawn d;
  so_sessions id r : sessions (sd_auth d) !! id = Some r ->
    exists ut, in_history ts ut /\ created ut id (SubjectID (sr_record r)) /\ signed_in config ut (SubjectID (sr_record r));
  so_codes id c : challenges d !! id = Some c -> ch_Purpose c = LoginCode -> password_known ts (ch_Subject c);
  so_read_codes ut id c : in_history ts ut -> udid ut (UChallenge id) (Ok c) -> ch_Purpose c = LoginCode -> password_known ts (ch_Subject c);
  so_consumed t e id : t ∈ ts -> e ∈ t -> consumes e id -> used d id;
  so_once i j t t' e e' id : ts !! i = Some t -> ts !! j = Some t' -> e ∈ t -> e' ∈ t' -> consumes e id -> consumes e' id -> i = j
}.

Lemma history_grown ts ts' ut : grown ts ts' -> in_history ts ut -> in_history ts' ut.
Proof. intros Hg (t & e & Ht & He & Hu). destruct (Hg t Ht) as (t' & Ht' & Hsub). exists t', e. auto. Qed.
Lemma password_grown ts ts' subject : grown ts ts' -> password_known ts subject -> password_known ts' subject.
Proof. intros Hg (ut & Hh & Hp). exists ut. split; [by eapply history_grown|done]. Qed.

Lemma sec_ok_start : sec_ok (sys_db sec_start) [].
Proof.
  split; try (intros *; intros ?%elem_of_nil; done); try done.
  - split; try done. split; try done; cbn; [constructor|by intros ? ? ?%elem_of_nil].
  - intros ut id c (t & e & ?%elem_of_nil & _). done.
Qed.

Lemma sec_ok_grown d ts : sec_ok d ts -> sec_ok d (ts ++ [[]]).
Proof.
  assert (forall t (e : sigT sreply), t ∈ ts ++ [[]] -> e ∈ t -> t ∈ ts) as Hin.
  { intros t e [Ht|Ht%list_elem_of_singleton]%elem_of_app He; [done|]. subst t. by apply elem_of_nil in He. }
  assert (forall k t (e : sigT sreply), (ts ++ [[]]) !! k = Some t -> e ∈ t -> ts !! k = Some t) as Hold.
  { intros k t e Hk He. apply lookup_app_Some in Hk as [Hk|[_ Hk]]; [done|]. apply list_elem_of_lookup_2, list_elem_of_singleton in Hk. subst t. by apply elem_of_nil in He. }
  pose proof (grown_start ts) as Hg. intros [H1 H2 H3 H4 H5 H6 H7]. split; [done|..].
  - intros t e id Ht He. apply (H2 t); [by eapply Hin|done].
  - intros id r Hr. destruct (H3 id r Hr) as (ut & Hu & Hrest). exists ut. split; [by eapply history_grown|done].
  - intros id c Hc Hp. eapply password_grown; [done|by eapply H4].
  - intros ut id c (t & e & Ht & He & Hu) Hc Hp. eapply password_grown; [done|]. eapply H5; [|done|done]. exists t, e. split; [by eapply Hin|done].
  - intros t e id Ht He. apply (H6 t); [by eapply Hin|done].
  - intros i j t t' e e' id Hi Hj He He'. eapply H7; [by eapply Hold|by eapply Hold|done|done].
Qed.

Lemma sec_ok_call w d ts i t c : sec_ok d ts -> ts !! i = Some t -> sok config t c ->
  sec_ok (srespond w d c).1 (<[i := t ++ [existT c (srespond w d c).2]]> ts).
Proof.
  intros [H1 H2 H3 H4 H5 H6 H7] Hi Hok. assert (t ∈ ts) as Ht by (by eapply list_elem_of_lookup_2).
  assert (forall id, sdid t (SProcess UNewID) (Some id) -> id ∈ drawn d) as Hdr by (intros id He; by apply (H2 t _ id Ht He)).
  pose proof (srespond_effect w d t c H1 Hdr Hok) as [E1 E2 E3 E4 E5 E6 E7 E8]. set (e := existT c (srespond w d c).2) in *. set (d' := (srespond w d c).1) in *.
  pose proof (grown_call ts i t e Hi) as Hg. pose proof (call_event ts i t e Hi) as Hev. set (ts' := <[i := t ++ [e]]> ts) in *.
  assert (forall ut, tx_of e = Some ut -> in_history ts' ut) as Hnew.
  { intros ut Hu. exists (t ++ [e]), e. split_and!; [|apply elem_of_app; right; by left|done]. eapply list_elem_of_lookup_2, list_lookup_insert_eq. by eapply lookup_lt_Some. }
  assert (forall ut, in_history ts' ut -> in_history ts ut \/ tx_of e = Some ut) as Hold.
  { intros ut (t' & x & Ht' & Hx & Hu). destruct (Hev t' x Ht' Hx) as [(t0 & Ht0 & Hx0)| ->]; [left; by exists t0, x|by right]. }
  split; [done|..].
  - intros t' x id Ht' Hx Hd. destruct (Hev t' x Ht' Hx) as [(t0 & Ht0 & Hx0)| ->]; [|by apply E8]. by apply (gr_drawn _ _ E2), (H2 t0 x).
  - intros id r Hr. destruct (E4 id r Hr) as [[r0 Hr0]|(ut & Hu & Hrest)]; [|exists ut; split; [by apply Hnew|done]].
    destruct (H3 id r0 Hr0) as (ut & Hu & Hrest). exists ut. split; [by eapply history_grown|]. destruct (gr_auth _ _ E2) as [Hl _]. destruct (Hl id r0 Hr0) as (r' & Hr' & Hs & _).
    assert (r' = r) as -> by congruence. by rewrite Hs.
  - intros id x Hx Hp. destruct (E5 id x Hx Hp) as [(x0 & Hx0 & Hp0 & <-)|(ut & Hu & Hpw)]; [eapply password_grown; [done|by eapply H4]|]. exists ut. split; [by apply Hnew|done].
  - intros ut id x Hu Hx Hp. destruct (Hold ut Hu) as [Hu'|Hu']; [eapply password_grown; [done|by eapply H5]|].
    destruct (E6 ut id x Hu' Hx Hp) as [(x0 & Hx0 & Hp0 & <-)|Hpw]; [eapply password_grown; [done|by eapply H4]|]. by exists ut.
  - intros t' x id Ht' Hx Hc. destruct (Hev t' x Ht' Hx) as [(t0 & Ht0 & Hx0)| ->]; [|by apply E7]. eapply used_grows; [exact E2|]. by apply (H6 t0 x).
  - intros j k t1 t2 x y id Hj Hk Hx Hy Hcx Hcy.
    assert (forall l t' z, ts' !! l = Some t' -> z ∈ t' -> consumes z id -> (ts !! l = Some (if decide (l = i) then t else t') /\ z ∈ (if decide (l = i) then t else t')) \/ (l = i /\ z = e)) as Hcase.
    { intros l t' z Hl Hz _. apply list_lookup_insert_Some in Hl as [(<- & <- & _)|[Hne Hl]].
      - rewrite decide_True by done. apply elem_of_app in Hz as [Hz|Hz%list_elem_of_singleton]; [by left|by right].
      - left. by rewrite decide_False. }
    destruct (Hcase j t1 x Hj Hx Hcx) as [[A1 A2]|[-> ->]], (Hcase k t2 y Hk Hy Hcy) as [[B1 B2]|[-> ->]]; [by eapply H7| | |done].
    + destruct (E7 id Hcy) as [Hn _]. destruct Hn. eapply H6; [by eapply list_elem_of_lookup_2|exact A2|done].
    + destruct (E7 id Hcx) as [Hn _]. destruct Hn. eapply H6; [by eapply list_elem_of_lookup_2|exact B2|done].
Qed.

Lemma sec_legal w d ts t c : sec_ok d ts -> t ∈ ts -> sok config t c -> slegal config c (srespond w d c).2.
Proof.
  intros Hd _ Hok. destruct c as [sel b| | | | |]; try done. cbn [slegal srespond]. intros creates Q v Hb Hv Ha.
  pose proof (WithAccount_sound config creates (sw_unit w) (sw_fault w) d sel b Q (so_rows _ _ Hd) Hb) as Hs.
  destruct (WithAccount (sw_unit w) (sw_fault w) d sel b) as [d' [ut r]]. destruct Hs as [_ Hc]. destruct (Hc v Hv) as (acc & _ & HQ). exists acc. by apply HQ.
Qed.

Lemma sec_run_ok es s : sec_run config sec_start es = Some s ->
  sec_ok (sys_db s) (traces s) /\ forall th, th ∈ sys_threads s -> verified (sok config) (slegal config) (th_prog th) (th_trace th) (sanswer_ok config (th_request th)).
Proof.
  apply (run_invariant srespond (sprogram_of config) (sok config) (slegal config) (sanswer_ok config) sec_ok); [apply ver_sprogram|apply sec_legal|apply sec_ok_grown|intros; by apply sec_ok_call|apply sec_ok_start].
Qed.

(** ** Theorems *)

(** C30. Whatever the concurrent requests and faults, the tables of the accounts stay
    consistent: sessions and registrations belong to accounts, an address belongs to
    one account, revisions are positive, and a challenge belongs to an account and
    never carries a revision newer than the account's. *)
Theorem accounts_stay_consistent (es : list sec_event) (s : sec_system) : sec_run config sec_start es = Some s -> sec_rows None (sys_db s).
Proof. intros Hrun. destruct (sec_run_ok _ _ Hrun) as [Hok _]. apply (so_rows _ _ Hok). Qed.

(** C27. Every session was earned: it was created in a transaction that checked the
    right password of an account without codes, or an unused login code, which exists
    only if the right password was presented before, or the link of a registration
    together with the secret of the browser that registered. *)
Theorem sessions_are_earned (es : list sec_event) (s : sec_system) (id : session_id) (r : session_row) :
  sec_run config sec_start es = Some s -> sessions (sd_auth (sys_db s)) !! id = Some r ->
  let subject := SubjectID (sr_record r) in
  exists ut, in_history (traces s) ut /\ created ut id subject /\
    (by_password ut subject \/ (by_code config ut subject /\ password_known (traces s) subject) \/ by_link config ut subject).
Proof.
  intros Hrun Hr. cbv zeta. destruct (sec_run_ok _ _ Hrun) as [Hok _]. destruct (so_sessions _ _ Hok id r Hr) as (ut & Hu & Hc & Hs). exists ut. split_and!; [done|done|].
  destruct Hs as [Hs|[Hs|Hs]]; [by left| |by right; right]. right. left. split; [done|]. destruct Hs as (c & code & Hread & Hsub & Hp & _). rewrite <- Hsub. by eapply (so_read_codes _ _ Hok ut).
Qed.

(** C29. A code or link is used at most once: two requests that present the same
    challenge never both succeed. *)
Theorem challenges_are_single_use (es : list sec_event) (s : sec_system) (i j : nat) (th th' : thread sreply srequest sanswer) (id : bytes) (v v' : tx_value) :
  sec_run config sec_start es = Some s -> sys_threads s !! i = Some th -> sys_threads s !! j = Some th' ->
  challenge_of (th_request th) = Some id -> challenge_of (th_request th') = Some id ->
  th_prog th = Ret (SecAnswer (Ok v)) -> th_prog th' = Ret (SecAnswer (Ok v')) -> i = j.
Proof.
  intros Hrun Hi Hj Hc Hc' Hp Hp'. destruct (sec_run_ok _ _ Hrun) as [Hok Hver].
  assert (forall k x y, sys_threads s !! k = Some x -> challenge_of (th_request x) = Some id -> th_prog x = Ret (SecAnswer (Ok y)) ->
    exists e, traces s !! k = Some (th_trace x) /\ e ∈ th_trace x /\ consumes e id) as Hget.
  { intros k x y Hk Hx Hy. specialize (Hver x (list_elem_of_lookup_2 _ _ _ Hk)). rewrite Hy in Hver. destruct Hver as [Hcon _]. destruct (Hcon id Hx) as (e & He & Hce).
    exists e. unfold traces. by rewrite list_lookup_fmap, Hk. }
  destruct (Hget i th v Hi Hc Hp) as (e & Ht & He & Hce), (Hget j th' v' Hj Hc' Hp') as (e' & Ht' & He' & Hce'). by eapply (so_once _ _ Hok i j).
Qed.

(** ** Sign-out *)

Lemma accounts_grow_trans d1 d2 d3 : accounts_grow d1 d2 -> accounts_grow d2 d3 -> accounts_grow d1 d3.
Proof. intros H1 H2 k x Hx. destruct (H1 k x Hx) as (y & Hy & Hle). destruct (H2 k y Hy) as (z & Hz & Hle'). exists z. split; [done|lia]. Qed.

Lemma sec_run_grows es es' s s' : sec_run config sec_start es = Some s -> sec_run config s es' = Some s' ->
  grows (sys_db s) (sys_db s') /\ accounts_grow (sys_db s) (sys_db s').
Proof.
  intros Hrun Hrun'. destruct (sec_run_ok _ _ Hrun) as [Hok Hver].
  enough (invariant (sok config) (slegal config) (sanswer_ok config) (fun d ts => sec_ok d ts /\ grows (sys_db s) d /\ accounts_grow (sys_db s) d) s') as [(_ & ? & ?) _] by done.
  eapply (run_invariant_from srespond (sprogram_of config)); [apply ver_sprogram| | | | |exact Hrun'].
  - intros w d ts t c (Hd & _). by apply sec_legal.
  - intros d ts (Hd & Hg & Ha). split_and!; [by apply sec_ok_grown|done|done].
  - intros w d ts i t c (Hd & Hg & Ha) Hi Hc. split_and!; [by apply sec_ok_call|..].
    all: destruct (srespond_effect w d t c (so_rows _ _ Hd)) as [_ E2 E3 _ _ _ _ _]; [intros id He; by eapply (so_drawn _ _ Hd t _ id (list_elem_of_lookup_2 _ _ _ Hi) He)|done|].
    + by eapply grows_trans.
    + by eapply accounts_grow_trans.
  - split; [|done]. split_and!; [done|apply grows_refl|apply accounts_grow_refl].
Qed.

Definition as_tx (e : sigT sreply) : option (Selector * body * (utrace * reply_of tx_value)) := match e with existT (SWithAccount sel b) r => Some (sel, b, r) | _ => None end.

(** The transaction of a change of credentials. *)
Lemma changing_commit w d subject b ut v : sec_rows None d -> changing config b -> (srespond w d (SWithAccount (BySubject subject) b)).2 = (ut, Ok v) -> accepted v ->
  (forall id r, sessions (sd_auth (srespond w d (SWithAccount (BySubject subject) b)).1) !! id = Some r -> SubjectID (sr_record r) = subject -> is_revoked r) /\
  exists x, account_security (srespond w d (SWithAccount (BySubject subject) b)).1 !! subject = Some x /\
    forall id c, challenges d !! id = Some c -> ch_Subject c = subject -> ch_Revision c < revision x.
Proof.
  intros Hrows Hb Hr Ha. cbn [srespond] in *.
  pose proof (WithAccount_sound config false (sw_unit w) (sw_fault w) d (BySubject subject) b (fun acc t _ => exists a, acc = Some a /\ changed_credentials t a) Hrows Hb) as Hs.
  destruct (WithAccount _ _ _ _ _) as [d' [ut' r]]. cbn [fst snd] in *. injection Hr as -> ->. destruct Hs as [_ Hs].
  destruct (Hs v eq_refl) as (acc & [_ Hsel Hout Hrev] & HQ). destruct (HQ Ha) as (a & Hacc & (now & Hrk) & a' & Hset & Hlt). subst acc. specialize (Hsel a eq_refl). cbn in Hsel. subst subject. split.
  - intros id r Hr. by apply (Hout a now eq_refl eq_refl Hrk id r).
  - destruct (Hrev a eq_refl) as [Hle (x & Hx & Hge)]. exists x. split; [done|]. intros id c Hc Hcs. specialize (Hle id c Hc Hcs). specialize (Hge a' Hset). lia.
Qed.

(** C28. A change of credentials (a new password, a reset, a new address, codes switched
    on or off) signs the account out for good: when the request succeeds every session
    of the account is revoked and stays so, and every code or link sent before belongs
    to an older revision of the account for ever. *)
Theorem credential_changes_sign_out (es es' : list sec_event) (s s1 s' : sec_system) (i : nat) (w : sworld) (th : thread sreply srequest sanswer) (v : tx_value) :
  sec_run config sec_start es = Some s -> sec_run config s [Call i w] = Some s1 -> sys_threads s1 !! i = Some th ->
  changes (th_request th) = true -> th_prog th = Ret (SecAnswer (Ok v)) -> sec_run config s1 es' = Some s' ->
  exists subject, account_for (th_request th) (th_trace th) subject /\
    (forall id r, sessions (sd_auth (sys_db s1)) !! id = Some r -> SubjectID (sr_record r) = subject -> revoked_now (sd_auth (sys_db s')) id) /\
    exists x, account_security (sys_db s') !! subject = Some x /\
      forall id c, challenges (sys_db s) !! id = Some c -> ch_Subject c = subject -> exists c', challenges (sys_db s') !! id = Some c' /\ ch_Revision c' < revision x.
Proof.
  intros Hrun Hstep Hth Hch Hp Hrun'.
  assert (sec_run config sec_start (es ++ [Call i w]) = Some s1) as Hrun1 by (unfold sec_run in *; by rewrite sys_run_app, Hrun).
  destruct (sec_run_ok _ _ Hrun) as [Hok _]. destruct (sec_run_ok _ _ Hrun1) as [_ Hver]. specialize (Hver th (list_elem_of_lookup_2 _ _ _ Hth)). rewrite Hp in Hver.
  destruct Hver as [_ Hver]. destruct (Hver Hch) as (t0 & subject & b & ut & x & Ht & Ha & Hb & Hacc). exists subject. split; [done|].
  destruct (sec_run_grows _ _ _ _ Hrun1 Hrun') as [Hg' Hag']. destruct (sec_run_grows _ _ _ _ Hrun Hstep) as [Hg _].
  cbn [sec_run sys_run sys_step] in Hstep. destruct (sys_threads s !! i) as [th0|] eqn:Hi; [|done]. cbn [mbind option_bind] in Hstep. destruct (th_prog th0) as [|c k]; [done|].
  destruct (srespond w (sys_db s) c) as [d1 r] eqn:Hr. cbn [mbind option_bind] in Hstep. injection Hstep as <-. cbn [sys_threads sys_db] in *.
  rewrite list_lookup_insert_eq in Hth by (by eapply lookup_lt_Some). injection Hth as <-. cbn [th_trace] in Ht. apply app_inj_tail in Ht as [_ Ht%(f_equal as_tx)].
  destruct c as [sel' b'| | | | |]; try done. cbn [as_tx] in Ht. injection Ht as -> -> ->.
  pose proof (changing_commit w (sys_db s) subject b ut x (so_rows _ _ Hok) Hb) as Hc. rewrite Hr in Hc. destruct (Hc eq_refl Ha) as [Hout (y & Hy & Hlt)]. cbn [fst] in *. split.
  - intros id row Hrow Hs. eapply revoked_later; [apply (gr_auth _ _ Hg')|]. exists row. split; [done|]. by eapply Hout.
  - destruct (Hag' _ _ Hy) as (y' & Hy' & Hle). exists y'. split; [done|]. intros id c Hc' Hs. specialize (Hlt id c Hc' Hs).
    destruct (gr_challenges _ _ (grows_trans _ _ _ Hg Hg') id c Hc') as (c' & Hl & _ & _ & Hrev & _). exists c'. split; [done|lia].
Qed.
End runs.

(** ** Attempts *)

(** The attempts that a sequence of reservations grants. *)
Fixpoint granted_attempts (limit window : Z) (row : option limit_row) (nows : list Z) : Z :=
  match nows with
  | [] => 0
  | now :: rest => let '(row, n) := reserve row now limit window in (if n <=? limit then 1 else 0) + granted_attempts limit window (Some row) rest
  end.

Lemma granted_within limit window row nows : 0 <= lim_attempts row <= limit -> Forall (fun now => now < lim_expires row) nows ->
  granted_attempts limit window (Some row) nows <= limit - lim_attempts row.
Proof.
  revert row. induction nows as [|now nows IH]; intros row Hrow Hall; cbn [granted_attempts]; [lia|]. inversion Hall as [|? ? Hnow Hrest]; subst. unfold reserve.
  rewrite (proj2 (Z.ltb_lt now (lim_expires row)) Hnow). cbn [negb]. destruct (Z.leb_spec limit (lim_attempts row)).
  - rewrite (proj2 (Z.leb_gt (limit + 1) limit)) by lia. specialize (IH row Hrow Hrest). lia.
  - rewrite (proj2 (Z.leb_le (lim_attempts row + 1) limit)) by lia. specialize (IH (mkLimitRow (lim_attempts row + 1) (lim_expires row))). cbn [lim_attempts lim_expires] in IH.
    specialize (IH ltac:(lia) Hrest). lia.
Qed.

Lemma granted_over limit window a row nows : 0 <= lim_attempts row <= limit -> Forall (fun now => a <= now < a + window) nows ->
  granted_attempts limit window (Some row) nows <= limit - lim_attempts row + limit.
Proof.
  revert row. induction nows as [|now nows IH]; intros row Hrow Hall; cbn [granted_attempts]; [lia|]. inversion Hall as [|? ? Hnow Hrest]; subst. unfold reserve.
  destruct (Z.ltb_spec now (lim_expires row)) as [Hin|Hout]; cbn [negb].
  - destruct (Z.leb_spec limit (lim_attempts row)).
    + rewrite (proj2 (Z.leb_gt (limit + 1) limit)) by lia. specialize (IH row Hrow Hrest). lia.
    + rewrite (proj2 (Z.leb_le (lim_attempts row + 1) limit)) by lia. specialize (IH (mkLimitRow (lim_attempts row + 1) (lim_expires row))). cbn [lim_attempts] in IH.
      specialize (IH ltac:(lia) Hrest). lia.
  - cbn [lim_attempts lim_expires]. assert (forall n, Forall (fun x => x < lim_expires (mkLimitRow n (now + window))) nows) as Hall' by (intros n; eapply Forall_impl; [exact Hrest|]; cbn; lia).
    destruct (Z.leb_spec limit 0).
    + rewrite (proj2 (Z.leb_gt (limit + 1) limit)) by lia. pose proof (granted_within limit window (mkLimitRow 0 (now + window)) nows ltac:(cbn; lia) (Hall' 0)) as Hw. cbn [lim_attempts] in Hw. lia.
    + rewrite (proj2 (Z.leb_le (0 + 1) limit)) by lia. pose proof (granted_within limit window (mkLimitRow (0 + 1) (now + window)) nows ltac:(cbn; lia) (Hall' (0 + 1))) as Hw. cbn [lim_attempts] in Hw. lia.
Qed.


(** ** A run *)

Definition sample_sec_config : SecConfig :=
  mkSecConfig (bytes_of "key") (bytes_of "https://example.com") (mkConfig (600 * Second) (3600 * Second) (7200 * Second) (60 * Second)) 3.

(** Everything is available and the clock stands; call [n] of a transaction draws
    random bytes of the given size, all different. *)
Definition sample_bytes (base : Z) (size : nat) : bytes := (fun k => (base + Z.of_nat k) `mod` 256) <$> seq 0 size.
Definition sample_unit (base : Z) (sizes : list (nat * nat)) (n : nat) : uworld :=
  mkUWorld None (1000 * Second) ((fun x => sample_bytes (base + Z.of_nat n) x.2.2) <$> list_find (fun x => x.1 = n) sizes) (Some 123456) (Some (bytes_of "digest")) (Some (true, false)).
Definition sample_sworld (base : Z) (sizes : list (nat * nat)) : sworld :=
  mkSWorld Healthy (sample_unit base sizes) (mkWorld Healthy (1000 * Second) None (Err ErrOther)) (Some (bytes_of "event")).

Definition sample_email : bytes := bytes_of "a@example.com".
Definition sample_password : bytes := bytes_of "Secret-password-1".

(** An account registers in a browser, which confirms the link and is signed in; the
    password is reset with a second link. *)
Definition sample_reset_before : list sec_event :=
  [ Start (SReqRegister sample_email sample_password true);
    Call 0 (sample_sworld 1 [(0%nat, 32%nat)]); Call 0 (sample_sworld 0 []); Call 0 (sample_sworld 20 [(0%nat, 16%nat)]); Call 0 (sample_sworld 0 []);
    Call 0 (sample_sworld 40 [(0%nat, 16%nat)]); Call 0 (sample_sworld 60 [(0%nat, 32%nat)]); Call 0 (sample_sworld 80 [(0%nat, 16%nat)]);
    Call 0 (sample_sworld 0 []); Call 0 (sample_sworld 0 []);
    Start (SReqConfirmRegistration (token (sample_bytes 40 16) (base64_Encode (sample_bytes 60 32))) (base64_Encode (sample_bytes 1 32)));
    Call 1 (sample_sworld 0 []); Call 1 (sample_sworld 100 [(7%nat, 16%nat); (9%nat, 64%nat); (11%nat, 16%nat)]);
    Call 1 (sample_sworld 0 []); Call 1 (sample_sworld 0 []); Call 1 (sample_sworld 0 []); Call 1 (sample_sworld 0 []);
    Start (SReqRequestToken sample_email ResetPassword_); Call 2 (sample_sworld 140 [(2%nat, 16%nat); (3%nat, 32%nat); (4%nat, 16%nat)]);
    Start (SReqResetPassword (token (sample_bytes 142 16) (base64_Encode (sample_bytes 143 32))) (bytes_of "Another-password-2"));
    Call 3 (sample_sworld 0 []) ].
Definition sample_reset : sworld := sample_sworld 180 [(12%nat, 16%nat)].
#[local] Existing Instance ascii_tables.

Definition sample_link : bytes := token (sample_bytes 142 16) (base64_Encode (sample_bytes 143 32)).
Definition sample_new_session : session_id := sample_bytes 107 16.

(** The browser was signed in, and the second link resets the password. *)
Definition sample_checks (s s' : sec_system) : bool :=
  bool_decide (is_Some (sessions (sd_auth (sys_db s)) !! sample_new_session)) &&
  match sys_threads s' !! 3%nat with
  | Some (mkThread (SReqResetPassword value _) (Ret (SecAnswer (Ok _))) _) => bool_decide (value = sample_link)
  | _ => false
  end.

Lemma sample_security_run : exists s s' r raw v t, sec_run sample_sec_config sec_start sample_reset_before = Some s /\
  sessions (sd_auth (sys_db s)) !! sample_new_session = Some r /\ sec_run sample_sec_config s [Call 3 sample_reset] = Some s' /\
  sys_threads s' !! 3%nat = Some (mkThread (SReqResetPassword sample_link raw) (Ret (SecAnswer (Ok v))) t).
Proof.
  assert ((s ← sec_run sample_sec_config sec_start sample_reset_before; s' ← sec_run sample_sec_config s [Call 3 sample_reset]; Some (sample_checks s s')) = Some true) as Hs by (vm_compute; reflexivity).
  destruct (sec_run sample_sec_config sec_start sample_reset_before) as [s|]; [|done]. cbn [mbind option_bind] in Hs.
  destruct (sec_run sample_sec_config s [Call 3 sample_reset]) as [s'|] eqn:Hafter; [|done]. cbn [mbind option_bind] in Hs. injection Hs as Hs. unfold sample_checks in Hs.
  apply andb_true_iff in Hs as [[r Hr]%bool_decide_eq_true Hs]. destruct (sys_threads s' !! 3%nat) as [[q p t]|] eqn:Hth; [|done]. destruct q; try done.
  destruct p as [a|]; [|done]. destruct a as [[v| |]|]; try done. apply bool_decide_eq_true in Hs as ->. by exists s, s', r, raw, v, t.
Qed.

Lemma accounts_stay_consistent_witness : exists s, sec_run sample_sec_config sec_start sample_reset_before = Some s /\ sec_rows None (sys_db s).
Proof.
  destruct sample_security_run as (s & _ & _ & _ & _ & _ & Hrun & _). exists s. split; [exact Hrun|]. exact (accounts_stay_consistent sample_sec_config sample_reset_before s Hrun).
Defined.

Lemma sessions_are_earned_witness : exists s ut subject, sec_run sample_sec_config sec_start sample_reset_before = Some s /\ in_history (traces s) ut /\ created ut sample_new_session subject.
Proof.
  destruct sample_security_run as (s & _ & r & _ & _ & _ & Hrun & Hr & _).
  destruct (sessions_are_earned sample_sec_config sample_reset_before s sample_new_session r Hrun Hr) as (ut & Hu & Hc & _). exists s, ut, (SubjectID (sr_record r)). split; [exact Hrun|]. split; [exact Hu|exact Hc].
Defined.

Lemma challenges_are_single_use_witness : exists s, sec_run sample_sec_config sec_start (sample_reset_before ++ [Call 3 sample_reset]) = Some s /\ 3%nat = 3%nat.
Proof.
  destruct sample_security_run as (s & s' & r & raw & v & t & Hrun & _ & Hrun' & Hth). exists s'.
  assert (sec_run sample_sec_config sec_start (sample_reset_before ++ [Call 3 sample_reset]) = Some s') as Hall by (unfold sec_run in *; rewrite sys_run_app, Hrun; exact Hrun').
  split; [exact Hall|]. apply (challenges_are_single_use sample_sec_config (sample_reset_before ++ [Call 3 sample_reset]) s' 3 3
    (mkThread (SReqResetPassword sample_link raw) (Ret (SecAnswer (Ok v))) t) (mkThread (SReqResetPassword sample_link raw) (Ret (SecAnswer (Ok v))) t) (sample_bytes 142 16) v v Hall Hth Hth);
    first [reflexivity|vm_compute; reflexivity].
Defined.

Lemma credential_changes_sign_out_witness : exists s s' subject, sec_run sample_sec_config s [Call 3 sample_reset] = Some s' /\
  (forall id r, sessions (sd_auth (sys_db s')) !! id = Some r -> SubjectID (sr_record r) = subject -> revoked_now (sd_auth (sys_db s')) id).
Proof.
  destruct sample_security_run as (s & s' & r & raw & v & t & Hrun & _ & Hrun' & Hth).
  destruct (credential_changes_sign_out sample_sec_config sample_reset_before [] s s' s' 3 sample_reset (mkThread (SReqResetPassword sample_link raw) (Ret (SecAnswer (Ok v))) t) v
    Hrun Hrun' Hth eq_refl eq_refl eq_refl) as (subject & _ & Hout & _). exists s, s', subject. split; [exact Hrun'|exact Hout].
Defined.


(** ** A code that cannot be replaced *)

(** The third wrong guess when no more codes may be mailed: the code is not replaced,
    and the guess is not counted. *)
Definition sample_account : Account := mkAccount (sample_bytes 20 16) sample_email (bytes_of "digest") true true 1 None None.
Definition sample_code : Challenge :=
  mkChallenge (sample_bytes 40 16) (sample_bytes 20 16) LoginCode (replicate 32 1) no_digest 1 [] (1500 * Second) (900 * Second) 2 1 None.
Definition sample_guess_db : sec_db :=
  let budget := sec_digest sample_sec_config "code-mail-budget" (ch_Subject sample_code) (bytes_of (purpose_string LoginCode)) in
  mkSecDb (mkAuthDb ∅ [] [] ∅) ∅ ∅ {[ch_ID sample_code := sample_code]} {[budget := mkLimitRow 5 (2000 * Second)]} ∅ ∅ ∅.
Definition sample_guess : tx_state * utrace * reply_of unit :=
  tx_exec (sample_unit 0 []) 0 (mkTx sample_guess_db (Some sample_account)) [] (checkCode sample_sec_config sample_code LoginCode (bytes_of "000000")).

Example uncounted_guess : sample_guess.2 = Err (Failed RateLimited) /\ challenges (tx_db sample_guess.1.1) !! ch_ID sample_code = Some sample_code.
Proof. vm_compute. split; reflexivity. Qed.
