(* ===== verification/UserDomain.v ===== *)
(** * User: profiles, address books, settings and avatars

    [services/user/internal/domain] and [application/identity]: the values that the
    user service stores and how it normalizes what it is given.  Strings are byte
    strings; the clock enters as the text of the current day in UTC. *)

From S2P Require Import Prelude GoStrings GoUnicode GoText.
Local Open Scope Z_scope.

(** The errors of the service; [safeError] of a repository keeps its cause. *)
Inductive user_error :=
| ErrInvalidProfile | ErrNotReady | ErrProfileConflict
| ErrInvalidAddress | ErrNotFound | ErrLimit | ErrAddressConflict
| ErrInvalidSettings | ErrSettingsConflict
| ErrInvalidAvatar | ErrAvatarConflict | ErrAvatarUnavailable
| ErrUnauthenticated | ErrForbidden
| ErrInvalidEvent | ErrEventConflict
(** stored values that do not decode, and failures of other parties *)
| ErrStored | ErrStorage | ErrCanceled | ErrDeadline.
#[export] Instance user_error_eq_dec : EqDecision user_error.
Proof. solve_decision. Defined.

Definition MaxInt64 : Z := 9223372036854775807.
Definition zero16 : bytes := replicate 16 0.

Definition NewSubjectID (raw : bytes) : result user_error bytes :=
  reject_if (negb (len raw =? 16) || bool_decide (raw = zero16)) ErrInvalidProfile;; Ok raw.

Record Principal := mkPrincipal {
  SessionID : bytes;
  p_Subject : bytes;
  CanRead : bool;
  CanWrite : bool;
  CanReadAddresses : bool;
  CanWriteAddresses : bool;
  CanReadSettings : bool;
  CanWriteSettings : bool
}.

(** ** Profiles *)

Record Fields := mkFields {
  DisplayName : bytes;
  Bio : bytes;
  LastName : bytes;
  BirthDate : bytes;
  Gender : Z;
  Phone : bytes;
  City : bytes;
  ShowAge : bool
}.
#[export] Instance Fields_eq_dec : EqDecision Fields.
Proof. solve_decision. Defined.

Definition digit (c : Z) : bool := between 48 c 57.
Definition number (l : bytes) : Z := fold_left (fun n c => n * 10 + (c - 48)) l 0.
Definition dash : Z := 45.

Definition leap (y : Z) : bool := (y `mod` 4 =? 0) && (negb (y `mod` 100 =? 0) || (y `mod` 400 =? 0)).
Definition daysIn (m y : Z) : Z :=
  if m =? 2 then if leap y then 29 else 28 else if bool_decide (m ∈ [4; 6; 9; 11]) then 30 else 31.

(** [time.Parse(time.DateOnly, value)] for a value of ten bytes that is formatted
    back to itself: year, month and day. *)
Definition parse_date (l : bytes) : option (Z * Z * Z) :=
  match l with
  | [a; b; c; d; s1; e; f; s2; g; h] =>
      let y := number [a; b; c; d] in let m := number [e; f] in let day := number [g; h] in
      if forallb digit [a; b; c; d; e; f; g; h] && (s1 =? dash) && (s2 =? dash) && between 1 m 12 && between 1 day (daysIn m y)
      then Some (y, m, day) else None
  | _ => None
  end.

Definition valid_date (l today : bytes) : bool :=
  match parse_date l with
  | Some (y, _, _) => (1 <=? y) && negb (bytes_before today l)
  | None => false
  end.

(** A line of text of at most [limit] code points. *)
Definition normalize_line (e : user_error) (limit : Z) (raw : bytes) : result user_error bytes :=
  reject_if ((limit * 4 <? len raw) || negb (utf8_Valid raw) || existsb IsControl (runes raw)) e;;
  reject_if (limit <? utf8_RuneCount (TrimSpace raw)) e;;
  Ok (TrimSpace raw).

(** [strings.ContainsRune(" +-.()", r)] *)
Definition phone_sign (r : Z) : bool := bool_decide (r ∈ bytes_of " +-.()").
Definition phone_runes (raw : bytes) : bool := forallb (fun r => digit r || phone_sign r) (runes raw).
Definition phone_digits (raw : bytes) : Z := len (List.filter digit (runes raw)).

Definition multiline_control (r : Z) : bool := IsControl r && negb (bool_decide (r ∈ [10; 9])).

Definition NormalizeFields (f : Fields) (today : bytes) : result user_error Fields :=
  name ← normalize_line ErrInvalidProfile 80 (DisplayName f);
  last ← normalize_line ErrInvalidProfile 80 (LastName f);
  city ← normalize_line ErrInvalidProfile 120 (City f);
  reject_if ((4000 <? len (Bio f)) || negb (utf8_Valid (Bio f)) || (1000 <? utf8_RuneCount (Bio f))) ErrInvalidProfile;;
  reject_if (existsb multiline_control (runes (Bio f))) ErrInvalidProfile;;
  reject_if ((Gender f <? 0) || (2 <? Gender f)) ErrInvalidProfile;;
  reject_if (negb (bool_decide (BirthDate f = [])) && (negb (len (BirthDate f) =? 10) || negb (valid_date (BirthDate f) today))) ErrInvalidProfile;;
  reject_if (32 <? len (Phone f)) ErrInvalidProfile;;
  reject_if (negb (phone_runes (Phone f))) ErrInvalidProfile;;
  let phone := TrimSpace (Phone f) in
  let digits := phone_digits (Phone f) in
  reject_if (negb (bool_decide (phone = [])) && ((digits <? 7) || (15 <? digits))) ErrInvalidProfile;;
  Ok (mkFields name (Bio f) last (BirthDate f) (Gender f) phone city (ShowAge f)).

Record Profile := mkProfile { pr_Subject : bytes; pr_Fields : Fields; pr_Version : Z; pr_CreatedAt : Z; pr_UpdatedAt : Z }.

(** ** Addresses *)

Definition MaxAddresses : Z := 20.

Record AddressFields := mkAddressFields {
  Recipient : bytes;
  ad_Phone : bytes;
  Country : bytes;
  PostalCode : bytes;
  ad_City : bytes;
  StreetHouse : bytes;
  Apartment : bytes;
  Comment : bytes
}.
#[export] Instance AddressFields_eq_dec : EqDecision AddressFields.
Proof. solve_decision. Defined.

(** One field of [NewFields]. *)
Definition address_field (limit : Z) (required multiline phone : bool) (raw : bytes) : result user_error bytes :=
  reject_if (phone && negb (phone_runes raw)) ErrInvalidAddress;;
  reject_if (((if phone then 32 else limit * 4) <? len raw) || negb (utf8_Valid raw)) ErrInvalidAddress;;
  reject_if (existsb (if multiline then multiline_control else IsControl) (runes raw)) ErrInvalidAddress;;
  reject_if ((limit <? utf8_RuneCount (TrimSpace raw)) || required && bool_decide (TrimSpace raw = [])) ErrInvalidAddress;;
  Ok (TrimSpace raw).

Definition NewFields (f : AddressFields) : result user_error AddressFields :=
  recipient ← address_field 120 true false false (Recipient f);
  phone ← address_field 32 true false true (ad_Phone f);
  country ← address_field 80 true false false (Country f);
  postal ← address_field 20 false false false (PostalCode f);
  city ← address_field 120 true false false (ad_City f);
  street ← address_field 240 true false false (StreetHouse f);
  apartment ← address_field 40 false false false (Apartment f);
  comment ← address_field 500 false true false (Comment f);
  reject_if (negb (phone_runes phone)) ErrInvalidAddress;;
  reject_if ((phone_digits phone <? 7) || (15 <? phone_digits phone)) ErrInvalidAddress;;
  Ok (mkAddressFields recipient phone country postal city street apartment comment).

Definition ValidVersion (v : Z) : bool := (0 <? v) && (v <? MaxInt64).

Record Address := mkAddress { ad_ID : bytes; ad_Fields : AddressFields; IsDefault : bool }.
Record Book := mkBook { bk_Subject : bytes; bk_Version : Z; Addresses : list Address }.

(** The loop of [Book.Validate]; [seen] are the identifiers so far. *)
Fixpoint validate_addresses (seen : list bytes) (defaults : Z) (l : list Address) : result user_error Z :=
  match l with
  | [] => Ok defaults
  | a :: l =>
      match NewFields (ad_Fields a) with
      | Ok f =>
          reject_if (negb (bool_decide (f = ad_Fields a)) || bool_decide (ad_ID a = zero16) || bool_decide (ad_ID a ∈ seen)) ErrInvalidAddress;;
          validate_addresses (ad_ID a :: seen) (if IsDefault a then defaults + 1 else defaults) l
      | _ => Err ErrInvalidAddress
      end
  end.

Definition Book_Validate (b : Book) : result user_error unit :=
  reject_if (bool_decide (bk_Subject b = zero16) || (bk_Version b =? 0) || (MaxInt64 <? bk_Version b) || (MaxAddresses <? len (Addresses b))) ErrInvalidAddress;;
  defaults ← validate_addresses [] 0 (Addresses b);
  reject_if (1 <? defaults) ErrInvalidAddress.

(** ** Settings and avatars *)

Inductive Theme := System | Light | Dark.
#[export] Instance Theme_eq_dec : EqDecision Theme.
Proof. solve_decision. Defined.
(** [Theme.Valid]: the stored text of a theme *)
Definition theme_string (t : Theme) : bytes := bytes_of (match t with System => "system" | Light => "light" | Dark => "dark" end).
Definition theme_of (s : bytes) : option Theme :=
  if bool_decide (s = theme_string System) then Some System else
  if bool_decide (s = theme_string Light) then Some Light else
  if bool_decide (s = theme_string Dark) then Some Dark else None.
Definition Theme_Valid (s : bytes) : bool := bool_decide (is_Some (theme_of s)).

Record Settings := mkSettings { st_Subject : bytes; st_Version : Z; st_Theme : bytes }.
Definition Settings_Validate (s : Settings) : result user_error unit :=
  reject_if (bool_decide (st_Subject s = zero16) || (st_Version s =? 0) || (MaxInt64 <? st_Version s) || negb (Theme_Valid (st_Theme s))) ErrInvalidSettings.

(** [FileID]: zero denotes no selected avatar *)
Definition ParseFileID (raw : bytes) : result user_error bytes :=
  reject_if (negb (len raw =? 16) || bool_decide (raw = zero16)) ErrInvalidAvatar;; Ok raw.
Record Avatar := mkAvatar { av_Subject : bytes; av_Version : Z; FileID : bytes }.

(** ** Normal forms *)

Lemma bytes_before_irrefl a : bytes_before a a = false.
Proof. induction a as [|x a IH]; [done|]. cbn. rewrite IH, Z.ltb_irrefl, andb_false_r. done. Qed.

Lemma bytes_before_trans a b c : bytes_before b a = false -> bytes_before c b = false -> bytes_before c a = false.
Proof.
  revert b c. induction a as [|x a IH]; intros b c Hab Hbc; [by destruct c|].
  destruct b as [|y b], c as [|z c]; cbn [bytes_before] in *; try done.
  apply orb_false_iff in Hab as [H1 H2], Hbc as [H3 H4]. apply orb_false_iff. split; [lia|].
  destruct (Z.eqb_spec z x) as [->|]; [|done]. assert (y = x) as -> by lia. rewrite Z.eqb_refl in *. cbn [andb] in *. by eapply IH.
Qed.

(** A filtered count over a text ignores trimmed spaces. *)
Lemma existsb_app_false {A} (p : A -> bool) a b : existsb p (a ++ b) = false -> existsb p a = false /\ existsb p b = false.
Proof. rewrite existsb_app. by apply orb_false_iff. Qed.

(** What passes a check on every code point passes it after trimming. *)
Lemma trimmed_runes (p : Z -> bool) raw : utf8_Valid raw = true -> existsb p (runes raw) = false ->
  utf8_Valid (TrimSpace raw) = true /\ existsb p (runes (TrimSpace raw)) = false.
Proof.
  intros Hv%utf8_Valid_text Hp. destruct (TrimSpace_text raw Hv) as (a & b & He & [Ta _] & [Tb _] & Tt). split; [by apply utf8_Valid_text|].
  rewrite He, !runes_app in Hp by (done || by apply text_app). apply existsb_app_false in Hp as [_ Hp]. by apply existsb_app_false in Hp as [Hp _].
Qed.

Lemma trimmed_len raw n : (n <? len raw) = false -> (n <? len (TrimSpace raw)) = false.
Proof. pose proof (TrimSpace_length raw). unfold len. lia. Qed.

Lemma normalize_line_Ok e limit raw v : normalize_line e limit raw = Ok v -> normalize_line e limit v = Ok v.
Proof.
  unfold normalize_line. rewrite !guard_Ok, !orb_false_iff, negb_false_iff. intros (((Hl & Hv) & Hc) & Hn & [= <-]).
  destruct (trimmed_runes IsControl raw Hv Hc) as [Hv' Hr']. rewrite TrimSpace_idempotent, Hv', Hr', trimmed_len by done. by rewrite Hn.
Qed.

(** The code points of a telephone number are ASCII. *)
Lemma phone_rune_ascii r : digit r || phone_sign r = true -> 0 <= r < 128.
Proof.
  intros [Hr|Hr]%orb_true_iff; [unfold digit, between in Hr; lia|]. unfold phone_sign in Hr. apply bool_decide_eq_true in Hr. revert Hr. cbn.
  rewrite !elem_of_cons, elem_of_nil. lia.
Qed.

Lemma phone_text raw : phone_runes raw = true -> runes raw = raw /\ text raw.
Proof.
  intros Hp. unfold phone_runes in Hp. rewrite forallb_forall in Hp. assert (ascii (runes raw)) as Ha by (apply Forall_forall; intros r Hr%list_elem_of_In; apply phone_rune_ascii; by apply Hp).
  assert (runes raw = raw) as Hraw by (apply runes_low; eapply Forall_impl; [exact Ha|]; cbn; lia). split; [done|]. rewrite Hraw in Ha. clear Hp Hraw.
  induction Ha as [|x l Hx _ IH]; [constructor|]. change (x :: l) with ([x] ++ l). constructor; [|done]. unfold rune_bytes, decode_rune. rewrite (proj2 (Z.ltb_lt x 128)) by lia.
  cbn. apply negb_true_iff, andb_false_iff. left. unfold RuneError. lia.
Qed.

(** Trimming keeps the characters and digits of a telephone number. *)
Lemma phone_trimmed raw : phone_runes raw = true -> phone_runes (TrimSpace raw) = true /\ phone_digits (TrimSpace raw) = phone_digits raw.
Proof.
  intros Hp. destruct (phone_text raw Hp) as [_ Ht]. destruct (TrimSpace_text raw Ht) as (a & b & He & [Ta Sa] & [Tb Sb] & Tt).
  assert (forall l, Forall (fun r => IsSpace r = true) l -> List.filter digit l = []) as Hno.
  { intros l Hl. induction Hl as [|r l Hr _ IH]; [done|]. cbn [List.filter]. destruct (digit r) eqn:Hd; [|done]. exfalso. unfold IsSpace, digit, between in *.
    apply orb_true_iff in Hr as [Hr|Hr]; [|lia]. apply orb_true_iff in Hr as [Hr|Hr]; [lia|]. apply bool_decide_eq_true in Hr. rewrite !elem_of_cons, elem_of_nil in Hr. lia. }
  assert (runes raw = runes a ++ runes (TrimSpace raw) ++ runes b) as Hr by (rewrite He at 1; by rewrite !runes_app).
  unfold phone_runes, phone_digits in *. rewrite Hr in *. rewrite !forallb_app in Hp. go_bool. split; [done|]. by rewrite !List.filter_app, (Hno (runes a)), (Hno (runes b)), app_nil_r.
Qed.

(** What the service stores it can read: normalizing a normalized profile yields
    the same profile, on the same or any later day. *)
Theorem normalized_profiles_are_stable (f g : Fields) (today later : bytes) :
  NormalizeFields f today = Ok g -> bytes_before later today = false -> NormalizeFields g later = Ok g.
Proof.
  intros Hn Hle. unfold NormalizeFields in *.
  destruct (normalize_line _ 80 (DisplayName f)) as [name| |] eqn:Hname; try done. cbn [mbind result_bind] in Hn.
  destruct (normalize_line _ 80 (LastName f)) as [last| |] eqn:Hlast; try done. cbn [mbind result_bind] in Hn.
  destruct (normalize_line _ 120 (City f)) as [city| |] eqn:Hcity; try done. cbn [mbind result_bind] in Hn.
  rewrite !guard_Ok in Hn. destruct Hn as (Hbio & Hctl & Hgen & Hbirth & Hlen & Hrunes & Hdig & [= <-]).
  cbn [DisplayName LastName City Bio Gender BirthDate Phone ShowAge]. rewrite (normalize_line_Ok _ _ _ _ Hname), (normalize_line_Ok _ _ _ _ Hlast), (normalize_line_Ok _ _ _ _ Hcity). cbn [mbind result_bind].
  apply negb_false_iff in Hrunes. destruct (phone_trimmed _ Hrunes) as [Hr Hd]. rewrite Hbio, Hctl, Hgen, (trimmed_len _ _ Hlen), Hr, Hd, TrimSpace_idempotent, Hdig. cbn [negb].
  rewrite !guard_Ok. split_and!; try done. destruct (bool_decide (BirthDate f = [])) eqn:Hb; [done|]. cbn [negb andb] in *. apply orb_false_iff in Hbirth as [-> Hv%negb_false_iff]. cbn [orb].
  apply negb_false_iff. unfold valid_date in *. destruct (parse_date (BirthDate f)) as [[[y m] d]|]; [|done]. apply andb_true_iff in Hv as [-> Hv%negb_true_iff]. cbn [andb].
  apply negb_true_iff. by eapply bytes_before_trans.
Qed.

Lemma address_field_Ok limit required multiline phone raw v : address_field limit required multiline phone raw = Ok v ->
  address_field limit required multiline phone v = Ok v /\ (phone = true -> phone_runes v = true).
Proof.
  unfold address_field. rewrite !guard_Ok, !orb_false_iff, negb_false_iff. intros (Hp & (Hl & Hv) & Hc & (Hn & Hreq) & [= <-]).
  destruct (trimmed_runes _ raw Hv Hc) as [Hv' Hr']. assert (phone = true -> phone_runes (TrimSpace raw) = true) as Hph.
  { intros ->. cbn [andb] in Hp. apply negb_false_iff in Hp. by apply phone_trimmed. }
  split; [|done]. rewrite TrimSpace_idempotent, Hv', Hr', trimmed_len, Hn, Hreq by done. split_and!; try done.
  destruct phone; [|done]. by rewrite Hph.
Qed.

(** The same for addresses. *)
Lemma NewFields_Ok f g : NewFields f = Ok g -> NewFields g = Ok g.
Proof.
  unfold NewFields. intros Hn.
  destruct (address_field 120 true false false (Recipient f)) as [recipient| |] eqn:H1; try done. cbn [mbind result_bind] in Hn.
  destruct (address_field 32 true false true (ad_Phone f)) as [phone| |] eqn:H2; try done. cbn [mbind result_bind] in Hn.
  destruct (address_field 80 true false false (Country f)) as [country| |] eqn:H3; try done. cbn [mbind result_bind] in Hn.
  destruct (address_field 20 false false false (PostalCode f)) as [postal| |] eqn:H4; try done. cbn [mbind result_bind] in Hn.
  destruct (address_field 120 true false false (ad_City f)) as [city| |] eqn:H5; try done. cbn [mbind result_bind] in Hn.
  destruct (address_field 240 true false false (StreetHouse f)) as [street| |] eqn:H6; try done. cbn [mbind result_bind] in Hn.
  destruct (address_field 40 false false false (Apartment f)) as [apartment| |] eqn:H7; try done. cbn [mbind result_bind] in Hn.
  destruct (address_field 500 false true false (Comment f)) as [comment| |] eqn:H8; try done. cbn [mbind result_bind] in Hn.
  rewrite !guard_Ok in Hn. destruct Hn as (Hr & Hd & [= <-]). cbn [Recipient ad_Phone Country PostalCode ad_City StreetHouse Apartment Comment].
  apply address_field_Ok in H1 as [-> _], H2 as [-> _], H3 as [-> _], H4 as [-> _], H5 as [-> _], H6 as [-> _], H7 as [-> _], H8 as [-> _]. cbn [mbind result_bind].
  by rewrite Hr, Hd.
Qed.

(** [Book.Validate] accepts exactly the books with an owner, a version, at most
    twenty normalized addresses of different identifiers, and at most one default. *)
Definition address_ok (a : Address) : Prop := NewFields (ad_Fields a) = Ok (ad_Fields a) /\ ad_ID a <> zero16.
Definition defaults_of (l : list Address) : Z := len (List.filter IsDefault l).
Record book_wf (b : Book) : Prop := mkBookWf {
  bw_subject : bk_Subject b <> zero16;
  bw_version : 0 < bk_Version b <= MaxInt64;
  bw_addresses : Forall address_ok (Addresses b);
  bw_ids : NoDup (ad_ID <$> Addresses b);
  bw_limit : len (Addresses b) <= MaxAddresses;
  bw_default : defaults_of (Addresses b) <= 1
}.

Lemma validate_addresses_Ok seen n l k : validate_addresses seen n l = Ok k <->
  Forall address_ok l /\ NoDup (ad_ID <$> l) /\ (forall a, a ∈ l -> ad_ID a ∉ seen) /\ k = n + defaults_of l.
Proof.
  revert seen n. induction l as [|a l IH]; intros seen n; cbn [validate_addresses].
  - rewrite Ok_eq. unfold defaults_of, len. cbn. split; [intros <-; split_and!; [apply Forall_nil_2|apply NoDup_nil_2|by intros ? ?%elem_of_nil|lia]|]. intros (_ & _ & _ & ->). lia.
  - rewrite Forall_cons, fmap_cons, NoDup_cons. unfold address_ok at 1. split.
    + destruct (NewFields (ad_Fields a)) as [f| |] eqn:Hf; try done. rewrite guard_Ok, IH. intros (Hg & Hl & Hnd & Hseen & ->).
      rewrite !orb_false_iff, negb_false_iff, bool_decide_eq_true, !bool_decide_eq_false in Hg. destruct Hg as ((-> & Hz) & Hns). split_and!; try done.
      * intros (b & Hb & Hin)%list_elem_of_fmap. apply (Hseen b Hin). rewrite <- Hb. by left.
      * intros b [->|Hin]%elem_of_cons; [done|]. intros Hs. apply (Hseen b Hin). by right.
      * unfold defaults_of. cbn [List.filter]. destruct (IsDefault a); unfold len; cbn [length]; lia.
    + intros (((Hf & Hz) & Hl) & (Hnin & Hnd) & Hseen & ->). rewrite Hf. cbn beta iota. rewrite guard_Ok, IH. rewrite bool_decide_eq_true_2, !bool_decide_eq_false_2 by (done || apply Hseen; by left). split_and!; try done.
      * intros b Hin [He|Hs]%elem_of_cons; [|apply (Hseen b); [by right|done]]. apply Hnin. rewrite <- He. by apply list_elem_of_fmap_2.
      * unfold defaults_of. cbn [List.filter]. destruct (IsDefault a); unfold len; cbn [length]; lia.
Qed.

(** The version is unsigned. *)
Lemma Book_Validate_Ok b : 0 <= bk_Version b -> Book_Validate b = Ok tt <-> book_wf b.
Proof.
  intros Hunsigned. unfold Book_Validate. rewrite guard_Ok, !orb_false_iff, bool_decide_eq_false. split.
  - intros ((((Hs & Hv) & Hm) & Hl) & Hd). apply Z.eqb_neq in Hv. destruct (validate_addresses [] 0 (Addresses b)) as [k| |] eqn:Hk; try done. cbn [mbind result_bind] in Hd. apply reject_if_Ok in Hd.
    apply validate_addresses_Ok in Hk as (Hok & Hnd & _ & ->). split; try done; [|lia|lia]. lia.
  - intros [H1 H2 H3 H4 H5 H6]. split; [split_and!; [done|lia|lia|lia]|].
    destruct (validate_addresses [] 0 (Addresses b)) as [k| |] eqn:Hk.
    + cbn [mbind result_bind]. apply validate_addresses_Ok in Hk as (_ & _ & _ & ->). apply reject_if_Ok. lia.
    + exfalso. assert (validate_addresses [] 0 (Addresses b) = Ok (0 + defaults_of (Addresses b))); [|congruence]. apply validate_addresses_Ok. split_and!; try done. by intros ? _ ?%elem_of_nil.
    + exfalso. assert (validate_addresses [] 0 (Addresses b) = Ok (0 + defaults_of (Addresses b))); [|congruence]. apply validate_addresses_Ok. split_and!; try done. by intros ? _ ?%elem_of_nil.
Qed.
