(* ===== verification/RegistrationWire.v ===== *)
(** * Registration events on the wire

    The two packages named [registrationwire], of auth and of user, which are the same
    code, with the events of [domain/registrationevent] and the factory of
    [adapter/out/registrationevent].  Protobuf is the class [EventCodec], which
    [EventLaws] says is a codec of bounded size; RegistrationCodec has an instance. *)

From S2P Require Import Prelude GoUnicode UserDomain.
Local Open Scope Z_scope.

(** ** Events *)

Definition event_type_v1 : bytes := bytes_of "auth.account.registered.v1".
Definition producer_auth : bytes := bytes_of "auth".

(** [OccurredAt] is in nanoseconds since 1970. *)
Record Event := mkEvent { ev_ID : bytes; ev_Subject : bytes; OccurredAt : Z; TraceID : bytes; CausationID : bytes }.
#[export] Instance Event_eq_dec : EqDecision Event.
Proof. solve_decision. Defined.

(** the first of January of the year 1 *)
Definition zero_time : Z := - 62135596800 * 1000000000.

Definition Event_Validate (e : Event) : result user_error unit :=
  reject_if (bool_decide (ev_ID e = zero16) || bool_decide (ev_Subject e = zero16) || (OccurredAt e =? zero_time) || (i64 (OccurredAt e) <=? 0) ||
    negb (i64 (OccurredAt e) =? OccurredAt e) || negb (OccurredAt e mod 1000000000 mod 1000 =? 0)) ErrInvalidEvent.

(** ** The message *)

Record AccountRegisteredEvent := mkAccountRegisteredEvent {
  EventId : bytes;
  EventType : bytes;
  re_SchemaVersion : Z;
  OccurredAtUnixNano : Z;
  re_Producer : bytes;
  TraceId : bytes;
  CausationId : bytes;
  re_SubjectId : bytes;
  re_unknown : bytes
}.

Class EventCodec := {
  proto_Marshal : AccountRegisteredEvent -> bytes;
  proto_Unmarshal : bytes -> option AccountRegisteredEvent
}.

(** The scalars of a message are within their types, its strings are text, and it has
    no unknown fields. *)
Definition message_ok (m : AccountRegisteredEvent) : Prop :=
  0 <= re_SchemaVersion m < 2 ^ 32 /\ - 2 ^ 63 <= OccurredAtUnixNano m < 2 ^ 63 /\ re_unknown m = [] /\
  utf8_Valid (EventType m) = true /\ utf8_Valid (re_Producer m) = true /\
  Forall (fun b => len b < 2 ^ 31) [EventId m; EventType m; re_Producer m; TraceId m; CausationId m; re_SubjectId m].
Definition message_bytes (m : AccountRegisteredEvent) : Z :=
  len (EventId m) + len (EventType m) + len (re_Producer m) + len (TraceId m) + len (CausationId m) + len (re_SubjectId m).

Class EventLaws `{EventCodec} : Prop := {
  codec_round_trip m : message_ok m -> proto_Unmarshal (proto_Marshal m) = Some m;
  (** a tag and a length or a number take at most ten bytes each *)
  codec_size m : message_ok m -> EventId m <> [] -> 0 < len (proto_Marshal m) <= 160 + message_bytes m
}.

Definition MaxPayloadBytes : Z := 8192.

Section wire.
Context `{EventCodec}.

Definition optional_id (b : bytes) : bytes := if bool_decide (b = zero16) then [] else b.
Definition message_of (e : Event) : AccountRegisteredEvent :=
  mkAccountRegisteredEvent (ev_ID e) event_type_v1 1 (i64 (OccurredAt e)) producer_auth (optional_id (TraceID e)) (optional_id (CausationID e)) (ev_Subject e) [].

Definition Marshal (e : Event) : result user_error bytes :=
  _ ← Event_Validate e; Ok (proto_Marshal (message_of e)).

(** One of the optional identifiers. *)
Definition read_id (raw : bytes) : result user_error bytes :=
  if len raw =? 0 then Ok zero16 else
  reject_if (negb (len raw =? 16)) ErrInvalidEvent;;
  reject_if (bool_decide (raw = zero16)) ErrInvalidEvent;;
  Ok raw.

Definition Unmarshal (payload : bytes) : result user_error Event :=
  reject_if ((len payload =? 0) || (MaxPayloadBytes <? len payload)) ErrInvalidEvent;;
  match proto_Unmarshal payload with
  | None => Err ErrInvalidEvent
  | Some m =>
      reject_if (negb (len (re_unknown m) =? 0) || negb (bool_decide (EventType m = event_type_v1)) || negb (re_SchemaVersion m =? 1) ||
        negb (bool_decide (re_Producer m = producer_auth)) || negb (len (EventId m) =? 16)) ErrInvalidEvent;;
      subject ← map_err (fun _ => ErrInvalidEvent) (NewSubjectID (re_SubjectId m));
      trace ← read_id (TraceId m);
      causation ← read_id (CausationId m);
      let e := mkEvent (EventId m) subject (OccurredAtUnixNano m) trace causation in
      _ ← Event_Validate e;
      match Marshal e with
      | Ok canonical => reject_if (negb (bytes_Equal canonical payload)) ErrInvalidEvent;; Ok e
      | _ => Err ErrInvalidEvent
      end
  end.

Definition ValidatePayload (payload id : bytes) : result user_error unit :=
  e ← Unmarshal payload;
  reject_if (negb (bool_decide (ev_ID e = id))) ErrInvalidEvent.

(** [Factory.New]: the clock, 16 random bytes, if there are, and the trace of the
    caller, if it has one. *)
Definition Factory_New (subject : bytes) (now : Z) (random trace : option bytes) : result user_error Event :=
  match random with
  | None => Err ErrStorage
  | Some id =>
      let e := mkEvent id subject (now - now mod 1000) (match trace with Some t => t | None => zero16 end) zero16 in
      _ ← Event_Validate e; Ok e
  end.
End wire.

(** ** Canonical payloads *)

(** The arrays of an event have 16 bytes. *)
Definition event_sized (e : Event) : Prop := len (ev_ID e) = 16 /\ len (ev_Subject e) = 16 /\ len (TraceID e) = 16 /\ len (CausationID e) = 16.

Lemma Event_Validate_Ok e : Event_Validate e = Ok tt <->
  ev_ID e <> zero16 /\ ev_Subject e <> zero16 /\ 0 < OccurredAt e < 2 ^ 63 /\ OccurredAt e mod 1000 = 0.
Proof.
  unfold Event_Validate. rewrite reject_if_Ok, !orb_false_iff, !negb_false_iff, !bool_decide_eq_false.
  assert (OccurredAt e mod 1000000000 mod 1000 = OccurredAt e mod 1000) as ->.
  { rewrite (Z.mod_eq (OccurredAt e) 1000000000) by done. replace (OccurredAt e - _) with (OccurredAt e + (- 1000000 * (OccurredAt e / 1000000000)) * 1000) by lia. by rewrite Z.mod_add. }
  unfold i64, zero_time. split.
  - intros (((((Hi & Hs) & _) & Hp) & Ht) & Hm). apply Z.leb_gt in Hp. apply Z.eqb_eq in Ht, Hm. pose proof (Z.mod_pos_bound (OccurredAt e + 2 ^ 63) (2 ^ 64) ltac:(lia)). split_and!; done || lia.
  - intros (Hi & Hs & Ht & Hm). rewrite Z.mod_small by lia. split_and!; done || lia.
Qed.

Lemma NewSubjectID_Ok raw v : NewSubjectID raw = Ok v <-> v = raw /\ len raw = 16 /\ raw <> zero16.
Proof.
  unfold NewSubjectID. rewrite guard_Ok, orb_false_iff, negb_false_iff, bool_decide_eq_false, Ok_eq. split; [intros ((H1 & H2) & ->)|intros (-> & H1 & H2)]; split_and!; done || lia.
Qed.

Lemma read_id_optional b : len b = 16 -> read_id (optional_id b) = Ok b.
Proof.
  intros Hl. unfold optional_id. destruct (bool_decide_reflect (b = zero16)) as [->|Hn]; [done|]. unfold read_id. rewrite Hl. cbn. by rewrite bool_decide_false.
Qed.

Lemma read_id_Ok raw v : read_id raw = Ok v -> optional_id v = raw /\ len v = 16.
Proof.
  unfold read_id. destruct (Z.eqb_spec (len raw) 0) as [Hz|Hn]; [intros [= <-]; split; [symmetry; by apply len_zero_nil|done]|].
  rewrite !guard_Ok, negb_false_iff, bool_decide_eq_false, Ok_eq. intros (Hl & Hz & <-). split; [|lia]. unfold optional_id. by rewrite bool_decide_false.
Qed.

Section laws.
Context `{EventLaws}.

Lemma message_of_ok e : event_sized e -> Event_Validate e = Ok tt -> message_ok (message_of e) /\ message_bytes (message_of e) <= 94.
Proof.
  intros (H1 & H2 & H3 & H4) (_ & _ & Ht & _)%Event_Validate_Ok. unfold message_ok, message_of, message_bytes. cbn [EventId EventType re_SchemaVersion OccurredAtUnixNano re_Producer TraceId CausationId re_SubjectId re_unknown].
  assert (forall b, len b = 16 -> len (optional_id b) <= 16) as Hopt by (intros b Hb; unfold optional_id; case_bool_decide; unfold len in *; cbn; lia).
  pose proof (Hopt _ H3). pose proof (Hopt _ H4). rewrite i64_small by lia. split; [|change (len event_type_v1) with 26; change (len producer_auth) with 4; lia].
  split_and!; [lia..|done|by vm_compute|by vm_compute|]. repeat (apply Forall_cons; split); [lia|by vm_compute|by vm_compute|lia|lia|lia|apply Forall_nil_2].
Qed.

Lemma marshal_unmarshal e payload : event_sized e -> Marshal e = Ok payload -> Unmarshal payload = Ok e.
Proof.
  intros Hsz Hm. pose proof Hm as Hm'. unfold Marshal in Hm'. destruct (Event_Validate e) as [[]| |] eqn:Hv; try done. cbn [mbind result_bind] in Hm'. injection Hm' as <-.
  destruct (message_of_ok e Hsz Hv) as [Hok Hb]. pose proof (proj1 (Event_Validate_Ok e) Hv) as (Hid & Hsub & Ht & _). destruct Hsz as (H1 & H2 & H3 & H4).
  assert (EventId (message_of e) <> []) as Hne by (cbn; intros He; by rewrite He in H1). pose proof (codec_size _ Hok Hne). unfold Unmarshal. rewrite guard_Ok.
  split; [unfold MaxPayloadBytes; lia|]. rewrite codec_round_trip by done. cbn [re_unknown EventType re_SchemaVersion re_Producer EventId re_SubjectId TraceId CausationId OccurredAtUnixNano message_of].
  rewrite guard_Ok, !bool_decide_true, H1 by done. split; [done|]. rewrite (proj2 (NewSubjectID_Ok _ _) (conj eq_refl (conj H2 Hsub))). cbn [map_err mbind result_bind].
  rewrite !read_id_optional by done. cbn [mbind result_bind]. rewrite i64_small by lia. destruct e as [i s t tr c]. cbn [ev_ID ev_Subject OccurredAt TraceID CausationID] in *. rewrite Hv, Hm. cbn [mbind result_bind].
  unfold bytes_Equal. by rewrite bool_decide_true.
Qed.
End laws.

Lemma unmarshal_marshal `{EventCodec} payload e : Unmarshal payload = Ok e -> Marshal e = Ok payload /\ event_sized e.
Proof.
  unfold Unmarshal. rewrite guard_Ok. intros [_ Hu]. destruct (proto_Unmarshal payload) as [m|]; [|done]. revert Hu. rewrite guard_Ok, !orb_false_iff, !negb_false_iff. intros [(_ & Hid) Hu].
  destruct (NewSubjectID (re_SubjectId m)) as [subject| |] eqn:Hs; try done. cbn [map_err mbind result_bind] in Hu. apply NewSubjectID_Ok in Hs as (-> & Hl & _).
  destruct (read_id (TraceId m)) as [trace| |] eqn:Htr; try done. cbn [mbind result_bind] in Hu. destruct (read_id (CausationId m)) as [causation| |] eqn:Hc; try done. cbn [mbind result_bind] in Hu.
  apply read_id_Ok in Htr as [_ Htr], Hc as [_ Hc]. destruct (Event_Validate _); try done. cbn [mbind result_bind] in Hu. destruct (Marshal _) as [canonical| |] eqn:Hm; try done.
  rewrite guard_Ok, negb_false_iff in Hu. unfold bytes_Equal in Hu. rewrite bool_decide_eq_true, Ok_eq in Hu. destruct Hu as [-> <-]. split; [done|]. unfold event_sized. cbn. split_and!; done || lia.
Qed.

(** C26. Registration payloads are canonical: decoding accepts exactly the encoding of a
    valid event, and gives that event back, so that no two payloads carry one event
    and no two events one payload. *)
Theorem registration_payloads_are_canonical `{EventLaws} (e : Event) (payload : bytes) :
  Unmarshal payload = Ok e <-> event_sized e /\ Marshal e = Ok payload.
Proof.
  split; [intros [Hm Hs]%unmarshal_marshal; done|]. intros [Hs Hm]. by apply marshal_unmarshal.
Qed.
