(* ===== verification/RegistrationCodec.v ===== *)
(** * A codec of registration events

    An executable instance of [EventCodec]: the protobuf encoding of the message, and
    a reader of any sequence of its fields that keeps the ones it does not know. *)

From S2P Require Import Prelude GoUnicode TunnelContract TunnelRuntime UserDomain RegistrationWire.
Local Open Scope Z_scope.

Definition enc_AccountRegisteredEvent (m : AccountRegisteredEvent) : bytes :=
  enc_bytes 1 (EventId m) ++ enc_bytes 2 (EventType m) ++ enc_uint 3 (re_SchemaVersion m) ++ enc_uint 4 (OccurredAtUnixNano m) ++
  enc_bytes 5 (re_Producer m) ++ enc_bytes 6 (TraceId m) ++ enc_bytes 7 (CausationId m) ++ enc_bytes 8 (re_SubjectId m) ++ re_unknown m.

(** ** Reading *)

Fixpoint dec_varint (fuel : nat) (l : bytes) : option (Z * bytes) :=
  match fuel, l with
  | S fuel, b :: l =>
      if b <? 128 then Some (b, l) else
      x ← dec_varint fuel l; Some (b mod 128 + 128 * x.1, x.2)
  | _, _ => None
  end.

Inductive wire_value := Varint (v : Z) | Bytes (b : bytes).

Definition dec_value (typ : Z) (l : bytes) : option (wire_value * bytes) :=
  x ← dec_varint 10 l;
  if typ =? 0 then Some (Varint x.1, x.2) else
  if (typ =? 2) && (x.1 <=? len x.2) then Some (Bytes (take (Z.to_nat x.1) x.2), drop (Z.to_nat x.1) x.2) else None.

(** A field of the message, or [raw] among the unknown ones. *)
Definition put_field (m : AccountRegisteredEvent) (num : Z) (v : wire_value) (raw : bytes) : AccountRegisteredEvent :=
  let 'mkAccountRegisteredEvent id typ version at_ producer trace causation subject unknown := m in
  match num, v with
  | 1, Bytes b => mkAccountRegisteredEvent b typ version at_ producer trace causation subject unknown
  | 2, Bytes b => mkAccountRegisteredEvent id b version at_ producer trace causation subject unknown
  | 3, Varint n => mkAccountRegisteredEvent id typ (u32 n) at_ producer trace causation subject unknown
  | 4, Varint n => mkAccountRegisteredEvent id typ version (i64 n) producer trace causation subject unknown
  | 5, Bytes b => mkAccountRegisteredEvent id typ version at_ b trace causation subject unknown
  | 6, Bytes b => mkAccountRegisteredEvent id typ version at_ producer b causation subject unknown
  | 7, Bytes b => mkAccountRegisteredEvent id typ version at_ producer trace b subject unknown
  | 8, Bytes b => mkAccountRegisteredEvent id typ version at_ producer trace causation b unknown
  | _, _ => mkAccountRegisteredEvent id typ version at_ producer trace causation subject (unknown ++ raw)
  end.

(** Every field takes a byte of fuel. *)
Fixpoint dec_fields (fuel : nat) (m : AccountRegisteredEvent) (l : bytes) : option AccountRegisteredEvent :=
  match l, fuel with
  | [], _ => Some m
  | _, O => None
  | _, S fuel =>
      tag ← dec_varint 10 l;
      x ← dec_value (tag.1 mod 8) tag.2;
      dec_fields fuel (put_field m (tag.1 / 8) x.1 (take (length l - length x.2) l)) x.2
  end.

Definition no_event : AccountRegisteredEvent := mkAccountRegisteredEvent [] [] 0 0 [] [] [] [] [].
Definition dec_AccountRegisteredEvent (l : bytes) : option AccountRegisteredEvent :=
  m ← dec_fields (length l) no_event l;
  if utf8_Valid (EventType m) && utf8_Valid (re_Producer m) then Some m else None.

#[export] Instance event_codec : EventCodec := {
  proto_Marshal := enc_AccountRegisteredEvent;
  proto_Unmarshal := dec_AccountRegisteredEvent
}.

(** ** Round trips *)

Lemma lor_128 x : 0 <= x < 128 -> Z.lor 128 x = 128 + x.
Proof.
  intros Hx. assert (forallb (fun x => Z.lor 128 x =? 128 + x) (seqZ 0 128) = true) as Hall by (by vm_compute).
  rewrite forallb_forall in Hall. apply Z.eqb_eq, Hall. apply list_elem_of_In, elem_of_seqZ. lia.
Qed.

Lemma dec_enc_varint n v rest : (0 < n)%nat -> 0 <= v < 2 ^ (7 * Z.of_nat n) -> dec_varint n (enc_varint n v ++ rest) = Some (v, rest).
Proof.
  revert v. induction n as [|n IH]; intros v Hn Hv; [lia|]. cbn [enc_varint]. destruct (Z.ltb_spec v 128).
  - cbn [app dec_varint]. by rewrite (proj2 (Z.ltb_lt v 128)).
  - replace (7 * Z.of_nat (S n)) with (7 + 7 * Z.of_nat n) in Hv by lia. rewrite Z.pow_add_r in Hv by lia.
    destruct n as [|n]; [change (2 ^ 7 * 2 ^ (7 * Z.of_nat 0)) with 128 in Hv; lia|].
    change 127 with (Z.ones 7). rewrite Z.land_ones, Z.shiftr_div_pow2 by lia. change (2 ^ 7) with 128 in *. pose proof (Z.mod_pos_bound v 128). rewrite lor_128 by lia.
    cbn [app]. change (dec_varint (S (S n)) (?b :: ?l)) with (if b <? 128 then Some (b, l) else x ← dec_varint (S n) l; Some (b mod 128 + 128 * x.1, x.2)).
    rewrite (proj2 (Z.ltb_ge _ 128)), IH by (lia || (split; [apply Z.div_pos; lia|apply Z.div_lt_upper_bound; lia])). cbn [mbind option_bind fst snd].
    replace (128 + v mod 128) with (v mod 128 + 1 * 128) by lia. rewrite Z.mod_add, Z.mod_mod by lia. f_equal. f_equal. pose proof (Z.div_mod v 128). lia.
Qed.

Lemma dec_varint_u64 v rest : dec_varint 10 (varint v ++ rest) = Some (u64 v, rest).
Proof. apply dec_enc_varint; [lia|]. unfold u64. pose proof (Z.mod_pos_bound v (2 ^ 64)). change (2 ^ (7 * Z.of_nat 10)) with (2 ^ 70). lia. Qed.

Lemma varint_length v : (1 <= length (varint v) <= 10)%nat.
Proof.
  unfold varint. cbn [enc_varint]. repeat case_match; cbn [length]; lia.
Qed.

Lemma enc_tag_dec num typ rest : 0 <= num < 16 -> typ = 0 \/ typ = 2 -> exists tag, dec_varint 10 (enc_tag num typ ++ rest) = Some (tag, rest) /\ tag mod 8 = typ /\ tag / 8 = num.
Proof.
  intros Hn Ht. exists (u64 (Z.lor (Z.shiftl num 3) typ)). split; [apply dec_varint_u64|].
  assert (forallb (fun n => forallb (fun t => let tag := u64 (Z.lor (Z.shiftl n 3) t) in (tag mod 8 =? t) && (tag / 8 =? n)) [0; 2]) (seqZ 0 16) = true) as Hall by (by vm_compute).
  rewrite forallb_forall in Hall. specialize (Hall num). rewrite forallb_forall in Hall. assert (In num (seqZ 0 16)) as Hin by (apply list_elem_of_In, elem_of_seqZ; lia).
  specialize (Hall Hin typ). cbn zeta in Hall. assert (In typ [0; 2]) as Htyp by (destruct Ht; subst; cbn; auto). apply andb_true_iff in Hall as [H1 H2]; [lia|done].
Qed.

Section fields.
Context (m : AccountRegisteredEvent) (num : Z) (rest : bytes) (Hnum : 0 <= num < 16).

(** Reading an encoded field sets it. *)
Lemma dec_enc_bytes b f : (b = [] -> forall raw, put_field m num (Bytes b) raw = m) -> len b < 2 ^ 31 -> (length (enc_bytes num b ++ rest) <= f)%nat ->
  (forall raw raw', put_field m num (Bytes b) raw = put_field m num (Bytes b) raw') ->
  exists f', (length rest <= f')%nat /\ dec_fields f m (enc_bytes num b ++ rest) = dec_fields f' (put_field m num (Bytes b) []) rest.
Proof.
  intros Hempty Hlen Hf Hraw. unfold enc_bytes, enc_msg in *. destruct (Z.eqb_spec (len b) 0) as [Hz%len_zero_nil|Hz]; [exists f; subst b; by rewrite Hempty|].
  rewrite <- !app_assoc in *. destruct (enc_tag_dec num 2 (varint (len b) ++ b ++ rest) Hnum ltac:(by right)) as (tag & Htag & Hm & Hd).
  rewrite length_app in Hf. pose proof (varint_length (Z.lor (Z.shiftl num 3) 2)) as Hl. fold (enc_tag num 2) in Hl. destruct f as [|f]; [lia|]. exists f.
  rewrite !length_app in Hf. split; [lia|]. destruct (enc_tag num 2) as [|t0 tl] eqn:Ht; [cbn in Hl; lia|].
  cbn [app dec_fields]. cbn [app] in Htag. rewrite Htag. cbn [mbind option_bind fst snd]. unfold dec_value. rewrite dec_varint_u64. cbn [mbind option_bind fst snd]. rewrite Hm. cbn [Z.eqb andb].
  rewrite u64_small by (pose proof (len_nonneg b); lia). rewrite (proj2 (Z.leb_le _ _)) by (rewrite len_app; pose proof (len_nonneg rest); lia). cbn [mbind option_bind fst snd].
  unfold len. rewrite Nat2Z.id, take_app_length, drop_app_length. cbn [Pos.eqb andb mbind option_bind fst snd]. rewrite Hd. f_equal. apply Hraw.
Qed.

Lemma dec_enc_uint v f : (v = 0 -> forall raw, put_field m num (Varint (u64 v)) raw = m) -> (length (enc_uint num v ++ rest) <= f)%nat ->
  (forall raw raw', put_field m num (Varint (u64 v)) raw = put_field m num (Varint (u64 v)) raw') ->
  exists f', (length rest <= f')%nat /\ dec_fields f m (enc_uint num v ++ rest) = dec_fields f' (put_field m num (Varint (u64 v)) []) rest.
Proof.
  intros Hempty Hf Hraw. unfold enc_uint in *. destruct (Z.eqb_spec v 0) as [Hz|Hz]; [exists f; subst v; by rewrite Hempty|].
  rewrite <- !app_assoc in *. destruct (enc_tag_dec num 0 (varint v ++ rest) Hnum ltac:(by left)) as (tag & Htag & Hm & Hd).
  rewrite length_app in Hf. pose proof (varint_length (Z.lor (Z.shiftl num 3) 0)) as Hl. fold (enc_tag num 0) in Hl. destruct f as [|f]; [lia|]. exists f.
  rewrite !length_app in Hf. split; [lia|]. destruct (enc_tag num 0) as [|t0 tl] eqn:Ht; [cbn in Hl; lia|].
  cbn [app dec_fields]. cbn [app] in Htag. rewrite Htag. cbn [mbind option_bind fst snd]. unfold dec_value. rewrite dec_varint_u64. cbn [mbind option_bind fst snd]. rewrite Hm. cbn [Z.eqb].
  cbn [mbind option_bind fst snd]. rewrite Hd. f_equal. apply Hraw.
Qed.
End fields.

Lemma i64_u64 z : - 2 ^ 63 <= z < 2 ^ 63 -> i64 (u64 z) = z.
Proof. intros Hz. unfold i64, u64. rewrite Z.add_mod_idemp_l by lia. rewrite Z.mod_small; lia. Qed.

Lemma u32_u64 z : 0 <= z < 2 ^ 32 -> u32 (u64 z) = z.
Proof. intros Hz. rewrite u64_small by lia. by apply u32_small. Qed.

Lemma enc_bytes_length num b : 0 <= len (enc_bytes num b) <= 20 + len b /\ (b <> [] -> 0 < len (enc_bytes num b)).
Proof.
  unfold enc_bytes, enc_msg. destruct (Z.eqb_spec (len b) 0) as [Hz%len_zero_nil|Hz]; [subst b; by split|].
  unfold len in *. rewrite !length_app. pose proof (varint_length (Z.of_nat (length b))). pose proof (varint_length (Z.lor (Z.shiftl num 3) 2)). unfold enc_tag. lia.
Qed.

Lemma enc_uint_length num v : 0 <= len (enc_uint num v) <= 20.
Proof.
  unfold enc_uint, enc_tag, len. destruct (v =? 0); [done|]. rewrite length_app. pose proof (varint_length v). pose proof (varint_length (Z.lor (Z.shiftl num 3) 0)). lia.
Qed.

#[export] Instance event_laws : EventLaws.
Proof.
  split.
  - intros [id typ version at_ producer trace causation subject unknown] (Hv & Ha & Hu & Ht & Hp & Hl). cbn [re_SchemaVersion OccurredAtUnixNano re_unknown EventType re_Producer EventId TraceId CausationId re_SubjectId] in *. subst unknown.
    rewrite !Forall_cons in Hl. destruct Hl as (L1 & L2 & L5 & L6 & L7 & L8 & _). cbn [proto_Unmarshal proto_Marshal event_codec]. unfold dec_AccountRegisteredEvent, enc_AccountRegisteredEvent, no_event.
    cbn [re_SchemaVersion OccurredAtUnixNano re_unknown EventType re_Producer EventId TraceId CausationId re_SubjectId]. set (f := length _). assert (length (enc_bytes 1 id ++ enc_bytes 2 typ ++ enc_uint 3 version ++ enc_uint 4 at_ ++ enc_bytes 5 producer ++ enc_bytes 6 trace ++ enc_bytes 7 causation ++ enc_bytes 8 subject ++ []) <= f)%nat as Hf by done. clearbody f.
    edestruct (dec_enc_bytes (mkAccountRegisteredEvent [] [] 0 0 [] [] [] [] []) 1) as (f1 & Hf1 & ->); [lia|by intros ->|exact L1|exact Hf|done|]. cbn [put_field].
    edestruct (fun m => dec_enc_bytes m 2) as (f2 & Hf2 & ->); [lia|by intros ->|exact L2|exact Hf1|done|]. cbn [put_field].
    edestruct (fun m => dec_enc_uint m 3) as (f3 & Hf3 & ->); [lia|by intros ->|exact Hf2|done|]. cbn [put_field]. rewrite u32_u64 by done.
    edestruct (fun m => dec_enc_uint m 4) as (f4 & Hf4 & ->); [lia|by intros ->|exact Hf3|done|]. cbn [put_field]. rewrite i64_u64 by done.
    edestruct (fun m => dec_enc_bytes m 5) as (f5 & Hf5 & ->); [lia|by intros ->|exact L5|exact Hf4|done|]. cbn [put_field].
    edestruct (fun m => dec_enc_bytes m 6) as (f6 & Hf6 & ->); [lia|by intros ->|exact L6|exact Hf5|done|]. cbn [put_field].
    edestruct (fun m => dec_enc_bytes m 7) as (f7 & Hf7 & ->); [lia|by intros ->|exact L7|exact Hf6|done|]. cbn [put_field].
    edestruct (fun m => dec_enc_bytes m 8) as (f8 & Hf8 & ->); [lia|by intros ->|exact L8|exact Hf7|done|]. cbn [put_field].
    destruct f8; cbn [dec_fields mbind option_bind EventType re_Producer]; by rewrite Ht, Hp.
  - intros [id typ version at_ producer trace causation subject unknown] (Hv & Ha & Hu & _) Hid. cbn [re_SchemaVersion OccurredAtUnixNano re_unknown EventType re_Producer EventId TraceId CausationId re_SubjectId] in *. subst unknown.
    cbn [proto_Marshal event_codec]. unfold enc_AccountRegisteredEvent, message_bytes. cbn [re_SchemaVersion OccurredAtUnixNano re_unknown EventType re_Producer EventId TraceId CausationId re_SubjectId].
    do 8 rewrite len_app. change (len (@nil Z)) with 0.
    pose proof (enc_bytes_length 1 id) as [? Hpos]. specialize (Hpos Hid). pose proof (enc_bytes_length 2 typ) as [? _]. pose proof (enc_bytes_length 5 producer) as [? _]. pose proof (enc_bytes_length 6 trace) as [? _]. pose proof (enc_bytes_length 7 causation) as [? _].
    pose proof (enc_bytes_length 8 subject) as [? _]. pose proof (enc_uint_length 3 version). pose proof (enc_uint_length 4 at_). lia.
Qed.

(** An event and its encoding. *)
Definition codec_event : Event := mkEvent (replicate 15 0 ++ [1]) (replicate 15 0 ++ [2]) 1700000000000000000 zero16 (replicate 15 0 ++ [3]).
Lemma registration_payloads_are_canonical_witness : exists payload, Marshal codec_event = Ok payload /\ Unmarshal payload = Ok codec_event.
Proof.
  eexists. split; [vm_compute; reflexivity|].
  apply (proj2 (registration_payloads_are_canonical codec_event _)). split; vm_compute; [repeat split|reflexivity].
Defined.
