(* ===== verification/UserStore.v ===== *)
(** * User: the database

    [services/user/internal/adapter/out/postgres*] over the tables of
    [services/user/migrations].  A statement is atomic, and so is a transaction, which
    holds the row of the profile; [Mutate] and [Set] begin with the lock.  Times are in
    nanoseconds; a date is its text, and the clock of a statement stands still. *)

From S2P Require Import Prelude GoStrings GoUnicode GoText Sha256 Effects UserDomain RegistrationWire.
Local Open Scope Z_scope.

(** ** Tables *)

(** A row of [users.profiles]. *)
Record profile_row := mkProfileRow {
  pf_fields : Fields;
  pf_version : Z;
  created_at : Z;
  updated_at : Z;
  address_book_version : Z;
  theme : bytes;
  settings_version : Z;
  avatar_file_id : option bytes;
  avatar_version : Z
}.

(** A row of [users.avatar_retirements] without its key; the lease is the token and
    its end. *)
Record retirement_row := mkRetirementRow {
  rt_created : Z;
  next_attempt_at : Z;
  attempts : Z;
  rt_lease : option (bytes * Z);
  retired_at : option Z
}.

(** A row of [users.registration_inbox] without its key. *)
Record inbox_row := mkInboxRow { in_subject : bytes; payload_hash : bytes; received_at : Z }.
#[export] Instance inbox_row_eq_dec : EqDecision inbox_row.
Proof. solve_decision. Defined.

(** Addresses and retirements are keyed by the owner and the identifier. *)
Record user_db := mkUserDb {
  profiles : gmap bytes profile_row;
  addresses : gmap (bytes * bytes) (AddressFields * bool);
  retirements : gmap (bytes * bytes) retirement_row;
  inbox : gmap bytes inbox_row
}.

Definition set_profiles (d : user_db) (m : gmap bytes profile_row) : user_db := mkUserDb m (addresses d) (retirements d) (inbox d).
Definition set_addresses (d : user_db) (m : gmap (bytes * bytes) (AddressFields * bool)) : user_db := mkUserDb (profiles d) m (retirements d) (inbox d).
Definition set_retirements (d : user_db) (m : gmap (bytes * bytes) retirement_row) : user_db := mkUserDb (profiles d) (addresses d) m (inbox d).
Definition put_profile (d : user_db) (id : bytes) (r : profile_row) : user_db := set_profiles d (<[id := r]> (profiles d)).

(** ** Constraints *)

Definition id_ok (id : bytes) : bool := (len id =? 16) && negb (bool_decide (id = zero16)).

(** [text] with [char_length] between [lo] and [chars], and [octet_length] *)
Definition text_ok (lo chars octets : Z) (b : bytes) : bool :=
  utf8_Valid b && negb (bool_decide (0 ∈ b)) && between lo (utf8_RuneCount b) chars && (len b <=? octets).

Definition date_ok (b : bytes) : bool :=
  bool_decide (b = []) || match parse_date b with Some (y, _, _) => 1 <=? y | None => false end.
Definition phone_ok (b : bytes) : bool :=
  text_ok 0 32 32 b && phone_runes b && (bool_decide (b = []) || between 7 (phone_digits b) 15).

Definition check_fields (f : Fields) : bool :=
  text_ok 0 80 320 (DisplayName f) && text_ok 0 1000 4000 (Bio f) && text_ok 0 80 320 (LastName f) && date_ok (BirthDate f) &&
  between 0 (Gender f) 2 && phone_ok (Phone f) && text_ok 0 120 480 (City f).

Definition version_ok (v : Z) : bool := (1 <=? v) && (v <=? MaxInt64).
Definition check_profile (r : profile_row) : bool :=
  check_fields (pf_fields r) && version_ok (pf_version r) && version_ok (address_book_version r) && version_ok (settings_version r) &&
  version_ok (avatar_version r) && Theme_Valid (theme r) && match avatar_file_id r with Some id => id_ok id | None => true end.

Definition check_address (f : AddressFields) : bool :=
  text_ok 1 120 480 (Recipient f) && text_ok 1 32 32 (ad_Phone f) && text_ok 1 80 320 (Country f) && text_ok 0 20 80 (PostalCode f) &&
  text_ok 1 120 480 (ad_City f) && text_ok 1 240 960 (StreetHouse f) && text_ok 0 40 160 (Apartment f) && text_ok 0 500 2000 (Comment f).

(** The columns of a new profile. *)
Definition no_fields : Fields := mkFields [] [] [] [] 0 [] [] false.
Definition default_profile (now : Z) : profile_row := mkProfileRow no_fields 1 (pg_time now) (pg_time now) 1 (theme_string System) 1 None 1.

(** ** Profiles *)

Definition sql_get (d : user_db) (id : bytes) : query (bytes * profile_row) :=
  match profiles d !! id with Some r => Scanned (id, r) | None => NoRows end.

Definition put_checked (d : user_db) (id : bytes) (r : profile_row) : user_db * query (bytes * profile_row) :=
  if check_profile r then (put_profile d id r, Scanned (id, r)) else (d, QueryFailed).

(** [updateSQL] *)
Definition sql_update (now : Z) (d : user_db) (id : bytes) (f : Fields) (expected : Z) : user_db * query (bytes * profile_row) :=
  match profiles d !! id with
  | Some r =>
      if pf_version r =? expected
      then put_checked d id (mkProfileRow f (pf_version r + 1) (created_at r) (pg_time now) (address_book_version r) (theme r) (settings_version r) (avatar_file_id r) (avatar_version r))
      else (d, NoRows)
  | None => (d, NoRows)
  end.

(** [updateSQL] of the settings *)
Definition sql_update_settings (d : user_db) (id t : bytes) (expected : Z) : user_db * query (bytes * profile_row) :=
  match profiles d !! id with
  | Some r =>
      if settings_version r =? expected
      then put_checked d id (mkProfileRow (pf_fields r) (pf_version r) (created_at r) (updated_at r) (address_book_version r) t (settings_version r + 1) (avatar_file_id r) (avatar_version r))
      else (d, NoRows)
  | None => (d, NoRows)
  end.

(** [decode] of a profile; [today] is the current day *)
Definition decode_profile (today : bytes) (q : query (bytes * profile_row)) : result user_error Profile :=
  match q with
  | NoRows => Err ErrNotReady
  | QueryFailed => Err ErrStorage
  | Scanned (raw, r) =>
      subject ← map_err (fun _ => ErrStored) (NewSubjectID raw);
      valid ← map_err (fun _ => ErrStored) (NormalizeFields (pf_fields r) today);
      reject_if (negb (bool_decide (valid = pf_fields r)) || (pf_version r <? 1)) ErrStored;;
      Ok (mkProfile subject (pf_fields r) (pf_version r) (created_at r) (updated_at r))
  end.

Definition decode_settings (q : query (bytes * profile_row)) : result user_error Settings :=
  match q with
  | NoRows => Err ErrNotReady
  | QueryFailed => Err ErrStorage
  | Scanned (raw, r) =>
      subject ← map_err (fun _ => ErrStored) (NewSubjectID raw);
      let s := mkSettings subject (u64 (settings_version r)) (theme r) in
      reject_if ((settings_version r <? 1) || negb (bool_decide (Settings_Validate s = Ok tt))) ErrStored;;
      Ok s
  end.

(** ** Address books *)

Inductive Operation := Create | Update | Delete | SetDefault.
#[export] Instance Operation_eq_dec : EqDecision Operation.
Proof. solve_decision. Defined.
(** [Operation] is a [uint8]; a number outside the four constants is not valid *)
Record Command := mkCommand { cmd_Operation : option Operation; cmd_ID : bytes; cmd_Fields : AddressFields; ExpectedVersion : Z }.

Definition has_fields (o : Operation) : bool := match o with Create | Update => true | _ => false end.
Definition Command_Validate (c : Command) : result user_error unit :=
  reject_if (negb (ValidVersion (ExpectedVersion c)) || bool_decide (cmd_Operation c = None)) ErrInvalidAddress;;
  reject_if (negb (bool_decide (cmd_Operation c = Some Create)) && bool_decide (cmd_ID c = zero16)) ErrInvalidAddress;;
  match cmd_Operation c with
  | Some o =>
      if has_fields o then
        match NewFields (cmd_Fields c) with
        | Ok f => reject_if (negb (bool_decide (f = cmd_Fields c))) ErrInvalidAddress
        | _ => Err ErrInvalidAddress
        end
      else Ok tt
  | None => Ok tt
  end.

(** [ORDER BY a.address_id] *)
Definition address_le (a b : Address) : Prop := bytes_before (ad_ID b) (ad_ID a) = false.
#[export] Instance address_le_dec : RelDecision address_le.
Proof. intros a b. unfold address_le. apply _. Defined.
Definition owned (owner : bytes) (k : bytes * bytes) : bool := bool_decide (k.1 = owner).
Definition address_rows (d : user_db) (owner : bytes) : list Address :=
  merge_sort address_le ((fun x => mkAddress x.1.2 x.2.1 x.2.2) <$> List.filter (fun x => owned owner x.1) (map_to_list (addresses d))).

(** [read] *)
Definition read_book (d : user_db) (owner : bytes) : result user_error Book :=
  match profiles d !! owner with
  | None => Err ErrNotReady
  | Some r =>
      subject ← map_err (fun _ => ErrStored) (NewSubjectID owner);
      reject_if (address_book_version r <? 1) ErrStored;;
      let b := mkBook subject (address_book_version r) (address_rows d owner) in
      reject_if (negb (forallb (fun a => id_ok (ad_ID a)) (Addresses b))) ErrStored;;
      _ ← map_err (fun _ => ErrStored) (Book_Validate b);
      Ok b
  end.

(** The statements on the addresses; [None] if a constraint fails. *)
Definition sql_insert_address (d : user_db) (owner id : bytes) (f : AddressFields) (primary : bool) : option user_db :=
  if bool_decide (is_Some (addresses d !! (owner, id))) || negb (check_address f) || negb (id_ok id) ||
     primary && existsb (fun x => owned owner x.1 && x.2.2) (map_to_list (addresses d)) then None
  else Some (set_addresses d (<[(owner, id) := (f, primary)]> (addresses d))).
Definition sql_update_address (d : user_db) (owner id : bytes) (f : AddressFields) : option user_db :=
  match addresses d !! (owner, id) with
  | Some (_, primary) => if check_address f then Some (set_addresses d (<[(owner, id) := (f, primary)]> (addresses d))) else None
  | None => Some d
  end.
Definition sql_delete_address (d : user_db) (owner id : bytes) : user_db := set_addresses d (delete (owner, id) (addresses d)).
Definition sql_no_default (d : user_db) (owner : bytes) : user_db :=
  set_addresses d (map_imap (fun k x => Some (if owned owner k then (x.1, false) else x)) (addresses d)).
Definition sql_set_default (d : user_db) (owner id : bytes) : option user_db :=
  match addresses d !! (owner, id) with
  | Some (f, _) =>
      if existsb (fun x => owned owner x.1 && x.2.2 && negb (bool_decide (x.1.2 = id))) (map_to_list (addresses d)) then None
      else Some (set_addresses d (<[(owner, id) := (f, true)]> (addresses d)))
  | None => Some d
  end.
Definition sql_book_version (d : user_db) (owner : bytes) : option user_db :=
  match profiles d !! owner with
  | Some r =>
      let r' := mkProfileRow (pf_fields r) (pf_version r) (created_at r) (updated_at r) (address_book_version r + 1) (theme r) (settings_version r) (avatar_file_id r) (avatar_version r) in
      if check_profile r' then Some (put_profile d owner r') else None
  | None => Some d
  end.

Definition done_or_failed (o : option user_db) : result user_error user_db := match o with Some d => Ok d | None => Err ErrStorage end.

(** The command of [Mutate], on the book that it read. *)
Definition apply_command (d : user_db) (owner : bytes) (book : Book) (c : Command) (o : Operation) (generated : bytes) : result user_error user_db :=
  match o with
  | Create =>
      reject_if (MaxAddresses <=? len (Addresses book)) ErrLimit;;
      done_or_failed (sql_insert_address d owner generated (cmd_Fields c) (len (Addresses book) =? 0))
  | Update => done_or_failed (sql_update_address d owner (cmd_ID c) (cmd_Fields c))
  | Delete => Ok (sql_delete_address d owner (cmd_ID c))
  | SetDefault => done_or_failed (sql_set_default (sql_no_default d owner) owner (cmd_ID c))
  end.

(** The transaction of [Mutate]. *)
Definition tx_mutate (d : user_db) (owner : bytes) (c : Command) (generated : bytes) : result user_error (user_db * Book) :=
  match profiles d !! owner, cmd_Operation c with
  | None, _ => Err ErrNotReady
  | _, None => Err ErrStorage
  | Some r, Some o =>
      reject_if (address_book_version r <? 1) ErrStored;;
      reject_if (negb (u64 (address_book_version r) =? ExpectedVersion c)) ErrAddressConflict;;
      book ← read_book d owner;
      reject_if (negb (bool_decide (o = Create)) && negb (existsb (fun a => bool_decide (ad_ID a = cmd_ID c)) (Addresses book))) ErrNotFound;;
      d1 ← apply_command d owner book c o generated;
      d2 ← done_or_failed (sql_book_version d1 owner);
      b ← read_book d2 owner;
      Ok (d2, b)
  end.

(** ** Avatars *)

Definition decode_avatar (q : query (bytes * profile_row)) : result user_error Avatar :=
  match q with
  | NoRows => Err ErrNotReady
  | QueryFailed => Err ErrStorage
  | Scanned (raw, r) =>
      subject ← map_err (fun _ => ErrInvalidAvatar) (NewSubjectID raw);
      reject_if (avatar_version r <? 1) ErrInvalidAvatar;;
      id ← match avatar_file_id r with Some id => ParseFileID id | None => Ok zero16 end;
      Ok (mkAvatar subject (u64 (avatar_version r)) id)
  end.

(** [INSERT ... ON CONFLICT DO NOTHING] into the retirements *)
Definition sql_retire (now : Z) (d : user_db) (owner id : bytes) : user_db :=
  match retirements d !! (owner, id) with
  | Some _ => d
  | None => set_retirements d (<[(owner, id) := mkRetirementRow (pg_time now) (pg_time now) 0 None None]> (retirements d))
  end.

(** The transaction of [Set]. *)
Definition tx_set_avatar (now : Z) (d : user_db) (owner id : bytes) (expected : Z) : result user_error (user_db * Avatar) :=
  current ← decode_avatar (sql_get d owner);
  reject_if (negb (av_Version current =? expected)) ErrAvatarConflict;;
  reject_if (negb (bool_decide (id = zero16)) && bool_decide (is_Some (retirements d !! (owner, id)))) ErrAvatarUnavailable;;
  let d1 := if negb (bool_decide (FileID current = zero16)) && negb (bool_decide (FileID current = id)) then sql_retire now d owner (FileID current) else d in
  match profiles d1 !! owner with
  | Some r =>
      let '(d2, q) := put_checked d1 owner (mkProfileRow (pf_fields r) (pf_version r) (created_at r) (updated_at r) (address_book_version r) (theme r) (settings_version r)
                        (if bool_decide (id = zero16) then None else Some id) (avatar_version r + 1)) in
      a ← decode_avatar q; Ok (d2, a)
  | None => Err ErrNotReady
  end.

(** ** The queue of retirements *)

Record Retirement := mkRetirement { rt_Subject : bytes; rt_FileID : bytes; LeaseToken : bytes; rt_Attempts : Z }.

Definition lease_over (now : Z) (r : retirement_row) : bool := match rt_lease r with Some (_, until) => until <=? now | None => true end.
Definition due (now : Z) (r : retirement_row) : bool := bool_decide (retired_at r = None) && (next_attempt_at r <=? now) && lease_over now r.

(** [ORDER BY next_attempt_at,created_at,subject_id,file_id] *)
Definition due_before (a b : (bytes * bytes) * retirement_row) : bool :=
  (next_attempt_at a.2 <? next_attempt_at b.2) || (next_attempt_at a.2 =? next_attempt_at b.2) &&
  ((rt_created a.2 <? rt_created b.2) || (rt_created a.2 =? rt_created b.2) &&
   (bytes_before a.1.1 b.1.1 || bool_decide (a.1.1 = b.1.1) && bytes_before a.1.2 b.1.2)).
(** [claimSQL]; other transactions hold the rows that are [locked] *)
Definition sql_claim (now : Z) (locked : bytes * bytes -> bool) (d : user_db) (lease : Z) (token : bytes) : user_db * query Retirement :=
  match first_by due_before (List.filter (fun x => due now x.2 && negb (locked x.1)) (map_to_list (retirements d))) with
  | None => (d, NoRows)
  | Some (k, r) =>
      let n := Z.min (attempts r) 2147483646 + 1 in
      (set_retirements d (<[k := mkRetirementRow (rt_created r) (next_attempt_at r) n (Some (token, pg_time now + lease)) (retired_at r)]> (retirements d)),
       Scanned (mkRetirement k.1 k.2 token n))
  end.

(** The condition of [Finish] and [Retry]. *)
Definition leased (now : Z) (token : bytes) (r : retirement_row) : bool :=
  match rt_lease r with Some (t, until) => bool_decide (t = token) && (now <? until) | None => false end && bool_decide (retired_at r = None).

(** The number of affected rows. *)
Definition update_retirement (d : user_db) (v : Retirement) (now : Z) (f : retirement_row -> retirement_row) : user_db * option Z :=
  match retirements d !! (rt_Subject v, rt_FileID v) with
  | Some r => if leased now (LeaseToken v) r then (set_retirements d (<[(rt_Subject v, rt_FileID v) := f r]> (retirements d)), Some 1) else (d, Some 0)
  | None => (d, Some 0)
  end.
Definition sql_finish (now : Z) (d : user_db) (v : Retirement) : user_db * option Z :=
  update_retirement d v now (fun r => mkRetirementRow (rt_created r) (next_attempt_at r) (attempts r) None (Some (pg_time now))).
Definition sql_retry (now : Z) (d : user_db) (v : Retirement) (delay : Z) : user_db * option Z :=
  update_retirement d v now (fun r => mkRetirementRow (rt_created r) (pg_time now + delay) (attempts r) None (retired_at r)).

(** ** Registrations *)

(** [INSERT INTO users.profiles(subject_id) ... ON CONFLICT DO NOTHING] *)
Definition sql_project (now : Z) (d : user_db) (subject : bytes) : user_db :=
  match profiles d !! subject with Some _ => d | None => put_profile d subject (default_profile now) end.

(** The statement of [Apply]: whether the row was inserted. *)
Definition sql_apply (now : Z) (d : user_db) (event subject hash : bytes) : user_db * query bool :=
  if negb (id_ok event) || negb (id_ok subject) || negb (len hash =? 32) then (d, QueryFailed) else
  match inbox d !! event with
  | None =>
      (sql_project now (mkUserDb (profiles d) (addresses d) (retirements d) (<[event := mkInboxRow subject hash (pg_time now)]> (inbox d))) subject, Scanned true)
  | Some r =>
      if bool_decide (in_subject r = subject) && bool_decide (payload_hash r = hash) then (sql_project now d subject, Scanned false) else (d, NoRows)
  end.
