(* ===== verification/UserService.v ===== *)
(** * User: the service

    The use cases of [services/user/internal/application] over their repositories, the
    client of the files service and the consumer of registrations, as programs, and
    how the database of [UserStore] and an outside world answer their calls.  Metrics
    are left out, but for the outcomes of the consumer. *)

From S2P Require Import Prelude GoStrings GoText Sha256 Effects UserDomain RegistrationWire UserStore.
Local Open Scope Z_scope.

(** ** Calls *)

(** The status codes that the client tells apart. *)
Inductive code := NotFound | FailedPrecondition | Canceled | DeadlineExceeded | OtherCode.
(** [InspectOwnedAvatarResponse] *)
Record Inspected := mkInspected { CleanMediaType : bytes; CleanSizeBytes : Z; CleanSha256 : bytes }.

(** A message of the stream: its sequence, subject and data. *)
Record Message := mkMessage { msg_Seq : Z; msg_Subject : bytes; msg_Data : bytes }.

Inductive call :=
(** is the context done; the current day in UTC; 16 random bytes, which [NewID] draws
    until they are not zero *)
| CtxErr
| Today
| RandRead
| NewID
(* SQL *)
| SqlGet (id : bytes)
| SqlUpdate (id : bytes) (f : Fields) (expected : Z)
| SqlUpdateSettings (id theme : bytes) (expected : Z)
| SqlList (owner : bytes)
| TxMutate (owner : bytes) (c : Command) (generated : bytes)
| TxSetAvatar (owner id : bytes) (expected : Z)
| SqlClaim (lease : Z) (token : bytes)
| SqlFinish (v : Retirement)
| SqlRetry (v : Retirement) (delay : Z)
| SqlApply (event subject hash : bytes)
(* the files service *)
| InspectOwnedAvatar (owner id session : bytes)
| RetireOwnedAvatar (owner id : bytes)
(* the broker *)
| MsgNext
| MsgAck (seq : Z)
| MsgNak (seq : Z).

Definition reply (c : call) : Type :=
  match c with
  | CtxErr | MsgAck _ | MsgNak _ => bool
  | Today => bytes
  | RandRead | NewID => option bytes
  | SqlGet _ | SqlUpdate _ _ _ | SqlUpdateSettings _ _ _ => query (bytes * profile_row)
  | SqlList _ | TxMutate _ _ _ => result user_error Book
  | TxSetAvatar _ _ _ => result user_error Avatar
  | SqlClaim _ _ => query Retirement
  | SqlFinish _ | SqlRetry _ _ => option Z
  | SqlApply _ _ _ => query bool
  | InspectOwnedAvatar _ _ _ => result code (option Inspected)
  | RetireOwnedAvatar _ _ => result code unit
  | MsgNext => option Message
  end.

Abbreviation prog := (program reply).
Abbreviation trace := (trace_of reply).
Abbreviation perform := (Effects.perform (reply := reply)).

(** [if err := ctx.Err(); err != nil { return err }] *)
Definition check_ctx {A} (p : prog (result user_error A)) : prog (result user_error A) :=
  canceled ← perform CtxErr; refuse canceled ErrCanceled p.

Definition is_zero (id : bytes) : bool := bool_decide (id = zero16).

(** ** Profiles *)

Definition decode_now (q : query (bytes * profile_row)) : prog (result user_error Profile) :=
  match q with
  | Scanned _ => today ← perform Today; Ret (decode_profile today q)
  | _ => Ret (decode_profile [] q)
  end.

(** [Repository.Get] *)
Definition profile_Get (id : bytes) : prog (result user_error Profile) :=
  check_ctx (refuse (is_zero id) ErrInvalidProfile (q ← perform (SqlGet id); decode_now q)).

(** What an update of no row means: [errors.Is(err, profile.ErrNotReady)] *)
Definition or_conflict {A B} (r : result user_error A) (get : prog (result user_error B)) (e : user_error) : prog (result user_error A) :=
  match r with
  | Err ErrNotReady => try get (fun _ => Ret (Err e))
  | _ => Ret r
  end.

(** [Repository.Update] *)
Definition profile_Update (id : bytes) (f : Fields) (expected : Z) : prog (result user_error Profile) :=
  check_ctx (
    today ← perform Today;
    match NormalizeFields f today with
    | Ok valid =>
        refuse (negb (bool_decide (valid = f)) || is_zero id || (expected =? 0) || (MaxInt64 <=? expected)) ErrInvalidProfile (
        q ← perform (SqlUpdate id f expected);
        r ← decode_now q;
        or_conflict r (profile_Get id) ErrProfileConflict)
    | _ => Ret (Err ErrInvalidProfile)
    end).

(** The result belongs to the caller. *)
Definition own_profile (p : Principal) (r : Profile) : result user_error Profile :=
  reject_if (negb (bool_decide (pr_Subject r = p_Subject p))) ErrForbidden;; Ok r.

(** [getme.Execute] *)
Definition GetMe (p : Principal) : prog (result user_error Profile) :=
  check_ctx (refuse (is_zero (p_Subject p)) ErrUnauthenticated (refuse (negb (CanRead p)) ErrForbidden (
  try (profile_Get (p_Subject p)) (fun r => Ret (own_profile p r))))).

(** [updateme.Execute] *)
Definition UpdateMe (p : Principal) (cmd : Fields) (expected : Z) : prog (result user_error Profile) :=
  check_ctx (refuse (is_zero (p_Subject p)) ErrUnauthenticated (refuse (negb (CanWrite p)) ErrForbidden (
  refuse ((expected =? 0) || (MaxInt64 <=? expected)) ErrInvalidProfile (
  today ← perform Today;
  try (Ret (NormalizeFields cmd today)) (fun fields =>
  try (profile_Update (p_Subject p) fields expected) (fun r => Ret (own_profile p r))))))).

(** ** Settings *)

Definition settings_Get (id : bytes) : prog (result user_error Settings) :=
  check_ctx (refuse (is_zero id) ErrInvalidSettings (q ← perform (SqlGet id); Ret (decode_settings q))).

Definition settings_Update (id theme : bytes) (expected : Z) : prog (result user_error Settings) :=
  check_ctx (refuse (is_zero id) ErrInvalidSettings (refuse (negb (Theme_Valid theme) || negb (ValidVersion expected)) ErrInvalidSettings (
  q ← perform (SqlUpdateSettings id theme expected);
  or_conflict (decode_settings q) (settings_Get id) ErrSettingsConflict))).

Definition own_settings (p : Principal) (s : Settings) : result user_error Settings :=
  reject_if (negb (bool_decide (st_Subject s = p_Subject p))) ErrForbidden;;
  reject_if (negb (bool_decide (Settings_Validate s = Ok tt))) ErrStored;; Ok s.

(** [authorize] of the settings and of the addresses *)
Definition authorized {A} (p : Principal) (allowed : bool) (k : prog (result user_error A)) : prog (result user_error A) :=
  check_ctx (refuse (is_zero (p_Subject p)) ErrUnauthenticated (refuse (negb allowed) ErrForbidden k)).

Definition GetSettings (p : Principal) : prog (result user_error Settings) :=
  authorized p (CanReadSettings p) (try (settings_Get (p_Subject p)) (fun s => Ret (own_settings p s))).
Definition UpdateSettings (p : Principal) (theme : bytes) (expected : Z) : prog (result user_error Settings) :=
  authorized p (CanWriteSettings p) (
  refuse (negb (Theme_Valid theme) || negb (ValidVersion expected)) ErrInvalidSettings (
  try (settings_Update (p_Subject p) theme expected) (fun s => Ret (own_settings p s)))).

(** ** Addresses *)

Definition addresses_List (owner : bytes) : prog (result user_error Book) :=
  check_ctx (refuse (is_zero owner) ErrInvalidAddress (perform (SqlList owner))).

Definition addresses_Mutate (owner : bytes) (c : Command) : prog (result user_error Book) :=
  check_ctx (refuse (is_zero owner) ErrInvalidAddress (
  try (Ret (Command_Validate c)) (fun _ =>
  if bool_decide (cmd_Operation c = Some Create) then
    id ← perform NewID;
    match id with
    | Some generated => perform (TxMutate owner c generated)
    | None => Ret (Err ErrStorage)
    end
  else perform (TxMutate owner c zero16)))).

Definition own_book (p : Principal) (b : Book) : result user_error Book :=
  reject_if (negb (bool_decide (bk_Subject b = p_Subject p))) ErrForbidden;;
  reject_if (negb (bool_decide (Book_Validate b = Ok tt))) ErrStored;; Ok b.

Definition normalized (c : Command) : result user_error Command :=
  match cmd_Operation c with
  | Some o => if has_fields o then f ← NewFields (cmd_Fields c); Ok (mkCommand (cmd_Operation c) (cmd_ID c) f (ExpectedVersion c)) else Ok c
  | None => Ok c
  end.

Definition ListAddresses (p : Principal) : prog (result user_error Book) :=
  authorized p (CanReadAddresses p) (try (addresses_List (p_Subject p)) (fun b => Ret (own_book p b))).
Definition MutateAddresses (p : Principal) (c : Command) : prog (result user_error Book) :=
  authorized p (CanWriteAddresses p) (
  try (Ret (normalized c)) (fun c =>
  try (Ret (Command_Validate c)) (fun _ =>
  try (addresses_Mutate (p_Subject p) c) (fun b => Ret (own_book p b))))).

(** ** Avatars *)

(** [safe] *)
Definition safe (c : code) : user_error :=
  match c with
  | NotFound | FailedPrecondition => ErrAvatarUnavailable
  | Canceled => ErrCanceled
  | DeadlineExceeded => ErrDeadline
  | OtherCode => ErrStorage
  end.

Definition inspected_ok (r : Inspected) : bool :=
  bool_decide (CleanMediaType r ∈ [bytes_of "image/png"; bytes_of "image/jpeg"]) && (0 <? CleanSizeBytes r) && (CleanSizeBytes r <=? 20 * 1024 * 1024) &&
  (len (CleanSha256 r) =? 32).
(** [Client.Inspect] and [Client.Retire] *)
Definition Inspect (owner id session : bytes) : prog (result user_error unit) :=
  r ← perform (InspectOwnedAvatar owner id session);
  Ret (match r with
       | Ok (Some r) => reject_if (negb (inspected_ok r)) ErrStorage
       | Ok None => Err ErrStorage
       | Err c => Err (safe c)
       | Panic => Panic
       end).
Definition Retire (owner id : bytes) : prog (result user_error unit) :=
  r ← perform (RetireOwnedAvatar owner id); Ret (map_err safe r).

(** The checks of the repository: [valid] *)
Definition avatar_valid {A} (owner : bytes) (p : prog (result user_error A)) : prog (result user_error A) :=
  refuse (is_zero owner) ErrInvalidAvatar (check_ctx p).
Definition avatar_Get (owner : bytes) : prog (result user_error Avatar) :=
  avatar_valid owner (q ← perform (SqlGet owner); Ret (decode_avatar q)).
Definition avatar_Set (owner id : bytes) (expected : Z) : prog (result user_error Avatar) :=
  avatar_valid owner (refuse (negb (ValidVersion expected)) ErrInvalidAvatar (perform (TxSetAvatar owner id expected))).

(** [authorize] of the avatars *)
Definition avatar_authorized {A} (p : Principal) (allowed : bool) (k : prog (result user_error A)) : prog (result user_error A) :=
  refuse (is_zero (p_Subject p)) ErrUnauthenticated (check_ctx (refuse (negb allowed) ErrForbidden k)).

Definition GetAvatar (p : Principal) : prog (result user_error Avatar) :=
  avatar_authorized p (CanRead p) (avatar_Get (p_Subject p)).
Definition SetAvatar (p : Principal) (id : bytes) (version : Z) : prog (result user_error Avatar) :=
  avatar_authorized p (CanWrite p) (
  refuse (is_zero id || negb (ValidVersion version)) ErrInvalidAvatar (
  try (Inspect (p_Subject p) id (SessionID p)) (fun _ => avatar_Set (p_Subject p) id version))).
Definition ClearAvatar (p : Principal) (version : Z) : prog (result user_error Avatar) :=
  avatar_authorized p (CanWrite p) (
  refuse (negb (ValidVersion version)) ErrInvalidAvatar (avatar_Set (p_Subject p) zero16 version)).

(** ** The worker of retirements *)

Definition decode_claim (token : bytes) (v : Retirement) : result user_error (option Retirement) :=
  subject ← map_err (fun _ => ErrInvalidAvatar) (NewSubjectID (rt_Subject v));
  reject_if (negb (len (LeaseToken v) =? 16) || (rt_Attempts v <? 1)) ErrInvalidAvatar;;
  id ← ParseFileID (rt_FileID v);
  reject_if (negb (bool_decide (LeaseToken v = token)) || is_zero token) ErrInvalidAvatar;;
  Ok (Some (mkRetirement subject id (LeaseToken v) (rt_Attempts v))).

Definition queue_Claim (lease : Z) : prog (result user_error (option Retirement)) :=
  refuse ((lease <? Millisecond) || (3600 * Second <? lease)) ErrInvalidAvatar (
  token ← perform RandRead;
  match token with
  | None => Ret (Err ErrStorage)
  | Some token =>
      q ← perform (SqlClaim (lease / 1000 * 1000) token);
      Ret (match q with
           | NoRows => Ok None
           | QueryFailed => Err ErrStorage
           | Scanned v => decode_claim token v
           end)
  end).

Definition valid_record {A} (v : Retirement) (p : prog (result user_error A)) : prog (result user_error A) :=
  avatar_valid (rt_Subject v) (refuse (is_zero (rt_FileID v) || is_zero (LeaseToken v)) ErrInvalidAvatar p).
(** One row was affected. *)
Definition affected (n : option Z) : result user_error bool := match n with Some n => Ok (n =? 1) | None => Err ErrStorage end.
Definition queue_Finish (v : Retirement) : prog (result user_error bool) :=
  valid_record v (n ← perform (SqlFinish v); Ret (affected n)).
Definition queue_Retry (v : Retirement) (delay : Z) : prog (result user_error bool) :=
  valid_record v (refuse ((delay <? Millisecond) || (24 * 3600 * Second <? delay)) ErrInvalidAvatar (
  n ← perform (SqlRetry v (delay / 1000 * 1000)); Ret (affected n))).

(** [CleanupError], with the file but for [ClassClaim] *)
Inductive cleanup_error := ClassClaim | ClassFinish (id : bytes) | LeaseLost (id : bytes) | ClassRetry (id : bytes) | FilesUnavailable (id : bytes) | CleanupCanceled.

Definition retry_delay (attempts : Z) : Z := Z.shiftl Second (Z.min (Z.max (attempts - 1) 0) 8).

(** [Worker.Step] *)
Definition Step : prog (result cleanup_error unit) :=
  claimed ← queue_Claim (30 * Second);
  match claimed with
  | Err _ | Panic => Ret (Err ClassClaim)
  | Ok None => Ret (Ok tt)
  | Ok (Some v) =>
      r ← Retire (rt_Subject v) (rt_FileID v);
      match r with
      | Ok _ =>
          finished ← queue_Finish v;
          Ret (match finished with
               | Ok true => Ok tt
               | Ok false => Err (LeaseLost (rt_FileID v))
               | _ => Err (ClassFinish (rt_FileID v))
               end)
      | _ =>
          canceled ← perform CtxErr;
          if canceled : bool then Ret (Err CleanupCanceled) else
          retried ← queue_Retry v (retry_delay (rt_Attempts v));
          Ret (Err (match retried with Ok _ => FilesUnavailable (rt_FileID v) | _ => ClassRetry (rt_FileID v) end))
      end
  end.

(** ** The consumer of registrations *)

Inductive Outcome := Applied | Duplicate | Invalid | Conflict | StoreError | BrokerError | AckError.

Section consumer.
Context `{EventCodec}.

(** [Store.Apply] *)
Definition store_Apply (e : Event) : prog (result user_error Outcome) :=
  match Marshal e with
  | Ok payload =>
      q ← perform (SqlApply (ev_ID e) (ev_Subject e) (sha256_Sum payload));
      Ret (match q with
           | Scanned true => Ok Applied
           | Scanned false => Ok Duplicate
           | NoRows => Err ErrEventConflict
           | QueryFailed => Err ErrStorage
           end)
  | Err e => Ret (Err e)
  | Panic => Ret Panic
  end.

(** [Service.Apply] *)
Definition Apply (e : Event) : prog (result user_error Outcome) :=
  try (Ret (Event_Validate e)) (fun _ => check_ctx (store_Apply e)).

Definition negative (seq : Z) (o : Outcome) : prog (list Outcome) :=
  sent ← perform (MsgNak seq); Ret (o :: if sent : bool then [] else [BrokerError]).

(** [handle], with the outcomes that it observes *)
Definition handle (m : Message) : prog (list Outcome) :=
  canceled ← perform CtxErr;
  if canceled : bool then Ret [] else
  match (if negb (bool_decide (msg_Subject m = event_type_v1)) then Err ErrInvalidEvent else Unmarshal (msg_Data m)) with
  | Ok e =>
      out ← Apply e;
      canceled ← perform CtxErr;
      if canceled : bool then Ret [] else
      match out with
      | Ok o => acked ← perform (MsgAck (msg_Seq m)); Ret [if acked : bool then o else AckError]
      | Err err => negative (msg_Seq m) (match err with ErrInvalidEvent => Invalid | ErrEventConflict => Conflict | _ => StoreError end)
      | Panic => Ret []
      end
  | _ => negative (msg_Seq m) Invalid
  end.

(** One turn of [Run]. *)
Definition consume : prog (list Outcome) :=
  m ← perform MsgNext;
  match m with
  | Some m => handle m
  | None => Ret []
  end.
End consumer.

(** ** Requests *)

Inductive request :=
| ReqGetMe (p : Principal)
| ReqUpdateMe (p : Principal) (f : Fields) (expected : Z)
| ReqGetSettings (p : Principal)
| ReqUpdateSettings (p : Principal) (theme : bytes) (expected : Z)
| ReqListAddresses (p : Principal)
| ReqMutateAddresses (p : Principal) (c : Command)
| ReqGetAvatar (p : Principal)
| ReqSetAvatar (p : Principal) (id : bytes) (expected : Z)
| ReqClearAvatar (p : Principal) (expected : Z)
| ReqCleanup
| ReqConsume.

Inductive answer :=
| AnsProfile (r : result user_error Profile)
| AnsSettings (r : result user_error Settings)
| AnsBook (r : result user_error Book)
| AnsAvatar (r : result user_error Avatar)
| AnsCleanup (r : result cleanup_error unit)
| AnsOutcomes (l : list Outcome).

Definition answering {A} (f : A -> answer) (p : prog A) : prog answer := r ← p; Ret (f r).

Definition program_of `{EventCodec} (q : request) : prog answer :=
  match q with
  | ReqGetMe p => answering AnsProfile (GetMe p)
  | ReqUpdateMe p f v => answering AnsProfile (UpdateMe p f v)
  | ReqGetSettings p => answering AnsSettings (GetSettings p)
  | ReqUpdateSettings p t v => answering AnsSettings (UpdateSettings p t v)
  | ReqListAddresses p => answering AnsBook (ListAddresses p)
  | ReqMutateAddresses p c => answering AnsBook (MutateAddresses p c)
  | ReqGetAvatar p => answering AnsAvatar (GetAvatar p)
  | ReqSetAvatar p id v => answering AnsAvatar (SetAvatar p id v)
  | ReqClearAvatar p v => answering AnsAvatar (ClearAvatar p v)
  | ReqCleanup => answering AnsCleanup Step
  | ReqConsume => answering AnsOutcomes consume
  end.

(** ** The world *)

(** What the outside decides about one call. *)
Record world := mkWorld {
  w_fault : fault;
  w_now : Z;
  w_today : bytes;
  w_canceled : bool;
  w_random : option bytes;
  w_locked : bytes * bytes -> bool;
  w_inspect : result code (option Inspected);
  w_retire : result code unit;
  w_message : option Message;
  w_sent : bool
}.

Definition drawn (w : world) : option bytes := b ← w_random w; if len b =? 16 then Some b else None.

(** The reply of a transaction, which is dropped with an error. *)
Definition in_tx {A} (d : user_db) (r : result user_error (user_db * A)) : user_db * result user_error A :=
  match r with Ok (d', a) => (d', Ok a) | Err e => (d, Err e) | Panic => (d, Panic) end.

Definition respond (w : world) (d : user_db) (c : call) : user_db * reply c :=
  let f := w_fault w in
  match c return user_db * reply c with
  | CtxErr => (d, w_canceled w)
  | Today => (d, w_today w)
  | RandRead => (d, drawn w)
  | NewID => (d, id ← drawn w; if is_zero id then None else Some id)
  | SqlGet id => faulty QueryFailed f d (d, sql_get d id)
  | SqlUpdate id fields expected => faulty QueryFailed f d (sql_update (w_now w) d id fields expected)
  | SqlUpdateSettings id t expected => faulty QueryFailed f d (sql_update_settings d id t expected)
  | SqlList owner => faulty (Err ErrStorage) f d (d, read_book d owner)
  | TxMutate owner c generated => faulty (Err ErrStorage) f d (in_tx d (tx_mutate d owner c generated))
  | TxSetAvatar owner id expected => faulty (Err ErrStorage) f d (in_tx d (tx_set_avatar (w_now w) d owner id expected))
  | SqlClaim lease token => faulty QueryFailed f d (sql_claim (w_now w) (w_locked w) d lease token)
  | SqlFinish v => faulty None f d (sql_finish (w_now w) d v)
  | SqlRetry v delay => faulty None f d (sql_retry (w_now w) d v delay)
  | SqlApply event subject hash => faulty QueryFailed f d (sql_apply (w_now w) d event subject hash)
  | InspectOwnedAvatar _ _ _ => (d, w_inspect w)
  | RetireOwnedAvatar _ _ => (d, w_retire w)
  | MsgNext => (d, w_message w)
  | MsgAck _ | MsgNak _ => (d, w_sent w)
  end.

Definition user_start : system reply request answer user_db := mkSystem (mkUserDb ∅ ∅ ∅ ∅) [].
Definition user_run `{EventCodec} : system reply request answer user_db -> list (event request world) -> option (system reply request answer user_db) :=
  sys_run respond program_of.
