(* ===== verification/UserBooks.v ===== *)
(** * User: address books

    The address book of an account as a finite map, what a command does to it, and
    that the transaction of [Mutate] does exactly that. *)

From S2P Require Import Prelude GoStrings GoUnicode GoText Effects UserDomain RegistrationWire UserStore.
Local Open Scope Z_scope.

(** ** Texts that the tables accept *)

Lemma zero_rune raw : text raw -> 0 ∈ raw -> 0 ∈ runes raw.
Proof.
  intros Ht. induction Ht as [|p l Hp Ht IH]; [by intros ?%elem_of_nil|]. unfold runes in *. rewrite sized_runes_cons by done. rewrite fmap_cons, elem_of_cons. intros [Hin|Hin]%elem_of_app; [left|right; by apply IH].
  destruct p as [|x rest]; [done|]. destruct (rune_bytes_shape x rest Hp) as [_ Hrest]. rewrite Forall_forall in Hrest. apply elem_of_cons in Hin as [<-|Hin]; [|specialize (Hrest 0 Hin); done].
  cbn. unfold decode_rune. done.
Qed.

Lemma control_free raw (p : Z -> bool) : utf8_Valid raw = true -> p 0 = true -> existsb p (runes raw) = false -> negb (bool_decide (0 ∈ raw)) = true.
Proof.
  intros Hv Hp He. apply negb_true_iff, bool_decide_eq_false. intros Hin. apply zero_rune in Hin; [|by apply utf8_Valid_text].
  apply not_true_iff_false in He. apply He, existsb_exists. exists 0. split; [by apply list_elem_of_In|done].
Qed.

Lemma RuneCount_pos raw : utf8_Valid raw = true -> raw <> [] -> 1 <= utf8_RuneCount raw.
Proof.
  intros Ht%utf8_Valid_text Hne. destruct Ht as [|p l Hp Ht]; [done|]. unfold utf8_RuneCount. rewrite sized_runes_cons by done. unfold len. cbn. lia.
Qed.

Lemma field_text_ok limit required multiline phone raw : address_field limit required multiline phone raw = Ok raw ->
  text_ok (if required then 1 else 0) limit (if phone then 32 else limit * 4) raw = true.
Proof.
  unfold address_field. rewrite !guard_Ok, !orb_false_iff, negb_false_iff, Ok_eq. intros (_ & (Hl & Hv) & Hc & (Hn & Hreq) & Htrim). rewrite Htrim in *. unfold text_ok.
  rewrite Hv, (control_free raw (if multiline then multiline_control else IsControl)) by (done || by destruct multiline). cbn [andb].
  assert (between (if required then 1 else 0) (utf8_RuneCount raw) limit = true) as ->; [|cbn [andb]; lia].
  assert (0 <= utf8_RuneCount raw) by apply len_nonneg. unfold between. destruct required; [|lia]. cbn [andb] in Hreq. apply bool_decide_eq_false in Hreq. pose proof (RuneCount_pos raw Hv Hreq). lia.
Qed.

(** Normalized fields satisfy the constraints of the table. *)
Lemma NewFields_check f : NewFields f = Ok f -> check_address f = true.
Proof.
  intros Hn. unfold NewFields in Hn. apply bind_Ok in Hn as (x1 & H1 & Hn). apply bind_Ok in Hn as (x2 & H2 & Hn). apply bind_Ok in Hn as (x3 & H3 & Hn). apply bind_Ok in Hn as (x4 & H4 & Hn).
  apply bind_Ok in Hn as (x5 & H5 & Hn). apply bind_Ok in Hn as (x6 & H6 & Hn). apply bind_Ok in Hn as (x7 & H7 & Hn). apply bind_Ok in Hn as (x8 & H8 & Hn).
  rewrite !guard_Ok, Ok_eq in Hn. destruct Hn as (_ & _ & Hf). rewrite <- Hf in *. cbn [Recipient ad_Phone Country PostalCode ad_City StreetHouse Apartment Comment] in *. unfold check_address. cbn [Recipient ad_Phone Country PostalCode ad_City StreetHouse Apartment Comment].
  apply field_text_ok in H1, H2, H3, H4, H5, H6, H7, H8.
  repeat match goal with H : context [?n * 4] |- _ => let o := eval vm_compute in (n * 4) in change (n * 4) with o in H end. by rewrite H1, H2, H3, H4, H5, H6, H7, H8.
Qed.

(** ** Books as maps *)

Abbreviation book := (gmap bytes (AddressFields * bool)).

Definition book_entry (a : Address) : bytes * (AddressFields * bool) := (ad_ID a, (ad_Fields a, IsDefault a)).
Definition book_map (d : user_db) (owner : bytes) : book := list_to_map (book_entry <$> address_rows d owner).

Lemma elem_of_address_rows d owner a : a ∈ address_rows d owner <-> addresses d !! (owner, ad_ID a) = Some (ad_Fields a, IsDefault a).
Proof.
  unfold address_rows. rewrite merge_sort_Permutation, list_elem_of_fmap. split.
  - intros ([[o id] [f p]] & -> & Hin). apply list_elem_of_In, filter_In in Hin as [Hin Ho]. apply list_elem_of_In, elem_of_map_to_list in Hin. unfold owned in Ho. cbn in *. by apply bool_decide_eq_true in Ho as ->.
  - intros Hl. exists ((owner, ad_ID a), (ad_Fields a, IsDefault a)). split; [by destruct a|]. apply list_elem_of_In, filter_In. split; [by apply list_elem_of_In, elem_of_map_to_list|].
    unfold owned. by apply bool_decide_eq_true.
Qed.

Lemma NoDup_address_ids d owner : NoDup (ad_ID <$> address_rows d owner).
Proof.
  unfold address_rows. rewrite merge_sort_Permutation, <- list_fmap_compose. pose proof (NoDup_fst_map_to_list (addresses d)) as Hnd. revert Hnd. generalize (map_to_list (addresses d)). intros l.
  induction l as [|[[o id] x] l IH]; [intros _; apply NoDup_nil_2|]. rewrite fmap_cons, NoDup_cons. intros [Hnin Hnd]. cbn [List.filter fst snd]. destruct (owned owner (o, id)) eqn:Ho; [|by apply IH].
  rewrite fmap_cons, NoDup_cons. split; [|by apply IH]. intros ([[o' id'] y] & He & Hin)%list_elem_of_fmap. cbn in He. subst id'. apply list_elem_of_In, filter_In in Hin as [Hin Ho'].
  unfold owned in *. apply bool_decide_eq_true in Ho, Ho'. cbn in Ho, Ho'. subst. apply Hnin. apply list_elem_of_In in Hin. by apply (list_elem_of_fmap_2 fst _ _ Hin).
Qed.

Lemma book_entries_keys d owner : (book_entry <$> address_rows d owner).*1 = ad_ID <$> address_rows d owner.
Proof. by rewrite <- list_fmap_compose. Qed.

Lemma lookup_book d owner id : book_map d owner !! id = addresses d !! (owner, id).
Proof.
  apply option_eq. intros [f p]. unfold book_map. rewrite <- elem_of_list_to_map by (rewrite book_entries_keys; apply NoDup_address_ids). rewrite list_elem_of_fmap. split.
  - intros (a & He & Hin%elem_of_address_rows). by injection He as -> -> ->.
  - intros Hl. exists (mkAddress id f p). split; [done|]. by apply elem_of_address_rows.
Qed.

Lemma book_size d owner : len (address_rows d owner) = Z.of_nat (size (book_map d owner)).
Proof.
  unfold book_map. rewrite map_size_list_to_map by (rewrite book_entries_keys; apply NoDup_address_ids). by rewrite length_fmap.
Qed.

(** What a book satisfies. *)
Record book_ok (m : book) : Prop := mkBookOk {
  bo_fields : forall id x, m !! id = Some x -> id_ok id = true /\ NewFields x.1 = Ok x.1;
  bo_limit : Z.of_nat (size m) <= MaxAddresses;
  bo_default : forall id id' f f', m !! id = Some (f, true) -> m !! id' = Some (f', true) -> id = id'
}.

(** At most one of some addresses of different identifiers is the default. *)
Lemma defaults_unique l : NoDup (ad_ID <$> l) ->
  defaults_of l <= 1 <-> (forall a b, a ∈ l -> b ∈ l -> IsDefault a = true -> IsDefault b = true -> ad_ID a = ad_ID b).
Proof.
  unfold defaults_of. intros Hnd. induction l as [|a l IH]; [split; [intros _ ? ? ?%elem_of_nil; done|unfold len; cbn; lia]|]. rewrite fmap_cons, NoDup_cons in Hnd. destruct Hnd as [Hnin Hnd]. specialize (IH Hnd). cbn [List.filter].
  destruct (IsDefault a) eqn:Ha.
  - rewrite len_cons. split.
    + intros Hl. assert (List.filter IsDefault l = []) as Hno by (apply len_zero_nil; pose proof (len_nonneg (List.filter IsDefault l)); lia).
      assert (forall b, b ∈ l -> IsDefault b = true -> False) as Hn.
      { intros b Hb Hd. assert (b ∈ List.filter IsDefault l) as Hin by (apply list_elem_of_In, filter_In; split; [by apply list_elem_of_In|done]). rewrite Hno in Hin. by apply elem_of_nil in Hin. }
      intros x y [->|Hx]%elem_of_cons [->|Hy]%elem_of_cons Hdx Hdy; [done|by destruct (Hn y)|by destruct (Hn x)|by destruct (Hn x)].
    + intros Hall. destruct (List.filter IsDefault l) as [|b k] eqn:Hf; [unfold len; cbn; lia|]. assert (b ∈ List.filter IsDefault l) as Hin by (rewrite Hf; by left). apply list_elem_of_In, filter_In in Hin as [Hin Hd].
      apply list_elem_of_In in Hin. destruct Hnin. rewrite (Hall a b); [by apply list_elem_of_fmap_2|by left|by right|done|done].
  - rewrite IH. split; intros Hall x y; [intros [->|Hx]%elem_of_cons [->|Hy]%elem_of_cons ? ?; try congruence; by apply Hall|]. intros Hx Hy. apply Hall; by right.
Qed.

Section read.
Context (d : user_db) (owner : bytes) (r : profile_row) (Hr : profiles d !! owner = Some r) (Hid : id_ok owner = true) (Hv : version_ok (address_book_version r) = true).

Lemma id_ok_subject : NewSubjectID owner = Ok owner.
Proof. unfold id_ok in Hid. apply andb_true_iff in Hid as [Hl Hz]. apply NewSubjectID_Ok. rewrite negb_true_iff, bool_decide_eq_false in Hz. split_and!; done || lia. Qed.

Let b : Book := mkBook owner (address_book_version r) (address_rows d owner).

Lemma book_ok_wf : book_ok (book_map d owner) <-> book_wf b /\ forallb (fun a => id_ok (ad_ID a)) (Addresses b) = true.
Proof.
  assert (0 < bk_Version b <= MaxInt64) as Hver by (unfold version_ok in Hv; cbn; lia).
  assert (owner <> zero16) as Hz by (by pose proof id_ok_subject as (_ & _ & ?)%NewSubjectID_Ok).
  rewrite forallb_forall. split.
  - intros [Hf Hl Hd]. assert (forall a, a ∈ address_rows d owner -> id_ok (ad_ID a) = true /\ NewFields (ad_Fields a) = Ok (ad_Fields a)) as Hall.
    { intros a Ha%elem_of_address_rows. by apply (Hf (ad_ID a) (ad_Fields a, IsDefault a)); rewrite lookup_book. }
    split; [|intros a Ha%list_elem_of_In; by apply Hall]. split; try done.
    + apply Forall_forall. intros a Ha. destruct (Hall a Ha) as [Hi Hn]. split; [done|]. intros He. rewrite He in Hi. done.
    + apply NoDup_address_ids.
    + cbn. by rewrite book_size.
    + apply defaults_unique; [apply NoDup_address_ids|]. intros x y Hx%elem_of_address_rows Hy%elem_of_address_rows Hdx Hdy. rewrite Hdx in Hx. rewrite Hdy in Hy. by eapply Hd; rewrite lookup_book.
  - intros [[_ _ Ha _ Hl Hd] Hids]. cbn in Ha, Hl, Hd, Hids. rewrite Forall_forall in Ha. split.
    + intros id [f p] Hx. rewrite lookup_book in Hx. assert (mkAddress id f p ∈ address_rows d owner) as Hin by (by apply elem_of_address_rows). destruct (Ha _ Hin) as [Hn _]. split; [|done].
      apply (Hids (mkAddress id f p)). by apply list_elem_of_In.
    + by rewrite <- book_size.
    + intros id id' f f' Hx Hy. rewrite lookup_book in Hx, Hy. apply (proj1 (defaults_unique _ (NoDup_address_ids d owner)) Hd (mkAddress id f true) (mkAddress id' f' true)); try done; by apply elem_of_address_rows.
Qed.

Lemma read_book_Ok : book_ok (book_map d owner) -> read_book d owner = Ok b.
Proof.
  intros [Hwf Hids]%book_ok_wf. unfold read_book. rewrite Hr, id_ok_subject. cbn [map_err mbind result_bind]. fold b. rewrite guard_Ok. split; [unfold version_ok in Hv; lia|]. rewrite Hids, guard_Ok. split; [done|].
  rewrite (proj2 (Book_Validate_Ok b ltac:(unfold version_ok in Hv; cbn; lia)) Hwf). done.
Qed.

Lemma read_book_ok b' : read_book d owner = Ok b' -> b' = b /\ book_ok (book_map d owner).
Proof.
  unfold read_book. rewrite Hr, id_ok_subject. cbn [map_err mbind result_bind]. fold b. rewrite !guard_Ok, bind_Ok. intros (_ & Hids & [] & Hval & Hb). rewrite Ok_eq in Hb. subst b'. split; [done|].
  apply book_ok_wf. apply map_err_Ok in Hval. apply Book_Validate_Ok in Hval; [|unfold version_ok in Hv; cbn; lia]. by apply negb_false_iff in Hids.
Qed.
End read.

(** ** What a command does to a book *)

Definition spec_command (m : book) (c : Command) (o : Operation) (generated : bytes) : result user_error book :=
  match o with
  | Create => reject_if (MaxAddresses <=? Z.of_nat (size m)) ErrLimit;; Ok (<[generated := (cmd_Fields c, bool_decide (m = ∅))]> m)
  | Update => match m !! cmd_ID c with Some (_, p) => Ok (<[cmd_ID c := (cmd_Fields c, p)]> m) | None => Err ErrNotFound end
  | Delete => match m !! cmd_ID c with Some _ => Ok (delete (cmd_ID c) m) | None => Err ErrNotFound end
  | SetDefault => match m !! cmd_ID c with Some (f, _) => Ok (<[cmd_ID c := (f, true)]> ((fun x => (x.1, false)) <$> m)) | None => Err ErrNotFound end
  end.

(** The book of an account with its version, if it has a profile. *)
Definition account_book (d : user_db) (owner : bytes) : option (Z * book) :=
  r ← profiles d !! owner; Some (address_book_version r, book_map d owner).

Definition spec_mutate (a : option (Z * book)) (c : Command) (o : Operation) (generated : bytes) : result user_error (Z * book) :=
  match a with
  | None => Err ErrNotReady
  | Some (version, m) =>
      reject_if (negb (version =? ExpectedVersion c)) ErrAddressConflict;;
      m ← spec_command m c o generated;
      Ok (version + 1, m)
  end.

(** The account is stored as the constraints say, and its book is in order. *)
Definition account_ok (d : user_db) (owner : bytes) : Prop :=
  forall r, profiles d !! owner = Some r -> id_ok owner = true /\ check_profile r = true /\ book_ok (book_map d owner).

Section statements.
Context (d : user_db) (owner : bytes).

Lemma book_insert id x o : book_map (set_addresses d (<[(owner, id) := x]> (addresses d))) o = if decide (o = owner) then <[id := x]> (book_map d o) else book_map d o.
Proof.
  apply map_eq. intros i. rewrite lookup_book. cbn [addresses set_addresses]. destruct (decide (o = owner)) as [->|Hne].
  - destruct (decide (i = id)) as [->|Hi]; [by rewrite !lookup_insert_eq|]. by rewrite !lookup_insert_ne, lookup_book by congruence.
  - by rewrite lookup_insert_ne, lookup_book by congruence.
Qed.

Lemma book_delete id o : book_map (sql_delete_address d owner id) o = if decide (o = owner) then delete id (book_map d o) else book_map d o.
Proof.
  apply map_eq. intros i. rewrite lookup_book. cbn [addresses set_addresses sql_delete_address]. destruct (decide (o = owner)) as [->|Hne].
  - destruct (decide (i = id)) as [->|Hi]; [by rewrite !lookup_delete_eq|]. by rewrite !lookup_delete_ne, lookup_book by congruence.
  - by rewrite lookup_delete_ne, lookup_book by congruence.
Qed.

Lemma book_no_default o : book_map (sql_no_default d owner) o = if decide (o = owner) then (fun x => (x.1, false)) <$> book_map d o else book_map d o.
Proof.
  apply map_eq. intros i. rewrite lookup_book. cbn [addresses set_addresses sql_no_default]. rewrite map_lookup_imap. unfold owned. cbn [fst].
  destruct (decide (o = owner)) as [->|Hne].
  - rewrite lookup_fmap, lookup_book. destruct (addresses d !! (owner, i)); [|done]. cbn [mbind option_bind fmap option_fmap option_map]. by rewrite bool_decide_true.
  - rewrite lookup_book. destruct (addresses d !! (o, i)); [|done]. cbn [mbind option_bind]. by rewrite bool_decide_false.
Qed.

(** No address of the owner is the default. *)
Lemma no_default_exists (q : (bytes * bytes) * (AddressFields * bool) -> bool) : (forall i f, book_map d owner !! i <> Some (f, true)) ->
  (forall x, q x = true -> owned owner x.1 && x.2.2 = true) -> existsb q (map_to_list (addresses d)) = false.
Proof.
  intros Hno Hq. apply not_true_iff_false. intros ([[o i] [f b]] & Hin & Hx)%existsb_exists. apply Hq in Hx. cbn in Hx. apply andb_true_iff in Hx as [Ho Hb].
  unfold owned in Ho. apply bool_decide_eq_true in Ho. cbn in Ho. subst o. destruct b; [|done]. apply list_elem_of_In, elem_of_map_to_list in Hin. apply (Hno i f). by rewrite lookup_book.
Qed.
End statements.

Lemma book_of_addresses d d' o : addresses d' = addresses d -> book_map d' o = book_map d o.
Proof. intros He. apply map_eq. intros i. by rewrite !lookup_book, He. Qed.

Lemma check_profile_iff r : check_profile r = true <->
  check_fields (pf_fields r) = true /\ version_ok (pf_version r) = true /\ version_ok (address_book_version r) = true /\ version_ok (settings_version r) = true /\
  version_ok (avatar_version r) = true /\ Theme_Valid (theme r) = true /\ match avatar_file_id r with Some id => id_ok id | None => true end = true.
Proof. unfold check_profile. rewrite !andb_true_iff. tauto. Qed.

(** All but the version of the book. *)
Definition same_profile (r r' : profile_row) : Prop :=
  pf_fields r' = pf_fields r /\ pf_version r' = pf_version r /\ settings_version r' = settings_version r /\ avatar_version r' = avatar_version r /\ avatar_file_id r' = avatar_file_id r.

Lemma bump_book_version d owner r : profiles d !! owner = Some r -> check_profile r = true -> address_book_version r < MaxInt64 ->
  exists r', sql_book_version d owner = Some (put_profile d owner r') /\ check_profile r' = true /\ address_book_version r' = address_book_version r + 1 /\ same_profile r r'.
Proof.
  intros Hr Hc Hv. unfold sql_book_version. rewrite Hr. set (r' := mkProfileRow _ _ _ _ _ _ _ _ _). assert (check_profile r' = true) as Hc'; [|rewrite Hc'; by exists r'].
  apply check_profile_iff in Hc. apply check_profile_iff. subst r'. cbn [pf_fields pf_version address_book_version settings_version avatar_version theme avatar_file_id].
  destruct Hc as (? & ? & Hb & ?). split_and!; try tauto. unfold version_ok in *. lia.
Qed.

Lemma Command_fields c o : Command_Validate c = Ok tt -> cmd_Operation c = Some o ->
  0 < ExpectedVersion c < MaxInt64 /\ (has_fields o = true -> NewFields (cmd_Fields c) = Ok (cmd_Fields c)).
Proof.
  unfold Command_Validate, ValidVersion. intros Hc Ho. rewrite Ho, !guard_Ok in Hc. destruct Hc as (Hv & _ & Hf). apply orb_false_iff in Hv as [Hv _]. split; [lia|]. intros Hh. rewrite Hh in Hf.
  destruct (NewFields _) as [f| |]; try done. apply reject_if_Ok, negb_false_iff, bool_decide_eq_true in Hf. by rewrite Hf.
Qed.

(** A command that is refused changes nothing; one that is not keeps the book in order. *)
Lemma spec_command_ok m c o generated m' : book_ok m -> Command_Validate c = Ok tt -> cmd_Operation c = Some o ->
  (o = Create -> id_ok generated = true /\ m !! generated = None) -> spec_command m c o generated = Ok m' -> book_ok m'.
Proof.
  intros [Hf Hl Hd] Hc Ho Hgen. destruct (Command_fields c o Hc Ho) as [_ Hfields]. destruct o; cbn [spec_command].
  - rewrite guard_Ok, Ok_eq. intros [Hn <-]. destruct (Hgen eq_refl) as [Hid Hfresh]. split.
    + intros id x [[<- <-]|[_ Hx]]%lookup_insert_Some; [split; [done|by apply Hfields]|by apply Hf].
    + rewrite map_size_insert_None by done. unfold MaxAddresses in *. lia.
    + intros id id' f f' Hx Hy. apply lookup_insert_Some in Hx as [[<- Hx]|[Hne Hx]], Hy as [[<- Hy]|[Hne' Hy]]; [done| | |by eapply Hd]; exfalso.
      * injection Hx as _ Hx. apply bool_decide_eq_true in Hx. rewrite Hx in Hy. by rewrite lookup_empty in Hy.
      * injection Hy as _ Hy. apply bool_decide_eq_true in Hy. rewrite Hy in Hx. by rewrite lookup_empty in Hx.
  - destruct (m !! cmd_ID c) as [[f p]|] eqn:Hm; [|done]. rewrite Ok_eq. intros <-. split.
    + intros id x [[<- <-]|[_ Hx]]%lookup_insert_Some; [split; [by apply (Hf _ _ Hm)|by apply Hfields]|by apply Hf].
    + by rewrite map_size_insert_Some.
    + intros id id' g g' Hx Hy. apply lookup_insert_Some in Hx as [[<- Hx]|[Hne Hx]], Hy as [[<- Hy]|[Hne' Hy]]; simplify_eq; [done|by eapply Hd..].
  - destruct (m !! cmd_ID c) as [x0|] eqn:Hm; [|done]. rewrite Ok_eq. intros <-. split.
    + intros id x [_ Hx]%lookup_delete_Some. by apply Hf.
    + rewrite map_size_delete_Some by done. lia.
    + intros id id' g g' [_ Hx]%lookup_delete_Some [_ Hy]%lookup_delete_Some. by eapply Hd.
  - destruct (m !! cmd_ID c) as [[f p]|] eqn:Hm; [|done]. rewrite Ok_eq. intros <-. split.
    + intros id x [[<- <-]|[_ Hx]]%lookup_insert_Some; [by apply (Hf _ _ Hm)|]. rewrite lookup_fmap in Hx. destruct (m !! id) as [y|] eqn:Hy; [|done]. injection Hx as <-. by apply (Hf _ _ Hy).
    + rewrite map_size_insert_Some by (by rewrite lookup_fmap, Hm). by rewrite map_size_fmap.
    + assert (forall id g, (<[cmd_ID c := (f, true)]> ((fun x => (x.1, false)) <$> m) : book) !! id = Some (g, true) -> id = cmd_ID c) as Hu.
      { intros id g [[<- _]|[_ Hx]]%lookup_insert_Some; [done|]. rewrite lookup_fmap in Hx. by destruct (m !! id). }
      intros id id' g g' Hx%Hu Hy%Hu. by subst.
Qed.

(** The tables but the addresses, and the books of the other accounts. *)
Definition same_but (owner : bytes) (d d' : user_db) : Prop :=
  profiles d' = profiles d /\ retirements d' = retirements d /\ inbox d' = inbox d /\ forall o, o <> owner -> book_map d' o = book_map d o.

Section mutate.
Context (d : user_db) (owner : bytes) (r : profile_row) (c : Command) (o : Operation) (generated : bytes).
Context (Hr : profiles d !! owner = Some r) (Hok : account_ok d owner) (Hc : Command_Validate c = Ok tt) (Ho : cmd_Operation c = Some o).
Context (Hgen : o = Create -> id_ok generated = true /\ book_map d owner !! generated = None).
Let m : book := book_map d owner.
Let b : Book := mkBook owner (address_book_version r) (address_rows d owner).

Lemma found_entry id : existsb (fun a => bool_decide (ad_ID a = id)) (address_rows d owner) = bool_decide (is_Some (m !! id)).
Proof.
  apply eq_true_iff_eq. rewrite bool_decide_eq_true. unfold m. rewrite lookup_book, existsb_exists. split.
  - intros (a & Ha%list_elem_of_In & He%bool_decide_eq_true). apply elem_of_address_rows in Ha. rewrite <- He, Ha. by eexists.
  - intros [[f p] Hx]. exists (mkAddress id f p). split; [apply list_elem_of_In; by apply elem_of_address_rows|by apply bool_decide_eq_true].
Qed.

Lemma apply_command_Ok m' : spec_command m c o generated = Ok m' ->
  exists d1, apply_command d owner b c o generated = Ok d1 /\ same_but owner d d1 /\ book_map d1 owner = m'.
Proof.
  destruct (Hok r Hr) as (Hid & Hcheck & [Hf Hl Hd]). destruct (Command_fields c o Hc Ho) as [_ Hfields].
  assert (forall x f, book_map (set_addresses d (<[(owner, x) := f]> (addresses d))) owner = <[x := f]> m) as Hins by (intros; by rewrite book_insert, decide_True).
  assert (forall x f o', o' <> owner -> book_map (set_addresses d (<[(owner, x) := f]> (addresses d))) o' = book_map d o') as Hinso by (intros; by rewrite book_insert, decide_False).
  destruct o; cbn [spec_command apply_command].
  - rewrite guard_Ok, Ok_eq. intros [Hn <-]. destruct (Hgen eq_refl) as [Hg Hfresh]. cbn [Addresses b]. rewrite book_size. fold m. rewrite Hn. cbn [reject_if mbind result_bind].
    assert ((Z.of_nat (size m) =? 0) = bool_decide (m = ∅)) as ->.
    { apply eq_true_iff_eq. rewrite bool_decide_eq_true, Z.eqb_eq, <- map_size_empty_iff. lia. }
    unfold sql_insert_address. rewrite lookup_book in Hfresh. rewrite Hfresh, NewFields_check, Hg by (by apply Hfields). rewrite bool_decide_false by (by intros [? ?]). cbn [negb orb].
    assert (bool_decide (m = ∅) && existsb (fun x => owned owner x.1 && x.2.2) (map_to_list (addresses d)) = false) as ->.
    { destruct (bool_decide_reflect (m = ∅)) as [He|]; [|done]. cbn [andb]. apply (no_default_exists d owner); [|done]. intros i f. fold m. by rewrite He, lookup_empty. }
    cbn [done_or_failed]. eexists. split; [done|]. split; [|by rewrite Hins]. split_and!; [done..|]. intros o' Hne. by apply Hinso.
  - destruct (m !! cmd_ID c) as [[f p]|] eqn:Hm; [|done]. rewrite Ok_eq. intros <-. unfold sql_update_address. unfold m in Hm. rewrite lookup_book in Hm. rewrite Hm, NewFields_check by (by apply Hfields).
    cbn [done_or_failed]. eexists. split; [done|]. split; [|by rewrite Hins]. split_and!; [done..|]. intros o' Hne. by apply Hinso.
  - destruct (m !! cmd_ID c) as [x|] eqn:Hm; [|done]. rewrite Ok_eq. intros <-. eexists. split; [done|]. split; [|by rewrite book_delete, decide_True]. split_and!; [done..|]. intros o' Hne. by rewrite book_delete, decide_False.
  - destruct (m !! cmd_ID c) as [[f p]|] eqn:Hm; [|done]. rewrite Ok_eq. intros <-. unfold sql_set_default.
    assert (book_map (sql_no_default d owner) owner = (fun x => (x.1, false)) <$> m) as Hnd by (by rewrite book_no_default, decide_True).
    rewrite <- lookup_book, Hnd, lookup_fmap, Hm. cbn [fmap option_fmap option_map fst]. rewrite (no_default_exists (sql_no_default d owner) owner).
    + cbn [done_or_failed]. eexists. split; [done|]. split; [|by rewrite book_insert, decide_True, Hnd]. split_and!; [done..|]. intros o' Hne. by rewrite book_insert, decide_False, book_no_default, decide_False.
    + intros i g. rewrite Hnd, lookup_fmap. by destruct (m !! i).
    + intros x [H _]%andb_true_iff. done.
Qed.

(** The transaction, once the version matches. *)
Lemma tx_mutate_spec : u64 (address_book_version r) = ExpectedVersion c ->
  match spec_command m c o generated with
  | Ok m' => exists d' b', tx_mutate d owner c generated = Ok (d', b') /\ account_book d' owner = Some (address_book_version r + 1, m') /\
      (forall o', o' <> owner -> account_book d' o' = account_book d o') /\ b' = mkBook owner (address_book_version r + 1) (address_rows d' owner) /\
      (exists r', check_profile r' = true /\ same_profile r r' /\ profiles d' = <[owner := r']> (profiles d)) /\ retirements d' = retirements d /\ inbox d' = inbox d /\
      (forall o', o' <> owner -> book_map d' o' = book_map d o')
  | Err e => tx_mutate d owner c generated = Err e
  | Panic => False
  end.
Proof.
  intros Hver. destruct (Hok r Hr) as (Hid & Hcheck & Hbook). pose proof (proj1 (check_profile_iff r) Hcheck) as (_ & _ & Hv & _).
  pose proof Hbook as Hbook'. apply (read_book_Ok d owner r Hr Hid Hv) in Hbook'. unfold tx_mutate. rewrite Hr, Ho, Hver, Z.eqb_refl. cbn [negb].
  rewrite (proj2 (Z.ltb_ge _ _)) by (unfold version_ok in Hv; lia). cbn [reject_if mbind result_bind]. rewrite Hbook'. cbn [mbind result_bind Addresses]. rewrite found_entry.
  assert (match spec_command m c o generated with Err e => (o = Create /\ e = ErrLimit /\ (MaxAddresses <=? len (address_rows d owner)) = true) \/ (o <> Create /\ e = ErrNotFound /\ m !! cmd_ID c = None) | Ok _ => o <> Create -> is_Some (m !! cmd_ID c) | Panic => False end) as Hcase.
  { destruct o; cbn [spec_command]; [rewrite book_size; fold m; destruct (MaxAddresses <=? _) eqn:Hn; cbn [reject_if mbind result_bind]; [by left|done]|..]; (destruct (m !! cmd_ID c) as [[f p]|] eqn:Hm; [done|by right]). }
  destruct (spec_command m c o generated) as [m'|e|] eqn:Hspec; [|destruct Hcase as [(-> & -> & Hfull)|(Hne & -> & Hm)]|done].
  - assert (negb (bool_decide (o = Create)) && negb (bool_decide (is_Some (m !! cmd_ID c))) = false) as ->.
    { destruct (bool_decide_reflect (o = Create)); [done|]. by rewrite bool_decide_true by (by apply Hcase). }
    cbn [reject_if mbind result_bind]. destruct (apply_command_Ok m' Hspec) as (d1 & Ha & (Hp1 & Hr1 & Hi1 & Hothers) & Hm1). fold b. rewrite Ha. cbn [mbind result_bind].
    destruct (Command_fields c o Hc Ho) as [Hexp _]. rewrite u64_small in Hver by (unfold version_ok in Hv; change MaxInt64 with (2 ^ 63 - 1) in Hv; lia).
    destruct (bump_book_version d1 owner r) as (r' & Hb & Hcr' & Hvr' & Hsame); [by rewrite Hp1|done|lia|]. rewrite Hb. cbn [done_or_failed mbind result_bind].
    set (d2 := put_profile d1 owner r'). assert (forall o', book_map d2 o' = book_map d1 o') as Hd2 by (intros; by apply book_of_addresses).
    assert (profiles d2 !! owner = Some r') as Hr2 by apply lookup_insert_eq. pose proof (proj1 (check_profile_iff r') Hcr') as (_ & _ & Hv' & _).
    assert (book_ok (book_map d2 owner)) as Hbok by (rewrite Hd2, Hm1; by eapply spec_command_ok).
    rewrite (read_book_Ok d2 owner r' Hr2 Hid Hv' Hbok). cbn [mbind result_bind]. eexists d2, _. split; [done|]. split_and!.
    + unfold account_book. rewrite Hr2. cbn [mbind option_bind]. by rewrite Hvr', Hd2, Hm1.
    + intros o' Hne. unfold account_book. subst d2. cbn [put_profile set_profiles profiles]. rewrite lookup_insert_ne, Hp1 by done. destruct (profiles d !! o'); [|done]. cbn [mbind option_bind]. by rewrite Hd2, Hothers.
    + by rewrite Hvr'.
    + exists r'. split_and!; [done|done|subst d2; cbn; by rewrite Hp1].
    + subst d2. by cbn.
    + subst d2. by cbn.
    + intros o' Hne. by rewrite Hd2, Hothers.
  - rewrite bool_decide_true by done. cbn [negb andb reject_if mbind result_bind apply_command Addresses]. by rewrite Hfull.
  - rewrite bool_decide_false, Hm, bool_decide_false by (done || by intros [? ?]). done.
Qed.
End mutate.

(** C25. The transaction of [Mutate] refines the book as a finite map: on an account in
    order, a valid command is answered what the specification says, [ErrNotReady]
    without a profile, [ErrConflict] for another version, [ErrNotFound] or [ErrLimit],
    and otherwise stores exactly the new book under the next version, leaves every
    other account alone and answers the book that it stored. *)
Theorem address_books_follow_commands (d : user_db) (owner : bytes) (c : Command) (o : Operation) (generated : bytes) :
  account_ok d owner -> Command_Validate c = Ok tt -> cmd_Operation c = Some o ->
  (o = Create -> id_ok generated = true /\ book_map d owner !! generated = None) ->
  match spec_mutate (account_book d owner) c o generated with
  | Ok (version, m) =>
      exists d' b, tx_mutate d owner c generated = Ok (d', b) /\ account_book d' owner = Some (version, m) /\ account_ok d' owner /\
        (forall other, other <> owner -> account_book d' other = account_book d other) /\
        bk_Subject b = owner /\ bk_Version b = version /\
        forall a, a ∈ Addresses b <-> m !! ad_ID a = Some (ad_Fields a, IsDefault a)
  | Err e => tx_mutate d owner c generated = Err e
  | Panic => False
  end.
Proof.
  intros Hok Hc Ho Hgen. unfold spec_mutate, account_book at 1. destruct (profiles d !! owner) as [r|] eqn:Hr; cbn [mbind option_bind]; [|unfold tx_mutate; by rewrite Hr].
  destruct (Hok r Hr) as (Hid & Hcheck & Hbook). pose proof (proj1 (check_profile_iff r) Hcheck) as (_ & _ & Hv & _).
  assert (u64 (address_book_version r) = address_book_version r) as Hu by (apply u64_small; unfold version_ok in Hv; change MaxInt64 with (2 ^ 63 - 1) in Hv; lia).
  destruct (Z.eqb_spec (address_book_version r) (ExpectedVersion c)) as [He|Hne]; cbn [negb reject_if mbind result_bind].
  - pose proof (tx_mutate_spec d owner r c o generated Hr Hok Hc Ho Hgen) as Hspec. rewrite Hu in Hspec. specialize (Hspec He).
    destruct (spec_command _ _ _ _) as [m'|e|] eqn:Hm; [|done..]. cbn [mbind result_bind]. destruct Hspec as (d' & b & Htx & Hab & Hothers & Hb & (r' & Hr' & _ & Hp) & _).
    exists d', b. assert (book_map d' owner = m') as Hbm by (unfold account_book in Hab; rewrite Hp, lookup_insert_eq in Hab; cbn in Hab; by injection Hab).
    subst b. split_and!; try done.
    + intros r1. rewrite Hp, lookup_insert_eq. intros [= <-]. split_and!; [done..|]. rewrite Hbm. by eapply spec_command_ok.
    + intros a. cbn [Addresses]. rewrite elem_of_address_rows, <- lookup_book, Hbm. done.
  - unfold tx_mutate. rewrite Hr, Ho, Hu, (proj2 (Z.ltb_ge _ _)) by (unfold version_ok in Hv; lia). cbn [reject_if mbind result_bind]. by rewrite (proj2 (Z.eqb_neq _ _) Hne).
Qed.

Definition book_sample_id : bytes := replicate 15 0 ++ [2].
Definition book_sample : user_db := put_profile (mkUserDb ∅ ∅ ∅ ∅) book_sample_id (default_profile 1000).
Definition book_sample_command : Command :=
  mkCommand (Some Create) zero16 (mkAddressFields (bytes_of "Ada") (bytes_of "+44 20 7946 0000") (bytes_of "UK") [] (bytes_of "London") (bytes_of "St James's Square 12") [] []) 1.

Lemma book_sample_ok : account_ok book_sample book_sample_id.
Proof.
  intros r Hr. vm_compute in Hr. injection Hr as <-. assert (book_map book_sample book_sample_id = ∅) as -> by reflexivity.
  split; [reflexivity|]. split; [vm_compute; reflexivity|]. split; intros *; (rewrite lookup_empty; done) || (vm_compute; done).
Qed.

Lemma address_books_follow_commands_witness : exists d' b, tx_mutate book_sample book_sample_id book_sample_command (replicate 15 0 ++ [7]) = Ok (d', b) /\ bk_Version b = 2.
Proof.
  pose proof (address_books_follow_commands book_sample book_sample_id book_sample_command Create (replicate 15 0 ++ [7]) book_sample_ok ltac:(vm_compute; reflexivity) eq_refl ltac:(intros _; split; vm_compute; reflexivity)) as H.
  change (spec_mutate _ _ _ _) with (Ok (E := user_error) (2, <[replicate 15 0 ++ [7] := (cmd_Fields book_sample_command, true)]> (∅ : book))) in H. cbn beta iota in H.
  destruct H as (d' & b & Ht & _ & _ & _ & _ & Hv & _). exists d', b. split; [exact Ht|exact Hv].
Defined.
