(* ===== verification/UserHistory.v ===== *)
(** * User: what one call does

    The invariant of the stored profiles, books, retirements and inbox, that every
    guarded call keeps it, and what never goes back: versions, retirements, facts. *)

From S2P Require Import Prelude GoStrings GoUnicode GoText Sha256 Effects UserDomain RegistrationWire UserStore UserService UserBooks.
Local Open Scope Z_scope.

(** ** The database *)

Record user_ok (d : user_db) : Prop := mkUserOk {
  uo_account : forall owner, account_ok d owner;
  uo_addresses : forall k x, addresses d !! k = Some x -> is_Some (profiles d !! k.1);
  uo_retired : forall k x, retirements d !! k = Some x -> is_Some (profiles d !! k.1) /\ id_ok k.2 = true;
  (** a retired file is not the avatar *)
  uo_current : forall owner r id, profiles d !! owner = Some r -> avatar_file_id r = Some id -> retirements d !! (owner, id) = None;
  (** the profiles are the registered accounts *)
  uo_inbox : forall e x, inbox d !! e = Some x -> is_Some (profiles d !! in_subject x);
  uo_registered : forall owner r, profiles d !! owner = Some r -> exists e x, inbox d !! e = Some x /\ in_subject x = owner
}.

Lemma user_ok_start : user_ok (mkUserDb ∅ ∅ ∅ ∅).
Proof. split; unfold account_ok; cbn; try (intros ? ? Hx; by rewrite lookup_empty in Hx). intros ? ? ? Hx. by rewrite lookup_empty in Hx. Qed.

(** The four versions of an account. *)
Inductive versioned := VProfile | VSettings | VBook | VAvatar.
Definition version_of (v : versioned) (r : profile_row) : Z :=
  match v with VProfile => pf_version r | VSettings => settings_version r | VBook => address_book_version r | VAvatar => avatar_version r end.

(** What only grows. *)
Record later (d d' : user_db) : Prop := mkLater {
  la_profiles : forall id r, profiles d !! id = Some r -> exists r', profiles d' !! id = Some r' /\ forall v, version_of v r <= version_of v r';
  la_retired : forall k, is_Some (retirements d !! k) -> is_Some (retirements d' !! k);
  la_inbox : forall e x, inbox d !! e = Some x -> inbox d' !! e = Some x
}.

Lemma user_later_refl d : later d d.
Proof. split; [|done..]. intros id r Hr. exists r. split; [done|]. intros. lia. Qed.

Lemma user_later_trans d1 d2 d3 : later d1 d2 -> later d2 d3 -> later d1 d3.
Proof.
  intros [P1 R1 I1] [P2 R2 I2]. split; [|auto..]. intros id r Hr. destruct (P1 id r Hr) as (r' & Hr' & Hv). destruct (P2 id r' Hr') as (r'' & Hr'' & Hv'). exists r''. split; [done|].
  intros v. specialize (Hv v). specialize (Hv' v). lia.
Qed.

(** A row that is replaced. *)
Lemma put_profile_ok d id r r' : user_ok d -> profiles d !! id = Some r -> check_profile r' = true ->
  (forall a, avatar_file_id r' = Some a -> retirements d !! (id, a) = None) -> user_ok (put_profile d id r').
Proof.
  intros [Ha Hf Hr Hc Hi Hg] Hl Hcheck Hav. assert (forall k, is_Some (profiles d !! k) -> is_Some (profiles (put_profile d id r') !! k)) as Hkeep.
  { intros k Hk. cbn. destruct (decide (id = k)) as [<-|]; [rewrite lookup_insert_eq; by eexists|by rewrite lookup_insert_ne]. }
  split.
  - intros owner x Hx. cbn in Hx. rewrite (book_of_addresses d) by done. apply lookup_insert_Some in Hx as [[<- <-]|[_ Hx]]; [|by apply Ha].
    destruct (Ha id r Hl) as (? & _ & ?). done.
  - intros k x Hx. apply Hkeep. by eapply Hf.
  - intros k x Hx. split; [apply Hkeep|]; by eapply Hr.
  - intros owner x a Hx Hxa. cbn in Hx. apply lookup_insert_Some in Hx as [[<- <-]|[_ Hx]]; [by apply Hav|by eapply Hc].
  - intros e x Hx. apply Hkeep. by eapply Hi.
  - intros owner x Hx. cbn in Hx. apply lookup_insert_Some in Hx as [[<- <-]|[_ Hx]]; by eapply Hg.
Qed.

Lemma put_profile_later d id r r' : profiles d !! id = Some r -> (forall v, version_of v r <= version_of v r') -> later d (put_profile d id r').
Proof.
  intros Hl Hv. split; [|done..]. intros k x Hx. cbn. destruct (decide (id = k)) as [<-|Hne].
  - rewrite lookup_insert_eq. exists r'. split; [done|]. by assert (x = r) as -> by congruence.
  - rewrite lookup_insert_ne by done. exists x. split; [done|]. intros. lia.
Qed.

(** A database that follows another. *)
Definition follows (d d' : user_db) : Prop := user_ok d' /\ later d d'.

Lemma follows_refl d : user_ok d -> follows d d.
Proof. intros. split; [done|apply user_later_refl]. Qed.

Section calls.
Context (d : user_db) (Hok : user_ok d).

Lemma put_checked_follows id r r' : profiles d !! id = Some r -> (forall v, version_of v r <= version_of v r') ->
  (forall a, avatar_file_id r' = Some a -> retirements d !! (id, a) = None) -> follows d (put_checked d id r').1.
Proof.
  intros Hl Hv Ha. unfold put_checked. destruct (check_profile r') eqn:Hc; [|by apply follows_refl]. split; [by eapply put_profile_ok|by eapply put_profile_later].
Qed.

Lemma sql_update_follows now id f e : follows d (sql_update now d id f e).1.
Proof.
  unfold sql_update. destruct (profiles d !! id) as [r|] eqn:Hr; [|by apply follows_refl]. destruct (_ =? _); [|by apply follows_refl].
  apply (put_checked_follows id r); [done|intros []; cbn; lia|]. intros a Ha. by eapply (uo_current _ Hok).
Qed.

Lemma sql_update_settings_follows id t e : follows d (sql_update_settings d id t e).1.
Proof.
  unfold sql_update_settings. destruct (profiles d !! id) as [r|] eqn:Hr; [|by apply follows_refl]. destruct (_ =? _); [|by apply follows_refl].
  apply (put_checked_follows id r); [done|intros []; cbn; lia|]. intros a Ha. by eapply (uo_current _ Hok).
Qed.

(** A retirement that is added or updated. *)
Lemma set_retirement_follows k x : is_Some (profiles d !! k.1) -> id_ok k.2 = true ->
  (is_Some (retirements d !! k) \/ forall r, profiles d !! k.1 = Some r -> avatar_file_id r <> Some k.2) -> follows d (set_retirements d (<[k := x]> (retirements d))).
Proof.
  intros Hp Hid Hk. destruct Hok as [Ha Hf Hr Hc Hi Hg]. split.
  - split; try done.
    + intros k' y Hy. cbn in Hy. apply lookup_insert_Some in Hy as [[<- _]|[_ Hy]]; [done|by eapply Hr].
    + intros owner r id Hl Hav. cbn. destruct (decide (k = (owner, id))) as [->|Hne]; [|rewrite lookup_insert_ne by done; by eapply Hc].
      exfalso. destruct Hk as [[y Hy]|Hk]; [by rewrite (Hc owner r id Hl Hav) in Hy|by eapply Hk].
  - split; [|intros k' Hk'; cbn|done].
    + intros id r Hr'. exists r. split; [done|]. intros. lia.
    + destruct (decide (k = k')) as [<-|Hne]; [rewrite lookup_insert_eq; by eexists|by rewrite lookup_insert_ne].
Qed.

Lemma update_retirement_follows v now f : follows d (update_retirement d v now f).1.
Proof.
  unfold update_retirement. destruct (retirements d !! _) as [x|] eqn:Hx; [|by apply follows_refl]. destruct (leased _ _ _); [|by apply follows_refl].
  destruct (uo_retired _ Hok _ _ Hx) as [Hp Hid]. apply set_retirement_follows; [done|done|left; by eexists].
Qed.

(** What a claim returns is a retirement. *)
Lemma sql_claim_row now locked lease token v : (sql_claim now locked d lease token).2 = Scanned v ->
  LeaseToken v = token /\ exists x, retirements d !! (rt_Subject v, rt_FileID v) = Some x /\ due now x = true.
Proof.
  unfold sql_claim. destruct (first_by _ _) as [[k x]|] eqn:Hf; [|done]. apply first_by_in, list_elem_of_In, filter_In in Hf as [Hin Hx]. apply list_elem_of_In, elem_of_map_to_list in Hin.
  intros [= <-]. cbn in *. destruct k. cbn in *. apply andb_true_iff in Hx as [Hx _]. split; [done|by exists x].
Qed.

Lemma sql_claim_follows now locked lease token : follows d (sql_claim now locked d lease token).1.
Proof.
  unfold sql_claim. destruct (first_by _ _) as [[k x]|] eqn:Hf; [|by apply follows_refl]. apply first_by_in, list_elem_of_In, filter_In in Hf as [Hin _]. apply list_elem_of_In, elem_of_map_to_list in Hin.
  destruct (uo_retired _ Hok _ _ Hin). apply set_retirement_follows; [done|done|left; by eexists].
Qed.

Lemma sql_project_follows now subject : id_ok subject = true ->
  forall e x, inbox d !! e = None -> in_subject x = subject ->
  follows d (sql_project now (mkUserDb (profiles d) (addresses d) (retirements d) (<[e := x]> (inbox d))) subject).
Proof.
  intros Hid e x He Hx. destruct Hok as [Ha Hf Hr Hc Hi Hg].
  assert (forall e' y, inbox d !! e' = Some y -> <[e:=x]> (inbox d) !! e' = Some y) as Hkeep.
  { intros e' y Hy. rewrite lookup_insert_ne; [done|]. by intros ->; rewrite He in Hy. }
  unfold sql_project. cbn [profiles addresses retirements inbox]. destruct (profiles d !! subject) as [r|] eqn:Hs.
  - split; [|split; [|done|exact Hkeep]].
    + split; try done; cbn [profiles addresses retirements inbox].
      * intros e' y [[<- <-]|[_ Hy]]%lookup_insert_Some; [rewrite Hx, Hs; by eexists|by eapply Hi].
      * intros owner y Hy. destruct (Hg owner y Hy) as (e' & z & Hz & <-). exists e', z. split; [by apply Hkeep|done].
    + intros id y Hy. exists y. split; [done|]. intros. lia.
  - assert (forall k, is_Some (profiles d !! k) -> is_Some (<[subject := default_profile now]> (profiles d) !! k)) as Hkp.
    { intros k [y Hy]. rewrite lookup_insert_ne; [by exists y|]. by intros ->; rewrite Hs in Hy. }
    split; [split|split]; cbn [profiles addresses retirements inbox put_profile set_profiles].
    + intros owner y Hy. cbn in Hy. rewrite (book_of_addresses d) by done. apply lookup_insert_Some in Hy as [[<- <-]|[_ Hy]]; [|by apply Ha].
      assert (book_map d subject = ∅) as ->.
      { apply map_eq. intros i. rewrite lookup_empty, lookup_book. apply eq_None_not_Some. intros [y Hy]. apply Hf in Hy as [? Hy]. cbn in Hy. by rewrite Hs in Hy. }
      split_and!; [done|by vm_compute|]. split; [intros ? ? Hx0; by rewrite lookup_empty in Hx0|by vm_compute|intros ? ? ? ? Hx0; by rewrite lookup_empty in Hx0].
    + intros k y Hy. apply Hkp. by eapply Hf.
    + intros k y Hy. split; [apply Hkp|]; by eapply Hr.
    + intros owner y id [[<- <-]|[_ Hy]]%lookup_insert_Some Hav; [done|by eapply Hc].
    + intros e' y [[<- <-]|[_ Hy]]%lookup_insert_Some; [rewrite Hx, lookup_insert_eq; by eexists|]. apply Hkp. by eapply Hi.
    + intros owner y [[<- <-]|[_ Hy]]%lookup_insert_Some; [exists e, x; split; [by rewrite lookup_insert_eq|done]|].
      destruct (Hg owner y Hy) as (e' & z & Hz & <-). exists e', z. split; [by apply Hkeep|done].
    + intros id y Hy. exists y. split; [|intros; lia]. rewrite lookup_insert_ne; [done|]. by intros ->; rewrite Hs in Hy.
    + done.
    + exact Hkeep.
Qed.

Lemma sql_apply_follows now e subject hash : follows d (sql_apply now d e subject hash).1.
Proof.
  unfold sql_apply. destruct (_ || _) eqn:Hg; [by apply follows_refl|]. apply orb_false_iff in Hg as [[_ Hid%negb_false_iff]%orb_false_iff _].
  destruct (inbox d !! e) as [x|] eqn:He.
  - destruct (_ && _) eqn:Hx; [|by apply follows_refl]. apply andb_true_iff in Hx as [Hx%bool_decide_eq_true _].
    unfold sql_project. destruct (uo_inbox _ Hok _ _ He) as [r Hr]. rewrite Hx in Hr. rewrite Hr. by apply follows_refl.
  - by apply sql_project_follows.
Qed.
End calls.

(** ** Transactions *)

Lemma tx_mutate_fresh d owner c generated x : tx_mutate d owner c generated = Ok x -> cmd_Operation c = Some Create ->
  id_ok generated = true /\ book_map d owner !! generated = None.
Proof.
  intros Ht Ho. unfold tx_mutate in Ht. rewrite Ho in Ht. destruct (profiles d !! owner) as [r|]; [|done]. rewrite !guard_Ok in Ht. destruct Ht as (_ & _ & Ht). apply bind_Ok in Ht as (b & _ & Ht).
  rewrite guard_Ok in Ht. destruct Ht as [_ Ht]. apply bind_Ok in Ht as (d1 & Ht & _). cbn [apply_command] in Ht. rewrite guard_Ok in Ht. destruct Ht as [_ Ht].
  unfold sql_insert_address in Ht. destruct (_ || _) eqn:Hg; [done|]. apply orb_false_iff in Hg as [Hg _]. apply orb_false_iff in Hg as [Hg Hid%negb_false_iff]. apply orb_false_iff in Hg as [Hn _].
  apply bool_decide_eq_false in Hn. rewrite lookup_book. split; [done|]. by apply eq_None_not_Some.
Qed.

Lemma tx_mutate_operation d owner c generated x : tx_mutate d owner c generated = Ok x -> exists r o, profiles d !! owner = Some r /\ cmd_Operation c = Some o /\ u64 (address_book_version r) = ExpectedVersion c.
Proof.
  unfold tx_mutate. destruct (profiles d !! owner) as [r|]; [|done]. destruct (cmd_Operation c) as [o|]; [|done]. rewrite !guard_Ok. intros (_ & Hv & _). exists r, o. split_and!; try done. apply negb_false_iff in Hv. lia.
Qed.

Lemma account_version d owner r : user_ok d -> profiles d !! owner = Some r -> forall v, 1 <= version_of v r <= MaxInt64.
Proof.
  intros Hok Hr v. destruct (uo_account _ Hok owner r Hr) as (_ & Hc & _). apply check_profile_iff in Hc as (_ & H1 & H2 & H3 & H4 & _). unfold version_ok in *. destruct v; cbn; lia.
Qed.

(** A version as the code reads it. *)
Lemma account_u64 d owner r : user_ok d -> profiles d !! owner = Some r -> forall v, u64 (version_of v r) = version_of v r.
Proof. intros Hok Hr v. apply u64_small. pose proof (account_version d owner r Hok Hr v). change MaxInt64 with (2 ^ 63 - 1) in *. lia. Qed.

(** The account moved from version [e] to the next. *)
Definition bumped (v : versioned) (owner : bytes) (e : Z) (d d' : user_db) : Prop :=
  (exists r, profiles d !! owner = Some r /\ version_of v r = e) /\ exists r, profiles d' !! owner = Some r /\ version_of v r = e + 1.

Lemma tx_mutate_follows d owner c generated d' b : user_ok d -> Command_Validate c = Ok tt -> tx_mutate d owner c generated = Ok (d', b) ->
  follows d d' /\ bumped VBook owner (ExpectedVersion c) d d' /\ bk_Subject b = owner /\ Book_Validate b = Ok tt.
Proof.
  intros Hok Hc Ht. destruct (tx_mutate_operation _ _ _ _ _ Ht) as (r & o & Hr & Ho & Hv).
  assert (o = Create -> id_ok generated = true /\ book_map d owner !! generated = None) as Hgen by (intros ->; by eapply tx_mutate_fresh).
  pose proof (tx_mutate_spec d owner r c o generated Hr (uo_account _ Hok owner) Hc Ho Hgen Hv) as Hspec. destruct (spec_command _ _ _ _) as [m'|e|] eqn:Hm; [|by rewrite Hspec in Ht|done].
  destruct Hspec as (d1 & b1 & Ht1 & Hab & Hothers & Hb & (r' & Hc' & (Hf & Hv1 & Hv2 & Hv3 & Hav) & Hp) & Hret & Hin & Hbooks). rewrite Ht1 in Ht. injection Ht as <- <-.
  change (u64 (version_of VBook r) = ExpectedVersion c) in Hv. rewrite (account_u64 _ _ _ Hok Hr) in Hv. cbn in Hv.
  assert (account_book d1 owner = Some (address_book_version r', book_map d1 owner)) as Hab' by (unfold account_book; by rewrite Hp, lookup_insert_eq).
  rewrite Hab in Hab'. injection Hab' as Hvr Hbm. destruct (uo_account _ Hok owner r Hr) as (Hid & _ & Hbook).
  assert (book_ok (book_map d1 owner)) as Hbok by (rewrite <- Hbm; by eapply spec_command_ok).
  assert (forall k, is_Some (profiles d !! k) -> is_Some (profiles d1 !! k)) as Hkp by (intros k Hk; rewrite Hp; destruct (decide (owner = k)) as [<-|]; [rewrite lookup_insert_eq; by eexists|by rewrite lookup_insert_ne]).
  split_and!.
  - split; [split|split].
    + intros o' x Hx. destruct (decide (o' = owner)) as [->|Hne].
      * rewrite Hp, lookup_insert_eq in Hx. injection Hx as <-. done.
      * rewrite Hp, lookup_insert_ne in Hx by done. rewrite Hbooks by done. by apply (uo_account _ Hok).
    + intros [o' i] x Hx. cbn. destruct (decide (o' = owner)) as [->|Hne]; [apply Hkp; by eexists|].
      apply Hkp. rewrite <- lookup_book, Hbooks, lookup_book in Hx by done. by eapply (uo_addresses _ Hok (o', i)).
    + intros k x Hx. rewrite Hret in Hx. destruct (uo_retired _ Hok _ _ Hx). split; [by apply Hkp|done].
    + intros o' x i Hx Hxa. rewrite Hret. rewrite Hp in Hx. apply lookup_insert_Some in Hx as [[<- <-]|[_ Hx]]; [rewrite Hav in Hxa; by eapply (uo_current _ Hok)|by eapply (uo_current _ Hok)].
    + intros e x Hx. rewrite Hin in Hx. apply Hkp. by eapply (uo_inbox _ Hok).
    + intros o' x Hx. rewrite Hin. rewrite Hp in Hx. apply lookup_insert_Some in Hx as [[<- <-]|[_ Hx]]; by eapply (uo_registered _ Hok).
    + intros k x Hx. rewrite Hp. destruct (decide (owner = k)) as [<-|Hne]; [rewrite lookup_insert_eq|rewrite lookup_insert_ne by done; exists x; split; [done|intros; lia]].
      exists r'. split; [done|]. assert (x = r) as -> by congruence. intros []; cbn; lia.
    + intros k Hk. by rewrite Hret.
    + intros e x Hx. by rewrite Hin.
  - split; [by exists r|]. exists r'. split; [by rewrite Hp, lookup_insert_eq|]. cbn. lia.
  - by subst b1.
  - subst b1. apply Book_Validate_Ok; [cbn; pose proof (account_version d owner r Hok Hr VBook); cbn in *; lia|].
    apply check_profile_iff in Hc' as (_ & _ & Hv' & _). pose proof (proj1 (book_ok_wf d1 owner r' Hid Hv') Hbok) as [Hwf _]. by rewrite Hvr.
Qed.

Definition stored_file (r : profile_row) : bytes := match avatar_file_id r with Some id => id | None => zero16 end.

Lemma decode_avatar_Ok raw r a : decode_avatar (Scanned (raw, r)) = Ok a ->
  a = mkAvatar raw (u64 (avatar_version r)) (stored_file r) /\ (forall id, avatar_file_id r = Some id -> id_ok id = true).
Proof.
  unfold decode_avatar, stored_file. rewrite bind_Ok. intros (s & Hs & H). apply map_err_Ok, NewSubjectID_Ok in Hs as (-> & _). rewrite guard_Ok, bind_Ok in H. destruct H as (_ & id & Hid & Ha). rewrite Ok_eq in Ha. subst a.
  destruct (avatar_file_id r) as [x|]; [|by injection Hid as <-]. unfold ParseFileID in Hid. rewrite guard_Ok, Ok_eq in Hid. destruct Hid as [Hg ->]. split; [done|]. intros ? [= <-]. unfold id_ok.
  apply orb_false_iff in Hg as [H1%negb_false_iff H2]. by rewrite H1, H2.
Qed.

Lemma sql_retire_follows now d owner id : user_ok d -> is_Some (profiles d !! owner) -> id_ok id = true ->
  (forall r, profiles d !! owner = Some r -> avatar_file_id r <> Some id) -> follows d (sql_retire now d owner id).
Proof.
  intros Hok Hp Hid Hav. unfold sql_retire. destruct (retirements d !! (owner, id)); [by apply follows_refl|]. apply set_retirement_follows; [done|done|done|by right].
Qed.

Lemma sql_retire_profiles now d owner id : profiles (sql_retire now d owner id) = profiles d.
Proof. unfold sql_retire. by destruct (retirements d !! (owner, id)). Qed.

(** The avatar is replaced before the old one is retired: the order of the statements
    of a transaction does not matter to others. *)
Lemma retire_then_put now d owner id r r' : user_ok d -> profiles d !! owner = Some r -> check_profile r = true -> check_profile r' = true -> id_ok id = true ->
  (forall v, version_of v r <= version_of v r') -> avatar_file_id r' <> Some id -> (forall a, avatar_file_id r' = Some a -> retirements d !! (owner, a) = None) ->
  follows d (put_profile (sql_retire now d owner id) owner r').
Proof.
  intros Hok Hr Hc Hc' Hid Hv Hne Hav. assert (put_profile (sql_retire now d owner id) owner r' = sql_retire now (put_profile d owner r') owner id) as ->.
  { unfold sql_retire, put_profile, set_profiles, set_retirements. cbn. by destruct (retirements d !! (owner, id)). }
  pose proof (put_profile_ok d owner r r' Hok Hr Hc' Hav) as Hok1. pose proof (put_profile_later d owner r r' Hr Hv) as Hl1.
  destruct (sql_retire_follows now (put_profile d owner r') owner id Hok1) as [Hok2 Hl2]; [cbn; rewrite lookup_insert_eq; by eexists|done|cbn; rewrite lookup_insert_eq; by intros ? [= <-]|].
  split; [done|by eapply user_later_trans].
Qed.

Lemma tx_set_avatar_follows now d owner id e d' a : user_ok d -> ValidVersion e = true -> tx_set_avatar now d owner id e = Ok (d', a) ->
  follows d d' /\ bumped VAvatar owner e d d' /\ a = mkAvatar owner (e + 1) id.
Proof.
  intros Hok He Ht. unfold tx_set_avatar, sql_get in Ht. destruct (profiles d !! owner) as [r|] eqn:Hr; [|done]. apply bind_Ok in Ht as (cur & Hcur & Ht).
  apply decode_avatar_Ok in Hcur as [-> Hcid]. rewrite !guard_Ok in Ht. destruct Ht as (Hver%negb_false_iff%Z.eqb_eq & Hnret & Ht). cbn [av_Version FileID] in *.
  pose proof (account_u64 d owner r Hok Hr VAvatar) as Hu. cbn in Hu. rewrite Hu in Hver.
  assert (profiles (if negb (bool_decide (stored_file r = zero16)) && negb (bool_decide (stored_file r = id)) then sql_retire now d owner (stored_file r) else d) = profiles d) as Hp.
  { destruct (negb (bool_decide (stored_file r = zero16)) && negb (bool_decide (stored_file r = id))); [apply sql_retire_profiles|done]. }
  rewrite Hp, Hr in Ht. set (r1 := mkProfileRow _ _ _ _ _ _ _ _ _) in Ht. unfold put_checked in Ht. destruct (check_profile r1) eqn:Hc'; [|done]. apply bind_Ok in Ht as (a' & Ha & Ht). injection Ht as <- <-.
  apply decode_avatar_Ok in Ha as [-> _]. destruct (uo_account _ Hok owner r Hr) as (_ & Hc & _).
  assert (forall v, version_of v r <= version_of v r1) as Hvs by (intros []; cbn; lia).
  assert (avatar_file_id r1 = if bool_decide (id = zero16) then None else Some id) as Hav1 by done.
  assert (forall x, avatar_file_id r1 = Some x -> retirements d !! (owner, x) = None) as Hav.
  { intros x. rewrite Hav1. destruct (bool_decide_reflect (id = zero16)); [done|]. intros [= <-]. cbn [negb andb] in Hnret. apply bool_decide_eq_false in Hnret. by apply eq_None_not_Some. }
  split_and!.
  - destruct (negb (bool_decide (stored_file r = zero16)) && negb (bool_decide (stored_file r = id))) eqn:Hret.
    + apply andb_true_iff in Hret as [Hz%negb_true_iff%bool_decide_eq_false Hd%negb_true_iff%bool_decide_eq_false].
      apply (retire_then_put now d owner _ r); try done.
      * unfold stored_file in *. destruct (avatar_file_id r) as [x|]; [by apply Hcid|done].
      * rewrite Hav1. destruct (bool_decide (id = zero16)); [done|]. intros [= ->]. done.
    + split; [by eapply put_profile_ok|by eapply put_profile_later].
  - split; [by exists r|]. exists r1. split; [cbn; apply lookup_insert_eq|]. cbn. lia.
  - f_equal.
    + cbn. rewrite Hver. apply u64_small. unfold ValidVersion in He. change MaxInt64 with (2 ^ 63 - 1) in He. lia.
    + unfold stored_file. rewrite Hav1. by destruct (bool_decide_reflect (id = zero16)).
Qed.

(** ** Calls *)

(** What a reply says that a statement changed. *)
Definition bump (x : sigT reply) : option (versioned * bytes * Z) :=
  match x with
  | existT c r =>
      match c return reply c -> _ with
      | SqlUpdate id _ e => fun r => match r with Scanned _ => Some (VProfile, id, e) | _ => None end
      | SqlUpdateSettings id _ e => fun r => match r with Scanned _ => Some (VSettings, id, e) | _ => None end
      | TxMutate owner c _ => fun r => match r with Ok _ => Some (VBook, owner, ExpectedVersion c) | _ => None end
      | TxSetAvatar owner _ e => fun r => match r with Ok _ => Some (VAvatar, owner, e) | _ => None end
      | _ => fun _ => None
      end r
  end.

(** Commands and versions are checked before the statements. *)
Definition call_valid (c : call) : Prop :=
  match c with
  | TxMutate _ c _ => Command_Validate c = Ok tt
  | TxSetAvatar _ _ e => ValidVersion e = true
  | _ => True
  end.

(** The fault of a statement: its effect may be lost, or its reply. *)
Lemma follows_faulty {R} d (failed : R) f (r : user_db * R) : user_ok d -> follows d r.1 -> follows d (faulty failed f d r).1.
Proof. intros Hok Hf. apply faulty_state; [by apply follows_refl|done]. Qed.

Lemma in_tx_follows {A} d (r : result user_error (user_db * A)) : user_ok d -> (forall d' a, r = Ok (d', a) -> follows d d') -> follows d (in_tx d r).1.
Proof. intros Hok Hr. destruct r as [[d' a]| |]; cbn; [by eapply Hr|by apply follows_refl..]. Qed.

Lemma respond_follows w d c : user_ok d -> call_valid c -> follows d (respond w d c).1.
Proof.
  intros Hok Hc. destruct c; cbn [respond fst]; try (by apply follows_refl); try apply follows_faulty; try done; try (by apply follows_refl).
  - by apply sql_update_follows.
  - by apply sql_update_settings_follows.
  - apply in_tx_follows; [done|]. intros d' b Ht. by apply tx_mutate_follows in Ht as [? _].
  - apply in_tx_follows; [done|]. intros d' a Ht. by apply tx_set_avatar_follows in Ht as [? _].
  - by apply sql_claim_follows.
  - by apply update_retirement_follows.
  - by apply update_retirement_follows.
  - by apply sql_apply_follows.
Qed.

Lemma put_checked_bumped v d id e r r' x : profiles d !! id = Some r -> version_of v r = e -> version_of v r' = e + 1 ->
  (put_checked d id r').2 = Scanned x -> bumped v id e d (put_checked d id r').1 /\ x = (id, r').
Proof.
  intros Hr He He'. unfold put_checked. destruct (check_profile r'); [|done]. intros [= <-]. split; [|done]. split; [by exists r|]. exists r'. split; [apply lookup_insert_eq|done].
Qed.

Lemma sql_update_Scanned now d id f e x : (sql_update now d id f e).2 = Scanned x ->
  bumped VProfile id e d (sql_update now d id f e).1 /\ x.1 = id /\ pf_fields x.2 = f /\ pf_version x.2 = e + 1.
Proof.
  unfold sql_update. destruct (profiles d !! id) as [r|] eqn:Hr; [|done]. destruct (Z.eqb_spec (pf_version r) e) as [He|]; [|done]. intros Hx.
  eapply (put_checked_bumped VProfile) in Hx as [Hb ->]; [|done|exact He|cbn; lia]. split; [exact Hb|]. cbn. split_and!; [done|done|lia].
Qed.

Lemma sql_update_settings_Scanned d id t e x : (sql_update_settings d id t e).2 = Scanned x ->
  bumped VSettings id e d (sql_update_settings d id t e).1 /\ x.1 = id /\ theme x.2 = t /\ settings_version x.2 = e + 1.
Proof.
  unfold sql_update_settings. destruct (profiles d !! id) as [r|] eqn:Hr; [|done]. destruct (Z.eqb_spec (settings_version r) e) as [He|]; [|done]. intros Hx.
  eapply (put_checked_bumped VSettings) in Hx as [Hb ->]; [|done|exact He|cbn; lia]. split; [exact Hb|]. cbn. split_and!; [done|done|lia].
Qed.

(** A statement that answers a change has made it, from the version it names. *)
Lemma respond_bumped w d c v id e : user_ok d -> call_valid c -> bump (existT c (respond w d c).2) = Some (v, id, e) -> bumped v id e d (respond w d c).1.
Proof.
  intros Hok Hc. destruct c; cbn [respond bump reply]; try done.
  - destruct (w_fault w); [|done..]. cbn [faulty]. destruct (sql_update (w_now w) d id0 f expected).2 as [x| |] eqn:Hs; [|done..]. intros [= <- <- <-]. by apply sql_update_Scanned in Hs as [? _].
  - destruct (w_fault w); [|done..]. cbn [faulty]. destruct (sql_update_settings d id0 theme expected).2 as [x| |] eqn:Hs; [|done..]. intros [= <- <- <-]. by apply sql_update_settings_Scanned in Hs as [? _].
  - destruct (w_fault w); [|done..]. cbn [faulty]. destruct (tx_mutate d owner c generated) as [[d' b]| |] eqn:Ht; [|done..]. cbn. intros [= <- <- <-]. by apply tx_mutate_follows in Ht as (_ & ? & _).
  - destruct (w_fault w); [|done..]. cbn [faulty]. destruct (tx_set_avatar (w_now w) d owner id0 expected) as [[d' a]| |] eqn:Ht; [|done..]. cbn. intros [= <- <- <-]. by apply tx_set_avatar_follows in Ht as (_ & ? & _).
Qed.
