(* ===== verification/UserGuards.v ===== *)
(** * User: what the requests do

    The guards of the calls that the programs of [UserService] make, and what their
    answers promise, for each request on its own. *)

From S2P Require Import Prelude GoStrings GoText Sha256 Effects UserDomain RegistrationWire UserStore UserService UserBooks UserHistory.
Local Open Scope Z_scope.

Abbreviation did t c r := (@existT call reply c r ∈ t).

(** ** Guards *)

(** Whose rows and files a call is about; the calls of the worker and the consumer. *)
Definition touches (c : call) : option bytes :=
  match c with
  | SqlGet id | SqlUpdate id _ _ | SqlUpdateSettings id _ _ => Some id
  | SqlList owner | TxMutate owner _ _ | TxSetAvatar owner _ _ | InspectOwnedAvatar owner _ _ => Some owner
  | _ => None
  end.
Definition of_workers (c : call) : bool :=
  match c with SqlClaim _ _ | SqlFinish _ | SqlRetry _ _ | SqlApply _ _ _ | RetireOwnedAvatar _ _ | MsgNext | MsgAck _ | MsgNak _ => true | _ => false end.
Definition own_call (owner : bytes) (c : call) : Prop := of_workers c = false /\ (touches c = None \/ touches c = Some owner).

(** The files service found the file of the caller fit for an avatar. *)
Definition inspected (t : trace) (owner id : bytes) : Prop :=
  exists session r, did t (InspectOwnedAvatar owner id session) (Ok (Some r)) /\ inspected_ok r = true.
(** The worker claimed the retirement, which the files service confirmed. *)
Definition claimed (t : trace) (owner id : bytes) : Prop :=
  exists lease token v, did t (SqlClaim lease token) (Scanned v) /\ rt_Subject v = owner /\ rt_FileID v = id.
Definition retired (t : trace) (owner id : bytes) : Prop := exists u, did t (RetireOwnedAvatar owner id) (Ok u).

Section guards.
Context `{EventCodec}.

(** The consumer received the event as a message. *)
Definition received (t : trace) (m : Message) (e : Event) : Prop :=
  did t MsgNext (Some m) /\ msg_Subject m = event_type_v1 /\ Unmarshal (msg_Data m) = Ok e.

Definition call_ok (t : trace) (c : call) : Prop :=
  match c with
  | SqlUpdate id f e => exists day, did t Today day /\ NormalizeFields f day = Ok f
  | SqlUpdateSettings id th e => Theme_Valid th = true /\ ValidVersion e = true
  | TxMutate _ c _ => Command_Validate c = Ok tt
  | TxSetAvatar owner id e => ValidVersion e = true /\ (id = zero16 \/ inspected t owner id)
  | RetireOwnedAvatar owner id => claimed t owner id
  | SqlFinish v => claimed t (rt_Subject v) (rt_FileID v) /\ retired t (rt_Subject v) (rt_FileID v)
  | SqlRetry v delay => claimed t (rt_Subject v) (rt_FileID v) /\ Second <= delay <= 256 * Second
  | SqlApply event subject hash =>
      exists m e, received t m e /\ event = ev_ID e /\ subject = ev_Subject e /\ hash = sha256_Sum (msg_Data m)
  | MsgAck seq =>
      exists m e b, received t m e /\ msg_Seq m = seq /\ did t (SqlApply (ev_ID e) (ev_Subject e) (sha256_Sum (msg_Data m))) (Scanned b)
  | _ => True
  end.

(** Legal replies. *)
Definition legal (c : call) : reply c -> Prop :=
  match c return reply c -> Prop with
  | SqlGet id => fun r => match r with Scanned x => x.1 = id | _ => True end
  | SqlUpdate id f e => fun r => match r with Scanned x => x.1 = id /\ pf_fields x.2 = f /\ pf_version x.2 = e + 1 | _ => True end
  | SqlUpdateSettings id th e => fun r => match r with Scanned x => x.1 = id /\ theme x.2 = th /\ settings_version x.2 = e + 1 | _ => True end
  | TxSetAvatar owner id e => fun r => match r with Ok a => a = mkAvatar owner (e + 1) id | _ => True end
  | SqlClaim _ token => fun r => match r with Scanned v => LeaseToken v = token | _ => True end
  | _ => fun _ => True
  end.

Lemma call_ok_valid t c : call_ok t c -> call_valid c.
Proof. destruct c; try done. by intros [? _]. Qed.

Lemma user_call_ok_mono t t' c : t ⊆ t' -> call_ok t c -> call_ok t' c.
Proof.
  intros Ht. assert (forall o i, inspected t o i -> inspected t' o i) as H1 by (intros o i (s & r & Hd & Hr); exists s, r; split; [by apply Ht|done]).
  assert (forall o i, claimed t o i -> claimed t' o i) as H2 by (intros o i (l & k & v & Hd & Hr); exists l, k, v; split; [by apply Ht|done]).
  assert (forall o i, retired t o i -> retired t' o i) as H3 by (intros o i (u & Hd); exists u; by apply Ht).
  assert (forall m e, received t m e -> received t' m e) as H4 by (intros m e (Hd & Hr); split; [by apply Ht|done]).
  destruct c; cbn [call_ok]; try done.
  - intros (day & Hd & Hn). exists day. split; [by apply Ht|done].
  - intros [Hv [Hz|Hi]]; split; auto.
  - intros [Hc Hr]. auto.
  - intros [Hc Hr]. auto.
  - intros (m & e & Hr & Hx). exists m, e. auto.
  - apply H2.
  - intros (m & e & b & Hr & Hs & Hd). exists m, e, b. split_and!; auto.
Qed.

(** ** Answers *)

(** The caller of a request and whether it is allowed. *)
Definition caller (q : request) : option (Principal * bool) :=
  match q with
  | ReqGetMe p | ReqGetAvatar p => Some (p, CanRead p)
  | ReqUpdateMe p _ _ | ReqSetAvatar p _ _ | ReqClearAvatar p _ => Some (p, CanWrite p)
  | ReqGetSettings p => Some (p, CanReadSettings p)
  | ReqUpdateSettings p _ _ => Some (p, CanWriteSettings p)
  | ReqListAddresses p => Some (p, CanReadAddresses p)
  | ReqMutateAddresses p _ => Some (p, CanWriteAddresses p)
  | ReqCleanup | ReqConsume => None
  end.

(** Whose data an answer shows. *)
Definition answer_subject (a : answer) : option bytes :=
  match a with
  | AnsProfile (Ok r) => Some (pr_Subject r)
  | AnsSettings (Ok s) => Some (st_Subject s)
  | AnsBook (Ok b) => Some (bk_Subject b)
  | AnsAvatar (Ok a) => Some (av_Subject a)
  | _ => None
  end.

(** The version that a request means to change. *)
Definition updates (q : request) : option (versioned * bytes * Z) :=
  match q with
  | ReqUpdateMe p _ e => Some (VProfile, p_Subject p, e)
  | ReqUpdateSettings p _ e => Some (VSettings, p_Subject p, e)
  | ReqMutateAddresses p c => Some (VBook, p_Subject p, ExpectedVersion c)
  | ReqSetAvatar p _ e | ReqClearAvatar p e => Some (VAvatar, p_Subject p, e)
  | _ => None
  end.

(** What the answer to a change says. *)
Definition answered (q : request) (t : trace) (a : answer) : Prop :=
  match q, a with
  | ReqGetMe p, AnsProfile (Ok v) =>
      exists row, did t (SqlGet (p_Subject p)) (Scanned (p_Subject p, row)) /\ pr_Fields v = pf_fields row /\ pr_Version v = pf_version row
  | ReqUpdateMe p f e, AnsProfile (Ok v) =>
      pr_Version v = e + 1 /\ exists day, did t Today day /\ NormalizeFields f day = Ok (pr_Fields v)
  | ReqGetSettings p, AnsSettings (Ok s) => exists row, did t (SqlGet (p_Subject p)) (Scanned (p_Subject p, row)) /\ st_Theme s = theme row
  | ReqUpdateSettings p th e, AnsSettings (Ok s) => st_Theme s = th /\ st_Version s = e + 1
  | ReqListAddresses p, AnsBook (Ok b) => did t (SqlList (p_Subject p)) (Ok b) /\ Book_Validate b = Ok tt
  | ReqMutateAddresses p c, AnsBook (Ok b) =>
      Book_Validate b = Ok tt /\ exists c' generated, normalized c = Ok c' /\ did t (TxMutate (p_Subject p) c' generated) (Ok b)
  | ReqSetAvatar p id e, AnsAvatar (Ok a) => a = mkAvatar (p_Subject p) (e + 1) id /\ inspected t (p_Subject p) id
  | ReqClearAvatar p e, AnsAvatar (Ok a) => a = mkAvatar (p_Subject p) (e + 1) zero16
  | _, _ => True
  end.

Definition answer_ok (q : request) (t : trace) (a : answer) : Prop :=
  forall s, answer_subject a = Some s ->
    (exists p, caller q = Some (p, true) /\ s = p_Subject p /\ s <> zero16) /\
    (forall k, updates q = Some k -> exists x, x ∈ t /\ bump x = Some k) /\ answered q t a.

Abbreviation ver := (verified call_ok legal).

(** ** The programs *)

Lemma decode_settings_Ok raw row s : decode_settings (Scanned (raw, row)) = Ok s ->
  s = mkSettings raw (u64 (settings_version row)) (theme row) /\ raw <> zero16 /\ Settings_Validate s = Ok tt.
Proof.
  cbn [decode_settings]. rewrite bind_Ok. intros (x & Hx & Hs). apply map_err_Ok, NewSubjectID_Ok in Hx as (-> & _ & Hz). rewrite guard_Ok, Ok_eq in Hs. destruct Hs as [Hg <-].
  apply orb_false_iff in Hg as [_ Hg%negb_false_iff%bool_decide_eq_true]. done.
Qed.

Ltac sub := first [done | set_solver].

Lemma ver_check_ctx {A} (p : prog (result user_error A)) t (post : trace -> result user_error A -> Prop) :
  (forall t' e, t ⊆ t' -> post t' (Err e)) -> (forall t', t ⊆ t' -> ver p t' post) -> ver (check_ctx p) t post.
Proof.
  intros He Hp. apply verified_do; [done|]. intros c _. cbn [reply] in c. apply verified_refuse; intros _; [apply He|apply Hp]; set_solver.
Qed.

(** A profile that was decoded comes from the row. *)
Definition decoded (row : profile_row) (v : Profile) : Prop := pr_Fields v = pf_fields row /\ pr_Version v = pf_version row.

Lemma ver_decode_now q t (post : trace -> result user_error Profile -> Prop) :
  (forall t' r, t ⊆ t' -> (forall v, r = Ok v -> exists row, q = Scanned (pr_Subject v, row) /\ pr_Subject v <> zero16 /\ decoded row v) -> post t' r) ->
  ver (decode_now q) t post.
Proof.
  intros Hp. destruct q as [[id row]| |]; cbn [decode_now]; try (apply Hp; [done|by intros ?]).
  apply verified_do; [done|]. intros day _. cbn [reply] in day. apply Hp; [set_solver|]. intros v. cbn [decode_profile]. rewrite bind_Ok. intros (s & Hs & Hv).
  apply map_err_Ok, NewSubjectID_Ok in Hs as (-> & _ & Hz). apply bind_Ok in Hv as (f & _ & Hv). rewrite guard_Ok, Ok_eq in Hv. destruct Hv as [_ <-]. by exists row.
Qed.

Lemma ver_profile_Get id t (post : trace -> result user_error Profile -> Prop) :
  (forall t' r, t ⊆ t' -> (forall v, r = Ok v -> pr_Subject v = id /\ id <> zero16 /\ exists row, did t' (SqlGet id) (Scanned (id, row)) /\ decoded row v) -> post t' r) ->
  ver (profile_Get id) t post.
Proof.
  intros Hp. apply ver_check_ctx; [intros t' e Ht; by apply Hp|]. intros t1 Ht1. apply verified_refuse; intros Hz; [by apply Hp|].
  apply verified_do; [done|]. intros q Hq. apply ver_decode_now. intros t2 r Ht2 Hr. apply Hp; [set_solver|]. intros v Hv. destruct (Hr v Hv) as (row & -> & Hn & Hd).
  cbn [legal] in Hq. cbn in Hq. rewrite Hq in *. split_and!; [done|done|]. exists row. split; [set_solver|done].
Qed.

Lemma ver_or_conflict {A B} (r : result user_error A) (get : prog (result user_error B)) e t (post : trace -> result user_error A -> Prop) :
  (forall t' r', t ⊆ t' -> (forall a, r' = Ok a -> r = Ok a) -> post t' r') -> ver get t (fun t' _ => t ⊆ t') -> ver (or_conflict r get e) t post.
Proof.
  intros Hp Hg. destruct r as [a|x|]; cbn [or_conflict]; try (by apply Hp). destruct x; try (by apply Hp).
  apply verified_try. eapply verified_impl; [|exact Hg]. intros t' [b|y|] Ht; by apply Hp.
Qed.

Lemma ver_profile_Update id f e t (post : trace -> result user_error Profile -> Prop) :
  (forall t' r, t ⊆ t' -> (forall v, r = Ok v -> pr_Subject v = id /\ id <> zero16 /\ pr_Fields v = f /\ pr_Version v = e + 1 /\
     exists row, did t' (SqlUpdate id f e) (Scanned (id, row))) -> post t' r) ->
  ver (profile_Update id f e) t post.
Proof.
  intros Hp. apply ver_check_ctx; [intros t' x Ht; by apply Hp|]. intros t1 Ht1. apply verified_do; [done|]. intros day _. cbn [reply] in day.
  destruct (NormalizeFields f day) as [valid| |] eqn:Hn; try (apply Hp; [set_solver|by intros ?]). apply verified_refuse; intros Hg; [apply Hp; [set_solver|by intros ?]|].
  apply orb_false_iff in Hg as [Hg He]. apply orb_false_iff in Hg as [Hg He0]. apply orb_false_iff in Hg as [Hv%negb_false_iff%bool_decide_eq_true Hz]. subst valid.
  apply verified_do; [exists day; split; [set_solver|done]|].
  intros q Hq. apply verified_bind, ver_decode_now. intros t2 r Ht2 Hr. apply ver_or_conflict.
  - intros t3 r' Ht3 Hr'. apply Hp; [set_solver|]. intros v Hv. destruct (Hr v (Hr' v Hv)) as (row & -> & Hn0 & Hd1 & Hd2). cbn [legal fst snd] in Hq. destruct Hq as (<- & Hf & Hver).
    split_and!; [done|done|congruence|congruence|]. exists row. set_solver.
  - apply ver_profile_Get. intros t3 r' Ht3 _. set_solver.
Qed.

Lemma ver_settings_Get id t (post : trace -> result user_error Settings -> Prop) :
  (forall t' r, t ⊆ t' -> (forall s, r = Ok s -> st_Subject s = id /\ id <> zero16 /\ exists row, did t' (SqlGet id) (Scanned (id, row)) /\ st_Theme s = theme row) -> post t' r) ->
  ver (settings_Get id) t post.
Proof.
  intros Hp. apply ver_check_ctx; [intros t' e Ht; by apply Hp|]. intros t1 Ht1. apply verified_refuse; intros Hz; [by apply Hp|].
  apply verified_do; [done|]. intros q Hq. apply Hp; [set_solver|]. intros s Hs. destruct q as [[raw row]| |]; try done. cbn in Hq. subst raw.
  apply decode_settings_Ok in Hs as (-> & Hn & _). cbn. split_and!; [done|done|]. exists row. set_solver.
Qed.

Lemma ver_settings_Update id th e t (post : trace -> result user_error Settings -> Prop) :
  (forall t' r, t ⊆ t' -> (forall s, r = Ok s -> st_Subject s = id /\ id <> zero16 /\ st_Theme s = th /\ st_Version s = e + 1 /\
     exists row, did t' (SqlUpdateSettings id th e) (Scanned (id, row))) -> post t' r) ->
  ver (settings_Update id th e) t post.
Proof.
  intros Hp. apply ver_check_ctx; [intros t' x Ht; by apply Hp|]. intros t1 Ht1. apply verified_refuse; intros Hz; [by apply Hp|]. apply verified_refuse; intros Hv; [by apply Hp|].
  apply orb_false_iff in Hv as [Hth%negb_false_iff Hv%negb_false_iff]. apply verified_do; [done|]. intros q Hq. apply ver_or_conflict.
  - intros t2 r Ht2 Hr. apply Hp; [set_solver|]. intros s Hs. apply Hr in Hs. destruct q as [[raw row]| |]; try done. cbn in Hq. destruct Hq as (-> & Htheme & Hver).
    apply decode_settings_Ok in Hs as (-> & Hn & _). cbn. rewrite Hver. split_and!; [done|done|done| |exists row; set_solver].
    apply u64_small. unfold ValidVersion in Hv. change MaxInt64 with (2 ^ 63 - 1) in Hv. lia.
  - apply ver_settings_Get. intros t2 r Ht2 _. set_solver.
Qed.

(** A request that is authorized. *)
Lemma ver_authorized {A} p allowed (k : prog (result user_error A)) t (post : trace -> result user_error A -> Prop) :
  (forall t' e, t ⊆ t' -> post t' (Err e)) -> (forall t', t ⊆ t' -> allowed = true -> p_Subject p <> zero16 -> ver k t' post) -> ver (authorized p allowed k) t post.
Proof.
  intros He Hk. apply ver_check_ctx; [done|]. intros t1 Ht1. apply verified_refuse; intros Hz; [by apply He|]. apply verified_refuse; intros Ha; [by apply He|].
  apply Hk; [done|by apply negb_false_iff|]. unfold is_zero in Hz. by apply bool_decide_eq_false in Hz.
Qed.

Lemma ver_avatar_authorized {A} p allowed (k : prog (result user_error A)) t (post : trace -> result user_error A -> Prop) :
  (forall t' e, t ⊆ t' -> post t' (Err e)) -> (forall t', t ⊆ t' -> allowed = true -> p_Subject p <> zero16 -> ver k t' post) -> ver (avatar_authorized p allowed k) t post.
Proof.
  intros He Hk. apply verified_refuse; intros Hz; [by apply He|]. apply ver_check_ctx; [done|]. intros t1 Ht1. apply verified_refuse; intros Ha; [by apply He|].
  apply Hk; [done|by apply negb_false_iff|]. unfold is_zero in Hz. by apply bool_decide_eq_false in Hz.
Qed.

Lemma ver_avatar_valid {A} owner (k : prog (result user_error A)) t (post : trace -> result user_error A -> Prop) :
  (forall t' e, t ⊆ t' -> post t' (Err e)) -> (forall t', t ⊆ t' -> ver k t' post) -> ver (avatar_valid owner k) t post.
Proof. intros He Hk. apply verified_refuse; intros Hz; [by apply He|]. by apply ver_check_ctx. Qed.

Lemma ver_avatar_Set owner id e t (post : trace -> result user_error Avatar -> Prop) : id = zero16 \/ inspected t owner id ->
  (forall t' r, t ⊆ t' -> (forall a, r = Ok a -> a = mkAvatar owner (e + 1) id /\ did t' (TxSetAvatar owner id e) (Ok a)) -> post t' r) -> ver (avatar_Set owner id e) t post.
Proof.
  intros Hi Hp. apply ver_avatar_valid; [intros; by apply Hp|]. intros t1 Ht1. apply verified_refuse; intros Hv; [by apply Hp|]. apply verified_perform.
  - split; [by apply negb_false_iff|]. destruct Hi as [Hi|(s & r & Hd & Hr)]; [by left|right]. exists s, r. split; [by apply Ht1|done].
  - intros r Hr. apply Hp; [set_solver|]. intros a ->. split; [exact Hr|set_solver].
Qed.

Lemma ver_addresses_Mutate owner c t (post : trace -> result user_error Book -> Prop) :
  (forall t' r, t ⊆ t' -> (forall b, r = Ok b -> exists generated, did t' (TxMutate owner c generated) (Ok b)) -> post t' r) -> ver (addresses_Mutate owner c) t post.
Proof.
  intros Hp. apply ver_check_ctx; [intros; by apply Hp|]. intros t1 Ht1. apply verified_refuse; intros Hz; [by apply Hp|]. apply verified_try.
  destruct (Command_Validate c) as [[]| |] eqn:Hc; [|by apply Hp..]. cbn [verified]. destruct (bool_decide _).
  - apply verified_do; [done|]. intros [generated|] _; [|apply Hp; [set_solver|done]]. apply verified_perform; [done|]. intros r _. cbn [reply] in r. apply Hp; [set_solver|]. intros b ->. exists generated. set_solver.
  - apply verified_perform; [done|]. intros r _. cbn [reply] in r. apply Hp; [set_solver|]. intros b ->. exists zero16. set_solver.
Qed.

Lemma ver_Inspect owner id session t (post : trace -> result user_error unit -> Prop) :
  (forall t' r, t ⊆ t' -> (forall u, r = Ok u -> inspected t' owner id) -> post t' r) -> ver (Inspect owner id session) t post.
Proof.
  intros Hp. apply verified_do; [done|]. intros r _. cbn [reply] in r. apply Hp; [set_solver|]. intros u Hu. destruct r as [[r|]| |]; try done.
  apply reject_if_Ok, negb_false_iff in Hu. exists session, r. split; [set_solver|done].
Qed.

(** *** The worker *)

Lemma ver_queue_Claim lease t (post : trace -> result user_error (option Retirement) -> Prop) :
  (forall t' r, t ⊆ t' -> (forall v, r = Ok (Some v) -> claimed t' (rt_Subject v) (rt_FileID v) /\ 1 <= rt_Attempts v) -> post t' r) -> ver (queue_Claim lease) t post.
Proof.
  intros Hp. apply verified_refuse; intros Hl; [by apply Hp|]. apply verified_do; [done|]. intros [token|] _; [|apply Hp; [set_solver|done]].
  apply verified_do; [done|]. intros q Hq. apply Hp; [set_solver|]. intros v Hv. destruct q as [r| |]; try done.
  unfold decode_claim in Hv. apply bind_Ok in Hv as (s & Hs & Hv). apply map_err_Ok, NewSubjectID_Ok in Hs as (-> & _). rewrite guard_Ok, bind_Ok in Hv. destruct Hv as (Ha & i & Hi & Hv).
  rewrite guard_Ok, Ok_eq in Hv. destruct Hv as [_ [= <-]]. unfold ParseFileID in Hi. rewrite guard_Ok, Ok_eq in Hi. destruct Hi as [_ <-]. cbn [rt_Subject rt_FileID rt_Attempts]. split; [|lia].
  exists (lease / 1000 * 1000), token, r. split; [set_solver|done].
Qed.

Lemma retry_delay_bounds n : Second <= retry_delay n / 1000 * 1000 <= 256 * Second.
Proof.
  unfold retry_delay. rewrite Z.shiftl_mul_pow2 by lia. pose proof (Z.pow_le_mono_r 2 0 (Z.min (Z.max (n - 1) 0) 8)) as Hlo. pose proof (Z.pow_le_mono_r 2 (Z.min (Z.max (n - 1) 0) 8) 8) as Hhi.
  specialize (Hlo ltac:(lia) ltac:(lia)). specialize (Hhi ltac:(lia) ltac:(lia)). change (2 ^ 0) with 1 in Hlo. change (2 ^ 8) with 256 in Hhi. revert Hlo Hhi. generalize (2 ^ Z.min (Z.max (n - 1) 0) 8). unfold Second. intros x H1 H2.
  replace (1000000000 * x) with (1000000 * x * 1000) by lia. rewrite Z.div_mul by lia. lia.
Qed.

Lemma ver_Step t : ver Step t (fun _ _ => True).
Proof.
  apply verified_bind, ver_queue_Claim. intros t1 [[v|]|e|] Ht1 Hr; try done. destruct (Hr v eq_refl) as [(lease & token & x & Hd & Hs & Hf) Ha].
  apply verified_bind. apply verified_do; [by exists lease, token, x|]. intros r _. cbn [reply] in r. cbn [verified]. destruct r as [u|c|]; cbn [map_err].
  - apply verified_bind, ver_avatar_valid; [done|]. intros t2 Ht2. apply verified_refuse; intros Hg; [done|]. apply verified_do; [|done].
    split; [exists lease, token, x; split_and!; [set_solver|done..]|]. exists u. set_solver.
  - apply verified_do; [done|]. intros b _. cbn [reply] in b. destruct b; [done|]. apply verified_bind, ver_avatar_valid; [done|]. intros t2 Ht2. apply verified_refuse; intros Hg; [done|]. apply verified_refuse; intros Hd'; [done|].
    apply verified_do; [|done]. split; [exists lease, token, x; split_and!; [set_solver|done..]|].
    apply retry_delay_bounds.
  - apply verified_do; [done|]. intros b _. cbn [reply] in b. destruct b; [done|]. apply verified_bind, ver_avatar_valid; [done|]. intros t2 Ht2. apply verified_refuse; intros Hg; [done|]. apply verified_refuse; intros Hd'; [done|].
    apply verified_do; [|done]. split; [exists lease, token, x; split_and!; [set_solver|done..]|]. apply retry_delay_bounds.
Qed.
(** *** The consumer *)

Lemma ver_negative seq o t (post : trace -> list Outcome -> Prop) : (forall t' l, post t' l) -> ver (negative seq o) t post.
Proof. intros Hp. apply verified_do; [done|]. intros b _. apply Hp. Qed.

Lemma ver_Apply m e t (post : trace -> result user_error Outcome -> Prop) : received t m e ->
  (forall t' r, t ⊆ t' -> (forall o, r = Ok o -> exists b, did t' (SqlApply (ev_ID e) (ev_Subject e) (sha256_Sum (msg_Data m))) (Scanned b) /\ o = if b : bool then Applied else Duplicate) -> post t' r) ->
  ver (Apply e) t post.
Proof.
  intros (Hd & Hs & Hu) Hp. apply verified_try. destruct (Event_Validate e) as [[]| |]; [|by apply Hp..]. cbn [verified]. apply ver_check_ctx; [intros; by apply Hp|]. intros t1 Ht1.
  unfold store_Apply. destruct (unmarshal_marshal _ _ Hu) as [Hm _]. rewrite Hm. apply verified_do; [exists m, e; split_and!; try done; split; [by apply Ht1|done]|].
  intros q _. cbn [reply] in q. apply Hp; [set_solver|]. intros o Ho. destruct q as [b| |]; try done. exists b. split; [set_solver|]. destruct b; by injection Ho.
Qed.

Lemma ver_consume t : ver consume t (fun _ _ => True).
Proof.
  apply verified_do; [done|]. intros [m|] _; [|done]. apply verified_do; [done|]. intros c _. cbn [reply] in c. destruct c; [done|].
  destruct (bool_decide_reflect (msg_Subject m = event_type_v1)) as [Hs|]; cbn [negb]; [|by apply ver_negative]. destruct (Unmarshal (msg_Data m)) as [e| |] eqn:Hu; [|by apply ver_negative..].
  assert (forall t', (t ++ [existT MsgNext (Some m)]) ⊆ t' -> received t' m e) as Hrec by (intros t' Ht'; split; [apply Ht'; set_solver|done]).
  apply verified_bind. apply (ver_Apply m); [apply Hrec; set_solver|]. intros t1 r Ht1 Hr. apply verified_do; [done|]. intros c _. cbn [reply] in c. destruct c; [done|].
  destruct r as [o|x|]; [|by apply ver_negative|done]. destruct (Hr o eq_refl) as (b & Hd & _). apply verified_do; [|done]. exists m, e, b. split_and!; [|done|set_solver].
  apply Hrec. set_solver.
Qed.

(** *** Requests *)

Lemma ver_answering {A} (f : A -> answer) (p : prog A) t (post : trace -> answer -> Prop) : ver p t (fun t a => post t (f a)) -> ver (answering f p) t post.
Proof. intros Hp. apply verified_bind. eapply verified_impl; [|exact Hp]. done. Qed.

Lemma own_profile_Ok p r v : own_profile p r = Ok v -> v = r /\ pr_Subject r = p_Subject p.
Proof. unfold own_profile. rewrite guard_Ok, Ok_eq, negb_false_iff, bool_decide_eq_true. by intros [? <-]. Qed.
Lemma own_settings_Ok p r v : own_settings p r = Ok v -> v = r /\ st_Subject r = p_Subject p.
Proof. unfold own_settings. rewrite !guard_Ok, Ok_eq, negb_false_iff, bool_decide_eq_true. by intros (? & _ & <-). Qed.
Lemma own_book_Ok p r v : own_book p r = Ok v -> v = r /\ bk_Subject r = p_Subject p /\ Book_Validate r = Ok tt.
Proof. unfold own_book. rewrite !guard_Ok, Ok_eq, !negb_false_iff, !bool_decide_eq_true. by intros (? & ? & <-). Qed.

(** What a request of an allowed caller owes for its answer. *)
Lemma answer_ok_intro q p t a : caller q = Some (p, true) -> p_Subject p <> zero16 ->
  (forall s, answer_subject a = Some s -> s = p_Subject p /\ (forall k, updates q = Some k -> exists x, x ∈ t /\ bump x = Some k) /\ answered q t a) -> answer_ok q t a.
Proof. intros Hc Hz Ha s Hs. destruct (Ha s Hs) as (-> & Hu & Hx). split_and!; [by exists p|done|done]. Qed.

Lemma answer_ok_none q t a : answer_subject a = None -> answer_ok q t a.
Proof. intros Hn s Hs. congruence. Qed.

(** The programs of the requests that an answer shows the caller. *)
Lemma ver_GetMe p t0 : ver (GetMe p) t0 (fun t r => answer_ok (ReqGetMe p) t (AnsProfile r)).
Proof.
  apply (ver_authorized p (CanRead p)); [by intros; apply answer_ok_none|]. intros t1 _ Ha Hz.
  apply verified_try, ver_profile_Get. intros t2 [v|e|] Ht2 Hr; [|by apply answer_ok_none..]. cbn [verified]. destruct (own_profile p v) as [v'|e|] eqn:Ho; [|by apply answer_ok_none..]. apply own_profile_Ok in Ho as [-> Ho].
  destruct (Hr v eq_refl) as (_ & _ & row & Hd & Hrow). apply (answer_ok_intro _ p); [cbn; by rewrite Ha|done|]. intros s [= <-]. split_and!; [done|done|]. by exists row.
Qed.

Lemma ver_UpdateMe p f e t0 : ver (UpdateMe p f e) t0 (fun t r => answer_ok (ReqUpdateMe p f e) t (AnsProfile r)).
Proof.
  apply (ver_authorized p (CanWrite p)); [by intros; apply answer_ok_none|]. intros t1 _ Ha Hz. apply verified_refuse; intros Hv; [by apply answer_ok_none|].
  apply verified_do; [done|]. intros day _. cbn [reply] in day. apply verified_try. destruct (NormalizeFields f day) as [g|x|] eqn:Hg; [|by apply answer_ok_none..]. cbn [verified].
  apply verified_try, ver_profile_Update. intros t2 [v|x|] Ht2 Hr; [|by apply answer_ok_none..]. cbn [verified]. destruct (own_profile p v) as [v'|x|] eqn:Ho; [|by apply answer_ok_none..]. apply own_profile_Ok in Ho as [-> Ho].
  destruct (Hr v eq_refl) as (_ & _ & Hf & Hver & row & Hd). apply (answer_ok_intro _ p); [cbn; by rewrite Ha|done|]. intros s [= <-]. split_and!; [done|intros k [= <-]; by eexists|]. split; [done|]. exists day. rewrite Hf. split; [set_solver|done].
Qed.

Lemma ver_GetSettings p t0 : ver (GetSettings p) t0 (fun t r => answer_ok (ReqGetSettings p) t (AnsSettings r)).
Proof.
  apply ver_authorized; [by intros; apply answer_ok_none|]. intros t1 _ Ha Hz. apply verified_try, ver_settings_Get. intros t2 [v|e|] Ht2 Hr; [|by apply answer_ok_none..]. cbn [verified].
  destruct (own_settings p v) as [v'|e|] eqn:Ho; [|by apply answer_ok_none..]. apply own_settings_Ok in Ho as [-> Ho]. destruct (Hr v eq_refl) as (_ & _ & row & Hd & Hrow).
  apply (answer_ok_intro _ p); [cbn; by rewrite Ha|done|]. intros s [= <-]. split_and!; [done|done|]. by exists row.
Qed.

Lemma ver_UpdateSettings p th e t0 : ver (UpdateSettings p th e) t0 (fun t r => answer_ok (ReqUpdateSettings p th e) t (AnsSettings r)).
Proof.
  apply ver_authorized; [by intros; apply answer_ok_none|]. intros t1 _ Ha Hz. apply verified_refuse; intros Hv; [by apply answer_ok_none|].
  apply verified_try, ver_settings_Update. intros t2 [v|x|] Ht2 Hr; [|by apply answer_ok_none..]. cbn [verified]. destruct (own_settings p v) as [v'|x|] eqn:Ho; [|by apply answer_ok_none..]. apply own_settings_Ok in Ho as [-> Ho].
  destruct (Hr v eq_refl) as (_ & _ & Hth & Hver & row & Hd). apply (answer_ok_intro _ p); [cbn; by rewrite Ha|done|]. intros s [= <-]. split_and!; [done|intros k [= <-]; by eexists|done].
Qed.

Lemma ver_ListAddresses p t0 : ver (ListAddresses p) t0 (fun t r => answer_ok (ReqListAddresses p) t (AnsBook r)).
Proof.
  apply ver_authorized; [by intros; apply answer_ok_none|]. intros t1 _ Ha Hz. apply verified_try, ver_check_ctx; [by intros; apply answer_ok_none|]. intros t2 Ht2. apply verified_refuse; intros Hz2; [by apply answer_ok_none|].
  split; [done|]. intros [b|e|] _; [|by apply answer_ok_none..]. cbn [verified]. destruct (own_book p b) as [v'|e|] eqn:Ho; [|by apply answer_ok_none..]. apply own_book_Ok in Ho as (-> & Ho & Hb).
  apply (answer_ok_intro _ p); [cbn; by rewrite Ha|done|]. intros s [= <-]. split_and!; [done|done|]. split; [set_solver|done].
Qed.

Lemma normalized_version c c' : normalized c = Ok c' -> ExpectedVersion c' = ExpectedVersion c.
Proof.
  unfold normalized. destruct (cmd_Operation c) as [o|]; [|by intros [= <-]]. destruct (has_fields o); [|by intros [= <-]]. rewrite bind_Ok. intros (f & _ & Hf). by injection Hf as <-.
Qed.

Lemma ver_MutateAddresses p c t0 : ver (MutateAddresses p c) t0 (fun t r => answer_ok (ReqMutateAddresses p c) t (AnsBook r)).
Proof.
  apply ver_authorized; [by intros; apply answer_ok_none|]. intros t1 _ Ha Hz. apply verified_try. destruct (normalized c) as [c'|e|] eqn:Hn; [|by apply answer_ok_none..]. cbn [verified].
  apply verified_try. destruct (Command_Validate c') as [u|e|] eqn:Hc; [|by apply answer_ok_none..]. cbn [verified].
  apply verified_try, ver_addresses_Mutate. intros t2 [b|e|] Ht2 Hr; [|by apply answer_ok_none..]. cbn [verified]. destruct (own_book p b) as [v'|e|] eqn:Ho; [|by apply answer_ok_none..]. apply own_book_Ok in Ho as (-> & Ho & Hb).
  destruct (Hr b eq_refl) as (generated & Hd). apply (answer_ok_intro _ p); [cbn; by rewrite Ha|done|]. intros s [= <-]. split_and!; [done| |by split; [|exists c', generated]].
  intros k [= <-]. eexists. split; [exact Hd|]. cbn. by rewrite (normalized_version _ _ Hn).
Qed.

Lemma ver_GetAvatar p t0 : ver (GetAvatar p) t0 (fun t r => answer_ok (ReqGetAvatar p) t (AnsAvatar r)).
Proof.
  apply ver_avatar_authorized; [by intros; apply answer_ok_none|]. intros t1 _ Ha Hz. apply ver_avatar_valid; [by intros; apply answer_ok_none|]. intros t2 Ht2. apply verified_do; [done|]. intros q Hq.
  cbn [verified]. destruct (decode_avatar q) as [a|e|] eqn:Hdec; [|by apply answer_ok_none..]. destruct q as [[raw row]| |]; try done. cbn in Hq. subst raw. apply decode_avatar_Ok in Hdec as [-> _].
  apply (answer_ok_intro _ p); [cbn; by rewrite Ha|done|]. intros s [= <-]. done.
Qed.

Lemma ver_SetAvatar p id e t0 : ver (SetAvatar p id e) t0 (fun t r => answer_ok (ReqSetAvatar p id e) t (AnsAvatar r)).
Proof.
  apply ver_avatar_authorized; [by intros; apply answer_ok_none|]. intros t1 _ Ha Hz. apply verified_refuse; intros Hv; [by apply answer_ok_none|]. apply verified_try, ver_Inspect.
  intros t2 [u|x|] Ht2 Hi; [|by apply answer_ok_none..]. specialize (Hi u eq_refl). apply ver_avatar_Set; [by right|]. intros t3 [a|x|] Ht3 Hr; [|by apply answer_ok_none..]. destruct (Hr a eq_refl) as [-> Hd].
  apply (answer_ok_intro _ p); [cbn; by rewrite Ha|done|]. intros s [= <-]. split_and!; [done|intros k [= <-]; by eexists|]. split; [done|]. destruct Hi as (ses & r & Hs & Hr'). exists ses, r. split; [by apply Ht3|done].
Qed.

Lemma ver_ClearAvatar p e t0 : ver (ClearAvatar p e) t0 (fun t r => answer_ok (ReqClearAvatar p e) t (AnsAvatar r)).
Proof.
  apply ver_avatar_authorized; [by intros; apply answer_ok_none|]. intros t1 _ Ha Hz. apply verified_refuse; intros Hv; [by apply answer_ok_none|]. apply ver_avatar_Set; [by left|].
  intros t3 [a|x|] Ht3 Hr; [|by apply answer_ok_none..]. destruct (Hr a eq_refl) as [-> Hd]. apply (answer_ok_intro _ p); [cbn; by rewrite Ha|done|]. intros s [= <-]. split_and!; [done|intros k [= <-]; by eexists|done].
Qed.

Lemma ver_program q : ver (program_of q) [] (answer_ok q).
Proof.
  destruct q; cbn [program_of]; apply ver_answering.
  - apply ver_GetMe.
  - apply ver_UpdateMe.
  - apply ver_GetSettings.
  - apply ver_UpdateSettings.
  - apply ver_ListAddresses.
  - apply ver_MutateAddresses.
  - apply ver_GetAvatar.
  - apply ver_SetAvatar.
  - apply ver_ClearAvatar.
  - eapply verified_impl; [|apply ver_Step]. intros. by apply answer_ok_none.
  - eapply verified_impl; [|apply ver_consume]. intros. by apply answer_ok_none.
Qed.

(** A request of a caller makes no calls about others. *)
Lemma calls_are_own q p b : caller q = Some (p, b) -> verified (fun _ => own_call (p_Subject p)) (fun _ _ => True) (program_of q) [] (fun _ _ => True).
Proof.
  intros Hq. destruct q; try done; injection Hq as -> _; cbn [program_of]; unfold answering.
  all: repeat first [ progress unfold GetAvatar | progress unfold SetAvatar | progress unfold ClearAvatar | progress unfold avatar_authorized | progress unfold avatar_valid |
    progress unfold avatar_Get | progress unfold avatar_Set | progress unfold refuse | progress unfold decode_now | progress unfold or_conflict | progress cbn -[own_call] | done | (split; [split; [done|by auto]|]) | intro | case_match ].
Qed.
End guards.
