(* ===== verification/UserRuns.v ===== *)
(** * User: runs of the service

    The properties of every run: consistent accounts, no lost updates, retired
    avatars, and what the answers promise to the caller. *)

From S2P Require Import Prelude GoStrings GoText Sha256 Effects UserDomain RegistrationWire RegistrationCodec UserStore UserService UserBooks UserHistory UserGuards.
Local Open Scope Z_scope.

(** ** Where stored values come from *)

Record changes (d : user_db) (c : call) (d' : user_db) : Prop := mkChanges {
  ch_fields : forall id r', profiles d' !! id = Some r' -> (exists r, profiles d !! id = Some r /\ pf_fields r' = pf_fields r) \/ pf_fields r' = no_fields \/ exists e, c = SqlUpdate id (pf_fields r') e;
  ch_avatar : forall id r' a, profiles d' !! id = Some r' -> avatar_file_id r' = Some a -> (exists r, profiles d !! id = Some r /\ avatar_file_id r = Some a) \/ exists e, c = TxSetAvatar id a e /\ a <> zero16;
  ch_finished : forall k x', retirements d' !! k = Some x' -> retired_at x' <> None -> (exists x, retirements d !! k = Some x /\ retired_at x <> None) \/ exists v, c = SqlFinish v /\ k = (rt_Subject v, rt_FileID v);
  ch_inbox : forall e x, inbox d' !! e = Some x -> inbox d !! e = Some x \/ c = SqlApply e (in_subject x) (payload_hash x)
}.

Lemma changes_refl d c : changes d c d.
Proof. split; eauto. Qed.

Lemma changes_profile d c id r r' : profiles d !! id = Some r -> (pf_fields r' = pf_fields r \/ exists e, c = SqlUpdate id (pf_fields r') e) -> (avatar_file_id r' = avatar_file_id r \/ forall a, avatar_file_id r' = Some a -> exists e, c = TxSetAvatar id a e /\ a <> zero16) ->
  changes d c (put_profile d id r').
Proof.
  intros Hr Hf Ha. split; cbn [put_profile set_profiles profiles retirements inbox]; [| |eauto..].
  - intros k x [[<- <-]|[_ Hx]]%lookup_insert_Some; [|eauto]. destruct Hf; eauto.
  - intros k x a [[<- <-]|[_ Hx]]%lookup_insert_Some Hxa; [|eauto]. destruct Ha as [Ha|Ha]; [left; exists r; by rewrite <- Ha|right; by apply Ha].
Qed.

Lemma changes_retirement d c k x : (retired_at x = None \/ (exists y, retirements d !! k = Some y /\ retired_at y = retired_at x) \/ exists v, c = SqlFinish v /\ k = (rt_Subject v, rt_FileID v)) -> changes d c (set_retirements d (<[k := x]> (retirements d))).
Proof.
  intros Hx. split; cbn [set_retirements profiles retirements inbox]; [eauto|eauto| |eauto]. intros k' y [[<- <-]|[_ Hy]]%lookup_insert_Some Hn; [|eauto].
  destruct Hx as [Hx|[(y & Hy & He)|Hx]]; [done|left; exists y; by rewrite He|by right].
Qed.

Lemma changes_checked d c id r r' : profiles d !! id = Some r -> (pf_fields r' = pf_fields r \/ exists e, c = SqlUpdate id (pf_fields r') e) -> (avatar_file_id r' = avatar_file_id r \/ forall a, avatar_file_id r' = Some a -> exists e, c = TxSetAvatar id a e /\ a <> zero16) ->
  changes d c (put_checked d id r').1.
Proof. intros. unfold put_checked. destruct (check_profile r'); [by eapply changes_profile|apply changes_refl]. Qed.

Lemma changes_mutate d owner c generated d' b : user_ok d -> Command_Validate c = Ok tt -> tx_mutate d owner c generated = Ok (d', b) -> changes d (TxMutate owner c generated) d'.
Proof.
  intros Hok Hc Ht. destruct (tx_mutate_operation _ _ _ _ _ Ht) as (r & o & Hr & Ho & Hv). assert (o = Create -> id_ok generated = true /\ book_map d owner !! generated = None) as Hgen by (intros ->; by eapply tx_mutate_fresh).
  pose proof (tx_mutate_spec d owner r c o generated Hr (uo_account _ Hok owner) Hc Ho Hgen Hv) as Hspec. destruct (spec_command _ _ _ _) as [m'|e|]; [|by rewrite Hspec in Ht|done].
  destruct Hspec as (d1 & b1 & Ht1 & _ & _ & _ & (r' & _ & (Hf & _ & _ & _ & Ha) & Hp) & Hret & Hin & _). rewrite Ht1 in Ht. injection Ht as <- <-. split.
  - intros k x. rewrite Hp. intros [[<- <-]|[_ Hx]]%lookup_insert_Some; eauto.
  - intros k x a. rewrite Hp. intros [[<- <-]|[_ Hx]]%lookup_insert_Some Hxa; [|eauto]. left. exists r. by rewrite <- Ha.
  - intros k x. rewrite Hret. eauto.
  - intros e x. rewrite Hin. eauto.
Qed.

Lemma changes_retire d c now owner id : changes d c (sql_retire now d owner id).
Proof. unfold sql_retire. destruct (retirements d !! (owner, id)); [apply changes_refl|]. apply changes_retirement. by left. Qed.

Lemma changes_set_avatar now d owner id e d' a : tx_set_avatar now d owner id e = Ok (d', a) -> changes d (TxSetAvatar owner id e) d'.
Proof.
  intros Ht. unfold tx_set_avatar, sql_get in Ht. destruct (profiles d !! owner) as [r|] eqn:Hr; [|done]. apply bind_Ok in Ht as (cur & Hcur & Ht). rewrite !guard_Ok in Ht. destruct Ht as (_ & _ & Ht).
  match type of Ht with context [profiles (if ?b then _ else _)] => set (swap := b) in Ht end. set (d1 := if swap then sql_retire now d owner (FileID cur) else d) in Ht.
  assert (changes d (TxSetAvatar owner id e) d1 /\ profiles d1 = profiles d) as ([_ _ H3 H4] & Hp).
  { subst d1. destruct swap; [split; [apply changes_retire|apply sql_retire_profiles]|split; [apply changes_refl|done]]. }
  rewrite Hp, Hr in Ht. unfold put_checked in Ht. destruct (check_profile _); [|done]. apply bind_Ok in Ht as (a' & Ha & Ht). injection Ht as <- <-. split; cbn [put_profile set_profiles profiles retirements inbox].
  - intros k x. rewrite Hp. intros [[<- <-]|[_ Hx]]%lookup_insert_Some; eauto.
  - intros k x y. rewrite Hp. intros [[<- <-]|[_ Hx]]%lookup_insert_Some; [|eauto]. cbn [avatar_file_id]. destruct (bool_decide_reflect (id = zero16)); [done|]. intros [= <-]. right. by exists e.
  - exact H3.
  - exact H4.
Qed.

Lemma changes_update_retirement d c v now f : (forall x, retired_at (f x) = retired_at x \/ c = SqlFinish v) -> changes d c (update_retirement d v now f).1.
Proof.
  intros Hf. unfold update_retirement. destruct (retirements d !! _) as [x|] eqn:Hx; [|apply changes_refl]. destruct (leased _ _ _); [|apply changes_refl]. apply changes_retirement.
  destruct (Hf x) as [He|He]; [right; left; by exists x|right; right; by exists v].
Qed.

Lemma changes_apply now d e subject hash : changes d (SqlApply e subject hash) (sql_apply now d e subject hash).1.
Proof.
  unfold sql_apply. destruct (_ || _ || _); [apply changes_refl|]. assert (forall d1, profiles d1 = profiles d -> retirements d1 = retirements d -> (forall k x, inbox d1 !! k = Some x -> inbox d !! k = Some x \/ SqlApply e subject hash = SqlApply k (in_subject x) (payload_hash x)) ->
    changes d (SqlApply e subject hash) (sql_project now d1 subject)) as Hproj.
  { intros d1 Hp Hr Hi. unfold sql_project. rewrite Hp. destruct (profiles d !! subject); split; cbn [put_profile set_profiles profiles retirements inbox]; rewrite ?Hp, ?Hr; eauto.
    - intros k x [[<- <-]|[_ Hx]]%lookup_insert_Some; eauto.
    - intros k x a [[<- <-]|[_ Hx]]%lookup_insert_Some; [done|eauto]. }
  destruct (inbox d !! e) as [x|] eqn:He.
  - destruct (_ && _); [apply Hproj; eauto|apply changes_refl].
  - apply Hproj; [done|done|]. cbn. intros k x [[<- <-]|[_ Hx]]%lookup_insert_Some; eauto.
Qed.

Lemma faulty_changes {R} d c (failed : R) f (r : user_db * R) : changes d c r.1 -> changes d c (faulty failed f d r).1.
Proof. intros Hc. apply faulty_state; [apply changes_refl|done]. Qed.

Lemma respond_changes w d c : user_ok d -> call_valid c -> changes d c (respond w d c).1.
Proof.
  intros Hok Hc. destruct c; cbn [respond fst]; try apply faulty_changes; try apply changes_refl.
  - unfold sql_update. destruct (profiles d !! id) as [r|] eqn:Hr; [|apply changes_refl]. destruct (_ =? _); [|apply changes_refl]. apply (changes_checked _ _ _ r); [done|right; by exists expected|by left].
  - unfold sql_update_settings. destruct (profiles d !! id) as [r|] eqn:Hr; [|apply changes_refl]. destruct (_ =? _); [|apply changes_refl]. apply (changes_checked _ _ _ r); [done|by left|by left].
  - destruct (tx_mutate d owner c generated) as [[d' b]| |] eqn:Ht; cbn; [by eapply changes_mutate|apply changes_refl..].
  - destruct (tx_set_avatar (w_now w) d owner id expected) as [[d' a]| |] eqn:Ht; cbn; [by eapply changes_set_avatar|apply changes_refl..].
  - unfold sql_claim. destruct (first_by _ _) as [[k x]|] eqn:Hf; [|apply changes_refl]. cbn. apply changes_retirement. right. left. exists x. split; [|done].
    apply first_by_in, list_elem_of_In, filter_In in Hf as [Hin _]. by apply list_elem_of_In, elem_of_map_to_list in Hin.
  - apply changes_update_retirement. by right.
  - apply changes_update_retirement. by left.
  - apply changes_apply.
Qed.

Lemma user_respond_legal w d c : user_ok d -> call_valid c -> legal c (respond w d c).2.
Proof.
  intros Hok Hc. destruct c; cbn [respond legal reply]; try done.
  - destruct (w_fault w); [|done..]. cbn [faulty snd]. unfold sql_get. by destruct (profiles d !! id).
  - destruct (w_fault w); [|done..]. cbn [faulty]. destruct (sql_update (w_now w) d id f expected).2 as [x| |] eqn:Hs; [|done..]. by apply sql_update_Scanned in Hs as [_ ?].
  - destruct (w_fault w); [|done..]. cbn [faulty]. destruct (sql_update_settings d id theme expected).2 as [x| |] eqn:Hs; [|done..]. by apply sql_update_settings_Scanned in Hs as [_ ?].
  - destruct (w_fault w); [|done..]. cbn [faulty]. destruct (tx_set_avatar (w_now w) d owner id expected) as [[d' a]| |] eqn:Ht; cbn; [|done..]. by apply tx_set_avatar_follows in Ht as (_ & _ & ?).
  - destruct (w_fault w); [|done..]. cbn [faulty]. destruct (sql_claim (w_now w) (w_locked w) d lease token).2 as [x| |] eqn:Hs; [|done..]. by apply sql_claim_row in Hs as [? _].
Qed.

(** ** The invariant of the service *)

Section runs.
Context `{EventCodec}.

Record user_inv (d : user_db) (ts : list trace) : Prop := mkUserInv {
  ui_db : user_ok d;
  ui_calls : forall t c r, t ∈ ts -> did t c r -> call_ok t c;
  (** a change that was answered is in the past, and was answered to one program *)
  ui_bumped : forall t x v id e, t ∈ ts -> x ∈ t -> bump x = Some (v, id, e) -> exists r, profiles d !! id = Some r /\ e < version_of v r;
  ui_once : forall i j t t' x x' k, ts !! i = Some t -> ts !! j = Some t' -> x ∈ t -> x' ∈ t' -> bump x = Some k -> bump x' = Some k -> i = j;
  ui_claimed : forall t owner id, t ∈ ts -> claimed t owner id -> is_Some (retirements d !! (owner, id));
  ui_applied : forall t e subject hash b, t ∈ ts -> did t (SqlApply e subject hash) (Scanned b) -> exists x, inbox d !! e = Some x /\ in_subject x = subject /\ payload_hash x = hash;
  (** where the stored values come from *)
  ui_fields : forall id r, profiles d !! id = Some r -> pf_fields r = no_fields \/ exists t day, t ∈ ts /\ did t Today day /\ NormalizeFields (pf_fields r) day = Ok (pf_fields r);
  ui_avatar : forall owner r id, profiles d !! owner = Some r -> avatar_file_id r = Some id -> exists t, t ∈ ts /\ inspected t owner id;
  ui_finished : forall k x, retirements d !! k = Some x -> retired_at x <> None -> exists t, t ∈ ts /\ retired t k.1 k.2;
  ui_inbox : forall e x, inbox d !! e = Some x -> exists t m ev, t ∈ ts /\ received t m ev /\ ev_ID ev = e /\ in_subject x = ev_Subject ev /\ payload_hash x = sha256_Sum (msg_Data m)
}.

Lemma inspected_mono t t' o i : t ⊆ t' -> inspected t o i -> inspected t' o i.
Proof. intros Ht (s & r & Hd & Hr). exists s, r. split; [by apply Ht|done]. Qed.
Lemma retired_mono t t' o i : t ⊆ t' -> retired t o i -> retired t' o i.
Proof. intros Ht (u & Hd). exists u. by apply Ht. Qed.
Lemma received_mono t t' m e : t ⊆ t' -> received t m e -> received t' m e.
Proof. intros Ht (Hd & Hr). split; [by apply Ht|done]. Qed.

(** What some trace shows stays shown as the traces grow. *)
Lemma shown_grown (P : trace -> Prop) ts ts' : (forall t t', t ⊆ t' -> P t -> P t') -> grown ts ts' -> (exists t, t ∈ ts /\ P t) -> exists t, t ∈ ts' /\ P t.
Proof. intros HP Hg (t & Ht & Hx). destruct (Hg t Ht) as (t' & Ht' & Hsub). exists t'. split; [done|by eapply HP]. Qed.

Lemma user_inv_start : user_inv (mkUserDb ∅ ∅ ∅ ∅) [].
Proof.
  split; [apply user_ok_start|..]; try (by intros ? ? ? ?%elem_of_nil); try (by intros ? ? ? ? ? ?%elem_of_nil); try done; cbn; intros *; by rewrite lookup_empty.
Qed.

Lemma user_inv_grown d ts : user_inv d ts -> user_inv d (ts ++ [[]]).
Proof.
  intros [Hdb Hcalls Hb Ho Hc Ha Hf Hav Hfin Hin]. pose proof (grown_start ts) as Hg.
  assert (forall t, t ∈ ts ++ [[]] -> t ∈ ts \/ t = []) as Hsplit by (intros t [?|?%list_elem_of_singleton]%elem_of_app; auto).
  split; [done|..].
  - intros t c r [Ht| ->]%Hsplit; [by apply Hcalls|by intros ?%elem_of_nil].
  - intros t x v id e [Ht| ->]%Hsplit; [by apply Hb|by intros ?%elem_of_nil].
  - intros i j t t' x x' k Hi Hj Hx Hx'. apply lookup_app_Some in Hi as [Hi|[_ Hi]]; [|apply list_elem_of_lookup_2, list_elem_of_singleton in Hi; subst t; by apply elem_of_nil in Hx].
    apply lookup_app_Some in Hj as [Hj|[_ Hj]]; [|apply list_elem_of_lookup_2, list_elem_of_singleton in Hj; subst t'; by apply elem_of_nil in Hx']. by eapply Ho.
  - intros t o i [Ht| ->]%Hsplit; [by apply Hc|by intros (? & ? & ? & ?%elem_of_nil & _)].
  - intros t e s h b [Ht| ->]%Hsplit; [by apply Ha|by intros ?%elem_of_nil].
  - intros id r Hr. destruct (Hf id r Hr) as [?|(t & day & Ht & Hx)]; [by left|right]. exists t, day. split; [apply elem_of_app; by left|done].
  - intros o r i Hr Hi. eapply (shown_grown (fun t => inspected t o i)); [intros; by eapply inspected_mono|exact Hg|by eapply Hav].
  - intros k x Hx Hn. eapply (shown_grown (fun t => retired t k.1 k.2)); [intros; by eapply retired_mono|exact Hg|by eapply Hfin].
  - intros e x Hx. destruct (Hin e x Hx) as (t & m & ev & Ht & Hrest). exists t, m, ev. split; [apply elem_of_app; by left|done].
Qed.

Section one_call.
Context (w : world) (d : user_db) (ts : list trace) (i : nat) (t : trace) (c : call).
Context (Hinv : user_inv d ts) (Hi : ts !! i = Some t) (Hc : call_ok t c).
Let e : sigT reply := existT c (respond w d c).2.
Let d' := (respond w d c).1.
Let ts' := <[i := t ++ [e]]> ts.

Lemma user_call_follows : follows d d'.
Proof. apply respond_follows; [apply (ui_db _ _ Hinv)|by eapply call_ok_valid]. Qed.

(** A claim that was answered is of a retirement. *)
Lemma claim_answered lease token v : e = existT (SqlClaim lease token) (Scanned v) -> is_Some (retirements d' !! (rt_Subject v, rt_FileID v)).
Proof.
  unfold e, d'. clear Hc. destruct c; try (intros He; apply (f_equal (@projT1 _ _)) in He; done). intros He. cbn [respond] in *.
  assert (lease0 = lease /\ token0 = token) as [-> ->] by (apply (f_equal (@projT1 _ _)) in He; by injection He).
  apply (f_equal (fun x : sigT reply => match x with existT (SqlClaim _ _) r => r | _ => NoRows end)) in He. cbn in He.
  destruct (w_fault w); try done. cbn [faulty] in *. apply sql_claim_row in He as (_ & x & Hx & _). apply (la_retired _ _ (proj2 (sql_claim_follows d (ui_db _ _ Hinv) (w_now w) (w_locked w) lease token))). by eexists.
Qed.

Lemma apply_answered ev subject hash b : e = existT (SqlApply ev subject hash) (Scanned b) -> exists x, inbox d' !! ev = Some x /\ in_subject x = subject /\ payload_hash x = hash.
Proof.
  unfold e, d'. clear Hc. destruct c; try (intros He; apply (f_equal (@projT1 _ _)) in He; done). intros He. cbn [respond] in *.
  assert (event = ev /\ subject0 = subject /\ hash0 = hash) as (-> & -> & ->) by (apply (f_equal (@projT1 _ _)) in He; by injection He).
  apply (f_equal (fun x : sigT reply => match x with existT (SqlApply _ _ _) r => r | _ => NoRows end)) in He. cbn in He.
  destruct (w_fault w); try done. cbn [faulty] in *. unfold sql_apply, sql_project in *. destruct (_ || _ || _); [done|]. destruct (inbox d !! ev) as [x|] eqn:Hx.
  - destruct (bool_decide (in_subject x = subject) && bool_decide (payload_hash x = hash)) eqn:Hg; [|done]. apply andb_true_iff in Hg as [Hs%bool_decide_eq_true Hh%bool_decide_eq_true]. exists x. cbn [fst].
    destruct (profiles d !! subject); cbn; by rewrite Hx.
  - cbn [fst profiles]. destruct (profiles d !! subject); cbn; rewrite lookup_insert_eq; eexists; by split.
Qed.

Lemma user_inv_call : user_inv d' ts'.
Proof.
  destruct user_call_follows as [Hok' Hlater]. pose proof Hinv as [Hdb Hcalls Hb Ho Hcl Ha Hf Hav Hfin Hin].
  pose proof (call_ok_valid t c Hc) as Hvalid. pose proof (respond_changes w d c Hdb Hvalid) as [C1 C2 C3 C4]. fold d' in C1, C2, C3, C4.
  pose proof (grown_call ts i t e Hi) as Hg. fold ts' in Hg.
  assert (forall t0 x, t0 ∈ ts' -> x ∈ t0 -> (exists t1, t1 ∈ ts /\ x ∈ t1) \/ x = e) as Hevent by (intros; by eapply call_event).
  assert (t ++ [e] ∈ ts') as Hnew by (eapply list_elem_of_lookup_2, list_lookup_insert_eq; by eapply lookup_lt_Some).
  assert (t ∈ ts) as Hold by (by eapply list_elem_of_lookup_2). assert (t ⊆ t ++ [e]) as Hsub by set_solver.
  assert (forall v id n, (exists r, profiles d !! id = Some r /\ n < version_of v r) -> exists r, profiles d' !! id = Some r /\ n < version_of v r) as Hver.
  { intros v id n (r & Hr & Hn). destruct (la_profiles _ _ Hlater id r Hr) as (r' & Hr' & Hv). exists r'. split; [done|]. specialize (Hv v). lia. }
  assert (forall v id n, bump e = Some (v, id, n) -> bumped v id n d d') as Hbe by (intros v id n; by apply respond_bumped).
  split; [done|..].
  - intros t0 c0 r0 Ht0 Hd. destruct (call_trace ts i t e t0 Ht0) as [Ht1| ->]; [by eapply Hcalls|]. apply elem_of_app in Hd as [Hd|Hd%list_elem_of_singleton].
    + eapply user_call_ok_mono; [exact Hsub|by eapply Hcalls].
    + apply (f_equal (@projT1 _ _)) in Hd. cbn in Hd. subst c0. by eapply user_call_ok_mono.
  - intros t0 x v id n Ht0 Hx Hbx. destruct (Hevent t0 x Ht0 Hx) as [(t1 & Ht1 & Hx1)| ->]; [apply Hver; by eapply Hb|]. destruct (Hbe v id n Hbx) as [_ (r & Hr & Hv)]. exists r. split; [done|lia].
  - assert (forall j t0 x v id n, ts' !! j = Some t0 -> x ∈ t0 -> bump x = Some (v, id, n) -> (exists t1, ts !! j = Some t1 /\ x ∈ t1) \/ (j = i /\ bump e = Some (v, id, n) /\ ~ exists r, profiles d !! id = Some r /\ n < version_of v r)) as Hcase.
    { intros j t0 x v id n [[<- [<- _]]|[_ Hj]]%list_lookup_insert_Some Hx Hbx; [|left; by exists t0]. apply elem_of_app in Hx as [Hx|Hx%list_elem_of_singleton]; [left; by exists t|right].
      subst x. split_and!; [done|done|]. destruct (Hbe v id n Hbx) as [(r & Hr & Hv) _]. intros (r1 & Hr1 & Hn). assert (r1 = r) as -> by congruence. lia. }
    intros j k t0 t1 x x' [[v id] n] Hj Hk Hx Hx' Hbx Hbx'. destruct (Hcase j t0 x v id n Hj Hx Hbx) as [(u & Hu & Hxu)|(-> & He & Hno)], (Hcase k t1 x' v id n Hk Hx' Hbx') as [(u' & Hu' & Hxu')|(-> & He' & Hno')]; [by eapply Ho| | |done].
    + destruct Hno'. eapply (Hb u x); [by eapply list_elem_of_lookup_2|done|done].
    + destruct Hno. eapply (Hb u' x'); [by eapply list_elem_of_lookup_2|done|done].
  - intros t0 o id Ht0 (lease & token & v & Hd & <- & <-). destruct (Hevent _ _ Ht0 Hd) as [(t1 & Ht1 & Hd1)|He]; [|symmetry in He; by eapply claim_answered].
    apply (la_retired _ _ Hlater). apply (Hcl t1); [done|]. by exists lease, token, v.
  - intros t0 ev s h b Ht0 Hd. destruct (Hevent _ _ Ht0 Hd) as [(t1 & Ht1 & Hd1)|He]; [|symmetry in He; by eapply apply_answered].
    destruct (Ha t1 ev s h b Ht1 Hd1) as (x & Hx & Hs). exists x. split; [by apply (la_inbox _ _ Hlater)|done].
  - intros id r' Hr'. destruct (C1 id r' Hr') as [(r & Hr & He)|[He|(n & He)]]; [|by left|].
    + rewrite He. destruct (Hf id r Hr) as [?|(t0 & day & Ht0 & Hd & Hn)]; [by left|right]. destruct (Hg t0 Ht0) as (t1 & Ht1 & Hs). exists t1, day. split_and!; [done|by apply Hs|done].
    + right. assert (call_ok t (SqlUpdate id (pf_fields r') n)) as (day & Hd & Hn) by (rewrite <- He; exact Hc). exists (t ++ [e]), day. split_and!; [done|by apply Hsub|done].
  - intros o r' id Hr' Hid. destruct (C2 o r' id Hr' Hid) as [(r & Hr & He)|(n & He & Hz)].
    + eapply (shown_grown (fun t => inspected t o id)); [intros; by eapply inspected_mono|exact Hg|by eapply Hav].
    + assert (call_ok t (TxSetAvatar o id n)) as [_ [?|Hins]] by (rewrite <- He; exact Hc); [done|]. exists (t ++ [e]). split; [done|by eapply inspected_mono].
  - intros k x Hx Hn. destruct (C3 k x Hx Hn) as [(y & Hy & Hn')|(v & He & ->)].
    + eapply (shown_grown (fun t => retired t k.1 k.2)); [intros; by eapply retired_mono|exact Hg|by eapply Hfin].
    + assert (call_ok t (SqlFinish v)) as [_ Hret] by (rewrite <- He; exact Hc). exists (t ++ [e]). split; [done|]. cbn. by eapply retired_mono.
  - intros ev x Hx. destruct (C4 ev x Hx) as [Hx'|He].
    + destruct (Hin ev x Hx') as (t0 & m & evt & Ht0 & Hrec & Hrest). destruct (Hg t0 Ht0) as (t1 & Ht1 & Hs). exists t1, m, evt. split_and!; [done|by eapply received_mono|by destruct_and! Hrest..].
    + assert (call_ok t (SqlApply ev (in_subject x) (payload_hash x))) as (m & evt & Hrec & H1 & H2 & H3) by (rewrite <- He; exact Hc). exists (t ++ [e]), m, evt. split_and!; try done. by eapply received_mono.
Qed.
End one_call.

Lemma user_run_from s es s' : invariant call_ok legal answer_ok user_inv s -> user_run s es = Some s' -> invariant call_ok legal answer_ok user_inv s'.
Proof.
  apply (run_invariant_from respond program_of call_ok legal answer_ok user_inv).
  - intros q. apply ver_program.
  - intros w d ts t c Hi Ht Hc. apply user_respond_legal; [apply (ui_db _ _ Hi)|by eapply call_ok_valid].
  - apply user_inv_grown.
  - intros w d ts i t c Hi Ht Hc. by apply user_inv_call.
Qed.

Lemma user_run_ok es s : user_run user_start es = Some s -> invariant call_ok legal answer_ok user_inv s.
Proof. apply user_run_from. split; [apply user_inv_start|]. by intros th ?%elem_of_nil. Qed.

(** ** Properties *)

Lemma no_fields_normal day : NormalizeFields no_fields day = Ok no_fields.
Proof. by vm_compute. Qed.

Lemma stored_decodes id r day : id_ok id = true -> version_ok (pf_version r) = true -> NormalizeFields (pf_fields r) day = Ok (pf_fields r) ->
  decode_profile day (Scanned (id, r)) = Ok (mkProfile id (pf_fields r) (pf_version r) (created_at r) (updated_at r)).
Proof.
  intros Hid Hv Hn. cbn [decode_profile]. rewrite (id_ok_subject id Hid), Hn. cbn [map_err mbind result_bind]. rewrite bool_decide_true by done. cbn [negb orb].
  rewrite guard_Ok. split; [unfold version_ok in Hv; lia|done].
Qed.

(** C17. The stored accounts stay in order under any interleaving and failure: profiles
    belong to registered accounts and satisfy the constraints, books are normalized,
    with at most twenty addresses and one default, no avatar is a retired file, and
    every profile can be read on the day it was written and on all later days. *)
Theorem users_stay_consistent (es : list (event request world)) (s : system reply request answer user_db) :
  user_run user_start es = Some s ->
  user_ok (sys_db s) /\
  forall id r, profiles (sys_db s) !! id = Some r ->
    exists day, (pf_fields r = no_fields \/ exists t, t ∈ traces s /\ did t Today day) /\
      forall later, bytes_before later day = false ->
        decode_profile later (Scanned (id, r)) = Ok (mkProfile id (pf_fields r) (pf_version r) (created_at r) (updated_at r)).
Proof.
  intros [Hinv _]%user_run_ok. split; [apply (ui_db _ _ Hinv)|]. intros id r Hr. destruct (uo_account _ (ui_db _ _ Hinv) id r Hr) as (Hid & Hc & _). apply check_profile_iff in Hc as (_ & Hv & _).
  destruct (ui_fields _ _ Hinv id r Hr) as [Hf|(t & day & Ht & Hd & Hn)].
  - exists []. split; [by left|]. intros later _. apply stored_decodes; [done|done|]. rewrite Hf. apply no_fields_normal.
  - exists day. split; [right; by exists t|]. intros later Hl. apply stored_decodes; [done|done|]. by eapply normalized_profiles_are_stable.
Qed.

(** The answer to a change is a success. *)
Definition is_answer (a : answer) : Prop := answer_subject a <> None.

(** C18. No update is lost: of the requests that name one version of the same profile,
    settings, address book or avatar, at most one succeeds, however they interleave
    and whatever fails, and the version it names is in the past from then on. *)
Theorem updates_are_never_lost (es : list (event request world)) (s : system reply request answer user_db) (i j : nat)
    (th th' : thread reply request answer) (v : versioned) (owner : bytes) (e : Z) (a a' : answer) :
  user_run user_start es = Some s -> sys_threads s !! i = Some th -> sys_threads s !! j = Some th' ->
  updates (th_request th) = Some (v, owner, e) -> updates (th_request th') = Some (v, owner, e) ->
  th_prog th = Ret a -> th_prog th' = Ret a' -> is_answer a -> is_answer a' ->
  i = j /\ exists r, profiles (sys_db s) !! owner = Some r /\ e < version_of v r.
Proof.
  intros [Hinv Hth]%user_run_ok Hi Hj Hu Hu' Hp Hp' Ha Ha'.
  assert (forall k x b, sys_threads s !! k = Some x -> updates (th_request x) = Some (v, owner, e) -> th_prog x = Ret b -> is_answer b -> traces s !! k = Some (th_trace x) /\ exists y, y ∈ th_trace x /\ bump y = Some (v, owner, e)) as Hex.
  { intros k x b Hk Hxu Hxp Hb. pose proof (Hth x (list_elem_of_lookup_2 _ _ _ Hk)) as Hv. rewrite Hxp in Hv. unfold is_answer in Hb. destruct (answer_subject b) as [sub|] eqn:Hs; [|done].
    destruct (Hv sub Hs) as (_ & Hup & _). split; [unfold traces; by rewrite list_lookup_fmap, Hk|by apply Hup]. }
  destruct (Hex i th a Hi Hu Hp Ha) as (Ht & y & Hy & Hby), (Hex j th' a' Hj Hu' Hp' Ha') as (Ht' & y' & Hy' & Hby').
  split; [by eapply (ui_once _ _ Hinv)|]. eapply (ui_bumped _ _ Hinv); [by eapply list_elem_of_lookup_2|done|done].
Qed.


(** ** Avatars *)

Lemma run_later s es s' : invariant call_ok legal answer_ok user_inv s -> user_run s es = Some s' -> later (sys_db s) (sys_db s').
Proof.
  intros Hs Hrun. apply (run_invariant_from respond program_of call_ok legal answer_ok (fun d ts => user_inv d ts /\ later (sys_db s) d)) in Hrun as [[_ Hl] _]; [done|..].
  - intros q. apply ver_program.
  - intros w d ts t c [Hi _] Ht Hc. apply user_respond_legal; [apply (ui_db _ _ Hi)|by eapply call_ok_valid].
  - intros d ts [Hi Hl]. split; [by apply user_inv_grown|done].
  - intros w d ts i t c [Hi Hl] Ht Hc. split; [by apply user_inv_call|]. eapply user_later_trans; [exact Hl|]. by eapply user_call_follows.
  - destruct Hs as [Hi Hth]. split; [|done]. split; [done|apply user_later_refl].
Qed.

(** C19. Avatars: the current avatar was inspected by the files service for its owner;
    a file that was asked to be retired, or that is in the queue of retirements, is
    not its owner's avatar then or ever after; and a retirement that is recorded as
    finished was confirmed by the files service. *)
Theorem retired_avatars_stay_retired (es es' : list (event request world)) (s s' : system reply request answer user_db) (owner id : bytes) :
  user_run user_start es = Some s -> user_run s es' = Some s' ->
  (forall r, profiles (sys_db s) !! owner = Some r -> avatar_file_id r = Some id -> exists t, t ∈ traces s /\ inspected t owner id) /\
  (forall x, retirements (sys_db s) !! (owner, id) = Some x -> retired_at x <> None -> exists t, t ∈ traces s /\ retired t owner id) /\
  ((exists t u, t ∈ traces s /\ did t (RetireOwnedAvatar owner id) u) \/ is_Some (retirements (sys_db s) !! (owner, id)) ->
   forall r, profiles (sys_db s') !! owner = Some r -> avatar_file_id r <> Some id).
Proof.
  intros Hrun Hrun'. apply user_run_ok in Hrun. pose proof (run_later _ _ _ Hrun Hrun') as Hl. apply (user_run_from _ _ _ Hrun) in Hrun' as [Hinv' _]. destruct Hrun as [Hinv _]. split_and!.
  - intros r Hr Ha. by eapply (ui_avatar _ _ Hinv).
  - intros x Hx Hn. exact (ui_finished _ _ Hinv (owner, id) x Hx Hn).
  - intros Hret r Hr Ha. assert (is_Some (retirements (sys_db s) !! (owner, id))) as Hs.
    { destruct Hret as [(t & u & Ht & Hd)|]; [|done]. eapply (ui_claimed _ _ Hinv); [exact Ht|]. exact (ui_calls _ _ Hinv _ _ _ Ht Hd). }
    apply (la_retired _ _ Hl) in Hs. rewrite (uo_current _ (ui_db _ _ Hinv') owner r id Hr Ha) in Hs. by destruct Hs.
Qed.
End runs.

(** ** A run *)

Definition sample_id (n : Z) : bytes := replicate 15 0 ++ [n].
Definition sample_event : Event := mkEvent (sample_id 1) (sample_id 2) (1700000000 * Second) zero16 zero16.
Definition sample_payload : bytes := match Marshal sample_event with Ok p => p | _ => [] end.
Definition sample_principal : Principal := mkPrincipal (bytes_of "session") (sample_id 2) true true true true true true.
Definition sample_fields : Fields := mkFields (bytes_of " Ada ") (bytes_of "programmer") (bytes_of "Lovelace") (bytes_of "1815-12-10") 2 (bytes_of "+44 20 7946 0000") (bytes_of "London") true.
Definition sample_address : AddressFields :=
  mkAddressFields (bytes_of "Ada") (bytes_of "+44 20 7946 0000") (bytes_of "UK") [] (bytes_of "London") (bytes_of "St James's Square 12") [] [].
Definition sample_command : Command := mkCommand (Some Create) zero16 sample_address 1.

(** Everything works and the clock stands; the random bytes are the identifier [n]. *)
Definition sample_world (n : Z) : world :=
  mkWorld Healthy (1700000100 * Second) (bytes_of "2026-01-02") false (Some (sample_id n)) (fun _ => false)
    (Ok (Some (mkInspected (bytes_of "image/png") 1000 (replicate 32 7)))) (Ok tt) (Some (mkMessage 1 event_type_v1 sample_payload)) true.
Definition sample_calls (i n : nat) : list (event request world) := replicate n (Call i (sample_world 9)).

(** An account registers, fills its profile, chooses an avatar and another one, and
    stores an address; the first avatar is retired. *)
Definition sample_before : list (event request world) :=
  Start ReqConsume :: sample_calls 0 6 ++
  Start (ReqUpdateMe sample_principal sample_fields 1) :: sample_calls 1 6 ++
  Start (ReqSetAvatar sample_principal (sample_id 5) 1) :: sample_calls 2 4 ++
  Start (ReqSetAvatar sample_principal (sample_id 6) 2) :: sample_calls 3 4 ++
  Start ReqCleanup :: sample_calls 4 5 ++
  Start (ReqMutateAddresses sample_principal sample_command) :: sample_calls 5 4.
(** The profile is read. *)
Definition sample_after : list (event request world) := Start (ReqGetMe sample_principal) :: sample_calls 6 4.

Definition sample_checks (s : system reply request answer user_db) : bool :=
  match sys_threads s with
  | [mkThread _ (Ret (AnsOutcomes [Applied])) _; mkThread (ReqUpdateMe p f 1) (Ret (AnsProfile (Ok _))) _; mkThread _ (Ret (AnsAvatar (Ok _))) _; mkThread _ (Ret (AnsAvatar (Ok _))) _;
     mkThread _ (Ret (AnsCleanup (Ok _))) _; mkThread _ (Ret (AnsBook (Ok _))) _] =>
      bool_decide (p_Subject p = sample_id 2 /\ CanWrite p = true /\ is_Some (retirements (sys_db s) !! (sample_id 2, sample_id 5)))
  | _ => false
  end.

Lemma user_sample_reaches : exists s s' p f v t0 a0 q0 rest,
  user_run user_start sample_before = Some s /\ user_run s sample_after = Some s' /\
  sys_threads s = mkThread q0 (Ret a0) t0 :: mkThread (ReqUpdateMe p f 1) (Ret (AnsProfile (Ok v))) rest.1 :: rest.2 /\
  p_Subject p = sample_id 2 /\ CanWrite p = true /\ is_Some (retirements (sys_db s) !! (sample_id 2, sample_id 5)).
Proof.
  assert ((s ← user_run user_start sample_before; s' ← user_run s sample_after; Some (sample_checks s)) = Some true) as Hs by (vm_compute; reflexivity).
  destruct (user_run user_start sample_before) as [s|]; [|done]. cbn [mbind option_bind] in Hs. destruct (user_run s sample_after) as [s'|] eqn:Hrun'; [|done]. cbn [mbind option_bind] in Hs. injection Hs as Hs.
  exists s, s'. destruct s as [d ths]. unfold sample_checks in Hs. cbn [sys_threads sys_db] in *.
  repeat (match type of Hs with
    | bool_decide _ = _ => fail 1
    | context [match ?x with _ => _ end] => destruct x; try done
    end).
  apply bool_decide_eq_true in Hs as (H1 & H2 & H3). eexists _, _, _, _, _, _, (_, _). split_and!; try done.
Qed.

Lemma users_stay_consistent_witness : exists s, user_run user_start sample_before = Some s /\ user_ok (sys_db s).
Proof. destruct user_sample_reaches as (s & s' & p & f & v & t0 & a0 & q0 & rest & Hrun & _). exists s. split; [exact Hrun|]. exact (proj1 (users_stay_consistent sample_before s Hrun)). Defined.

Lemma updates_are_never_lost_witness : exists s, user_run user_start sample_before = Some s /\ exists r, profiles (sys_db s) !! sample_id 2 = Some r /\ 1 < pf_version r.
Proof.
  destruct user_sample_reaches as (s & s' & p & f & v & t0 & a0 & q0 & rest & Hrun & _ & Hs & Hp & _). exists s. split; [exact Hrun|].
  refine (proj2 (updates_are_never_lost sample_before s 1 1 (mkThread (ReqUpdateMe p f 1) (Ret (AnsProfile (Ok v))) rest.1) (mkThread (ReqUpdateMe p f 1) (Ret (AnsProfile (Ok v))) rest.1) VProfile (sample_id 2) 1
    (AnsProfile (Ok v)) (AnsProfile (Ok v)) Hrun _ _ _ _ eq_refl eq_refl _ _)); try (rewrite Hs; reflexivity); try (cbn; rewrite Hp; reflexivity); discriminate.
Defined.


Lemma retired_avatars_stay_retired_witness : exists s s', user_run user_start sample_before = Some s /\ user_run s sample_after = Some s' /\
  forall r, profiles (sys_db s') !! sample_id 2 = Some r -> avatar_file_id r <> Some (sample_id 5).
Proof.
  destruct user_sample_reaches as (s & s' & p & f & v & t0 & a0 & q0 & rest & Hrun & Hrun' & _ & _ & _ & Hret). exists s, s'. split; [exact Hrun|]. split; [exact Hrun'|].
  refine (proj2 (proj2 (retired_avatars_stay_retired sample_before sample_after s s' (sample_id 2) (sample_id 5) Hrun Hrun')) _). right. exact Hret.
Defined.
