(* ===== verification/RegistrationStore.v ===== *)
(** * Registration: the databases and the stream

    The state that carries a registration from auth to user: the credentials and the
    outbox of auth ([000001_credentials.up.sql], [000003_registration_outbox.up.sql])
    with the statements of [adapter/out/postgres], [postgresoutbox] and
    [postgresbackfill], the stream of the broker, and the database of user.  A
    statement is atomic; times are in nanoseconds, and the clock of a statement stands
    still. *)

From S2P Require Import Prelude GoStrings GoUnicode Sha256 Effects UserDomain RegistrationWire UserStore.
Local Open Scope Z_scope.

(** ** State *)

(** A row of [auth.credentials] without its key. *)
Record credential_row := mkCredentialRow { cr_identifier : bytes; cr_digest : bytes }.

(** A row of [auth.registration_outbox] without its key; the lease is the token and its
    end. *)
Record outbox_row := mkOutboxRow {
  ob_subject : bytes;
  occurred_at : Z;
  ob_payload : bytes;
  ob_attempts : Z;
  ob_next_attempt_at : Z;
  ob_lease : option (bytes * Z);
  published_at : option Z
}.

(** A message of the stream: its subject, the header with its identifier, its data. *)
Record stored_message := mkStoredMessage { sm_subject : bytes; sm_id : bytes; sm_data : bytes }.
#[export] Instance stored_message_eq_dec : EqDecision stored_message.
Proof. solve_decision. Defined.

(** The sequence of a message is its position, from one; [acked] are the sequences that
    the consumer acknowledged. *)
Record reg_db := mkRegDb {
  credentials : gmap bytes credential_row;
  outbox : gmap bytes outbox_row;
  stream : list stored_message;
  acked : gset Z;
  users : user_db
}.

Definition set_outbox (d : reg_db) (m : gmap bytes outbox_row) : reg_db := mkRegDb (credentials d) m (stream d) (acked d) (users d).
Definition set_users (d : reg_db) (u : user_db) : reg_db := mkRegDb (credentials d) (outbox d) (stream d) (acked d) u.
Definition set_stream (d : reg_db) (l : list stored_message) : reg_db := mkRegDb (credentials d) (outbox d) l (acked d) (users d).
Definition set_acked (d : reg_db) (s : gset Z) : reg_db := mkRegDb (credentials d) (outbox d) (stream d) s (users d).

(** ** Constraints *)

Definition check_credential (subject : bytes) (r : credential_row) : bool :=
  (len subject =? 16) && between 3 (len (cr_identifier r)) 254 && between 1 (len (cr_digest r)) 512.
Definition identifier_used (d : reg_db) (identifier : bytes) : bool :=
  existsb (fun x => bool_decide (cr_identifier x.2 = identifier)) (map_to_list (credentials d)).

Definition lease_ok (l : option (bytes * Z)) : bool := match l with Some (token, _) => id_ok token | None => true end.
Definition check_outbox (event : bytes) (r : outbox_row) : bool :=
  id_ok event && id_ok (ob_subject r) && between 1 (len (ob_payload r)) 8192 && (0 <=? ob_attempts r) && lease_ok (ob_lease r).

(** [INSERT INTO auth.registration_outbox(event_id,subject_id,occurred_at,payload)] and
    the index on the subject *)
Definition subject_queued (d : reg_db) (subject : bytes) : bool := existsb (fun x => bool_decide (ob_subject x.2 = subject)) (map_to_list (outbox d)).
Definition new_outbox_row (now : Z) (subject : bytes) (occurred : Z) (data : bytes) : outbox_row :=
  mkOutboxRow subject (pg_time occurred) data 0 (pg_time now) None None.
Definition sql_insert_event (now : Z) (d : reg_db) (event subject : bytes) (occurred : Z) (data : bytes) : option reg_db :=
  let r := new_outbox_row now subject occurred data in
  if negb (check_outbox event r) || bool_decide (is_Some (outbox d !! event)) || subject_queued d subject then None
  else Some (set_outbox d (<[event := r]> (outbox d))).

(** ** Credentials *)

(** [createCredentialSQL]: the number of affected rows; [None] if it fails *)
Definition sql_create_credential (d : reg_db) (subject identifier digest : bytes) : reg_db * option Z :=
  let r := mkCredentialRow identifier digest in
  if negb (check_credential subject r) then (d, None) else
  if identifier_used d identifier then (d, Some 0) else
  if bool_decide (is_Some (credentials d !! subject)) then (d, None) else
  (mkRegDb (<[subject := r]> (credentials d)) (outbox d) (stream d) (acked d) (users d), Some 1).

(** [createRegistrationSQL]: both rows or neither *)
Definition sql_create_registration (now : Z) (d : reg_db) (subject identifier digest event : bytes) (occurred : Z) (data : bytes) : reg_db * option Z :=
  match sql_create_credential d subject identifier digest with
  | (d', Some 1) =>
      match sql_insert_event now d' event subject occurred data with
      | Some d'' => (d'', Some 1)
      | None => (d, None)
      end
  | r => r
  end.

(** [findCredentialSQL] *)
Definition sql_find_credential (d : reg_db) (identifier : bytes) : query (bytes * credential_row) :=
  match list_find (fun x => cr_identifier x.2 = identifier) (map_to_list (credentials d)) with
  | Some (_, x) => Scanned x
  | None => NoRows
  end.

(** [updatePasswordDigestSQL] *)
Definition sql_update_digest (d : reg_db) (subject previous next : bytes) : reg_db * option Z :=
  match credentials d !! subject with
  | Some c =>
      if bool_decide (cr_digest c = previous) then
        let c' := mkCredentialRow (cr_identifier c) next in
        if check_credential subject c' then (mkRegDb (<[subject := c']> (credentials d)) (outbox d) (stream d) (acked d) (users d), Some 1) else (d, None)
      else (d, Some 0)
  | None => (d, Some 0)
  end.

(** ** The outbox *)

Record Record_ := mkRecord { r_ID : bytes; r_LeaseToken : bytes; Payload : bytes; r_Attempts : Z; r_OccurredAt : Z }.

Definition ob_due (now : Z) (r : outbox_row) : bool :=
  bool_decide (published_at r = None) && (ob_next_attempt_at r <=? now) && match ob_lease r with Some (_, until) => until <=? now | None => true end.

(** [ORDER BY next_attempt_at,occurred_at,event_id] *)
Definition ob_before (a b : bytes * outbox_row) : bool :=
  (ob_next_attempt_at a.2 <? ob_next_attempt_at b.2) || (ob_next_attempt_at a.2 =? ob_next_attempt_at b.2) &&
  ((occurred_at a.2 <? occurred_at b.2) || (occurred_at a.2 =? occurred_at b.2) && bytes_before a.1 b.1).

(** [claimSQL]; other transactions hold the rows that are [locked] *)
Definition claimed_row (now lease : Z) (token : bytes) (r : outbox_row) : outbox_row :=
  mkOutboxRow (ob_subject r) (occurred_at r) (ob_payload r) (Z.min (ob_attempts r) 2147483646 + 1) (ob_next_attempt_at r) (Some (token, pg_time now + lease)) (published_at r).
Definition sql_claim_event (now : Z) (locked : bytes -> bool) (d : reg_db) (lease : Z) (token : bytes) : reg_db * query Record_ :=
  match first_by ob_before (List.filter (fun x => ob_due now x.2 && negb (locked x.1)) (map_to_list (outbox d))) with
  | None => (d, NoRows)
  | Some (event, r) =>
      let r' := claimed_row now lease token r in
      if check_outbox event r'
      then (set_outbox d (<[event := r']> (outbox d)), Scanned (mkRecord event token (ob_payload r) (ob_attempts r') (occurred_at r)))
      else (d, QueryFailed)
  end.

(** [markSQL] and [retrySQL]: the number of affected rows *)
Definition ob_leased (now : Z) (token : bytes) (r : outbox_row) : bool :=
  match ob_lease r with Some (t, until) => bool_decide (t = token) && (now <? until) | None => false end && bool_decide (published_at r = None).
Definition update_leased (now : Z) (d : reg_db) (event token : bytes) (f : outbox_row -> outbox_row) : reg_db * option Z :=
  match outbox d !! event with
  | Some r => if ob_leased now token r then (set_outbox d (<[event := f r]> (outbox d)), Some 1) else (d, Some 0)
  | None => (d, Some 0)
  end.
Definition sql_mark (now : Z) (d : reg_db) (event token : bytes) : reg_db * option Z :=
  update_leased now d event token (fun r => mkOutboxRow (ob_subject r) (occurred_at r) (ob_payload r) (ob_attempts r) (ob_next_attempt_at r) None (Some (pg_time now))).
Definition sql_retry_event (now : Z) (d : reg_db) (event token : bytes) (delay : Z) : reg_db * option Z :=
  update_leased now d event token (fun r => mkOutboxRow (ob_subject r) (occurred_at r) (ob_payload r) (ob_attempts r) (pg_time now + delay) None (published_at r)).

(** [pendingSQL] *)
Definition sql_pending (d : reg_db) : Z * option Z :=
  let l := List.filter (fun x => bool_decide (published_at x.2 = None)) (map_to_list (outbox d)) in
  (len l, fold_left (fun m x => Some (match m with Some v => Z.min v (occurred_at x.2) | None => occurred_at x.2 end)) l None).

(** ** The reconciler *)

(** A row of the page: the subject, whether it has no event, and when that was
    published. *)
Record scan_row := mkScanRow { sc_Subject : bytes; Missing : bool; PublishedAt : option Z }.

Definition subject_le (a b : bytes) : Prop := bytes_before b a = false.
#[export] Instance subject_le_dec : RelDecision subject_le.
Proof. intros a b. unfold subject_le. apply _. Defined.

Definition event_of (d : reg_db) (subject : bytes) : option (bytes * outbox_row) :=
  list_find (fun x => ob_subject x.2 = subject) (map_to_list (outbox d)) ≫= fun x => Some x.2.
Definition scan_row_of (d : reg_db) (subject : bytes) : scan_row :=
  mkScanRow subject (bool_decide (event_of d subject = None)) (x ← event_of d subject; published_at x.2).

(** [... WHERE c.subject_id>$1 ORDER BY c.subject_id LIMIT $2] *)
Definition later_subjects (d : reg_db) (after : bytes) : list bytes :=
  merge_sort subject_le (List.filter (bytes_before after) (map_to_list (credentials d)).*1).
Definition sql_scan (d : reg_db) (after : bytes) (limit : Z) : list scan_row :=
  scan_row_of d <$> take (Z.to_nat limit) (later_subjects d after).

(** The statement of [Ensure]. *)
Definition sql_ensure (now : Z) (d : reg_db) (event subject : bytes) (occurred : Z) (data : bytes) : reg_db * option Z :=
  match credentials d !! subject with
  | None => (d, Some 0)
  | Some _ =>
      if negb (check_outbox event (new_outbox_row now subject occurred data)) then (d, None) else
      if subject_queued d subject then (d, Some 0) else
      match sql_insert_event now d event subject occurred data with Some d' => (d', Some 1) | None => (d, None) end
  end.

(** The statement of [Replay]. *)
Definition sql_replay (now : Z) (d : reg_db) (subject : bytes) (published : Z) : reg_db * option Z :=
  match event_of d subject with
  | Some (event, r) =>
      if bool_decide (published_at r = Some published) && bool_decide (ob_lease r = None)
      then (set_outbox d (<[event := mkOutboxRow (ob_subject r) (occurred_at r) (ob_payload r) (ob_attempts r) (pg_time now) (ob_lease r) None]> (outbox d)), Some 1)
      else (d, Some 0)
  | None => (d, Some 0)
  end.

(** ** The broker *)

(** Within its window the broker drops a message whose identifier it has already
    stored; the acknowledgement has the sequence of the message. *)
Definition publish (deduplicates : bool) (d : reg_db) (m : stored_message) : reg_db * Z :=
  match list_find (fun x => sm_id x = sm_id m) (stream d) with
  | Some (i, _) => if deduplicates then (d, Z.of_nat i + 1) else (set_stream d (stream d ++ [m]), Z.of_nat (length (stream d)) + 1)
  | None => (set_stream d (stream d ++ [m]), Z.of_nat (length (stream d)) + 1)
  end.
