(* ===== verification/RegistrationService.v ===== *)
(** * Registration: the programs

    The programs that carry a registration from auth to user, over the state of
    [RegistrationStore]: [application/register] with [adapter/out/registrationevent]
    and [randomid], the login of [application/login], the worker of [application/publishregistration] with
    [postgresoutbox] and [jetstream], the reconciler of [application/backfillregistration]
    with [postgresbackfill], and the programs of the user service, its consumer of the
    stream among them.  The connection to the broker, metrics and the polling of the
    worker are left out. *)

From S2P Require Import Prelude GoStrings GoUnicode AuthDomain GoText Sha256 GoEncoding Effects UserDomain RegistrationWire UserStore UserService RegistrationStore.
Local Open Scope Z_scope.

(** ** Calls *)

Record PubAck := mkPubAck { ack_Stream : bytes; Sequence : Z }.

Inductive rcall :=
(** is the context done; the clock; 16 random bytes; the trace of the caller; the digest
    of a password *)
| RegCtxErr
| Clock
| RandomBytes
| SpanTrace
| Hash (password : bytes)
(** does a password fit a digest, and is the digest outdated; the work of a check for nobody *)
| HashVerify (password digest : bytes)
| EqualizeMissing (password : bytes)
(* SQL *)
| SqlCreateCredential (subject identifier digest : bytes)
| SqlCreateRegistration (subject identifier digest event : bytes) (occurred : Z) (data : bytes)
| SqlFindCredential (identifier : bytes)
| SqlUpdateDigest (subject previous next : bytes)
| SqlClaimEvent (lease : Z) (token : bytes)
| SqlMark (event token : bytes)
| SqlRetryEvent (event token : bytes) (delay : Z)
| SqlPending
| SqlScan (after : bytes) (limit : Z)
| SqlEnsure (event subject : bytes) (occurred : Z) (data : bytes)
| SqlReplay (subject : bytes) (published : Z)
(** the broker: was the publisher closed, is there a connection *)
| PublisherClosed
| Connection
| PublishMsg (m : stored_message)
(** a call of the user service *)
| UserCall (c : call).

Definition rreply (c : rcall) : Type :=
  match c with
  | RegCtxErr | PublisherClosed | Connection | EqualizeMissing _ => bool
  | HashVerify _ _ => option (bool * bool)
  | Clock => Z
  | RandomBytes | SpanTrace | Hash _ => option bytes
  | SqlCreateCredential _ _ _ | SqlCreateRegistration _ _ _ _ _ _ | SqlMark _ _ | SqlRetryEvent _ _ _ | SqlEnsure _ _ _ _ | SqlReplay _ _ | SqlUpdateDigest _ _ _ => option Z
  | SqlFindCredential _ => query (bytes * credential_row)
  | SqlClaimEvent _ _ => query Record_
  | SqlPending => query (Z * option Z)
  | SqlScan _ _ => option (list scan_row)
  | PublishMsg _ => option (option PubAck)
  | UserCall c => reply c
  end.

Abbreviation rprog := (program rreply).
Abbreviation rtrace := (trace_of rreply).
Abbreviation rperform := (Effects.perform (reply := rreply)).

Fixpoint lift {A} (p : program reply A) : rprog A :=
  match p with
  | Ret a => Ret a
  | Do c k => Do (UserCall c) (fun r => lift (k r))
  end.

Inductive reg_error := ECredential (e : credential_error) | ECanceled | EEvent | EInvalid | EStorage | EBroker | EInternal.

Definition reg_ctx {A} (p : rprog (result reg_error A)) : rprog (result reg_error A) :=
  canceled ← rperform RegCtxErr; refuse canceled ECanceled p.

(** One row was affected. *)
Definition one_row (n : option Z) : result reg_error bool := match n with Some n => Ok (n =? 1) | None => Err EStorage end.

(** ** Registration *)

Section programs.
Context `{EventCodec, UnicodeTables}.

(** [Factory.New] *)
Definition factory_New (subject : bytes) : rprog (result reg_error Event) :=
  reg_ctx (
  now ← rperform Clock;
  random ← rperform RandomBytes;
  trace ← rperform SpanTrace;
  try (Ret (map_err (fun _ => EEvent) (Factory_New subject now random trace))) (fun e =>
  reg_ctx (Ret (Ok e)))).

Definition valid_event (e : Event) (subject : bytes) : bool := bool_decide (Event_Validate e = Ok tt) && bool_decide (ev_Subject e = subject).

(** [Repository.CreateRegistration] *)
Definition CreateRegistration (subject identifier digest : bytes) (e : Event) : rprog (result reg_error bool) :=
  reg_ctx (refuse (negb (valid_event e subject)) EInvalid (
  try (Ret (map_err (fun _ => EInvalid) (Marshal e))) (fun data =>
  n ← rperform (SqlCreateRegistration subject identifier digest (ev_ID e) (OccurredAt e) data);
  Ret (one_row n)))).
(** [Repository.Create] *)
Definition CreateCredential (subject identifier digest : bytes) : rprog (result reg_error bool) :=
  n ← rperform (SqlCreateCredential subject identifier digest); Ret (one_row n).

(** [UseCase.Execute]; [events] is whether it was built by [NewWithEvents] *)
Definition Execute (events : bool) (identifierValue passwordValue : bytes) : rprog (result reg_error unit) :=
  reg_ctx (
  try (Ret (map_err ECredential (NewIdentifier identifierValue))) (fun identifier =>
  try (Ret (map_err ECredential (NewPassword passwordValue))) (fun password =>
  digest ← rperform (Hash password);
  match digest with
  | None => Ret (Err EInternal)
  | Some digest =>
      subject ← rperform RandomBytes;
      match subject with
      | None => Ret (Err EInternal)
      | Some subject =>
          if events then
            event ← factory_New subject;
            match event with
            | Ok event =>
                refuse (negb (valid_event event subject)) EInvalid (
                try (CreateRegistration subject identifier digest event) (fun _ => Ret (Ok tt)))
            | Err ECanceled => Ret (Err ECanceled)
            | _ => Ret (Err EEvent)
            end
          else try (CreateCredential subject identifier digest) (fun _ => Ret (Ok tt))
      end
  end))).

(** ** The login with a password alone *)

(** [FindByIdentifier]: a credential that does not decode is an error *)
Definition decode_credential (x : bytes * credential_row) : result reg_error (bytes * credential_row) :=
  subject ← map_err (fun _ => EStorage) (AuthDomain.NewSubjectID x.1);
  identifier ← map_err (fun _ => EStorage) (NewIdentifier (cr_identifier x.2));
  digest ← map_err (fun _ => EStorage) (NewPasswordDigest (cr_digest x.2));
  Ok (subject, mkCredentialRow identifier digest).
Definition FindByIdentifier (identifier : bytes) : rprog (result reg_error (option (bytes * credential_row))) :=
  q ← rperform (SqlFindCredential identifier);
  Ret (match q with
       | NoRows => Ok None
       | QueryFailed => Err EStorage
       | Scanned x => y ← decode_credential x; Ok (Some y)
       end).
Definition UpdatePasswordDigest (subject previous next : bytes) : rprog (result reg_error unit) :=
  n ← rperform (SqlUpdateDigest subject previous next); Ret (match n with Some _ => Ok tt | None => Err EStorage end).

(** The outcome that [Audit] records: a success, or a failure with its reason *)
Inductive login_audit := LoginSucceeded | FailureReasonInvalidInput | FailureReasonRejected | FailureReasonSystemError.
Inductive login_error := ErrInvalidCredentials | LoginInternal.

Definition rejected (reason : login_audit) : result login_error bytes * login_audit := (Err ErrInvalidCredentials, reason).
Definition system_error : result login_error bytes * login_audit := (Err LoginInternal, FailureReasonSystemError).

(** [UseCase.Execute] of [application/login] *)
Definition login_Execute (identifierValue passwordValue : bytes) : rprog (result login_error bytes * login_audit) :=
  match NewIdentifier identifierValue, NewPassword passwordValue with
  | Ok identifier, Ok password =>
      found ← FindByIdentifier identifier;
      match found with
      | Err _ | Panic => Ret system_error
      | Ok None =>
          equalized ← rperform (EqualizeMissing password);
          Ret (if equalized : bool then rejected FailureReasonRejected else system_error)
      | Ok (Some (subject, stored)) =>
          verdict ← rperform (HashVerify password (cr_digest stored));
          match verdict with
          | None => Ret system_error
          | Some (false, _) => Ret (rejected FailureReasonRejected)
          | Some (true, false) => Ret (Ok subject, LoginSucceeded)
          | Some (true, true) =>
              next ← rperform (Hash password);
              match next with
              | None => Ret system_error
              | Some next =>
                  updated ← UpdatePasswordDigest subject (cr_digest stored) next;
                  Ret (match updated with Ok _ => (Ok subject, LoginSucceeded) | _ => system_error end)
              end
          end
      end
  | _, _ => Ret (rejected FailureReasonInvalidInput)
  end.

(** ** The publisher *)

Definition ack_ok (a : option PubAck) : bool :=
  match a with Some a => bool_decide (ack_Stream a = bytes_of "AUTH_REGISTRATION") && negb (Sequence a =? 0) | None => false end.
Definition message_for (r : Record_) : stored_message := mkStoredMessage event_type_v1 (hex_EncodeToString (r_ID r)) (Payload r).

(** [Publisher.Publish] *)
Definition Publish (r : Record_) : rprog (result reg_error unit) :=
  reg_ctx (
  closed ← rperform PublisherClosed;
  refuse closed EBroker (
  refuse (is_zero (r_ID r) || (len (Payload r) <? 1) || (8192 <? len (Payload r))) EInvalid (
  try (Ret (map_err (fun _ => EInvalid) (ValidatePayload (Payload r) (r_ID r)))) (fun _ =>
  connected ← rperform Connection;
  refuse (negb connected) EBroker (
  closed ← rperform PublisherClosed;
  refuse closed EBroker (
  ack ← rperform (PublishMsg (message_for r));
  match ack with
  | None => Ret (Err EBroker)
  | Some ack => canceled ← rperform RegCtxErr; refuse (canceled : bool) EBroker (refuse (negb (ack_ok ack)) EBroker (Ret (Ok tt)))
  end)))))).

(** ** The outbox *)

Definition decode_record (token : bytes) (r : Record_) : result reg_error (option Record_) :=
  reject_if (negb (len (r_ID r) =? 16) || negb (len (r_LeaseToken r) =? 16) || (len (Payload r) <? 1) || (8192 <? len (Payload r)) ||
    (r_Attempts r <? 1) || (r_OccurredAt r =? zero_time)) EInvalid;;
  reject_if (is_zero (r_ID r) || negb (bool_decide (r_LeaseToken r = token))) EInvalid;;
  Ok (Some r).

Definition outbox_Claim (lease : Z) : rprog (result reg_error (option Record_)) :=
  reg_ctx (refuse ((lease <? Millisecond) || (3600 * Second <? lease)) EInvalid (
  token ← rperform RandomBytes;
  match token with
  | None => Ret (Err EInternal)
  | Some token =>
      q ← rperform (SqlClaimEvent (lease / 1000 * 1000) token);
      Ret (match q with
           | NoRows => Ok None
           | QueryFailed => Err EStorage
           | Scanned r => decode_record token r
           end)
  end)).

Definition recorded {A} (r : Record_) (p : rprog (result reg_error A)) : rprog (result reg_error A) :=
  reg_ctx (refuse (is_zero (r_ID r) || is_zero (r_LeaseToken r)) EInvalid p).
Definition MarkPublished (r : Record_) : rprog (result reg_error bool) :=
  recorded r (n ← rperform (SqlMark (r_ID r) (r_LeaseToken r)); Ret (one_row n)).
Definition outbox_Retry (r : Record_) (delay : Z) : rprog (result reg_error bool) :=
  recorded r (refuse ((delay <? Millisecond) || (24 * 3600 * Second <? delay)) EInvalid (
  n ← rperform (SqlRetryEvent (r_ID r) (r_LeaseToken r) (delay / 1000 * 1000)); Ret (one_row n))).
Definition outbox_Pending : rprog (result reg_error (Z * option Z)) :=
  reg_ctx (q ← rperform SqlPending; Ret (match q with Scanned p => Ok p | _ => Err EStorage end)).

(** ** The worker *)

Inductive PubOutcome := OutcomePublished | OutcomePublishError | OutcomeStoreError | OutcomeLeaseLost.

Record PubConfig := mkPubConfig { LeaseDuration : Z; PublishTimeout : Z; PollInterval : Z; RetryInitial : Z; RetryMax : Z; BatchSize : Z }.

Definition or_default (v d : Z) : Z := if v =? 0 then d else v.
Definition with_defaults (c : PubConfig) : PubConfig :=
  mkPubConfig (or_default (LeaseDuration c) (15 * Second)) (or_default (PublishTimeout c) (5 * Second)) (or_default (PollInterval c) Second)
    (or_default (RetryInitial c) Second) (or_default (RetryMax c) (60 * Second)) (or_default (BatchSize c) 32).
(** [New] *)
Definition worker_New (c : PubConfig) : result reg_error PubConfig :=
  let c := with_defaults c in
  reject_if ((LeaseDuration c <=? PublishTimeout c) || (3600 * Second <? LeaseDuration c) || (PublishTimeout c <=? 0) || (PollInterval c <=? 0) ||
    (3600 * Second <? PollInterval c) || (RetryInitial c <? Millisecond) || (RetryMax c <? RetryInitial c) || (24 * 3600 * Second <? RetryMax c) ||
    (BatchSize c <? 1) || (1024 <? BatchSize c)) EInvalid;;
  Ok c.

(** The loop of [backoff]: a delay of a millisecond exceeds a day after 27 doublings. *)
Fixpoint backoff_loop (fuel : nat) (c : PubConfig) (remaining delay : Z) : Z :=
  if (0 <? remaining) && (delay <? RetryMax c) then
    match fuel with
    | O => delay
    | S fuel => if RetryMax c / 2 <? delay then RetryMax c else backoff_loop fuel c (remaining - 1) (i64 (delay * 2))
    end
  else Z.min delay (RetryMax c).
Definition publish_backoff (c : PubConfig) (attempt : Z) : Z := backoff_loop 32 c (attempt - 1) (RetryInitial c).

(** What a statement on a claimed record means. *)
Definition saved_outcome (r : result reg_error bool) (saved : list PubOutcome) : list PubOutcome :=
  match r with Ok true => saved | Ok false => [OutcomeLeaseLost] | _ => [OutcomeStoreError] end.

(** Unless the context is done, go on. *)
Definition unless_done {A} (p : rprog (list A)) : rprog (list A) :=
  canceled ← rperform RegCtxErr; if canceled : bool then Ret [] else p.

(** The loop of [batch]; the outcomes that it observes *)
Fixpoint batch_claims (c : PubConfig) (n : nat) : rprog (list PubOutcome) :=
  match n with
  | O => Ret []
  | S n =>
      unless_done (
      claimed ← outbox_Claim (LeaseDuration c);
      unless_done (
      match claimed with
      | Err _ | Panic => Ret [OutcomeStoreError]
      | Ok None => Ret []
      | Ok (Some record) =>
          sent ← Publish record;
          late ← (match sent with Ok _ => rperform RegCtxErr | _ => Ret true end);
          unless_done (
          if late : bool then
            saved ← outbox_Retry record (publish_backoff c (r_Attempts record));
            l ← unless_done (rest ← batch_claims c n; Ret (saved_outcome saved [] ++ rest));
            Ret (OutcomePublishError :: l)
          else
            saved ← MarkPublished record;
            unless_done (rest ← batch_claims c n; Ret (saved_outcome saved [OutcomePublished] ++ rest)))
      end))
  end.

Definition batch (c : PubConfig) : rprog (list PubOutcome) :=
  unless_done (
  pending ← outbox_Pending;
  unless_done (
  rest ← batch_claims c (Z.to_nat (BatchSize c));
  Ret ((match pending with Ok _ => [] | _ => [OutcomeStoreError] end) ++ rest))).

(** ** The reconciler *)

Record Options := mkOptions { After : bytes; Limit : Z; ApplyEvents : bool; ReplayPublished : bool }.
Record Page_ := mkPage { ScannedRows : Z; MissingRows : Z; PublishedRows : Z; Inserted : Z; Requeued : Z; NextCursor : bytes; Done : bool }.

Definition Options_Validate (o : Options) : result reg_error bytes :=
  reject_if ((Limit o <? 1) || (1000 <? Limit o)) EInvalid;;
  if bool_decide (After o = []) then Ok [] else
  match base64_Decode (After o) with
  | Some raw => reject_if (negb (len raw =? 16) || negb (bool_decide (base64_Encode raw = After o))) EInvalid;; Ok raw
  | None => Err EInvalid
  end.

(** [Store.Scan], [Ensure] and [Replay] *)
Definition store_Scan (after : bytes) (limit : Z) : rprog (result reg_error (list scan_row)) :=
  refuse (negb (len after =? 0) && negb (len after =? 16) || (limit <? 1) || (1000 <? limit)) EInvalid (
  reg_ctx (
  rows ← rperform (SqlScan after limit);
  Ret (match rows with
       | Some rows => if forallb (fun r => len (sc_Subject r) =? 16) rows then Ok rows else Err EStorage
       | None => Err EStorage
       end))).
Definition Ensure (e : Event) : rprog (result reg_error bool) :=
  try (Ret (map_err (fun _ => EInvalid) (Marshal e))) (fun data =>
  reg_ctx (n ← rperform (SqlEnsure (ev_ID e) (ev_Subject e) (OccurredAt e) data); Ret (one_row n))).
Definition Replay (subject : bytes) (published : Z) : rprog (result reg_error bool) :=
  refuse (is_zero subject || (published =? zero_time)) EInvalid (
  reg_ctx (n ← rperform (SqlReplay subject published); Ret (one_row n))).

Definition count (missing published inserted requeued : bool) (r : Page_) : Page_ :=
  mkPage (ScannedRows r) (MissingRows r + Z.b2z missing) (PublishedRows r + Z.b2z published) (Inserted r + Z.b2z inserted) (Requeued r + Z.b2z requeued) (NextCursor r) (Done r).
Definition advance (r : Page_) (subject : bytes) : Page_ :=
  mkPage (ScannedRows r + 1) (MissingRows r) (PublishedRows r) (Inserted r) (Requeued r) (base64_Encode subject) (Done r).

(** One row of the page; the second component is the error that ends it. *)
Definition page_row (o : Options) (r : Page_) (row : scan_row) : rprog (Page_ * option reg_error) :=
  canceled ← rperform RegCtxErr;
  if canceled : bool then Ret (r, Some ECanceled) else
  if Missing row then
    let r := count true false false false r in
    if ApplyEvents o then
      changed ← try (factory_New (sc_Subject row)) (fun e => reg_ctx (Ensure e));
      Ret (match changed with Ok b => (count false false b false r, None) | Err e => (r, Some e) | Panic => (r, Some EInternal) end)
    else Ret (r, None)
  else
    match PublishedAt row with
    | Some published =>
        let r := count false true false false r in
        if ApplyEvents o && ReplayPublished o then
          changed ← Replay (sc_Subject row) published;
          Ret (match changed with Ok b => (count false false false b r, None) | Err e => (r, Some e) | Panic => (r, Some EInternal) end)
        else Ret (r, None)
    | None => Ret (r, None)
    end.

Fixpoint page_rows (o : Options) (r : Page_) (rows : list scan_row) : rprog (Page_ * option reg_error) :=
  match rows with
  | [] => Ret (r, None)
  | row :: rows =>
      x ← page_row o r row;
      match x.2 with
      | Some e => Ret x
      | None => page_rows o (advance x.1 (sc_Subject row)) rows
      end
  end.

(** [Service.Page] *)
Definition Page (o : Options) : rprog (Page_ * option reg_error) :=
  let r := mkPage 0 0 0 0 0 (After o) false in
  rows ← try (Ret (Options_Validate o)) (fun after => reg_ctx (store_Scan after (Limit o)));
  match rows with
  | Ok rows =>
      x ← page_rows o r rows;
      Ret (match x.2 with
           | Some _ => x
           | None => (mkPage (ScannedRows x.1) (MissingRows x.1) (PublishedRows x.1) (Inserted x.1) (Requeued x.1) (NextCursor x.1) (len rows <? Limit o), None)
           end)
  | Err e => Ret (r, Some e)
  | Panic => Ret (r, Some EInternal)
  end.

(** ** Requests *)

Inductive rrequest :=
| RegRegister (events : bool) (identifier password : bytes)
| RegLogin (identifier password : bytes)
| RegBatch (c : PubConfig)
| RegPage (o : Options)
| RegUser (q : request).

Inductive ranswer :=
| RegAnsRegister (r : result reg_error unit)
| RegAnsLogin (r : result login_error bytes * login_audit)
| RegAnsBatch (l : list PubOutcome)
| RegAnsPage (r : Page_ * option reg_error)
| RegAnsUser (a : answer).

Definition rprogram_of (q : rrequest) : rprog ranswer :=
  match q with
  | RegRegister events identifier password => r ← Execute events identifier password; Ret (RegAnsRegister r)
  | RegLogin identifier password => r ← login_Execute identifier password; Ret (RegAnsLogin r)
  | RegBatch c => l ← batch c; Ret (RegAnsBatch l)
  | RegPage o => r ← Page o; Ret (RegAnsPage r)
  | RegUser q => a ← lift (program_of q); Ret (RegAnsUser a)
  end.
End programs.

(** ** The world *)

(** What the outside decides about one call: the part of the user service, which also
    decides faults, the clock, the context and random bytes; and which message of the
    stream the broker delivers. *)
Record rworld := mkRworld {
  rw_user : world;
  rw_hash : option bytes;
  rw_verify : option (bool * bool);
  rw_equalize : bool;
  rw_trace : option bytes;
  rw_locked : bytes -> bool;
  rw_closed : bool;
  rw_connected : bool;
  rw_deduplicates : bool;
  rw_ack : option (option PubAck);
  rw_delivery : nat
}.

Definition sixteen_bytes (b : bytes) : bool := (len b =? 16) && forallb (fun x => between 0 x 255) b.
Definition array16 (o : option bytes) : option bytes := b ← o; if sixteen_bytes b then Some b else None.

(** A message that was not stored is not acknowledged. *)
Definition unacked (a : option (option PubAck)) : option (option PubAck) := a ← a; if ack_ok a then None else Some a.

Definition delivered (d : reg_db) (n : nat) : option Message :=
  m ← stream d !! n; Some (mkMessage (Z.of_nat n + 1) (sm_subject m) (sm_data m)).
Definition user_world (w : rworld) (d : reg_db) : world :=
  let u := rw_user w in
  mkWorld (w_fault u) (w_now u) (w_today u) (w_canceled u) (w_random u) (w_locked u) (w_inspect u) (w_retire u) (delivered d (rw_delivery w))
    (match w_fault u with Healthy => true | _ => false end).
Definition on_ack (f : fault) (c : call) (d : reg_db) : reg_db :=
  match c, f with
  | MsgAck seq, (Healthy | FailsAfter) => set_acked d ({[seq]} ∪ acked d)
  | _, _ => d
  end.

Definition rrespond (w : rworld) (d : reg_db) (c : rcall) : reg_db * rreply c :=
  let u := rw_user w in let f := w_fault u in let now := w_now u in
  match c return reg_db * rreply c with
  | RegCtxErr => (d, w_canceled u)
  | Clock => (d, now)
  | RandomBytes => (d, array16 (w_random u))
  | SpanTrace => (d, array16 (rw_trace w))
  | Hash _ => (d, rw_hash w)
  | HashVerify _ _ => (d, rw_verify w)
  | EqualizeMissing _ => (d, rw_equalize w)
  | SqlCreateCredential s i p => faulty None f d (sql_create_credential d s i p)
  | SqlCreateRegistration s i p e o data => faulty None f d (sql_create_registration now d s i p e o data)
  | SqlFindCredential i => faulty QueryFailed f d (d, sql_find_credential d i)
  | SqlUpdateDigest s previous next => faulty None f d (sql_update_digest d s previous next)
  | SqlClaimEvent lease token => faulty QueryFailed f d (sql_claim_event now (rw_locked w) d lease token)
  | SqlMark e token => faulty None f d (sql_mark now d e token)
  | SqlRetryEvent e token delay => faulty None f d (sql_retry_event now d e token delay)
  | SqlPending => faulty QueryFailed f d (d, Scanned (sql_pending d))
  | SqlScan after limit => faulty None f d (d, Some (sql_scan d after limit))
  | SqlEnsure e s o data => faulty None f d (sql_ensure now d e s o data)
  | SqlReplay s p => faulty None f d (sql_replay now d s p)
  | PublisherClosed => (d, rw_closed w)
  | Connection => (d, rw_connected w)
  | PublishMsg m =>
      let '(d', seq) := publish (rw_deduplicates w) d m in
      faulty (unacked (rw_ack w)) f d (d', Some (Some (mkPubAck (bytes_of "AUTH_REGISTRATION") seq)))
  | UserCall c => let '(v, r) := respond (user_world w d) (users d) c in (on_ack f c (set_users d v), r)
  end.

Definition reg_start : system rreply rrequest ranswer reg_db := mkSystem (mkRegDb ∅ ∅ [] ∅ (mkUserDb ∅ ∅ ∅ ∅)) [].
Definition reg_run `{EventCodec, UnicodeTables} : system rreply rrequest ranswer reg_db -> list (event rrequest rworld) -> option (system rreply rrequest ranswer reg_db) :=
  sys_run rrespond rprogram_of.
