(* ===== verification/RegistrationGuards.v ===== *)
(** * Registration: what the programs do

    The guards of the calls that the programs of [RegistrationService] make, and what
    their answers promise, for each request on its own.  The programs of the user
    service keep their guards and promises; a trace of calls has a part for them. *)

From S2P Require Import Prelude GoStrings GoUnicode AuthDomain GoText Sha256 GoEncoding Effects UserDomain RegistrationWire UserStore UserService UserBooks UserHistory UserGuards RegistrationStore RegistrationService.
Local Open Scope Z_scope.

(** ** The calls of the user service *)

Fixpoint user_trace (t : rtrace) : trace :=
  match t with
  | [] => []
  | existT c r :: t =>
      match c return rreply c -> trace with
      | UserCall c => fun r => existT c r :: user_trace t
      | _ => fun _ => user_trace t
      end r
  end.

Lemma user_trace_app t t' : user_trace (t ++ t') = user_trace t ++ user_trace t'.
Proof. induction t as [|[c r] t IH]; [done|]. cbn [app user_trace]. rewrite IH. by destruct c. Qed.

Lemma elem_of_user_trace t c r : existT c r ∈ user_trace t <-> (@existT rcall rreply (UserCall c) r) ∈ t.
Proof.
  induction t as [|[c' r'] t IH]; [split; by intros ?%elem_of_nil|]. rewrite elem_of_cons, <- IH. cbn [user_trace]. split.
  - destruct c' as [ | | | | | | | | | | | | | | | | | | | | |c']; try (by right). intros [He|?]%elem_of_cons; [left|by right].
    exact (f_equal (fun x : sigT reply => match x with existT c r => @existT rcall rreply (UserCall c) r end) He).
  - intros [He|?]; [|destruct c'; [by (done || apply elem_of_cons; right)..]]. pose proof (f_equal (@projT1 _ _) He) as Hc. cbn in Hc. subst c'. apply elem_of_cons. left.
    exact (f_equal (fun x : sigT rreply => match x with existT (UserCall c) r => @existT call reply c r | _ => existT c r end) He).
Qed.

Lemma user_trace_mono t t' : t ⊆ t' -> user_trace t ⊆ user_trace t'.
Proof. intros Ht [c r]. rewrite !elem_of_user_trace. apply Ht. Qed.

(** ** Guards *)

Abbreviation rdid t c r := (@existT rcall rreply c r ∈ t).

Section guards.
Context `{EventLaws, UnicodeTables}.

(** The data encode an event with an identifier, a subject and a time. *)
Definition wire_event (e subject : bytes) (o : Z) (data : bytes) : Prop :=
  exists ev, Unmarshal data = Ok ev /\ ev_ID ev = e /\ ev_Subject ev = subject /\ OccurredAt ev = o /\ Forall is_byte e.

Definition rclaimed (t : rtrace) (r : Record_) : Prop := exists lease token, rdid t (SqlClaimEvent lease token) (Scanned r).
(** The broker acknowledged the message of the record. *)
Definition rconfirmed (t : rtrace) (r : Record_) : Prop := exists a, rdid t (PublishMsg (message_for r)) (Some a) /\ ack_ok a = true.

(** The password was found to fit the digest, which is outdated. *)
Definition outdated (t : rtrace) (digest : bytes) : Prop := exists password, rdid t (HashVerify password digest) (Some (true, true)).

(** The subject was on a page. *)
Definition rscanned (t : rtrace) (subject : bytes) : Prop := exists after limit rows row, rdid t (SqlScan after limit) (Some rows) /\ row ∈ rows /\ sc_Subject row = subject.

Definition rcall_ok (t : rtrace) (c : rcall) : Prop :=
  match c with
  | SqlCreateCredential s _ _ => Forall is_byte s
  | SqlCreateRegistration s _ _ e o data => Forall is_byte s /\ wire_event e s o data
  | SqlUpdateDigest _ previous _ => outdated t previous
  | SqlEnsure e s o data => rscanned t s /\ wire_event e s o data
  | SqlMark e _ => exists r, rclaimed t r /\ r_ID r = e /\ rconfirmed t r
  | PublishMsg m => exists r, rclaimed t r /\ m = message_for r /\ ValidatePayload (Payload r) (r_ID r) = Ok tt
  | UserCall c => call_ok (user_trace t) c
  | _ => True
  end.

(** What the stream delivers are events, and they do not contradict each other. *)
Definition stream_legal (c : call) : reply c -> Prop :=
  match c return reply c -> Prop with
  | MsgNext => fun r => match r with Some m => msg_Subject m = event_type_v1 /\ exists e, Unmarshal (msg_Data m) = Ok e | None => True end
  | SqlApply _ _ _ => fun r => r <> NoRows
  | _ => fun _ => True
  end.
Definition rlegal (c : rcall) : rreply c -> Prop :=
  match c return rreply c -> Prop with
  | RandomBytes | SpanTrace => fun r => match r with Some b => len b = 16 /\ Forall is_byte b | None => True end
  | SqlClaimEvent _ token => fun r => match r with Scanned x => r_LeaseToken x = token | _ => True end
  | UserCall c => fun r => legal c r /\ stream_legal c r
  | _ => fun _ => True
  end.

Lemma rcall_ok_mono t t' c : t ⊆ t' -> rcall_ok t c -> rcall_ok t' c.
Proof.
  intros Ht. assert (forall r, rclaimed t r -> rclaimed t' r) as H1' by (intros r (l & k & Hd); exists l, k; by apply Ht).
  assert (forall r, rconfirmed t r -> rconfirmed t' r) as H2' by (intros r (a & Hd & Ha); exists a; split; [by apply Ht|done]).
  destruct c; cbn [rcall_ok]; try done.
  - intros (p & Hd). exists p. by apply Ht.
  - intros (r & Hc & He & Hp). exists r. auto.
  - intros [(a & l & rows & row & Hd & Hr) Hw]. split; [|done]. exists a, l, rows, row. split; [by apply Ht|done].
  - intros (r & Hc & Hm). exists r. auto.
  - apply user_call_ok_mono. by apply user_trace_mono.
Qed.

Abbreviation rver := (verified rcall_ok rlegal).

(** A program of the user service keeps its guards and promises. *)
Lemma ver_lift {A} (p : program reply A) : forall (t : rtrace) (post : trace -> A -> Prop),
  verified call_ok (fun c r => legal c r /\ stream_legal c r) p (user_trace t) post -> rver (lift p) t (fun t a => post (user_trace t) a).
Proof.
  induction p as [a|c k IH]; intros t post; [done|]. intros [Hc Hk]. cbn [lift]. split; [done|]. intros r Hr. apply IH. rewrite user_trace_app. by apply Hk.
Qed.

(** ** The consumer *)

(** It never finds an event invalid or in conflict with another. *)
Definition accepted (l : list Outcome) : Prop := Invalid ∉ l /\ Conflict ∉ l.

Ltac solve_accepted := split; intros Hx; repeat (apply elem_of_cons in Hx as [Hx|Hx]; [congruence|]); by apply elem_of_nil in Hx.

Abbreviation sver := (verified (fun _ _ => True) (fun c r => legal c r /\ stream_legal c r)).

Lemma ver_accepted_negative seq o t : o <> Invalid -> o <> Conflict -> sver (negative seq o) t (fun _ => accepted).
Proof. intros Hi Hc. split; [done|]. intros b _. cbn [reply] in b. destruct b; solve_accepted. Qed.

Lemma ver_accepted_Apply e t (post : trace -> result user_error Outcome -> Prop) : Event_Validate e = Ok tt -> (exists data, Marshal e = Ok data) ->
  (forall t' r, match r with Ok o => o = Applied \/ o = Duplicate | Err x => x <> ErrInvalidEvent /\ x <> ErrEventConflict | Panic => False end -> post t' r) -> sver (Apply e) t post.
Proof.
  intros Hv [data Hm] Hp. apply verified_try. rewrite Hv. cbn [verified]. split; [done|]. intros b _. cbn [reply] in b. destruct b; [apply Hp; done|]. unfold refuse, store_Apply. rewrite Hm.
  split; [done|]. intros q [_ Hq]. cbn [reply stream_legal] in *. destruct q as [[]| |]; apply Hp; try done; auto.
Qed.

Lemma ver_accepted t : sver consume t (fun _ => accepted).
Proof.
  assert (accepted []) as Hnil by (split; apply not_elem_of_nil). split; [done|]. intros [m|] [_ Hm]; [|done]. cbn [stream_legal] in Hm. destruct Hm as (Hs & e & Hu). split; [done|]. intros b _. cbn [reply] in b. destruct b; [done|].
  rewrite bool_decide_true by done. cbn [negb]. rewrite Hu. destruct (unmarshal_marshal _ _ Hu) as [Hmar _].
  assert (Event_Validate e = Ok tt) as Hv by (unfold Marshal in Hmar; destruct (Event_Validate e) as [[]| |]; done).
  apply verified_bind, ver_accepted_Apply; [done|by eexists|]. intros t' r Hr. split; [done|]. intros b _. cbn [reply] in b. destruct b; [done|]. destruct r as [o|x|]; [|apply ver_accepted_negative; destruct x; naive_solver|done].
  split; [done|]. intros b _. cbn [reply] in b. assert (o <> Invalid /\ o <> Conflict) as [? ?] by (destruct Hr as [->| ->]; done). destruct b; solve_accepted.
Qed.

Definition outcomes_ok (q : request) (a : answer) : Prop := match q, a with ReqConsume, AnsOutcomes l => accepted l | _, _ => True end.

Lemma sver_true {A} (p : program reply A) : forall t, sver p t (fun _ _ => True).
Proof. induction p as [a|c k IH]; intros t; [done|]. split; [done|]. intros r _. apply IH. Qed.

Lemma ver_outcomes q t : sver (program_of q) t (fun _ a => outcomes_ok q a).
Proof.
  destruct q; try (eapply verified_impl; [|apply sver_true]; by intros ? []). cbn [program_of]. unfold answering. apply verified_bind. eapply verified_impl; [|apply ver_accepted]. done.
Qed.

Lemma ver_user q : rver (lift (program_of q)) [] (fun t a => answer_ok q (user_trace t) a /\ outcomes_ok q a).
Proof.
  apply (ver_lift (program_of q) [] (fun t a => answer_ok q t a /\ outcomes_ok q a)). apply (verified_weaken (fun t c => call_ok t c /\ True) _ (fun c r => legal c r /\ stream_legal c r)); [by intros ? ? []|done|].
  apply verified_and; [|apply ver_outcomes]. apply (verified_weaken call_ok _ legal); [done|by intros ? ? []|]. apply ver_program.
Qed.

(** ** Registration *)

Lemma ver_reg_ctx {A} (p : rprog (result reg_error A)) t (post : rtrace -> result reg_error A -> Prop) :
  (forall t', t ⊆ t' -> post t' (Err ECanceled)) -> (forall t', t ⊆ t' -> rver p t' post) -> rver (reg_ctx p) t post.
Proof. intros Hc Hp. apply verified_do; [done|]. intros b _. cbn [rreply] in b. destruct b; [apply Hc|apply Hp]; set_solver. Qed.

Definition fresh_event (e : Event) (subject : bytes) : Prop :=
  Event_Validate e = Ok tt /\ event_sized e /\ ev_Subject e = subject /\ Forall is_byte (ev_ID e).

Lemma ver_factory_New subject t (post : rtrace -> result reg_error Event -> Prop) : len subject = 16 ->
  (forall t' r, t ⊆ t' -> (forall e, r = Ok e -> fresh_event e subject) -> post t' r) -> rver (factory_New subject) t post.
Proof.
  intros Hs Hp. apply ver_reg_ctx; [intros; by apply Hp|]. intros t1 Ht1. apply verified_do; [done|]. intros now _. apply verified_do; [done|]. intros random Hr. apply verified_do; [done|]. intros tr Htr.
  cbn [rreply rlegal] in *. apply verified_try. cbn [verified]. unfold Factory_New. destruct random as [id|]; [|apply Hp; [set_solver|done]]. destruct Hr as [Hl Hb].
  set (e := mkEvent id subject (now - now mod 1000) _ zero16). destruct (Event_Validate e) as [[]| |] eqn:Hv; cbn [mbind result_bind map_err]; [|apply Hp; [set_solver|done]..].
  assert (len zero16 = 16) as Hz by done.
  apply ver_reg_ctx; [intros; apply Hp; [set_solver|done]|]. intros t2 Ht2. cbn [verified]. apply Hp; [set_solver|]. intros e' [= <-]. split_and!; try done. cbn. destruct tr as [b|]; [by destruct Htr|done].
Qed.

Lemma fresh_event_wire e subject data : fresh_event e subject -> Marshal e = Ok data -> wire_event (ev_ID e) subject (OccurredAt e) data.
Proof. intros (Hv & Hsz & Hs & Hb) Hm. exists e. split_and!; try done. by apply marshal_unmarshal. Qed.

(** The identifier was given to a statement that stores it unless it is taken. *)
Definition identified (t : rtrace) (identifier : bytes) : Prop :=
  exists subject digest n, (exists e o data, rdid t (SqlCreateRegistration subject identifier digest e o data) (Some n)) \/ rdid t (SqlCreateCredential subject identifier digest) (Some n).

Lemma ver_Execute events i p t : rver (Execute events i p) t (fun t r => r = Ok tt -> exists identifier, NewIdentifier i = Ok identifier /\ identified t identifier).
Proof.
  apply ver_reg_ctx; [done|]. intros t1 Ht1. apply verified_try. destruct (NewIdentifier i) as [identifier| |]; [|done..]. cbn [map_err verified]. apply verified_try. destruct (NewPassword p) as [password| |]; [|done..]. cbn [map_err verified].
  apply verified_do; [done|]. intros digest _. cbn [rreply] in digest. destruct digest as [digest|]; [|done]. apply verified_do; [done|]. intros subject Hs. cbn [rreply rlegal] in *. destruct subject as [subject|]; [|done]. destruct Hs as [Hl Hb].
  destruct events.
  - apply verified_bind, ver_factory_New; [done|]. intros t2 r Ht2 Hr. destruct r as [e|x|]; [|by destruct x|done]. pose proof (Hr e eq_refl) as Hf. apply verified_refuse; intros Hg; [done|]. apply verified_try. unfold CreateRegistration.
    apply ver_reg_ctx; [done|]. intros t3 Ht3. apply verified_refuse; intros _; [done|]. apply verified_try. destruct (Marshal e) as [data| |] eqn:Hm; [|done..]. cbn [map_err verified].
    apply verified_do; [split; [done|by apply fresh_event_wire]|]. intros n _. cbn [rreply] in n. destruct n as [n|]; [|done]. intros _. exists identifier. split; [done|]. exists subject, digest, n. left. exists (ev_ID e), (OccurredAt e), data. set_solver.
  - apply verified_try. apply verified_do; [exact Hb|]. intros n _. cbn [rreply] in n. destruct n as [n|]; [|done]. intros _. exists identifier. split; [done|]. exists subject, digest, n. right. set_solver.
Qed.

(** ** The login *)

(** The account was found under the identifier, and the password fits its digest. *)
Definition logged_in (t : rtrace) (i p subject : bytes) : Prop :=
  exists identifier password stored rehash, NewIdentifier i = Ok identifier /\ NewPassword p = Ok password /\
    rdid t (SqlFindCredential identifier) (Scanned (subject, stored)) /\ rdid t (HashVerify password (cr_digest stored)) (Some (true, rehash)).
Definition login_ok (t : rtrace) (i p : bytes) (x : result login_error bytes * login_audit) : Prop :=
  match x with
  | (Ok subject, a) => a = LoginSucceeded /\ logged_in t i p subject
  | (Err ErrInvalidCredentials, a) => a = FailureReasonInvalidInput \/ a = FailureReasonRejected
  | (_, a) => a = FailureReasonSystemError
  end.

Lemma decode_credential_Ok s c y : decode_credential (s, c) = Ok y -> y.1 = s /\ cr_digest y.2 = cr_digest c.
Proof.
  unfold decode_credential. cbn [fst snd]. unfold AuthDomain.NewSubjectID, NewPasswordDigest. destruct (negb _); [done|]. cbn [map_err mbind result_bind]. destruct (NewIdentifier _); [|done..]. cbn [map_err mbind result_bind].
  destruct (_ || _); [done|]. cbn [map_err mbind result_bind]. by intros [= <-].
Qed.

Lemma ver_login_Execute i p t : rver (login_Execute i p) t (fun t x => login_ok t i p x).
Proof.
  unfold login_Execute. destruct (NewIdentifier i) as [identifier| |] eqn:Hi; [|by left..]. destruct (NewPassword p) as [password| |] eqn:Hp; [|by left..]. apply verified_bind. unfold FindByIdentifier. apply verified_do; [done|]. intros q _. cbn [rreply] in q. cbn [verified].
  destruct q as [[s c]| |]; [|apply verified_do; [done|]; intros b _; cbn [rreply] in b; destruct b; [by right|done]|done]. destruct (decode_credential (s, c)) as [[subject stored]| |] eqn:Hd; cbn [mbind result_bind]; [|done..]. apply decode_credential_Ok in Hd as [Hs Hdig]. cbn [fst snd] in *. subst subject.
  apply verified_do; [done|]. intros v _. cbn [rreply] in v. destruct v as [[[] rehash]|]; [|by right|done]. set (t1 := (t ++ [_]) ++ [_]). assert (forall t', t1 ⊆ t' -> login_ok t' i p (Ok s, LoginSucceeded)) as Hok.
  { intros t' Ht'. split; [done|]. exists identifier, password, c, rehash. rewrite <- Hdig. split_and!; [done|done|apply Ht'; set_solver|apply Ht'; set_solver]. }
  destruct rehash; [|by apply Hok]. apply verified_do; [done|]. intros next _. cbn [rreply] in next. destruct next as [next|]; [|done]. apply verified_bind, verified_do; [exists password; set_solver|]. intros n _. cbn [rreply] in n. destruct n as [n|]; [|done]. apply Hok. set_solver.
Qed.

(** ** The publisher *)

Lemma ver_unless_done {A} (p : rprog (list A)) t : (forall t', t ⊆ t' -> rver p t' (fun _ _ => True)) -> rver (unless_done p) t (fun _ _ => True).
Proof. intros Hp. apply verified_do; [done|]. intros b _. cbn [rreply] in b. destruct b; [done|apply Hp; set_solver]. Qed.

Lemma decode_record_Ok token r v : decode_record token r = Ok v -> v = Some r.
Proof. unfold decode_record. rewrite !guard_Ok. by intros (_ & _ & [= <-]). Qed.

Lemma ver_outbox_Claim lease t (post : rtrace -> result reg_error (option Record_) -> Prop) :
  (forall t' r, t ⊆ t' -> (forall v, r = Ok (Some v) -> rclaimed t' v) -> post t' r) -> rver (outbox_Claim lease) t post.
Proof.
  intros Hp. apply ver_reg_ctx; [intros; by apply Hp|]. intros t1 Ht1. apply verified_refuse; intros Hg; [by apply Hp|]. apply verified_do; [done|]. intros token _. cbn [rreply] in token.
  destruct token as [token|]; [|apply Hp; [set_solver|done]]. apply verified_do; [done|]. intros q _. cbn [rreply] in q. apply Hp; [set_solver|]. intros v Hv. destruct q as [r| |]; [|done..].
  apply decode_record_Ok in Hv. injection Hv as ->. exists (lease / 1000 * 1000), token. set_solver.
Qed.

Lemma rclaimed_mono t t' r : t ⊆ t' -> rclaimed t r -> rclaimed t' r.
Proof. intros Ht (l & k & Hd). exists l, k. by apply Ht. Qed.

Lemma ver_Publish r t (post : rtrace -> result reg_error unit -> Prop) : rclaimed t r ->
  (forall t' x, t ⊆ t' -> (x = Ok tt -> rconfirmed t' r) -> post t' x) -> rver (Publish r) t post.
Proof.
  intros Hc Hp. apply ver_reg_ctx; [intros; by apply Hp|]. intros t1 Ht1. apply verified_do; [done|]. intros b _. apply verified_refuse; intros Hb; [apply Hp; [set_solver|done]|].
  apply verified_refuse; intros Hg; [apply Hp; [set_solver|done]|]. apply verified_try. destruct (ValidatePayload (Payload r) (r_ID r)) as [[]| |] eqn:Hv; cbn [map_err verified]; [|apply Hp; [set_solver|done]..].
  apply verified_do; [done|]. intros b2 _. apply verified_refuse; intros Hb2; [apply Hp; [set_solver|done]|]. apply verified_do; [done|]. intros b3 _. apply verified_refuse; intros Hb3; [apply Hp; [set_solver|done]|].
  apply verified_do; [exists r; split_and!; [|done|done]; eapply rclaimed_mono; [|exact Hc]; set_solver|]. intros ack _. cbn [rreply] in ack. destruct ack as [ack|]; [|apply Hp; [set_solver|done]].
  apply verified_do; [done|]. intros b4 _. apply verified_refuse; intros Hb4; [apply Hp; [set_solver|done]|]. apply verified_refuse; intros Ha; [apply Hp; [set_solver|done]|]. apply Hp; [set_solver|]. intros _. exists ack.
  split; [set_solver|by apply negb_false_iff].
Qed.

Lemma ver_recorded r (p : rprog (result reg_error bool)) t (post : rtrace -> result reg_error bool -> Prop) :
  (forall t' x, t ⊆ t' -> post t' x) -> (forall t', t ⊆ t' -> rver p t' post) -> rver (recorded r p) t post.
Proof. intros Hp Hk. apply ver_reg_ctx; [intros; by apply Hp|]. intros t1 Ht1. apply verified_refuse; intros Hg; [by apply Hp|by apply Hk]. Qed.

Lemma ver_batch_claims c n : forall t, rver (batch_claims c n) t (fun _ _ => True).
Proof.
  induction n as [|n IH]; intros t; [done|]. cbn [batch_claims]. apply ver_unless_done. intros t1 Ht1. apply verified_bind, ver_outbox_Claim. intros t2 claimed Ht2 Hclaimed. apply ver_unless_done. intros t3 Ht3.
  assert (forall saved l t, rver (unless_done (rest ← batch_claims c n; Ret (saved_outcome saved l ++ rest))) t (fun _ _ => True)) as Hrest.
  { intros saved l t'. apply ver_unless_done. intros t4 Ht4. apply verified_bind. eapply verified_impl; [|apply IH]. done. }
  destruct claimed as [[record|]|x|]; try done. pose proof (Hclaimed record eq_refl) as Hr. apply verified_bind, ver_Publish; [by eapply rclaimed_mono|]. intros t4 sent Ht4 Hsent.
  assert (forall t' late, t4 ⊆ t' -> (late = false -> rconfirmed t' record) -> rver (unless_done (if late : bool then
            saved ← outbox_Retry record (publish_backoff c (r_Attempts record)); l ← unless_done (rest ← batch_claims c n; Ret (saved_outcome saved [] ++ rest)); Ret (OutcomePublishError :: l)
          else saved ← MarkPublished record; unless_done (rest ← batch_claims c n; Ret (saved_outcome saved [OutcomePublished] ++ rest)))) t' (fun _ _ => True)) as Hgo.
  { intros t' late Ht' Hl. apply ver_unless_done. intros t5 Ht5. destruct late.
    - apply verified_bind, ver_recorded; intros t6; [intros x|]; intros Ht6; [apply verified_bind; eapply verified_impl; [|apply Hrest]; done|]. apply verified_refuse; intros Hd; [apply verified_bind; eapply verified_impl; [|apply Hrest]; done|].
      apply verified_do; [done|]. intros k _. apply verified_bind. eapply verified_impl; [|apply Hrest]. done.
    - apply verified_bind, ver_recorded; intros t6; [intros x|]; intros Ht6; [apply Hrest|]. apply verified_do; [|intros k _; apply Hrest]. exists record. destruct (Hl eq_refl) as (a & Ha & Hok).
      split_and!; [eapply rclaimed_mono; [|exact Hr]; set_solver|done|]. exists a. split; [set_solver|done]. }
  destruct sent as [u|x|]; [apply verified_do; [done|]; intros late _; cbn [rreply] in late; apply Hgo; [set_solver|]; intros _|by apply Hgo..].
  destruct u. destruct (Hsent eq_refl) as (a & Ha & Hok). exists a. split; [set_solver|done].
Qed.

Lemma ver_batch c t : rver (batch c) t (fun _ _ => True).
Proof.
  apply ver_unless_done. intros t1 Ht1. apply verified_bind, ver_reg_ctx; intros t2 Ht2.
  - apply ver_unless_done. intros t3 Ht3. apply verified_bind. eapply verified_impl; [|apply ver_batch_claims]. done.
  - apply verified_do; [done|]. intros q _. apply ver_unless_done. intros t3 Ht3. apply verified_bind. eapply verified_impl; [|apply ver_batch_claims]. done.
Qed.

(** ** The reconciler *)

(** A row of a page that was processed. *)
Definition row_done (o : Options) (t : rtrace) (row : scan_row) : Prop :=
  ApplyEvents o = true -> Missing row = true -> exists e at_ data n, rdid t (SqlEnsure e (sc_Subject row) at_ data) (Some n).
Definition cursor_after (o : Options) (rows : list scan_row) : bytes := match last rows with Some row => base64_Encode (sc_Subject row) | None => After o end.

(** The page processed some first rows of its scan. *)
Record processed (o : Options) (t : rtrace) (rows : list scan_row) (r : Page_) (before : list scan_row) : Prop := mkProcessed {
  pc_prefix : before `prefix_of` rows;
  pc_scanned : ScannedRows r = len before;
  pc_cursor : NextCursor r = cursor_after o before;
  pc_rows : forall row, row ∈ before -> row_done o t row
}.

Definition page_ok (o : Options) (t : rtrace) (x : Page_ * option reg_error) : Prop :=
  (exists e, x.2 = Some e) /\ NextCursor x.1 = After o /\ Done x.1 = false \/
  exists after rows before, Options_Validate o = Ok after /\ rdid t (SqlScan after (Limit o)) (Some rows) /\ Forall (fun r => len (sc_Subject r) = 16) rows /\ processed o t rows x.1 before /\
    match x.2 with Some _ => Done x.1 = false | None => before = rows /\ Done x.1 = (len rows <? Limit o) end.

Lemma rscanned_mono t t' s : t ⊆ t' -> rscanned t s -> rscanned t' s.
Proof. intros Ht (a & l & rows & row & Hd & Hr). exists a, l, rows, row. split; [by apply Ht|done]. Qed.

Lemma ver_page_row o r row t (post : rtrace -> Page_ * option reg_error -> Prop) : len (sc_Subject row) = 16 -> rscanned t (sc_Subject row) ->
  (forall t' x, t ⊆ t' -> ScannedRows x.1 = ScannedRows r -> NextCursor x.1 = NextCursor r -> Done x.1 = Done r -> (x.2 = None -> row_done o t' row) -> post t' x) -> rver (page_row o r row) t post.
Proof.
  intros Hl Hscan Hp. apply verified_do; [done|]. intros b _. cbn [rreply] in b. destruct b; [apply Hp; try done; set_solver|]. destruct (Missing row) eqn:Hm.
  - destruct (ApplyEvents o) eqn:Ha; [|apply Hp; try done; [set_solver|]; intros _ Ha'; congruence]. apply verified_bind, verified_try, ver_factory_New; [done|]. intros t1 x Ht1 Hx. destruct x as [e|x|]; cbn [verified]; [|apply Hp; done || set_solver..].
    apply ver_reg_ctx; [intros; apply Hp; done || set_solver|]. intros t2 Ht2. apply verified_try. destruct (Marshal e) as [data| |] eqn:Hmar; cbn [map_err verified]; [|apply Hp; done || set_solver..].
    apply ver_reg_ctx; [intros; apply Hp; done || set_solver|]. intros t3 Ht3. pose proof (Hx e eq_refl) as Hf. assert (ev_Subject e = sc_Subject row) as Hs by apply Hf.
    apply verified_do; [cbn [rcall_ok]; rewrite Hs; split; [eapply rscanned_mono; [|exact Hscan]; set_solver|by apply fresh_event_wire]|]. intros n _. cbn [rreply] in n. destruct n as [n|]; [|apply Hp; done || set_solver]. apply Hp; try done; [set_solver|]. intros _ _ _. rewrite <- Hs. exists (ev_ID e), (OccurredAt e), data, n. set_solver.
  - assert (forall t', row_done o t' row) as Hd by (intros t' _; congruence). destruct (PublishedAt row) as [p|]; [|apply Hp; try done; set_solver]. destruct (ApplyEvents o && ReplayPublished o); [|apply Hp; try done; set_solver].
    apply verified_bind, verified_refuse; intros Hg; [apply Hp; try done; set_solver|]. apply ver_reg_ctx; [intros; apply Hp; try done; set_solver|]. intros t1 Ht1. apply verified_do; [done|]. intros n _. cbn [rreply] in n.
    destruct n; apply Hp; try done; set_solver.
Qed.

Lemma row_done_mono o t t' row : t ⊆ t' -> row_done o t row -> row_done o t' row.
Proof. intros Ht Hd Ha Hm. destruct (Hd Ha Hm) as (e & at_ & data & n & Hx). exists e, at_, data, n. by apply Ht. Qed.

Lemma ver_page_rows o all : Forall (fun r => len (sc_Subject r) = 16) all -> forall rows before r t, all = before ++ rows -> (exists after limit, rdid t (SqlScan after limit) (Some all)) -> Done r = false -> processed o t all r before ->
  rver (page_rows o r rows) t (fun t' x => t ⊆ t' /\ Done x.1 = false /\ exists before', processed o t' all x.1 before' /\ (x.2 = None -> before' = all)).
Proof.
  intros Hall. induction rows as [|row rows IH]; intros before r t He Hscan Hn Hpc; cbn [page_rows].
  - cbn [verified]. split_and!; [done|done|]. exists before. split; [done|]. intros _. by rewrite He, app_nil_r.
  - assert (len (sc_Subject row) = 16) as Hl by (rewrite Forall_forall in Hall; apply Hall; rewrite He; set_solver).
    destruct Hpc as [P1 P2 P3 P4]. apply verified_bind, ver_page_row; [done|destruct Hscan as (a & l & Hd); exists a, l, all, row; split_and!; [done|rewrite He; set_solver|done]|]. intros t1 [r1 err] Ht1 E1 E2 E3 E4. cbn [fst snd] in *. destruct err as [e|]; cbn [verified].
    + split_and!; [done|cbn; congruence|]. exists before. split; [|done]. split; [done|cbn; congruence|cbn; congruence|]. intros x Hx. eapply row_done_mono; [exact Ht1|by apply P4].
    + eapply verified_impl; [|apply (IH (before ++ [row])); [by rewrite He, <- app_assoc|destruct Hscan as (a & l & Hd); exists a, l; by apply Ht1|cbn; congruence|]].
      * intros t2 x (Ht2 & Hx). split; [set_solver|done].
      * split; [rewrite He; exists rows; by rewrite <- app_assoc|cbn; rewrite E1, P2, len_app; unfold len; cbn; lia|unfold cursor_after; by rewrite last_snoc|]. intros x [Hx|Hx%list_elem_of_singleton]%elem_of_app; [eapply row_done_mono; [exact Ht1|by apply P4]|subst x; by apply E4].
Qed.

Lemma ver_Page o t : rver (Page o) t (fun t x => page_ok o t x).
Proof.
  unfold Page. apply verified_bind, verified_try. destruct (Options_Validate o) as [after| |] eqn:Hv; cbn [verified]; [|left; split; [by eexists|done]..].
  apply ver_reg_ctx; intros t1 Ht1; [left; split; [by eexists|done]|]. apply verified_refuse; intros Hg; [left; split; [by eexists|done]|]. apply ver_reg_ctx; intros t2 Ht2; [left; split; [by eexists|done]|].
  apply verified_do; [done|]. intros rows _. cbn [rreply] in rows. destruct rows as [rows|]; [|left; split; [by eexists|done]]. cbn [verified]. destruct (forallb _ rows) eqn:Hall; [|left; split; [by eexists|done]].
  assert (Forall (fun r => len (sc_Subject r) = 16) rows) as HF by (rewrite forallb_forall in Hall; apply Forall_forall; intros r Hr; apply list_elem_of_In in Hr; specialize (Hall r Hr); lia).
  apply verified_bind. eapply verified_impl; [|apply (ver_page_rows o rows HF rows []); [done|exists after, (Limit o); set_solver|done|]].
  - intros t3 x (Ht3 & Hd & before & [P1 P2 P3 P4] & Hn). right. exists after, rows, before. split_and!; [done|apply Ht3; set_solver|done| |].
    + destruct x as [r [e|]]; cbn [fst snd] in *; by split.
    + destruct x as [r [e|]]; cbn [fst snd] in *; [done|]. split; [by apply Hn|done].
  - split; [apply prefix_nil|done|done|]. by intros ? ?%elem_of_nil.
Qed.

(** ** Requests *)

Definition ranswer_ok (q : rrequest) (t : rtrace) (a : ranswer) : Prop :=
  match q, a with
  | RegRegister _ i _, RegAnsRegister r => r = Ok tt -> exists identifier, NewIdentifier i = Ok identifier /\ identified t identifier
  | RegLogin i p, RegAnsLogin x => login_ok t i p x
  | RegPage o, RegAnsPage x => page_ok o t x
  | RegUser q, RegAnsUser a => answer_ok q (user_trace t) a /\ outcomes_ok q a
  | RegBatch _, RegAnsBatch _ => True
  | _, _ => False
  end.

Lemma ver_rprogram q : rver (rprogram_of q) [] (ranswer_ok q).
Proof.
  destruct q; cbn [rprogram_of]; apply verified_bind.
  - eapply verified_impl; [|apply ver_Execute]. done.
  - eapply verified_impl; [|apply ver_login_Execute]. done.
  - eapply verified_impl; [|apply ver_batch]. done.
  - eapply verified_impl; [|apply ver_Page]. done.
  - eapply verified_impl; [|apply ver_user]. done.
Qed.
End guards.
