(* ===== verification/RegistrationHistory.v ===== *)
(** * Registration: the invariant of the databases

    What the databases and the stream satisfy, how they grow, and that every guarded
    statement keeps both. *)

From S2P Require Import Prelude GoStrings GoUnicode AuthDomain GoText Sha256 GoEncoding Effects UserDomain RegistrationWire UserStore UserService UserBooks UserHistory UserGuards RegistrationStore RegistrationService RegistrationGuards.
Local Open Scope Z_scope.

Section history.
Context `{EventLaws}.

(** ** The databases *)

Definition event_message (e : bytes) (r : outbox_row) : stored_message := mkStoredMessage event_type_v1 (hex_EncodeToString e) (ob_payload r).
Definition row_ok (e : bytes) (r : outbox_row) : Prop := wire_event e (ob_subject r) (occurred_at r) (ob_payload r) /\ check_outbox e r = true.
(** The account has an event. *)
Definition queued (d : reg_db) (subject : bytes) : Prop := exists e r, outbox d !! e = Some r /\ ob_subject r = subject.

Record reg_ok (d : reg_db) : Prop := mkRegOk {
  ro_subjects : forall s, is_Some (credentials d !! s) -> len s = 16 /\ Forall is_byte s;
  ro_identifiers : forall s s' c c', credentials d !! s = Some c -> credentials d !! s' = Some c' -> cr_identifier c = cr_identifier c' -> s = s';
  ro_rows : forall e r, outbox d !! e = Some r -> row_ok e r /\ is_Some (credentials d !! ob_subject r);
  ro_unique : forall e e' r r', outbox d !! e = Some r -> outbox d !! e' = Some r' -> ob_subject r = ob_subject r' -> e = e';
  ro_stream : forall m, m ∈ stream d -> exists e r, outbox d !! e = Some r /\ m = event_message e r;
  ro_published : forall e r, outbox d !! e = Some r -> published_at r <> None -> event_message e r ∈ stream d
}.

Lemma reg_ok_start : reg_ok (mkRegDb ∅ ∅ [] ∅ (mkUserDb ∅ ∅ ∅ ∅)).
Proof. split; cbn; first [by intros ? ?%elem_of_nil|by intros s [? Hs]; rewrite lookup_empty in Hs|intros *; rewrite ?lookup_empty; done]. Qed.

(** What only grows. *)
Record reg_grows (d d' : reg_db) : Prop := mkRegGrows {
  gr_credentials : forall s c, credentials d !! s = Some c -> exists c', credentials d' !! s = Some c' /\ cr_identifier c' = cr_identifier c;
  gr_outbox : forall e r, outbox d !! e = Some r -> exists r', outbox d' !! e = Some r' /\ ob_subject r' = ob_subject r /\ ob_payload r' = ob_payload r;
  gr_stream : stream d `prefix_of` stream d'
}.

Lemma reg_grows_refl d : reg_grows d d.
Proof. split; [|intros e r Hr; by exists r|done]. intros s c Hc. by exists c. Qed.

Lemma reg_grows_same d d' : credentials d' = credentials d -> (forall e r, outbox d !! e = Some r -> exists r', outbox d' !! e = Some r' /\ ob_subject r' = ob_subject r /\ ob_payload r' = ob_payload r) -> stream d `prefix_of` stream d' -> reg_grows d d'.
Proof. intros Hc Ho Hs. split; [|done|done]. rewrite Hc. intros s c Hx. by exists c. Qed.

Lemma reg_grows_trans d1 d2 d3 : reg_grows d1 d2 -> reg_grows d2 d3 -> reg_grows d1 d3.
Proof.
  intros [C1 O1 S1] [C2 O2 S2]. split; [| |by etrans].
  { intros s c Hc. destruct (C1 s c Hc) as (c' & Hc' & Hi), (C2 s c' Hc') as (c'' & Hc'' & Hi'). exists c''. split; [done|congruence]. }
  intros e r Hr. destruct (O1 e r Hr) as (r' & Hr' & Hs & Hp), (O2 e r' Hr') as (r'' & Hr'' & Hs' & Hp'). exists r''. split_and!; [done|congruence..].
Qed.

Lemma queued_grows d d' s : reg_grows d d' -> queued d s -> queued d' s.
Proof. intros Hg (e & r & Hr & Hs). destruct (gr_outbox _ _ Hg e r Hr) as (r' & Hr' & Hs' & _). exists e, r'. split; [done|congruence]. Qed.

Lemma subject_queued_iff d s : subject_queued d s = true <-> queued d s.
Proof.
  unfold subject_queued. rewrite existsb_exists. split.
  - intros ([e r] & Hin & Hs%bool_decide_eq_true). apply list_elem_of_In, elem_of_map_to_list in Hin. by exists e, r.
  - intros (e & r & Hr & Hs). exists (e, r). split; [by apply list_elem_of_In, elem_of_map_to_list|by apply bool_decide_eq_true].
Qed.

(** ** Statements *)

(** A database with the rows of another, but for their state of delivery. *)
Section update.
Context (d : reg_db) (Hok : reg_ok d) (e : bytes) (r r' : outbox_row).
Context (Hr : outbox d !! e = Some r) (Hs : ob_subject r' = ob_subject r) (Hp : ob_payload r' = ob_payload r) (Ho : occurred_at r' = occurred_at r).
Context (Hc : check_outbox e r' = true) (Hpub : published_at r' = None \/ event_message e r ∈ stream d).
Let d' := set_outbox d (<[e := r']> (outbox d)).

Lemma row_update_ok : reg_ok d' /\ reg_grows d d'.
Proof.
  destruct Hok as [K1 K2 K3 K4 K5 K6]. assert (forall x, event_message x r' = event_message x r) as Hm by (intros x; unfold event_message; by rewrite Hp).
  assert (forall x y, outbox d' !! x = Some y -> exists y0, outbox d !! x = Some y0 /\ ob_subject y = ob_subject y0) as Hback.
  { cbn. intros x y [[<- <-]|[_ Hy]]%lookup_insert_Some; [by exists r|by exists y]. }
  split; [split|apply reg_grows_same]; cbn [d' set_outbox credentials outbox stream]; try done.
  - intros x y [[<- <-]|[_ Hy]]%lookup_insert_Some; [|by apply K3]. destruct (K3 e r Hr) as [[Hw _] Hcr]. split; [|by rewrite Hs]. split; [by rewrite Hs, Hp, Ho|done].
  - intros x x' y y' Hy Hy' Hsub. destruct (Hback x y Hy) as (y0 & Hy0 & E), (Hback x' y' Hy') as (y0' & Hy0' & E'). eapply K4; [exact Hy0|exact Hy0'|congruence].
  - intros m Hin. destruct (K5 m Hin) as (x & y & Hy & ->). destruct (decide (e = x)) as [<-|Hne]; [|exists x, y; by rewrite lookup_insert_ne].
    exists e, r'. rewrite lookup_insert_eq, Hm. split; [done|]. by assert (y = r) as -> by congruence.
  - intros x y [[<- <-]|[_ Hy]]%lookup_insert_Some Hn; [|by apply K6]. rewrite Hm. by destruct Hpub.
  - intros x y Hy. destruct (decide (e = x)) as [<-|Hne]; [exists r'; rewrite lookup_insert_eq; by assert (y = r) as -> by congruence|exists y; by rewrite lookup_insert_ne].
Qed.
End update.

(** A new event of an account without one. *)
Lemma insert_event_ok now d e s o data d' : reg_ok d -> is_Some (credentials d !! s) -> wire_event e s o data -> sql_insert_event now d e s o data = Some d' ->
  reg_ok d' /\ reg_grows d d' /\ queued d' s.
Proof.
  intros [K1 K2 K3 K4 K5 K6] Hcr Hw. unfold sql_insert_event. destruct (_ || _) eqn:Hg; [done|]. rewrite !orb_false_iff, negb_false_iff, bool_decide_eq_false in Hg. destruct Hg as [[Hc Hn] Hq]. intros [= <-].
  set (r := new_outbox_row now s o data) in *. assert (outbox d !! e = None) as He by (by apply eq_None_not_Some).
  assert (row_ok e r) as Hrow.
  { split; [|done]. destruct Hw as (ev & Hu & Hid & Hsub & Hat & Hb). exists ev. split_and!; try done. cbn. destruct (unmarshal_marshal _ _ Hu) as [Hm _]. unfold Marshal in Hm. destruct (Event_Validate ev) as [[]| |] eqn:Hv; try done.
    apply Event_Validate_Ok in Hv as (_ & _ & _ & Hmod). unfold pg_time. rewrite Hat in *. pose proof (Z.div_mod o 1000 ltac:(lia)). lia. }
  split; [split|split; [apply reg_grows_same|]]; cbn [set_outbox credentials outbox stream]; try done.
  - intros x y [[<- <-]|[_ Hy]]%lookup_insert_Some; [done|by apply K3].
  - assert (forall x y, outbox d !! x = Some y -> ob_subject y <> s) as Hfresh.
    { intros x y Hy Hs. assert (subject_queued d s = true) by (apply subject_queued_iff; by exists x, y). congruence. }
    intros x x' y y' [[<- <-]|[_ Hy]]%lookup_insert_Some [[<- <-]|[_ Hy']]%lookup_insert_Some Hs; [done|by destruct (Hfresh x' y' Hy')|by destruct (Hfresh x y Hy)|by eapply K4].
  - intros m Hin. destruct (K5 m Hin) as (x & y & Hy & ->). exists x, y. split; [|done]. rewrite lookup_insert_ne; [done|]. intros ->. congruence.
  - intros x y [[<- <-]|[_ Hy]]%lookup_insert_Some Hp; [done|by apply K6].
  - intros x y Hy. exists y. split_and!; try done. rewrite lookup_insert_ne; [done|]. intros ->. congruence.
  - exists e, r. split; [apply lookup_insert_eq|done].
Qed.

(** The statement of [Create] stores the credential or finds its identifier taken. *)
Lemma create_credential_ok d s i p d' n : reg_ok d -> Forall is_byte s -> sql_create_credential d s i p = (d', n) ->
  reg_ok d' /\ reg_grows d d' /\ outbox d' = outbox d /\ users d' = users d /\ acked d' = acked d /\
  (forall x, is_Some (credentials d' !! x) -> is_Some (credentials d !! x) \/ (x = s /\ n = Some 1)) /\
  (n <> None -> exists s' c, credentials d' !! s' = Some c /\ cr_identifier c = i) /\ (n = Some 1 -> is_Some (credentials d' !! s)).
Proof.
  intros [K1 K2 K3 K4 K5 K6] Hb. unfold sql_create_credential. destruct (check_credential s _) eqn:Hc; cbn [negb].
  2: { intros [= <- <-]. split_and!; try done; [apply reg_grows_refl|by left]. }
  destruct (identifier_used d i) eqn:Hi.
  { intros [= <- <-]. unfold identifier_used in Hi. apply existsb_exists in Hi as ([s' c] & Hin & Hs%bool_decide_eq_true). apply list_elem_of_In, elem_of_map_to_list in Hin. split_and!; try done; [apply reg_grows_refl|by left|]. intros _. by exists s', c. }
  destruct (bool_decide_reflect (is_Some (credentials d !! s))) as [Hs|Hs]; [intros [= <- <-]; split_and!; try done; [apply reg_grows_refl|by left]|]. intros [= <- <-].
  assert (credentials d !! s = None) as Hnone by (by apply eq_None_not_Some). set (c := mkCredentialRow i p) in *.
  assert (forall x y, credentials d !! x = Some y -> <[s := c]> (credentials d) !! x = Some y) as Hkeep by (intros x y Hy; rewrite lookup_insert_ne; [done|]; intros ->; congruence).
  assert (forall x y, credentials d !! x = Some y -> cr_identifier y <> i) as Hfree.
  { intros x y Hy He. apply not_true_iff_false in Hi. apply Hi, existsb_exists. exists (x, y). split; [by apply list_elem_of_In, elem_of_map_to_list|by apply bool_decide_eq_true]. }
  split_and!; cbn [credentials]; try done.
  - split; cbn [credentials outbox stream]; try done.
    + intros x [y [[<- _]|[_ Hy]]%lookup_insert_Some]; [|apply K1; by eexists]. unfold check_credential in Hc. split; [lia|done].
    + intros x x' y y' [[<- <-]|[_ Hy]]%lookup_insert_Some [[<- <-]|[_ Hy']]%lookup_insert_Some Hsame; [done|by destruct (Hfree x' y' Hy')|by destruct (Hfree x y Hy)|by eapply K2].
    + intros e r Hr. destruct (K3 e r Hr) as [Hrow [y Hy]]. split; [done|]. exists y. by apply Hkeep.
  - split; [intros x y Hy; exists y; split; [by apply Hkeep|done]| |done]. intros e r Hr. by exists r.
  - intros x [y [[<- _]|[_ Hy]]%lookup_insert_Some]; [by right|left; by eexists].
  - intros _. exists s, c. by rewrite lookup_insert_eq.
  - intros _. rewrite lookup_insert_eq. by eexists.
Qed.

Lemma reg_ok_same d d' : credentials d' = credentials d -> outbox d' = outbox d -> stream d' = stream d -> reg_ok d -> reg_ok d' /\ reg_grows d d'.
Proof. intros Hc Ho Hs [K1 K2 K3 K4 K5 K6]. split; [split|apply reg_grows_same]; rewrite ?Hc, ?Ho, ?Hs; try done. intros e r Hr. by exists r. Qed.

Lemma find_credential_Some d i s c : sql_find_credential d i = Scanned (s, c) -> credentials d !! s = Some c /\ cr_identifier c = i.
Proof.
  unfold sql_find_credential. destruct (list_find _ _) as [[n [s' c']]|] eqn:Hf; [|done]. cbn. intros [= -> ->]. apply list_find_Some in Hf as (Hl & Hi & _). split; [|done]. by apply list_elem_of_lookup_2, elem_of_map_to_list in Hl.
Qed.

(** The statement of [UpdatePasswordDigest] keeps the identifier. *)
Lemma update_digest_ok d s previous next : reg_ok d -> reg_ok (sql_update_digest d s previous next).1 /\ reg_grows d (sql_update_digest d s previous next).1 /\
  forall x, is_Some (credentials (sql_update_digest d s previous next).1 !! x) -> is_Some (credentials d !! x).
Proof.
  intros Hok. assert (reg_ok d /\ reg_grows d d /\ forall x, is_Some (credentials d !! x) -> is_Some (credentials d !! x)) as Hsame by (split_and!; [done|apply reg_grows_refl|done]).
  unfold sql_update_digest. destruct (credentials d !! s) as [c|] eqn:Hc; [|done]. destruct (bool_decide _); [|done]. set (c' := mkCredentialRow _ _). destruct (check_credential s c'); [|done]. cbn [fst]. clear Hsame. destruct Hok as [K1 K2 K3 K4 K5 K6].
  assert (forall x y, <[s := c']> (credentials d) !! x = Some y -> exists y0, credentials d !! x = Some y0 /\ cr_identifier y0 = cr_identifier y) as Hback by (intros x y [[<- <-]|[_ Hy]]%lookup_insert_Some; [by exists c|by exists y]).
  assert (forall x y, credentials d !! x = Some y -> exists y', <[s := c']> (credentials d) !! x = Some y' /\ cr_identifier y' = cr_identifier y) as Hkeep.
  { intros x y Hy. destruct (decide (x = s)) as [->|Hne]; [exists c'; rewrite lookup_insert_eq; by assert (y = c) as -> by congruence|exists y; by rewrite lookup_insert_ne]. }
  split; [split|split; [split|]]; cbn [credentials outbox stream]; try done.
  - intros x [y Hy]. destruct (Hback x y Hy) as (y0 & Hy0 & _). apply K1. by exists y0.
  - intros x x' y y' Hy Hy' Hi. destruct (Hback x y Hy) as (y0 & Hy0 & E), (Hback x' y' Hy') as (y0' & Hy0' & E'). eapply K2; [exact Hy0|exact Hy0'|congruence].
  - intros e r Hr. destruct (K3 e r Hr) as [Hrow [y Hy]]. split; [done|]. destruct (Hkeep _ y Hy) as (y' & Hy' & _). by exists y'.
  - intros e r Hr. by exists r.
  - intros x [y Hy]. destruct (Hback x y Hy) as (y0 & Hy0 & _). by exists y0.
Qed.

Lemma create_registration_ok now d s i p e o data d' n : reg_ok d -> Forall is_byte s -> wire_event e s o data -> sql_create_registration now d s i p e o data = (d', n) ->
  reg_ok d' /\ reg_grows d d' /\ users d' = users d /\ acked d' = acked d /\ (forall x, is_Some (credentials d' !! x) -> is_Some (credentials d !! x) \/ queued d' x) /\
  (n <> None -> exists s' c, credentials d' !! s' = Some c /\ cr_identifier c = i).
Proof.
  intros Hok Hb Hw. unfold sql_create_registration. destruct (sql_create_credential d s i p) as [d1 n1] eqn:Hc. destruct (create_credential_ok _ _ _ _ _ _ Hok Hb Hc) as (Hok1 & Hg1 & _ & Hu1 & Ha1 & Hx1 & Hi1 & Hs1).
  assert (d1 = d -> n1 <> Some 1 -> (d1, n1) = (d', n) -> reg_ok d' /\ reg_grows d d' /\ users d' = users d /\ acked d' = acked d /\ (forall x, is_Some (credentials d' !! x) -> is_Some (credentials d !! x) \/ queued d' x) /\
    (n <> None -> exists s' c, credentials d' !! s' = Some c /\ cr_identifier c = i)) as Hsame.
  { intros -> Hn [= <- <-]. split_and!; try done. by left. }
  unfold sql_create_credential in Hc. destruct (negb _); [injection Hc as <- <-; by apply Hsame|]. destruct (identifier_used d i); [injection Hc as <- <-; by apply Hsame|]. destruct (bool_decide (is_Some _)); [injection Hc as <- <-; by apply Hsame|].
  injection Hc as <- <-. clear Hsame. set (d1 := mkRegDb _ _ _ _ _) in *. destruct (sql_insert_event now d1 e s o data) as [d2|] eqn:He.
  - destruct (insert_event_ok _ _ _ _ _ _ _ Hok1 (Hs1 eq_refl) Hw He) as (Hok2 & Hg2 & Hq). intros [= <- <-]. unfold sql_insert_event in He. destruct (_ || _); [done|]. injection He as <-. split_and!; try done.
    + by eapply reg_grows_trans.
    + intros x Hx. destruct (Hx1 x Hx) as [?|[-> _]]; [by left|by right].
  - intros [= <- <-]. split_and!; try done; [apply reg_grows_refl|by left].
Qed.

Lemma claim_event_cases now locked d lease token : reg_ok d ->
  (sql_claim_event now locked d lease token).1 = d \/
  exists e r, outbox d !! e = Some r /\ ob_due now r = true /\ check_outbox e (claimed_row now lease token r) = true /\
    sql_claim_event now locked d lease token = (set_outbox d (<[e := claimed_row now lease token r]> (outbox d)), Scanned (mkRecord e token (ob_payload r) (Z.min (ob_attempts r) 2147483646 + 1) (occurred_at r))).
Proof.
  intros Hok. unfold sql_claim_event. destruct (first_by _ _) as [[e r]|] eqn:Hf; [|by left]. apply first_by_in, list_elem_of_In, filter_In in Hf as [Hin Hd]. apply list_elem_of_In, elem_of_map_to_list in Hin.
  apply andb_true_iff in Hd as [Hd _]. destruct (check_outbox e _) eqn:Hc; [|by left]. right. by exists e, r.
Qed.

Lemma row_of_due now e r d : reg_ok d -> outbox d !! e = Some r -> ob_due now r = true -> published_at r = None.
Proof. intros _ _ Hd. unfold ob_due in Hd. go_bool. done. Qed.

Lemma claim_event_ok now locked d lease token : reg_ok d -> reg_ok (sql_claim_event now locked d lease token).1 /\ reg_grows d (sql_claim_event now locked d lease token).1.
Proof.
  intros Hok. destruct (claim_event_cases now locked d lease token Hok) as [->|(e & r & Hr & Hd & Hc & ->)]; [split; [done|apply reg_grows_refl]|]. cbn [fst].
  apply (row_update_ok d Hok e r); try done. left. cbn. by eapply row_of_due.
Qed.

Lemma update_leased_ok now d e token f : reg_ok d ->
  (forall r, outbox d !! e = Some r -> ob_leased now token r = true -> ob_subject (f r) = ob_subject r /\ ob_payload (f r) = ob_payload r /\ occurred_at (f r) = occurred_at r /\ check_outbox e (f r) = true /\ (published_at (f r) = None \/ event_message e r ∈ stream d)) ->
  reg_ok (update_leased now d e token f).1 /\ reg_grows d (update_leased now d e token f).1.
Proof.
  intros Hok Hf. unfold update_leased. destruct (outbox d !! e) as [r|] eqn:Hr; [|split; [done|apply reg_grows_refl]]. destruct (ob_leased now token r) eqn:Hl; [|split; [done|apply reg_grows_refl]].
  destruct (Hf r eq_refl Hl) as (H1' & H2' & H3' & H4' & H5'). by apply (row_update_ok d Hok e r).
Qed.

(** The columns of delivery do not matter to the constraints. *)
Lemma check_outbox_same e r r' : ob_subject r' = ob_subject r -> ob_payload r' = ob_payload r -> 0 <= ob_attempts r' -> lease_ok (ob_lease r') = true -> check_outbox e r = true -> check_outbox e r' = true.
Proof. intros Hs Hp Ha Hl. unfold check_outbox. rewrite Hs, Hp, Hl. rewrite (proj2 (Z.leb_le 0 (ob_attempts r')) Ha). rewrite !andb_true_iff. tauto. Qed.

Lemma row_checked d e r : reg_ok d -> outbox d !! e = Some r -> check_outbox e r = true /\ 0 <= ob_attempts r.
Proof. intros Hok Hr. destruct (ro_rows _ Hok e r Hr) as [[_ Hc] _]. split; [done|]. unfold check_outbox in Hc. go_bool. lia. Qed.

Lemma mark_ok now d e token : reg_ok d -> (forall r, outbox d !! e = Some r -> event_message e r ∈ stream d) -> reg_ok (sql_mark now d e token).1 /\ reg_grows d (sql_mark now d e token).1.
Proof.
  intros Hok Hm. apply update_leased_ok; [done|]. intros r Hr _. destruct (row_checked d e r Hok Hr) as [Hc Ha]. split_and!; try done; [by apply (check_outbox_same e r)|right; by apply Hm].
Qed.
Lemma retry_event_ok now d e token delay : reg_ok d -> reg_ok (sql_retry_event now d e token delay).1 /\ reg_grows d (sql_retry_event now d e token delay).1.
Proof.
  intros Hok. apply update_leased_ok; [done|]. intros r Hr Hl. destruct (row_checked d e r Hok Hr) as [Hc Ha]. split_and!; try done; [by apply (check_outbox_same e r)|left]. unfold ob_leased in Hl. go_bool. done.
Qed.

Lemma event_of_Some d s e r : event_of d s = Some (e, r) -> outbox d !! e = Some r /\ ob_subject r = s.
Proof.
  unfold event_of. destruct (list_find _ _) as [[i [e' r']]|] eqn:Hf; [|done]. cbn. intros [= -> ->]. apply list_find_Some in Hf as (Hl & Hs & _). split; [|done]. by apply list_elem_of_lookup_2, elem_of_map_to_list in Hl.
Qed.
Lemma event_of_None d s : event_of d s = None -> ~ queued d s.
Proof.
  unfold event_of. destruct (list_find _ _) as [[i x]|] eqn:Hf; [done|]. intros _ (e & r & Hr & Hs). apply list_find_None in Hf. rewrite Forall_forall in Hf. apply (Hf (e, r)); [by apply elem_of_map_to_list|done].
Qed.

Lemma replay_ok now d s p : reg_ok d -> reg_ok (sql_replay now d s p).1 /\ reg_grows d (sql_replay now d s p).1.
Proof.
  intros Hok. unfold sql_replay. destruct (event_of d s) as [[e r]|] eqn:He; [|split; [done|apply reg_grows_refl]]. destruct (_ && _); [|split; [done|apply reg_grows_refl]]. apply event_of_Some in He as [Hr _].
  destruct (row_checked d e r Hok Hr) as [Hc Ha]. apply (row_update_ok d Hok e r); try done. by left.
Qed.

Lemma ensure_event_ok now d e s o data : reg_ok d -> wire_event e s o data ->
  reg_ok (sql_ensure now d e s o data).1 /\ reg_grows d (sql_ensure now d e s o data).1 /\
  (is_Some (credentials d !! s) -> (sql_ensure now d e s o data).2 <> None -> queued (sql_ensure now d e s o data).1 s) /\
  users (sql_ensure now d e s o data).1 = users d /\ acked (sql_ensure now d e s o data).1 = acked d /\ credentials (sql_ensure now d e s o data).1 = credentials d.
Proof.
  intros Hok Hw. unfold sql_ensure. destruct (credentials d !! s) as [c|] eqn:Hcr; [|split_and!; try done; first [apply reg_grows_refl|by intros [? ?]]].
  destruct (negb _); [split_and!; try done; apply reg_grows_refl|]. destruct (subject_queued d s) eqn:Hq; [apply subject_queued_iff in Hq; split_and!; try done; apply reg_grows_refl|].
  destruct (sql_insert_event now d e s o data) as [d'|] eqn:Hi; [|split_and!; try done; apply reg_grows_refl].
  destruct (insert_event_ok _ _ _ _ _ _ _ Hok ltac:(by eexists) Hw Hi) as (Hok' & Hg & Hqd). unfold sql_insert_event in Hi. destruct (_ || _); [done|]. injection Hi as <-. by split_and!.
Qed.

(** *** Publishing *)

Lemma hex_inj a b : Forall is_byte a -> Forall is_byte b -> hex_EncodeToString a = hex_EncodeToString b -> a = b.
Proof. intros Ha Hb He. apply hex_round_trip in Ha, Hb. congruence. Qed.

Lemma row_bytes d e r : reg_ok d -> outbox d !! e = Some r -> Forall is_byte e.
Proof. intros Hok Hr. destruct (ro_rows _ Hok e r Hr) as [[(ev & _ & _ & _ & _ & Hb) _] _]. done. Qed.

(** Messages are told apart by their identifiers. *)
Lemma same_message d e r m : reg_ok d -> outbox d !! e = Some r -> m ∈ stream d -> sm_id m = hex_EncodeToString e -> m = event_message e r.
Proof.
  intros Hok Hr Hm Hid. destruct (ro_stream _ Hok m Hm) as (e' & r' & Hr' & ->). cbn in Hid. apply hex_inj in Hid as ->; [|by eapply row_bytes..]. by assert (r' = r) as -> by congruence.
Qed.

Lemma publish_ok b d e r : reg_ok d -> outbox d !! e = Some r ->
  reg_ok (publish b d (event_message e r)).1 /\ reg_grows d (publish b d (event_message e r)).1 /\ event_message e r ∈ stream (publish b d (event_message e r)).1 /\ 0 < (publish b d (event_message e r)).2.
Proof.
  intros Hok Hr. pose proof Hok as [K1 K2 K3 K4 K5 K6]. set (m := event_message e r). assert (reg_ok (set_stream d (stream d ++ [m])) /\ reg_grows d (set_stream d (stream d ++ [m])) /\ m ∈ stream d ++ [m]) as (Hnew & Hg & Hin).
  { split; [split|split; [apply reg_grows_same|]]; cbn [set_stream credentials outbox stream]; try done.
    - intros x [Hx|Hx%list_elem_of_singleton]%elem_of_app; [by apply K5|exists e, r; by subst x].
    - intros x y Hy Hp. apply elem_of_app. left. by apply K6.
    - intros x y Hy. by exists y.
    - by apply prefix_app_r.
    - apply elem_of_app. right. by apply list_elem_of_singleton. }
  unfold publish. destruct (list_find _ (stream d)) as [[i x]|] eqn:Hf; [|split_and!; try done; cbn; lia]. destruct b; [|split_and!; try done; cbn; lia]. apply list_find_Some in Hf as (Hl & Hid & _). cbn [fst snd]. split_and!; [done|apply reg_grows_refl| |lia].
  apply list_elem_of_lookup_2 in Hl. subst m. by rewrite <- (same_message d e r x Hok Hr Hl Hid).
Qed.

(** *** Pages *)

Definition row_before (a b : scan_row) : Prop := bytes_before (sc_Subject a) (sc_Subject b) = true.

(** The rows of a page in their order. *)
Record page_shape (after : bytes) (limit : Z) (rows : list scan_row) : Prop := mkPageShape {
  ps_after : forall row, row ∈ rows -> bytes_before after (sc_Subject row) = true;
  ps_sorted : StronglySorted row_before rows;
  ps_limit : len rows <= Z.max limit 0
}.

(** It has the accounts after the cursor, up to its last row if it is full. *)
Definition covers (accounts : gmap bytes credential_row) (after : bytes) (limit : Z) (rows : list scan_row) : Prop :=
  forall s, is_Some (accounts !! s) -> bytes_before after s = true ->
    (exists row, row ∈ rows /\ sc_Subject row = s) \/ len rows = Z.max limit 0 /\ forall row, row ∈ rows -> bytes_before (sc_Subject row) s = true.

Lemma bytes_before_total a b : bytes_before a b = false -> bytes_before b a = false -> a = b.
Proof.
  revert b. induction a as [|x a IH]; intros [|y b]; cbn [bytes_before]; try done. intros [H1' H2']%orb_false_iff [H3' H4']%orb_false_iff. assert (x = y) as -> by lia. rewrite Z.eqb_refl in *. cbn [andb] in *. f_equal. by apply IH.
Qed.
Lemma bytes_before_asym a b : bytes_before a b = true -> bytes_before b a = false.
Proof.
  intros Hab. destruct (bytes_before b a) eqn:Hba; [|done]. exfalso. revert b Hab Hba. induction a as [|x a IH]; intros [|y b]; cbn [bytes_before]; try done.
  intros [H1'|[He H1']%andb_true_iff]%orb_true_iff [H2'|[He' H2']%andb_true_iff]%orb_true_iff; try lia. by apply (IH b).
Qed.

#[export] Instance subject_le_trans : Transitive subject_le.
Proof. intros a b c Hab Hbc. unfold subject_le in *. by eapply bytes_before_trans. Qed.
#[export] Instance subject_le_total : Total subject_le.
Proof. intros a b. unfold subject_le. destruct (bytes_before b a) eqn:Hba; [right; by apply bytes_before_asym|by left]. Qed.

Lemma elem_of_later_subjects d after s : s ∈ later_subjects d after <-> is_Some (credentials d !! s) /\ bytes_before after s = true.
Proof.
  unfold later_subjects. rewrite merge_sort_Permutation. rewrite list_elem_of_In, filter_In, <- list_elem_of_In, list_elem_of_fmap. split.
  - intros [([k c] & -> & Hin%elem_of_map_to_list) Hb]. split; [by exists c|done].
  - intros [[c Hc] Hb]. split; [|done]. exists (s, c). split; [done|by apply elem_of_map_to_list].
Qed.

Lemma later_subjects_sorted d after : StronglySorted (fun a b => bytes_before a b = true) (later_subjects d after).
Proof.
  assert (StronglySorted subject_le (later_subjects d after)) as Hs by apply (StronglySorted_merge_sort _ _).
  assert (NoDup (later_subjects d after)) as Hn.
  { unfold later_subjects. rewrite merge_sort_Permutation. apply NoDup_ListNoDup, List.NoDup_filter, NoDup_ListNoDup, NoDup_fst_map_to_list. }
  revert Hn. induction Hs as [|a l Hs IH Ha]; [constructor|]. intros [Hnin Hn]%NoDup_cons. constructor; [by apply IH|]. rewrite Forall_forall in *. intros b Hb. destruct (bytes_before a b) eqn:Hab; [done|]. exfalso.
  assert (a = b) as -> by (apply bytes_before_total; [done|by apply Ha]). done.
Qed.

Lemma StronglySorted_fmap {A B} (R : B -> B -> Prop) (S : A -> A -> Prop) (f : A -> B) l : (forall a b, S a b -> R (f a) (f b)) -> StronglySorted S l -> StronglySorted R (f <$> l).
Proof. intros Hf. induction 1 as [|a l _ IH Ha]; cbn; constructor; [done|]. rewrite Forall_fmap. eapply Forall_impl; [exact Ha|]. intros b. apply Hf. Qed.

Lemma StronglySorted_split {A} (R : A -> A -> Prop) l l' : StronglySorted R (l ++ l') -> StronglySorted R l /\ forall a b, a ∈ l -> b ∈ l' -> R a b.
Proof.
  induction l as [|x l IH]; cbn [app]; [split; [constructor|by intros ? ? ?%elem_of_nil]|]. intros [Hs Hx]%StronglySorted_inv. destruct (IH Hs) as [Hl Hr]. rewrite Forall_app, !Forall_forall in Hx. destruct Hx as [Hx Hx']. split.
  - constructor; [done|]. by apply Forall_forall.
  - intros a b [->|Ha]%elem_of_cons Hb; [by apply Hx'|by apply Hr].
Qed.

Lemma scan_row_subject d s : sc_Subject (scan_row_of d s) = s.
Proof. done. Qed.

Lemma elem_of_scan d after limit row : row ∈ sql_scan d after limit -> exists s, s ∈ later_subjects d after /\ row = scan_row_of d s.
Proof. unfold sql_scan. intros (s & -> & Hs)%list_elem_of_fmap. exists s. split; [|done]. rewrite <- (take_drop (Z.to_nat limit) (later_subjects d after)). apply elem_of_app. by left. Qed.

Lemma scan_shape d after limit : page_shape after limit (sql_scan d after limit).
Proof.
  split.
  - intros row (s & Hs & ->)%elem_of_scan. by apply elem_of_later_subjects in Hs as [_ ?].
  - pose proof (later_subjects_sorted d after) as Hs. rewrite <- (take_drop (Z.to_nat limit) (later_subjects d after)) in Hs. apply StronglySorted_split in Hs as [Hs _]. unfold sql_scan. eapply StronglySorted_fmap; [|exact Hs]. done.
  - unfold sql_scan, len. rewrite length_fmap, length_take. lia.
Qed.

Lemma scan_covers accounts d after limit : (forall s, is_Some (accounts !! s) -> is_Some (credentials d !! s)) -> covers accounts after limit (sql_scan d after limit).
Proof.
  intros Hsub s Hc Hb. assert (s ∈ later_subjects d after) as Hin by (apply elem_of_later_subjects; split; [by apply Hsub|done]). pose proof (later_subjects_sorted d after) as Hs.
  rewrite <- (take_drop (Z.to_nat limit) (later_subjects d after)) in Hin, Hs. apply elem_of_app in Hin as [Hin|Hin].
  - left. exists (scan_row_of d s). split; [|done]. unfold sql_scan. by apply list_elem_of_fmap_2.
  - right. split.
    + unfold sql_scan, len. rewrite length_fmap, length_take. assert (drop (Z.to_nat limit) (later_subjects d after) <> []) as Hne by (intros He; rewrite He in Hin; by apply elem_of_nil in Hin).
      assert (length (drop (Z.to_nat limit) (later_subjects d after)) <> 0%nat) as Hl by (by intros ?%length_zero_iff_nil). rewrite length_drop in Hl. lia.
    + unfold sql_scan. intros row (x & -> & Hx)%list_elem_of_fmap. by apply (proj2 (StronglySorted_split _ _ _ Hs)).
Qed.

Lemma scan_known d after limit row : row ∈ sql_scan d after limit -> is_Some (credentials d !! sc_Subject row) /\ (Missing row = false -> queued d (sc_Subject row)).
Proof.
  intros (s & Hs & ->)%elem_of_scan. apply elem_of_later_subjects in Hs as [Hc _]. split; [done|]. cbn. intros Hm%bool_decide_eq_false. destruct (event_of d s) as [[e r]|] eqn:He; [|done]. exists e, r. by apply event_of_Some.
Qed.
End history.
