(* ===== verification/RegistrationRuns.v ===== *)
(** * Registration: runs of both services

    The invariant of every run of the programs of auth and user over their databases
    and the stream, and what it gives: every registered account has an event, events
    are delivered at least once and never in conflict, only registered accounts get a
    profile, and the reconciler leaves no gap. *)

From S2P Require Import Prelude GoStrings GoUnicode AuthDomain GoText Sha256 GoEncoding Effects UserDomain RegistrationWire RegistrationCodec UserStore UserService UserBooks UserHistory UserGuards UserRuns RegistrationStore RegistrationService RegistrationGuards RegistrationHistory.
Local Open Scope Z_scope.

Section runs.
Context `{EventLaws, UnicodeTables}.

(** ** What a reply shows of the databases, then and later *)

Definition delivered_at (d : reg_db) (m : Message) : Prop :=
  exists n x, stream d !! n = Some x /\ m = mkMessage (Z.of_nat n + 1) (sm_subject x) (sm_data x).
Definition has_identifier (d : reg_db) (identifier : bytes) : Prop := exists s c, credentials d !! s = Some c /\ cr_identifier c = identifier.

Definition shows (d : reg_db) (x : sigT rreply) : Prop :=
  match x with
  | existT c r =>
      match c return rreply c -> Prop with
      | SqlCreateCredential _ i _ => fun n => n <> None -> has_identifier d i
      | SqlCreateRegistration _ i _ _ _ _ => fun n => n <> None -> has_identifier d i
      | SqlFindCredential i => fun q => match q with Scanned (s, c) => exists c', credentials d !! s = Some c' /\ cr_identifier c' = i | _ => True end
      | SqlClaimEvent _ _ => fun q => match q with Scanned r => exists row, outbox d !! r_ID r = Some row /\ ob_payload row = Payload r | _ => True end
      | PublishMsg m => fun a => match a with Some a => ack_ok a = true -> exists x, x ∈ stream d /\ sm_id x = sm_id m | None => True end
      | SqlScan after limit => fun rows =>
          match rows with
          | Some rows => page_shape after limit rows /\ forall row, row ∈ rows -> is_Some (credentials d !! sc_Subject row) /\ (Missing row = false -> queued d (sc_Subject row))
          | None => True
          end
      | SqlEnsure _ s _ _ => fun n => n <> None -> queued d s
      | UserCall MsgNext => fun m => match m with Some m => delivered_at d m | None => True end
      | _ => fun _ => True
      end r
  end.

Lemma shows_grows d d' x : reg_grows d d' -> shows d x -> shows d' x.
Proof.
  intros Hg. pose proof Hg as [Gc Go Gs]. assert (forall i, has_identifier d i -> has_identifier d' i) as Hid by (intros i (s & c & Hc & Hi); destruct (Gc s c Hc) as (c' & Hc' & Hi'); exists s, c'; split; [done|congruence]).
  assert (forall s, is_Some (credentials d !! s) -> is_Some (credentials d' !! s)) as Hcr by (intros s [c Hc]; destruct (Gc s c Hc) as (c' & Hc' & _); by exists c').
  destruct x as [c r]; destruct c; cbn [shows rreply] in *; auto.
  - destruct r as [[s c]| |]; auto. intros (c' & Hc' & Hi). destruct (Gc s c' Hc') as (c'' & Hc'' & Hi'). exists c''. split; [done|congruence].
  - destruct r as [r| |]; auto. intros (row & Hr & Hp). destruct (Go _ _ Hr) as (row' & Hr' & _ & Hp'). exists row'. split; [done|congruence].
  - destruct r as [rows|]; auto. intros [Hs Hr]. split; [done|]. intros row Hin. destruct (Hr row Hin) as [? ?]. split; [auto|]. intros Hm. eapply queued_grows; eauto.
  - intros Hq Hn. eapply queued_grows; eauto.
  - destruct r as [a|]; auto. intros Hx Ha. destruct (Hx Ha) as (x & Hin & He). exists x. split; [|done]. destruct Gs as [l ->]. apply elem_of_app. by left.
  - destruct c; auto. destruct r as [m|]; auto. intros (n & x & Hx & Hm). exists n, x. split; [|done]. destruct Gs as [l ->]. by apply lookup_app_l_Some.
Qed.

(** ** One call *)

(** What is known of the databases when a call is made. *)
Definition known (d : reg_db) (c : rcall) : Prop :=
  match c with
  | SqlCreateCredential s _ _ => Forall is_byte s
  | SqlCreateRegistration s _ _ e o data => Forall is_byte s /\ wire_event e s o data
  | SqlMark e _ => forall r, outbox d !! e = Some r -> event_message e r ∈ stream d
  | PublishMsg m => exists e r, outbox d !! e = Some r /\ m = event_message e r
  | SqlEnsure e s o data => is_Some (credentials d !! s) /\ wire_event e s o data
  | _ => True
  end.

(** A credential that is new has an event, or was created without. *)
Definition sourced (d : reg_db) (c : rcall) (d' : reg_db) : Prop :=
  forall s, is_Some (credentials d' !! s) -> is_Some (credentials d !! s) \/ queued d' s \/ exists i p, c = SqlCreateCredential s i p.

Record advances (d : reg_db) (c : rcall) (d' : reg_db) (r : rreply c) : Prop := mkAdvances {
  ad_ok : reg_ok d';
  ad_grows : reg_grows d d';
  ad_shows : shows d' (existT c r);
  ad_sourced : sourced d c d'
}.

Lemma same_sourced d c d' : credentials d' = credentials d -> sourced d c d'.
Proof. intros Hc s. rewrite Hc. by left. Qed.

(** A statement that fails shows nothing. *)
Lemma faulty_advances d c f (failed : rreply c) (x : reg_db * rreply c) : reg_ok d -> (forall d', shows d' (existT c failed)) -> advances d c x.1 x.2 -> advances d c (faulty failed f d x).1 (faulty failed f d x).2.
Proof.
  intros Hok Hf [A1 A2 A3 A4]. destruct f; cbn [faulty fst snd]; split; try done; [apply reg_grows_refl|by apply same_sourced].
Qed.

Lemma quiet_advances d c d' (r : rreply c) : reg_ok d -> credentials d' = credentials d -> outbox d' = outbox d -> stream d' = stream d -> shows d' (existT c r) -> advances d c d' r.
Proof. intros Hok Hc Ho Hs Hr. destruct (reg_ok_same d d' Hc Ho Hs Hok) as [Hok' Hg]. split; try done. by apply same_sourced. Qed.

Lemma update_leased_creds now d e token f : credentials (update_leased now d e token f).1 = credentials d.
Proof. unfold update_leased. destruct (outbox d !! e); [|done]. by destruct (ob_leased _ _ _). Qed.

Lemma respond_advances w d c : reg_ok d -> known d c -> advances d c (rrespond w d c).1 (rrespond w d c).2.
Proof.
  intros Hok Hk. destruct c; cbn [rrespond]; try (apply quiet_advances; done).
  - apply faulty_advances; [done|by first [done|intros ? []]|]. destruct (sql_create_credential d subject identifier digest) as [d' n] eqn:Hc. destruct (create_credential_ok _ _ _ _ _ _ Hok Hk Hc) as (H1' & H2' & _ & _ & _ & Hx & Hi & _).
    split; [done|done|exact Hi|]. intros s Hs. destruct (Hx s Hs) as [?|[-> _]]; [by left|right; right; by eexists _, _].
  - destruct Hk as [Hb Hw]. apply faulty_advances; [done|by first [done|intros ? []]|]. destruct (sql_create_registration _ _ _ _ _ _ _ _) as [d' n] eqn:Hc. destruct (create_registration_ok _ _ _ _ _ _ _ _ _ _ Hok Hb Hw Hc) as (H1' & H2' & _ & _ & Hx & Hi).
    split; [done|done|exact Hi|]. intros s Hs. destruct (Hx s Hs); auto.
  - apply faulty_advances; [done|by first [done|intros ? []]|]. apply quiet_advances; try done. cbn [shows]. destruct (sql_find_credential d identifier) as [[s c]| |] eqn:Hf; [|done..]. apply find_credential_Some in Hf as [Hc Hi]. by exists c.
  - apply faulty_advances; [done|by first [done|intros ? []]|]. destruct (update_digest_ok d subject previous next Hok) as (H1' & H2' & Hx). split; try done. intros s Hs. left. by apply Hx.
  - apply faulty_advances; [done|by first [done|intros ? []]|]. destruct (claim_event_ok (w_now (rw_user w)) (rw_locked w) d lease token Hok) as [H1' H2']. split; [done|done| |].
    + cbn [shows]. destruct (claim_event_cases (w_now (rw_user w)) (rw_locked w) d lease token Hok) as [He|(e & r & Hr & _ & _ & ->)].
      * unfold sql_claim_event in *. destruct (first_by _ _) as [[e r]|] eqn:Hf; [|done]. destruct (check_outbox _ _); [|done]. cbn [fst snd r_ID Payload] in *. eexists. split; [apply lookup_insert_eq|done].
      * cbn. eexists. split; [apply lookup_insert_eq|done].
    + apply same_sourced. unfold sql_claim_event. destruct (first_by _ _) as [[e r]|]; [|done]. by destruct (check_outbox _ _).
  - apply faulty_advances; [done|by first [done|intros ? []]|]. destruct (mark_ok (w_now (rw_user w)) d event token Hok Hk) as [H1' H2']. split; try done. apply same_sourced, update_leased_creds.
  - apply faulty_advances; [done|by first [done|intros ? []]|]. destruct (retry_event_ok (w_now (rw_user w)) d event token delay Hok) as [H1' H2']. split; try done. apply same_sourced, update_leased_creds.
  - apply faulty_advances; [done|by first [done|intros ? []]|]. by apply quiet_advances.
  - apply faulty_advances; [done|by first [done|intros ? []]|]. apply quiet_advances; try done. cbn [shows]. split; [apply scan_shape|]. intros row Hrow. by eapply scan_known.
  - destruct Hk as [Hcr Hw]. apply faulty_advances; [done|by first [done|intros ? []]|]. destruct (ensure_event_ok (w_now (rw_user w)) d event subject occurred data Hok Hw) as (H1' & H2' & Hq & _ & _ & Hc). split; [done|done| |by apply same_sourced]. intros Hn. by apply Hq.
  - apply faulty_advances; [done|by first [done|intros ? []]|]. destruct (replay_ok (w_now (rw_user w)) d subject published Hok) as [H1' H2']. split; try done. apply same_sourced. unfold sql_replay. destruct (event_of d subject) as [[e r]|]; [|done]. by destruct (_ && _).
  - destruct Hk as (e & r & Hr & ->). destruct (publish_ok (rw_deduplicates w) d e r Hok Hr) as (H1' & H2' & Hin & _). destruct (publish _ _ _) as [d' seq] eqn:Hp. cbn [fst snd] in *. apply faulty_advances; [done| |].
    + intros d0. cbn [shows]. unfold unacked. destruct (rw_ack w) as [a|]; [|done]. cbn [mbind option_bind]. destruct (ack_ok a) eqn:Ha; [done|]. by rewrite Ha.
    + split; [done|done|intros _; by exists (event_message e r)|]. apply same_sourced. unfold publish in Hp. destruct (list_find _ _) as [[i x]|]; [destruct (rw_deduplicates w)|]; by injection Hp as <- <-.
  - destruct (respond _ _ _) as [v r] eqn:Hr. cbn [fst snd]. apply quiet_advances; try done; try (by destruct c, (w_fault (rw_user w))). destruct c; try done. cbn [respond] in Hr. injection Hr as <- <-. cbn [shows w_message user_world].
    unfold delivered. destruct (stream d !! rw_delivery w) as [x|] eqn:Hx; [|done]. cbn [mbind option_bind]. exists (rw_delivery w), x. split; [|done]. by destruct (w_fault (rw_user w)).
Qed.

(** ** The invariant *)

Record reg_inv (d : reg_db) (ts : list rtrace) : Prop := mkRegInv {
  ri_ok : reg_ok d;
  ri_user : user_inv (users d) (user_trace <$> ts);
  ri_shows : forall t x, t ∈ ts -> x ∈ t -> shows d x;
  ri_sourced : forall s, is_Some (credentials d !! s) -> queued d s \/ exists t i p n, t ∈ ts /\ rdid t (SqlCreateCredential s i p) n;
  ri_acked : forall q, q ∈ acked d -> exists n m ev, q = Z.of_nat n + 1 /\ stream d !! n = Some m /\ Unmarshal (sm_data m) = Ok ev /\ is_Some (profiles (users d) !! ev_Subject ev)
}.

Section facts.
Context (d : reg_db) (ts : list rtrace) (Hinv : reg_inv d ts).

(** A message that was received is the event of a row. *)
Lemma received_row t m ev : t ∈ ts -> received (user_trace t) m ev ->
  exists r, outbox d !! ev_ID ev = Some r /\ ob_payload r = msg_Data m /\ ob_subject r = ev_Subject ev /\ delivered_at d m.
Proof.
  intros Ht (Hd%elem_of_user_trace & _ & Hu). pose proof (ri_shows _ _ Hinv _ _ Ht Hd) as Hx. cbn in Hx. pose proof Hx as (n & x & Hl & ->). apply list_elem_of_lookup_2 in Hl. destruct (ro_stream _ (ri_ok _ _ Hinv) x Hl) as (e & r & Hr & ->).
  destruct (ro_rows _ (ri_ok _ _ Hinv) e r Hr) as [[(ev' & Hu' & He & Hs & _) _] _]. cbn in Hu. assert (ev' = ev) as -> by congruence. subst e. by exists r.
Qed.

Lemma known_call t c : t ∈ ts -> rcall_ok t c -> known d c.
Proof.
  intros Ht. destruct c; cbn [rcall_ok known]; try done.
  - intros (r & (lease & tk & Hd) & <- & a & Ha & Hok) row Hrow. pose proof (ri_shows _ _ Hinv _ _ Ht Hd) as (row' & Hrow' & Hp). assert (row' = row) as -> by congruence.
    pose proof (ri_shows _ _ Hinv _ _ Ht Ha Hok) as (x & Hx & Hid). by rewrite <- (same_message d (r_ID r) row x (ri_ok _ _ Hinv) Hrow Hx Hid).
  - intros [(after & l & rows & row & Hd & Hin & <-) Hw]. pose proof (ri_shows _ _ Hinv _ _ Ht Hd) as [_ Hr]. split; [by apply Hr|done].
  - intros (r & (lease & tk & Hd) & -> & _). pose proof (ri_shows _ _ Hinv _ _ Ht Hd) as (row & Hrow & Hp). exists (r_ID r), row. split; [done|]. unfold message_for, event_message. by rewrite Hp.
Qed.

(** An event that was applied is the event of a row. *)
Lemma inbox_row_of e x : inbox (users d) !! e = Some x -> exists r, outbox d !! e = Some r /\ ob_subject r = in_subject x /\ payload_hash x = sha256_Sum (ob_payload r).
Proof.
  intros Hx. destruct (ui_inbox _ _ (ri_user _ _ Hinv) _ _ Hx) as (t & m & ev & (T & -> & HT)%list_elem_of_fmap & Hrec & <- & Hs & Hh). destruct (received_row T m ev HT Hrec) as (r & Hr & Hp & Hrs & _).
  exists r. split_and!; [done|congruence|congruence].
Qed.

(** An event that is received again is the event that was stored. *)
Lemma apply_agrees now e r : outbox d !! e = Some r -> (sql_apply now (users d) e (ob_subject r) (sha256_Sum (ob_payload r))).2 <> NoRows.
Proof.
  intros Hr. unfold sql_apply. destruct (_ || _ || _); [done|]. destruct (inbox (users d) !! e) as [x|] eqn:Hx; [|done]. destruct (inbox_row_of e x Hx) as (r' & Hr' & Hs & Hh). assert (r' = r) as -> by congruence.
  rewrite Hs, Hh, !bool_decide_true by done. done.
Qed.

Lemma reg_legal w t c : t ∈ ts -> rcall_ok t c -> rlegal c (rrespond w d c).2.
Proof.
  intros Ht Hc. assert (forall o, match array16 o with Some b => len b = 16 /\ Forall is_byte b | None => True end) as Harr.
  { intros [b|]; [|done]. cbn [array16 mbind option_bind]. unfold sixteen_bytes. destruct (_ && _) eqn:Hb; [|done]. apply andb_true_iff in Hb as [Hl Hb]. split; [lia|]. rewrite forallb_forall in Hb. apply Forall_forall. intros x Hx%list_elem_of_In.
    specialize (Hb x Hx). unfold between, is_byte in *. lia. }
  destruct c; cbn [rrespond rlegal snd]; try done; try apply Harr.
  - destruct (w_fault (rw_user w)); cbn [faulty snd]; try done. unfold sql_claim_event. destruct (first_by _ _) as [[e r]|]; [|done]. by destruct (check_outbox _ _).
  - cbn [rcall_ok] in Hc. pose proof (user_respond_legal (user_world w d) (users d) c (ui_db _ _ (ri_user _ _ Hinv)) (call_ok_valid _ _ Hc)) as Hl.
    assert (stream_legal c (respond (user_world w d) (users d) c).2) as Hs; [|destruct (respond _ _ _) as [v r]; by split].
    destruct c; try done.
    + cbn [rcall_ok call_ok] in Hc. destruct Hc as (m & ev & Hrec & -> & -> & ->). destruct (received_row t m ev Ht Hrec) as (r & Hr & Hp & Hrs & _). pose proof (apply_agrees (w_now (rw_user w)) (ev_ID ev) r Hr) as Hn. rewrite Hp, Hrs in Hn. cbn [respond stream_legal w_fault w_now user_world] in *. by destruct (w_fault (rw_user w)).
    + cbn [respond stream_legal w_message user_world snd]. unfold delivered. destruct (stream d !! rw_delivery w) as [x|] eqn:Hx; [|done]. cbn [mbind option_bind msg_Subject msg_Data].
      apply list_elem_of_lookup_2 in Hx. destruct (ro_stream _ (ri_ok _ _ Hinv) x Hx) as (e & r & Hr & ->). split; [done|]. destruct (ro_rows _ (ri_ok _ _ Hinv) e r Hr) as [[(ev & Hu & _) _] _]. by exists ev.
Qed.
End facts.

Lemma reg_inv_start : reg_inv (mkRegDb ∅ ∅ [] ∅ (mkUserDb ∅ ∅ ∅ ∅)) [].
Proof.
  split; [apply reg_ok_start|apply user_inv_start|..].
  - by intros ? ? ?%elem_of_nil.
  - cbn. intros s [? Hs]. by rewrite lookup_empty in Hs.
  - cbn. set_solver.
Qed.

(** The calls of auth leave the user service alone. *)
Lemma auth_calls w d c : (exists u, c = UserCall u) \/ users (rrespond w d c).1 = users d /\ acked (rrespond w d c).1 = acked d /\ forall r, user_trace [existT c r] = [].
Proof.
  destruct c; first [by left; eexists|right; split_and!; [| |done]]; cbn [rrespond]; try done; destruct (w_fault (rw_user w)); try done.
  all: try (unfold sql_create_credential; repeat case_match; done).
  all: try (unfold sql_update_digest; repeat case_match; done).
  all: try (unfold sql_create_registration, sql_create_credential, sql_insert_event; repeat case_match; simplify_eq; done).
  all: try (unfold sql_ensure, sql_insert_event; repeat case_match; simplify_eq; done).
  all: try (unfold publish; repeat case_match; simplify_eq; done).
  all: try (unfold sql_claim_event; repeat case_match; done).
  all: try (unfold sql_mark, sql_retry_event, update_leased; repeat case_match; done).
  all: try (unfold sql_replay; repeat case_match; done).
Qed.

Lemma reg_inv_grown d ts : reg_inv d ts -> reg_inv d (ts ++ [[]]).
Proof.
  intros [R1 R2 R3 R4 R5]. split; [done| | | |done].
  - rewrite fmap_app. by apply user_inv_grown.
  - intros t x [Ht|Ht%list_elem_of_singleton]%elem_of_app; [by apply R3|subst t; by intros ?%elem_of_nil].
  - intros s Hs. destruct (R4 s Hs) as [?|(t & i & p & n & Ht & Hd)]; [by left|right]. exists t, i, p, n. split; [apply elem_of_app; by left|done].
Qed.

Lemma reg_inv_call w d ts i t c : reg_inv d ts -> ts !! i = Some t -> rcall_ok t c ->
  reg_inv (rrespond w d c).1 (<[i := t ++ [existT c (rrespond w d c).2]]> ts).
Proof.
  intros Hinv Hi Hc. pose proof Hinv as [R1 R2 R3 R4 R5]. assert (t ∈ ts) as Ht by (by eapply list_elem_of_lookup_2). pose proof (known_call d ts Hinv t c Ht Hc) as Hk.
  destruct (respond_advances w d c R1 Hk) as [A1 A2 A3 A4]. set (d' := (rrespond w d c).1) in *. set (e := existT c (rrespond w d c).2) in *. pose proof (grown_call ts i t e Hi) as Hg.
  assert (user_inv (users d') (user_trace <$> <[i := t ++ [e]]> ts) /\ later (users d) (users d')) as [Huser Hlater].
  { assert ((user_trace <$> ts) !! i = Some (user_trace t)) as Hui by (by rewrite list_lookup_fmap, Hi). rewrite list_fmap_insert, user_trace_app.
    destruct (auth_calls w d c) as [[u Hu]|(Hsame & _ & Hnone)].
    - subst c. cbn [rcall_ok] in Hc. pose proof (user_inv_call (user_world w d) (users d) (user_trace <$> ts) i (user_trace t) u R2 Hui Hc) as Hinv'.
      pose proof (user_call_follows (user_world w d) (users d) (user_trace <$> ts) (user_trace t) u R2 Hc) as [_ Hl]. subst d' e. cbn [rrespond user_trace] in *. destruct (respond (user_world w d) (users d) u) as [v r] eqn:Hr. cbn [fst snd] in *.
      assert (users (on_ack (w_fault (rw_user w)) u (set_users d v)) = v) as -> by (by destruct u, (w_fault (rw_user w))). split; done.
    - subst d' e. rewrite Hsame, Hnone, app_nil_r, list_insert_id by done. split; [done|apply user_later_refl]. }
  split; [done|done|..].
  - intros t0 x Ht0 Hx. destruct (call_event ts i t e Hi t0 x Ht0 Hx) as [(t1 & Ht1 & Hx1)| ->]; [eapply shows_grows; [exact A2|by eapply R3]|done].
  - intros s Hs. destruct (A4 s Hs) as [Hold|[Hq|(ident & p & Hcc)]]; [|by left|].
    + destruct (R4 s Hold) as [Hq|(t0 & ident & p & n & Ht0 & Hd)]; [left; by eapply queued_grows|right]. destruct (Hg t0 Ht0) as (t1 & Ht1 & Hs1). exists t1, ident, p, n. split; [done|by apply Hs1].
    + right. subst c. exists (t ++ [e]), ident, p, (rrespond w d (SqlCreateCredential s ident p)).2. split; [eapply list_elem_of_lookup_2, list_lookup_insert_eq; by eapply lookup_lt_Some|set_solver].
  - assert (forall q, (exists n m ev, q = Z.of_nat n + 1 /\ stream d !! n = Some m /\ Unmarshal (sm_data m) = Ok ev /\ is_Some (profiles (users d) !! ev_Subject ev)) ->
      exists n m ev, q = Z.of_nat n + 1 /\ stream d' !! n = Some m /\ Unmarshal (sm_data m) = Ok ev /\ is_Some (profiles (users d') !! ev_Subject ev)) as Hkeep.
    { intros q (n & m & ev & -> & Hm & Hu & [r Hr]). destruct (gr_stream _ _ A2) as [l Hl]. destruct (la_profiles _ _ Hlater _ _ Hr) as (r' & Hr' & _). exists n, m, ev. split_and!; try done; rewrite Hl; by apply lookup_app_l_Some. }
    intros q Hq. assert (q ∈ acked d \/ c = UserCall (MsgAck q)) as [Hold| ->].
    { subst d'. destruct (auth_calls w d c) as [[u ->]|(_ & Hsame & _)]; [|left; by rewrite <- Hsame]. cbn [rrespond] in Hq. destruct (respond _ _ _) as [v r]. destruct u; cbn [on_ack fst] in Hq; try (left; exact Hq).
      destruct (w_fault (rw_user w)); cbn in Hq; [|by left|]; apply elem_of_union in Hq as [->%elem_of_singleton|?]; auto. }
    + by apply Hkeep, R5.
    + apply Hkeep. destruct Hc as (m & ev & b & Hrec & <- & Hd). destruct (received_row d ts Hinv t m ev Ht Hrec) as (r & Hr & Hp & Hs & n & x & Hx & Hm). exists n, x, ev. subst m. cbn in *.
      destruct (ui_applied _ _ R2 (user_trace t) _ _ _ _ (list_elem_of_fmap_2 _ _ _ Ht) Hd) as (y & Hy & Hsub & _). split_and!; [done|done|by apply Hrec|]. rewrite <- Hsub. by eapply (uo_inbox _ (ui_db _ _ R2)).
Qed.

Lemma reg_run_from s es s' : invariant rcall_ok rlegal ranswer_ok reg_inv s -> reg_run s es = Some s' -> invariant rcall_ok rlegal ranswer_ok reg_inv s'.
Proof.
  apply (run_invariant_from rrespond rprogram_of rcall_ok rlegal ranswer_ok reg_inv).
  - intros q. apply ver_rprogram.
  - intros w d ts t c Hi Ht Hc. by eapply reg_legal.
  - apply reg_inv_grown.
  - intros w d ts i t c Hi Ht Hc. by apply reg_inv_call.
Qed.

Lemma reg_run_ok es s : reg_run reg_start es = Some s -> invariant rcall_ok rlegal ranswer_ok reg_inv s.
Proof. apply reg_run_from. split; [apply reg_inv_start|]. by intros th ?%elem_of_nil. Qed.

(** ** Delivery *)

(** C21. Registrations reach the user service, and redelivery does no harm: every account
    has an event, unless it was created by a service without events; a row of the outbox
    is the event of a registered account; what is marked as published is in the stream;
    a message is acknowledged only when its account has a profile; only registered
    accounts have profiles; and however often and in whatever order the messages of the
    stream are delivered, the consumer never finds an event invalid or in conflict with
    another, and the accounts of the user service stay in order. *)
Theorem registrations_reach_users (es : list (event rrequest rworld)) (s : system rreply rrequest ranswer reg_db) :
  reg_run reg_start es = Some s ->
  (forall subject, is_Some (credentials (sys_db s) !! subject) -> queued (sys_db s) subject \/ exists t i p n, t ∈ traces s /\ rdid t (SqlCreateCredential subject i p) n) /\
  (forall e r, outbox (sys_db s) !! e = Some r -> is_Some (credentials (sys_db s) !! ob_subject r) /\ exists ev, Unmarshal (ob_payload r) = Ok ev /\ ev_ID ev = e /\ ev_Subject ev = ob_subject r) /\
  (forall e r, outbox (sys_db s) !! e = Some r -> published_at r <> None -> event_message e r ∈ stream (sys_db s)) /\
  (forall q, q ∈ acked (sys_db s) -> exists n m ev, q = Z.of_nat n + 1 /\ stream (sys_db s) !! n = Some m /\ Unmarshal (sm_data m) = Ok ev /\ is_Some (profiles (users (sys_db s)) !! ev_Subject ev)) /\
  (forall subject, is_Some (profiles (users (sys_db s)) !! subject) -> queued (sys_db s) subject) /\
  user_ok (users (sys_db s)) /\
  (forall th l, th ∈ sys_threads s -> th_request th = RegUser ReqConsume -> th_prog th = Ret (RegAnsUser (AnsOutcomes l)) -> accepted l).
Proof.
  intros [Hinv Hth]%reg_run_ok. pose proof Hinv as [R1 R2 R3 R4 R5]. split_and!; [done| |apply (ro_published _ R1)|done| |apply (ui_db _ _ R2)|].
  - intros e r Hr. destruct (ro_rows _ R1 e r Hr) as [[(ev & Hu & He & Hs & _) _] Hc]. split; [done|]. by exists ev.
  - intros subject [r Hr]. destruct (uo_registered _ (ui_db _ _ R2) subject r Hr) as (e & x & Hx & <-). destruct (ui_inbox _ _ R2 e x Hx) as (t & m & ev & (T & -> & HT)%list_elem_of_fmap & Hrec & He & Hs & _).
    destruct (received_row _ _ Hinv T m ev HT Hrec) as (row & Hrow & _ & Hsub & _). exists (ev_ID ev), row. split; [done|congruence].
  - intros th l Hin Hq Hp. specialize (Hth th Hin). rewrite Hq, Hp in Hth. by destruct Hth as [_ ?].
Qed.

(** ** The login *)


(** ** The reconciler *)

(** The options of the next page. *)
Definition next_page (o : Options) (r : Page_) : Options := mkOptions (NextCursor r) (Limit o) (ApplyEvents o) (ReplayPublished o).

Lemma Options_limit o after : Options_Validate o = Ok after -> 1 <= Limit o <= 1000.
Proof. unfold Options_Validate. rewrite guard_Ok. intros [Hl _]. lia. Qed.

Lemma cursor_subject o o' s after : Options_Validate o' = Ok after -> Limit o = Limit o' -> After o = base64_Encode s -> len s = 16 -> Forall is_byte s -> Options_Validate o = Ok s.
Proof.
  intros Hl%Options_limit He Ha Hs Hb. unfold Options_Validate. rewrite guard_Ok. split; [lia|]. rewrite Ha. rewrite bool_decide_false.
  - rewrite base64_round_trip by done. rewrite Hs, bool_decide_true by done. done.
  - intros Hn. pose proof (length_base64_Encode s) as Hlen. rewrite Hn, Hs in Hlen. done.
Qed.

(** What a finished page did. *)
Section page.
Context (d : reg_db) (ts : list rtrace) (Hinv : reg_inv d ts) (t : rtrace) (Ht : t ∈ ts) (o : Options) (after : bytes) (rows before : list scan_row) (r : Page_).
Context (Hv : Options_Validate o = Ok after) (Hd : rdid t (SqlScan after (Limit o)) (Some rows)) (Hl : Forall (fun r => len (sc_Subject r) = 16) rows) (Hp : processed o t rows r before).

Lemma page_row_queued row : ApplyEvents o = true -> row ∈ before -> queued d (sc_Subject row).
Proof.
  intros Ha Hrow. destruct (Missing row) eqn:Hm.
  - destruct (pc_rows _ _ _ _ _ Hp row Hrow Ha Hm) as (e & at_ & data & n & Hx). by apply (ri_shows _ _ Hinv _ _ Ht Hx).
  - pose proof (ri_shows _ _ Hinv _ _ Ht Hd) as [_ Hr]. apply Hr; [|done]. destruct (pc_prefix _ _ _ _ _ Hp) as [l ->]. apply elem_of_app. by left.
Qed.

Lemma page_cursor row : last before = Some row -> Options_Validate (next_page o r) = Ok (sc_Subject row) /\ row ∈ rows.
Proof.
  intros Hlast. assert (row ∈ before) as Hin by (apply last_Some in Hlast as [l ->]; set_solver). assert (row ∈ rows) as Hrow by (destruct (pc_prefix _ _ _ _ _ Hp) as [l ->]; apply elem_of_app; by left).
  split; [|done]. apply (cursor_subject _ o _ after Hv); [done|cbn; rewrite (pc_cursor _ _ _ _ _ Hp); unfold cursor_after; by rewrite Hlast| |].
  - rewrite Forall_forall in Hl. by apply Hl.
  - pose proof (ri_shows _ _ Hinv _ _ Ht Hd) as [_ Hr]. destruct (Hr row Hrow) as [Hc _]. by apply (ro_subjects _ (ri_ok _ _ Hinv)).
Qed.

Lemma page_start : last before = None -> Options_Validate (next_page o r) = Ok after.
Proof. intros Hlast. rewrite <- Hv. unfold Options_Validate, next_page. cbn. rewrite (pc_cursor _ _ _ _ _ Hp). unfold cursor_after. by rewrite Hlast. Qed.
End page.

(** The pages that start after a state see its accounts. *)
Definition sees (d0 : reg_db) (n : nat) (ts : list rtrace) : Prop :=
  forall i t after l rows, (n <= i)%nat -> ts !! i = Some t -> rdid t (SqlScan after l) (Some rows) -> covers (credentials d0) after l rows.

Lemma sees_run s es s' : invariant rcall_ok rlegal ranswer_ok reg_inv s -> reg_run s es = Some s' ->
  invariant rcall_ok rlegal ranswer_ok reg_inv s' /\ reg_grows (sys_db s) (sys_db s') /\ sees (sys_db s) (length (sys_threads s)) (traces s').
Proof.
  intros Hs Hrun. split; [by eapply reg_run_from|].
  apply (run_invariant_from rrespond rprogram_of rcall_ok rlegal ranswer_ok (fun d ts => reg_inv d ts /\ reg_grows (sys_db s) d /\ sees (sys_db s) (length (sys_threads s)) ts)) in Hrun as [(_ & Hg & Hsee) _]; [done|..].
  - intros q. apply ver_rprogram.
  - intros w d ts t c [Hi _] Ht Hc. by eapply reg_legal.
  - intros d ts (Hi & Hg & Hsee). split_and!; [by apply reg_inv_grown|done|]. intros i t after l rows Hn [Hl|[_ Hl]]%lookup_app_Some; [by eapply Hsee|]. apply list_elem_of_lookup_2, list_elem_of_singleton in Hl. subst t. by intros ?%elem_of_nil.
  - intros w d ts i t c (Hi & Hg & Hsee) Ht Hc. pose proof (reg_inv_call w d ts i t c Hi Ht Hc) as Hi'. pose proof (list_elem_of_lookup_2 _ _ _ Ht) as Hin.
    destruct (respond_advances w d c (ri_ok _ _ Hi) (known_call d ts Hi t c Hin Hc)) as [_ Hg' _ _]. split_and!; [done|by eapply reg_grows_trans|].
    intros j t' after l rows Hn [[<- [<- _]]|[_ Hj]]%list_lookup_insert_Some Hd; [|by eapply Hsee]. apply elem_of_app in Hd as [Hd|Hd%list_elem_of_singleton]; [by eapply Hsee|].
    pose proof (f_equal (@projT1 _ _) Hd) as He. cbn in He. subst c. apply (f_equal (fun x : sigT rreply => match x with existT (SqlScan _ _) r => r | _ => None end)) in Hd. cbn [rrespond] in Hd.
    destruct (w_fault (rw_user w)); try done. cbn [faulty snd] in Hd. injection Hd as ->. apply scan_covers. intros x [c Hx]. destruct (gr_credentials _ _ Hg x c Hx) as (c' & Hc' & _). by exists c'.
  - destruct Hs as [Hi Hth]. split; [|done]. split_and!; [done|apply reg_grows_refl|]. intros i t after l rows Hn Ht _. apply lookup_lt_Some in Ht. unfold traces in Ht. rewrite length_fmap in Ht. lia.
Qed.

(** C23. The reconciler leaves no gap and comes to an end: when a page that applies its
    changes is over, with or without an error, every account that was registered
    before it started and lies between its cursor and the cursor that it answers has
    an event, and so has every later one if the page says that it is the last; and a
    page without an error is the last or moves its cursor. *)
Theorem backfill_leaves_no_gap (es es' : list (event rrequest rworld)) (s s' : system rreply rrequest ranswer reg_db) (i : nat)
    (th : thread rreply rrequest ranswer) (o : Options) (x : Page_ * option reg_error) (after : bytes) :
  reg_run reg_start es = Some s -> reg_run s es' = Some s' -> (length (sys_threads s) <= i)%nat -> sys_threads s' !! i = Some th ->
  th_request th = RegPage o -> th_prog th = Ret (RegAnsPage x) -> ApplyEvents o = true -> Options_Validate o = Ok after ->
  (forall subject, is_Some (credentials (sys_db s) !! subject) -> bytes_before after subject = true ->
     Done x.1 = true \/ (exists cursor, Options_Validate (next_page o x.1) = Ok cursor /\ bytes_before cursor subject = false) -> queued (sys_db s') subject) /\
  (x.2 = None -> Done x.1 = true \/ exists cursor, Options_Validate (next_page o x.1) = Ok cursor /\ bytes_before after cursor = true).
Proof.
  intros Hrun Hrun' Hn Hi Hq Hp Ha Hv. apply reg_run_ok in Hrun. destruct (sees_run s es' s' Hrun Hrun') as ([Hinv Hth] & _ & Hsee).
  pose proof (list_elem_of_lookup_2 _ _ _ Hi) as Hin. pose proof (Hth th Hin) as Hpage. rewrite Hq, Hp in Hpage. assert (traces s' !! i = Some (th_trace th)) as Htr by (unfold traces; by rewrite list_lookup_fmap, Hi).
  pose proof (list_elem_of_lookup_2 _ _ _ Htr) as HT. pose proof (Options_limit o after Hv) as Hlim. cbn in Hpage. destruct Hpage as [((e & He) & Hc & Hd)|(after' & rows & before & Hv' & Hscan & Hl & Hpc & Hend)].
  { split; [|by rewrite He]. intros subject _ Hb [Hdone|(cursor & Hcur & Hle)]; [congruence|]. assert (Options_Validate (next_page o x.1) = Options_Validate o) as Hsame by (unfold Options_Validate, next_page; cbn; by rewrite Hc). rewrite Hsame, Hv in Hcur. injection Hcur as <-. congruence. }
  assert (after' = after) as -> by congruence. pose proof (ri_shows _ _ Hinv _ _ HT Hscan) as [Hshape _]. split.
  - intros subject Hs Hb Hto. destruct (Hsee i (th_trace th) after (Limit o) rows Hn Htr Hscan subject Hs Hb) as [(row & Hrow & <-)|[Hfull Hall]].
    + eapply page_row_queued; try done. destruct Hto as [Hdone|(cursor & Hcur & Hle)]; [destruct x.2; [congruence|by destruct Hend as [-> _]]|]. destruct (last before) as [k|] eqn:Hlast.
      * destruct (page_cursor _ _ Hinv _ HT o after rows before x.1 Hv Hscan Hl Hpc k Hlast) as [Hk _]. rewrite Hk in Hcur. injection Hcur as <-. destruct (pc_prefix _ _ _ _ _ Hpc) as [rest Hrest]. rewrite Hrest in Hrow. apply elem_of_app in Hrow as [?|Hrow]; [done|exfalso].
        pose proof (ps_sorted _ _ _ Hshape) as Hsort. rewrite Hrest in Hsort. apply StronglySorted_split in Hsort as [_ Hsort]. assert (k ∈ before) as Hkb by (apply last_Some in Hlast as [l ->]; set_solver). pose proof (Hsort k row Hkb Hrow) as Hlt. unfold row_before in Hlt. congruence.
      * rewrite (page_start (th_trace th) o after rows before x.1 Hv Hpc Hlast) in Hcur. injection Hcur as <-. congruence.
    + exfalso. destruct Hto as [Hdone|(cursor & Hcur & Hle)]; [destruct x.2; [congruence|destruct Hend as [_ Hend]; rewrite Hdone in Hend; lia]|]. destruct (last before) as [k|] eqn:Hlast.
      * destruct (page_cursor _ _ Hinv _ HT o after rows before x.1 Hv Hscan Hl Hpc k Hlast) as [Hk Hkr]. rewrite Hk in Hcur. injection Hcur as <-. pose proof (Hall k Hkr). congruence.
      * rewrite (page_start (th_trace th) o after rows before x.1 Hv Hpc Hlast) in Hcur. injection Hcur as <-. congruence.
  - intros Hnone. rewrite Hnone in Hend. destruct Hend as [-> Hend]. destruct (Done x.1) eqn:Hdone; [by left|right]. destruct (last rows) as [k|] eqn:Hlast.
    + destruct (page_cursor _ _ Hinv _ HT o after rows rows x.1 Hv Hscan Hl Hpc k Hlast) as [Hk Hkr]. exists (sc_Subject k). split; [done|by apply (ps_after _ _ _ Hshape)].
    + apply last_None in Hlast. subst rows. symmetry in Hend. apply Z.ltb_ge in Hend. change (len (@nil scan_row)) with 0 in Hend. lia.
Qed.
End runs.
