(* ===== verification/RegistrationDelivery.v ===== *)
(** * Registration: delivery in a healthy environment

    The publisher and the consumer when nothing fails: the delays between attempts, the
    batch that publishes every event that is due, and the message that creates a
    profile. *)

From S2P Require Import Prelude GoStrings GoUnicode AuthDomain GoText Sha256 GoEncoding Effects UserDomain RegistrationWire RegistrationCodec UserStore UserService UserBooks UserHistory UserGuards UserRuns RegistrationStore RegistrationService RegistrationGuards RegistrationHistory RegistrationRuns.
Local Open Scope Z_scope.

(** ** Delays *)

Lemma worker_New_Ok c0 c : worker_New c0 = Ok c ->
  LeaseDuration c <= 3600 * Second /\ Millisecond <= RetryInitial c <= RetryMax c /\ RetryMax c <= 24 * 3600 * Second /\ 1 <= BatchSize c <= 1024.
Proof. unfold worker_New. rewrite guard_Ok. intros [Hg [= <-]]. split_and!; lia. Qed.

Lemma pow_step r : 0 < r -> 2 ^ r = 2 * 2 ^ (r - 1).
Proof. intros. rewrite <- Z.pow_succ_r by lia. f_equal. lia. Qed.

Lemma backoff_loop_spec c fuel : RetryMax c < 2 ^ 62 -> forall remaining delay, 0 < delay <= RetryMax c -> RetryMax c < delay * 2 ^ Z.of_nat fuel ->
  backoff_loop fuel c remaining delay = Z.min (delay * 2 ^ Z.max remaining 0) (RetryMax c).
Proof.
  intros Hmax. induction fuel as [|fuel IH]; intros remaining delay Hd Hf; cbn [backoff_loop]; destruct ((0 <? remaining) && (delay <? RetryMax c)) eqn:Hg.
  - change (2 ^ Z.of_nat 0) with 1 in Hf. lia.
  - apply andb_false_iff in Hg as [Hg|Hg]; [rewrite Z.max_r by lia; change (2 ^ 0) with 1; lia|]. assert (1 <= 2 ^ Z.max remaining 0) by (apply (Z.pow_le_mono_r 2 0); lia). nia.
  - apply andb_true_iff in Hg as [Hg Hlt]. rewrite Z.max_l by lia. assert (1 <= 2 ^ (remaining - 1)) by (apply (Z.pow_le_mono_r 2 0); lia). rewrite (pow_step remaining) by lia. destruct (Z.ltb_spec (RetryMax c / 2) delay) as [Hh|Hh].
    + assert (RetryMax c < 2 * delay) by (pose proof (Z.div_mod (RetryMax c) 2 ltac:(lia)); pose proof (Z.mod_pos_bound (RetryMax c) 2 ltac:(lia)); lia). nia.
    + assert (2 * delay <= RetryMax c) by (pose proof (Z.div_mod (RetryMax c) 2 ltac:(lia)); pose proof (Z.mod_pos_bound (RetryMax c) 2 ltac:(lia)); lia).
      rewrite i64_small by lia. rewrite IH; [|lia|]; [rewrite Z.max_l by lia; f_equal; lia|]. rewrite Nat2Z.inj_succ, Z.pow_succ_r in Hf by lia. lia.
  - apply andb_false_iff in Hg as [Hg|Hg]; [rewrite Z.max_r by lia; change (2 ^ 0) with 1; lia|]. assert (1 <= 2 ^ Z.max remaining 0) by (apply (Z.pow_le_mono_r 2 0); lia). nia.
Qed.

(** The delay before the next attempt doubles from the initial one up to the
    maximum, without overflow and whatever the number of attempts, and the store never
    refuses it. *)
Theorem retries_back_off (c0 c : PubConfig) (attempt : Z) :
  worker_New c0 = Ok c -> 1 <= attempt ->
  publish_backoff c attempt = Z.min (RetryInitial c * 2 ^ (attempt - 1)) (RetryMax c) /\ Millisecond <= publish_backoff c attempt <= 24 * 3600 * Second.
Proof.
  intros (_ & Hi & Hm & _)%worker_New_Ok Ha. unfold publish_backoff. change Millisecond with 1000000 in *. change (24 * 3600 * Second) with 86400000000000 in *.
  rewrite backoff_loop_spec; [|change (2 ^ 62) with 4611686018427387904; lia|lia|change (2 ^ Z.of_nat 32) with 4294967296; lia]. rewrite Z.max_l by lia. split; [done|]. assert (1 <= 2 ^ (attempt - 1)) by (apply (Z.pow_le_mono_r 2 0); lia). nia.
Qed.

Definition sample_pub_config : PubConfig := mkPubConfig 0 0 0 0 0 0.
Lemma retries_back_off_witness : exists c, worker_New sample_pub_config = Ok c /\ publish_backoff c 4 = 8 * Second.
Proof.
  eexists. split; [reflexivity|]. refine (eq_trans (proj1 (retries_back_off sample_pub_config _ 4 eq_refl ltac:(lia))) _). reflexivity.
Defined.

(** A lease of less than a millisecond is accepted by [New], and refused by every
    [Claim]. *)
Example short_lease_claims_nothing : exists c, worker_New (mkPubConfig 2 1 0 0 0 0) = Ok c /\ outbox_Claim (LeaseDuration c) = reg_ctx (Ret (Err EInvalid)).
Proof. eexists. split; reflexivity. Qed.

(** ** Programs in a healthy world *)

Section healthy.
Context `{EventLaws, UnicodeTables}.

Record healthy (w : rworld) (token : bytes) : Prop := mkHealthy {
  hw_fault : w_fault (rw_user w) = Healthy;
  hw_running : w_canceled (rw_user w) = false;
  hw_random : w_random (rw_user w) = Some token;
  hw_sixteen : sixteen_bytes token = true;
  hw_nonzero : token <> zero16;
  hw_locked : forall e, rw_locked w e = false;
  hw_open : rw_closed w = false;
  hw_connected : rw_connected w = true
}.

Abbreviation alone := (run_alone rrespond).

Section world.
Context (w : rworld) (token : bytes) (Hw : healthy w token).
Let now := w_now (rw_user w).

Lemma alone_ctx {A} d (p : rprog (result reg_error A)) : alone w d (reg_ctx p) = alone w d p.
Proof. cbn. by rewrite (hw_running _ _ Hw). Qed.
Lemma alone_unless_done {A} d (p : rprog (list A)) : alone w d (unless_done p) = alone w d p.
Proof. cbn. by rewrite (hw_running _ _ Hw). Qed.
Lemma alone_try {A B} d (p : rprog (result reg_error A)) (f : A -> rprog (result reg_error B)) d' a : alone w d p = (d', Ok a) -> alone w d (try p f) = alone w d' (f a).
Proof. intros Hp. unfold try. by rewrite run_alone_bind, Hp. Qed.

Lemma token_ok : len token = 16 /\ id_ok token = true /\ is_zero token = false.
Proof.
  pose proof (hw_sixteen _ _ Hw) as Hs. unfold sixteen_bytes in Hs. apply andb_true_iff in Hs as [Hl _]. split; [lia|]. unfold id_ok, is_zero. rewrite Hl, bool_decide_false by apply (hw_nonzero _ _ Hw). done.
Qed.

(** The rows that are due. *)
Definition due_rows (d : reg_db) : gmap bytes outbox_row := filter (fun x => ob_due now x.2 = true) (outbox d).

Definition record_of (e : bytes) (r : outbox_row) : Record_ := mkRecord e token (ob_payload r) (Z.min (ob_attempts r) 2147483646 + 1) (occurred_at r).

(** What is stored about an event. *)
Lemma row_facts d e r : reg_ok d -> outbox d !! e = Some r ->
  id_ok e = true /\ id_ok (ob_subject r) = true /\ 1 <= len (ob_payload r) <= 8192 /\ 0 <= ob_attempts r /\ occurred_at r <> zero_time /\ ValidatePayload (ob_payload r) e = Ok tt /\
  exists ev, Unmarshal (ob_payload r) = Ok ev /\ ev_ID ev = e /\ ev_Subject ev = ob_subject r.
Proof.
  intros Hok Hr. destruct (ro_rows _ Hok e r Hr) as [[(ev & Hu & He & Hs & Ho & _) Hc] _]. unfold check_outbox in Hc. rewrite !andb_true_iff in Hc. destruct Hc as ((((H1' & H2') & H3') & H4') & _). unfold between in H3'.
  destruct (unmarshal_marshal _ _ Hu) as [Hm _]. unfold Marshal in Hm. destruct (Event_Validate ev) as [[]| |] eqn:Hv; try done. apply Event_Validate_Ok in Hv as (_ & _ & Ht & _). split_and!; try done; try lia.
  - rewrite <- Ho. unfold zero_time. lia.
  - unfold ValidatePayload. rewrite Hu. cbn [mbind result_bind]. by rewrite bool_decide_true.
  - by exists ev.
Qed.

Lemma alone_claim d lease : reg_ok d -> Millisecond <= lease <= 3600 * Second ->
  (alone w d (outbox_Claim lease) = (d, Ok None) /\ due_rows d = ∅) \/
  exists e r, outbox d !! e = Some r /\ ob_due now r = true /\
    alone w d (outbox_Claim lease) = (set_outbox d (<[e := claimed_row now (lease / 1000 * 1000) token r]> (outbox d)), Ok (Some (record_of e r))).
Proof.
  intros Hok Hl. destruct token_ok as (Ht16 & Htid & Htz). unfold outbox_Claim. rewrite alone_ctx. rewrite (proj2 (orb_false_iff _ _)) by lia. cbn [refuse]. cbn -[sql_claim_event decode_record]. unfold array16. rewrite (hw_random _ _ Hw). cbn -[sql_claim_event decode_record]. rewrite (hw_sixteen _ _ Hw). cbn -[sql_claim_event decode_record].
  rewrite (hw_fault _ _ Hw). cbn [faulty]. fold now. unfold sql_claim_event. destruct (first_by _ _) as [[e r]|] eqn:Hf.
  - right. apply first_by_in, list_elem_of_In, filter_In in Hf as [Hin Hd]. apply list_elem_of_In, elem_of_map_to_list in Hin. apply andb_true_iff in Hd as [Hd _]. destruct (row_facts d e r Hok Hin) as (He & Hs & Hp & Ha & Ho & _). exists e, r. split_and!; [done|done|].
    assert (check_outbox e (claimed_row now (lease / 1000 * 1000) token r) = true) as -> by (unfold check_outbox, claimed_row, lease_ok, between; cbn; rewrite He, Hs, Htid; lia). cbn [fst snd ob_attempts claimed_row]. f_equal. unfold decode_record, record_of. cbn [r_ID r_LeaseToken Payload r_Attempts r_OccurredAt].
    unfold id_ok in He. apply andb_true_iff in He as [Hel Hez]. rewrite !guard_Ok. split; [|split; [|done]].
    + rewrite Hel, Ht16. cbn [negb orb]. rewrite (proj2 (Z.eqb_neq _ _) Ho). lia.
    + unfold is_zero. apply negb_true_iff in Hez. rewrite Hez, bool_decide_true by done. done.
  - left. split; [done|]. apply first_by_None in Hf. apply map_empty. intros e. destruct (due_rows d !! e) as [r|] eqn:He; [|done]. exfalso. apply map_lookup_filter_Some in He as [Hr Hd]. cbn in Hd.
    assert ((e, r) ∈ List.filter (fun x => ob_due now x.2 && negb (rw_locked w x.1)) (map_to_list (outbox d))) as Hin; [|rewrite Hf in Hin; by apply elem_of_nil in Hin].
    apply list_elem_of_In, filter_In. split; [by apply list_elem_of_In, elem_of_map_to_list|]. cbn. by rewrite Hd, (hw_locked _ _ Hw).
Qed.

Lemma alone_Publish d e r : reg_ok d -> outbox d !! e = Some r -> forall r0, ob_payload r0 = ob_payload r ->
  alone w d (Publish (record_of e r0)) = ((publish (rw_deduplicates w) d (event_message e r)).1, Ok tt).
Proof.
  intros Hok Hr r0 Hp. destruct (row_facts d e r Hok Hr) as (He & _ & Hl & _ & _ & Hv & _). destruct (publish_ok (rw_deduplicates w) d e r Hok Hr) as (_ & _ & _ & Hseq).
  assert (message_for (record_of e r0) = event_message e r) as Hm by (unfold message_for, event_message; cbn; by rewrite Hp). unfold Publish. rewrite alone_ctx. unfold id_ok in He. apply andb_true_iff in He as [_ Hz%negb_true_iff]. unfold is_zero. cbn [record_of r_ID Payload]. rewrite Hp, Hz.
  cbn -[publish message_for ValidatePayload]. rewrite (hw_open _ _ Hw). cbn -[publish message_for ValidatePayload]. rewrite (proj2 (orb_false_iff _ _)) by lia. cbn -[publish message_for ValidatePayload]. unfold try. cbn -[publish message_for ValidatePayload]. rewrite Hv. cbn -[publish message_for].
  rewrite (hw_connected _ _ Hw). cbn -[publish message_for]. rewrite (hw_open _ _ Hw). cbn -[publish message_for]. fold (record_of e r0). rewrite Hm. destruct (publish _ _ _) as [d' seq]. cbn [fst snd] in *. rewrite (hw_fault _ _ Hw). cbn. rewrite (hw_running _ _ Hw). cbn. rewrite (proj2 (Z.eqb_neq _ _)) by lia. done.
Qed.

(** The row once its event is published. *)
Definition marked_row (r : outbox_row) : outbox_row :=
  mkOutboxRow (ob_subject r) (occurred_at r) (ob_payload r) (Z.min (ob_attempts r) 2147483646 + 1) (ob_next_attempt_at r) None (Some (pg_time now)).

Lemma alone_Mark d lease e r : Millisecond <= lease -> id_ok e = true -> published_at r = None -> outbox d !! e = Some (claimed_row now (lease / 1000 * 1000) token r) ->
  alone w d (MarkPublished (record_of e r)) = (set_outbox d (<[e := marked_row r]> (outbox d)), Ok true).
Proof.
  intros Hl He Hp Hr. destruct token_ok as (_ & _ & Hz). unfold id_ok in He. apply andb_true_iff in He as [_ He%negb_true_iff]. unfold MarkPublished, recorded. rewrite alone_ctx. unfold is_zero in *. cbn [record_of r_ID r_LeaseToken]. rewrite He, Hz. cbn -[sql_mark].
  rewrite (hw_fault _ _ Hw). fold now. cbn [faulty]. unfold sql_mark, update_leased. rewrite Hr. unfold ob_leased. cbn [claimed_row ob_lease published_at]. rewrite Hp, !bool_decide_true by done. change Millisecond with 1000000 in Hl.
  assert (now < pg_time now + lease / 1000 * 1000) as Hlt.
  { unfold pg_time. pose proof (Z.mod_pos_bound now 1000 ltac:(lia)). pose proof (Z.div_mod now 1000 ltac:(lia)). pose proof (Z.mod_pos_bound lease 1000 ltac:(lia)). pose proof (Z.div_mod lease 1000 ltac:(lia)). lia. }
  rewrite (proj2 (Z.ltb_lt _ _) Hlt). done.
Qed.

(** What the publication of events does to the databases. *)
Record publishes (d d' : reg_db) : Prop := mkPublishes {
  pb_ok : reg_ok d';
  pb_grows : reg_grows d d';
  pb_users : users d' = users d;
  pb_kept : forall e r, outbox d !! e = Some r -> published_at r <> None -> exists r', outbox d' !! e = Some r' /\ published_at r' <> None
}.

Lemma publishes_trans d1 d2 d3 : publishes d1 d2 -> publishes d2 d3 -> publishes d1 d3.
Proof.
  intros [O1 G1 U1 K1] [O2 G2 U2 K2]. split; [done|by eapply reg_grows_trans|congruence|]. intros e r Hr Hp. destruct (K1 e r Hr Hp) as (r' & Hr' & Hp'). by eapply K2.
Qed.

Lemma outbox_publish b d m : outbox (publish b d m).1 = outbox d /\ users (publish b d m).1 = users d.
Proof. unfold publish. by destruct (list_find _ _) as [[]|]; [destruct b|]. Qed.

(** One round of the worker. *)
Lemma alone_round c n d : reg_ok d -> Millisecond <= LeaseDuration c <= 3600 * Second ->
  (alone w d (batch_claims c (S n)) = (d, []) /\ due_rows d = ∅) \/
  exists e r d', due_rows d !! e = Some r /\ publishes d d' /\ due_rows d' = delete e (due_rows d) /\ event_message e r ∈ stream d' /\ (exists r', outbox d' !! e = Some r' /\ published_at r' <> None) /\
    alone w d (batch_claims c (S n)) = ((alone w d' (batch_claims c n)).1, OutcomePublished :: (alone w d' (batch_claims c n)).2).
Proof.
  intros Hok Hl. cbn [batch_claims]. rewrite alone_unless_done, run_alone_bind. destruct (alone_claim d (LeaseDuration c) Hok Hl) as [[Hrun Hnone]|(e & r & Hr & Hdue & Hrun)]; rewrite Hrun; cbn [fst snd].
  { left. by rewrite alone_unless_done. }
  right.
  set (r1 := claimed_row now (LeaseDuration c / 1000 * 1000) token r) in *. set (d1 := set_outbox d (<[e := r1]> (outbox d))) in *. destruct (row_facts d e r Hok Hr) as (He & _). pose proof (row_of_due now e r d Hok Hr Hdue) as Hp.
  assert (reg_ok d1 /\ reg_grows d d1) as [Hok1 Hg1].
  { apply (row_update_ok d Hok e r r1); try done; [|by left]. destruct (row_checked d e r Hok Hr) as [Hc Ha]. apply (check_outbox_same e r); try done; [cbn; lia|apply token_ok]. }
  assert (outbox d1 !! e = Some r1) as Hr1 by apply lookup_insert_eq.
  destruct (publish_ok (rw_deduplicates w) d1 e r1 Hok1 Hr1) as (Hok2 & Hg2 & Hin & _). destruct (outbox_publish (rw_deduplicates w) d1 (event_message e r1)) as [Ho2 Hu2]. set (d2 := (publish (rw_deduplicates w) d1 (event_message e r1)).1) in *.
  set (d3 := set_outbox d2 (<[e := marked_row r]> (outbox d2))). exists e, r, d3.
  assert (reg_ok d3 /\ reg_grows d2 d3) as [Hok3 Hg3].
  { apply (row_update_ok d2 Hok2 e r1 (marked_row r)); try done; [by rewrite Ho2| |by right]. destruct (row_checked d e r Hok Hr) as [Hc Ha]. apply (check_outbox_same e r); try done. cbn. lia. }
  assert (outbox d3 = <[e := marked_row r]> (outbox d)) as Ho3 by (cbn [d3 outbox set_outbox]; rewrite Ho2; cbn [d1 outbox set_outbox]; by rewrite insert_insert_eq).
  split_and!; try done.
  - by apply map_lookup_filter_Some.
  - split; [done|by eapply reg_grows_trans, reg_grows_trans|exact Hu2|]. intros e' y Hy Hpy. rewrite Ho3. destruct (decide (e' = e)) as [->|Hne]; [exists (marked_row r); by rewrite lookup_insert_eq|exists y; by rewrite lookup_insert_ne].
  - unfold due_rows. rewrite Ho3. apply map_eq. intros x. destruct (decide (x = e)) as [->|Hne].
    + rewrite lookup_delete_eq. apply map_lookup_filter_None. right. intros y. rewrite lookup_insert_eq. by intros [= <-].
    + rewrite lookup_delete_ne by done. apply option_eq. intros y. rewrite !map_lookup_filter_Some, lookup_insert_ne by done. done.
  - exists (marked_row r). split; [rewrite Ho3; apply lookup_insert_eq|done].
  - rewrite alone_unless_done, run_alone_bind, (alone_Publish d1 e r1 Hok1 Hr1 r eq_refl). cbn [fst snd]. fold d2. rewrite run_alone_bind. cbn [run_alone Effects.perform rrespond fst snd]. rewrite (hw_running _ _ Hw), alone_unless_done, run_alone_bind.
    rewrite (alone_Mark d2 (LeaseDuration c) e r); [|lia|done|done|by rewrite Ho2]. cbn [fst snd]. by rewrite alone_unless_done, run_alone_bind.
Qed.

(** The whole loop. *)
Lemma alone_claims c : Millisecond <= LeaseDuration c <= 3600 * Second -> forall n d, reg_ok d -> (size (due_rows d) <= n)%nat ->
  let x := alone w d (batch_claims c n) in
  x.2 = replicate (size (due_rows d)) OutcomePublished /\ due_rows x.1 = ∅ /\ publishes d x.1 /\
  forall e r, due_rows d !! e = Some r -> event_message e r ∈ stream x.1 /\ exists r', outbox x.1 !! e = Some r' /\ published_at r' <> None.
Proof.
  intros Hl. assert (forall d, reg_ok d -> due_rows d = ∅ -> (@nil PubOutcome) = replicate (size (due_rows d)) OutcomePublished /\ due_rows d = ∅ /\ publishes d d /\
    forall e r, due_rows d !! e = Some r -> event_message e r ∈ stream d /\ exists r', outbox d !! e = Some r' /\ published_at r' <> None) as Hstop.
  { intros d Hok He. rewrite He. split_and!; [done|done| |by intros e r Hx; rewrite lookup_empty in Hx]. split; [done|apply reg_grows_refl|done|]. intros e r Hr Hp. by exists r. }
  induction n as [|n IH]; intros d Hok Hn.
  - cbn. apply Hstop; [done|]. apply map_size_empty_inv. lia.
  - cbv zeta. destruct (alone_round c n d Hok Hl) as [[-> He]|(e & r & d' & Hr & Hpub & Hdel & Hin & Hmark & ->)]; [by apply Hstop|]. cbn [fst snd].
    assert (size (due_rows d) = S (size (due_rows d'))) as Hsize by (rewrite Hdel, map_size_delete_Some by (by eexists); pose proof (map_size_ne_0_lookup_2 (due_rows d) e (ex_intro _ r Hr)); lia).
    destruct (IH d' (pb_ok _ _ Hpub)) as (Hx & Hd & Hp & Hall); [lia|]. rewrite Hx, Hsize. split_and!; [done|done|by eapply publishes_trans|]. intros e' r' Hr'. destruct (decide (e' = e)) as [->|Hne].
    + assert (r' = r) as -> by congruence. split; [destruct (gr_stream _ _ (pb_grows _ _ Hp)) as [l ->]; apply elem_of_app; by left|]. destruct Hmark as (y & Hy & Hyp). by eapply (pb_kept _ _ Hp).
    + apply Hall. by rewrite Hdel, lookup_delete_ne.
Qed.

Lemma alone_batch c d : alone w d (batch c) = alone w d (batch_claims c (Z.to_nat (BatchSize c))).
Proof.
  unfold batch. rewrite alone_unless_done, run_alone_bind. unfold outbox_Pending. rewrite alone_ctx. cbn -[batch_claims unless_done sql_pending]. rewrite (hw_fault _ _ Hw). cbn -[batch_claims unless_done sql_pending]. rewrite alone_unless_done, run_alone_bind. cbn. by destruct (run_alone _ _ _ _).
Qed.

(** The delivery of a message of the stream. *)
Lemma profile_projected u subject t : is_Some (profiles (sql_project t u subject) !! subject).
Proof. unfold sql_project. destruct (profiles u !! subject) as [r|] eqn:Hr; [by rewrite Hr; eexists|]. cbn. rewrite lookup_insert_eq. by eexists. Qed.

Lemma alone_apply d e r : id_ok e = true -> id_ok (ob_subject r) = true -> (sql_apply now (users d) e (ob_subject r) (sha256_Sum (ob_payload r))).2 <> NoRows ->
  exists v b, sql_apply now (users d) e (ob_subject r) (sha256_Sum (ob_payload r)) = (v, Scanned b) /\ is_Some (profiles v !! ob_subject r).
Proof.
  intros He Hs Hn. unfold sql_apply in *. rewrite He, Hs in *. unfold len in *. rewrite length_sha256_Sum in *. cbn [negb orb] in *. change (Z.of_nat 32 =? 32) with true in *. cbn [negb] in *. destruct (inbox (users d) !! e) as [x|].
  - destruct (_ && _); [|done]. eexists _, _. split; [reflexivity|]. apply profile_projected.
  - eexists _, _. split; [reflexivity|]. apply profile_projected.
Qed.

Lemma alone_consume d ts m : reg_inv d ts -> stream d !! rw_delivery w = Some m ->
  exists ev o d', Unmarshal (sm_data m) = Ok ev /\ (o = Applied \/ o = Duplicate) /\ Z.of_nat (rw_delivery w) + 1 ∈ acked d' /\ is_Some (profiles (users d') !! ev_Subject ev) /\ alone w d (lift consume) = (d', [o]).
Proof.
  intros Hinv Hm. pose proof (ri_ok _ _ Hinv) as Hok. destruct (ro_stream _ Hok m (list_elem_of_lookup_2 _ _ _ Hm)) as (e & r & Hr & ->). destruct (row_facts d e r Hok Hr) as (He & Hs & _ & _ & _ & _ & ev & Hu & Hid & Hsub).
  destruct (alone_apply d e r He Hs (apply_agrees _ _ Hinv now e r Hr)) as (v & b & Hap & Hprof). destruct (unmarshal_marshal _ _ Hu) as [Hmar _]. pose proof Hmar as Hv. unfold Marshal in Hv. destruct (Event_Validate ev) as [[]| |] eqn:Hval; try done. clear Hv.
  exists ev, (if b then Applied else Duplicate), (set_acked (set_users d v) ({[Z.of_nat (rw_delivery w) + 1]} ∪ acked d)). split_and!; [done|by destruct b; auto|set_solver|by rewrite Hsub|].
  unfold consume. cbn -[sql_apply Unmarshal handle]. unfold delivered. rewrite Hm. cbn -[sql_apply Unmarshal bool_decide event_type_v1]. rewrite (hw_running _ _ Hw). cbn -[sql_apply Unmarshal bool_decide event_type_v1]. rewrite bool_decide_true by done. cbn -[sql_apply Unmarshal]. rewrite Hu. unfold Apply, try. cbn -[sql_apply Marshal Event_Validate]. rewrite Hval. cbn -[sql_apply Marshal].
  rewrite (hw_running _ _ Hw). cbn -[sql_apply Marshal]. unfold store_Apply. rewrite Hmar. cbn -[sql_apply]. rewrite (hw_fault _ _ Hw). cbn -[sql_apply]. fold now. rewrite Hid, Hsub, Hap. cbn. rewrite (hw_running _ _ Hw). destruct b; cbn; rewrite (hw_fault _ _ Hw); done.
Qed.
End world.

(** A request that is made and served in a world. *)
Definition served (s : system rreply rrequest ranswer reg_db) (w : rworld) (q : rrequest) (a : ranswer) (s' : system rreply rrequest ranswer reg_db) : Prop :=
  exists n t, reg_run s (Start q :: replicate n (Call (length (sys_threads s)) w)) = Some s' /\ sys_threads s' = sys_threads s ++ [mkThread q (Ret a) t].

Lemma serve s w q : exists s', sys_db s' = (run_alone rrespond w (sys_db s) (rprogram_of q)).1 /\ served s w q (run_alone rrespond w (sys_db s) (rprogram_of q)).2 s'.
Proof.
  set (s1 := mkSystem (sys_db s) (sys_threads s ++ [mkThread q (rprogram_of q) []])). assert (sys_threads s1 !! length (sys_threads s) = Some (mkThread q (rprogram_of q) [])) as Hi by (cbn; rewrite lookup_app_r, Nat.sub_diag by lia; done).
  destruct (run_alone_reaches rrespond rprogram_of w s1 (length (sys_threads s)) _ Hi) as (n & t & Hrun). cbn [th_prog th_request sys_db s1] in Hrun. eexists. split; [|exists n, t; split].
  2: { unfold reg_run. cbn [sys_run sys_step mbind option_bind]. exact Hrun. }
  - done.
  - subst s1. cbn [sys_threads]. rewrite insert_app_r_alt, Nat.sub_diag by lia. done.
Qed.

(** The publisher gets through: whatever happened before, a batch in a world where
    nothing fails ends, publishes every event that is due, no more than its size, and
    marks them all, however many attempts they took; with a lease of a millisecond at
    least. *)
Theorem batch_publishes_everything_due (es : list (event rrequest rworld)) (s : system rreply rrequest ranswer reg_db) (w : rworld) (token : bytes) (c0 c : PubConfig) :
  reg_run reg_start es = Some s -> healthy w token -> worker_New c0 = Ok c -> Millisecond <= LeaseDuration c -> Z.of_nat (size (due_rows w (sys_db s))) <= BatchSize c ->
  exists s', served s w (RegBatch c) (RegAnsBatch (replicate (size (due_rows w (sys_db s))) OutcomePublished)) s' /\ due_rows w (sys_db s') = ∅ /\
    forall e r, outbox (sys_db s) !! e = Some r -> ob_due (w_now (rw_user w)) r = true ->
      event_message e r ∈ stream (sys_db s') /\ exists r', outbox (sys_db s') !! e = Some r' /\ published_at r' <> None.
Proof.
  intros [Hinv _]%reg_run_ok Hw Hc Hl Hn. apply worker_New_Ok in Hc as (Hl' & _ & _ & Hb). destruct (serve s w (RegBatch c)) as (s' & Hdb & Hs). cbn [rprogram_of] in Hdb, Hs. rewrite run_alone_bind, (alone_batch w token Hw) in Hdb, Hs.
  destruct (alone_claims w token Hw c (conj Hl Hl') (Z.to_nat (BatchSize c)) (sys_db s) (ri_ok _ _ Hinv) ltac:(lia)) as (Ha & Hdue & _ & Hall). rewrite Ha in Hdb, Hs. cbn [run_alone fst snd] in Hdb, Hs. exists s'. split; [exact Hs|]. rewrite Hdb. split; [exact Hdue|].
  intros e r Hr Hd. apply Hall. by apply map_lookup_filter_Some.
Qed.

(** Every message of the stream, whenever and however often it is delivered, creates
    the profile of its account or finds it, and is acknowledged. *)
Theorem delivered_messages_create_profiles (es : list (event rrequest rworld)) (s : system rreply rrequest ranswer reg_db) (w : rworld) (token : bytes) (m : stored_message) :
  reg_run reg_start es = Some s -> healthy w token -> stream (sys_db s) !! rw_delivery w = Some m ->
  exists s' ev o, served s w (RegUser ReqConsume) (RegAnsUser (AnsOutcomes [o])) s' /\ (o = Applied \/ o = Duplicate) /\
    Unmarshal (sm_data m) = Ok ev /\ is_Some (profiles (users (sys_db s')) !! ev_Subject ev) /\ Z.of_nat (rw_delivery w) + 1 ∈ acked (sys_db s').
Proof.
  intros [Hinv _]%reg_run_ok Hw Hm. destruct (alone_consume w token Hw (sys_db s) (traces s) m Hinv Hm) as (ev & o & d' & Hu & Ho & Hack & Hp & Hrun). destruct (serve s w (RegUser ReqConsume)) as (s' & Hdb & Hs). cbn [rprogram_of] in Hdb, Hs.
  assert (run_alone rrespond w (sys_db s) (lift (program_of ReqConsume)) = (d', AnsOutcomes [o])) as Hlift.
  { cbn [program_of]. unfold answering. revert Hrun. generalize (sys_db s). induction consume as [a|x k IH]; intros d0 Hx; [by injection Hx as <- ->|]. cbn [lift run_alone] in *. by apply IH. }
  rewrite run_alone_bind, Hlift in Hdb, Hs. cbn [run_alone fst snd] in Hdb, Hs. exists s', ev, o. rewrite Hdb. by split_and!.
Qed.
(** The world that delivers a message. *)
Definition delivering (w : rworld) (k : nat) : rworld :=
  mkRworld (rw_user w) (rw_hash w) (rw_verify w) (rw_equalize w) (rw_trace w) (rw_locked w) (rw_closed w) (rw_connected w) (rw_deduplicates w) (rw_ack w) k.

(** C22. Registrations get through, from every reachable state, whatever happened before
    and however many attempts an event took: where nothing fails, a batch of the
    publisher publishes and marks every event that is due (as many as its size, with a
    lease of a millisecond at least), each of them is then in the stream, and the
    delivery of its message creates the profile of the account or finds it. *)
Theorem due_registrations_get_profiles (es : list (event rrequest rworld)) (s : system rreply rrequest ranswer reg_db) (w : rworld) (token : bytes) (c0 c : PubConfig) :
  reg_run reg_start es = Some s -> healthy w token -> worker_New c0 = Ok c -> Millisecond <= LeaseDuration c -> Z.of_nat (size (due_rows w (sys_db s))) <= BatchSize c ->
  exists s1, served s w (RegBatch c) (RegAnsBatch (replicate (size (due_rows w (sys_db s))) OutcomePublished)) s1 /\ due_rows w (sys_db s1) = ∅ /\
    forall e r, outbox (sys_db s) !! e = Some r -> ob_due (w_now (rw_user w)) r = true ->
      (exists r', outbox (sys_db s1) !! e = Some r' /\ published_at r' <> None) /\
      exists k s2 o, stream (sys_db s1) !! k = Some (event_message e r) /\ served s1 (delivering w k) (RegUser ReqConsume) (RegAnsUser (AnsOutcomes [o])) s2 /\
        (o = Applied \/ o = Duplicate) /\ is_Some (profiles (users (sys_db s2)) !! ob_subject r).
Proof.
  intros Hrun Hw Hc Hl Hn. destruct (batch_publishes_everything_due es s w token c0 c Hrun Hw Hc Hl Hn) as (s1 & Hs1 & Hdue & Hall). exists s1. split_and!; [done|done|]. intros e r Hr Hd. destruct (Hall e r Hr Hd) as [[k Hk]%list_elem_of_lookup Hmark]. split; [done|].
  pose proof Hs1 as (n & t & Hrun1 & _). assert (reg_run reg_start (es ++ Start (RegBatch c) :: replicate n (Call (length (sys_threads s)) w)) = Some s1) as Hreach by (unfold reg_run; rewrite sys_run_app; unfold reg_run in Hrun; by rewrite Hrun).
  assert (healthy (delivering w k) token) as Hw' by (destruct Hw; by split).
  destruct (delivered_messages_create_profiles _ s1 (delivering w k) token _ Hreach Hw' Hk) as (s2 & ev & o & Hs2 & Ho & Hu & Hp & _). exists k, s2, o. split_and!; [done..|].
  pose proof (reg_run_ok es s Hrun) as [Hinv _]. destruct (row_facts w _ e r (ri_ok _ _ Hinv) Hr) as (_ & _ & _ & _ & _ & _ & ev' & Hu' & _ & Hsub). cbn in Hu. assert (ev' = ev) as -> by congruence. by rewrite <- Hsub.
Qed.
End healthy.
