(* ===== verification/RegistrationSamples.v ===== *)
(** * Registration: a run of both services

    An account registers, its event is published and creates a profile; another account
    is created without an event, and the reconciler queues one.  The theorems of
    [RegistrationRuns] and [RegistrationDelivery] at this run. *)

From S2P Require Import Prelude GoStrings GoUnicode AuthDomain GoText Sha256 GoEncoding Effects UserDomain RegistrationWire RegistrationCodec UserStore UserService UserBooks UserHistory UserGuards UserRuns RegistrationStore RegistrationService RegistrationGuards RegistrationHistory RegistrationRuns RegistrationDelivery.
Local Open Scope Z_scope.

#[local] Existing Instance ascii_tables.

(** Everything works and the clock stands; the random bytes are the identifier [n], and
    the broker delivers message [k]. *)
Definition reg_world (n : Z) (k : nat) : rworld :=
  mkRworld (sample_world n) (Some (bytes_of "digest")) (Some (true, true)) true None (fun _ => false) false true true None k.
Definition reg_calls (i n : nat) (w : rworld) : list (event rrequest rworld) := replicate n (Call i w).

Lemma healthy_world k : healthy (reg_world 9 k) (sample_id 9).
Proof. split; done. Qed.

Definition sample_config : PubConfig := with_defaults sample_pub_config.
Definition sample_page : Options := mkOptions [] 10 true false.

(** An account registers: its subject is 2 and its event 1. *)
Definition reg_registered : list (event rrequest rworld) :=
  Start (RegRegister true (bytes_of "ada@example.com") (bytes_of "correct horse battery staple")) :: reg_calls 0 3 (reg_world 2 0) ++ reg_calls 0 7 (reg_world 1 0).
(** Its event is published and consumed twice; another account has no event. *)
Definition reg_before : list (event rrequest rworld) :=
  reg_registered ++
  Start (RegBatch sample_config) :: reg_calls 1 25 (reg_world 9 0) ++
  Start (RegUser ReqConsume) :: reg_calls 2 6 (reg_world 9 0) ++
  Start (RegUser ReqConsume) :: reg_calls 3 6 (reg_world 9 0) ++
  Start (RegRegister false (bytes_of "bob@example.com") (bytes_of "correct horse battery staple")) :: reg_calls 4 4 (reg_world 3 0).
(** The reconciler runs. *)
Definition reg_after : list (event rrequest rworld) := Start (RegPage sample_page) :: reg_calls 5 13 (reg_world 4 0).

Definition reg_checks (s s' : system rreply rrequest ranswer reg_db) : bool :=
  match sys_threads s, sys_threads s' !! 5%nat with
  | [_; _; _; mkThread (RegUser ReqConsume) (Ret (RegAnsUser (AnsOutcomes [Duplicate]))) _; _], Some (mkThread (RegPage o) (Ret (RegAnsPage x)) _) =>
      bool_decide ((After o, Limit o, ApplyEvents o, ReplayPublished o) = ([], 10, true, false)) && Done x.1 && bool_decide (is_Some (credentials (sys_db s) !! sample_id 3) /\ 1 ∈ acked (sys_db s) /\ is_Some (stream (sys_db s) !! 0%nat))
  | _, _ => false
  end.

Lemma reg_sample_reaches : exists s s' t3 x t5,
  reg_run reg_start reg_before = Some s /\ reg_run s reg_after = Some s' /\ length (sys_threads s) = 5%nat /\
  sys_threads s !! 3%nat = Some (mkThread (RegUser ReqConsume) (Ret (RegAnsUser (AnsOutcomes [Duplicate]))) t3) /\
  sys_threads s' !! 5%nat = Some (mkThread (RegPage sample_page) (Ret (RegAnsPage x)) t5) /\ Done x.1 = true /\
  is_Some (credentials (sys_db s) !! sample_id 3) /\ 1 ∈ acked (sys_db s) /\ is_Some (stream (sys_db s) !! 0%nat).
Proof.
  assert ((s ← reg_run reg_start reg_before; s' ← reg_run s reg_after; Some (reg_checks s s')) = Some true) as Hs by (vm_compute; reflexivity).
  destruct (reg_run reg_start reg_before) as [s|]; [|done]. cbn [mbind option_bind] in Hs. destruct (reg_run s reg_after) as [s'|] eqn:Hafter; [|done]. cbn [mbind option_bind] in Hs. injection Hs as Hs. exists s, s'. unfold reg_checks in Hs.
  repeat (match type of Hs with
    | bool_decide _ && _ && _ = _ => fail 1
    | context [match ?x with _ => _ end] => destruct x eqn:?; try done
    end).
  rewrite !andb_true_iff, !bool_decide_eq_true in Hs. destruct Hs as ((Ho & Hd) & Hc & Ha & Hm). eexists _, _, _. split_and!; try done.
  match goal with o : Options |- _ => destruct o end. cbn in Ho. injection Ho as -> -> -> ->. done.
Qed.

Lemma registrations_reach_users_witness : exists s, reg_run reg_start reg_before = Some s /\ (exists ev, is_Some (profiles (users (sys_db s)) !! ev_Subject ev)) /\ accepted [Duplicate].
Proof.
  destruct reg_sample_reaches as (s & s' & t3 & x & t5 & Hrun & _ & _ & Ht & _ & _ & _ & Ha & _). exists s. split; [exact Hrun|].
  destruct (registrations_reach_users reg_before s Hrun) as (_ & _ & _ & Hack & _ & _ & Hout). split.
  - destruct (Hack 1 Ha) as (n & m & ev & _ & _ & _ & Hp). exists ev. exact Hp.
  - exact (Hout _ _ (list_elem_of_lookup_2 _ _ _ Ht) eq_refl eq_refl).
Defined.

Lemma backfill_leaves_no_gap_witness : exists s s', reg_run reg_start reg_before = Some s /\ reg_run s reg_after = Some s' /\ queued (sys_db s') (sample_id 3).
Proof.
  destruct reg_sample_reaches as (s & s' & t3 & x & t5 & Hrun & Hrun' & Hn & _ & Ht & Hd & Hc & _). exists s, s'. split; [exact Hrun|]. split; [exact Hrun'|].
  refine (proj1 (backfill_leaves_no_gap reg_before reg_after s s' 5 _ sample_page x [] Hrun Hrun' _ Ht eq_refl eq_refl eq_refl eq_refl) (sample_id 3) Hc eq_refl (or_introl Hd)). rewrite Hn. apply le_n.
Defined.

(** *** Delivery *)

Lemma reg_registered_reaches : exists s, reg_run reg_start reg_registered = Some s /\ size (due_rows (reg_world 9 0) (sys_db s)) = 1%nat.
Proof.
  assert ((s ← reg_run reg_start reg_registered; Some (size (due_rows (reg_world 9 0) (sys_db s)))) = Some 1%nat) as Hs by (vm_compute; reflexivity).
  destruct (reg_run reg_start reg_registered) as [s|]; [|done]. cbn [mbind option_bind] in Hs. injection Hs as Hs. by exists s.
Qed.

Lemma due_registrations_get_profiles_witness : exists s s1, reg_run reg_start reg_registered = Some s /\ served s (reg_world 9 0) (RegBatch sample_config) (RegAnsBatch [OutcomePublished]) s1.
Proof.
  destruct reg_registered_reaches as (s & Hrun & Hsize). destruct (due_registrations_get_profiles reg_registered s (reg_world 9 0) (sample_id 9) sample_pub_config sample_config Hrun (healthy_world 0) eq_refl) as (s1 & Hs1 & _).
  - vm_compute. discriminate.
  - rewrite Hsize. vm_compute. discriminate.
  - exists s, s1. split; [exact Hrun|]. rewrite Hsize in Hs1. exact Hs1.
Defined.

(** *** The login *)

Definition reg_login : list (event rrequest rworld) := reg_registered ++ Start (RegLogin (bytes_of "ADA@example.com ") (bytes_of "correct horse battery staple")) :: reg_calls 1 4 (reg_world 9 0).

Definition login_checks (s : system rreply rrequest ranswer reg_db) : bool :=
  match sys_threads s with
  | [_; mkThread (RegLogin i p) (Ret (RegAnsLogin (Ok subject, _))) _] => bool_decide (subject = sample_id 2)
  | _ => false
  end.

Lemma reg_login_reaches : exists s t0 i p a t1, reg_run reg_start reg_login = Some s /\ sys_threads s = [t0; mkThread (RegLogin i p) (Ret (RegAnsLogin (Ok (sample_id 2), a))) t1].
Proof.
  assert ((s ← reg_run reg_start reg_login; Some (login_checks s)) = Some true) as Hs by (vm_compute; reflexivity).
  destruct (reg_run reg_start reg_login) as [s|]; [|done]. cbn [mbind option_bind] in Hs. injection Hs as Hs. exists s. unfold login_checks in Hs.
  repeat (match type of Hs with
    | bool_decide _ = _ => fail 1
    | context [match ?x with _ => _ end] => destruct x; try done
    end).
  apply bool_decide_eq_true in Hs as ->. by eexists _, _, _, _, _.
Qed.

