(* ===== verification/StaffStore.v ===== *)
(** * Staff: the store

    The tables of [staff/migrations/000001_staff.up.sql] and the statements of
    [staff/internal/adapter/out/postgres/store.go].  A statement is atomic, and so is
    the transaction of [Invite], which holds the row of the invite.  Times are in
    nanoseconds; the clock of the database and the clock of the service are two. *)

From S2P Require Import Prelude GoStrings Effects.
Local Open Scope Z_scope.

(** ** State *)

Record Principal := mkPrincipal { Issuer : bytes; Subject : bytes; Email : bytes; Name : bytes }.
#[export] Instance Principal_eq_dec : EqDecision Principal.
Proof. solve_decision. Defined.

(** A row of [staff.login_attempts] without its key. *)
Record login_row := mkLoginRow { lg_browser : bytes; lg_nonce : bytes; lg_verifier : bytes; lg_invite : bytes; lg_expires : Z }.
(** A row of [staff.sessions] without its key. *)
Record session_row := mkSessionRow { ss_principal : Principal; ss_expires : Z; ss_idle : Z }.
(** A row of [staff.invites] without its key. *)
Record invite_row := mkInviteRow { iv_email : bytes; iv_role : bytes; iv_inviter : bytes; iv_expires : Z; iv_used : option Z }.

(** [members] is by issuer and subject.  [drawn] is not stored: it has the digests of
    the tokens that were drawn, which do not repeat. *)
Record staff_db := mkStaffDb {
  login_attempts : gmap bytes login_row;
  sessions : gmap bytes session_row;
  members : gmap (bytes * bytes) bytes;
  invites : gmap bytes invite_row;
  drawn : gset bytes
}.

Definition set_attempts (d : staff_db) (m : gmap bytes login_row) : staff_db := mkStaffDb m (sessions d) (members d) (invites d) (drawn d).
Definition set_sessions (d : staff_db) (m : gmap bytes session_row) : staff_db := mkStaffDb (login_attempts d) m (members d) (invites d) (drawn d).
Definition set_drawn (d : staff_db) (s : gset bytes) : staff_db := mkStaffDb (login_attempts d) (sessions d) (members d) (invites d) s.

(** ** Logins *)

(** [SaveLogin]: its two statements; [None] if the key is taken *)
Definition sql_purge_logins (now : Z) (d : staff_db) : staff_db := set_attempts d (filter (fun x => pg_time now <= lg_expires x.2) (login_attempts d)).
Definition sql_insert_login (d : staff_db) (state : bytes) (l : login_row) : staff_db * option unit :=
  match login_attempts d !! state with
  | Some _ => (d, None)
  | None => (set_attempts d (<[state := mkLoginRow (lg_browser l) (lg_nonce l) (lg_verifier l) (lg_invite l) (pg_time (lg_expires l))]> (login_attempts d)), Some tt)
  end.

(** [ConsumeLogin] *)
Definition sql_consume_login (d : staff_db) (state browser : bytes) (now : Z) : staff_db * query login_row :=
  match login_attempts d !! state with
  | Some l => if bool_decide (lg_browser l = browser) && (pg_time now <? lg_expires l) then (set_attempts d (delete state (login_attempts d)), Scanned l) else (d, NoRows)
  | None => (d, NoRows)
  end.

(** ** Sessions *)

(** [SaveSession]: its two statements *)
Definition sql_purge_sessions (now : Z) (d : staff_db) : staff_db := set_sessions d (filter (fun x => pg_time now <= ss_expires x.2 /\ pg_time now <= ss_idle x.2) (sessions d)).
Definition sql_insert_session (d : staff_db) (hash : bytes) (r : session_row) : staff_db * option unit :=
  match sessions d !! hash with
  | Some _ => (d, None)
  | None => (set_sessions d (<[hash := mkSessionRow (ss_principal r) (pg_time (ss_expires r)) (pg_time (ss_idle r))]> (sessions d)), Some tt)
  end.

Record Session_ := mkSession { s_principal : Principal; Role : bytes; ExpiresAt : Z }.

(** [Session] *)
Definition sql_session (d : staff_db) (hash : bytes) (now idle : Z) : staff_db * query Session_ :=
  match sessions d !! hash with
  | Some r =>
      if (pg_time now <? ss_expires r) && (pg_time now <? ss_idle r) then
        let r' := mkSessionRow (ss_principal r) (ss_expires r) (Z.min (pg_time idle) (ss_expires r)) in
        (set_sessions d (<[hash := r']> (sessions d)),
         Scanned (mkSession (ss_principal r) (default [] (members d !! (Issuer (ss_principal r), Subject (ss_principal r)))) (Z.min (ss_expires r') (ss_idle r'))))
      else (d, NoRows)
  | None => (d, NoRows)
  end.
(** [DeleteSession] *)
Definition sql_delete_session (d : staff_db) (hash : bytes) : staff_db := set_sessions d (delete hash (sessions d)).

(** ** Invites *)

Inductive invite_state := InviteActive | InviteExpired | InviteUsed | InviteWrongAccount.
Record Invite_ := mkInvite { State : invite_state; InviteRole : bytes; Inviter : bytes }.

(** [Invite]: the transaction *)
Definition tx_invite (d : staff_db) (hash : bytes) (p : Principal) (now : Z) (accept : bool) : staff_db * Invite_ :=
  match invites d !! hash with
  | None => (d, mkInvite InviteExpired [] [])
  | Some i =>
      if negb (bool_decide (iv_email i = Email p)) then (d, mkInvite InviteWrongAccount [] []) else
      if bool_decide (is_Some (iv_used i)) then (d, mkInvite InviteUsed [] []) else
      if iv_expires i <=? now then (d, mkInvite InviteExpired [] []) else
      let d' :=
        if accept then
          let members' := match members d !! (Issuer p, Subject p) with Some _ => members d | None => <[(Issuer p, Subject p) := iv_role i]> (members d) end in
          mkStaffDb (login_attempts d) (sessions d) members' (<[hash := mkInviteRow (iv_email i) (iv_role i) (iv_inviter i) (iv_expires i) (Some (pg_time now))]> (invites d)) (drawn d)
        else d in
      (d', mkInvite InviteActive (iv_role i) (iv_inviter i))
  end.
