(* ===== verification/StaffService.v ===== *)
(** * Staff: the service

    [staff/internal/application/session.go], the provider of identities
    ([adapter/out/oidc]), the handlers ([adapter/in/httpapi]), as programs, and how the
    database of [StaffStore] and an outside world answer their calls.  Static files,
    the text of headers and the audit log are left out. *)

From S2P Require Import Prelude GoStrings GoUnicode GoEncoding Sha256 Effects StaffStore.
Local Open Scope Z_scope.

(** ** Calls *)

(** An ID token that the OIDC library verified: issuer, audience, signature and expiry;
    its claims if they decode. *)
Record oidc_claims := mkOidcClaims { cl_email : bytes; cl_verified : bool; cl_name : bytes }.
Record id_token := mkIdToken { id_Nonce : bytes; id_Subject : bytes; id_claims : option oidc_claims }.

Inductive scall :=
| ServiceNow
(** 32 random bytes, encoded *)
| DrawToken
(* SQL *)
| SqlPurgeLogins
| SqlInsertLogin (state : bytes) (l : login_row)
| SqlConsumeLogin (state browser : bytes) (now : Z)
| SqlPurgeSessions
| SqlInsertSession (hash : bytes) (r : session_row)
| SqlSession (hash : bytes) (now idle : Z)
| SqlDeleteSession (hash : bytes)
| TxInvite (hash : bytes) (p : Principal) (now : Z) (accept : bool)
(** the provider: the text of an ID token, if there is one; its verification *)
| OauthExchange (code verifier : bytes)
| VerifyIdToken (raw : bytes).

Definition sreply (c : scall) : Type :=
  match c with
  | ServiceNow => Z
  | DrawToken => option bytes
  | SqlPurgeLogins | SqlPurgeSessions | SqlInsertLogin _ _ | SqlInsertSession _ _ | SqlDeleteSession _ => option unit
  | SqlConsumeLogin _ _ _ => query login_row
  | SqlSession _ _ _ => query Session_
  | TxInvite _ _ _ _ => option Invite_
  | OauthExchange _ _ => option (option bytes)
  | VerifyIdToken _ => option id_token
  end.

Abbreviation sprog := (program sreply).
Abbreviation strace := (trace_of sreply).
Abbreviation sperform := (Effects.perform (reply := sreply)).

Inductive staff_error := ErrUnauthenticated | ErrInvalidLogin | ErrInvalidInvite | ErrOther.

Definition Digest (value : bytes) : bytes := base64_Encode (sha256_Sum value).
Definition ValidToken (value : bytes) : bool :=
  match base64_Decode value with
  | Some b => (len b =? 32) && bool_decide (base64_Encode b = value)
  | None => false
  end.

(** [token], which panics without random bytes *)
Definition draw : sprog (result staff_error bytes) :=
  t ← sperform DrawToken; Ret (match t with Some t => Ok t | None => Panic end).
(** A statement without a result. *)
Definition exec (c : sprog (option unit)) : sprog (result staff_error unit) :=
  r ← c; Ret (match r with Some _ => Ok tt | None => Err ErrOther end).

(** ** The service *)

Record StaffConfig := mkStaffConfig { cfg_issuer : bytes; cfg_idle : Z; cfg_lifetime : Z; Authorize : bytes -> bytes -> bytes -> bytes }.

Section programs.
Context `{UnicodeTables} (config : StaffConfig).

Definition SaveLogin (state : bytes) (l : login_row) : sprog (result staff_error unit) :=
  try (exec (sperform SqlPurgeLogins)) (fun _ => exec (sperform (SqlInsertLogin state l))).
Definition ConsumeLogin (state browser : bytes) (now : Z) : sprog (result staff_error login_row) :=
  q ← sperform (SqlConsumeLogin state browser now);
  Ret (match q with Scanned l => Ok l | NoRows => Err ErrInvalidLogin | QueryFailed => Err ErrOther end).
Definition SaveSession (hash : bytes) (p : Principal) (absolute idle : Z) : sprog (result staff_error unit) :=
  try (exec (sperform SqlPurgeSessions)) (fun _ => exec (sperform (SqlInsertSession hash (mkSessionRow p absolute idle)))).
Definition store_Session (hash : bytes) (now idle : Z) : sprog (result staff_error Session_) :=
  q ← sperform (SqlSession hash now idle);
  Ret (match q with Scanned s => Ok s | NoRows => Err ErrUnauthenticated | QueryFailed => Err ErrOther end).

(** [Provider.Exchange] *)
Definition Exchange (code verifier nonce : bytes) : sprog (result staff_error Principal) :=
  token ← sperform (OauthExchange code verifier);
  match token with
  | None | Some None => Ret (Err ErrOther)
  | Some (Some raw) =>
      id ← sperform (VerifyIdToken raw);
      Ret (match id with
           | None => Err ErrOther
           | Some id =>
               reject_if (negb (bool_decide (id_Nonce id = nonce))) ErrOther;;
               match id_claims id with
               | None => Err ErrOther
               | Some c =>
                   reject_if (negb (cl_verified c) || (254 <? len (cl_email c)) || negb (bool_decide (64 ∈ cl_email c)) || (255 <? len (id_Subject id)) || bool_decide (id_Subject id = [])) ErrOther;;
                   Ok (mkPrincipal (cfg_issuer config) (id_Subject id) (cl_email c) (cl_name c))
               end
           end)
  end.

(** [Service.Logout] *)
Definition Logout (cookie : bytes) : sprog (result staff_error unit) :=
  if negb (ValidToken cookie) then Ret (Ok tt) else exec (sperform (SqlDeleteSession (Digest cookie))).

(** [Service.Start] *)
Definition Start_ (invite previousCookie : bytes) : sprog (result staff_error (bytes * bytes)) :=
  refuse (negb (bool_decide (invite = [])) && negb (ValidToken invite)) ErrInvalidInvite (
  try (Logout previousCookie) (fun _ =>
  try draw (fun state => try draw (fun browser => try draw (fun nonce => try draw (fun verifier =>
  now ← sperform ServiceNow;
  try (SaveLogin (Digest state) (mkLoginRow (Digest browser) nonce verifier invite (now + 600 * Second))) (fun _ =>
  Ret (Ok (Authorize config state nonce verifier, browser))))))))).

(** [Service.Complete] *)
Definition Complete (state browser code : bytes) : sprog (result staff_error (bytes * bytes)) :=
  refuse (negb (ValidToken state) || negb (ValidToken browser) || bool_decide (code = []) || (4096 <? len code)) ErrInvalidLogin (
  now ← sperform ServiceNow;
  try (ConsumeLogin (Digest state) (Digest browser) now) (fun login =>
  exchanged ← Exchange code (lg_verifier login) (lg_nonce login);
  match exchanged with
  | Ok principal =>
      refuse (bool_decide (Issuer principal = []) || bool_decide (Subject principal = []) || bool_decide (Email principal = [])) ErrInvalidLogin (
      let principal := mkPrincipal (Issuer principal) (Subject principal) (strings_ToLower (Email principal)) (Name principal) in
      try draw (fun session =>
      now ← sperform ServiceNow;
      try (SaveSession (Digest session) principal (now + cfg_lifetime config) (now + cfg_idle config)) (fun _ =>
      Ret (Ok (session, lg_invite login)))))
  | Err _ => Ret (Err ErrInvalidLogin)
  | Panic => Ret Panic
  end)).

(** [Service.Session] *)
Definition Session (cookie : bytes) : sprog (result staff_error Session_) :=
  refuse (negb (ValidToken cookie)) ErrUnauthenticated (
  now ← sperform ServiceNow;
  store_Session (Digest cookie) now (now + cfg_idle config)).

(** [Service.Invite] *)
Definition Invite (cookie invite : bytes) (accept : bool) : sprog (result staff_error (Invite_ * Principal)) :=
  refuse (negb (ValidToken invite)) ErrInvalidInvite (
  try (Session cookie) (fun session =>
  now ← sperform ServiceNow;
  r ← sperform (TxInvite (Digest invite) (s_principal session) now accept);
  Ret (match r with Some i => Ok (i, s_principal session) | None => Err ErrOther end))).

(** ** Handlers *)

Inductive rpc_code := CodeUnauthenticated | CodeInvalidArgument | CodeUnavailable.
Definition rpcError (e : staff_error) : rpc_code :=
  match e with ErrUnauthenticated => CodeUnauthenticated | ErrInvalidLogin | ErrInvalidInvite => CodeInvalidArgument | ErrOther => CodeUnavailable end.

(** The values of the parameters of a callback. *)
Record callback_query := mkCallbackQuery { q_state : list bytes; q_code : list bytes; q_error : list bytes }.
Definition Get (l : list bytes) : bytes := match l with x :: _ => x | [] => [] end.
Inductive callback_answer := BadRequest | LoginFailed | SignedIn (session invite : bytes).
Definition callback (q : callback_query) (browser : bytes) : sprog (result staff_error callback_answer) :=
  if negb (length (q_state q) =? 1)%nat || negb (length (q_code q) =? 1)%nat || negb (bool_decide (Get (q_error q) = [])) then Ret (Ok BadRequest) else
  r ← Complete (Get (q_state q)) browser (Get (q_code q));
  Ret (match r with Ok (session, invite) => Ok (SignedIn session invite) | Err _ => Ok LoginFailed | Panic => Panic end).

(** [AcceptInvite]: an invite that was not active is an error. *)
Definition AcceptInvite (cookie invite : bytes) : sprog (result staff_error unit) :=
  try (Invite cookie invite true) (fun x => Ret (match State x.1 with InviteActive => Ok tt | _ => Err ErrInvalidInvite end)).

(** Requests that reach a handler: the cookies are the values of their headers. *)
Inductive srequest :=
| StartSso (invite cookie : bytes)
| Callback (q : callback_query) (browser : bytes)
| GetSession (cookie : bytes)
| LogoutRequest (cookie : bytes)
| GetInvite (cookie invite : bytes)
| AcceptInviteRequest (cookie invite : bytes).
Inductive sanswer :=
| StartAnswer (r : result rpc_code (bytes * bytes))
| CallbackAnswer (r : result rpc_code callback_answer)
| SessionAnswer (r : result rpc_code Session_)
| LogoutAnswer (r : result rpc_code unit)
| InviteAnswer (r : result rpc_code (Invite_ * Principal))
| AcceptAnswer (r : result rpc_code unit).

Definition respond_rpc {A} (f : result rpc_code A -> sanswer) (p : sprog (result staff_error A)) : sprog sanswer :=
  r ← p; Ret (f (map_err rpcError r)).
Definition sprogram_of (q : srequest) : sprog sanswer :=
  match q with
  | StartSso invite cookie => respond_rpc StartAnswer (Start_ invite cookie)
  | Callback q browser => respond_rpc CallbackAnswer (callback q browser)
  | GetSession cookie => respond_rpc SessionAnswer (Session cookie)
  | LogoutRequest cookie => respond_rpc LogoutAnswer (Logout cookie)
  | GetInvite cookie invite => respond_rpc InviteAnswer (Invite cookie invite false)
  | AcceptInviteRequest cookie invite => respond_rpc AcceptAnswer (AcceptInvite cookie invite)
  end.
End programs.

(** ** The world *)

Record sworld := mkSworld {
  sw_fault : fault;
  sw_now : Z;
  sw_db_now : Z;
  sw_random : option bytes;
  sw_exchange : option (option bytes);
  sw_verify : option id_token
}.

(** A token whose digest is new. *)
Definition fresh_token (w : sworld) (d : staff_db) : option bytes :=
  b ← sw_random w;
  if (len b =? 32) && forallb (fun x => between 0 x 255) b && bool_decide (Digest (base64_Encode b) ∉ drawn d) then Some (base64_Encode b) else None.

Definition srespond (w : sworld) (d : staff_db) (c : scall) : staff_db * sreply c :=
  let f := sw_fault w in
  match c return staff_db * sreply c with
  | ServiceNow => (d, sw_now w)
  | DrawToken => match fresh_token w d with Some t => (set_drawn d ({[Digest t]} ∪ drawn d), Some t) | None => (d, None) end
  | SqlPurgeLogins => faulty None f d (sql_purge_logins (sw_db_now w) d, Some tt)
  | SqlInsertLogin state l => faulty None f d (sql_insert_login d state l)
  | SqlConsumeLogin state browser now => faulty QueryFailed f d (sql_consume_login d state browser now)
  | SqlPurgeSessions => faulty None f d (sql_purge_sessions (sw_db_now w) d, Some tt)
  | SqlInsertSession hash r => faulty None f d (sql_insert_session d hash r)
  | SqlSession hash now idle => faulty QueryFailed f d (sql_session d hash now idle)
  | SqlDeleteSession hash => faulty None f d (sql_delete_session d hash, Some tt)
  | TxInvite hash p now accept => faulty None f d (let '(d', i) := tx_invite d hash p now accept in (d', Some i))
  | OauthExchange _ _ => (d, sw_exchange w)
  | VerifyIdToken _ => (d, sw_verify w)
  end.

(** The service starts with some members and invites, and without sessions. *)
Definition staff_start (m : gmap (bytes * bytes) bytes) (i : gmap bytes invite_row) : system sreply srequest sanswer staff_db := mkSystem (mkStaffDb ∅ ∅ m i ∅) [].
Definition staff_run `{UnicodeTables} (config : StaffConfig) : system sreply srequest sanswer staff_db -> list (event srequest sworld) -> option (system sreply srequest sanswer staff_db) :=
  sys_run srespond (sprogram_of config).
