(* ===== verification/StaffGuards.v ===== *)
(** * Staff: what each request does

    The calls that the programs of [StaffService] make, given the calls and replies
    before, and what their answers stand for. *)

From S2P Require Import Prelude GoStrings GoUnicode GoEncoding Sha256 Effects StaffStore StaffService.
Local Open Scope Z_scope.

Abbreviation sdid t c r := (@existT scall sreply c r ∈ t).

Definition drew (t : strace) (token : bytes) : Prop := sdid t DrawToken (Some token).

(** Nothing was stored yet. *)
Definition stores (c : scall) : bool := match c with SqlInsertLogin _ _ | SqlInsertSession _ _ => true | _ => false end.
Definition unstored (t : strace) : Prop := forall x, x ∈ t -> stores (projT1 x) = false.

Section guards.
Context `{UnicodeTables} (config : StaffConfig).

(** A login attempt was consumed, and the provider vouched for the principal with the
    nonce of that attempt. *)
Definition earned (t : strace) (p : Principal) : Prop :=
  exists state browser now l code raw id c,
    sdid t (SqlConsumeLogin state browser now) (Scanned l) /\ sdid t (OauthExchange code (lg_verifier l)) (Some (Some raw)) /\ sdid t (VerifyIdToken raw) (Some id) /\
    id_Nonce id = lg_nonce l /\ id_claims id = Some c /\ cl_verified c = true /\ p = mkPrincipal (cfg_issuer config) (id_Subject id) (strings_ToLower (cl_email c)) (cl_name c).

(** The principal has a session. *)
Definition signed_in (t : strace) (p : Principal) : Prop := exists hash now idle s, sdid t (SqlSession hash now idle) (Scanned s) /\ s_principal s = p.

Definition new_login (t : strace) (h : bytes) (l : login_row) : Prop := exists state browser, drew t state /\ h = Digest state /\ drew t browser /\ lg_browser l = Digest browser.
Definition new_session (t : strace) (h : bytes) (r : session_row) : Prop :=
  (exists token, drew t token /\ h = Digest token) /\ earned t (ss_principal r) /\ exists now, sdid t ServiceNow now /\ ss_expires r = now + cfg_lifetime config.

Definition scall_ok (t : strace) (c : scall) : Prop :=
  match c with
  | SqlInsertLogin h l => new_login t h l /\ unstored t
  | SqlInsertSession h r => new_session t h r /\ unstored t
  | TxInvite _ p _ _ => signed_in t p
  | _ => True
  end.
Definition slegal (c : scall) (r : sreply c) : Prop := True.

Abbreviation sver := (verified scall_ok slegal).

Lemma unstored_snoc t c (r : sreply c) : unstored t -> stores c = false -> unstored (t ++ [existT c r]).
Proof. intros Ht Hc x [Hx|Hx%list_elem_of_singleton]%elem_of_app; [by apply Ht|by subst x]. Qed.

(** ** Programs *)

Lemma staff_draw t (post : strace -> result staff_error bytes -> Prop) : unstored t ->
  (forall t' token, t ⊆ t' -> unstored t' -> drew t' token -> post t' (Ok token)) -> (forall t', t ⊆ t' -> post t' Panic) -> sver draw t post.
Proof.
  intros Hu Hok Hp. apply verified_do; [done|]. intros r _. cbn [sreply] in r. destruct r as [token|]; [apply Hok|apply Hp]; [set_solver|by apply unstored_snoc|unfold drew; set_solver|set_solver].
Qed.

(** What a cookie is answered. *)
Definition session_of (t : strace) (cookie : bytes) (s : Session_) : Prop := exists now, sdid t (SqlSession (Digest cookie) now (now + cfg_idle config)) (Scanned s).

Lemma staff_Logout cookie t (post : strace -> result staff_error unit -> Prop) : unstored t ->
  (forall t' r, t ⊆ t' -> unstored t' -> (r = Ok tt -> ValidToken cookie = true -> sdid t' (SqlDeleteSession (Digest cookie)) (Some tt)) -> post t' r) -> sver (Logout cookie) t post.
Proof.
  intros Hu Hp. unfold Logout. destruct (ValidToken cookie) eqn:Hv; cbn [negb]; [|by apply Hp]. apply verified_bind, verified_do; [done|]. intros r _. cbn [sreply] in r. apply Hp; [set_solver|by apply unstored_snoc|]. destruct r as [[]|]; [|done]. set_solver.
Qed.

Lemma staff_Session cookie t (post : strace -> result staff_error Session_ -> Prop) : unstored t ->
  (forall t' r, t ⊆ t' -> unstored t' -> (forall s, r = Ok s -> session_of t' cookie s) -> post t' r) -> sver (Session config cookie) t post.
Proof.
  intros Hu Hp. apply verified_refuse; intros _; [by apply Hp|]. apply verified_do; [done|]. intros now _. cbn [sreply] in now. apply verified_do; [done|]. intros q _. cbn [sreply] in q. apply Hp; [set_solver|by repeat apply unstored_snoc|].
  destruct q as [s| |]; [|done..]. intros s' [= <-]. exists now. set_solver.
Qed.

Lemma staff_Invite cookie invite accept t (post : strace -> result staff_error (Invite_ * Principal) -> Prop) : unstored t ->
  (forall t' r, t ⊆ t' -> (forall i p, r = Ok (i, p) -> exists s now, session_of t' cookie s /\ s_principal s = p /\ sdid t' (TxInvite (Digest invite) p now accept) (Some i)) -> post t' r) ->
  sver (Invite config cookie invite accept) t post.
Proof.
  intros Hu Hp. apply verified_refuse; intros _; [by apply Hp|]. apply verified_try, staff_Session; [done|]. intros t1 r Ht1 Hu1 Hr. destruct r as [s|x|]; [|by apply Hp..]. destruct (Hr s eq_refl) as [now0 Hd].
  apply verified_do; [done|]. intros now _. cbn [sreply] in now. apply verified_do; [exists (Digest cookie), now0, (now0 + cfg_idle config), s; split; [set_solver|done]|]. intros q _. cbn [sreply] in q. apply Hp; [set_solver|].
  destruct q as [i|]; [|done]. intros i' p [= <- <-]. exists s, now. split_and!; [exists now0; set_solver|done|set_solver].
Qed.

Lemma staff_Start invite cookie t : unstored t -> sver (Start_ config invite cookie) t (fun _ _ => True).
Proof.
  intros Hu. apply verified_refuse; intros _; [done|]. apply verified_try, staff_Logout; [done|]. intros t1 r Ht1 Hu1 _. destruct r as [u|x|]; [|done..].
  apply verified_try, staff_draw; [done| |done]. intros t2 state Ht2 Hu2 Hstate. apply verified_try, staff_draw; [done| |done]. intros t3 browser Ht3 Hu3 Hbrowser.
  apply verified_try, staff_draw; [done| |done]. intros t4 nonce Ht4 Hu4 _. apply verified_try, staff_draw; [done| |done]. intros t5 verifier Ht5 Hu5 _.
  apply verified_do; [done|]. intros now _. cbn [sreply] in now. apply verified_try, verified_try, verified_bind, verified_do; [done|]. intros r _. cbn [sreply] in r. destruct r as [v|]; [|done]. apply verified_bind, verified_do; [|by intros [] _].
  split; [|by repeat apply unstored_snoc]. exists state, browser. unfold drew in *. split_and!; [set_solver|done|set_solver|done].
Qed.

(** The provider vouched for the principal. *)
Definition vouched (t : strace) (code verifier nonce : bytes) (p : Principal) : Prop :=
  exists raw id c, sdid t (OauthExchange code verifier) (Some (Some raw)) /\ sdid t (VerifyIdToken raw) (Some id) /\ id_Nonce id = nonce /\ id_claims id = Some c /\ cl_verified c = true /\
    p = mkPrincipal (cfg_issuer config) (id_Subject id) (cl_email c) (cl_name c).

Lemma staff_Exchange code verifier nonce t (post : strace -> result staff_error Principal -> Prop) : unstored t ->
  (forall t' r, t ⊆ t' -> unstored t' -> (forall p, r = Ok p -> vouched t' code verifier nonce p) -> post t' r) -> sver (Exchange config code verifier nonce) t post.
Proof.
  intros Hu Hp. apply verified_do; [done|]. intros raw _. cbn [sreply] in raw. destruct raw as [[raw|]|]; [|by apply Hp; [set_solver|apply unstored_snoc|]..].
  apply verified_do; [done|]. intros id _. cbn [sreply] in id. apply Hp; [set_solver|by repeat apply unstored_snoc|]. intros p. destruct id as [id|]; [|done]. rewrite guard_Ok, negb_false_iff, bool_decide_eq_true. intros [Hn Hc].
  destruct (id_claims id) as [c|] eqn:Hcl; [|done]. rewrite guard_Ok, !orb_false_iff, negb_false_iff in Hc. destruct Hc as (Hc & [= <-]). exists raw, id, c. split_and!; [set_solver|set_solver|done|done|tauto|done].
Qed.

(** The browser finished the login that it started. *)
Definition completed (t : strace) (state browser session invite : bytes) : Prop :=
  exists now l r, sdid t (SqlConsumeLogin (Digest state) (Digest browser) now) (Scanned l) /\ lg_invite l = invite /\ sdid t (SqlInsertSession (Digest session) r) (Some tt).

Lemma staff_Complete state browser code t : unstored t -> sver (Complete config state browser code) t (fun t r => forall session invite, r = Ok (session, invite) -> completed t state browser session invite).
Proof.
  intros Hu. apply verified_refuse; intros _; [done|]. apply verified_do; [done|]. intros now _. cbn [sreply] in now. apply verified_try, verified_do; [done|]. intros q _. cbn [sreply] in q. cbn [verified]. destruct q as [l| |]; [|done..].
  set (t1 := (t ++ [_]) ++ [_]). assert (unstored t1) as Hu1 by (by repeat apply unstored_snoc). assert (sdid t1 (SqlConsumeLogin (Digest state) (Digest browser) now) (Scanned l)) as Hl by set_solver.
  apply verified_bind, staff_Exchange; [done|]. intros t2 r Ht2 Hu2 Hr. destruct r as [p|x|]; [|done..]. destruct (Hr p eq_refl) as (raw & id & c & Hx & Hv & Hn & Hc & Hver & Hp). apply verified_refuse; intros _; [done|].
  apply verified_try, staff_draw; [done| |done]. intros t3 session Ht3 Hu3 Hs. apply verified_do; [done|]. intros now' _. cbn [sreply] in now'. apply verified_try, verified_try, verified_bind, verified_do; [done|]. intros r _. cbn [sreply] in r. destruct r as [v|]; [|done].
  apply verified_bind, verified_do.
  - split; [|by repeat apply unstored_snoc]. split; [exists session; unfold drew in *; set_solver|]. split; [|exists now'; split; [set_solver|done]].
    exists (Digest state), (Digest browser), now, l, code, raw, id, c. cbn [ss_principal]. subst p. split_and!; try done; set_solver.
  - intros [[]|] _; [|done]. intros session' invite [= <- <-]. eexists now, l, _. split_and!; [set_solver|done|apply elem_of_app; right; by left].
Qed.

(** ** Requests *)

Definition sanswer_ok (q : srequest) (t : strace) (a : sanswer) : Prop :=
  match q, a with
  | StartSso _ _, StartAnswer _ => True
  | Callback q browser, CallbackAnswer r => forall session invite, r = Ok (SignedIn session invite) -> completed t (Get (q_state q)) browser session invite
  | GetSession cookie, SessionAnswer r => forall s, r = Ok s -> session_of t cookie s
  | LogoutRequest cookie, LogoutAnswer r => r = Ok tt -> ValidToken cookie = true -> sdid t (SqlDeleteSession (Digest cookie)) (Some tt)
  | GetInvite cookie invite, InviteAnswer r => forall i p, r = Ok (i, p) -> exists s now, session_of t cookie s /\ s_principal s = p /\ sdid t (TxInvite (Digest invite) p now false) (Some i)
  | AcceptInviteRequest cookie invite, AcceptAnswer r => r = Ok tt -> exists s i now, session_of t cookie s /\ sdid t (TxInvite (Digest invite) (s_principal s) now true) (Some i) /\ State i = InviteActive
  | _, _ => False
  end.

Lemma unstored_nil : unstored [].
Proof. by intros x ?%elem_of_nil. Qed.

Lemma staff_sprogram q : sver (sprogram_of config q) [] (sanswer_ok q).
Proof.
  pose proof unstored_nil as Hu. destruct q as [invite cookie|q browser|cookie|cookie|cookie invite|cookie invite]; cbn [sprogram_of]; apply verified_bind.
  - eapply verified_impl; [|by apply staff_Start]. done.
  - unfold callback. destruct (_ || _); [by intros ? ? [=]|]. apply verified_bind. eapply verified_impl; [|by apply staff_Complete]. intros t r Hr. cbn [verified sanswer_ok]. destruct r as [[session invite]|x|]; [|done..]. intros s i [= <- <-]. by apply Hr.
  - apply staff_Session; [done|]. intros t r _ _ Hr. cbn. destruct r as [s|x|]; [|done..]. intros s' [= <-]. by apply Hr.
  - apply staff_Logout; [done|]. intros t r _ _ Hr. cbn. destruct r as [[]|x|]; [|done..]. intros _. by apply Hr.
  - apply staff_Invite; [done|]. intros t r _ Hr. cbn. destruct r as [[i p]|x|]; [|done..]. intros i' p' [= <- <-]. by apply Hr.
  - apply verified_try, staff_Invite; [done|]. intros t r _ Hr. cbn. destruct r as [[i p]|x|]; [|done..]. destruct (Hr i p eq_refl) as (s & now & Hs & <- & Hd). cbn [fst]. destruct (State i) eqn:Hst; [|done..]. intros _. by exists s, i, now.
Qed.
End guards.
