(* ===== verification/StaffRuns.v ===== *)
(** * Staff: runs of the service

    The invariant of every run of the programs over the database, and what it gives:
    sessions are earned at the provider and end for good, a login attempt is finished
    once and by the browser that started it, an invite admits one member, the one it
    names. *)

From S2P Require Import Prelude GoStrings GoUnicode GoEncoding Sha256 Effects StaffStore StaffService StaffGuards.
Local Open Scope Z_scope.

(** ** One call *)

(** The state after a call is the one before, or the one after the call succeeded. *)
Definition heal (w : sworld) : sworld := mkSworld Healthy (sw_now w) (sw_db_now w) (sw_random w) (sw_exchange w) (sw_verify w).
Lemma respond_heals w d c : (srespond w d c).1 = d \/ (srespond w d c).1 = (srespond (heal w) d c).1.
Proof. destruct c; cbn [srespond heal sw_fault sw_db_now]; try (by left); try (destruct (sw_fault w); cbn [faulty fst]; by auto). Qed.

Section calls.
Context (w : sworld) (d : staff_db) (c : scall).
Let d' := (srespond w d c).1.

Local Ltac one_call := subst d'; destruct (respond_heals w d c) as [-> | ->]; [by left|]; destruct c; cbn [srespond heal sw_fault sw_db_now faulty fst]; try (by left).
Local Ltac cases := repeat case_match; cbn in *; simplify_eq; try (by left).

(** Only the call that inserts a login adds one. *)
Lemma attempts_back h l : login_attempts d' !! h = Some l -> login_attempts d !! h = Some l \/ exists l', c = SqlInsertLogin h l' /\ lg_browser l = lg_browser l'.
Proof.
  one_call.
  - destruct (fresh_token _ d); by left.
  - cbn. intros [? _]%map_lookup_filter_Some. by left.
  - unfold sql_insert_login. cases. intros [[<- <-]|[_ ?]]%lookup_insert_Some; [right; by eexists|by left].
  - unfold sql_consume_login. cases. intros [_ ?]%lookup_delete_Some. by left.
  - unfold sql_insert_session. cases.
  - unfold sql_session. cases.
  - unfold tx_invite. cases.
Qed.

(** Only the call that inserts a session adds one; its principal and its end stay. *)
Lemma sessions_back h r : sessions d' !! h = Some r ->
  (exists r0, sessions d !! h = Some r0 /\ ss_principal r = ss_principal r0 /\ ss_expires r = ss_expires r0) \/
  exists r0, c = SqlInsertSession h r0 /\ ss_principal r = ss_principal r0 /\ ss_expires r = pg_time (ss_expires r0).
Proof.
  intros Hr. assert (sessions d !! h = Some r -> exists r0, sessions d !! h = Some r0 /\ ss_principal r = ss_principal r0 /\ ss_expires r = ss_expires r0) as Hsame by (intros Hx; by exists r). revert Hr.
  subst d'. destruct (respond_heals w d c) as [-> | ->]; [left; by apply Hsame|]. destruct c; cbn [srespond heal sw_fault sw_db_now faulty fst]; try (left; by apply Hsame).
  - destruct (fresh_token _ d); left; by apply Hsame.
  - unfold sql_insert_login. destruct (login_attempts d !! state); left; by apply Hsame.
  - unfold sql_consume_login. destruct (login_attempts d !! state); [destruct (_ && _)|]; left; by apply Hsame.
  - cbn. intros [? _]%map_lookup_filter_Some. left. by apply Hsame.
  - unfold sql_insert_session. destruct (sessions d !! hash); [left; by apply Hsame|]. cbn. intros [[<- <-]|[_ ?]]%lookup_insert_Some; [right; by eexists|left; by apply Hsame].
  - unfold sql_session. destruct (sessions d !! hash) as [r0|] eqn:Hr0; [|left; by apply Hsame]. destruct (_ && _); [|left; by apply Hsame]. cbn. intros [[<- <-]|[_ ?]]%lookup_insert_Some; left; [by exists r0|by apply Hsame].
  - cbn. intros [_ ?]%lookup_delete_Some. left. by apply Hsame.
  - unfold tx_invite. repeat case_match; cbn in *; simplify_eq; left; by apply Hsame.
Qed.

(** Tokens are drawn once. *)
Lemma drawn_grows : drawn d ⊆ drawn d'.
Proof.
  subst d'. destruct (respond_heals w d c) as [-> | ->]; [done|]. destruct c; cbn [srespond heal sw_fault sw_db_now faulty fst]; try done.
  - destruct (fresh_token _ d); [cbn; set_solver|done].
  - unfold sql_insert_login. by destruct (login_attempts d !! state).
  - unfold sql_consume_login. destruct (login_attempts d !! state); [by destruct (_ && _)|done].
  - unfold sql_insert_session. by destruct (sessions d !! hash).
  - unfold sql_session. destruct (sessions d !! hash); [by destruct (_ && _)|done].
  - unfold tx_invite. repeat case_match; cbn in *; simplify_eq; done.
Qed.

Lemma draw_fresh token : (srespond w d DrawToken).2 = Some token -> Digest token ∉ drawn d /\ Digest token ∈ drawn (srespond w d DrawToken).1.
Proof.
  cbn. unfold fresh_token. destruct (sw_random w) as [b|]; [|done]. cbn [mbind option_bind]. destruct (_ && _) eqn:Hb; [|done]. rewrite !andb_true_iff, bool_decide_eq_true in Hb. cbn. intros [= <-]. split; [tauto|set_solver].
Qed.

(** What a login or a session that is answered says of the table. *)
Lemma consume_answered h b n l : (srespond w d (SqlConsumeLogin h b n)).2 = Scanned l -> login_attempts d !! h = Some l /\ lg_browser l = b /\ login_attempts (srespond w d (SqlConsumeLogin h b n)).1 !! h = None.
Proof.
  cbn. destruct (sw_fault w); [|done..]. cbn [faulty]. unfold sql_consume_login. destruct (login_attempts d !! h) as [l'|] eqn:Hl; [|done]. destruct (_ && _) eqn:Hb; [|done]. cbn. intros [= <-]. apply andb_true_iff in Hb as [Hb%bool_decide_eq_true _]. by rewrite lookup_delete_eq.
Qed.
Lemma session_answered h n i s : (srespond w d (SqlSession h n i)).2 = Scanned s ->
  exists r, sessions d !! h = Some r /\ s_principal s = ss_principal r /\ pg_time n < ss_expires r /\ ExpiresAt s <= ss_expires r /\ ExpiresAt s <= pg_time i.
Proof.
  cbn. destruct (sw_fault w); [|done..]. cbn [faulty]. unfold sql_session. destruct (sessions d !! h) as [r|]; [|done]. destruct (_ && _) eqn:Hb; [|done]. cbn. intros [= <-]. exists r. split_and!; try done; cbn; lia.
Qed.

(** *** Members and invites *)

(** What an invite may become. *)
Definition same_invite (i i' : invite_row) : Prop := iv_email i' = iv_email i /\ iv_role i' = iv_role i /\ (iv_used i <> None -> iv_used i' = iv_used i).
Definition unused (m : gmap bytes invite_row) : gmap bytes invite_row := filter (fun x => iv_used x.2 = None) m.

Lemma tx_invite_cases h p n a : let x := tx_invite d h p n a in
  (x.1 = d /\ (a = true -> State x.2 <> InviteActive)) \/ (x.1 = d /\ a = false) \/
  exists i, invites d !! h = Some i /\ iv_used i = None /\ iv_email i = Email p /\ a = true /\ State x.2 = InviteActive /\
    members x.1 = match members d !! (Issuer p, Subject p) with Some _ => members d | None => <[(Issuer p, Subject p) := iv_role i]> (members d) end /\
    invites x.1 = <[h := mkInviteRow (iv_email i) (iv_role i) (iv_inviter i) (iv_expires i) (Some (pg_time n))]> (invites d).
Proof.
  cbv zeta. unfold tx_invite. destruct (invites d !! h) as [i|] eqn:Hi; [|by left]. destruct (bool_decide_reflect (iv_email i = Email p)) as [He|]; [|by left]. cbn [negb]. destruct (bool_decide_reflect (is_Some (iv_used i))) as [|Hu]; [by left|].
  destruct (iv_expires i <=? n); [by left|]. destruct a; [right; right|right; by left]. exists i. split_and!; try done. by apply eq_None_not_Some.
Qed.
End calls.

Lemma members_change w d c : let d' := (srespond w d c).1 in
  (members d' = members d /\ invites d' = invites d) \/
  exists h p n i, c = TxInvite h p n true /\ invites d !! h = Some i /\ iv_used i = None /\ iv_email i = Email p /\
    members d' = match members d !! (Issuer p, Subject p) with Some _ => members d | None => <[(Issuer p, Subject p) := iv_role i]> (members d) end /\
    invites d' = <[h := mkInviteRow (iv_email i) (iv_role i) (iv_inviter i) (iv_expires i) (Some (pg_time n))]> (invites d).
Proof.
  cbv zeta. destruct (respond_heals w d c) as [-> | ->]; [by left|]. destruct c; cbn [srespond heal sw_fault sw_db_now faulty fst]; try (by left).
  - destruct (fresh_token _ d); by left.
  - unfold sql_insert_login. destruct (login_attempts d !! state); by left.
  - unfold sql_consume_login. destruct (login_attempts d !! state); [destruct (_ && _)|]; by left.
  - unfold sql_insert_session. destruct (sessions d !! hash); by left.
  - unfold sql_session. destruct (sessions d !! hash); [destruct (_ && _)|]; by left.
  - pose proof (tx_invite_cases d hash p now accept) as Hc. cbv zeta in Hc. destruct (tx_invite d hash p now accept) as [d1 v]. cbn [fst snd] in *. destruct Hc as [[-> _]|[[-> _]|(i & Hi & Hu & He & -> & _ & Hm & Hv)]]; [by left..|right]. by exists hash, p, now, i.
Qed.

(** An invite that is answered as accepted was open. *)
Lemma accept_answered w d h p n v : (srespond w d (TxInvite h p n true)).2 = Some v -> State v = InviteActive ->
  exists i i', invites d !! h = Some i /\ iv_used i = None /\ invites (srespond w d (TxInvite h p n true)).1 !! h = Some i' /\ iv_used i' <> None /\ iv_email i' = Email p /\
    is_Some (members (srespond w d (TxInvite h p n true)).1 !! (Issuer p, Subject p)).
Proof.
  cbn [srespond]. destruct (sw_fault w); cbn [faulty]; [|done..]. pose proof (tx_invite_cases d h p n true) as Hc. cbv zeta in Hc. destruct (tx_invite d h p n true) as [d1 v1]. cbn [fst snd] in *. intros [= <-] Ha.
  destruct Hc as [[_ Hn]|[[_ ?]|(i & Hi & Hu & He & _ & _ & Hm & Hv)]]; [by destruct Hn|done|]. rewrite Hv. eexists i, _. split_and!; [done|done|apply lookup_insert_eq|done|done|].
  rewrite Hm. destruct (members d !! (Issuer p, Subject p)) as [role|] eqn:Hr; [by rewrite Hr|by rewrite lookup_insert_eq].
Qed.

(** ** The invariant *)

Section runs.
Context `{UnicodeTables} (config : StaffConfig) (m0 : gmap (bytes * bytes) bytes) (i0 : gmap bytes invite_row).

(** The login was started for a browser; the session was saved for a principal. *)
Definition started (ts : list strace) (h browser : bytes) : Prop := exists t l r, t ∈ ts /\ sdid t (SqlInsertLogin h l) r /\ lg_browser l = browser.
Definition opened (ts : list strace) (h : bytes) (p : Principal) (e : Z) : Prop := exists t r x, t ∈ ts /\ sdid t (SqlInsertSession h r) x /\ ss_principal r = p /\ pg_time (ss_expires r) = e.
Definition guarded (t : strace) (c : scall) : Prop :=
  match c with SqlInsertLogin h l => new_login t h l | SqlInsertSession h r => new_session config t h r | TxInvite _ p _ _ => signed_in t p | _ => True end.

(** Who became a member by an invite. *)
Definition admitted (d : staff_db) (ts : list strace) (k : bytes * bytes) (role : bytes) : Prop :=
  exists t h p n r i, t ∈ ts /\ sdid t (TxInvite h p n true) r /\ k = (Issuer p, Subject p) /\ invites d !! h = Some i /\ iv_role i = role /\ iv_email i = Email p /\ iv_used i <> None.

Record staff_inv (d : staff_db) (ts : list strace) : Prop := mkStaffInv {
  si_drawn : forall t token, t ∈ ts -> drew t token -> Digest token ∈ drawn d;
  si_owner : forall i j ti tj a b, ts !! i = Some ti -> ts !! j = Some tj -> drew ti a -> drew tj b -> Digest a = Digest b -> i = j;
  si_calls : forall t x, t ∈ ts -> x ∈ t -> guarded t (projT1 x);
  si_attempts : forall h l, login_attempts d !! h = Some l -> started ts h (lg_browser l);
  si_consumed : forall t h b n l, t ∈ ts -> sdid t (SqlConsumeLogin h b n) (Scanned l) -> login_attempts d !! h = None /\ started ts h b;
  si_once : forall i j ti tj h b n l b' n' l', ts !! i = Some ti -> ts !! j = Some tj -> sdid ti (SqlConsumeLogin h b n) (Scanned l) -> sdid tj (SqlConsumeLogin h b' n') (Scanned l') -> i = j;
  si_sessions : forall h r, sessions d !! h = Some r -> opened ts h (ss_principal r) (ss_expires r);
  si_shown : forall t h n i s, t ∈ ts -> sdid t (SqlSession h n i) (Scanned s) -> exists e, opened ts h (s_principal s) e /\ pg_time n < e /\ ExpiresAt s <= e /\ ExpiresAt s <= pg_time i;
  si_members : forall k role, members d !! k = Some role -> m0 !! k = Some role \/ admitted d ts k role;
  si_kept : m0 ⊆ members d;
  si_invites : forall h i, invites d !! h = Some i -> exists i1, i0 !! h = Some i1 /\ same_invite i1 i;
  si_count : (size (members d) + size (unused (invites d)) <= size m0 + size (unused i0))%nat;
  si_accepted : forall t h p n v, t ∈ ts -> sdid t (TxInvite h p n true) (Some v) -> State v = InviteActive -> exists i, invites d !! h = Some i /\ iv_used i <> None /\ iv_email i = Email p /\ is_Some (members d !! (Issuer p, Subject p));
  si_accepted_once : forall i j ti tj h p n v p' n' v', ts !! i = Some ti -> ts !! j = Some tj -> sdid ti (TxInvite h p n true) (Some v) -> State v = InviteActive -> sdid tj (TxInvite h p' n' true) (Some v') -> State v' = InviteActive -> i = j
}.

Lemma staff_inv_start : staff_inv (mkStaffDb ∅ ∅ m0 i0 ∅) [].
Proof.
  split; cbn; try (by intros *; rewrite ?lookup_nil; try done; intros ?%elem_of_nil); try done.
  - intros k role. by left.
  - intros h i Hi. exists i. split; [done|]. by split_and!.
Qed.

Lemma started_grown ts ts' h b : grown ts ts' -> started ts h b -> started ts' h b.
Proof. intros Hg (t & l & r & Ht & Hd & Hb). destruct (Hg t Ht) as (t' & Ht' & Hs). exists t', l, r. auto. Qed.
Lemma opened_grown ts ts' h p e : grown ts ts' -> opened ts h p e -> opened ts' h p e.
Proof. intros Hg (t & r & x & Ht & Hd & Hp). destruct (Hg t Ht) as (t' & Ht' & Hs). exists t', r, x. auto. Qed.

Lemma guarded_mono t t' c : t ⊆ t' -> guarded t c -> guarded t' c.
Proof.
  intros Ht. destruct c; cbn [guarded]; try done.
  - intros (a & b & Ha & Hh & Hb & Hl). exists a, b. unfold drew in *. auto.
  - intros ((tok & Hd & Hh) & (state & browser & now & l & code & raw & id & c & E1 & E2 & E3 & E) & (n & Hn & He)). split; [exists tok; unfold drew in *; auto|]. split; [|exists n; auto]. exists state, browser, now, l, code, raw, id, c. auto.
  - intros (h & n & i & s & Hd & Hs). exists h, n, i, s. auto.
Qed.

(** The token of what is stored belongs to the request that stores it. *)
Definition own_token (t : strace) (h : bytes) : Prop := exists token, drew t token /\ h = Digest token.

Section one_call.
Context (w : sworld) (d : staff_db) (ts : list strace) (i : nat) (t : strace) (c : scall).
Context (Hinv : staff_inv d ts) (Hi : ts !! i = Some t) (Hc : scall_ok config t c).
Let e : sigT sreply := existT c (srespond w d c).2.
Let ts' := <[i := t ++ [e]]> ts.
Let d' := (srespond w d c).1.

Lemma owner_is t' h : t' ∈ ts -> own_token t' h -> own_token t h -> t' = t.
Proof.
  intros (j & Hj)%list_elem_of_lookup (a & Ha & ->) (b & Hb & He). pose proof (si_owner _ _ Hinv j i t' t a b Hj Hi Ha Hb He) as ->. congruence.
Qed.

Lemma call_guarded : guarded t c.
Proof. destruct c; cbn [guarded scall_ok] in *; try done; by destruct Hc. Qed.

(** The events of the requests after the call. *)
Lemma indexed j tj x : ts' !! j = Some tj -> x ∈ tj -> (exists t0, ts !! j = Some t0 /\ x ∈ t0) \/ (j = i /\ x = e).
Proof.
  intros [[<- [<- _]]|[_ Hj]]%list_lookup_insert_Some Hx; [|left; by exists tj]. apply elem_of_app in Hx as [Hx|Hx%list_elem_of_singleton]; [left; by exists t|by right].
Qed.
Lemma is_event c0 r0 : @existT scall sreply c0 r0 = e -> c0 = c /\ forall P : forall c, sreply c -> Prop, P c0 r0 -> P c (srespond w d c).2.
Proof. intros He. pose proof (f_equal (@projT1 _ _) He) as Hc0. cbn in Hc0. subst c0. split; [done|]. intros P HP. by apply (eq_ind (existT c r0) (fun x : sigT sreply => P (projT1 x) (projT2 x)) HP e). Qed.

Lemma event_old t0 x : t0 ∈ ts' -> x ∈ t0 -> (exists t1, t1 ∈ ts /\ x ∈ t1) \/ x = e.
Proof. apply (call_event ts i t e Hi). Qed.
Lemma new_trace : t ++ [e] ∈ ts'.
Proof. eapply list_elem_of_lookup_2, list_lookup_insert_eq. by eapply lookup_lt_Some. Qed.
Lemma traces_grow : grown ts ts'.
Proof. by apply grown_call. Qed.

(** A login that was inserted before is not inserted again. *)
Lemma no_second_login h b l : started ts h b -> c = SqlInsertLogin h l -> False.
Proof.
  intros (t1 & l1 & r1 & Ht1 & Hd1 & _) ->. destruct Hc as [(st & br & Hst & Hh & _) Hu]. destruct (si_calls _ _ Hinv _ _ Ht1 Hd1) as (st' & br' & Hst' & Hh' & _).
  assert (t1 = t) as -> by (apply (owner_is t1 h Ht1); [by exists st'|by exists st]). by specialize (Hu _ Hd1).
Qed.
Lemma no_second_session h p x r : opened ts h p x -> c = SqlInsertSession h r -> False.
Proof.
  intros (t1 & r1 & x1 & Ht1 & Hd1 & _) ->. destruct Hc as [((tok & Htok & Hh) & _) Hu]. destruct (si_calls _ _ Hinv _ _ Ht1 Hd1) as ((tok' & Htok' & Hh') & _).
  assert (t1 = t) as -> by (apply (owner_is t1 h Ht1); [by exists tok'|by exists tok]). by specialize (Hu _ Hd1).
Qed.

Lemma drawn_call : (forall t0 token, t0 ∈ ts' -> drew t0 token -> Digest token ∈ drawn d') /\
  forall j k tj tk a b, ts' !! j = Some tj -> ts' !! k = Some tk -> drew tj a -> drew tk b -> Digest a = Digest b -> j = k.
Proof.
  assert (forall a, existT DrawToken (Some a) = e -> Digest a ∉ drawn d /\ Digest a ∈ drawn d') as Hnew.
  { intros a He. destruct (is_event _ _ He) as [<- HP]. apply (draw_fresh w d a). by apply (HP (fun c r => match c return sreply c -> Prop with DrawToken => fun r => r = Some a | _ => fun _ => True end r)). }
  assert (forall j t0 a, ts !! j = Some t0 -> existT DrawToken (Some a) ∈ t0 -> Digest a ∈ drawn d) as Hold by (intros j t0 a Hj Ha; apply (si_drawn _ _ Hinv t0 a); [by eapply list_elem_of_lookup_2|done]).
  split.
  - intros t0 a Ht Ha. destruct (event_old _ _ Ht Ha) as [(t1 & Ht1 & Ha1)|He]; [apply (drawn_grows w d c); by eapply si_drawn|by apply Hnew].
  - intros j k tj tk a b Hj Hk Ha Hb He. destruct (indexed _ _ _ Hj Ha) as [(t1 & Ht1 & Ha1)|[-> Ea]], (indexed _ _ _ Hk Hb) as [(t2 & Ht2 & Hb2)|[-> Eb]]; [by eapply si_owner| | |done].
    + destruct (Hnew b Eb) as [Hn _]. rewrite <- He in Hn. by destruct (Hn (Hold j t1 a Ht1 Ha1)).
    + destruct (Hnew a Ea) as [Hn _]. rewrite He in Hn. by destruct (Hn (Hold k t2 b Ht2 Hb2)).
Qed.

(** The new event is a consumed login: it was there, and is gone. *)
Lemma new_consumed h b n l : existT (SqlConsumeLogin h b n) (Scanned l) = e -> login_attempts d !! h = Some l /\ lg_browser l = b /\ login_attempts d' !! h = None.
Proof.
  intros He. destruct (is_event _ _ He) as [Hcc HP]. subst d'. revert HP. rewrite <- Hcc. intros HP. apply (consume_answered w d h b n l).
  by apply (HP (fun c r => match c return sreply c -> Prop with SqlConsumeLogin _ _ _ => fun r => r = Scanned l | _ => fun _ => True end r)).
Qed.

Lemma logins_call :
  (forall h l, login_attempts d' !! h = Some l -> started ts' h (lg_browser l)) /\
  (forall t0 h b n l, t0 ∈ ts' -> sdid t0 (SqlConsumeLogin h b n) (Scanned l) -> login_attempts d' !! h = None /\ started ts' h b) /\
  (forall j k tj tk h b n l b' n' l', ts' !! j = Some tj -> ts' !! k = Some tk -> sdid tj (SqlConsumeLogin h b n) (Scanned l) -> sdid tk (SqlConsumeLogin h b' n') (Scanned l') -> j = k).
Proof.
  split_and!.
  - intros h l [Hl|(l' & Hcl & Hb)]%attempts_back; [eapply started_grown; [apply traces_grow|by apply (si_attempts _ _ Hinv)]|].
    exists (t ++ [e]), l', (srespond w d (SqlInsertLogin h l')).2. split_and!; [apply new_trace| |done]. apply elem_of_app. right. subst e. rewrite Hcl. by left.
  - intros t0 h b n l Ht0 Hd. destruct (event_old _ _ Ht0 Hd) as [(t1 & Ht1 & Hd1)|He].
    + destruct (si_consumed _ _ Hinv _ _ _ _ _ Ht1 Hd1) as [Hn Hst]. split; [|eapply started_grown; [apply traces_grow|done]].
      apply eq_None_not_Some. intros [l' [Hl'|(l2 & Hcl & _)]%attempts_back]; [congruence|by eapply no_second_login].
    + destruct (new_consumed _ _ _ _ He) as (Hl & <- & Hn). split; [done|]. eapply started_grown; [apply traces_grow|by apply (si_attempts _ _ Hinv)].
  - intros j k tj tk h b n l b' n' l' Hj Hk Hdj Hdk. destruct (indexed _ _ _ Hj Hdj) as [(t1 & Ht1 & Hd1)|[-> Ej]], (indexed _ _ _ Hk Hdk) as [(t2 & Ht2 & Hd2)|[-> Ek]]; [by eapply si_once| | |done].
    + destruct (new_consumed _ _ _ _ Ek) as (Hl & _). destruct (si_consumed _ _ Hinv _ _ _ _ _ (list_elem_of_lookup_2 _ _ _ Ht1) Hd1) as [Hn _]. congruence.
    + destruct (new_consumed _ _ _ _ Ej) as (Hl & _). destruct (si_consumed _ _ Hinv _ _ _ _ _ (list_elem_of_lookup_2 _ _ _ Ht2) Hd2) as [Hn _]. congruence.
Qed.

Lemma sessions_call :
  (forall h r, sessions d' !! h = Some r -> opened ts' h (ss_principal r) (ss_expires r)) /\
  (forall t0 h n k s, t0 ∈ ts' -> sdid t0 (SqlSession h n k) (Scanned s) -> exists x, opened ts' h (s_principal s) x /\ pg_time n < x /\ ExpiresAt s <= x /\ ExpiresAt s <= pg_time k).
Proof.
  split.
  - intros h r [(r0 & Hr & -> & ->)|(r0 & Hcl & -> & ->)]%sessions_back; [eapply opened_grown; [apply traces_grow|by apply (si_sessions _ _ Hinv)]|].
    exists (t ++ [e]), r0, (srespond w d (SqlInsertSession h r0)).2. split_and!; [apply new_trace| |done..]. apply elem_of_app. right. subst e. rewrite Hcl. by left.
  - intros t0 h n k s Ht0 Hd. destruct (event_old _ _ Ht0 Hd) as [(t1 & Ht1 & Hd1)|He].
    + destruct (si_shown _ _ Hinv _ _ _ _ _ Ht1 Hd1) as (x & Hx & Hrest). exists x. split; [eapply opened_grown; [apply traces_grow|done]|done].
    + destruct (is_event _ _ He) as [Hcc HP]. destruct (session_answered w d h n k s) as (r & Hr & -> & Hn & Hx & Hk).
      { revert HP. rewrite <- Hcc. intros HP. by apply (HP (fun c r => match c return sreply c -> Prop with SqlSession _ _ _ => fun r => r = Scanned s | _ => fun _ => True end r)). }
      exists (ss_expires r). split_and!; try done. eapply opened_grown; [apply traces_grow|by apply (si_sessions _ _ Hinv)].
Qed.

(** *** Members *)

(** The invites keep what they say, and those that were used stay used. *)
Lemma invites_kept h k : invites d !! h = Some k -> exists k', invites d' !! h = Some k' /\ same_invite k k'.
Proof.
  intros Hk. destruct (members_change w d c) as [[_ Hv]|(h1 & p & n & k1 & _ & Hk1 & Hu & _ & _ & Hv)]; subst d'; rewrite Hv; [exists k; split; [done|by split_and!]|]. destruct (decide (h = h1)) as [->|Hne].
  - rewrite lookup_insert_eq. eexists. split; [done|]. assert (k1 = k) as -> by congruence. split_and!; [done|done|]. by rewrite Hu.
  - rewrite lookup_insert_ne by done. exists k. split; [done|by split_and!].
Qed.

Lemma admitted_grown k role : admitted d ts k role -> admitted d' ts' k role.
Proof.
  intros (t0 & h & p & n & r & v & Ht & Hd & Hk & Hv & Hr & He & Hu). destruct (invites_kept h v Hv) as (v' & Hv' & Ee & Er & Eu). destruct (traces_grow t0 Ht) as (t1 & Ht1 & Hs). exists t1, h, p, n, r, v'. split_and!; try congruence; auto. by rewrite Eu.
Qed.

Lemma members_call :
  (forall k role, members d' !! k = Some role -> m0 !! k = Some role \/ admitted d' ts' k role) /\ m0 ⊆ members d' /\
  (forall h v, invites d' !! h = Some v -> exists v1, i0 !! h = Some v1 /\ same_invite v1 v) /\
  (size (members d') + size (unused (invites d')) <= size m0 + size (unused i0))%nat.
Proof.
  pose proof (members_change w d c) as Hm. cbv zeta in Hm. fold d' in Hm. assert (forall k role, members d !! k = Some role -> m0 !! k = Some role \/ admitted d' ts' k role) as Hold.
  { intros k role Hk. destruct (si_members _ _ Hinv k role Hk) as [?|Ha]; [by left|right; by apply admitted_grown]. }
  destruct Hm as [[Hm Hv]|(h & p & n & v & Hcl & Hh & Hu & He & Hm & Hv)].
  { rewrite Hm, Hv. split_and!; [done|apply (si_kept _ _ Hinv)|apply (si_invites _ _ Hinv)|apply (si_count _ _ Hinv)]. }
  set (v' := mkInviteRow _ _ _ _ _) in Hv. assert (unused (invites d') = delete h (unused (invites d))) as Hun.
  { rewrite Hv. unfold unused. apply map_eq. intros x. destruct (decide (x = h)) as [->|Hne].
    - rewrite lookup_delete_eq. apply map_lookup_filter_None. right. intros y. rewrite lookup_insert_eq. by intros [= <-].
    - rewrite lookup_delete_ne by done. apply option_eq. intros y. rewrite !map_lookup_filter_Some, lookup_insert_ne by done. done. }
  assert (unused (invites d) !! h = Some v) as Hin by (by apply map_lookup_filter_Some). assert (size (unused (invites d)) = S (size (unused (invites d')))) as Hsize.
  { rewrite Hun, map_size_delete_Some by (by eexists). pose proof (map_size_ne_0_lookup_2 (unused (invites d)) h (ex_intro _ v Hin)). lia. }
  pose proof (si_count _ _ Hinv) as Hcount. split_and!.
  - rewrite Hm. intros k role Hk. destruct (members d !! (Issuer p, Subject p)) as [y|] eqn:Hy; [by apply Hold|]. apply lookup_insert_Some in Hk as [[<- <-]|[_ Hk]]; [right|by apply Hold].
    exists (t ++ [e]), h, p, n, (srespond w d (TxInvite h p n true)).2, v'. split_and!; [apply new_trace| |done|rewrite Hv; apply lookup_insert_eq|done|done|done]. apply elem_of_app. right. subst e. rewrite Hcl. by left.
  - rewrite Hm. destruct (members d !! (Issuer p, Subject p)) as [y|] eqn:Hy; [apply (si_kept _ _ Hinv)|]. etrans; [apply (si_kept _ _ Hinv)|by apply insert_subseteq].
  - rewrite Hv. intros x y [[<- <-]|[_ Hy]]%lookup_insert_Some; [|by apply (si_invites _ _ Hinv)]. destruct (si_invites _ _ Hinv h v Hh) as (v1 & Hv1 & E1 & E2 & E3). exists v1. split; [done|]. split_and!; [done|done|]. intros Hn. specialize (E3 Hn). congruence.
  - rewrite Hm. destruct (members d !! (Issuer p, Subject p)) as [y|] eqn:Hy; [lia|]. rewrite map_size_insert_None by done. lia.
Qed.

Lemma members_kept k role : members d !! k = Some role -> members d' !! k = Some role.
Proof.
  intros Hk. destruct (members_change w d c) as [[Hm _]|(h & p & n & v & _ & _ & _ & _ & Hm & _)]; subst d'; rewrite Hm; [done|]. destruct (members d !! (Issuer p, Subject p)) as [y|] eqn:Hy; [done|]. rewrite lookup_insert_ne; [done|]. intros <-. congruence.
Qed.

Lemma new_accepted h p n v : existT (TxInvite h p n true) (Some v) = e -> State v = InviteActive ->
  exists k k', invites d !! h = Some k /\ iv_used k = None /\ invites d' !! h = Some k' /\ iv_used k' <> None /\ iv_email k' = Email p /\ is_Some (members d' !! (Issuer p, Subject p)).
Proof.
  intros He Ha. destruct (is_event _ _ He) as [Hcc HP]. subst d'. revert HP. rewrite <- Hcc. intros HP. apply (accept_answered w d h p n v); [|done].
  by apply (HP (fun c r => match c return sreply c -> Prop with TxInvite _ _ _ _ => fun r => r = Some v | _ => fun _ => True end r)).
Qed.

Lemma accepts_call :
  (forall t0 h p n v, t0 ∈ ts' -> sdid t0 (TxInvite h p n true) (Some v) -> State v = InviteActive -> exists k, invites d' !! h = Some k /\ iv_used k <> None /\ iv_email k = Email p /\ is_Some (members d' !! (Issuer p, Subject p))) /\
  (forall j k tj tk h p n v p' n' v', ts' !! j = Some tj -> ts' !! k = Some tk -> sdid tj (TxInvite h p n true) (Some v) -> State v = InviteActive -> sdid tk (TxInvite h p' n' true) (Some v') -> State v' = InviteActive -> j = k).
Proof.
  split.
  - intros t0 h p n v Ht0 Hd Ha. destruct (event_old _ _ Ht0 Hd) as [(t1 & Ht1 & Hd1)|He].
    + destruct (si_accepted _ _ Hinv _ _ _ _ _ Ht1 Hd1 Ha) as (k & Hk & Hu & He & [role Hr]). destruct (invites_kept h k Hk) as (k' & Hk' & Ee & _ & Eu). exists k'. split_and!; [done|by rewrite Eu|congruence|exists role; by apply members_kept].
    + destruct (new_accepted _ _ _ _ He Ha) as (_ & k' & _ & _ & Hk' & Hu & Hm & Hr). by exists k'.
  - intros j k tj tk h p n v p' n' v' Hj Hk Hdj Haj Hdk Hak. destruct (indexed _ _ _ Hj Hdj) as [(t1 & Ht1 & Hd1)|[-> Ej]], (indexed _ _ _ Hk Hdk) as [(t2 & Ht2 & Hd2)|[-> Ek]]; [by eapply (si_accepted_once _ _ Hinv)| | |done].
    + destruct (new_accepted _ _ _ _ Ek Hak) as (x & _ & Hx & Hn & _). destruct (si_accepted _ _ Hinv _ _ _ _ _ (list_elem_of_lookup_2 _ _ _ Ht1) Hd1 Haj) as (y & Hy & Hu & _). congruence.
    + destruct (new_accepted _ _ _ _ Ej Haj) as (x & _ & Hx & Hn & _). destruct (si_accepted _ _ Hinv _ _ _ _ _ (list_elem_of_lookup_2 _ _ _ Ht2) Hd2 Hak) as (y & Hy & Hu & _). congruence.
Qed.

Lemma staff_inv_call : staff_inv d' ts'.
Proof.
  destruct drawn_call as [D1 D2], logins_call as (L1 & L2 & L3), sessions_call as [S1 S2], members_call as (M1 & M2 & M3 & M4), accepts_call as [A1 A2]. split; try done.
  intros t0 x [j Hj]%list_elem_of_lookup Hx. destruct (indexed _ _ _ Hj Hx) as [(t1 & Ht1 & Hx1)|[-> ->]].
  - apply (guarded_mono t1); [|eapply (si_calls _ _ Hinv); [by eapply list_elem_of_lookup_2|done]]. apply list_lookup_insert_Some in Hj as [[<- [<- _]]|[_ Hj]]; [|congruence]. assert (t1 = t) as -> by congruence. set_solver.
  - apply list_lookup_insert_Some in Hj as [[_ [<- _]]|[Hne _]]; [|done]. apply (guarded_mono t); [set_solver|apply call_guarded].
Qed.
End one_call.

Lemma staff_inv_grown d ts : staff_inv d ts -> staff_inv d (ts ++ [[]]).
Proof.
  intros Hinv. pose proof (grown_start ts) as Hg. assert (forall j (t : strace) x, (ts ++ [[]]) !! j = Some t -> x ∈ t -> ts !! j = Some t) as Hold.
  { intros j t x [Hj|[_ Hj]]%lookup_app_Some Hx; [done|]. apply list_elem_of_lookup_2, list_elem_of_singleton in Hj. subst t. by apply elem_of_nil in Hx. }
  assert (forall (t : strace) x, t ∈ ts ++ [[]] -> x ∈ t -> t ∈ ts) as Hin by (intros t x [Ht|Ht%list_elem_of_singleton]%elem_of_app Hx; [done|]; subst t; by apply elem_of_nil in Hx).
  split.
  - intros t a Ht Ha. apply (si_drawn _ _ Hinv t); [by eapply Hin|done].
  - intros i j ti tj a b Ht1 Ht2 Ha Hb. apply (si_owner _ _ Hinv i j ti tj a b); [by eapply Hold|by eapply Hold|done..].
  - intros t x Ht Hx. apply (si_calls _ _ Hinv t x); [by eapply Hin|done].
  - intros h l Hl. eapply started_grown; [done|by apply (si_attempts _ _ Hinv)].
  - intros t h b n l Ht Hd. destruct (si_consumed _ _ Hinv t h b n l) as [? ?]; [by eapply Hin|done|]. split; [done|by eapply started_grown].
  - intros i j ti tj h b n l b' n' l' Ht1 Ht2 Hd Hd'. eapply (si_once _ _ Hinv i j ti tj); [by eapply Hold|by eapply Hold|done..].
  - intros h r Hr. eapply opened_grown; [done|by apply (si_sessions _ _ Hinv)].
  - intros t h n i s Ht Hd. destruct (si_shown _ _ Hinv t h n i s) as (x & ? & ?); [by eapply Hin|done|]. exists x. split; [by eapply opened_grown|done].
  - intros k role Hk. destruct (si_members _ _ Hinv k role Hk) as [?|(t & h & p & n & r & i & Ht & Hd & Hrest)]; [by left|right]. exists t, h, p, n, r, i. split_and!; try apply Hrest; [apply elem_of_app; by left|done].
  - apply (si_kept _ _ Hinv).
  - apply (si_invites _ _ Hinv).
  - apply (si_count _ _ Hinv).
  - intros t h p n v Ht Hd. apply (si_accepted _ _ Hinv t h p n v); [by eapply Hin|done].
  - intros i j ti tj h p n v p' n' v' Ht1 Ht2 Hd Ha Hd' Ha'. eapply (si_accepted_once _ _ Hinv i j ti tj); [by eapply Hold|by eapply Hold|done..].
Qed.

Lemma staff_run_from s es s' : invariant (scall_ok config) slegal (sanswer_ok config) staff_inv s -> staff_run config s es = Some s' -> invariant (scall_ok config) slegal (sanswer_ok config) staff_inv s'.
Proof.
  apply (run_invariant_from srespond (sprogram_of config) (scall_ok config) slegal (sanswer_ok config) staff_inv).
  - intros q. apply staff_sprogram.
  - done.
  - apply staff_inv_grown.
  - intros w d ts i t c Hi Ht Hc. by apply staff_inv_call.
Qed.

Lemma staff_run_ok es s : staff_run config (staff_start m0 i0) es = Some s -> invariant (scall_ok config) slegal (sanswer_ok config) staff_inv s.
Proof. apply staff_run_from. split; [apply staff_inv_start|]. by intros th ?%elem_of_nil. Qed.

(** ** What it gives *)

Section facts.
Context (s : system sreply srequest sanswer staff_db) (Hs : invariant (scall_ok config) slegal (sanswer_ok config) staff_inv s).

Lemma answer_of th a : th ∈ sys_threads s -> th_prog th = Ret a -> sanswer_ok config (th_request th) (th_trace th) a /\ th_trace th ∈ traces s.
Proof. intros Hin Hp. destruct Hs as [_ Hth]. specialize (Hth th Hin). rewrite Hp in Hth. split; [done|by apply list_elem_of_fmap_2]. Qed.

Lemma opened_earned h p x : opened (traces s) h p x -> exists t now, t ∈ traces s /\ own_token t h /\ earned config t p /\ sdid t ServiceNow now /\ x = pg_time (now + cfg_lifetime config).
Proof.
  intros (t & r & y & Ht & Hd & <- & <-). destruct (si_calls _ _ (proj1 Hs) _ _ Ht Hd) as ((token & Htok & Hh) & He & now & Hn & Hx). exists t, now. rewrite Hx. split_and!; [done|by exists token|done..].
Qed.
End facts.


(** C36. An invite admits one member, the one it names.  Who was not a member before was
    admitted with the role of an invite for an address that the provider verified; a
    member keeps the role for ever; there are no more new members than used invites;
    an invite is accepted by at most one request, and its principal is then a member. *)
Theorem staff_invites_admit_once (es : list (event srequest sworld)) (s : system sreply srequest sanswer staff_db) :
  staff_run config (staff_start m0 i0) es = Some s ->
  (forall k role, members (sys_db s) !! k = Some role -> m0 !! k = Some role \/
     exists h i p t, i0 !! h = Some i /\ iv_role i = role /\ iv_email i = Email p /\ k = (Issuer p, Subject p) /\ t ∈ traces s /\ earned config t p) /\
  m0 ⊆ members (sys_db s) /\
  (size (members (sys_db s)) + size (unused (invites (sys_db s))) <= size m0 + size (unused i0))%nat /\
  (forall i j thi thj c invite c', sys_threads s !! i = Some thi -> sys_threads s !! j = Some thj -> th_request thi = AcceptInviteRequest c invite -> th_prog thi = Ret (AcceptAnswer (Ok tt)) ->
     th_request thj = AcceptInviteRequest c' invite -> th_prog thj = Ret (AcceptAnswer (Ok tt)) -> i = j) /\
  (forall th c invite, th ∈ sys_threads s -> th_request th = AcceptInviteRequest c invite -> th_prog th = Ret (AcceptAnswer (Ok tt)) ->
     exists v i, session_of config (th_trace th) c v /\ i0 !! Digest invite = Some i /\ iv_email i = Email (s_principal v) /\ is_Some (members (sys_db s) !! (Issuer (s_principal v), Subject (s_principal v)))).
Proof.
  intros Hs%staff_run_ok. pose proof Hs as [Hinv _]. split_and!; [|apply (si_kept _ _ Hinv)|apply (si_count _ _ Hinv)|..].
  - intros k role Hk. destruct (si_members _ _ Hinv k role Hk) as [?|(t & h & p & n & r & i & Ht & Hd & Hk' & Hi & Hr & He & _)]; [by left|right]. destruct (si_invites _ _ Hinv h i Hi) as (i1 & Hi1 & E1 & E2 & _).
    destruct (si_calls _ _ Hinv _ _ Ht Hd) as (h' & n' & k' & v & Hd' & <-). destruct (si_shown _ _ Hinv _ _ _ _ _ Ht Hd') as (x & Ho & _). destruct (opened_earned s Hs _ _ _ Ho) as (t' & now & Ht' & _ & Hearn & _). exists h, i1, (s_principal v), t'. split_and!; congruence.
  - intros i j thi thj c invite c' Hi Hj Hq Hp Hq' Hp'. destruct (answer_of s Hs thi _ (list_elem_of_lookup_2 _ _ _ Hi) Hp) as [Ha _], (answer_of s Hs thj _ (list_elem_of_lookup_2 _ _ _ Hj) Hp') as [Ha' _].
    rewrite Hq in Ha. rewrite Hq' in Ha'. destruct (Ha eq_refl) as (v & y & n & _ & Hd & Hst), (Ha' eq_refl) as (v' & y' & n' & _ & Hd' & Hst').
    eapply (si_accepted_once _ _ Hinv i j (th_trace thi) (th_trace thj)); [unfold traces; by rewrite list_lookup_fmap, Hi|unfold traces; by rewrite list_lookup_fmap, Hj|done..].
  - intros th c invite Hin Hq Hp. destruct (answer_of s Hs th _ Hin Hp) as [Ha Ht]. rewrite Hq in Ha. destruct (Ha eq_refl) as (v & y & n & Hv & Hd & Hst). destruct (si_accepted _ _ Hinv _ _ _ _ _ Ht Hd Hst) as (i & Hi & _ & He & Hm).
    destruct (si_invites _ _ Hinv _ i Hi) as (i1 & Hi1 & E1 & _). exists v, i1. split_and!; [done|done|congruence|done].
Qed.

(** A session that is gone stays gone. *)
Definition ended (h : bytes) (n : nat) (d : staff_db) (ts : list strace) : Prop :=
  staff_inv d ts /\ (exists p x, opened ts h p x) /\ sessions d !! h = None /\ forall j t a b v, (n <= j)%nat -> ts !! j = Some t -> ~ sdid t (SqlSession h a b) (Scanned v).

Lemma ended_run h s es s' : invariant (scall_ok config) slegal (sanswer_ok config) (ended h (length (sys_threads s))) s -> staff_run config s es = Some s' -> invariant (scall_ok config) slegal (sanswer_ok config) (ended h (length (sys_threads s))) s'.
Proof.
  apply (run_invariant_from srespond (sprogram_of config) (scall_ok config) slegal (sanswer_ok config)).
  - intros q. apply staff_sprogram.
  - done.
  - intros d ts (Hi & (p & x & Ho) & Hn & Hno). split; [by apply staff_inv_grown|]. split; [exists p, x; eapply opened_grown; [apply grown_start|done]|]. split; [done|].
    intros j t a b v Hj [Ht|[_ Ht]]%lookup_app_Some; [by eapply Hno|]. apply list_elem_of_lookup_2, list_elem_of_singleton in Ht. subst t. apply not_elem_of_nil.
  - intros w d ts i t c (Hi & (p & x & Ho) & Hn & Hno) Ht Hc. split; [by apply staff_inv_call|]. split; [exists p, x; eapply opened_grown; [by apply grown_call|done]|]. split.
    + apply eq_None_not_Some. intros [r [(r0 & Hr0 & _)|(r0 & Hcl & _)]%sessions_back]; [congruence|]. by eapply (no_second_session w d ts i t c Hi Ht Hc).
    + intros j t' a b v Hj Ht' Hd. destruct (indexed w d ts i t c Ht j t' _ Ht' Hd) as [(t0 & Ht0 & Hd0)|[-> He]]; [by eapply Hno|]. destruct (is_event w d c _ _ He) as [Hcc HP].
      destruct (session_answered w d h a b v) as (r & Hr & _); [|congruence]. revert HP. rewrite <- Hcc. intros HP. by apply (HP (fun c r => match c return sreply c -> Prop with SqlSession _ _ _ => fun r => r = Scanned v | _ => fun _ => True end r)).
Qed.

(** Sessions end for good: once a session that existed is gone, because it was
    logged out or ran out, no request that starts later and presents its cookie is
    answered a session. *)
Theorem staff_sessions_end_for_good (es es' : list (event srequest sworld)) (s s' : system sreply srequest sanswer staff_db) (th th' : thread sreply srequest sanswer) (i : nat) (q : callback_query) (b cookie invite : bytes) (v : Session_) :
  staff_run config (staff_start m0 i0) es = Some s ->
  th ∈ sys_threads s -> th_request th = Callback q b -> th_prog th = Ret (CallbackAnswer (Ok (SignedIn cookie invite))) ->
  sessions (sys_db s) !! Digest cookie = None ->
  staff_run config s es' = Some s' ->
  sessions (sys_db s') !! Digest cookie = None /\
  ((length (sys_threads s) <= i)%nat -> sys_threads s' !! i = Some th' -> th_request th' = GetSession cookie -> th_prog th' <> Ret (SessionAnswer (Ok v))).
Proof.
  intros Hs%staff_run_ok Hin Hq Hp Hnone Hrun. destruct (answer_of s Hs th _ Hin Hp) as [Ha Ht]. rewrite Hq in Ha. destruct (Ha _ _ eq_refl) as (now & l & r & _ & _ & Hd).
  assert (invariant (scall_ok config) slegal (sanswer_ok config) (ended (Digest cookie) (length (sys_threads s))) s) as Hend.
  { destruct Hs as [Hinv Hth]. split; [|done]. split; [done|]. split; [exists (ss_principal r), (pg_time (ss_expires r)), (th_trace th), r, (Some tt); done|]. split; [done|]. intros j t a0 b0 v0 Hj Hjt. apply lookup_lt_Some in Hjt. unfold traces in Hjt. rewrite length_fmap in Hjt. lia. }
  apply (ended_run _ _ _ _ Hend) in Hrun as Hend'. destruct Hend' as [(Hinv' & _ & Hn' & Hno) Hth']. split; [done|]. intros Hi Hi' Hq' Hp'.
  specialize (Hth' th' (list_elem_of_lookup_2 _ _ _ Hi')). rewrite Hq', Hp' in Hth'. destruct (Hth' v eq_refl) as [asked Hx]. eapply (Hno i (th_trace th')); [done|unfold traces; by rewrite list_lookup_fmap, Hi'|exact Hx].
Qed.
End runs.

(** ** A run *)

#[local] Existing Instance ascii_tables.

Definition staff_config : StaffConfig := mkStaffConfig (bytes_of "https://idp.example") (1800 * Second) (28800 * Second) (fun state nonce verifier => state ++ nonce ++ verifier).
Definition token_of (n : Z) : bytes := base64_Encode (replicate 31 0 ++ [n]).
Definition sample_invites : gmap bytes invite_row := {[Digest (token_of 99) := mkInviteRow (bytes_of "ada@corp.example") (bytes_of "support") (bytes_of "Bob") (2000000000 * Second) None]}.
(** The random bytes are [n]; the provider vouches for Ada with the nonce of the login. *)
Definition staff_world (n : Z) : sworld :=
  mkSworld Healthy (1700000000 * Second) (1700000000 * Second) (Some (replicate 31 0 ++ [n])) (Some (Some (bytes_of "id token")))
    (Some (mkIdToken (token_of 3) (bytes_of "ada") (Some (mkOidcClaims (bytes_of "Ada@Corp.example") true (bytes_of "Ada"))))).
Definition staff_calls (i : nat) (l : list Z) : list (event srequest sworld) := (fun n => Call i (staff_world n)) <$> l.

(** Ada signs in with an invite, looks at her session, accepts the invite, signs out,
    and presents her cookie again. *)
Definition staff_before : list (event srequest sworld) :=
  Start (StartSso (token_of 99) []) :: staff_calls 0 [1; 2; 3; 4; 0; 0; 0] ++
  Start (Callback (mkCallbackQuery [token_of 1] [bytes_of "code"] []) (token_of 2)) :: staff_calls 1 [0; 0; 0; 0; 5; 0; 0; 0] ++
  Start (GetSession (token_of 5)) :: staff_calls 2 [0; 0] ++
  Start (AcceptInviteRequest (token_of 5) (token_of 99)) :: staff_calls 3 [0; 0; 0; 0] ++
  Start (LogoutRequest (token_of 5)) :: staff_calls 4 [0].
Definition staff_after : list (event srequest sworld) := Start (GetSession (token_of 5)) :: staff_calls 5 [0; 0].

Definition staff_checks (s s' : system sreply srequest sanswer staff_db) : bool :=
  match sys_threads s, sys_threads s' !! 5%nat with
  | [_; mkThread (Callback _ _) (Ret (CallbackAnswer (Ok (SignedIn token _)))) _; mkThread (GetSession cookie) (Ret (SessionAnswer (Ok v))) _; mkThread (AcceptInviteRequest c invite) (Ret (AcceptAnswer (Ok tt))) _; _],
    Some (mkThread (GetSession cookie') (Ret (SessionAnswer (Err CodeUnauthenticated))) _) =>
      bool_decide (token = token_of 5 /\ cookie = token_of 5 /\ cookie' = token_of 5 /\ c = token_of 5 /\ invite = token_of 99 /\ Name (s_principal v) = bytes_of "Ada" /\ sessions (sys_db s) !! Digest (token_of 5) = None)
  | _, _ => false
  end.

Lemma staff_sample_reaches : exists s s' t0 q b invite t1 v t2 t3 t4 t5,
  staff_run staff_config (staff_start ∅ sample_invites) staff_before = Some s /\ staff_run staff_config s staff_after = Some s' /\
  sys_threads s = [t0; mkThread (Callback q b) (Ret (CallbackAnswer (Ok (SignedIn (token_of 5) invite)))) t1; mkThread (GetSession (token_of 5)) (Ret (SessionAnswer (Ok v))) t2;
    mkThread (AcceptInviteRequest (token_of 5) (token_of 99)) (Ret (AcceptAnswer (Ok tt))) t3; t4] /\
  sys_threads s' !! 5%nat = Some (mkThread (GetSession (token_of 5)) (Ret (SessionAnswer (Err CodeUnauthenticated))) t5) /\ sessions (sys_db s) !! Digest (token_of 5) = None.
Proof.
  assert ((s ← staff_run staff_config (staff_start ∅ sample_invites) staff_before; s' ← staff_run staff_config s staff_after; Some (staff_checks s s')) = Some true) as Hs by (vm_compute; reflexivity).
  destruct (staff_run staff_config (staff_start ∅ sample_invites) staff_before) as [s|]; [|done]. cbn [mbind option_bind] in Hs. destruct (staff_run staff_config s staff_after) as [s'|] eqn:Hafter; [|done]. cbn [mbind option_bind] in Hs. injection Hs as Hs.
  exists s, s'. destruct s as [d ths]. unfold staff_checks in Hs. cbn [sys_threads sys_db] in *.
  repeat (match type of Hs with
    | bool_decide _ = _ => fail 1
    | context [match ?x with _ => _ end] => destruct x eqn:?; try done
    end).
  apply bool_decide_eq_true in Hs as (-> & -> & -> & -> & -> & _ & Hn). eexists _, _, _, _, _, _, _, _, _, _. by split_and!.
Qed.


Lemma staff_invites_admit_once_witness : exists s, staff_run staff_config (staff_start ∅ sample_invites) staff_before = Some s /\ exists k, is_Some (members (sys_db s) !! k).
Proof.
  destruct staff_sample_reaches as (s & s' & t0 & q & b & invite & t1 & v & t2 & t3 & t4 & t5 & Hrun & _ & Hs & _). exists s. split; [exact Hrun|].
  assert (mkThread (AcceptInviteRequest (token_of 5) (token_of 99)) (Ret (AcceptAnswer (Ok tt))) t3 ∈ sys_threads s) as Hin by (rewrite Hs; right; right; right; left).
  destruct (proj2 (proj2 (proj2 (proj2 (staff_invites_admit_once staff_config ∅ sample_invites staff_before s Hrun)))) _ (token_of 5) (token_of 99) Hin eq_refl eq_refl) as (u & i & _ & _ & _ & Hm). eexists. exact Hm.
Defined.

Lemma staff_sessions_end_for_good_witness : exists s s', staff_run staff_config (staff_start ∅ sample_invites) staff_before = Some s /\ staff_run staff_config s staff_after = Some s' /\ sessions (sys_db s') !! Digest (token_of 5) = None.
Proof.
  destruct staff_sample_reaches as (s & s' & t0 & q & b & invite & t1 & v & t2 & t3 & t4 & t5 & Hrun & Hrun' & Hs & Ht5 & Hn). exists s, s'. split; [exact Hrun|]. split; [exact Hrun'|].
  assert (mkThread (Callback q b) (Ret (CallbackAnswer (Ok (SignedIn (token_of 5) invite)))) t1 ∈ sys_threads s) as Hin by (rewrite Hs; right; left).
  exact (proj1 (staff_sessions_end_for_good staff_config ∅ sample_invites staff_before staff_after s s' _ (mkThread (GetSession (token_of 5)) (Ret (SessionAnswer (Err CodeUnauthenticated))) t5) 5 q b (token_of 5) invite v Hrun Hin eq_refl eq_refl Hn Hrun')).
Defined.
