(* ===== verification/TunnelFlow.v ===== *)
(** * The two ends of the tunnel together

    The handshake between gateway-in ([negotiate] and [hello] of
    [services/gateway-in/internal/tunnel/server.go]) and gateway-out
    ([handshake] and [acceptHello] of
    [services/gateway-out/internal/tunnel/session.go]), and a response on its way
    from the internal RPC of gateway-out to the caller at gateway-in. *)

From S2P Require Import Prelude TunnelContract TunnelRuntime TunnelValidate TunnelValidateProofs.
From S2P Require Import GatewayInErrors GatewayInConfig GatewayInNegotiation LogicalRequest.
From S2P Require Import GatewayOutRegistry GatewayOutSession GatewayOutSessionProofs GatewayOutSteps GatewayOutReach.
From S2P Require Import GatewayOutSample.
From S2P Require Import GatewayOutTunnel.
Local Open Scope Z_scope.

(** ** The Hello of gateway-out *)

Section hello.
Context `{ProtoRuntime} `{InternalRpc}.

(** What gateway-out sends first, without the frame around it. *)
Definition out_hello (s : GatewayOutRegistry.settings) (reg : GatewayOutRegistry.Registry) : GatewayOutHello :=
  mkGatewayOutHello (GatewayOutRegistry.set_instanceID s) [protocolVersion]
    (offered_capabilities reg) (advertisedClasses reg) (advertisedRoutes reg)
    (Some (proto (GatewayOutRegistry.set_limits s))) [].

Lemma handshake_hello_sends s reg : creq_payload (handshake_hello s reg) = Some (Req_Hello (Some (out_hello s reg))).
Proof. done. Qed.

Lemma NewRegistry_loop_length clients specs : forall reg reg',
  NewRegistry_loop clients specs reg = Ok reg' -> len (ordered reg') = len (ordered reg) + len specs.
Proof.
  induction specs as [|spec specs IH]; intros reg reg'; cbn [NewRegistry_loop].
  { intros [= <-]. rewrite len_nil. lia. }
  rewrite bind_Ok. intros ([] & _ & Hrest). rewrite guard_Ok in Hrest. destruct Hrest as [_ Hrest].
  destruct (clientForClass clients _) as [client|]; [|done].
  apply IH in Hrest. cbn [ordered] in Hrest. rewrite len_app, len_cons, len_nil in Hrest. rewrite len_cons. lia.
Qed.

Lemma NewRegistry_length clients specs reg :
  NewRegistry clients specs = Ok reg -> 0 < len (ordered reg) <= MaxAdvertisedRoutes.
Proof.
  unfold NewRegistry. rewrite guard_Ok, bind_Ok. intros (Hb & reg0 & Hl & [= <-]). cbn [ordered].
  apply NewRegistry_loop_length in Hl. apply orb_false_iff in Hb as [Hb1%Z.eqb_neq Hb2%Z.ltb_ge].
  unfold len in *. rewrite merge_sort_Permutation. cbn [ordered length] in Hl. lia.
Qed.

Lemma offered_limits_wf l : validateOfferedLimits l = Ok tt -> limits_wf (proto l).
Proof.
  unfold validateOfferedLimits. rewrite map_err_Ok, out_frame_Ok. intros Hw.
  eapply hello_frame_wf in Hw; [|done]. destruct Hw as (_ & _ & (_ & _ & _ & _ & _ & _ & l' & [= <-] & Hl)). exact Hl.
Qed.

Lemma offered_capabilities_wf reg : vocabulary_list declared_capability (offered_capabilities reg).
Proof.
  unfold offered_capabilities, vocabulary_list, declared_capability.
  destruct (hasClass reg _); (split; [apply (bool_decide_unpack _); by vm_compute|repeat (apply Forall_cons; split; [by vm_compute|]); apply Forall_nil_2]).
Qed.

Lemma out_hello_is_wf s clients specs reg :
  len (GatewayOutRegistry.set_instanceID s) = 16 -> validateOfferedLimits (GatewayOutRegistry.set_limits s) = Ok tt ->
  Forall spec_machine specs -> NewRegistry clients specs = Ok reg -> out_hello_wf (out_hello s reg).
Proof.
  intros Hid Hl Hm Hreg. pose proof (NewRegistry_length _ _ _ Hreg) as [Hpos Hmax].
  pose proof (NewRegistry_wf _ _ _ Hm Hreg) as [Hk [Hnd Ho] [Hcn Hc]].
  assert (Hdecl : forall id r, routes reg !! id = Some r -> declared_route id /\ declared_class (rt_TrafficClass (rt_spec r))).
  { intros id r Hr. destruct (Hk _ _ Hr) as [<- [Hcl _]]. by apply class_of_route_declared. }
  destruct (ordered reg) as [|id0 ids] eqn:Hord; [by vm_compute in Hpos|].
  assert (exists r0, routes reg !! id0 = Some r0) as [r0 Hr0] by (apply Ho; set_solver).
  split; [exact Hid|]. split; [split_and!; [by apply NoDup_singleton|set_solver|by vm_compute]|].
  unfold policy_wf, out_hello, advertisedRoutes, advertisedClasses. cbn [goh_capabilities goh_traffic_classes goh_route_ids goh_limits].
  rewrite Hord. split_and!; [apply offered_capabilities_wf| | |done|exact Hmax| |].
  - intros Hnil. assert (rt_TrafficClass (rt_spec r0) ∈ classes reg) as Hin by (apply Hc; eauto). rewrite Hnil in Hin. set_solver.
  - split; [done|]. apply Forall_forall. intros c Hin%Hc. destruct Hin as (id & r & Hr & <-). by eapply Hdecl.
  - split; [done|]. apply Forall_forall. intros id Hin%Ho. destruct Hin as [r Hr]. by eapply Hdecl.
  - eexists. split; [done|]. by apply offered_limits_wf.
Qed.
End hello.

(** ** The handshake *)

Section handshake.
Context `{ProtoRuntime} `{InternalRpc}.
Context (sIn : GatewayInConfig.settings) (sOut : GatewayOutRegistry.settings).
Context (clients : ClassClients) (specs : list RouteSpec) (reg : GatewayOutRegistry.Registry).
Context (n : negotiation) (tunnelID : bytes).

(** Both configurations passed their validation, and gateway-in found routes in
    common with the Hello of gateway-out. *)
Record negotiated : Prop := {
  ng_in : GatewayInConfig.settings_wf sIn;
  ng_id : len (GatewayOutRegistry.set_instanceID sOut) = 16;
  ng_limits : validateOfferedLimits (GatewayOutRegistry.set_limits sOut) = Ok tt;
  ng_specs : Forall spec_machine specs;
  ng_registry : NewRegistry clients specs = Ok reg;
  ng_tunnel : len tunnelID = 16;
  ng_negotiate : negotiate sIn (out_hello sOut reg) = Ok n
}.

(** What gateway-out keeps of the Hello of gateway-in. *)
Definition agreed_params : sessionParams :=
  mkSessionParams sOut reg tunnelID (GatewayInConfig.set_instanceID sIn) (cloneLimits (Some (neg_limits n)))
    (neg_routes n) (neg_classes n).

Lemma copy_instanceID_16 id : len id = 16 -> copy_instanceID id = id.
Proof. unfold copy_instanceID, len. intros Hid. rewrite take_app_le by lia. apply take_ge. lia. Qed.

Lemma sorted_elements_set (X : gset Z) : list_to_set (slices_Sort (elements X)) = X.
Proof.
  destruct (sorted_elements_spec X) as (_ & Hin & _). apply set_eq. intros x. by rewrite elem_of_list_to_set, Hin.
Qed.

Lemma agreed_limits : negotiated -> limitsDoNotExceed (Some (cloneLimits (Some (neg_limits n)))) (GatewayOutRegistry.set_limits sOut) = true.
Proof.
  intros Hg. destruct (negotiate_cases sIn (out_hello sOut reg)) as [[He _]|(n' & He & _ & _ & _ & _ & Hl)];
    rewrite (ng_negotiate Hg) in He; [done|]. injection He as <-.
  apply limitsDoNotExceed_spec. eexists. split; [done|]. rewrite Hl.
  destruct (minimum_limits_le (GatewayInConfig.set_limits sIn) (proto (GatewayOutRegistry.set_limits sOut))) as [_ Hle].
  exact Hle.
Qed.

(** The Hello of gateway-in meets every requirement of gateway-out but one: the
    Drain capability is the choice of its configuration. *)
Lemma hello_acceptable_agreed :
  negotiated -> CAPABILITY_DRAIN ∈ GatewayInConfig.set_capabilities sIn ->
  hello_acceptable sOut reg (offered_capabilities reg)
    (mkGatewayInHello protocolVersion (slices_Sort (elements (neg_capabilities n))) (slices_Sort (elements (neg_classes n)))
       (slices_Sort (elements (neg_routes n))) (Some (cloneLimits (Some (neg_limits n)))) (GatewayInConfig.set_instanceID sIn) [])
    (cloneLimits (Some (neg_limits n))).
Proof.
  intros Hg Hd. pose proof (NewRegistry_wf _ _ _ (ng_specs Hg) (ng_registry Hg)) as [Hk [_ Ho] [_ Hc]].
  destruct (negotiate_cases sIn (out_hello sOut reg)) as [[He _]|(n' & He & Hne & Hr & Hcl & Hcap & _)];
    rewrite (ng_negotiate Hg) in He; [done|]. injection He as <-.
  destruct (sorted_elements_spec (neg_capabilities n)) as (_ & Scap & _).
  destruct (sorted_elements_spec (neg_classes n)) as (_ & Scl & _).
  destruct (sorted_elements_spec (neg_routes n)) as (_ & Srt & _).
  unfold hello_acceptable. cbn [gih_capabilities gih_traffic_classes gih_route_ids gih_limits]. split_and!.
  - apply Scap, Hcap. split; [done|]. unfold out_hello, offered_capabilities. cbn [goh_capabilities]. set_solver +.
  - intros c Hin%Scap%Hcap. apply Hin.
  - apply sorted_nonempty. intros Hnil. apply Hne, set_eq. intros id. rewrite Hr. split; [|set_solver].
    intros [c Ha]. assert (c ∈ neg_classes n) by (apply Hcl; eauto). set_solver.
  - by apply sorted_nonempty.
  - intros c Hin%Scl%Hcl. destruct Hin as (r & _ & _ & Hin & _). exact Hin.
  - intros id Hin%Srt%Hr. destruct Hin as [c Ha]. pose proof Ha as (_ & [r Hrt]%Ho & _). exists r. split; [done|].
    apply Scl, Hcl. exists id. replace (rt_TrafficClass (rt_spec r)) with c; [done|].
    apply (settings_route_class _ _ _ _ (ng_in Hg)) in Ha. destruct (Hk _ _ Hrt) as [Hid [Hclass _]]. rewrite Hid in Hclass.
    apply routeTrafficClass_spec in Ha as [<- _], Hclass as [<- _]. done.
  - done.
  - by apply agreed_limits.
Qed.

(** C11. The two ends agree: whenever gateway-in finds a policy in common with the
    Hello that gateway-out sends, gateway-out accepts the answer and keeps exactly
    the routes, classes, limits and tunnel identifier that gateway-in negotiated,
    unless gateway-in is configured without the Drain capability, which is refused
    as a protocol violation. *)
Theorem handshake_agrees :
  negotiated ->
  acceptHello sOut reg (hello n tunnelID (GatewayInConfig.set_instanceID sIn)) (offered_capabilities reg) =
  if decide (CAPABILITY_DRAIN ∈ GatewayInConfig.set_capabilities sIn) then Ok agreed_params else Err errProtocol.
Proof.
  intros Hg. assert (Hwf : gateway_in_frame_wf (hello n tunnelID (GatewayInConfig.set_instanceID sIn))).
  { eapply negotiated_hello_wf; [apply Hg| |apply Hg|apply Hg]. eapply out_hello_is_wf; apply Hg. }
  case_decide as Hd.
  - apply acceptHello_Ok. split; [done|]. eexists _, _. split; [done|].
    split; [by apply hello_acceptable_agreed|]. unfold agreed_params. cbn [gih_route_ids gih_traffic_classes gih_instance_id].
    rewrite !sorted_elements_set, copy_instanceID_16 by apply (ng_in Hg). done.
  - unfold acceptHello. apply in_frame_Ok in Hwf. rewrite Hwf. cbn. rewrite bool_decide_eq_false_2; [done|].
    rewrite (proj1 (proj2 (sorted_elements_spec _))).
    destruct (negotiate_cases sIn (out_hello sOut reg)) as [[He _]|(n' & He & _ & _ & _ & Hcap & _)];
      rewrite (ng_negotiate Hg) in He; [done|]. injection He as <-. rewrite Hcap. tauto.
Qed.
End handshake.

(** ** A response on its way to the caller *)

Section response.
Context {S : Type} `{FrameSink S}.
(** The queue of gateway-in has room for the grants. *)
Context (room : forall s ctxErr f, (enqueueFrame s ctxErr f).2 = Ok tt).

(** The request of gateway-in is ready for the frames [body]: they carry the next
    numbers, their data fits the limit of the route in chunks of at most [window]
    bytes, and their credit fits the limit of the request body. *)
Record ready (window : Z) (q : logicalRequest) (body : list ConnectRequest) : Prop := {
  rd_open : isCompleted q = false /\ isResponseClosed q = false;
  rd_numbers : frame_seq <$> body = seqZ (inboundSequence q + 1) (len body) /\
    0 <= inboundSequence q /\ inboundSequence q + len body + 2 < 2 ^ 64;
  rd_grants : 0 <= outboundSequence q /\ outboundSequence q + len body < MaxUint64;
  rd_flow : Forall is_flow body;
  rd_window : Forall (fun f => len (frame_data f) <= window) body;
  rd_credit : Forall (fun f => 0 <= frame_credit f) body /\ 0 <= LogicalRequest.sendCredit q /\
    LogicalRequest.sendCredit q + sent_credit body <= MaxRequestBytes (req_policy q);
  rd_data : LogicalRequest.receiveCredit q = window `min` (MaxResponseBytes (req_policy q) - len (responsePayload q)) /\
    len (responsePayload q) + len (sent_data body) <= MaxResponseBytes (req_policy q)
}.

Lemma sent_credit_cons f fs : sent_credit (f :: fs) = frame_credit f + sent_credit fs.
Proof. done. Qed.
Lemma sent_data_cons f fs : sent_data (f :: fs) = frame_data f ++ sent_data fs.
Proof. done. Qed.
Lemma sent_credit_nonneg fs : Forall (fun f => 0 <= frame_credit f) fs -> 0 <= sent_credit fs.
Proof. induction 1; [done|]. rewrite sent_credit_cons. lia. Qed.

(** What one frame changes in a request that is ready for it. *)
Definition advanced (q : logicalRequest) (f : ConnectRequest) (granted : Z) (q' : logicalRequest) : Prop :=
  isCompleted q' = false /\ isResponseClosed q' = false /\ req_policy q' = req_policy q /\
  acceptResponseTail q' = acceptResponseTail q /\
  inboundSequence q' = inboundSequence q + 1 /\ outboundSequence q <= outboundSequence q' <= outboundSequence q + 1 /\
  LogicalRequest.sendCredit q' = LogicalRequest.sendCredit q + frame_credit f /\
  responsePayload q' = responsePayload q ++ frame_data f /\
  LogicalRequest.receiveCredit q' = LogicalRequest.receiveCredit q - len (frame_data f) + granted.

(** Computes the fields of an updated request. *)
Ltac request_fields :=
  cbn [set_inboundSequence set_outboundSequence LogicalRequest.set_receiveCredit LogicalRequest.set_sendCredit set_creditReady
       set_responsePayload set_isResponseClosed isCompleted isResponseClosed req_policy acceptResponseTail inboundSequence outboundSequence
       LogicalRequest.sendCredit LogicalRequest.receiveCredit responsePayload].
Ltac request_fields_all :=
  cbn [set_inboundSequence set_outboundSequence LogicalRequest.set_receiveCredit LogicalRequest.set_sendCredit set_creditReady
       set_responsePayload set_isResponseClosed isCompleted isResponseClosed req_policy acceptResponseTail inboundSequence outboundSequence
       LogicalRequest.sendCredit LogicalRequest.receiveCredit responsePayload] in *.

Lemma accept_credit q s f c :
  isCompleted q = false -> frame_seq f = inboundSequence q + 1 -> 0 <= inboundSequence q -> inboundSequence q + 1 < 2 ^ 64 ->
  creq_payload f = Some (Req_Credit c) -> 0 <= frame_credit f ->
  LogicalRequest.sendCredit q + frame_credit f <= MaxRequestBytes (req_policy q) -> isResponseClosed q = false ->
  exists q', handleInbound q s f = (q', s, Ok tt) /\ advanced q f 0 q'.
Proof.
  intros Hc Hn Hi Hm Hp Hcr Hs Hcl. unfold advanced, frame_data, frame_credit, GetData_req, GetCredit_req in *. rewrite Hp in *.
  unfold handleInbound, handleInbound_locked. unfold frame_seq in Hn. rewrite Hc, Hn, u64_small, Z.eqb_refl, Hp by lia. cbn [negb].
  unfold set_inboundSequence at 1 2 3 4. cbn [req_policy LogicalRequest.sendCredit].
  rewrite (proj2 (Z.ltb_ge _ _)), (proj2 (Z.ltb_ge _ (GetBytes_credit c))) by lia. cbn [orb]. eexists. split; [done|].
  change (GetPayload_data None) with (@nil Z). change (len (@nil Z)) with 0. rewrite app_nil_r.
  request_fields.
  split_and!; try done; lia.
Qed.

Lemma accept_data q s f d :
  isCompleted q = false -> frame_seq f = inboundSequence q + 1 -> 0 <= inboundSequence q -> inboundSequence q + 1 < 2 ^ 64 ->
  creq_payload f = Some (Req_Data d) -> isResponseClosed q = false -> outboundSequence q < MaxUint64 -> 0 <= outboundSequence q ->
  len (frame_data f) <= LogicalRequest.receiveCredit q ->
  LogicalRequest.receiveCredit q <= MaxResponseBytes (req_policy q) - len (responsePayload q) ->
  exists q' s', handleInbound q s f = (q', s', Ok tt) /\
    advanced q f (len (frame_data f) `min` (MaxResponseBytes (req_policy q) - len (responsePayload q) - LogicalRequest.receiveCredit q)) q'.
Proof.
  intros Hc Hn Hi Hm Hp Hcl Ho Ho0 Hr Hd. unfold advanced, frame_data, frame_credit, GetData_req, GetCredit_req in *. rewrite Hp in *.
  unfold handleInbound, handleInbound_locked. unfold frame_seq in Hn. rewrite Hc, Hn, u64_small, Z.eqb_refl, Hp by lia. cbn [negb].
  destruct q as [qid qroute pol dl ready out inb sc rc payload closed completed tail tt' ts resp qe].
  request_fields_all. subst closed completed.
  pose proof (len_nonneg (GetPayload_data d)).
  rewrite (proj2 (Z.ltb_ge _ _)), (proj2 (Z.ltb_ge (MaxResponseBytes _) _)) by lia. cbn [orb].
  rewrite len_app. change (GetBytes_credit None) with 0.
  set (grant := _ `min` (_ - (len payload + _) - _)). destruct (Z.eqb_spec grant 0) as [Hg|Hg].
  - eexists _, _. split; [done|]. request_fields.
    split_and!; try done; subst grant; lia.
  - unfold grantReceiveCredit, enqueuePayloadLocked. request_fields. rewrite (proj2 (Z.eqb_neq out MaxUint64)) by lia.
    request_fields. rewrite u64_small by (unfold MaxUint64 in *; lia).
    match goal with |- context [enqueueFrame ?a ?b ?c] => pose proof (room a b c) as Hroom; destruct (enqueueFrame a b c) as [s' res] end.
    cbn [snd] in Hroom. subst res. eexists _, _. split; [done|]. request_fields.
    split_and!; try done; subst grant; lia.
Qed.

(** One frame of the response is accepted. *)
Lemma ready_step window q s f body :
  ready window q (f :: body) -> exists q' s', handleInbound q s f = (q', s', Ok tt) /\ ready window q' body /\
    responsePayload q' = responsePayload q ++ frame_data f /\ inboundSequence q' = inboundSequence q + 1.
Proof.
  intros [[Hc Hcl] (Hn & Hi & Hmax) [Ho Hom] Hfl Hw (Hcr & Hs & Hsum) [Hr Hd]].
  rewrite sent_credit_cons in Hsum. rewrite sent_data_cons, len_app in Hd. rewrite len_cons in *.
  apply Forall_cons in Hfl as [Hf Hfl]. apply Forall_cons in Hw as [Hwf Hw]. apply Forall_cons in Hcr as [Hcf Hcr].
  pose proof (len_nonneg body). pose proof (len_nonneg (sent_data body)). pose proof (len_nonneg (frame_data f)).
  pose proof (sent_credit_nonneg _ Hcr).
  rewrite (seqZ_cons (inboundSequence q + 1)) in Hn by lia. cbn [fmap list_fmap] in Hn. injection Hn as Hnf Hn.
  replace (Z.pred (1 + len body)) with (len body) in Hn by lia.
  assert (exists q' s' granted, handleInbound q s f = (q', s', Ok tt) /\ advanced q f granted q' /\
    LogicalRequest.receiveCredit q - len (frame_data f) + granted =
      window `min` (MaxResponseBytes (req_policy q) - (len (responsePayload q) + len (frame_data f)))) as (q' & s' & g & Hh & Ha & Hg).
  { unfold is_flow in Hf. destruct (creq_payload f) as [[]|] eqn:Hp; try done.
    - edestruct (accept_data q s f) as (q' & s' & Hh & Ha); eauto; try lia. eexists q', s', _. split_and!; [done|exact Ha|lia].
    - edestruct (accept_credit q s f) as (q' & Hh & Ha); eauto; try lia. exists q', s, 0. split_and!; [done|exact Ha|].
      replace (frame_data f) with (@nil Z) by (unfold frame_data, GetData_req; by rewrite Hp).
      change (len (@nil Z)) with 0. lia. }
  exists q', s'. destruct Ha as (Hc' & Hcl' & Hpol & _ & Hi' & Ho' & Hs' & Hp' & Hr'). split; [done|]. split; [|done].
  constructor; rewrite ?Hpol, ?Hi', ?Hp', ?len_app; try done; try lia.
  - split_and!; [|lia|lia]. rewrite Hn. by f_equal.
  - split; [done|lia].
Qed.

Lemma ready_run window tail body : forall q s,
  ready window q body -> exists q' s', inbound_run q s (body ++ tail) = inbound_run q' s' tail /\ ready window q' [] /\
    responsePayload q' = responsePayload q ++ sent_data body /\ inboundSequence q' = inboundSequence q + len body.
Proof.
  induction body as [|f body IH]; intros q s Hq.
  { exists q, s. rewrite app_nil_r, len_nil, Z.add_0_r. done. }
  destruct (ready_step _ _ s _ _ Hq) as (q1 & s1 & Hh & Hq1 & Hp1 & Hi1).
  destruct (IH q1 s1 Hq1) as (q2 & s2 & Hrun & Hq2 & Hp2 & Hi2). exists q2, s2.
  cbn [app inbound_run]. rewrite Hh, Hp2, Hp1, Hi2, Hi1, sent_data_cons, len_cons, app_assoc. split_and!; try done. lia.
Qed.

(** HalfClose and Result end a request that is ready for nothing else. *)
Lemma ready_end window q s code tail :
  ready window q [] -> final_frames code tail -> frame_seq <$> tail = [inboundSequence q + 1; inboundSequence q + 2] ->
  exists q', inbound_run q s tail = Some (q', s) /\ isCompleted q' = true /\
    resp_Payload (response q') = responsePayload q /\
    req_err q' = if negb (code =? RESULT_CODE_OK) then Some (newResultError code) else None.
Proof.
  intros [[Hc Hcl] (_ & Hi & Hmax) _ _ _ _ _] Hfin Hseq. change (len (@nil ConnectRequest)) with 0 in Hmax.
  destruct tail as [|f1 [|f2 [|]]]; try done. unfold final_frames in Hfin. cbn [fmap list_fmap] in Hfin, Hseq.
  injection Hfin as Hp1 Hp2. injection Hseq as Hn1 Hn2. unfold frame_seq in Hn1, Hn2.
  destruct q as [qid qroute pol dl credit out inb sc rc payload closed completed acc term ts resp qe].
  request_fields_all. subst closed completed. cbn [inbound_run]. unfold handleInbound, handleInbound_locked. request_fields.
  rewrite Hn1, (u64_small (inb + 1)), Z.eqb_refl, Hp1 by lia. cbn [negb set_isResponseClosed]. request_fields.
  replace (inb + 1 + 1) with (inb + 2) by lia. rewrite Hn2, (u64_small (inb + 2)), Z.eqb_refl, Hp2 by lia. cbn [negb].
  unfold completeLocked. request_fields. eexists. split; [reflexivity|]. done.
Qed.
End response.

Section round_trip.
Context `{ProtoRuntime} `{InternalRpc} {S : Type} `{FrameSink S}.

(** A request of gateway-in that granted the window [window] and got no frame yet,
    with the limits of the route at gateway-out. *)
Definition awaits (params : sessionParams) (r : requestState) (window : Z) (q : logicalRequest) : Prop :=
  isCompleted q = false /\ isResponseClosed q = false /\ inboundSequence q = 0 /\ responsePayload q = [] /\
  0 <= outboundSequence q <= 2 ^ 32 /\ LogicalRequest.sendCredit q = 0 /\ LogicalRequest.receiveCredit q = window /\
  max_data_bytes (sp_limits params) <= window <= MaxResponseBytes (req_policy q) /\
  request_maximum (sp_limits params) r <= MaxRequestBytes (req_policy q) /\
  granted (rs_history r) <= MaxResponseBytes (req_policy q).

Lemma sendable_data params f : sendable params f -> 0 <= max_data_bytes (sp_limits params) ->
  len (frame_data f) <= max_data_bytes (sp_limits params).
Proof.
  intros [_ Hl] Hpos. unfold withinNegotiatedLimits_request, within_limits in Hl. unfold frame_data.
  destruct (_ <? size_request f); [done|]. destruct (GetData_req f) as [d|]; [|done].
  destruct (_ <? len (data_payload d)) eqn:Hd; [done|]. by apply Z.ltb_ge in Hd.
Qed.

Lemma final_frames_length code tail : final_frames code tail -> length tail = 2%nat.
Proof. intros Hf. apply (f_equal length) in Hf. by rewrite length_fmap in Hf. Qed.

(** The frames before an OK result are the response. *)
Lemma response_shape params r body tail :
  req_ok params r -> emitted (rs_history r) = body ++ tail -> final_frames RESULT_CODE_OK tail ->
  Forall is_flow body /\ GatewayOutSession.outcome (rs_history r) = Some (sent_data body, RESULT_CODE_OK).
Proof.
  intros Hr He Hf. destruct (rq_shape _ _ Hr) as (body' & tail' & He' & Hfl & Hend). rewrite He in He'.
  destruct Hend as [->|(code & Hf' & Hok)].
  - exfalso. rewrite app_nil_r in He'. rewrite <- He' in Hfl. apply Forall_app in Hfl as [_ Hfl].
    destruct tail as [|f tail]; [done|]. apply Forall_cons in Hfl as [Hff _]. unfold is_flow in Hff.
    injection Hf as Hp _. by rewrite Hp in Hff.
  - apply app_inj_2 in He' as [-> ->]; [|by rewrite (final_frames_length _ _ Hf), (final_frames_length _ _ Hf')].
    split; [done|]. apply Hok. unfold final_frames in Hf, Hf'. congruence.
Qed.

(** A response whose numbers are consecutive finds the request of gateway-in ready. *)
Lemma response_ready params r window q body tail :
  params_wf params -> req_ok params r -> awaits params r window q ->
  emitted (rs_history r) = body ++ tail -> Forall is_flow body -> len tail = 2 ->
  frame_seq <$> emitted (rs_history r) = seqZ 1 (len (emitted (rs_history r))) -> ready window q body.
Proof.
  intros Hp Hr (Hc & Hcl & Hi & Hpay & Ho & Hs & Hw & [Hmw Hwm] & Hreq & Hgr) He Hfl Ht Hseq.
  pose proof (request_numbers _ _ Hp Hr) as (_ & _ & _ & _ & _ & Hn). destruct (pw_positive _ Hp) as (Hd & _ & _).
  destruct (rq_sequence _ _ Hr) as [Hsub%sublist_length _]. rewrite length_fmap, length_seqZ in Hsub.
  destruct (rq_credit _ _ Hr) as [Hcf Hcs]. destruct (rq_receive _ _ Hr) as [_ Hbc]. destruct (rq_send _ _ Hr) as [[Hsc _] Hsd].
  pose proof (rq_sendable _ _ Hr) as Hsend. rewrite He in *. rewrite sent_data_app, len_app in Hsd.
  rewrite sent_credit_app in Hcs. apply Forall_app in Hcf as [Hcf Hct], Hsend as [Hsend _].
  rewrite fmap_app, len_app, seqZ_app in Hseq by (unfold len; lia). apply app_inj_1 in Hseq as [Hseq _];
    [|rewrite length_fmap, length_seqZ; unfold len; lia].
  rewrite length_app in Hsub. pose proof (len_nonneg body). pose proof (len_nonneg (sent_data tail)).
  pose proof (sent_credit_nonneg _ Hct). unfold len in Ht.
  constructor; rewrite ?Hi, ?Hpay, ?Hs, ?Hw; try done.
  - split_and!; [done|done|]. unfold len. lia.
  - split; [lia|]. unfold MaxUint64, len. lia.
  - eapply Forall_impl; [exact Hsend|]. intros f Hf. cbn. pose proof (sendable_data _ _ Hf). lia.
  - split_and!; [done|done|lia].
  - change (len (@nil Z)) with 0. split; lia.
Qed.

End round_trip.

(** ** The sample gateways *)

Definition sample_agreement : negotiation :=
  match negotiate GatewayInNegotiation.sample_settings (out_hello GatewayOutSample.sample_settings sample_registry) with
  | Ok n => n
  | _ => mkNegotiation GatewayInNegotiation.sample_limits ∅ ∅ ∅
  end.

Lemma handshake_agrees_witness :
  acceptHello GatewayOutSample.sample_settings sample_registry
    (hello sample_agreement (replicate 16 7) (replicate 16 1)) (offered_capabilities sample_registry) =
  Ok (agreed_params GatewayInNegotiation.sample_settings GatewayOutSample.sample_settings sample_registry
        sample_agreement (replicate 16 7)) /\
  neg_routes sample_agreement = {[ROUTE_ID_USER_GET_ME]}.
Proof.
  split; [|vm_compute; reflexivity].
  apply (handshake_agrees GatewayInNegotiation.sample_settings GatewayOutSample.sample_settings sample_clients [sample_spec]
    sample_registry sample_agreement (replicate 16 7)).
  constructor; [apply sample_settings_wf|reflexivity|vm_compute; reflexivity| |vm_compute; reflexivity|reflexivity|vm_compute; reflexivity].
  repeat constructor; discriminate.
Defined.

(** A request of gateway-in with room for every frame. *)
#[local] Instance open_sink : FrameSink unit := {
  sink_id _ := replicate 16 7;
  sink_limits _ := GatewayOutSample.sample_limits;
  sink_initialResponseCredit _ := 8;
  sink_ctxErr _ := None;
  enqueueFrame _ _ _ := (tt, Ok tt)
}.

Definition sample_caller : logicalRequest :=
  LogicalRequest.set_receiveCredit
    (newLogicalRequest (replicate 16 9) ROUTE_ID_USER_GET_ME (mkRoutePolicy TRAFFIC_CLASS_REGULAR 64 64 (5 * Second) 8) 1000) 8.

